(* ===== verification/_CoqProject ===== *)
-Q . S2P
Prelude.v
Monad.v
Batch.v
Device.v
Batching.v
Wire.v
Terminal.v
PoolBatch.v
Pool.v
PoolReceive.v
PoolRead.v
PoolOutcome.v
MultiPool.v
Stdio.v
StdioProofs.v
StdioRuns.v
StdioGym.v
HardwareDecode.v
HardwareConfig.v
HardwareHost.v
HardwareCapture.v
HardwareMultimodal.v
Floats.v
Health.v
HealthProofs.v
WindowsHardware.v
WprProfile.v
TraceCounter.v
TraceChunks.v
TraceProgress.v
FileSearch.v
ModelBatch.v
ModelMasks.v
Features.v
FeatureLanes.v
FeatureCells.v
FeatureCapture.v
ModelValid.v
ExperimentCapture.v
ExperimentAdmission.v
ExperimentPlan.v
ExperimentCorruptions.v
ExperimentCollect.v
TraceSketch.v
FloatExact.v
SketchTorch.v
SketchExact.v
SketchNative.v
SketchChecks.v
PretrainData.v
PretrainQueue.v
PretrainTrain.v
ContextBlocks.v
DigitCounts.v
DigitDataset.v
DigitCollect.v
Initramfs.v
LayoutData.v
LayoutTokens.v
LayoutTrain.v
LayoutCollect.v
PipelineSummary.v
PipelineBench.v
KernelPolicy.v
GuestActions.v
CaptureRun.v
CaptureReport.v
CaptureManifest.v
TriagePca.v
TriageBench.v
CaptureQualify.v
ExperimentCustody.v
MaskedModel.v
ExperimentEvaluate.v
DigitTrain.v
