(* ===== verification/Prelude.v ===== *)
(** * cpu2tensor: a verification of its Python code

    cpu2tensor turns the execution of a CPU into tensors. A native worker
    (a QEMU plugin and its host) streams fixed-size frames over TCP; the
    Python package reads them into batches of columns. A second family of
    captures reads hardware tracing (perf on Linux, WPR on Windows), and the
    examples build model features and training policies on top. This library
    models the Python code, file by file, and proves what its parts promise.

    ** How the parts interact

    [pool.py] connects to a worker, receives frames, has the native decoder
    unpack them and yields [batch.py]'s batches, grouped by [_batching.py] and
    moved by [_device.py]; a run ends with an outcome of [terminal.py].
    [_multipool.py] runs one pool per worker in threads behind one iterator.
    [stdio.py] and [kernel.py] drive one worker interactively and wrap it for
    Gymnasium. [hardware.py] opens, arms, reads and closes perf events, for one
    signal or for several at once; [windows_hardware.py] does so through WPR.
    [hardware_multimodal_features.py] turns a multimodal capture into one row
    of the tensors of [hardware_multimodal.py]; [hardware_pretraining_health.py]
    decides from health records what a training campaign may do next;
    [hardware_multimodal_experiment.py] plans a corpus, captures, admits, collects
    and seals its executions, and trains and judges models on it;
    [benchmark_capture.py] runs commands and counts their traces as an
    independent reader; [hardware_multimodal_capture.py] qualifies a host and
    [hardware_triage_benchmark.py] fits and judges the frozen model of
    [hardware_triage.py].
    The learning examples turn batches into datasets and models:
    [pretrain_kernel.py] trains from several workers through a bounded queue,
    [observe_context.py] gives each block the CR3 in force, [learn_trace.py]
    counts the digits a program handled, [collect_layout.py] and
    [learn_layout.py] learn paths across load addresses of one executable;
    [benchmark_pipeline.py] measures a pool and a small model behind it;
    [learn_kernel.py], [custom_kernel_actions.py] and [learn_stdio.py] act on
    an interactive worker and check or learn from its answers;
    [build_initramfs.py] packs the guest that a kernel worker boots.

    ** Files, in dependency order (sources under [src/python/cpu2tensor])

    - [Prelude]: results and exceptions as Python classes with their bases,
      [raise! c m when b in k], lists, dictionaries in insertion order,
      little-endian integers and [struct], sums, and the shared tactics and hints.
    - [Monad]: mutable state with exceptions, [try]/[finally], and the rules to
      reason about it ([wp], kept invariants).
    - [Batch]: [batch.py]; tensors are a dtype, a device, a shape and elements.
    - [Device]: [_device.py], [to_device].  [Batching]: [_batching.py].
    - [Wire]: [wire.py] and the C++ header codec it relies on
      ([native/core/trace.cpp], [native/python/module.cpp]).
    - [Terminal]: [terminal.py].  [PoolBatch]: [pool.py], [_tensor] and [_batch].
    - [Pool]: the rest of [pool.py]; [PoolReceive], [PoolRead] and [PoolOutcome]
      hold its theorems.
    - [MultiPool]: [_multipool.py] as a step relation over all interleavings.
    - [Stdio]: [stdio.py] and [kernel.py]; [StdioProofs] the invariant,
      [StdioRuns] the contract, [StdioGym] the wrapper class.
    - [HardwareDecode], [HardwareConfig], [HardwareHost], [HardwareCapture],
      [HardwareMultimodal]: [hardware.py] - its decoding, its configuration and
      event attributes, the system calls, [PerfCapture], [PerfMultimodalCapture].
    - [Floats]: binary64 and binary32 arithmetic, on [SpecFloat].
    - [Health], [HealthProofs]: [examples/hardware_pretraining_health.py].
    - [WindowsHardware], [WprProfile]: [windows_hardware.py].
    - [TraceCounter], [TraceChunks], [TraceProgress], [FileSearch]:
      [examples/benchmark_capture.py], [TraceCounter] and [file_contains].
    - [ModelBatch], [ModelMasks]: [examples/hardware_multimodal.py], its
      batches, masks and scoring plans.
    - [Features], [FeatureLanes], [FeatureCells]:
      [examples/hardware_multimodal_features.py]; [FeatureCapture] composes it
      with the capture, [ModelValid] says what a valid model batch is.
    - [ExperimentCapture], [ExperimentAdmission], [ExperimentPlan],
      [ExperimentCorruptions], [ExperimentCollect], [ExperimentCustody],
      [ExperimentEvaluate]: [examples/hardware_multimodal_experiment.py] - the
      capture of one gated target and its admission, the plan of a corpus, the
      corrupted evaluation batches, the collection loop and its books, the sealed
      files and their loading, training and evaluation.
    - [MaskedModel]: the rest of [examples/hardware_multimodal.py] - the masked
      model around its network: checks, training, scoring, checkpoints.
    - [TraceSketch]: [examples/hardware_triage.py], the sketches of raw traces,
      with the native implementation ([native/python/module.cpp]);
      [FloatExact], [SketchTorch], [SketchExact], [SketchNative] and
      [SketchChecks] hold its theorems.
    - [PretrainData], [PretrainQueue], [PretrainTrain]:
      [examples/pretrain_kernel.py] - pairs of blocks, minibatches in owned
      storage and the held-out reservoir; the queue of reader threads as a step
      relation; the training loop.
    - [ContextBlocks]: [examples/observe_context.py].
    - [DigitCounts], [DigitDataset], [DigitCollect], [DigitTrain]:
      [examples/learn_trace.py] - symbols and counting, inputs, validation and
      split, collection, training.
    - [Initramfs]: [examples/build_initramfs.py], with a reader of its format.
    - [LayoutData], [LayoutTokens], [LayoutTrain]: [examples/learn_layout.py] -
      validation and features, what tokens show, training and the run;
      [LayoutCollect]: [examples/collect_layout.py].
    - [PipelineSummary], [PipelineBench]: [examples/benchmark_pipeline.py] - the
      features of a batch; the measured run with its accounts and files.
    - [KernelPolicy]: [examples/learn_kernel.py].  [GuestActions]:
      [examples/custom_kernel_actions.py] and [examples/learn_stdio.py].
    - [CaptureRun], [CaptureReport], [CaptureManifest]: the rest of
      [examples/benchmark_capture.py] - one run of a case, the rounds and their
      summary, the manifest.
    - [TriagePca]: the model of [examples/hardware_triage.py]; [TriageBench]:
      [examples/hardware_triage_benchmark.py]; [CaptureQualify]:
      [examples/hardware_multimodal_capture.py].

    A definition keeps the name of the function it translates where the name is
    free; a loop body or an [except] clause that is reasoned about alone has a
    definition of its own. Objects are records passed explicitly, exceptions are
    values carrying their class and message, generators are functions from a
    resume point to the next one.

    ** What the theorems show

    - The reader: framing does not depend on how the stream is cut
      ([receive_frame_exact], [read_is_function_of_bytes]); read-ahead never
      waits ([ready_frame_is_received]); columns hold the decoded bytes
      ([batch_columns_exact]); the outcome, the exception and the summaries
      agree ([read_outcome_consistent], [deadline_report_verified]); it ends
      ([read_terminates]) and closes its sockets ([read_closes_every_socket]).
    - Collation and upload: nothing is lost, repeated or reordered
      ([collator_fifo], [merge_batches_rows], [to_device_lossless]) within
      bounded memory ([collator_accounting], [collator_limits]).
    - Groups of workers, in every interleaving: order, faithful results, no
      deadlock ([group_delivers_in_order], [group_result_faithful],
      [group_progress], [rotation_serves_waiting_worker]).
    - Interactive runs: [stdio_invariant], [step_sends_exactly],
      [next_reaches_boundary], [stale_iterator_isolated], [gym_step_contract].
    - Hardware captures: decoding is all or nothing ([decode_records_exact],
      [ring_bytes_exact], [counter_group_exact]); a stop returns only complete
      data ([stop_returns_complete], [multimodal_stop_honest]); nothing leaks
      whatever call fails ([capture_releases], [multimodal_releases],
      [wpr_releases]).
    - Health policy: [validate_exact], [decision_bounded], [decision_total],
      [campaign_bounded].
    - Counting a trace: [chunking_irrelevant], [finished_trace_sound],
      [file_contains_exact].
    - Features and masks: [featurize_order_free], [pt_features_conserve],
      [pebs_samples_bucketed], [training_masks_sound], [scoring_plans_cover];
      what a capture returns is what the featurizer takes
      ([stopped_capture_accepted]).
    - Building a corpus: a plan is an exact partition ([plan_exact]); a target
      never outlives its capture ([execution_contained]), which is admitted or
      refused on its evidence ([complete_capture_admitted]); the books account
      for every attempt ([collection_accounts]); a sealed corpus loads exactly as
      captured or not at all, whichever write fails ([corpus_custody]), and is
      never overwritten ([sealed_corpus_kept]); corrupted batches stay valid
      ([corruptions_valid]).
    - The masked model: training always has something to reconstruct
      ([training_returns]), a score looks at every available token
      ([scoring_exact]), a frozen model survives its checkpoint
      ([checkpoint_roundtrip]); models and thresholds never see what they are judged
      on ([evaluation_blind]), which is exactly what the plan set aside
      ([evaluation_accounts]).
    - Raw trace sketches: the batched torch code and the native loop, with its
      counters in floats, return the sketch of each trace ([sketch_exact]).
    - Training from workers: the queue delivers in order and never blocks
      ([queue_delivers_exactly], [queue_progress]); training is a function of
      the pairs, not of the schedule ([train_refines],
      [training_schedule_free]); minibatches own their storage
      ([minibatches_own_storage]); the reservoir is fair ([reservoir_exact]).
    - Datasets: batching never shows ([digit_counts_exact],
      [cr3_of_whole_run], [layout_samples_exact]); what validation accepts
      ([dataset_accepted_exactly], [layout_dataset_accepted_exactly]); a
      collected dataset says what ran ([collected_dataset_sound],
      [layout_pipeline_faithful]); training and held-out rows stay apart
      ([split_keeps_apart], [heldout_labels_only_score], [digit_training_honest]).
    - Layout learning: tokens do not depend on the load address
      ([relocation_invariant]) and only numbers can stop a run
      ([layout_run_total]).
    - Judging a model and a host: every family is captured equally often and the
      model has seen nothing of what it is judged on ([triage_run_sound],
      [triage_blind], [left_out_blind]); a checkpoint loads as the model it was
      ([pca_checkpoint_roundtrip]); a qualified host has shown what the report
      claims ([qualification_honest]).
    - Measured captures: an "ok" is backed by a clean exit and a sealed trace, and
      no run leaves a process or a pipe ([case_run_honest]); every case of an
      accepted manifest runs in every round ([manifest_benchmark_complete]).
    - Measured runs: a report accounts for every batch, a failure for every batch
      before it ([benchmark_accounts]); padding bytes change no feature
      ([summary_exact_bytes]).
    - Acting on a guest: what a run that returns has sent, checked and been
      rewarded for ([kernel_run_checked], [actions_run_checked],
      [digit_run_honest]), from exact counts ([block_features_exact]).
    - The guest image: a reader of the archive finds the guest's files
      ([initramfs_holds_guest]).

    ** Interfaces and assumptions

    Code that is not Python code of the package is an interface or an argument:
    sockets ([SocketOps], with their documented behaviour in [SocketLaws] and
    [ReliableSocket]), the stateful native payload decoder ([NativeDecoder], any
    function of its state and bytes), the perf system calls and the memory they
    map ([machine]: every call may fail), the [wpr] tool ([Recorder]), JSON,
    ISO timestamps, [urlsplit], random generators ([RandomOps], whose [shuffle]
    permutes and [sample] draws a part: [RandomLaws]), the target process of an
    execution ([child]: anything it prints or returns; killing it and collecting
    its output do not fail), the C library's [log1p] and [pow], torch's random
    draws and permutations ([RandintOps], [DrawOps], [PermOps]), its
    [searchsorted] ([SearchOps]) and float comparison ([FloatOps]), the guest of
    the acting clients ([GuestOps], any behaviour); [...Laws] state what is relied
    on. Networks are arguments of the training loops: the
    scores of a row or a minibatch, the loss, the gradient step, and whether they
    are finite. Each interface has an instance, used by the witnesses.

    ** Bounds and fuel

    Loops that follow a stream take fuel; [read_terminates] and
    [next_reaches_boundary] show that more fuel than bytes left is enough, and
    the receive, decode, merge and counting loops compute theirs from the input
    (the proofs show that it never runs out). [make_inputs] has the attempts
    of the code. [group_progress] and [queue_progress] need no fuel: the group
    and the queue are relations. Machine integers are [Z] with their width checked
    or wrapped where the code or [struct] does so.

    ** Not modelled

    The native producers (QEMU plugin, worker, trace writer), since the reader's
    theorems hold for every byte stream; the numerics of neural networks,
    gradients and baselines; the bytes of checkpoint and tensor files;
    the timing of phases, resource usage, file digests and the identity of hosts
    in reports; notebooks; argument parsers; memory allocation failures and
    signals. *)

From stdpp Require Export base tactics list strings numbers gmap pretty.
From Stdlib Require Export ZArith Lia.

#[global] Open Scope string_scope.
#[global] Open Scope list_scope.
#[global] Open Scope Z_scope.

(** ** Python values the standard library provides *)

Declare Scope py_scope.
Delimit Scope py_scope with py.

(** The exception classes the modelled code raises or catches. *)
Inductive exc_class :=
  | BaseException_ | Exception_
  | ValueError | TypeError | KeyError | IndexError | AssertionError
  | StructError | ZeroDivisionError | OverflowError | ImportError | AttributeError
  | RuntimeError | OSError | ConnectionError | ConnectionResetError
  | TimeoutError
  | TraceTerminalError | TraceConnectionError | TraceTimeoutError
  | HardwareCaptureError | HardwareTraceLost
  | HardwareFeatureError | HealthRecordError.

#[global] Instance exc_class_eq_dec : EqDecision exc_class.
Proof. solve_decision. Defined.

(** Direct bases, as the class statements (and Python's builtins) give them. *)
Definition exc_bases (c : exc_class) : list exc_class :=
  match c with
  | BaseException_ => []
  | Exception_ => [BaseException_]
  | ValueError | TypeError | KeyError | IndexError | AssertionError
  | StructError | ZeroDivisionError | OverflowError | ImportError | AttributeError
  | RuntimeError | OSError => [Exception_]
  | ConnectionError => [OSError]
  | ConnectionResetError => [ConnectionError]
  | TimeoutError => [OSError]
  | TraceTerminalError => [RuntimeError]
  | TraceConnectionError => [ConnectionError; TraceTerminalError]
  | TraceTimeoutError => [TimeoutError; TraceTerminalError]
  | HardwareCaptureError => [RuntimeError]
  | HardwareTraceLost => [HardwareCaptureError]
  | HardwareFeatureError => [ValueError]
  | HealthRecordError => [ValueError]
  end.

(** [isinstance(error, class)]: the depth of the hierarchy is at most five. *)
Fixpoint subclass_fuel (n : nat) (c d : exc_class) : bool :=
  bool_decide (c = d) ||
  match n with
  | O => false
  | S n => existsb (fun b => subclass_fuel n b d) (exc_bases c)
  end.
Definition isinstance_exc (c d : exc_class) : bool := subclass_fuel 6 c d.

Record exn := Exn { exn_class : exc_class; exn_msg : string }.

#[global] Instance exn_eq_dec : EqDecision exn.
Proof. solve_decision. Defined.

(** ** Fallible code: a value or a raised exception *)

Inductive res (E A : Type) :=
  | Ok (a : A)
  | Raise (e : E).
Arguments Ok {E A} a.
Arguments Raise {E A} e.

Abbreviation result := (res exn).

#[global] Instance res_eq_dec `{EqDecision E, EqDecision A} : EqDecision (res E A).
Proof. solve_decision. Defined.

Definition rbind {E A B} (c : res E A) (k : A -> res E B) : res E B :=
  match c with Ok a => k a | Raise e => Raise e end.

Definition is_ok {E A} (c : res E A) : bool :=
  match c with Ok _ => true | Raise _ => false end.

(** [value is not None] *)
Definition is_some {A} (o : option A) : bool :=
  match o with Some _ => true | None => false end.

(** [raise class(msg)] *)
Definition throw {A} (c : exc_class) (msg : string) : result A := Raise (Exn c msg).

Notation "'let!' x ':=' c 'in' k" := (rbind c (fun x => k))
  (at level 10, x pattern, c at level 200, k at level 200) : py_scope.
(** [if b: raise class(msg)], followed by the rest of the block. *)
Notation "'raise!' cl msg 'when' b 'in' k" := (if b then throw cl msg else k)
  (at level 10, cl at level 9, msg at level 9, b at level 200, k at level 200) : py_scope.
#[global] Open Scope py_scope.

Lemma rbind_Ok {E A B} (c : res E A) (k : A -> res E B) b :
  rbind c k = Ok b <-> exists a, c = Ok a /\ k a = Ok b.
Proof.
  destruct c as [a|e]; simpl.
  - split; [eauto|]. by intros (? & [= <-] & ?).
  - split; [done|]. by intros (? & ? & ?).
Qed.

Lemma rbind_assoc {E A B C} (c : res E A) (f : A -> res E B) (g : B -> res E C) :
  rbind (rbind c f) g = rbind c (fun a => rbind (f a) g).
Proof. by destruct c. Qed.

(** A list comprehension whose body can raise: the first exception wins. *)
Fixpoint rmap {E A B} (f : A -> res E B) (l : list A) : res E (list B) :=
  match l with
  | [] => Ok []
  | a :: l => let! b := f a in let! bs := rmap f l in Ok (b :: bs)
  end.

Lemma rmap_Ok {E A B} (f : A -> res E B) l bs :
  rmap f l = Ok bs <-> Forall2 (fun a b => f a = Ok b) l bs.
Proof.
  revert bs; induction l as [|a l IH]; intros bs; simpl.
  - split; [intros [= <-]; constructor | by inversion 1].
  - rewrite rbind_Ok. split.
    + intros (b & Hb & (bs' & Hbs & [= <-])%rbind_Ok). constructor; [done|by apply IH].
    + inversion 1; subst. eexists; split; [done|]. apply rbind_Ok.
      eexists; split; [by apply IH|done].
Qed.

Lemma rmap_length {E A B} (f : A -> res E B) l bs :
  rmap f l = Ok bs -> length bs = length l.
Proof. intros H%rmap_Ok. symmetry. by eapply Forall2_length. Qed.

Lemma rmap_ext {E A B} (f g : A -> res E B) l : (forall a, a ∈ l -> f a = g a) -> rmap f l = rmap g l.
Proof.
  induction l as [|a l IH]; intros Hfg; [done|]. cbn [rmap]. rewrite Hfg by left.
  rewrite IH; [done|]. intros b Hb. apply Hfg. by right.
Qed.
Lemma rmap_app {E A B} (f : A -> res E B) l1 l2 : rmap f (l1 ++ l2) =
  let! r1 := rmap f l1 in let! r2 := rmap f l2 in Ok (r1 ++ r2).
Proof.
  induction l1 as [|a l1 IH]; [simpl; by destruct (rmap f l2)|]. cbn [app rmap]. rewrite IH.
  destruct (f a); [|done]. cbn [rbind]. destruct (rmap f l1); [|done]. cbn [rbind]. by destruct (rmap f l2).
Qed.

(** A loop [for x in l: state = body(state, x)] whose body can raise. *)
Fixpoint rfold {E S A} (f : S -> A -> res E S) (s : S) (l : list A) : res E S :=
  match l with
  | [] => Ok s
  | a :: l => let! s' := f s a in rfold f s' l
  end.

Lemma rfold_app {E S A} (f : S -> A -> res E S) l1 l2 s :
  rfold f s (l1 ++ l2) = rbind (rfold f s l1) (fun s' => rfold f s' l2).
Proof. revert s; induction l1 as [|a l1 IH]; intros s; simpl; [done|]. destruct (f s a); simpl; auto. Qed.

(** An invariant of the body is an invariant of the loop. *)
Lemma rfold_inv {E S A} (f : S -> A -> res E S) (P : S -> Prop) l s s' :
  (forall s a s', P s -> f s a = Ok s' -> P s') ->
  P s -> rfold f s l = Ok s' -> P s'.
Proof.
  intros Hstep. revert s; induction l as [|a l IH]; intros s Hs; simpl.
  - by intros [= <-].
  - intros (s1 & H1 & H2)%rbind_Ok. eauto.
Qed.

(** ** Tactics *)

(** Splits the binds, guards and matches of a hypothesis [... = Ok _]. *)
Ltac inv_res H :=
  repeat lazymatch type of H with
  | rbind _ _ = Ok _ =>
      apply rbind_Ok in H; let x := fresh "v" in let Hx := fresh "Hv" in
      let Hk := fresh "Hk" in destruct H as (x & Hx & Hk); rename Hk into H
  | (if ?b then throw _ _ else _) = Ok _ =>
      let Hb := fresh "Hg" in destruct b eqn:Hb; [discriminate H|]
  end; try discriminate H.

(** Turns boolean tests into the propositions they decide. *)
Ltac bool_prop :=
  repeat match goal with
  | H : (_ && _) = true |- _ => apply andb_true_iff in H; destruct H
  | H : (_ || _) = false |- _ => apply orb_false_iff in H; destruct H
  | H : negb _ = true |- _ => apply negb_true_iff in H
  | H : negb _ = false |- _ => apply negb_false_iff in H
  | H : (_ =? _)%Z = true |- _ => apply Z.eqb_eq in H
  | H : (_ =? _)%Z = false |- _ => apply Z.eqb_neq in H
  | H : (_ <=? _)%Z = true |- _ => apply Z.leb_le in H
  | H : (_ <=? _)%Z = false |- _ => apply Z.leb_gt in H
  | H : (_ <? _)%Z = true |- _ => apply Z.ltb_lt in H
  | H : (_ <? _)%Z = false |- _ => apply Z.ltb_ge in H
  | H : (_ =? _)%nat = true |- _ => apply Nat.eqb_eq in H
  | H : (_ =? _)%nat = false |- _ => apply Nat.eqb_neq in H
  | H : (_ <=? _)%nat = true |- _ => apply Nat.leb_le in H
  | H : (_ <=? _)%nat = false |- _ => apply Nat.leb_gt in H
  | H : (_ <? _)%nat = true |- _ => apply Nat.ltb_lt in H
  | H : (_ <? _)%nat = false |- _ => apply Nat.ltb_ge in H
  | H : bool_decide _ = true |- _ => apply bool_decide_eq_true_1 in H
  | H : bool_decide _ = false |- _ => apply bool_decide_eq_false_1 in H
  end.

(** Case analysis on the conditional at the head of a goal or hypothesis. *)
Ltac case_if :=
  match goal with
  | |- context [if ?b then _ else _] => destruct b eqn:?
  | H : context [if ?b then _ else _] |- _ => destruct b eqn:?
  end.

(** ** Bytes, little-endian integers and two's complement *)

Definition is_byte (b : Z) : Prop := 0 <= b < 256.

Fixpoint le_bytes (n : nat) (z : Z) : list Z :=
  match n with
  | O => []
  | S n => z mod 256 :: le_bytes n (z / 256)
  end.

Fixpoint le_val (bs : list Z) : Z :=
  match bs with
  | [] => 0
  | b :: bs => b + 256 * le_val bs
  end.

Lemma length_le_bytes n z : length (le_bytes n z) = n.
Proof. revert z; induction n; intros z; simpl; auto. Qed.

Lemma le_bytes_is_byte n z : Forall is_byte (le_bytes n z).
Proof.
  revert z; induction n; intros z; simpl; constructor; auto.
  apply Z.mod_pos_bound; lia.
Qed.

Lemma le_val_bound bs : Forall is_byte bs -> 0 <= le_val bs < 256 ^ Z.of_nat (length bs).
Proof.
  induction 1 as [|b bs Hb _ IH]; simpl le_val; simpl length; [lia|].
  rewrite Nat2Z.inj_succ, Z.pow_succ_r by lia. unfold is_byte in Hb. lia.
Qed.

Lemma le_val_le_bytes n z : le_val (le_bytes n z) = z mod 256 ^ Z.of_nat n.
Proof.
  revert z; induction n as [|n IH]; intros z.
  - by rewrite Z.mod_1_r.
  - simpl le_bytes; simpl le_val. rewrite IH, Nat2Z.inj_succ, Z.pow_succ_r by lia.
    rewrite Z.rem_mul_r by lia. lia.
Qed.

Lemma le_bytes_le_val bs : Forall is_byte bs -> le_bytes (length bs) (le_val bs) = bs.
Proof.
  induction 1 as [|b bs Hb _ IH]; simpl; [done|]. unfold is_byte in Hb. f_equal.
  - rewrite Z.mul_comm, Z.mod_add by lia. by apply Z.mod_small.
  - rewrite Z.mul_comm, Z.div_add by lia. rewrite Z.div_small by lia. by rewrite Z.add_0_l.
Qed.

(** [w]-bit wrap-around and its signed reading. *)
Definition wrap (w z : Z) : Z := z mod 2 ^ w.
Definition signed (w z : Z) : Z := if z <? 2 ^ (w - 1) then z else z - 2 ^ w.
Definition uint (w z : Z) : Prop := 0 <= z < 2 ^ w.
Definition sint (w z : Z) : Prop := - 2 ^ (w - 1) <= z < 2 ^ (w - 1).

Lemma pow2_split w : 0 < w -> 2 ^ w = 2 * 2 ^ (w - 1).
Proof. intros. rewrite <- Z.pow_succ_r by lia. f_equal; lia. Qed.

Lemma signed_sint w z : 0 < w -> uint w z -> sint w (signed w z).
Proof.
  intros Hw Hz. pose proof (pow2_split w Hw). unfold uint, sint, signed in *.
  case_if; bool_prop; lia.
Qed.

Lemma wrap_uint w z : 0 <= w -> uint w (wrap w z).
Proof. intros. apply Z.mod_pos_bound. lia. Qed.

(** The two readings are inverse, so a signed column keeps the raw bits. *)
Lemma signed_wrap w z : 0 < w -> sint w z -> signed w (wrap w z) = z.
Proof.
  intros Hw Hz. pose proof (pow2_split w Hw). unfold sint, signed, wrap in *.
  destruct (decide (0 <= z)).
  - rewrite Z.mod_small by lia. case_if; bool_prop; lia.
  - assert (Hm : z mod 2 ^ w = z + 2 ^ w)
      by (symmetry; apply (Z.mod_unique_pos _ _ (-1)); lia).
    rewrite Hm. case_if; bool_prop; lia.
Qed.

Lemma wrap_signed w z : 0 < w -> uint w z -> wrap w (signed w z) = z.
Proof.
  intros Hw Hz. pose proof (pow2_split w Hw). unfold uint, signed, wrap in *.
  case_if; bool_prop; [by apply Z.mod_small|].
  symmetry. apply (Z.mod_unique_pos _ _ (-1)); lia.
Qed.

Lemma wrap_small w z : uint w z -> wrap w z = z.
Proof. apply Z.mod_small. Qed.

(** A mask bounds what it selects. *)
Lemma land_below x m : 0 <= m -> 0 <= Z.land x m <= m.
Proof.
  intros Hm. split; [apply Z.land_nonneg; by right|]. rewrite Z.land_comm.
  assert (H : Z.lor (Z.land m x) (Z.ldiff m x) = m).
  { apply Z.bits_inj'. intros n _. rewrite Z.lor_spec, Z.land_spec, Z.ldiff_spec. by destruct (Z.testbit m n), (Z.testbit x n). }
  assert (Hd : Z.land (Z.land m x) (Z.ldiff m x) = 0).
  { apply Z.bits_inj'. intros n _. rewrite !Z.land_spec, Z.ldiff_spec, Z.bits_0. by destruct (Z.testbit m n), (Z.testbit x n). }
  assert (0 <= Z.ldiff m x) by (apply Z.ldiff_nonneg; by left).
  pose proof (Z.add_lor_land (Z.land m x) (Z.ldiff m x)). lia.
Qed.

(** ** Counting *)

Lemma length_filter_iff {A} (Q R : A -> Prop) `{forall a, Decision (Q a)} `{forall a, Decision (R a)} (l : list A) :
  (forall a, a ∈ l -> Q a <-> R a) -> length (filter Q l) = length (filter R l).
Proof.
  induction l as [|a l IH]; intros Hl; [done|]. rewrite !filter_cons. specialize (IH (fun b Hb => Hl b ltac:(by right))).
  pose proof (Hl a ltac:(left)). repeat case_decide; simpl; tauto || by rewrite IH.
Qed.
Lemma length_filter_fmap {A B} (Q : B -> Prop) `{forall b, Decision (Q b)} (f : A -> B) (l : list A) :
  length (filter Q (f <$> l)) = length (filter (fun a => Q (f a)) l).
Proof. induction l as [|a l IH]; [done|]. rewrite fmap_cons, !filter_cons. case_decide; simpl; by rewrite IH. Qed.

Lemma elem_of_concat {A} (ls : list (list A)) x : x ∈ concat ls <-> exists l, l ∈ ls /\ x ∈ l.
Proof. rewrite list_elem_of_In, in_concat. by setoid_rewrite <- list_elem_of_In. Qed.

(** ** Slices *)

Definition slice {A} (off len : nat) (l : list A) : list A := take len (drop off l).

Lemma length_slice {A} off len (l : list A) :
  (off + len <= length l)%nat -> length (slice off len l) = len.
Proof. intros. unfold slice. rewrite length_take, length_drop. lia. Qed.

Lemma slice_app_l {A} off len (l1 l2 : list A) :
  (off + len <= length l1)%nat -> slice off len (l1 ++ l2) = slice off len l1.
Proof.
  intros. unfold slice. rewrite drop_app_le by lia.
  rewrite take_app_le; [done|]. rewrite length_drop. lia.
Qed.

Lemma slice_app_r {A} off len (l1 l2 : list A) :
  (length l1 <= off)%nat -> slice off len (l1 ++ l2) = slice (off - length l1) len l2.
Proof. intros. unfold slice. by rewrite drop_app_ge by lia. Qed.

Lemma slice_exact {A} (l1 l2 l3 : list A) :
  slice (length l1) (length l2) (l1 ++ l2 ++ l3) = l2.
Proof. unfold slice. by rewrite drop_app_length, take_app_length. Qed.

(** ** Python's [struct] module, little-endian and unaligned (the ["<"] prefix).
    A format is the list of its field widths in bytes; every field is unsigned. *)

Definition struct_size (fmt : list nat) : nat := sum_list fmt.

Fixpoint unpack_fields (fmt : list nat) (buf : list Z) : list Z :=
  match fmt with
  | [] => []
  | n :: fmt => le_val (take n buf) :: unpack_fields fmt (drop n buf)
  end.

(** [Struct.unpack_from(buffer, offset)] *)
Definition unpack_from (fmt : list nat) (buf : list Z) (off : nat) : result (list Z) :=
  raise! StructError "unpack_from requires a larger buffer"
    when (length buf <? off + struct_size fmt)%nat in
  Ok (unpack_fields fmt (drop off buf)).

(** [Struct.unpack(buffer)]: the buffer has exactly the format's size. *)
Definition unpack (fmt : list nat) (buf : list Z) : result (list Z) :=
  raise! StructError "unpack requires a buffer of the exact size"
    when negb (length buf =? struct_size fmt)%nat in
  Ok (unpack_fields fmt buf).

Fixpoint pack_fields (fmt : list nat) (vs : list Z) : list Z :=
  match fmt, vs with
  | n :: fmt, v :: vs => le_bytes n v ++ pack_fields fmt vs
  | _, _ => []
  end.

Definition fits (n : nat) (v : Z) : Prop := 0 <= v < 256 ^ Z.of_nat n.

#[global] Instance fits_dec n v : Decision (fits n v).
Proof. unfold fits. apply _. Defined.

(** [struct.pack]: each value must fit its field. *)
Definition pack (fmt : list nat) (vs : list Z) : result (list Z) :=
  raise! StructError "pack expected another number of items"
    when negb (length vs =? length fmt)%nat in
  raise! StructError "argument out of range"
    when negb (bool_decide (Forall2 fits fmt vs)) in
  Ok (pack_fields fmt vs).

Lemma length_unpack_fields fmt buf : length (unpack_fields fmt buf) = length fmt.
Proof. revert buf; induction fmt; intros; simpl; auto. Qed.

Lemma length_pack_fields fmt vs :
  length fmt = length vs -> length (pack_fields fmt vs) = struct_size fmt.
Proof.
  revert vs; induction fmt as [|n fmt IH]; intros [|v vs]; simpl; try done.
  intros [= H]. rewrite length_app, length_le_bytes, IH; done.
Qed.

Lemma pack_fields_is_byte fmt vs : Forall is_byte (pack_fields fmt vs).
Proof.
  revert vs; induction fmt as [|n fmt IH]; intros [|v vs]; simpl; try constructor.
  apply Forall_app; split; auto using le_bytes_is_byte.
Qed.

Lemma unpack_pack_fields fmt vs rest :
  Forall2 fits fmt vs -> unpack_fields fmt (pack_fields fmt vs ++ rest) = vs.
Proof.
  induction 1 as [|n v fmt vs Hv _ IH]; simpl; [done|]. rewrite <- app_assoc.
  rewrite take_app_length', drop_app_length', IH by (symmetry; apply length_le_bytes).
  rewrite le_val_le_bytes, Z.mod_small by done. done.
Qed.

Lemma pack_Ok fmt vs bs : pack fmt vs = Ok bs ->
  Forall2 fits fmt vs /\ bs = pack_fields fmt vs /\ length bs = struct_size fmt.
Proof.
  unfold pack. intros H. inv_res H. injection H as <-. bool_prop.
  split_and!; [done|done|]. apply length_pack_fields. by eapply Forall2_length.
Qed.

(** Unpacking what was packed, anywhere in a larger buffer, gives the values back. *)
Lemma unpack_from_pack fmt vs bs pre post :
  pack fmt vs = Ok bs -> unpack_from fmt (pre ++ bs ++ post) (length pre) = Ok vs.
Proof.
  intros (Hv & Hb & Hl)%pack_Ok. unfold unpack_from.
  rewrite !length_app. case_if; bool_prop; [lia|].
  rewrite drop_app_length, Hb, unpack_pack_fields; done.
Qed.

Lemma le_val_fits n buf : Forall is_byte buf -> (n <= length buf)%nat -> fits n (le_val (take n buf)).
Proof.
  intros Hb Hl. pose proof (le_val_bound (take n buf) (Forall_take _ _ _ Hb)) as Hv.
  rewrite length_take, Nat.min_l in Hv by done. exact Hv.
Qed.

Lemma unpack_fields_fits fmt buf : Forall is_byte buf -> (struct_size fmt <= length buf)%nat ->
  Forall2 fits fmt (unpack_fields fmt buf).
Proof.
  revert buf; induction fmt as [|n fmt IH]; intros buf Hb Hl; simpl; [constructor|].
  unfold struct_size in *. simpl in Hl. constructor; [apply le_val_fits; [done|lia]|].
  apply IH; [by apply Forall_drop|]. rewrite length_drop. lia.
Qed.

(** Unpacking bytes and packing the values again gives the bytes. *)
Lemma pack_unpack_fields fmt buf : Forall is_byte buf -> (struct_size fmt <= length buf)%nat ->
  pack_fields fmt (unpack_fields fmt buf) = take (struct_size fmt) buf.
Proof.
  revert buf; induction fmt as [|n fmt IH]; intros buf Hb Hl; [done|].
  unfold struct_size in *. simpl in *.
  assert (Ht : length (take n buf) = n) by (rewrite length_take; lia).
  rewrite <- Ht at 1. rewrite le_bytes_le_val by (by apply Forall_take).
  rewrite IH by (by apply Forall_drop || (rewrite length_drop; lia)).
  by rewrite take_take_drop.
Qed.

Lemma pack_unpack_exact fmt buf : Forall is_byte buf -> length buf = struct_size fmt ->
  pack_fields fmt (unpack_fields fmt buf) = buf.
Proof. intros Hb Hl. rewrite pack_unpack_fields by (done || lia). by rewrite <- Hl, firstn_all. Qed.

(** ** Dictionaries in insertion order (a Python dict iterates in that order) *)

Section odict.
Context {K : Type} `{EqDecision K} {V : Type}.
Implicit Types (k : K) (v : V) (d : list (K * V)).

Fixpoint od_get k d : option V :=
  match d with
  | [] => None
  | (k', v) :: d => if decide (k = k') then Some v else od_get k d
  end.

(** [d[k] = v]: an existing key keeps its position. *)
Fixpoint od_set k v d : list (K * V) :=
  match d with
  | [] => [(k, v)]
  | (k', v') :: d => if decide (k = k') then (k', v) :: d else (k', v') :: od_set k v d
  end.

(** [del d[k]] of a present key *)
Fixpoint od_del k d : list (K * V) :=
  match d with
  | [] => []
  | (k', v') :: d => if decide (k = k') then d else (k', v') :: od_del k d
  end.

Lemma od_get_set_eq k v d : od_get k (od_set k v d) = Some v.
Proof. induction d as [|[k' v'] d IH]; simpl; repeat (case_decide; simpl); congruence. Qed.

Lemma od_get_set_ne k k' v d : k <> k' -> od_get k (od_set k' v d) = od_get k d.
Proof.
  intros Hne. induction d as [|[k1 v1] d IH]; simpl;
    repeat (case_decide; simpl); congruence.
Qed.

Lemma od_get_None k d : od_get k d = None <-> k ∉ d.*1.
Proof.
  induction d as [|[k' v] d IH]; simpl; [set_solver|]. case_decide.
  - split; [done|]. subst. intros []. constructor.
  - rewrite IH, not_elem_of_cons. naive_solver.
Qed.

Lemma od_get_Some_elem k v d : od_get k d = Some v -> (k, v) ∈ d.
Proof.
  induction d as [|[k' v'] d IH]; simpl; [done|]. case_decide; [|set_solver].
  intros [= ->]. subst. set_solver.
Qed.

Lemma od_elem_get k v d : NoDup d.*1 -> (k, v) ∈ d -> od_get k d = Some v.
Proof.
  induction d as [|[k' v'] d IH]; simpl; [set_solver|].
  intros [Hk Hd]%NoDup_cons [[= -> ->]|Hin]%elem_of_cons; [by rewrite decide_True|].
  rewrite decide_False; [by apply IH|]. intros ->. apply Hk.
  apply list_elem_of_fmap. by exists (k', v).
Qed.

Lemma od_set_keys k v d :
  (od_set k v d).*1 = if decide (k ∈ d.*1) then d.*1 else d.*1 ++ [k].
Proof.
  induction d as [|[k' v'] d IH]; [by rewrite decide_False by set_solver|simpl].
  destruct (decide (k = k')) as [->|Hne]; simpl.
  - rewrite decide_True; [done|constructor].
  - change (k' :: (od_set k v d).*1 =
      if decide (k ∈ k' :: d.*1) then k' :: d.*1 else k' :: d.*1 ++ [k]).
    rewrite IH. do 2 case_decide; set_solver.
Qed.

Lemma od_set_NoDup k v d : NoDup d.*1 -> NoDup (od_set k v d).*1.
Proof.
  intros. rewrite od_set_keys. case_decide; [done|].
  apply NoDup_app; split_and!; [done|set_solver|apply NoDup_singleton].
Qed.

Lemma od_del_keys k d : NoDup d.*1 -> NoDup (od_del k d).*1 /\ k ∉ (od_del k d).*1.
Proof.
  induction d as [|[k' v'] d IH]; simpl; [split; [done|set_solver]|].
  intros [Hk Hd]%NoDup_cons. case_decide; subst; simpl; [done|].
  destruct (IH Hd) as [IH1 IH2]. split; [|set_solver].
  constructor; [|done]. intros Hin. apply Hk. clear -Hin.
  induction d as [|[k1 v1] d IHd]; simpl in *; [done|]. case_decide; set_solver.
Qed.

Lemma od_del_get_ne k k' d : k <> k' -> od_get k (od_del k' d) = od_get k d.
Proof.
  intros Hne. induction d as [|[k1 v1] d IH]; simpl;
    repeat (case_decide; simpl); congruence.
Qed.

Lemma od_get_split k v d : od_get k d = Some v ->
  exists d1 d2, d = d1 ++ (k, v) :: d2 /\ k ∉ d1.*1 /\ od_del k d = d1 ++ d2 /\
    (forall v', od_set k v' d = d1 ++ (k, v') :: d2).
Proof.
  induction d as [|[k' v'] d IH]; simpl; [done|]. case_decide; subst.
  - intros [= ->]. exists [], d. split_and!; [done|set_solver|done|done].
  - intros (d1 & d2 & -> & Hn & -> & Hs)%IH. exists ((k', v') :: d1), d2.
    split_and!; [done|set_solver|done|]. intros v1. by rewrite Hs.
Qed.

Lemma od_set_fresh k v d : od_get k d = None -> od_set k v d = d ++ [(k, v)].
Proof.
  induction d as [|[k' v'] d IH]; simpl; [done|]. case_decide; [done|].
  intros. by rewrite IH.
Qed.
End odict.

(** Sums of integer measures over lists. *)
Definition zsum {A} (f : A -> Z) (l : list A) : Z := foldr (fun a s => f a + s) 0 l.

Lemma zsum_app {A} (f : A -> Z) l1 l2 : zsum f (l1 ++ l2) = zsum f l1 + zsum f l2.
Proof. induction l1; simpl; [done|]. unfold zsum in *; simpl; lia. Qed.

Lemma zsum_cons {A} (f : A -> Z) a l : zsum f (a :: l) = f a + zsum f l.
Proof. done. Qed.

Lemma zsum_nonneg {A} (f : A -> Z) l : (forall a, 0 <= f a) -> 0 <= zsum f l.
Proof. intros Hf. induction l as [|a l IH]; [done|]. rewrite zsum_cons. specialize (Hf a). lia. Qed.

Lemma zsum_ext {A} (f g : A -> Z) l : (forall a, a ∈ l -> f a = g a) -> zsum f l = zsum g l.
Proof.
  induction l as [|a l IH]; intros Hf; [done|]. rewrite !zsum_cons, (Hf a), IH by set_solver. done.
Qed.

(** The sum of the values of a dictionary. *)
Definition msum `{Countable K} (m : gmap K Z) : Z := map_fold (fun _ n s => n + s) 0 m.

Lemma msum_insert_new `{Countable K} (m : gmap K Z) k n : m !! k = None -> msum (<[k := n]> m) = n + msum m.
Proof. intros Hk. unfold msum. rewrite map_fold_insert_L; [done|intros; lia|done]. Qed.

Lemma msum_insert `{Countable K} (m : gmap K Z) k n :
  msum (<[k := n]> m) = msum m - default 0 (m !! k) + n.
Proof.
  destruct (m !! k) as [v|] eqn:Hk; simpl; [|rewrite msum_insert_new by done; lia].
  rewrite <- (insert_delete_id m k v Hk) at 2. rewrite <- insert_delete_eq.
  rewrite !msum_insert_new by apply lookup_delete_eq. lia.
Qed.

Create HintDb py discriminated.
Create HintDb py_len.
#[export] Hint Resolve le_bytes_is_byte pack_fields_is_byte wrap_uint : py.
#[export] Hint Rewrite @length_slice @length_le_bytes @length_app @length_take @length_drop
  @length_unpack_fields @length_replicate : py_len.
