(* ===== verification/Monad.v ===== *)
(** * Effects: mutable state with exceptions

    Code that mutates objects and may raise is a function from a state to a
    state and a result, so that what changed before an exception stays changed.
    [wp] is the weakest precondition of such a computation, with one lemma per
    construct; the components' theorems about loops are proved with it. *)

From S2P Require Import Prelude.

Definition sx (S E A : Type) : Type := S -> S * res E A.

Section sx.
Context {S E : Type}.

Definition sret {A} (a : A) : sx S E A := fun s => (s, Ok a).
Definition sraise {A} (e : E) : sx S E A := fun s => (s, Raise e).
Definition sbind {A B} (m : sx S E A) (k : A -> sx S E B) : sx S E B := fun s =>
  match m s with
  | (s', Ok a) => k a s'
  | (s', Raise e) => (s', Raise e)
  end.
Definition sgets {A} (f : S -> A) : sx S E A := fun s => (s, Ok (f s)).
Definition smodify (f : S -> S) : sx S E unit := fun s => (f s, Ok tt).
(** A pure computation that may raise. *)
Definition slift {A} (r : res E A) : sx S E A := fun s => (s, r).
(** [try: m except e: h(e)] *)
Definition scatch {A} (m : sx S E A) (h : E -> sx S E A) : sx S E A := fun s =>
  match m s with
  | (s', Ok a) => (s', Ok a)
  | (s', Raise e) => h e s'
  end.
(** [try: m finally: f], where [f] itself does not raise. *)
Definition sfinally {A} (m : sx S E A) (f : S -> S) : sx S E A := fun s =>
  match m s with (s', r) => (f s', r) end.

(** [for x in l: body(x)] *)
Fixpoint seach {A} (body : A -> sx S E unit) (l : list A) : sx S E unit :=
  match l with
  | [] => sret tt
  | a :: l => sbind (body a) (fun _ => seach body l)
  end.
End sx.

Notation "'do!' x ':=' c 'in' k" := (sbind c (fun x => k))
  (at level 10, x pattern, c at level 200, k at level 200) : py_scope.
Notation "'run!' c 'in' k" := (sbind c (fun _ => k))
  (at level 10, c at level 200, k at level 200) : py_scope.

(** A computation on a part of the state, given how to read and write the part. *)
Definition szoom {S T E A} (get : S -> T) (put : T -> S -> S) (m : sx T E A) : sx S E A :=
  fun s => match m (get s) with (t, r) => (put t s, r) end.

(** The exception type of a larger component. *)
Definition serr {S E F A} (f : E -> F) (m : sx S E A) : sx S F A := fun s =>
  match m s with
  | (s', Ok a) => (s', Ok a)
  | (s', Raise e) => (s', Raise (f e))
  end.

(** ** Weakest preconditions *)

Definition wp {S E A} (m : sx S E A) (Q : A -> S -> Prop) (R : E -> S -> Prop) (s : S) : Prop :=
  match m s with
  | (s', Ok a) => Q a s'
  | (s', Raise e) => R e s'
  end.

Section wp.
Context {S E : Type}.

Lemma wp_ret {A} (a : A) Q (R : E -> S -> Prop) s : Q a s -> wp (sret a) Q R s.
Proof. done. Qed.

Lemma wp_raise {A} (e : E) (Q : A -> S -> Prop) R s : R e s -> wp (sraise e) Q R s.
Proof. done. Qed.

Lemma wp_bind {A B} (m : sx S E A) (k : A -> sx S E B) Q R s :
  wp m (fun a => wp (k a) Q R) R s -> wp (sbind m k) Q R s.
Proof. unfold wp, sbind. by destruct (m s) as [s' [a|e]]. Qed.

Lemma wp_gets {A} (f : S -> A) Q (R : E -> S -> Prop) s : Q (f s) s -> wp (sgets f) Q R s.
Proof. done. Qed.

Lemma wp_modify (f : S -> S) Q (R : E -> S -> Prop) s : Q tt (f s) -> wp (smodify f) Q R s.
Proof. done. Qed.

Lemma wp_lift {A} (r : res E A) Q R (s : S) :
  (forall a, r = Ok a -> Q a s) -> (forall e, r = Raise e -> R e s) -> wp (slift r) Q R s.
Proof. unfold wp, slift. destruct r; auto. Qed.

Lemma wp_catch {A} (m : sx S E A) h Q R s :
  wp m Q (fun e => wp (h e) Q R) s -> wp (scatch m h) Q R s.
Proof. unfold wp, scatch. by destruct (m s) as [s' [a|e]]. Qed.

Lemma wp_finally {A} (m : sx S E A) f Q (R : E -> S -> Prop) s :
  wp m (fun a s => Q a (f s)) (fun e s => R e (f s)) s -> wp (sfinally m f) Q R s.
Proof. unfold wp, sfinally. by destruct (m s) as [s' [a|e]]. Qed.

Lemma wp_mono {A} (m : sx S E A) (Q Q' : A -> S -> Prop) (R R' : E -> S -> Prop) s :
  wp m Q R s -> (forall a s', Q a s' -> Q' a s') -> (forall e s', R e s' -> R' e s') ->
  wp m Q' R' s.
Proof. unfold wp. destruct (m s) as [s' [a|e]]; auto. Qed.

Lemma wp_if {A} (b : bool) (m1 m2 : sx S E A) Q R s :
  (b = true -> wp m1 Q R s) -> (b = false -> wp m2 Q R s) ->
  wp (if b then m1 else m2) Q R s.
Proof. destruct b; auto. Qed.

Lemma wp_each {A} (body : A -> sx S E unit) l (I : S -> Prop) (R : E -> S -> Prop) s :
  (forall a s, a ∈ l -> I s -> wp (body a) (fun _ => I) R s) -> I s ->
  wp (seach body l) (fun _ => I) R s.
Proof.
  revert s; induction l as [|a l IH]; intros s Hb Hi; simpl; [by apply wp_ret|].
  apply wp_bind. eapply wp_mono; [apply Hb; [set_solver|done]| |done].
  intros [] s' Hi'. apply IH; [|done]. intros. apply Hb; [set_solver|done].
Qed.

(** Reading a [wp] back as a statement about a run that ended in a value. *)
Lemma wp_Ok {A} (m : sx S E A) Q R s s' a :
  wp m Q R s -> m s = (s', Ok a) -> Q a s'.
Proof. unfold wp. intros H Hm. by rewrite Hm in H. Qed.

Lemma wp_Raise {A} (m : sx S E A) Q R s s' e :
  wp m Q R s -> m s = (s', Raise e) -> R e s'.
Proof. unfold wp. intros H Hm. by rewrite Hm in H. Qed.
End wp.

Lemma wp_zoom {S T E A} (get : S -> T) (put : T -> S -> S) (m : sx T E A) Q R s :
  wp m (fun a t => Q a (put t s)) (fun e t => R e (put t s)) (get s) ->
  wp (szoom get put m) Q R s.
Proof. unfold wp, szoom. by destruct (m (get s)) as [t [a|e]]. Qed.

Lemma wp_err {S E F A} (f : E -> F) (m : sx S E A) Q R s :
  wp m Q (fun e => R (f e)) s -> wp (serr f m) Q R s.
Proof. unfold wp, serr. by destruct (m s) as [s' [a|e]]. Qed.

Create HintDb wp discriminated.
#[export] Hint Resolve wp_ret wp_raise wp_gets wp_modify : wp.

(** One step through a computation whose head construct has a rule. *)
Ltac wp_step :=
  lazymatch goal with
  | |- wp (sbind _ _) _ _ _ => apply wp_bind
  | |- wp (sret _) _ _ _ => apply wp_ret
  | |- wp (sraise _) _ _ _ => apply wp_raise
  | |- wp (sgets _) _ _ _ => apply wp_gets
  | |- wp (smodify _) _ _ _ => apply wp_modify
  | |- wp (slift _) _ _ _ => apply wp_lift; [let a := fresh "a" in let H := fresh "Ha" in intros a H
                                            |let e := fresh "e" in let H := fresh "He" in intros e H]
  | |- wp (scatch _ _) _ _ _ => apply wp_catch
  | |- wp (szoom _ _ _) _ _ _ => apply wp_zoom
  | |- wp (serr _ _) _ _ _ => apply wp_err
  | |- wp (if _ then _ else _) _ _ _ => apply wp_if; let H := fresh "Hb" in intros H
  end.

(** ** Runs that return *)

Lemma sbind_Ok {S E A B} (m : sx S E A) (k : A -> sx S E B) s s' b :
  sbind m k s = (s', Ok b) -> exists s1 a, m s = (s1, Ok a) /\ k a s1 = (s', Ok b).
Proof. unfold sbind. destruct (m s) as [s1 [a|e]]; [|done]. intros H. by exists s1, a. Qed.

(** ** Invariants of computations *)

(** [m] preserves [I], whether it returns or raises. *)
Definition keeps {S E A} (I : S -> Prop) (m : sx S E A) : Prop :=
  forall s, I s -> wp m (fun _ => I) (fun _ => I) s.

Section keeps.
Context {S E : Type} (I : S -> Prop).

Lemma keeps_ret {A} (a : A) : keeps I (sret (E:=E) a).
Proof. by intros s Hs. Qed.
Lemma keeps_raise {A} (e : E) : keeps I (sraise (A:=A) e).
Proof. by intros s Hs. Qed.
Lemma keeps_gets {A} (f : S -> A) : keeps I (sgets (E:=E) f).
Proof. by intros s Hs. Qed.
Lemma keeps_lift {A} (r : res E A) : keeps I (slift r).
Proof. intros s Hs. by destruct r. Qed.
Lemma keeps_modify (f : S -> S) : (forall s, I s -> I (f s)) -> keeps I (smodify (E:=E) f).
Proof. intros Hf s Hs. by apply wp_modify, Hf. Qed.
Lemma keeps_bind {A B} (m : sx S E A) (k : A -> sx S E B) :
  keeps I m -> (forall a, keeps I (k a)) -> keeps I (sbind m k).
Proof.
  intros Hm Hk s Hs. apply wp_bind. eapply wp_mono; [by apply Hm| |done].
  intros a s' Hs'. by apply Hk.
Qed.
Lemma keeps_each {A} (body : A -> sx S E unit) l :
  (forall a, keeps I (body a)) -> keeps I (seach body l).
Proof. intros Hb. induction l; simpl; [apply keeps_ret|]. by apply keeps_bind. Qed.
Lemma keeps_err {F A} (f : F -> E) (m : sx S F A) : keeps I m -> keeps I (serr f m).
Proof. intros Hm s Hs. apply wp_err. eapply wp_mono; [by apply Hm|done|done]. Qed.
Lemma keeps_if {A} (b : bool) (m1 m2 : sx S E A) :
  keeps I m1 -> keeps I m2 -> keeps I (if b then m1 else m2).
Proof. by destruct b. Qed.
End keeps.

Create HintDb keeps discriminated.
#[export] Hint Resolve keeps_ret keeps_raise keeps_gets keeps_lift keeps_err keeps_if : keeps.
#[export] Hint Extern 1 (keeps _ (sbind _ _)) => apply keeps_bind; [|intros] : keeps.
#[export] Hint Extern 1 (keeps _ (seach _ _)) => apply keeps_each; intros : keeps.
#[export] Hint Extern 1 (keeps _ (smodify _)) => apply keeps_modify; intros : keeps.
#[export] Hint Extern 2 (keeps _ (match ?x with _ => _ end)) => destruct x : keeps.
