(* ===== verification/Batch.v ===== *)
(** * Owned tensor columns ([batch.py])

    Tensors as typed, shaped lists of integers; one record per dataclass of
    [batch.py], with its computed properties; the two field operations
    ([dataclasses.fields] restricted to tensor fields and
    [dataclasses.replace]) as a typeclass with its law. *)

From S2P Require Import Prelude.

(** ** Tensors *)

Inductive dtype := int64 | uint8.
Inductive device := cpu | mps | cuda.

#[global] Instance dtype_eq_dec : EqDecision dtype.
Proof. solve_decision. Defined.
#[global] Instance device_eq_dec : EqDecision device.
Proof. solve_decision. Defined.

Record tensor := Tensor {
  t_dtype : dtype;
  t_device : device;
  t_shape : list nat;
  t_data : list Z;
}.

#[global] Instance tensor_eq_dec : EqDecision tensor.
Proof. solve_decision. Defined.

Definition element_size (d : dtype) : nat := match d with int64 => 8 | uint8 => 1 end.
Definition shape_numel (s : list nat) : nat := foldr Nat.mul 1%nat s.
Definition numel (t : tensor) : nat := shape_numel (t_shape t).

Definition elem_ok (d : dtype) (z : Z) : Prop :=
  match d with int64 => sint 64 z | uint8 => uint 8 z end.

(** What torch guarantees of every tensor. *)
Definition tensor_ok (t : tensor) : Prop :=
  length (t_data t) = numel t /\ Forall (elem_ok (t_dtype t)) (t_data t).

(** The memory of one element, and back. *)
Definition elem_bytes (d : dtype) (z : Z) : list Z := le_bytes (element_size d) z.
Definition elem_of_bytes (d : dtype) (bs : list Z) : Z :=
  match d with int64 => signed 64 (le_val bs) | uint8 => le_val bs end.

Definition data_bytes (d : dtype) (zs : list Z) : list Z := concat (elem_bytes d <$> zs).
Definition tensor_bytes_of (t : tensor) : list Z := data_bytes (t_dtype t) (t_data t).

(** [n] consecutive elements of a byte buffer. *)
Fixpoint data_of_bytes (d : dtype) (n : nat) (bs : list Z) : list Z :=
  match n with
  | O => []
  | S n => elem_of_bytes d (take (element_size d) bs) ::
           data_of_bytes d n (drop (element_size d) bs)
  end.

Lemma element_size_pos d : (0 < element_size d)%nat.
Proof. destruct d; simpl; lia. Qed.

Lemma elem_bytes_roundtrip d z : elem_ok d z -> elem_of_bytes d (elem_bytes d z) = z.
Proof.
  destruct d; simpl element_size; unfold elem_ok, elem_of_bytes, elem_bytes;
    rewrite le_val_le_bytes; simpl element_size; intros H.
  - change (256 ^ Z.of_nat 8) with (2 ^ 64). by apply signed_wrap.
  - change (256 ^ Z.of_nat 1) with (2 ^ 8). by apply wrap_small.
Qed.

Lemma data_bytes_cons d z zs : data_bytes d (z :: zs) = elem_bytes d z ++ data_bytes d zs.
Proof. done. Qed.

Lemma length_data_bytes d zs : length (data_bytes d zs) = (length zs * element_size d)%nat.
Proof.
  induction zs as [|z zs IH]; [done|].
  rewrite data_bytes_cons, length_app, IH. unfold elem_bytes. rewrite length_le_bytes.
  simpl. lia.
Qed.

Lemma data_bytes_roundtrip d zs rest :
  Forall (elem_ok d) zs -> data_of_bytes d (length zs) (data_bytes d zs ++ rest) = zs.
Proof.
  induction 1 as [|z zs Hz _ IH]; [done|].
  rewrite data_bytes_cons, <- app_assoc. simpl.
  assert (Hl : length (elem_bytes d z) = element_size d) by apply length_le_bytes.
  rewrite take_app_length', drop_app_length', IH, elem_bytes_roundtrip by done. done.
Qed.

Lemma data_bytes_is_byte d zs : Forall is_byte (data_bytes d zs).
Proof.
  induction zs as [|z zs IH]; [constructor|]. rewrite data_bytes_cons.
  apply Forall_app; split; [apply le_bytes_is_byte|done].
Qed.

(** [torch.frombuffer(data, dtype=d)]: a one-dimensional CPU tensor over the bytes. *)
Definition frombuffer (bs : list Z) (d : dtype) : result tensor :=
  raise! ValueError "both buffer length and count must not be 0" when (length bs =? 0)%nat in
  raise! ValueError "buffer length must be a multiple of element size"
    when negb (length bs mod element_size d =? 0)%nat in
  let n := (length bs / element_size d)%nat in
  Ok (Tensor d cpu [n] (data_of_bytes d n bs)).

(** [torch.empty(0, dtype=torch.int64, device="cpu")] *)
Definition empty_int64 : tensor := Tensor int64 cpu [0%nat] [].

(** [values[i]] of a one-dimensional tensor, as the scalar it holds. *)
Definition tensor_item (t : tensor) (i : nat) : result Z :=
  match t_data t !! i with
  | Some z => Ok z
  | None => throw IndexError "index out of range"
  end.

(** [tensor.to(device)] *)
Definition on_device (d : device) (t : tensor) : tensor :=
  Tensor (t_dtype t) d (t_shape t) (t_data t).

Lemma on_device_same d t : t_device t = d -> on_device d t = t.
Proof. destruct t; simpl; by intros <-. Qed.

(** ** The dataclasses *)

Record ExecutableLayout := MkExecutableLayout { el_values : tensor }.

Definition code_start (l : ExecutableLayout) : result Z := tensor_item (el_values l) 0.
Definition code_end (l : ExecutableLayout) : result Z := tensor_item (el_values l) 1.
Definition initial_entry (l : ExecutableLayout) : result Z := tensor_item (el_values l) 2.

Record RegisterChanges := MkRegisterChanges {
  rc_pc : tensor;
  rc_ids : tensor;
  rc_widths : tensor;
  rc_flags : tensor;
  rc_values : tensor;
  rc_names : option (gmap Z string);
  rc_sequences : option tensor;
}.

Record AddressContext := MkAddressContext {
  ac_pc : tensor;
  ac_cr0 : tensor;
  ac_cr3 : tensor;
  ac_cr4 : tensor;
  ac_efer : tensor;
  ac_cs_base : tensor;
  ac_mode : tensor;
  ac_known : tensor;
  ac_sequences : option tensor;
}.

Record MemoryAccesses := MkMemoryAccesses {
  ma_pc : tensor;
  ma_addresses : tensor;
  ma_sizes : tensor;
  ma_flags : tensor;
  ma_values : option tensor;
  ma_physical_addresses : option tensor;
  ma_mapped_sizes : option tensor;
  ma_mapping_flags : option tensor;
  ma_context_sequences : option tensor;
  ma_sequences : option tensor;
}.

Record BlockTransitions := MkBlockTransitions {
  bt_window : Z;
  bt_from_addresses : tensor;
  bt_destinations : tensor;
  bt_counts : tensor;
}.

Record TransitionWindow := MkTransitionWindow {
  tw_id : Z;
  tw_status : string;
  tw_sources : Z;
  tw_capacity_per_source : Z;
  tw_distinct : Z;
  tw_observed : Z;
  tw_overflow : Z;
}.

(** [TransitionWindow.complete] *)
Definition window_complete (w : TransitionWindow) : bool :=
  String.eqb (tw_status w) "ended" && (tw_overflow w =? 0).

Record ObservationTransitions := MkObservationTransitions {
  ot_from_addresses : tensor;
  ot_destinations : tensor;
  ot_counts : tensor;
}.

Record ObservationContext := MkObservationContext {
  oc_block_positions : tensor;
  oc_pc : tensor;
  oc_cr0 : tensor;
  oc_cr3 : tensor;
  oc_cr4 : tensor;
  oc_efer : tensor;
  oc_cs_base : tensor;
  oc_mode : tensor;
  oc_known : tensor;
}.

Record ObservationSummary := MkObservationSummary {
  os_sources : Z;
  os_transition_capacity : Z;
  os_context_capacity : Z;
  os_blocks : Z;
  os_transitions : Z;
  os_distinct_transitions : Z;
  os_transition_overflow : Z;
  os_context_changes : Z;
  os_retained_contexts : Z;
  os_context_overflow : Z;
  os_upstream_complete : bool;
}.

(** [ObservationSummary.exact] *)
Definition summary_exact (s : ObservationSummary) : bool :=
  os_upstream_complete s && (os_transition_overflow s =? 0) && (os_context_overflow s =? 0).

Record ContextFilterSummary := MkContextFilterSummary {
  cf_policy : string;
  cf_latch_known : bool;
  cf_gate_source : Z;
  cf_gate_pc : Z;
  cf_cr3 : Z;
  cf_paging_root : Z;
  cf_kept : Z;
  cf_dropped : Z;
  cf_matching : Z;
  cf_foreign : Z;
  cf_unknown : Z;
}.

Record Batch := MkBatch {
  source : option Z;
  first_sequence : option Z;
  addresses : tensor;
  registers : option RegisterChanges;
  memory : option MemoryAccesses;
  context : option AddressContext;
  layout : option ExecutableLayout;
  worker : Z;
  block_sequences : option tensor;
  transitions : option BlockTransitions;
  transition_window : option TransitionWindow;
  observation_transitions : option ObservationTransitions;
  observation_context : option ObservationContext;
  observation_summary : option ObservationSummary;
  context_filter : option ContextFilterSummary;
}.

(** [Batch(source, first_sequence, addresses)] with every other field defaulted. *)
Definition bare_batch (s f : option Z) (a : tensor) : Batch :=
  MkBatch s f a None None None None 0 None None None None None None None.

#[global] Instance RegisterChanges_eq_dec : EqDecision RegisterChanges.
Proof. solve_decision. Defined.
#[global] Instance AddressContext_eq_dec : EqDecision AddressContext.
Proof. solve_decision. Defined.
#[global] Instance MemoryAccesses_eq_dec : EqDecision MemoryAccesses.
Proof. solve_decision. Defined.

(** ** Field access by name

    [dc_fields] lists the tensor-or-[None] fields in declaration order, the
    ones [fields()] visits and the code keeps; [dc_replace] is
    [dataclasses.replace] restricted to them. [dc_map] is the abstract
    operation they implement: the same record with every tensor changed. *)

Class Dataclass (T : Type) := {
  dc_fields : T -> list (string * option tensor);
  dc_replace : T -> list (string * option tensor) -> T;
  dc_map : (tensor -> tensor) -> T -> T;
}.

(** The fields [isinstance(value, torch.Tensor)] selects. *)
Fixpoint select_tensors (fs : list (string * option tensor)) : list (string * tensor) :=
  match fs with
  | [] => []
  | (n, Some t) :: fs => (n, t) :: select_tensors fs
  | (n, None) :: fs => select_tensors fs
  end.

Definition dc_tensors `{Dataclass T} (x : T) : list (string * tensor) :=
  select_tensors (dc_fields x).

(** Keyword arguments that are all tensors. *)
Definition as_kwargs (kvs : list (string * tensor)) : list (string * option tensor) :=
  (fun '(n, t) => (n, Some t)) <$> kvs.

Definition map_snd {A B C} (f : B -> C) (l : list (A * B)) : list (A * C) :=
  (fun '(a, b) => (a, f b)) <$> l.

Class DataclassLaws (T : Type) `{Dataclass T} := {
  dc_names_NoDup : forall x : T, NoDup (dc_fields x).*1;
  dc_names_const : forall x y : T, (dc_fields x).*1 = (dc_fields y).*1;
  dc_tensors_nonempty : forall x : T, dc_tensors x <> [];
  dc_replace_some : forall (x : T) kvs n old v,
    od_get n (dc_fields x) = Some old -> od_get n kvs = Some (Some v) ->
    od_get n (dc_fields (dc_replace x kvs)) = Some (Some v);
  dc_replace_none : forall (x : T) kvs n,
    od_get n (dc_fields x) = Some None -> od_get n kvs = Some None ->
    od_get n (dc_fields (dc_replace x kvs)) = Some None;
  dc_replace_map : forall (x : T) (g : tensor -> tensor),
    dc_replace x (as_kwargs (map_snd g (dc_tensors x))) = dc_map g x;
  dc_fields_map : forall (x : T) (g : tensor -> tensor),
    dc_fields (dc_map g x) = map_snd (fmap g) (dc_fields x);
}.

(** One keyword argument: a field the call does not name keeps its value. *)
Definition kw_opt (kvs : list (string * option tensor)) (n : string) (old : option tensor) :
  option tensor := match od_get n kvs with Some v => v | None => old end.
(** A field whose type is not optional is never replaced by [None] by the code. *)
Definition kw (kvs : list (string * option tensor)) (n : string) (old : tensor) : tensor :=
  match od_get n kvs with Some (Some v) => v | _ => old end.

#[global] Instance layout_dataclass : Dataclass ExecutableLayout := {|
  dc_fields x := [("values", Some (el_values x))];
  dc_replace x k := MkExecutableLayout (kw k "values" (el_values x));
  dc_map g x := MkExecutableLayout (g (el_values x));
|}.

#[global] Instance registers_dataclass : Dataclass RegisterChanges := {|
  dc_fields x := [("pc", Some (rc_pc x)); ("ids", Some (rc_ids x));
    ("widths", Some (rc_widths x)); ("flags", Some (rc_flags x));
    ("values", Some (rc_values x)); ("sequences", rc_sequences x)];
  dc_replace x k := MkRegisterChanges (kw k "pc" (rc_pc x)) (kw k "ids" (rc_ids x))
    (kw k "widths" (rc_widths x)) (kw k "flags" (rc_flags x)) (kw k "values" (rc_values x))
    (rc_names x) (kw_opt k "sequences" (rc_sequences x));
  dc_map g x := MkRegisterChanges (g (rc_pc x)) (g (rc_ids x)) (g (rc_widths x))
    (g (rc_flags x)) (g (rc_values x)) (rc_names x) (g <$> rc_sequences x);
|}.

#[global] Instance context_dataclass : Dataclass AddressContext := {|
  dc_fields x := [("pc", Some (ac_pc x)); ("cr0", Some (ac_cr0 x)); ("cr3", Some (ac_cr3 x));
    ("cr4", Some (ac_cr4 x)); ("efer", Some (ac_efer x)); ("cs_base", Some (ac_cs_base x));
    ("mode", Some (ac_mode x)); ("known", Some (ac_known x)); ("sequences", ac_sequences x)];
  dc_replace x k := MkAddressContext (kw k "pc" (ac_pc x)) (kw k "cr0" (ac_cr0 x))
    (kw k "cr3" (ac_cr3 x)) (kw k "cr4" (ac_cr4 x)) (kw k "efer" (ac_efer x))
    (kw k "cs_base" (ac_cs_base x)) (kw k "mode" (ac_mode x)) (kw k "known" (ac_known x))
    (kw_opt k "sequences" (ac_sequences x));
  dc_map g x := MkAddressContext (g (ac_pc x)) (g (ac_cr0 x)) (g (ac_cr3 x)) (g (ac_cr4 x))
    (g (ac_efer x)) (g (ac_cs_base x)) (g (ac_mode x)) (g (ac_known x))
    (g <$> ac_sequences x);
|}.

#[global] Instance memory_dataclass : Dataclass MemoryAccesses := {|
  dc_fields x := [("pc", Some (ma_pc x)); ("addresses", Some (ma_addresses x));
    ("sizes", Some (ma_sizes x)); ("flags", Some (ma_flags x)); ("values", ma_values x);
    ("physical_addresses", ma_physical_addresses x); ("mapped_sizes", ma_mapped_sizes x);
    ("mapping_flags", ma_mapping_flags x); ("context_sequences", ma_context_sequences x);
    ("sequences", ma_sequences x)];
  dc_replace x k := MkMemoryAccesses (kw k "pc" (ma_pc x)) (kw k "addresses" (ma_addresses x))
    (kw k "sizes" (ma_sizes x)) (kw k "flags" (ma_flags x)) (kw_opt k "values" (ma_values x))
    (kw_opt k "physical_addresses" (ma_physical_addresses x))
    (kw_opt k "mapped_sizes" (ma_mapped_sizes x))
    (kw_opt k "mapping_flags" (ma_mapping_flags x))
    (kw_opt k "context_sequences" (ma_context_sequences x))
    (kw_opt k "sequences" (ma_sequences x));
  dc_map g x := MkMemoryAccesses (g (ma_pc x)) (g (ma_addresses x)) (g (ma_sizes x))
    (g (ma_flags x)) (g <$> ma_values x) (g <$> ma_physical_addresses x)
    (g <$> ma_mapped_sizes x) (g <$> ma_mapping_flags x) (g <$> ma_context_sequences x)
    (g <$> ma_sequences x);
|}.

#[global] Instance transitions_dataclass : Dataclass BlockTransitions := {|
  dc_fields x := [("from_addresses", Some (bt_from_addresses x));
    ("destinations", Some (bt_destinations x)); ("counts", Some (bt_counts x))];
  dc_replace x k := MkBlockTransitions (bt_window x) (kw k "from_addresses" (bt_from_addresses x))
    (kw k "destinations" (bt_destinations x)) (kw k "counts" (bt_counts x));
  dc_map g x := MkBlockTransitions (bt_window x) (g (bt_from_addresses x))
    (g (bt_destinations x)) (g (bt_counts x));
|}.

#[global] Instance observation_transitions_dataclass : Dataclass ObservationTransitions := {|
  dc_fields x := [("from_addresses", Some (ot_from_addresses x));
    ("destinations", Some (ot_destinations x)); ("counts", Some (ot_counts x))];
  dc_replace x k := MkObservationTransitions (kw k "from_addresses" (ot_from_addresses x))
    (kw k "destinations" (ot_destinations x)) (kw k "counts" (ot_counts x));
  dc_map g x := MkObservationTransitions (g (ot_from_addresses x)) (g (ot_destinations x))
    (g (ot_counts x));
|}.

#[global] Instance observation_context_dataclass : Dataclass ObservationContext := {|
  dc_fields x := [("block_positions", Some (oc_block_positions x)); ("pc", Some (oc_pc x));
    ("cr0", Some (oc_cr0 x)); ("cr3", Some (oc_cr3 x)); ("cr4", Some (oc_cr4 x));
    ("efer", Some (oc_efer x)); ("cs_base", Some (oc_cs_base x)); ("mode", Some (oc_mode x));
    ("known", Some (oc_known x))];
  dc_replace x k := MkObservationContext (kw k "block_positions" (oc_block_positions x))
    (kw k "pc" (oc_pc x)) (kw k "cr0" (oc_cr0 x)) (kw k "cr3" (oc_cr3 x))
    (kw k "cr4" (oc_cr4 x)) (kw k "efer" (oc_efer x)) (kw k "cs_base" (oc_cs_base x))
    (kw k "mode" (oc_mode x)) (kw k "known" (oc_known x));
  dc_map g x := MkObservationContext (g (oc_block_positions x)) (g (oc_pc x)) (g (oc_cr0 x))
    (g (oc_cr3 x)) (g (oc_cr4 x)) (g (oc_efer x)) (g (oc_cs_base x)) (g (oc_mode x))
    (g (oc_known x));
|}.

(** The tensor fields of [Batch] itself (its tables are visited separately). *)
Definition batch_fields (b : Batch) : list (string * option tensor) :=
  [("addresses", Some (addresses b)); ("block_sequences", block_sequences b)].

(** The same batch with every tensor column changed. *)
Definition batch_map (g : tensor -> tensor) (b : Batch) : Batch := {|
  source := source b;
  first_sequence := first_sequence b;
  addresses := g (addresses b);
  registers := dc_map g <$> registers b;
  memory := dc_map g <$> memory b;
  context := dc_map g <$> context b;
  layout := dc_map g <$> layout b;
  worker := worker b;
  block_sequences := g <$> block_sequences b;
  transitions := dc_map g <$> transitions b;
  transition_window := transition_window b;
  observation_transitions := dc_map g <$> observation_transitions b;
  observation_context := dc_map g <$> observation_context b;
  observation_summary := observation_summary b;
  context_filter := context_filter b;
|}.

(** Each law is a computation once the optional columns are known. *)
Ltac solve_dataclass :=
  intros; repeat match goal with x : option tensor |- _ => destruct x end; vm_compute; reflexivity.

Ltac solve_replace :=
  intros [] kvs n; intros; simpl in *;
  repeat (case_decide; [subst; unfold kw, kw_opt; simplify_eq/=; by simplify_option_eq|]); done.

Ltac dataclass_laws :=
  split;
  [ intros x; apply (bool_decide_unpack _); vm_compute; exact I
  | intros [] []; reflexivity | intros []; discriminate | solve_replace | solve_replace
  | intros [] ?; solve_dataclass | intros [] ?; solve_dataclass ].

#[global] Instance layout_laws : DataclassLaws ExecutableLayout.
Proof. dataclass_laws. Qed.
#[global] Instance registers_laws : DataclassLaws RegisterChanges.
Proof. dataclass_laws. Qed.
#[global] Instance context_laws : DataclassLaws AddressContext.
Proof. dataclass_laws. Qed.
#[global] Instance memory_laws : DataclassLaws MemoryAccesses.
Proof. dataclass_laws. Qed.
#[global] Instance transitions_laws : DataclassLaws BlockTransitions.
Proof. dataclass_laws. Qed.
#[global] Instance observation_transitions_laws : DataclassLaws ObservationTransitions.
Proof. dataclass_laws. Qed.
#[global] Instance observation_context_laws : DataclassLaws ObservationContext.
Proof. dataclass_laws. Qed.

Lemma select_tensors_NoDup fs : NoDup fs.*1 -> NoDup (select_tensors fs).*1.
Proof.
  assert (Hsub : forall fs, (select_tensors fs).*1 ⊆ fs.*1).
  { induction fs0 as [|[n [t|]] fs0 IH]; simpl; set_solver. }
  induction fs as [|[n [t|]] fs IH]; simpl; [done| |].
  - intros [Hn Hd]%NoDup_cons. constructor; [|by apply IH]. intros Hin. by apply Hn, Hsub.
  - intros [_ Hd]%NoDup_cons. by apply IH.
Qed.

Lemma dc_tensors_NoDup `{DataclassLaws T} (x : T) : NoDup (dc_tensors x).*1.
Proof. apply select_tensors_NoDup, dc_names_NoDup. Qed.
