(* ===== verification/Device.v ===== *)
(** * One owned accelerator upload ([_device.py])

    [to_device] packs every tensor column of a batch into one zeroed staging
    buffer, copies it to the device once, and slices typed views out of the
    uploaded bytes. The model keeps the byte layout: alignment, the staging
    writes, the checks torch makes on [narrow] and [view(dtype)], and the
    reads. The theorems: the layout is aligned, in bounds and disjoint, and
    the result is the input batch with every column moved to the device. *)

From S2P Require Import Prelude Batch.

(** ** Collecting the columns *)

(** A column: its table ([None] for the batch itself), its field and its tensor. *)
Record column := Col { col_table : option string; col_name : string; col_tensor : tensor }.

Definition table_columns `{Dataclass T} (name : string) (table : option T) : list column :=
  match table with
  | None => []
  | Some t => (fun '(n, v) => Col (Some name) n v) <$> dc_tensors t
  end.

Definition batch_columns (b : Batch) : list column :=
  [Col None "addresses" (addresses b)] ++
  match block_sequences b with
  | None => []
  | Some s => [Col None "block_sequences" s]
  end ++
  table_columns "registers" (registers b) ++
  table_columns "memory" (memory b) ++
  table_columns "context" (context b) ++
  table_columns "layout" (layout b) ++
  table_columns "transitions" (transitions b) ++
  table_columns "observation_transitions" (observation_transitions b) ++
  table_columns "observation_context" (observation_context b).

(** ** Packing *)

Record packed := Packed { p_col : column; p_offset : nat; p_size : nat }.

Definition align_up (total alignment : nat) : nat :=
  ((total + alignment - 1) / alignment * alignment)%nat.

(** The packing loop: its state is the entries so far (in order) and the byte total. *)
Fixpoint pack_columns (cols : list column) (total : nat) : result (list packed * nat) :=
  match cols with
  | [] => Ok ([], total)
  | c :: cols =>
      raise! ValueError "Batch upload requires CPU input columns"
        when negb (bool_decide (t_device (col_tensor c) = cpu)) in
      let alignment := element_size (t_dtype (col_tensor c)) in
      let offset := align_up total alignment in
      let size := (numel (col_tensor c) * alignment)%nat in
      let! (rest, total') := pack_columns cols (offset + size) in
      Ok (Packed c offset size :: rest, total')
  end.

(** [buffer.narrow(0, offset, size).view(dtype)]: the range must lie in the buffer and
    a wider element needs an aligned offset and a whole number of elements. *)
Definition view_ok (len : nat) (p : packed) : bool :=
  let es := element_size (t_dtype (col_tensor (p_col p))) in
  (p_offset p + p_size p <=? len)%nat && (p_offset p mod es =? 0)%nat &&
  (p_size p mod es =? 0)%nat.

(** [.view(shape).copy_(tensor)] into the staging bytes. *)
Definition write_bytes (buf : list Z) (off : nat) (bs : list Z) : list Z :=
  take off buf ++ bs ++ drop (off + length bs) buf.

Definition stage (p : packed) (staging : list Z) : result (list Z) :=
  raise! RuntimeError "invalid view of the staging buffer"
    when negb (view_ok (length staging) p) in
  Ok (write_bytes staging (p_offset p) (tensor_bytes_of (col_tensor (p_col p)))).

Definition stage_all (ps : list packed) (staging : list Z) : result (list Z) :=
  rfold (fun s p => stage p s) staging ps.

(** [uploaded.narrow(0, offset, size).view(tensor.dtype).view(tensor.shape)] *)
Definition read_view (d : device) (uploaded : list Z) (p : packed) : result tensor :=
  raise! RuntimeError "invalid view of the uploaded buffer"
    when negb (view_ok (length uploaded) p) in
  let t := col_tensor (p_col p) in
  let n := (p_size p / element_size (t_dtype t))%nat in
  raise! RuntimeError "shape is invalid for input" when negb (n =? numel t)%nat in
  Ok (Tensor (t_dtype t) d (t_shape t)
        (data_of_bytes (t_dtype t) n (slice (p_offset p) (p_size p) uploaded))).

(** ** Building the result *)

(** [changes[name] = value] or [tables.setdefault(table, {})[name] = value]. *)
Definition record_value (acc : list (string * tensor) * list (string * list (string * tensor)))
    (c : column) (value : tensor) :
    list (string * tensor) * list (string * list (string * tensor)) :=
  let '(changes, tables) := acc in
  match col_table c with
  | None => (od_set (col_name c) value changes, tables)
  | Some table =>
      let values := default [] (od_get table tables) in
      (changes, od_set table (od_set (col_name c) value values) tables)
  end.

(** [replace(getattr(batch, table), **values)] for a table that received values. *)
Definition replace_table `{Dataclass T} (tables : list (string * list (string * tensor)))
    (name : string) (old : option T) : option T :=
  match od_get name tables, old with
  | Some values, Some t => Some (dc_replace t (as_kwargs values))
  | _, _ => old
  end.

Definition replace_batch (b : Batch) (changes : list (string * tensor))
    (tables : list (string * list (string * tensor))) : Batch := {|
  source := source b;
  first_sequence := first_sequence b;
  addresses := default (addresses b) (od_get "addresses" changes);
  registers := replace_table tables "registers" (registers b);
  memory := replace_table tables "memory" (memory b);
  context := replace_table tables "context" (context b);
  layout := replace_table tables "layout" (layout b);
  worker := worker b;
  block_sequences :=
    match od_get "block_sequences" changes with
    | Some v => Some v | None => block_sequences b end;
  transitions := replace_table tables "transitions" (transitions b);
  transition_window := transition_window b;
  observation_transitions :=
    replace_table tables "observation_transitions" (observation_transitions b);
  observation_context := replace_table tables "observation_context" (observation_context b);
  observation_summary := observation_summary b;
  context_filter := context_filter b;
|}.

(** The read-back loop over the packed entries. *)
Definition collect_values (d : device) (uploaded : list Z) (ps : list packed) :
    result (list (string * tensor) * list (string * list (string * tensor))) :=
  rfold (fun acc p => let! v := read_view d uploaded p in
                      Ok (record_value acc (p_col p) v)) ([], []) ps.

Definition to_device (b : Batch) (d : device) : result Batch :=
  if decide (d = cpu) then Ok b else
  let columns := batch_columns b in
  if (length columns =? 1)%nat then
    raise! ValueError "Batch upload requires CPU input columns"
      when negb (bool_decide (t_device (addresses b) = cpu)) in
    Ok (replace_batch b [("addresses", on_device d (addresses b))] [])
  else
    let! (ps, total) := pack_columns columns 0 in
    let! uploaded := stage_all ps (replicate total 0) in
    let! (changes, tables) := collect_values d uploaded ps in
    Ok (replace_batch b changes tables).

(** ** The layout is aligned, in bounds and disjoint *)

Lemma align_up_spec total a : (0 < a)%nat ->
  (total <= align_up total a /\ align_up total a mod a = 0 /\ align_up total a < total + a)%nat.
Proof.
  intros Ha. unfold align_up.
  pose proof (Nat.div_mod_eq (total + a - 1) a).
  pose proof (Nat.mod_upper_bound (total + a - 1) a).
  split_and!; [nia| |nia]. apply Nat.Div0.mod_mul.
Qed.

(** Entry [p] occupies its own aligned range of [lo, hi). *)
Definition entry_ok (lo hi : nat) (p : packed) : Prop :=
  let es := element_size (t_dtype (col_tensor (p_col p))) in
  (lo <= p_offset p /\ p_offset p + p_size p <= hi)%nat /\
  (p_offset p mod es = 0)%nat /\ p_size p = (numel (col_tensor (p_col p)) * es)%nat.

(** Consecutive entries: each starts at or after the end of the one before. *)
Fixpoint layout_ok (lo hi : nat) (ps : list packed) : Prop :=
  match ps with
  | [] => (lo <= hi)%nat
  | p :: ps => entry_ok lo hi p /\ layout_ok (p_offset p + p_size p) hi ps
  end.

Lemma layout_ok_le lo hi ps : layout_ok lo hi ps -> (lo <= hi)%nat.
Proof.
  revert lo; induction ps as [|p ps IH]; intros lo; simpl; [done|].
  intros [[[??] _] Hr%IH]. lia.
Qed.

Lemma pack_columns_layout cols total ps hi :
  pack_columns cols total = Ok (ps, hi) ->
  p_col <$> ps = cols /\ layout_ok total hi ps /\
  Forall (fun c => t_device (col_tensor c) = cpu) cols.
Proof.
  revert total ps hi; induction cols as [|c cols IH]; intros total ps hi; simpl.
  - intros [= <- <-]. split_and!; [done|simpl; lia|constructor].
  - intros H. inv_res H. destruct v as [rest total']. injection H as <- <-.
    apply IH in Hv as (H1 & H2 & H3). bool_prop.
    pose proof (align_up_spec total (element_size (t_dtype (col_tensor c)))
      (element_size_pos _)) as (Ha & Hm & _).
    pose proof (layout_ok_le _ _ _ H2).
    split_and!; [by rewrite fmap_cons, H1| |by constructor].
    split; [|done]. split_and!; simpl; lia || done.
Qed.

Lemma pack_columns_total cols total :
  Forall (fun c => t_device (col_tensor c) = cpu) cols ->
  exists ps hi, pack_columns cols total = Ok (ps, hi).
Proof.
  intros H. revert total; induction H as [|c cols Hc _ IH]; intros total; simpl; [eauto|].
  rewrite bool_decide_eq_true_2 by done. simpl.
  destruct (IH (align_up total (element_size (t_dtype (col_tensor c))) +
    numel (col_tensor c) * element_size (t_dtype (col_tensor c)))%nat) as (ps & hi & ->).
  simpl. eauto.
Qed.

Lemma pack_columns_device cols total :
  Exists (fun c => t_device (col_tensor c) <> cpu) cols ->
  pack_columns cols total = throw ValueError "Batch upload requires CPU input columns".
Proof.
  intros H. revert total; induction H as [c cols Hc|c cols _ IH]; intros total; simpl.
  - by rewrite bool_decide_eq_false_2.
  - case_if; [done|]. by rewrite IH.
Qed.

(** ** Staging and reading back *)

Definition col_ok (c : column) : Prop := tensor_ok (col_tensor c).

Lemma entry_bytes_length p lo hi : entry_ok lo hi p -> col_ok (p_col p) ->
  length (tensor_bytes_of (col_tensor (p_col p))) = p_size p.
Proof.
  intros (_ & _ & ->) [Hl _]. unfold tensor_bytes_of. by rewrite length_data_bytes, Hl.
Qed.

Lemma entry_view_ok p lo hi len :
  entry_ok lo hi p -> (hi <= len)%nat -> view_ok len p = true.
Proof.
  intros ([??] & Hm & Hs) Hlen. unfold view_ok. rewrite Hm, Hs, Nat.Div0.mod_mul, <- Hs.
  rewrite !andb_true_iff. repeat split; apply Nat.leb_le; lia.
Qed.

Lemma length_write_bytes buf off bs :
  (off + length bs <= length buf)%nat -> length (write_bytes buf off bs) = length buf.
Proof.
  intros. unfold write_bytes. rewrite !length_app, length_take, length_drop. lia.
Qed.

Lemma write_bytes_read buf off bs : (off <= length buf)%nat ->
  slice off (length bs) (write_bytes buf off bs) = bs.
Proof.
  intros. unfold write_bytes.
  replace off with (length (take off buf)) at 1 by (rewrite length_take; lia).
  apply slice_exact.
Qed.

(** A write after a range does not change what the range holds. *)
Lemma write_bytes_read_before buf off bs o n : (o + n <= off)%nat -> (off <= length buf)%nat ->
  slice o n (write_bytes buf off bs) = slice o n buf.
Proof.
  intros. unfold write_bytes.
  rewrite slice_app_l by (rewrite length_take; lia).
  unfold slice. rewrite !take_drop_commute, take_take. f_equal. f_equal. lia.
Qed.

(** Every entry reads back the bytes of its own tensor. *)
Definition staged (buf : list Z) (p : packed) : Prop :=
  slice (p_offset p) (p_size p) buf = tensor_bytes_of (col_tensor (p_col p)).

Lemma stage_all_spec ps lo hi buf :
  layout_ok lo hi ps -> Forall (fun p => col_ok (p_col p)) ps -> (hi <= length buf)%nat ->
  exists buf', stage_all ps buf = Ok buf' /\ length buf' = length buf /\
    Forall (staged buf') ps /\
    forall o n, (o + n <= lo)%nat -> slice o n buf' = slice o n buf.
Proof.
  revert lo buf; induction ps as [|p ps IH]; intros lo buf Hl Hok Hhi.
  - exists buf. split_and!; [done|done|constructor|done].
  - destruct Hl as [He Hl]. apply Forall_cons in Hok as [Hp Hok].
    pose proof (entry_bytes_length _ _ _ He Hp) as Hlen.
    destruct He as ([Ho Hs] & Hmod & Hsz) eqn:He'. clear He'.
    set (buf1 := write_bytes buf (p_offset p) (tensor_bytes_of (col_tensor (p_col p)))).
    assert (Hb1 : length buf1 = length buf) by (apply length_write_bytes; lia).
    destruct (IH (p_offset p + p_size p)%nat buf1 Hl Hok) as (buf' & Hr & Hl' & Hst & Hpre);
      [by rewrite Hb1|].
    exists buf'. split_and!.
    + unfold stage_all in *; simpl. unfold stage at 1.
      rewrite (entry_view_ok _ _ _ _ He) by lia. exact Hr.
    + by rewrite Hl'.
    + constructor; [|done]. unfold staged. rewrite Hpre by lia.
      rewrite <- Hlen. apply write_bytes_read. lia.
    + intros o n Hon. rewrite Hpre by lia. apply write_bytes_read_before; lia.
Qed.

Lemma read_view_spec d buf p lo hi :
  entry_ok lo hi p -> (hi <= length buf)%nat -> col_ok (p_col p) -> staged buf p ->
  read_view d buf p = Ok (on_device d (col_tensor (p_col p))).
Proof.
  intros He Hhi [Hn Hok] Hst. unfold read_view.
  rewrite (entry_view_ok _ _ _ _ He) by done. simpl.
  pose proof (element_size_pos (t_dtype (col_tensor (p_col p)))).
  destruct He as (_ & _ & Hs). rewrite Hs, Nat.div_mul by lia.
  rewrite Nat.eqb_refl. simpl. unfold staged in Hst. rewrite <- Hs, Hst.
  unfold tensor_bytes_of, on_device. repeat f_equal. rewrite <- Hn.
  rewrite <- (app_nil_r (data_bytes _ _)). by apply data_bytes_roundtrip.
Qed.

(** The dictionaries the read-back loop builds when every view holds its own tensor. *)
Definition record_all (d : device) (cols : list column)
    (acc : list (string * tensor) * list (string * list (string * tensor))) :=
  fold_left (fun acc c => record_value acc c (on_device d (col_tensor c))) cols acc.

Lemma collect_values_spec d buf ps lo hi :
  layout_ok lo hi ps -> (hi <= length buf)%nat ->
  Forall (fun p => col_ok (p_col p)) ps -> Forall (staged buf) ps ->
  collect_values d buf ps = Ok (record_all d (p_col <$> ps) ([], [])).
Proof.
  unfold collect_values. generalize (@nil (string * tensor), @nil (string * list (string * tensor))).
  intros acc Hl Hhi. revert lo acc Hl.
  induction ps as [|p ps IH]; intros lo acc Hl Hok Hst; [done|].
  destruct Hl as [He Hl]. apply Forall_cons in Hok as [Hp Hok].
  apply Forall_cons in Hst as [Hsp Hst]. simpl.
  rewrite (read_view_spec d buf p lo hi) by done. simpl. by eapply IH.
Qed.

(** ** The recorded dictionaries are the moved columns *)

Lemma od_set_set {V} (k : string) (v v' : V) d : od_set k v (od_set k v' d) = od_set k v d.
Proof.
  induction d as [|[k' v1] d IH]; simpl; [by rewrite decide_True|].
  case_decide; simpl; [by rewrite decide_True|]. by rewrite decide_False, IH.
Qed.

Lemma record_fields d name kvs vals changes tables :
  NoDup (vals.*1 ++ kvs.*1) ->
  record_all d ((fun '(n, v) => Col (Some name) n v) <$> kvs)
    (changes, od_set name vals tables) =
  (changes, od_set name (vals ++ map_snd (on_device d) kvs) tables).
Proof.
  revert vals; induction kvs as [|[n v] kvs IH]; intros vals Hnd; simpl.
  - by rewrite app_nil_r.
  - rewrite od_get_set_eq. simpl. rewrite od_set_set.
    rewrite (od_set_fresh n) by (apply od_get_None; apply NoDup_app in Hnd; set_solver).
    etrans; [apply (IH (vals ++ [(n, on_device d v)]))|].
    + rewrite fmap_app, <- app_assoc. done.
    + by rewrite <- app_assoc.
Qed.

(** What recording one table of the batch adds. *)
Definition set_table `{Dataclass T} (d : device) (name : string) (o : option T)
    (tables : list (string * list (string * tensor))) :=
  match o with
  | None => tables
  | Some t => od_set name (map_snd (on_device d) (dc_tensors t)) tables
  end.

Lemma record_table `{DataclassLaws T} d name (o : option T) changes tables :
  od_get name tables = None ->
  record_all d (table_columns name o) (changes, tables) =
  (changes, set_table d name o tables).
Proof.
  intros Hnone. destruct o as [t|]; [|done]. unfold table_columns, set_table.
  pose proof (dc_tensors_NoDup t) as Hnd. pose proof (dc_tensors_nonempty t).
  destruct (dc_tensors t) as [|[n v] kvs]; [done|]. simpl. rewrite Hnone. simpl.
  apply (record_fields d name kvs [(n, on_device d v)]). done.
Qed.

Lemma set_table_get_eq `{Dataclass T} d name (o : option T) tables :
  od_get name tables = None ->
  od_get name (set_table d name o tables) =
  (fun t => map_snd (on_device d) (dc_tensors t)) <$> o.
Proof. destruct o; simpl; [by rewrite od_get_set_eq|done]. Qed.

Lemma set_table_get_ne `{Dataclass T} d n name (o : option T) tables :
  n <> name -> od_get n (set_table d name o tables) = od_get n tables.
Proof. intros. destruct o; simpl; [by rewrite od_get_set_ne|done]. Qed.

Lemma replace_table_spec `{DataclassLaws T} d name (o : option T) tables :
  od_get name tables = (fun t => map_snd (on_device d) (dc_tensors t)) <$> o ->
  replace_table tables name o = dc_map (on_device d) <$> o.
Proof.
  intros Hg. unfold replace_table. rewrite Hg. destruct o; simpl; [|done].
  by rewrite dc_replace_map.
Qed.

(** Table names are distinct literals. *)
Ltac table_lookup :=
  repeat (rewrite set_table_get_ne by discriminate); first
    [ apply set_table_get_eq | idtac ];
  repeat (rewrite set_table_get_ne by discriminate); try reflexivity.

Lemma record_batch d b : exists changes tables,
  record_all d (batch_columns b) ([], []) = (changes, tables) /\
  replace_batch b changes tables = batch_map (on_device d) b.
Proof.
  unfold batch_columns, record_all. rewrite !fold_left_app. fold (record_all d).
  set (changes := [("addresses", on_device d (addresses b))] ++
    match block_sequences b with
    | None => [] | Some s => [("block_sequences", on_device d s)] end).
  assert (Hc : fold_left (fun acc c => record_value acc c (on_device d (col_tensor c)))
    match block_sequences b with
    | None => [] | Some s => [Col None "block_sequences" s] end
    (fold_left (fun acc c => record_value acc c (on_device d (col_tensor c)))
      [Col None "addresses" (addresses b)] ([], [])) = (changes, [])).
  { unfold changes. destruct (block_sequences b); done. }
  rewrite Hc. clear Hc.
  repeat match goal with
  | |- context [fold_left _ (table_columns ?n ?o) (?c, ?t)] =>
      change (fold_left (fun acc c => record_value acc c (on_device d (col_tensor c)))
        (table_columns n o) (c, t)) with (record_all d (table_columns n o) (c, t));
      rewrite (record_table d n o c t) by table_lookup
  end.
  eexists _, _. split; [reflexivity|].
  unfold replace_batch, batch_map. f_equal; try (apply replace_table_spec; table_lookup).
  unfold changes. by destruct (block_sequences b).
Qed.

(** Columns torch can hold, all of them in host memory: what [Pool] produces. *)
Definition uploadable (b : Batch) : Prop :=
  Forall (fun c => col_ok c /\ t_device (col_tensor c) = cpu) (batch_columns b).

Lemma to_device_accelerator b d : d <> cpu -> uploadable b ->
  to_device b d = Ok (batch_map (on_device d) b).
Proof.
  intros Hd Hb. unfold to_device. rewrite decide_False by done.
  apply Forall_and in Hb as [Hok Hcpu].
  destruct (record_batch d b) as (changes & tables & Hrec & Hrep).
  case_if; bool_prop.
  - destruct (batch_columns b) as [|c [|]] eqn:Hcols; try done.
    assert (Ht : c = Col None "addresses" (addresses b))
      by (unfold batch_columns in Hcols; simpl in Hcols; congruence).
    apply Forall_cons in Hcpu as [Hc _]. subst c.
    rewrite bool_decide_eq_true_2 by done. simpl in *. injection Hrec as <- <-.
    by rewrite <- Hrep.
  - destruct (pack_columns_total _ 0 Hcpu) as (ps & hi & Hps). rewrite Hps. simpl.
    pose proof (pack_columns_layout _ _ _ _ Hps) as (Hcols & Hl & _).
    assert (Hpok : Forall (fun p => col_ok (p_col p)) ps)
      by (rewrite <- Hcols in Hok; exact (proj1 (Forall_fmap _ _ _) Hok)).
    destruct (stage_all_spec ps 0 hi (replicate hi 0) Hl Hpok) as (buf & -> & Hlen & Hst & _);
      [by rewrite length_replicate|]. rewrite length_replicate in Hlen. simpl.
    rewrite (collect_values_spec d buf ps 0 hi), Hcols, Hrec by (done || lia).
    simpl. by rewrite Hrep.
Qed.

(** C38: uploading is lossless. For every batch whose columns are well-formed CPU tensors,
    [to_device] returns (no torch check fails) and its result is the batch itself on the
    CPU, and otherwise the batch with each column - same dtype, shape and elements - moved
    to the device; nothing else of the batch changes. *)
Theorem to_device_lossless (b : Batch) (d : device) (Hb : uploadable b) :
  to_device b d = Ok (if decide (d = cpu) then b else batch_map (on_device d) b).
Proof.
  destruct (decide (d = cpu)) as [->|Hd]; [done|]. by apply to_device_accelerator.
Qed.

(** The staging layout is sound. Packing succeeds exactly when every column is in host
    memory, keeps the columns in order, and gives them disjoint, increasing byte ranges
    below the total, each aligned to its element size and as long as its tensor. *)
Theorem pack_columns_sound (cols : list column) (total : nat) :
  (exists ps hi, pack_columns cols total = Ok (ps, hi) /\ p_col <$> ps = cols /\
     layout_ok total hi ps) \/
  (Exists (fun c => t_device (col_tensor c) <> cpu) cols /\
   pack_columns cols total = throw ValueError "Batch upload requires CPU input columns").
Proof.
  destruct (decide (Exists (fun c => t_device (col_tensor c) <> cpu) cols)) as [He|Hn].
  - right. split; [done|]. by apply pack_columns_device.
  - left. apply not_Exists_Forall in Hn; [|solve_decision].
    destruct (pack_columns_total cols total) as (ps & hi & Hp).
    { eapply Forall_impl; [exact Hn|]. intros c Hc. simpl in Hc. by apply dec_stable. }
    exists ps, hi. pose proof (pack_columns_layout _ _ _ _ Hp). naive_solver.
Qed.

Definition example_batch : Batch :=
  MkBatch (Some 0) (Some 7) (Tensor int64 cpu [2%nat] [-1; 4096])
    (Some (MkRegisterChanges (Tensor int64 cpu [1%nat] [5]) (Tensor int64 cpu [1%nat] [3])
       (Tensor int64 cpu [1%nat] [2]) (Tensor int64 cpu [1%nat] [257])
       (Tensor uint8 cpu [1%nat; 3%nat] [1; 2; 0]) (Some ∅) (Some (Tensor int64 cpu [1%nat] [8]))))
    None None None 0 (Some (Tensor int64 cpu [2%nat] [7; 9])) None None None None None None.

Lemma to_device_lossless_witness :
  to_device example_batch cuda = Ok (batch_map (on_device cuda) example_batch).
Proof.
  apply (to_device_lossless example_batch cuda).
  repeat (constructor; [split; [split; [reflexivity|repeat constructor; vm_compute; intuition congruence]
    |reflexivity]|]). constructor.
Defined.
