(* ===== verification/Batching.v ===== *)
(** * Bounded CPU collation before upload ([_batching.py])

    [merge_batches] concatenates the rows of consecutive batches of one CPU
    source; [BatchCollator] groups batches per source under a byte target and
    frame limits. The collator is a mutable object: each operation returns the
    new state together with its result, because the counters and the dictionary
    have already changed when [merge_batches] raises.

    The theorems: the byte and frame accounting is exact, the limits hold after
    every successful [add], every batch is merged exactly once and in order per
    source, and the merged columns are the concatenation of the rows. *)

From S2P Require Import Prelude Batch.

Definition MAX_BATCH_BYTES : Z := 4 * 1024 * 1024.
Definition MAX_SOURCE_FRAMES : nat := 256.
Definition MAX_PENDING_FRAMES : Z := 512.

(** ** Tensor operations the module uses *)

(** [value.numel() * value.element_size()] *)
Definition column_bytes (t : tensor) : Z := Z.of_nat (numel t * element_size (t_dtype t)).

Definition fields_bytes (fs : list (string * option tensor)) : Z :=
  zsum (fun '(_, t) => column_bytes t) (select_tensors fs).

Definition owner_bytes `{Dataclass T} (owner : option T) : Z :=
  match owner with None => 0 | Some t => fields_bytes (dc_fields t) end.

Definition tensor_bytes (b : Batch) : Z :=
  fields_bytes (batch_fields b) + owner_bytes (registers b) + owner_bytes (memory b) +
  owner_bytes (context b) + owner_bytes (layout b).

(** [torch.cat(values)] along dimension 0: one device, one rank, equal trailing sizes. *)
Definition cat_dtype (ts : list tensor) : dtype :=
  if existsb (fun t => bool_decide (t_dtype t = int64)) ts then int64 else uint8.

Definition torch_cat (ts : list tensor) : result tensor :=
  match ts with
  | [] => throw RuntimeError "torch.cat(): expected a non-empty list of Tensors"
  | t0 :: _ =>
      raise! RuntimeError "Expected all tensors to be on the same device"
        when negb (forallb (fun t => bool_decide (t_device t = t_device t0)) ts) in
      match t_shape t0 with
      | [] => throw RuntimeError "zero-dimensional tensor cannot be concatenated"
      | _ :: trailing =>
          raise! RuntimeError "Sizes of tensors must match except in dimension 0"
            when negb (forallb (fun t => bool_decide
                   (t_shape t <> [] /\ tail (t_shape t) = trailing)) ts) in
          Ok (Tensor (cat_dtype ts) (t_device t0)
                (sum_list (default 0%nat <$> (head <$> (t_shape <$> ts))) :: trailing)
                (concat (t_data <$> ts)))
      end
  end.

Definition concatenate (values : list tensor) : result tensor :=
  match values with
  | [value] => Ok value
  | _ => torch_cat values
  end.

(** [torch.arange(first, first + n, dtype=torch.int64, device="cpu")] *)
Definition arange (first : Z) (n : nat) : result tensor :=
  raise! RuntimeError "value cannot be converted to type int64_t without overflow"
    when negb ((- 2 ^ 63 <=? first) && (first + Z.of_nat n <? 2 ^ 63)) in
  Ok (Tensor int64 cpu [n] (seqZ first (Z.of_nat n))).

(** ** Column-wise merging *)

(** [getattr(table, name)] of a tensor field. *)
Definition getattr `{Dataclass T} (table : T) (name : string) : result (option tensor) :=
  match od_get name (dc_fields table) with
  | Some v => Ok v
  | None => throw AttributeError name
  end.

Definition optional_column `{Dataclass T} (tables : list T) (name : string) :
    result (option tensor) :=
  let! values := rmap (fun t => getattr t name) tables in
  if existsb (fun v => negb (is_some v)) values then
    raise! ValueError ("Cannot collate inconsistent optional column " +:+ name)
      when negb (forallb (fun v => negb (is_some v)) values) in
    Ok None
  else
    let! v := concatenate (omap id values) in Ok (Some v).

(** Both calls of [row_sequences]: the row values and the explicit positions, if any, of
    the batch itself or of one of its tables. *)
Definition row_sequences (b : Batch) (values : tensor) (sequence : option tensor) :
    result tensor :=
  match sequence with
  | Some s => Ok s
  | None =>
      match first_sequence b with
      | Some first => arange first (numel values)
      | None => throw TypeError "unsupported operand type for +: NoneType"
      end
  end.

(** The tables [merge_batches] collates, with the fields it treats specially. *)
Class Table (T : Type) `{Dataclass T} := {
  table_pc : T -> tensor;
  table_sequences : T -> option tensor;
  (** fields the loop over [fields(tables[-1])] skips *)
  table_skip : list string;
  (** [columns["values"]] of the registers table; other tables add nothing *)
  table_values : list T -> result (list (string * option tensor));
}.

(** [values.shape[1]] *)
Definition row_width (t : tensor) : result nat :=
  match t_shape t !! 1%nat with
  | Some w => Ok w
  | None => throw IndexError "tuple index out of range"
  end.

Fixpoint chunk_rows (width n : nat) (data : list Z) : list (list Z) :=
  match n with
  | O => []
  | S n => take width data :: chunk_rows width n (drop width data)
  end.

(** The rows of a two-dimensional tensor. *)
Definition tensor_rows (t : tensor) : list (list Z) :=
  match t_shape t with
  | [n; w] => chunk_rows w n (t_data t)
  | _ => []
  end.

Definition row_count (t : tensor) : nat := default 0%nat (head (t_shape t)).

(** [values[offset:offset + count, :own_width].copy_(table.values)]: every row keeps the
    zeros beyond its own width. *)
Definition pad_row (width : nat) (row : list Z) : list Z :=
  row ++ replicate (width - length row) 0.

Definition copy_rows (width offset : nat) (rows : list (list Z)) (t : tensor) :
    list (list Z) :=
  take offset rows ++ (pad_row width <$> tensor_rows t) ++ drop (offset + row_count t) rows.

Fixpoint copy_tables (width offset : nat) (rows : list (list Z)) (ts : list tensor) :
    list (list Z) :=
  match ts with
  | [] => rows
  | t :: ts => copy_tables width (offset + row_count t) (copy_rows width offset rows t) ts
  end.

Definition merge_register_values (tables : list RegisterChanges) :
    result (list (string * option tensor)) :=
  let ts := rc_values <$> tables in
  let! widths := rmap row_width ts in
  let width := max_list widths in
  let! v :=
    if forallb (fun w => (w =? width)%nat) widths then concatenate ts
    else
      let total := sum_list (row_count <$> ts) in
      Ok (Tensor uint8 cpu [total; width]
            (concat (copy_tables width 0 (replicate total (replicate width 0)) ts))) in
  Ok [("values", Some v)].

#[global] Instance registers_table : Table RegisterChanges := {|
  table_pc := rc_pc; table_sequences := rc_sequences;
  table_skip := ["names"; "sequences"; "values"];
  table_values := merge_register_values;
|}.
#[global] Instance memory_table : Table MemoryAccesses := {|
  table_pc := ma_pc; table_sequences := ma_sequences;
  table_skip := ["names"; "sequences"];
  table_values := fun _ => Ok [];
|}.
#[global] Instance context_table : Table AddressContext := {|
  table_pc := ac_pc; table_sequences := ac_sequences;
  table_skip := ["names"; "sequences"];
  table_values := fun _ => Ok [];
|}.

(** [[(batch, getattr(batch, name)) for batch in batches if ... is not None]] *)
Definition select_tables {T} (get : Batch -> option T) (bs : list Batch) : list (Batch * T) :=
  omap (fun b => (fun t => (b, t)) <$> get b) bs.

(** One iteration of the loop over the three table names. *)
Definition merge_table `{Table T} (get : Batch -> option T) (bs : list Batch) :
    result (option T) :=
  let selected := select_tables get bs in
  let tables := snd <$> selected in
  match last tables with
  | None => Ok None
  | Some latest =>
      let names := List.filter (fun n => negb (bool_decide (n ∈ table_skip))) (dc_fields latest).*1 in
      let! columns := rmap (fun n => let! v := optional_column tables n in Ok (n, v)) names in
      let! rows := rmap (fun '(b, t) => row_sequences b (table_pc t) (table_sequences t)) selected in
      let! sequences := concatenate rows in
      let! values := table_values tables in
      Ok (Some (dc_replace latest (columns ++ [("sequences", Some sequences)] ++ values)))
  end.

Definition merge_batches (bs : list Batch) : result Batch :=
  match bs with
  | [] => throw IndexError "list index out of range"
  | first :: _ =>
      raise! ValueError "Cannot collate different workers or CPU sources"
        when existsb (fun b => negb (bool_decide
               ((worker b, source b) = (worker first, source first)))) bs in
      let blocks := List.filter (fun b => negb (numel (addresses b) =? 0)%nat) bs in
      let! merged_addresses :=
        match blocks with
        | [] => Ok (addresses first)
        | _ => concatenate (addresses <$> blocks)
        end in
      let! merged_sequences :=
        match blocks with
        | [] => Ok None
        | _ =>
            let! rows := rmap (fun b => row_sequences b (addresses b) (block_sequences b)) blocks in
            let! s := concatenate rows in Ok (Some s)
        end in
      let! merged_registers := merge_table registers bs in
      let! merged_memory := merge_table memory bs in
      let! merged_context := merge_table context bs in
      Ok (MkBatch (source first) (first_sequence first) merged_addresses merged_registers
            merged_memory merged_context (layout first) (worker first) merged_sequences
            (transitions first) (transition_window first) (observation_transitions first)
            (observation_context first) (observation_summary first) (context_filter first))
  end.

(** ** The collator *)

Record PendingSource := MkPending { p_batches : list Batch; p_bytes : Z }.

Record BatchCollator := MkCollator {
  target_bytes : Z;
  pending_bytes : Z;
  pending_frames : Z;
  sources : list ((Z * Z) * PendingSource);
}.

Definition new_collator (target : Z) : result BatchCollator :=
  raise! ValueError "Collation target must be between 1 and 4 MiB"
    when negb ((1 <=? target) && (target <=? MAX_BATCH_BYTES)) in
  Ok (MkCollator target 0 0 []).

(** [_flush]: the entry and its counts are gone before the merge can raise. *)
Definition flush (c : BatchCollator) (key : Z * Z) : BatchCollator * result Batch :=
  match od_get key (sources c) with
  | None => (c, throw KeyError "unknown source")
  | Some pending =>
      (MkCollator (target_bytes c) (pending_bytes c - p_bytes pending)
         (pending_frames c - Z.of_nat (length (p_batches pending)))
         (od_del key (sources c)),
       merge_batches (p_batches pending))
  end.

(** The [while] loop of [add]: each iteration removes the oldest source. *)
Fixpoint flush_oldest (fuel : nat) (c : BatchCollator) : BatchCollator * result (list Batch) :=
  match fuel, sources c with
  | S fuel, (key, _) :: _ =>
      if (2 * target_bytes c <=? pending_bytes c) ||
         (MAX_PENDING_FRAMES <=? pending_frames c) then
        let '(c1, r) := flush c key in
        match r with
        | Raise e => (c1, Raise e)
        | Ok b => let '(c2, r2) := flush_oldest fuel c1 in
                  (c2, let! bs := r2 in Ok (b :: bs))
        end
      else (c, Ok [])
  | _, _ => (c, Ok [])
  end.

Definition has_rows (b : Batch) : bool :=
  negb (numel (addresses b) =? 0)%nat ||
  existsb (fun o => match o with Some pc => negb (numel pc =? 0)%nat | None => false end)
    [rc_pc <$> registers b; ma_pc <$> memory b; ac_pc <$> context b].

(** The pending entry of a key with one more batch appended, and the counters. *)
Definition enqueue (c : BatchCollator) (key : Z * Z) (b : Batch) : BatchCollator :=
  let pending := default (MkPending [] 0) (od_get key (sources c)) in
  let size := tensor_bytes b in
  MkCollator (target_bytes c) (pending_bytes c + size) (pending_frames c + 1)
    (od_set key (MkPending (p_batches pending ++ [b]) (p_bytes pending + size)) (sources c)).

Definition source_full (c : BatchCollator) (key : Z * Z) : bool :=
  match od_get key (sources c) with
  | None => false
  | Some p => (target_bytes c <=? p_bytes p) || (MAX_SOURCE_FRAMES <=? length (p_batches p))%nat
  end.

Definition add (c : BatchCollator) (b : Batch) : BatchCollator * result (list Batch) :=
  if is_some (layout b) || is_some (context_filter b)
  then (c, Ok [b]) else
  match source b, first_sequence b with
  | Some s, Some _ =>
      if negb (has_rows b) then (c, throw ValueError "Cannot collate an empty CPU batch") else
      let key := (worker b, s) in
      let c1 := enqueue c key b in
      let '(c2, ready) :=
        if source_full c1 key
        then let '(c2, r) := flush c1 key in (c2, let! m := r in Ok [m])
        else (c1, Ok []) in
      match ready with
      | Raise e => (c2, Raise e)
      | Ok ms => let '(c3, r) := flush_oldest (length (sources c2)) c2 in
                 (c3, let! rest := r in Ok (ms ++ rest))
      end
  | _, _ => (c, throw ValueError "CPU observations need a source and sequence")
  end.

Definition end_source (c : BatchCollator) (src w : Z) : BatchCollator * result (list Batch) :=
  match od_get (w, src) (sources c) with
  | Some _ => let '(c1, r) := flush c (w, src) in (c1, let! m := r in Ok [m])
  | None => (c, Ok [])
  end.

(** [[self._flush(key) for key in tuple(self._sources)]] *)
Fixpoint flush_keys (c : BatchCollator) (keys : list (Z * Z)) :
    BatchCollator * result (list Batch) :=
  match keys with
  | [] => (c, Ok [])
  | key :: keys =>
      let '(c1, r) := flush c key in
      match r with
      | Raise e => (c1, Raise e)
      | Ok b => let '(c2, r2) := flush_keys c1 keys in (c2, let! bs := r2 in Ok (b :: bs))
      end
  end.

Definition finish (c : BatchCollator) : BatchCollator * result (list Batch) :=
  flush_keys c (sources c).*1.

(** ** A property that merging preserves holds of everything emitted *)

Section collator_all.
Context (P : Batch -> Prop).
Hypothesis merge_P : forall bs b, merge_batches bs = Ok b -> Forall P bs -> P b.

Definition all_queued (c : BatchCollator) : Prop :=
  Forall (fun e => Forall P (p_batches e.2)) (sources c).

Definition emits {A} (Q : A -> Prop) (r : BatchCollator * result A) : Prop :=
  all_queued r.1 /\ forall a, r.2 = Ok a -> Q a.

Lemma od_del_sub {K V} `{EqDecision K} (k : K) (d : list (K * V)) (Q : K * V -> Prop) :
  Forall Q d -> Forall Q (od_del k d).
Proof.
  induction 1 as [|[k' v] d Hx Hd IH]; simpl; [constructor|]. by case_decide; [|constructor].
Qed.

Lemma flush_all c key : all_queued c -> emits P (flush c key).
Proof.
  intros Hc. unfold flush. destruct (od_get key (sources c)) as [p|] eqn:Hg; [|done].
  split; simpl; [by apply od_del_sub|]. intros b Hb. eapply merge_P; [done|].
  apply od_get_Some_elem in Hg. unfold all_queued in Hc. rewrite Forall_forall in Hc.
  by apply (Hc (key, p)).
Qed.

Lemma flush_oldest_all fuel c : all_queued c -> emits (Forall P) (flush_oldest fuel c).
Proof.
  revert c; induction fuel as [|fuel IH]; intros c Hc; simpl.
  { split; [done|]. intros a [= <-]. constructor. }
  destruct (sources c) as [|[key p] rest]; [split; [done|]; by intros a [= <-]|].
  case_if; [|split; [done|]; by intros a [= <-]].
  destruct (flush_all c key Hc) as [H1 H2]. destruct (flush c key) as [c1 [b|e]]; simpl in *;
    [|done]. destruct (IH c1 H1) as [H3 H4].
  destruct (flush_oldest fuel c1) as [c2 [bs|e]]; simpl in *; [|done].
  split; [done|]. intros a [= <-]. constructor; auto.
Qed.

Lemma flush_keys_all keys c : all_queued c -> emits (Forall P) (flush_keys c keys).
Proof.
  revert c; induction keys as [|key keys IH]; intros c Hc; simpl.
  { split; [done|]. intros a [= <-]. constructor. }
  destruct (flush_all c key Hc) as [H1 H2]. destruct (flush c key) as [c1 [b|e]]; simpl in *;
    [|done]. destruct (IH c1 H1) as [H3 H4].
  destruct (flush_keys c1 keys) as [c2 [bs|e]]; simpl in *; [|done].
  split; [done|]. intros a [= <-]. constructor; auto.
Qed.

Lemma finish_all c : all_queued c -> emits (Forall P) (finish c).
Proof. apply flush_keys_all. Qed.

Lemma end_source_all c s w : all_queued c -> emits (Forall P) (end_source c s w).
Proof.
  intros Hc. unfold end_source. destruct (od_get (w, s) (sources c)).
  - destruct (flush_all c (w, s) Hc) as [H1 H2].
    destruct (flush c (w, s)) as [c1 [b|e]]; simpl in *; [|done].
    split; [done|]. intros a [= <-]. constructor; auto.
  - split; [done|]. by intros a [= <-].
Qed.

Lemma enqueue_all c key b : all_queued c -> P b -> all_queued (enqueue c key b).
Proof.
  intros Hc Hb. unfold enqueue, all_queued. simpl.
  assert (Hp : Forall P (p_batches (default (MkPending [] 0) (od_get key (sources c))))).
  { destruct (od_get key (sources c)) as [p|] eqn:Hg; [|constructor]. simpl.
    apply od_get_Some_elem in Hg. unfold all_queued in Hc. rewrite Forall_forall in Hc.
    by apply (Hc (key, p)). }
  assert (Hn : Forall P (p_batches (default (MkPending [] 0) (od_get key (sources c))) ++ [b]))
    by (apply Forall_app; auto).
  revert Hn. generalize (p_batches (default (MkPending [] 0) (od_get key (sources c))) ++ [b]).
  intros l Hl. clear Hp. unfold all_queued in Hc.
  generalize (p_bytes (default (MkPending [] 0) (od_get key (sources c))) + tensor_bytes b).
  induction Hc as [|[k' v'] d Hx Hd IH]; intros n; simpl; [by constructor|].
  case_decide; by constructor.
Qed.

Lemma add_all c b : all_queued c -> P b -> emits (Forall P) (add c b).
Proof.
  intros Hc Hb. unfold add. case_if; [split; [done|]; intros a [= <-]; auto|].
  destruct (source b) as [s|]; [|done]. destruct (first_sequence b); [|done].
  case_if; [done|]. pose proof (enqueue_all c (worker b, s) b Hc Hb) as Hq.
  set (c1 := enqueue c (worker b, s) b) in *. case_if.
  - destruct (flush_all c1 (worker b, s) Hq) as [H1 H2].
    destruct (flush c1 (worker b, s)) as [c2 [m|e]]; simpl in *; [|done].
    destruct (flush_oldest_all (length (sources c2)) c2 H1) as [H3 H4].
    destruct (flush_oldest (length (sources c2)) c2) as [c3 [bs|e]]; simpl in *; [|done].
    split; [done|]. intros a [= <-]. constructor; auto.
  - destruct (flush_oldest_all (length (sources c1)) c1 Hq) as [H3 H4].
    destruct (flush_oldest (length (sources c1)) c1) as [c3 [bs|e]]; simpl in *; [|done].
    split; [done|]. intros a [= <-]. auto.
Qed.
End collator_all.

(** ** Accounting *)

(** The key [add] files a batch under. *)
Definition has_key (key : Z * Z) (b : Batch) : Prop :=
  worker b = key.1 /\ source b = Some key.2.

Definition pending_ok (key : Z * Z) (p : PendingSource) : Prop :=
  p_batches p <> [] /\ p_bytes p = zsum tensor_bytes (p_batches p) /\
  Forall (has_key key) (p_batches p).

Definition entry_frames (e : (Z * Z) * PendingSource) : Z := Z.of_nat (length (p_batches e.2)).
Definition entry_bytes (e : (Z * Z) * PendingSource) : Z := p_bytes e.2.

(** The counters are the totals of the pending batches, filed under their own keys. *)
Record collator_ok (c : BatchCollator) : Prop := {
  ok_keys : NoDup (sources c).*1;
  ok_bytes : pending_bytes c = zsum entry_bytes (sources c);
  ok_frames : pending_frames c = zsum entry_frames (sources c);
  ok_entries : Forall (fun e => pending_ok e.1 e.2) (sources c);
}.

Lemma fields_bytes_nonneg fs : 0 <= fields_bytes fs.
Proof. apply zsum_nonneg. intros []. unfold column_bytes. lia. Qed.

Lemma tensor_bytes_nonneg b : 0 <= tensor_bytes b.
Proof.
  unfold tensor_bytes, owner_bytes. pose proof (fields_bytes_nonneg (batch_fields b)).
  destruct (registers b), (memory b), (context b), (layout b);
    repeat match goal with |- context [fields_bytes ?f] =>
      pose proof (fields_bytes_nonneg f); generalize dependent (fields_bytes f); intros end; lia.
Qed.

Lemma pending_bytes_nonneg key p : pending_ok key p -> 0 <= p_bytes p.
Proof. intros (_ & -> & _). apply zsum_nonneg, tensor_bytes_nonneg. Qed.

Lemma collator_ok_get c key p :
  collator_ok c -> od_get key (sources c) = Some p -> pending_ok key p.
Proof.
  intros Hc Hg%od_get_Some_elem. pose proof (ok_entries _ Hc) as H.
  rewrite Forall_forall in H. exact (H _ Hg).
Qed.

Lemma flush_ok c key : collator_ok c -> collator_ok (flush c key).1.
Proof.
  intros Hc. unfold flush. destruct (od_get key (sources c)) as [p|] eqn:Hg; [|done].
  destruct (od_get_split _ _ _ Hg) as (d1 & d2 & Hs & Hn & Hd & _).
  destruct Hc as [Hk Hb Hf He]. simpl. split; simpl.
  - apply (od_del_keys key _ Hk).
  - rewrite Hd, Hb, Hs, !zsum_app, zsum_cons. unfold entry_bytes at 2. simpl. lia.
  - rewrite Hd, Hf, Hs, !zsum_app, zsum_cons. unfold entry_frames at 2. simpl. lia.
  - rewrite Hd. rewrite Hs in He. apply Forall_app in He as [? [_ ?]%Forall_cons].
    by apply Forall_app.
Qed.

Lemma enqueue_ok c key b : collator_ok c -> has_key key b -> collator_ok (enqueue c key b).
Proof.
  intros Hc Hb. unfold enqueue. destruct (od_get key (sources c)) as [p|] eqn:Hg; simpl.
  - pose proof (collator_ok_get _ _ _ Hc Hg) as (Hp1 & Hp2 & Hp3).
    destruct (od_get_split _ _ _ Hg) as (d1 & d2 & Hs & Hn & _ & Hset).
    destruct Hc as [Hk Hby Hf He]. split; simpl; [by apply od_set_NoDup|..]; rewrite Hset.
    + rewrite Hby, Hs, !zsum_app, !zsum_cons. unfold entry_bytes at 2 5. simpl. lia.
    + rewrite Hf, Hs, !zsum_app, !zsum_cons. unfold entry_frames at 2 5. simpl.
      rewrite length_app. simpl. lia.
    + rewrite Hs in He. apply Forall_app in He as [? [_ ?]%Forall_cons].
      apply Forall_app; split; [done|]. constructor; [|done]. split_and!; simpl.
      * by destruct (p_batches p).
      * rewrite zsum_app, Hp2. unfold zsum at 3. simpl. lia.
      * apply Forall_app. by split; [|apply Forall_singleton].
  - destruct Hc as [Hk Hby Hf He]. split; simpl; [by apply od_set_NoDup|..];
      rewrite (od_set_fresh _ _ _ Hg).
    + rewrite Hby, zsum_app. unfold entry_bytes, zsum at 3. simpl. lia.
    + rewrite Hf, zsum_app. unfold entry_frames, zsum at 3. simpl. lia.
    + apply Forall_app. split; [done|]. repeat constructor; simpl; [done|lia|by apply Hb|by apply Hb].
Qed.

Lemma flush_oldest_ok fuel c : collator_ok c -> collator_ok (flush_oldest fuel c).1.
Proof.
  revert c; induction fuel as [|fuel IH]; intros c Hc; [done|]. simpl.
  destruct (sources c) as [|[key p] rest] eqn:Hs; [done|]. case_if; [|done].
  pose proof (flush_ok c key Hc) as Hf. destruct (flush c key) as [c1 [b|e]]; [|done].
  specialize (IH c1 Hf). by destruct (flush_oldest fuel c1).
Qed.

Lemma flush_keys_ok c keys : collator_ok c -> collator_ok (flush_keys c keys).1.
Proof.
  revert c; induction keys as [|key keys IH]; intros c Hc; [done|]. simpl.
  pose proof (flush_ok c key Hc) as Hf. destruct (flush c key) as [c1 [b|e]]; [|done].
  specialize (IH c1 Hf). by destruct (flush_keys c1 keys).
Qed.

Lemma add_ok c b : collator_ok c -> collator_ok (add c b).1.
Proof.
  intros Hc. unfold add. case_if; [done|].
  destruct (source b) as [s|] eqn:Hs, (first_sequence b); try done. case_if; [done|].
  assert (H1 : collator_ok (enqueue c (worker b, s) b)) by (by apply enqueue_ok).
  case_if.
  - pose proof (flush_ok _ (worker b, s) H1) as H2.
    destruct (flush _ _) as [c2 [m|e]]; [|done]. simpl.
    pose proof (flush_oldest_ok (length (sources c2)) c2 H2).
    by destruct (flush_oldest _ c2).
  - simpl. match goal with |- context [flush_oldest ?n ?c2] =>
      pose proof (flush_oldest_ok n c2 H1); by destruct (flush_oldest n c2) end.
Qed.

Lemma end_source_ok c src w : collator_ok c -> collator_ok (end_source c src w).1.
Proof.
  intros Hc. unfold end_source. destruct (od_get _ _); [|done].
  pose proof (flush_ok c (w, src) Hc). by destruct (flush c (w, src)).
Qed.

(** ** Limits *)

Definition entry_small (target : Z) (e : (Z * Z) * PendingSource) : Prop :=
  p_bytes e.2 < target /\ (length (p_batches e.2) < MAX_SOURCE_FRAMES)%nat.

(** The limits the class documents, for the pending batches. *)
Definition collator_bounded (c : BatchCollator) : Prop :=
  1 <= target_bytes c /\
  pending_bytes c < 2 * target_bytes c /\ pending_frames c < MAX_PENDING_FRAMES /\
  Forall (entry_small (target_bytes c)) (sources c).

Lemma flush_head c key p rest : sources c = (key, p) :: rest ->
  flush c key = (MkCollator (target_bytes c) (pending_bytes c - p_bytes p)
    (pending_frames c - Z.of_nat (length (p_batches p))) rest, merge_batches (p_batches p)).
Proof. intros Hs. unfold flush. rewrite Hs. simpl. by rewrite !decide_True. Qed.

(** With one unit of fuel per source the loop stops because its condition is false. *)
Lemma flush_oldest_bounded fuel c bs :
  collator_ok c -> 1 <= target_bytes c -> (length (sources c) <= fuel)%nat ->
  (flush_oldest fuel c).2 = Ok bs ->
  let c' := (flush_oldest fuel c).1 in
  target_bytes c' = target_bytes c /\ pending_bytes c' < 2 * target_bytes c' /\
  pending_frames c' < MAX_PENDING_FRAMES /\ sources c' `suffix_of` sources c.
Proof.
  unfold MAX_PENDING_FRAMES.
  revert c bs; induction fuel as [|fuel IH]; intros c bs Hc Ht Hl; simpl.
  - destruct (sources c) eqn:Hs; simpl in Hl; [|lia]. intros _.
    rewrite (ok_bytes _ Hc), (ok_frames _ Hc), Hs.
    split_and!; [done|unfold zsum; simpl; lia|unfold zsum; simpl; lia|done].
  - destruct (sources c) as [|[key p] rest] eqn:Hs; simpl.
    + intros _. rewrite (ok_bytes _ Hc), (ok_frames _ Hc), Hs.
      split_and!; [done|unfold zsum; simpl; lia|unfold zsum; simpl; lia|done].
    + case_if; [|intros _; bool_prop; simpl; rewrite Hs; unfold MAX_PENDING_FRAMES in *;
        split_and!; done || lia].
      pose proof (flush_ok c key Hc) as Hok. rewrite (flush_head _ _ _ _ Hs) in *.
      simpl in *. destruct (merge_batches (p_batches p)) as [m|e]; [|done].
      match type of Hok with collator_ok ?c1 =>
        specialize (IH c1); destruct (flush_oldest fuel c1) as [c2 [ms|e]] eqn:Hf end; [|done].
      intros _. simpl in *.
      destruct (IH ms) as (H1 & H2 & H3 & H4); [done|done|lia|done|].
      split_and!; [done|done|done|]. by apply suffix_cons_r.
Qed.

Lemma enqueue_entries c key b :
  collator_ok c -> Forall (entry_small (target_bytes c)) (sources c) ->
  Forall (fun e => e.1 = key \/ entry_small (target_bytes c) e) (sources (enqueue c key b)).
Proof.
  intros Hc Hs. unfold enqueue. destruct (od_get key (sources c)) as [p|] eqn:Hg; simpl.
  - destruct (od_get_split _ _ _ Hg) as (d1 & d2 & Heq & _ & _ & ->).
    rewrite Heq in Hs. apply Forall_app in Hs as [H1 [_ H2]%Forall_cons].
    apply Forall_app; split; [|constructor; [by left|]];
      (eapply Forall_impl; [eassumption|]; by right).
  - rewrite (od_set_fresh _ _ _ Hg). apply Forall_app; split; [|by repeat constructor].
    eapply Forall_impl; [eassumption|]; by right.
Qed.

Lemma flush_if_full_small c key target :
  NoDup (sources c).*1 -> target_bytes c = target ->
  Forall (fun e => e.1 = key \/ entry_small target e) (sources c) ->
  Forall (entry_small target) (sources (if source_full c key then (flush c key).1 else c)).
Proof.
  intros Hk <- Hs. unfold source_full. destruct (od_get key (sources c)) as [p|] eqn:Hg.
  - destruct (od_get_split _ _ _ Hg) as (d1 & d2 & Heq & Hn & Hd & _).
    assert (Hrest : Forall (entry_small (target_bytes c)) (d1 ++ d2)).
    { rewrite Heq in Hs, Hk. rewrite fmap_app, fmap_cons in Hk. apply NoDup_app in Hk as (_ & _ & Hk).
      apply NoDup_cons in Hk as [Hk _]. apply Forall_app in Hs as [H1 [_ H2]%Forall_cons].
      rewrite Forall_app, !Forall_forall in *. split; intros e He.
      - destruct (H1 e He) as [<-|]; [|done]. destruct Hn. by apply list_elem_of_fmap_2.
      - destruct (H2 e He) as [<-|]; [|done]. destruct Hk. simpl. by apply list_elem_of_fmap_2. }
    case_if; simpl.
    + unfold flush. rewrite Hg. simpl. by rewrite Hd.
    + bool_prop. rewrite Heq. apply Forall_app in Hrest as [??].
      apply Forall_app; split; [done|]. constructor; [|done]. split; simpl; lia.
  - rewrite Forall_forall in *. intros e He. destruct (Hs e He) as [Hkey|]; [|done].
    apply od_get_None in Hg. destruct Hg. rewrite <- Hkey. by apply list_elem_of_fmap_2.
Qed.

Lemma flush_target c key : target_bytes (flush c key).1 = target_bytes c.
Proof. unfold flush. by destruct (od_get _ _). Qed.

Lemma add_bounded c b ready :
  collator_ok c -> collator_bounded c -> (add c b).2 = Ok ready -> collator_bounded (add c b).1.
Proof.
  intros Hc Hb. unfold add. case_if; [done|].
  destruct (source b) as [s|] eqn:Hs, (first_sequence b); try done. case_if; [done|].
  destruct Hb as (Ht & _ & _ & Hsm).
  set (key := (worker b, s)). set (c1 := enqueue c key b).
  assert (H1 : collator_ok c1) by (by apply enqueue_ok).
  assert (Ht1 : target_bytes c1 = target_bytes c) by done.
  pose proof (flush_if_full_small c1 key (target_bytes c) (ok_keys _ H1) Ht1
    (enqueue_entries c key b Hc Hsm)) as Hsmall.
  assert (Hend : forall c2, collator_ok c2 -> target_bytes c2 = target_bytes c ->
    Forall (entry_small (target_bytes c)) (sources c2) -> forall ms,
    (flush_oldest (length (sources c2)) c2).2 = Ok ms ->
    collator_bounded (flush_oldest (length (sources c2)) c2).1).
  { intros c2 Hok2 Ht2 Hsm2 ms Hms.
    destruct (flush_oldest_bounded (length (sources c2)) c2 ms Hok2) as (E1 & E2 & E3 & [pre E4]); [lia|done|done|].
    rewrite Ht2 in E1. unfold collator_bounded. rewrite E1 in *. split_and!; [done|done|done|].
    rewrite E4 in Hsm2. by apply Forall_app in Hsm2 as [_ ?]. }
  destruct (source_full c1 key).
  - pose proof (flush_ok c1 key H1) as H2. pose proof (flush_target c1 key) as Ht2.
    destruct (flush c1 key) as [c2 [m|e]]; [|done]. simpl in *.
    specialize (Hend c2 H2 ltac:(congruence) Hsmall).
    destruct (flush_oldest _ c2) as [c3 [ms|e]]; simpl; [|done]. intros _. by eapply Hend.
  - simpl in *. specialize (Hend c1 H1 Ht1 Hsmall).
    destruct (flush_oldest _ c1) as [c3 [ms|e]]; simpl; [|done]. intros _. by eapply Hend.
Qed.

(** ** First in, first out, once *)

(** What a caller receives: a metadata batch passed through, or a merged group. *)
Inductive emission :=
  | Passed (b : Batch)
  | Merged (key : Z * Z) (group : list Batch) (out : Batch).

Definition emission_out (e : emission) : Batch :=
  match e with Passed b => b | Merged _ _ out => out end.

Definition emission_ok (e : emission) : Prop :=
  match e with
  | Passed b => is_some (layout b) || is_some (context_filter b) = true
  | Merged key group out =>
      group <> [] /\ Forall (has_key key) group /\ merge_batches group = Ok out
  end.

(** The input batches of one source that the emissions contain, in order. *)
Definition merged_inputs (k : Z * Z) (es : list emission) : list Batch :=
  concat ((fun e => match e with
                    | Merged key group _ => if decide (key = k) then group else []
                    | Passed _ => [] end) <$> es).

Definition passed_inputs (es : list emission) : list Batch :=
  omap (fun e => match e with Passed b => Some b | _ => None end) es.

Definition queued (c : BatchCollator) (k : Z * Z) : list Batch :=
  from_option p_batches [] (od_get k (sources c)).

(** [es] left the collator between the two states, and only [es]. *)
Definition drains (c : BatchCollator) (es : list emission) (c' : BatchCollator) : Prop :=
  Forall emission_ok es /\ passed_inputs es = [] /\
  forall k, queued c k = merged_inputs k es ++ queued c' k.

Lemma merged_inputs_app k es1 es2 :
  merged_inputs k (es1 ++ es2) = merged_inputs k es1 ++ merged_inputs k es2.
Proof. unfold merged_inputs. by rewrite fmap_app, concat_app. Qed.

Lemma drains_refl c : drains c [] c.
Proof. split_and!; [constructor|done|done]. Qed.

Lemma drains_trans c1 es1 c2 es2 c3 :
  drains c1 es1 c2 -> drains c2 es2 c3 -> drains c1 (es1 ++ es2) c3.
Proof.
  intros (H1 & H2 & H3) (H4 & H5 & H6). split_and!; [by apply Forall_app| |].
  - unfold passed_inputs in *. by rewrite omap_app, H2, H5.
  - intros k. by rewrite H3, H6, merged_inputs_app, app_assoc.
Qed.

Lemma flush_drains c key m c' :
  collator_ok c -> flush c key = (c', Ok m) ->
  exists e, emission_out e = m /\ drains c [e] c'.
Proof.
  intros Hc. unfold flush. destruct (od_get key (sources c)) as [p|] eqn:Hg; [|done].
  intros [= <- Hm]. pose proof (collator_ok_get _ _ _ Hc Hg) as (H1 & H2 & H3).
  exists (Merged key (p_batches p) m). split; [done|]. split_and!; [by repeat constructor|done|].
  intros k. unfold queued, merged_inputs. simpl. case_decide as Hk; simpl.
  - subst k. rewrite Hg. destruct (od_del_keys key _ (ok_keys _ Hc)) as [_ Hn].
    apply od_get_None in Hn. rewrite Hn. simpl. by rewrite !app_nil_r.
  - by rewrite od_del_get_ne by congruence.
Qed.

Lemma flush_oldest_drains fuel c bs c' :
  collator_ok c -> flush_oldest fuel c = (c', Ok bs) ->
  exists es, bs = emission_out <$> es /\ drains c es c'.
Proof.
  revert c bs; induction fuel as [|fuel IH]; intros c bs Hc; simpl.
  { intros [= <- <-]. exists []. split; [done|apply drains_refl]. }
  destruct (sources c) as [|[key p] rest] eqn:Hs.
  { intros [= <- <-]. exists []. split; [done|apply drains_refl]. }
  case_if; [|intros [= <- <-]; exists []; split; [done|apply drains_refl]].
  pose proof (flush_ok c key Hc) as Hok.
  destruct (flush c key) as [c1 [m|e]] eqn:Hf; [|done].
  destruct (flush_oldest fuel c1) as [c2 [ms|e]] eqn:Ho; simpl; [|done].
  intros [= <- <-]. destruct (flush_drains _ _ _ _ Hc Hf) as (e & He & Hd).
  destruct (IH c1 ms Hok Ho) as (es & -> & Hd'). exists (e :: es). split; [by rewrite <- He|].
  by apply (drains_trans c [e] c1 es c2).
Qed.

Lemma flush_keys_drains keys c bs c' :
  collator_ok c -> flush_keys c keys = (c', Ok bs) ->
  exists es, bs = emission_out <$> es /\ drains c es c'.
Proof.
  revert c bs; induction keys as [|key keys IH]; intros c bs Hc; simpl.
  { intros [= <- <-]. exists []. split; [done|apply drains_refl]. }
  pose proof (flush_ok c key Hc) as Hok.
  destruct (flush c key) as [c1 [m|e]] eqn:Hf; [|done].
  destruct (flush_keys c1 keys) as [c2 [ms|e]] eqn:Ho; simpl; [|done].
  intros [= <- <-]. destruct (flush_drains _ _ _ _ Hc Hf) as (e & He & Hd).
  destruct (IH c1 ms Hok Ho) as (es & -> & Hd'). exists (e :: es). split; [by rewrite <- He|].
  by apply (drains_trans c [e] c1 es c2).
Qed.

Lemma queued_enqueue c key b k :
  queued (enqueue c key b) k = queued c k ++ (if decide (key = k) then [b] else []).
Proof.
  unfold queued, enqueue. simpl. case_decide as Hk.
  - subst k. rewrite od_get_set_eq. simpl. by destruct (od_get key (sources c)).
  - by rewrite od_get_set_ne, app_nil_r by congruence.
Qed.

(** The CPU batches of one source, and the metadata batches, a caller adds. *)
Inductive collator_op := OpAdd (b : Batch) | OpEnd (src w : Z).

Definition is_metadata (b : Batch) : bool := is_some (layout b) || is_some (context_filter b).

Definition op_input (k : Z * Z) (op : collator_op) : list Batch :=
  match op with
  | OpAdd b => if is_metadata b then [] else
               if decide ((worker b, source b) = (k.1, Some k.2)) then [b] else []
  | OpEnd _ _ => []
  end.

Definition op_metadata (op : collator_op) : list Batch :=
  match op with OpAdd b => if is_metadata b then [b] else [] | OpEnd _ _ => [] end.

Definition run_op (c : BatchCollator) (op : collator_op) : BatchCollator * result (list Batch) :=
  match op with OpAdd b => add c b | OpEnd s w => end_source c s w end.

Fixpoint run_ops (c : BatchCollator) (ops : list collator_op) :
    BatchCollator * result (list Batch) :=
  match ops with
  | [] => (c, Ok [])
  | op :: ops =>
      let '(c1, r) := run_op c op in
      match r with
      | Raise e => (c1, Raise e)
      | Ok bs => let '(c2, r2) := run_ops c1 ops in (c2, let! rest := r2 in Ok (bs ++ rest))
      end
  end.

(** [es] are the emissions of a run over inputs [ins] (per source) and metadata [md]. *)
Definition conserves (c : BatchCollator) (ins : Z * Z -> list Batch) (md : list Batch)
    (es : list emission) (c' : BatchCollator) : Prop :=
  Forall emission_ok es /\ passed_inputs es = md /\
  forall k, queued c k ++ ins k = merged_inputs k es ++ queued c' k.

Lemma conserves_drains c es c' : drains c es c' -> conserves c (fun _ => []) [] es c'.
Proof. intros (? & ? & H). split_and!; [done|done|]. intros k. by rewrite app_nil_r. Qed.

Lemma conserves_trans c1 i1 m1 es1 c2 i2 m2 es2 c3 :
  conserves c1 i1 m1 es1 c2 -> conserves c2 i2 m2 es2 c3 ->
  conserves c1 (fun k => i1 k ++ i2 k) (m1 ++ m2) (es1 ++ es2) c3.
Proof.
  intros (H1 & H2 & H3) (H4 & H5 & H6). split_and!; [by apply Forall_app| |].
  - unfold passed_inputs in *. by rewrite omap_app, H2, H5.
  - intros k. rewrite app_assoc, H3, <- app_assoc, H6, merged_inputs_app. by rewrite app_assoc.
Qed.

Lemma add_conserves c b bs c' :
  collator_ok c -> add c b = (c', Ok bs) ->
  exists es, bs = emission_out <$> es /\
    conserves c (fun k => op_input k (OpAdd b)) (op_metadata (OpAdd b)) es c'.
Proof.
  intros Hc. unfold add, op_input, op_metadata, is_metadata.
  destruct (is_some (layout b) || is_some (context_filter b)) eqn:Hm.
  { intros [= <- <-]. exists [Passed b]. split; [done|]. split_and!; [by repeat constructor|done|].
    intros k. unfold merged_inputs. simpl. by rewrite app_nil_r. }
  destruct (source b) as [s|] eqn:Hs, (first_sequence b); try done. case_if; [done|].
  set (key := (worker b, s)). set (c1 := enqueue c key b).
  assert (H1 : collator_ok c1) by (by apply enqueue_ok).
  assert (Hstep : forall es c2, drains c1 es c2 -> conserves c
    (fun k => if decide ((worker b, Some s) = (k.1, Some k.2)) then [b] else []) [] es c2).
  { intros es c2 (E1 & E2 & E3). split_and!; [done|done|]. intros k. rewrite <- E3.
    unfold c1. rewrite queued_enqueue. f_equal. unfold key. destruct k as [w s']; simpl.
    repeat case_decide; try done; simplify_eq. }
  destruct (source_full c1 key).
  - pose proof (flush_ok c1 key H1) as H2.
    destruct (flush c1 key) as [c2 [m|e]] eqn:Hf; [|done]. simpl in *.
    destruct (flush_oldest _ c2) as [c3 [ms|e]] eqn:Ho; simpl; [|done]. intros [= <- <-].
    destruct (flush_drains _ _ _ _ H1 Hf) as (e & <- & Hd).
    destruct (flush_oldest_drains _ _ _ _ H2 Ho) as (es & -> & Hd').
    exists (e :: es). split; [done|]. apply Hstep. by apply (drains_trans c1 [e] c2 es c3).
  - simpl. destruct (flush_oldest _ c1) as [c3 [ms|e]] eqn:Ho; simpl; [|done]. intros [= <- <-].
    destruct (flush_oldest_drains _ _ _ _ H1 Ho) as (es & -> & Hd').
    exists es. split; [done|]. by apply Hstep.
Qed.

Lemma end_source_conserves c s w bs c' :
  collator_ok c -> end_source c s w = (c', Ok bs) ->
  exists es, bs = emission_out <$> es /\ conserves c (fun _ => []) [] es c'.
Proof.
  intros Hc. unfold end_source. destruct (od_get (w, s) (sources c)).
  - destruct (flush c (w, s)) as [c1 [m|e]] eqn:Hf; simpl; [|done]. intros [= <- <-].
    destruct (flush_drains _ _ _ _ Hc Hf) as (e & <- & Hd).
    exists [e]. split; [done|]. by apply conserves_drains.
  - intros [= <- <-]. exists []. split; [done|]. apply conserves_drains, drains_refl.
Qed.

Lemma run_ops_conserves ops c bs c' :
  collator_ok c -> run_ops c ops = (c', Ok bs) ->
  collator_ok c' /\ exists es, bs = emission_out <$> es /\
    conserves c (fun k => concat (op_input k <$> ops)) (concat (op_metadata <$> ops)) es c'.
Proof.
  revert c bs; induction ops as [|op ops IH]; intros c bs Hc; simpl.
  { intros [= <- <-]. split; [done|]. exists []. split; [done|].
    apply (conserves_drains c [] c), drains_refl. }
  destruct (run_op c op) as [c1 [b1|e]] eqn:Hop; [|done].
  destruct (run_ops c1 ops) as [c2 [b2|e]] eqn:Hrun; simpl; [|done]. intros [= <- <-].
  assert (Hstep : collator_ok c1 /\ exists es, b1 = emission_out <$> es /\
    conserves c (fun k => op_input k op) (op_metadata op) es c1).
  { destruct op as [b|s w]; simpl in Hop.
    - split; [by pose proof (add_ok c b Hc) as H; rewrite Hop in H|by apply add_conserves].
    - split; [by pose proof (end_source_ok c s w Hc) as H; rewrite Hop in H|].
      by eapply end_source_conserves. }
  destruct Hstep as (Hok & es1 & -> & H1). destruct (IH c1 b2 Hok Hrun) as (Hok2 & es2 & -> & H2).
  split; [done|]. exists (es1 ++ es2). split; [by rewrite fmap_app|].
  exact (conserves_trans _ _ _ _ _ _ _ _ _ H1 H2).
Qed.

Lemma flush_keys_empty keys c bs c' :
  NoDup (sources c).*1 -> keys = (sources c).*1 -> flush_keys c keys = (c', Ok bs) -> sources c' = [].
Proof.
  revert c bs; induction keys as [|key keys IH]; intros c bs Hk Heq; simpl.
  { intros [= <- <-]. destruct (sources c); done. }
  destruct (sources c) as [|[key' p] rest] eqn:Hs; [done|]. injection Heq as -> Heq.
  rewrite (flush_head _ _ _ _ Hs). destruct (merge_batches _); [|done].
  match goal with |- context [flush_keys ?c1 keys] =>
    destruct (flush_keys c1 keys) as [c2 [ms|e]] eqn:Ho end; simpl; [|done].
  intros [= <- <-]. apply NoDup_cons in Hk as [_ Hk]. exact (IH (MkCollator _ _ _ rest) ms Hk Heq Ho).
Qed.

Lemma new_collator_ok target c : new_collator target = Ok c ->
  collator_ok c /\ collator_bounded c /\ sources c = [].
Proof.
  unfold new_collator. intros H. inv_res H. injection H as <-. bool_prop.
  split_and!; simpl; [|split_and!; simpl; [lia|lia|done|constructor]|done].
  split; simpl; [constructor|done|done|constructor].
Qed.

(** ** Merged columns are the rows of the group, in order *)

Lemma torch_cat_data ts t : torch_cat ts = Ok t -> t_data t = concat (t_data <$> ts).
Proof.
  unfold torch_cat. destruct ts as [|t0 ts]; [done|]. intros H. inv_res H.
  destruct (t_shape t0); [done|]. inv_res H. by injection H as <-.
Qed.

Lemma concatenate_data ts t : concatenate ts = Ok t -> t_data t = concat (t_data <$> ts).
Proof.
  destruct ts as [|t1 [|t2 ts]]; [by apply torch_cat_data| |by apply torch_cat_data].
  intros [= <-]. simpl. by rewrite app_nil_r.
Qed.

(** The data of a named column, if the table has it. *)
Definition column_data `{Dataclass T} (n : string) (t : T) : option (list Z) :=
  match od_get n (dc_fields t) with
  | Some (Some c) => Some (t_data c)
  | _ => None
  end.

(** Column [n] of [m] is absent from all tables, or the concatenation of their columns. *)
Definition column_merged `{Dataclass T} (n : string) (tables : list T) (m : T) : Prop :=
  match column_data n m with
  | None => Forall (fun t => column_data n t = None) tables
  | Some data => exists cs, Forall2 (fun t c => column_data n t = Some c) tables cs /\
                            data = concat cs
  end.

Lemma getattr_Ok `{Dataclass T} (t : T) n v :
  getattr t n = Ok v <-> od_get n (dc_fields t) = Some v.
Proof. unfold getattr. destruct (od_get n (dc_fields t)); split; unfold throw; congruence. Qed.

Lemma optional_column_Ok `{Dataclass T} (tables : list T) n v :
  optional_column tables n = Ok v ->
  match v with
  | None => Forall (fun t => od_get n (dc_fields t) = Some None) tables
  | Some c => exists cs, Forall2 (fun t c => column_data n t = Some c) tables cs /\
                         t_data c = concat cs
  end.
Proof.
  unfold optional_column. intros Hoc. inv_res Hoc. apply rmap_Ok in Hv.
  assert (Hg : Forall2 (fun t o => od_get n (dc_fields t) = Some o) tables v0).
  { eapply Forall2_impl; [exact Hv|]. intros t o. by rewrite getattr_Ok. }
  clear Hv. destruct (existsb _ v0) eqn:He.
  - inv_res Hoc. injection Hoc as <-. bool_prop. rename Hg0 into Hall. rewrite forallb_forall in Hall.
    apply Forall_forall. intros t Ht. apply list_elem_of_lookup in Ht as [i Hi].
    destruct (Forall2_lookup_l _ _ _ _ _ Hg Hi) as (o & Ho & Hto). rewrite Hto.
    destruct o as [c|]; [|done].
    assert (Hin : In (Some c) v0) by (apply list_elem_of_In, list_elem_of_lookup; eauto).
    by specialize (Hall _ Hin).
  - inv_res Hoc. injection Hoc as <-. apply concatenate_data in Hv. exists (t_data <$> omap id v0).
    split; [|done]. clear Hv. revert He. induction Hg as [|t o tables os Hto _ IH]; [constructor|].
    destruct o as [c|]; simpl; [|done]. intros He. constructor; [|by apply IH].
    unfold column_data. by rewrite Hto.
Qed.

(** A dictionary built by a comprehension over names answers each name. *)
Lemma od_get_rmap {E V} (g : string -> res E V) names cols n :
  rmap (fun n => let! v := g n in Ok (n, v)) names = Ok cols ->
  (n ∈ names -> exists v, g n = Ok v /\ od_get n cols = Some v) /\
  (n ∉ names -> od_get n cols = None).
Proof.
  revert cols; induction names as [|n' names IH]; intros cols; simpl.
  - intros [= <-]. split; [set_solver|done].
  - intros H. inv_res H. injection H as <-. apply rbind_Ok in Hv as (w & Hw & [= <-]).
    destruct (IH _ Hv0) as [IH1 IH2]. split; simpl.
    + intros Hin. case_decide as Hd; [subst; eauto|]. apply IH1. set_solver.
    + intros Hn. rewrite decide_False by set_solver. apply IH2. set_solver.
Qed.

(** The positions of the rows of a batch or table in its source's event order. *)
Definition row_positions (b : Batch) (values : tensor) (sequence : option tensor) : list Z :=
  match sequence with
  | Some s => t_data s
  | None => seqZ (default 0 (first_sequence b)) (Z.of_nat (numel values))
  end.

Lemma row_sequences_data b values s t :
  row_sequences b values s = Ok t -> t_data t = row_positions b values s.
Proof.
  unfold row_sequences, row_positions. destruct s; [by intros [= <-]|].
  destruct (first_sequence b) as [f|]; [|done]. unfold arange. intros H. inv_res H.
  by injection H as <-.
Qed.

Lemma rows_data {A} (f : A -> result tensor) (g : A -> list Z) l rows :
  (forall a t, f a = Ok t -> t_data t = g a) -> rmap f l = Ok rows ->
  t_data <$> rows = g <$> l.
Proof.
  intros Hf H%rmap_Ok. induction H as [|a t l rows Ha _ IH]; [done|].
  rewrite !fmap_cons, IH. f_equal. by apply Hf.
Qed.

(** The whole table: every ordinary column and the row positions. *)
Definition table_merged `{Table T} (get : Batch -> option T) (bs : list Batch) (r : option T) :
    Prop :=
  let selected := select_tables get bs in
  match r with
  | None => selected = []
  | Some m =>
      (forall n, n ∈ (dc_fields m).*1 -> n ∉ table_skip ->
         column_merged n (snd <$> selected) m) /\
      column_data "sequences" m =
        Some (concat ((fun '(b, t) => row_positions b (table_pc t) (table_sequences t)) <$> selected))
  end.

Class TableLaws (T : Type) `{Table T} := {
  table_dataclass :: DataclassLaws T;
  table_skip_sequences : "sequences" ∈ table_skip;
  table_has_sequences : forall x : T, "sequences" ∈ (dc_fields x).*1;
}.

#[global] Instance registers_table_laws : TableLaws RegisterChanges.
Proof. split; [apply _| |intros x]; apply (bool_decide_unpack _); vm_compute; exact I. Qed.
#[global] Instance memory_table_laws : TableLaws MemoryAccesses.
Proof. split; [apply _| |intros x]; apply (bool_decide_unpack _); vm_compute; exact I. Qed.
#[global] Instance context_table_laws : TableLaws AddressContext.
Proof. split; [apply _| |intros x]; apply (bool_decide_unpack _); vm_compute; exact I. Qed.

Lemma od_get_app {V} n (d1 d2 : list (string * V)) :
  od_get n (d1 ++ d2) = match od_get n d1 with Some v => Some v | None => od_get n d2 end.
Proof. induction d1 as [|[n' v] d1 IH]; simpl; [done|]. by case_decide. Qed.

Lemma od_get_names {V} n (d : list (string * V)) : n ∈ d.*1 -> exists v, od_get n d = Some v.
Proof.
  intros Hn. destruct (od_get n d) eqn:E; [eauto|]. by apply od_get_None in E.
Qed.

Lemma column_data_some `{Dataclass T} n (t : T) c :
  od_get n (dc_fields t) = Some (Some c) -> column_data n t = Some (t_data c).
Proof. unfold column_data. by intros ->. Qed.

Lemma column_data_none `{Dataclass T} n (t : T) :
  od_get n (dc_fields t) = Some None -> column_data n t = None.
Proof. unfold column_data. by intros ->. Qed.

Lemma merge_table_merged `{TableLaws T} (get : Batch -> option T) bs r :
  merge_table get bs = Ok r -> table_merged get bs r.
Proof.
  unfold merge_table, table_merged. set (selected := select_tables get bs).
  destruct (last (snd <$> selected)) as [latest|] eqn:Hlast.
  2: { intros [= <-]. apply last_None in Hlast. by apply fmap_nil_inv in Hlast. }
  set (tables := snd <$> selected).
  assert (Hlin : latest ∈ tables) by (by apply last_Some_elem_of).
  intros Hm. inv_res Hm. injection Hm as <-. rename v into columns, v0 into rows, v1 into seqs,
    v2 into extra. split.
  - intros n Hn Hskip. rewrite (dc_names_const _ latest) in Hn.
    destruct (od_get_rmap _ _ _ n Hv) as [Hget _].
    destruct Hget as (v & Hoc & Hcol).
    { apply list_elem_of_In, List.filter_In. split; [by apply list_elem_of_In|].
      by rewrite bool_decide_eq_false_2. }
    apply optional_column_Ok in Hoc. destruct (od_get_names _ _ Hn) as [old Hold].
    set (kvs := columns ++ [("sequences", Some seqs)] ++ extra).
    assert (Hk : od_get n kvs = Some v) by (unfold kvs; by rewrite od_get_app, Hcol).
    unfold column_merged. destruct v as [c|].
    + by rewrite (column_data_some _ _ c) by (by eapply dc_replace_some).
    + rewrite Forall_forall in Hoc. rewrite column_data_none
        by (apply dc_replace_none; [by apply Hoc|done]).
      apply Forall_forall. intros t Ht. apply column_data_none. by apply Hoc.
  - destruct (od_get_rmap _ _ _ "sequences" Hv) as [_ Hget].
    assert (Hs : od_get "sequences" (columns ++ [("sequences", Some seqs)] ++ extra) =
      Some (Some seqs)).
    { rewrite od_get_app, Hget; [done|]. intros [_ Hf]%list_elem_of_In%List.filter_In.
      rewrite bool_decide_eq_true_2 in Hf by apply table_skip_sequences. done. }
    destruct (od_get_names _ _ (table_has_sequences latest)) as [old Hold].
    rewrite (column_data_some _ _ seqs) by (by eapply dc_replace_some).
    f_equal. rewrite (concatenate_data _ _ Hv1). f_equal.
    eapply rows_data; [|exact Hv0]. intros [b t] s. apply row_sequences_data.
Qed.

(** ** Merged block rows *)

Definition block_positions (b : Batch) : list Z :=
  row_positions b (addresses b) (block_sequences b).

(** Addresses are a one-dimensional column with one position per row. *)
Definition blocks_ok (b : Batch) : Prop :=
  length (t_data (addresses b)) = numel (addresses b) /\
  length (block_positions b) = numel (addresses b).

Definition nonempty_blocks (b : Batch) : bool := negb (numel (addresses b) =? 0)%nat.

Lemma concat_filter_nil {A B} (p : A -> bool) (f : A -> list B) l :
  (forall a, In a l -> p a = false -> f a = []) ->
  concat (f <$> List.filter p l) = concat (f <$> l).
Proof.
  induction l as [|a l IH]; intros Hf; [done|]. rewrite fmap_cons. simpl.
  destruct (p a) eqn:Hp; [rewrite fmap_cons; simpl; f_equal; apply IH; firstorder|].
  rewrite (Hf a), IH; [done|firstorder|by left|done].
Qed.

Lemma merge_batches_inv bs r : merge_batches bs = Ok r ->
  exists first rest, bs = first :: rest /\
  worker r = worker first /\ source r = source first /\
  first_sequence r = first_sequence first /\
  Forall (fun b => worker b = worker first /\ source b = source first) bs /\
  (let blocks := List.filter nonempty_blocks bs in
   (blocks = [] /\ addresses r = addresses first /\ block_sequences r = None) \/
   exists rows s, blocks <> [] /\ concatenate (addresses <$> blocks) = Ok (addresses r) /\
     rmap (fun b => row_sequences b (addresses b) (block_sequences b)) blocks = Ok rows /\
     concatenate rows = Ok s /\ block_sequences r = Some s) /\
  merge_table registers bs = Ok (registers r) /\ merge_table memory bs = Ok (memory r) /\
  merge_table context bs = Ok (context r).
Proof.
  unfold merge_batches. destruct bs as [|first rest] eqn:Hbs; [done|]. rewrite <- Hbs.
  intros H. inv_res H. injection H as <-. simpl.
  fold nonempty_blocks in *. exists first, rest. split_and!; try done.
  - apply Forall_forall. intros b Hb%list_elem_of_In. apply not_true_iff_false in Hg.
    apply dec_stable. intros Hne. apply Hg. apply existsb_exists. exists b. split; [done|].
    apply negb_true_iff, bool_decide_eq_false_2. naive_solver.
  - destruct (List.filter _ bs) as [|b blocks] eqn:Hf.
    + left. injection Hv as <-. injection Hv0 as <-. done.
    + right. inv_res Hv0. injection Hv0 as <-. by exists v4, v5.
Qed.

Lemma merge_batches_blocks bs r :
  merge_batches bs = Ok r -> Forall blocks_ok bs ->
  t_data (addresses r) = concat ((fun b => t_data (addresses b)) <$> bs) /\
  block_positions r = concat (block_positions <$> bs).
Proof.
  intros (first & rest & Hbs & _ & _ & _ & _ & Hblk & _)%merge_batches_inv Hok.
  rewrite Forall_forall in Hok.
  assert (Hnil : forall b, In b bs -> nonempty_blocks b = false ->
    t_data (addresses b) = [] /\ block_positions b = []).
  { intros b Hb%list_elem_of_In Hn. apply negb_false_iff, Nat.eqb_eq in Hn.
    destruct (Hok b Hb) as [H1 H2]. rewrite Hn in H1, H2.
    split; by apply nil_length_inv. }
  rewrite <- (concat_filter_nil nonempty_blocks (fun b => t_data (addresses b)) bs)
    by (intros; by apply Hnil).
  rewrite <- (concat_filter_nil nonempty_blocks block_positions bs) by (intros; by apply Hnil).
  destruct Hblk as [(Hf & Ha & Hs)|(rows & s & Hf & Ha & Hr & Hc & Hs)].
  - assert (Hn : nonempty_blocks first = false).
    { destruct (nonempty_blocks first) eqn:Hn; [|done]. subst bs. simpl in Hf. by rewrite Hn in Hf. }
    destruct (Hnil first) as [Hd _]; [subst; by left|done|].
    unfold block_positions at 1. rewrite Hf, Ha, Hs, Hd. split; [done|].
    apply negb_false_iff, Nat.eqb_eq in Hn. simpl. by rewrite Hn.
  - unfold block_positions at 1. rewrite Hs. simpl.
    rewrite (concatenate_data _ _ Ha), (concatenate_data _ _ Hc). split.
    + f_equal. by rewrite <- list_fmap_compose.
    + f_equal. eapply rows_data; [|exact Hr]. intros b t. apply row_sequences_data.
Qed.

(** ** Merged register values: rows keep their bytes and are zero-padded *)

(** A two-dimensional byte matrix, the form of [RegisterChanges.values]. *)
Definition matrix (t : tensor) (n w : nat) : Prop :=
  t_shape t = [n; w] /\ length (t_data t) = (n * w)%nat.

Lemma length_chunk_rows w n data : length (chunk_rows w n data) = n.
Proof. revert data; induction n; intros; simpl; auto. Qed.

Lemma chunk_rows_width w n data :
  length data = (n * w)%nat -> Forall (fun r => length r = w) (chunk_rows w n data).
Proof.
  revert data; induction n as [|n IH]; intros data Hl; simpl; constructor.
  - rewrite length_take. simpl in Hl. lia.
  - apply IH. rewrite length_drop. simpl in Hl. lia.
Qed.

Lemma concat_chunk_rows w n data : length data = (n * w)%nat -> concat (chunk_rows w n data) = data.
Proof.
  revert data; induction n as [|n IH]; intros data Hl; simpl.
  - symmetry. by apply nil_length_inv.
  - rewrite IH; [apply take_drop|]. rewrite length_drop. simpl in Hl. lia.
Qed.

Lemma chunk_concat_rows w rows :
  Forall (fun r => length r = w) rows -> chunk_rows w (length rows) (concat rows) = rows.
Proof.
  induction 1 as [|r rows Hr _ IH]; simpl; [done|].
  by rewrite take_app_length', drop_app_length', IH by done.
Qed.

Lemma matrix_rows t n w : matrix t n w ->
  tensor_rows t = chunk_rows w n (t_data t) /\ length (tensor_rows t) = n /\ row_count t = n /\
  row_width t = Ok w /\ Forall (fun r => length r = w) (tensor_rows t) /\
  concat (tensor_rows t) = t_data t.
Proof.
  intros [Hs Hl]. unfold tensor_rows, row_count, row_width. rewrite Hs. simpl.
  split_and!; [done|apply length_chunk_rows|done|done|by apply chunk_rows_width|by apply concat_chunk_rows].
Qed.

Lemma copy_tables_rows width ts : forall offset rows,
  Forall (fun t => exists n w, matrix t n w) ts ->
  (offset + sum_list (row_count <$> ts) <= length rows)%nat ->
  copy_tables width offset rows ts =
  take offset rows ++ concat ((fun t => pad_row width <$> tensor_rows t) <$> ts) ++
  drop (offset + sum_list (row_count <$> ts)) rows.
Proof.
  induction ts as [|t ts IH]; intros offset rows Hm Hl.
  - simpl. by rewrite Nat.add_0_r, take_drop.
  - apply Forall_cons in Hm as [(n & w & Ht) Hm].
    destruct (matrix_rows _ _ _ Ht) as (_ & Hlr & Hn & _).
    rewrite fmap_cons in Hl. simpl in Hl. rewrite fmap_cons. simpl.
    assert (Hlen : length (copy_rows width offset rows t) = length rows).
    { unfold copy_rows. rewrite !length_app, length_fmap, length_take, length_drop. lia. }
    change (sum_list (row_count t :: (row_count <$> ts))) with
      (row_count t + sum_list (row_count <$> ts))%nat in *.
    rewrite IH by (done || rewrite Hlen; lia). unfold copy_rows.
    change (list_fmap tensor nat row_count ts) with (row_count <$> ts).
    rewrite take_app_ge by (rewrite length_take; lia).
    rewrite length_take, Nat.min_l by lia. replace (offset + row_count t - offset)%nat with (row_count t) by lia.
    rewrite take_app_length' by (rewrite length_fmap; lia).
    rewrite !drop_app_ge by (rewrite ?length_take, ?length_fmap; lia).
    rewrite length_take, length_fmap, Nat.min_l, drop_drop by lia.
    rewrite <- !app_assoc. do 3 f_equal. f_equal. lia.
Qed.

Lemma pad_row_length w row : (length row <= w)%nat -> length (pad_row w row) = w.
Proof. intros. unfold pad_row. rewrite length_app, length_replicate. lia. Qed.

Lemma pad_row_id w row : length row = w -> pad_row w row = row.
Proof. intros <-. unfold pad_row. by rewrite Nat.sub_diag, app_nil_r. Qed.

Lemma concatenate_matrix ts w t :
  concatenate ts = Ok t -> Forall (fun t => exists n, matrix t n w) ts ->
  tensor_rows t = concat (tensor_rows <$> ts).
Proof.
  intros Hc Hm. assert (Hd := concatenate_data _ _ Hc).
  destruct ts as [|t1 ts]; [done|]. destruct ts as [|t2 ts].
  { injection Hc as <-. simpl. by rewrite app_nil_r. }
  remember (t1 :: t2 :: ts) as l. unfold concatenate in Hc.
  assert (Hcat : torch_cat l = Ok t) by (by subst). clear Hc.
  assert (Hrows : concat (t_data <$> l) = concat (concat (tensor_rows <$> l))).
  { clear -Hm. induction Hm as [|t l [n Ht] _ IH]; [done|]. rewrite !fmap_cons. simpl.
    rewrite concat_app, IH. f_equal. symmetry. by apply (matrix_rows _ _ _ Ht). }
  assert (Hall : Forall (fun r => length r = w) (concat (tensor_rows <$> l))).
  { clear -Hm. induction Hm as [|t l [n Ht] _ IH]; [constructor|]. rewrite fmap_cons. simpl.
    apply Forall_app. split; [by apply (matrix_rows _ _ _ Ht)|done]. }
  assert (Hlen : sum_list (default 0%nat <$> (head <$> (t_shape <$> l))) =
    length (concat (tensor_rows <$> l))).
  { clear -Hm. induction Hm as [|t l [n Ht] _ IH]; [done|]. rewrite !fmap_cons. simpl.
    rewrite length_app, <- IH. destruct (matrix_rows _ _ _ Ht) as (_ & -> & _).
    destruct Ht as [-> _]. done. }
  assert (Hsh : t_shape t = [length (concat (tensor_rows <$> l)); w]).
  { rewrite <- Hlen. unfold torch_cat in Hcat. subst l. inv_res Hcat.
    apply Forall_cons in Hm as [[n [Hs _]] _]. rewrite Hs in Hcat. inv_res Hcat.
    by injection Hcat as <-. }
  unfold tensor_rows at 1. rewrite Hsh, Hd, Hrows. by apply chunk_concat_rows.
Qed.

Lemma merge_register_values_rows tables kvs :
  Forall (fun t => exists n w, matrix (rc_values t) n w) tables ->
  merge_register_values tables = Ok kvs ->
  exists v width, kvs = [("values", Some v)] /\
    tensor_rows v = concat ((fun t => pad_row width <$> tensor_rows (rc_values t)) <$> tables) /\
    Forall (fun t => forall w, row_width (rc_values t) = Ok w -> (w <= width)%nat) tables.
Proof.
  intros Hm. unfold merge_register_values. set (ts := rc_values <$> tables).
  assert (Hts : Forall (fun t => exists n w, matrix t n w) ts) by (by apply Forall_fmap).
  intros H. inv_res H. injection H as <-. rename v into widths, v0 into v, Hv into Hw, Hv0 into Hv.
  exists v, (max_list widths). apply rmap_Ok in Hw.
  assert (Hle : Forall (fun t => forall w, row_width t = Ok w -> (w <= max_list widths)%nat) ts).
  { apply Forall_forall. intros t Ht w Htw. apply list_elem_of_lookup in Ht as [i Hi].
    destruct (Forall2_lookup_l _ _ _ _ _ Hw Hi) as (w' & Hw' & Heq).
    assert (w' = w) as -> by congruence. apply max_list_elem_of_le.
    apply list_elem_of_lookup. eauto. }
  split_and!; [done| |by apply Forall_fmap in Hle].
  assert (Hgoal : tensor_rows v = concat ((fun t => pad_row (max_list widths) <$> tensor_rows t) <$> ts)).
  2: { rewrite Hgoal. unfold ts. by rewrite <- list_fmap_compose. }
  destruct (forallb _ widths) eqn:Heq.
  - rewrite forallb_forall in Heq.
    assert (Hsame : Forall (fun t => exists n, matrix t n (max_list widths)) ts).
    { apply Forall_forall. intros t Ht. apply list_elem_of_lookup in Ht as [i Hi].
      destruct (Forall2_lookup_l _ _ _ _ _ Hw Hi) as (w & Hw' & Htw).
      assert (w = max_list widths) as <-.
      { apply Nat.eqb_eq, Heq, list_elem_of_In, list_elem_of_lookup. eauto. }
      destruct (Forall_lookup_1 _ _ _ _ Hts Hi) as (n & w' & Hmt).
      destruct (matrix_rows _ _ _ Hmt) as (_ & _ & _ & Hrw & _). exists n. congruence. }
    rewrite (concatenate_matrix _ _ _ Hv Hsame). f_equal. apply list_fmap_ext.
    intros i t Hi. destruct (Forall_lookup_1 _ _ _ _ Hsame Hi) as (n & Hmt).
    destruct (matrix_rows _ _ _ Hmt) as (_ & _ & _ & _ & Hall & _).
    rewrite <- (list_fmap_id (tensor_rows t)) at 1. apply list_fmap_ext. intros j r Hr.
    symmetry. apply pad_row_id. by apply (Forall_lookup_1 _ _ _ _ Hall Hr).
  - injection Hv as <-. unfold tensor_rows at 1. simpl.
    set (total := sum_list (row_count <$> ts)).
    rewrite copy_tables_rows by (done || rewrite length_replicate; fold total; lia). simpl.
    fold total. rewrite drop_ge, app_nil_r by (rewrite length_replicate; lia).
    set (rows := concat ((fun t => pad_row (max_list widths) <$> tensor_rows t) <$> ts)).
    assert (Hlr : length rows = total).
    { unfold rows, total. clear -Hts. induction Hts as [|t l (n & w & Ht) _ IH]; [done|].
      rewrite !fmap_cons. simpl. rewrite length_app, IH, length_fmap.
      destruct (matrix_rows _ _ _ Ht) as (_ & -> & -> & _). done. }
    rewrite <- Hlr. apply chunk_concat_rows. unfold rows. clear -Hts Hle.
    induction Hts as [|t l (n & w & Ht) _ IH]; [constructor|]. rewrite fmap_cons. simpl.
    apply Forall_cons in Hle as [Hw Hle]. apply Forall_app. split; [|by apply IH].
    destruct (matrix_rows _ _ _ Ht) as (_ & _ & _ & Hrw & Hall & _).
    apply Forall_fmap. eapply Forall_impl; [exact Hall|]. intros r Hr. simpl.
    apply pad_row_length. specialize (Hw _ Hrw). cbv beta in Hr. lia.
Qed.

(** ** Whole runs *)

Lemma end_source_bounded c s w :
  collator_ok c -> collator_bounded c -> collator_bounded (end_source c s w).1.
Proof.
  intros Hc (Ht & Hb & Hf & Hs). unfold end_source.
  destruct (od_get (w, s) (sources c)) as [p|] eqn:Hg; [|done].
  destruct (od_get_split _ _ _ Hg) as (d1 & d2 & Heq & _ & Hd & _).
  pose proof (pending_bytes_nonneg _ _ (collator_ok_get _ _ _ Hc Hg)).
  unfold flush. rewrite Hg. simpl. split_and!; simpl; [done|lia|lia|].
  rewrite Hd. rewrite Heq in Hs. apply Forall_app in Hs as [? [_ ?]%Forall_cons].
  by apply Forall_app.
Qed.

Lemma run_ops_bounded ops c bs c' :
  collator_ok c -> collator_bounded c -> run_ops c ops = (c', Ok bs) -> collator_bounded c'.
Proof.
  revert c bs; induction ops as [|op ops IH]; intros c bs Hc Hb; simpl; [by intros [= <- <-]|].
  destruct (run_op c op) as [c1 [b1|e]] eqn:Hop; [|done].
  destruct (run_ops c1 ops) as [c2 [b2|e]] eqn:Hrun; simpl; [|done]. intros [= <- <-].
  apply (IH c1 b2); [| |done]; destruct op as [b|s w]; simpl in Hop.
  - pose proof (add_ok c b Hc) as H. by rewrite Hop in H.
  - pose proof (end_source_ok c s w Hc) as H. by rewrite Hop in H.
  - pose proof (add_bounded c b b1 Hc Hb) as H. rewrite Hop in H. by apply H.
  - pose proof (end_source_bounded c s w Hc Hb) as H. by rewrite Hop in H.
Qed.

(** The accounting is exact. Every operation of the collator, whether it returns or
    raises, keeps [pending_bytes] and [pending_frames] equal to the totals of the batches
    still queued, each filed under its own (worker, source). *)
Theorem collator_accounting (c : BatchCollator) (Hc : collator_ok c) :
  (forall b, collator_ok (add c b).1) /\
  (forall s w, collator_ok (end_source c s w).1) /\
  collator_ok (finish c).1.
Proof.
  split_and!; intros; [by apply add_ok|by apply end_source_ok|by apply flush_keys_ok].
Qed.

(** Pending work is bounded. After any sequence of successful operations on a new
    collator, less than twice the target is pending, in fewer than 512 frames, and each
    source holds less than the target in fewer than 256 frames. *)
Theorem collator_limits (target : Z) (ops : list collator_op) (c0 c : BatchCollator)
    (out : list Batch) (Hnew : new_collator target = Ok c0)
    (Hrun : run_ops c0 ops = (c, Ok out)) :
  collator_bounded c.
Proof.
  destruct (new_collator_ok _ _ Hnew) as (Hok & Hb & _). by eapply run_ops_bounded.
Qed.

(** C34: nothing is lost, repeated or reordered. Over any successful run ended by
    [finish], the batches handed out are the metadata batches, passed through in order, and
    merges of groups; for every (worker, source) the groups, concatenated, are exactly the
    batches added for it, in order, and nothing stays queued. *)
Theorem collator_fifo (target : Z) (ops : list collator_op) (c0 c1 c2 : BatchCollator)
    (out last : list Batch) (Hnew : new_collator target = Ok c0)
    (Hrun : run_ops c0 ops = (c1, Ok out)) (Hfin : finish c1 = (c2, Ok last)) :
  sources c2 = [] /\
  exists es, out ++ last = emission_out <$> es /\ Forall emission_ok es /\
    passed_inputs es = concat (op_metadata <$> ops) /\
    forall k, merged_inputs k es = concat (op_input k <$> ops).
Proof.
  destruct (new_collator_ok _ _ Hnew) as (Hok & _ & H0).
  destruct (run_ops_conserves _ _ _ _ Hok Hrun) as (Hok1 & es1 & -> & H1).
  destruct (flush_keys_drains _ _ _ _ Hok1 Hfin) as (es2 & -> & H2).
  assert (Hempty : sources c2 = []) by (by eapply flush_keys_empty; [apply Hok1| |exact Hfin]).
  split; [done|]. exists (es1 ++ es2). split; [by rewrite fmap_app|].
  destruct (conserves_trans _ _ _ _ _ _ _ _ _ H1 (conserves_drains _ _ _ H2)) as (E1 & E2 & E3).
  split; [done|]. rewrite app_nil_r in E2. split; [done|]. intros k. specialize (E3 k).
  unfold queued in E3. rewrite H0, Hempty in E3. simpl in E3. rewrite !app_nil_r in E3. done.
Qed.

(** Merging concatenates rows. When a group merges, the merged batch keeps the
    identity of the first batch; its block addresses and their positions, and every column
    and the row positions of the registers, memory and context tables, are the
    concatenation of those of the group; an optional column is absent only when the whole
    group lacks it. *)
Theorem merge_batches_rows (bs : list Batch) (r : Batch)
    (Hm : merge_batches bs = Ok r) (Hok : Forall blocks_ok bs) :
  Forall (fun b => worker b = worker r /\ source b = source r) bs /\
  t_data (addresses r) = concat ((fun b => t_data (addresses b)) <$> bs) /\
  block_positions r = concat (block_positions <$> bs) /\
  table_merged registers bs (registers r) /\
  table_merged memory bs (memory r) /\
  table_merged context bs (context r).
Proof.
  destruct (merge_batches_blocks _ _ Hm Hok) as [Ha Hp].
  destruct (merge_batches_inv _ _ Hm) as (f & l & _ & Hw & Hs & _ & Hkeys & _ & Hr & Hme & Hc).
  rewrite Hw, Hs. split_and!; [done|done|done|by apply merge_table_merged..].
Qed.

(** Register values survive different row widths. The merged value matrix has the
    rows of the tables in order, each with its own bytes followed by zeros up to the widest
    row. *)
Theorem merge_register_values_padded (tables : list RegisterChanges)
    (kvs : list (string * option tensor))
    (Hm : Forall (fun t => exists n w, matrix (rc_values t) n w) tables)
    (Hv : merge_register_values tables = Ok kvs) :
  exists v width, kvs = [("values", Some v)] /\
    tensor_rows v = concat ((fun t => pad_row width <$> tensor_rows (rc_values t)) <$> tables) /\
    Forall (fun t => forall w, row_width (rc_values t) = Ok w -> (w <= width)%nat) tables.
Proof. by apply merge_register_values_rows. Qed.

(** *** Concrete runs *)

Definition blocks_batch (w s f : Z) (data : list Z) : Batch :=
  let n := length data in
  MkBatch (Some s) (Some f) (Tensor int64 cpu [n] data) None None None None w None
    None None None None None None.

Definition layout_batch : Batch :=
  MkBatch None None empty_int64 None None None
    (Some (MkExecutableLayout (Tensor int64 cpu [3%nat] [16; 32; 20]))) 0 None
    None None None None None None.

Definition regs (n w : nat) (data : list Z) : RegisterChanges :=
  let c := Tensor int64 cpu [n] (replicate n 1) in
  MkRegisterChanges c c c c (Tensor uint8 cpu [n; w] data) (Some ∅) (Some c).

Lemma collator_accounting_witness :
  collator_ok (MkCollator 20 0 0 []) /\
  collator_ok (add (MkCollator 20 0 0 []) (blocks_batch 0 1 0 [7; 8; 9])).1.
Proof.
  assert (H : collator_ok (MkCollator 20 0 0 [])) by (split; simpl; done || constructor).
  split; [exact H|]. apply (collator_accounting _ H).
Defined.

Definition example_ops : list collator_op :=
  [OpAdd (blocks_batch 0 1 0 [7]); OpAdd layout_batch; OpAdd (blocks_batch 0 2 0 [5]);
   OpAdd (blocks_batch 0 1 1 [8; 9]); OpEnd 2 0; OpAdd (blocks_batch 0 1 3 [10])].

Lemma collator_limits_witness : collator_bounded (run_ops (MkCollator 20 0 0 []) example_ops).1.
Proof.
  eapply (collator_limits 20 example_ops (MkCollator 20 0 0 [])); vm_compute; reflexivity.
Defined.

Lemma collator_fifo_witness :
  exists es, Forall emission_ok es /\
    merged_inputs (0, 1) es =
      [blocks_batch 0 1 0 [7]; blocks_batch 0 1 1 [8; 9]; blocks_batch 0 1 3 [10]].
Proof.
  destruct (collator_fifo 20 example_ops (MkCollator 20 0 0 [])
    (run_ops (MkCollator 20 0 0 []) example_ops).1
    (finish (run_ops (MkCollator 20 0 0 []) example_ops).1).1
    (match (run_ops (MkCollator 20 0 0 []) example_ops).2 with Ok l => l | _ => [] end)
    (match (finish (run_ops (MkCollator 20 0 0 []) example_ops).1).2 with Ok l => l | _ => [] end))
    as (_ & es & _ & Hok & _ & Hin); [vm_compute; reflexivity..|].
  exists es. split; [exact Hok|]. rewrite Hin. vm_compute. reflexivity.
Defined.

Lemma merge_batches_rows_witness :
  exists r, merge_batches [blocks_batch 0 1 0 [7]; blocks_batch 0 1 1 [8; 9]] = Ok r /\
    block_positions r = [0; 1; 2].
Proof.
  eexists. split; [vm_compute; reflexivity|].
  match goal with |- block_positions ?r = _ =>
    destruct (merge_batches_rows [blocks_batch 0 1 0 [7]; blocks_batch 0 1 1 [8; 9]] r)
      as (_ & _ & Hp & _) end; [vm_compute; reflexivity|repeat constructor|].
  rewrite Hp. vm_compute. reflexivity.
Defined.

Lemma merge_register_values_padded_witness :
  exists v width, merge_register_values [regs 2 1 [1; 2]; regs 1 3 [4; 5; 6]] =
      Ok [("values", Some v)] /\ width = 3%nat /\
    tensor_rows v = [[1; 0; 0]; [2; 0; 0]; [4; 5; 6]].
Proof.
  destruct (merge_register_values_padded [regs 2 1 [1; 2]; regs 1 3 [4; 5; 6]]
    [("values", Some (Tensor uint8 cpu [3; 3]%nat [1; 0; 0; 2; 0; 0; 4; 5; 6]))])
    as (v & width & Hk & Hr & Hw).
  - repeat constructor; eexists _, _; split; reflexivity.
  - vm_compute. reflexivity.
  - exists v, 3%nat. injection Hk as <-. split; [vm_compute; reflexivity|].
    split; [reflexivity|]. vm_compute. reflexivity.
Defined.
