(* ===== verification/Wire.v ===== *)
(** * The worker wire frame ([wire.py], and the native header codec it relies on)

    A frame is a 32-byte little-endian header and a payload whose size the
    header determines. [pool.py] and [stdio.py] read the header with
    [_native.payload_size] and, for observers, with
    [struct.Struct("<IHHIIQQ")]; the validation behind [payload_size] is
    [decode_header] of [src/native/core/trace.cpp], translated here because
    every receive loop trusts its bounds. *)

From S2P Require Import Prelude.

(** ** Constants and kinds ([trace.hpp]) *)

Definition wire_magic : Z := 0x31543243.
Definition legacy_wire_version : Z := 2.
Definition wire_version : Z := 3.
Definition header_bytes : nat := 32.
Definition max_addresses : Z := 256.
Definition max_sources : Z := 256.
Definition register_schema_bytes : Z := 72.
Definition max_payload_bytes : Z := 4064.
Definition context_bytes : Z := 64.
Definition layout_bytes : Z := 24.
Definition transition_count_bytes : Z := 24.
Definition transition_window_bytes : Z := 40.
Definition reduced_context_bytes : Z := 72.
Definition observation_summary_bytes : Z := 72.
Definition context_filter_bytes : Z := 80.
Definition max_action_bytes : Z := 256.
Definition terminal_report_version : Z := 1.
Definition terminal_flags : Z := 63.

Definition feature_memory : Z := Z.shiftl 1 8.
Definition feature_registers : Z := Z.shiftl 1 9.
Definition feature_memory_values : Z := Z.shiftl 1 10.
Definition feature_stdio : Z := Z.shiftl 1 11.
Definition feature_system : Z := Z.shiftl 1 12.
Definition feature_kernel : Z := Z.shiftl 1 13.
Definition feature_window : Z := Z.shiftl 1 14.
Definition feature_system_memory : Z := Z.shiftl 1 15.
Definition feature_address_context : Z := Z.shiftl 1 16.
Definition feature_executable_layout : Z := Z.shiftl 1 17.
Definition feature_mixed : Z := Z.shiftl 1 18.
Definition feature_stop : Z := Z.shiftl 1 19.
Definition feature_transition_windows : Z := Z.shiftl 1 20.
Definition feature_context_filter : Z := Z.shiftl 1 21.
Definition feature_observation_reduction : Z := Z.shiftl 1 22.

Inductive Kind :=
  | hello | blocks | source_end | complete | error | register_schema | registers_kind
  | memory_kind | input_request | kernel_request | guest_event | address_context
  | executable_layout | mixed | block_transitions | transition_window_kind | terminal_report
  | context_filter_kind | observation_summary_kind | reduced_context.

#[global] Instance Kind_eq_dec : EqDecision Kind.
Proof. solve_decision. Defined.

Definition kinds : list (Z * Kind) :=
  [(1, hello); (2, blocks); (3, source_end); (4, complete); (5, error);
   (6, register_schema); (7, registers_kind); (8, memory_kind); (9, input_request);
   (10, kernel_request); (11, guest_event); (12, address_context); (13, executable_layout);
   (14, mixed); (15, block_transitions); (16, transition_window_kind);
   (17, terminal_report); (18, context_filter_kind); (19, observation_summary_kind);
   (20, reduced_context)].

(** The enumerator of a 16-bit kind field, if it is one. *)
Definition kind_of (k : Z) : option Kind := od_get k kinds.

Record Header := MkHeader {
  h_kind : Z;
  h_source : Z;
  h_count : Z;
  h_sequence : Z;
  h_detail : Z;
  h_version : Z;
}.

#[global] Instance Header_eq_dec : EqDecision Header.
Proof. solve_decision. Defined.

(** ** The header codec *)

(** [struct.Struct("<IHHIIQQ")] and the offsets of [encode_header]. *)
Definition header_format : list nat := [4; 2; 2; 4; 4; 8; 8]%nat.

Definition encode_header (h : Header) : list Z :=
  pack_fields header_format
    [wire_magic; h_version h; h_kind h; h_source h; h_count h; h_sequence h; h_detail h].

Definition payload_size (h : Header) : Z :=
  match kind_of (h_kind h) with
  | Some guest_event => h_detail h
  | Some blocks => h_count h * 8
  | Some (register_schema | registers_kind | memory_kind | address_context
         | executable_layout | mixed | block_transitions | transition_window_kind
         | context_filter_kind | observation_summary_kind | reduced_context) => h_detail h
  | _ => 0
  end.

(** [(detail & flag) != 0] *)
Definition has (detail flag : Z) : bool := negb (Z.land detail flag =? 0).

Definition allowed_hello : Z :=
  fold_left Z.lor
    [feature_memory; feature_registers; feature_memory_values; feature_stdio; feature_system;
     feature_kernel; feature_window; feature_system_memory; feature_address_context;
     feature_executable_layout; feature_mixed; feature_stop; feature_transition_windows;
     feature_context_filter; feature_observation_reduction] 255.

(** The feature rules of a [hello] frame. *)
Definition check_hello (h : Header) : result unit :=
  let d := h_detail h in
  let architecture := Z.land d 255 in
  raise! ValueError "Unsupported target architecture or features"
    when (negb (architecture =? 1) && negb (architecture =? 2)) ||
         negb (Z.ldiff d allowed_hello =? 0) in
  raise! ValueError "Memory values require memory observations"
    when has d feature_memory_values && negb (has d feature_memory) in
  raise! ValueError "Executable layout requires user-mode capture"
    when has d feature_executable_layout && has d feature_system in
  raise! ValueError "System memory context needs x86 system memory capture"
    when has d feature_system_memory &&
         (negb (has d feature_address_context) || negb (has d feature_memory)) in
  raise! ValueError "Address context needs x86 system capture"
    when has d feature_address_context &&
         (negb (has d feature_system) || negb (architecture =? 2)) in
  raise! ValueError "System x86 register capture requires address context; update the worker"
    when (architecture =? 2) && has d feature_system && has d feature_registers &&
         negb (has d feature_address_context) in
  raise! ValueError "Incompatible system and action features"
    when (has d feature_kernel && negb (has d feature_system)) ||
         (has d feature_stdio && has d feature_system) in
  raise! ValueError "Transition windows need an interactive system worker"
    when has d feature_transition_windows && negb (has d feature_kernel) in
  raise! ValueError "Reduced observations need v3 context-only system capture"
    when has d feature_observation_reduction &&
         (negb (h_version h =? wire_version) || negb (has d feature_system) ||
          negb (has d feature_address_context) ||
          has d (Z.lor (Z.lor (Z.lor feature_kernel feature_memory) feature_registers)
                   feature_transition_windows)) in
  raise! ValueError "Context filtering needs rich x86 system capture"
    when has d feature_context_filter &&
         (negb (h_version h =? wire_version) || negb (has d feature_address_context) ||
          negb (has d feature_system) || negb (architecture =? 2) ||
          negb (has d (Z.lor feature_memory feature_registers))) in
  Ok tt.

(** The rules of a [terminal_report] frame. *)
Definition check_terminal_report (h : Header) : result unit :=
  let d := h_detail h in
  raise! ValueError "Invalid terminal report fields"
    when negb (h_version h =? wire_version) || negb (h_source h =? 0) ||
         negb (h_count h =? 0) || negb (h_sequence h =? 0) ||
         negb (Z.land d 0xffffffffff000000 =? 0) in
  let version := wrap 8 d in
  let reason := wrap 8 (Z.shiftr d 8) in
  let flags := wrap 8 (Z.shiftr d 16) in
  raise! ValueError "Unknown or inconsistent terminal report"
    when negb (version =? terminal_report_version) || negb (reason =? 1) ||
         negb (Z.ldiff flags terminal_flags =? 0) ||
         (has flags 2 && negb (has flags 1)) ||
         (has flags 8 && negb (has flags 4)) ||
         (has flags 32 && negb (has flags 16)) in
  Ok tt.

(** The rules that relate a signal batch's row count and payload size. *)
Definition check_signal (k : Kind) (h : Header) : result unit :=
  let this x := bool_decide (k = x) in
  let c := h_count h in let d := h_detail h in
  raise! ValueError "Invalid signal payload size"
    when (c =? 0) || (max_payload_bytes <? d) || (d =? 0) in
  raise! ValueError "Invalid register schema size or sequence"
    when this register_schema &&
         (negb (h_sequence h =? 0) || negb (d =? c * register_schema_bytes)) in
  raise! ValueError "Register payload is too short"
    when this registers_kind && (d <? c * 17) in
  raise! ValueError "Invalid address context size"
    when this address_context && (negb (c =? 1) || negb (d =? context_bytes)) in
  raise! ValueError "Invalid memory payload size"
    when this memory_kind && negb (d =? c * 24) && negb (d =? c * 40) &&
         negb (d =? c * 48) && negb (d =? c * 64) in
  Ok tt.

(** The [switch] of [decode_header]. *)
Definition check_kind (h : Header) : result unit :=
  let src := h_source h in let c := h_count h in
  let s := h_sequence h in let d := h_detail h in
  match kind_of (h_kind h) with
  | Some mixed =>
      raise! ValueError "Invalid mixed batch size"
        when (c =? 0) || (d <? 16) || (max_payload_bytes <? d) in Ok tt
  | Some executable_layout =>
      raise! ValueError "Invalid executable layout fields"
        when negb (src =? 0) || negb (s =? 0) || negb (c =? 1) || negb (d =? layout_bytes) in
      Ok tt
  | Some block_transitions =>
      raise! ValueError "Invalid block transition batch fields"
        when (c =? 0) || (s =? 0) || (max_payload_bytes <? d) ||
             negb (d =? c * transition_count_bytes) in Ok tt
  | Some transition_window_kind =>
      raise! ValueError "Invalid transition window fields"
        when negb (src =? 0) || negb (c =? 1) || (s =? 0) ||
             negb (d =? transition_window_bytes) in Ok tt
  | Some context_filter_kind =>
      raise! ValueError "Invalid context filter summary fields"
        when negb (h_version h =? wire_version) || negb (src =? 0) || negb (c =? 1) ||
             negb (s =? 0) || negb (d =? context_filter_bytes) in Ok tt
  | Some observation_summary_kind =>
      raise! ValueError "Invalid reduced observation summary fields"
        when negb (c =? 1) || negb (s =? 0) || negb (d =? observation_summary_bytes) in Ok tt
  | Some reduced_context =>
      raise! ValueError "Invalid reduced context batch fields"
        when (c =? 0) || negb (d =? c * reduced_context_bytes) in Ok tt
  | Some ((kernel_request | guest_event) as k) =>
      raise! ValueError "Invalid kernel adapter frame fields"
        when negb (src =? 0) || negb (c =? 0) || negb (s =? 0) || (d =? 0) ||
             ((if bool_decide (k = kernel_request) then 127 else 1024) <? d) in Ok tt
  | Some blocks =>
      raise! ValueError "Invalid block batch fields"
        when (c =? 0) || negb (d =? 0) in Ok tt
  | Some input_request =>
      raise! ValueError "Invalid stdin request fields"
        when negb (src =? 0) || negb (c =? 0) || (d =? 0) || (max_action_bytes <? d) in Ok tt
  | Some source_end =>
      raise! ValueError "Invalid source end fields"
        when negb (c =? 0) || negb (d =? 0) in Ok tt
  | Some ((register_schema | registers_kind | memory_kind | address_context) as k) =>
      check_signal k h
  | Some ((hello | complete | error) as k) =>
      raise! ValueError "Invalid control frame fields"
        when negb (src =? 0) || negb (c =? 0) || negb (s =? 0) in
      let! _ := if bool_decide (k = hello) then check_hello h else Ok tt in
      raise! ValueError "Invalid target exit code"
        when bool_decide (k = complete) && (255 <? d) in
      raise! ValueError "Unknown trace failure"
        when bool_decide (k = error) && ((d <? 1) || (4 <? d)) in
      Ok tt
  | Some terminal_report => check_terminal_report h
  | None => throw ValueError "Unknown trace frame kind"
  end.

(** The checks that follow the magic number. *)
Definition check_header (h : Header) : result Header :=
  raise! ValueError "Unsupported trace version"
    when negb (h_version h =? legacy_wire_version) && negb (h_version h =? wire_version) in
  raise! ValueError "Trace exceeds the supported source or batch limit"
    when (max_sources <=? h_source h) || (max_addresses <? h_count h) in
  let! _ := check_kind h in
  Ok h.

Definition decode_header (bytes : list Z) : result Header :=
  raise! ValueError "Trace header must contain 32 bytes"
    when negb (length bytes =? header_bytes)%nat in
  match unpack_fields header_format bytes with
  | [magic; version; kind; src; count; sequence; detail] =>
      raise! ValueError "Not a cpu2tensor trace" when negb (magic =? wire_magic) in
      check_header (MkHeader kind src count sequence detail version)
  | _ => throw ValueError "Trace header must contain 32 bytes"
  end.

(** [_native.payload_size(header)], as the extension module exports it. *)
Definition native_payload_size (header : list Z) : result nat :=
  let! h := decode_header header in
  Ok (Z.to_nat (payload_size h)).

(** ** The observer's view of a frame ([wire.py]) *)

Record WireFrame := MkWireFrame {
  wf_worker : Z;
  wf_endpoint : string;
  wf_version : Z;
  wf_kind : Z;
  wf_source : Z;
  wf_count : Z;
  wf_sequence : Z;
  wf_detail : Z;
  wf_data : list Z;
}.

(** ** Correctness of the codec *)

(** The fields fit their wire widths. *)
Definition header_fits (h : Header) : Prop :=
  Forall2 fits header_format
    [wire_magic; h_version h; h_kind h; h_source h; h_count h; h_sequence h; h_detail h].

#[global] Instance header_fits_dec h : Decision (header_fits h).
Proof. unfold header_fits. apply _. Defined.

Lemma length_encode_header h : length (encode_header h) = header_bytes.
Proof. apply (length_pack_fields header_format). done. Qed.

Lemma check_header_id h h' : check_header h = Ok h' -> h' = h.
Proof. unfold check_header. intros H. inv_res H. by injection H. Qed.

Lemma decode_header_Ok bs h : Forall is_byte bs -> decode_header bs = Ok h ->
  bs = encode_header h /\ header_fits h /\ check_header h = Ok h.
Proof.
  unfold decode_header. intros Hb H. inv_res H. bool_prop.
  pose proof (pack_unpack_exact header_format bs Hb Hg) as Hp.
  pose proof (unpack_fields_fits header_format bs Hb) as Hf. rewrite Hg in Hf. specialize (Hf (le_n _)).
  destruct (unpack_fields header_format bs) as
    [|magic [|version [|kind [|src [|count [|seq [|detail [|]]]]]]]] eqn:Hu; try discriminate.
  inv_res H. bool_prop. subst magic. pose proof (check_header_id _ _ H) as ->.
  unfold encode_header, header_fits. simpl h_version. simpl h_kind. simpl h_source.
  simpl h_count. simpl h_sequence. simpl h_detail. by rewrite Hp.
Qed.

Lemma decode_encode_header h :
  header_fits h -> check_header h = Ok h -> decode_header (encode_header h) = Ok h.
Proof.
  intros Hf Hc. unfold decode_header. rewrite length_encode_header.
  assert (Hu : unpack_fields header_format (encode_header h) =
    [wire_magic; h_version h; h_kind h; h_source h; h_count h; h_sequence h; h_detail h]).
  { rewrite <- (app_nil_r (encode_header h)). by apply unpack_pack_fields. }
  rewrite Hu. destruct h; exact Hc.
Qed.

(** The header codec is a bijection between acceptable headers and the byte
    strings the decoder accepts: a byte string decodes to [h] exactly when it is
    the encoding of [h], [h]'s fields fit their widths, and [h] passes the
    version, limit and per-kind checks. *)
Theorem decode_header_exact (bs : list Z) (h : Header) (Hb : Forall is_byte bs) :
  decode_header bs = Ok h <->
  bs = encode_header h /\ header_fits h /\ check_header h = Ok h.
Proof.
  split; [by apply decode_header_Ok|]. intros (-> & Hf & Hc). by apply decode_encode_header.
Qed.

Lemma check_kind_payload h : 0 <= h_count h -> 0 <= h_detail h -> check_header h = Ok h ->
  0 <= payload_size h /\
  (kind_of (h_kind h) <> Some reduced_context -> payload_size h <= max_payload_bytes) /\
  payload_size h <= max_addresses * reduced_context_bytes.
Proof.
  intros Hc0 Hd0 H. unfold check_header in H. inv_res H. bool_prop.
  unfold max_sources, max_addresses in *.
  unfold payload_size, check_kind, max_payload_bytes, reduced_context_bytes in *.
  destruct (kind_of (h_kind h)) as [[]|] eqn:Hk; try done;
    try (unfold check_signal in Hv); inv_res Hv; bool_prop;
    unfold max_payload_bytes, transition_count_bytes, layout_bytes, transition_window_bytes,
      context_filter_bytes, observation_summary_bytes, reduced_context_bytes in *;
    split_and!; try congruence; try match goal with |- _ -> _ => intros _ end; simpl in *; bool_prop; lia.
Qed.

(** A header accepted by the decoder announces a payload of at most 4064
    bytes, for every frame kind but [reduced_context]; a reduced context batch is
    bounded by its 256-row limit, at 18432 bytes. A receive loop that trusts
    [payload_size] therefore never allocates more than that for one frame. *)
Theorem payload_size_bounded (bs : list Z) (h : Header)
  (Hb : Forall is_byte bs) (Hd : decode_header bs = Ok h) :
  native_payload_size bs = Ok (Z.to_nat (payload_size h)) /\
  0 <= payload_size h <= max_addresses * reduced_context_bytes /\
  (kind_of (h_kind h) <> Some reduced_context -> payload_size h <= max_payload_bytes).
Proof.
  destruct (decode_header_Ok _ _ Hb Hd) as (-> & Hf & Hc).
  unfold native_payload_size. rewrite Hd. split; [done|].
  unfold header_fits, header_format in Hf.
  repeat match goal with H : Forall2 _ (_ :: _) (_ :: _) |- _ => inversion H; clear H; subst end.
  unfold fits in *.
  destruct (check_kind_payload h) as (? & ? & ?); [lia|lia|done|]. done.
Qed.

Definition example_reduced_header : Header := MkHeader 20 3 256 9 18432 3.

Lemma decode_header_exact_witness :
  decode_header (encode_header example_reduced_header) = Ok example_reduced_header.
Proof.
  apply (decode_header_exact (encode_header example_reduced_header) example_reduced_header).
  - apply pack_fields_is_byte.
  - split; [reflexivity|]. split; [|vm_compute; reflexivity].
    apply (bool_decide_unpack _). vm_compute. exact I.
Defined.

Lemma payload_size_bounded_witness :
  native_payload_size (encode_header example_reduced_header) = Ok 18432%nat.
Proof.
  refine (eq_trans (proj1 (payload_size_bounded (encode_header example_reduced_header)
            example_reduced_header _ _)) _).
  - apply pack_fields_is_byte.
  - vm_compute. reflexivity.
  - vm_compute. reflexivity.
Defined.
