(* ===== verification/Terminal.v ===== *)
(** * Facts about a finished trace ([terminal.py])

    The three enumerations, the outcome record and the exceptions that carry
    it. [trace_error] is what the generators of [pool.py] and [stdio.py] can
    raise: an ordinary exception, the private [_CleanEnd] signal, a terminal
    error with its outcome, or [GeneratorExit] at an abandoned [yield]. *)

From S2P Require Import Prelude.

Inductive TerminalReason :=
  | COMPLETE | TARGET_EXIT | MAX_RUN_DEADLINE | CAPTURE_FAILURE | TARGET_KILLED
  | UNSUPPORTED_TARGET | WORKER_TRANSPORT_FAILURE | UNKNOWN_DISCONNECTION
  | TRUNCATED_STREAM | CLIENT_TIMEOUT | CONNECTION_FAILURE.

Inductive BoundaryProgress := UNKNOWN | NOT_CONFIGURED | NOT_OBSERVED_BOUNDARY | OBSERVED.

Inductive TransportEnd := CLEAN | RESET | ERROR | TIMEOUT | NOT_OBSERVED.

#[global] Instance TerminalReason_eq_dec : EqDecision TerminalReason.
Proof. solve_decision. Defined.
#[global] Instance BoundaryProgress_eq_dec : EqDecision BoundaryProgress.
Proof. solve_decision. Defined.
#[global] Instance TransportEnd_eq_dec : EqDecision TransportEnd.
Proof. solve_decision. Defined.

Record TerminalOutcome := MkOutcome {
  o_reason : TerminalReason;
  o_endpoint : string;
  o_worker : Z;
  o_hello_received : bool;
  o_data_received : bool;
  o_hello_reported : option bool;
  o_data_reported : option bool;
  o_start : BoundaryProgress;
  o_stop : BoundaryProgress;
  o_transport : TransportEnd;
  o_complete : bool;
}.

#[global] Instance TerminalOutcome_eq_dec : EqDecision TerminalOutcome.
Proof. solve_decision. Defined.

(** [dataclasses.replace(outcome, transport=t)] *)
Definition set_transport (t : TransportEnd) (o : TerminalOutcome) : TerminalOutcome :=
  MkOutcome (o_reason o) (o_endpoint o) (o_worker o) (o_hello_received o) (o_data_received o)
    (o_hello_reported o) (o_data_reported o) (o_start o) (o_stop o) t (o_complete o).

(** [dataclasses.replace(outcome, worker=w)] *)
Definition set_outcome_worker (w : Z) (o : TerminalOutcome) : TerminalOutcome :=
  MkOutcome (o_reason o) (o_endpoint o) w (o_hello_received o) (o_data_received o)
    (o_hello_reported o) (o_data_reported o) (o_start o) (o_stop o) (o_transport o)
    (o_complete o).

(** Which of the three terminal exception classes is raised. *)
Inductive terminal_class := PlainTerminal | ConnectionTerminal | TimeoutTerminal.

#[global] Instance terminal_class_eq_dec : EqDecision terminal_class.
Proof. solve_decision. Defined.

Definition terminal_exc (c : terminal_class) : exc_class :=
  match c with
  | PlainTerminal => TraceTerminalError
  | ConnectionTerminal => TraceConnectionError
  | TimeoutTerminal => TraceTimeoutError
  end.

Inductive trace_error :=
  | PyError (e : exn)
  | CleanEnd (truncated : bool)
  | Terminal (c : terminal_class) (msg : string) (outcome : TerminalOutcome)
  | GeneratorExit.

#[global] Instance trace_error_eq_dec : EqDecision trace_error.
Proof. solve_decision. Defined.

(** [isinstance(error, class)] *)
Definition is_instance (e : trace_error) (c : exc_class) : bool :=
  match e with
  | PyError e => isinstance_exc (exn_class e) c
  | CleanEnd _ => isinstance_exc Exception_ c
  | Terminal t _ _ => isinstance_exc (terminal_exc t) c
  | GeneratorExit => isinstance_exc BaseException_ c
  end.
