(* ===== verification/PoolBatch.v ===== *)
(** * From decoded frames to batches ([pool.py]: [_tensor], [_batch])

    What the native decoder hands to Python for one frame ([decoded]), and the
    construction of the [Batch] the reader yields from it. Constructors called
    with [**columns] check their keyword arguments as Python does. *)

From S2P Require Import Prelude Batch Device Wire.

(** ** Decoded frames ([_native.pyi]) *)

Record RegisterColumns := MkRegisterColumns {
  rcol_pc : list Z;
  rcol_ids : list Z;
  rcol_widths : list Z;
  rcol_flags : list Z;
  rcol_values : list Z;
  rcol_value_width : nat;
  rcol_sequences : option (list Z);
}.

(** [mcol_sequences] is [None] when the dictionary has no such key. *)
Record MemoryColumns := MkMemoryColumns {
  mcol_pc : list Z;
  mcol_addresses : list Z;
  mcol_sizes : list Z;
  mcol_flags : list Z;
  mcol_values : option (list Z);
  mcol_physical_addresses : option (list Z);
  mcol_mapped_sizes : option (list Z);
  mcol_mapping_flags : option (list Z);
  mcol_context_sequences : option (list Z);
  mcol_sequences : option (list Z);
}.

Record MixedColumns := MkMixedColumns {
  mix_blocks : option (list Z);
  mix_block_sequences : option (list Z);
  mix_context : option (list (string * list Z));
  mix_registers : option RegisterColumns;
  mix_memory : option MemoryColumns;
}.

Inductive payload :=
  | PBytes (bs : list Z)
  | PSchema (update : gmap Z string)
  | PRegisters (c : RegisterColumns)
  | PMemory (c : MemoryColumns)
  | PColumns (kvs : list (string * list Z))
  | PMixed (c : MixedColumns).

Record decoded := MkDecoded {
  d_kind : Z;
  d_source : Z;
  d_count : Z;
  d_sequence : Z;
  d_detail : Z;
  d_payload : payload;
}.

(** ** Tensors and keyword construction *)

(** [_tensor]: [torch.frombuffer] over the decoded column. *)
Definition _tensor (data : list Z) (d : dtype) : result tensor := frombuffer data d.

Definition opt_tensor (data : option (list Z)) (d : dtype) : result (option tensor) :=
  match data with
  | None => Ok None
  | Some bs => let! t := _tensor bs d in Ok (Some t)
  end.

(** [tensor.reshape(-1, width)] *)
Definition reshape_rows (t : tensor) (width : nat) : result tensor :=
  raise! RuntimeError "cannot reshape tensor"
    when (width =? 0)%nat || negb (numel t mod width =? 0)%nat in
  Ok (Tensor (t_dtype t) (t_device t) [(numel t / width)%nat; width] (t_data t)).

(** [tensor.reshape(count, width)] *)
Definition reshape (t : tensor) (count width : nat) : result tensor :=
  raise! RuntimeError "shape is invalid for input" when negb (numel t =? count * width)%nat in
  Ok (Tensor (t_dtype t) (t_device t) [count; width] (t_data t)).

(** [{name: self._tensor(data, torch.int64) for name, data in columns.items()}] *)
Definition int64_kwargs (kvs : list (string * list Z)) : result (list (string * tensor)) :=
  rmap (fun '(n, data) => let! t := _tensor data int64 in Ok (n, t)) kvs.

(** Keyword arguments of a constructor: all known. *)
Definition known_kwargs (names : list string) (kvs : list (string * tensor)) : result unit :=
  raise! TypeError "got an unexpected keyword argument"
    when negb (forallb (fun n => bool_decide (n ∈ names)) kvs.*1) in Ok tt.
Definition kwarg (kvs : list (string * tensor)) (n : string) : result tensor :=
  match od_get n kvs with
  | Some t => Ok t
  | None => throw TypeError "missing a required argument"
  end.

Definition ObservationTransitions_of (kvs : list (string * tensor)) :
    result ObservationTransitions :=
  let! _ := known_kwargs ["from_addresses"; "destinations"; "counts"] kvs in
  let! f := kwarg kvs "from_addresses" in
  let! d := kwarg kvs "destinations" in
  let! c := kwarg kvs "counts" in
  Ok (MkObservationTransitions f d c).

Definition BlockTransitions_of (window : Z) (kvs : list (string * tensor)) :
    result BlockTransitions :=
  let! t := ObservationTransitions_of kvs in
  Ok (MkBlockTransitions window (ot_from_addresses t) (ot_destinations t) (ot_counts t)).

Definition context_names : list string :=
  ["pc"; "cr0"; "cr3"; "cr4"; "efer"; "cs_base"; "mode"; "known"].

Definition AddressContext_of (kvs : list (string * tensor)) : result AddressContext :=
  let! _ := known_kwargs (context_names ++ ["sequences"]) kvs in
  let! pc := kwarg kvs "pc" in
  let! cr0 := kwarg kvs "cr0" in
  let! cr3 := kwarg kvs "cr3" in
  let! cr4 := kwarg kvs "cr4" in
  let! efer := kwarg kvs "efer" in
  let! cs_base := kwarg kvs "cs_base" in
  let! mode := kwarg kvs "mode" in
  let! known := kwarg kvs "known" in
  Ok (MkAddressContext pc cr0 cr3 cr4 efer cs_base mode known (od_get "sequences" kvs)).

Definition ObservationContext_of (kvs : list (string * tensor)) : result ObservationContext :=
  let! _ := known_kwargs ("block_positions" :: context_names) kvs in
  let! positions := kwarg kvs "block_positions" in
  let! pc := kwarg kvs "pc" in
  let! cr0 := kwarg kvs "cr0" in
  let! cr3 := kwarg kvs "cr3" in
  let! cr4 := kwarg kvs "cr4" in
  let! efer := kwarg kvs "efer" in
  let! cs_base := kwarg kvs "cs_base" in
  let! mode := kwarg kvs "mode" in
  let! known := kwarg kvs "known" in
  Ok (MkObservationContext positions pc cr0 cr3 cr4 efer cs_base mode known).

(** ** The kinds of frame that become batches *)

Definition _BLOCKS : Z := 2.
Definition _COMPLETE : Z := 4.
Definition _ERROR : Z := 5.
Definition _REGISTER_SCHEMA : Z := 6.
Definition _REGISTERS : Z := 7.
Definition _MEMORY : Z := 8.
Definition _ADDRESS_CONTEXT : Z := 12.
Definition _EXECUTABLE_LAYOUT : Z := 13.
Definition _MIXED : Z := 14.
Definition _BLOCK_TRANSITIONS : Z := 15.
Definition _TRANSITION_WINDOW : Z := 16.
Definition _TERMINAL_REPORT : Z := 17.
Definition _CONTEXT_FILTER : Z := 18.
Definition _OBSERVATION_SUMMARY : Z := 19.
Definition _REDUCED_CONTEXT : Z := 20.

Definition _DATA_KINDS : list Z :=
  [_BLOCKS; _REGISTERS; _MEMORY; _ADDRESS_CONTEXT; _EXECUTABLE_LAYOUT; _MIXED;
   _BLOCK_TRANSITIONS; _TRANSITION_WINDOW; _OBSERVATION_SUMMARY; _REDUCED_CONTEXT;
   _CONTEXT_FILTER].

(** [struct.Struct("<IIIIQQQ")] and the two larger summaries. *)
Definition _WINDOW : list nat := [4; 4; 4; 4; 8; 8; 8]%nat.
Definition _OBSERVATION : list nat := [4; 4; 4; 4; 8; 8; 8; 8; 8; 8; 8]%nat.
Definition _FILTER : list nat := [4; 4; 4; 4; 8; 8; 8; 8; 8; 8; 8; 8]%nat.

Definition _WINDOW_STATUS : list (Z * string) := [(1, "ended"); (2, "aborted"); (3, "incomplete")].

Definition window_status (status : Z) : result string :=
  match od_get status _WINDOW_STATUS with
  | Some s => Ok s
  | None => throw KeyError "status"
  end.

(** A payload of another Python type than the [cast] claims. *)
Definition bad_payload {A} : result A := throw TypeError "unexpected payload type".

Definition as_bytes (p : payload) : result (list Z) :=
  match p with PBytes bs => Ok bs | _ => bad_payload end.
Definition as_columns (p : payload) : result (list (string * list Z)) :=
  match p with PColumns kvs => Ok kvs | _ => bad_payload end.

Definition transition_window_of (sequence : Z) (bs : list Z) : result TransitionWindow :=
  let! fields := unpack _WINDOW bs in
  match fields with
  | [status; srcs; capacity; reserved; distinct; observed; overflow] =>
      raise! AssertionError "reserved" when negb (reserved =? 0) in
      let! s := window_status status in
      Ok (MkTransitionWindow sequence s srcs capacity distinct observed overflow)
  | _ => throw ValueError "not enough values to unpack"
  end.

Definition context_filter_of (bs : list Z) : result ContextFilterSummary :=
  let! fields := unpack _FILTER bs in
  match fields with
  | [policy; latch; gate_source; reserved; gate_pc; cr3; paging_root; kept; dropped;
     matching; foreign; unknown] =>
      raise! AssertionError "reserved" when negb (reserved =? 0) in
      Ok (MkContextFilterSummary (if policy =? 1 then "drop" else "keep") (latch =? 2)
            gate_source gate_pc cr3 paging_root kept dropped matching foreign unknown)
  | _ => throw ValueError "not enough values to unpack"
  end.

Definition observation_summary_of (bs : list Z) : result ObservationSummary :=
  let! fields := unpack _OBSERVATION bs in
  match fields with
  | [srcs; tcap; ccap; reserved; blks; trans; distinct; toverflow; changes; retained;
     coverflow] =>
      raise! AssertionError "reserved" when negb (reserved =? 0) in
      Ok (MkObservationSummary srcs tcap ccap blks trans distinct toverflow changes retained
            coverflow true)
  | _ => throw ValueError "not enough values to unpack"
  end.

(** The register table of a mixed frame, and of a register frame. *)
Definition mixed_registers (c : RegisterColumns) (names : option (gmap Z string)) :
    result RegisterChanges :=
  let! pc := _tensor (rcol_pc c) int64 in
  let! ids := _tensor (rcol_ids c) int64 in
  let! widths := _tensor (rcol_widths c) int64 in
  let! flags := _tensor (rcol_flags c) int64 in
  let! seqs := match rcol_sequences c with
               | Some bs => _tensor bs int64
               | None => throw KeyError "sequences"
               end in
  let! flat := _tensor (rcol_values c) uint8 in
  let! values := reshape_rows flat (rcol_value_width c) in
  Ok (MkRegisterChanges pc ids widths flags values names (Some seqs)).

Definition frame_registers (count : nat) (c : RegisterColumns)
    (names : option (gmap Z string)) : result RegisterChanges :=
  raise! AssertionError "names is not None" when negb (is_some names) in
  let! pc := _tensor (rcol_pc c) int64 in
  let! ids := _tensor (rcol_ids c) int64 in
  let! widths := _tensor (rcol_widths c) int64 in
  let! flags := _tensor (rcol_flags c) int64 in
  let! flat := _tensor (rcol_values c) uint8 in
  let! values := reshape flat count (rcol_value_width c) in
  Ok (MkRegisterChanges pc ids widths flags values names None).

(** The memory table of a mixed frame ([reshape(-1, 16)]), and of a memory frame. *)
Definition memory_table_of (shape_values : tensor -> result tensor) (c : MemoryColumns)
    (sequences : option (list Z)) : result MemoryAccesses :=
  let! pc := _tensor (mcol_pc c) int64 in
  let! addrs := _tensor (mcol_addresses c) int64 in
  let! sizes := _tensor (mcol_sizes c) int64 in
  let! flags := _tensor (mcol_flags c) int64 in
  let! physical := opt_tensor (mcol_physical_addresses c) int64 in
  let! mapped := opt_tensor (mcol_mapped_sizes c) int64 in
  let! mflags := opt_tensor (mcol_mapping_flags c) int64 in
  let! cseqs := opt_tensor (mcol_context_sequences c) int64 in
  let! seqs := opt_tensor sequences int64 in
  let! flat := opt_tensor (mcol_values c) uint8 in
  let! values := match flat with
                 | None => Ok None
                 | Some t => let! v := shape_values t in Ok (Some v)
                 end in
  Ok (MkMemoryAccesses pc addrs sizes flags values physical mapped mflags cseqs seqs).

Definition mixed_memory (c : MemoryColumns) : result MemoryAccesses :=
  memory_table_of (fun t => reshape_rows t 16) c (mcol_sequences c).
Definition frame_memory (count : nat) (c : MemoryColumns) : result MemoryAccesses :=
  memory_table_of (fun t => reshape t count 16) c None.

(** [if key in columns: value = make(columns[key])] *)
Definition opt_table {A B} (make : A -> result B) (o : option A) : result (option B) :=
  match o with
  | None => Ok None
  | Some a => let! b := make a in Ok (Some b)
  end.

Definition mixed_batch (src sequence : Z) (c : MixedColumns)
    (names : option (gmap Z string)) : result Batch :=
  let! addrs := match mix_blocks c with
                | Some bs => _tensor bs int64
                | None => Ok empty_int64
                end in
  let! bseqs := match mix_blocks c, mix_block_sequences c with
                | Some _, Some bs => let! t := _tensor bs int64 in Ok (Some t)
                | Some _, None => throw KeyError "block_sequences"
                | None, _ => Ok None
                end in
  let! ctx := opt_table (fun kvs => let! ts := int64_kwargs kvs in AddressContext_of ts)
                (mix_context c) in
  let! regs := opt_table (fun r => mixed_registers r names) (mix_registers c) in
  let! mem := opt_table mixed_memory (mix_memory c) in
  Ok (MkBatch (Some src) (Some sequence) addrs regs mem ctx None 0 bseqs
        None None None None None None).

(** The batch before its columns move to the column device. *)
Definition build_batch (kind src : Z) (count : nat) (sequence : Z) (p : payload)
    (names : option (gmap Z string)) (reduced_observation : bool) : result Batch :=
  if kind =? _BLOCK_TRANSITIONS then
    let! columns := as_columns p in
    let! kvs := int64_kwargs columns in
    if reduced_observation then
      let! t := ObservationTransitions_of kvs in
      Ok (MkBatch (Some src) None empty_int64 None None None None 0 None None None (Some t)
            None None None)
    else
      let! t := BlockTransitions_of sequence kvs in
      Ok (MkBatch (Some src) None empty_int64 None None None None 0 None (Some t) None None
            None None None)
  else if kind =? _TRANSITION_WINDOW then
    let! bs := as_bytes p in
    let! w := transition_window_of sequence bs in
    Ok (MkBatch None None empty_int64 None None None None 0 None None (Some w) None None None
          None)
  else if kind =? _CONTEXT_FILTER then
    let! bs := as_bytes p in
    let! s := context_filter_of bs in
    Ok (MkBatch None None empty_int64 None None None None 0 None None None None None None
          (Some s))
  else if kind =? _OBSERVATION_SUMMARY then
    let! bs := as_bytes p in
    let! s := observation_summary_of bs in
    Ok (MkBatch (Some src) None empty_int64 None None None None 0 None None None None None
          (Some s) None)
  else if kind =? _REDUCED_CONTEXT then
    let! columns := as_columns p in
    let! kvs := int64_kwargs columns in
    let! c := ObservationContext_of kvs in
    Ok (MkBatch (Some src) None empty_int64 None None None None 0 None None None None (Some c)
          None None)
  else if kind =? _MIXED then
    match p with
    | PMixed c => mixed_batch src sequence c names
    | _ => bad_payload
    end
  else if kind =? _EXECUTABLE_LAYOUT then
    let! bs := as_bytes p in
    let! t := _tensor bs int64 in
    Ok (MkBatch None None empty_int64 None None None (Some (MkExecutableLayout t)) 0 None None
          None None None None None)
  else if kind =? _BLOCKS then
    let! bs := as_bytes p in
    let! addrs := _tensor bs int64 in
    Ok (bare_batch (Some src) (Some sequence) addrs)
  else if kind =? _ADDRESS_CONTEXT then
    let! columns := as_columns p in
    let! kvs := int64_kwargs columns in
    let! c := AddressContext_of kvs in
    Ok (MkBatch (Some src) (Some sequence) empty_int64 None None (Some c) None 0 None
          None None None None None None)
  else if kind =? _REGISTERS then
    match p with
    | PRegisters c =>
        let! r := frame_registers count c names in
        Ok (MkBatch (Some src) (Some sequence) empty_int64 (Some r) None None None 0 None
              None None None None None None)
    | _ => bad_payload
    end
  else
    match p with
    | PMemory c =>
        let! m := frame_memory count c in
        Ok (MkBatch (Some src) (Some sequence) empty_int64 None (Some m) None None 0 None
              None None None None None None)
    | _ => bad_payload
    end.

Definition _batch (column_device : device) (kind src : Z) (count : nat) (sequence : Z)
    (p : payload) (names : option (gmap Z string)) (reduced_observation : bool) :
    result Batch :=
  let! b := build_batch kind src count sequence p names reduced_observation in
  to_device b column_device.

(** ** Columns keep their bytes *)

(** A column of a batch, and the decoded bytes it must hold. *)
Definition expected_column : Type := (option string * string) * list Z.

Definition col_holds (c : column) (e : expected_column) : Prop :=
  (col_table c, col_name c) = e.1 /\ col_ok c /\ t_device (col_tensor c) = cpu /\
  tensor_bytes_of (col_tensor c) = e.2.

Definition opt_column (table : option string) (n : string) (bs : option (list Z)) :
    list expected_column :=
  match bs with None => [] | Some bs => [((table, n), bs)] end.

(** The columns of a dictionary payload, in the order of the dataclass's fields. *)
Definition dict_columns (table : string) (names : list string) (kvs : list (string * list Z)) :
    list expected_column :=
  concat ((fun n => opt_column (Some table) n (od_get n kvs)) <$> names).

Definition register_columns (c : RegisterColumns) (seqs : option (list Z)) :
    list expected_column :=
  let col n bs := ((Some "registers", n), bs) in
  [col "pc" (rcol_pc c); col "ids" (rcol_ids c); col "widths" (rcol_widths c);
   col "flags" (rcol_flags c); col "values" (rcol_values c)] ++
  opt_column (Some "registers") "sequences" seqs.

Definition memory_columns (c : MemoryColumns) (seqs : option (list Z)) : list expected_column :=
  let col n bs := ((Some "memory", n), bs) in
  let opt := opt_column (Some "memory") in
  [col "pc" (mcol_pc c); col "addresses" (mcol_addresses c); col "sizes" (mcol_sizes c);
   col "flags" (mcol_flags c)] ++ opt "values" (mcol_values c) ++
  opt "physical_addresses" (mcol_physical_addresses c) ++
  opt "mapped_sizes" (mcol_mapped_sizes c) ++ opt "mapping_flags" (mcol_mapping_flags c) ++
  opt "context_sequences" (mcol_context_sequences c) ++ opt "sequences" seqs.

Definition transition_names : list string := ["from_addresses"; "destinations"; "counts"].

(** The columns a frame carries, by kind. *)
Definition expected_columns (kind : Z) (p : payload) (reduced : bool) : list expected_column :=
  let no_blocks := ((None, "addresses"), []) in
  if kind =? _MIXED then
    match p with
    | PMixed c =>
        [((None, "addresses"), default [] (mix_blocks c))] ++
        match mix_blocks c with
        | None => []
        | Some _ => opt_column None "block_sequences" (mix_block_sequences c)
        end ++
        match mix_registers c with None => [] | Some r => register_columns r (rcol_sequences r) end ++
        match mix_memory c with None => [] | Some m => memory_columns m (mcol_sequences m) end ++
        match mix_context c with
        | None => []
        | Some kvs => dict_columns "context" (context_names ++ ["sequences"]) kvs
        end
    | _ => []
    end
  else if kind =? _BLOCKS then
    match p with PBytes bs => [((None, "addresses"), bs)] | _ => [] end
  else no_blocks ::
    match p with
    | PBytes bs => if kind =? _EXECUTABLE_LAYOUT then [((Some "layout", "values"), bs)] else []
    | PRegisters c => register_columns c None
    | PMemory c => memory_columns c None
    | PColumns kvs =>
        if kind =? _BLOCK_TRANSITIONS then
          dict_columns (if reduced then "observation_transitions" else "transitions")
            transition_names kvs
        else if kind =? _REDUCED_CONTEXT then
          dict_columns "observation_context" ("block_positions" :: context_names) kvs
        else dict_columns "context" (context_names ++ ["sequences"]) kvs
    | _ => []
    end.

(** Every column buffer is a byte string. *)
Definition opt_bytes (o : option (list Z)) : list (list Z) := option_list o.
Definition register_buffers (c : RegisterColumns) : list (list Z) :=
  [rcol_pc c; rcol_ids c; rcol_widths c; rcol_flags c; rcol_values c] ++
  opt_bytes (rcol_sequences c).
Definition memory_buffers (c : MemoryColumns) : list (list Z) :=
  [mcol_pc c; mcol_addresses c; mcol_sizes c; mcol_flags c] ++
  concat (opt_bytes <$> [mcol_values c; mcol_physical_addresses c; mcol_mapped_sizes c;
    mcol_mapping_flags c; mcol_context_sequences c; mcol_sequences c]).
Definition payload_buffers (p : payload) : list (list Z) :=
  match p with
  | PBytes bs => [bs]
  | PSchema _ => []
  | PRegisters c => register_buffers c
  | PMemory c => memory_buffers c
  | PColumns kvs => kvs.*2
  | PMixed c =>
      opt_bytes (mix_blocks c) ++ opt_bytes (mix_block_sequences c) ++
      match mix_context c with None => [] | Some kvs => kvs.*2 end ++
      match mix_registers c with None => [] | Some r => register_buffers r end ++
      match mix_memory c with None => [] | Some m => memory_buffers m end
  end.
Definition payload_ok (p : payload) : Prop := Forall (Forall is_byte) (payload_buffers p).

#[global] Instance payload_ok_dec p : Decision (payload_ok p).
Proof. unfold payload_ok, is_byte. apply _. Defined.

Lemma le_bytes_shift n z k : le_bytes n (z + k * 256 ^ Z.of_nat n) = le_bytes n z.
Proof.
  revert z; induction n as [|n IH]; intros z; [done|]. simpl le_bytes.
  rewrite Nat2Z.inj_succ, Z.pow_succ_r by lia.
  replace (z + k * (256 * 256 ^ Z.of_nat n)) with (z + (k * 256 ^ Z.of_nat n) * 256) by ring.
  rewrite Z.mod_add, Z.div_add by lia. by rewrite IH.
Qed.

Lemma elem_of_bytes_exact d bs : Forall is_byte bs -> length bs = element_size d ->
  elem_ok d (elem_of_bytes d bs) /\ elem_bytes d (elem_of_bytes d bs) = bs.
Proof.
  intros Hb Hl. pose proof (le_val_bound bs Hb) as Hv. rewrite Hl in Hv.
  unfold elem_bytes. rewrite <- Hl. destruct d; simpl element_size in *.
  - change (256 ^ Z.of_nat 8) with (2 ^ 64) in Hv. split; [by apply signed_sint|].
    rewrite <- (le_bytes_le_val bs Hb) at 3. rewrite Hl. unfold elem_of_bytes, signed. case_if; [done|].
    exact (le_bytes_shift 8 (le_val bs) (-1)).
  - change (256 ^ Z.of_nat 1) with (2 ^ 8) in Hv. split; [done|]. by apply le_bytes_le_val.
Qed.

Lemma data_of_bytes_exact d n bs : Forall is_byte bs -> length bs = (n * element_size d)%nat ->
  length (data_of_bytes d n bs) = n /\ Forall (elem_ok d) (data_of_bytes d n bs) /\
  data_bytes d (data_of_bytes d n bs) = bs.
Proof.
  revert bs; induction n as [|n IH]; intros bs Hb Hl; simpl.
  - destruct bs; [|done]. split_and!; [done|constructor|done].
  - destruct (IH (drop (element_size d) bs)) as (IH1 & IH2 & IH3);
      [by apply Forall_drop | rewrite length_drop; lia |].
    destruct (elem_of_bytes_exact d (take (element_size d) bs)) as [He1 He2];
      [by apply Forall_take | rewrite length_take; lia |].
    split_and!; [by rewrite IH1|by constructor|].
    rewrite data_bytes_cons, He2, IH3. apply take_drop.
Qed.

Lemma div_exact_comm n e : (n mod e)%nat = 0%nat -> n = (n / e * e)%nat.
Proof. intros H. pose proof (proj2 (Nat.Div0.div_exact n e) H). lia. Qed.

(** A CPU tensor that torch accepts and that holds exactly these bytes. *)
Definition holds (t : tensor) (bs : list Z) : Prop :=
  tensor_ok t /\ t_device t = cpu /\ tensor_bytes_of t = bs.

Lemma tensor_holds bs d t : Forall is_byte bs -> _tensor bs d = Ok t -> holds t bs.
Proof.
  unfold _tensor, frombuffer. intros Hb H. inv_res H. bool_prop. injection H as <-.
  pose proof (element_size_pos d) as He.
  destruct (data_of_bytes_exact d (length bs / element_size d) bs Hb) as (H1 & H2 & H3).
  { by apply div_exact_comm. }
  repeat split; try done. unfold numel. simpl. by rewrite H1, Nat.mul_1_r.
Qed.

Lemma empty_holds : holds empty_int64 [].
Proof. repeat split. constructor. Qed.

Lemma reshape_rows_holds t w t' bs : holds t bs -> reshape_rows t w = Ok t' -> holds t' bs.
Proof.
  unfold reshape_rows. intros ((Hn & Ho) & Hd & Hb) H. inv_res H. bool_prop. injection H as <-.
  repeat split; try done. simpl. unfold numel at 1. simpl. rewrite Hn, Nat.mul_1_r.
  by apply div_exact_comm.
Qed.

Lemma reshape_holds t n w t' bs : holds t bs -> reshape t n w = Ok t' -> holds t' bs.
Proof.
  unfold reshape. intros ((Hn & Ho) & Hd & Hb) H. inv_res H. bool_prop. injection H as <-.
  repeat split; try done. unfold numel in *. simpl in *. lia.
Qed.

Lemma col_holds_intro t n x bs : holds x bs -> col_holds (Col t n x) ((t, n), bs).
Proof. intros (? & ? & ?). by split_and!. Qed.

(** An optional column and the buffer it was made from. *)
Definition opt_holds (t : option tensor) (bs : option (list Z)) : Prop :=
  match t, bs with
  | None, None => True
  | Some t, Some bs => holds t bs
  | _, _ => False
  end.

Lemma opt_tensor_holds bs d t : Forall (Forall is_byte) (opt_bytes bs) ->
  opt_tensor bs d = Ok t -> opt_holds t bs.
Proof.
  destruct bs as [bs|]; simpl; intros Hb H; inv_res H; injection H as <-; [|done].
  apply Forall_cons in Hb as [Hb _]. by eapply tensor_holds.
Qed.

Lemma int64_kwargs_holds kvs ts n : Forall (Forall is_byte) kvs.*2 ->
  int64_kwargs kvs = Ok ts -> opt_holds (od_get n ts) (od_get n kvs).
Proof.
  intros Hb H%rmap_Ok. induction H as [|[k bs] [k' t] kvs ts Ht _ IH]; [done|].
  apply Forall_cons in Hb as [Hbs Hb]. inv_res Ht. injection Ht as <- <-. simpl.
  case_decide; [|by apply IH]. by eapply tensor_holds.
Qed.

Lemma kwarg_holds kvs ts n t : Forall (Forall is_byte) kvs.*2 ->
  int64_kwargs kvs = Ok ts -> kwarg ts n = Ok t ->
  exists bs, od_get n kvs = Some bs /\ holds t bs.
Proof.
  intros Hb Hk H. pose proof (int64_kwargs_holds _ _ n Hb Hk) as Ho. unfold kwarg in H.
  destruct (od_get n ts); [|done]. injection H as <-. destruct (od_get n kvs); [eauto|done].
Qed.

(** Replaces each constructor argument by the buffer it holds. *)
Ltac kwargs_hold Hb Hk :=
  repeat match goal with
  | H : kwarg ?ts ?n = Ok ?t |- _ =>
      let bs := fresh "bs" in let Hget := fresh "Hget" in let Hh := fresh "Hh" in
      destruct (kwarg_holds _ _ _ _ Hb Hk H) as (bs & Hget & Hh); clear H
  end.

(** Columns in the order of the fields, each with its buffer. *)
Ltac columns_hold :=
  repeat (first [apply Forall2_nil_2 | apply Forall2_cons_2; [by apply col_holds_intro|]
                | apply Forall2_app]).

Lemma opt_column_holds table n t bs : opt_holds t bs ->
  Forall2 col_holds (match t with Some t => [Col table n t] | None => [] end)
    (opt_column table n bs).
Proof. destruct t, bs; simpl; try done; intros; columns_hold. Qed.

Lemma transitions_hold kvs ts t : Forall (Forall is_byte) kvs.*2 ->
  int64_kwargs kvs = Ok ts -> ObservationTransitions_of ts = Ok t ->
  Forall2 col_holds (table_columns "observation_transitions" (Some t))
    (dict_columns "observation_transitions" transition_names kvs) /\
  (forall w, Forall2 col_holds (table_columns "transitions"
      (Some (MkBlockTransitions w (ot_from_addresses t) (ot_destinations t) (ot_counts t))))
    (dict_columns "transitions" transition_names kvs)).
Proof.
  intros Hb Hk H. unfold ObservationTransitions_of in H. inv_res H. injection H as <-.
  kwargs_hold Hb Hk. unfold dict_columns, transition_names. simpl.
  rewrite Hget, Hget0, Hget1. simpl. split; [|intros w]; columns_hold.
Qed.

Lemma context_holds kvs ts c : Forall (Forall is_byte) kvs.*2 ->
  int64_kwargs kvs = Ok ts -> AddressContext_of ts = Ok c ->
  Forall2 col_holds (table_columns "context" (Some c))
    (dict_columns "context" (context_names ++ ["sequences"]) kvs).
Proof.
  intros Hb Hk H. unfold AddressContext_of in H. inv_res H. injection H as <-.
  pose proof (int64_kwargs_holds _ _ "sequences" Hb Hk) as Hs.
  kwargs_hold Hb Hk. unfold dict_columns, context_names. simpl.
  rewrite Hget, Hget0, Hget1, Hget2, Hget3, Hget4, Hget5, Hget6. simpl. unfold dc_tensors. simpl.
  destruct (od_get "sequences" ts), (od_get "sequences" kvs); simpl in *; try done; columns_hold.
Qed.

Lemma observation_context_holds kvs ts c : Forall (Forall is_byte) kvs.*2 ->
  int64_kwargs kvs = Ok ts -> ObservationContext_of ts = Ok c ->
  Forall2 col_holds (table_columns "observation_context" (Some c))
    (dict_columns "observation_context" ("block_positions" :: context_names) kvs).
Proof.
  intros Hb Hk H. unfold ObservationContext_of in H. inv_res H. injection H as <-.
  kwargs_hold Hb Hk. unfold dict_columns, context_names. simpl.
  rewrite Hget, Hget0, Hget1, Hget2, Hget3, Hget4, Hget5, Hget6, Hget7. simpl. columns_hold.
Qed.

(** Turns each [_tensor] equation into what the tensor holds. *)
Ltac tensors_hold :=
  repeat match goal with
  | H : _tensor ?bs _ = Ok ?t, Hb : Forall is_byte ?bs |- _ =>
      apply tensor_holds in H; [|exact Hb]
  | H : opt_tensor ?bs _ = Ok ?t, Hb : Forall (Forall is_byte) (opt_bytes ?bs) |- _ =>
      apply opt_tensor_holds in H; [|exact Hb]
  | H : reshape_rows ?t _ = Ok ?t', Hh : holds ?t ?bs |- _ =>
      apply (reshape_rows_holds _ _ _ _ Hh) in H
  | H : reshape ?t _ _ = Ok ?t', Hh : holds ?t ?bs |- _ =>
      apply (reshape_holds _ _ _ _ _ Hh) in H
  end.

(** Splits the byte facts of a list of buffers. *)
Ltac split_buffers :=
  repeat match goal with
  | H : Forall _ (_ :: _) |- _ => let Hx := fresh "Hx" in apply Forall_cons in H as [Hx H]
  | H : Forall _ (_ ++ _) |- _ => let Hx := fresh "Hx" in apply Forall_app in H as [Hx H]
  end.

Lemma mixed_registers_hold c names r : Forall (Forall is_byte) (register_buffers c) ->
  mixed_registers c names = Ok r ->
  Forall2 col_holds (table_columns "registers" (Some r)) (register_columns c (rcol_sequences c)).
Proof.
  intros Hb H. unfold register_buffers in Hb. simpl in Hb. split_buffers. unfold mixed_registers in H.
  inv_res H. injection H as <-.
  destruct (rcol_sequences c) as [bs|] eqn:Hs; [|discriminate Hv3]. simpl in Hb. split_buffers.
  tensors_hold. unfold register_columns, table_columns. simpl. columns_hold.
Qed.

Lemma frame_registers_hold n c names r : Forall (Forall is_byte) (register_buffers c) ->
  frame_registers n c names = Ok r ->
  Forall2 col_holds (table_columns "registers" (Some r)) (register_columns c None).
Proof.
  intros Hb H. unfold register_buffers in Hb. simpl in Hb. split_buffers. unfold frame_registers in H.
  inv_res H. injection H as <-. tensors_hold. unfold register_columns, table_columns. simpl.
  columns_hold.
Qed.

Lemma select_tensors_app fs1 fs2 :
  select_tensors (fs1 ++ fs2) = select_tensors fs1 ++ select_tensors fs2.
Proof. induction fs1 as [|[n [t|]] fs1 IH]; simpl; [done|by rewrite IH|done]. Qed.

Lemma memory_holds shape c seqs m :
  (forall t t' bs, holds t bs -> shape t = Ok t' -> holds t' bs) ->
  Forall (Forall is_byte) (memory_buffers c) -> Forall (Forall is_byte) (opt_bytes seqs) ->
  memory_table_of shape c seqs = Ok m ->
  Forall2 col_holds (table_columns "memory" (Some m)) (memory_columns c seqs).
Proof.
  intros Hshape Hb Hs H. unfold memory_buffers in Hb. simpl in Hb. split_buffers.
  unfold memory_table_of in H. inv_res H. injection H as <-. tensors_hold.
  assert (Hval : opt_holds v9 (mcol_values c)).
  { destruct v8 as [t|]; inv_res Hv9; injection Hv9 as <-; destruct (mcol_values c); try done.
    simpl in *. by eapply Hshape. }
  clear Hv8 Hv9. unfold memory_columns, table_columns, dc_tensors. simpl.
  destruct v9, (mcol_values c); try done; destruct v3, (mcol_physical_addresses c); try done;
  destruct v4, (mcol_mapped_sizes c); try done; destruct v5, (mcol_mapping_flags c); try done;
  destruct v6, (mcol_context_sequences c); try done; destruct v7, seqs; try done;
  simpl in *; columns_hold.
Qed.

Lemma mixed_batch_columns src seq c names b : payload_ok (PMixed c) ->
  mixed_batch src seq c names = Ok b ->
  Forall2 col_holds (batch_columns b) (expected_columns _MIXED (PMixed c) false).
Proof.
  intros Hb H. unfold payload_ok in Hb. simpl in Hb. split_buffers.
  unfold mixed_batch in H. inv_res H. injection H as <-.
  unfold batch_columns, expected_columns. cbn [addresses block_sequences registers memory context
    layout transitions observation_transitions observation_context].
  change (_MIXED =? _MIXED) with true. cbv iota.
  apply Forall2_app; [|apply Forall2_app; [|apply Forall2_app; [|apply Forall2_app]]].
  - apply Forall2_cons_2; [|constructor]. apply col_holds_intro.
    destruct (mix_blocks c); simpl in *; split_buffers.
    + by eapply tensor_holds.
    + injection Hv as <-. apply empty_holds.
  - destruct (mix_blocks c), (mix_block_sequences c); simpl in *; inv_res Hv0;
      injection Hv0 as <-; split_buffers; tensors_hold; columns_hold.
  - destruct (mix_registers c); simpl in *; inv_res Hv2; injection Hv2 as <-; [|constructor].
    by eapply mixed_registers_hold.
  - destruct (mix_memory c) as [m|]; simpl in *; inv_res Hv3; injection Hv3 as <-; [|constructor].
    eapply (memory_holds (fun t => reshape_rows t 16));
      [intros; by eapply reshape_rows_holds|done| |done].
    unfold memory_buffers in *. simpl in *. split_buffers. done.
  - rewrite app_nil_r.
    destruct (mix_context c); cbn [opt_table] in *; inv_res Hv1; injection Hv1 as <-; [|constructor].
    match goal with H : rbind (int64_kwargs _) _ = Ok _ |- _ => inv_res H end.
    by eapply context_holds.
Qed.

(** The tables of a batch with one table and no blocks. *)
Lemma one_table_columns cols e : Forall2 col_holds cols e ->
  Forall2 col_holds (Col None "addresses" empty_int64 :: cols ++ []) (((None, "addresses"), []) :: e).
Proof.
  intros H. rewrite app_nil_r. constructor; [|done]. apply col_holds_intro, empty_holds.
Qed.

Lemma build_batch_columns kind src count seq p names reduced b : payload_ok p ->
  build_batch kind src count seq p names reduced = Ok b ->
  Forall2 col_holds (batch_columns b) (expected_columns kind p reduced).
Proof.
  intros Hp H. unfold build_batch in H.
  repeat match type of H with
  | (if kind =? ?k then _ else _) = _ =>
      destruct (kind =? k) eqn:?; [bool_prop; subst kind|]
  end; try (destruct p as [bs|up|rc|mc|kvs|mx]; try discriminate H;
    unfold payload_ok in Hp; simpl payload_buffers in Hp; cbn [as_bytes as_columns rbind] in H).
  - inv_res H. destruct reduced; inv_res H; injection H as <-; apply one_table_columns.
    + by eapply transitions_hold.
    + unfold BlockTransitions_of in *. inv_res Hv0. injection Hv0 as <-.
      by eapply transitions_hold.
  - inv_res H. injection H as <-. by apply (one_table_columns []).
  - inv_res H. injection H as <-. by apply (one_table_columns []).
  - inv_res H. injection H as <-. by apply (one_table_columns []).
  - inv_res H. injection H as <-. rewrite <- (app_nil_r (batch_columns _)).
    apply one_table_columns. by eapply observation_context_holds.
  - by apply mixed_batch_columns in H.
  - inv_res H. injection H as <-. split_buffers. tensors_hold. apply one_table_columns.
    unfold table_columns, dc_tensors. simpl. columns_hold.
  - inv_res H. injection H as <-. split_buffers. tensors_hold. columns_hold.
  - inv_res H. injection H as <-. apply one_table_columns. by eapply context_holds.
  - inv_res H. injection H as <-. apply one_table_columns. by eapply frame_registers_hold.
  - inv_res H. injection H as <-.
    unfold expected_columns. rewrite Heqb5, Heqb7. apply one_table_columns.
    eapply (memory_holds (fun t => reshape t count 16));
      [intros; by eapply reshape_holds|done|constructor|done].
Qed.

Lemma col_holds_uploadable cols e :
  Forall2 col_holds cols e -> Forall (fun c => col_ok c /\ t_device (col_tensor c) = cpu) cols.
Proof. induction 1 as [|c x cols e (? & ? & ? & ?) _ IH]; by constructor. Qed.

(** A batch with its columns on a device. *)
Definition moved (d : device) (b : Batch) : Batch :=
  if decide (d = cpu) then b else batch_map (on_device d) b.

Lemma to_device_moved b d : uploadable b -> to_device b d = Ok (moved d b).
Proof.
  intros Hb. unfold moved. case_decide; [by subst|]. by apply to_device_accelerator.
Qed.

Lemma _batch_build dev kind src count seq p names reduced b' : payload_ok p ->
  _batch dev kind src count seq p names reduced = Ok b' <->
  exists b, build_batch kind src count seq p names reduced = Ok b /\ b' = moved dev b.
Proof.
  intros Hp. unfold _batch. rewrite rbind_Ok. split.
  - intros (b & Hb & Hd). exists b. split; [done|].
    pose proof (col_holds_uploadable _ _ (build_batch_columns _ _ _ _ _ _ _ _ Hp Hb)) as Hu.
    rewrite (to_device_moved b dev Hu) in Hd. by injection Hd.
  - intros (b & Hb & ->). exists b. split; [done|]. apply to_device_moved.
    by eapply col_holds_uploadable, build_batch_columns.
Qed.

(** No decoded column loses or reorders a byte. When [_batch] returns, its result is
    on the column device, and the batch it was moved from has exactly the columns the
    frame's kind calls for, in field order, each a well-formed tensor whose memory is the
    decoded buffer of that name. *)
Theorem batch_columns_exact (dev : device) (kind src : Z) (count : nat) (sequence : Z)
  (p : payload) (names : option (gmap Z string)) (reduced : bool) (b' : Batch)
  (Hp : payload_ok p)
  (Hb : _batch dev kind src count sequence p names reduced = Ok b') :
  exists b, b' = moved dev b /\
    Forall2 col_holds (batch_columns b) (expected_columns kind p reduced).
Proof.
  apply _batch_build in Hb as (b & Hb & ->); [|done]. exists b. split; [done|].
  by eapply build_batch_columns.
Qed.

Lemma unpack_packed fmt vs bs : pack fmt vs = Ok bs -> unpack fmt bs = Ok vs.
Proof.
  intros (Hf & Hb & Hl)%pack_Ok. unfold unpack. rewrite Hl, Nat.eqb_refl. simpl.
  rewrite Hb, <- (app_nil_r (pack_fields fmt vs)). by rewrite unpack_pack_fields.
Qed.

(** A batch that carries only one of the three summaries. *)
Definition summary_batch (src : option Z) (w : option TransitionWindow)
    (s : option ObservationSummary) (f : option ContextFilterSummary) : Batch :=
  MkBatch src None empty_int64 None None None None 0 None None w None None s f.

Lemma summary_batch_moved dev src w s f :
  to_device (summary_batch src w s f) dev = Ok (moved dev (summary_batch src w s f)).
Proof.
  apply to_device_moved. constructor; [|constructor]. split; [|done]. apply empty_holds.
Qed.

(** The summary frames are decoded field by field. A payload that packs the fields of
    a transition window, an observation summary or a context filter summary becomes a batch
    whose only content is exactly these fields; a nonzero reserved field is an
    [AssertionError], and an unknown window status a [KeyError]. *)
Theorem summary_frames_exact (dev : device) (src seq : Z) (count : nat)
  (names : option (gmap Z string)) (reduced : bool) :
  (forall status reserved srcs cap distinct observed overflow bs,
    pack _WINDOW [status; srcs; cap; reserved; distinct; observed; overflow] = Ok bs ->
    _batch dev _TRANSITION_WINDOW src count seq (PBytes bs) names reduced =
      if reserved =? 0 then
        match od_get status _WINDOW_STATUS with
        | Some s => Ok (moved dev (summary_batch None (Some
            (MkTransitionWindow seq s srcs cap distinct observed overflow)) None None))
        | None => throw KeyError "status"
        end
      else throw AssertionError "reserved") /\
  (forall srcs tcap ccap reserved blks trans distinct tover changes retained cover bs,
    pack _OBSERVATION [srcs; tcap; ccap; reserved; blks; trans; distinct; tover; changes;
                       retained; cover] = Ok bs ->
    _batch dev _OBSERVATION_SUMMARY src count seq (PBytes bs) names reduced =
      if reserved =? 0 then
        Ok (moved dev (summary_batch (Some src) None (Some
          (MkObservationSummary srcs tcap ccap blks trans distinct tover changes retained cover
              true)) None))
      else throw AssertionError "reserved") /\
  (forall policy latch gate reserved pc cr3 root kept dropped matching foreign unknown bs,
    pack _FILTER [policy; latch; gate; reserved; pc; cr3; root; kept; dropped; matching;
                  foreign; unknown] = Ok bs ->
    _batch dev _CONTEXT_FILTER src count seq (PBytes bs) names reduced =
      if reserved =? 0 then
        Ok (moved dev (summary_batch None None None (Some
          (MkContextFilterSummary (if policy =? 1 then "drop" else "keep") (latch =? 2) gate pc
              cr3 root kept dropped matching foreign unknown))))
      else throw AssertionError "reserved").
Proof.
  split_and!; intros * Hpk%unpack_packed; unfold _batch, build_batch;
    unfold transition_window_of, observation_summary_of, context_filter_of;
    cbn -[unpack to_device _WINDOW _OBSERVATION _FILTER _WINDOW_STATUS moved od_get];
    rewrite Hpk; cbn -[to_device moved _WINDOW_STATUS od_get].
  - destruct (reserved =? 0); [|done]. cbn -[to_device moved _WINDOW_STATUS od_get].
    unfold window_status. destruct (od_get status _WINDOW_STATUS); [|done].
    apply summary_batch_moved.
  - destruct (reserved =? 0); [|done]. apply summary_batch_moved.
  - destruct (reserved =? 0); [|done]. apply summary_batch_moved.
Qed.

(** A memory frame of one row with an optional physical address column. *)
Definition example_memory : payload :=
  PMemory (MkMemoryColumns (le_bytes 8 4096) (le_bytes 8 (2 ^ 63 + 5)) (le_bytes 8 4)
    (le_bytes 8 1) (Some (replicate 16 171)) (Some (le_bytes 8 77)) None None None None).

Lemma batch_columns_exact_witness : exists b b',
  _batch mps _MEMORY 3 1 9 example_memory None false = Ok b' /\ b' = moved mps b /\
  Forall2 col_holds (batch_columns b) (expected_columns _MEMORY example_memory false) /\
  expected_columns _MEMORY example_memory false !! 2%nat =
    Some ((Some "memory", "addresses"), [5; 0; 0; 0; 0; 0; 0; 128]).
Proof.
  destruct (_batch mps _MEMORY 3 1 9 example_memory None false) as [b'|] eqn:Hb;
    [|exfalso; vm_compute in Hb; discriminate Hb].
  assert (Hp : payload_ok example_memory) by (apply (bool_decide_unpack _); vm_compute; exact I).
  destruct (batch_columns_exact mps _MEMORY 3 1 9 example_memory None false b' Hp Hb)
    as (b & Hm & Hc).
  exists b, b'. split_and!; [reflexivity|exact Hm|exact Hc|vm_compute; reflexivity].
Defined.

Lemma summary_frames_exact_witness :
  _batch cpu _TRANSITION_WINDOW 0 1 6
    (PBytes (pack_fields _WINDOW [2; 4; 8; 0; 3; 9; 1])) None false =
  Ok (moved cpu (summary_batch None
        (Some (MkTransitionWindow 6 "aborted" 4 8 3 9 1)) None None)).
Proof.
  exact (proj1 (summary_frames_exact cpu 0 6 1 None false) 2 0 4 8 3 9 1
           (pack_fields _WINDOW [2; 4; 8; 0; 3; 9; 1]) eq_refl).
Defined.
