(* ===== verification/Pool.v ===== *)
(** * Reading one worker ([pool.py]: [Pool])

    The socket is an interface ([SocketOps], with its documented behaviour in
    [SocketLaws]); so is the native frame decoder ([NativeDecoder]). The reader
    is the code's own loop over them: receive exactly one frame, optionally read
    ahead whole context frames, decode, update the local state, yield batches,
    classify every way a run can end, and always close.

    The generator [_read] runs against a consumer: [c_abandon n] says whether
    the caller drops the iterator at its [n]-th batch, which raises
    [GeneratorExit] at that [yield]. *)

From S2P Require Import Prelude Monad Batch Device Batching Wire Terminal PoolBatch.

Definition _HEADER_BYTES : nat := 32.
Definition _CONTEXT_GROUP_FRAMES : nat := 32.
Definition _WINDOW_FEATURE : Z := Z.shiftl 1 14.
Definition _MEMORY_FEATURE : Z := Z.shiftl 1 8.
Definition _REGISTERS_FEATURE : Z := Z.shiftl 1 9.
Definition _CONTEXT_FEATURE : Z := Z.shiftl 1 16.
Definition _MIXED_FEATURE : Z := Z.shiftl 1 18.
Definition _STOP_FEATURE : Z := Z.shiftl 1 19.
Definition _OBSERVATION_REDUCTION_FEATURE : Z := Z.shiftl 1 22.
Definition _TERMINAL_REPORT_VERSION : Z := 1.
Definition _TERMINAL_HELLO : Z := Z.shiftl 1 0.
Definition _TERMINAL_DATA : Z := Z.shiftl 1 1.
Definition _TERMINAL_START_CONFIGURED : Z := Z.shiftl 1 2.
Definition _TERMINAL_START_OBSERVED : Z := Z.shiftl 1 3.
Definition _TERMINAL_STOP_CONFIGURED : Z := Z.shiftl 1 4.
Definition _TERMINAL_STOP_OBSERVED : Z := Z.shiftl 1 5.

Definition _FAILURES : list (Z * (string * TerminalReason)) :=
  [(1, ("capture failed", CAPTURE_FAILURE)); (2, ("target was killed", TARGET_KILLED));
   (3, ("target behavior is not supported", UNSUPPORTED_TARGET));
   (4, ("worker transport failed", WORKER_TRANSPORT_FAILURE))].

(** ** The operating system's sockets and the native decoder *)

(** [recv n] is [recv(n)] or [recv_into] of an [n]-byte view; [peek n] is
    [recv(n, MSG_PEEK)]; [readable] is the zero-timeout [select]. *)
Class SocketOps (S : Type) := {
  recv : nat -> sx S exn (list Z);
  peek : nat -> sx S exn (list Z);
  readable : sx S exn bool;
}.

(** [contents s]: the bytes the connection still delivers before its end or a failure. *)
Class SocketLaws (S : Type) `{SocketOps S} := {
  contents : S -> list Z;
  recv_Ok : forall n s s' bs, (0 < n)%nat -> recv n s = (s', Ok bs) ->
    contents s = bs ++ contents s' /\ (length bs <= n)%nat /\ (bs = [] -> contents s = []);
  recv_Raise : forall n s s' e, recv n s = (s', Raise e) ->
    isinstance_exc (exn_class e) OSError = true /\ contents s' = contents s;
  peek_Ok : forall n s s' bs, peek n s = (s', Ok bs) ->
    contents s' = contents s /\ bs `prefix_of` contents s /\ (length bs <= n)%nat;
  peek_Raise : forall n s s' e, peek n s = (s', Raise e) ->
    isinstance_exc (exn_class e) OSError = true /\ contents s' = contents s;
  readable_same : forall s s' r, readable s = (s', r) -> contents s' = contents s;
}.

(** A connection on which no receive fails. *)
Class ReliableSocket (S : Type) `{SocketLaws S} := {
  recv_total : forall n s, is_ok (recv n s).2 = true;
}.

Class NativeDecoder (D : Type) := {
  new_stream : D;
  decode : list Z -> sx D exn decoded;
  decode_context_frames : list (list Z) -> sx D exn (list decoded * option string);
}.

(** ** Configuration and state *)

Record Config := MkConfig {
  c_endpoint : string;
  c_device : device;
  c_column_device : device;
  c_batch_bytes : Z;
  c_observer : option (list WireFrame -> WireFrame -> option exn);
  c_abandon : nat -> bool;
}.

(** The attributes of a single-endpoint [Pool] that change, with every socket it created
    (numbered in order) and those closed. *)
Record PoolObj := MkPool {
  p_outcome : option TerminalOutcome;
  p_closed : bool;
  p_started : bool;
  p_socket : option nat;
  p_created : nat;
  p_shut : list nat;
}.

Definition new_pool : PoolObj := MkPool None false false None 0 [].

(** The local variables of [_read] that its loop changes. *)
Record Locals := MkLocals {
  l_hello : bool;
  l_data : bool;
  l_start : option bool;
  l_stop : option bool;
  l_reduced : bool;
  l_grouping : bool;
  l_summaries : list Batch;
  l_names : gmap Z (gmap Z string);
  l_collator : option BatchCollator;
  l_pending : option (list Z);
}.

(** Everything of a run but the socket: the decoder's stream, the frames shown to the
    observer, the batches yielded, [self._outcome] and the locals. *)
Record Rest (D : Type) := MkRest {
  r_stream : D;
  r_log : list WireFrame;
  r_out : list Batch;
  r_outcome : option TerminalOutcome;
  r_loc : Locals;
}.
Arguments MkRest {D} _ _ _ _ _.
Arguments r_stream {D} _.
Arguments r_log {D} _.
Arguments r_out {D} _.
Arguments r_outcome {D} _.
Arguments r_loc {D} _.

Definition Run (S D : Type) : Type := S * Rest D.

Section setters.
Context {D : Type}.
Implicit Type r : Rest D.
Definition set_stream (d : D) r := MkRest d (r_log r) (r_out r) (r_outcome r) (r_loc r).
Definition add_log (w : WireFrame) r :=
  MkRest (r_stream r) (r_log r ++ [w]) (r_out r) (r_outcome r) (r_loc r).
Definition add_out (b : Batch) r :=
  MkRest (r_stream r) (r_log r) (r_out r ++ [b]) (r_outcome r) (r_loc r).
Definition set_outcome (o : TerminalOutcome) r :=
  MkRest (r_stream r) (r_log r) (r_out r) (Some o) (r_loc r).
Definition set_loc (l : Locals) r :=
  MkRest (r_stream r) (r_log r) (r_out r) (r_outcome r) l.
End setters.

Definition set_collator (c : BatchCollator) (l : Locals) : Locals :=
  MkLocals (l_hello l) (l_data l) (l_start l) (l_stop l) (l_reduced l) (l_grouping l)
    (l_summaries l) (l_names l) (Some c) (l_pending l).
Definition set_pending (f : option (list Z)) (l : Locals) : Locals :=
  MkLocals (l_hello l) (l_data l) (l_start l) (l_stop l) (l_reduced l) (l_grouping l)
    (l_summaries l) (l_names l) (l_collator l) f.
Definition set_names (n : gmap Z (gmap Z string)) (l : Locals) : Locals :=
  MkLocals (l_hello l) (l_data l) (l_start l) (l_stop l) (l_reduced l) (l_grouping l)
    (l_summaries l) n (l_collator l) (l_pending l).
Definition add_summary (b : Batch) (l : Locals) : Locals :=
  MkLocals (l_hello l) (l_data l) (l_start l) (l_stop l) (l_reduced l) (l_grouping l)
    (l_summaries l ++ [b]) (l_names l) (l_collator l) (l_pending l).

(** Local operations lifted to a run. *)
Definition on_sock {S D A} (m : sx S trace_error A) : sx (Run S D) trace_error A :=
  szoom fst (fun s r => (s, r.2)) m.
Definition on_rest {S D A} (m : sx (Rest D) trace_error A) : sx (Run S D) trace_error A :=
  szoom snd (fun t r => (r.1, t)) m.
Definition py {S A} (m : sx S exn A) : sx S trace_error A := serr PyError m.
Definition pure_py {S A} (m : result A) : sx S trace_error A := py (slift m).
Definition raise_py {S A} (c : exc_class) (msg : string) : sx S trace_error A :=
  sraise (PyError (Exn c msg)).

(** ** Receiving ([_receive], [_receive_frame], [_observe_wire_frame],
    [_complete_frame_is_ready]) *)

Section receive.
Context {S D : Type} `{SocketOps S} (cfg : Config).

(** The [while received < size] loop; every iteration receives at least one byte. *)
Fixpoint receive_loop (fuel size : nat) (classify_end frame_started : bool)
    (data : list Z) : sx S trace_error (list Z) :=
  if (size <=? length data)%nat then sret data else
  match fuel with
  | O => raise_py RuntimeError "receive loop exceeded its size"
  | Datatypes.S fuel =>
      do! chunk := py (recv (size - length data)) in
      if (length chunk =? 0)%nat then
        if classify_end then sraise (CleanEnd (frame_started || negb (length data =? 0)%nat))
        else raise_py RuntimeError "Incomplete trace: worker disconnected before completion"
      else receive_loop fuel size classify_end frame_started (data ++ chunk)
  end.

Definition _receive (size : nat) (classify_end frame_started : bool) :
    sx S trace_error (list Z) :=
  receive_loop size size classify_end frame_started [].

Definition wire_frame (data : list Z) (fields : list Z) : result WireFrame :=
  match fields with
  | [_; version; kind; src; count; sequence; detail] =>
      Ok (MkWireFrame 0 (c_endpoint cfg) version kind src count sequence detail data)
  | _ => throw ValueError "not enough values to unpack"
  end.

Definition _observe_wire_frame (observer : list WireFrame -> WireFrame -> option exn)
    (data : list Z) : sx (Rest D) trace_error unit :=
  do! frame := pure_py (let! fields := unpack_from header_format data 0 in
                        wire_frame data fields) in
  do! earlier := sgets r_log in
  run! smodify (add_log frame) in
  match observer earlier frame with
  | None => sret tt
  | Some e => sraise (PyError e)
  end.

Definition _receive_frame : sx (Run S D) trace_error (list Z) :=
  do! header := on_sock (_receive _HEADER_BYTES true false) in
  do! payload_bytes := pure_py (native_payload_size header) in
  do! payload := on_sock (_receive payload_bytes true true) in
  let frame := header ++ payload in
  run! match c_observer cfg with
      | Some observer => on_rest (_observe_wire_frame observer frame)
      | None => sret tt
      end in
  sret frame.

Definition _complete_frame_is_ready : sx S trace_error bool :=
  do! ready := py readable in
  if negb ready then sret false else
  do! header := py (peek _HEADER_BYTES) in
  if (length header <? _HEADER_BYTES)%nat then sret false else
  do! payload := pure_py (native_payload_size header) in
  let frame_bytes := (_HEADER_BYTES + payload)%nat in
  do! seen := py (peek frame_bytes) in
  sret (length seen =? frame_bytes)%nat.

(** [struct.unpack_from("<H", frame, 6)[0]] *)
Definition frame_kind (frame : list Z) : result Z :=
  let! fields := unpack_from [2%nat] frame 6 in
  match fields with [k] => Ok k | _ => throw StructError "one field" end.

(** The exceptions the read-ahead loop keeps for after its group. *)
Definition deferrable (e : trace_error) : bool :=
  match e with
  | CleanEnd _ => true
  | _ => is_instance e OSError || is_instance e RuntimeError || is_instance e ValueError
  end.

(** What read-ahead ends with: a frame of another kind, or a deferred error. *)
Record Ahead := MkAhead { ah_frames : list (list Z); ah_error : option trace_error }.

Fixpoint read_ahead (fuel : nat) (frames : list (list Z)) : sx (Run S D) trace_error Ahead :=
  match fuel with
  | O => sret (MkAhead frames None)
  | Datatypes.S fuel =>
      do! next := scatch
        (do! ready := on_sock _complete_frame_is_ready in
         if ready then do! f := _receive_frame in sret (inr (Some f)) else sret (inr None))
        (fun e => if deferrable e then sret (inl e) else sraise e) in
      match next with
      | inl e => sret (MkAhead frames (Some e))
      | inr None => sret (MkAhead frames None)
      | inr (Some following) =>
          do! k := pure_py (frame_kind following) in
          if negb (k =? _MIXED) then
            run! on_rest (smodify (fun r => set_loc (set_pending (Some following) (r_loc r)) r)) in
            sret (MkAhead frames None)
          else read_ahead fuel (frames ++ [following])
      end
  end.
End receive.

(** ** Outcomes *)

Section outcomes.
Context (cfg : Config).

Definition _make_outcome (reason : TerminalReason) (hello_received data_received : bool)
    (hello_reported data_reported : option bool) (start stop : BoundaryProgress)
    (transport : TransportEnd) (complete : bool) : TerminalOutcome :=
  MkOutcome reason (c_endpoint cfg) 0 hello_received data_received hello_reported data_reported
    start stop transport complete.

Definition _completed_boundary (configured : option bool) : BoundaryProgress :=
  match configured with
  | None => UNKNOWN
  | Some true => OBSERVED
  | Some false => NOT_CONFIGURED
  end.

Definition _reported_boundary (flags configured observed : Z) : BoundaryProgress :=
  if negb (has flags configured) then NOT_CONFIGURED
  else if has flags observed then OBSERVED else NOT_OBSERVED_BOUNDARY.

(** The transport of an [OSError]. *)
Definition os_transport (e : trace_error) : TransportEnd :=
  if is_instance e ConnectionResetError then RESET else ERROR.

Definition deadline_message : string := "Incomplete trace: target exceeded its max-run deadline".

Definition deadline_outcome (flags : Z) (hello data : bool) : TerminalOutcome :=
  _make_outcome MAX_RUN_DEADLINE hello data (Some (has flags _TERMINAL_HELLO))
    (Some (has flags _TERMINAL_DATA))
    (_reported_boundary flags _TERMINAL_START_CONFIGURED _TERMINAL_START_OBSERVED)
    (_reported_boundary flags _TERMINAL_STOP_CONFIGURED _TERMINAL_STOP_OBSERVED)
    NOT_OBSERVED false.

(** [_raise_reported_terminal], which never returns. *)
Definition _raise_reported_terminal {S D : Type} `{SocketOps S} (detail : Z)
    (hello data : bool) (start_configured stop_configured : option bool) :
    sx (Run S D) trace_error bool :=
  let version := Z.land detail 255 in
  let reason_code := Z.land (Z.shiftr detail 8) 255 in
  let flags := Z.land (Z.shiftr detail 16) 255 in
  if negb (version =? _TERMINAL_REPORT_VERSION) || negb (reason_code =? 1) then
    raise_py ValueError "Unknown terminal report version or reason"
  else if negb (eqb hello (has flags _TERMINAL_HELLO)) ||
          negb (eqb data (has flags _TERMINAL_DATA)) then
    raise_py ValueError "Terminal report contradicts received trace progress"
  else if hello &&
       (negb (bool_decide (start_configured = Some (has flags _TERMINAL_START_CONFIGURED))) ||
        negb (bool_decide (stop_configured = Some (has flags _TERMINAL_STOP_CONFIGURED)))) then
    raise_py ValueError "Terminal report contradicts Hello boundary configuration"
  else
  let outcome := deadline_outcome flags hello data in
  let finish c t : sx (Run S D) trace_error bool :=
    run! on_rest (smodify (set_outcome (set_transport t outcome))) in
    sraise (Terminal c deadline_message (set_transport t outcome)) in
  do! trailing := scatch
    (do! bs := on_sock (py (recv 1)) in sret (inr bs))
    (fun e => if is_instance e TimeoutError then sret (inl (TimeoutTerminal, TIMEOUT))
              else if is_instance e OSError then sret (inl (ConnectionTerminal, os_transport e))
              else sraise e) in
  match trailing with
  | inl (c, t) => finish c t
  | inr (_ :: _) => raise_py ValueError "Trace contains data after its terminal report"
  | inr [] => finish PlainTerminal CLEAN
  end.
End outcomes.

(** ** One decoded frame (the body of the [for] loop of [_read]) *)

(** How the body of the frame loop ends: go on, [return], or hand over to
    [_raise_reported_terminal], which reads the socket. *)
Inductive ctl := Continue | Return | Report (detail : Z).

Section handle.
Context {D : Type} (cfg : Config).
Notation M := (sx (Rest D) trace_error).

Definition gets_loc {A} (f : Locals -> A) : M A := sgets (fun r => f (r_loc r)).
Definition modify_loc (f : Locals -> Locals) : M unit := smodify (fun r => set_loc (f (r_loc r)) r).

Definition yield_ (b : Batch) : M unit :=
  run! smodify (add_out b) in
  do! n := sgets (fun r => length (r_out r)) in
  if c_abandon cfg n then sraise GeneratorExit else sret tt.

(** [yield to_device(b, self._device)] *)
Definition yield_on_device (b : Batch) : M unit :=
  do! b' := pure_py (to_device b (c_device cfg)) in yield_ b'.

(** [if self._column_device != self._device: b = to_device(b, self._device)], then yield. *)
Definition yield_if_moved (b : Batch) : M unit :=
  do! b' := (if bool_decide (c_column_device cfg = c_device cfg) then sret b
             else pure_py (to_device b (c_device cfg))) in
  yield_ b'.

(** A collator method, whose state change survives its exception. *)
Definition collate (op : BatchCollator -> BatchCollator * result (list Batch))
    (c : BatchCollator) : M (list Batch) :=
  let '(c', r) := op c in
  run! modify_loc (set_collator c') in
  pure_py r.

Definition context_grouping_of (detail : Z) : bool :=
  has detail _CONTEXT_FEATURE && has detail _MIXED_FEATURE &&
  negb (has detail (Z.lor _MEMORY_FEATURE _REGISTERS_FEATURE)).

(** The assignments under [if kind == 1] and [elif kind in _DATA_KINDS]. *)
Definition note_frame (kind detail : Z) (l : Locals) : Locals :=
  if kind =? 1 then
    MkLocals true (l_data l) (Some (has detail _WINDOW_FEATURE)) (Some (has detail _STOP_FEATURE))
      (has detail _OBSERVATION_REDUCTION_FEATURE) (context_grouping_of detail)
      (l_summaries l) (l_names l) (l_collator l) (l_pending l)
  else if bool_decide (kind ∈ _DATA_KINDS) then
    MkLocals (l_hello l) true (l_start l) (l_stop l) (l_reduced l) (l_grouping l)
      (l_summaries l) (l_names l) (l_collator l) (l_pending l)
  else l.

Definition update_names (src : Z) (update : gmap Z string) (l : Locals) : Locals :=
  set_names (<[src := update ∪ default ∅ (l_names l !! src)]> (l_names l)) l.

(** A data frame: build its batch, then hold it, yield it or collate it. *)
Definition handle_data (d : decoded) : M unit :=
  let kind := d_kind d in
  do! names := gets_loc (fun l => l_names l !! d_source d) in
  do! reduced := gets_loc l_reduced in
  do! b := pure_py (_batch (c_column_device cfg) kind (d_source d) (Z.to_nat (d_count d))
                      (d_sequence d) (d_payload d) names reduced) in
  if kind =? _OBSERVATION_SUMMARY then modify_loc (add_summary b) else
  if reduced && ((kind =? _BLOCK_TRANSITIONS) || (kind =? _REDUCED_CONTEXT)) then
    yield_if_moved b
  else
  do! collator := gets_loc l_collator in
  match collator with
  | None => yield_ b
  | Some c => do! ready := collate (fun c => add c b) c in seach yield_on_device ready
  end.

Definition handle_complete (detail : Z) : M unit :=
  do! collator := gets_loc l_collator in
  run! match collator with
       | None => sret tt
       | Some c => do! ready := collate finish c in seach yield_on_device ready
       end in
  do! l := gets_loc id in
  let outcome := _make_outcome cfg (if detail =? 0 then COMPLETE else TARGET_EXIT)
    (l_hello l) (l_data l) None None (_completed_boundary (l_start l))
    (_completed_boundary (l_stop l)) NOT_OBSERVED true in
  run! smodify (set_outcome outcome) in
  if negb (detail =? 0) then
    sraise (Terminal PlainTerminal ("Target exited with code " +:+ pretty detail) outcome)
  else seach yield_if_moved (l_summaries l).

Definition handle_error (detail : Z) : M unit :=
  do! l := gets_loc id in
  do! failure := pure_py (match od_get detail _FAILURES with
                          | Some f => Ok f
                          | None => throw KeyError "detail"
                          end) in
  let outcome := _make_outcome cfg failure.2 (l_hello l) (l_data l) None None UNKNOWN UNKNOWN
    NOT_OBSERVED false in
  run! smodify (set_outcome outcome) in
  sraise (Terminal PlainTerminal ("Incomplete trace: " +:+ failure.1) outcome).

Definition handle (d : decoded) : M ctl :=
  let kind := d_kind d in let detail := d_detail d in
  run! modify_loc (note_frame kind detail) in
  if (kind =? 1) && has detail 2048 then
    raise_py ValueError "Use StdioEnv for an interactive worker" else
  if (kind =? 1) && has detail (Z.shiftl 1 13) then
    raise_py ValueError "Use KernelEnv for an interactive system worker" else
  if kind =? _REGISTER_SCHEMA then
    do! update := pure_py (match d_payload d with PSchema u => Ok u | _ => bad_payload end) in
    run! modify_loc (update_names (d_source d) update) in sret Continue
  else if bool_decide (kind ∈ _DATA_KINDS) then
    run! handle_data d in sret Continue
  else
  do! collator := gets_loc l_collator in
  do! ended := match collator with
               | Some c =>
                   if kind =? 3 then
                     do! ready := collate (fun c => end_source c (d_source d) 0) c in
                     run! seach yield_on_device ready in sret true
                   else sret false
               | None => sret false
               end in
  if ended then sret Continue
  else if kind =? _COMPLETE then run! handle_complete detail in sret Return
  else if kind =? _ERROR then run! handle_error detail in sret Return
  else if kind =? _TERMINAL_REPORT then sret (Report detail)
  else sret Continue.
End handle.

(** ** The frame loop *)

Section loop.
Context {S D : Type} `{SocketOps S} `{NativeDecoder D} (cfg : Config).
Notation M := (sx (Run S D) trace_error).

Definition on_stream {A} (m : sx D exn A) : M A :=
  on_rest (py (szoom r_stream set_stream m)).

(** [for ... in decoded]: [true] when the generator returned. *)
Fixpoint handle_all (ds : list decoded) : M bool :=
  match ds with
  | [] => sret false
  | d :: ds =>
      do! c := on_rest (handle cfg d) in
      match c with
      | Continue => handle_all ds
      | Return => sret true
      | Report detail =>
          do! l := on_rest (gets_loc id) in
          _raise_reported_terminal cfg detail (l_hello l) (l_data l) (l_start l) (l_stop l)
      end
  end.

(** The frame to decode: the one read ahead, or the next of the connection. *)
Definition next_frame : M (list Z) :=
  do! pending := on_rest (gets_loc l_pending) in
  do! frame := match pending with Some f => sret f | None => _receive_frame cfg end in
  run! on_rest (modify_loc (set_pending None)) in
  sret frame.

Definition frame_step : M bool :=
  do! frame := next_frame in
  do! kind := pure_py (frame_kind frame) in
  do! grouping := on_rest (gets_loc l_grouping) in
  if grouping && (kind =? _MIXED) then
    do! ahead := read_ahead cfg (_CONTEXT_GROUP_FRAMES - 1) [frame] in
    do! (ds, validation_error) := on_stream (decode_context_frames (ah_frames ahead)) in
    do! returned := handle_all ds in
    if returned then sret true else
    match validation_error, ah_error ahead with
    | Some msg, _ => raise_py ValueError msg
    | None, Some e => sraise e
    | None, None => sret false
    end
  else
    do! d := on_stream (decode frame) in
    handle_all [d].

(** [while True]: [None] when the fuel ran out. *)
Fixpoint read_loop (fuel : nat) : M (option unit) :=
  match fuel with
  | O => sret None
  | Datatypes.S fuel =>
      do! returned := frame_step in
      if returned then sret (Some tt) else read_loop fuel
  end.
End loop.

(** ** Connecting, closing and the whole generator *)

Section pool.
Context {S D : Type} `{SocketOps S} `{NativeDecoder D} (cfg : Config).

(** [close]: the socket leaves the object under the lock and is then shut. *)
Definition close (p : PoolObj) : PoolObj :=
  MkPool (p_outcome p) true (p_started p) None (p_created p)
    (p_shut p ++ option_list (p_socket p)).

(** One address of [getaddrinfo]: what creating, configuring and connecting its socket
    does, and whether another thread runs [close] before each of the three locks. *)
Record attempt := MkAttempt {
  at_socket : option exn;
  at_settimeout : option exn;
  at_connect : res exn S;
  at_close_before_publish : bool;
  at_close_before_connected : bool;
  at_close_before_cleanup : bool;
}.

Definition publish (i : nat) (p : PoolObj) : PoolObj :=
  MkPool (p_outcome p) (p_closed p) (p_started p) (Some i) (p_created p) (p_shut p).
Definition unpublish (i : option nat) (p : PoolObj) : PoolObj :=
  MkPool (p_outcome p) (p_closed p) (p_started p)
    (if bool_decide (p_socket p = i) then None else p_socket p) (p_created p) (p_shut p).
Definition create_socket (p : PoolObj) : PoolObj :=
  MkPool (p_outcome p) (p_closed p) (p_started p) (p_socket p) (p_created p + 1) (p_shut p).
Definition shut (i : option nat) (p : PoolObj) : PoolObj :=
  MkPool (p_outcome p) (p_closed p) (p_started p) (p_socket p) (p_created p)
    (p_shut p ++ option_list i).
Definition maybe_close (b : bool) (p : PoolObj) : PoolObj := if b then close p else p.

Definition raise_opt {T} (o : option exn) : sx T exn unit :=
  match o with None => sret tt | Some e => sraise e end.

Definition closed_while_connecting : exn := Exn RuntimeError "Pool was closed while connecting".

(** The [try] block of one address once the socket exists. *)
Definition try_connect (a : attempt) (i : nat) : sx PoolObj exn S :=
  run! raise_opt (at_settimeout a) in
  run! smodify (maybe_close (at_close_before_publish a)) in
  do! closed := sgets p_closed in
  if closed then sraise closed_while_connecting else
  run! smodify (publish i) in
  do! s := slift (at_connect a) in
  run! smodify (maybe_close (at_close_before_connected a)) in
  do! closed := sgets p_closed in
  if closed then sraise closed_while_connecting else sret s.

(** The [except BaseException] block: it returns when the next address is to be tried. *)
Definition connect_cleanup (a : attempt) (i : option nat) (e : exn) : sx PoolObj exn unit :=
  run! smodify (maybe_close (at_close_before_cleanup a)) in
  run! smodify (unpublish i) in
  do! closed := sgets p_closed in
  run! smodify (shut i) in
  if closed then sraise closed_while_connecting else
  if isinstance_exc (exn_class e) OSError then sret tt else sraise e.

Definition connect_one (a : attempt) : sx PoolObj exn (option S) :=
  match at_socket a with
  | Some e => run! connect_cleanup a None e in sret None
  | None =>
      do! i := sgets p_created in
      run! smodify create_socket in
      scatch (do! s := try_connect a i in sret (Some s))
        (fun e => run! connect_cleanup a (Some i) e in sret None)
  end.

(** The error an attempt leaves in [last_error] when it is not the last one. *)
Definition attempt_error (a : attempt) : option exn :=
  match at_socket a, at_settimeout a, at_connect a with
  | Some e, _, _ => Some e
  | None, Some e, _ => Some e
  | None, None, Raise e => Some e
  | None, None, Ok _ => None
  end.

Fixpoint connect_addresses (addresses : list attempt) (last_error : option exn) :
    sx PoolObj exn S :=
  match addresses with
  | [] => match last_error with
          | Some e => sraise e
          | None => sraise (Exn OSError "Worker address resolved to no stream sockets")
          end
  | a :: addresses =>
      do! s := connect_one a in
      match s with
      | Some s => sret s
      | None => connect_addresses addresses (attempt_error a)
      end
  end.

Definition _connect (getaddrinfo : res exn (list attempt)) : sx PoolObj exn S :=
  do! addresses := slift getaddrinfo in connect_addresses addresses None.

(** The [except] clauses of [_read]: the outcome to record, and the exception raised. *)
Definition except_clauses (connected hello data : bool) (e : trace_error) :
    option TerminalOutcome * trace_error :=
  let outcome reason transport :=
    _make_outcome cfg reason hello data None None UNKNOWN UNKNOWN transport false in
  match e with
  | CleanEnd truncated =>
      let o := outcome (if truncated then TRUNCATED_STREAM else UNKNOWN_DISCONNECTION) CLEAN in
      (Some o, Terminal PlainTerminal
        (if truncated then "Incomplete trace: worker disconnected inside a frame"
         else "Incomplete trace: worker disconnected before completion") o)
  | _ =>
      if is_instance e TraceTerminalError then (None, e)
      else if is_instance e TimeoutError then
        let o := outcome CLIENT_TIMEOUT TIMEOUT in
        (Some o, Terminal TimeoutTerminal "Trace connection timed out before completion" o)
      else if is_instance e OSError then
        let o := outcome (if connected then UNKNOWN_DISCONNECTION else CONNECTION_FAILURE)
                   (os_transport e) in
        (Some o, Terminal ConnectionTerminal "Trace connection failed before completion" o)
      else (None, e)
  end.

Definition set_pool_outcome (o : option TerminalOutcome) (p : PoolObj) : PoolObj :=
  MkPool o (p_closed p) (p_started p) (p_socket p) (p_created p) (p_shut p).

(** [try ... except ... finally: self.close()] around the body. *)
Definition finish_read (p : PoolObj) (connected hello data : bool) (r : res trace_error (option unit)) :
    PoolObj * res trace_error (option unit) :=
  match r with
  | Ok x => (close p, Ok x)
  | Raise e =>
      let '(o, e') := except_clauses connected hello data e in
      (close (match o with Some o => set_pool_outcome (Some o) p | None => p end), Raise e')
  end.

Definition new_locals (collator : option BatchCollator) : Locals :=
  MkLocals false false None None false false [] ∅ collator None.

(** The collator [_read] creates for a positive [batch_bytes]. *)
Definition make_collator : result (option BatchCollator) :=
  if c_batch_bytes cfg =? 0 then Ok None
  else let! c := new_collator (c_batch_bytes cfg) in Ok (Some c).

(** What a run shows to the outside. *)
Record Trace := MkTrace {
  t_batches : list Batch;
  t_observed : list WireFrame;
  t_result : res trace_error (option unit);
}.

(** The body of [_read] after connecting. *)
Definition read_connected (fuel : nat) (s : S) (p : PoolObj) : PoolObj * Trace :=
  match make_collator with
  | Raise e =>
      let '(p', r) := finish_read p true false false (Raise (PyError e)) in
      (p', MkTrace [] [] r)
  | Ok collator =>
      let init := MkRest new_stream [] [] (p_outcome p) (new_locals collator) in
      let '((_, t), r) := read_loop cfg fuel (s, init) in
      let '(p', r') := finish_read (set_pool_outcome (r_outcome t) p) true
        (l_hello (r_loc t)) (l_data (r_loc t)) r in
      (p', MkTrace (r_out t) (r_log t) r')
  end.

Definition _read (fuel : nat) (getaddrinfo : res exn (list attempt)) (p : PoolObj) :
    PoolObj * Trace :=
  if p_closed p then
    let '(p', r) := finish_read p false false false
      (Raise (PyError (Exn RuntimeError "Pool was closed before reading started"))) in
    (p', MkTrace [] [] r)
  else
  match _connect getaddrinfo p with
  | (p1, Raise e) =>
      let '(p', r) := finish_read p1 false false false (Raise (PyError e)) in
      (p', MkTrace [] [] r)
  | (p1, Ok s) => read_connected fuel s p1
  end.

(** [read]: the generator is created at most once. *)
Definition read (p : PoolObj) : PoolObj * result unit :=
  if p_closed p then (p, throw RuntimeError "Pool is closed; create a new pool for another run")
  else if p_started p then (p, throw RuntimeError "Pool.read() can only be called once per run")
  else (MkPool (p_outcome p) (p_closed p) true (p_socket p) (p_created p) (p_shut p), Ok tt).

Definition enter (p : PoolObj) : result unit :=
  raise! RuntimeError "Pool is closed; create a new pool for another run" when p_closed p in Ok tt.

Definition outcomes (p : PoolObj) : list (option TerminalOutcome) := [p_outcome p].
End pool.

(** ** The constructor *)

(** The parts of [urlsplit(endpoint)] the constructor reads; [port] may raise. *)
Record SplitResult := MkSplit {
  u_scheme : string;
  u_hostname : option string;
  u_port : result (option Z);
  u_username : option string;
  u_password : option string;
  u_path : string;
  u_query : string;
  u_fragment : string;
}.

(** [wire_observer]: absent, a callable, or anything else. *)
Inductive observer_arg :=
  | NoObserver
  | Callable (f : list WireFrame -> WireFrame -> option exn)
  | NotCallable.

Inductive endpoints_arg := OneString (s : string) | Endpoints (l : list string).

(** What the constructor leaves behind: one connection, or readers for several. *)
Inductive PoolKind :=
  | Single (cfg : Config) (address : string * Z)
  | Multiple (endpoints : list string) (batch_bytes : Z)
      (observer : option (list WireFrame -> WireFrame -> option exn)).

Section init.
Context (urlsplit : string -> SplitResult) (mps_available cuda_available : bool).

Definition empty_str (s : string) : bool := String.eqb s EmptyString.

(** [endpoint.hostname] and [endpoint.port] of an acceptable endpoint. *)
Definition parse_endpoint (endpoint : string) : result (string * Z) :=
  let bad {A} : result A := throw ValueError "Worker endpoint must be tcp://host:port" in
  let u := urlsplit endpoint in
  if negb (String.eqb (u_scheme u) "tcp") then bad else
  match u_hostname u with
  | None => bad
  | Some host =>
      if empty_str host then bad else
      let! port := u_port u in
      match port with
      | None => bad
      | Some port =>
          if negb ((1 <=? port) && (port <=? 65535)) ||
             is_some (u_username u) || is_some (u_password u) ||
             negb (empty_str (u_path u)) || negb (empty_str (u_query u)) ||
             negb (empty_str (u_fragment u)) then bad
          else Ok (host, port)
      end
  end.

(** [batch_bytes] is [None] when it is not an [int]; [timeout_positive] is [timeout > 0];
    [torch_device] is [torch.device(device)], with [None] for a type that is none of ours. *)
Definition init (endpoints : endpoints_arg) (torch_device : result (option device))
    (timeout_positive : bool) (batch_bytes : option Z) (wire_observer : observer_arg)
    (abandon : nat -> bool) : result PoolKind :=
  let! observer := match wire_observer with
                   | NoObserver => Ok None
                   | Callable f => Ok (Some f)
                   | NotCallable => throw TypeError "wire_observer must be callable or None"
                   end in
  let! bytes := match batch_bytes with
                | Some z => if (0 <=? z) && (z <=? MAX_BATCH_BYTES) then Ok z
                            else throw ValueError "batch_bytes must be an integer between 0 and 4 MiB"
                | None => throw ValueError "batch_bytes must be an integer between 0 and 4 MiB"
                end in
  match endpoints with
  | OneString _ | Endpoints [] => throw ValueError "Pool requires a nonempty list of endpoints"
  | Endpoints ((endpoint :: rest) as all) =>
      raise! ValueError "Pool endpoints must be distinct" when negb (bool_decide (NoDup all)) in
      match rest with
      | _ :: _ => Ok (Multiple all bytes observer)
      | [] =>
          let! address := parse_endpoint endpoint in
          raise! ValueError "Socket timeout must be positive" when negb timeout_positive in
          let! dev := torch_device in
          match dev with
          | None => throw ValueError "Pool supports CPU, MPS, and CUDA devices"
          | Some d =>
              raise! RuntimeError "MPS is not available in this Python environment"
                when bool_decide (d = mps) && negb mps_available in
              raise! RuntimeError "CUDA is not available in this Python environment"
                when bool_decide (d = cuda) && negb cuda_available in
              Ok (Single (MkConfig endpoint d (if bytes =? 0 then d else cpu) bytes observer
                            abandon) address)
          end
      end
  end.
End init.

(** What [_read] relies on: the constructor establishes it. *)
Definition config_ok (cfg : Config) : Prop :=
  0 <= c_batch_bytes cfg <= MAX_BATCH_BYTES /\
  c_column_device cfg = if c_batch_bytes cfg =? 0 then c_device cfg else cpu.
