(* ===== verification/PoolReceive.v ===== *)
(** * Framing is exact ([pool.py]: [_receive], [_receive_frame], [_complete_frame_is_ready])

    Two sockets: [script], a connection that delivers its bytes in arbitrary
    chunks, pauses and may fail, and [ideal], a plain byte string. Over any lawful
    socket the receive loop returns the next bytes of the stream whatever the
    chunking; a frame is received whole or the run ends with the right signal;
    a frame found ready can be read without blocking. *)

From S2P Require Import Prelude Monad Batch Wire Terminal PoolBatch Pool.

(** ** Concrete sockets *)

(** How a connection can fail: with a timeout, a reset or another error; or, for a
    connection that never fails, not at all. *)
Class FailureKind (F : Type) := {
  failure_exn : F -> exn;
  failure_os : forall f, isinstance_exc (exn_class (failure_exn f)) OSError = true;
}.

Inductive failure := FailTimeout | FailReset | FailOther.

#[global] Instance any_failure : FailureKind failure.
Proof.
  refine {| failure_exn f := match f with
    | FailTimeout => Exn TimeoutError "timed out"
    | FailReset => Exn ConnectionResetError "connection reset by peer"
    | FailOther => Exn OSError "input/output error"
    end |}.
  by intros [].
Defined.

#[global] Instance no_failure : FailureKind Empty_set.
Proof. by refine {| failure_exn (f : Empty_set) := match f with end |}. Defined.

Inductive event (F : Type) := Chunk (b : Z) (bs : list Z) | Wait | Fail (f : F).
Arguments Chunk {F} b bs.
Arguments Wait {F}.
Arguments Fail {F} f.

(** A connection as the list of what happens on it; it ends cleanly when the list does. *)
Record script (F : Type) := Script { events : list (event F) }.
Arguments Script {F} events.
Arguments events {F} s.

Section script.
Context {F : Type} `{FailureKind F}.

Fixpoint script_recv (n : nat) (es : list (event F)) : list (event F) * res exn (list Z) :=
  match es with
  | [] => ([], Ok [])
  | Chunk b bs :: rest =>
      (match drop n (b :: bs) with [] => rest | b' :: bs' => Chunk b' bs' :: rest end,
       Ok (take n (b :: bs)))
  | Wait :: rest => script_recv n rest
  | Fail f :: _ => (es, Raise (failure_exn f))
  end.

Fixpoint script_peek (n : nat) (es : list (event F)) : res exn (list Z) :=
  match es with
  | [] => Ok []
  | Chunk b bs :: _ => Ok (take n (b :: bs))
  | Wait :: rest => script_peek n rest
  | Fail f :: _ => Raise (failure_exn f)
  end.

Definition script_readable (es : list (event F)) : list (event F) * bool :=
  match es with
  | Wait :: rest => (rest, false)
  | _ => (es, true)
  end.

#[global] Instance script_ops : SocketOps (script F) := {|
  recv n s := let '(es, r) := script_recv n (events s) in (Script es, r);
  peek n s := (s, script_peek n (events s));
  readable s := let '(es, b) := script_readable (events s) in (Script es, Ok b);
|}.

Fixpoint script_contents (es : list (event F)) : list Z :=
  match es with
  | [] => []
  | Chunk b bs :: rest => b :: bs ++ script_contents rest
  | Wait :: rest => script_contents rest
  | Fail _ :: _ => []
  end.

#[global] Instance script_laws : SocketLaws (script F).
Proof.
  refine {| contents s := script_contents (events s) |}.
  - intros n [es] s' bs Hn. simpl. induction es as [|[b cs| |f] es IH]; simpl.
    + intros [= <- <-]. simpl. split_and!; [done|lia|done].
    + intros [= <- <-]. simpl. rewrite length_take. destruct n as [|n]; [lia|]. simpl.
      split_and!; [|lia|done]. f_equal. rewrite <- (take_drop n cs) at 1. rewrite <- app_assoc.
      by destruct (drop n cs).
    + done.
    + done.
  - intros n [es] s' e. simpl. induction es as [|[b cs| |f] es IH]; simpl; try done.
    intros [= <- <-]. split; [apply failure_os|done].
  - intros n [es] s' bs. simpl. intros [= <- Hp]. split; [done|]. revert Hp.
    induction es as [|[b cs| |f] es IH]; simpl; try done.
    + intros [= <-]. split; [by apply prefix_nil|simpl; lia].
    + intros [= <-]. split; [|rewrite length_take; lia].
      apply (prefix_app_r _ (b :: cs)). apply prefix_take.
  - intros n [es] s' e. simpl. intros [= <- Hp]. split; [|done]. revert Hp.
    induction es as [|[b cs| |f] es IH]; simpl; try done. intros [= <-]. apply failure_os.
  - intros [es] s' r. simpl. by destruct es as [|[]]; intros [= <- <-].
Defined.
End script.

#[global] Instance script_reliable : ReliableSocket (script Empty_set).
Proof.
  split. intros n [es]. simpl.
  assert (He : is_ok (script_recv n es).2 = true) by (induction es as [|[b cs| |[]] es IH]; done).
  by destruct (script_recv n es).
Qed.

(** A byte string read as a socket: everything is there at once. *)
Record ideal := Ideal { ideal_bytes : list Z }.

#[global] Instance ideal_ops : SocketOps ideal := {|
  recv n s := (Ideal (drop n (ideal_bytes s)), Ok (take n (ideal_bytes s)));
  peek n s := (s, Ok (take n (ideal_bytes s)));
  readable s := (s, Ok true);
|}.

#[global] Instance ideal_laws : SocketLaws ideal.
Proof.
  refine {| contents := ideal_bytes |}.
  - intros n [bs] s' bs' Hn. simpl. intros [= <- <-]. simpl. rewrite take_drop, length_take.
    split_and!; [done|lia|]. destruct n; [lia|]. by destruct bs.
  - done.
  - intros n [bs] s' bs'. simpl. intros [= <- <-]. rewrite length_take.
    split_and!; [done|apply prefix_take|lia].
  - done.
  - by intros [bs] s' r [= <- <-].
Defined.

#[global] Instance ideal_reliable : ReliableSocket ideal.
Proof. by split. Qed.

(** ** The receive loop *)

Section receive.
Context {S D : Type} `{SocketLaws S} (cfg : Config).

(** The exception a receive ends with when the stream is shorter than asked. *)
Definition end_error (classify_end frame_started : bool) (received : nat) : trace_error :=
  if classify_end then CleanEnd (frame_started || negb (received =? 0)%nat)
  else PyError (Exn RuntimeError "Incomplete trace: worker disconnected before completion").

Definition os_error (e : trace_error) : Prop :=
  exists x, e = PyError x /\ isinstance_exc (exn_class x) OSError = true.

Lemma receive_loop_wp fuel size ce fs data s :
  (length data <= size <= length data + fuel)%nat ->
  wp (receive_loop fuel size ce fs data)
    (fun bs s' => exists more, bs = data ++ more /\ length bs = size /\
       contents s = more ++ contents s')
    (fun e s' => (length (contents s') <= length (contents s))%nat /\
       (os_error e \/
        (length data + length (contents s) < size)%nat /\
        e = end_error ce fs (length data + length (contents s)))) s.
Proof.
  revert data s; induction fuel as [|fuel IH]; intros data s Hf; simpl;
    (destruct (size <=? length data)%nat eqn:Hsz; bool_prop;
     [apply wp_ret; exists []; rewrite !app_nil_r; split_and!; [done|lia|done]|]); [lia|].
  apply wp_bind, wp_err. unfold wp at 1.
  destruct (recv (size - length data) s) as [s1 [chunk|e]] eqn:Hr; simpl.
  - apply recv_Ok in Hr as (Hc & Hl & He); [|lia].
    destruct chunk as [|b chunk]; simpl length; simpl Nat.eqb; cbv iota.
    + rewrite (He eq_refl) in *. symmetry in Hc. simpl in Hc.
      assert (Hb : (length data < size)%nat) by lia.
      unfold end_error. rewrite Nat.add_0_r. destruct ce; apply wp_raise; rewrite Hc;
        (split; [simpl; lia|]); right; split; done.
    + eapply wp_mono; [apply IH; rewrite length_app; simpl in *; lia| |].
      * intros bs s' (more & -> & Hlen & Hmore). exists ((b :: chunk) ++ more).
        rewrite app_assoc. split_and!; [done|done|]. by rewrite Hc, Hmore, app_assoc.
      * intros e s' (Hle & Hcase). rewrite Hc, length_app. split; [lia|].
        rewrite length_app in Hcase. destruct Hcase as [?|[Hlt ->]]; [by left|right].
        split; [lia|]. by rewrite Nat.add_assoc.
  - apply recv_Raise in Hr as [Ho Hc]. rewrite Hc. split; [lia|left]. by eexists.
Qed.

(** [_receive] is exact. Over any socket that behaves as documented, however the
    stream is split into chunks, the loop terminates and returns exactly the next [size]
    bytes, leaving the rest; otherwise a socket operation failed, or the stream is shorter
    than [size] and the loop raises: [_CleanEnd] with the truncation flag set exactly when a
    frame had begun, or [RuntimeError] when the end is not to be classified. *)
Theorem receive_exact (size : nat) (classify_end frame_started : bool) (s : S) :
  match _receive size classify_end frame_started s with
  | (s', Ok bs) => length bs = size /\ contents s = bs ++ contents s'
  | (s', Raise e) =>
      os_error e \/ (length (contents s) < size)%nat /\
        e = end_error classify_end frame_started (length (contents s))
  end.
Proof.
  pose proof (receive_loop_wp size size classify_end frame_started [] s) as Hw.
  unfold wp in Hw. fold (_receive (S:=S) size classify_end frame_started) in Hw.
  destruct (_receive size classify_end frame_started s) as [s' [bs|e]].
  - destruct Hw as (more & -> & Hl & Hc); simpl in *; [lia|]. by split.
  - destruct Hw as (_ & Hcase); simpl in *; [lia|done].
Qed.

Lemma receive_wp size ce fs s :
  wp (_receive size ce fs)
    (fun bs s' => length bs = size /\ contents s = bs ++ contents s')
    (fun e s' => (length (contents s') <= length (contents s))%nat /\
       (os_error e \/ (length (contents s) < size)%nat /\
        e = end_error ce fs (length (contents s)))) s.
Proof.
  eapply wp_mono; [apply receive_loop_wp; simpl; lia| |].
  - simpl. intros bs s' (more & -> & Hl & Hc). by split.
  - by simpl.
Qed.

(** ** Frames *)

(** The frame at the head of a byte string: its header is valid and it is complete. *)
Definition head_frame (bs frame rest : list Z) (h : Header) : Prop :=
  bs = frame ++ rest /\ decode_header (take header_bytes frame) = Ok h /\
  length frame = (header_bytes + Z.to_nat (payload_size h))%nat.

(** What the observer is shown for a frame. *)
Definition observed_frame (h : Header) (frame : list Z) : WireFrame :=
  MkWireFrame 0 (c_endpoint cfg) (h_version h) (h_kind h) (h_source h) (h_count h)
    (h_sequence h) (h_detail h) frame.

Definition observe_rest (h : Header) (frame : list Z) (t : Rest D) : Rest D :=
  match c_observer cfg with None => t | Some _ => add_log (observed_frame h frame) t end.

(** The observer's verdict on a frame. *)
Definition observer_raises (h : Header) (frame : list Z) (t : Rest D) : option exn :=
  match c_observer cfg with None => None | Some f => f (r_log t) (observed_frame h frame) end.

Lemma decode_header_unpack bs h : decode_header bs = Ok h ->
  unpack_fields header_format bs =
    [wire_magic; h_version h; h_kind h; h_source h; h_count h; h_sequence h; h_detail h] /\
  length bs = header_bytes.
Proof.
  unfold decode_header. intros Hd. inv_res Hd. bool_prop. split; [|done].
  destruct (unpack_fields header_format bs) as
    [|magic [|version [|kind [|src [|count [|seq [|detail [|]]]]]]]] eqn:Hu; try discriminate.
  inv_res Hd. bool_prop. subst magic. by pose proof (check_header_id _ _ Hd) as ->.
Qed.

Lemma unpack_fields_take fmt bs : unpack_fields fmt (take (struct_size fmt) bs) = unpack_fields fmt bs.
Proof.
  revert bs; induction fmt as [|n fmt IH]; intros bs; [done|].
  change (struct_size (n :: fmt)) with (n + struct_size fmt)%nat.
  simpl. rewrite take_take, Nat.min_l by lia. f_equal.
  etrans; [|apply IH]. f_equal. rewrite skipn_firstn_comm. f_equal. lia.
Qed.

Lemma observe_wp observer h frame (t : Rest D) :
  decode_header (take header_bytes frame) = Ok h ->
  _observe_wire_frame cfg observer frame t =
    (add_log (observed_frame h frame) t,
     match observer (r_log t) (observed_frame h frame) with
     | None => Ok tt | Some e => Raise (PyError e) end).
Proof.
  intros Hd. apply decode_header_unpack in Hd as [Hu Hl].
  rewrite length_take in Hl.
  assert (Hlen : (length frame <? 0 + struct_size header_format)%nat = false)
    by (apply Nat.ltb_ge; change (struct_size header_format) with 32%nat;
        unfold header_bytes in Hl; lia).
  unfold _observe_wire_frame, pure_py, py, serr, slift, sbind, unpack_from. rewrite Hlen.
  rewrite drop_0. rewrite <- (unpack_fields_take header_format frame).
  change (struct_size header_format) with header_bytes. rewrite Hu.
  simpl. unfold smodify, sgets. simpl.
  by destruct (observer (r_log t) _).
Qed.

(** A run of [_receive_frame]: the frame and what is left, or why there is none. *)
Lemma receive_frame_wp s (t : Rest D) :
  wp (_receive_frame cfg)
    (fun frame r => exists h, head_frame (contents s) frame (contents r.1) h /\
       r.2 = observe_rest h frame t /\ observer_raises h frame t = None)
    (fun e r => (length (contents r.1) <= length (contents s))%nat /\
       ((r.2 = t /\ (os_error e \/
          (length (contents s) < header_bytes)%nat /\
            e = CleanEnd (negb (length (contents s) =? 0)%nat) \/
          (exists x, decode_header (take header_bytes (contents s)) = Raise x /\ e = PyError x) \/
          (exists h, decode_header (take header_bytes (contents s)) = Ok h /\
            (length (contents s) < header_bytes + Z.to_nat (payload_size h))%nat /\
            e = CleanEnd true))) \/
        (exists h frame x, head_frame (contents s) frame (contents r.1) h /\
           r.2 = observe_rest h frame t /\ observer_raises h frame t = Some x /\
           e = PyError x))) (s, t).
Proof.
  unfold _receive_frame. apply wp_bind, wp_zoom.
  eapply wp_mono; [apply receive_wp| |].
  2:{ intros e s1 (Hle & He). simpl. split; [done|left]. split; [done|].
      destruct He as [Ho|[Hlt He]]; [by left|right; left]. split; [done|]. by rewrite He. }
  simpl. intros header s1 (Hl & Hc).
  assert (Hh : take header_bytes (contents s) = header)
    by (rewrite Hc; apply take_app_length'; by rewrite Hl).
  apply wp_bind, wp_err, wp_lift.
  2:{ intros x Hx. simpl. rewrite Hc, length_app. split; [lia|left]. split; [done|].
      right; right; left. exists x. split; [|done]. rewrite <- Hc, Hh.
      unfold native_payload_size in Hx. destruct (decode_header header); simpl in Hx; congruence. }
  intros n Hn. unfold native_payload_size in Hn. inv_res Hn. injection Hn as <-.
  rename v into h. apply wp_bind, wp_zoom. simpl.
  eapply wp_mono; [apply receive_wp| |].
  2:{ intros e s2 (Hle & He). simpl. rewrite Hc, length_app. split; [lia|left]. split; [done|].
      destruct He as [Ho|[Hlt He]]; [by left|right; right; right]. exists h.
      rewrite take_app_length' by (by rewrite Hl). split_and!; [done| |done].
      unfold _HEADER_BYTES, header_bytes in *. lia. }
  simpl. intros payload s2 (Hlp & Hcp).
  assert (Hf : head_frame (contents s) (header ++ payload) (contents s2) h).
  { split_and!.
    - by rewrite Hc, Hcp, app_assoc.
    - rewrite take_app_length'; [done|]. by rewrite Hl.
    - rewrite length_app, Hl, Hlp. done. }
  apply wp_bind. unfold observe_rest, observer_raises in *.
  destruct (c_observer cfg) as [obs|] eqn:Ho.
  2:{ apply wp_ret, wp_ret. simpl. exists h. split_and!; done. }
  apply wp_zoom. unfold wp at 1. simpl.
  rewrite (observe_wp obs h) by (by destruct Hf as (_ & ? & _)).
  destruct (obs (r_log t) (observed_frame h (header ++ payload))) as [x|] eqn:Hx; simpl.
  - split; [|right].
    + rewrite Hc, Hcp, !length_app. lia.
    + exists h, (header ++ payload), x. split_and!; done.
  - apply wp_ret. simpl. exists h. split_and!; done.
Qed.

(** Framing does not depend on how the stream is segmented. When the connection
    still holds the encoding of an acceptable header, its payload and any further bytes,
    [_receive_frame] consumes exactly that frame, shows the observer exactly once its header
    fields as the native decoder reads them and its bytes, and returns it - unless the
    observer raised, whose exception it propagates, or a socket operation failed. *)
Theorem receive_frame_exact (s : S) (t : Rest D) (h : Header) (payload rest : list Z)
  (Hc : contents s = encode_header h ++ payload ++ rest)
  (Hf : header_fits h) (Hh : check_header h = Ok h)
  (Hp : length payload = Z.to_nat (payload_size h)) :
  let frame := encode_header h ++ payload in
  match _receive_frame cfg (s, t) with
  | ((s', t'), Ok frame') => frame' = frame /\ contents s' = rest /\
      t' = observe_rest h frame t /\ observer_raises h frame t = None
  | ((s', t'), Raise e) => os_error e \/
      (t' = observe_rest h frame t /\ exists x, observer_raises h frame t = Some x /\ e = PyError x)
  end.
Proof.
  assert (Ht : take header_bytes (contents s) = encode_header h)
    by (rewrite Hc; apply take_app_length'; by rewrite length_encode_header).
  assert (Hd : decode_header (take header_bytes (contents s)) = Ok h)
    by (rewrite Ht; by apply decode_encode_header).
  assert (Hhead : forall frame' rest' h', head_frame (contents s) frame' rest' h' ->
    frame' = encode_header h ++ payload /\ rest' = rest /\ h' = h).
  { intros frame' rest' h' (Heq & Hd' & Hl).
    assert (h' = h) as ->.
    { rewrite Heq, take_app_le in Hd by lia. congruence. }
    rewrite Hc, app_assoc in Heq. apply app_inj_1 in Heq as [<- <-]; [done|].
    rewrite length_app, length_encode_header. lia. }
  pose proof (receive_frame_wp s t) as Hw. unfold wp in Hw.
  destruct (_receive_frame cfg (s, t)) as [[s' t'] [frame'|e]];
    cbn [fst snd] in Hw.
  - destruct Hw as (h' & Hhf & -> & Hn). destruct (Hhead _ _ _ Hhf) as (-> & -> & ->). done.
  - assert (Hlen : length (contents s) = (header_bytes + length payload + length rest)%nat)
      by (rewrite Hc, !length_app, length_encode_header; lia).
    destruct Hw as (_ & [(_ & Hcase)|(h' & frame' & x & Hhf & -> & Hx & ->)]).
    + left. destruct Hcase as [?|[[? _]|[(x & Hx & _)|(h' & Hd' & Hlt & _)]]];
        [done|lia|congruence|].
      rewrite Hd in Hd'. injection Hd' as <-. lia.
    + right. destruct (Hhead _ _ _ Hhf) as (-> & _ & ->). eauto.
Qed.

Lemma ready_wp s :
  wp _complete_frame_is_ready
    (fun b s' => contents s' = contents s /\
       (b = true -> exists frame rest h, head_frame (contents s) frame rest h))
    (fun e s' => contents s' = contents s) s.
Proof.
  unfold _complete_frame_is_ready. apply wp_bind, wp_err. unfold wp at 1.
  destruct (readable s) as [s1 r] eqn:Hr. apply readable_same in Hr.
  destruct r as [ready|e]; [|done]. apply wp_if; intros _; [by apply wp_ret|].
  apply wp_bind, wp_err. unfold wp at 1.
  destruct (peek _HEADER_BYTES s1) as [s2 [header|e]] eqn:Hp.
  2:{ apply peek_Raise in Hp as [_ Hp]. congruence. }
  apply peek_Ok in Hp as (Hc2 & Hpre & Hl). apply wp_if; intros Hb.
  { apply wp_ret. split; [congruence|done]. }
  bool_prop. apply wp_bind, wp_err, wp_lift; [|simpl; congruence].
  intros n Hn. unfold native_payload_size in Hn. inv_res Hn. injection Hn as <-.
  rename v into h. apply wp_bind, wp_err. unfold wp at 1.
  destruct (peek (_HEADER_BYTES + Z.to_nat (payload_size h)) s2) as [s3 [seen|e]] eqn:Hp3.
  2:{ apply peek_Raise in Hp3 as [_ Hp3]. congruence. }
  apply peek_Ok in Hp3 as (Hc3 & [rest Hrest] & Hl3). apply wp_ret. split; [congruence|].
  intros Ht. bool_prop. exists seen, rest, h. split_and!.
  - congruence.
  - destruct Hpre as [rest2 Hrest2].
    assert (Hh : length header = header_bytes) by (unfold header_bytes, _HEADER_BYTES in *; lia).
    assert (take header_bytes seen = header) as ->; [|done].
    transitivity (take header_bytes (contents s2)).
    + rewrite Hrest, take_app_le; [done|]. unfold header_bytes, _HEADER_BYTES in *. lia.
    + rewrite Hc2, Hrest2. by apply take_app_length'.
  - done.
Qed.

(** Read-ahead never waits for a partial frame. When [_complete_frame_is_ready]
    answers yes, the connection holds a complete acceptable frame, peeking consumed
    nothing, and the [_receive_frame] that follows returns that frame: it cannot report an
    end of stream or an invalid header, only a socket failure or the observer's exception. *)
Theorem ready_frame_is_received (s s1 : S) (t : Rest D)
  (Hr : _complete_frame_is_ready s = (s1, Ok true)) :
  contents s1 = contents s /\
  exists frame rest h, head_frame (contents s) frame rest h /\
  match _receive_frame cfg (s1, t) with
  | ((s', t'), Ok frame') => frame' = frame /\ contents s' = rest
  | ((s', t'), Raise e) => os_error e \/
      exists x, observer_raises h frame t = Some x /\ e = PyError x
  end.
Proof.
  destruct (wp_Ok _ _ _ _ _ _ (ready_wp s) Hr) as (Hc & Hex).
  destruct (Hex eq_refl) as (frame & rest & h & Hh). split; [done|].
  exists frame, rest, h. split; [done|].
  assert (Huniq : forall f' r' h', head_frame (contents s1) f' r' h' -> f' = frame /\ r' = rest /\ h' = h).
  { intros f' r' h' (He' & Hd' & Hl'). destruct Hh as (He & Hd & Hl). rewrite Hc, He in He'.
    assert (take header_bytes frame = take header_bytes f') as Hk.
    { transitivity (take header_bytes (frame ++ rest)); [by rewrite take_app_le by lia|].
      rewrite He'. by rewrite take_app_le by lia. }
    rewrite Hk, Hd' in Hd. injection Hd as ->. apply app_inj_1 in He' as [<- <-]; [done|lia]. }
  pose proof (receive_frame_wp s1 t) as Hw. unfold wp in Hw.
  destruct (_receive_frame cfg (s1, t)) as [[s' t'] [frame'|e]];
    cbn [fst snd] in Hw.
  - destruct Hw as (h' & Hhf & _). by destruct (Huniq _ _ _ Hhf) as (-> & -> & ->).
  - destruct Hh as (He & Hd & Hl).
    assert (Ht : take header_bytes (contents s1) = take header_bytes frame)
      by (rewrite Hc, He; apply take_app_le; lia).
    assert (Hlen : length (contents s1) = (length frame + length rest)%nat)
      by (by rewrite Hc, He, length_app).
    destruct Hw as (_ & [(_ & Hcase)|(h' & frame' & x & Hhf & -> & Hx & ->)]).
    + left. rewrite Ht in Hcase.
      destruct Hcase as [?|[[? _]|[(x & Hx & _)|(h' & Hd' & Hlt & _)]]]; [done|lia|congruence|].
      rewrite Hd in Hd'. injection Hd' as <-. lia.
    + right. destruct (Huniq _ _ _ Hhf) as (-> & _ & ->). eauto.
Qed.
End receive.

(** ** Concrete runs *)

Definition example_config : Config :=
  MkConfig "tcp://worker:1" cpu cpu 0 (Some (fun _ _ => None)) (fun _ => false).

Definition blocks_header : Header := MkHeader 2 1 1 5 0 3.
Definition blocks_payload : list Z := le_bytes 8 0x401000.

(** A block frame whose header arrives in two pieces, followed by one more byte. *)
Definition split_script : script failure :=
  let bs := encode_header blocks_header ++ blocks_payload ++ [67] in
  Script [Wait; Chunk (hd 0 bs) (slice 1 6 bs); Wait; Chunk (nth 7 bs 0) (drop 8 bs);
          Fail FailReset].

(** The same bytes, all of them in the receive buffer. *)
Definition whole_script : script failure :=
  let bs := encode_header blocks_header ++ blocks_payload ++ [67] in
  Script [Chunk (hd 0 bs) (tail bs)].

Definition empty_rest : Rest unit := MkRest tt [] [] None (new_locals None).

Lemma receive_exact_witness :
  exists s', _receive 33 true false split_script = (s', Ok (encode_header blocks_header ++ [0])).
Proof.
  pose proof (receive_exact 33 true false split_script) as Hr.
  destruct (_receive 33 true false split_script) as [s' [bs|e]] eqn:Hs.
  - exists s'. destruct Hr as [Hl Hc]. f_equal. f_equal. vm_compute in Hs. injection Hs as _ <-.
    reflexivity.
  - vm_compute in Hs. discriminate Hs.
Defined.

Lemma receive_frame_exact_witness :
  exists s' t', _receive_frame example_config (split_script, empty_rest) =
    ((s', t'), Ok (encode_header blocks_header ++ blocks_payload)) /\ contents s' = [67].
Proof.
  assert (Hc : contents split_script = encode_header blocks_header ++ blocks_payload ++ [67])
    by (vm_compute; reflexivity).
  assert (Hf : header_fits blocks_header) by (apply (bool_decide_unpack _); vm_compute; exact I).
  pose proof (receive_frame_exact example_config split_script empty_rest blocks_header
    blocks_payload [67] Hc Hf eq_refl eq_refl) as Hr.
  destruct (_receive_frame example_config (split_script, empty_rest)) as [[s' t'] [f|e]] eqn:Hs.
  - exists s', t'. destruct Hr as (Hfr & Hrest & _). rewrite Hfr. split; [reflexivity|exact Hrest].
  - exfalso. vm_compute in Hs. discriminate Hs.
Defined.

Lemma ready_frame_is_received_witness :
  exists frame rest h, head_frame (contents whole_script) frame rest h /\
    exists s' t', _receive_frame example_config (whole_script, empty_rest) = ((s', t'), Ok frame).
Proof.
  destruct (ready_frame_is_received example_config whole_script whole_script empty_rest)
    as (_ & frame & rest & h & Hh & Hr); [vm_compute; reflexivity|].
  exists frame, rest, h. split; [exact Hh|].
  destruct (_receive_frame example_config (whole_script, empty_rest)) as [[s' t'] [f|e]] eqn:Hs.
  - destruct Hr as [-> _]. eauto.
  - exfalso. vm_compute in Hs. discriminate Hs.
Defined.
