(* ===== verification/PoolRead.v ===== *)
(** * The reader as a whole ([pool.py]: [_connect], [_read], [close])

    Every socket a pool creates is closed when its generator ends, however it
    ends; the frame loop terminates on a finite stream; over a connection that
    does not fail the run is a function of the bytes alone; the recorded
    outcome, the exception and the summaries agree. *)

From S2P Require Import Prelude Monad Batch Device Batching Wire Terminal PoolBatch Pool PoolReceive.

(** ** Sockets are not leaked *)

(** Every socket created so far is closed or is the published one. *)
Definition sockets_owned (p : PoolObj) : Prop :=
  forall i, (i < p_created p)%nat -> i ∈ p_shut p \/ p_socket p = Some i.

(** The pool of a generator that is not connected. *)
Definition pool_idle (p : PoolObj) : Prop := sockets_owned p /\ p_socket p = None.

(** Owned but for one socket that only the running attempt knows. *)
Definition owned_but (i : nat) (p : PoolObj) : Prop :=
  forall j, (j < p_created p)%nat -> j ∈ p_shut p \/ p_socket p = Some j \/ j = i.

Section connect.
Context {S : Type}.
Implicit Type a : attempt (S:=S).

Lemma close_owned i p : owned_but i p -> owned_but i (close p).
Proof.
  intros Hp j Hj. destruct (Hp j Hj) as [?|[Hs|?]]; simpl; [left|left|by right; right].
  - set_solver.
  - rewrite Hs. set_solver.
Qed.

Lemma try_connect_wp a i p : owned_but i p -> p_socket p = None -> (i < p_created p)%nat ->
  wp (try_connect a i)
    (fun _ p' => owned_but i p' /\ p_socket p' = Some i /\ p_closed p' = false)
    (fun _ p' => owned_but i p' /\ (p_socket p' = None \/ p_socket p' = Some i)) p.
Proof.
  intros Hp Hn Hi. unfold try_connect. apply wp_bind.
  destruct (at_settimeout a); [apply wp_raise; eauto|].
  apply wp_ret, wp_bind, wp_modify.
  assert (Hp1 : owned_but i (maybe_close (at_close_before_publish a) p) /\
                p_socket (maybe_close (at_close_before_publish a) p) = None)
    by (destruct (at_close_before_publish a); simpl; eauto using close_owned).
  revert Hp1. generalize (maybe_close (at_close_before_publish a) p). clear p Hp Hn Hi.
  intros p (Hp & Hn). apply wp_bind, wp_gets, wp_if; intros Hc; [apply wp_raise; eauto|].
  apply wp_bind, wp_modify, wp_bind, wp_lift; [intros s _|intros e _].
  - apply wp_bind, wp_modify, wp_bind, wp_gets.
    assert (Hp2 : owned_but i (publish i p)).
    { intros j Hj. destruct (Hp j Hj) as [?|[?|?]]; [by left|congruence|by right; right]. }
    destruct (at_close_before_connected a); simpl.
    + apply wp_raise. split; [by apply close_owned|by left].
    + rewrite Hc. apply wp_ret. split_and!; done.
  - split; [|by right]. intros j Hj. destruct (Hp j Hj) as [?|[?|?]]; [by left|congruence|by right; right].
Qed.

Lemma connect_cleanup_wp a i e p : owned_but i p ->
  (p_socket p = None \/ p_socket p = Some i) ->
  wp (connect_cleanup a (Some i) e) (fun _ => pool_idle) (fun _ => pool_idle) p.
Proof.
  intros Hp Hs. unfold connect_cleanup. apply wp_bind, wp_modify.
  set (p1 := maybe_close _ p).
  assert (Hp1 : owned_but i p1 /\ (p_socket p1 = None \/ p_socket p1 = Some i)).
  { unfold p1. destruct (at_close_before_cleanup a); simpl; eauto using close_owned. }
  clearbody p1. clear p Hp Hs. destruct Hp1 as [Hp Hs].
  apply wp_bind, wp_modify, wp_bind, wp_gets, wp_bind, wp_modify.
  assert (Hidle : pool_idle (shut (Some i) (unpublish (Some i) p1))).
  { split; simpl.
    - intros j Hj. simpl in *. destruct (Hp j Hj) as [?|[Hj'| ->]]; left.
      + set_solver.
      + destruct Hs as [Hs|Hs]; rewrite Hs in Hj'; [done|]. injection Hj' as ->. set_solver.
      + set_solver.
    - destruct Hs as [-> | ->]; case_bool_decide; done. }
  apply wp_if; intros _; [by apply wp_raise|]. apply wp_if; intros _; by (apply wp_ret || apply wp_raise).
Qed.

Lemma connect_cleanup_none_wp a e p : pool_idle p ->
  wp (connect_cleanup a None e) (fun _ => pool_idle) (fun _ => pool_idle) p.
Proof.
  intros [Hp Hn]. unfold connect_cleanup. apply wp_bind, wp_modify.
  assert (Hp1 : pool_idle (maybe_close (at_close_before_cleanup a) p)).
  { destruct (at_close_before_cleanup a); [|by split]. split; [|done].
    intros i Hi. simpl in *. destruct (Hp i Hi); [set_solver|congruence]. }
  revert Hp1. generalize (maybe_close (at_close_before_cleanup a) p). intros p1 [Hp1 Hn1].
  apply wp_bind, wp_modify, wp_bind, wp_gets, wp_bind, wp_modify.
  assert (Hi : pool_idle (shut None (unpublish None p1))).
  { split; simpl; [|by rewrite Hn1; case_bool_decide].
    intros i Hi. simpl in *. destruct (Hp1 i Hi); [set_solver|congruence]. }
  apply wp_if; intros _; [by apply wp_raise|].
  apply wp_if; intros _; by (apply wp_ret || apply wp_raise).
Qed.

(** A connected pool: its socket is published and it is not closed. *)
Definition pool_connected (p : PoolObj) : Prop :=
  sockets_owned p /\ is_some (p_socket p) = true /\ p_closed p = false.

Lemma connect_one_wp a p : pool_idle p ->
  wp (connect_one a)
    (fun o p' => if o then pool_connected p' else pool_idle p') (fun _ => pool_idle) p.
Proof.
  intros [Hp Hn]. unfold connect_one. destruct (at_socket a) as [e|].
  - apply wp_bind. eapply wp_mono; [by apply connect_cleanup_none_wp|simpl; eauto with wp|done].
  - apply wp_bind, wp_gets, wp_bind, wp_modify, wp_catch, wp_bind.
    eapply wp_mono; [apply (try_connect_wp a (p_created p))| |]; simpl.
    + intros j Hj. simpl in *. destruct (decide (j = p_created p)) as [->|Hne]; [by right; right|].
      destruct (Hp j) as [?|?]; [lia|by left|by right; left].
    + done.
    + lia.
    + intros s p' (Ho & Hs & Hc). apply wp_ret. split_and!; [|by rewrite Hs|done].
      intros j Hj. destruct (Ho j Hj) as [?|[?| ->]]; auto.
    + intros e p' (Ho & Hs). apply wp_bind.
      eapply wp_mono; [by apply connect_cleanup_wp|simpl; eauto with wp|done].
Qed.

Lemma connect_wp gai p : pool_idle p ->
  wp (_connect (S:=S) gai) (fun _ => pool_connected) (fun _ => pool_idle) p.
Proof.
  intros Hp. unfold _connect. apply wp_bind, wp_lift; [|done].
  intros addresses _. generalize (None : option exn). revert p Hp.
  induction addresses as [|a addresses IH]; intros p Hp last; simpl.
  - destruct last; by apply wp_raise.
  - apply wp_bind. eapply wp_mono; [by apply connect_one_wp| |done].
    intros [s|] p' Hp'; simpl in *; [by apply wp_ret|by apply IH].
Qed.
End connect.

(** All sockets the pool ever created are closed, and none is published. *)
Definition all_shut (p : PoolObj) : Prop :=
  p_closed p = true /\ p_socket p = None /\ forall i, (i < p_created p)%nat -> i ∈ p_shut p.

Lemma close_all_shut p : sockets_owned p -> all_shut (close p).
Proof.
  intros Hp. split_and!; [done|done|]. intros i Hi. simpl in *.
  destruct (Hp i Hi) as [?|Hs]; [set_solver|]. rewrite Hs. set_solver.
Qed.

Lemma finish_read_shut cfg p connected h d r :
  sockets_owned p -> all_shut (finish_read cfg p connected h d r).1.
Proof.
  intros Hp. unfold finish_read. destruct r as [x|e]; simpl; [by apply close_all_shut|].
  destruct (except_clauses cfg connected h d e) as [[o|] e']; simpl; by apply close_all_shut.
Qed.

Section read.
Context {S D : Type} `{SocketOps S} `{NativeDecoder D} (cfg : Config).

(** No connection outlives its generator. Whatever happens - a name that does not
    resolve, addresses that fail, another thread closing the pool at any of the three
    points of each attempt, a protocol error, a target failure, a consumer that stops
    early, or success - when [_read] ends the pool is closed, publishes no socket, and
    every socket it ever created has been closed. *)
Theorem read_closes_every_socket (fuel : nat) (gai : res exn (list (attempt (S:=S))))
  (p : PoolObj) (Hp : pool_idle p) : all_shut (_read (D:=D) cfg fuel gai p).1.
Proof.
  unfold _read. destruct (p_closed p).
  { rewrite (surjective_pairing (finish_read _ _ _ _ _ _)). apply finish_read_shut, Hp. }
  pose proof (connect_wp gai p Hp) as Hw. unfold wp in Hw.
  destruct (_connect gai p) as [p1 [s|e]].
  - unfold read_connected. destruct (make_collator cfg).
    + destruct (read_loop cfg fuel _) as [[s' t] r].
      rewrite (surjective_pairing (finish_read _ _ _ _ _ _)). apply finish_read_shut, Hw.
    + rewrite (surjective_pairing (finish_read _ _ _ _ _ _)). apply finish_read_shut, Hw.
  - rewrite (surjective_pairing (finish_read _ _ _ _ _ _)). apply finish_read_shut, Hw.
Qed.
End read.

(** ** What handling a frame leaves alone *)

(** An invariant closed under everything the body of the frame loop does. *)
Record loop_closed {D} (I : Rest D -> Prop) (ok_hello : Z -> bool) : Prop := {
  lc_out : forall t b, I t -> I (add_out b t);
  lc_outcome : forall t o, I t -> I (set_outcome o t);
  lc_note : forall t kind detail, (kind = 1 -> ok_hello detail = true) -> I t ->
    I (set_loc (note_frame kind detail (r_loc t)) t);
  lc_names : forall t src u, I t -> I (set_loc (update_names src u (r_loc t)) t);
  lc_summary : forall t b, I t -> I (set_loc (add_summary b (r_loc t)) t);
  lc_collator : forall t c, I t -> I (set_loc (set_collator c (r_loc t)) t);
}.

Section handle_keeps.
Context {D : Type} (cfg : Config) (I : Rest D -> Prop) (ok_hello : Z -> bool)
  (HI : loop_closed I ok_hello).

Hint Extern 1 (I _) => first [assumption | apply (lc_out _ _ HI) | apply (lc_outcome _ _ HI)
  | apply (lc_names _ _ HI) | apply (lc_summary _ _ HI) | apply (lc_collator _ _ HI)] : keeps.

Lemma pure_py_keeps {A} (m : result A) : keeps I (pure_py m).
Proof. unfold pure_py, py. eauto with keeps. Qed.
Hint Resolve pure_py_keeps : keeps.

Lemma yield_keeps b : keeps I (yield_ cfg b).
Proof. unfold yield_. eauto 10 with keeps. Qed.
Hint Resolve yield_keeps : keeps.

Lemma yield_on_device_keeps b : keeps I (yield_on_device cfg b).
Proof. unfold yield_on_device. eauto 10 with keeps. Qed.
Lemma yield_if_moved_keeps b : keeps I (yield_if_moved cfg b).
Proof. unfold yield_if_moved. eauto 10 with keeps. Qed.
Hint Resolve yield_on_device_keeps yield_if_moved_keeps : keeps.

Lemma collate_keeps op c : keeps I (collate op c).
Proof. unfold collate, modify_loc. destruct (op c). eauto 10 with keeps. Qed.
Hint Resolve collate_keeps : keeps.

Lemma gets_loc_keeps {A} (f : Locals -> A) : keeps I (gets_loc f).
Proof. unfold gets_loc. eauto with keeps. Qed.
Hint Resolve gets_loc_keeps : keeps.

Lemma handle_data_keeps d : keeps I (handle_data cfg d).
Proof. unfold handle_data, modify_loc. eauto 20 with keeps. Qed.

Lemma handle_complete_keeps detail : keeps I (handle_complete cfg detail).
Proof. unfold handle_complete. eauto 20 with keeps. Qed.

Lemma handle_error_keeps detail : keeps I (handle_error cfg detail).
Proof. unfold handle_error. eauto 20 with keeps. Qed.
Hint Resolve handle_data_keeps handle_complete_keeps handle_error_keeps : keeps.

Lemma handle_keeps d : (d_kind d = 1 -> ok_hello (d_detail d) = true) -> keeps I (handle cfg d).
Proof.
  intros Hh. unfold handle, raise_py, modify_loc.
  apply keeps_bind; [|intros; eauto 30 with keeps].
  apply keeps_modify. intros t Ht. by apply (lc_note _ _ HI).
Qed.
End handle_keeps.

(** A predicate on the frame read ahead. *)
Lemma pending_closed {D} (P : option (list Z) -> Prop) :
  loop_closed (fun t : Rest D => P (l_pending (r_loc t))) (fun _ => true).
Proof.
  split; simpl; try done. intros t kind detail _ Hp. unfold note_frame.
  by repeat case_if.
Qed.

(** Context grouping stays off while no [hello] turns it on. *)
Lemma grouping_closed {D} :
  loop_closed (fun t : Rest D => l_grouping (r_loc t) = false)
    (fun detail => negb (context_grouping_of detail)).
Proof.
  split; simpl; try done. intros t kind detail Hh Hg. unfold note_frame.
  case_if; bool_prop; simpl; [by apply negb_true_iff, Hh|]. by case_if.
Qed.

(** ** The loop terminates *)

Section terminates.
Context {S D : Type} `{SocketLaws S} `{NativeDecoder D} (cfg : Config).
Implicit Types (s : S) (t : Rest D).

Definition pending_length t : nat := from_option length 0%nat (l_pending (r_loc t)).

(** Bytes not yet decoded: still in the socket, or in the frame read ahead. *)
Definition undecoded (r : Run S D) : nat := (length (contents r.1) + pending_length r.2)%nat.

(** A frame read ahead has at least a header. *)
Definition pending_sane (o : option (list Z)) : Prop :=
  from_option (fun f => (header_bytes <= length f)%nat) True o.

Lemma observe_rest_loc h frame t : r_loc (observe_rest cfg h frame t) = r_loc t.
Proof. unfold observe_rest. by destruct (c_observer cfg). Qed.

Lemma receive_frame_progress s t :
  wp (_receive_frame cfg)
    (fun frame r => (header_bytes <= length frame)%nat /\ r_loc r.2 = r_loc t /\
       (length (contents s) = length frame + length (contents r.1))%nat)
    (fun e r => (length (contents r.1) <= length (contents s))%nat /\ r_loc r.2 = r_loc t)
    (s, t).
Proof.
  eapply wp_mono; [apply receive_frame_wp| |].
  - intros frame r (h & (Hc & _ & Hl) & Ht & _). rewrite Ht, observe_rest_loc, Hc, length_app.
    split_and!; [lia|done|done].
  - intros e r (Hle & [(Ht & _)|(h & frame & x & _ & Ht & _)]); rewrite Ht;
      [|rewrite observe_rest_loc]; done.
Qed.

Lemma next_frame_progress (r : Run S D) : pending_sane (l_pending (r_loc r.2)) ->
  wp (next_frame cfg)
    (fun _ r' => (undecoded r' + header_bytes <= undecoded r)%nat /\ l_pending (r_loc r'.2) = None)
    (fun _ _ => True) r.
Proof.
  destruct r as [s t]. intros Hp. unfold next_frame, undecoded, pending_length in *. simpl in *.
  apply wp_bind, wp_zoom, wp_gets, wp_bind. simpl.
  destruct (l_pending (r_loc t)) as [f|] eqn:Hf; simpl in *.
  - apply wp_ret, wp_bind, wp_zoom, wp_modify, wp_ret. simpl. split; [lia|done].
  - eapply wp_mono; [apply receive_frame_progress| |done].
    intros frame [s' t'] (Hl & _ & Hc). apply wp_bind, wp_zoom, wp_modify, wp_ret. simpl in *.
    split; [lia|done].
Qed.

Lemma read_ahead_progress fuel frames s t : l_pending (r_loc t) = None ->
  wp (read_ahead cfg fuel frames)
    (fun _ r' => (undecoded r' <= length (contents s))%nat /\ pending_sane (l_pending (r_loc r'.2)))
    (fun _ _ => True) (s, t).
Proof.
  revert frames s t; induction fuel as [|fuel IH]; intros frames s t Hp; simpl.
  { apply wp_ret. unfold undecoded, pending_length. simpl. rewrite Hp. simpl. split; [lia|done]. }
  apply wp_bind, wp_catch, wp_bind, wp_zoom. simpl.
  eapply wp_mono; [apply ready_wp| |].
  - intros [] s1 (Hc & _); cbv iota.
    + apply wp_bind. eapply wp_mono; [apply receive_frame_progress| |].
      * intros f [s2 t2] (Hl & Hloc & Hlen). simpl in *. apply wp_ret, wp_bind, wp_err, wp_lift; [|done].
        intros k _. destruct (negb (k =? _MIXED)).
        -- apply wp_bind, wp_zoom, wp_modify, wp_ret. unfold undecoded, pending_length. simpl.
           rewrite <- Hc. split; [lia|done].
        -- eapply wp_mono; [apply IH; simpl; by rewrite Hloc| |done].
           intros a r' [Hle Hs]. split; [|done]. rewrite <- Hc. lia.
      * intros e [s2 t2] (Hle & Hloc). simpl in *. apply wp_if; intros _; [|done].
        apply wp_ret, wp_ret. unfold undecoded, pending_length. simpl. rewrite Hloc, Hp. simpl.
        rewrite <- Hc. split; [lia|done].
    + apply wp_ret, wp_ret. unfold undecoded, pending_length. simpl. rewrite Hp. simpl.
      rewrite <- Hc. split; [lia|done].
  - intros e s1 Hc. apply wp_if; intros _; [|done]. apply wp_ret, wp_ret.
    unfold undecoded, pending_length. simpl. rewrite Hp. simpl. rewrite <- Hc. split; [lia|done].
Qed.

(** [_raise_reported_terminal] never returns. *)
Lemma raise_reported_wp detail hello data start stop s t :
  wp (_raise_reported_terminal cfg detail hello data start stop)
    (fun _ _ => False)
    (fun e r => (r.2 = t /\ exists m, e = PyError (Exn ValueError m)) \/
       exists c tr, let o := set_transport tr
           (deadline_outcome cfg (Z.land (Z.shiftr detail 16) 255) hello data) in
         e = Terminal c deadline_message o /\ r.2 = set_outcome o t) (s, t).
Proof.
  unfold _raise_reported_terminal. do 3 (case_if; [apply wp_raise; simpl; eauto|]).
  apply wp_bind, wp_catch, wp_bind, wp_zoom, wp_err. unfold wp at 1. simpl.
  destruct (recv 1 s) as [s1 [bs|e]] eqn:Hr.
  - apply wp_ret. destruct bs as [|b bs].
    + apply wp_bind, wp_zoom, wp_modify, wp_raise. right. exists PlainTerminal, CLEAN. done.
    + apply wp_raise. left. split; [done|]. by eexists.
  - apply recv_Raise in Hr as [Ho _]. apply wp_if; intros _.
    + apply wp_ret, wp_bind, wp_zoom, wp_modify, wp_raise. right.
      exists TimeoutTerminal, TIMEOUT. done.
    + simpl. rewrite Ho. apply wp_ret, wp_bind, wp_zoom, wp_modify, wp_raise. right.
      eexists ConnectionTerminal, _. done.
Qed.

(** Handling decoded frames leaves the socket and the frame read ahead alone. *)
Lemma handle_all_wp P ds (r : Run S D) : P (l_pending (r_loc r.2)) ->
  wp (handle_all cfg ds) (fun _ r' => r'.1 = r.1 /\ P (l_pending (r_loc r'.2))) (fun _ _ => True) r.
Proof.
  revert r; induction ds as [|d ds IH]; intros [s t] Hp; simpl; [by apply wp_ret|].
  apply wp_bind, wp_zoom. simpl.
  eapply wp_mono; [by apply (handle_keeps cfg _ _ (pending_closed P))| |done].
  intros [] t' Hp'; simpl.
  - eapply wp_mono; [apply IH; exact Hp'|done|done].
  - by apply wp_ret.
  - apply wp_bind, wp_zoom, wp_gets. eapply wp_mono; [apply raise_reported_wp|done|done].
Qed.

Lemma on_stream_wp {A} (m : sx D exn A) s t :
  wp (on_stream (S:=S) m) (fun _ r => r.1 = s /\ r_loc r.2 = r_loc t)
    (fun _ r => r.1 = s /\ r_loc r.2 = r_loc t) (s, t).
Proof.
  unfold on_stream. apply wp_zoom, wp_err, wp_zoom. unfold wp.
  by destruct (m (r_stream _)) as [d [a|e]].
Qed.

Lemma frame_step_progress (r : Run S D) : pending_sane (l_pending (r_loc r.2)) ->
  wp (frame_step cfg)
    (fun _ r' => (undecoded r' < undecoded r)%nat /\ pending_sane (l_pending (r_loc r'.2)))
    (fun _ _ => True) r.
Proof.
  intros Hp. unfold frame_step. apply wp_bind.
  eapply wp_mono; [by apply next_frame_progress| |done].
  intros frame [s1 t1] (Hlt & Hnone). unfold header_bytes in Hlt. simpl in Hnone.
  assert (Hu : undecoded (s1, t1) = length (contents s1))
    by (unfold undecoded, pending_length; simpl; rewrite Hnone; simpl; lia).
  apply wp_bind, wp_err, wp_lift; [|done]. intros kind _.
  apply wp_bind, wp_zoom, wp_gets. cbn [fst snd]. apply wp_if; intros _.
  - apply wp_bind. eapply wp_mono; [by apply (read_ahead_progress _ _ s1 t1)| |done].
    intros ahead [s2 t2] (Hle & Hs). apply wp_bind.
    eapply wp_mono; [apply on_stream_wp| |done]. intros [ds verr] [s3 t3] [Hs3 Ht3]. simpl in *.
    apply wp_bind. eapply wp_mono.
    { apply (handle_all_wp (fun o => o = l_pending (r_loc t2))). simpl. by rewrite Ht3. }
    2: done.
    intros returned [s4 t4] [Hs4 Ht4]. simpl in *. subst s3 s4.
    assert (Hend : (undecoded (s2, t4) < undecoded r)%nat /\ pending_sane (l_pending (r_loc t4))).
    { rewrite Ht4. split; [|done]. unfold undecoded, pending_length in *. simpl in *.
      rewrite Ht4. lia. }
    apply wp_if; intros _; [by apply wp_ret|]. destruct verr; [done|].
    destruct (ah_error ahead); [done|]. by apply wp_ret.
  - apply wp_bind. eapply wp_mono; [apply on_stream_wp| |done].
    intros d [s3 t3] [Hs3 Ht3]. cbn [fst snd] in Hs3, Ht3.
    eapply wp_mono; [apply (handle_all_wp (fun o => o = None)); simpl; by rewrite Ht3| |done].
    intros returned [s4 t4] [Hs4 Ht4]. simpl in *. subst. rewrite Ht4. split; [|done].
    unfold undecoded, pending_length in *. simpl in *. rewrite Ht4. simpl. lia.
Qed.

Lemma read_loop_progress fuel (r : Run S D) : pending_sane (l_pending (r_loc r.2)) ->
  (undecoded r < fuel)%nat -> wp (read_loop cfg fuel) (fun o _ => o = Some tt) (fun _ _ => True) r.
Proof.
  revert r; induction fuel as [|fuel IH]; intros r Hp Hf; [lia|]. simpl. apply wp_bind.
  eapply wp_mono; [by apply frame_step_progress| |done].
  intros [] r' (Hlt & Hp'); [by apply wp_ret|]. apply IH; [done|lia].
Qed.

(** Every connection an attempt may establish delivers fewer bytes than the fuel. *)
Definition enough_fuel (fuel : nat) (gai : res exn (list (attempt (S:=S)))) : Prop :=
  match gai with
  | Ok attempts => Forall (fun a => match at_connect a with
      | Ok s => (length (contents s) < fuel)%nat | Raise _ => True end) attempts
  | Raise _ => True
  end.

Lemma connect_socket gai p p' s :
  _connect gai p = (p', Ok s) ->
  exists attempts a, gai = Ok attempts /\ a ∈ attempts /\ at_connect a = Ok s.
Proof.
  unfold _connect, sbind, slift. destruct gai as [attempts|e]; [|done].
  generalize (None : option exn). revert p.
  induction attempts as [|a attempts IH]; intros p last; simpl; [by destruct last|].
  unfold sbind. destruct (connect_one a p) as [p1 [[s1|]|e]] eqn:Hone; [| |done].
  - intros [= <- <-]. exists (a :: attempts), a. split_and!; [done|set_solver|].
    revert Hone. unfold connect_one. destruct (at_socket a).
    { unfold sbind. by destruct (connect_cleanup a None e p) as [? []]. }
    unfold sbind, sgets, smodify, scatch.
    destruct (try_connect a (p_created p) (create_socket p)) as [p2 [s2|e2]] eqn:Ht.
    2:{ by destruct (connect_cleanup a (Some (p_created p)) e2 p2) as [? []]. }
    intros [= _ <-]. revert Ht. unfold try_connect, sbind, raise_opt.
    destruct (at_settimeout a); [done|]. simpl.
    destruct (p_closed _); [done|]. simpl. unfold slift.
    destruct (at_connect a) as [s3|]; [|done]. destruct (p_closed _); [done|]. by intros [= _ <-].
  - intros Hr. destruct (IH p1 (attempt_error a) Hr) as (l & a' & [= <-] & Hin & Ha).
    exists (a :: attempts), a'. split_and!; [done|set_solver|done].
Qed.

(** C36: reading terminates. When each connection the pool may establish delivers fewer
    bytes than the fuel, [_read] ends by returning or raising; the loop body consumes at
    least one frame header per iteration, read-ahead included. *)
Theorem read_terminates (fuel : nat) (gai : res exn (list (attempt (S:=S)))) (p : PoolObj)
  (Hf : enough_fuel fuel gai) : t_result (_read (D:=D) cfg fuel gai p).2 <> Ok None.
Proof.
  assert (Hfin : forall p c h d r, r <> Ok None -> (finish_read cfg p c h d r).2 <> Ok None).
  { intros p0 c h d [x|e] Hr; simpl; [done|].
    by destruct (except_clauses cfg c h d e) as [[]]. }
  unfold _read. destruct (p_closed p).
  { rewrite (surjective_pairing (finish_read _ _ _ _ _ _)). by apply Hfin. }
  destruct (_connect gai p) as [p1 [s|e]] eqn:Hc.
  2:{ rewrite (surjective_pairing (finish_read _ _ _ _ _ _)). by apply Hfin. }
  apply connect_socket in Hc as (attempts & a & -> & Hin & Ha).
  simpl in Hf. rewrite Forall_forall in Hf. specialize (Hf a Hin). rewrite Ha in Hf.
  unfold read_connected. destruct (make_collator cfg) as [collator|e].
  2:{ rewrite (surjective_pairing (finish_read _ _ _ _ _ _)). by apply Hfin. }
  set (init := MkRest _ _ _ _ _).
  pose proof (read_loop_progress fuel (s, init)) as Hw. unfold wp in Hw.
  destruct (read_loop cfg fuel (s, init)) as [[s' t] r].
  rewrite (surjective_pairing (finish_read _ _ _ _ _ _)). apply Hfin.
  destruct r as [o|e]; [|done]. rewrite Hw; [done|done|].
  unfold undecoded, pending_length. simpl. lia.
Qed.
End terminates.

(** ** The run is a function of the bytes *)

Section determined.
Context {S : Type} `{ReliableSocket S}.

Lemma receive_not_os size ce fs s s' e : _receive size ce fs s = (s', Raise e) -> ~ os_error e.
Proof.
  unfold _receive. generalize size at 1. intros fuel. generalize ([] : list Z).
  revert s. induction fuel as [|fuel IH]; intros s data; simpl; (case_if; [done|]).
  - intros [= _ <-] (x & [= <-] & Hos). done.
  - unfold sbind, py, serr. pose proof (recv_total (size - length data) s) as Ht.
    destruct (recv (size - length data) s) as [s1 [chunk|x]]; [|done].
    case_if; [|apply IH]. destruct ce; intros [= _ <-] (x & Hx & Hos); [done|].
    injection Hx as <-. done.
Qed.

(** What a receive does, from the contents alone. *)
Definition receive_result (size : nat) (ce fs : bool) (bs : list Z) : res trace_error (list Z) :=
  if (size <=? length bs)%nat then Ok (take size bs) else Raise (end_error ce fs (length bs)).

Lemma receive_det size ce fs s s' r : _receive size ce fs s = (s', r) ->
  r = receive_result size ce fs (contents s) /\
  (is_ok r = true -> contents s' = drop size (contents s)).
Proof.
  intros Hr. pose proof (receive_wp size ce fs s) as Hw. unfold wp in Hw. rewrite Hr in Hw.
  unfold receive_result. destruct r as [bs|e].
  - destruct Hw as [Hl Hc]. rewrite Hc, length_app.
    rewrite take_app_length', drop_app_length' by done.
    case_if; bool_prop; [done|lia].
  - destruct Hw as (_ & [Ho|[Hlt ->]]); [by apply receive_not_os in Hr|].
    case_if; bool_prop; [lia|done].
Qed.

End determined.

Section refinement.
Context {S D : Type} `{ReliableSocket S} `{NativeDecoder D} (cfg : Config).

(** No [hello] of this decoder turns context grouping on (grouping depends on what has
    arrived, so its batches do too). *)
Definition never_groups : Prop := forall frame d d' x,
  decode frame d = (d', Ok x) -> d_kind x = 1 -> context_grouping_of (d_detail x) = false.
Hypothesis Hng : never_groups.

(** Grouping is off. *)
Definition plain (t : Rest D) : Prop := l_grouping (r_loc t) = false.

(** Two computations that agree over a socket and over its bytes, and whose value is in [V]. *)
Definition sim {A} (V : A -> Prop) (m1 : sx (Run S D) trace_error A)
    (m2 : sx (Run ideal D) trace_error A) : Prop :=
  forall s t, plain t -> exists s' t' r,
    m1 (s, t) = ((s', t'), r) /\
    match r with
    | Ok a => m2 (Ideal (contents s), t) = ((Ideal (contents s'), t'), r) /\ plain t' /\ V a
    | Raise _ => exists i', m2 (Ideal (contents s), t) = ((i', t'), r)
    end.

Notation any := (fun _ => True).

Lemma sim_ret {A} (V : A -> Prop) a : V a -> sim V (sret a) (sret a).
Proof. intros Hv s t Ht. exists s, t, (Ok a). by split_and!. Qed.

Lemma sim_raise {A} (V : A -> Prop) e : sim V (sraise e) (sraise e).
Proof. intros s t Ht. exists s, t, (Raise e). split; [done|]. by eexists. Qed.

Lemma sim_bind {A B} (V : A -> Prop) (W : B -> Prop) m1 m2 k1 k2 :
  sim V m1 m2 -> (forall a, V a -> sim W (k1 a) (k2 a)) -> sim W (sbind m1 k1) (sbind m2 k2).
Proof.
  intros Hm Hk s t Ht. destruct (Hm s t Ht) as (s1 & t1 & [a|e] & Hr1 & Hr2).
  - destruct Hr2 as (Hr2 & Ht1 & Hv). destruct (Hk a Hv s1 t1 Ht1) as (s2 & t2 & r & Hr3 & Hr4).
    exists s2, t2, r. unfold sbind. by rewrite Hr1, Hr2.
  - destruct Hr2 as [i' Hr2]. exists s1, t1, (Raise e). unfold sbind. rewrite Hr1, Hr2.
    split; [done|]. by eexists.
Qed.

Lemma sim_rest {A} (V : A -> Prop) (m : sx (Rest D) trace_error A) :
  (forall t, plain t -> wp m (fun a t' => plain t' /\ V a) (fun _ _ => True) t) ->
  sim V (on_rest m) (on_rest m).
Proof.
  intros Hm s t Ht. specialize (Hm t Ht). unfold wp in Hm. unfold on_rest, szoom. simpl.
  destruct (m t) as [t' [a|e]].
  - exists s, t', (Ok a). by destruct Hm.
  - exists s, t', (Raise e). split; [done|]. by eexists.
Qed.

Lemma sim_pure {A} (m : result A) : sim any (pure_py m) (pure_py m).
Proof.
  intros s t Ht. unfold pure_py, py, serr, slift. exists s, t.
  destruct m as [a|e]; eexists; (split; [done|]); [done|]. by eexists.
Qed.

Lemma sim_receive size ce fs : sim any (on_sock (_receive size ce fs)) (on_sock (_receive size ce fs)).
Proof.
  intros s t Ht. unfold on_sock, szoom. simpl.
  destruct (_receive size ce fs s) as [s' r] eqn:Hr.
  destruct (_receive size ce fs (Ideal (contents s))) as [i' r'] eqn:Hi.
  apply receive_det in Hr as [-> Hc].
  apply receive_det in Hi as Hd. simpl in Hd.
  destruct Hd as [-> Hd]. exists s', t, (receive_result size ce fs (contents s)).
  split; [done|]. destruct (receive_result size ce fs (contents s)); [|by eexists].
  rewrite Hc by done. rewrite <- Hd by done. by destruct i'.
Qed.
Lemma observe_plain observer frame t : plain t ->
  wp (_observe_wire_frame (D:=D) cfg observer frame) (fun _ t' => plain t' /\ True)
    (fun _ _ => True) t.
Proof.
  intros Ht. unfold _observe_wire_frame. apply wp_bind, wp_err, wp_lift; [|done].
  intros w _. apply wp_bind, wp_gets, wp_bind, wp_modify.
  destruct (observer (r_log t) w); [by apply wp_raise|by apply wp_ret].
Qed.

Lemma sim_receive_frame : sim any (_receive_frame cfg) (_receive_frame cfg).
Proof.
  unfold _receive_frame. apply (sim_bind any); [apply sim_receive|intros header _].
  apply (sim_bind any); [apply sim_pure|intros n _].
  apply (sim_bind any); [apply sim_receive|intros payload _].
  apply (sim_bind any); [|intros; by apply sim_ret].
  destruct (c_observer cfg) as [obs|]; [|by apply sim_ret].
  apply sim_rest. intros t Ht. by apply observe_plain.
Qed.

Lemma sim_gets {A} (f : Locals -> A) (V : A -> Prop) :
  (forall t, plain t -> V (f (r_loc t))) -> sim V (on_rest (gets_loc f)) (on_rest (gets_loc f)).
Proof. intros Hf. apply sim_rest. intros t Ht. apply wp_gets. split; [done|]. by apply Hf. Qed.

Lemma sim_next_frame : sim any (next_frame cfg) (next_frame cfg).
Proof.
  unfold next_frame. apply (sim_bind any); [by apply sim_gets|intros pending _].
  apply (sim_bind any).
  { destruct pending; [by apply sim_ret|apply sim_receive_frame]. }
  intros frame _. apply (sim_bind any); [|intros; by apply sim_ret].
  apply sim_rest. intros t Ht. by apply wp_modify.
Qed.

Lemma recv1_det s s' r : recv 1 s = (s', r) ->
  exists bs, r = Ok bs /\ bs = take 1 (contents s) /\ contents s' = drop 1 (contents s).
Proof.
  intros Hr. pose proof (recv_total 1 s) as Ht. rewrite Hr in Ht. destruct r as [bs|]; [|done].
  exists bs. apply recv_Ok in Hr as (Hc & Hl & He); [|lia]. split; [done|].
  destruct bs as [|b [|]]; simpl in *; [|by rewrite Hc|lia].
  rewrite <- Hc, (He eq_refl). done.
Qed.

Lemma sim_reported detail hello data start stop :
  sim any (_raise_reported_terminal cfg detail hello data start stop)
    (_raise_reported_terminal cfg detail hello data start stop).
Proof.
  unfold _raise_reported_terminal. do 3 (case_if; [apply sim_raise|]).
  intros s t Ht. unfold sbind, scatch, on_sock, szoom, py, serr. simpl.
  destruct (recv 1 s) as [s1 r] eqn:Hr. apply recv1_det in Hr as (bs & -> & Hbs & Hc).
  simpl. rewrite <- Hbs. destruct bs as [|b bs].
  - eexists s1, _, (Raise _). split; [reflexivity|]. by eexists.
  - eexists s1, _, (Raise _). split; [reflexivity|]. by eexists.
Qed.

Lemma sim_handle_all ds :
  Forall (fun d => d_kind d = 1 -> context_grouping_of (d_detail d) = false) ds ->
  sim any (handle_all cfg ds) (handle_all cfg ds).
Proof.
  induction 1 as [|d ds Hd _ IH]; simpl; [by apply sim_ret|].
  apply (sim_bind any).
  { apply sim_rest. intros t Ht.
    eapply wp_mono; [apply (handle_keeps cfg _ _ grouping_closed)|done|done]; [|done].
    intros Hk. by rewrite Hd. }
  intros [] _; [done|by apply sim_ret|].
  apply (sim_bind any); [by apply sim_gets|]. intros l _. apply sim_reported.
Qed.

Lemma sim_decode frame :
  sim (fun d => d_kind d = 1 -> context_grouping_of (d_detail d) = false)
    (on_stream (decode frame)) (on_stream (decode frame)).
Proof.
  apply sim_rest. intros t Ht. apply wp_err, wp_zoom. unfold wp.
  destruct (decode frame (r_stream t)) as [d [x|e]] eqn:Hd; [|done].
  split; [done|]. intros Hk. by eapply Hng.
Qed.

Lemma sim_frame_step : sim any (frame_step cfg) (frame_step cfg).
Proof.
  unfold frame_step. apply (sim_bind any); [apply sim_next_frame|intros frame _].
  apply (sim_bind any); [apply sim_pure|intros kind _].
  apply (sim_bind (fun b => b = false)); [by apply sim_gets|intros grouping ->].
  simpl andb. cbv iota.
  eapply sim_bind; [apply sim_decode|]. intros d Hd. apply sim_handle_all. by constructor.
Qed.

Lemma sim_read_loop fuel : sim any (read_loop cfg fuel) (read_loop cfg fuel).
Proof.
  induction fuel as [|fuel IH]; simpl; [by apply sim_ret|].
  apply (sim_bind any); [apply sim_frame_step|]. intros [] _; [by apply sim_ret|done].
Qed.
End refinement.

(** C1: the run is a function of the bytes. Over a connection that delivers its bytes in
    any chunks and pauses without failing, everything a run shows - the batches in order,
    the frames shown to the observer, the result or exception, the recorded outcome - is
    what the same code computes from the byte string alone, as long as context grouping
    stays off. *)
Theorem read_is_function_of_bytes {S D : Type} `{ReliableSocket S} `{NativeDecoder D}
  (cfg : Config) (fuel : nat) (s : S) (p : PoolObj) (Hng : never_groups (D:=D)) :
  read_connected (D:=D) cfg fuel s p = read_connected (D:=D) cfg fuel (Ideal (contents s)) p.
Proof.
  unfold read_connected. destruct (make_collator cfg) as [collator|e]; [|done].
  set (init := MkRest _ _ _ _ _).
  destruct (sim_read_loop cfg Hng fuel s init) as (s' & t' & r & Hl & Hr); [done|].
  rewrite Hl. destruct r as [o|e].
  - by destruct Hr as (-> & _).
  - by destruct Hr as [i' ->].
Qed.

(** ** Concrete runs *)

(** A decoder for the kinds whose payload Python sees as raw bytes; it accepts no worker
    that would turn context grouping on. *)
Definition plain_decode (frame : list Z) : result decoded :=
  let! h := decode_header (take header_bytes frame) in
  raise! ValueError "Trace frame length does not match its header"
    when negb (length frame =? header_bytes + Z.to_nat (payload_size h))%nat in
  raise! ValueError "Unsupported target architecture or features"
    when (h_kind h =? 1) && context_grouping_of (h_detail h) in
  Ok (MkDecoded (h_kind h) (h_source h) (h_count h) (h_sequence h) (h_detail h)
        (PBytes (drop header_bytes frame))).

#[global] Instance plain_decoder : NativeDecoder unit := {|
  new_stream := tt;
  decode frame s := (s, plain_decode frame);
  decode_context_frames frames s := (s, throw ValueError "Context group contains a non-mixed frame");
|}.

Lemma plain_never_groups : never_groups (D:=unit).
Proof.
  intros frame d d' x. simpl. intros [= _ Hx]. unfold plain_decode in Hx. inv_res Hx.
  injection Hx as <-. simpl. intros Hk. rewrite Hk in Hg0. done.
Qed.

(** A complete trace: hello, one block batch, the end of its source, success. *)
Definition example_trace : list Z :=
  encode_header (MkHeader 1 0 0 0 1 3) ++
  encode_header blocks_header ++ blocks_payload ++
  encode_header (MkHeader 3 1 0 6 0 3) ++
  encode_header (MkHeader 4 0 0 0 0 3).

Definition chunked {F} (bs : list Z) (n : nat) : script F :=
  Script [Wait; Chunk (hd 0 bs) (slice 1 n bs); Wait; Chunk (nth (S n) bs 0) (drop (S (S n)) bs)].

(** Two addresses: the first refuses, the second delivers the trace. *)
Definition example_attempts (F : Type) : res exn (list (attempt (S:=script F))) :=
  Ok [MkAttempt None None (Raise (Exn OSError "refused")) false false false;
      MkAttempt None None (Ok (chunked example_trace 50)) false false false].

Lemma read_closes_every_socket_witness :
  pool_idle new_pool /\
  all_shut (_read (D:=unit) example_config 10 (example_attempts failure) new_pool).1 /\
  p_shut (_read (D:=unit) example_config 10 (example_attempts failure) new_pool).1 = [0; 1]%nat.
Proof.
  assert (Hi : pool_idle new_pool) by (split; [intros i Hi; simpl in Hi; lia|reflexivity]).
  split; [exact Hi|split].
  - apply (read_closes_every_socket example_config 10 (example_attempts failure) new_pool Hi).
  - vm_compute. reflexivity.
Defined.

Lemma read_terminates_witness :
  t_result (_read (D:=unit) example_config 200 (example_attempts failure) new_pool).2 <> Ok None.
Proof.
  apply (read_terminates example_config 200 (example_attempts failure) new_pool).
  constructor; [exact I|constructor; [vm_compute; lia|constructor]].
Defined.

Lemma read_is_function_of_bytes_witness :
  exists tr, read_connected (D:=unit) example_config 10
      (chunked (F:=Empty_set) example_trace 7) new_pool =
    read_connected (D:=unit) example_config 10 (Ideal example_trace) new_pool /\
  tr = (read_connected (D:=unit) example_config 10 (Ideal example_trace) new_pool).2 /\
  addresses <$> t_batches tr = [Tensor int64 cpu [1%nat] [0x401000]] /\
  t_result tr = Ok (Some tt).
Proof.
  pose proof (read_is_function_of_bytes (S:=script Empty_set) example_config 10
    (chunked example_trace 7) new_pool plain_never_groups) as Hf.
  assert (Hc : contents (chunked (F:=Empty_set) example_trace 7) = example_trace)
    by (vm_compute; reflexivity).
  rewrite Hc in Hf. eexists. split_and!.
  - exact Hf.
  - reflexivity.
  - vm_compute. reflexivity.
  - vm_compute. reflexivity.
Defined.
