(* ===== verification/PoolOutcome.v ===== *)
(** * Outcomes and summaries agree with how a run ended ([pool.py]: [_read])

    The outcome a pool records, the exception its generator raises and the
    observation summaries it publishes are consistent: summaries only after a
    successful [Complete] frame, terminal errors carry the recorded outcome,
    transport errors never escape unclassified. *)

From S2P Require Import Prelude Monad Batch Device Batching Wire Terminal PoolBatch Pool.
From S2P Require Import PoolReceive PoolRead.

(** ** Batches without a summary *)

Definition no_summary (b : Batch) : Prop := observation_summary b = None.

Lemma merge_no_summary bs b : merge_batches bs = Ok b -> Forall no_summary bs -> no_summary b.
Proof.
  unfold merge_batches. destruct bs as [|first rest]; [done|]. intros Hm [Hf _]%Forall_cons.
  inv_res Hm. by injection Hm as <-.
Qed.

Lemma to_device_summary b d b' :
  to_device b d = Ok b' -> observation_summary b' = observation_summary b.
Proof.
  unfold to_device. case_decide; [by intros [= <-]|]. case_if; intros Hd; inv_res Hd.
  - by injection Hd as <-.
  - destruct v as [ps total]. inv_res Hd. destruct v0 as [changes tables]. by injection Hd as <-.
Qed.

Definition not_os (e : exn) : Prop := isinstance_exc (exn_class e) OSError = false.

Lemma rfold_Raise {E T A} (f : T -> A -> res E T) (P : E -> Prop) l s e :
  (forall s a e, f s a = Raise e -> P e) -> rfold f s l = Raise e -> P e.
Proof.
  intros Hf. revert s; induction l as [|a l IH]; intros s; simpl; [done|].
  destruct (f s a) eqn:Ha; simpl; [apply IH|]. intros [= <-]. by eapply Hf.
Qed.

Lemma pack_columns_not_os cols total e : pack_columns cols total = Raise e -> not_os e.
Proof.
  revert total; induction cols as [|c cols IH]; intros total; simpl; [done|].
  case_if; [by intros [= <-]|]. set (size := (_ * _)%nat). set (off := align_up _ _).
  destruct (pack_columns cols (off + size)) as [[]|x] eqn:Hp; simpl; [done|].
  intros [= <-]. by eapply IH.
Qed.

Lemma to_device_not_os b d e : to_device b d = Raise e -> not_os e.
Proof.
  unfold to_device. case_decide; [done|]. case_if.
  { case_if; [by intros [= <-]|done]. }
  destruct (pack_columns (batch_columns b) 0) as [[ps total]|x] eqn:Hp; simpl.
  2:{ intros [= <-]. by eapply pack_columns_not_os. }
  destruct (stage_all ps (replicate total 0)) as [buf|x] eqn:Hs; simpl.
  2:{ intros [= <-]. unfold stage_all in Hs. eapply rfold_Raise; [|exact Hs].
      intros s a e'. unfold stage. by case_if; intros [= <-]. }
  destruct (collect_values d buf ps) as [[ch ta]|x] eqn:Hc; simpl; [done|].
  intros [= <-]. unfold collect_values in Hc. eapply rfold_Raise; [|exact Hc].
  intros s a e'. simpl. unfold read_view. repeat (case_if; simpl; try (by intros [= <-])); done.
Qed.

Lemma batch_no_summary dev kind src count seq p names reduced b :
  _batch dev kind src count seq p names reduced = Ok b -> kind <> _OBSERVATION_SUMMARY ->
  no_summary b.
Proof.
  unfold _batch. intros Hb Hk. inv_res Hb. unfold no_summary.
  rewrite (to_device_summary _ _ _ Hb). clear Hb. rename Hv into Hb. unfold build_batch in Hb.
  repeat match type of Hb with
  | (if kind =? ?k then _ else _) = _ => destruct (kind =? k) eqn:?
  end; bool_prop; try done; try (destruct p; try discriminate Hb); cbn [as_bytes as_columns rbind] in Hb;
  inv_res Hb; try (by injection Hb as <-).
  - destruct reduced; inv_res Hb; by injection Hb as <-.
  - unfold mixed_batch in Hb. inv_res Hb. by injection Hb as <-.
Qed.

(** Connecting does not touch the recorded outcome. *)
Lemma connect_outcome {S} gai p : p_outcome (_connect (S:=S) gai p).1 = p_outcome p.
Proof.
  assert (Hk : forall o, keeps (fun p => p_outcome p = o) (_connect (S:=S) gai)).
  { intros o. unfold _connect. apply keeps_bind; [apply keeps_lift|]. intros addresses.
    generalize (None : option exn).
    assert (Hclose : forall b p, p_outcome p = o -> p_outcome (maybe_close b p) = o) by by intros [].
    assert (Hclean : forall a i e, keeps (fun p => p_outcome p = o) (connect_cleanup (S:=S) a i e)).
    { intros. unfold connect_cleanup. eauto 20 with keeps. }
    induction addresses as [|a addresses IH]; intros last; simpl; [destruct last; eauto with keeps|].
    apply keeps_bind; [|intros []; eauto with keeps]. unfold connect_one.
    destruct (at_socket a); [eauto with keeps|].
    apply keeps_bind; [eauto with keeps|intros i]. apply keeps_bind; [eauto with keeps|intros _].
    intros p1 Hp1. apply wp_catch. unfold try_connect, raise_opt.
    eapply wp_mono.
    - apply (keeps_bind (fun p => p_outcome p = o)); [|eauto with keeps| exact Hp1].
      eauto 40 with keeps.
    - done.
    - intros e p2 Hp2. apply (keeps_bind (fun p => p_outcome p = o)); eauto with keeps. }
  pose proof (Hk (p_outcome p) p eq_refl) as Hw. unfold wp in Hw.
  by destruct (_connect gai p) as [p' [s|e]].
Qed.

(** ** The state of a run between frames *)

Section outcome.
Context {S D : Type} `{SocketLaws S} `{NativeDecoder D} (cfg : Config).
Implicit Types (t : Rest D).

(** No summary has been yielded or queued, and the recorded outcome is [o]. *)
Definition unpublished (o : option TerminalOutcome) t : Prop :=
  Forall no_summary (r_out t) /\
  from_option (all_queued no_summary) True (l_collator (r_loc t)) /\ r_outcome t = o.

(** The run completed and recorded it. *)
Definition completed t : Prop :=
  exists o, r_outcome t = Some o /\ o_reason o = COMPLETE /\ o_complete o = true.

(** An exception of Python code, or an abandoned [yield]. *)
Definition soft (e : trace_error) : Prop :=
  match e with PyError _ | GeneratorExit => True | _ => False end.
Definition soft_not_os (e : trace_error) : Prop :=
  match e with PyError x => not_os x | GeneratorExit => True | _ => False end.

(** A terminal error that carries the recorded outcome of an unsuccessful run. *)
Definition failed (e : trace_error) t : Prop :=
  exists c m o, e = Terminal c m o /\ unpublished (Some o) t /\ o_reason o <> COMPLETE.

(** How a run may raise. *)
Definition raised (e : trace_error) t : Prop :=
  (soft_not_os e /\ completed t) \/
  ((soft e \/ exists b, e = CleanEnd b) /\ unpublished None t) \/ failed e t.

Lemma yield_wp b o t : no_summary b -> unpublished o t ->
  wp (yield_ cfg b) (fun _ => unpublished o) (fun e t' => soft e /\ unpublished o t') t.
Proof.
  intros Hb (Hout & Hq & Ho). unfold yield_. apply wp_bind, wp_modify, wp_bind, wp_gets.
  assert (Hu : unpublished o (add_out b t))
    by (split_and!; [simpl; apply Forall_app; auto|done|done]).
  apply wp_if; intros _; [by apply wp_raise|by apply wp_ret].
Qed.

Lemma pure_py_wp {A} (m : result A) (Q : A -> Rest D -> Prop) R t :
  (forall a, m = Ok a -> Q a t) -> (forall e, m = Raise e -> R (PyError e) t) ->
  wp (pure_py m) Q R t.
Proof. intros Ha He. apply wp_err, wp_lift; [done|]. intros e Hm. by apply He. Qed.

Lemma yield_on_device_wp b o t : no_summary b -> unpublished o t ->
  wp (yield_on_device cfg b) (fun _ => unpublished o) (fun e t' => soft e /\ unpublished o t') t.
Proof.
  intros Hb Hu. apply wp_bind, pure_py_wp; [|done]. intros b' Hd. apply yield_wp; [|done].
  unfold no_summary. by rewrite (to_device_summary _ _ _ Hd).
Qed.

Lemma yield_if_moved_wp b o t : no_summary b -> unpublished o t ->
  wp (yield_if_moved cfg b) (fun _ => unpublished o) (fun e t' => soft e /\ unpublished o t') t.
Proof.
  intros Hb Hu. apply wp_bind. apply wp_if; intros _; [apply wp_ret; by apply yield_wp|].
  apply pure_py_wp; [|done]. intros b' Hd. apply yield_wp; [|done].
  unfold no_summary. by rewrite (to_device_summary _ _ _ Hd).
Qed.

Lemma yield_each_wp bs o t : Forall no_summary bs -> unpublished o t ->
  wp (seach (yield_on_device cfg) bs) (fun _ => unpublished o)
    (fun e t' => soft e /\ unpublished o t') t.
Proof.
  intros Hbs Hu. apply wp_each; [|done]. intros b t' Hin Ht'. apply yield_on_device_wp; [|done].
  rewrite Forall_forall in Hbs. by apply Hbs.
Qed.

Lemma collate_wp op c o t :
  emits no_summary (Forall no_summary) (op c) -> unpublished o t ->
  wp (collate op c) (fun bs t' => Forall no_summary bs /\ unpublished o t')
    (fun e t' => soft e /\ unpublished o t') t.
Proof.
  intros [Hq Hr] (Hout & _ & Ho). unfold collate. destruct (op c) as [c' r]. simpl in *.
  apply wp_bind, wp_modify.
  assert (Hu : unpublished o (set_loc (set_collator c' (r_loc t)) t)) by by split_and!.
  apply pure_py_wp; intros; (split; [|done]); [by apply Hr|done].
Qed.

(** The collator in the locals of an unpublished run. *)
Lemma unpublished_collator o t c :
  unpublished o t -> l_collator (r_loc t) = Some c -> all_queued no_summary c.
Proof. intros (_ & Hq & _) Hc. by rewrite Hc in Hq. Qed.

Lemma handle_data_wp d t : unpublished None t ->
  wp (handle_data cfg d) (fun _ => unpublished None)
    (fun e t' => soft e /\ unpublished None t') t.
Proof.
  intros Hu. unfold handle_data. apply wp_bind, wp_gets, wp_bind, wp_gets, wp_bind, pure_py_wp;
    [|done]. intros b Hb. apply wp_if; intros Hk.
  - apply wp_modify. destruct Hu as (? & ? & ?). by split_and!.
  - bool_prop. pose proof (batch_no_summary _ _ _ _ _ _ _ _ _ Hb Hk) as Hns.
    apply wp_if; intros _; [by apply yield_if_moved_wp|]. apply wp_bind, wp_gets.
    destruct (l_collator (r_loc t)) as [c|] eqn:Hc; [|by apply yield_wp].
    pose proof (unpublished_collator _ _ _ Hu Hc) as Hq.
    apply wp_bind. eapply wp_mono; [apply (collate_wp _ _ None)| |done].
    + by apply (add_all _ merge_no_summary).
    + done.
    + intros bs t' [Hbs Hu']. by apply yield_each_wp.
Qed.

(** Publishing the summaries keeps the recorded outcome. *)
Lemma publish_wp bs t : completed t ->
  wp (seach (yield_if_moved cfg) bs) (fun _ => completed)
    (fun e t' => soft_not_os e /\ completed t') t.
Proof.
  intros Hc. apply wp_each; [|done]. intros b t' _ Ht'. apply wp_bind.
  assert (Hy : forall b, wp (yield_ cfg b) (fun _ => completed)
                 (fun e t' => soft_not_os e /\ completed t') t').
  { intros b'. unfold yield_. apply wp_bind, wp_modify, wp_bind, wp_gets.
    apply wp_if; intros _; by (apply wp_raise || apply wp_ret). }
  apply wp_if; intros _; [by apply wp_ret|]. apply pure_py_wp; [by intros; apply Hy|].
  intros e He. split; [|done]. by eapply to_device_not_os.
Qed.

Lemma handle_complete_wp detail t : unpublished None t ->
  wp (handle_complete cfg detail) (fun _ => completed) raised t.
Proof.
  intros Hu. unfold handle_complete. apply wp_bind, wp_gets, wp_bind.
  assert (Hfin : forall t', unpublished None t' ->
    wp (do! l := gets_loc id in
        let outcome := _make_outcome cfg (if detail =? 0 then COMPLETE else TARGET_EXIT)
          (l_hello l) (l_data l) None None (_completed_boundary (l_start l))
          (_completed_boundary (l_stop l)) NOT_OBSERVED true in
        run! smodify (set_outcome outcome) in
        if negb (detail =? 0) then
          sraise (Terminal PlainTerminal ("Target exited with code " +:+ pretty detail) outcome)
        else seach (yield_if_moved cfg) (l_summaries l)) (fun _ => completed) raised t').
  { intros t' (Hout & Hq & Ho). apply wp_bind, wp_gets, wp_bind, wp_modify.
    destruct (detail =? 0); simpl.
    - eapply wp_mono; [apply publish_wp; by eexists|done|]. intros e t'' Hr. by left.
    - apply wp_raise. right; right. eexists _, _, _. split; [done|]. by split_and!. }
  destruct (l_collator (r_loc t)) as [c|] eqn:Hc; [|by apply wp_ret, Hfin].
  apply wp_bind. eapply wp_mono; [apply (collate_wp _ _ None)| |].
  - apply (finish_all _ merge_no_summary). by eapply unpublished_collator.
  - done.
  - intros bs t' [Hbs Hu']. eapply wp_mono; [by apply (yield_each_wp _ None)| |].
    + intros [] t''. apply Hfin.
    + intros e t'' [? ?]. right; left. auto.
  - intros e t' [? ?]. right; left. auto.
Qed.

Lemma handle_error_wp detail t : unpublished None t ->
  wp (handle_error cfg detail) (fun _ => completed) raised t.
Proof.
  intros (Hout & Hq & Ho). unfold handle_error. apply wp_bind, wp_gets, wp_bind, pure_py_wp.
  - intros [msg reason] Hr. apply wp_bind, wp_modify, wp_raise. right; right.
    eexists _, _, _. split; [done|]. split; [by split_and!|]. simpl.
    destruct (od_get detail _FAILURES) as [f|] eqn:Hf; [|done]. simplify_eq/=.
    by repeat (case_decide; [by simplify_eq|]).
  - intros e _. right; left. split; [by left|done].
Qed.

Lemma handle_wp d t : unpublished None t ->
  wp (handle cfg d)
    (fun c t' => match c with Return => completed t' | _ => unpublished None t' end) raised t.
Proof.
  intros Hu. unfold handle. apply wp_bind, wp_modify.
  set (t1 := set_loc _ t). assert (Hu1 : unpublished None t1).
  { destruct Hu as (Hout & Hq & Ho). split_and!; [done| |done].
    unfold t1, note_frame. simpl. by repeat case_if. }
  clearbody t1. clear t Hu. rename t1 into t, Hu1 into Hu.
  assert (Hsoft : forall e t', soft e /\ unpublished None t' -> raised e t').
  { intros e t' [? ?]. right; left. auto. }
  apply wp_if; intros _; [by apply wp_raise, Hsoft|].
  apply wp_if; intros _; [by apply wp_raise, Hsoft|]. apply wp_if; intros _.
  { apply wp_bind, pure_py_wp; [|intros; by apply Hsoft]. intros u _.
    apply wp_bind, wp_modify, wp_ret. destruct Hu as (? & ? & ?). by split_and!. }
  apply wp_if; intros _.
  { apply wp_bind. eapply wp_mono; [by apply handle_data_wp| |exact Hsoft].
    intros [] t' Hu'. by apply wp_ret. }
  apply wp_bind, wp_gets, wp_bind.
  assert (Hrest : forall t', unpublished None t' -> wp
    (if d_kind d =? _COMPLETE then run! handle_complete cfg (d_detail d) in sret Return
     else if d_kind d =? _ERROR then run! handle_error cfg (d_detail d) in sret Return
     else if d_kind d =? _TERMINAL_REPORT then sret (Report (d_detail d)) else sret Continue)
    (fun c t' => match c with Return => completed t' | _ => unpublished None t' end) raised t').
  { intros t' Hu'. apply wp_if; intros _.
    { apply wp_bind. eapply wp_mono; [by apply handle_complete_wp| |done].
      intros [] t'' Hc. by apply wp_ret. }
    apply wp_if; intros _.
    { apply wp_bind. eapply wp_mono; [by apply handle_error_wp| |done].
      intros [] t'' Hc. by apply wp_ret. }
    apply wp_if; intros _; by apply wp_ret. }
  destruct (l_collator (r_loc t)) as [c|] eqn:Hc; [|by apply wp_ret, Hrest].
  apply wp_if; intros _; [|by apply wp_ret, Hrest].
  apply wp_bind. eapply wp_mono; [apply (collate_wp _ _ None)| |exact Hsoft].
  - apply (end_source_all _ merge_no_summary). by eapply unpublished_collator.
  - done.
  - intros bs t' [Hbs Hu']. apply wp_bind. eapply wp_mono; [by apply (yield_each_wp _ None)| |exact Hsoft].
    intros [] t'' Hu''. by apply wp_ret, wp_ret.
Qed.
(** What the socket side of a run can raise. *)
Definition transport_error (e : trace_error) : Prop := soft e \/ exists b, e = CleanEnd b.

Definition quiet (m_raises : trace_error -> Prop) (e : trace_error) (r : Run S D) : Prop :=
  m_raises e /\ unpublished None r.2.

Lemma unpublished_observe o h frame t : unpublished o t -> unpublished o (observe_rest cfg h frame t).
Proof. unfold observe_rest. destruct (c_observer cfg); [|done]. intros (? & ? & ?). by split_and!. Qed.

Lemma receive_frame_quiet (r : Run S D) : unpublished None r.2 ->
  wp (_receive_frame cfg) (fun _ r' => unpublished None r'.2) (quiet transport_error) r.
Proof.
  destruct r as [s t]. intros Hu. eapply wp_mono; [apply receive_frame_wp| |].
  - intros frame r' (h & _ & -> & _). by apply unpublished_observe.
  - intros e r' (_ & Hcase). unfold quiet.
    destruct Hcase as [(-> & He)|(h & frame & x & _ & -> & _ & ->)].
    + split; [|done]. destruct He as [(x & -> & _)|[[_ ->]|[(x & _ & ->)|(h & _ & _ & ->)]]];
        unfold transport_error; simpl; eauto.
    + split; [by left|]. by apply unpublished_observe.
Qed.

Lemma ready_quiet (s : S) :
  wp _complete_frame_is_ready (fun _ _ => True) (fun e _ => soft e) s.
Proof.
  unfold _complete_frame_is_ready. apply wp_bind, wp_err. unfold wp at 1.
  destruct (readable s) as [s1 [ready|e]]; [|done]. apply wp_if; intros _; [by apply wp_ret|].
  apply wp_bind, wp_err. unfold wp at 1. destruct (peek _HEADER_BYTES s1) as [s2 [h|e]]; [|done].
  apply wp_if; intros _; [by apply wp_ret|]. apply wp_bind, wp_err, wp_lift; [|done].
  intros n _. apply wp_bind, wp_err. unfold wp at 1.
  by destruct (peek (_HEADER_BYTES + n) s2) as [s3 [seen|e]].
Qed.

Lemma read_ahead_quiet fuel frames (r : Run S D) : unpublished None r.2 ->
  wp (read_ahead cfg fuel frames)
    (fun a r' => unpublished None r'.2 /\ from_option transport_error True (ah_error a))
    (quiet transport_error) r.
Proof.
  revert frames r; induction fuel as [|fuel IH]; intros frames [s t] Hu; simpl; [by apply wp_ret|].
  assert (Hcatch : forall e (r' : Run S D), quiet transport_error e r' ->
    wp (if deferrable e then sret (A:=trace_error + option (list Z)) (inl e) else sraise e)
      (fun next r'' => unpublished None r''.2 /\ exists e, next = inl e /\ transport_error e)
      (quiet transport_error) r').
  { intros e r' [He Hr]. apply wp_if; intros _; [|by apply wp_raise]. apply wp_ret. eauto. }
  apply wp_bind, wp_catch, wp_bind, wp_zoom. simpl. eapply wp_mono; [apply ready_quiet| |].
  - intros ready s1 _. apply wp_if; intros _; [|by apply wp_ret, wp_ret].
    apply wp_bind. eapply wp_mono; [by apply receive_frame_quiet| |].
    + intros f [s2 t2] Hu2. simpl in Hu2. apply wp_ret, wp_bind, wp_err, wp_lift.
      * intros k _. apply wp_if; intros _; [|by apply IH].
        apply wp_bind, wp_zoom, wp_modify, wp_ret. simpl. split; [|done].
        destruct Hu2 as (? & ? & ?). by split_and!.
      * intros e _. split; [by left|done].
    + intros e r' Hq. eapply wp_mono; [by apply Hcatch| |done].
      intros next r'' (Hr & e' & -> & He'). by apply wp_ret.
  - intros e s1 He. eapply wp_mono; [apply Hcatch; by split; [left|]| |done].
    intros next r'' (Hr & e' & -> & He'). by apply wp_ret.
Qed.

Lemma handle_all_outcome ds (r : Run S D) : unpublished None r.2 ->
  wp (handle_all cfg ds)
    (fun b r' => if b then completed r'.2 else unpublished None r'.2)
    (fun e r' => raised e r'.2) r.
Proof.
  revert r; induction ds as [|d ds IH]; intros [s t] Hu; simpl; [by apply wp_ret|].
  apply wp_bind, wp_zoom. simpl. eapply wp_mono; [by apply handle_wp| |done].
  intros [] t' Hc; [by apply IH|by apply wp_ret|].
  apply wp_bind, wp_zoom, wp_gets. eapply wp_mono; [apply raise_reported_wp|done|].
  intros e r' [(-> & m & ->)|(c & tr & -> & ->)].
  - right; left. split; [by left|done].
  - right; right. eexists _, _, _. split; [done|]. destruct Hc as (? & ? & ?). by split_and!.
Qed.

Lemma quiet_raised e (r : Run S D) : quiet transport_error e r -> raised e r.2.
Proof. intros [He Hr]. right; left. by split. Qed.

Lemma on_stream_quiet {A} (m : sx D exn A) (r : Run S D) : unpublished None r.2 ->
  wp (on_stream (S:=S) m) (fun _ r' => unpublished None r'.2) (quiet transport_error) r.
Proof.
  intros (? & ? & ?). unfold on_stream. apply wp_zoom, wp_err, wp_zoom. unfold wp, quiet, transport_error.
  destruct (m (r_stream r.2)) as [d [a|e]]; simpl; [by split_and!|]. split; [by left|by split_and!].
Qed.

Lemma frame_step_outcome (r : Run S D) : unpublished None r.2 ->
  wp (frame_step cfg)
    (fun b r' => if b then completed r'.2 else unpublished None r'.2)
    (fun e r' => raised e r'.2) r.
Proof.
  intros Hu. unfold frame_step, next_frame. apply wp_bind, wp_bind, wp_zoom, wp_gets, wp_bind.
  rewrite <- surjective_pairing.
  eapply (wp_mono _ (fun _ r' => unpublished None r'.2) _ (quiet transport_error)).
  { destruct (l_pending (r_loc r.2)); [by apply wp_ret|by apply receive_frame_quiet]. }
  2: apply quiet_raised.
  intros frame [s1 t1] Hu1. apply wp_bind, wp_zoom, wp_modify, wp_ret. cbn [fst snd] in *.
  set (t2 := set_loc _ t1). assert (Hu2 : unpublished None t2) by (destruct Hu1 as (? & ? & ?); by split_and!).
  clearbody t2. apply wp_bind, wp_err, wp_lift.
  2:{ intros e _. right; left. split; [by left|done]. }
  intros kind _. apply wp_bind, wp_zoom, wp_gets. cbn [fst snd]. apply wp_if; intros _.
  - apply wp_bind. eapply wp_mono; [by apply read_ahead_quiet| |intros; by apply quiet_raised].
    intros ahead r3 [Hu3 Ha]. apply wp_bind.
    eapply wp_mono; [by apply on_stream_quiet| |intros; by apply quiet_raised].
    intros [ds verr] r4 Hu4. apply wp_bind. eapply wp_mono; [by apply handle_all_outcome| |done].
    intros [] r5 Hu5; [by apply wp_ret|]. destruct verr as [msg|].
    { apply wp_raise. right; left. split; [by left|done]. }
    destruct (ah_error ahead) as [e|]; [|by apply wp_ret]. apply wp_raise. right; left. by split.
  - apply wp_bind. eapply wp_mono; [by apply on_stream_quiet| |intros; by apply quiet_raised].
    intros d r3 Hu3. by apply handle_all_outcome.
Qed.

Lemma read_loop_outcome fuel (r : Run S D) : unpublished None r.2 ->
  wp (read_loop cfg fuel) (fun o r' => o = Some tt -> completed r'.2)
    (fun e r' => raised e r'.2) r.
Proof.
  revert r; induction fuel as [|fuel IH]; intros r Hu; simpl; [by apply wp_ret|].
  apply wp_bind. eapply wp_mono; [by apply frame_step_outcome| |done].
  intros [] r' Hr; [by apply wp_ret|by apply IH].
Qed.

(** An exception no clause of [_read] handles: not an [OSError], or (raised by an observer)
    already one of the package's terminal errors. *)
Definition unclassified (e : exn) : Prop :=
  not_os e \/ isinstance_exc (exn_class e) TraceTerminalError = true.

(** What a finished run shows, by its result. *)
Definition consistent (p : PoolObj) (tr : Trace) : Prop :=
  let published := exists o, p_outcome p = Some o /\ o_reason o = COMPLETE /\ o_complete o = true in
  let hidden := Forall no_summary (t_batches tr) in
  match t_result tr with
  | Ok None => True
  | Ok (Some _) => published
  | Raise (Terminal c m o) => p_outcome p = Some o /\ o_reason o <> COMPLETE /\ hidden
  | Raise (PyError e) => unclassified e /\ (published \/ p_outcome p = None /\ hidden)
  | Raise GeneratorExit => published \/ p_outcome p = None /\ hidden
  | Raise (CleanEnd _) => False
  end.

Lemma terminal_is_terminal c m o : is_instance (Terminal c m o) TraceTerminalError = true.
Proof. by destruct c. Qed.

Lemma timeout_is_os c : isinstance_exc c TimeoutError = true -> isinstance_exc c OSError = true.
Proof. by destruct c. Qed.

Lemma except_clauses_cases connected h d e o e' :
  except_clauses cfg connected h d e = (o, e') ->
  (o = None /\ e' = e /\ (forall b, e <> CleanEnd b) /\ (forall x, e = PyError x -> unclassified x)) \/
  (exists c m x, o = Some x /\ e' = Terminal c m x /\ o_reason x <> COMPLETE /\
     ((exists b, e = CleanEnd b) \/
      exists x, e = PyError x /\ isinstance_exc (exn_class x) OSError = true)).
Proof.
  unfold except_clauses. destruct e as [x|b|c m x|].
  - simpl. case_if.
    { intros [= <- <-]. left. split_and!; try done. intros y [= <-]. by right. }
    case_if.
    { intros [= <- <-]. right. eexists _, _, _. split_and!; try done. right. exists x.
      split; [done|]. by apply timeout_is_os. }
    case_if; intros [= <- <-].
    + right. eexists _, _, _. split_and!; try done; [by destruct connected|]. right. eauto.
    + left. split_and!; try done. intros y [= <-]. by left.
  - intros [= <- <-]. right. eexists _, _, _. split_and!; try done; [by destruct b|]. left. eauto.
  - rewrite terminal_is_terminal. intros [= <- <-]. left. by split_and!.
  - intros [= <- <-]. left. by split_and!.
Qed.

Lemma finish_read_consistent p connected h d r out log :
  match r with
  | Ok None => True
  | Ok (Some _) => exists o, p_outcome p = Some o /\ o_reason o = COMPLETE /\ o_complete o = true
  | Raise e => exists t, p_outcome p = r_outcome t /\ out = r_out t /\ raised e t
  end ->
  let '(p', r') := finish_read cfg p connected h d r in consistent p' (MkTrace out log r').
Proof.
  unfold finish_read, consistent. destruct r as [[]|e]; [done|done|].
  intros (t & Hp & -> & Hr).
  destruct (except_clauses cfg connected h d e) as [o e'] eqn:He. simpl.
  apply except_clauses_cases in He
    as [(-> & -> & Hnc & Hcls)|(c & m & x & -> & -> & Hx & Hcl)].
  - destruct Hr as [[Hs (o & Ho & Hre)]|[[Hs (Hout & _ & Ho)]|(c & m & o & -> & (Hout & _ & Ho) & Hre)]].
    + destruct e as [x|b|c m x|]; try done; simpl in Hs; simpl; rewrite Hp; eauto 10.
    + destruct Hs as [Hs|[b ->]]; [|by destruct (Hnc b)].
      destruct e as [x|b|c m x|]; try done; simpl; rewrite Hp, Ho; auto.
    + simpl. by rewrite Hp.
  - simpl. split_and!; [done|done|].
    destruct Hr as [[Hs Hd]|[[_ (Hout & _)]|(c' & m' & o & -> & (Hout & _) & _)]]; [|done|done].
    destruct Hcl as [[b ->]|(y & -> & Hy)]; [done|]. simpl in Hs. unfold not_os in Hs. congruence.
Qed.

(** C2: outcome, exception and summaries agree. For a run of a fresh pool: returning means
    the recorded outcome is [COMPLETE]; a terminal error carries exactly the recorded
    outcome, whose reason is not [COMPLETE]; the private end-of-stream signal and socket
    errors never escape (they become terminal errors); any other exception leaves the
    outcome unset unless the trace had already completed; and no observation summary is
    ever yielded by a run that did not complete. *)
Theorem read_outcome_consistent (fuel : nat) (gai : res exn (list (attempt (S:=S))))
  (p : PoolObj) (Hp : p_outcome p = None) :
  let '(p', tr) := _read (D:=D) cfg fuel gai p in consistent p' tr.
Proof.
  assert (Hearly : forall p1 c e, p_outcome p1 = None -> let '(p', r) :=
    finish_read cfg p1 c false false (Raise (PyError e)) in consistent p' (MkTrace [] [] r)).
  { intros p1 c e Hp1. apply finish_read_consistent.
    exists (MkRest new_stream [] [] None (new_locals None)). split_and!; [done|done|].
    right; left. split; [by left|]. by split_and!. }
  unfold _read. destruct (p_closed p).
  { pose proof (Hearly p false (Exn RuntimeError "Pool was closed before reading started") Hp) as Hf. by destruct (finish_read _ _ _ _ _ _). }
  assert (Hpc : p_outcome (_connect gai p).1 = None) by (by rewrite connect_outcome).
  destruct (_connect gai p) as [p1 [s|e]]; simpl in Hpc.
  2:{ pose proof (Hearly p1 false e Hpc) as Hf. by destruct (finish_read _ _ _ _ _ _). }
  unfold read_connected. destruct (make_collator cfg) as [collator|e] eqn:Hc.
  2:{ pose proof (Hearly p1 true e Hpc) as Hf. by destruct (finish_read _ _ _ _ _ _). }
  set (init := MkRest _ _ _ _ _).
  assert (Hu : unpublished None init).
  { split_and!; [constructor| |done]. simpl. unfold make_collator in Hc.
    case_if; [by injection Hc as <-|]. inv_res Hc. injection Hc as <-. unfold new_collator in Hv.
    inv_res Hv. injection Hv as <-. constructor. }
  pose proof (read_loop_outcome fuel (s, init) Hu) as Hw. unfold wp in Hw.
  destruct (read_loop cfg fuel (s, init)) as [[s' t] r]. simpl in Hw.
  pose proof (finish_read_consistent (set_pool_outcome (r_outcome t) p1) true (l_hello (r_loc t))
    (l_data (r_loc t)) r (r_out t) (r_log t)) as Hf.
  destruct (finish_read _ _ _ _ _ _) as [p' r']. apply Hf.
  destruct r as [[[]|]|e]; [by apply Hw|done|]. by exists t.
Qed.
End outcome.

(** ** Deadline reports *)

Section report.
Context {S D : Type} `{SocketLaws S} (cfg : Config).

(** A report agrees with what this reader received. *)
Definition report_agrees (detail : Z) (hello data : bool) (start stop : option bool) : Prop :=
  let flags := Z.land (Z.shiftr detail 16) 255 in
  Z.land detail 255 = _TERMINAL_REPORT_VERSION /\ Z.land (Z.shiftr detail 8) 255 = 1 /\
  hello = has flags _TERMINAL_HELLO /\ data = has flags _TERMINAL_DATA /\
  (hello = true -> start = Some (has flags _TERMINAL_START_CONFIGURED) /\
                   stop = Some (has flags _TERMINAL_STOP_CONFIGURED)).

Definition report_agrees_b (detail : Z) (hello data : bool) (start stop : option bool) : bool :=
  let flags := Z.land (Z.shiftr detail 16) 255 in
  (Z.land detail 255 =? _TERMINAL_REPORT_VERSION) && (Z.land (Z.shiftr detail 8) 255 =? 1) &&
  eqb hello (has flags _TERMINAL_HELLO) && eqb data (has flags _TERMINAL_DATA) &&
  (negb hello ||
   (bool_decide (start = Some (has flags _TERMINAL_START_CONFIGURED)) &&
    bool_decide (stop = Some (has flags _TERMINAL_STOP_CONFIGURED)))).

Lemma report_agrees_spec detail hello data start stop :
  report_agrees_b detail hello data start stop = true <->
  report_agrees detail hello data start stop.
Proof.
  unfold report_agrees_b, report_agrees. rewrite !andb_true_iff, !Z.eqb_eq, !eqb_true_iff.
  rewrite orb_true_iff, andb_true_iff, !bool_decide_eq_true, negb_true_iff.
  destruct hello; naive_solver.
Qed.

(** The three guards of the code, in order. *)
Lemma report_agrees_guards detail hello data start stop :
  let flags := Z.land (Z.shiftr detail 16) 255 in
  report_agrees_b detail hello data start stop =
  negb (negb (Z.land detail 255 =? _TERMINAL_REPORT_VERSION) ||
        negb (Z.land (Z.shiftr detail 8) 255 =? 1)) &&
  negb (negb (eqb hello (has flags _TERMINAL_HELLO)) ||
        negb (eqb data (has flags _TERMINAL_DATA))) &&
  negb (hello &&
    (negb (bool_decide (start = Some (has flags _TERMINAL_START_CONFIGURED))) ||
     negb (bool_decide (stop = Some (has flags _TERMINAL_STOP_CONFIGURED))))).
Proof.
  unfold report_agrees_b. cbn zeta. rewrite !negb_orb, !negb_andb, !negb_orb, !negb_involutive.
  by rewrite !andb_assoc.
Qed.

Lemma reported_wp detail hello data start stop s (t : Rest D) :
  wp (_raise_reported_terminal cfg detail hello data start stop) (fun _ _ => False)
    (fun e r =>
      (r.2 = t /\ (exists m, e = PyError (Exn ValueError m)) /\
       (report_agrees_b detail hello data start stop = true -> contents s <> [])) \/
      (report_agrees_b detail hello data start stop = true /\
       exists c tr, let o := set_transport tr
           (deadline_outcome cfg (Z.land (Z.shiftr detail 16) 255) hello data) in
         e = Terminal c deadline_message o /\ r.2 = set_outcome o t /\
         (c = PlainTerminal <-> tr = CLEAN) /\ (tr = CLEAN -> contents s = []))) (s, t).
Proof.
  pose proof (report_agrees_guards detail hello data start stop) as Hg. cbn zeta in Hg.
  unfold _raise_reported_terminal. cbn zeta.
  assert (Hfail : forall m, report_agrees_b detail hello data start stop = false ->
    (t = t /\ (exists m', PyError (Exn ValueError m) = PyError (Exn ValueError m')) /\
     (report_agrees_b detail hello data start stop = true -> contents s <> []))).
  { intros m Hf. split_and!; [done|by eexists|]. by rewrite Hf. }
  apply wp_if; intros H1; [apply wp_raise; left; apply Hfail; by rewrite Hg, H1|].
  apply wp_if; intros H2; [apply wp_raise; left; apply Hfail; by rewrite Hg, H1, H2|].
  apply wp_if; intros H3; [apply wp_raise; left; apply Hfail; by rewrite Hg, H1, H2, H3|].
  rewrite H1, H2, H3 in Hg. simpl in Hg.
  apply wp_bind, wp_catch, wp_bind, wp_zoom, wp_err. unfold wp at 1. cbn [fst].
  destruct (recv 1 s) as [s1 [bs|e]] eqn:Hr.
  - apply recv_Ok in Hr as (Hc & _ & Hn); [|lia]. apply wp_ret. destruct bs as [|b bs].
    + apply wp_bind, wp_zoom, wp_modify, wp_raise. right. split; [done|].
      exists PlainTerminal, CLEAN. split_and!; try done. by intros _; apply Hn.
    + apply wp_raise. left. split_and!; [done|by eexists|]. by rewrite Hc.
  - apply recv_Raise in Hr as [Ho _]. apply wp_if; intros _.
    + apply wp_ret, wp_bind, wp_zoom, wp_modify, wp_raise. right. split; [done|].
      exists TimeoutTerminal, TIMEOUT. by split_and!.
    + simpl. rewrite Ho. apply wp_ret, wp_bind, wp_zoom, wp_modify, wp_raise. right.
      split; [done|]. eexists ConnectionTerminal, _.
      split_and!; try done; unfold os_transport; by case_if.
Qed.

(** A deadline report is believed only when it is consistent. [_raise_reported_terminal]
    never returns. It raises a terminal error only for a report of the known version and
    reason that agrees with the received progress and the boundary configuration of the
    hello frame, and only when no byte follows it; the recorded outcome is then the
    deadline outcome with the boundaries the report states and the transport end that was
    observed. Any disagreement or trailing byte is a [ValueError] that records nothing. *)
Theorem deadline_report_verified (detail : Z) (hello data : bool) (start stop : option bool)
  (s : S) (t : Rest D) :
  match _raise_reported_terminal cfg detail hello data start stop (s, t) with
  | (_, Ok _) => False
  | (r, Raise e) =>
      (r.2 = t /\ (exists m, e = PyError (Exn ValueError m)) /\
       (report_agrees detail hello data start stop -> contents s <> [])) \/
      (report_agrees detail hello data start stop /\
       exists c tr, let o := set_transport tr
           (deadline_outcome cfg (Z.land (Z.shiftr detail 16) 255) hello data) in
         e = Terminal c deadline_message o /\ r.2 = set_outcome o t /\
         (c = PlainTerminal <-> tr = CLEAN) /\ (tr = CLEAN -> contents s = []))
  end.
Proof.
  pose proof (reported_wp detail hello data start stop s t) as Hw. unfold wp in Hw.
  destruct (_raise_reported_terminal cfg detail hello data start stop (s, t)) as [r [b|e]]; [done|].
  by rewrite report_agrees_spec in Hw.
Qed.
End report.

(** ** The constructor *)

(** The constructor admits only configurations the reader can run. A single endpoint
    gives a port in range, a batch target between 0 and 4 MiB for which the collator can be
    created, and columns decoded on the CPU exactly when they are collated first; several
    endpoints are distinct. *)
Theorem init_admits_valid_config (urlsplit : string -> SplitResult) (mps_ok cuda_ok : bool)
  (endpoints : endpoints_arg) (dev : result (option device)) (timeout_positive : bool)
  (batch_bytes : option Z) (observer : observer_arg) (abandon : nat -> bool) (k : PoolKind)
  (Hk : init urlsplit mps_ok cuda_ok endpoints dev timeout_positive batch_bytes observer abandon = Ok k) :
  match k with
  | Single cfg (host, port) =>
      config_ok cfg /\ is_ok (make_collator cfg) = true /\ 1 <= port <= 65535 /\
      timeout_positive = true /\ endpoints = Endpoints [c_endpoint cfg]
  | Multiple all bytes _ =>
      endpoints = Endpoints all /\ NoDup all /\ (2 <= length all)%nat /\ 0 <= bytes <= MAX_BATCH_BYTES
  end.
Proof.
  unfold init in Hk. inv_res Hk.
  assert (Hb : 0 <= v0 <= MAX_BATCH_BYTES).
  { clear -Hv0. destruct batch_bytes as [z|]; [|done].
    destruct ((0 <=? z) && (z <=? MAX_BATCH_BYTES)) eqn:Hz; [|done].
    injection Hv0 as <-. bool_prop. lia. }
  destruct endpoints as [s|[|e [|e2 rest]]]; try discriminate Hk; inv_res Hk; bool_prop.
  - destruct v2 as [d|]; [|discriminate Hk]. inv_res Hk. injection Hk as <-.
    destruct v1 as [host port].
    assert (Hport : 1 <= port <= 65535).
    { clear -Hv1. unfold parse_endpoint in Hv1. case_if; [done|]. destruct (u_hostname _); [|done].
      case_if; [done|]. inv_res Hv1. destruct v as [q|]; [|done]. case_if; [done|].
      injection Hv1 as _ <-. bool_prop. lia. }
    split_and!; try done; try lia.
    unfold make_collator, new_collator. simpl. case_if; [done|]. bool_prop.
    case_if; [|done]. exfalso. apply negb_true_iff, andb_false_iff in Heqb0.
    destruct Heqb0; bool_prop; lia.
  - injection Hk as <-. split_and!; try done; try lia. simpl. lia.
Qed.

(** ** Concrete runs *)

(** The target exits with code 3 after one batch. *)
Definition failing_trace : list Z :=
  encode_header (MkHeader 1 0 0 0 1 3) ++ encode_header blocks_header ++ blocks_payload ++
  encode_header (MkHeader 3 1 0 6 0 3) ++ encode_header (MkHeader 4 0 0 0 3 3).

Definition failing_attempts : res exn (list (attempt (S:=script failure))) :=
  Ok [MkAttempt None None (Ok (chunked failing_trace 40)) false false false].

Lemma read_outcome_consistent_witness : exists p' tr o,
  _read (D:=unit) example_config 10 failing_attempts new_pool = (p', tr) /\
  consistent p' tr /\
  t_result tr = Raise (Terminal PlainTerminal "Target exited with code 3" o) /\
  p_outcome p' = Some o /\ o_reason o = TARGET_EXIT /\ length (t_batches tr) = 1%nat.
Proof.
  pose proof (read_outcome_consistent (D:=unit) example_config 10 failing_attempts new_pool
    eq_refl) as Hc.
  destruct (_read (D:=unit) example_config 10 failing_attempts new_pool) as [p' tr] eqn:Hr.
  exists p', tr. vm_compute in Hr. injection Hr as <- <-. eexists.
  split_and!; [reflexivity|exact Hc|reflexivity|reflexivity|reflexivity|reflexivity].
Defined.

(** An observer whose own file write fails is reported as a lost connection: the [except
    OSError] clause of [_read] cannot tell it from a socket error. *)
Definition full_disk_config : Config :=
  MkConfig "tcp://worker:1" cpu cpu 0
    (Some (fun _ _ => Some (Exn OSError "No space left on device"))) (fun _ => false).

Lemma observer_error_reported_as_disconnection : exists p' tr o,
  _read (D:=unit) full_disk_config 10 (example_attempts failure) new_pool = (p', tr) /\
  t_result tr = Raise (Terminal ConnectionTerminal
    "Trace connection failed before completion" o) /\
  o_reason o = UNKNOWN_DISCONNECTION.
Proof. eexists _, _, _. vm_compute. split_and!; reflexivity. Qed.

Lemma deadline_report_verified_witness :
  exists o, (_raise_reported_terminal example_config 0x050101 true false (Some true) (Some false)
    (Script (F:=failure) [Fail FailReset], empty_rest)).2 =
      Raise (Terminal ConnectionTerminal deadline_message o) /\
  report_agrees 0x050101 true false (Some true) (Some false) /\
  o_start o = NOT_OBSERVED_BOUNDARY /\ o_transport o = RESET.
Proof.
  pose proof (deadline_report_verified example_config 0x050101 true false (Some true) (Some false)
    (Script (F:=failure) [Fail FailReset]) empty_rest) as Hd.
  vm_compute in Hd. destruct Hd as [[_ [[m Hm] _]]|[Ha _]]; [discriminate Hm|].
  eexists. split; [vm_compute; reflexivity|]. split; [exact Ha|]. split; vm_compute; reflexivity.
Defined.

Definition example_split (_ : string) : SplitResult :=
  MkSplit "tcp" (Some "worker") (Ok (Some 4096)) None None EmptyString EmptyString EmptyString.

Lemma init_admits_valid_config_witness : exists cfg,
  init example_split true false (Endpoints ["tcp://worker:4096"]) (Ok (Some mps)) true (Some 1024)
    NoObserver (fun _ => false) = Ok (Single cfg ("worker", 4096)) /\
  config_ok cfg /\ c_column_device cfg = cpu.
Proof.
  eexists. split; [reflexivity|]. split; [|reflexivity].
  exact (proj1 (init_admits_valid_config example_split true false
    (Endpoints ["tcp://worker:4096"]) (Ok (Some mps)) true (Some 1024) NoObserver (fun _ => false)
    _ eq_refl)).
Defined.
