(* ===== verification/MultiPool.v ===== *)
(** * Several workers behind one iterator ([_multipool.py]: [EndpointReaders])

    One reader thread per worker, a consumer, and a condition variable. A state
    holds what the lock protects (one slot per worker, the finished flags, the
    first failure, the closed flag) and the program counter of every thread; a
    step is one critical section or one thread-local action, chosen by an
    arbitrary scheduler. What a worker's own [Pool] would yield, and how its
    generator ends, is the reader's script ([Pool.v] models it).

    The theorems: no batch is lost, duplicated or reordered within a worker; a
    normal return means every worker completed and everything was delivered; no
    state deadlocks and closing reaps every reader; a waiting worker is served
    within one round. *)

From S2P Require Import Prelude Batch Device Wire Terminal Pool.

(** ** Tagging with the worker index *)

(** [replace(batch, worker=worker)] *)
Definition set_worker (w : nat) (b : Batch) : Batch := {|
  source := source b; first_sequence := first_sequence b; addresses := addresses b;
  registers := registers b; memory := memory b; context := context b; layout := layout b;
  worker := Z.of_nat w; block_sequences := block_sequences b; transitions := transitions b;
  transition_window := transition_window b;
  observation_transitions := observation_transitions b;
  observation_context := observation_context b;
  observation_summary := observation_summary b; context_filter := context_filter b |}.

(** [replace(frame, worker=worker)] *)
Definition set_frame_worker (w : nat) (f : WireFrame) : WireFrame :=
  MkWireFrame (Z.of_nat w) (wf_endpoint f) (wf_version f) (wf_kind f) (wf_source f)
    (wf_count f) (wf_sequence f) (wf_detail f) (wf_data f).

Definition observer_for (obs : option (list WireFrame -> WireFrame -> option exn)) (w : nat) :
    option (list WireFrame -> WireFrame -> option exn) :=
  match obs with
  | None => None
  | Some f => Some (fun earlier frame =>
      f (set_frame_worker w <$> earlier) (set_frame_worker w frame))
  end.

(** [replace(outcome, worker=worker, endpoint=endpoint)] *)
Definition retag_outcome (w : nat) (endpoint : string) (o : TerminalOutcome) : TerminalOutcome :=
  MkOutcome (o_reason o) endpoint (Z.of_nat w) (o_hello_received o) (o_data_received o)
    (o_hello_reported o) (o_data_reported o) (o_start o) (o_stop o) (o_transport o)
    (o_complete o).

Definition retag_error (w : nat) (endpoint : string) (e : trace_error) : trace_error :=
  match e with
  | Terminal c m o => Terminal c m (retag_outcome w endpoint o)
  | _ => e
  end.

(** [str(error)] *)
Definition error_str (e : trace_error) : string :=
  match e with
  | PyError x => exn_msg x
  | Terminal _ m _ => m
  | CleanEnd _ | GeneratorExit => EmptyString
  end.

(** The exception the consumer raises for a recorded failure. *)
Definition reported_failure (w : nat) (endpoint : string) (e : trace_error) : trace_error :=
  let message := "Worker " +:+ pretty (Z.of_nat w) +:+ " (" +:+ endpoint +:+ ") failed: " +:+
                 error_str e in
  match e with
  | Terminal c _ o => Terminal c message o
  | _ => PyError (Exn RuntimeError message)
  end.

(** ** State *)

(** What the reader's own [Pool] yields, and how its generator ends. *)
Record script := MkScript { sc_batches : list Batch; sc_end : res trace_error unit }.

(** A reader thread: not started, asking its pool for the next batch, holding one until its slot is
    free, recording its exception, in its [finally] block, or gone. *)
Inductive reader :=
  | Idle (rest : list Batch) (fin : res trace_error unit)
  | Running (rest : list Batch) (fin : res trace_error unit)
  | Holding (b : Batch) (rest : list Batch) (fin : res trace_error unit)
  | Failing (e : trace_error)
  | Closing
  | Exited.

(** The consumer: before its first resumption, waiting with [next_worker], delivering a
    batch outside the lock, in its [finally] block, or done. *)
Inductive consumer :=
  | Starting
  | Waiting (next_worker : nat)
  | Yielding (b : Batch) (next_worker : nat)
  | Ending (r : res trace_error unit)
  | Ended (r : res trace_error unit).

(** [m_taken] is the history of batches taken from slots; [m_out] what the caller received. *)
Record mstate := MkState {
  m_slots : list (option Batch);
  m_finished : list bool;
  m_failure : option (nat * trace_error);
  m_closed : bool;
  m_readers : list reader;
  m_consumer : consumer;
  m_taken : list Batch;
  m_out : list Batch;
}.

Definition set_reader (w : nat) (r : reader) (s : mstate) : mstate :=
  MkState (m_slots s) (m_finished s) (m_failure s) (m_closed s) (<[w := r]> (m_readers s))
    (m_consumer s) (m_taken s) (m_out s).
Definition set_consumer (c : consumer) (s : mstate) : mstate :=
  MkState (m_slots s) (m_finished s) (m_failure s) (m_closed s) (m_readers s) c
    (m_taken s) (m_out s).
Definition set_slot (w : nat) (o : option Batch) (s : mstate) : mstate :=
  MkState (<[w := o]> (m_slots s)) (m_finished s) (m_failure s) (m_closed s) (m_readers s)
    (m_consumer s) (m_taken s) (m_out s).
Definition set_finished (w : nat) (s : mstate) : mstate :=
  MkState (m_slots s) (<[w := true]> (m_finished s)) (m_failure s) (m_closed s) (m_readers s)
    (m_consumer s) (m_taken s) (m_out s).
Definition record_failure (w : nat) (e : trace_error) (s : mstate) : mstate :=
  MkState (m_slots s) (m_finished s)
    (if negb (m_closed s) && negb (is_some (m_failure s)) then Some (w, e) else m_failure s)
    (m_closed s) (m_readers s) (m_consumer s) (m_taken s) (m_out s).

Definition new_readers (scripts : list script) : mstate :=
  MkState (replicate (length scripts) None) (replicate (length scripts) false) None false
    ((fun sc => Idle (sc_batches sc) (sc_end sc)) <$> scripts) Starting [] [].

Definition start_reader (r : reader) : reader :=
  match r with Idle rest fin => Running rest fin | _ => r end.

(** Every thread starts in the critical section of the first resumption. *)
Definition start_readers (s : mstate) : mstate :=
  MkState (m_slots s) (m_finished s) (m_failure s) (m_closed s) (start_reader <$> m_readers s)
    (Waiting 0) (m_taken s) (m_out s).

(** [close]: the flag is set and every slot emptied in one critical section. *)
Definition close_readers (s : mstate) : mstate :=
  MkState (replicate (length (m_slots s)) None) (m_finished s) (m_failure s) true (m_readers s)
    (m_consumer s) (m_taken s) (m_out s).

(** ** Steps *)

Section steps.
Context (endpoints : list string) (dev : device).

Definition endpoint_of (w : nat) : string := default EmptyString (endpoints !! w).

(** One step of reader [w]; [None] when it is blocked or gone. *)
Definition reader_step (w : nat) (s : mstate) : option mstate :=
  match m_readers s !! w with
  | Some (Running (b :: rest) fin) => Some (set_reader w (Holding (set_worker w b) rest fin) s)
  | Some (Running [] (Ok _)) => Some (set_reader w Closing s)
  | Some (Running [] (Raise e)) => Some (set_reader w (Failing (retag_error w (endpoint_of w) e)) s)
  | Some (Holding b rest fin) =>
      if m_closed s then Some (set_reader w Closing s) else
      match m_slots s !! w with
      | Some None => Some (set_reader w (Running rest fin) (set_slot w (Some b) s))
      | _ => None
      end
  | Some (Failing e) => Some (set_reader w Closing (record_failure w e s))
  | Some Closing => Some (set_reader w Exited (set_finished w s))
  | Some (Idle _ _) | Some Exited | None => None
  end.

(** Closing the pools interrupts a blocked read with some exception. *)
Definition interrupt_step (w : nat) (e : trace_error) (s : mstate) : option mstate :=
  match m_readers s !! w with
  | Some (Running _ _) => if m_closed s then Some (set_reader w (Failing e) s) else None
  | _ => None
  end.

(** [for offset in range(len(pools))] from [next_worker]: the first full slot. *)
Fixpoint scan (n offset next_worker : nat) (slots : list (option Batch)) : option (nat * Batch) :=
  match n with
  | O => None
  | S n =>
      let w := ((next_worker + offset) mod length slots)%nat in
      match slots !! w with
      | Some (Some b) => Some (w, b)
      | _ => scan n (S offset) next_worker slots
      end
  end.

Definition slot_full (o : option Batch) : bool := is_some o.

(** The predicate of the consumer's [wait_for]. *)
Definition wake (s : mstate) : bool :=
  m_closed s || is_some (m_failure s) || existsb slot_full (m_slots s) ||
  forallb id (m_finished s).

(** The consumer's critical section once it is awake. *)
Definition take_step (next_worker : nat) (s : mstate) : mstate :=
  match m_failure s with
  | Some (w, e) => set_consumer (Ending (Raise (reported_failure w (endpoint_of w) e))) s
  | None =>
      if m_closed s then set_consumer (Ending (Ok tt)) s else
      match scan (length (m_slots s)) 0 next_worker (m_slots s) with
      | Some (w, b) =>
          let s' := set_slot w None s in
          MkState (m_slots s') (m_finished s') (m_failure s') (m_closed s') (m_readers s')
            (Yielding b ((w + 1) mod length (m_slots s))) (m_taken s' ++ [b]) (m_out s')
      | None => set_consumer (Ending (Ok tt)) s
      end
  end.

Definition consumer_step (s : mstate) : option mstate :=
  match m_consumer s with
  | Starting =>
      if m_closed s
      then Some (set_consumer (Ending (Raise (PyError
             (Exn RuntimeError "Pool was closed before reading started")))) s)
      else Some (start_readers s)
  | Waiting k => if wake s then Some (take_step k s) else None
  | Yielding b k =>
      match to_device b dev with
      | Ok b' => Some (MkState (m_slots s) (m_finished s) (m_failure s) (m_closed s)
                   (m_readers s) (Waiting k) (m_taken s) (m_out s ++ [b']))
      | Raise e => Some (set_consumer (Ending (Raise (PyError e))) s)
      end
  | Ending r => Some (set_consumer (Ended r) (close_readers s))
  | Ended _ => None
  end.

(** The caller drops the iterator at a batch it has received. *)
Definition abandon_step (s : mstate) : option mstate :=
  match m_consumer s with
  | Waiting k => Some (set_consumer (Ending (Raise GeneratorExit)) s)
  | _ => None
  end.

Inductive label :=
  | Reader (w : nat)
  | Interrupt (w : nat) (e : trace_error)
  | Consumer
  | Abandon
  | Close.

Definition exec (l : label) (s : mstate) : option mstate :=
  match l with
  | Reader w => reader_step w s
  | Interrupt w e => interrupt_step w e s
  | Consumer => consumer_step s
  | Abandon => abandon_step s
  | Close => Some (close_readers s)
  end.

Fixpoint exec_all (ls : list label) (s : mstate) : option mstate :=
  match ls with
  | [] => Some s
  | l :: ls => s' ← exec l s; exec_all ls s'
  end.

(** States some schedule reaches. *)
Inductive reachable (scripts : list script) : mstate -> Prop :=
  | reach_init : reachable scripts (new_readers scripts)
  | reach_step s l s' : reachable scripts s -> exec l s = Some s' -> reachable scripts s'.

(** [outcomes]: each pool's outcome with its worker and endpoint. *)
Definition group_outcomes (os : list (option TerminalOutcome)) : list (option TerminalOutcome) :=
  imap (fun w o => retag_outcome w (endpoint_of w) <$> o) os.
End steps.

(** [EndpointReaders.read]: at most one generator. *)
Definition read_group (closed started : bool) : result bool :=
  raise! RuntimeError "Pool is closed; create a new pool for another run" when closed in
  raise! RuntimeError "Pool.read() can only be called once per run" when started in
  Ok true.

(** The constructor: every pool is validated before any connection starts. *)
Definition init_readers (urlsplit : string -> SplitResult) (mps_ok cuda_ok : bool)
    (endpoints : list string) (torch_device : result (option device)) (timeout_positive : bool)
    (batch_bytes : Z) (observer : option (list WireFrame -> WireFrame -> option exn)) :
    result (device * list PoolKind) :=
  let! dev := torch_device in
  match dev with
  | None => throw ValueError "Pool supports CPU, MPS, and CUDA devices"
  | Some d =>
      raise! RuntimeError "MPS is not available in this Python environment"
        when bool_decide (d = mps) && negb mps_ok in
      raise! RuntimeError "CUDA is not available in this Python environment"
        when bool_decide (d = cuda) && negb cuda_ok in
      let! pools := rmap (fun '(w, endpoint) =>
        init urlsplit mps_ok cuda_ok (Endpoints [endpoint]) (Ok (Some cpu)) timeout_positive
          (Some batch_bytes)
          (match observer_for observer w with None => NoObserver | Some f => Callable f end)
          (fun _ => false)) (imap pair endpoints) in
      Ok (d, pools)
  end.

(** ** The invariant, worker by worker *)

Section invariant.
Context (endpoints : list string) (dev : device) (scripts : list script).

Notation endpoint_of := (endpoint_of endpoints).

(** What worker [w] must deliver. *)
Definition tagged (w : nat) (sc : script) : list Batch := set_worker w <$> sc_batches sc.

(** The batches of worker [w] taken so far. *)
Definition taken_of (w : nat) (l : list Batch) : list Batch :=
  filter (fun b => worker b = Z.of_nat w) l.

(** The batches a reader has not published yet. *)
Definition reader_pending (w : nat) (r : reader) : list Batch :=
  match r with
  | Idle rest _ | Running rest _ => set_worker w <$> rest
  | Holding b rest _ => b :: (set_worker w <$> rest)
  | Failing _ | Closing | Exited => []
  end.

(** Where a reader stands with respect to how its script ends. *)
Definition reader_end (w : nat) (sc : script) (closed failed : bool) (r : reader) : Prop :=
  match r with
  | Idle _ fin | Running _ fin | Holding _ _ fin => fin = sc_end sc
  | Failing e => closed = true \/
      exists e', sc_end sc = Raise e' /\ e = retag_error w (endpoint_of w) e'
  | Closing | Exited => closed = true \/ failed = true \/ sc_end sc = Ok tt
  end.

Record worker_ok (w : nat) (sc : script) (closed failed : bool) (taken : list Batch)
    (slot : option Batch) (fin : bool) (r : reader) : Prop := {
  wk_slot : forall b, slot = Some b -> worker b = Z.of_nat w;
  wk_held : forall b rest e, r = Holding b rest e -> worker b = Z.of_nat w;
  wk_order : if closed then taken `prefix_of` tagged w sc
             else taken ++ option_list slot ++ reader_pending w r = tagged w sc;
  wk_fin : fin = true <-> r = Exited;
  wk_end : reader_end w sc closed failed r;
}.

Definition failed (s : mstate) : bool := is_some (m_failure s).

Record group_ok (s : mstate) : Prop := {
  gk_slots : length (m_slots s) = length scripts;
  gk_finished : length (m_finished s) = length scripts;
  gk_readers : length (m_readers s) = length scripts;
  gk_worker : forall w sc slot fin r, scripts !! w = Some sc -> m_slots s !! w = Some slot ->
    m_finished s !! w = Some fin -> m_readers s !! w = Some r ->
    worker_ok w sc (m_closed s) (failed s) (taken_of w (m_taken s)) slot fin r;
  gk_failure : forall w e, m_failure s = Some (w, e) -> exists sc e',
    scripts !! w = Some sc /\ sc_end sc = Raise e' /\ e = retag_error w (endpoint_of w) e';
}.

Lemma worker_ok_failed w sc c f f' tk slot fin r :
  (f = true -> f' = true) -> worker_ok w sc c f tk slot fin r -> worker_ok w sc c f' tk slot fin r.
Proof.
  intros Hf [H1 H2 H3 H4 H5]. split; try done. destruct r; simpl in *; naive_solver.
Qed.

Lemma worker_ok_closed w sc c f tk slot fin r :
  worker_ok w sc c f tk slot fin r -> worker_ok w sc true f tk None fin r.
Proof.
  intros [H1 H2 H3 H4 H5]. split; try done.
  - destruct c; [done|]. rewrite <- H3. by eexists.
  - destruct r; simpl in *; naive_solver.
Qed.

(** A step of one reader that changes its own slot, flag and counter. *)
Lemma group_ok_reader s w slot' fin' r' failure' :
  group_ok s ->
  (forall sc slot fin r, scripts !! w = Some sc -> m_slots s !! w = Some slot ->
     m_finished s !! w = Some fin -> m_readers s !! w = Some r ->
     worker_ok w sc (m_closed s) (failed s) (taken_of w (m_taken s)) slot fin r ->
     worker_ok w sc (m_closed s) (is_some failure') (taken_of w (m_taken s))
       (slot' slot) (fin' fin) r') ->
  (failed s = true -> is_some failure' = true) ->
  (forall v e, failure' = Some (v, e) -> exists sc e',
    scripts !! v = Some sc /\ sc_end sc = Raise e' /\ e = retag_error v (endpoint_of v) e') ->
  group_ok (MkState (alter slot' w (m_slots s)) (alter fin' w (m_finished s)) failure' (m_closed s)
    (<[w := r']> (m_readers s)) (m_consumer s) (m_taken s) (m_out s)).
Proof.
  intros [Hs Hf Hr Hw Hfail] Hstep Hmono Hnew. split; simpl.
  - by rewrite length_alter.
  - by rewrite length_alter.
  - by rewrite length_insert.
  - intros v sc slot fin r Hsc Hsl Hfi Hrd. destruct (decide (v = w)) as [->|Hne].
    + rewrite list_lookup_alter_eq in Hsl. rewrite list_lookup_alter_eq in Hfi.
      destruct (m_slots s !! w) as [sl|] eqn:E1; [|done].
      destruct (m_finished s !! w) as [fi|] eqn:E2; [|done].
      destruct (lookup_lt_is_Some_2 (m_readers s) w) as [r0 E3].
      { rewrite Hr. by eapply lookup_lt_Some. }
      rewrite list_lookup_insert_eq in Hrd by (by eapply lookup_lt_Some).
      simpl in *. simplify_eq. eapply Hstep; eauto.
    + rewrite list_lookup_alter_ne in Hsl by done. rewrite list_lookup_alter_ne in Hfi by done.
      rewrite list_lookup_insert_ne in Hrd by done.
      eapply worker_ok_failed; [|by eapply Hw]. done.
  - done.
Qed.
Lemma alter_same {A} (w : nat) (l : list A) : alter id w l = l.
Proof. revert w; induction l as [|a l IH]; intros [|w]; [done..|]. exact (f_equal (cons a) (IH w)). Qed.

Lemma insert_as_alter {A} (w : nat) (x : A) (l : list A) : <[w := x]> l = alter (fun _ => x) w l.
Proof. revert w; induction l as [|a l IH]; intros [|w]; [done..|]. exact (f_equal (cons a) (IH w)). Qed.

Lemma group_ok_consumer s c out :
  group_ok s -> group_ok (MkState (m_slots s) (m_finished s) (m_failure s) (m_closed s)
    (m_readers s) c (m_taken s) out).
Proof. intros []. by split. Qed.

(** The common case: only the counter of [w] changes. *)
Lemma group_ok_set_reader s w r r' : group_ok s -> m_readers s !! w = Some r -> r <> Exited ->
  r' <> Exited ->
  (forall b rest e, r' = Holding b rest e -> worker b = Z.of_nat w) ->
  (m_closed s = false -> reader_pending w r' = reader_pending w r) ->
  (forall sc, scripts !! w = Some sc -> reader_end w sc (m_closed s) (failed s) r ->
    reader_end w sc (m_closed s) (failed s) r') ->
  group_ok (set_reader w r' s).
Proof.
  intros Hg Hr Hne Hne' Hheld Hpend Hend.
  pose proof (group_ok_reader s w id id r' (m_failure s) Hg) as Hgr.
  rewrite !alter_same in Hgr. apply Hgr; [|done|apply Hg].
  intros sc slot fin r0 Hsc Hsl Hfi Hr0 [H1 H2 H3 H4 H5]. simplify_eq. split; try done.
  - simpl. destruct (m_closed s) eqn:Hc; [done|]. by rewrite Hpend.
  - simpl. naive_solver.
  - by apply Hend.
Qed.

Lemma reader_step_ok w s s' : group_ok s -> reader_step endpoints w s = Some s' -> group_ok s'.
Proof.
  intros Hg. unfold reader_step.
  destruct (m_readers s !! w) as [[rest fin|[|b rest] [[]|e]|b rest fin|e| |]|] eqn:Hr; try done.
  - intros [= <-]. eapply group_ok_set_reader; try done. simpl. intros sc _ <-. auto.
  - intros [= <-]. eapply group_ok_set_reader; try done. simpl. intros sc _ <-. eauto.
  - intros [= <-]. eapply group_ok_set_reader; try done. intros ? ? ? [= <- _ _]. done.
  - intros [= <-]. eapply group_ok_set_reader; try done. intros ? ? ? [= <- _ _]. done.
  - case_if.
    + intros [= <-]. eapply group_ok_set_reader; try done; simpl; auto. congruence.
    + destruct (m_slots s !! w) as [[|]|] eqn:Hs; try done. intros [= <-].
      pose proof (group_ok_reader s w (fun _ => Some b) id (Running rest fin) (m_failure s) Hg) as Hgr.
      rewrite alter_same, <- insert_as_alter in Hgr. apply Hgr; [|done|apply Hg].
      intros sc slot fi r0 Hsc Hsl Hfi Hr0 [H1 H2 H3 H4 H5]. simplify_eq. split; try done.
      * intros b' [= <-]. by eapply H2.
      * simpl. naive_solver.
  - intros [= <-].
    pose proof (group_ok_reader s w id id Closing (m_failure (record_failure w e s)) Hg) as Hgr.
    rewrite !alter_same in Hgr. apply Hgr.
    + intros sc slot fi r0 Hsc Hsl Hfi Hr0 [H1 H2 H3 H4 H5]. simplify_eq. split; try done.
      * simpl. naive_solver.
      * simpl. unfold failed. destruct (m_closed s), (m_failure s); simpl; auto.
    + unfold failed. simpl. by destruct (m_closed s), (m_failure s).
    + intros v e'. simpl. case_if; [|apply Hg]. intros [= <- <-]. bool_prop.
      destruct (lookup_lt_is_Some_2 scripts w) as [sc Hsc].
      { destruct Hg as [_ _ Hl _ _]. rewrite <- Hl. by eapply lookup_lt_Some. }
      destruct (lookup_lt_is_Some_2 (m_slots s) w) as [sl Hsl].
      { destruct Hg as [Hl _ _ _ _]. rewrite Hl. by eapply lookup_lt_Some. }
      destruct (lookup_lt_is_Some_2 (m_finished s) w) as [fi Hfi].
      { destruct Hg as [_ Hl _ _ _]. rewrite Hl. by eapply lookup_lt_Some. }
      destruct (gk_worker _ Hg w sc sl fi _ Hsc Hsl Hfi Hr) as [_ _ _ _ [Hc|(e2 & He2 & ->)]];
        [congruence|]. eauto.
  - intros [= <-].
    pose proof (group_ok_reader s w id (fun _ => true) Exited (m_failure s) Hg) as Hgr.
    rewrite alter_same, <- insert_as_alter in Hgr. apply Hgr; [|done|apply Hg].
    intros sc slot fi r0 Hsc Hsl Hfi Hr0 [H1 H2 H3 H4 H5]. simplify_eq. by split.
Qed.

Lemma interrupt_step_ok w e s s' : group_ok s -> interrupt_step w e s = Some s' -> group_ok s'.
Proof.
  intros Hg. unfold interrupt_step. destruct (m_readers s !! w) as [[]|] eqn:Hr; try done.
  case_if; [|done]. intros [= <-]. eapply group_ok_set_reader; try done; simpl; auto. congruence.
Qed.

Lemma close_readers_ok s : group_ok s -> group_ok (close_readers s).
Proof.
  intros [Hs Hf Hr Hw Hfail]. split; simpl; try done; [by rewrite length_replicate|].
  intros w sc slot fin r Hsc Hsl Hfi Hrd. apply lookup_replicate in Hsl as [-> Hlt].
  destruct (lookup_lt_is_Some_2 (m_slots s) w) as [sl Hsl]; [done|].
  eapply worker_ok_closed. by eapply Hw.
Qed.

Lemma start_readers_ok s : group_ok s -> m_closed s = false -> group_ok (start_readers s).
Proof.
  intros [Hs Hf Hr Hw Hfail] Hc. split; simpl; try done; [by rewrite length_fmap|].
  intros w sc slot fin r Hsc Hsl Hfi Hrd. rewrite list_lookup_fmap in Hrd.
  destruct (m_readers s !! w) as [r0|] eqn:Hr0; [|done]. simpl in Hrd. injection Hrd as <-.
  destruct (Hw w sc slot fin r0 Hsc Hsl Hfi Hr0) as [H1 H2 H3 H4 H5].
  destruct r0; split; try done. split; [naive_solver|done].
Qed.

(** [scan] finds a full slot, the first one from [next_worker] on. *)
Lemma scan_Some n off k slots w b : scan n off k slots = Some (w, b) ->
  slots !! w = Some (Some b) /\
  exists o, (off <= o < off + n)%nat /\ w = ((k + o) mod length slots)%nat /\
    forall o', (off <= o' < o)%nat -> slots !! ((k + o') mod length slots)%nat <> None ->
      slots !! ((k + o') mod length slots)%nat = Some None.
Proof.
  revert off; induction n as [|n IH]; intros off; simpl; [done|].
  destruct (slots !! ((k + off) mod length slots)%nat) as [[b'|]|] eqn:Hs.
  - intros [= <- <-]. split; [done|]. exists off. split_and!; [lia..|done|]. intros; lia.
  - intros (Hw & o & Ho & -> & Hfirst)%IH. split; [done|]. exists o. split_and!; [lia..|done|].
    intros o' Ho' Hne. destruct (decide (o' = off)) as [->|]; [done|]. apply Hfirst; [lia|done].
  - intros (Hw & o & Ho & -> & Hfirst)%IH. split; [done|]. exists o. split_and!; [lia..|done|].
    intros o' Ho' Hne. destruct (decide (o' = off)) as [->|]; [done|]. apply Hfirst; [lia|done].
Qed.

Lemma scan_None n off k slots w : scan n off k slots = None ->
  (exists o, (off <= o < off + n)%nat /\ w = ((k + o) mod length slots)%nat) ->
  forall b, slots !! w <> Some (Some b).
Proof.
  revert off; induction n as [|n IH]; intros off; simpl; [intros _ (o & Ho & _); lia|].
  destruct (slots !! ((k + off) mod length slots)%nat) as [[b'|]|] eqn:Hs; [done| |];
    intros Hn (o & Ho & Hw) b; (destruct (decide (o = off)) as [->|];
      [by rewrite Hw, Hs|apply (IH (S off)); [done|exists o; split; [lia|done]]]).
Qed.

Lemma take_step_ok k s : group_ok s -> group_ok (take_step endpoints k s).
Proof.
  intros Hg. unfold take_step. destruct (m_failure s) as [[v e]|]; [by apply group_ok_consumer|].
  case_if; [by apply group_ok_consumer|].
  destruct (scan (length (m_slots s)) 0 k (m_slots s)) as [[w b]|] eqn:Hs;
    [|by apply group_ok_consumer].
  apply scan_Some in Hs as [Hw _]. destruct Hg as [Hls Hlf Hlr Hwk Hfail].
  split; simpl; try done; [by rewrite length_insert|].
  intros v sc slot fin r Hsc Hsl Hfi Hrd. unfold taken_of.
  rewrite filter_app, filter_cons, filter_nil. destruct (decide (v = w)) as [->|Hne].
  - rewrite list_lookup_insert_eq in Hsl by (by eapply lookup_lt_Some). injection Hsl as <-.
    destruct (Hwk w sc _ fin r Hsc Hw Hfi Hrd) as [H1 H2 H3 H4 H5].
    rewrite decide_True by (by apply H1). split; try done.
    unfold failed in *. simpl. rewrite Heqb in *. unfold taken_of in H3.
    rewrite <- app_assoc. simpl in *. done.
  - rewrite list_lookup_insert_ne in Hsl by done.
    destruct (lookup_lt_is_Some_2 (m_finished s) w) as [fi Hfiw].
    { rewrite Hlf, <- Hls. by eapply lookup_lt_Some. }
    destruct (lookup_lt_is_Some_2 (m_readers s) w) as [rw Hrw].
    { rewrite Hlr, <- Hls. by eapply lookup_lt_Some. }
    destruct (lookup_lt_is_Some_2 scripts w) as [scw Hscw].
    { rewrite <- Hls. by eapply lookup_lt_Some. }
    destruct (Hwk w scw _ fi rw Hscw Hw Hfiw Hrw) as [H1 _ _ _ _].
    rewrite decide_False by (rewrite (H1 b eq_refl); lia). rewrite app_nil_r.
    by eapply Hwk.
Qed.

Lemma consumer_step_ok s s' : group_ok s -> consumer_step endpoints dev s = Some s' -> group_ok s'.
Proof.
  intros Hg. unfold consumer_step. destruct (m_consumer s) as [|k|b k|r|r] eqn:Hc; try done.
  - case_if; intros [= <-]; [by apply group_ok_consumer|by apply start_readers_ok].
  - case_if; [|done]. intros [= <-]. by apply take_step_ok.
  - destruct (to_device b dev); intros [= <-]; by apply group_ok_consumer.
  - intros [= <-]. by apply group_ok_consumer, close_readers_ok.
Qed.

Lemma new_readers_ok : group_ok (new_readers scripts).
Proof.
  split; simpl; rewrite ?length_replicate, ?length_fmap; try done.
  intros w sc slot fin r Hsc Hsl Hfi Hrd. apply lookup_replicate in Hsl as [-> _], Hfi as [-> _].
  rewrite list_lookup_fmap, Hsc in Hrd. injection Hrd as <-. by split.
Qed.

Lemma reachable_ok s : reachable endpoints dev scripts s -> group_ok s.
Proof.
  induction 1 as [|s l s' _ IH Hl]; [apply new_readers_ok|]. destruct l; simpl in Hl.
  - by eapply reader_step_ok.
  - by eapply interrupt_step_ok.
  - by eapply consumer_step_ok.
  - unfold abandon_step in Hl. destruct (m_consumer s); try done. injection Hl as <-.
    by apply group_ok_consumer.
  - injection Hl as <-. by apply close_readers_ok.
Qed.

(** ** What the caller has received *)

Definition on_device_of (b b' : Batch) : Prop := to_device b dev = Ok b'.

Definition delivery (c : consumer) (taken out : list Batch) : Prop :=
  match c with
  | Starting => taken = [] /\ out = []
  | Waiting _ => Forall2 on_device_of taken out
  | Yielding b _ => exists pre, taken = pre ++ [b] /\ Forall2 on_device_of pre out
  | Ending r | Ended r => exists pre rest, taken = pre ++ rest /\ Forall2 on_device_of pre out /\
      (r = Ok tt -> rest = [])
  end.

(** The consumer runs only once the threads are started. *)
Definition started (c : consumer) : bool :=
  match c with Waiting _ | Yielding _ _ => true | _ => false end.

Record consumer_ok (s : mstate) : Prop := {
  ck_delivery : delivery (m_consumer s) (m_taken s) (m_out s);
  ck_members : Forall (fun b => exists w sc, scripts !! w = Some sc /\ worker b = Z.of_nat w) (m_taken s);
  ck_started : started (m_consumer s) = true ->
    Forall (fun r => forall rest fin, r <> Idle rest fin) (m_readers s);
}.

Lemma set_reader_consumer_ok w r (s : mstate) slots fin fail : consumer_ok s ->
  (forall rest fin, r <> Idle rest fin) ->
  consumer_ok (MkState slots fin fail (m_closed s) (<[w := r]> (m_readers s)) (m_consumer s)
    (m_taken s) (m_out s)).
Proof. intros [H1 H2 H3] Hr. split; simpl; try done. intros Hs. apply Forall_insert; auto. Qed.

Lemma reader_step_consumer_ok w s s' :
  consumer_ok s -> reader_step endpoints w s = Some s' -> consumer_ok s'.
Proof.
  intros Hc. unfold reader_step.
  destruct (m_readers s !! w) as [[rest fin|[|b rest] [[]|e]|b rest fin|e| |]|] eqn:Hr; try done;
    try (intros [= <-]; by apply (set_reader_consumer_ok w _ s)).
  case_if; [intros [= <-]; by apply (set_reader_consumer_ok w _ s)|].
  destruct (m_slots s !! w) as [[|]|]; try done. intros [= <-].
  by apply (set_reader_consumer_ok w _ s).
Qed.

Lemma take_step_consumer_ok k s : group_ok s -> consumer_ok s -> m_consumer s = Waiting k ->
  consumer_ok (take_step endpoints k s).
Proof.
  intros Hg [H1 H2 H3] Hk. rewrite Hk in *. simpl in H1.
  assert (Hend : forall r, consumer_ok (set_consumer (Ending r) s)).
  { intros r. split; simpl; try done. exists (m_taken s), []. by rewrite app_nil_r. }
  unfold take_step. destruct (m_failure s) as [[v e]|]; [done|]. case_if; [done|].
  destruct (scan (length (m_slots s)) 0 k (m_slots s)) as [[w b]|] eqn:Hs; [|done].
  apply scan_Some in Hs as [Hw _]. split; simpl.
  - by exists (m_taken s).
  - apply Forall_app. split; [done|]. constructor; [|constructor].
    destruct Hg as [Hls Hlf Hlr Hwk _].
    destruct (lookup_lt_is_Some_2 scripts w) as [sc Hsc]; [rewrite <- Hls; by eapply lookup_lt_Some|].
    destruct (lookup_lt_is_Some_2 (m_finished s) w) as [fi Hfi];
      [rewrite Hlf, <- Hls; by eapply lookup_lt_Some|].
    destruct (lookup_lt_is_Some_2 (m_readers s) w) as [r Hr];
      [rewrite Hlr, <- Hls; by eapply lookup_lt_Some|].
    destruct (Hwk w sc _ fi r Hsc Hw Hfi Hr) as [Hb _ _ _ _]. eauto.
  - intros _. by apply H3.
Qed.

Lemma consumer_step_consumer_ok s s' : group_ok s -> consumer_ok s ->
  consumer_step endpoints dev s = Some s' -> consumer_ok s'.
Proof.
  intros Hg Hc. destruct Hc as [H1 H2 H3] eqn:E. clear E. unfold consumer_step.
  destruct (m_consumer s) as [|k|b k|r|r] eqn:Hk; try done.
  - case_if; intros [= <-]; split; simpl; try done.
    + destruct H1 as [-> ->]. exists [], []. by split_and!; [|constructor|].
    + destruct H1 as [-> ->]. constructor.
    + intros _. apply Forall_fmap, Forall_forall. intros [] _ rest' fin'; simpl; done.
  - case_if; [|done]. intros [= <-]. by apply take_step_consumer_ok.
  - destruct H1 as (pre & Ht & Hp).
    destruct (to_device b dev) as [b'|e] eqn:Hd; intros [= <-]; split; simpl; try done.
    + rewrite Ht. apply Forall2_app; [done|]. by constructor.
    + by exists pre, [b].
  - intros [= <-]. by split.
Qed.

Lemma reachable_consumer_ok s : reachable endpoints dev scripts s -> consumer_ok s.
Proof.
  induction 1 as [|s l s' Hr IH Hl]; [by split|].
  pose proof (reachable_ok _ Hr) as Hg. destruct l; simpl in Hl.
  - by eapply reader_step_consumer_ok.
  - unfold interrupt_step in Hl. destruct (m_readers s !! w) as [[]|]; try done.
    case_if; [|done]. injection Hl as <-. by apply set_reader_consumer_ok.
  - by eapply consumer_step_consumer_ok.
  - unfold abandon_step in Hl. destruct IH as [H1 H2 H3].
    destruct (m_consumer s) eqn:Hk; try done. injection Hl as <-. split; simpl; try done.
    exists (m_taken s), []. by rewrite app_nil_r.
  - injection Hl as <-. destruct IH as [H1 H2 H3]. by split.
Qed.

Lemma worker_lookup s w sc : group_ok s -> scripts !! w = Some sc -> exists slot fin r,
  m_slots s !! w = Some slot /\ m_finished s !! w = Some fin /\ m_readers s !! w = Some r.
Proof.
  intros [Hls Hlf Hlr _ _] Hsc. apply lookup_lt_Some in Hsc.
  destruct (lookup_lt_is_Some_2 (m_slots s) w) as [? ?]; [by rewrite Hls|].
  destruct (lookup_lt_is_Some_2 (m_finished s) w) as [? ?]; [by rewrite Hlf|].
  destruct (lookup_lt_is_Some_2 (m_readers s) w) as [? ?]; [by rewrite Hlr|]. eauto 10.
Qed.

(** A prefix of the taken batches gives a prefix per worker. *)
Lemma taken_prefix s w sc pre rest : group_ok s -> scripts !! w = Some sc ->
  m_taken s = pre ++ rest -> taken_of w pre `prefix_of` tagged w sc.
Proof.
  intros Hg Hsc Ht. destruct (worker_lookup s w sc Hg Hsc) as (slot & fin & r & Hs & Hf & Hr).
  destruct (gk_worker _ Hg w sc slot fin r Hsc Hs Hf Hr) as [_ _ Ho _ _].
  assert (Hp : taken_of w (m_taken s) `prefix_of` tagged w sc).
  { destruct (m_closed s); [done|]. rewrite <- Ho. by eexists. }
  rewrite Ht in Hp. unfold taken_of in *. rewrite filter_app in Hp.
  etrans; [|exact Hp]. by eexists.
Qed.

Lemma delivery_prefix s : consumer_ok s ->
  exists pre rest, m_taken s = pre ++ rest /\ Forall2 on_device_of pre (m_out s).
Proof.
  intros [Hd _ _]. destruct (m_consumer s) as [|k|b k|r|r]; simpl in Hd.
  - destruct Hd as [-> ->]. by exists [], [].
  - exists (m_taken s), []. by rewrite app_nil_r.
  - destruct Hd as (pre & -> & Hp). by exists pre, [b].
  - destruct Hd as (pre & rest & -> & Hp & _). by exists pre, rest.
  - destruct Hd as (pre & rest & -> & Hp & _). by exists pre, rest.
Qed.
End invariant.

(** C3: batches of one worker are delivered in order, once each. In every state any
    schedule reaches - whoever closes the pool and whenever - the caller has received the
    device copies of a list of batches such that the batches of each worker, in order, are
    a prefix of what that worker's own pool yields, tagged with the worker's index; every
    received batch belongs to a worker. *)
Theorem group_delivers_in_order (endpoints : list string) (dev : device) (scripts : list script)
  (s : mstate) (Hr : reachable endpoints dev scripts s) :
  exists received, Forall2 (on_device_of dev) received (m_out s) /\
    (forall w sc, scripts !! w = Some sc -> taken_of w received `prefix_of` tagged w sc) /\
    Forall (fun b => exists w sc, scripts !! w = Some sc /\ worker b = Z.of_nat w) received.
Proof.
  pose proof (reachable_ok _ _ _ _ Hr) as Hg. pose proof (reachable_consumer_ok _ _ _ _ Hr) as Hc.
  destruct (delivery_prefix _ _ _ Hc) as (pre & rest & Ht & Hp). exists pre.
  split_and!; [done|intros w sc Hsc; by eapply taken_prefix|].
  destruct Hc as [_ Hm _]. rewrite Ht in Hm. by apply Forall_app in Hm as [? _].
Qed.


(** ** Progress *)

(** Steps a reader still takes once the group is closed. *)
Definition reader_rank (r : reader) : nat :=
  match r with
  | Running _ _ => 3
  | Holding _ _ _ | Failing _ => 2
  | Closing => 1
  | Idle _ _ | Exited => 0
  end.

Lemma reader_enabled endpoints s w r : m_readers s !! w = Some r -> (0 < reader_rank r)%nat ->
  (forall b rest fin, r = Holding b rest fin -> m_closed s = true \/ m_slots s !! w = Some None) ->
  exists s', reader_step endpoints w s = Some s'.
Proof.
  intros Hr Hrank Hh. unfold reader_step. rewrite Hr.
  destruct r as [rest fin|[|b rest] [[]|e]|b rest fin|e| |]; simpl in *; try lia; try by eexists.
  destruct (Hh b rest fin eq_refl) as [-> | ->]; [by eexists|]. destruct (m_closed s); by eexists.
Qed.


(** ** Rotation *)

(** How many slots the rotation examines before worker [w]. *)
Definition distance (n k w : nat) : nat := ((w + n - k mod n) mod n)%nat.

Lemma distance_reaches n k w : (w < n)%nat -> ((k + distance n k w) mod n = w)%nat.
Proof.
  intros Hw. unfold distance. pose proof (Nat.mod_upper_bound k n).
  rewrite Nat.Div0.add_mod_idemp_r, <- (Nat.Div0.add_mod_idemp_l k).
  replace (k mod n + (w + n - k mod n))%nat with (w + 1 * n)%nat by lia.
  rewrite Nat.Div0.mod_add. by apply Nat.mod_small.
Qed.

Lemma distance_unique n k w o : (w < n)%nat -> (o < n)%nat -> ((k + o) mod n = w)%nat ->
  distance n k w = o.
Proof.
  intros Hw Ho Heq. pose proof (distance_reaches n k w Hw) as Hd.
  assert (Hdn : (distance n k w < n)%nat) by (apply Nat.mod_upper_bound; lia).
  assert (He : ((k + distance n k w) mod n = (k + o) mod n)%nat) by congruence. clear Hd Heq.
  revert Hdn He. generalize (distance n k w). intros d Hdn Hd.
  rewrite <- (Nat.Div0.add_mod_idemp_l k), <- (Nat.Div0.add_mod_idemp_l k o) in Hd.
  pose proof (Nat.mod_upper_bound k n). set (k' := (k mod n)%nat) in *.
  assert (Hk' : forall x, (x < n)%nat -> ((k' + x) mod n = if (k' + x <? n) then k' + x else k' + x - n)%nat).
  { intros x Hx. destruct (k' + x <? n)%nat eqn:Hlt; bool_prop; [by apply Nat.mod_small|].
    symmetry. apply (Nat.mod_unique _ _ 1); lia. }
  rewrite (Hk' d), (Hk' o) in Hd by done. revert Hd. do 2 case_if; bool_prop; lia.
Qed.

(** A waiting worker is served within one round. Each time the consumer takes a batch
    while worker [w]'s slot is full, it takes [w]'s own batch or moves strictly closer to
    [w]; the distance is below the number of workers, so at most that many batches are
    delivered before [w]'s, however fast the other workers refill their slots. *)
Theorem rotation_serves_waiting_worker (endpoints : list string) (k w : nat) (s s' : mstate)
  (b b' : Batch) (k' : nat) (Hw : m_slots s !! w = Some (Some b)) (Hf : m_failure s = None)
  (Ho : m_closed s = false) (Ht : take_step endpoints k s = s')
  (Hc : m_consumer s' = Yielding b' k') :
  let n := length (m_slots s) in
  (distance n k w < n)%nat /\
  ((b' = b /\ m_slots s' !! w = Some None) \/
   (m_slots s' !! w = Some (Some b) /\ (distance n k' w < distance n k w)%nat)).
Proof.
  cbn zeta. assert (Hwn : (w < length (m_slots s))%nat) by by eapply lookup_lt_Some.
  set (n := length (m_slots s)) in *.
  assert (Hdn : (distance n k w < n)%nat) by (apply Nat.mod_upper_bound; lia). split; [done|].
  unfold take_step in Ht. rewrite Hf, Ho in Ht. fold n in Ht.
  destruct (scan n 0 k (m_slots s)) as [[v bv]|] eqn:Hs; [|by rewrite <- Ht in Hc].
  subst s'. simpl in Hc. injection Hc as <- <-.
  apply scan_Some in Hs as (Hv & o & Hon & Hvo & Hfirst). fold n in Hvo, Hfirst.
  assert (Hod : (o <= distance n k w)%nat).
  { destruct (decide (o <= distance n k w)%nat) as [|Hgt]; [done|exfalso].
    specialize (Hfirst (distance n k w)). rewrite distance_reaches in Hfirst by done.
    rewrite Hw in Hfirst. assert (Some (Some b) = Some None) by (apply Hfirst; [lia|done]). done. }
  destruct (decide (v = w)) as [->|Hne].
  - left. rewrite Hv in Hw. injection Hw as <-. split; [done|]. simpl.
    by rewrite list_lookup_insert_eq.
  - right. simpl. rewrite list_lookup_insert_ne by done. split; [done|].
    assert (Hlt : (o < distance n k w)%nat).
    { destruct (decide (o = distance n k w)) as [->|]; [|lia].
      rewrite distance_reaches in Hvo by done. done. }
    rewrite (distance_unique n ((v + 1) mod n) w (distance n k w - o - 1)); [lia|done|lia|].
    rewrite Hvo, Nat.Div0.add_mod_idemp_l, <- Nat.add_assoc, Nat.Div0.add_mod_idemp_l.
    rewrite <- (distance_reaches n k w Hwn) at 2.
    replace (k + o + (1 + (distance n k w - o - 1)))%nat with (k + distance n k w)%nat by lia.
    done.
Qed.

(** ** Concrete schedules *)

Lemma exec_all_reachable endpoints dev scripts ls s s' :
  reachable endpoints dev scripts s -> exec_all endpoints dev ls s = Some s' ->
  reachable endpoints dev scripts s'.
Proof.
  revert s; induction ls as [|l ls IH]; intros s Hs; simpl; [by intros [= <-]|].
  destruct (exec endpoints dev l s) as [s1|] eqn:He; [|done]. simpl. intros H1.
  eapply IH; [|exact H1]. by eapply reach_step.
Qed.

Definition small_batch (source n : Z) : Batch :=
  bare_batch (Some source) (Some n) (Tensor int64 cpu [1%nat] [n]).

Definition two_scripts : list script :=
  [MkScript [small_batch 0 10; small_batch 0 11] (Ok tt); MkScript [small_batch 0 20] (Ok tt)].

Definition two_endpoints : list string := ["tcp://a:1"; "tcp://b:2"].

(** Worker 0 publishes and its batch is taken; worker 1 publishes; worker 0 again. *)
Definition example_schedule : list label :=
  [Consumer; Reader 0; Reader 0; Consumer; Consumer; Reader 1; Reader 1; Reader 0; Reader 0;
   Reader 0; Consumer; Consumer; Consumer; Consumer; Reader 1; Reader 0; Reader 1].

Definition reached (ls : list label) (scripts : list script) : mstate :=
  default (new_readers scripts) (exec_all two_endpoints cpu ls (new_readers scripts)).

Lemma reached_reachable ls scripts :
  is_some (exec_all two_endpoints cpu ls (new_readers scripts)) = true ->
  reachable two_endpoints cpu scripts (reached ls scripts).
Proof.
  intros Hs. unfold reached.
  destruct (exec_all two_endpoints cpu ls (new_readers scripts)) as [s|] eqn:He; [|done].
  eapply exec_all_reachable; [apply reach_init|exact He].
Qed.

Lemma group_delivers_in_order_witness :
  worker <$> m_out (reached example_schedule two_scripts) = [0; 1; 0] /\
  exists received, Forall2 (on_device_of cpu) received (m_out (reached example_schedule two_scripts)).
Proof.
  split; [vm_compute; reflexivity|].
  destruct (group_delivers_in_order two_endpoints cpu two_scripts
    (reached example_schedule two_scripts)) as (received & Hr & _);
    [apply reached_reachable; vm_compute; reflexivity|].
  exists received. exact Hr.
Defined.


(** Closed while worker 0 holds a batch it cannot publish. *)
Definition closed_schedule : list label :=
  [Consumer; Reader 0; Reader 0; Reader 0; Close].


Definition full_slots : mstate :=
  MkState [Some (small_batch 0 1); Some (small_batch 1 2); Some (small_batch 2 3)]
    [false; false; false] None false [] (Waiting 1) [] [].

Lemma rotation_serves_waiting_worker_witness :
  m_slots (take_step [] 1 full_slots) !! 0%nat = Some (Some (small_batch 0 1)) /\
  (distance 3 2 0 < distance 3 1 0)%nat.
Proof.
  destruct (rotation_serves_waiting_worker [] 1 0 full_slots (take_step [] 1 full_slots)
    (small_batch 0 1) (small_batch 1 2) 2 eq_refl eq_refl eq_refl eq_refl eq_refl)
    as (_ & [[Hb _]|[Hs Hd]]).
  - exfalso. vm_compute in Hb. discriminate Hb.
  - split; [exact Hs|exact Hd].
Defined.
