(* ===== verification/Stdio.v ===== *)
(** * Interactive workers ([stdio.py]: [StdioEnv]; [kernel.py]: [KernelEnv])

    An environment object, and the observation iterators it hands out. An
    iterator is a suspended generator: it may be resumed, dropped or kept while
    other operations run, so it is a value of its own ([iter]) and every
    resumption is an operation on the environment. The run token decides whether
    an iterator still owns the connection.

    [flavor] holds the class attributes that [KernelEnv] overrides. *)

From S2P Require Import Prelude Monad Batch Device Wire Terminal PoolBatch Pool.

(** ** Classes and state *)

Record flavor := MkFlavor {
  f_name : string;
  f_feature : Z;
  f_request_kind : Z;
  f_kernel : bool;
}.

Definition stdio_flavor : flavor := MkFlavor "StdioEnv" (Z.shiftl 1 11) 9 false.
Definition kernel_flavor : flavor := MkFlavor "KernelEnv" (Z.shiftl 1 13) 10 true.

(** What [json.loads] gives for a guest event: an object, with its ["event"] entry when it
    is a string, or anything else. *)
Inductive json_value :=
  | JObject (event : option string) (text : list Z)
  | JOther.

(** The environment. [e_conn] is the connection with its socket's state; sockets are
    numbered in order of creation; [e_sent] records what [sendall] was given. *)
Record Env (S D : Type) := MkEnv {
  e_conn : option (nat * S);
  e_stream : D;
  e_names : gmap Z (gmap Z string);
  e_reading : bool;
  e_closed : bool;
  e_run : Z;
  e_needs_input : bool;
  e_max_action : Z;
  e_exit_code : option Z;
  e_event : option json_value;
  e_result : option json_value;
  e_created : nat;
  e_shut : list nat;
  e_sent : list (list Z);
}.
Arguments MkEnv {S D}.
Arguments e_conn {S D}.
Arguments e_stream {S D}.
Arguments e_names {S D}.
Arguments e_reading {S D}.
Arguments e_closed {S D}.
Arguments e_run {S D}.
Arguments e_needs_input {S D}.
Arguments e_max_action {S D}.
Arguments e_exit_code {S D}.
Arguments e_event {S D}.
Arguments e_result {S D}.
Arguments e_created {S D}.
Arguments e_shut {S D}.
Arguments e_sent {S D}.

(** A generator of [_read]: created, suspended at a [yield] with the connection it
    captured, or finished. *)
Inductive iter_state := NotStarted | Suspended (conn : nat) | Finished.
Record iter := MkIter { it_run : Z; it_first : bool; it_state : iter_state }.

(** What a resumption gives its caller. *)
Inductive item := Yielded (b : Batch) | Stopped | Raised (e : exn).

Section env.
Context {S D : Type} `{SocketOps S} `{NativeDecoder D}.
Context (fl : flavor) (column_device : device) (json_loads : list Z -> result json_value).
Notation env := (Env S D).
Notation M := (sx env exn).

Definition new_env : env :=
  MkEnv None new_stream ∅ false false 0 false 0 None None None 0 [] [].

(** ** Field updates *)

Definition set_sock (c : option (nat * S)) (e : env) : env :=
  MkEnv c (e_stream e) (e_names e) (e_reading e) (e_closed e) (e_run e) (e_needs_input e)
    (e_max_action e) (e_exit_code e) (e_event e) (e_result e) (e_created e) (e_shut e) (e_sent e).
Definition set_decoder (d : D) (e : env) : env :=
  MkEnv (e_conn e) d (e_names e) (e_reading e) (e_closed e) (e_run e) (e_needs_input e)
    (e_max_action e) (e_exit_code e) (e_event e) (e_result e) (e_created e) (e_shut e) (e_sent e).
Definition set_env_names (n : gmap Z (gmap Z string)) (e : env) : env :=
  MkEnv (e_conn e) (e_stream e) n (e_reading e) (e_closed e) (e_run e) (e_needs_input e)
    (e_max_action e) (e_exit_code e) (e_event e) (e_result e) (e_created e) (e_shut e) (e_sent e).
Definition set_reading (b : bool) (e : env) : env :=
  MkEnv (e_conn e) (e_stream e) (e_names e) b (e_closed e) (e_run e) (e_needs_input e)
    (e_max_action e) (e_exit_code e) (e_event e) (e_result e) (e_created e) (e_shut e) (e_sent e).
Definition set_request (needs : bool) (n : Z) (e : env) : env :=
  MkEnv (e_conn e) (e_stream e) (e_names e) (e_reading e) (e_closed e) (e_run e) needs n
    (e_exit_code e) (e_event e) (e_result e) (e_created e) (e_shut e) (e_sent e).
Definition set_exit (x : option Z) (e : env) : env :=
  MkEnv (e_conn e) (e_stream e) (e_names e) (e_reading e) (e_closed e) (e_run e)
    (e_needs_input e) (e_max_action e) x (e_event e) (e_result e) (e_created e) (e_shut e)
    (e_sent e).
Definition set_events (ev r : option json_value) (e : env) : env :=
  MkEnv (e_conn e) (e_stream e) (e_names e) (e_reading e) (e_closed e) (e_run e)
    (e_needs_input e) (e_max_action e) (e_exit_code e) ev r (e_created e) (e_shut e) (e_sent e).
Definition set_closed (e : env) : env :=
  MkEnv (e_conn e) (e_stream e) (e_names e) (e_reading e) true (e_run e) (e_needs_input e)
    (e_max_action e) (e_exit_code e) (e_event e) (e_result e) (e_created e) (e_shut e) (e_sent e).
Definition add_sent (bs : list Z) (e : env) : env :=
  MkEnv (e_conn e) (e_stream e) (e_names e) (e_reading e) (e_closed e) (e_run e)
    (e_needs_input e) (e_max_action e) (e_exit_code e) (e_event e) (e_result e) (e_created e)
    (e_shut e) (e_sent e ++ [bs]).

(** ** Lifecycle *)

Definition _cancel_run (e : env) : env :=
  MkEnv None (e_stream e) (e_names e) false (e_closed e) (e_run e + 1) false 0 (e_exit_code e)
    (e_event e) (e_result e) (e_created e)
    (e_shut e ++ match e_conn e with Some (i, _) => [i] | None => [] end) (e_sent e).

Definition close_env (e : env) : env := _cancel_run (set_closed e).

Definition _clear_events (e : env) : env :=
  if f_kernel fl then set_events None None e else e.

Definition class_msg (msg : string) : string := f_name fl +:+ msg.

Definition enter_env : M unit :=
  do! closed := sgets e_closed in
  if closed then sraise (Exn RuntimeError (class_msg " is closed")) else sret tt.

(** The exceptions a socket operation is reported as. *)
Definition wrap_os (timeout_msg error_msg : string) (x : exn) : exn :=
  if isinstance_exc (exn_class x) TimeoutError then Exn TimeoutError (class_msg timeout_msg)
  else if isinstance_exc (exn_class x) OSError then Exn ConnectionError (class_msg error_msg)
  else x.

(** [reset]; [connect] is what [socket.create_connection] does. *)
Definition reset (connect : res exn S) : M iter :=
  do! closed := sgets e_closed in
  if closed then sraise (Exn RuntimeError (class_msg " is closed")) else
  run! smodify _cancel_run in
  run! smodify (set_exit None) in
  run! smodify _clear_events in
  run! smodify (set_decoder new_stream) in
  run! smodify (set_env_names ∅) in
  match connect with
  | Raise x => sraise (wrap_os " connection timed out while starting a run"
                         " connection failed while starting a run" x)
  | Ok s =>
      run! smodify (fun e =>
        MkEnv (Some (e_created e, s)) (e_stream e) (e_names e) true (e_closed e) (e_run e)
          (e_needs_input e) (e_max_action e) (e_exit_code e) (e_event e) (e_result e)
          (e_created e + 1) (e_shut e) (e_sent e)) in
      do! run := sgets e_run in
      sret (MkIter run true NotStarted)
  end.

(** [struct.pack("<I", len(action)) + action] *)
Definition action_frame (action : list Z) : result (list Z) :=
  let! header := pack [4%nat] [Z.of_nat (length action)] in Ok (header ++ action).

(** [StdioEnv.step]; [action] is [None] when it is not a [bytes] object, and [send] is what
    [sendall] does. *)
Definition step (action : option (list Z)) (send : option exn) : M iter :=
  do! e := sgets id in
  if e_closed e then sraise (Exn RuntimeError (class_msg " is closed"))
  else if e_reading e then sraise (Exn RuntimeError "Consume all observations before taking an action")
  else if negb (e_needs_input e) || negb (is_some (e_conn e)) then
    sraise (Exn RuntimeError "The target is not waiting for input; call reset first")
  else
  match action with
  | None => sraise (Exn TypeError "Stdio actions must be bytes")
  | Some bytes =>
      if negb ((1 <=? Z.of_nat (length bytes)) && (Z.of_nat (length bytes) <=? e_max_action e)) then
        sraise (Exn ValueError ("Action must contain 1 to " +:+ pretty (e_max_action e) +:+ " bytes"))
      else
      run! smodify _clear_events in
      run! smodify (set_request false 0) in
      do! frame := slift (action_frame bytes) in
      run! smodify (add_sent frame) in
      match send with
      | Some x =>
          if isinstance_exc (exn_class x) OSError then
            run! smodify _cancel_run in
            sraise (wrap_os " connection timed out while sending an action"
                      " connection failed while sending an action" x)
          else sraise x
      | None =>
          run! smodify (set_reading true) in
          do! run := sgets e_run in
          sret (MkIter run false NotStarted)
      end
  end.

(** [KernelEnv.step]: one printable ASCII line. *)
Definition kernel_line (bytes : list Z) : bool :=
  match last bytes with
  | Some 10 => (length (List.filter (Z.eqb 10) bytes) =? 1)%nat &&
               forallb (fun v => (32 <=? v) && (v <=? 126)) (removelast bytes)
  | _ => false
  end.

Definition kernel_step (action : option (list Z)) (send : option exn) : M iter :=
  match action with
  | None => sraise (Exn TypeError "Kernel actions must be bytes")
  | Some bytes =>
      if negb (kernel_line bytes) then
        sraise (Exn ValueError "Kernel actions need one printable ASCII command and a newline")
      else step action send
  end.

(** ** Resuming an iterator *)

Definition to_exn (e : trace_error) : exn :=
  match e with PyError x => x | _ => Exn RuntimeError "unexpected end of stream" end.

(** A receive on the connection the iterator captured; a socket that is no longer the
    environment's has been closed. *)
Definition receive_on (conn size : nat) : M (list Z) := fun e =>
  match e_conn e with
  | Some (i, s) =>
      if (i =? conn)%nat then
        match _receive size false false s with
        | (s', Ok bs) => (set_sock (Some (i, s')) e, Ok bs)
        | (s', Raise x) => (set_sock (Some (i, s')) e, Raise (to_exn x))
        end
      else (e, Raise (Exn OSError "Bad file descriptor"))
  | None => (e, Raise (Exn OSError "Bad file descriptor"))
  end.

Definition decode_on (frame : list Z) : M decoded := szoom e_stream set_decoder (decode frame).

Definition _guest_event (payload : list Z) : M unit :=
  if f_kernel fl then
    do! v := slift (json_loads payload) in
    match v with
    | JObject (Some name) _ =>
        smodify (fun e => set_events (Some v)
          (if String.eqb name "result" then Some v else e_result e) e)
    | _ => sraise (Exn ValueError "Invalid guest adapter event")
    end
  else sraise (Exn RuntimeError "Unexpected guest adapter event").

(** How one frame leaves the loop of [_read]. *)
Inductive frame_end := Next | YieldBatch (b : Batch) | Boundary | Exit.

Definition stdio_data_kinds : list Z :=
  [_BLOCKS; _REGISTERS; _MEMORY; 12; 13; 14; 15; 16].

Definition handle_frame (d : decoded) : M frame_end :=
  let kind := d_kind d in
  if kind =? _REGISTER_SCHEMA then
    do! update := slift (match d_payload d with PSchema u => Ok u | _ => bad_payload end) in
    run! smodify (fun e => set_env_names
      (<[d_source d := update ∪ default ∅ (e_names e !! d_source d)]> (e_names e)) e) in
    sret Next
  else if bool_decide (kind ∈ stdio_data_kinds) then
    do! names := sgets (fun e => e_names e !! d_source d) in
    do! b := slift (_batch column_device kind (d_source d) (Z.to_nat (d_count d)) (d_sequence d)
                      (d_payload d) names false) in
    sret (YieldBatch b)
  else if kind =? f_request_kind fl then
    run! smodify (set_request true (d_detail d)) in sret Boundary
  else if kind =? _COMPLETE then
    run! smodify (set_exit (Some (d_detail d))) in sret Exit
  else if kind =? _ERROR then
    do! failure := slift (match od_get (d_detail d) _FAILURES with
                          | Some f => Ok f | None => throw KeyError "detail" end) in
    sraise (Exn RuntimeError ("Incomplete trace: " +:+ failure.1))
  else if kind =? 11 then
    do! bs := slift (as_bytes (d_payload d)) in
    run! _guest_event bs in sret Next
  else sret Next.

Definition cancelled : exn := Exn RuntimeError "This observation iterator belongs to a cancelled run".

(** One iteration of the loop: the check, the frame, and what it does. *)
Definition read_frame (run : Z) (conn : nat) (first : bool) : M frame_end :=
  do! current := sgets e_run in
  if negb (run =? current) then sraise cancelled else
  do! header := receive_on conn 32 in
  do! size := slift (native_payload_size header) in
  do! payload := receive_on conn size in
  do! d := decode_on (header ++ payload) in
  if first && (negb (d_kind d =? 1) || negb (has (d_detail d) (f_feature fl))) then
    sraise (Exn RuntimeError (class_msg " requires a matching interactive worker"))
  else handle_frame d.

(** The loop until a [yield], a [return] or an exception; [None] when the fuel ran out. *)
Fixpoint read_until (fuel : nat) (run : Z) (conn : nat) (first : bool) : M (option frame_end) :=
  match fuel with
  | O => sret None
  | Datatypes.S fuel =>
      do! r := read_frame run conn first in
      match r with
      | Next => read_until fuel run conn false
      | _ => sret (Some r)
      end
  end.

(** The [finally] block of [_read]. *)
Definition read_finally (run : Z) (reached_boundary : bool) (e : env) : env :=
  if run =? e_run e then
    let e := set_reading false e in
    if reached_boundary then e else _cancel_run e
  else e.

Definition read_except (x : exn) : exn :=
  wrap_os " connection timed out before an input request or exit"
    " connection failed before an input request or exit" x.

(** The body of the generator from where it stands. *)
Definition resume_body (fuel : nat) (it : iter) : M (nat * option frame_end) :=
  match it_state it with
  | Suspended conn =>
      do! r := read_until fuel (it_run it) conn (it_first it) in sret (conn, r)
  | _ =>
      do! e := sgets id in
      match e_conn e with
      | Some (conn, _) =>
          if negb (it_run it =? e_run e) then sraise cancelled else
          do! r := read_until fuel (it_run it) conn (it_first it) in sret (conn, r)
      | None => sraise cancelled
      end
  end.

(** [next(iterator)]; [None] when the fuel ran out. *)
Definition next_item (fuel : nat) (it : iter) (e : env) : env * iter * option item :=
  let done := MkIter (it_run it) false Finished in
  match it_state it with
  | Finished => (e, it, Some Stopped)
  | _ =>
      match resume_body fuel it e with
      | (e', Ok (conn, Some (YieldBatch b))) =>
          (e', MkIter (it_run it) false (Suspended conn), Some (Yielded b))
      | (e', Ok (_, Some Boundary)) => (read_finally (it_run it) true e', done, Some Stopped)
      | (e', Ok (_, Some _)) => (read_finally (it_run it) false e', done, Some Stopped)
      | (e', Ok (_, None)) => (e', it, None)
      | (e', Raise x) => (read_finally (it_run it) false e', done, Some (Raised (read_except x)))
      end
  end.

(** Dropping an iterator: [GeneratorExit] at its [yield] runs the [finally] block; a
    generator that never started has none to run. *)
Definition drop_iter (it : iter) (e : env) : env * iter :=
  match it_state it with
  | Suspended _ => (read_finally (it_run it) false e, MkIter (it_run it) false Finished)
  | _ => (e, MkIter (it_run it) (it_first it) Finished)
  end.

(** [_info] *)
Definition _info (e : env) : bool * option Z := (e_needs_input e, e_exit_code e).
End env.
