(* ===== verification/StdioProofs.v ===== *)
(** * Interactive runs are owned by one iterator ([stdio.py], [kernel.py])

    The invariant of an environment and the iterators it handed out, over every
    sequence of operations: at most one unfinished iterator owns the current
    run, no socket is leaked, a boundary means exactly one of "waiting for
    input" and "exited". *)

From S2P Require Import Prelude Monad Batch Device Wire Terminal PoolBatch Pool PoolReceive Stdio.

Section proofs.
Context {S D : Type} `{SocketLaws S} `{NativeDecoder D}.
Context (fl : flavor) (column_device : device) (json_loads : list Z -> result json_value).
Notation env := (Env S D).
Implicit Types (e : env) (it : iter).

(** ** What reading frames leaves alone *)

(** The fields that only the lifecycle operations change. *)
Definition same_life e e' : Prop :=
  e_run e' = e_run e /\ e_reading e' = e_reading e /\ e_closed e' = e_closed e /\
  e_created e' = e_created e /\ e_shut e' = e_shut e /\ e_sent e' = e_sent e /\
  fst <$> e_conn e' = fst <$> e_conn e.

Definition same_request e e' : Prop :=
  e_needs_input e' = e_needs_input e /\ e_max_action e' = e_max_action e /\
  e_exit_code e' = e_exit_code e.

Definition same e e' : Prop := same_life e e' /\ same_request e e'.

Lemma same_refl e : same e e.
Proof. by repeat split. Qed.

Lemma same_trans e1 e2 e3 : same e1 e2 -> same e2 e3 -> same e1 e3.
Proof. unfold same, same_life, same_request. naive_solver congruence. Qed.

(** What is left on the connection. *)
Definition left_over e : nat :=
  match e_conn e with Some (_, s) => length (contents s) | None => 0 end.

Lemma receive_on_wp conn size e :
  wp (receive_on conn size)
    (fun bs e' => same e e' /\ length bs = size /\ left_over e = (size + left_over e')%nat)
    (fun x e' => same e e') e.
Proof.
  unfold receive_on, wp. destruct (e_conn e) as [[i s]|] eqn:Hc; [|apply same_refl].
  destruct (i =? conn)%nat; [|apply same_refl].
  pose proof (receive_wp size false false s) as Hw. unfold wp in Hw.
  assert (Hs : forall s', same e (set_sock (Some (i, s')) e)).
  { intros s'. unfold same, same_life, same_request. simpl. rewrite Hc. by split_and!. }
  destruct (_receive size false false s) as [s' [bs|x]].
  - destruct Hw as [Hl Hcont]. split_and!; [apply Hs|done|].
    unfold left_over. simpl. rewrite Hc, Hcont, length_app. lia.
  - apply Hs.
Qed.

(** What handling a frame may change, by how it ends. *)
Definition frame_post e (r : frame_end) e' : Prop :=
  same_life e e' /\ left_over e' = left_over e /\
  match r with
  | Boundary => e_needs_input e' = true /\ e_exit_code e' = e_exit_code e
  | Exit => is_some (e_exit_code e') = true /\ e_needs_input e' = e_needs_input e /\
            e_max_action e' = e_max_action e
  | Next | YieldBatch _ => same_request e e'
  end.

Lemma handle_frame_wp d e :
  wp (handle_frame fl column_device json_loads d) (frame_post e)
    (fun x e' => same e e') e.
Proof.
  unfold handle_frame. repeat (apply wp_if; intros ?).
  - apply wp_bind, wp_lift; [intros u _|intros; apply same_refl].
    apply wp_bind, wp_modify, wp_ret. by repeat split.
  - apply wp_bind, wp_gets, wp_bind, wp_lift; [intros b _|intros; apply same_refl].
    apply wp_ret. by repeat split.
  - apply wp_bind, wp_modify, wp_ret. by repeat split.
  - apply wp_bind, wp_modify, wp_ret. by repeat split.
  - apply wp_bind, wp_lift; [intros f _|intros; apply same_refl]. apply wp_raise, same_refl.
  - apply wp_bind, wp_lift; [intros bs _|intros; apply same_refl]. apply wp_bind.
    unfold _guest_event. apply wp_if; intros _; [|apply wp_raise, same_refl].
    apply wp_bind, wp_lift; [intros v _|intros; apply same_refl].
    destruct v as [[name|] text|]; [|apply wp_raise, same_refl..].
    apply wp_modify, wp_ret. by repeat split.
  - apply wp_ret. by repeat split.
Qed.

Lemma decode_on_wp frame e :
  wp (decode_on frame) (fun _ e' => same e e' /\ left_over e' = left_over e)
    (fun _ e' => same e e') e.
Proof.
  unfold decode_on. apply wp_zoom. unfold wp.
  destruct (decode frame (e_stream e)) as [d [x|x]]; by repeat split.
Qed.

(** The effect of reading one frame. *)
Definition read_post e (r : frame_end) e' : Prop :=
  same_life e e' /\ (left_over e' < left_over e)%nat /\
  match r with
  | Boundary => e_needs_input e' = true /\ e_exit_code e' = e_exit_code e
  | Exit => is_some (e_exit_code e') = true /\ e_needs_input e' = e_needs_input e /\
            e_max_action e' = e_max_action e
  | Next | YieldBatch _ => same_request e e'
  end.

Lemma read_frame_wp run conn first e :
  wp (read_frame fl column_device json_loads run conn first)
    (fun r e' => run = e_run e /\ read_post e r e') (fun x e' => same e e') e.
Proof.
  unfold read_frame. apply wp_bind, wp_gets. apply wp_if; intros Hrun; [apply wp_raise, same_refl|].
  bool_prop. apply wp_bind. eapply wp_mono; [apply receive_on_wp| |done].
  intros header e1 (Hs1 & Hl1 & Hc1). apply wp_bind, wp_lift; [intros n _|done].
  apply wp_bind. eapply wp_mono; [apply receive_on_wp| |intros; by eapply same_trans].
  intros payload e2 (Hs2 & Hl2 & Hc2). pose proof (same_trans _ _ _ Hs1 Hs2) as H12.
  apply wp_bind. eapply wp_mono; [apply decode_on_wp| |intros; by eapply same_trans].
  intros d e3 (Hs3 & Hc3). pose proof (same_trans _ _ _ H12 Hs3) as H123. pose proof H123 as [Hlife Hreq].
  apply wp_if; intros _; [by apply wp_raise|].
  eapply wp_mono; [apply handle_frame_wp| |intros; by eapply same_trans].
  intros r e4 (Hl4 & Hc4 & Hr4). split; [done|]. split_and!.
  - unfold same_life in *. naive_solver congruence.
  - lia.
  - unfold same_request in *. destruct r; naive_solver congruence.
Qed.

Lemma read_until_wp fuel run conn first e :
  wp (read_until fl column_device json_loads fuel run conn first)
    (fun o e' => match o with
       | None => (fuel <= left_over e)%nat /\ same e e'
       | Some r => run = e_run e /\ r <> Next /\ read_post e r e'
       end) (fun x e' => same e e') e.
Proof.
  revert first e; induction fuel as [|fuel IH]; intros first e; simpl.
  { apply wp_ret. split; [lia|apply same_refl]. }
  apply wp_bind. eapply wp_mono; [apply read_frame_wp| |done].
  intros r e1 (Hrun & Hlife & Hlt & Hreq). destruct r; try (by apply wp_ret).
  eapply wp_mono; [apply IH| |].
  - intros [r|] e2.
    + intros (_ & Hne & Hlife2 & Hlt2 & Hreq2). split_and!; [done|done|].
      split_and!; [unfold same_life in *; naive_solver congruence|lia|].
      unfold same_request in *. destruct r; naive_solver congruence.
    + intros (Hle & Hs). split; [lia|]. eapply same_trans; [|exact Hs]. by split.
  - intros x e2 Hs. eapply same_trans; [|exact Hs]. by split.
Qed.

(** ** The system: an environment and its iterators *)

Record sys := MkSys { sy_env : env; sy_iters : list iter }.

Inductive op :=
  | OpReset (connect : res exn S)
  | OpStep (action : option (list Z)) (send : option exn)
  | OpNext (k fuel : nat)
  | OpDrop (k : nat)
  | OpClose.

Definition step_of (action : option (list Z)) (send : option exn) : sx env exn iter :=
  if f_kernel fl then kernel_step fl action send else step fl action send.

Definition add_iter (r : env * res exn iter) (its : list iter) : sys :=
  match r with
  | (e, Ok it) => MkSys e (its ++ [it])
  | (e, Raise _) => MkSys e its
  end.

Definition exec_op (o : op) (s : sys) : sys :=
  match o with
  | OpReset connect => add_iter (reset fl connect (sy_env s)) (sy_iters s)
  | OpStep action send => add_iter (step_of action send (sy_env s)) (sy_iters s)
  | OpNext k fuel =>
      match sy_iters s !! k with
      | Some it =>
          let '(e, it', _) := next_item fl column_device json_loads fuel it (sy_env s) in
          MkSys e (<[k := it']> (sy_iters s))
      | None => s
      end
  | OpDrop k =>
      match sy_iters s !! k with
      | Some it => let '(e, it') := drop_iter it (sy_env s) in MkSys e (<[k := it']> (sy_iters s))
      | None => s
      end
  | OpClose => MkSys (close_env (sy_env s)) (sy_iters s)
  end.

Definition exec_ops (os : list op) (s : sys) : sys := fold_left (fun s o => exec_op o s) os s.

(** ** The invariant *)

Definition owned e : Prop :=
  forall i, (i < e_created e)%nat -> i ∈ e_shut e \/ fst <$> e_conn e = Some i.

Record env_ok e : Prop := {
  eo_reading : e_reading e = true -> is_some (e_conn e) = true /\ e_needs_input e = false;
  eo_needs : e_needs_input e = true -> is_some (e_conn e) = true;
  eo_max : e_needs_input e = false -> e_max_action e = 0;
  eo_exit : is_some (e_exit_code e) = true -> e_conn e = None;
  eo_closed : e_closed e = true -> e_conn e = None;
  eo_owned : owned e;
}.

Definition live it : bool := match it_state it with Finished => false | _ => true end.

(** An unfinished iterator of the current run. *)
Definition current e it : Prop := live it = true /\ it_run it = e_run e.

Record iters_ok e (its : list iter) : Prop := {
  io_current : forall k it, its !! k = Some it -> current e it ->
    e_reading e = true /\ forall c, it_state it = Suspended c -> fst <$> e_conn e = Some c;
  io_unique : forall j k it it', its !! j = Some it -> its !! k = Some it' ->
    current e it -> current e it' -> j = k;
  io_old : forall k it, its !! k = Some it -> it_run it <= e_run e;
}.

Definition sys_ok (s : sys) : Prop := env_ok (sy_env s) /\ iters_ok (sy_env s) (sy_iters s).

Lemma same_conn_some e e' : fst <$> e_conn e' = fst <$> e_conn e ->
  is_some (e_conn e') = is_some (e_conn e).
Proof. by destruct (e_conn e), (e_conn e'). Qed.

Lemma same_conn_none e e' : fst <$> e_conn e' = fst <$> e_conn e ->
  e_conn e = None -> e_conn e' = None.
Proof. intros Hc Hn. rewrite Hn in Hc. by destruct (e_conn e'). Qed.

Lemma same_env_ok e e' : same e e' -> env_ok e -> env_ok e'.
Proof.
  intros [(Hrun & Hrd & Hcl & Hcr & Hsh & Hst & Hcn) (Hn & Hm & Hx)] [H1' H2' H3' H4' H5' H6'].
  split; rewrite ?Hrd, ?Hn, ?Hm, ?Hx, ?Hcl, ?(same_conn_some _ _ Hcn); auto.
  - intros Hs. by eapply same_conn_none, H4'.
  - intros Hs. by eapply same_conn_none, H5'.
  - unfold owned. by rewrite Hcr, Hsh, Hcn.
Qed.

Lemma cancel_env_ok e : owned e -> env_ok (_cancel_run e).
Proof.
  intros Ho. split; simpl; try done. intros i Hi. simpl in *.
  destruct (Ho i Hi) as [?|Hc]; left; [set_solver|].
  destruct (e_conn e) as [[j s]|]; [|done]. injection Hc as ->. set_solver.
Qed.

Lemma same_owned e e' : same_life e e' -> owned e -> owned e'.
Proof. intros (_ & _ & _ & Hcr & Hsh & _ & Hcn) Ho. unfold owned. by rewrite Hcr, Hsh, Hcn. Qed.

(** After a cancellation no iterator is current. *)
Lemma cancel_iters_ok e its : (forall k it, its !! k = Some it -> it_run it <= e_run e) ->
  iters_ok (_cancel_run e) its.
Proof.
  intros Hold. split; simpl.
  - intros k it Hk [_ Hr]. simpl in Hr. specialize (Hold k it Hk). lia.
  - intros j k it it' Hj _ [_ Hr]. simpl in Hr. specialize (Hold j it Hj). lia.
  - intros k it Hk. specialize (Hold k it Hk). lia.
Qed.

Lemma same_iters_ok e e' its : same_life e e' -> iters_ok e its -> iters_ok e' its.
Proof.
  intros (Hrun & Hrd & _ & _ & _ & _ & Hcn) [Hc Hu Ho].
  split; unfold current in *; rewrite ?Hrun, ?Hrd, ?Hcn; auto.
Qed.

(** A new iterator when no other is current. *)
Lemma add_iter_ok e its it :
  (forall k it, its !! k = Some it -> ~ current e it) ->
  (forall k it, its !! k = Some it -> it_run it <= e_run e) ->
  it_run it = e_run e -> it_state it = NotStarted -> e_reading e = true -> iters_ok e (its ++ [it]).
Proof.
  intros Hnc Hold Hrun Hst Hrd.
  assert (Hcase : forall k it', (its ++ [it]) !! k = Some it' ->
    its !! k = Some it' \/ (k = length its /\ it' = it)).
  { intros k it' Hk%lookup_app_Some. destruct Hk as [?|[? Hk]]; [by left|right].
    apply list_lookup_singleton_Some in Hk as [? ->]. split; [lia|done]. }
  split.
  - intros k it' Hk Hcur. destruct (Hcase k it' Hk) as [Hk'|[_ ->]].
    + by destruct (Hnc k it' Hk').
    + split; [done|]. by rewrite Hst.
  - intros j k it1 it2 Hj Hk H1' H2'.
    destruct (Hcase j it1 Hj) as [Hj'|[-> _]]; [by destruct (Hnc j it1 Hj')|].
    destruct (Hcase k it2 Hk) as [Hk'|[-> _]]; [by destruct (Hnc k it2 Hk')|done].
  - intros k it' Hk. destruct (Hcase k it' Hk) as [Hk'|[_ ->]]; [by eapply Hold|lia].
Qed.

Lemma clear_events_same e : same e (_clear_events fl e).
Proof. unfold _clear_events. destruct (f_kernel fl); by repeat split. Qed.

Lemma reset_ok connect s : sys_ok s -> sys_ok (exec_op (OpReset connect) s).
Proof.
  destruct s as [e its]. intros [He Hi]. unfold sys_ok. simpl in *. unfold reset, sbind, sgets.
  destruct (e_closed e) eqn:Hcl; [done|]. simpl.
  set (e1 := set_env_names ∅ (set_decoder new_stream (_clear_events fl (set_exit None (_cancel_run e))))).
  assert (Hok : env_ok e1 /\ e_closed e1 = false /\ e_exit_code e1 = None /\
    e_run e1 = e_run e + 1 /\ e_needs_input e1 = false /\ e_conn e1 = None /\ e_max_action e1 = 0).
  { unfold e1, _clear_events. pose proof (cancel_env_ok e (eo_owned _ He)) as [].
    destruct (f_kernel fl); split_and!; simpl; try done; by split. }
  assert (Hi1 : iters_ok e1 its).
  { pose proof (cancel_iters_ok e its (io_old _ _ Hi)) as Hc. unfold e1, _clear_events.
    destruct (f_kernel fl); (destruct Hc as [Hc1 Hc2 Hc3]; split; [exact Hc1|exact Hc2|exact Hc3]). }
  clearbody e1. destruct Hok as ([Hr Hn Hm Hx Hc Ho] & Hcl1 & Hex & Hrun & Hne & Hco & Hma).
  destruct connect as [s|x]; simpl.
  - split.
    + split; simpl; try done; try congruence.
      * rewrite Hex. done.
      * intros i Hi'. simpl in *. destruct (decide (i = e_created e1)) as [->|]; [by right|].
        destruct (Ho i) as [?|Hcn]; [lia|by left|]. by rewrite Hco in Hcn.
    + apply add_iter_ok; simpl; try done.
      * intros k it Hk [Hl Hru]. simpl in Hru. pose proof (io_old _ _ Hi k it Hk). lia.
      * intros k it Hk. pose proof (io_old _ _ Hi k it Hk). lia.
  - done.
Qed.

Lemma stdio_step_ok action send e its : env_ok e -> iters_ok e its ->
  sys_ok (add_iter (step fl action send e) its).
Proof.
  intros He Hi. unfold step, sbind, sgets. simpl.
  destruct (e_closed e); [done|]. destruct (e_reading e) eqn:Hrd; [done|].
  destruct (negb (e_needs_input e) || negb (is_some (e_conn e))) eqn:Hg; [done|].
  destruct action as [bytes|]; [|done]. case_if; [done|]. bool_prop. simpl.
  pose proof (clear_events_same e) as Hsame. set (e1 := _clear_events fl e) in *.
  clearbody e1. assert (He1 : env_ok (set_request false 0 e1)).
  { pose proof (same_env_ok _ _ Hsame He) as [H1' H2' H3' H4' H5' H6']. split; simpl; try done.
    intros Hr. by destruct (H1' Hr). }
  destruct Hsame as [Hlife Hreq]. pose proof (same_iters_ok _ _ _ Hlife Hi) as Hi1.
  assert (Hi2 : iters_ok (set_request false 0 e1) its) by (destruct Hi1; by split).
  unfold slift. destruct (action_frame bytes) as [frame|x]; [|by split]. simpl.
  set (e2 := add_sent frame (set_request false 0 e1)).
  assert (He2 : env_ok e2) by (destruct He1; by split).
  assert (Hi3 : iters_ok e2 its) by (destruct Hi2; by split).
  destruct send as [x|].
  - destruct (isinstance_exc (exn_class x) OSError); [|by split]. split.
    + apply cancel_env_ok, He2.
    + apply cancel_iters_ok, (io_old _ _ Hi3).
  - assert (Hrd2 : e_reading e2 = false) by (destruct Hlife as (_ & Hr & _); simpl; congruence).
    assert (Hcn : is_some (e_conn e2) = true).
    { destruct Hlife as (_ & _ & _ & _ & _ & _ & Hcn). simpl. rewrite (same_conn_some _ _ Hcn). done. }
    split.
    + destruct He2 as [_ H2' H3' H4' H5' H6']. by split.
    + apply add_iter_ok; try done; [|exact (io_old _ _ Hi3)].
      intros k it Hk Hcur. destruct (io_current _ _ Hi3 k it Hk Hcur). simpl in *. congruence.
Qed.

Lemma step_ok action send s : sys_ok s -> sys_ok (exec_op (OpStep action send) s).
Proof.
  intros [He Hi]. simpl. unfold step_of, kernel_step. destruct (f_kernel fl).
  - destruct action as [bytes|]; [|done]. case_if; [done|]. by apply stdio_step_ok.
  - by apply stdio_step_ok.
Qed.

Lemma close_ok s : sys_ok s -> sys_ok (exec_op OpClose s).
Proof.
  intros [He Hi]. simpl. split.
  - apply cancel_env_ok. destruct He; done.
  - apply cancel_iters_ok. simpl. apply (io_old _ _ Hi).
Qed.

(** Replacing an iterator by one that has finished. *)
Lemma insert_finished_ok e its k it :
  iters_ok e its -> it_run it <= e_run e -> it_state it = Finished -> iters_ok e (<[k := it]> its).
Proof.
  intros [Hc Hu Ho] Hrun Hf.
  assert (Hcase : forall j it', <[k := it]> its !! j = Some it' ->
    its !! j = Some it' /\ j <> k \/ it' = it).
  { intros j it' [(-> & <- & _)|[Hne Hj]]%list_lookup_insert_Some; [by right|left; by split]. }
  assert (Hnot : ~ current e it) by (intros [Hl _]; unfold live in Hl; by rewrite Hf in Hl).
  split.
  - intros j it' Hj Hcur. destruct (Hcase j it' Hj) as [[Hj' _]| ->]; [by eapply Hc|done].
  - intros j l it1 it2 Hj Hl H1' H2'.
    destruct (Hcase j it1 Hj) as [[Hj' _]| ->]; [|done].
    destruct (Hcase l it2 Hl) as [[Hl' _]| ->]; [|done]. by eapply Hu.
  - intros j it' Hj. destruct (Hcase j it' Hj) as [[Hj' _]| ->]; [by eapply Ho|done].
Qed.

(** The [finally] block without a boundary, after the run's frames were read. *)
Lemma finally_cancel_ok e e' its k it :
  owned e -> iters_ok e its -> its !! k = Some it -> same_life e e' ->
  (it_run it <> e_run e -> env_ok e') ->
  sys_ok (MkSys (read_finally (it_run it) false e')
            (<[k := MkIter (it_run it) false Finished]> its)).
Proof.
  intros Ho Hi Hk Hlife Hstale. pose proof (io_old _ _ Hi k it Hk) as Hold.
  pose proof (same_iters_ok _ _ _ Hlife Hi) as Hi'. pose proof Hlife as (Hrun & _).
  assert (Hi2 : iters_ok e' (<[k := MkIter (it_run it) false Finished]> its))
    by (apply insert_finished_ok; simpl; [done|congruence|done]).
  unfold read_finally. destruct (it_run it =? e_run e') eqn:Heq; bool_prop.
  - split; simpl.
    + apply cancel_env_ok. pose proof (same_owned _ _ Hlife Ho) as Ho'. exact Ho'.
    + apply cancel_iters_ok. exact (io_old _ _ Hi2).
  - split; simpl; [|done]. apply Hstale. congruence.
Qed.

Lemma resume_body_wp fuel it e :
  wp (resume_body fl column_device json_loads fuel it)
    (fun p e' =>
       (match it_state it with Suspended c => p.1 = c | _ => fst <$> e_conn e = Some p.1 end) /\
       match p.2 with
       | None => (fuel <= left_over e)%nat /\ same e e'
       | Some r => it_run it = e_run e /\ r <> Next /\ read_post e r e'
       end) (fun x e' => same e e') e.
Proof.
  assert (Hgo : forall c P, P c -> wp (do! r := read_until fl column_device json_loads fuel (it_run it) c (it_first it) in sret (c, r))
    (fun p e' => P p.1 /\ match p.2 with
       | None => (fuel <= left_over e)%nat /\ same e e'
       | Some r => it_run it = e_run e /\ r <> Next /\ read_post e r e'
       end) (fun x e' => same e e') e).
  { intros c P Hp. apply wp_bind. eapply wp_mono; [apply read_until_wp| |done].
    intros o e' Ho. apply wp_ret. by split. }
  unfold resume_body. destruct (it_state it) as [|c|].
  1,3: apply wp_bind, wp_gets; unfold id; destruct (e_conn e) as [[c s]|] eqn:Hc;
    [|apply wp_raise, same_refl]; apply wp_if; intros Hb; [apply wp_raise, same_refl|];
    by apply (Hgo c (fun c' => Some c = Some c')).
  by apply (Hgo c (fun c' => c' = c)).
Qed.

(** The connection an unfinished iterator that still reads is reading from. *)
Lemma current_conn e its k it c :
  iters_ok e its -> its !! k = Some it -> current e it ->
  match it_state it with Suspended c' => c = c' | _ => fst <$> e_conn e = Some c end ->
  fst <$> e_conn e = Some c.
Proof.
  intros Hi Hk Hcur Hc. destruct (io_current _ _ Hi k it Hk Hcur) as [_ Hs].
  destruct (it_state it) as [|c'|]; try done. subst. by apply Hs.
Qed.

Lemma yield_ok e e' its k it c :
  env_ok e -> iters_ok e its -> its !! k = Some it -> current e it -> same e e' ->
  fst <$> e_conn e = Some c ->
  sys_ok (MkSys e' (<[k := MkIter (it_run it) false (Suspended c)]> its)).
Proof.
  intros He Hi Hk Hcur Hs Hc. pose proof Hs as [Hlife _]. pose proof Hlife as (Hrun & Hrd & _ & _ & _ & _ & Hcn).
  split; simpl; [by eapply same_env_ok|].
  pose proof (same_iters_ok _ _ _ Hlife Hi) as [Hc' Hu Ho].
  assert (Hcur' : current e' it) by (unfold current; by rewrite Hrun).
  set (it2 := MkIter _ _ _).
  assert (Hcase : forall j it', <[k := it2]> its !! j = Some it' ->
    exists it0, its !! j = Some it0 /\ it_run it' = it_run it0 /\
      (current e' it' -> current e' it0) /\ (it' = it0 \/ j = k /\ it' = it2)).
  { intros j it' [(-> & <- & _)|[Hne Hj]]%list_lookup_insert_Some.
    - exists it. by split_and!; [| | |right].
    - exists it'. by split_and!; [| | |left]. }
  split.
  - intros j it' Hj Hcu. destruct (Hcase j it' Hj) as (it0 & Hj0 & _ & Hcu0 & [->|[-> ->]]).
    + by eapply Hc'.
    + split; [by apply (Hc' k it Hk)|]. simpl. intros ? [= <-]. congruence.
  - intros j l it1 it3 Hj Hl H1' H2'.
    destruct (Hcase j it1 Hj) as (j0 & ? & _ & ? & _). destruct (Hcase l it3 Hl) as (l0 & ? & _ & ? & _).
    eapply (Hu j l j0 l0); auto.
  - intros j it' Hj. destruct (Hcase j it' Hj) as (it0 & Hj0 & -> & _). by eapply Ho.
Qed.

Lemma boundary_ok e e' its k it :
  env_ok e -> iters_ok e its -> its !! k = Some it -> current e it -> read_post e Boundary e' ->
  sys_ok (MkSys (read_finally (it_run it) true e') (<[k := MkIter (it_run it) false Finished]> its)).
Proof.
  intros He Hi Hk Hcur (Hlife & _ & Hn & Hx).
  pose proof Hlife as (Hrun & Hrd & Hcl & Hcr & Hsh & _ & Hcn).
  destruct (io_current _ _ Hi k it Hk Hcur) as [Hread _]. destruct Hcur as [Hlive Hcr'].
  destruct (eo_reading _ He Hread) as [Hconn _].
  unfold read_finally. rewrite Hrun, Hcr', Z.eqb_refl. split; simpl.
  - destruct He as [H1' H2' H3' H4' H5' H6']. split; simpl; try done.
    + intros _. by rewrite (same_conn_some _ _ Hcn).
    + congruence.
    + rewrite Hx. intros Hs. by eapply same_conn_none, H4'.
    + rewrite Hcl. intros Hs. by eapply same_conn_none, H5'.
    + unfold owned. simpl. by rewrite Hcr, Hsh, Hcn.
  - set (done := MkIter (e_run e) false Finished).
    assert (Hlook : forall j it', <[k := done]> its !! j = Some it' ->
      it' = done \/ its !! j = Some it' /\ j <> k).
    { intros j it' [(-> & <- & _)|[Hne Hj]]%list_lookup_insert_Some; [by left|right; by split]. }
    assert (Hnone : forall j it', <[k := done]> its !! j = Some it' -> ~ current (set_reading false e') it').
    { intros j it' Hj [Hl Hr]. simpl in Hr. destruct (Hlook j it' Hj) as [->|[Hj' Hne]]; [done|].
      apply Hne. eapply (io_unique _ _ Hi j k); [done|done| |]; split; congruence. }
    split.
    + intros j it' Hj Hc. by destruct (Hnone j it' Hj).
    + intros j l it1 it2 Hj Hl Hc. by destruct (Hnone j it1 Hj).
    + intros j it' Hj. simpl. destruct (Hlook j it' Hj) as [->|[Hj' _]]; simpl; [lia|].
      pose proof (io_old _ _ Hi j it' Hj'). lia.
Qed.

Lemma insert_same_ok e its k it : its !! k = Some it -> iters_ok e its -> iters_ok e (<[k := it]> its).
Proof. intros Hk. by rewrite list_insert_id. Qed.

Lemma next_ok k fuel s : sys_ok s -> sys_ok (exec_op (OpNext k fuel) s).
Proof.
  destruct s as [e its]. intros Hok. pose proof Hok as [He Hi]. simpl in *.
  destruct (its !! k) as [it|] eqn:Hk; [|done]. unfold next_item.
  destruct (live it) eqn:Hlive; unfold live in Hlive.
  2:{ destruct (it_state it); try done. split; [done|by apply insert_same_ok]. }
  assert (Hl : live it = true) by done.
  pose proof (resume_body_wp fuel it e) as Hw. unfold wp in Hw.
  destruct (it_state it) as [|c0|] eqn:Hst; [..|done];
  destruct (resume_body fl column_device json_loads fuel it e) as [e' [[c [r|]]|x]]; cbn [fst snd] in Hw.
  1,4: destruct Hw as (Hc & Hrun & Hne & Hlife & Hlt & Hp);
    assert (Hcur : current e it) by (by split);
    assert (Hc' : fst <$> e_conn e = Some c) by (eapply (current_conn e its k it c); try done; by rewrite Hst);
    destruct r as [|b| |]; [done|eapply yield_ok; try done; by split| |];
      [by eapply (boundary_ok e e')|eapply (finally_cancel_ok e e'); [apply eo_owned, He|done..|congruence]].
  1,3: destruct Hw as (_ & _ & Hs); split; [by eapply same_env_ok|];
    apply insert_same_ok; [done|]; eapply same_iters_ok; [apply Hs|done].
  1,2: eapply (finally_cancel_ok e e'); [apply eo_owned, He|done|done|apply Hw|];
    intros _; by eapply same_env_ok.
Qed.

Lemma drop_ok k s : sys_ok s -> sys_ok (exec_op (OpDrop k) s).
Proof.
  destruct s as [e its]. intros [He Hi]. simpl in *.
  destruct (its !! k) as [it|] eqn:Hk; [|by split]. unfold drop_iter.
  destruct (it_state it) as [|c|] eqn:Hst.
  - split; [done|]. simpl. apply insert_finished_ok; [done| |done]. by eapply (io_old _ _ Hi k it).
  - by eapply (finally_cancel_ok e e); [apply eo_owned, He|done|done| |].
  - split; [done|]. simpl. apply insert_finished_ok; [done| |done]. by eapply (io_old _ _ Hi k it).
Qed.

Lemma exec_op_ok o s : sys_ok s -> sys_ok (exec_op o s).
Proof. destruct o; [apply reset_ok|apply step_ok|apply next_ok|apply drop_ok|apply close_ok]. Qed.

Lemma exec_ops_ok os s : sys_ok s -> sys_ok (exec_ops os s).
Proof.
  revert s; induction os as [|o os IH]; intros s Hs; [done|]. simpl. by apply IH, exec_op_ok.
Qed.

Lemma new_sys_ok : sys_ok (MkSys new_env []).
Proof. split; split; simpl; try done. intros i Hi. simpl in Hi. lia. Qed.

(** ** Single operations *)

Lemma next_stale fuel it e : live it = true -> it_run it <> e_run e ->
  next_item fl column_device json_loads (Datatypes.S fuel) it e =
  (e, MkIter (it_run it) false Finished, Some (Raised cancelled)).
Proof.
  intros Hl Hrun. assert (Hne : (it_run it =? e_run e) = false) by lia.
  assert (Hf : read_finally (it_run it) false e = e) by (unfold read_finally; by rewrite Hne).
  unfold live in Hl. unfold next_item, resume_body.
  destruct (it_state it) as [|c|]; [| |done].
  - unfold sbind at 1, sgets, id. destruct (e_conn e) as [[c s]|]; rewrite ?Hne; simpl; by rewrite Hf.
  - simpl. unfold read_frame, sbind, sgets. rewrite Hne. simpl. by rewrite Hf.
Qed.

Lemma drop_stale it e : it_run it <> e_run e -> (drop_iter it e).1 = e.
Proof.
  intros Hrun. unfold drop_iter, read_finally. destruct (it_state it); try done. simpl.
  by destruct (Z.eqb_spec (it_run it) (e_run e)).
Qed.

Definition restarts (o : op) e : bool :=
  match o with OpReset _ => negb (e_closed e) | OpClose => true | _ => false end.

Lemma restart_run o s : restarts o (sy_env s) = true ->
  e_run (sy_env (exec_op o s)) = e_run (sy_env s) + 1.
Proof.
  destruct o as [connect| | | |]; try done. simpl. intros Hc. unfold reset, sbind, sgets.
  destruct (e_closed (sy_env s)); [done|]. simpl. unfold _clear_events.
  by destruct connect, (f_kernel fl).
Qed.

(** What [next] does with the iterator that owns the run. *)
Definition next_spec e it (r : env * iter * option item) : Prop :=
  let '(e', it', o) := r in
  match o with
  | Some (Yielded b) => same e e' /\ current e' it' /\ (left_over e' < left_over e)%nat
  | Some Stopped =>
      it_state it' = Finished /\ e_reading e' = false /\ e_sent e' = e_sent e /\
      (e_needs_input e' = true /\ is_some (e_conn e') = true /\ e_exit_code e' = None /\
         e_run e' = e_run e
       \/ e_needs_input e' = false /\ e_conn e' = None /\ is_some (e_exit_code e') = true)
  | Some (Raised x) =>
      it_state it' = Finished /\ e_reading e' = false /\ e_needs_input e' = false /\
      e_conn e' = None /\ e_exit_code e' = None /\ e_sent e' = e_sent e
  | None => False
  end.

Lemma next_current fuel it e its k : env_ok e -> iters_ok e its -> its !! k = Some it ->
  current e it -> (left_over e < fuel)%nat ->
  next_spec e it (next_item fl column_device json_loads fuel it e).
Proof.
  intros He Hi Hk Hcur Hfuel. pose proof (io_current _ _ Hi k it Hk Hcur) as [Hrd _].
  destruct (eo_reading _ He Hrd) as [Hconn Hneeds].
  assert (Hex : e_exit_code e = None).
  { pose proof (eo_exit _ He) as Hx. destruct (e_exit_code e); [|done].
    by rewrite Hx in Hconn. }
  destruct Hcur as [Hl Hrun].
  assert (Hfin : forall b e', same_life e e' -> read_finally (it_run it) b e' =
    if b then set_reading false e' else _cancel_run (set_reading false e')).
  { intros b e' (Hr & _). unfold read_finally. by rewrite Hr, Hrun, Z.eqb_refl. }
  pose proof (resume_body_wp fuel it e) as Hw. unfold wp in Hw. unfold next_item.
  unfold live in Hl. destruct (it_state it) as [|c0|] eqn:Hst; [..|done];
  destruct (resume_body fl column_device json_loads fuel it e) as [e' [[c [r|]]|x]];
    cbn [fst snd] in Hw; simpl.
  2,5: lia.
  2,4: pose proof Hw as [Hlife (? & ? & ?)]; rewrite Hfin by done; pose proof Hlife as (_ & _ & _ & _ & _ & ? & _);
    simpl; split_and!; congruence.
  all: destruct Hw as (_ & _ & Hne & Hlife & Hlt & Hp); pose proof Hlife as (? & ? & ? & ? & ? & ? & Hcn);
    destruct r as [|b| |]; [done|..].
  1,4: split_and!; [by split|split; [done|simpl; congruence]|done].
  1,3: destruct Hp as [? ?]; rewrite Hfin by done; simpl; split_and!; [done..|left];
    rewrite (same_conn_some _ _ Hcn); split_and!; congruence.
  all: destruct Hp as (? & ? & ?); rewrite Hfin by done; simpl; by split_and!; [..|right].
Qed.
End proofs.
