(* ===== verification/StdioRuns.v ===== *)
(** * What an interactive run promises ([stdio.py], [kernel.py])

    The contract of [reset], [step], [next] and [close] over every sequence of
    operations, and the Gymnasium wrapper of [as_gym] as a client of it. The
    client's callables are programs that can only call [next] on the iterator
    they were given ([reducer]). *)

From S2P Require Import Prelude Monad Batch Device Wire Terminal PoolBatch Pool PoolReceive PoolRead.
From S2P Require Import Stdio StdioProofs.

(** ** Actions *)

(** One printable ASCII command and a newline. *)
Definition command_line (bytes : list Z) : Prop :=
  exists command, bytes = command ++ [10] /\ Forall (fun v => 32 <= v <= 126) command.

Lemma printable_forallb l :
  forallb (fun v => (32 <=? v) && (v <=? 126)) l = true <-> Forall (fun v => 32 <= v <= 126) l.
Proof.
  rewrite forallb_forall, List.Forall_forall. split; intros Hl v Hv; specialize (Hl v Hv); lia.
Qed.

Lemma filter_none (l : list Z) :
  Forall (fun v => 32 <= v <= 126) l -> List.filter (Z.eqb 10) l = [].
Proof.
  induction 1 as [|v l Hv _ IH]; [done|]. cbn [List.filter]. destruct (Z.eqb_spec 10 v); [lia|done].
Qed.

Lemma kernel_line_spec bytes : kernel_line bytes = true <-> command_line bytes.
Proof.
  unfold kernel_line, command_line. destruct bytes as [|b bs _] using rev_ind.
  { split; [done|]. intros (c & Hc & _). by destruct c. }
  rewrite last_snoc, removelast_last. split.
  - intros Hk. destruct (decide (b = 10)) as [->|Hb].
    + apply andb_prop in Hk as [_ Hp]. exists bs. by rewrite <- printable_forallb.
    + destruct b as [|p|p]; try done. do 4 (destruct p as [p|p|]; try done).
  - intros (c & Hc & Hp). apply app_inj_tail in Hc as [-> ->].
    rewrite List.filter_app, filter_none, (proj2 (printable_forallb c) Hp) by done. done.
Qed.

Section contract.
Context {S D : Type} `{SocketLaws S} `{NativeDecoder D}.
Context (fl : flavor) (column_device : device) (json_loads : list Z -> result json_value).
Notation env := (Env S D).

(** The environment accepts an action. *)
Definition waiting (e : env) : Prop :=
  e_closed e = false /\ e_reading e = false /\ e_needs_input e = true /\
  is_some (e_conn e) = true.

Definition acceptable (e : env) (bytes : list Z) : Prop :=
  1 <= Z.of_nat (length bytes) <= e_max_action e /\
  (f_kernel fl = true -> command_line bytes).

(** What an accepted action puts on the connection. *)
Definition framed (bytes : list Z) : list Z := le_bytes 4 (Z.of_nat (length bytes)) ++ bytes.

Lemma action_frame_framed bytes : Z.of_nat (length bytes) < 2 ^ 32 ->
  action_frame bytes = Ok (framed bytes).
Proof.
  intros Hl. unfold action_frame, pack. simpl length. rewrite Nat.eqb_refl. simpl negb. cbv iota.
  rewrite bool_decide_true; [|constructor; [unfold fits; lia|constructor]].
  cbn [rbind pack_fields]. unfold framed. by rewrite app_nil_r.
Qed.

Lemma cancel_conn (e : env) : e_conn (_cancel_run e) = None.
Proof. done. Qed.

Lemma inner_step_cases (action : option (list Z)) send (e : env) :
  e_max_action e < 2 ^ 32 ->
  match Stdio.step fl action send e with
  | (e', Ok it) => exists bytes, action = Some bytes /\ send = None /\ waiting e /\
      1 <= Z.of_nat (length bytes) <= e_max_action e /\
      it = MkIter (e_run e) false NotStarted /\ e_run e' = e_run e /\ e_conn e' = e_conn e /\
      e_sent e' = e_sent e ++ [framed bytes] /\ e_reading e' = true /\ e_needs_input e' = false
  | (e', Raise x) =>
      (e' = e /\ forall bytes, action = Some bytes -> waiting e ->
         ~ 1 <= Z.of_nat (length bytes) <= e_max_action e) \/
      (exists bytes y, action = Some bytes /\ send = Some y /\ waiting e /\
         1 <= Z.of_nat (length bytes) <= e_max_action e /\ e_needs_input e' = false /\
         e_reading e' = false /\
         (isinstance_exc (exn_class y) OSError = true -> e_conn e' = None /\
            (exn_class x = TimeoutError \/ exn_class x = ConnectionError)))
  end.
Proof.
  clear column_device json_loads. intros Hmax. unfold Stdio.step, sbind at 1, sgets at 1, id, waiting.
  destruct (e_closed e) eqn:Hcl; [left; naive_solver congruence|].
  destruct (e_reading e) eqn:Hrd; [left; naive_solver congruence|].
  destruct (e_needs_input e) eqn:Hn; [|left; naive_solver congruence].
  destruct (is_some (e_conn e)) eqn:Hc; [|left; naive_solver congruence]. cbn [negb orb].
  destruct action as [bytes|]; [|left; naive_solver].
  destruct (negb _) eqn:Hlen; bool_prop.
  { left. split; [done|]. intros ? [= <-] _. lia. }
  assert (Hb : 1 <= Z.of_nat (length bytes) <= e_max_action e) by lia.
  unfold sbind, smodify, slift. rewrite action_frame_framed by lia. unfold sgets.
  assert (Hev : forall e' : env, e_sent (_clear_events fl e') = e_sent e' /\
    e_run (_clear_events fl e') = e_run e' /\ e_conn (_clear_events fl e') = e_conn e' /\
    e_reading (_clear_events fl e') = e_reading e').
  { intros e'. unfold _clear_events. by destruct (f_kernel fl). }
  destruct (Hev e) as (Hs & Hr & Hco & Hre).
  destruct send as [y|].
  - destruct (isinstance_exc (exn_class y) OSError) eqn:Hos; right; exists bytes, y; split_and!; try done; [|simpl; congruence|congruence].
    intros _. split; [done|]. unfold wrap_os. rewrite Hos.
    destruct (isinstance_exc (exn_class y) TimeoutError); [by left|by right].
  - exists bytes. simpl. rewrite Hs, Hr, Hco. by split_and!.
Qed.

(** What an action does, for either class. *)
Definition step_spec (action : option (list Z)) (send : option exn) (e : env)
    (r : env * res exn iter) : Prop :=
  match r with
  | (e', Ok it) => exists bytes, action = Some bytes /\ send = None /\ waiting e /\
      acceptable e bytes /\ it = MkIter (e_run e) false NotStarted /\ e_run e' = e_run e /\
      e_conn e' = e_conn e /\ e_sent e' = e_sent e ++ [framed bytes] /\
      e_reading e' = true /\ e_needs_input e' = false
  | (e', Raise x) =>
      (e' = e /\ forall bytes, action = Some bytes -> waiting e -> ~ acceptable e bytes) \/
      (exists bytes y, action = Some bytes /\ send = Some y /\ waiting e /\ acceptable e bytes /\
         e_needs_input e' = false /\ e_reading e' = false /\
         (isinstance_exc (exn_class y) OSError = true -> e_conn e' = None /\
            (exn_class x = TimeoutError \/ exn_class x = ConnectionError)))
  end.

Lemma step_cases (action : option (list Z)) (send : option exn) (e : env) :
  e_max_action e < 2 ^ 32 -> step_spec action send e (step_of fl action send e).
Proof.
  clear column_device json_loads. intros Hmax.
  pose proof (inner_step_cases action send e Hmax) as Hc. unfold step_of, step_spec.
  destruct (f_kernel fl) eqn:Hk.
  - unfold kernel_step. destruct action as [bytes|]; [|left; naive_solver].
    destruct (kernel_line bytes) eqn:Hl; simpl.
    + apply kernel_line_spec in Hl. unfold acceptable.
      destruct (Stdio.step fl (Some bytes) send e) as [e' [it|x]]; [naive_solver|].
      destruct Hc as [[-> Hc]|Hc]; [left; naive_solver|right; naive_solver].
    + left. split; [done|]. intros ? [= <-] _ [_ Ha].
      specialize (Ha Hk). apply kernel_line_spec in Ha. congruence.
  - unfold acceptable. destruct (Stdio.step fl action send e) as [e' [it|x]].
    + naive_solver congruence.
    + destruct Hc as [[-> Hc]|Hc]; [left; naive_solver congruence|right; naive_solver congruence].
Qed.

(** C11: an action is sent exactly when it should be. For both environments: if [step]
    returns, the target was waiting, the bytes were within the announced limit (and, for the
    kernel, one printable line), and what went out is their 32-bit little-endian length and
    the unchanged bytes, once; if it raises because of the call, nothing was sent and nothing
    changed; if the send failed, the request is spent and a transport failure cancels the
    run. *)
Theorem step_sends_exactly (action : option (list Z)) (send : option exn) (e : env)
  (Hmax : e_max_action e < 2 ^ 32) : step_spec action send e (step_of fl action send e).
Proof. by apply step_cases. Qed.

Notation runs os := (exec_ops fl column_device json_loads os (MkSys new_env [])).

(** C10: run ownership is an invariant. After any sequence of resets, actions, reads, drops
    and closes: an unfinished iterator of the current run is unique and reads the current
    connection, the environment never waits for input while an iterator is reading, a
    boundary or an exit is recorded consistently with the connection, and every socket ever
    opened is closed or is the one in use. *)
Theorem stdio_invariant (os : list op) : sys_ok (runs os).
Proof. apply exec_ops_ok, new_sys_ok. Qed.

(** A superseded iterator is harmless. After a [reset] or [close], every unfinished
    iterator handed out before raises on its next use and changes nothing: it cannot read
    from, or cancel, the run that replaced it, and neither can collecting it. *)
Theorem stale_iterator_isolated (os : list op) (o : op) (k fuel : nat) (it : iter)
  (Hk : sy_iters (runs os) !! k = Some it) (Hl : live it = true)
  (Ho : restarts o (sy_env (runs os)) = true) :
  let e := sy_env (exec_op fl column_device json_loads o (runs os)) in
  next_item fl column_device json_loads (Datatypes.S fuel) it e =
    (e, MkIter (it_run it) false Finished, Some (Raised cancelled)) /\
  (drop_iter it e).1 = e.
Proof.
  destruct (exec_ops_ok fl column_device json_loads os _ new_sys_ok) as [_ Hi].
  pose proof (io_old _ _ Hi k it Hk) as Hold.
  pose proof (restart_run fl column_device json_loads o _ Ho) as Hrun. intros e. subst e.
  split; [apply next_stale; [done|lia]|apply drop_stale; lia].
Qed.

(** C12: reading makes progress to a boundary. In any reachable state, [next] on the iterator
    that owns the run gives a batch and consumes part of the connection, or ends with exactly
    one of a pending input request and a recorded exit, or raises with the run cancelled and
    no exit recorded; it always comes to one of the three. *)
Theorem next_reaches_boundary (os : list op) (k fuel : nat) (it : iter)
  (Hk : sy_iters (runs os) !! k = Some it) (Hcur : current (sy_env (runs os)) it)
  (Hfuel : (left_over (sy_env (runs os)) < fuel)%nat) :
  next_spec (sy_env (runs os)) it
    (next_item fl column_device json_loads fuel it (sy_env (runs os))).
Proof.
  destruct (exec_ops_ok fl column_device json_loads os _ new_sys_ok) as [He Hi].
  by eapply next_current.
Qed.
End contract.

(** ** A concrete run *)

(** A worker that sends one block batch, waits for at most 64 bytes, and exits with 7. *)
Definition interactive_trace : list Z :=
  encode_header (MkHeader 1 0 0 0 (1 + Z.shiftl 1 11) 3) ++
  encode_header blocks_header ++ blocks_payload ++
  encode_header (MkHeader 9 0 0 0 64 3) ++
  encode_header (MkHeader 4 0 0 0 7 3).

(** A target whose events are never objects. *)
Definition no_json (bs : list Z) : result json_value := Ok JOther.

Definition read_to_request : list (op (S:=script failure)) :=
  [OpReset (Ok (chunked interactive_trace 40)); OpNext 0 9; OpNext 0 9].
Definition read_to_exit : list (op (S:=script failure)) :=
  read_to_request ++ [OpStep (Some [65; 10]) None; OpNext 1 9].

Notation shown os := (exec_ops (D:=unit) stdio_flavor cpu no_json os (MkSys new_env [])).

Definition requested : Env (script failure) unit := sy_env (shown read_to_request).

Lemma step_sends_exactly_witness :
  e_max_action requested = 64 /\
  exists e, Stdio.step stdio_flavor (Some [65; 10]) None requested =
    (e, Ok (MkIter 1 false NotStarted)) /\ e_sent e = [[2; 0; 0; 0; 65; 10]].
Proof.
  pose proof (step_sends_exactly stdio_flavor (Some [65; 10]) None requested
    ltac:(vm_compute; reflexivity)) as Hs.
  split; [vm_compute; reflexivity|].
  change (step_of stdio_flavor (Some [65; 10]) None requested)
    with (Stdio.step stdio_flavor (Some [65; 10]) None requested) in Hs.
  destruct (Stdio.step stdio_flavor (Some [65; 10]) None requested) as [e [it|x]] eqn:Hst.
  - destruct Hs as (b & [= <-] & _ & _ & _ & -> & _ & _ & Hsent & _). exists e.
    split; [reflexivity|]. rewrite Hsent. vm_compute. reflexivity.
  - exfalso. revert Hst. vm_compute. discriminate.
Defined.

Lemma stdio_invariant_witness :
  sys_ok (shown read_to_exit) /\ e_exit_code (sy_env (shown read_to_exit)) = Some 7 /\
  e_shut (sy_env (shown read_to_exit)) = [0%nat].
Proof.
  split; [|split; vm_compute; reflexivity].
  apply (stdio_invariant stdio_flavor cpu no_json read_to_exit).
Defined.

Lemma stale_iterator_isolated_witness :
  exists it, sy_iters (shown (take 2 read_to_request)) !! 0%nat = Some it /\
    it = MkIter 1 false (Suspended 0) /\
    (next_item stdio_flavor cpu no_json 5 it (sy_env (exec_op stdio_flavor cpu no_json
       (OpReset (Ok (Script []))) (shown (take 2 read_to_request))))).2 = Some (Raised cancelled).
Proof.
  exists (MkIter 1 false (Suspended 0)).
  assert (Hk : sy_iters (shown (take 2 read_to_request)) !! 0%nat = Some (MkIter 1 false (Suspended 0)))
    by (vm_compute; reflexivity).
  split; [exact Hk|split; [reflexivity|]].
  pose proof (stale_iterator_isolated stdio_flavor cpu no_json (take 2 read_to_request)
    (OpReset (Ok (Script []))) 0 4 (MkIter 1 false (Suspended 0)) Hk
    ltac:(vm_compute; reflexivity) ltac:(vm_compute; reflexivity)) as [Hn _].
  rewrite Hn. reflexivity.
Defined.

Lemma next_reaches_boundary_witness :
  current (sy_env (shown (take 2 read_to_request))) (MkIter 1 false (Suspended 0)) /\
  exists r, r = next_item stdio_flavor cpu no_json 200 (MkIter 1 false (Suspended 0))
      (sy_env (shown (take 2 read_to_request))) /\
    next_spec (sy_env (shown (take 2 read_to_request))) (MkIter 1 false (Suspended 0)) r /\
    r.2 = Some Stopped /\ e_needs_input r.1.1 = true.
Proof.
  assert (Hc : current (sy_env (shown (take 2 read_to_request))) (MkIter 1 false (Suspended 0)))
    by (split; vm_compute; reflexivity).
  split; [exact Hc|]. eexists. split_and!; [reflexivity| | |].
  - apply (next_reaches_boundary stdio_flavor cpu no_json (take 2 read_to_request) 0 200
      (MkIter 1 false (Suspended 0))); [vm_compute; reflexivity|exact Hc|vm_compute; lia].
  - vm_compute. reflexivity.
  - vm_compute. reflexivity.
Defined.
