(* ===== verification/StdioGym.v ===== *)
(** * The Gymnasium wrapper ([stdio.py]: [StdioEnv.as_gym])

    The wrapper drives a stream with the client's callables. [observe] is a
    state machine over the items of the iterator it was given ([reducer]); the
    reward and the episode rule read the stream; the action space is a
    predicate. An operation is [None] only when the fuel for the client's loop
    or for one [next] ran out. *)

From S2P Require Import Prelude Monad Batch Device Wire Terminal PoolBatch Pool PoolReceive PoolRead.
From S2P Require Import Stdio StdioProofs StdioRuns.

(** [observe(batches)]: what it has, and what it does with the next item. *)
Record reducer (A B : Type) := MkReducer {
  rd_start : A + res exn B;
  rd_step : A -> item -> A + res exn B;
}.
Arguments MkReducer {A B}.
Arguments rd_start {A B}.
Arguments rd_step {A B}.

(** The client's side of [as_gym]. *)
Record client (E Act St Obs R : Type) := MkClient {
  cl_observe : reducer St Obs;
  cl_encode : Act -> result (option (list Z));
  cl_reward : E -> result R;
  cl_contains : Act -> bool;
  cl_episode_end : option (E -> result (bool * bool));
}.
Arguments MkClient {E Act St Obs R}.
Arguments cl_observe {E Act St Obs R}.
Arguments cl_encode {E Act St Obs R}.
Arguments cl_reward {E Act St Obs R}.
Arguments cl_contains {E Act St Obs R}.
Arguments cl_episode_end {E Act St Obs R}.

Record step_result (Obs R : Type) := MkStep {
  sr_observation : Obs;
  sr_reward : R;
  sr_terminated : bool;
  sr_truncated : bool;
  sr_info : bool * option Z;
}.
Arguments MkStep {Obs R}.
Arguments sr_observation {Obs R}.
Arguments sr_reward {Obs R}.
Arguments sr_terminated {Obs R}.
Arguments sr_truncated {Obs R}.
Arguments sr_info {Obs R}.

Section gym.
Context {S D Act St Obs R : Type} `{SocketLaws S} `{NativeDecoder D}.
Context (fl : flavor) (column_device : device) (json_loads : list Z -> result json_value).
Notation env := (Env S D).
Context (cl : client env Act St Obs R).

(** The wrapper object: the stream it holds and [_ended]. *)
Record gym := MkGym { g_stream : env; g_ended : bool }.

Definition new_gym (e : env) : gym := MkGym e true.

(** The reducer's loop: [n] items at most, [fuel] frames at most for each. *)
Fixpoint observe_loop (n fuel : nat) (st : St + res exn Obs) (it : iter) (e : env) :
    env * iter * option (res exn Obs) :=
  match st with
  | inr r => (e, it, Some r)
  | inl a =>
      match n with
      | O => (e, it, None)
      | Datatypes.S n =>
          let '(e', it', o) := next_item fl column_device json_loads fuel it e in
          match o with
          | None => (e', it', None)
          | Some i => observe_loop n fuel (rd_step (cl_observe cl) a i) it' e'
          end
      end
  end.

(** [_observe]. *)
Definition _observe (n fuel : nat) (it : iter) (e : env) : env * option (res exn Obs) :=
  match observe_loop n fuel (rd_start (cl_observe cl)) it e with
  | (e', _, Some (Ok observation)) =>
      if e_reading e' then
        (_cancel_run e', Some (throw RuntimeError "The observation reducer must consume every batch"))
      else (e', Some (Ok observation))
  | (e', _, Some (Raise x)) => (_cancel_run e', Some (Raise x))
  | (e', _, None) => (e', None)
  end.

(** [reset]; [seeded] when a seed or options were given. *)
Definition gym_reset (n fuel : nat) (seeded : bool) (connect : res exn S) (g : gym) :
    gym * option (res exn (Obs * (bool * option Z))) :=
  if seeded then (g, Some (throw ValueError "This worker has no target seed or reset options adapter"))
  else
  match reset fl connect (g_stream g) with
  | (e, Raise x) => (MkGym e (g_ended g), Some (Raise x))
  | (e, Ok it) =>
      match _observe n fuel it e with
      | (e', Some (Ok observation)) =>
          (MkGym e' (is_some (e_exit_code e')), Some (Ok (observation, _info e')))
      | (e', Some (Raise x)) => (MkGym e' (g_ended g), Some (Raise x))
      | (e', None) => (MkGym e' (g_ended g), None)
      end
  end.

(** The rewards and the end of the episode, after an observation. *)
Definition gym_judge (e : env) : result (R * (bool * bool)) :=
  let! result := cl_reward cl e in
  let! ends := match cl_episode_end cl with
               | None => Ok (is_some (e_exit_code e), false)
               | Some rule => rule e
               end in
  raise! ValueError "An exited target must terminate or truncate its episode"
    when is_some (e_exit_code e) && negb (ends.1 || ends.2) in
  Ok (result, ends).

Definition gym_step (n fuel : nat) (action : Act) (send : option exn) (g : gym) :
    gym * option (res exn (step_result Obs R)) :=
  if g_ended g then (g, Some (throw RuntimeError "The episode has ended; call reset before step"))
  else if negb (cl_contains cl action) then
    (g, Some (throw ValueError "Action is outside the client action space"))
  else
  match cl_encode cl action with
  | Raise x => (g, Some (Raise x))
  | Ok bytes =>
      match step_of fl bytes send (g_stream g) with
      | (e, Raise x) => (MkGym e (g_ended g), Some (Raise x))
      | (e, Ok it) =>
          match _observe n fuel it e with
          | (e', None) => (MkGym e' (g_ended g), None)
          | (e', Some (Raise x)) => (MkGym e' (g_ended g), Some (Raise x))
          | (e', Some (Ok observation)) =>
              match gym_judge e' with
              | Raise x => (MkGym (_cancel_run e') (g_ended g), Some (Raise x))
              | Ok (result, (terminated, truncated)) =>
                  let ended := terminated || truncated in
                  (MkGym (if ended then _cancel_run e' else e') ended,
                   Some (Ok (MkStep observation result terminated truncated (_info e'))))
              end
          end
      end
  end.

Definition gym_close (g : gym) : gym := MkGym (close_env (g_stream g)) (g_ended g).

(** ** The stream under the reducer *)

(** A boundary was reached: an input request is pending or the exit is recorded. *)
Definition at_boundary (e : env) : Prop :=
  e_reading e = false /\
  (e_needs_input e = true /\ is_some (e_conn e) = true /\ e_exit_code e = None \/
   e_needs_input e = false /\ e_conn e = None /\ is_some (e_exit_code e) = true).

(** The reducer passes on what the iterator raises. *)
Definition propagates : Prop := forall a x, rd_step (cl_observe cl) a (Raised x) = inr (Raise x).
(** The reducer returns at the end of the iterator. *)
Definition drains : Prop := forall a, exists r, rd_step (cl_observe cl) a Stopped = inr r.

(** The iterator still owns the run, with enough fuel for it, or it stopped at a boundary. *)
Definition observing (fuel : nat) (e : env) (it : iter) : Prop :=
  sys_ok (MkSys e [it]) /\
  (current e it /\ (left_over e < fuel)%nat \/ it_state it = Finished /\ at_boundary e).

Lemma observing_next fuel e it : observing fuel e it ->
  let '(e', it', o) := next_item fl column_device json_loads fuel it e in
  e_sent e' = e_sent e /\
  match o with
  | Some (Yielded _) => observing fuel e' it' /\ current e' it' /\ (left_over e' < left_over e)%nat
  | Some Stopped => observing fuel e' it'
  | Some (Raised _) => sys_ok (MkSys e' [it'])
  | None => False
  end.
Proof.
  intros [Hok Hcase]. pose proof (next_ok fl column_device json_loads 0 fuel _ Hok) as Hok'.
  simpl in Hok'. destruct Hcase as [[Hcur Hf]|[Hfin Hb]].
  - destruct Hok as [He Hi].
    pose proof (next_current fl column_device json_loads fuel it e [it] 0 He Hi eq_refl Hcur Hf) as Hn.
    destruct (next_item fl column_device json_loads fuel it e) as [[e' it'] [[b| |x]|]]; [| | |done].
    + destruct Hn as ([(_ & _ & _ & _ & _ & Hs & _) _] & Hc & Hlt). split_and!; [done| |done|done].
      split; [done|left]. split; [done|lia].
    + destruct Hn as (Hst & Hrd & Hs & Hx). split; [done|]. split; [done|right; split; [done|]].
      split; [done|]. naive_solver.
    + destruct Hn as (_ & _ & _ & _ & _ & Hs). by split.
  - unfold next_item. rewrite Hfin. split; [done|]. split; [done|by right].
Qed.

Lemma observe_loop_post n fuel st it e : propagates -> observing fuel e it ->
  let '(e', it', o) := observe_loop n fuel st it e in
  sys_ok (MkSys e' [it']) /\ e_sent e' = e_sent e /\
  match o with Some (Ok _) => observing fuel e' it' | _ => True end.
Proof.
  intros Hp. revert st it e. induction n as [|n IH]; intros st it e Ho.
  { destruct st as [a|[obs|x]]; simpl; by split_and!; [apply Ho|..]. }
  destruct st as [a|[obs|x]]; cbn [observe_loop]; [|by split_and!; [apply Ho|..]..].
  pose proof (observing_next fuel e it Ho) as Hn.
  destruct (next_item fl column_device json_loads fuel it e) as [[e' it'] [[b| |x]|]]; [| | |by destruct Hn].
  - destruct Hn as (Hs & Ho' & _). specialize (IH (rd_step (cl_observe cl) a (Yielded b)) it' e' Ho').
    destruct (observe_loop _ _ _ _ _) as [[e2 it2] o]. by rewrite <- Hs.
  - destruct Hn as (Hs & Ho'). specialize (IH (rd_step (cl_observe cl) a Stopped) it' e' Ho').
    destruct (observe_loop _ _ _ _ _) as [[e2 it2] o]. by rewrite <- Hs.
  - rewrite Hp. destruct Hn. by destruct n.
Qed.

(** The loop of a reducer that drains its iterator ends. *)
Lemma observe_loop_total n fuel st it e : propagates -> drains -> observing fuel e it ->
  (match st with inl _ => current e it /\ left_over e < n | inr _ => True end)%nat ->
  (observe_loop n fuel st it e).2 <> None.
Proof.
  intros Hp Hd. revert st it e. induction n as [|n IH]; intros st it e Ho Hn.
  { destruct st; simpl; [lia|done]. }
  destruct st as [a|r]; cbn [observe_loop]; [|done]. destruct Hn as [Hcur Hlt].
  pose proof (observing_next fuel e it Ho) as Hx.
  destruct (next_item fl column_device json_loads fuel it e) as [[e' it'] [[b| |x]|]]; [| | |by destruct Hx].
  - destruct Hx as (_ & Ho' & Hc' & Hl'). apply IH; [done|].
    destruct (rd_step (cl_observe cl) a (Yielded b)); [|done]. split; [done|lia].
  - destruct (Hd a) as [r ->]. by destruct n.
  - rewrite Hp. by destruct n.
Qed.

Lemma cancel_ok (e : env) its : sys_ok (MkSys e its) -> sys_ok (MkSys (_cancel_run e) its).
Proof. intros [He Hi]. split; simpl; [by apply cancel_env_ok, eo_owned|by apply cancel_iters_ok, io_old]. Qed.

Lemma no_iters_ok (e : env) : env_ok e -> sys_ok (MkSys e []).
Proof. intros He. split; [done|]. by split. Qed.

Lemma observe_post n fuel it e : propagates -> observing fuel e it ->
  let '(e', o) := _observe n fuel it e in
  env_ok e' /\ e_sent e' = e_sent e /\
  match o with
  | Some (Ok _) => at_boundary e'
  | Some (Raise _) => e_reading e' = false /\ e_conn e' = None
  | None => True
  end.
Proof.
  intros Hp Ho. unfold _observe.
  pose proof (observe_loop_post n fuel (rd_start (cl_observe cl)) it e Hp Ho) as Hl.
  destruct (observe_loop _ _ _ _ _) as [[e' it'] [[obs|x]|]]; destruct Hl as (Hok & Hs & Hobs).
  - destruct (e_reading e') eqn:Hr; (split; [|split; [exact Hs|]]).
    + apply (cancel_ok e' [it'] Hok).
    + done.
    + apply Hok.
    + destruct Hobs as [_ [[Hcur _]|[_ Hb]]]; [|done].
      destruct (io_current _ _ (proj2 Hok) 0%nat it' eq_refl Hcur) as [Hrd _]. simpl in Hrd. congruence.
  - split; [apply (cancel_ok e' [it'] Hok)|done].
  - split; [apply Hok|done].
Qed.

Lemma gym_observe_total n fuel it e : propagates -> drains -> observing fuel e it ->
  current e it -> (left_over e < n)%nat -> (_observe n fuel it e).2 <> None.
Proof.
  intros Hp Hd Ho Hc Hn. unfold _observe.
  pose proof (observe_loop_total n fuel (rd_start (cl_observe cl)) it e Hp Hd Ho) as Ht.
  destruct (observe_loop _ _ _ _ _) as [[e' it'] [[obs|x]|]]; [by destruct (e_reading e')|done|].
  destruct Ht; [by destruct (rd_start _)|done].
Qed.

Lemma started_observing fuel e it : sys_ok (MkSys e [it]) -> it_run it = e_run e ->
  it_state it = NotStarted -> (left_over e < fuel)%nat -> observing fuel e it /\ current e it.
Proof.
  intros Hok Hr Hst Hf. assert (Hc : current e it) by (split; [unfold live; by rewrite Hst|done]).
  split; [split; [done|by left]|done].
Qed.

(** Between two calls of the wrapper nothing is being read. *)
Definition gym_ok (g : gym) : Prop := env_ok (g_stream g) /\ e_reading (g_stream g) = false.

Lemma boundary_waiting e : env_ok e -> at_boundary e -> e_exit_code e = None -> waiting e.
Proof.
  intros He [Hr [(Hn & Hc & _)|(_ & _ & Hx)]] Hex; [|by rewrite Hex in Hx].
  split_and!; try done. pose proof (eo_closed _ He) as Hcl.
  destruct (e_closed e); [|done]. by rewrite Hcl in Hc.
Qed.

Lemma step_observing fuel bytes send e e' it : env_ok e -> e_max_action e < 2 ^ 32 ->
  (left_over e < fuel)%nat -> step_of fl bytes send e = (e', Ok it) ->
  observing fuel e' it /\ current e' it /\ left_over e' = left_over e.
Proof.
  intros He Hm Hf Hs.
  pose proof (step_ok fl column_device json_loads bytes send (MkSys e []) (no_iters_ok e He)) as Hok.
  simpl in Hok. rewrite Hs in Hok. simpl in Hok.
  pose proof (step_cases fl bytes send e Hm) as Hsp. rewrite Hs in Hsp.
  destruct Hsp as (b & _ & _ & _ & _ & -> & Hrun & Hconn & _).
  assert (Hl : left_over e' = left_over e) by (unfold left_over; by rewrite Hconn).
  destruct (started_observing fuel e' (MkIter (e_run e) false NotStarted)) as [? ?]; try done; lia.
Qed.

Lemma judge_exit e r t u : gym_judge e = Ok (r, (t, u)) ->
  is_some (e_exit_code e) = true -> t || u = true.
Proof.
  unfold gym_judge. intros Hj Hx. destruct (cl_reward cl e) as [v|]; [|done]. simpl in Hj.
  destruct (match cl_episode_end cl with None => _ | Some rule => _ end) as [[t' u']|]; [|done].
  simpl in Hj. rewrite Hx in Hj. simpl in Hj. by destruct (t' || u') eqn:Ht; [injection Hj as <- <- <-|].
Qed.

(** What a step of the wrapper gives. *)
Definition gym_step_spec (action : Act) (send : option exn) (g : gym)
    (r : gym * option (res exn (step_result Obs R))) : Prop :=
  let '(g', o) := r in
  match o with
  | Some (Ok r) => gym_ok g' /\
      (exists bytes, cl_encode cl action = Ok (Some bytes) /\ waiting (g_stream g) /\
         acceptable fl (g_stream g) bytes /\
         e_sent (g_stream g') = e_sent (g_stream g) ++ [framed bytes]) /\
      g_ended g' = sr_terminated r || sr_truncated r /\
      (is_some (sr_info r).2 = true -> g_ended g' = true) /\
      (if g_ended g' then e_conn (g_stream g') = None
       else waiting (g_stream g') /\ (sr_info r).1 = true)
  | Some (Raise x) => gym_ok g' /\ g_ended g' = g_ended g /\
      (g_stream g' = g_stream g \/ e_conn (g_stream g') = None \/
       exists y, send = Some y /\ isinstance_exc (exn_class y) OSError = false)
  | None => True
  end.

Lemma gym_step_cases n fuel action send g :
  propagates -> gym_ok g -> e_max_action (g_stream g) < 2 ^ 32 ->
  (left_over (g_stream g) < fuel)%nat ->
  gym_step_spec action send g (gym_step n fuel action send g).
Proof.
  intros Hp [He Hrd] Hm Hf. unfold gym_step, gym_step_spec.
  destruct (g_ended g) eqn:Hend; [by split_and!; [split| |left]|].
  destruct (cl_contains cl action); simpl; [|by split_and!; [split| |left]].
  destruct (cl_encode cl action) as [bytes|x] eqn:Henc; [|by split_and!; [split| |left]].
  destruct (step_of fl bytes send (g_stream g)) as [e [it|x]] eqn:Hs;
    pose proof (step_cases fl bytes send (g_stream g) Hm) as Hsp; rewrite Hs in Hsp.
  - destruct (step_observing fuel bytes send (g_stream g) e it) as (Ho & Hcur & Hl); try done.
    destruct Hsp as (b & -> & _ & Hw & Ha & _ & _ & _ & Hsent & _).
    pose proof (observe_post n fuel it e Hp Ho) as Hpost.
    destruct (_observe n fuel it e) as [e' [[obs|x]|]]; destruct Hpost as (He' & Hse & Hpost); [..|done].
    + destruct (gym_judge e') as [[v [t u]]|x] eqn:Hj; simpl.
      * pose proof (judge_exit e' v t u Hj) as Hex.
        assert (Hs' : e_sent (if t || u then _cancel_run e' else e') = e_sent (g_stream g) ++ [framed b])
          by (destruct (t || u); simpl; congruence).
        split_and!; [|by exists b|done|done|].
        -- destruct (t || u); split; simpl; [by apply cancel_env_ok, eo_owned|done|done|apply Hpost].
        -- destruct (t || u); [done|].
           destruct (e_exit_code e') eqn:Hx; [by specialize (Hex eq_refl)|].
           pose proof (boundary_waiting e' He' Hpost Hx) as Hw'. split; [done|apply Hw'].
      * split_and!; [split; [by apply cancel_env_ok, eo_owned|done]|done|right; by left].
    + split_and!; [split; [done|apply Hpost]|done|right; left; apply Hpost].
  - pose proof (step_ok fl column_device json_loads bytes send (MkSys (g_stream g) [])
      (no_iters_ok _ He)) as Hok.
    simpl in Hok. rewrite Hs in Hok. destruct Hok as [He' _]. simpl in He'.
    assert (Hrd' : e_reading e = false) by (destruct Hsp as [[-> _]|Hsp]; naive_solver).
    split_and!; [by split|done|]. destruct Hsp as [[-> _]|(b & y & _ & -> & _ & _ & _ & _ & Hy)]; [by left|].
    right. destruct (isinstance_exc (exn_class y) OSError) eqn:Hc; [left; by apply Hy|right; eauto].
Qed.

Lemma reset_observing fuel connect e e' it : env_ok e -> 
  (match connect with Ok s => length (contents s) < fuel | Raise _ => True end)%nat ->
  reset fl connect e = (e', Ok it) ->
  observing fuel e' it /\ current e' it /\
  exists s, connect = Ok s /\ left_over e' = length (contents s).
Proof.
  intros He Hf Hr.
  pose proof (reset_ok fl column_device json_loads connect (MkSys e []) (no_iters_ok e He)) as Hok.
  simpl in Hok. rewrite Hr in Hok. simpl in Hok. unfold reset, sbind, sgets in Hr.
  destruct (e_closed e); [done|]. destruct connect as [s|x]; [|done]. simpl in Hr.
  injection Hr as <- <-. set (e' := MkEnv _ _ _ _ _ _ _ _ _ _ _ _ _ _) in *.
  destruct (started_observing fuel e' (MkIter (e_run e') true NotStarted)) as [? ?]; try done.
  split_and!; [done|done|by exists s].
Qed.

(** What a reset of the wrapper gives. *)
Definition gym_reset_spec (g : gym) (r : gym * option (res exn (Obs * (bool * option Z)))) : Prop :=
  let '(g', o) := r in
  match o with
  | Some (Ok (_, info)) => gym_ok g' /\ info = (negb (g_ended g'), e_exit_code (g_stream g')) /\
      (if g_ended g' then is_some info.2 = true /\ e_conn (g_stream g') = None
       else waiting (g_stream g'))
  | Some (Raise x) => gym_ok g' /\ g_ended g' = g_ended g /\
      (g_stream g' = g_stream g \/ e_conn (g_stream g') = None)
  | None => True
  end.

Lemma gym_reset_cases n fuel seeded connect g : propagates -> gym_ok g ->
  (match connect with Ok s => length (contents s) < fuel | Raise _ => True end)%nat ->
  gym_reset_spec g (gym_reset n fuel seeded connect g).
Proof.
  intros Hp [He Hrd] Hf. unfold gym_reset, gym_reset_spec.
  destruct seeded; [by split_and!; [split| |left]|].
  destruct (reset fl connect (g_stream g)) as [e [it|x]] eqn:Hr.
  - destruct (reset_observing fuel connect (g_stream g) e it) as (Ho & Hcur & Hl); try done.
    pose proof (observe_post n fuel it e Hp Ho) as Hpost.
    destruct (_observe n fuel it e) as [e' [[obs|x]|]]; destruct Hpost as (He' & Hse & Hpost); [..|done].
    + pose proof (boundary_waiting e' He' Hpost) as Hw. destruct Hpost as [Hrd' Hb].
      simpl. unfold _info. destruct (e_exit_code e') eqn:Hx; simpl; (split; [by split|]); split.
      * destruct Hb as [(_ & _ & Hb)|(-> & _)]; [done|done].
      * by destruct Hb as [(_ & _ & Hb)|(_ & Hc & _)].
      * destruct Hb as [(-> & _)|(_ & _ & Hb)]; [done|done].
      * by apply Hw.
    + split_and!; [split; [done|apply Hpost]|done|right; apply Hpost].
  - pose proof (reset_ok fl column_device json_loads connect (MkSys (g_stream g) [])
      (no_iters_ok _ He)) as Hok.
    simpl in Hok. rewrite Hr in Hok. destruct Hok as [He' _]. simpl in He'.
    unfold reset, sbind, sgets in Hr. destruct (e_closed (g_stream g)) eqn:Hcl.
    + injection Hr as <- _. split_and!; [by split|done|by left].
    + destruct connect as [s|y]; simpl in Hr; [done|]. injection Hr as <- _.
      unfold _clear_events in *. split_and!; [split; [done|]|done|right]; by destruct (f_kernel fl).
Qed.

(** ** Properties *)

(** C13: a step of the wrapper keeps Gymnasium's contract. Starting between calls, with a
    reducer that passes exceptions on: a step that returns sent the encoded action once to a
    target that was waiting, reports an exited target as an ended episode, releases the
    connection when the episode ends and otherwise leaves the target waiting for the next
    action; a step that raises either changed nothing or leaves no live connection (a send
    that failed for another reason than the transport apart), so a failure is never a
    completed step. A draining reducer always gets an answer. *)
Theorem gym_step_contract (n fuel : nat) (action : Act) (send : option exn) (g : gym)
  (Hp : propagates) (Hok : gym_ok g) (Hmax : e_max_action (g_stream g) < 2 ^ 32)
  (Hfuel : (left_over (g_stream g) < fuel)%nat) :
  gym_step_spec action send g (gym_step n fuel action send g) /\
  (drains -> (left_over (g_stream g) < n)%nat -> (gym_step n fuel action send g).2 <> None).
Proof.
  split; [by apply gym_step_cases|]. intros Hd Hn. unfold gym_step.
  destruct (g_ended g); [done|]. destruct (negb _); [done|].
  destruct (cl_encode cl action) as [bytes|x]; [|done].
  destruct (step_of fl bytes send (g_stream g)) as [e [it|x]] eqn:Hs; [|done].
  destruct Hok as [He _].
  destruct (step_observing fuel bytes send (g_stream g) e it) as (Ho & Hcur & Hl); try done.
  pose proof (gym_observe_total n fuel it e Hp Hd Ho Hcur) as Ht.
  destruct (_observe n fuel it e) as [e' [[obs|x]|]]; [|done|].
  - by destruct (gym_judge e') as [[v [t u]]|x].
  - simpl in Ht. intros _. apply Ht; [lia|done].
Qed.

(** A reset of the wrapper starts an episode or leaves nothing behind. A reset that
    returns has read to the first boundary: either the target waits for an action and the
    episode is open, or it exited, the episode is over and the connection is gone; a reset
    that raises changed nothing or leaves no live connection. *)
Theorem gym_reset_contract (n fuel : nat) (seeded : bool) (connect : res exn S) (g : gym)
  (Hp : propagates) (Hok : gym_ok g)
  (Hfuel : (match connect with Ok s => length (contents s) < fuel | Raise _ => True end)%nat) :
  gym_reset_spec g (gym_reset n fuel seeded connect g) /\
  (drains -> (match connect with Ok s => length (contents s) < n | Raise _ => True end)%nat ->
   (gym_reset n fuel seeded connect g).2 <> None).
Proof.
  split; [by apply gym_reset_cases|]. intros Hd Hn. unfold gym_reset.
  destruct seeded; [done|]. destruct (reset fl connect (g_stream g)) as [e [it|x]] eqn:Hr; [|done].
  destruct Hok as [He _].
  destruct (reset_observing fuel connect (g_stream g) e it) as (Ho & Hcur & Hl); try done.
  pose proof (gym_observe_total n fuel it e Hp Hd Ho Hcur) as Ht.
  destruct (_observe n fuel it e) as [e' [[obs|x]|]]; try done.
  intros _. apply Ht; [|done]. destruct Hl as (s & -> & Hl). lia.
Qed.
End gym.

(** ** A concrete episode *)

(** A reducer that counts batches, and the default episode rule. *)
Definition count_batches : reducer nat nat := MkReducer (inl 0%nat) (fun n i =>
  match i with
  | Yielded _ => inl (Datatypes.S n)
  | Stopped => inr (Ok n)
  | Raised x => inr (Raise x)
  end).

Definition counting_client : client (Env (script failure) unit) Z nat nat Z :=
  MkClient count_batches (fun a => Ok (Some [a; 10])) (fun _ => Ok 1) (fun a => (65 <=? a)) None.

Definition opened : gym (S:=script failure) (D:=unit) :=
  (gym_reset stdio_flavor cpu no_json counting_client 200 200 false
     (Ok (chunked interactive_trace 40)) (new_gym new_env)).1.

Lemma counting_propagates : propagates counting_client.
Proof. intros a x. reflexivity. Qed.

Lemma new_gym_ok : gym_ok (new_gym (new_env (S:=script failure) (D:=unit))).
Proof. split; [|reflexivity]. apply (new_sys_ok (S:=script failure) (D:=unit)). Qed.

(** The episode, evaluated. *)
Lemma opened_result :
  (gym_reset stdio_flavor cpu no_json counting_client 200 200 false
     (Ok (chunked interactive_trace 40)) (new_gym new_env)).2 = Some (Ok (1%nat, (true, None))).
Proof. vm_compute. reflexivity. Qed.

Lemma stepped_result :
  (gym_step stdio_flavor cpu no_json counting_client 200 200 66 None opened).2 =
  Some (Ok (MkStep 0%nat 1 true false (false, Some 7))).
Proof. vm_compute. reflexivity. Qed.

Lemma trace_fits : (length (contents (chunked (F:=failure) interactive_trace 40)) < 200)%nat.
Proof. vm_compute. lia. Qed.

Lemma opened_state : e_sent (g_stream opened) = [] /\ e_max_action (g_stream opened) = 64 /\
  left_over (g_stream opened) = 32%nat.
Proof. vm_compute. by split_and!. Qed.

Notation reset_run := (gym_reset (D:=unit) stdio_flavor cpu no_json counting_client 200 200 false
  (Ok (chunked (F:=failure) interactive_trace 40)) (new_gym new_env)).
Notation step_run := (gym_step stdio_flavor cpu no_json counting_client 200 200 66 None opened).

Lemma spec_opened {Obs} (g : gym (S:=script failure) (D:=unit)) r (obs : Obs) :
  gym_reset_spec g r -> r.2 = Some (Ok (obs, (true, None))) -> gym_ok r.1 /\ waiting (g_stream r.1).
Proof.
  destruct r as [g' o]. simpl. intros Hs ->. destruct Hs as (Hok & Hi & Hw). split; [done|].
  injection Hi as Hi _. by destruct (g_ended g').
Qed.

Lemma opened_ok : gym_ok opened.
Proof.
  refine (proj1 (spec_opened _ _ _ (gym_reset_cases stdio_flavor cpu no_json counting_client 200 200 false
    (Ok (chunked interactive_trace 40)) (new_gym new_env) counting_propagates new_gym_ok trace_fits)
    opened_result)).
Qed.

Lemma gym_reset_contract_witness :
  reset_run.2 = Some (Ok (1%nat, (true, None))) /\ waiting (g_stream reset_run.1).
Proof.
  split; [exact opened_result|].
  refine (proj2 (spec_opened _ _ _ (proj1 (gym_reset_contract stdio_flavor cpu no_json counting_client
    200 200 false (Ok (chunked interactive_trace 40)) (new_gym new_env) counting_propagates new_gym_ok
    trace_fits)) opened_result)).
Defined.

Lemma spec_ended {Act St Obs R} fl (cl : client (Env (script failure) unit) Act St Obs R)
    a b send (g : gym) r sr :
  gym_step_spec fl cl a send g r -> r.2 = Some (Ok sr) -> sr_terminated sr = true ->
  cl_encode cl a = Ok (Some b) ->
  g_ended r.1 = true /\ e_conn (g_stream r.1) = None /\
  e_sent (g_stream r.1) = e_sent (g_stream g) ++ [framed b].
Proof.
  destruct r as [g' o]. simpl. intros Hs -> Ht Hb.
  destruct Hs as (_ & (b' & Hb' & _ & _ & Hsent) & He & _ & Hc). rewrite Ht in He. simpl in He.
  rewrite He in Hc. rewrite Hb' in Hb. injection Hb as ->. by split_and!.
Qed.

Lemma gym_step_contract_witness :
  gym_ok opened /\ step_run.2 = Some (Ok (MkStep 0%nat 1 true false (false, Some 7))) /\
  g_ended step_run.1 = true /\ e_conn (g_stream step_run.1) = None.
Proof.
  split; [exact opened_ok|]. split; [exact stepped_result|]. destruct opened_state as (Hs0 & Hm & Hl).
  destruct (gym_step_contract stdio_flavor cpu no_json counting_client 200 200 66 None opened
    counting_propagates opened_ok) as [Hs _]; [rewrite Hm; lia|rewrite Hl; lia|].
  destruct (spec_ended _ _ _ [66; 10] _ _ _ _ Hs stepped_result eq_refl eq_refl) as (He & Hc & _).
  split; [exact He|exact Hc].
Defined.
