(* ===== verification/HardwareDecode.v ===== *)
(** * Reading perf buffers ([hardware.py])

    The pure half of the hardware captures: the mapped rings, the perf record
    stream, the counter groups, and the deltas built from them. A ring or a
    stream that does not say where it is complete is an exception. *)

From S2P Require Import Prelude Batch.

Definition _SAMPLE : Z := 9.
Definition _LOST : Z := 2.
Definition _AUX : Z := 11.
Definition _LOST_SAMPLES : Z := 13.
Definition _AUX_BAD_FLAGS : Z := 0x0F.
Definition _HEADER : list nat := [4; 2; 2]%nat.
Definition _SAMPLE_ROW : list nat := [8; 4; 4; 8; 8; 4; 4; 8]%nat.
Definition _COUNTER_SIGNALS : list string := ["instructions"; "cycles"; "ref_cycles"].

(** ** Data *)

Record HardwareBatch := MkHardwareBatch {
  hb_source : Z;
  hb_signal : string;
  hb_ip : tensor;
  hb_pid : tensor;
  hb_tid : tensor;
  hb_time : tensor;
  hb_cpu : tensor;
  hb_period : tensor;
  hb_address : tensor;
  hb_weight : tensor;
  hb_data_source : tensor;
  hb_exact_ip : tensor;
  hb_trace_bytes : tensor;
}.

Record HardwareCounterBatch := MkHardwareCounterBatch {
  cb_source : Z;
  cb_tid : Z;
  cb_cpu : Z;
  cb_names : list string;
  cb_values : tensor;
  cb_time_enabled_ns : Z;
  cb_time_running_ns : Z;
  cb_available : bool;
  cb_lost : bool;
}.

(** A counter group as it was read: the values, the time enabled and the time running. *)
Definition group_read : Type := list Z * Z * Z.

(** ** Rings *)

(** [mapping[start:stop]] for nonnegative bounds: Python clamps to the mapping. *)
Definition subscript (mapping : list Z) (start stop : Z) : list Z :=
  slice (Z.to_nat start) (Z.to_nat (stop - start)) mapping.

Definition _ring_bytes (mapping : list Z) (head tail offset size : Z) : result (list Z) :=
  raise! HardwareTraceLost "Perf ring wrapped before capture stopped"
    when (head <? tail) || (size <? head - tail) in
  raise! ZeroDivisionError "integer modulo by zero" when size =? 0 in
  let start := tail mod size in
  let count := head - tail in
  let first := Z.min count (size - start) in
  Ok (subscript mapping (offset + start) (offset + start + first) ++
      subscript mapping offset (offset + count - first)).

(** ** Columns *)

(** [_tensor] of an [array("q")] and of a [bytearray]. *)
Definition _tensor_q (values : list Z) : result tensor :=
  match values with
  | [] => Ok (Tensor int64 cpu [0%nat] [])
  | _ => frombuffer (data_bytes int64 values) int64
  end.
Definition _tensor_b (values : list Z) : result tensor :=
  match values with
  | [] => Ok (Tensor uint8 cpu [0%nat] [])
  | _ => frombuffer values uint8
  end.

(** [value if value < 1 << 63 else value - (1 << 64)] *)
Definition column_value (v : Z) : Z :=
  if v <? Z.shiftl 1 63 then v else v - Z.shiftl 1 64.

(** [for name, value in zip(names, row): columns[name].append(...)] *)
Definition append_row (columns : list (list Z)) (row : list Z) : list (list Z) :=
  zip_with (fun c v => c ++ [column_value v]) columns row.

(** ** The record stream *)

(** What the loop carries: the AUX position and the columns. *)
Record decoding := MkDecoding { de_aux : Z; de_columns : list (list Z) }.

(** An AUX record of the loop body. *)
Definition handle_aux (signal : string) (trace_len : Z) (record : list Z) (st : decoding) :
    result decoding :=
  raise! HardwareTraceLost "Intel PT reported incomplete AUX data" when (length record <? 24)%nat in
  let! flags := unpack_from [8%nat] record 16 in
  raise! HardwareTraceLost "Intel PT reported incomplete AUX data"
    when negb (Z.land (hd 0 flags) _AUX_BAD_FLAGS =? 0) in
  let! fields := unpack_from [8; 8]%nat record 0 in
  let offset := nth 0 fields 0 in
  let len := nth 1 fields 0 in
  raise! HardwareTraceLost "Intel PT AUX records do not cover the captured bytes"
    when negb (String.eqb signal "intel_pt") || negb (offset =? de_aux st) || (len =? 0) ||
         (trace_len <? offset + len) in
  Ok (MkDecoding (de_aux st + len) (de_columns st)).

(** A sample of the loop body. *)
Definition handle_sample (signal : string) (misc : Z) (record : list Z) (st : decoding) :
    result decoding :=
  raise! HardwareCaptureError "Unexpected sample in an Intel PT stream"
    when String.eqb signal "intel_pt" in
  let memory := String.eqb signal "memory_loads" in
  let expected := (struct_size _SAMPLE_ROW + (if memory then 16 else 0))%nat in
  raise! HardwareCaptureError "Unexpected perf sample layout"
    when negb (length record =? expected)%nat in
  let! fields := unpack_from _SAMPLE_ROW record 0 in
  let! extra := if memory then unpack_from [8; 8]%nat record (struct_size _SAMPLE_ROW) else Ok [0; 0] in
  match fields, extra with
  | [ip; pid; tid; time; address; cpu_number; _; period], [weight; data_source] =>
      let exact := if Z.land misc (Z.shiftl 1 14) =? 0 then 0 else 1 in
      Ok (MkDecoding (de_aux st) (append_row (de_columns st)
            [ip; pid; tid; time; cpu_number; period; address; weight; data_source; exact]))
  | _, _ => throw ValueError "too many values to unpack"
  end.

Definition handle_record (signal : string) (trace_len kind misc : Z) (record : list Z)
    (st : decoding) : result decoding :=
  raise! HardwareTraceLost "Perf reported lost samples"
    when (kind =? _LOST) || (kind =? _LOST_SAMPLES) in
  let! st := if kind =? _AUX then handle_aux signal trace_len record st else Ok st in
  if kind =? _SAMPLE then handle_sample signal misc record st else Ok st.

(** The [while] loop; [None] when the fuel ran out. *)
Fixpoint decode_loop (fuel : nat) (data : list Z) (signal : string) (trace_len : Z)
    (position : nat) (st : decoding) : option (result decoding) :=
  match fuel with
  | O => None
  | S fuel =>
      if (position <? length data)%nat then
        if (length data - position <? struct_size _HEADER)%nat then
          Some (throw HardwareTraceLost "Perf ring ended inside a record header")
        else
        match unpack_from _HEADER data position with
        | Ok [kind; misc; size] =>
            if (size <? Z.of_nat (struct_size _HEADER)) ||
               (Z.of_nat (length data - position) <? size) then
              Some (throw HardwareTraceLost "Perf ring ended inside a record")
            else
            let record := slice (position + struct_size _HEADER)
                            (Z.to_nat size - struct_size _HEADER) data in
            match handle_record signal trace_len kind misc record st with
            | Ok st => decode_loop fuel data signal trace_len (position + Z.to_nat size) st
            | Raise e => Some (Raise e)
            end
        | Ok _ => Some (throw ValueError "not enough values to unpack")
        | Raise e => Some (Raise e)
        end
      else Some (Ok st)
  end.

Definition new_columns : list (list Z) := replicate 10 [].

Definition batch_of (source : Z) (signal : string) (columns : list (list Z)) (trace : list Z) :
    result HardwareBatch :=
  let! ts := rmap _tensor_q columns in
  let! bytes := _tensor_b trace in
  match ts with
  | [ip; pid; tid; time; cpu_number; period; address; weight; data_source; exact_ip] =>
      Ok (MkHardwareBatch source signal ip pid tid time cpu_number period address weight data_source
            exact_ip bytes)
  | _ => throw TypeError "__init__() takes 13 positional arguments"
  end.

(** Every record holds at least its header, so one more iteration than bytes is enough. *)
Definition _decode_records (data : list Z) (signal : string) (source : Z) (trace : list Z) :
    option (result HardwareBatch) :=
  match decode_loop (S (length data)) data signal (Z.of_nat (length trace)) 0
          (MkDecoding 0 new_columns) with
  | None => None
  | Some (Raise e) => Some (Raise e)
  | Some (Ok st) => Some (
      raise! HardwareTraceLost "Intel PT bytes have no matching AUX record"
        when String.eqb signal "intel_pt" && negb (de_aux st =? Z.of_nat (length trace)) in
      batch_of source signal (de_columns st) trace)
  end.

(** ** Mapped buffers *)

Definition _DATA_HEADER_OFFSET : nat := 1024.

Definition _read_mapped_batch (page : Z) (data : list Z) (aux : option (list Z)) (data_pages : Z)
    (signal : string) (source : Z) : option (result HardwareBatch) :=
  match unpack_from [8; 8; 8; 8; 8; 8; 8; 8]%nat data _DATA_HEADER_OFFSET with
  | Ok [head; tail; offset; size; aux_head; aux_tail; aux_offset; aux_size] =>
      if (offset <? page) || negb (size =? data_pages * page) then
        Some (throw HardwareCaptureError "Unexpected perf ring layout")
      else
      match _ring_bytes data head tail offset size with
      | Raise e => Some (Raise e)
      | Ok records =>
          match aux with
          | None => _decode_records records signal source []
          | Some aux =>
              if negb (aux_offset =? page * (1 + data_pages)) ||
                 negb (aux_size =? Z.of_nat (length aux)) then
                Some (throw HardwareCaptureError "Unexpected perf AUX layout")
              else
              match _ring_bytes aux aux_head aux_tail 0 aux_size with
              | Raise e => Some (Raise e)
              | Ok trace => _decode_records records signal source trace
              end
          end
      end
  | Ok _ => Some (throw ValueError "not enough values to unpack")
  | Raise e => Some (Raise e)
  end.

(** ** Counter groups *)

(** An [OSError] of [os.read], as the capture reports it. *)
Definition reported_read (msg : string) (payload : result (list Z)) : result (list Z) :=
  match payload with
  | Raise e => if isinstance_exc (exn_class e) OSError then throw HardwareCaptureError msg
               else Raise e
  | Ok bs => Ok bs
  end.

(** The loop over the group's members: [n] of them from [position]. *)
Fixpoint read_members (n : nat) (payload : list Z) (position : nat) (observed : list (Z * Z)) :
    result (list (Z * Z)) :=
  match n with
  | O => Ok observed
  | S n =>
      let! fields := unpack_from [8; 8]%nat payload position in
      let value := nth 0 fields 0 in
      let identifier := nth 1 fields 0 in
      raise! HardwareCaptureError "PMU counter group repeated an event identifier"
        when is_some (od_get identifier observed) in
      read_members n payload (position + 16) (od_set identifier value observed)
  end.

Definition lookup_member (observed : list (Z * Z)) (identifier : Z) : result Z :=
  match od_get identifier observed with
  | Some v => Ok v
  | None => throw KeyError "identifier"
  end.

Definition same_set (l1 l2 : list Z) : bool :=
  forallb (fun x => bool_decide (x ∈ l2)) l1 && forallb (fun x => bool_decide (x ∈ l1)) l2.

(** [_read_counter_group]; [payload] is what [os.read(fd, expected)] gives. *)
Definition _read_counter_group (payload : result (list Z)) (identifiers : list Z) :
    result group_read :=
  let expected := (24 + 16 * length identifiers)%nat in
  let! payload := reported_read "Cannot read the PMU counter group" payload in
  raise! HardwareCaptureError "Pinned PMU counter group did not produce a complete read"
    when negb (length payload =? expected)%nat in
  let! head := unpack_from [8; 8; 8]%nat payload 0 in
  raise! HardwareCaptureError "PMU counter group member count changed"
    when negb (nth 0 head 0 =? Z.of_nat (length identifiers)) in
  let! observed := read_members (length identifiers) payload 24 [] in
  raise! HardwareCaptureError "PMU counter group identity changed"
    when negb (same_set observed.*1 identifiers) in
  let! values := rmap (lookup_member observed) identifiers in
  Ok (values, nth 1 head 0, nth 2 head 0).

Definition _read_sampled_event (payload : result (list Z)) : result (Z * Z * Z) :=
  let! payload := reported_read "Cannot read the PEBS scheduling status" payload in
  raise! HardwareCaptureError "Pinned PEBS event did not produce a complete read"
    when negb (length payload =? 24)%nat in
  let! fields := unpack [8; 8; 8]%nat payload in
  let value := nth 0 fields 0 in
  let enabled := nth 1 fields 0 in
  let running := nth 2 fields 0 in
  raise! HardwareCaptureError "Pinned PEBS event did not run" when (enabled =? 0) || (running =? 0) in
  raise! HardwareCaptureError "PEBS event was multiplexed" when negb (running =? enabled) in
  Ok (value, enabled, running).

(** [array("q", values)]: each element must be a signed 64-bit integer. *)
Definition array_q (values : list Z) : result (list Z) :=
  raise! OverflowError "int too big to convert"
    when negb (forallb (fun v => bool_decide (- 2 ^ 63 <= v < 2 ^ 63)) values) in
  Ok values.

Definition _counter_batch (tid cpu_number : Z) (counter_start : option group_read)
    (final : group_read) : result HardwareCounterBatch :=
  match counter_start with
  | None => throw HardwareCaptureError "PMU counter group has no boundary baseline"
  | Some (start_values, start_enabled, start_running) =>
      let '(final_values, final_enabled, final_running) := final in
      raise! HardwareCaptureError "PMU counter group moved backwards"
        when (final_enabled <? start_enabled) || (final_running <? start_running) ||
             existsb (fun p => p.2 <? p.1) (zip start_values final_values) in
      let enabled := final_enabled - start_enabled in
      let running := final_running - start_running in
      raise! HardwareCaptureError "PMU counter group did not run" when (enabled =? 0) || (running =? 0) in
      raise! HardwareCaptureError "PMU counter group was multiplexed" when negb (running =? enabled) in
      let! values := array_q (zip_with (fun start stop => stop - start) start_values final_values) in
      let! t := _tensor_q values in
      Ok (MkHardwareCounterBatch tid tid cpu_number _COUNTER_SIGNALS t enabled running true false)
  end.

(** ** Rings: proofs *)

Lemma length_subscript mapping start stop :
  0 <= start -> start <= stop -> stop <= Z.of_nat (length mapping) ->
  Z.of_nat (length (subscript mapping start stop)) = stop - start.
Proof. intros. unfold subscript. rewrite length_slice; lia. Qed.

Lemma subscript_lookup mapping start stop i : 0 <= start -> 0 <= i < stop - start ->
  subscript mapping start stop !! Z.to_nat i = mapping !! Z.to_nat (start + i).
Proof.
  intros. unfold subscript, slice. rewrite lookup_take_lt by lia. rewrite lookup_drop.
  f_equal. lia.
Qed.

Lemma mod_step tail size i : 0 < size -> 0 <= tail -> 0 <= i < size - tail mod size ->
  (tail + i) mod size = tail mod size + i.
Proof.
  intros Hs Ht Hi. pose proof (Z.mod_pos_bound tail size Hs).
  rewrite (Z.div_mod tail size) at 1 by lia.
  rewrite <- Z.add_assoc, Z.add_comm, Z.mul_comm, Z.mod_add by lia. apply Z.mod_small. lia.
Qed.

Lemma mod_wrap tail size i : 0 < size -> 0 <= tail -> size - tail mod size <= i < size ->
  (tail + i) mod size = tail mod size + i - size.
Proof.
  intros Hs Ht Hi. pose proof (Z.mod_pos_bound tail size Hs).
  assert (He : tail + i = (tail mod size + i - size) + (tail / size + 1) * size)
    by (pose proof (Z.div_mod tail size); lia).
  rewrite He, Z.mod_add by lia. apply Z.mod_small. lia.
Qed.

(** ** The record stream: what a complete buffer is *)

(** One record of the stream, as the kernel writes it. *)
Record sample := MkSample {
  s_misc : Z; s_ip : Z; s_pid : Z; s_tid : Z; s_time : Z; s_address : Z; s_cpu : Z;
  s_reserved : Z; s_period : Z; s_weight : Z; s_data_source : Z;
}.

Inductive entry :=
  | ESample (s : sample)
  | EAux (misc offset len flags : Z) (extra : list Z)
  | EOther (kind misc : Z) (body : list Z).

Definition sample_body (memory : bool) (s : sample) : list Z :=
  pack_fields _SAMPLE_ROW [s_ip s; s_pid s; s_tid s; s_time s; s_address s; s_cpu s;
                           s_reserved s; s_period s] ++
  (if memory then pack_fields [8; 8]%nat [s_weight s; s_data_source s] else []).

Definition entry_kind (e : entry) : Z :=
  match e with ESample _ => _SAMPLE | EAux _ _ _ _ _ => _AUX | EOther k _ _ => k end.
Definition entry_misc (e : entry) : Z :=
  match e with ESample s => s_misc s | EAux m _ _ _ _ => m | EOther _ m _ => m end.
Definition entry_body (signal : string) (e : entry) : list Z :=
  match e with
  | ESample s => sample_body (String.eqb signal "memory_loads") s
  | EAux _ o l f x => pack_fields [8; 8; 8]%nat [o; l; f] ++ x
  | EOther _ _ b => b
  end.

Definition encode_entry (signal : string) (e : entry) : list Z :=
  pack_fields _HEADER [entry_kind e; entry_misc e; 8 + Z.of_nat (length (entry_body signal e))] ++
  entry_body signal e.

(** Every field fits where it is written. *)
Definition entry_fits (signal : string) (e : entry) : Prop :=
  Forall2 fits _HEADER [entry_kind e; entry_misc e; 8 + Z.of_nat (length (entry_body signal e))] /\
  match e with
  | ESample s => Forall2 fits (_SAMPLE_ROW ++ [8; 8]%nat)
      [s_ip s; s_pid s; s_tid s; s_time s; s_address s; s_cpu s; s_reserved s; s_period s;
       s_weight s; s_data_source s] /\
      (String.eqb signal "memory_loads" = false -> s_weight s = 0 /\ s_data_source s = 0)
  | EAux _ o l f x => Forall2 fits [8; 8; 8]%nat [o; l; f] /\ Forall is_byte x
  | EOther k _ b => k <> _SAMPLE /\ k <> _AUX /\ Forall is_byte b
  end.

(** The column values of a sample, in the order of the batch's fields. *)
Definition sample_row (s : sample) : list Z :=
  signed 64 <$> [s_ip s; s_pid s; s_tid s; s_time s; s_cpu s; s_period s; s_address s; s_weight s;
    s_data_source s; if Z.land (s_misc s) (Z.shiftl 1 14) =? 0 then 0 else 1].

Fixpoint samples (es : list entry) : list sample :=
  match es with
  | [] => []
  | ESample s :: es => s :: samples es
  | _ :: es => samples es
  end.

(** The AUX records name consecutive nonempty parts of the trace from [pos]; the result is
    where they end. *)
Fixpoint aux_run (trace_len pos : Z) (es : list entry) : option Z :=
  match es with
  | [] => Some pos
  | EAux _ o l f _ :: es =>
      if (Z.land f _AUX_BAD_FLAGS =? 0) && (o =? pos) && negb (l =? 0) && (o + l <=? trace_len)
      then aux_run trace_len (pos + l) es else None
  | _ :: es => aux_run trace_len pos es
  end.

Definition entry_allowed (signal : string) (e : entry) : Prop :=
  entry_kind e <> _LOST /\ entry_kind e <> _LOST_SAMPLES /\
  match e with
  | ESample _ => signal <> "intel_pt"
  | EAux _ _ _ _ _ => signal = "intel_pt"
  | EOther _ _ _ => True
  end.

(** The stream is complete: nothing lost, nothing unexpected, and for Intel PT the AUX
    records cover the trace exactly. *)
Definition complete (signal : string) (trace_len : Z) (es : list entry) : Prop :=
  Forall (entry_fits signal) es /\ Forall (entry_allowed signal) es /\
  exists final, aux_run trace_len 0 es = Some final /\
    (signal = "intel_pt" -> final = trace_len).

Definition columns_of (ss : list sample) : list (list Z) :=
  (fun i => (fun s => nth i (sample_row s) 0) <$> ss) <$> seq 0 10.

Definition column (i : nat) (es : list entry) : tensor :=
  Tensor int64 cpu [length (samples es)] ((fun s => nth i (sample_row s) 0) <$> samples es).

(** The batch of a complete stream. *)
Definition expected_batch (source : Z) (signal : string) (es : list entry) (trace : list Z) :
    HardwareBatch :=
  MkHardwareBatch source signal (column 0 es) (column 1 es) (column 2 es) (column 3 es)
    (column 4 es) (column 5 es) (column 6 es) (column 7 es) (column 8 es) (column 9 es)
    (Tensor uint8 cpu [length trace] trace).

(** ** The record stream: proofs *)

Lemma unpack_from_bytes fmt buf off : (off + struct_size fmt <= length buf)%nat ->
  unpack_from fmt buf off = Ok (unpack_fields fmt (drop off buf)).
Proof. intros Hl. unfold unpack_from. case_if; bool_prop; [lia|done]. Qed.

(** One record of a stream that is being accepted. *)
Definition stepped (signal : string) (trace_len : Z) (e : entry) (st st' : decoding) : Prop :=
  entry_allowed signal e /\
  match e with
  | ESample s => st' = MkDecoding (de_aux st)
      (zip_with (fun c v => c ++ [v]) (de_columns st) (sample_row s))
  | EAux _ o l f _ => Z.land f _AUX_BAD_FLAGS = 0 /\ o = de_aux st /\ l <> 0 /\
      o + l <= trace_len /\ st' = MkDecoding (de_aux st + l) (de_columns st)
  | EOther _ _ _ => st' = st
  end.

Lemma append_row_signed columns row :
  append_row columns row = zip_with (fun c v => c ++ [v]) columns (signed 64 <$> row).
Proof.
  unfold append_row. rewrite zip_with_fmap_r. apply zip_with_ext; [|done|done].
  intros c v. unfold column_value, signed. by rewrite !Z.shiftl_1_l.
Qed.

Lemma sample_fits_split s :
  Forall2 fits (_SAMPLE_ROW ++ [8; 8]%nat)
    [s_ip s; s_pid s; s_tid s; s_time s; s_address s; s_cpu s; s_reserved s; s_period s;
     s_weight s; s_data_source s] ->
  Forall2 fits _SAMPLE_ROW [s_ip s; s_pid s; s_tid s; s_time s; s_address s; s_cpu s;
    s_reserved s; s_period s] /\ Forall2 fits [8; 8]%nat [s_weight s; s_data_source s].
Proof.
  intros Hf. apply (Forall2_app_inv fits _SAMPLE_ROW [8; 8]%nat
    [s_ip s; s_pid s; s_tid s; s_time s; s_address s; s_cpu s; s_reserved s; s_period s]
    [s_weight s; s_data_source s]); done.
Qed.

Lemma length_sample_body memory s :
  length (sample_body memory s) = (48 + if memory then 16 else 0)%nat.
Proof.
  unfold sample_body. rewrite length_app, length_pack_fields by done.
  destruct memory; [by rewrite length_pack_fields|done].
Qed.

Lemma handle_sample_entry signal s st : entry_fits signal (ESample s) -> signal <> "intel_pt" ->
  handle_sample signal (s_misc s) (sample_body (String.eqb signal "memory_loads") s) st =
  Ok (MkDecoding (de_aux st) (zip_with (fun c v => c ++ [v]) (de_columns st) (sample_row s))).
Proof.
  intros [_ [Hf Hz]] Hs. apply sample_fits_split in Hf as [Hf Hx]. unfold handle_sample.
  destruct (String.eqb_spec signal "intel_pt"); [done|].
  destruct (String.eqb signal "memory_loads") eqn:Hm; rewrite length_sample_body; simpl negb; cbv iota.
  - rewrite unpack_from_bytes by (rewrite length_sample_body; simpl; lia). cbn [rbind].
    rewrite unpack_from_bytes by (rewrite length_sample_body; simpl; lia). cbn [rbind].
    unfold sample_body. rewrite drop_0, unpack_pack_fields by done.
    rewrite drop_app_length' by (by rewrite length_pack_fields).
    rewrite <- (app_nil_r (pack_fields [8; 8]%nat _)), unpack_pack_fields by done.
    by rewrite append_row_signed.
  - destruct (Hz eq_refl) as [Hw Hd].
    rewrite unpack_from_bytes by (rewrite length_sample_body; simpl; lia). cbn [rbind].
    unfold sample_body. rewrite drop_0, unpack_pack_fields by done.
    rewrite append_row_signed. unfold sample_row. by rewrite Hw, Hd.
Qed.

Lemma handle_aux_entry signal trace_len m o l f x st st' : entry_fits signal (EAux m o l f x) ->
  handle_aux signal trace_len (pack_fields [8; 8; 8]%nat [o; l; f] ++ x) st = Ok st' <->
  stepped signal trace_len (EAux m o l f x) st st'.
Proof.
  intros [_ [Hf Hx]]. unfold handle_aux, stepped.
  assert (Hl : length (pack_fields [8; 8; 8]%nat [o; l; f] ++ x) = (24 + length x)%nat)
    by (rewrite length_app, length_pack_fields; done).
  destruct (_ <? 24)%nat eqn:Hlt; bool_prop; [lia|].
  rewrite !unpack_from_bytes by (rewrite Hl; simpl; lia). rewrite drop_0. cbn [rbind].
  assert (Hfl : unpack_fields [8%nat] (drop 16 (pack_fields [8; 8; 8]%nat [o; l; f] ++ x)) = [f]).
  { change (pack_fields [8; 8; 8]%nat [o; l; f]) with
      (le_bytes 8 o ++ le_bytes 8 l ++ pack_fields [8%nat] [f]).
    rewrite app_assoc, <- app_assoc, drop_app_length' by (by rewrite length_app, !length_le_bytes).
    apply unpack_pack_fields. inversion Hf as [|? ? ? ? _ Hf2]; inversion Hf2; subst; done. }
  assert (Hol : unpack_fields [8; 8]%nat (pack_fields [8; 8; 8]%nat [o; l; f] ++ x) = [o; l]).
  { change (pack_fields [8; 8; 8]%nat [o; l; f]) with
      (pack_fields [8; 8]%nat [o; l] ++ pack_fields [8%nat] [f]).
    rewrite <- app_assoc. apply unpack_pack_fields.
    by apply (Forall2_app_inv fits [8; 8]%nat [8%nat] [o; l] [f]) in Hf as [? _]. }
  rewrite Hfl, Hol. cbn [hd nth]. unfold entry_allowed. simpl entry_kind.
  destruct (Z.eqb_spec (Z.land f _AUX_BAD_FLAGS) 0); simpl negb; cbv iota; [|naive_solver].
  destruct (String.eqb_spec signal "intel_pt"), (Z.eqb_spec o (de_aux st)), (Z.eqb_spec l 0),
    (Z.ltb_spec trace_len (o + l)); simpl; split; try done; try (intros (_ & ?); lia); try naive_solver lia.
Qed.

Lemma handle_record_entry signal trace_len e st st' : entry_fits signal e ->
  handle_record signal trace_len (entry_kind e) (entry_misc e) (entry_body signal e) st = Ok st' <->
  stepped signal trace_len e st st'.
Proof.
  intros Hf. unfold handle_record.
  destruct ((entry_kind e =? _LOST) || (entry_kind e =? _LOST_SAMPLES)) eqn:Hlost.
  { split; [done|]. intros [(H1 & H2 & _) _]. apply orb_true_iff in Hlost as [?|?]; bool_prop; congruence. }
  bool_prop. destruct e as [s|m o l f x|k m b]; simpl entry_kind in *; simpl entry_body; simpl entry_misc.
  - simpl Z.eqb. cbn [rbind]. destruct (decide (signal = "intel_pt")) as [->|Hs].
    + unfold stepped, entry_allowed, handle_sample. simpl. naive_solver.
    + rewrite handle_sample_entry by done. unfold stepped, entry_allowed. simpl entry_kind.
      split; [intros [= <-]; by split_and!|by intros (_ & ->)].
  - simpl Z.eqb. cbv iota. rewrite rbind_Ok. setoid_rewrite (handle_aux_entry signal trace_len m o l f x st) ; [|done].
    naive_solver.
  - destruct Hf as (_ & Hs & Ha & Hb). rewrite (proj2 (Z.eqb_neq k _AUX)), (proj2 (Z.eqb_neq k _SAMPLE)) by done.
    unfold stepped, entry_allowed. simpl. split; [intros [= <-]; by split_and!|by intros (_ & ->)].
Qed.

(** Every accepted record is the encoding of an entry. *)
Lemma handle_record_sound signal trace_len kind misc record st st' :
  Forall is_byte record -> Forall2 fits _HEADER [kind; misc; 8 + Z.of_nat (length record)] ->
  handle_record signal trace_len kind misc record st = Ok st' ->
  exists e, entry_fits signal e /\ entry_kind e = kind /\ entry_misc e = misc /\
    entry_body signal e = record.
Proof.
  intros Hb Hh Hr. unfold handle_record in Hr.
  destruct ((kind =? _LOST) || (kind =? _LOST_SAMPLES)) eqn:Hlost; [done|]. clear Hlost.
  apply rbind_Ok in Hr as (st1 & Haux & Hr).
  destruct (Z.eqb_spec kind _AUX) as [->|Hna].
  - unfold handle_aux in Haux. destruct (length record <? 24)%nat eqn:Hl; [done|]. bool_prop.
    assert (Hp : pack_fields [8; 8; 8]%nat (unpack_fields [8; 8; 8]%nat record) ++ drop 24 record = record)
      by (rewrite pack_unpack_fields by (done || (simpl; lia)); apply take_drop).
    destruct (unpack_fields [8; 8; 8]%nat record) as [|o [|l [|f [|]]]] eqn:Hu; try done.
    exists (EAux misc o l f (drop 24 record)).
    assert (Hbody : entry_body signal (EAux misc o l f (drop 24 record)) = record) by exact Hp.
    split_and!; try done. split; [by rewrite Hbody|]. split; [|by apply Forall_drop].
    rewrite <- Hu. apply unpack_fields_fits; [done|simpl; lia].
  - destruct (Z.eqb_spec kind _SAMPLE) as [->|Hns].
    2:{ exists (EOther kind misc record). by split_and!. }
    injection Haux as <-. unfold handle_sample in Hr.
    destruct (String.eqb signal "intel_pt"); [done|]. set (mem := String.eqb signal "memory_loads") in *.
    destruct (negb _) eqn:Hl in Hr; [done|]. bool_prop.
    assert (Hl48 : (48 <= length record)%nat) by (rewrite Hl; simpl; lia).
    pose proof (unpack_fields_fits _SAMPLE_ROW record Hb Hl48) as Hf8.
    pose proof (pack_unpack_fields _SAMPLE_ROW record Hb Hl48) as Hp8.
    destruct (unpack_fields _SAMPLE_ROW record) as [|ip [|pid [|tid [|tm [|ad [|cp [|rs [|pe [|]]]]]]]]] eqn:Hu; try done.
    clear Hr. pose proof (take_drop 48 record) as Htd.
    assert (Hd : Forall is_byte (drop 48 record)) by (by apply Forall_drop).
    destruct mem eqn:Hmem.
    + assert (Hl16 : length (drop 48 record) = struct_size [8; 8]%nat) by (rewrite length_drop, Hl; done).
      pose proof (unpack_fields_fits [8; 8]%nat _ Hd ltac:(lia)) as Hf2.
      pose proof (pack_unpack_exact [8; 8]%nat _ Hd Hl16) as Hp2.
      destruct (unpack_fields [8; 8]%nat (drop 48 record)) as [|w [|ds [|]]] eqn:Hu2; try done.
      exists (ESample (MkSample misc ip pid tid tm ad cp rs pe w ds)).
      assert (Hbody : entry_body signal (ESample (MkSample misc ip pid tid tm ad cp rs pe w ds)) = record).
      { unfold entry_body, sample_body. fold mem. rewrite Hmem. simpl s_ip.
        etransitivity; [|exact Htd]. etransitivity; [|exact (f_equal2 app Hp8 Hp2)]. done. }
      split_and!; try done. split; [by rewrite Hbody|]. split; [|subst mem; congruence].
      exact (Forall2_app Hf8 Hf2).
    + exists (ESample (MkSample misc ip pid tid tm ad cp rs pe 0 0)).
      assert (Hbody : entry_body signal (ESample (MkSample misc ip pid tid tm ad cp rs pe 0 0)) = record).
      { unfold entry_body, sample_body. fold mem. rewrite Hmem. simpl s_ip. rewrite app_nil_r.
        etransitivity; [exact Hp8|]. apply take_ge. rewrite Hl. simpl. lia. }
      split_and!; try done. split; [by rewrite Hbody|]. split; [|done].
      refine (Forall2_app Hf8 (_ : Forall2 fits [8; 8]%nat [0; 0])). by repeat constructor.
Qed.

Inductive steps (signal : string) (trace_len : Z) : list entry -> decoding -> decoding -> Prop :=
  | steps_nil st : steps signal trace_len [] st st
  | steps_cons e es st1 st2 st3 : stepped signal trace_len e st1 st2 ->
      steps signal trace_len es st2 st3 -> steps signal trace_len (e :: es) st1 st3.

Definition encode_entries (signal : string) (es : list entry) : list Z :=
  concat (encode_entry signal <$> es).

Lemma length_encode_entry signal e :
  length (encode_entry signal e) = (8 + length (entry_body signal e))%nat.
Proof. unfold encode_entry. rewrite length_app, length_pack_fields; done. Qed.

(** The header at the head of an encoded entry, and its body. *)
Lemma entry_at signal e pre post : entry_fits signal e ->
  let data := pre ++ encode_entry signal e ++ post in
  unpack_from _HEADER data (length pre) =
    Ok [entry_kind e; entry_misc e; 8 + Z.of_nat (length (entry_body signal e))] /\
  slice (length pre + 8) (length (entry_body signal e)) data = entry_body signal e.
Proof.
  intros [Hf _] data. unfold data, encode_entry. split.
  - rewrite unpack_from_bytes.
    2:{ rewrite !length_app, length_pack_fields by done. simpl. lia. }
    rewrite drop_app_length, <- app_assoc, unpack_pack_fields; done.
  - rewrite <- app_assoc, app_assoc.
    assert (Hl : length (pre ++ pack_fields _HEADER [entry_kind e; entry_misc e;
      8 + Z.of_nat (length (entry_body signal e))]) = (length pre + 8)%nat)
      by (rewrite length_app, length_pack_fields; done).
    rewrite <- Hl. apply slice_exact.
Qed.

Lemma decode_loop_complete fuel signal trace_len pre es st st' :
  Forall (entry_fits signal) es -> steps signal trace_len es st st' -> (length es < fuel)%nat ->
  decode_loop fuel (pre ++ encode_entries signal es) signal trace_len (length pre) st = Some (Ok st').
Proof.
  intros Hf Hs. revert fuel pre Hf; induction Hs as [st|e es st1 st2 st3 He Hs IH];
    intros fuel pre Hf Hl; (destruct fuel as [|fuel]; [simpl in Hl; lia|]); cbn [decode_loop].
  - unfold encode_entries. simpl. by rewrite app_nil_r, Nat.ltb_irrefl.
  - inversion Hf as [|? ? Hfe Hfs]; subst.
    change (encode_entries signal (e :: es)) with (encode_entry signal e ++ encode_entries signal es).
    set (data := pre ++ encode_entry signal e ++ encode_entries signal es).
    assert (Hlen : length data = (length pre + (8 + length (entry_body signal e)) +
      length (encode_entries signal es))%nat).
    { unfold data. rewrite !length_app, length_encode_entry. lia. }
    destruct (entry_at signal e pre (encode_entries signal es) Hfe) as [Hh Hb]. fold data in Hh, Hb.
    rewrite (proj2 (Nat.ltb_lt _ _)) by lia.
    rewrite (proj2 (Nat.ltb_ge _ _)) by (simpl; lia). rewrite Hh.
    destruct (_ || _) eqn:Hsz; [apply orb_true_iff in Hsz as [?|?]; bool_prop; simpl in *; lia|].
    replace (Z.to_nat (8 + Z.of_nat (length (entry_body signal e))) - struct_size _HEADER)%nat
      with (length (entry_body signal e)) by (simpl; lia).
    change (struct_size _HEADER) with 8%nat. rewrite Hb.
    apply handle_record_entry in He; [|done]. rewrite He.
    replace (length pre + Z.to_nat (8 + Z.of_nat (length (entry_body signal e))))%nat
      with (length (pre ++ encode_entry signal e)) by (rewrite length_app, length_encode_entry; lia).
    unfold data. rewrite app_assoc. apply IH; [done|simpl in Hl; lia].
Qed.

Lemma header_slice (data : list Z) position size :
  (position + size <= length data)%nat -> (8 <= size)%nat ->
  slice position size data = slice position 8 data ++ slice (position + 8) (size - 8) data.
Proof.
  intros Hl Hs. unfold slice. replace size with (8 + (size - 8))%nat at 1 by lia.
  by rewrite <- (take_take_drop (drop position data) 8 (size - 8)), drop_drop.
Qed.

Lemma decode_loop_sound fuel data signal trace_len position st st' :
  Forall is_byte data -> (position <= length data)%nat ->
  decode_loop fuel data signal trace_len position st = Some (Ok st') ->
  exists es, Forall (entry_fits signal) es /\ drop position data = encode_entries signal es /\
    steps signal trace_len es st st'.
Proof.
  intros Hb. revert position st; induction fuel as [|fuel IH]; intros position st Hp Hd;
    cbn [decode_loop] in Hd; [done|].
  destruct (position <? length data)%nat eqn:Hlt; bool_prop.
  2:{ injection Hd as <-. exists []. split_and!; [done| |constructor].
      by rewrite drop_ge by lia. }
  destruct (length data - position <? _)%nat eqn:Hh; [done|]. bool_prop. simpl in Hh.
  assert (Hdb : Forall is_byte (drop position data)) by (by apply Forall_drop).
  rewrite unpack_from_bytes in Hd by (simpl; lia).
  assert (Hdl : (struct_size _HEADER <= length (drop position data))%nat) by (rewrite length_drop; simpl; lia).
  pose proof (unpack_fields_fits _HEADER _ Hdb Hdl) as Hfit.
  pose proof (pack_unpack_fields _HEADER _ Hdb Hdl) as Hpk.
  destruct (unpack_fields _HEADER (drop position data)) as [|kind [|misc [|size [|]]]]; try done.
  destruct (_ || _) eqn:Hsz in Hd; [done|]. bool_prop. simpl in H, H0.
  set (record := slice _ _ _) in Hd.
  assert (Hrl : Z.of_nat (length record) = size - 8).
  { unfold record. rewrite length_slice; simpl; lia. }
  assert (Hrb : Forall is_byte record) by (by apply Forall_take, Forall_drop).
  destruct (handle_record signal trace_len kind misc record st) as [st2|] eqn:Hr; [|done].
  assert (Hfit' : Forall2 fits _HEADER [kind; misc; 8 + Z.of_nat (length record)])
    by (by replace (8 + Z.of_nat (length record)) with size by lia).
  destruct (handle_record_sound signal trace_len kind misc record st st2 Hrb Hfit' Hr)
    as (e & He & Hk & Hm & Hbody).
  apply IH in Hd as (es & Hes & Hrest & Hsteps); [|lia].
  exists (e :: es). split_and!; [by constructor| |].
  - change (encode_entries signal (e :: es)) with (encode_entry signal e ++ encode_entries signal es).
    rewrite <- Hrest. unfold encode_entry. rewrite Hk, Hm, Hbody.
    replace (8 + Z.of_nat (length record)) with size by lia. rewrite Hpk.
    change (struct_size _HEADER) with 8%nat. unfold record. change (struct_size _HEADER) with 8%nat.
    change (take 8 (drop position data)) with (slice position 8 data).
    rewrite <- header_slice by lia. unfold slice. rewrite <- drop_drop. by rewrite take_drop.
  - econstructor; [|done]. apply handle_record_entry; [done|]. by rewrite Hk, Hm, Hbody.
Qed.

Lemma decode_loop_total fuel data signal trace_len position st :
  (length data - position < fuel)%nat ->
  decode_loop fuel data signal trace_len position st <> None.
Proof.
  revert position st; induction fuel as [|fuel IH]; intros position st Hl; [lia|].
  cbn [decode_loop]. destruct (position <? length data)%nat eqn:Hlt; [|done]. bool_prop.
  destruct (_ <? _)%nat; [done|].
  destruct (unpack_from _HEADER data position) as [[|kind [|misc [|size [|]]]]|]; try done.
  destruct (_ || _) eqn:Hsz; [done|]. bool_prop. simpl in *.
  destruct (handle_record _ _ _ _ _ _); [|done]. apply IH. lia.
Qed.

Lemma columns_of_cons s ss : columns_of (s :: ss) = zip_with cons (sample_row s) (columns_of ss).
Proof. reflexivity. Qed.

Lemma length_columns_of ss : length (columns_of ss) = 10%nat.
Proof. reflexivity. Qed.

Lemma zip_snoc_app (c : list (list Z)) row cs :
  zip_with app (zip_with (fun c v => c ++ [v]) c row) cs = zip_with app c (zip_with cons row cs).
Proof.
  revert row cs; induction c as [|x c IH]; intros [|v row] [|y cs]; simpl; try done.
  rewrite IH, <- app_assoc. done.
Qed.

Lemma zip_app_nil (c : list (list Z)) : length c = 10%nat -> zip_with app c (columns_of []) = c.
Proof.
  intros Hl. change (columns_of []) with (replicate 10 (@nil Z)). rewrite <- Hl. clear Hl.
  induction c as [|x c IH]; simpl; [done|]. by rewrite app_nil_r, IH.
Qed.

(** The state after a whole stream. *)
Lemma steps_spec signal trace_len es st st' : length (de_columns st) = 10%nat ->
  steps signal trace_len es st st' <->
  Forall (entry_allowed signal) es /\ aux_run trace_len (de_aux st) es = Some (de_aux st') /\
  de_columns st' = zip_with app (de_columns st) (columns_of (samples es)).
Proof.
  revert st; induction es as [|e es IH]; intros st Hc.
  - split; [inversion 1; subst; split_and!; [done|done|by rewrite zip_app_nil]|].
    intros (_ & Ha & Hcol). rewrite zip_app_nil in Hcol by done. simpl in Ha.
    destruct st, st'; simpl in *. injection Ha as ->. subst. constructor.
  - assert (Hinv : steps signal trace_len (e :: es) st st' <->
      exists st2, stepped signal trace_len e st st2 /\ steps signal trace_len es st2 st').
    { split; [inversion 1; subst; eauto|]. intros (st2 & ? & ?). by econstructor. }
    rewrite Hinv, Forall_cons. destruct e as [s|m o l f x|k m b]; unfold stepped; cbn [samples aux_run].
    + rewrite columns_of_cons, <- zip_snoc_app. split.
      * intros (st2 & [Hal ->] & Hs). apply IH in Hs; [|simpl de_columns; by rewrite length_zip_with, Hc].
        simpl in Hs. tauto.
      * intros ((Hal & Has) & Ha & Hcol). eexists. split; [by split|].
        apply IH; [simpl de_columns; by rewrite length_zip_with, Hc|]. by split_and!.
    + split.
      * intros (st2 & (Hal & Hfl & -> & Hl & Hle & ->) & Hs). apply IH in Hs; [|done]. simpl in Hs.
        rewrite (proj2 (Z.eqb_eq _ 0) Hfl), Z.eqb_refl, (proj2 (Z.eqb_neq l 0) Hl), (proj2 (Z.leb_le _ _) Hle).
        simpl. tauto.
      * intros ((Hal & Has) & Ha & Hcol). destruct (_ && _) eqn:Hb in Ha; [|done]. bool_prop.
        eexists. split; [by split_and!|]. apply IH; [done|]. by split_and!.
    + split.
      * intros (st2 & [Hal ->] & Hs). apply IH in Hs; [|done]. tauto.
      * intros ((Hal & Has) & Ha & Hcol). eexists. split; [by split|]. apply IH; [done|]. by split_and!.
Qed.

Lemma tensor_q_Ok values : Forall (sint 64) values ->
  _tensor_q values = Ok (Tensor int64 cpu [length values] values).
Proof.
  intros Hv. unfold _tensor_q. destruct values as [|v vs]; [done|]. set (l := v :: vs) in *.
  unfold frombuffer. rewrite length_data_bytes. simpl element_size.
  assert (Hl : (length l * 8 =? 0)%nat = false) by (apply Nat.eqb_neq; simpl; lia). rewrite Hl.
  rewrite Nat.Div0.mod_mul, Nat.div_mul by done. simpl negb. cbv iota.
  rewrite <- (app_nil_r (data_bytes int64 l)), data_bytes_roundtrip by done. done.
Qed.

Lemma data_of_bytes_uint8 bs : data_of_bytes uint8 (length bs) bs = bs.
Proof. induction bs as [|b bs IH]; [done|]. simpl in *. rewrite drop_0, IH. f_equal. lia. Qed.

Lemma tensor_b_Ok values : _tensor_b values = Ok (Tensor uint8 cpu [length values] values).
Proof.
  unfold _tensor_b. destruct values as [|v vs]; [done|]. set (l := v :: vs) in *.
  unfold frombuffer. simpl element_size. rewrite Nat.mod_1_r, Nat.div_1_r, data_of_bytes_uint8. done.
Qed.

Lemma fits_sint n v : (n <= 8)%nat -> fits n v -> sint 64 (signed 64 v).
Proof.
  intros Hn [Hv1 Hv2]. apply signed_sint; [lia|]. split; [done|].
  assert (256 ^ Z.of_nat n <= 256 ^ 8) by (apply Z.pow_le_mono_r; lia). lia.
Qed.

Lemma sample_row_sint signal s : entry_fits signal (ESample s) -> Forall (sint 64) (sample_row s).
Proof.
  intros [_ [Hf _]]. unfold sample_row. apply Forall_fmap.
  unfold _SAMPLE_ROW in Hf. cbn [app] in Hf.
  repeat (apply Forall2_cons in Hf; let Hv := fresh "Hv" in destruct Hf as [Hv Hf];
          apply fits_sint in Hv; [|lia]).
  repeat (apply Forall_cons_2; [try done|]); [|done].
  by destruct (_ =? 0); apply signed_sint.
Qed.

Lemma samples_rows signal es : Forall (entry_fits signal) es ->
  Forall (fun s => Forall (sint 64) (sample_row s)) (samples es).
Proof.
  induction 1 as [|e es He _ IH]; [done|]. destruct e; simpl; try done.
  constructor; [by eapply sample_row_sint|done].
Qed.

Lemma columns_sint ss : Forall (fun s => Forall (sint 64) (sample_row s)) ss ->
  Forall (Forall (sint 64)) (columns_of ss).
Proof.
  intros Hs. apply Forall_fmap. apply List.Forall_forall. intros i [_ Hi]%in_seq. unfold compose.
  apply Forall_fmap. eapply Forall_impl; [done|]. intros s Hrow. unfold compose.
  rewrite <- nth_default_eq. unfold nth_default.
  destruct (nth_error (sample_row s) i) as [v|] eqn:Hn; [|by split].
  apply nth_error_In in Hn. rewrite List.Forall_forall in Hrow. by apply Hrow.
Qed.

Lemma rmap_tensor_q cols : Forall (Forall (sint 64)) cols ->
  rmap _tensor_q cols = Ok ((fun l => Tensor int64 cpu [length l] l) <$> cols).
Proof.
  induction 1 as [|c cols Hc _ IH]; [done|]. cbn [rmap]. by rewrite tensor_q_Ok, IH.
Qed.

Lemma batch_of_expected source signal es trace : Forall (entry_fits signal) es ->
  batch_of source signal (columns_of (samples es)) trace =
  Ok (expected_batch source signal es trace).
Proof.
  intros Hf. unfold batch_of.
  rewrite rmap_tensor_q by (eapply columns_sint, samples_rows, Hf).
  rewrite tensor_b_Ok. unfold columns_of, expected_batch, column. simpl. by rewrite !length_fmap.
Qed.

Definition is_capture_error (e : exn) : Prop :=
  isinstance_exc (exn_class e) HardwareCaptureError = true.

Lemma handle_record_errors signal trace_len kind misc record st e :
  handle_record signal trace_len kind misc record st = Raise e -> is_capture_error e.
Proof.
  unfold handle_record. destruct (_ || _); [by intros [= <-]|].
  assert (Ha : forall e, handle_aux signal trace_len record st = Raise e -> is_capture_error e).
  { intros e'. unfold handle_aux. destruct (_ <? 24)%nat eqn:Hl; [by intros [= <-]|]. bool_prop.
    rewrite !unpack_from_bytes by (simpl; lia). cbn [rbind].
    destruct (negb _); [by intros [= <-]|]. destruct (_ || _); by intros [= <-]. }
  assert (Hs : forall st e, handle_sample signal misc record st = Raise e -> is_capture_error e).
  { intros st' e'. unfold handle_sample. destruct (String.eqb signal "intel_pt"); [by intros [= <-]|].
    destruct (negb _) eqn:Hl; [by intros [= <-]|]. bool_prop.
    assert (Hl' : (48 <= length record)%nat) by (rewrite Hl; simpl; lia).
    rewrite unpack_from_bytes by (simpl; lia). cbn [rbind].
    destruct (unpack_fields _SAMPLE_ROW (drop 0 record)) as [|? [|? [|? [|? [|? [|? [|? [|? [|]]]]]]]]] eqn:Hu;
      try discriminate Hu.
    destruct (String.eqb signal "memory_loads"); [|done].
    rewrite unpack_from_bytes by (rewrite Hl; simpl; lia). cbn [rbind].
    by destruct (unpack_fields [8; 8]%nat (drop (struct_size _SAMPLE_ROW) record)) as [|? [|? [|]]] eqn:Hu2. }
  destruct (kind =? _AUX); cbn [rbind].
  - destruct (handle_aux signal trace_len record st) as [st1|e1] eqn:Hx; cbn [rbind].
    + destruct (kind =? _SAMPLE); [apply Hs|done].
    + intros [= <-]. by apply Ha.
  - destruct (kind =? _SAMPLE); [apply Hs|done].
Qed.

Lemma decode_loop_errors fuel data signal trace_len position st e :
  decode_loop fuel data signal trace_len position st = Some (Raise e) -> is_capture_error e.
Proof.
  revert position st; induction fuel as [|fuel IH]; intros position st; cbn [decode_loop]; [done|].
  destruct (position <? length data)%nat eqn:Hlt; [|done]. bool_prop.
  destruct (_ <? _)%nat eqn:Hh; [by intros [= <-]|]. bool_prop. simpl in Hh.
  rewrite unpack_from_bytes by (simpl; lia).
  destruct (unpack_fields _HEADER (drop position data)) as [|kind [|misc [|size [|]]]] eqn:Hu;
    try discriminate Hu.
  destruct (_ || _); [by intros [= <-]|].
  destruct (handle_record _ _ _ _ _ _) eqn:Hr; [apply IH|]. intros [= <-].
  by eapply handle_record_errors.
Qed.

(** ** Properties of the buffers *)

(** C32: a ring is read exactly. For a ring that lies in its mapping, the bytes returned are
    those between tail and head in stream order, each from its place modulo the ring's size;
    the read is refused exactly when the producer went backwards or overran the ring. *)
Theorem ring_bytes_exact (mapping : list Z) (head tail offset size : Z)
  (Hsize : 0 < size) (Htail : 0 <= tail) (Hoffset : 0 <= offset)
  (Hfit : offset + size <= Z.of_nat (length mapping)) :
  match _ring_bytes mapping head tail offset size with
  | Ok bs => tail <= head <= tail + size /\ Z.of_nat (length bs) = head - tail /\
      forall i, 0 <= i < head - tail ->
        bs !! Z.to_nat i = mapping !! Z.to_nat (offset + (tail + i) mod size)
  | Raise e => exn_class e = HardwareTraceLost /\ ~ tail <= head <= tail + size
  end.
Proof.
  unfold _ring_bytes. pose proof (Z.mod_pos_bound tail size Hsize) as Hm.
  destruct (_ || _) eqn:Hg.
  { split; [done|]. apply orb_true_iff in Hg as [?|?]; bool_prop; lia. }
  bool_prop. destruct (size =? 0) eqn:Hz; bool_prop; [lia|].
  set (start := tail mod size) in *. set (first := Z.min _ _).
  assert (H1 : Z.of_nat (length (subscript mapping (offset + start) (offset + start + first))) = first)
    by (rewrite length_subscript; lia).
  assert (H2 : Z.of_nat (length (subscript mapping offset (offset + (head - tail) - first))) =
    head - tail - first) by (rewrite length_subscript; lia).
  split_and!; [lia|lia|rewrite length_app; lia|]. intros i Hi.
  destruct (decide (i < first)) as [Hlt|Hge].
  - rewrite lookup_app_l, subscript_lookup by lia. rewrite mod_step by lia. f_equal. lia.
  - rewrite lookup_app_r by lia.
    replace (Z.to_nat i - _)%nat with (Z.to_nat (i - first)) by lia.
    rewrite subscript_lookup by lia. rewrite mod_wrap by lia. f_equal. lia.
Qed.

(** The decoding of any buffer. *)
Definition decoded_exactly (data : list Z) (signal : string) (source : Z) (trace : list Z)
    (r : option (result HardwareBatch)) : Prop :=
  match r with
  | Some (Ok b) => exists es, data = encode_entries signal es /\
      complete signal (Z.of_nat (length trace)) es /\ b = expected_batch source signal es trace
  | Some (Raise e) => is_capture_error e /\
      forall es, data = encode_entries signal es -> ~ complete signal (Z.of_nat (length trace)) es
  | None => False
  end.

Lemma decode_records_sound data signal source trace : Forall is_byte data ->
  decoded_exactly data signal source trace (_decode_records data signal source trace).
Proof.
  intros Hdata. unfold decoded_exactly, _decode_records. set (st0 := MkDecoding 0 new_columns).
  assert (Hcomp : forall es, data = encode_entries signal es ->
    complete signal (Z.of_nat (length trace)) es -> exists st,
    decode_loop (S (length data)) data signal (Z.of_nat (length trace)) 0 st0 = Some (Ok st) /\
    (signal = "intel_pt" -> de_aux st = Z.of_nat (length trace))).
  { intros es -> (Hf & Hal & final & Haux & Hcov).
    exists (MkDecoding final (zip_with app new_columns (columns_of (samples es)))).
    split; [|done]. apply (decode_loop_complete _ signal _ []); [done|by apply steps_spec|].
    clear. induction es as [|e es IH]; [simpl; lia|].
    change (encode_entries signal (e :: es)) with (encode_entry signal e ++ encode_entries signal es).
    rewrite length_app, length_encode_entry. simpl. lia. }
  pose proof (decode_loop_total (S (length data)) data signal (Z.of_nat (length trace)) 0 st0 ltac:(lia)) as Ht.
  destruct (decode_loop _ _ _ _ _ _) as [[st|e]|] eqn:Hd; [| |done].
  - destruct (_ && _) eqn:Hg.
    + apply andb_true_iff in Hg as [Hsig Hne]. apply String.eqb_eq in Hsig. bool_prop.
      split; [done|]. intros es He Hc. destruct (Hcomp es He Hc) as (st1 & [= ->] & Ha). by apply Hne, Ha.
    + apply decode_loop_sound in Hd as (es & Hf & Hdrop & Hsteps); [|done|lia].
      apply steps_spec in Hsteps as (Hal & Haux & Hcols); [|done].
      assert (Hcols' : de_columns st = columns_of (samples es)) by exact Hcols.
      rewrite Hcols', batch_of_expected by done. exists es. rewrite drop_0 in Hdrop.
      split_and!; [done| |done]. split_and!; [done|done|]. exists (de_aux st). split; [done|].
      intros ->. simpl in Hg. bool_prop. done.
  - split; [by eapply decode_loop_errors|]. intros es He Hc.
    by destruct (Hcomp es He Hc) as (st1 & [=] & _).
Qed.

(** C25: decoding is all or nothing. The loop always ends; the buffer decodes to a batch if
    and only if it is the encoding of a complete stream (nothing lost, no unexpected record,
    AUX records covering the PT bytes exactly), and the batch then holds every sample, in
    order, with its 64-bit fields as two's complement; any other buffer is a capture error. *)
Theorem decode_records_exact (data : list Z) (signal : string) (source : Z) (trace : list Z)
  (Hdata : Forall is_byte data) :
  decoded_exactly data signal source trace (_decode_records data signal source trace).
Proof. by apply decode_records_sound. Qed.

(** ** Counter groups: proofs *)

(** A group as perf writes it: identifier and value of each member. *)
Definition encode_member (m : Z * Z) : list Z := pack_fields [8; 8]%nat [m.2; m.1].
Definition encode_group (members : list (Z * Z)) (enabled running : Z) : list Z :=
  pack_fields [8; 8; 8]%nat [Z.of_nat (length members); enabled; running] ++
  concat (encode_member <$> members).

Definition member_fits (m : Z * Z) : Prop := fits 8 m.1 /\ fits 8 m.2.

Definition group_fits (members : list (Z * Z)) (enabled running : Z) : Prop :=
  Forall2 fits [8; 8; 8]%nat [Z.of_nat (length members); enabled; running] /\
  Forall member_fits members.

(** The members that stand from a position on. *)
Fixpoint members_at (n : nat) (payload : list Z) (position : nat) : list (Z * Z) :=
  match n with
  | O => []
  | S n => match unpack_fields [8; 8]%nat (drop position payload) with
           | [v; i] => (i, v) :: members_at n payload (position + 16)
           | _ => []
           end
  end.

Lemma members_at_S n payload position : exists i v,
  unpack_fields [8; 8]%nat (drop position payload) = [v; i] /\
  members_at (S n) payload position = (i, v) :: members_at n payload (position + 16).
Proof. simpl. by do 2 eexists. Qed.

Lemma read_members_spec n payload position observed :
  (position + 16 * n <= length payload)%nat -> NoDup observed.*1 ->
  let all := observed ++ members_at n payload position in
  match read_members n payload position observed with
  | Ok r => r = all /\ NoDup all.*1
  | Raise e => is_capture_error e /\ ~ NoDup all.*1
  end.
Proof.
  revert position observed; induction n as [|n IH]; intros position observed Hl Hn all.
  { simpl in *. unfold all. simpl. by rewrite app_nil_r. }
  destruct (members_at_S n payload position) as (i & v & Hu & Hm). unfold all. rewrite Hm.
  cbn [read_members]. rewrite unpack_from_bytes, Hu by (simpl; lia). cbn [rbind nth].
  destruct (od_get i observed) as [w|] eqn:Hg; cbn [is_some].
  - split; [done|]. rewrite fmap_app. simpl. rewrite NoDup_app. intros (_ & Hd & _).
    apply od_get_Some_elem in Hg. apply (Hd i); [|set_solver].
    apply list_elem_of_fmap. by exists (i, w).
  - rewrite od_set_fresh by done. specialize (IH (position + 16)%nat (observed ++ [(i, v)])).
    rewrite <- app_assoc in IH. apply IH; [lia|]. rewrite fmap_app. apply NoDup_app.
    split_and!; [done| |apply NoDup_singleton]. intros j Hj Hi.
    apply od_get_None in Hg. set_solver.
Qed.

Lemma members_at_encode n payload position : Forall is_byte payload ->
  length payload = (position + 16 * n)%nat ->
  drop position payload = concat (encode_member <$> members_at n payload position) /\
  length (members_at n payload position) = n /\
  Forall member_fits (members_at n payload position).
Proof.
  intros Hb. revert position; induction n as [|n IH]; intros position Hl.
  { simpl. split_and!; [apply drop_ge; lia|done|done]. }
  destruct (members_at_S n payload position) as (i & v & Hu & Hm). rewrite Hm.
  destruct (IH (position + 16)%nat) as (Hd & Hlen & Hf); [lia|].
  assert (Hdb : Forall is_byte (drop position payload)) by (by apply Forall_drop).
  assert (Hdl : (struct_size [8; 8]%nat <= length (drop position payload))%nat)
    by (rewrite length_drop; simpl; lia).
  pose proof (pack_unpack_fields [8; 8]%nat _ Hdb Hdl) as Hp.
  pose proof (unpack_fields_fits [8; 8]%nat _ Hdb Hdl) as Hfi. rewrite Hu in Hp, Hfi.
  split_and!.
  - rewrite fmap_cons. cbn [concat]. rewrite <- Hd. unfold encode_member. cbn [fst snd]. rewrite Hp.
    change (struct_size [8; 8]%nat) with 16%nat. rewrite <- drop_drop. by rewrite take_drop.
  - simpl. by rewrite Hlen.
  - constructor; [|done]. apply Forall2_cons in Hfi as [Hv Hfi]. apply Forall2_cons in Hfi as [Hi _].
    by split.
Qed.

Lemma members_at_of_encoding pre ms : Forall member_fits ms ->
  members_at (length ms) (pre ++ concat (encode_member <$> ms)) (length pre) = ms.
Proof.
  intros Hf. revert pre; induction Hf as [|[i v] ms [Hi Hv] _ IH]; intros pre; [done|].
  simpl length. destruct (members_at_S (length ms) (pre ++ concat (encode_member <$> (i, v) :: ms))
    (length pre)) as (i' & v' & Hu & ->).
  rewrite fmap_cons in Hu |- *. cbn [concat] in Hu |- *. rewrite drop_app_length in Hu.
  unfold encode_member at 1 in Hu. rewrite unpack_pack_fields in Hu by (constructor; [done|constructor; [done|constructor]]).
  injection Hu as <- <-. cbn [fst snd]. f_equal.
  replace (length pre + 16)%nat with (length (pre ++ encode_member (i, v)))
    by (rewrite length_app; unfold encode_member; by rewrite length_pack_fields).
  rewrite app_assoc. apply IH.
Qed.

Lemma same_set_spec l1 l2 : same_set l1 l2 = true <-> forall x : Z, x ∈ l1 <-> x ∈ l2.
Proof.
  unfold same_set. rewrite andb_true_iff, !forallb_forall. split.
  - intros [H1 H2] x. specialize (H1 x). specialize (H2 x).
    rewrite !bool_decide_eq_true, <- !list_elem_of_In in *. naive_solver.
  - intros Hx. split; intros x Hin; apply bool_decide_eq_true, Hx, list_elem_of_In, Hin.
Qed.

Lemma lookup_members observed ids : (forall x, x ∈ ids -> x ∈ observed.*1) ->
  exists vs, rmap (lookup_member observed) ids = Ok vs /\
    Forall2 (fun i v => od_get i observed = Some v) ids vs.
Proof.
  induction ids as [|i ids IH]; intros Hin; [by exists []|]. cbn [rmap].
  destruct IH as (vs & Hr & Hf); [set_solver|]. unfold lookup_member at 1.
  destruct (od_get i observed) as [v|] eqn:Hg.
  - exists (v :: vs). rewrite Hr. by split; [|constructor].
  - apply od_get_None in Hg. destruct Hg. apply Hin. set_solver.
Qed.

Lemma same_size_permutation (l1 l2 : list Z) : NoDup l1 -> length l1 = length l2 ->
  (forall x, x ∈ l1 <-> x ∈ l2) -> l1 ≡ₚ l2 /\ NoDup l2.
Proof.
  intros Hn Hl Hx.
  assert (Hp : l1 ≡ₚ l2) by (apply submseteq_length_Permutation; [apply NoDup_submseteq; [done|]; intros x; apply Hx|lia]).
  split; [done|]. by rewrite <- Hp.
Qed.

Lemma length_members ms : length (concat (encode_member <$> ms)) = (16 * length ms)%nat.
Proof.
  induction ms as [|m ms IH]; [done|]. rewrite fmap_cons. cbn [concat]. rewrite length_app, IH.
  unfold encode_member. rewrite length_pack_fields by done. simpl. lia.
Qed.

(** The group a payload encodes, when its size is right. *)
Lemma group_shape payload n : Forall is_byte payload -> length payload = (24 + 16 * n)%nat ->
  exists count enabled running, unpack_from [8; 8; 8]%nat payload 0 = Ok [count; enabled; running] /\
    Forall2 fits [8; 8; 8]%nat [count; enabled; running] /\
    payload = pack_fields [8; 8; 8]%nat [count; enabled; running] ++
              concat (encode_member <$> members_at n payload 24).
Proof.
  intros Hb Hl. rewrite unpack_from_bytes by (simpl; lia). rewrite drop_0.
  assert (Hsz : (struct_size [8; 8; 8]%nat <= length payload)%nat) by (simpl; lia).
  pose proof (unpack_fields_fits _ _ Hb Hsz) as Hf. pose proof (pack_unpack_fields _ _ Hb Hsz) as Hp.
  destruct (unpack_fields [8; 8; 8]%nat payload) as [|c [|e [|r [|]]]] eqn:Hu; try discriminate Hu.
  exists c, e, r. split_and!; [done|done|]. rewrite Hp.
  destruct (members_at_encode n payload 24 Hb Hl) as (<- & _). by rewrite take_drop.
Qed.

(** A counter group is read by identity. The values come back in the order of the
    expected identifiers, whatever order perf used, exactly when the payload is a whole group
    with those identifiers, each once; any other payload is a capture error. *)
Theorem counter_group_exact (payload : list Z) (identifiers : list Z)
  (Hbytes : Forall is_byte payload) :
  match _read_counter_group (Ok payload) identifiers with
  | Ok (values, enabled, running) => exists members,
      payload = encode_group members enabled running /\ group_fits members enabled running /\
      members.*1 ≡ₚ identifiers /\ NoDup identifiers /\
      Forall2 (fun i v => (i, v) ∈ members) identifiers values
  | Raise e => is_capture_error e /\
      forall members enabled running, group_fits members enabled running ->
        payload = encode_group members enabled running -> NoDup members.*1 ->
        ~ members.*1 ≡ₚ identifiers
  end.
Proof.
  unfold _read_counter_group. cbn [reported_read rbind].
  set (n := length identifiers).
  assert (Hsize : forall ms e r, payload = encode_group ms e r -> ms.*1 ≡ₚ identifiers ->
    length ms = n /\ length payload = (24 + 16 * n)%nat).
  { intros ms e r -> Hp. apply Permutation_length in Hp. rewrite length_fmap in Hp.
    assert (Hms : length ms = n) by done. split; [done|]. unfold encode_group.
    rewrite length_app, length_pack_fields, length_members by done. rewrite <- Hms. done. }
  destruct (negb _) eqn:Hl.
  { split; [done|]. intros ms e r _ Hpay _ Hp. destruct (Hsize ms e r Hpay Hp) as [_ Hs].
    bool_prop. done. }
  bool_prop. destruct (group_shape payload n Hbytes Hl) as (count & enabled & running & -> & Hfit & Hpay).
  cbn [rbind nth].
  assert (Hagree : forall ms e r, group_fits ms e r -> payload = encode_group ms e r ->
    ms.*1 ≡ₚ identifiers -> count = Z.of_nat n /\ ms = members_at n payload 24).
  { intros ms e r [Hf1 Hf2] Hp Hperm. destruct (Hsize ms e r Hp Hperm) as [Hlen _].
    assert (Hu : unpack_fields [8; 8; 8]%nat payload = [Z.of_nat (length ms); e; r])
      by (rewrite Hp; by apply unpack_pack_fields).
    rewrite Hpay, unpack_pack_fields in Hu by done. injection Hu as -> _ _.
    split; [by rewrite Hlen|]. rewrite <- Hlen, Hp.
    symmetry. by apply (members_at_of_encoding
      (pack_fields [8; 8; 8]%nat [Z.of_nat (length ms); e; r])). }
  destruct (negb (count =? _)) eqn:Hc; bool_prop.
  { split; [done|]. intros ms e r Hg Hp _ Hperm. by destruct (Hagree ms e r Hg Hp Hperm). }
  destruct (members_at_encode n payload 24 Hbytes Hl) as (_ & Hmlen & Hmfit).
  pose proof (read_members_spec n payload 24 [] ltac:(lia) ltac:(constructor)) as Hr.
  set (ms := members_at n payload 24) in *. cbn [app] in Hr.
  destruct (read_members n payload 24 []) as [r|x]; cbn [rbind].
  2:{ destruct Hr as [Hx Hnd]. split; [done|]. intros ms' e r Hg Hp Hnd' Hperm.
      destruct (Hagree ms' e r Hg Hp Hperm) as [_ ->]. done. }
  destruct Hr as [-> Hnd]. destruct (negb (same_set _ _)) eqn:Hss; bool_prop.
  { split; [done|]. intros ms' e r Hg Hp Hnd' Hperm. destruct (Hagree ms' e r Hg Hp Hperm) as [_ ->].
    enough (same_set ms.*1 identifiers = true) by congruence.
    apply same_set_spec. intros x. by rewrite Hperm. }
  rewrite same_set_spec in Hss. destruct (lookup_members ms identifiers) as (vs & -> & Hvs).
  { intros x. apply Hss. }
  cbn [rbind]. exists ms.
  destruct (same_size_permutation ms.*1 identifiers Hnd) as [Hperm Hnd2]; [by rewrite length_fmap|done|].
  split_and!; [|split; [|done]|done|done|].
  - rewrite Hpay at 1. unfold encode_group. by rewrite Hmlen, Hc.
  - by rewrite Hmlen, <- Hc.
  - eapply Forall2_impl; [exact Hvs|]. intros i v Hg. by apply od_get_Some_elem.
Qed.

Lemma counter_batch_iff (tid cpu_number : Z) (start_values final_values : list Z)
  (start_enabled start_running final_enabled final_running : Z) :
  let deltas := zip_with (fun start stop => stop - start) start_values final_values in
  forall b, _counter_batch tid cpu_number (Some (start_values, start_enabled, start_running))
      (final_values, final_enabled, final_running) = Ok b <->
    0 < final_enabled - start_enabled /\
    final_running - start_running = final_enabled - start_enabled /\
    Forall (fun d => 0 <= d < 2 ^ 63) deltas /\
    b = MkHardwareCounterBatch tid tid cpu_number _COUNTER_SIGNALS
          (Tensor int64 cpu [length deltas] deltas) (final_enabled - start_enabled)
          (final_enabled - start_enabled) true false.
Proof.
  intros deltas b. unfold _counter_batch. fold deltas.
  assert (Hex : existsb (fun p => p.2 <? p.1) (zip start_values final_values) = false <->
    Forall (fun d => 0 <= d) deltas).
  { unfold deltas. clear. revert final_values.
    induction start_values as [|s ss IH]; intros [|f fs]; try done.
    simpl. rewrite orb_false_iff, IH, Forall_cons, Z.ltb_ge. split; intros [? ?]; split; try done; lia. }
  destruct (_ || _) eqn:Hg.
  { split; [done|]. intros (He & Hr & Hd & _). apply orb_true_iff in Hg as [Hg|Hg].
    - apply orb_true_iff in Hg as [?|?]; bool_prop; lia.
    - assert (Hd' : Forall (fun d => 0 <= d) deltas) by (eapply Forall_impl; [done|]; simpl; lia).
      apply Hex in Hd'. congruence. }
  apply orb_false_iff in Hg as [Hg Hnn]. apply Hex in Hnn. bool_prop.
  destruct ((_ =? 0) || _) eqn:Hz.
  { split; [done|]. intros (He & Hr & _). apply orb_true_iff in Hz as [?|?]; bool_prop; lia. }
  bool_prop. destruct (negb _) eqn:Hm; bool_prop; [split; [done|]; intros (_ & ? & _); lia|].
  unfold array_q. destruct (negb _) eqn:Ho; bool_prop.
  { split; [done|]. intros (_ & _ & Hd & _). exfalso.
    enough (forallb (fun v => bool_decide (- 2 ^ 63 <= v < 2 ^ 63)) deltas = true) by congruence.
    apply forallb_forall. intros v Hv. apply bool_decide_eq_true.
    rewrite List.Forall_forall in Hd. specialize (Hd v Hv). lia. }
  assert (Hs : Forall (sint 64) deltas).
  { apply List.Forall_forall. intros v Hv. rewrite forallb_forall in Ho.
    specialize (Ho v Hv). by apply bool_decide_eq_true in Ho. }
  cbn [rbind]. rewrite tensor_q_Ok by done. cbn [rbind]. rewrite Hm.
  split; [intros [= <-]|by intros (_ & _ & _ & ->)]. split_and!; [lia|done| |done].
  apply List.Forall_forall. intros v Hv. rewrite List.Forall_forall in Hs, Hnn.
  specialize (Hs v Hv). specialize (Hnn v Hv). unfold sint in Hs. simpl in *. lia.
Qed.

(** Counter deltas are exact and only of a group that ran throughout. A batch is built
    exactly when there is a baseline, no counter or time went backwards, the group ran for
    the whole nonempty time it was enabled and every delta is a signed 64-bit value; it holds
    those deltas. *)
Theorem counter_batch_exact (tid cpu_number : Z) (start_values final_values : list Z)
  (start_enabled start_running final_enabled final_running : Z) :
  let deltas := zip_with (fun start stop => stop - start) start_values final_values in
  forall b, _counter_batch tid cpu_number (Some (start_values, start_enabled, start_running))
      (final_values, final_enabled, final_running) = Ok b <->
    0 < final_enabled - start_enabled /\
    final_running - start_running = final_enabled - start_enabled /\
    Forall (fun d => 0 <= d < 2 ^ 63) deltas /\
    b = MkHardwareCounterBatch tid tid cpu_number _COUNTER_SIGNALS
          (Tensor int64 cpu [length deltas] deltas) (final_enabled - start_enabled)
          (final_enabled - start_enabled) true false.
Proof. apply counter_batch_iff. Qed.

(** ** Concrete buffers *)

Lemma bytes_by_evaluation bs : forallb (fun b => (0 <=? b) && (b <? 256)) bs = true -> Forall is_byte bs.
Proof.
  rewrite forallb_forall, List.Forall_forall. intros Hb b Hin. specialize (Hb b Hin). unfold is_byte. lia.
Qed.

Definition example_sample : sample :=
  MkSample (Z.shiftl 1 14) 0x401000 7 8 (2 ^ 63 + 5) 0x7000 3 0 100 20 (2 ^ 64 - 1).
Definition example_stream : list entry := [EOther 1 0 [1; 2]; ESample example_sample].

Lemma decode_records_exact_witness :
  exists b es, _decode_records (encode_entries "memory_loads" example_stream) "memory_loads" 8 [] =
    Some (Ok b) /\ complete "memory_loads" 0 es /\ b = expected_batch 8 "memory_loads" es [] /\
    t_data (hb_time b) = [5 - 2 ^ 63].
Proof.
  pose proof (decode_records_exact (encode_entries "memory_loads" example_stream) "memory_loads" 8 []) as Hd.
  assert (Hb : Forall is_byte (encode_entries "memory_loads" example_stream)).
  { apply bytes_by_evaluation. vm_compute. reflexivity. }
  specialize (Hd Hb).
  assert (He : exists b, _decode_records (encode_entries "memory_loads" example_stream) "memory_loads" 8 [] =
    Some (Ok b) /\ t_data (hb_time b) = [5 - 2 ^ 63]) by (eexists; split; vm_compute; reflexivity).
  destruct He as (b & He & Ht). rewrite He in Hd. destruct Hd as (es & _ & Hc & Hx).
  exists b, es. split_and!; [exact He|exact Hc|exact Hx|exact Ht].
Defined.

Lemma ring_bytes_exact_witness :
  exists bs, _ring_bytes [99; 10; 11; 12; 13] 7 3 1 4 = Ok bs /\ bs = [13; 10; 11; 12] /\
    Z.of_nat (length bs) = 4.
Proof.
  pose proof (ring_bytes_exact [99; 10; 11; 12; 13] 7 3 1 4 ltac:(lia) ltac:(lia) ltac:(lia)
    ltac:(simpl; lia)) as Hr.
  change (_ring_bytes [99; 10; 11; 12; 13] 7 3 1 4) with (Ok (E:=exn) [13; 10; 11; 12]) in Hr |- *.
  destruct Hr as (_ & Hl & _). eexists. split_and!; [reflexivity|reflexivity|exact Hl].
Defined.

Definition example_group : list Z := encode_group [(5, 100); (4, 200)] 50 50.

Lemma counter_group_exact_witness :
  _read_counter_group (Ok example_group) [4; 5] = Ok ([200; 100], 50, 50) /\
  exists members, members.*1 ≡ₚ [4; 5] /\ (5, 100) ∈ members.
Proof.
  assert (Hb : Forall is_byte example_group).
  { apply bytes_by_evaluation. vm_compute. reflexivity. }
  pose proof (counter_group_exact example_group [4; 5] Hb) as Hg.
  assert (He : _read_counter_group (Ok example_group) [4; 5] = Ok ([200; 100], 50, 50))
    by (vm_compute; reflexivity).
  split; [exact He|]. rewrite He in Hg. destruct Hg as (ms & _ & _ & Hp & _ & Hf).
  exists ms. split; [exact Hp|]. inversion Hf as [|? ? ? ? _ Hf2]; subst. by inversion Hf2.
Defined.

Lemma counter_batch_exact_witness :
  exists b, _counter_batch 9 (-1) (Some ([10; 20; 30], 5, 5)) ([11; 22; 33], 8, 8) = Ok b /\
    t_data (cb_values b) = [1; 2; 3] /\ cb_time_enabled_ns b = 3.
Proof.
  destruct (counter_batch_exact 9 (-1) [10; 20; 30] [11; 22; 33] 5 5 8 8
    (MkHardwareCounterBatch 9 9 (-1) _COUNTER_SIGNALS (Tensor int64 cpu [3%nat] [1; 2; 3]) 3 3 true false))
    as [_ Hb].
  eexists. split; [apply Hb|split; reflexivity].
  split_and!; [lia|lia|repeat constructor; lia|reflexivity].
Defined.
