(* ===== verification/HardwareConfig.v ===== *)
(** * Hardware capture settings ([hardware.py])

    The two configuration classes with their validation, and the perf event
    attributes built from them. The files under /sys are a parameter: what
    reading each path gives. *)

From Stdlib Require Import Ascii.
From S2P Require Import Prelude Batch HardwareDecode.

(** ** Text to integers, as Python's [str.strip] and [int] *)

Definition is_space (c : Ascii.ascii) : bool :=
  let n := Ascii.nat_of_ascii c in
  (n =? 32)%nat || ((9 <=? n)%nat && (n <=? 13)%nat) || ((28 <=? n)%nat && (n <=? 31)%nat).

Fixpoint lstrip (s : list Ascii.ascii) : list Ascii.ascii :=
  match s with
  | c :: s' => if is_space c then lstrip s' else s
  | [] => []
  end.
Definition strip (s : string) : string :=
  String.string_of_list_ascii (rev (lstrip (rev (lstrip (String.list_ascii_of_string s))))).

Definition digit_value (c : Ascii.ascii) : Z :=
  let n := Z.of_nat (Ascii.nat_of_ascii c) in
  if (48 <=? n) && (n <=? 57) then n - 48
  else if (97 <=? n) && (n <=? 122) then n - 87
  else if (65 <=? n) && (n <=? 90) then n - 55
  else 99.

(** Digits with single underscores between them; [after] when the last character was a
    digit (or a base prefix). *)
Fixpoint parse_digits (base acc : Z) (after : bool) (s : list Ascii.ascii) : option Z :=
  match s with
  | [] => if after then Some acc else None
  | c :: s =>
      if Ascii.eqb c "_"%char then if after then parse_digits base acc false s else None
      else if digit_value c <? base then parse_digits base (acc * base + digit_value c) true s
      else None
  end.

(** The digits proper: a first digit is needed. *)
Definition parse_number (base : Z) (prefixed : bool) (s : list Ascii.ascii) : option Z :=
  match s with
  | [] => None
  | c :: _ => if Ascii.eqb c "_"%char && negb prefixed then None else parse_digits base 0 prefixed s
  end.

Definition parse_base0 (s : list Ascii.ascii) : option Z :=
  match s with
  | "0"%char :: c :: rest =>
      if Ascii.eqb c "x"%char || Ascii.eqb c "X"%char then parse_number 16 true rest
      else if Ascii.eqb c "o"%char || Ascii.eqb c "O"%char then parse_number 8 true rest
      else if Ascii.eqb c "b"%char || Ascii.eqb c "B"%char then parse_number 2 true rest
      else match parse_number 10 false s with Some 0 => Some 0 | _ => None end
  | _ => parse_number 10 false s
  end.

Definition parse_signed (parse : list Ascii.ascii -> option Z) (s : string) : result Z :=
  let r := match String.list_ascii_of_string (strip s) with
           | "-"%char :: rest => Z.opp <$> parse rest
           | "+"%char :: rest => parse rest
           | l => parse l
           end in
  match r with Some z => Ok z | None => throw ValueError "invalid literal for int()" end.

(** [int(s)] and [int(s, 0)] *)
Definition int10 : string -> result Z := parse_signed (parse_number 10 false).
Definition int0 : string -> result Z := parse_signed parse_base0.

(** ** Configurations *)

Record HardwareConfig := MkHardwareConfig {
  hc_scope : string;
  hc_signal : string;
  hc_pid : option Z;
  hc_cpus : option (list Z);
  hc_period : Z;
  hc_data_pages : Z;
  hc_aux_pages : Z;
}.

Record HardwareMultimodalConfig := MkHardwareMultimodalConfig {
  mc_scope : string;
  mc_pid : Z;
  mc_modalities : list string;
  mc_pebs_period : Z;
  mc_data_pages : Z;
  mc_aux_pages : Z;
}.

Definition _MODALITIES : list string := ["intel_pt"; "memory_loads"; "counters"].

(** [value in (...)] *)
Definition one_of (value : string) (values : list string) : bool :=
  existsb (String.eqb value) values.

(** [len(set(values)) != len(values)] *)
Definition has_duplicates `{EqDecision A} (l : list A) : bool :=
  negb (length (remove_dups l) =? length l)%nat.

Definition check_pages (name : string) (pages : Z) : result unit :=
  raise! ValueError (name +:+ " must be a positive power of two")
    when (pages <=? 0) || negb (Z.land pages (pages - 1) =? 0) in
  Ok tt.

Definition check_hardware_config (c : HardwareConfig) : result unit :=
  raise! ValueError "scope must be process, process_kernel, or kernel"
    when negb (one_of (hc_scope c) ["process"; "process_kernel"; "kernel"]) in
  raise! ValueError "Unknown hardware signal"
    when negb (one_of (hc_signal c) ["cycles"; "instructions"; "memory_loads"; "intel_pt"]) in
  raise! ValueError "Process capture needs a positive pid and no CPU list"
    when one_of (hc_scope c) ["process"; "process_kernel"] &&
         (match hc_pid c with None => true | Some p => p <=? 0 end || is_some (hc_cpus c)) in
  raise! ValueError "Kernel capture needs a nonempty CPU list and no pid"
    when String.eqb (hc_scope c) "kernel" &&
         (is_some (hc_pid c) || match hc_cpus c with None | Some [] => true | _ => false end) in
  raise! ValueError "CPU numbers must be distinct and nonnegative"
    when match hc_cpus c with
         | None => false
         | Some cpus => has_duplicates cpus || existsb (fun n => n <? 0) cpus
         end in
  raise! ValueError "period must be positive" when hc_period c <=? 0 in
  let! u := check_pages "data_pages" (hc_data_pages c) in
  check_pages "aux_pages" (hc_aux_pages c).

Definition check_multimodal_config (c : HardwareMultimodalConfig) : result unit :=
  raise! ValueError "Multimodal capture needs process or process_kernel scope"
    when negb (one_of (mc_scope c) ["process"; "process_kernel"]) in
  raise! ValueError "Multimodal capture needs a positive pid" when mc_pid c <=? 0 in
  raise! ValueError "modalities must be nonempty and distinct"
    when match mc_modalities c with [] => true | _ => false end || has_duplicates (mc_modalities c) in
  raise! ValueError "Unknown multimodal hardware source"
    when existsb (fun m => negb (one_of m _MODALITIES)) (mc_modalities c) in
  raise! ValueError "pebs_period must be positive" when mc_pebs_period c <=? 0 in
  let! u := check_pages "data_pages" (mc_data_pages c) in
  check_pages "aux_pages" (mc_aux_pages c).

(** [PerfMultimodalCapture._hardware_config], before the new configuration checks itself. *)
Definition _hardware_config (c : HardwareMultimodalConfig) (signal : string) : HardwareConfig :=
  MkHardwareConfig (mc_scope c) signal (Some (mc_pid c)) None (mc_pebs_period c)
    (mc_data_pages c) (mc_aux_pages c).

(** ** Event attributes *)

(** [_PerfAttr]: the fields of perf_event_attr. *)
Record perf_attr := MkPerfAttr {
  pa_type : Z; pa_size : Z; pa_config : Z; pa_sample_period : Z; pa_sample_type : Z;
  pa_read_format : Z; pa_flags : Z; pa_wakeup_events : Z; pa_bp_type : Z; pa_config1 : Z;
  pa_config2 : Z; pa_branch_sample_type : Z; pa_sample_regs_user : Z; pa_sample_stack_user : Z;
  pa_clockid : Z; pa_sample_regs_intr : Z; pa_aux_watermark : Z; pa_sample_max_stack : Z;
  pa_reserved : Z; pa_aux_sample_size : Z; pa_reserved2 : Z;
}.

Definition _SAMPLE_FIELDS : Z :=
  Z.lor (Z.shiftl 1 0) (Z.lor (Z.shiftl 1 1) (Z.lor (Z.shiftl 1 2) (Z.lor (Z.shiftl 1 3)
    (Z.lor (Z.shiftl 1 7) (Z.shiftl 1 8))))).
Definition _MEMORY_FIELDS : Z := Z.lor _SAMPLE_FIELDS (Z.lor (Z.shiftl 1 14) (Z.shiftl 1 15)).
Definition _FORMAT_TOTAL_TIME_ENABLED : Z := Z.shiftl 1 0.
Definition _FORMAT_TOTAL_TIME_RUNNING : Z := Z.shiftl 1 1.
Definition _FORMAT_ID : Z := Z.shiftl 1 2.
Definition _FORMAT_GROUP : Z := Z.shiftl 1 3.
Definition _GROUP_READ_FORMAT : Z :=
  Z.lor _FORMAT_TOTAL_TIME_ENABLED (Z.lor _FORMAT_TOTAL_TIME_RUNNING
    (Z.lor _FORMAT_ID _FORMAT_GROUP)).
Definition _CLOCK_MONOTONIC_RAW : Z := 4.
(** [ctypes.sizeof(_PerfAttr)]: every field of the structure is naturally aligned. *)
Definition sizeof_PerfAttr : Z := 120.

(** An attribute with only the fields this code sets; [ctypes] keeps the low bits of what is
    assigned to a field. *)
Definition make_attr (ty config period sample_type read_format flags config1 clockid : Z) : perf_attr :=
  MkPerfAttr (wrap 32 ty) sizeof_PerfAttr config (wrap 64 period) sample_type read_format flags
    0 0 (wrap 64 config1) 0 0 0 0 clockid 0 0 0 0 0 0.

Section attributes.
(** What [Path(path).read_text()] gives. *)
Context (read_text : string -> result string).

(** [try: ... except OSError: raise HardwareCaptureError(msg)] *)
Definition or_unavailable {A} (msg : string) (r : result A) : result A :=
  match r with
  | Raise e => if isinstance_exc (exn_class e) OSError then throw HardwareCaptureError msg else Raise e
  | Ok a => Ok a
  end.

Definition _source_value (path : string) : result Z :=
  match (let! text := read_text path in int10 (strip text)) with
  | Ok v => Ok v
  | Raise e =>
      if isinstance_exc (exn_class e) OSError || isinstance_exc (exn_class e) ValueError
      then throw HardwareCaptureError ("Required perf source is unavailable: " +:+ path)
      else Raise e
  end.

(** The part of a string after the first occurrence of another, as [split(sep, 1)[1]]. *)
Definition after_first (sep s : string) : result string :=
  match String.index 0 sep s with
  | Some i => let start := (i + String.length sep)%nat in
              Ok (String.substring start (String.length s - start) s)
  | None => throw IndexError "list index out of range"
  end.

Definition base_flags (scope : string) : Z :=
  let flags := Z.lor 1 (Z.shiftl 1 6) in
  if String.eqb scope "process" then Z.lor flags (Z.shiftl 1 5)
  else if one_of scope ["process_kernel"; "kernel"] then Z.lor flags (Z.shiftl 1 4)
  else flags.

Definition cpu_root : string := "/sys/bus/event_source/devices/cpu".
Definition pt_root : string := "/sys/bus/event_source/devices/intel_pt".

Definition _attribute (c : HardwareConfig) : result perf_attr :=
  let flags := base_flags (hc_scope c) in
  let clocked := Z.lor (Z.shiftl 1 25) in
  if one_of (hc_signal c) ["cycles"; "instructions"] then
    let config := if String.eqb (hc_signal c) "cycles" then 0 else 1 in
    Ok (make_attr 0 config (hc_period c) _SAMPLE_FIELDS 0 (clocked flags) 0 _CLOCK_MONOTONIC_RAW)
  else if String.eqb (hc_signal c) "memory_loads" then
    let! ty := _source_value (cpu_root +:+ "/type") in
    let! text := or_unavailable "Precise memory-load PMU is unavailable"
                   (read_text (cpu_root +:+ "/events/mem-loads")) in
    let alias := strip text in
    raise! HardwareCaptureError "Unsupported precise memory-load PMU encoding"
      when negb (String.prefix "event=0xcd,umask=0x1,ldlat=" alias) in
    let! ldlat := after_first "ldlat=" alias in
    let! config1 := int0 ldlat in
    let flags := Z.lor flags (Z.lor (Z.shiftl 2 15) (Z.shiftl 1 2)) in
    Ok (make_attr ty 0x1CD (hc_period c) _MEMORY_FIELDS
          (Z.lor _FORMAT_TOTAL_TIME_ENABLED _FORMAT_TOTAL_TIME_RUNNING) (clocked flags) config1
          _CLOCK_MONOTONIC_RAW)
  else
    let! ty := _source_value (pt_root +:+ "/type") in
    let! pt_format := or_unavailable "Intel PT is unavailable" (read_text (pt_root +:+ "/format/pt")) in
    let! branch_format := or_unavailable "Intel PT is unavailable"
                            (read_text (pt_root +:+ "/format/branch")) in
    raise! HardwareCaptureError "Unsupported Intel PT branch encoding"
      when negb (String.eqb (strip pt_format) "config:0") ||
           negb (String.eqb (strip branch_format) "config:13") in
    let config := Z.lor 1 (Z.shiftl 1 13) in
    let clocked := fun f => if String.eqb (hc_signal c) "intel_pt" then f else Z.lor (Z.shiftl 1 25) f in
    Ok (make_attr ty config 0 0 0 (clocked flags) 0
          (if String.eqb (hc_signal c) "intel_pt" then 0 else _CLOCK_MONOTONIC_RAW)).
End attributes.

Definition _counter_attribute (scope signal : string) (leader : bool) : result perf_attr :=
  match od_get signal [("cycles", 0); ("instructions", 1); ("ref_cycles", 9)] with
  | None => throw ValueError "Unknown boundary counter"
  | Some event =>
      let flags := Z.lor 1 (Z.shiftl 1 6) in
      let flags := if leader then Z.lor flags (Z.shiftl 1 2) else flags in
      let attr := fun flags => make_attr 0 event 0 0 _GROUP_READ_FORMAT flags 0 0 in
      if String.eqb scope "process" then Ok (attr (Z.lor flags (Z.shiftl 1 5)))
      else if String.eqb scope "process_kernel" then Ok (attr (Z.lor flags (Z.shiftl 1 4)))
      else throw ValueError "Boundary counters need process or process_kernel scope"
  end.

(** [machine] is [platform.machine().lower()]. *)
Definition _syscall_number (machine : string) : result Z :=
  match od_get machine [("x86_64", 298); ("aarch64", 241)] with
  | Some n => Ok n
  | None => throw HardwareCaptureError "perf capture supports Linux x86-64 and AArch64"
  end.

(** ** Proofs *)

Lemma land_pred_pow2 k : 0 <= k -> Z.land (2 ^ k) (2 ^ k - 1) = 0.
Proof.
  intros Hk. rewrite Z.sub_1_r, <- Z.ones_equiv. rewrite Z.land_ones by done.
  by rewrite Z.mod_same by lia.
Qed.

(** A positive number is its highest power of two plus less than that. *)
Lemma log2_split n : 0 < n -> exists r, n = 2 ^ Z.log2 n + r /\ 0 <= r < 2 ^ Z.log2 n.
Proof.
  intros Hn. pose proof (Z.log2_spec n Hn) as [H1 H2]. exists (n - 2 ^ Z.log2 n).
  rewrite Z.pow_succ_r in H2 by apply Z.log2_nonneg. lia.
Qed.

(** The bit test of the page counts. *)
Lemma power_of_two_test n : 0 < n -> Z.land n (n - 1) = 0 <-> exists k, 0 <= k /\ n = 2 ^ k.
Proof.
  intros Hn. split.
  - intros Hl. exists (Z.log2 n). split; [apply Z.log2_nonneg|].
    destruct (log2_split n Hn) as (r & Hr & Hb). destruct (decide (r = 0)) as [->|Hne]; [lia|].
    exfalso. set (k := Z.log2 n) in *. assert (Hk : 0 <= k) by apply Z.log2_nonneg.
    assert (Hbit : forall m, 0 <= m < 2 ^ k -> Z.testbit (2 ^ k + m) k = true).
    { intros m Hm. rewrite Z.testbit_true by done.
      replace ((2 ^ k + m) / 2 ^ k) with 1; [done|].
      symmetry. rewrite Z.add_comm, <- (Z.mul_1_l (2 ^ k)) at 1.
      rewrite Z.div_add by lia. rewrite Z.div_small by lia. done. }
    assert (Hc : Z.testbit (Z.land n (n - 1)) k = true).
    { rewrite Z.land_spec, Hr, Hbit by lia.
      replace (2 ^ k + r - 1) with (2 ^ k + (r - 1)) by lia. by rewrite Hbit by lia. }
    rewrite Hl, Z.bits_0 in Hc. done.
  - intros (k & Hk & ->). by apply land_pred_pow2.
Qed.

Definition power_of_two (n : Z) : Prop := exists k, 0 <= k /\ n = 2 ^ k.

Lemma check_pages_spec name pages : check_pages name pages = Ok tt <-> power_of_two pages.
Proof.
  unfold check_pages, power_of_two. destruct (_ || _) eqn:Hg.
  - split; [done|]. intros Hp. apply orb_true_iff in Hg as [Hg|Hg]; bool_prop.
    + destruct Hp as (k & Hk & ->). lia.
    + destruct Hg. apply power_of_two_test; [|done]. destruct Hp as (k & Hk & ->). lia.
  - bool_prop. split; [|done]. intros _. by apply power_of_two_test.
Qed.

Lemma one_of_spec v vs : one_of v vs = true <-> v ∈ vs.
Proof.
  unfold one_of. rewrite existsb_exists. setoid_rewrite <- list_elem_of_In. split.
  - intros (x & Hx & He). apply String.eqb_eq in He. by subst.
  - intros Hv. exists v. by rewrite String.eqb_refl.
Qed.

Lemma has_duplicates_spec `{EqDecision A} (l : list A) : has_duplicates l = false <-> NoDup l.
Proof.
  unfold has_duplicates. rewrite negb_false_iff, Nat.eqb_eq. split.
  - intros Hl. assert (Hsub : remove_dups l ⊆+ l)
      by (apply NoDup_submseteq; [apply NoDup_remove_dups|]; intros x; by rewrite elem_of_remove_dups).
    assert (Hp : remove_dups l ≡ₚ l) by (apply submseteq_length_Permutation; [done|lia]).
    rewrite <- Hp. apply NoDup_remove_dups.
  - intros Hn. induction Hn as [|x l Hx Hn IH]; [done|]. cbn [remove_dups].
    destruct (decide_rel _ x l); [done|]. simpl. by rewrite IH.
Qed.

(** What the constructor promises about a configuration. *)
Definition hardware_config_ok (c : HardwareConfig) : Prop :=
  hc_signal c ∈ ["cycles"; "instructions"; "memory_loads"; "intel_pt"] /\
  (hc_scope c ∈ ["process"; "process_kernel"] /\
     (exists p, hc_pid c = Some p /\ 0 < p) /\ hc_cpus c = None
   \/ hc_scope c = "kernel" /\ hc_pid c = None /\
     exists cpus, hc_cpus c = Some cpus /\ cpus <> [] /\ NoDup cpus /\ Forall (fun n => 0 <= n) cpus) /\
  0 < hc_period c /\ power_of_two (hc_data_pages c) /\ power_of_two (hc_aux_pages c).

Lemma no_negative (cpus : list Z) : existsb (fun n => n <? 0) cpus = false <-> Forall (fun n => 0 <= n) cpus.
Proof.
  induction cpus as [|n cpus IH]; simpl; [done|]. rewrite orb_false_iff, IH, Forall_cons, Z.ltb_ge. done.
Qed.

Lemma scope_cases c : hc_scope c ∈ ["process"; "process_kernel"; "kernel"] ->
  one_of (hc_scope c) ["process"; "process_kernel"] = true /\ String.eqb (hc_scope c) "kernel" = false /\
    hc_scope c ∈ ["process"; "process_kernel"]
  \/ one_of (hc_scope c) ["process"; "process_kernel"] = false /\ hc_scope c = "kernel".
Proof.
  intros Hs. assert (Hc : hc_scope c = "process" \/ hc_scope c = "process_kernel" \/ hc_scope c = "kernel")
    by set_solver. destruct Hc as [->|[->| ->]]; [left|left|right]; split_and!; try done; set_solver.
Qed.

(** A hardware configuration object is exactly a valid one. The checks accept a
    configuration if and only if it names a known signal and either a process by a positive
    pid or a nonempty list of distinct CPUs, with a positive period and page counts that are
    powers of two (the bit test is exact). *)
Theorem hardware_config_exact (c : HardwareConfig) :
  check_hardware_config c = Ok tt <-> hardware_config_ok c.
Proof.
  unfold check_hardware_config, hardware_config_ok.
  destruct (one_of (hc_scope c) ["process"; "process_kernel"; "kernel"]) eqn:Hs; cbn [negb].
  2:{ split; [done|]. intros (_ & Hc & _). enough (one_of (hc_scope c) ["process"; "process_kernel"; "kernel"] = true) by congruence.
      apply one_of_spec. destruct Hc as [[Hc _]|[-> _]]; set_solver. }
  apply one_of_spec, scope_cases in Hs.
  destruct (one_of (hc_signal c) ["cycles"; "instructions"; "memory_loads"; "intel_pt"]) eqn:Hsig; cbn [negb].
  2:{ split; [done|]. intros (Hc & _). apply one_of_spec in Hc. congruence. }
  apply one_of_spec in Hsig.
  assert (Htail : (raise! ValueError "period must be positive" when hc_period c <=? 0 in
      let! u := check_pages "data_pages" (hc_data_pages c) in check_pages "aux_pages" (hc_aux_pages c)) = Ok tt <->
    0 < hc_period c /\ power_of_two (hc_data_pages c) /\ power_of_two (hc_aux_pages c)).
  { destruct (Z.leb_spec (hc_period c) 0); [split; [done|lia]|].
    rewrite rbind_Ok. rewrite <- !check_pages_spec. split.
    - intros ([] & H1 & H2). by split_and!.
    - intros (_ & H1 & H2). by exists tt. }
  destruct Hs as [(-> & -> & Hin)|(Hp & Hk)].
  - assert (Hnk : hc_scope c <> "kernel") by (intros Hx; rewrite Hx in Hin; set_solver).
    cbn [andb]. destruct (hc_pid c) as [p|], (hc_cpus c) as [cpus|]; cbn [is_some];
      rewrite ?orb_true_r, ?orb_false_r.
    1,3,4: split; [done|]; intros (_ & [(_ & (p' & [=] & _) & ?)|(Hx & _ & _)] & _); done.
    destruct (Z.leb_spec p 0).
    + split; [done|]. intros (_ & [(_ & (p' & [= <-] & Hp) & _)|(Hx & _ & _)] & _); [lia|done].
    + rewrite Htail. split; [intros Ht|tauto]. split; [done|]. split; [|done]. left. eauto with lia.
  - assert (Hnp : "kernel" ∉ ["process"; "process_kernel"]) by set_solver.
    rewrite Hp, Hk, String.eqb_refl. cbn [andb]. destruct (hc_pid c) as [p|]; cbn [is_some orb].
    { split; [done|]. by intros (_ & [(Hx & _)|(_ & Hx & _)] & _). }
    destruct (hc_cpus c) as [[|n cpus]|]; cbn [negb].
    1,3: split; [done|]; by intros (_ & [(Hx & _)|(_ & _ & (l & [= <-] & Hl & _))] & _).
    destruct (_ || _) eqn:Hcpu.
    + split; [done|]. intros (_ & [(Hx & _)|(_ & _ & (l & [= <-] & _ & Hnd & Hnn))] & _); [done|].
      apply has_duplicates_spec in Hnd. apply no_negative in Hnn. rewrite Hnd, Hnn in Hcpu. done.
    + bool_prop. rewrite Htail. split; [|tauto]. intros Ht. split; [done|]. split; [right|done].
      split_and!; [done|done|]. exists (n :: cpus).
      by rewrite <- has_duplicates_spec, <- no_negative.
Qed.

(** What the kernel is asked for, bit by bit of [flags]. *)
Record attr_meaning := MkMeaning {
  am_disabled : bool; am_pinned : bool; am_exclude_user : bool; am_exclude_kernel : bool;
  am_exclude_hv : bool; am_precise_ip : Z; am_use_clockid : bool;
}.
Definition meaning (flags : Z) : attr_meaning :=
  MkMeaning (Z.testbit flags 0) (Z.testbit flags 2) (Z.testbit flags 4) (Z.testbit flags 5)
    (Z.testbit flags 6) (Z.land (Z.shiftr flags 15) 3) (Z.testbit flags 25).

Lemma bind_capture_error {A B} (r : result A) (k : A -> result B) e :
  (let! a := r in k a) = Raise e -> r = Raise e \/ exists a, r = Ok a /\ k a = Raise e.
Proof. destruct r; simpl; [right; eauto|left; congruence]. Qed.

Lemma config_scope c : hardware_config_ok c ->
  hc_scope c = "process" \/ hc_scope c = "process_kernel" \/ hc_scope c = "kernel".
Proof. intros (_ & [[Hs _]|[Hs _]] & _); set_solver. Qed.

Lemma config_signal c : hardware_config_ok c -> hc_signal c = "cycles" \/
  hc_signal c = "instructions" \/ hc_signal c = "memory_loads" \/ hc_signal c = "intel_pt".
Proof. intros (Hs & _). set_solver. Qed.

(** An event asks for the configured scope and nothing else. For a valid configuration,
    every event built starts disabled, never counts the hypervisor, and excludes the kernel
    for a process capture and user code for the two kernel captures; the precise load event
    alone is pinned and precise; samples use the explicit clock and Intel PT asks for branch
    packets without sampling. *)
Theorem attribute_scope (read_text : string -> result string) (c : HardwareConfig) (a : perf_attr)
  (Hc : hardware_config_ok c) (Ha : _attribute read_text c = Ok a) :
  let process := String.eqb (hc_scope c) "process" in
  let memory := String.eqb (hc_signal c) "memory_loads" in
  let pt := String.eqb (hc_signal c) "intel_pt" in
  meaning (pa_flags a) = MkMeaning true memory (negb process) process true
    (if memory then 2 else 0) (negb pt) /\
  pa_size a = 120 /\
  (if pt then pa_config a = 0x2001 /\ pa_sample_period a = 0 /\ pa_sample_type a = 0
   else pa_sample_period a = wrap 64 (hc_period c) /\ pa_clockid a = _CLOCK_MONOTONIC_RAW /\
        pa_sample_type a = if memory then _MEMORY_FIELDS else _SAMPLE_FIELDS).
Proof.
  unfold _attribute in Ha. pose proof (config_scope c Hc) as Hs. pose proof (config_signal c Hc) as Hg.
  destruct Hg as [Hg|[Hg|[Hg|Hg]]]; rewrite Hg in *; cbn -[_source_value make_attr wrap rbind] in Ha.
  1,2: injection Ha as <-; destruct Hs as [->|[->| ->]]; by split_and!.
  - inv_res Ha. injection Ha as <-. destruct Hs as [->|[->| ->]]; by split_and!.
  - inv_res Ha. injection Ha as <-. destruct Hs as [->|[->| ->]]; by split_and!.
Qed.

Definition multimodal_config_ok (c : HardwareMultimodalConfig) : Prop :=
  mc_scope c ∈ ["process"; "process_kernel"] /\ 0 < mc_pid c /\ mc_modalities c <> [] /\
  NoDup (mc_modalities c) /\ mc_modalities c ⊆ _MODALITIES /\ 0 < mc_pebs_period c /\
  power_of_two (mc_data_pages c) /\ power_of_two (mc_aux_pages c).

Lemma check_multimodal_config_ok c : check_multimodal_config c = Ok tt -> multimodal_config_ok c.
Proof.
  unfold check_multimodal_config, multimodal_config_ok. intros Hc. inv_res Hc. bool_prop.
  apply one_of_spec in Hg. apply has_duplicates_spec in H0. apply check_pages_spec in Hc.
  destruct v. apply check_pages_spec in Hv. split_and!; try done.
  - by destruct (mc_modalities c).
  - intros m Hm. apply one_of_spec. destruct (one_of m _MODALITIES) eqn:Ho; [done|].
    enough (existsb (fun m => negb (one_of m _MODALITIES)) (mc_modalities c) = true) by congruence.
    apply existsb_exists. exists m. rewrite Ho. split; [by apply list_elem_of_In|done].
Qed.

(** The inner configurations of a multimodal capture are valid. Every configuration the
    multimodal capture derives for one of its sampled sources passes its own checks, so
    opening a source never fails on validation. *)
Theorem derived_config_valid (c : HardwareMultimodalConfig) (signal : string)
  (Hc : check_multimodal_config c = Ok tt) (Hs : signal ∈ ["intel_pt"; "memory_loads"]) :
  check_hardware_config (_hardware_config c signal) = Ok tt.
Proof.
  destruct (check_multimodal_config_ok c Hc) as (Hsc & Hp & _ & _ & _ & Hper & Hd & Ha).
  unfold check_hardware_config, _hardware_config. cbn [hc_scope hc_signal hc_pid hc_cpus hc_period
    hc_data_pages hc_aux_pages].
  apply check_pages_spec with (name := "data_pages") in Hd.
  apply check_pages_spec with (name := "aux_pages") in Ha. rewrite Hd, Ha.
  assert (Hsc' : mc_scope c = "process" \/ mc_scope c = "process_kernel") by set_solver.
  assert (Hs' : signal = "intel_pt" \/ signal = "memory_loads") by set_solver.
  rewrite (proj2 (Z.leb_gt _ _) Hper), (proj2 (Z.leb_gt _ _) Hp).
  destruct Hsc' as [-> | ->], Hs' as [-> | ->]; reflexivity.
Qed.

(** ** Concrete configurations *)

Definition example_hardware_config : HardwareConfig :=
  MkHardwareConfig "process" "memory_loads" (Some 42) None 100000 64 128.
Definition example_multimodal_config : HardwareMultimodalConfig :=
  MkHardwareMultimodalConfig "process" 42 _MODALITIES 100000 64 2048.

(** The files of an Intel machine. *)
Definition example_sysfs (path : string) : result string :=
  match od_get path [("/sys/bus/event_source/devices/cpu/type", "4 ");
                     ("/sys/bus/event_source/devices/cpu/events/mem-loads", "event=0xcd,umask=0x1,ldlat=0x3 ")] with
  | Some text => Ok text
  | None => throw OSError "No such file or directory"
  end.

Lemma hardware_config_exact_witness :
  hardware_config_ok example_hardware_config /\
  check_hardware_config (MkHardwareConfig "process" "cycles" (Some 42) None 1 24 128) =
    throw ValueError "data_pages must be a positive power of two".
Proof.
  split; [|vm_compute; reflexivity].
  apply (hardware_config_exact example_hardware_config). vm_compute. reflexivity.
Defined.

Lemma example_config_ok : hardware_config_ok example_hardware_config.
Proof.
  unfold hardware_config_ok. simpl. split_and!; [set_solver|left|lia|by exists 6|by exists 7].
  split_and!; [set_solver|by exists 42|done].
Qed.

Lemma attribute_scope_witness :
  exists a, _attribute example_sysfs example_hardware_config = Ok a /\ pa_type a = 4 /\
    pa_config1 a = 3 /\ am_exclude_kernel (meaning (pa_flags a)) = true.
Proof.
  assert (He : exists a, _attribute example_sysfs example_hardware_config = Ok a /\ pa_type a = 4 /\
    pa_config1 a = 3) by (eexists; split_and!; vm_compute; reflexivity).
  destruct He as (a & Ha & Ht & H1). exists a. split_and!; [exact Ha|exact Ht|exact H1|].
  destruct (attribute_scope example_sysfs example_hardware_config a example_config_ok Ha) as [Hm _].
  rewrite Hm. reflexivity.
Defined.

Lemma derived_config_valid_witness :
  check_multimodal_config example_multimodal_config = Ok tt /\
  check_hardware_config (_hardware_config example_multimodal_config "intel_pt") = Ok tt.
Proof.
  assert (Hc : check_multimodal_config example_multimodal_config = Ok tt) by (vm_compute; reflexivity).
  split; [exact Hc|]. apply (derived_config_valid example_multimodal_config "intel_pt" Hc). set_solver.
Defined.
