(* ===== verification/HardwareHost.v ===== *)
(** * The operating system under the hardware captures ([hardware.py])

    Descriptors and mappings are handed out fresh and given back; every call
    may fail, as an oracle indexed by the number of calls made decides. Closing
    something that is not open is counted as a fault. [owns] is the interface
    the capture classes are proved against: exactly these descriptors and
    mappings are live, and nothing was ever closed twice. *)

From stdpp Require Import sorting.
From S2P Require Import Prelude Monad Batch HardwareDecode HardwareConfig.

Record host := MkHost {
  h_calls : nat;
  h_next_fd : Z;
  h_open : gset Z;
  h_next_map : nat;
  h_mapped : gset nat;
  h_faults : nat;
  h_ioctls : list (Z * Z * Z);
}.

Definition new_host : host := MkHost 0 3 ∅ 0 ∅ 0 [].

Definition _ENABLE : Z := 0x2400.
Definition _DISABLE : Z := 0x2401.
Definition _RESET : Z := 0x2403.
Definition _ID : Z := 0x80082407.
Definition _GROUP_FLAG : Z := 1.

(** What the machine answers: which calls fail, what a descriptor reads, its event
    identifier, the bytes of a mapping once the event is disabled, and the clock. *)
Record machine := MkMachine {
  m_linux : bool;
  m_arch : string;
  m_page : Z;
  m_fails : nat -> option exn;
  m_tasks : list Z;
  m_read_text : string -> result string;
  m_read : nat -> list Z;
  m_event_id : Z -> Z;
  m_memory : nat -> list Z;
  m_clock : nat -> Z;
}.

Section calls.
Context (m : machine).
Notation M := (sx host exn).

Definition tick (h : host) : host :=
  MkHost (S (h_calls h)) (h_next_fd h) (h_open h) (h_next_map h) (h_mapped h) (h_faults h)
    (h_ioctls h).

(** A call that may fail. *)
Definition call {A} (run : host -> host * A) : M A := fun h =>
  match m_fails m (h_calls h) with
  | Some e => (tick h, Raise e)
  | None => let '(h', a) := run h in (tick h', Ok a)
  end.

(** [_open_event]: a negative descriptor is reported as a capture error. *)
Definition _open_event (attr : perf_attr) (tid cpu_number group_fd : Z) : M Z :=
  do! number := slift (_syscall_number (m_arch m)) in
  scatch
    (call (fun h => (MkHost (h_calls h) (h_next_fd h + 1) ({[h_next_fd h]} ∪ h_open h)
       (h_next_map h) (h_mapped h) (h_faults h) (h_ioctls h), h_next_fd h)))
    (fun e => sraise (Exn HardwareCaptureError "perf_event_open failed")).

Definition sys_mmap (fd : Z) : M nat :=
  call (fun h => (MkHost (h_calls h) (h_next_fd h) (h_open h) (S (h_next_map h))
     ({[h_next_map h]} ∪ h_mapped h) (h_faults h) (h_ioctls h), h_next_map h)).

(** [fcntl.ioctl]: its failures are [OSError]s. The buffer that [_ID] fills is [m_event_id]. *)
Definition ioctl (fd cmd arg : Z) : M unit :=
  scatch
    (call (fun h => (MkHost (h_calls h) (h_next_fd h) (h_open h) (h_next_map h) (h_mapped h)
       (h_faults h) (h_ioctls h ++ [(fd, cmd, arg)]), tt)))
    (fun e => sraise (Exn OSError (exn_msg e))).

Definition os_close (fd : Z) : M unit := fun h =>
  (MkHost (S (h_calls h)) (h_next_fd h) (h_open h ∖ {[fd]}) (h_next_map h) (h_mapped h)
     (if decide (fd ∈ h_open h) then h_faults h else S (h_faults h)) (h_ioctls h), Ok tt).

Definition map_close (id : nat) : M unit := fun h =>
  (MkHost (S (h_calls h)) (h_next_fd h) (h_open h) (h_next_map h) (h_mapped h ∖ {[id]})
     (if decide (id ∈ h_mapped h) then h_faults h else S (h_faults h)) (h_ioctls h), Ok tt).

(** [os.read]: what it gives, as a value, so that the reader decides. *)
Definition os_read (fd : Z) : M (result (list Z)) := fun h =>
  (tick h, Ok (match m_fails m (h_calls h) with
               | Some e => Raise (Exn OSError (exn_msg e))
               | None => Ok (m_read m (h_calls h))
               end)).

Definition clock_gettime_ns : M Z := fun h => (tick h, Ok (m_clock m (h_calls h))).

(** [sorted(int(name) for name in os.listdir("/proc/.../task"))] *)
Definition list_tasks (msg : string) : M (list Z) :=
  scatch (call (fun h => (h, merge_sort Z.le (m_tasks m))))
    (fun e => sraise (if isinstance_exc (exn_class e) OSError then Exn HardwareCaptureError msg else e)).

Definition _event_id (fd : Z) : M Z :=
  run! scatch (ioctl fd _ID 0)
    (fun e => sraise (Exn HardwareCaptureError "Cannot identify a PMU group member")) in
  if m_event_id m fd =? 0
  then sraise (Exn HardwareCaptureError "Perf returned an invalid PMU event identifier")
  else sret (m_event_id m fd).

(** [_map_aux]: the request is written to the data mapping, then mapped. *)
Definition _map_aux (fd data_pages aux_pages : Z) : M nat :=
  let offset := m_page m * (1 + data_pages) in
  let size := m_page m * aux_pages in
  run! slift (pack [8; 8]%nat [offset; size]) in
  sys_mmap fd.

(** ** Ownership *)

Record owns (fds : list Z) (maps : list nat) (h : host) : Prop := {
  ow_fds : NoDup fds;
  ow_maps : NoDup maps;
  ow_open : h_open h = list_to_set fds;
  ow_mapped : h_mapped h = list_to_set maps;
  ow_fresh_fd : Forall (fun fd => fd < h_next_fd h) fds;
  ow_fresh_map : Forall (fun id => id < h_next_map h)%nat maps;
  ow_next : 0 <= h_next_fd h;
  ow_faults : h_faults h = 0%nat;
}.

Lemma owns_perm fds maps fds' maps' h : fds ≡ₚ fds' -> maps ≡ₚ maps' ->
  owns fds maps h -> owns fds' maps' h.
Proof.
  intros Hf Hm []. split; try done.
  - by rewrite <- Hf.
  - by rewrite <- Hm.
  - rewrite ow_open0. by rewrite Hf.
  - rewrite ow_mapped0. by rewrite Hm.
  - by rewrite <- Hf.
  - by rewrite <- Hm.
Qed.

Lemma owns_same fds maps h h' : h_next_fd h' = h_next_fd h -> h_open h' = h_open h ->
  h_next_map h' = h_next_map h -> h_mapped h' = h_mapped h -> h_faults h' = h_faults h ->
  owns fds maps h -> owns fds maps h'.
Proof. intros E1 E2 E3 E4 E5 []. split; rewrite ?E1, ?E2, ?E3, ?E4, ?E5; done. Qed.

Lemma owns_tick fds maps h : owns fds maps h -> owns fds maps (tick h).
Proof. by apply owns_same. Qed.

Lemma call_wp {A} (run : host -> host * A) (Q : A -> host -> Prop) (R : exn -> host -> Prop) h :
  (forall e, R e (tick h)) -> (let '(h', a) := run h in Q a (tick h')) -> wp (call run) Q R h.
Proof.
  intros HR HQ. unfold wp, call. destruct (m_fails m (h_calls h)); [done|]. by destruct (run h).
Qed.

Lemma open_event_wp attr tid cpu_number group fds maps h : owns fds maps h ->
  wp (_open_event attr tid cpu_number group)
    (fun fd h' => owns (fds ++ [fd]) maps h' /\ 0 <= fd) (fun _ h' => owns fds maps h') h.
Proof.
  intros Ho. apply wp_bind, wp_lift; [intros n _|by intros]. apply wp_catch, call_wp.
  { intros e. by apply wp_raise, owns_tick. }
  simpl. split; [|apply Ho]. apply owns_tick. destruct Ho. split; simpl; try done.
  - apply NoDup_app. split_and!; [done| |apply NoDup_singleton].
    intros fd Hfd ->%list_elem_of_singleton. rewrite Forall_forall in ow_fresh_fd0.
    specialize (ow_fresh_fd0 _ Hfd). lia.
  - rewrite ow_open0, list_to_set_app_L. set_solver.
  - apply Forall_app. split; [|by constructor; [lia|]].
    eapply Forall_impl; [done|]. simpl. lia.
  - lia.
Qed.

Lemma mmap_wp fd fds maps h : owns fds maps h ->
  wp (sys_mmap fd) (fun id h' => owns fds (maps ++ [id]) h') (fun _ h' => owns fds maps h') h.
Proof.
  intros Ho. apply call_wp; [intros e; by apply owns_tick|]. simpl. apply owns_tick.
  destruct Ho. split; simpl; try done.
  - apply NoDup_app. split_and!; [done| |apply NoDup_singleton].
    intros id Hid ->%list_elem_of_singleton. rewrite Forall_forall in ow_fresh_map0.
    specialize (ow_fresh_map0 _ Hid). lia.
  - rewrite ow_mapped0, list_to_set_app_L. set_solver.
  - apply Forall_app. split; [|by constructor; [lia|]].
    eapply Forall_impl; [done|]. simpl. lia.
Qed.

Lemma map_aux_wp fd data_pages aux_pages fds maps h : owns fds maps h ->
  wp (_map_aux fd data_pages aux_pages) (fun id h' => owns fds (maps ++ [id]) h')
    (fun _ h' => owns fds maps h') h.
Proof.
  intros Ho. apply wp_bind, wp_lift; [intros bs _; by apply mmap_wp|by intros].
Qed.

Lemma ioctl_wp fd cmd arg fds maps h : owns fds maps h ->
  wp (ioctl fd cmd arg) (fun _ h' => owns fds maps h')
    (fun e h' => owns fds maps h' /\ isinstance_exc (exn_class e) OSError = true) h.
Proof.
  intros Ho. apply wp_catch, call_wp.
  - intros e. apply wp_raise. split; [by apply owns_tick|done].
  - simpl. by apply (owns_same fds maps h).
Qed.

Lemma os_close_wp fd fds maps h R : owns (fd :: fds) maps h ->
  wp (os_close fd) (fun _ h' => owns fds maps h') R h.
Proof.
  intros []. unfold wp, os_close. apply NoDup_cons in ow_fds0 as [Hn Hf].
  apply Forall_cons in ow_fresh_fd0 as [_ Hfr]. split; simpl; try done.
  - rewrite ow_open0. set_solver.
  - rewrite decide_True by (rewrite ow_open0; set_solver). done.
Qed.

Lemma map_close_wp id fds maps h R : owns fds (id :: maps) h ->
  wp (map_close id) (fun _ h' => owns fds maps h') R h.
Proof.
  intros []. unfold wp, map_close. apply NoDup_cons in ow_maps0 as [Hn Hf].
  apply Forall_cons in ow_fresh_map0 as [_ Hfr]. split; simpl; try done.
  - rewrite ow_mapped0. set_solver.
  - rewrite decide_True by (rewrite ow_mapped0; set_solver). done.
Qed.

Lemma os_read_wp fd fds maps h R : owns fds maps h ->
  wp (os_read fd) (fun _ h' => owns fds maps h') R h.
Proof. intros Ho. unfold wp, os_read. by apply owns_tick. Qed.

Lemma clock_wp fds maps h R : owns fds maps h ->
  wp clock_gettime_ns (fun _ h' => owns fds maps h') R h.
Proof. intros Ho. unfold wp, clock_gettime_ns. by apply owns_tick. Qed.

Lemma list_tasks_wp msg fds maps h : owns fds maps h ->
  wp (list_tasks msg) (fun tids h' => owns fds maps h' /\ tids = merge_sort Z.le (m_tasks m))
    (fun _ h' => owns fds maps h') h.
Proof.
  intros Ho. apply wp_catch, call_wp; [intros e; by apply wp_raise, owns_tick|].
  split; [by apply owns_tick|done].
Qed.

Lemma event_id_wp fd fds maps h : owns fds maps h ->
  wp (_event_id fd) (fun _ h' => owns fds maps h') (fun _ h' => owns fds maps h') h.
Proof.
  intros Ho. apply wp_bind, wp_catch. eapply wp_mono; [by apply ioctl_wp| |].
  - intros [] h' Ho'. apply wp_if; intros _; [by apply wp_raise|by apply wp_ret].
  - intros e h' [Ho' _]. by apply wp_raise.
Qed.
End calls.

Lemma new_host_owns : owns [] [] new_host.
Proof. split; simpl; try done; constructor. Qed.
