(* ===== verification/HardwareCapture.v ===== *)
(** * Single-source hardware captures ([hardware.py]: [PerfCapture])

    The lifecycle of a capture: events are opened and mapped one by one with the
    source's nested cleanups, enabled, disabled once, read, and released. *)

From S2P Require Import Prelude Monad Batch HardwareDecode HardwareConfig HardwareHost.

Record event := MkEvent { ev_fd : Z; ev_source : Z; ev_data : nat; ev_aux : option nat }.

Record perf := MkPerf {
  pf_events : list event;
  pf_running : bool;
  pf_stopped : bool;
  pf_host : host;
}.

(** A result whose loop had enough fuel. *)
Definition finished {A} (o : option (result A)) : result A :=
  match o with Some r => r | None => throw RuntimeError "loop did not end" end.

Section capture.
Context (m : machine) (c : HardwareConfig).
Notation M := (sx perf exn).

Definition set_host (h : host) (p : perf) : perf :=
  MkPerf (pf_events p) (pf_running p) (pf_stopped p) h.
Definition set_events (es : list event) (p : perf) : perf :=
  MkPerf es (pf_running p) (pf_stopped p) (pf_host p).
Definition set_running (b : bool) (p : perf) : perf :=
  MkPerf (pf_events p) b (pf_stopped p) (pf_host p).
Definition set_stopped (p : perf) : perf :=
  MkPerf (pf_events p) (pf_running p) true (pf_host p).

Definition on_host {A} (x : sx host exn A) : M A := szoom pf_host set_host x.

(** [PerfCapture.__init__] *)
Definition new_capture (h : host) : result perf :=
  raise! HardwareCaptureError "perf capture requires Linux" when negb (m_linux m) in
  Ok (MkPerf [] false false h).

(** [try: ioctl(fd, DISABLE, arg) except OSError: pass] *)
Definition try_disable (fd arg : Z) : sx host exn unit :=
  scatch (ioctl m fd _DISABLE arg)
    (fun e => if isinstance_exc (exn_class e) OSError then sret tt else sraise e).

Definition close_event (ev : event) : M unit :=
  run! on_host (try_disable (ev_fd ev) 0) in
  run! match ev_aux ev with Some a => on_host (map_close a) | None => sret tt end in
  run! on_host (map_close (ev_data ev)) in
  on_host (os_close (ev_fd ev)).

Definition close : M unit :=
  do! events := sgets pf_events in
  run! seach close_event events in
  run! smodify (set_events []) in
  smodify (set_running false).

(** One target of [__enter__]: the event, its mappings, and the cleanup of each on failure. *)
Definition open_target (attr : perf_attr) (target : Z * Z) : M unit :=
  let '(tid, cpu_number) := target in
  do! fd := on_host (_open_event m attr tid cpu_number (-1)) in
  scatch
    (do! data := on_host (sys_mmap m fd) in
     scatch
       (do! aux := (if String.eqb (hc_signal c) "intel_pt" then
            do! a := on_host (_map_aux m fd (hc_data_pages c) (hc_aux_pages c)) in sret (Some a)
          else sret None) in
        smodify (fun p => set_events (pf_events p ++
          [MkEvent fd (if 0 <=? cpu_number then cpu_number else tid) data aux]) p))
       (fun e => run! on_host (map_close data) in sraise e))
    (fun e => run! on_host (os_close fd) in sraise e).

Definition enable_event (ev : event) : M unit :=
  run! on_host (ioctl m (ev_fd ev) _RESET 0) in on_host (ioctl m (ev_fd ev) _ENABLE 0).

Definition targets : M (list (Z * Z)) :=
  if one_of (hc_scope c) ["process"; "process_kernel"] then
    do! tids := on_host (list_tasks m "Cannot enumerate process threads") in
    sret ((fun tid => (tid, -1)) <$> tids)
  else sret ((fun n => (-1, n)) <$> default [] (hc_cpus c)).

Definition enter : M unit :=
  do! p := sgets id in
  if pf_running p || pf_stopped p then
    sraise (Exn RuntimeError "Create a new PerfCapture for each run")
  else
  do! attr := slift (_attribute (m_read_text m) c) in
  do! ts := targets in
  scatch
    (run! seach (open_target attr) ts in
     do! events := sgets pf_events in
     run! seach enable_event events in
     smodify (set_running true))
    (fun e => run! close in sraise e).

(** What is read of one event once every event is disabled. *)
Definition read_event (ev : event) : result HardwareBatch :=
  finished (_read_mapped_batch (m_page m) (m_memory m (ev_data ev)) (m_memory m <$> ev_aux ev)
    (hc_data_pages c) (hc_signal c) (ev_source ev)).

Definition stop : M (list HardwareBatch) :=
  do! p := sgets id in
  if negb (pf_running p) || pf_stopped p then
    sraise (Exn RuntimeError "Capture must be running and stopped only once")
  else
  run! smodify set_stopped in
  run! seach (fun ev => on_host (ioctl m (ev_fd ev) _DISABLE 0)) (pf_events p) in
  run! smodify (set_running false) in
  slift (rmap read_event (pf_events p)).

(** ** The resources of a capture *)

Definition event_maps (ev : event) : list nat :=
  ev_data ev :: match ev_aux ev with Some a => [a] | None => [] end.
Definition all_fds (es : list event) : list Z := ev_fd <$> es.
Definition all_maps (es : list event) : list nat := es ≫= event_maps.

(** The capture holds exactly the resources of its events. *)
Definition balanced (p : perf) : Prop := owns (all_fds (pf_events p)) (all_maps (pf_events p)) (pf_host p).

Definition released (p : perf) : Prop :=
  pf_events p = [] /\ h_open (pf_host p) = ∅ /\ h_mapped (pf_host p) = ∅ /\ h_faults (pf_host p) = 0%nat.

Lemma balanced_empty p : balanced p -> pf_events p = [] -> released p.
Proof.
  intros [] He. unfold released. rewrite He in *. split_and!; [done|done|done|done].
Qed.

(** The fields only the lifecycle changes. *)
Definition same_flags (p p' : perf) : Prop :=
  pf_running p' = pf_running p /\ pf_stopped p' = pf_stopped p.

Lemma on_host_wp {A} (x : sx host exn A) (Q : A -> host -> Prop) (R : exn -> host -> Prop) p :
  wp x Q R (pf_host p) ->
  wp (on_host x) (fun a p' => Q a (pf_host p') /\ p' = set_host (pf_host p') p)
    (fun e p' => R e (pf_host p') /\ p' = set_host (pf_host p') p) p.
Proof. intros Hw. apply wp_zoom. eapply wp_mono; [exact Hw|..]; intros; by split. Qed.

Lemma try_disable_wp fd arg fds maps h (R : exn -> host -> Prop) : owns fds maps h ->
  wp (try_disable fd arg) (fun _ h' => owns fds maps h') R h.
Proof.
  intros Ho. apply wp_catch. eapply wp_mono; [by apply ioctl_wp|by intros [] h' Ho'|].
  intros e h' [Ho' He]. rewrite He. by apply wp_ret.
Qed.

(** Closing one event gives back what it held. *)
Lemma close_event_wp ev fds maps p (R : exn -> perf -> Prop) :
  owns (ev_fd ev :: fds) (event_maps ev ++ maps) (pf_host p) ->
  wp (close_event ev) (fun _ p' => owns fds maps (pf_host p') /\ p' = set_host (pf_host p') p) R p.
Proof.
  intros Ho. unfold close_event. apply wp_bind.
  eapply wp_mono; [apply on_host_wp, (try_disable_wp _ _ _ _ _ (fun _ _ => False) Ho)| |by intros ? ? []].
  intros [] p1 [Ho1 Hp1]. apply wp_bind.
  assert (Haux : wp (match ev_aux ev with Some a => on_host (map_close a) | None => sret tt end)
    (fun _ p' => owns (ev_fd ev :: fds) (ev_data ev :: maps) (pf_host p') /\ p' = set_host (pf_host p') p)
    (fun _ _ => False) p1).
  { unfold event_maps in Ho1. destruct (ev_aux ev) as [a|].
    - eapply wp_mono.
      + apply on_host_wp, (map_close_wp a (ev_fd ev :: fds) (ev_data ev :: maps) _ (fun _ _ => False)).
        eapply owns_perm; [done| |exact Ho1]. simpl. apply Permutation_swap.
      + intros [] p2 [Ho2 Hp2]. split; [done|]. rewrite Hp2, Hp1. done.
      + by intros ? ? [].
    - apply wp_ret. split; [exact Ho1|done]. }
  eapply wp_mono; [exact Haux| |done]. intros [] p2 [Ho2 Hp2]. apply wp_bind.
  eapply wp_mono; [apply on_host_wp, (map_close_wp _ _ _ _ (fun _ _ => False) Ho2)| |by intros ? ? []].
  intros [] p3 [Ho3 Hp3].
  eapply wp_mono; [apply on_host_wp, (os_close_wp _ _ _ _ (fun _ _ => False) Ho3)| |by intros ? ? []].
  intros [] p4 [Ho4 Hp4]. split; [done|]. rewrite Hp4, Hp3, Hp2. done.
Qed.

Lemma close_events_wp es p (R : exn -> perf -> Prop) :
  owns (all_fds es) (all_maps es) (pf_host p) ->
  wp (seach close_event es) (fun _ p' => owns [] [] (pf_host p') /\ p' = set_host (pf_host p') p) R p.
Proof.
  revert p; induction es as [|ev es IH]; intros p Ho.
  { apply wp_ret. split; [done|]. by destruct p. }
  cbn [seach]. apply wp_bind. eapply wp_mono; [by apply (close_event_wp ev (all_fds es) (all_maps es) p (fun _ _ => False))| |done].
  intros [] p1 [Ho1 Hp1]. eapply wp_mono; [by apply (IH p1)| |done].
  intros [] p2 [Ho2 Hp2]. split; [done|]. rewrite Hp2, Hp1. done.
Qed.

Lemma close_wp p (R : exn -> perf -> Prop) : balanced p ->
  wp close (fun _ p' => released p' /\ balanced p' /\ pf_running p' = false /\
                        pf_stopped p' = pf_stopped p) R p.
Proof.
  intros Hb. unfold close. apply wp_bind, wp_gets, wp_bind.
  eapply wp_mono; [by apply (close_events_wp _ p (fun _ _ => False))| |done].
  intros [] p1 [Ho1 Hp1]. apply wp_bind, wp_modify, wp_modify.
  assert (Hb' : balanced (set_running false (set_events [] p1))) by exact Ho1.
  split_and!; [by apply balanced_empty|done|done|]. rewrite Hp1. done.
Qed.

Lemma maps_snoc es ev : all_maps (es ++ [ev]) = all_maps es ++ event_maps ev.
Proof. unfold all_maps. rewrite bind_app. simpl. by rewrite app_nil_r. Qed.

(** Opening a target adds one event or changes nothing. *)
Lemma open_target_wp attr target p : balanced p ->
  wp (open_target attr target) (fun _ p' => balanced p' /\ same_flags p p')
    (fun _ p' => balanced p' /\ same_flags p p') p.
Proof.
  intros Hb. destruct target as [tid cpu_number]. unfold open_target. apply wp_bind.
  eapply wp_mono; [apply on_host_wp, open_event_wp, Hb| |].
  2:{ intros e p1 [Ho1 ->]. split; [exact Ho1|done]. }
  intros fd p1 [[Ho1 Hfd] Hp1]. apply wp_catch, wp_bind.
  assert (Hfail : forall e p', owns (all_fds (pf_events p) ++ [fd]) (all_maps (pf_events p)) (pf_host p') ->
    p' = set_host (pf_host p') p ->
    wp (run! on_host (os_close fd) in sraise e) (fun (_ : unit) p' => balanced p' /\ same_flags p p')
      (fun _ p' => balanced p' /\ same_flags p p') p').
  { intros e p' Ho Hp'. apply wp_bind.
    eapply wp_mono; [apply on_host_wp, (os_close_wp fd (all_fds (pf_events p)) (all_maps (pf_events p)) _ (fun _ _ => False))| |by intros ? ? []].
    { eapply owns_perm; [|done|exact Ho]. rewrite Permutation_app_comm. done. }
    intros [] p2 [Ho2 Hp2]. apply wp_raise. rewrite Hp2, Hp'. split; [exact Ho2|done]. }
  eapply wp_mono; [apply on_host_wp, mmap_wp, Ho1| |].
  2:{ intros e p2 [Ho2 Hp2]. apply Hfail; [done|]. rewrite Hp2, Hp1. done. }
  intros data p2 [Ho2 Hp2]. apply wp_catch, wp_bind.
  assert (Hadd : forall aux p3, owns (all_fds (pf_events p) ++ [fd])
      (all_maps (pf_events p) ++ event_maps (MkEvent fd 0 data aux)) (pf_host p3) ->
    p3 = set_host (pf_host p3) p -> forall source,
    balanced (set_events (pf_events p3 ++ [MkEvent fd source data aux]) p3) /\
    same_flags p (set_events (pf_events p3 ++ [MkEvent fd source data aux]) p3)).
  { intros aux p3 Ho3 Hp3 source. rewrite Hp3. split; [|done]. unfold balanced. simpl pf_events.
    simpl pf_host. unfold all_fds. rewrite fmap_app, maps_snoc. exact Ho3. }
  destruct (String.eqb (hc_signal c) "intel_pt").
  - apply wp_bind. eapply wp_mono; [apply on_host_wp, map_aux_wp, Ho2| |].
    + intros a p3 [Ho3 Hp3]. apply wp_ret, wp_modify. apply (Hadd (Some a)).
      * rewrite <- app_assoc in Ho3. exact Ho3.
      * rewrite Hp3, Hp2, Hp1. done.
    + intros e p3 [Ho3 Hp3]. apply wp_bind.
      eapply wp_mono; [apply on_host_wp, (map_close_wp data (all_fds (pf_events p) ++ [fd]) (all_maps (pf_events p)) _ (fun _ _ => False))| |by intros ? ? []].
      { eapply owns_perm; [done| |exact Ho3]. rewrite Permutation_app_comm. done. }
      intros [] p4 [Ho4 Hp4]. apply wp_raise. apply Hfail; [done|]. rewrite Hp4, Hp3, Hp2, Hp1. done.
  - apply wp_ret, wp_modify. apply (Hadd None); [exact Ho2|]. rewrite Hp2, Hp1. done.
Qed.

(** Between runs a capture that was not entered holds nothing. *)
Definition capture_ok (p : perf) : Prop :=
  balanced p /\ (pf_running p = false -> pf_stopped p = false -> pf_events p = []).

Lemma balanced_host p h : owns (all_fds (pf_events p)) (all_maps (pf_events p)) h ->
  balanced (set_host h p).
Proof. done. Qed.

Lemma ioctl_balanced fd cmd arg p : balanced p ->
  wp (on_host (ioctl m fd cmd arg)) (fun _ p' => balanced p' /\ p' = set_host (pf_host p') p)
    (fun _ p' => balanced p' /\ p' = set_host (pf_host p') p) p.
Proof.
  intros Hb. eapply wp_mono; [apply on_host_wp, ioctl_wp, Hb|..].
  - intros [] p' [Ho Hp]. rewrite Hp. by split.
  - intros e p' [[Ho _] Hp]. rewrite Hp. by split.
Qed.

Lemma enter_wp p : capture_ok p ->
  wp (enter) (fun _ p' => capture_ok p' /\ pf_running p' = true)
    (fun _ p' => capture_ok p' /\
       (pf_running p = false -> pf_stopped p = false -> released p') /\
       (pf_stopped p = true -> pf_stopped p' = true)) p.
Proof.
  intros [Hb He]. unfold enter. apply wp_bind, wp_gets. unfold id.
  apply wp_if; intros Hg.
  { apply wp_raise. split_and!; [done| |done]. intros Hr Hs. by rewrite Hr, Hs in Hg. }
  bool_prop. specialize (He H H0).
  assert (Hkeep : forall p', balanced p' -> pf_events p' = [] -> same_flags p p' ->
    capture_ok p' /\ (pf_running p = false -> pf_stopped p = false -> released p') /\
    (pf_stopped p = true -> pf_stopped p' = true)).
  { intros p' Hb' He' [Hr Hs]. split_and!; [by split|by intros; apply balanced_empty|congruence]. }
  apply wp_bind, wp_lift; [intros attr _|intros; by apply Hkeep].
  apply wp_bind. eapply (wp_mono _ (fun _ p1 => balanced p1 /\ pf_events p1 = [] /\ same_flags p p1)
    _ (fun _ p1 => balanced p1 /\ pf_events p1 = [] /\ same_flags p p1)).
  { unfold targets. apply wp_if; intros _; [|by apply wp_ret].
    apply wp_bind. eapply wp_mono; [apply on_host_wp, list_tasks_wp, Hb|..].
    - intros ts p1 [[Ho _] ->]. by apply wp_ret.
    - intros e p1 [Ho ->]. done. }
  2:{ intros e p1 (Hb1 & He1 & Hf1). by apply Hkeep. }
  intros ts p1 (Hb1 & He1 & Hf1). apply wp_catch.
  set (I := fun p' => balanced p' /\ same_flags p p').
  assert (Hclose : forall e p', I p' -> wp (run! close in sraise e)
    (fun (_ : unit) p' => capture_ok p' /\ pf_running p' = true)
    (fun _ p' => capture_ok p' /\ (pf_running p = false -> pf_stopped p = false -> released p') /\
       (pf_stopped p = true -> pf_stopped p' = true)) p').
  { intros e p' [Hb' [Hr' Hs']]. apply wp_bind.
    eapply wp_mono; [by apply (close_wp p' (fun _ _ => False))| |done].
    intros [] p2 (Hrel & Hb2 & Hr2 & Hs2). apply wp_raise.
    split_and!; [split; [done|intros; apply Hrel]|done|congruence]. }
  apply wp_bind. eapply wp_mono.
  - apply (wp_each (open_target attr) ts I (fun _ => I)); [|by split].
    intros t p' _ [Hb' Hf']. eapply wp_mono; [by apply open_target_wp|..].
    + intros [] p2 [Hb2 [Hr2 Hs2]]. split; [done|]. destruct Hf' as [Hr Hs]. split; congruence.
    + intros e p2 [Hb2 [Hr2 Hs2]]. split; [done|]. destruct Hf' as [Hr Hs]. split; congruence.
  - intros [] p2 [Hb2 [Hr2 Hs2]]. apply wp_bind, wp_gets, wp_bind. eapply wp_mono.
    + apply (wp_each enable_event (pf_events p2) I (fun _ => I)); [|by split].
      intros ev p' _ [Hb' [Hr' Hs']]. unfold enable_event. apply wp_bind.
      eapply wp_mono; [by apply ioctl_balanced|..].
      * intros [] p3 [Hb3 Hp3]. eapply wp_mono; [by apply ioctl_balanced|..];
          [intros [] p4 [Hb4 Hp4]|intros e p4 [Hb4 Hp4]]; (split; [done|]); rewrite Hp4, Hp3; by split.
      * intros e p3 [Hb3 Hp3]. split; [done|]. rewrite Hp3. by split.
    + intros [] p3 [Hb3 [Hr3 Hs3]]. apply wp_modify. split; [|done]. by split.
    + exact Hclose.
  - exact Hclose.
Qed.

Definition disabled (p p' : perf) : Prop :=
  h_ioctls (pf_host p') = h_ioctls (pf_host p) ++
    ((fun ev => (ev_fd ev, _DISABLE, 0)) <$> pf_events p).

Lemma ioctl_log fd cmd arg h h' : ioctl m fd cmd arg h = (h', Ok tt) ->
  h_ioctls h' = h_ioctls h ++ [(fd, cmd, arg)].
Proof.
  unfold ioctl, scatch, call. destruct (m_fails m (h_calls h)); [done|]. simpl. by intros [= <-].
Qed.

Lemma disable_all es p : balanced p ->
  wp (seach (fun ev => on_host (ioctl m (ev_fd ev) _DISABLE 0)) es)
    (fun _ p' => balanced p' /\ p' = set_host (pf_host p') p /\
       h_ioctls (pf_host p') = h_ioctls (pf_host p) ++ ((fun ev => (ev_fd ev, _DISABLE, 0)) <$> es))
    (fun _ p' => balanced p' /\ p' = set_host (pf_host p') p) p.
Proof.
  revert p; induction es as [|ev es IH]; intros p Hb.
  { apply wp_ret. simpl. rewrite app_nil_r. split_and!; [done|by destruct p|done]. }
  cbn [seach]. apply wp_bind.
  eapply (wp_mono _ (fun _ p1 => balanced p1 /\ p1 = set_host (pf_host p1) p /\
    h_ioctls (pf_host p1) = h_ioctls (pf_host p) ++ [(ev_fd ev, _DISABLE, 0)]) _
    (fun _ p1 => balanced p1 /\ p1 = set_host (pf_host p1) p)).
  - pose proof (ioctl_balanced (ev_fd ev) _DISABLE 0 p Hb) as Hw. unfold wp, on_host, szoom in *.
    destruct (ioctl m (ev_fd ev) _DISABLE 0 (pf_host p)) as [h' [[]|e]] eqn:Hi; [|exact Hw].
    destruct Hw as [Hb1 Hp1]. split_and!; [done|done|]. by apply ioctl_log in Hi.
  - intros [] p1 (Hb1 & Hp1 & Hl1). eapply wp_mono; [by apply IH|..].
    + intros [] p2 (Hb2 & Hp2 & Hl2). split_and!; [done|by rewrite Hp2, Hp1|].
      rewrite Hl2, Hl1, <- app_assoc. done.
    + intros e p2 (Hb2 & Hp2). split; [done|by rewrite Hp2, Hp1].
  - done.
Qed.

Lemma stop_wp p : capture_ok p ->
  wp stop (fun bs p' => capture_ok p' /\ pf_running p = true /\ pf_stopped p' = true /\ disabled p p' /\
      Forall2 (fun ev b => read_event ev = Ok b) (pf_events p) bs)
    (fun _ p' => capture_ok p' /\ (pf_stopped p = true -> p' = p)) p.
Proof.
  intros [Hb He]. unfold stop. apply wp_bind, wp_gets. unfold id. apply wp_if; intros Hg.
  { apply wp_raise. by split. }
  bool_prop. apply wp_bind, wp_modify, wp_bind.
  eapply wp_mono; [by apply (disable_all (pf_events p) (set_stopped p))|..].
  - intros [] p1 (Hb1 & Hp1 & Hl1). apply wp_bind, wp_modify, wp_lift.
    + intros bs Hbs. apply rmap_Ok in Hbs. split_and!; try done.
      * split; [exact Hb1|]. simpl. rewrite Hp1. done.
      * rewrite Hp1. done.
    + intros e _. split; [|congruence]. split; [exact Hb1|]. simpl. rewrite Hp1. done.
  - intros e p1 (Hb1 & Hp1). split; [|congruence]. split; [exact Hb1|]. rewrite Hp1. done.
Qed.

(** ** Histories *)

Inductive cap_op := OpEnter | OpStop | OpClose.

Definition exec_cap (p : perf) (o : cap_op) : perf :=
  match o with
  | OpEnter => (enter p).1
  | OpStop => (stop p).1
  | OpClose => (close p).1
  end.
Definition exec_caps (ops : list cap_op) (p : perf) : perf := fold_left exec_cap ops p.

Lemma exec_cap_ok o p : capture_ok p -> capture_ok (exec_cap p o) /\
  (pf_stopped p = true -> pf_stopped (exec_cap p o) = true).
Proof.
  intros Hok. destruct o; simpl.
  - pose proof (enter_wp p Hok) as Hw. unfold wp in Hw.
    destruct (enter p) as [p' [[]|e]] eqn:He; simpl.
    + destruct Hw as [Hw _]. split; [done|]. intros Hs. exfalso. unfold enter, sbind, sgets, id in He.
      by rewrite Hs, orb_true_r in He.
    + destruct Hw as (Hw & _ & Hs). by split.
  - pose proof (stop_wp p Hok) as Hw. unfold wp in Hw.
    destruct (stop p) as [p' [bs|e]] eqn:He; simpl.
    + destruct Hw as (Hw & _ & Hs & _). by split.
    + destruct Hw as (Hw & Hs). split; [done|]. intros H. by rewrite (Hs H).
  - pose proof (close_wp p (fun _ _ => False) (proj1 Hok)) as Hw. unfold wp in Hw.
    destruct (close p) as [p' [[]|e]]; [|done]. destruct Hw as (Hr & Hb & Hr' & Hs). simpl.
    split; [|congruence]. split; [done|]. intros. apply Hr.
Qed.

Lemma exec_caps_ok ops p : capture_ok p -> capture_ok (exec_caps ops p) /\
  (pf_stopped p = true -> pf_stopped (exec_caps ops p) = true).
Proof.
  revert p; induction ops as [|o ops IH]; intros p Hok; [done|]. simpl.
  destruct (exec_cap_ok o p Hok) as [H1 H2]. destruct (IH _ H1) as [H3 H4]. split; [done|]. auto.
Qed.

Lemma new_capture_ok p : new_capture new_host = Ok p -> capture_ok p.
Proof.
  unfold new_capture. destruct (negb _); [done|]. intros [= <-]. split; [|done]. apply new_host_owns.
Qed.


(** The records and trace bytes that the mappings of an event hold between tail and head. *)
Definition mapped (data : list Z) (aux : option (list Z)) (records trace : list Z) : Prop :=
  exists head tail offset size aux_head aux_tail aux_offset aux_size,
    unpack_from [8; 8; 8; 8; 8; 8; 8; 8]%nat data _DATA_HEADER_OFFSET =
      Ok [head; tail; offset; size; aux_head; aux_tail; aux_offset; aux_size] /\
    m_page m <= offset /\ size = hc_data_pages c * m_page m /\
    _ring_bytes data head tail offset size = Ok records /\
    match aux with
    | None => trace = []
    | Some a => aux_offset = m_page m * (1 + hc_data_pages c) /\
        aux_size = Z.of_nat (length a) /\ _ring_bytes a aux_head aux_tail 0 aux_size = Ok trace
    end.

Lemma ring_bytes_sub mapping head tail offset size bs : Forall is_byte mapping ->
  _ring_bytes mapping head tail offset size = Ok bs -> Forall is_byte bs.
Proof.
  intros Hm. unfold _ring_bytes. intros Hr. inv_res Hr. injection Hr as <-.
  apply Forall_app. split; by apply Forall_take, Forall_drop.
Qed.

Lemma read_mapped_complete data aux signal source b : Forall is_byte data ->
  finished (_read_mapped_batch (m_page m) data aux (hc_data_pages c) signal source) = Ok b ->
  exists records trace es, mapped data aux records trace /\ records = encode_entries signal es /\
    complete signal (Z.of_nat (length trace)) es /\ b = expected_batch source signal es trace.
Proof.
  intros Hbytes. unfold _read_mapped_batch.
  destruct (unpack_from _ data _DATA_HEADER_OFFSET)
    as [[|h [|t [|o [|sz [|ah [|at' [|ao [|asz [|]]]]]]]]]|] eqn:Hu; try done.
  destruct (_ || _) eqn:Hg; [done|]. bool_prop.
  destruct (_ring_bytes data h t o sz) as [records|] eqn:Hr; [|done].
  pose proof (ring_bytes_sub _ _ _ _ _ _ Hbytes Hr) as Hrb.
  assert (Hdec : forall trace, finished (_decode_records records signal source trace) = Ok b ->
    exists es, records = encode_entries signal es /\
      complete signal (Z.of_nat (length trace)) es /\ b = expected_batch source signal es trace).
  { intros trace. pose proof (decode_records_sound records signal source trace Hrb) as Hd.
    destruct (_decode_records records signal source trace) as [[b'|e]|]; [|done|done].
    simpl. intros [= <-]. exact Hd. }
  destruct aux as [a|].
  - destruct (_ || _) eqn:Hg2; [done|]. bool_prop.
    destruct (_ring_bytes a ah at' 0 asz) as [trace|] eqn:Hra; [|done].
    intros (es & He & Hc & Hb)%Hdec. exists records, trace, es. split_and!; try done.
    exists h, t, o, sz, ah, at', ao, asz. by split_and!.
  - intros (es & He & Hc & Hb)%Hdec. exists records, [], es. split_and!; try done.
    exists h, t, o, sz, ah, at', ao, asz. by split_and!.
Qed.

End capture.

(** ** A concrete capture *)

(** A page of ring header, then a ring of one page holding one sample. *)
Definition example_records : list Z :=
  encode_entries "cycles" [ESample (MkSample 0 0x401000 7 7 100 0 1 0 50 0 0)].
Definition example_memory : list Z :=
  replicate 1024 0 ++
  pack_fields [8; 8; 8; 8; 8; 8; 8; 8]%nat
    [Z.of_nat (length example_records); 0; 4096; 4096; 0; 0; 0; 0] ++
  replicate (4096 - 1088) 0 ++ example_records ++ replicate (4096 - length example_records) 0.

Definition example_machine (fails : nat -> option exn) : machine :=
  MkMachine true "x86_64" 4096 fails [9; 7] (fun _ => throw OSError "missing") (fun _ => [])
    (fun fd => fd + 1) (fun _ => example_memory) Z.of_nat.

Definition cycles_config : HardwareConfig := MkHardwareConfig "process" "cycles" (Some 7) None 50 1 1.

(** The fourth call fails: the mapping of the second event. *)
Definition unlucky : nat -> option exn := fun n => if (n =? 4)%nat then Some (Exn OSError "ENOMEM") else None.


Lemma example_memory_bytes : Forall is_byte example_memory.
Proof. apply bytes_by_evaluation. vm_compute. reflexivity. Qed.

