(* ===== verification/HardwareMultimodal.v ===== *)
(** * Simultaneous hardware captures ([hardware.py]: [PerfMultimodalCapture])

    One source per thread, holding up to three independently owned event
    groups. Sources are filled in place while they are opened, so a failure
    leaves a partly filled source for [close] to release. *)

From stdpp Require Import sorting.
From S2P Require Import Prelude Monad Batch HardwareDecode HardwareConfig HardwareHost HardwareCapture.

(** [_MultimodalSource]; [-1] is an absent descriptor. *)
Record source := MkSource {
  so_tid : Z;
  so_cpu : Z;
  so_pt_fd : Z;
  so_pt_data : option nat;
  so_pt_aux : option nat;
  so_pebs_fd : Z;
  so_pebs_data : option nat;
  so_pebs_count : Z;
  so_pebs_enabled : Z;
  so_pebs_running : Z;
  so_counter_fds : list Z;
  so_counter_ids : list Z;
  so_counter_start : option group_read;
}.

Definition new_source (tid : Z) : source :=
  MkSource tid (-1) (-1) None None (-1) None 0 0 0 [] [] None.

Definition set_pt (fd : Z) (data aux : option nat) (s : source) : source :=
  MkSource (so_tid s) (so_cpu s) fd data aux (so_pebs_fd s) (so_pebs_data s) (so_pebs_count s)
    (so_pebs_enabled s) (so_pebs_running s) (so_counter_fds s) (so_counter_ids s) (so_counter_start s).
Definition set_pebs (fd : Z) (data : option nat) (s : source) : source :=
  MkSource (so_tid s) (so_cpu s) (so_pt_fd s) (so_pt_data s) (so_pt_aux s) fd data (so_pebs_count s)
    (so_pebs_enabled s) (so_pebs_running s) (so_counter_fds s) (so_counter_ids s) (so_counter_start s).
Definition set_pebs_times (r : Z * Z * Z) (s : source) : source :=
  MkSource (so_tid s) (so_cpu s) (so_pt_fd s) (so_pt_data s) (so_pt_aux s) (so_pebs_fd s)
    (so_pebs_data s) r.1.1 r.1.2 r.2 (so_counter_fds s) (so_counter_ids s) (so_counter_start s).
Definition set_counters (fds ids : list Z) (start : option group_read) (s : source) : source :=
  MkSource (so_tid s) (so_cpu s) (so_pt_fd s) (so_pt_data s) (so_pt_aux s) (so_pebs_fd s)
    (so_pebs_data s) (so_pebs_count s) (so_pebs_enabled s) (so_pebs_running s) fds ids start.

Record HardwareCaptureEnvelope := MkEnvelope {
  en_clock : string;
  en_arm_before_ns : Z;
  en_arm_after_ns : Z;
  en_stop_before_ns : Z;
  en_stop_after_ns : Z;
}.

Record HardwareSourceStatus := MkStatus {
  st_signal : string;
  st_requested : bool;
  st_available : bool;
  st_lost : bool;
  st_time_enabled_ns : option Z;
  st_time_running_ns : option Z;
}.

Record HardwareMultimodalBatch := MkMultimodalBatch {
  mb_source : Z;
  mb_tid : Z;
  mb_cpu : Z;
  mb_envelope : HardwareCaptureEnvelope;
  mb_status : list HardwareSourceStatus;
  mb_pt : option HardwareBatch;
  mb_pebs : option HardwareBatch;
  mb_counters : option HardwareCounterBatch;
}.

Record multi := MkMulti {
  mu_sources : list source;
  mu_running : bool;
  mu_stopped : bool;
  mu_arm_before : Z;
  mu_arm_after : Z;
  mu_host : host;
}.

Section multimodal.
Context (m : machine) (c : HardwareMultimodalConfig).
Notation M := (sx multi exn).

Definition set_mhost (h : host) (p : multi) : multi :=
  MkMulti (mu_sources p) (mu_running p) (mu_stopped p) (mu_arm_before p) (mu_arm_after p) h.
Definition set_sources (ss : list source) (p : multi) : multi :=
  MkMulti ss (mu_running p) (mu_stopped p) (mu_arm_before p) (mu_arm_after p) (mu_host p).
Definition set_mrunning (b : bool) (p : multi) : multi :=
  MkMulti (mu_sources p) b (mu_stopped p) (mu_arm_before p) (mu_arm_after p) (mu_host p).
Definition set_mstopped (p : multi) : multi :=
  MkMulti (mu_sources p) (mu_running p) true (mu_arm_before p) (mu_arm_after p) (mu_host p).
Definition set_arm (before after : Z) (p : multi) : multi :=
  MkMulti (mu_sources p) (mu_running p) (mu_stopped p) before after (mu_host p).

Definition on_mhost {A} (x : sx host exn A) : M A := szoom mu_host set_mhost x.

(** An assignment to a field of [self._sources[k]]. *)
Definition update (k : nat) (f : source -> source) : M unit :=
  smodify (fun p => set_sources (alter f k (mu_sources p)) p).

Definition new_multi (h : host) : result multi :=
  raise! HardwareCaptureError "perf capture requires Linux" when negb (m_linux m) in
  Ok (MkMulti [] false false 0 0 h).

Definition requests (modality : string) : bool := one_of modality (mc_modalities c).

(** [_attribute(self._hardware_config(signal))] *)
Definition source_attribute (signal : string) : result perf_attr :=
  let! u := check_hardware_config (_hardware_config c signal) in
  _attribute (m_read_text m) (_hardware_config c signal).

(** ** Opening the source at index [k] *)

Definition open_pt (k : nat) (tid : Z) : M unit :=
  do! attr := slift (source_attribute "intel_pt") in
  do! fd := on_mhost (_open_event m attr tid (-1) (-1)) in
  run! update k (fun s => set_pt fd (so_pt_data s) (so_pt_aux s) s) in
  do! data := on_mhost (sys_mmap m fd) in
  run! update k (fun s => set_pt (so_pt_fd s) (Some data) (so_pt_aux s) s) in
  scatch
    (do! aux := on_mhost (_map_aux m fd (mc_data_pages c) (mc_aux_pages c)) in
     update k (fun s => set_pt (so_pt_fd s) (so_pt_data s) (Some aux) s))
    (fun e => run! on_mhost (map_close data) in
              run! update k (fun s => set_pt (so_pt_fd s) None (so_pt_aux s) s) in
              sraise e).

Definition open_pebs (k : nat) (tid : Z) : M unit :=
  do! attr := slift (source_attribute "memory_loads") in
  do! fd := on_mhost (_open_event m attr tid (-1) (-1)) in
  run! update k (fun s => set_pebs fd (so_pebs_data s) s) in
  do! data := on_mhost (sys_mmap m fd) in
  update k (fun s => set_pebs (so_pebs_fd s) (Some data) s).

(** The loop over the counters: [fds] so far, the first of them leading the group. *)
Fixpoint open_counters (k : nat) (tid : Z) (fds : list Z) (signals : list string) : M (list Z) :=
  match signals with
  | [] => sret fds
  | signal :: signals =>
      let first := match fds with [] => true | _ => false end in
      do! attr := slift (_counter_attribute (mc_scope c) signal first) in
      do! fd := on_mhost (_open_event m attr tid (-1) (hd (-1) fds)) in
      run! update k (fun s => set_counters (fds ++ [fd]) (so_counter_ids s) (so_counter_start s) s) in
      open_counters k tid (fds ++ [fd]) signals
  end.

Fixpoint event_ids (fds : list Z) : M (list Z) :=
  match fds with
  | [] => sret []
  | fd :: fds => do! i := on_mhost (_event_id m fd) in do! is_ := event_ids fds in sret (i :: is_)
  end.

Definition open_group (k : nat) (tid : Z) : M unit :=
  do! fds := open_counters k tid [] _COUNTER_SIGNALS in
  do! ids := event_ids fds in
  update k (fun s => set_counters (so_counter_fds s) ids (so_counter_start s) s).

Definition if_then (b : bool) (x : M unit) : M unit := if b then x else sret tt.

Definition _open_source (tid : Z) : M unit :=
  do! k := sgets (fun p => length (mu_sources p)) in
  run! smodify (fun p => set_sources (mu_sources p ++ [new_source tid]) p) in
  run! if_then (requests "intel_pt") (open_pt k tid) in
  run! if_then (requests "memory_loads") (open_pebs k tid) in
  if_then (requests "counters") (open_group k tid).

(** ** Releasing *)

Definition close_counter (fd : Z) : M unit :=
  run! on_mhost (try_disable m fd _GROUP_FLAG) in on_mhost (os_close fd).
Definition close_map (o : option nat) : M unit :=
  match o with Some i => on_mhost (map_close i) | None => sret tt end.

Definition close_source (s : source) : M unit :=
  run! seach close_counter (so_counter_fds s) in
  run! seach (fun fd => if_then (0 <=? fd) (on_mhost (try_disable m fd 0))) [so_pebs_fd s; so_pt_fd s] in
  run! close_map (so_pebs_data s) in
  run! close_map (so_pt_aux s) in
  run! close_map (so_pt_data s) in
  seach (fun fd => if_then (0 <=? fd) (on_mhost (os_close fd))) [so_pebs_fd s; so_pt_fd s].

Definition mclose : M unit :=
  do! ss := sgets mu_sources in
  run! seach close_source ss in
  run! smodify (set_sources []) in
  smodify (set_mrunning false).

(** ** Arming *)

Definition has_counters (s : source) : bool :=
  match so_counter_fds s with [] => false | _ => true end.
Definition leader (s : source) : Z := hd (-1) (so_counter_fds s).

Definition arm (s : source) : M unit :=
  run! if_then (0 <=? so_pt_fd s)
    (run! on_mhost (ioctl m (so_pt_fd s) _RESET 0) in on_mhost (ioctl m (so_pt_fd s) _ENABLE 0)) in
  run! if_then (0 <=? so_pebs_fd s)
    (run! on_mhost (ioctl m (so_pebs_fd s) _RESET 0) in on_mhost (ioctl m (so_pebs_fd s) _ENABLE 0)) in
  if_then (has_counters s)
    (run! on_mhost (ioctl m (leader s) _RESET _GROUP_FLAG) in on_mhost (ioctl m (leader s) _ENABLE _GROUP_FLAG)).

Definition read_group_of (s : source) : M group_read :=
  do! payload := on_mhost (os_read m (leader s)) in
  slift (_read_counter_group payload (so_counter_ids s)).

Definition indexed {A} (f : nat -> A -> M unit) (l : list A) : M unit :=
  seach (fun p => f p.1 p.2) (zip (seq 0 (length l)) l).

Definition menter : M unit :=
  do! p := sgets id in
  if mu_running p || mu_stopped p then
    sraise (Exn RuntimeError "Create a new PerfMultimodalCapture for each run")
  else
  do! tids := on_mhost (list_tasks m "Cannot enumerate process threads") in
  scatch
    (run! seach _open_source tids in
     do! before := on_mhost (clock_gettime_ns m) in
     run! smodify (fun p => set_arm before (mu_arm_after p) p) in
     do! ss := sgets mu_sources in
     run! seach arm ss in
     do! after := on_mhost (clock_gettime_ns m) in
     run! smodify (fun p => set_arm (mu_arm_before p) after p) in
     run! indexed (fun k s => if_then (has_counters s)
            (do! g := read_group_of s in
             update k (fun s => set_counters (so_counter_fds s) (so_counter_ids s) (Some g) s))) ss in
     smodify (set_mrunning true))
    (fun e => run! mclose in sraise e).

(** ** Stopping *)

(** The final reads, by thread. *)
Fixpoint read_finals (ss : list source) (acc : list (Z * group_read)) : M (list (Z * group_read)) :=
  match ss with
  | [] => sret acc
  | s :: ss =>
      if has_counters s then do! g := read_group_of s in read_finals ss (od_set (so_tid s) g acc)
      else read_finals ss acc
  end.

(** The [finally] block for the source at index [k]. *)
Definition disarm (k : nat) (s : source) : M unit :=
  run! if_then (has_counters s) (on_mhost (ioctl m (leader s) _DISABLE _GROUP_FLAG)) in
  run! if_then (0 <=? so_pebs_fd s)
    (run! on_mhost (ioctl m (so_pebs_fd s) _DISABLE 0) in
     do! payload := on_mhost (os_read m (so_pebs_fd s)) in
     do! times := slift (_read_sampled_event payload) in
     update k (set_pebs_times times)) in
  if_then (0 <=? so_pt_fd s) (on_mhost (ioctl m (so_pt_fd s) _DISABLE 0)).

Definition disarm_all : M unit :=
  do! ss := sgets mu_sources in
  run! indexed disarm ss in
  smodify (set_mrunning false).

(** [try: x finally: f], where [f] may raise and then replaces the exception of [x]. *)
Definition try_finally {A} (x : M A) (f : M unit) : M A := fun p =>
  match x p with
  | (p', r) => match f p' with
               | (p'', Ok _) => (p'', r)
               | (p'', Raise e) => (p'', Raise e)
               end
  end.

Definition optional {A} (b : bool) (x : result A) : result (option A) :=
  if b then let! a := x in Ok (Some a) else Ok None.

Definition status_of (s : source) (pt pebs : option HardwareBatch)
    (counters : option HardwareCounterBatch) (modality : string) : HardwareSourceStatus :=
  let time (f : source -> Z) (g : HardwareCounterBatch -> Z) :=
    if String.eqb modality "memory_loads" && is_some pebs then Some (f s)
    else if String.eqb modality "counters" then g <$> counters else None in
  MkStatus modality (requests modality)
    (if String.eqb modality "intel_pt" then is_some pt
     else if String.eqb modality "memory_loads" then is_some pebs else is_some counters)
    false (time so_pebs_enabled cb_time_enabled_ns) (time so_pebs_running cb_time_running_ns).

Definition source_batch (envelope : HardwareCaptureEnvelope) (finals : list (Z * group_read))
    (s : source) : result HardwareMultimodalBatch :=
  let read := fun signal data aux =>
    finished (_read_mapped_batch (m_page m) (m_memory m data) (m_memory m <$> aux) (mc_data_pages c)
      signal (so_tid s)) in
  let! pt := match so_pt_data s with
             | Some d => let! b := read "intel_pt" d (so_pt_aux s) in Ok (Some b)
             | None => Ok None
             end in
  let! pebs := match so_pebs_data s with
               | Some d => let! b := read "memory_loads" d None in Ok (Some b)
               | None => Ok None
               end in
  let! counters := optional (has_counters s)
    (let! final := match od_get (so_tid s) finals with
                   | Some g => Ok g
                   | None => throw KeyError "tid"
                   end in
     _counter_batch (so_tid s) (so_cpu s) (so_counter_start s) final) in
  Ok (MkMultimodalBatch (so_tid s) (so_tid s) (so_cpu s) envelope
        (status_of s pt pebs counters <$> _MODALITIES) pt pebs counters).

Definition mstop : M (list HardwareMultimodalBatch) :=
  do! p := sgets id in
  if negb (mu_running p) || mu_stopped p then
    sraise (Exn RuntimeError "Capture must be running and stopped only once")
  else
  run! smodify set_mstopped in
  do! stop_before := on_mhost (clock_gettime_ns m) in
  do! ss := sgets mu_sources in
  do! finals := try_finally (read_finals ss []) disarm_all in
  do! stop_after := on_mhost (clock_gettime_ns m) in
  do! p := sgets id in
  let envelope := MkEnvelope "CLOCK_MONOTONIC_RAW" (mu_arm_before p) (mu_arm_after p)
                    stop_before stop_after in
  slift (rmap (source_batch envelope finals) (mu_sources p)).

(** ** The resources of a source *)

Definition opt_fd (fd : Z) : list Z := if 0 <=? fd then [fd] else [].
Definition opt_map (o : option nat) : list nat := match o with Some i => [i] | None => [] end.
Definition source_fds (s : source) : list Z :=
  so_counter_fds s ++ opt_fd (so_pebs_fd s) ++ opt_fd (so_pt_fd s).
Definition source_maps (s : source) : list nat :=
  opt_map (so_pebs_data s) ++ opt_map (so_pt_aux s) ++ opt_map (so_pt_data s).

Definition mbalanced (p : multi) : Prop :=
  owns (mu_sources p ≫= source_fds) (mu_sources p ≫= source_maps) (mu_host p).

Definition mreleased (p : multi) : Prop :=
  mu_sources p = [] /\ h_open (mu_host p) = ∅ /\ h_mapped (mu_host p) = ∅ /\
  h_faults (mu_host p) = 0%nat.

Definition same_mflags (p p' : multi) : Prop :=
  mu_running p' = mu_running p /\ mu_stopped p' = mu_stopped p.

Lemma mbalanced_empty p : mbalanced p -> mu_sources p = [] -> mreleased p.
Proof. intros [] He. unfold mreleased. rewrite He in *. by split_and!. Qed.

Lemma on_mhost_wp {A} (x : sx host exn A) (Q : A -> host -> Prop) (R : exn -> host -> Prop) p :
  wp x Q R (mu_host p) ->
  wp (on_mhost x) (fun a p' => Q a (mu_host p') /\ p' = set_mhost (mu_host p') p)
    (fun e p' => R e (mu_host p') /\ p' = set_mhost (mu_host p') p) p.
Proof. intros Hw. apply wp_zoom. eapply wp_mono; [exact Hw|..]; intros; by split. Qed.

(** ** Opening *)

(** The source being filled is the last one; everything held is accounted for. *)
Record filling (p0 : multi) (ss : list source) (s : source) (p : multi) : Prop := {
  fi_sources : mu_sources p = ss ++ [s];
  fi_balanced : mbalanced p;
  fi_flags : same_mflags p0 p;
}.

Lemma filling_owns p0 ss s p : filling p0 ss s p ->
  owns ((ss ≫= source_fds) ++ source_fds s) ((ss ≫= source_maps) ++ source_maps s) (mu_host p).
Proof.
  intros [Hs Hb _]. unfold mbalanced in Hb. rewrite Hs, !bind_app in Hb. simpl in Hb.
  by rewrite !app_nil_r in Hb.
Qed.

Lemma filling_set p0 ss s s' p h : filling p0 ss s p ->
  owns ((ss ≫= source_fds) ++ source_fds s') ((ss ≫= source_maps) ++ source_maps s') h ->
  filling p0 ss s' (set_sources (ss ++ [s']) (set_mhost h p)).
Proof.
  intros [Hs Hb Hf] Ho. split; [done| |done]. unfold mbalanced. simpl.
  rewrite !bind_app. simpl. by rewrite !app_nil_r.
Qed.

Lemma alter_last f ss (s : source) : alter f (length ss) (ss ++ [s]) = ss ++ [f s].
Proof. induction ss as [|x ss IH]; [done|]. simpl. by f_equal. Qed.

Lemma filling_update p0 ss s p f (Q : unit -> multi -> Prop) R :
  filling p0 ss s p -> source_fds (f s) = source_fds s -> source_maps (f s) = source_maps s ->
  (forall p', filling p0 ss (f s) p' -> Q tt p') -> wp (update (length ss) f) Q R p.
Proof.
  intros Hf Hfd Hm HQ. apply wp_modify, HQ. pose proof (filling_owns _ _ _ _ Hf) as Ho.
  destruct Hf as [Hs Hb Hfl]. rewrite Hs, alter_last. rewrite <- Hfd, <- Hm in Ho.
  split; [done| |done]. unfold mbalanced. simpl. rewrite !bind_app. simpl. by rewrite !app_nil_r.
Qed.

(** A new descriptor, stored in the source at once. *)
Lemma filling_open {A} p0 ss s p attr tid group (f : Z -> source -> source) (k : Z -> M A) Q R :
  filling p0 ss s p ->
  (forall fd, 0 <= fd -> source_fds (f fd s) ≡ₚ source_fds s ++ [fd] /\ source_maps (f fd s) = source_maps s) ->
  (forall fd p', 0 <= fd -> filling p0 ss (f fd s) p' -> wp (k fd) Q R p') ->
  (forall e p', filling p0 ss s p' -> R e p') ->
  wp (do! fd := on_mhost (_open_event m attr tid (-1) group) in
      run! update (length ss) (f fd) in k fd) Q R p.
Proof.
  intros Hf Hres Hk HR. apply wp_bind. pose proof (filling_owns _ _ _ _ Hf) as Ho.
  eapply wp_mono; [apply on_mhost_wp, open_event_wp, Ho|..].
  - intros fd p1 [[Ho1 Hfd] Hp1]. apply wp_bind, wp_modify. apply Hk; [done|].
    destruct (Hres fd Hfd) as [Hp Hm]. rewrite Hp1. simpl. rewrite (fi_sources _ _ _ _ Hf), alter_last.
    apply (filling_set p0 ss s); [done|]. rewrite Hm.
    eapply owns_perm; [|done|exact Ho1]. rewrite <- app_assoc. by rewrite Hp.
  - intros e p1 [Ho1 Hp1]. apply HR. rewrite Hp1. destruct Hf as [Hs Hb Hfl].
    split; [done| |done]. unfold mbalanced. simpl. rewrite Hs, !bind_app. simpl. by rewrite !app_nil_r.
Qed.

(** A new mapping, stored in the source at once. *)
Lemma filling_map {A} p0 ss s p (x : sx host exn nat) (f : nat -> source -> source) (k : nat -> M A) Q R :
  (forall fds maps h, owns fds maps h ->
     wp x (fun id h' => owns fds (maps ++ [id]) h') (fun _ h' => owns fds maps h') h) ->
  filling p0 ss s p ->
  (forall i, source_fds (f i s) = source_fds s /\ source_maps (f i s) ≡ₚ source_maps s ++ [i]) ->
  (forall i p', filling p0 ss (f i s) p' -> wp (k i) Q R p') ->
  (forall e p', filling p0 ss s p' -> R e p') ->
  wp (do! i := on_mhost x in run! update (length ss) (f i) in k i) Q R p.
Proof.
  intros Hx Hf Hres Hk HR. apply wp_bind. pose proof (filling_owns _ _ _ _ Hf) as Ho.
  eapply wp_mono; [apply on_mhost_wp, Hx, Ho|..].
  - intros i p1 [Ho1 Hp1]. apply wp_bind, wp_modify. apply Hk.
    destruct (Hres i) as [Hp Hm]. rewrite Hp1. simpl. rewrite (fi_sources _ _ _ _ Hf), alter_last.
    apply (filling_set p0 ss s); [done|]. rewrite Hp.
    eapply owns_perm; [done| |exact Ho1]. rewrite <- app_assoc. by rewrite Hm.
  - intros e p1 [Ho1 Hp1]. apply HR. rewrite Hp1. destruct Hf as [Hs Hb Hfl].
    split; [done| |done]. unfold mbalanced. simpl. rewrite Hs, !bind_app. simpl. by rewrite !app_nil_r.
Qed.

Lemma opt_fd_pos fd : 0 <= fd -> opt_fd fd = [fd].
Proof. intros. unfold opt_fd. by rewrite (proj2 (Z.leb_le 0 fd)). Qed.

(** What opening one modality gives: the source it leaves, and how it ended. *)
Definition opened (p0 : multi) (ss : list source) (P : source -> Prop) (p : multi) : Prop :=
  exists s, filling p0 ss s p /\ P s.

Definition no_pt (s : source) : Prop := so_pt_fd s = -1 /\ so_pt_data s = None /\ so_pt_aux s = None.
Definition no_pebs (s : source) : Prop := so_pebs_fd s = -1 /\ so_pebs_data s = None.
Definition no_group (s : source) : Prop := so_counter_fds s = [].

(** What opening a modality leaves alone. *)
Definition same_thread (s s' : source) : Prop := so_tid s' = so_tid s /\ so_cpu s' = so_cpu s.

Lemma open_pt_wp p0 ss s p tid : filling p0 ss s p -> no_pt s ->
  wp (open_pt (length ss) tid)
    (fun _ => opened p0 ss (fun s' => same_thread s s' /\ is_some (so_pt_data s') = true /\
       so_pebs_fd s' = so_pebs_fd s /\ so_pebs_data s' = so_pebs_data s /\
       so_counter_fds s' = so_counter_fds s))
    (fun _ => opened p0 ss (fun _ => True)) p.
Proof.
  intros Hf (Hfd & Hd & Ha). unfold open_pt.
  assert (Hfail : forall (e : exn) p' s', filling p0 ss s' p' -> opened p0 ss (fun _ => True) p')
    by (intros e p' s' H'; by exists s').
  apply wp_bind, wp_lift; [intros attr _|intros; by eapply Hfail].
  apply (filling_open p0 ss s p attr tid (-1) (fun fd s => set_pt fd (so_pt_data s) (so_pt_aux s) s)); [done|..].
  { intros fd Hpos. unfold source_fds, source_maps. simpl. rewrite Hfd, (opt_fd_pos fd) by done.
    simpl. rewrite app_nil_r. by rewrite app_assoc. }
  2:{ intros; by eapply Hfail. }
  intros fd p1 Hpos Hf1.
  set (s1 := set_pt fd (so_pt_data s) (so_pt_aux s) s) in *.
  apply (filling_map p0 ss s1 p1 (sys_mmap m fd) (fun d s => set_pt (so_pt_fd s) (Some d) (so_pt_aux s) s));
    [apply mmap_wp|done| | |intros; by eapply Hfail].
  { intros i. unfold source_fds, source_maps, s1. simpl. rewrite Hd, Ha. simpl. by rewrite app_nil_r. }
  intros d p2 Hf2. set (s2 := set_pt (so_pt_fd s1) (Some d) (so_pt_aux s1) s1) in *.
  apply wp_catch. apply wp_bind. pose proof (filling_owns _ _ _ _ Hf2) as Ho2.
  eapply wp_mono; [apply on_mhost_wp, map_aux_wp, Ho2|..].
  - intros a p3 [Ho3 Hp3]. apply wp_modify. exists (set_pt (so_pt_fd s2) (so_pt_data s2) (Some a) s2).
    split; [|done]. rewrite Hp3. simpl. rewrite (fi_sources _ _ _ _ Hf2), alter_last.
    apply (filling_set p0 ss s2); [done|]. eapply owns_perm; [done| |exact Ho3].
    unfold source_maps, s2, s1. simpl. rewrite Ha. simpl. rewrite <- !app_assoc. simpl.
    by rewrite (Permutation_swap a d []).
  - intros e p3 [Ho3 Hp3]. apply wp_bind.
    eapply wp_mono; [apply on_mhost_wp, (map_close_wp d ((ss ≫= source_fds) ++ source_fds s2)
      ((ss ≫= source_maps) ++ source_maps s1) _ (fun _ _ => False))| |by intros ? ? []].
    { eapply owns_perm; [done| |exact Ho3]. unfold source_maps, s2, s1. simpl. rewrite Hd, Ha. simpl.
      rewrite app_nil_r, app_assoc, Permutation_app_comm. done. }
    intros [] p4 [Ho4 Hp4]. apply wp_bind, wp_modify, wp_raise.
    exists (set_pt (so_pt_fd s2) None (so_pt_aux s2) s2). split; [|done].
    rewrite Hp4, Hp3. simpl. rewrite (fi_sources _ _ _ _ Hf2), alter_last.
    apply (filling_set p0 ss s2 _ p2); [done|]. eapply owns_perm; [done| |exact Ho4].
    unfold source_maps, s2, s1. simpl. by rewrite Hd, Ha.
Qed.

Lemma open_pebs_wp p0 ss s p tid : filling p0 ss s p -> no_pebs s ->
  wp (open_pebs (length ss) tid)
    (fun _ => opened p0 ss (fun s' => same_thread s s' /\ is_some (so_pebs_data s') = true /\
       0 <= so_pebs_fd s' /\
       so_pt_data s' = so_pt_data s /\ so_counter_fds s' = so_counter_fds s))
    (fun _ => opened p0 ss (fun _ => True)) p.
Proof.
  intros Hf (Hfd & Hd). unfold open_pebs.
  assert (Hfail : forall (e : exn) p' s', filling p0 ss s' p' -> opened p0 ss (fun _ => True) p')
    by (intros e p' s' H'; by exists s').
  apply wp_bind, wp_lift; [intros attr _|intros; by eapply Hfail].
  apply (filling_open p0 ss s p attr tid (-1) (fun fd s => set_pebs fd (so_pebs_data s) s)); [done|..].
  { intros fd Hpos. unfold source_fds, source_maps. simpl. rewrite Hfd, (opt_fd_pos fd) by done.
    split; [|done]. simpl. rewrite <- app_assoc. apply Permutation_app_head, (Permutation_app_comm [fd]). }
  2:{ intros; by eapply Hfail. }
  intros fd p1 Hpos Hf1. set (s1 := set_pebs fd (so_pebs_data s) s) in *.
  apply wp_bind. pose proof (filling_owns _ _ _ _ Hf1) as Ho1.
  eapply wp_mono; [apply on_mhost_wp, mmap_wp, Ho1|..].
  - intros d p2 [Ho2 Hp2]. apply wp_modify. exists (set_pebs (so_pebs_fd s1) (Some d) s1).
    split; [|done]. rewrite Hp2. simpl. rewrite (fi_sources _ _ _ _ Hf1), alter_last.
    apply (filling_set p0 ss s1); [done|]. eapply owns_perm; [done| |exact Ho2].
    unfold source_maps, s1. simpl. rewrite Hd. simpl. rewrite <- !app_assoc.
    apply Permutation_app_head. rewrite app_assoc. apply (Permutation_app_comm _ [d]).
  - intros e p2 [Ho2 Hp2]. exists s1. split; [|done]. rewrite Hp2. destruct Hf1 as [Hs Hb Hfl].
    split; [done| |done]. unfold mbalanced. simpl. rewrite Hs, !bind_app. simpl. by rewrite !app_nil_r.
Qed.

Lemma open_counters_wp p0 ss s p tid signals : filling p0 ss s p ->
  wp (open_counters (length ss) tid (so_counter_fds s) signals)
    (fun fds p' => opened p0 ss (fun s' => same_thread s s' /\ so_pebs_fd s' = so_pebs_fd s /\
       so_counter_fds s' = fds /\
       (length fds = length (so_counter_fds s) + length signals)%nat /\
       so_pt_data s' = so_pt_data s /\ so_pebs_data s' = so_pebs_data s) p')
    (fun _ => opened p0 ss (fun _ => True)) p.
Proof.
  revert s p; induction signals as [|signal signals IH]; intros s p Hf; cbn [open_counters].
  { apply wp_ret. exists s. split; [done|]. split_and!; try done. }
  apply wp_bind, wp_lift; [intros attr _|intros e _; by exists s].
  eapply (filling_open p0 ss s p attr tid _
    (fun fd s' => set_counters (so_counter_fds s ++ [fd]) (so_counter_ids s') (so_counter_start s') s'));
    [done|..].
  - intros fd Hpos. unfold source_fds, source_maps. simpl. split; [|done]. rewrite <- !app_assoc.
    apply Permutation_app_head. rewrite (app_assoc (opt_fd _)).
    apply (Permutation_app_comm [fd] (opt_fd _ ++ opt_fd _)).
  - intros fd p1 Hpos Hf1. eapply wp_mono; [apply (IH _ _ Hf1)| |done].
    intros fds p2 (s2 & Hf2 & Hth & Hpf & Hc & Hl & H1 & H2). exists s2. split; [done|].
    simpl in Hl. rewrite length_app in Hl. simpl in *. split_and!; try done. lia.
  - intros e p1 Hf1. by exists s.
Qed.

Lemma filling_host p0 ss s p p' : filling p0 ss s p ->
  owns ((ss ≫= source_fds) ++ source_fds s) ((ss ≫= source_maps) ++ source_maps s) (mu_host p') ->
  p' = set_mhost (mu_host p') p -> filling p0 ss s p'.
Proof.
  intros [Hs Hb Hfl] Ho Hp. rewrite Hp. split; [done| |done]. unfold mbalanced. simpl.
  rewrite Hs, !bind_app. simpl. by rewrite !app_nil_r.
Qed.

Lemma event_ids_wp p0 ss s p fds : filling p0 ss s p ->
  wp (event_ids fds) (fun _ p' => filling p0 ss s p') (fun _ p' => filling p0 ss s p') p.
Proof.
  revert p; induction fds as [|fd fds IH]; intros p Hf; cbn [event_ids]; [by apply wp_ret|].
  apply wp_bind. pose proof (filling_owns _ _ _ _ Hf) as Ho.
  eapply wp_mono; [apply on_mhost_wp, event_id_wp, Ho|..].
  - intros i p1 [Ho1 Hp1]. pose proof (filling_host _ _ _ _ _ Hf Ho1 Hp1) as Hf1.
    apply wp_bind. eapply wp_mono; [by apply (IH p1)| |done]. intros is_ p2 Hf2. by apply wp_ret.
  - intros e p1 [Ho1 Hp1]. by eapply filling_host.
Qed.

Lemma open_group_wp p0 ss s p tid : filling p0 ss s p -> no_group s ->
  wp (open_group (length ss) tid)
    (fun _ => opened p0 ss (fun s' => same_thread s s' /\ so_pebs_fd s' = so_pebs_fd s /\
       has_counters s' = true /\
       so_pt_data s' = so_pt_data s /\ so_pebs_data s' = so_pebs_data s))
    (fun _ => opened p0 ss (fun _ => True)) p.
Proof.
  intros Hf Hno. unfold open_group. apply wp_bind. unfold no_group in Hno.
  pose proof (open_counters_wp p0 ss s p tid _COUNTER_SIGNALS Hf) as Hw. rewrite Hno in Hw.
  eapply wp_mono; [exact Hw| |done].
  intros fds p1 (s1 & Hf1 & Hth & Hpf & Hc & Hl & H1 & H2). apply wp_bind.
  eapply wp_mono; [by apply (event_ids_wp p0 ss s1)| |intros e p2 Hf2; by exists s1].
  intros ids p2 Hf2. apply (filling_update p0 ss s1); [done|done|done|].
  intros p3 Hf3. eexists. split; [exact Hf3|]. simpl. split_and!; try done.
  unfold has_counters. simpl. rewrite Hc. by destruct fds.
Qed.

(** Every requested modality of the source, and no other, was opened. *)
Definition source_shape (s : source) : Prop :=
  is_some (so_pt_data s) = requests "intel_pt" /\
  is_some (so_pebs_data s) = requests "memory_loads" /\ has_counters s = requests "counters" /\
  (is_some (so_pebs_data s) = true -> 0 <= so_pebs_fd s) /\ so_cpu s = -1.

Lemma if_then_wp b (x : M unit) Q R p : (b = true -> wp x Q R p) -> (b = false -> Q tt p) ->
  wp (if_then b x) Q R p.
Proof. intros Ht Hf. unfold if_then. destruct b; [by apply Ht|]. by apply wp_ret, Hf. Qed.

Lemma open_source_wp tid p : mbalanced p ->
  wp (_open_source tid)
    (fun _ p' => mbalanced p' /\ same_mflags p p' /\
       exists s, mu_sources p' = mu_sources p ++ [s] /\ source_shape s /\ so_tid s = tid)
    (fun _ p' => mbalanced p' /\ same_mflags p p') p.
Proof.
  intros Hb. unfold _open_source. apply wp_bind, wp_gets, wp_bind, wp_modify. set (ss := mu_sources p).
  assert (Hf0 : filling p ss (new_source tid) (set_sources (ss ++ [new_source tid]) p)).
  { split; [done| |done]. unfold mbalanced. simpl. rewrite !bind_app. simpl. by rewrite !app_nil_r. }
  assert (Hfail : forall (e : exn) p', opened p ss (fun _ => True) p' -> mbalanced p' /\ same_mflags p p')
    by (intros e p' (s & [] & _); done).
  apply wp_bind. eapply (wp_mono _ (fun _ => opened p ss (fun s => same_thread (new_source tid) s /\
    no_pebs s /\ no_group s /\ is_some (so_pt_data s) = requests "intel_pt"))).
  { apply if_then_wp; intros Hr.
    - eapply wp_mono; [by eapply open_pt_wp| |exact Hfail].
      intros [] p1 (s1 & Hf1 & Hth & Hd & Hpf & Hpd & Hc). exists s1. split; [done|]. rewrite Hr. by split_and!.
    - eexists. split; [exact Hf0|]. by rewrite Hr. }
  2: done.
  intros [] p1 (s1 & Hf1 & [Ht Hcp] & Hnp & Hng & Hpt). apply wp_bind.
  eapply (wp_mono _ (fun _ => opened p ss (fun s => same_thread (new_source tid) s /\ no_group s /\
    is_some (so_pt_data s) = requests "intel_pt" /\ is_some (so_pebs_data s) = requests "memory_loads" /\
    (is_some (so_pebs_data s) = true -> 0 <= so_pebs_fd s)))).
  { apply if_then_wp; intros Hr.
    - eapply wp_mono; [by eapply open_pebs_wp| |exact Hfail].
      intros [] p2 (s2 & Hf2 & [Ht2 Hcp2] & Hd & Hfd & Hpd & Hc). exists s2. split; [done|]. rewrite Hr, Hpd.
      unfold no_group, same_thread in *. split_and!; congruence.
    - exists s1. split; [done|]. destruct Hnp as [_ ->]. by split_and!. }
  2: done.
  intros [] p2 (s2 & Hf2 & [Ht2 Hcp2] & Hng2 & Hpt2 & Hpe2 & Hfd2). apply if_then_wp; intros Hr.
  - eapply wp_mono; [by eapply open_group_wp| |exact Hfail].
    intros [] p3 (s3 & [Hs3 Hb3 Hfl3] & [Ht3 Hcp3] & Hfd3 & Hc & H1 & H2). split_and!; [done|done|].
    exists s3. split; [done|]. unfold source_shape. rewrite Hr, H1, H2, Hfd3, Ht3, Hcp3. by split_and!.
  - destruct Hf2 as [Hs2 Hb2 Hfl2]. split_and!; [done|done|]. exists s2. split; [done|].
    unfold source_shape, has_counters. rewrite Hng2, Hr. by split_and!.
Qed.

(** ** Releasing: proofs *)

Lemma close_map_wp o fds maps p (R : exn -> multi -> Prop) :
  owns fds (opt_map o ++ maps) (mu_host p) ->
  wp (close_map o) (fun _ p' => owns fds maps (mu_host p') /\ p' = set_mhost (mu_host p') p) R p.
Proof.
  intros Ho. destruct o as [i|]; simpl in *.
  - eapply wp_mono; [apply on_mhost_wp, (map_close_wp i fds maps _ (fun _ _ => False) Ho)|done|by intros ? ? []].
  - apply wp_ret. split; [done|by destruct p].
Qed.

Lemma close_counters_wp cs fds maps p (R : exn -> multi -> Prop) :
  owns (cs ++ fds) maps (mu_host p) ->
  wp (seach (close_counter) cs)
    (fun _ p' => owns fds maps (mu_host p') /\ p' = set_mhost (mu_host p') p) R p.
Proof.
  revert p; induction cs as [|fd cs IH]; intros p Ho; [apply wp_ret; split; [done|by destruct p]|].
  cbn [seach]. apply wp_bind, wp_bind.
  eapply wp_mono; [apply on_mhost_wp, (try_disable_wp m fd _ _ _ _ (fun _ _ => False) Ho)| |by intros ? ? []].
  intros [] p1 [Ho1 Hp1].
  eapply wp_mono; [apply on_mhost_wp, (os_close_wp fd (cs ++ fds) maps _ (fun _ _ => False) Ho1)| |by intros ? ? []].
  intros [] p2 [Ho2 Hp2]. eapply wp_mono; [by apply (IH p2)| |done].
  intros [] p3 [Ho3 Hp3]. split; [done|]. rewrite Hp3, Hp2, Hp1. done.
Qed.

Lemma disable_fds_wp l fds maps p (R : exn -> multi -> Prop) :
  owns fds maps (mu_host p) ->
  wp (seach (fun fd => if_then (0 <=? fd) (on_mhost (try_disable m fd 0))) l)
    (fun _ p' => owns fds maps (mu_host p') /\ p' = set_mhost (mu_host p') p) R p.
Proof.
  revert p; induction l as [|fd l IH]; intros p Ho; [apply wp_ret; split; [done|by destruct p]|].
  cbn [seach]. apply wp_bind.
  eapply (wp_mono _ (fun _ p' => owns fds maps (mu_host p') /\ p' = set_mhost (mu_host p') p) _ (fun _ _ => False)).
  - apply if_then_wp; intros _; [|split; [done|by destruct p]].
    eapply wp_mono; [apply on_mhost_wp, (try_disable_wp m fd _ _ _ _ (fun _ _ => False) Ho)|done|by intros ? ? []].
  - intros [] p1 [Ho1 Hp1]. eapply wp_mono; [by apply (IH p1)| |done].
    intros [] p2 [Ho2 Hp2]. split; [done|]. rewrite Hp2, Hp1. done.
  - done.
Qed.

Lemma close_fds_wp l fds maps p (R : exn -> multi -> Prop) :
  owns ((l ≫= opt_fd) ++ fds) maps (mu_host p) ->
  wp (seach (fun fd => if_then (0 <=? fd) (on_mhost (os_close fd))) l)
    (fun _ p' => owns fds maps (mu_host p') /\ p' = set_mhost (mu_host p') p) R p.
Proof.
  revert p; induction l as [|fd l IH]; intros p Ho; [apply wp_ret; split; [done|by destruct p]|].
  cbn [seach]. apply wp_bind.
  eapply (wp_mono _ (fun _ p' => owns ((l ≫= opt_fd) ++ fds) maps (mu_host p') /\
    p' = set_mhost (mu_host p') p) _ (fun _ _ => False)).
  - rewrite bind_cons, <- app_assoc in Ho. unfold opt_fd at 1 in Ho. apply if_then_wp; intros Hb; rewrite Hb in Ho.
    + eapply wp_mono; [apply on_mhost_wp, (os_close_wp fd _ _ _ (fun _ _ => False) Ho)|done|by intros ? ? []].
    + split; [exact Ho|by destruct p].
  - intros [] p1 [Ho1 Hp1]. eapply wp_mono; [by apply (IH p1)| |done].
    intros [] p2 [Ho2 Hp2]. split; [done|]. rewrite Hp2, Hp1. done.
  - done.
Qed.

Lemma close_source_wp s fds maps p (R : exn -> multi -> Prop) :
  owns (source_fds s ++ fds) (source_maps s ++ maps) (mu_host p) ->
  wp (close_source s) (fun _ p' => owns fds maps (mu_host p') /\ p' = set_mhost (mu_host p') p) R p.
Proof.
  unfold source_fds, source_maps. rewrite <- !app_assoc. intros Ho. unfold close_source.
  apply wp_bind. eapply wp_mono; [by apply (close_counters_wp _ _ _ p (fun _ _ => False) Ho)| |done].
  intros [] p1 [Ho1 Hp1]. apply wp_bind.
  eapply wp_mono; [by apply (disable_fds_wp _ _ _ p1 (fun _ _ => False) Ho1)| |done].
  intros [] p2 [Ho2 Hp2]. apply wp_bind.
  eapply wp_mono; [by apply (close_map_wp _ _ _ p2 (fun _ _ => False) Ho2)| |done].
  intros [] p3 [Ho3 Hp3]. apply wp_bind.
  eapply wp_mono; [by apply (close_map_wp _ _ _ p3 (fun _ _ => False) Ho3)| |done].
  intros [] p4 [Ho4 Hp4]. apply wp_bind.
  eapply wp_mono; [by apply (close_map_wp _ _ _ p4 (fun _ _ => False) Ho4)| |done].
  intros [] p5 [Ho5 Hp5].
  eapply wp_mono; [apply (close_fds_wp [so_pebs_fd s; so_pt_fd s] fds maps p5 (fun _ _ => False))| |done].
  { simpl. rewrite app_nil_r, <- app_assoc. exact Ho5. }
  intros [] p6 [Ho6 Hp6]. split; [done|]. rewrite Hp6, Hp5, Hp4, Hp3, Hp2, Hp1. done.
Qed.

Lemma close_sources_wp ss p (R : exn -> multi -> Prop) :
  owns (ss ≫= source_fds) (ss ≫= source_maps) (mu_host p) ->
  wp (seach close_source ss) (fun _ p' => owns [] [] (mu_host p') /\ p' = set_mhost (mu_host p') p) R p.
Proof.
  revert p; induction ss as [|s ss IH]; intros p Ho; [apply wp_ret; split; [done|by destruct p]|].
  cbn [seach]. apply wp_bind. rewrite !bind_cons in Ho.
  eapply wp_mono; [by apply (close_source_wp s _ _ p (fun _ _ => False) Ho)| |done].
  intros [] p1 [Ho1 Hp1]. eapply wp_mono; [by apply (IH p1)| |done].
  intros [] p2 [Ho2 Hp2]. split; [done|]. rewrite Hp2, Hp1. done.
Qed.

Lemma mclose_wp p (R : exn -> multi -> Prop) : mbalanced p ->
  wp mclose (fun _ p' => mreleased p' /\ mbalanced p' /\ mu_running p' = false /\
                         mu_stopped p' = mu_stopped p) R p.
Proof.
  intros Hb. unfold mclose. apply wp_bind, wp_gets, wp_bind.
  eapply wp_mono; [by apply (close_sources_wp _ p (fun _ _ => False))| |done].
  intros [] p1 [Ho1 Hp1]. apply wp_bind, wp_modify, wp_modify.
  assert (Hb' : mbalanced (set_mrunning false (set_sources [] p1))) by exact Ho1.
  split_and!; [by apply mbalanced_empty|done|done|]. rewrite Hp1. done.
Qed.

(** ** Steps that keep every resource *)

Definition neutral {A} (x : sx host exn A) : Prop := forall fds maps h, owns fds maps h ->
  wp x (fun _ h' => owns fds maps h') (fun _ h' => owns fds maps h') h.

Lemma neutral_ioctl fd cmd arg : neutral (ioctl m fd cmd arg).
Proof. intros fds maps h Ho. eapply wp_mono; [by apply ioctl_wp|done|by intros e h' []]. Qed.
Lemma neutral_read fd : neutral (os_read m fd).
Proof. intros fds maps h Ho. by apply os_read_wp. Qed.
Lemma neutral_clock : neutral (clock_gettime_ns m).
Proof. intros fds maps h Ho. by apply clock_wp. Qed.

(** The resources, the shape and the threads of the sources, and whether the capture was stopped. *)
Definition minv (p0 p : multi) : Prop :=
  mbalanced p /\ Forall source_shape (mu_sources p) /\ mu_stopped p = mu_stopped p0 /\
  so_tid <$> mu_sources p = so_tid <$> mu_sources p0.

Definition keeps_source (f : source -> source) : Prop := forall s,
  source_fds (f s) = source_fds s /\ source_maps (f s) = source_maps s /\
  so_tid (f s) = so_tid s /\ (source_shape s -> source_shape (f s)).

Lemma bind_alter_same {A} (g : source -> list A) f k ss : (forall s, g (f s) = g s) ->
  alter f k ss ≫= g = ss ≫= g.
Proof.
  intros Hg. revert k; induction ss as [|s ss IH]; intros [|k]; simpl; try done.
  - by rewrite Hg.
  - f_equal. apply IH.
Qed.

Lemma Forall_alter_shape (P : source -> Prop) f k ss : (forall s, P s -> P (f s)) ->
  Forall P ss -> Forall P (alter f k ss).
Proof.
  intros Hf Hs. revert k; induction Hs as [|s ss Hs Hss IH]; intros [|k]; try done.
  - constructor; [by apply Hf|done].
  - constructor; [done|apply IH].
Qed.

Lemma keeps_update p0 k f : keeps_source f -> keeps (minv p0) (update k f).
Proof.
  intros Hf. apply keeps_modify. intros p (Hb & Hs & Hst & Ht). split_and!; [|simpl|done|].
  - unfold mbalanced. simpl. rewrite !bind_alter_same; [exact Hb|intros s; apply Hf..].
  - apply Forall_alter_shape; [|done]. intros s. apply Hf.
  - simpl. rewrite <- Ht. apply list_eq. intros i. rewrite !list_lookup_fmap.
    destruct (decide (i = k)) as [->|Hik]; [|by rewrite list_lookup_alter_ne].
    rewrite list_lookup_alter_eq. destruct (mu_sources p !! k) as [s|]; [|done]. simpl. f_equal. apply Hf.
Qed.

Lemma keeps_host {A} p0 (x : sx host exn A) : neutral x -> keeps (minv p0) (on_mhost x).
Proof.
  intros Hx p (Hb & Hs & Hst & Ht). eapply wp_mono; [apply on_mhost_wp, Hx, Hb|..];
    intros ? p' [Ho ->]; by split_and!.
Qed.

Lemma keeps_if_then p0 b (x : M unit) : keeps (minv p0) x -> keeps (minv p0) (if_then b x).
Proof. intros Hx. unfold if_then. apply keeps_if; [done|apply keeps_ret]. Qed.

Lemma keeps_counter_source ids start : keeps_source (fun s => set_counters (so_counter_fds s) ids start s).
Proof. intros s. by split_and!. Qed.
End multimodal.

#[export] Hint Resolve neutral_ioctl neutral_read neutral_clock keeps_host keeps_if_then : keeps.

Section lifecycle.
Context (m : machine) (c : HardwareMultimodalConfig).
Notation minv := (minv c).

Lemma keeps_arm p0 s : keeps (minv p0) (arm m s).
Proof. unfold arm. auto 10 with keeps. Qed.

Lemma keeps_read_group p0 s : keeps (minv p0) (read_group_of m s).
Proof. unfold read_group_of. auto 10 with keeps. Qed.

Lemma keeps_finals p0 ss acc : keeps (minv p0) (read_finals m ss acc).
Proof.
  revert acc; induction ss as [|s ss IH]; intros acc; cbn [read_finals]; [apply keeps_ret|].
  apply keeps_if; [|done]. apply keeps_bind; [apply keeps_read_group|done].
Qed.

Lemma keeps_disarm p0 k s : keeps (minv p0) (disarm m k s).
Proof.
  unfold disarm. apply keeps_bind; [auto with keeps|intros []].
  apply keeps_bind; [|intros []; auto with keeps]. apply keeps_if_then.
  apply keeps_bind; [auto with keeps|intros []]. apply keeps_bind; [auto with keeps|intros payload].
  apply keeps_bind; [auto with keeps|intros times]. apply keeps_update. intros s'. by split_and!.
Qed.

Lemma keeps_start p0 k s : keeps (minv p0) (if_then (has_counters s)
  (do! g := read_group_of m s in
   update k (fun s => set_counters (so_counter_fds s) (so_counter_ids s) (Some g) s))).
Proof.
  apply keeps_if_then, keeps_bind; [apply keeps_read_group|intros g].
  apply keeps_update. intros s'. by split_and!.
Qed.

(** A capture that was not entered holds nothing; a running one has every requested source of
    every thread. *)
Definition all_threads (p : multi) : Prop := so_tid <$> mu_sources p = merge_sort Z.le (m_tasks m).
Definition multi_ok (p : multi) : Prop :=
  mbalanced p /\ (mu_running p = true -> Forall (source_shape c) (mu_sources p) /\ all_threads p) /\
  (mu_running p = false -> mu_stopped p = false -> mu_sources p = []).

Lemma released_ok p : mreleased p -> mbalanced p -> mu_running p = false -> multi_ok p.
Proof. intros (He & _) Hb Hr. split_and!; [done|congruence|done]. Qed.

Lemma open_sources_wp p0 tids p : minv p0 p ->
  wp (seach (_open_source m c) tids)
    (fun _ p' => mbalanced p' /\ Forall (source_shape c) (mu_sources p') /\ mu_stopped p' = mu_stopped p0 /\
       so_tid <$> mu_sources p' = (so_tid <$> mu_sources p0) ++ tids)
    (fun _ p' => mbalanced p' /\ mu_stopped p' = mu_stopped p0) p.
Proof.
  revert p0 p; induction tids as [|tid tids IH]; intros p0 p (Hb & Hs & Hst & Ht); cbn [seach].
  { apply wp_ret. by rewrite app_nil_r. }
  apply wp_bind. eapply wp_mono; [by apply open_source_wp|..].
  - intros [] p2 (Hb2 & (_ & Hs2) & s & Hss & Hsh & Htid).
    eapply wp_mono; [apply (IH p2 p2)|..].
    + split_and!; [done| |done|done]. rewrite Hss. apply Forall_app. by split; [|constructor].
    + intros [] p3 (Hb3 & Hf3 & Hs3 & Ht3). split_and!; [done|done|congruence|].
      rewrite Ht3, Hss, fmap_app, Ht, <- app_assoc. simpl. by rewrite Htid.
    + intros e p3 [Hb3 Hs3]. split; [done|congruence].
  - intros e p2 (Hb2 & (_ & Hs2)). split; [done|congruence].
Qed.

Lemma menter_wp p : multi_ok p ->
  wp (menter m c) (fun _ p' => multi_ok p' /\ mu_running p' = true)
    (fun _ p' => multi_ok p' /\
       (mu_running p = false -> mu_stopped p = false -> mreleased p') /\
       mu_stopped p' = mu_stopped p) p.
Proof.
  intros (Hb & Hrun & He). unfold menter. apply wp_bind, wp_gets. unfold id. apply wp_if; intros Hg.
  { apply wp_raise. split_and!; try done. intros Hr Hs. by rewrite Hr, Hs in Hg. }
  bool_prop. specialize (He H H0). apply wp_bind.
  eapply wp_mono; [apply on_mhost_wp, list_tasks_wp, Hb|..].
  2:{ intros e p1 [Ho ->]. split_and!; [|by intros; apply mbalanced_empty|done].
      split_and!; [done|simpl; congruence|done]. }
  intros tids p1 [[Ho Htids] Hp1].
  assert (Hi1 : minv p p1) by (rewrite Hp1; split_and!; [exact Ho|by simpl; rewrite He|done|done]).
  apply wp_catch.
  assert (Hclose : forall e p', mbalanced p' -> mu_stopped p' = mu_stopped p ->
    wp (run! mclose m in sraise e)
    (fun (_ : unit) p' => multi_ok p' /\ mu_running p' = true)
    (fun _ p' => multi_ok p' /\ (mu_running p = false -> mu_stopped p = false -> mreleased p') /\
       mu_stopped p' = mu_stopped p) p').
  { intros e p' Hb' Hs'. apply wp_bind.
    eapply wp_mono; [by apply (mclose_wp m p' (fun _ _ => False))| |done].
    intros [] p2 (Hrel & Hb2 & Hr2 & Hs2). apply wp_raise.
    split_and!; [by apply released_ok|done|congruence]. }
  apply wp_bind. eapply wp_mono.
  - by apply (open_sources_wp p).
  - intros [] p2 (Hb2 & Hsh2 & Hst2 & Ht2). assert (Hi2 : minv p2 p2) by done.
    assert (Hk : keeps (minv p2) (
      do! before := on_mhost (clock_gettime_ns m) in
      run! smodify (fun p => set_arm before (mu_arm_after p) p) in
      do! ss := sgets mu_sources in
      run! seach (arm m) ss in
      do! after := on_mhost (clock_gettime_ns m) in
      run! smodify (fun p => set_arm (mu_arm_before p) after p) in
      indexed (fun k s => if_then (has_counters s)
            (do! g := read_group_of m s in
             update k (fun s => set_counters (so_counter_fds s) (so_counter_ids s) (Some g) s))) ss)).
    { apply keeps_bind; [auto with keeps|intros before].
      apply keeps_bind; [by apply keeps_modify|intros []].
      apply keeps_bind; [apply keeps_gets|intros ss].
      apply keeps_bind; [apply keeps_each, keeps_arm|intros []].
      apply keeps_bind; [auto with keeps|intros after].
      apply keeps_bind; [by apply keeps_modify|intros []].
      apply keeps_each. intros [k s]. apply keeps_start. }
    pose proof (Hk p2 Hi2) as Hw. unfold wp in Hw |- *. unfold sbind in Hw |- *.
    destruct (on_mhost (clock_gettime_ns m) p2) as [p3 [before|e]]; [|apply Hclose; [apply Hw|rewrite <- Hst2; apply Hw]].
    destruct (smodify (fun p => set_arm before (mu_arm_after p) p) p3) as [p4 [[]|e]]; [|apply Hclose; [apply Hw|rewrite <- Hst2; apply Hw]].
    destruct (sgets mu_sources p4) as [p5 [ss|e]]; [|apply Hclose; [apply Hw|rewrite <- Hst2; apply Hw]].
    destruct (seach (arm m) ss p5) as [p6 [[]|e]]; [|apply Hclose; [apply Hw|rewrite <- Hst2; apply Hw]].
    destruct (on_mhost (clock_gettime_ns m) p6) as [p7 [after|e]]; [|apply Hclose; [apply Hw|rewrite <- Hst2; apply Hw]].
    destruct (smodify (fun p => set_arm (mu_arm_before p) after p) p7) as [p8 [[]|e]]; [|apply Hclose; [apply Hw|rewrite <- Hst2; apply Hw]].
    destruct (indexed _ ss p8) as [p9 [[]|e]]; [|apply Hclose; [apply Hw|rewrite <- Hst2; apply Hw]].
    simpl. destruct Hw as (Hb9 & Hs9 & Hst9 & Ht9). split; [|done]. split_and!; [done| |done].
    intros _. split; [done|]. unfold all_threads. simpl. by rewrite Ht9, Ht2, He, Htids.
  - intros e p2 [Hb2 Hs2]. by apply Hclose.
Qed.

Lemma keeps_try_finally {A} (I : multi -> Prop) (x : sx multi exn A) f :
  keeps I x -> keeps I f -> keeps I (try_finally x f).
Proof.
  intros Hx Hf p Hp. specialize (Hx p Hp). unfold wp, try_finally in *.
  destruct (x p) as [p' r]. assert (Hp' : I p') by (by destruct r). specialize (Hf p' Hp').
  unfold wp in Hf. by destruct (f p') as [p'' [[]|e]], r.
Qed.

Lemma keeps_disarm_all p0 : keeps (minv p0) (disarm_all m).
Proof.
  unfold disarm_all. apply keeps_bind; [apply keeps_gets|intros ss].
  apply keeps_bind; [apply keeps_each; intros [k s]; apply keeps_disarm|intros []].
  by apply keeps_modify.
Qed.

Lemma stopped_ok p0 p : minv p0 p -> all_threads p0 -> mu_stopped p0 = true -> multi_ok p.
Proof.
  intros (Hb & Hs & Hst & Ht) Ha H0. split_and!; [done| |congruence].
  intros _. split; [done|]. unfold all_threads. by rewrite Ht.
Qed.

Lemma mstop_wp p : multi_ok p ->
  wp (mstop m c) (fun bs p' => multi_ok p' /\ mu_stopped p' = true /\
      Forall (source_shape c) (mu_sources p') /\ all_threads p' /\
      exists envelope finals, en_clock envelope = "CLOCK_MONOTONIC_RAW" /\
        Forall2 (fun s b => source_batch m c envelope finals s = Ok b) (mu_sources p') bs)
    (fun _ p' => multi_ok p' /\ (mu_stopped p = true -> p' = p)) p.
Proof.
  intros (Hb & Hrun & He). unfold mstop. apply wp_bind, wp_gets. unfold id. apply wp_if; intros Hg.
  { apply wp_raise. by split. }
  bool_prop. destruct (Hrun H) as [Hsh Hall]. apply wp_bind, wp_modify.
  set (p1 := set_mstopped p). assert (Hi : minv p1 p1) by (by split_and!).
  assert (Hbad : forall p', minv p1 p' -> multi_ok p' /\ (mu_stopped p = true -> p' = p)).
  { intros p' Hp'. split; [by apply (stopped_ok p1)|congruence]. }
  apply wp_bind. eapply wp_mono; [apply (keeps_host c p1 _ (neutral_clock m) p1 Hi)| |intros e p' Hp'; by apply Hbad].
  intros before p2 Hi2. apply wp_bind, wp_gets, wp_bind.
  eapply wp_mono; [apply (keeps_try_finally (minv p1) _ _ (keeps_finals p1 _ _) (keeps_disarm_all p1) p2 Hi2)|
    |intros e p' Hp'; by apply Hbad].
  intros finals p3 Hi3. apply wp_bind.
  eapply wp_mono; [apply (keeps_host c p1 _ (neutral_clock m) p3 Hi3)| |intros e p' Hp'; by apply Hbad].
  intros after p4 Hi4. apply wp_bind, wp_gets, wp_lift.
  - intros bs Hbs. apply rmap_Ok in Hbs. split_and!; [by apply (stopped_ok p1)|apply Hi4|apply Hi4| |].
    { unfold all_threads. by rewrite (proj2 (proj2 (proj2 Hi4))). }
    by exists (MkEnvelope "CLOCK_MONOTONIC_RAW" (mu_arm_before p4) (mu_arm_after p4) before after), finals.
  - intros e _. by apply Hbad.
Qed.

(** ** The scheduling times of the load events *)

(** The event was read after it was disabled, and ran for all of a nonempty time. *)
Definition timed (s : source) : Prop :=
  0 <= so_pebs_fd s -> 0 < so_pebs_enabled s /\ so_pebs_running s = so_pebs_enabled s.

Section timed.
Context (Hread : forall n, Forall is_byte (m_read m n)).

(** The first [n] sources are timed; all have the descriptors of [ss]. *)
Definition disarmed (ss : list source) (n : nat) (p : multi) : Prop :=
  so_pebs_fd <$> mu_sources p = so_pebs_fd <$> ss /\
  forall k s, (k < n)%nat -> mu_sources p !! k = Some s -> timed s.

Lemma sampled_event_times payload t : (forall bs, payload = Ok bs -> Forall is_byte bs) ->
  _read_sampled_event payload = Ok t -> 0 < t.1.2 /\ t.2 = t.1.2.
Proof.
  intros Hp Ht. unfold _read_sampled_event in Ht. apply rbind_Ok in Ht as (bs & Hbs & Ht).
  assert (Hb : Forall is_byte bs).
  { destruct payload as [l|e]; simpl in Hbs; [injection Hbs as ->; by apply Hp|by destruct (isinstance_exc _ _)]. }
  destruct (negb (length bs =? 24)%nat) eqn:Hl; [done|]. bool_prop.
  apply rbind_Ok in Ht as (fields & Hf & Ht). unfold unpack in Hf.
  rewrite Hl in Hf. cbn [negb Nat.eqb] in Hf. injection Hf as Hf.
  pose proof (unpack_fields_fits [8; 8; 8]%nat bs Hb ltac:(unfold struct_size; simpl; lia)) as Hfit.
  cbn [unpack_fields] in Hfit. rewrite Hf in Hfit. clear Hf.
  repeat match goal with H : Forall2 fits (_ :: _) _ |- _ => inversion H; clear H; subst end.
  cbn [nth] in Ht. destruct (_ || _) eqn:Hz in Ht; [done|]. destruct (negb _) eqn:He in Ht; [done|]. bool_prop.
  injection Ht as <-. simpl. unfold fits in *. lia.
Qed.

(** A host call leaves the sources alone. *)
Lemma on_mhost_sources {A} (x : sx host exn A) ss n p (Q : A -> multi -> Prop) :
  disarmed ss n p -> (forall a p', disarmed ss n p' -> Q a p') ->
  wp (on_mhost x) Q (fun _ _ => True) p.
Proof.
  intros Hd HQ. unfold on_mhost. apply wp_zoom. unfold wp. by destruct (x _) as [h [a|e]]; [apply HQ|].
Qed.

Lemma os_read_disarmed fd ss n p (Q : result (list Z) -> multi -> Prop) : disarmed ss n p ->
  (forall r p', (forall bs, r = Ok bs -> Forall is_byte bs) -> disarmed ss n p' -> Q r p') ->
  wp (on_mhost (os_read m fd)) Q (fun _ _ => True) p.
Proof.
  intros Hd HQ. unfold on_mhost. apply wp_zoom. unfold wp, os_read. apply HQ; [|done].
  intros bs. destruct (m_fails m _); [done|]. intros [= <-]. apply Hread.
Qed.

Lemma disarmed_skip ss n s p : ss !! n = Some s -> ~ 0 <= so_pebs_fd s -> disarmed ss n p ->
  disarmed ss (S n) p.
Proof.
  intros Hs Hfd [Hf Ht]. split; [done|]. intros k s' Hk Hks. destruct (decide (k = n)) as [->|]; [|apply (Ht k); [lia|done]].
  apply (f_equal (.!! n)) in Hf. rewrite !list_lookup_fmap, Hs, Hks in Hf. injection Hf as Hf.
  intros Hp. exfalso. apply Hfd. by rewrite <- Hf.
Qed.

Lemma disarmed_update ss n t p : 0 < t.1.2 /\ t.2 = t.1.2 -> disarmed ss n p ->
  disarmed ss (S n) (set_sources (alter (set_pebs_times t) n (mu_sources p)) p).
Proof.
  intros Ht [Hf Hk]. split; simpl.
  - rewrite <- Hf. apply list_eq. intros i. rewrite !list_lookup_fmap.
    destruct (decide (i = n)) as [->|]; [|by rewrite list_lookup_alter_ne].
    rewrite list_lookup_alter_eq. by destruct (mu_sources p !! n).
  - intros k s Hkn Hs. destruct (decide (k = n)) as [->|].
    + rewrite list_lookup_alter_eq in Hs. destruct (mu_sources p !! n) as [s0|]; [|done].
      injection Hs as <-. intros _. destruct t as [[v e] r]. simpl in *. lia.
    + rewrite list_lookup_alter_ne in Hs by done. apply (Hk k); [lia|done].
Qed.

Lemma disarm_times ss n s p : ss !! n = Some s -> disarmed ss n p ->
  wp (disarm m n s) (fun _ p' => disarmed ss (S n) p') (fun _ _ => True) p.
Proof.
  intros Hs Hd. unfold disarm. apply wp_bind.
  eapply (wp_mono _ (fun _ => disarmed ss n) _ (fun _ _ => True)); [|intros [] p1 Hd1|done].
  { apply if_then_wp; intros _; [|done]. by eapply on_mhost_sources. }
  apply wp_bind. eapply (wp_mono _ (fun _ => disarmed ss (S n)) _ (fun _ _ => True)); [|intros [] p2 Hd2|done].
  - apply if_then_wp; intros Hfd; [|apply Z.leb_gt in Hfd; eapply disarmed_skip; [done|lia|done]].
    apply wp_bind. eapply on_mhost_sources; [exact Hd1|]. intros [] p2 Hd2.
    apply wp_bind. eapply os_read_disarmed; [exact Hd2|]. intros r p3 Hr Hd3.
    apply wp_bind, wp_lift; [|done]. intros t Ht. apply wp_modify, disarmed_update; [|done].
    by eapply sampled_event_times.
  - apply if_then_wp; intros _; [|done]. by eapply on_mhost_sources.
Qed.

Lemma disarm_each_times ss tail n p : drop n ss = tail -> disarmed ss n p ->
  wp (seach (fun q => disarm m q.1 q.2) (zip (seq n (length tail)) tail))
    (fun _ p' => disarmed ss (n + length tail) p') (fun _ _ => True) p.
Proof.
  revert n p; induction tail as [|s tail IH]; intros n p Ht Hd; simpl; [apply wp_ret; by rewrite Nat.add_0_r|].
  apply wp_bind. eapply wp_mono; [apply (disarm_times ss n s); [|done]| |done].
  { by rewrite <- (Nat.add_0_r n), <- lookup_drop, Ht. }
  intros [] p1 Hd1. rewrite Nat.add_succ_r. apply (IH (S n)); [|done].
  by rewrite <- Nat.add_1_r, <- drop_drop, Ht.
Qed.

Lemma disarm_all_times p : wp (disarm_all m) (fun _ p' => Forall timed (mu_sources p')) (fun _ _ => True) p.
Proof.
  unfold disarm_all. apply wp_bind, wp_gets, wp_bind.
  eapply wp_mono; [apply (disarm_each_times (mu_sources p) (mu_sources p) 0 p); [done|]| |done].
  { split; [done|]. intros k s Hk. lia. }
  intros [] p' [Hf Ht]. apply wp_modify. simpl. apply Forall_lookup. intros k s Hs. apply (Ht k s); [|done].
  apply (f_equal length) in Hf. rewrite !length_fmap in Hf. apply lookup_lt_Some in Hs. simpl. lia.
Qed.

Lemma mstop_times p : wp (mstop m c) (fun _ p' => Forall timed (mu_sources p')) (fun _ _ => True) p.
Proof.
  unfold mstop. apply wp_bind, wp_gets. unfold id. apply wp_if; intros _; [by apply wp_raise|].
  apply wp_bind, wp_modify, wp_bind. unfold wp at 1. simpl. apply wp_bind, wp_gets, wp_bind.
  match goal with |- wp (try_finally ?x ?f) _ _ ?q => unfold wp, try_finally;
    destruct (x q) as [p1 r]; pose proof (disarm_all_times p1) as Hd; unfold wp in Hd;
    destruct (f p1) as [p2 [[]|e]]; [|done]; destruct r as [finals|e]; [|done] end.
  apply wp_bind. unfold wp at 1. simpl. by apply wp_bind, wp_gets, wp_lift.
Qed.
End timed.

(** ** Histories *)

Definition exec_multi (p : multi) (o : cap_op) : multi :=
  match o with
  | OpEnter => (menter m c p).1
  | OpStop => (mstop m c p).1
  | OpClose => (mclose m p).1
  end.
Definition exec_multis (ops : list cap_op) (p : multi) : multi := fold_left exec_multi ops p.

Lemma exec_multi_ok o p : multi_ok p -> multi_ok (exec_multi p o) /\
  (mu_stopped p = true -> mu_stopped (exec_multi p o) = true).
Proof.
  intros Hok. destruct o; simpl.
  - pose proof (menter_wp p Hok) as Hw. unfold wp in Hw.
    destruct (menter m c p) as [p' [[]|e]] eqn:He; simpl.
    + destruct Hw as [Hw _]. split; [done|]. intros Hs. exfalso. unfold menter, sbind, sgets, id in He.
      by rewrite Hs, orb_true_r in He.
    + destruct Hw as (Hw & _ & Hs). split; [done|congruence].
  - pose proof (mstop_wp p Hok) as Hw. unfold wp in Hw.
    destruct (mstop m c p) as [p' [bs|e]] eqn:He; simpl.
    + destruct Hw as (Hw & Hs & _). by split.
    + destruct Hw as (Hw & Hs). split; [done|]. intros H. by rewrite (Hs H).
  - pose proof (mclose_wp m p (fun _ _ => False) (proj1 Hok)) as Hw. unfold wp in Hw.
    destruct (mclose m p) as [p' [[]|e]]; [|done]. destruct Hw as (Hr & Hb & Hr' & Hs). simpl.
    split; [by apply released_ok|congruence].
Qed.

Lemma exec_multis_ok ops p : multi_ok p -> multi_ok (exec_multis ops p) /\
  (mu_stopped p = true -> mu_stopped (exec_multis ops p) = true).
Proof.
  revert p; induction ops as [|o ops IH]; intros p Hok; [done|]. simpl.
  destruct (exec_multi_ok o p Hok) as [H1 H2]. destruct (IH _ H1) as [H3 H4]. split; [done|]. auto.
Qed.

Lemma new_multi_ok p : new_multi m new_host = Ok p -> multi_ok p.
Proof.
  unfold new_multi. destruct (negb _); [done|]. intros [= <-]. split_and!; [|done|done].
  apply new_host_owns.
Qed.

(** A multimodal capture never leaks. Whatever sequence of enters, stops and closes is
    run, with any call failing anywhere - also half-way through opening a source - the live
    descriptors and mappings are exactly those recorded in the sources, each is closed at
    most once, a close or a failed enter leaves nothing open, and at most one stop returns. *)
Theorem multimodal_releases (ops : list cap_op) (p0 : multi) (Hnew : new_multi m new_host = Ok p0) :
  let p := exec_multis ops p0 in
  mbalanced p /\ mreleased (exec_multis (ops ++ [OpClose]) p0) /\
  (forall p' e, menter m c p = (p', Raise e) -> mu_running p = false -> mu_stopped p = false ->
     mreleased p') /\
  (forall p' bs more, mstop m c p = (p', Ok bs) -> is_ok (mstop m c (exec_multis more p')).2 = false).
Proof.
  intros p. destruct (exec_multis_ok ops p0 (new_multi_ok p0 Hnew)) as [Hok _]. fold p in Hok.
  split_and!.
  - apply Hok.
  - unfold exec_multis. rewrite fold_left_app. fold (exec_multis ops p0). fold p. simpl.
    pose proof (mclose_wp m p (fun _ _ => False) (proj1 Hok)) as Hw. unfold wp in Hw.
    by destruct (mclose m p) as [p' [[]|e]]; [destruct Hw|].
  - intros p' e He. pose proof (menter_wp p Hok) as Hw. unfold wp in Hw. rewrite He in Hw. apply Hw.
  - intros p' bs more Hs. pose proof (mstop_wp p Hok) as Hw. unfold wp in Hw. rewrite Hs in Hw.
    destruct Hw as (Hok' & Hst & _).
    destruct (exec_multis_ok more p' Hok') as [_ Hm]. specialize (Hm Hst).
    unfold mstop, sbind, sgets, id. by rewrite Hm, orb_true_r.
Qed.

(** ** What a stop reports *)

(** A whole record stream held by the mappings. *)
Definition complete_batch (signal : string) (data : nat) (aux : option nat) (tid : Z)
    (b : HardwareBatch) : Prop :=
  exists records trace es,
    mapped m (_hardware_config c signal) (m_memory m data) (m_memory m <$> aux) records trace /\
    records = encode_entries signal es /\ complete signal (Z.of_nat (length trace)) es /\
    b = expected_batch tid signal es trace.

Definition honest_status (b : HardwareMultimodalBatch) : Prop :=
  st_signal <$> mb_status b = _MODALITIES /\
  Forall (fun st => st_available st = st_requested st /\ st_lost st = false) (mb_status b).

(** The scheduling times of a status: those of the load event and of the counter group, which
    ran for all of a nonempty time, when there are any. *)
Definition status_times (b : HardwareMultimodalBatch) (st : HardwareSourceStatus) : Prop :=
  if String.eqb (st_signal st) "memory_loads" && is_some (mb_pebs b) then
    exists t, 0 < t /\ st_time_enabled_ns st = Some t /\ st_time_running_ns st = Some t
  else if String.eqb (st_signal st) "counters" then
    st_time_enabled_ns st = cb_time_enabled_ns <$> mb_counters b /\
    st_time_running_ns st = cb_time_running_ns <$> mb_counters b
  else st_time_enabled_ns st = None /\ st_time_running_ns st = None.

(** The payload a status speaks of. *)
Definition has_payload (b : HardwareMultimodalBatch) (signal : string) : bool :=
  if String.eqb signal "intel_pt" then is_some (mb_pt b)
  else if String.eqb signal "memory_loads" then is_some (mb_pebs b) else is_some (mb_counters b).
Definition status_faithful (b : HardwareMultimodalBatch) (st : HardwareSourceStatus) : Prop :=
  st_requested st = requests c (st_signal st) /\ st_available st = has_payload b (st_signal st) /\
  status_times b st.

Definition reports (s : source) (b : HardwareMultimodalBatch) : Prop :=
  mb_source b = so_tid s /\ mb_tid b = so_tid s /\ mb_cpu b = -1 /\
  honest_status b /\ Forall (status_faithful b) (mb_status b) /\
  match mb_pt b with
  | Some hb => exists d, so_pt_data s = Some d /\ complete_batch "intel_pt" d (so_pt_aux s) (so_tid s) hb
  | None => requests c "intel_pt" = false
  end /\
  match mb_pebs b with
  | Some hb => exists d, so_pebs_data s = Some d /\ complete_batch "memory_loads" d None (so_tid s) hb
  | None => requests c "memory_loads" = false
  end /\
  match mb_counters b with
  | Some cb => 0 < cb_time_enabled_ns cb /\ cb_time_running_ns cb = cb_time_enabled_ns cb /\
      Forall (fun d => 0 <= d) (t_data (cb_values cb))
  | None => requests c "counters" = false
  end.

Lemma counter_batch_sound tid cpu_number start final cb :
  _counter_batch tid cpu_number start final = Ok cb ->
  0 < cb_time_enabled_ns cb /\ cb_time_running_ns cb = cb_time_enabled_ns cb /\
  Forall (fun d => 0 <= d) (t_data (cb_values cb)).
Proof.
  destruct start as [[[vs e] r]|]; [|done]. destruct final as [[vs' e'] r'].
  intros Hc. apply counter_batch_iff in Hc as (He & Hr & Hd & ->). simpl. split_and!; [done|done|].
  eapply Forall_impl; [done|]. simpl. lia.
Qed.

Lemma source_batch_reports envelope finals s b :
  (forall i, Forall is_byte (m_memory m i)) -> source_shape c s -> timed s ->
  source_batch m c envelope finals s = Ok b -> reports s b.
Proof.
  intros Hmem (Hpt & Hpe & Hco & Hfd & Hcpu) Htimed Hb. unfold source_batch in Hb.
  apply rbind_Ok in Hb as (pt & Hptr & Hb). apply rbind_Ok in Hb as (pebs & Hper & Hb).
  apply rbind_Ok in Hb as (cs & Hcs & Hb). injection Hb as <-.
  assert (Hpt' : match pt with
    | Some hb => exists d, so_pt_data s = Some d /\ complete_batch "intel_pt" d (so_pt_aux s) (so_tid s) hb
    | None => requests c "intel_pt" = false end).
  { destruct (so_pt_data s) as [d|]; [|by injection Hptr as <-].
    apply rbind_Ok in Hptr as (hb & Hr & [= <-]). exists d. split; [done|].
    by apply (read_mapped_complete m (_hardware_config c "intel_pt")) in Hr. }
  assert (Hpe' : match pebs with
    | Some hb => exists d, so_pebs_data s = Some d /\ complete_batch "memory_loads" d None (so_tid s) hb
    | None => requests c "memory_loads" = false end).
  { destruct (so_pebs_data s) as [d|]; [|by injection Hper as <-].
    apply rbind_Ok in Hper as (hb & Hr & [= <-]). exists d. split; [done|].
    by apply (read_mapped_complete m (_hardware_config c "memory_loads") _ None) in Hr. }
  assert (Hco' : match cs with
    | Some cb => 0 < cb_time_enabled_ns cb /\ cb_time_running_ns cb = cb_time_enabled_ns cb /\
        Forall (fun d => 0 <= d) (t_data (cb_values cb))
    | None => requests c "counters" = false end /\ is_some cs = has_counters s).
  { unfold optional in Hcs. destruct (has_counters s); [|by injection Hcs as <-].
    apply rbind_Ok in Hcs as (cb & Hr & [= <-]). split; [|done].
    apply rbind_Ok in Hr as (g & _ & Hr). by eapply counter_batch_sound. }
  assert (Hpts : is_some pt = requests c "intel_pt").
  { destruct pt as [hb|]; [|done]. destruct Hpt' as (d & Hd & _). by rewrite <- Hpt, Hd. }
  assert (Hpes : is_some pebs = requests c "memory_loads").
  { destruct pebs as [hb|]; [|done]. destruct Hpe' as (d & Hd & _). by rewrite <- Hpe, Hd. }
  unfold reports. simpl mb_tid. simpl mb_pt. simpl mb_pebs. simpl mb_counters.
  split_and!; [done|done|done| | |done|done|apply Hco'].
  - split; [done|]. repeat constructor; simpl; [done|done|]. destruct Hco' as [_ ->]. done.
  - repeat constructor; unfold status_times; simpl; try done.
    destruct pebs as [hb|]; simpl; [|done]. destruct Hpe' as (d & Hd & _). rewrite Hd in Hfd.
    destruct (Htimed (Hfd eq_refl)) as [H1 H2]. exists (so_pebs_enabled s). by rewrite H2.
Qed.

Lemma mstop_reports p p' bs : multi_ok p ->
  (forall i, Forall is_byte (m_memory m i)) -> (forall n, Forall is_byte (m_read m n)) ->
  mstop m c p = (p', Ok bs) ->
  mb_tid <$> bs = merge_sort Z.le (m_tasks m) /\ Forall2 reports (mu_sources p') bs /\
  exists envelope, en_clock envelope = "CLOCK_MONOTONIC_RAW" /\ Forall (fun b => mb_envelope b = envelope) bs.
Proof.
  intros Hok Hmem Hread Hstop. pose proof (mstop_wp _ Hok) as Hw. unfold wp in Hw. rewrite Hstop in Hw.
  pose proof (mstop_times Hread p) as Ht. unfold wp in Ht. rewrite Hstop in Ht.
  destruct Hw as (_ & _ & Hsh & Ha & envelope & finals & Hclock & Hf). rewrite <- Ha.
  enough (so_tid <$> mu_sources p' = mb_tid <$> bs /\ Forall2 reports (mu_sources p') bs /\
    Forall (fun b => mb_envelope b = envelope) bs) as (<- & H2 & H3) by (split_and!; eauto).
  clear -Hf Hsh Hmem Ht. induction Hf as [|s b ss bs Hb Hf IH]; [by split_and!|].
  apply Forall_cons in Hsh as [Hs Hsh]. apply Forall_cons in Ht as [Hst Ht].
  destruct (IH Hsh Ht) as (H1 & H2 & H3).
  assert (Hr : reports s b) by (by eapply source_batch_reports).
  assert (He : mb_envelope b = envelope).
  { unfold source_batch in Hb. apply rbind_Ok in Hb as (? & _ & Hb). apply rbind_Ok in Hb as (? & _ & Hb).
    apply rbind_Ok in Hb as (? & _ & Hb). by injection Hb as <-. }
  split_and!; [|by constructor|by constructor]. rewrite !fmap_cons, H1. f_equal. symmetry. apply Hr.
Qed.

(** C16: a multimodal stop is honest about every source. In any reachable state, if [stop]
    returns, there is one batch for each of the process's threads, in ascending order, whose status lists every modality as
    available exactly when it was requested and never as lost; a PT or load batch is the
    whole of a complete record stream of its own buffers; counter deltas are nonnegative; and
    the load event and the counter group ran, by the times reported, for all of a nonempty
    time. *)
Theorem multimodal_stop_honest (ops : list cap_op) (p0 p' : multi)
  (bs : list HardwareMultimodalBatch) (Hnew : new_multi m new_host = Ok p0)
  (Hmem : forall i, Forall is_byte (m_memory m i)) (Hread : forall n, Forall is_byte (m_read m n))
  (Hstop : mstop m c (exec_multis ops p0) = (p', Ok bs)) :
  mb_tid <$> bs = merge_sort Z.le (m_tasks m) /\ Forall2 reports (mu_sources p') bs.
Proof.
  destruct (mstop_reports (exec_multis ops p0) p' bs) as (H1 & H2 & _); try done.
  by apply exec_multis_ok, new_multi_ok.
Qed.
End lifecycle.

(** ** A concrete capture *)

Definition counters_config : HardwareMultimodalConfig :=
  MkHardwareMultimodalConfig "process" 7 ["counters"; "memory_loads"] 100 1 1.

(** One thread; the group is read at its start and, from the sixteenth call on, at its end. *)
Definition example_loads : list Z :=
  encode_entries "memory_loads" [ESample (MkSample 0 0x401000 7 7 100 0x8000 1 0 50 3 4)].
Definition loads_memory : list Z :=
  replicate 1024 0 ++
  pack_fields [8; 8; 8; 8; 8; 8; 8; 8]%nat
    [Z.of_nat (length example_loads); 0; 4096; 4096; 0; 0; 0; 0] ++
  replicate (4096 - 1088) 0 ++ example_loads ++ replicate (4096 - length example_loads) 0.
Definition counting_machine (fails : nat -> option exn) : machine :=
  MkMachine true "x86_64" 4096 fails [7] example_sysfs
    (fun n => if (n <? 16)%nat then encode_group [(5, 10); (6, 20); (7, 30)] 5 5
              else if (n =? 17)%nat then encode_group [(7, 33); (6, 22); (5, 11)] 9 9
              else pack_fields [8; 8; 8]%nat [1; 9; 9])
    (fun fd => fd + 1) (fun _ => loads_memory) Z.of_nat.

Notation counted := (exec_multis (counting_machine (fun _ => None)) counters_config [OpEnter]
  (MkMulti [] false false 0 0 new_host)).

Lemma loads_memory_bytes : Forall is_byte loads_memory.
Proof. apply bytes_by_evaluation. vm_compute. reflexivity. Qed.

Lemma counting_reads fails n : Forall is_byte (m_read (counting_machine fails) n).
Proof.
  simpl. repeat case_match; apply bytes_by_evaluation; vm_compute; reflexivity.
Qed.

Lemma multimodal_stop_honest_witness :
  exists p' b, mstop (counting_machine (fun _ => None)) counters_config counted = (p', Ok [b]) /\
    honest_status b /\ (t_data ∘ cb_values) <$> mb_counters b = Some [1; 2; 3].
Proof.
  destruct (mstop (counting_machine (fun _ => None)) counters_config counted) as [p' r] eqn:Hs.
  assert (Hr : exists b, r = Ok [b] /\ (t_data ∘ cb_values) <$> mb_counters b = Some [1; 2; 3]).
  { apply (f_equal snd) in Hs. change r with (snd (p', r)). rewrite <- Hs.
    eexists. split; vm_compute; reflexivity. }
  destruct Hr as (b & Hr & Hc). rewrite Hr in Hs. exists p', b.
  split; [rewrite Hr; reflexivity|split; [|exact Hc]].
  pose proof (multimodal_stop_honest (counting_machine (fun _ => None)) counters_config [OpEnter]
    (MkMulti [] false false 0 0 new_host) p' [b] eq_refl (fun _ => loads_memory_bytes)
    (counting_reads _) Hs) as [_ Hf].
  inversion Hf as [|s b' ss bs Hrep Hf']; subst. apply Hrep.
Defined.

Lemma multimodal_releases_witness :
  let m := counting_machine (fun n => if (n =? 5)%nat then Some (Exn OSError "EMFILE") else None) in
  let p0 := MkMulti [] false false 0 0 new_host in
  new_multi m new_host = Ok p0 /\ is_ok (menter m counters_config p0).2 = false /\
  h_next_fd (mu_host (menter m counters_config p0).1) = 6 /\
  mreleased (menter m counters_config p0).1.
Proof.
  intros m p0. split_and!; [vm_compute; reflexivity..|].
  destruct (multimodal_releases m counters_config [] p0 ltac:(vm_compute; reflexivity)) as (_ & _ & He & _).
  destruct (menter m counters_config p0) as [p' [[]|e]] eqn:Hen.
  - exfalso. assert (Hok : is_ok (menter m counters_config p0).2 = false) by (vm_compute; reflexivity).
    rewrite Hen in Hok. discriminate Hok.
  - exact (He p' e Hen eq_refl eq_refl).
Defined.
