(* ===== verification/Floats.v ===== *)
(** * Floating-point numbers as Python and torch have them

    Python's floats are IEEE binary64 and torch's [float32] is binary32, both
    as Rocq's executable [SpecFloat]. [log1p] of the C library and Python's
    [sum] of floats (whose rounding depends on the interpreter's version) are
    parameters of the code that uses them. Comparisons are between numbers of
    one format. *)

From Stdlib Require SpecFloat.
From S2P Require Import Prelude.

Abbreviation float := SpecFloat.spec_float.

Definition float_of_int (z : Z) : float := SpecFloat.binary_normalize 53 1024 z 0 false.

Definition finite (f : float) : bool :=
  match f with
  | SpecFloat.S754_zero _ | SpecFloat.S754_finite _ _ _ => true
  | _ => false
  end.

Definition zero : float := SpecFloat.S754_zero false.
Definition nan : float := SpecFloat.S754_nan.

Definition fadd (a b : float) : float := SpecFloat.SFadd 53 1024 a b.
Definition fsub (a b : float) : float := SpecFloat.SFsub 53 1024 a b.
Definition fmul (a b : float) : float := SpecFloat.SFmul 53 1024 a b.
Definition fdiv (a b : float) : float := SpecFloat.SFdiv 53 1024 a b.
Definition fsqrt (a : float) : float := SpecFloat.SFsqrt 53 1024 a.

(** [a / b] of two nonnegative integers, [b] positive: the quotient rounded once. *)
Definition int_truediv (a b : Z) : float :=
  match a, b with
  | Z.pos p, Z.pos q =>
      let '(mz, ez, lz) := SpecFloat.SFdiv_core_binary 53 1024 (Z.pos p) 0 (Z.pos q) 0 in
      SpecFloat.binary_round_aux 53 1024 false mz ez lz
  | _, _ => zero
  end.

(** Python's [max] of a list of floats that is not empty: the first of the largest. *)
Definition float_max (a : float) (l : list float) : float :=
  fold_left (fun m x => if SpecFloat.SFltb m x then x else m) l a.

(** Rounding to [torch.float32]. *)
Definition float32_of_int (z : Z) : float := SpecFloat.binary_normalize 24 128 z 0 false.
Definition float32 (f : float) : float :=
  match f with
  | SpecFloat.S754_finite s m e =>
      SpecFloat.binary_normalize 24 128 (if s then Z.neg m else Z.pos m) e s
  | _ => f
  end.
