(* ===== verification/Health.v ===== *)
(** * The campaign health policy ([examples/hardware_pretraining_health.py])

    Validation of one health record and the pure policy decided from it and the
    durable state. Numbers are Python's: unbounded integers and binary64 floats
    (Rocq's [SpecFloat]), compared exactly; converting an integer beyond the
    range of a float raises, as [math.isfinite] does. *)

From stdpp Require Import sorting.
From Stdlib Require SpecFloat.
From S2P Require Import Prelude Floats.

(** ** Numbers and JSON values *)

Inductive pynum := NInt (z : Z) | NFloat (f : float).

(** [math.isfinite] *)
Definition isfinite (n : pynum) : result bool :=
  match n with
  | NInt z => raise! OverflowError "int too large to convert to float" when negb (finite (float_of_int z)) in
              Ok true
  | NFloat f => Ok (finite f)
  end.

(** The exact value of a finite number as mantissa and exponent. *)
Definition dyadic (n : pynum) : Z * Z :=
  match n with
  | NInt z => (z, 0)
  | NFloat (SpecFloat.S754_finite s m e) => ((if s then Z.neg m else Z.pos m), e)
  | NFloat _ => (0, 0)
  end.

Definition num_compare (a b : pynum) : comparison :=
  let '(m1, e1) := dyadic a in
  let '(m2, e2) := dyadic b in
  let e := Z.min e1 e2 in
  Z.compare (m1 * 2 ^ (e1 - e)) (m2 * 2 ^ (e2 - e)).

Definition num_lt (a b : pynum) : bool := match num_compare a b with Lt => true | _ => false end.
Definition num_le (a b : pynum) : bool := match num_compare a b with Gt => false | _ => true end.
Definition num_eq (a b : pynum) : bool := match num_compare a b with Eq => true | _ => false end.

(** [float(n)] of a finite number, [a - b] of a float and a number, and [n / 2]. *)
Definition to_float (n : pynum) : pynum :=
  match n with NInt z => NFloat (float_of_int z) | NFloat f => NFloat f end.
Definition float_sub (a b : pynum) : pynum :=
  match to_float a, to_float b with
  | NFloat x, NFloat y => NFloat (SpecFloat.SFsub 53 1024 x y)
  | _, _ => a
  end.
Definition num_half (n : pynum) : pynum :=
  match n with
  | NInt z => NFloat (SpecFloat.binary_normalize 53 1024 z (-1) false)
  | NFloat f => NFloat (SpecFloat.SFdiv 53 1024 f (float_of_int 2))
  end.

Inductive json :=
  | JNull
  | JBool (b : bool)
  | JNum (n : pynum)
  | JStr (s : string)
  | JArr (l : list json)
  | JObj (kvs : list (string * json)).

Definition record : Type := list (string * json).

(** [record.get(name)] *)
Definition field (r : record) (name : string) : json := default JNull (od_get name r).

Definition _is_number (v : json) : result bool :=
  match v with JNum n => isfinite n | _ => Ok false end.
Definition _is_integer (v : json) : bool := match v with JNum (NInt _) => true | _ => false end.

Definition hex_digit (c : Ascii.ascii) : bool :=
  let n := Ascii.nat_of_ascii c in
  ((48 <=? n) && (n <=? 57) || (97 <=? n) && (n <=? 102))%nat.
Definition sha256_text (s : string) : bool :=
  (String.length s =? 64)%nat && forallb hex_digit (String.list_ascii_of_string s).
Definition _is_sha256 (v : json) : bool := match v with JStr s => sha256_text s | _ => false end.

(** [value == n] for an integer [n]: booleans and floats compare as numbers. *)
Definition equals_int (v : json) (n : Z) : bool :=
  match v with
  | JNum x => (match x with NInt _ => true | NFloat f => finite f end) && num_eq x (NInt n)
  | JBool b => (if b then 1 else 0) =? n
  | _ => false
  end.

(** ** The schema *)

Definition SCHEMA_VERSION : Z := 1.
Definition CADENCES : list Z := [60; 300; 900; 1800; 7200].
Definition _STATUSES : list string := ["running"; "recovering"; "aborted"; "completed"].

Definition COMMON_FIELDS : list string :=
  ["schema_version"; "run_id"; "subject_sha256"; "capture_sha256"; "lineage_id"; "timestamp_utc";
   "elapsed_seconds"; "cadence_seconds"; "status"; "reasons"].

Definition CADENCE_FIELDS (cadence : Z) : list string :=
  match cadence with
  | 60 => ["liveness"; "boot_sha256"; "disk_free_bytes"; "ram_available_bytes"; "hbm_free_bytes";
           "sealed_bytes"; "uploaded_bytes"; "backlog_bytes"; "oldest_unverified_shard_age_seconds";
           "gpu_utilization_fraction"; "data_wait_fraction"; "disk_runway_seconds"; "shard_hash_ok";
           "spend_usd"; "spend_forecast_usd"; "spot_interruption_active"; "spot_restore_age_seconds"]
  | 300 => ["executions"; "rejections"; "pt_bytes"; "pt_lost_packets"; "aux_bad"; "pebs_samples";
            "pebs_lost_samples"; "pebs_density_ratio"; "pebs_running_ratio"; "pmu_running_ratio";
            "cpu_migrations"; "oracle_failures"]
  | 900 => ["global_step"; "unique_executions"; "mask_views_used"; "replay_ratio"; "total_loss";
            "pt_loss"; "pebs_loss"; "pmu_loss"; "gradient_norm"; "parameter_norm"; "nonfinite_count";
            "tokens_per_second"; "remote_checkpoint_age_seconds"; "checkpoint_sha256";
            "checkpoint_hash_ok"; "remote_checkpoint_verified"; "oom_events"; "fresh_data_available"]
  | 1800 => ["validation_total_loss"; "validation_pt_loss"; "validation_pebs_loss";
             "validation_pmu_loss"; "retrieval_recall"; "swap_residual"; "family_alert_rates";
             "input_drift_within_bounds"]
  | 7200 => ["capacity_projection_seconds"; "familiar_benign_alert_rate";
             "unfamiliar_benign_alert_rate"; "development_canary_score"; "raw_storage_forecast_bytes";
             "storage_forecast_bytes"; "spend_forecast_usd"]
  | _ => []
  end.

Definition _BOOLEAN_FIELDS : list string :=
  ["liveness"; "shard_hash_ok"; "spot_interruption_active"; "aux_bad"; "checkpoint_hash_ok";
   "remote_checkpoint_verified"; "fresh_data_available"; "input_drift_within_bounds"].

Definition _INTEGER_FIELDS : list string :=
  ["schema_version"; "cadence_seconds"; "disk_free_bytes"; "ram_available_bytes"; "hbm_free_bytes";
   "sealed_bytes"; "uploaded_bytes"; "backlog_bytes"; "executions"; "rejections"; "pt_bytes";
   "pt_lost_packets"; "pebs_samples"; "pebs_lost_samples"; "cpu_migrations"; "oracle_failures";
   "global_step"; "unique_executions"; "mask_views_used"; "nonfinite_count"; "oom_events";
   "raw_storage_forecast_bytes"; "storage_forecast_bytes"].

Definition _FRACTION_FIELDS : list string :=
  ["gpu_utilization_fraction"; "data_wait_fraction"; "pebs_running_ratio"; "pmu_running_ratio";
   "replay_ratio"; "retrieval_recall"; "familiar_benign_alert_rate"; "unfamiliar_benign_alert_rate"].

Definition _NONNEGATIVE_NUMBER_FIELDS : list string :=
  List.filter (fun n => negb (existsb (String.eqb n) ["schema_version"; "cadence_seconds"])) _INTEGER_FIELDS ++
  ["elapsed_seconds"; "oldest_unverified_shard_age_seconds"; "disk_runway_seconds"; "spend_usd";
   "spend_forecast_usd"; "spot_restore_age_seconds"; "pebs_density_ratio"; "pebs_running_ratio";
   "pmu_running_ratio"; "total_loss"; "pt_loss"; "pebs_loss"; "pmu_loss"; "gradient_norm";
   "parameter_norm"; "tokens_per_second"; "remote_checkpoint_age_seconds"; "validation_total_loss";
   "validation_pt_loss"; "validation_pebs_loss"; "validation_pmu_loss"; "retrieval_recall";
   "swap_residual"; "capacity_projection_seconds"; "familiar_benign_alert_rate";
   "unfamiliar_benign_alert_rate"; "development_canary_score"].

Definition string_le (a b : string) : Prop := String.leb a b = true.
#[global] Instance string_le_dec : RelDecision string_le.
Proof. intros a b. unfold string_le. apply _. Defined.

(** [sorted(...)] of a set of field names. *)
Definition sort_names (l : list string) : list string := merge_sort string_le l.
Definition names_in (fields required : list string) : list string :=
  sort_names (List.filter (fun n => existsb (String.eqb n) fields) required).

Definition cadence_ok (r : record) : bool :=
  match field r "cadence_seconds" with
  | JNum (NInt c) => bool_decide (c ∈ CADENCES)
  | _ => false
  end.

Definition required (r : record) : list string :=
  if cadence_ok r then
    match field r "cadence_seconds" with
    | JNum (NInt c) => COMMON_FIELDS ++ CADENCE_FIELDS c
    | _ => COMMON_FIELDS
    end
  else COMMON_FIELDS.

(** ** Validation *)

(** The checks in order; the first that raises wins, and the errors of the others add up. *)
Fixpoint rconcat (checks : list (result (list string))) : result (list string) :=
  match checks with
  | [] => Ok []
  | c :: cs => let! e := c in let! es := rconcat cs in Ok (e ++ es)
  end.

Definition error_unless (b : bool) (msg : string) : list string := if b then [] else [msg].

Definition check_cadence (r : record) : list string :=
  error_unless (cadence_ok r) "cadence_seconds must be one of 60, 300, 900, 1800, or 7200".

Definition missing (r : record) : list string :=
  sort_names (List.filter (fun n => negb (is_some (od_get n r))) (required r)).
Definition check_missing (r : record) : list string :=
  match missing r with
  | [] => []
  | ns => ["missing required fields: " +:+ String.concat ", " ns]
  end.

Definition check_name (r : record) (name : string) : list string :=
  error_unless (match field r name with JStr (String.String _ _) => true | _ => false end)
    (name +:+ " must be a nonempty string").
Definition check_sha (r : record) (name : string) : list string :=
  error_unless (_is_sha256 (field r name)) (name +:+ " must be a lowercase SHA-256 digest").

(** [status not in _STATUSES]: a list or an object is not hashable. *)
Definition check_status (r : record) : result (list string) :=
  match field r "status" with
  | JArr _ | JObj _ => throw TypeError "unhashable type"
  | JStr s => Ok (error_unless (existsb (String.eqb s) _STATUSES)
                    "status must be running, recovering, aborted, or completed")
  | _ => Ok ["status must be running, recovering, aborted, or completed"]
  end.

Definition check_reasons (r : record) : list string :=
  error_unless (match field r "reasons" with
                | JArr l => forallb (fun v => match v with JStr _ => true | _ => false end) l
                | _ => false
                end) "reasons must be a JSON array of strings".

Definition check_boolean (r : record) (name : string) : list string :=
  error_unless (match field r name with JBool _ => true | _ => false end) (name +:+ " must be a boolean").
Definition check_integer (r : record) (name : string) : list string :=
  error_unless (_is_integer (field r name)) (name +:+ " must be an integer").

(** [_is_number(value) and bounds(value)] *)
Definition number_within (bounds : pynum -> bool) (v : json) : result bool :=
  let! number := _is_number v in
  match v with
  | JNum n => Ok (number && bounds n)
  | _ => Ok false
  end.
Definition zero : pynum := NInt 0.
Definition nonnegative (n : pynum) : bool := negb (num_lt n zero).
Definition fraction (n : pynum) : bool := num_le zero n && num_le n (NInt 1).

Definition check_nonnegative (r : record) (name : string) : result (list string) :=
  let! ok := number_within nonnegative (field r name) in
  Ok (error_unless ok (name +:+ " must be a finite nonnegative number")).
Definition check_fraction (r : record) (name : string) : result (list string) :=
  let! ok := number_within fraction (field r name) in
  Ok (error_unless ok (name +:+ " must be in [0, 1]")).

(** The [any(...)] over the alert rates stops at the first bad one. *)
Fixpoint rates_ok (kvs : list (string * json)) : result bool :=
  match kvs with
  | [] => Ok true
  | (name, v) :: kvs =>
      if String.eqb name EmptyString then Ok false else
      let! ok := number_within fraction v in
      if ok then rates_ok kvs else Ok false
  end.
Definition check_rates (r : record) : result (list string) :=
  if equals_int (field r "cadence_seconds") 1800 then
    let! ok := match field r "family_alert_rates" with
               | JObj ((_ :: _) as kvs) => rates_ok kvs
               | _ => Ok false
               end in
    Ok (error_unless ok "family_alert_rates must be a nonempty object of [0, 1] values")
  else Ok [].

Section validation.
(** [datetime.fromisoformat]: the UTC offset of the parsed time in microseconds, [Some None]
    for a time without one, [None] for text it rejects. *)
Context (fromisoformat : string -> option (option Z)).

Definition _is_utc_timestamp (v : json) : bool :=
  match v with
  | JStr s =>
      let n := String.length s in
      (negb (n =? 0)%nat && String.eqb (String.substring (n - 1) 1 s) "Z") &&
      match fromisoformat (String.substring 0 (n - 1) s +:+ "+00:00") with
      | Some (Some offset) => offset =? 0
      | _ => false
      end
  | _ => false
  end.

Definition checks (r : record) : list (result (list string)) :=
  let cadence := field r "cadence_seconds" in
  [Ok (check_cadence r);
   Ok (check_missing r);
   Ok (error_unless (equals_int (field r "schema_version") SCHEMA_VERSION) "schema_version must equal 1");
   Ok (check_name r "run_id"); Ok (check_name r "lineage_id");
   Ok (check_sha r "subject_sha256"); Ok (check_sha r "capture_sha256");
   Ok (if equals_int cadence 60 then check_sha r "boot_sha256" else []);
   Ok (if equals_int cadence 900 then check_sha r "checkpoint_sha256" else []);
   Ok (error_unless (_is_utc_timestamp (field r "timestamp_utc"))
         "timestamp_utc must be an RFC 3339 UTC timestamp ending in Z");
   check_status r;
   Ok (check_reasons r)] ++
  (Ok ∘ check_boolean r <$> names_in _BOOLEAN_FIELDS (required r)) ++
  (Ok ∘ check_integer r <$> names_in _INTEGER_FIELDS (required r)) ++
  (check_nonnegative r <$> names_in _NONNEGATIVE_NUMBER_FIELDS (required r)) ++
  (check_fraction r <$> names_in _FRACTION_FIELDS (required r)) ++
  [check_rates r].

Definition validate_health_record (r : record) : result unit :=
  let! errors := rconcat (checks r) in
  match errors with
  | [] => Ok tt
  | _ => throw HealthRecordError (String.concat "; " errors)
  end.

(** [parse_health_record_jsonl]; [json_loads] gives [None] for text that is not JSON. *)
Definition newline (c : Ascii.ascii) : bool := (Ascii.nat_of_ascii c =? 10)%nat.
Definition line_end (c : Ascii.ascii) : bool := newline c || (Ascii.nat_of_ascii c =? 13)%nat.
Definition blank (c : Ascii.ascii) : bool :=
  let n := Ascii.nat_of_ascii c in
  (n =? 32)%nat || ((9 <=? n)%nat && (n <=? 13)%nat) || ((28 <=? n)%nat && (n <=? 31)%nat).
Fixpoint drop_while (f : Ascii.ascii -> bool) (l : list Ascii.ascii) : list Ascii.ascii :=
  match l with
  | c :: l' => if f c then drop_while f l' else l
  | [] => []
  end.

Definition one_line (line : string) : bool :=
  let cs := String.list_ascii_of_string line in
  negb (forallb blank cs) && negb (existsb newline (drop_while line_end (rev cs))).

Definition parse_health_record_jsonl (json_loads : string -> option json) (line : string) :
    result record :=
  raise! HealthRecordError "expected exactly one nonblank JSONL record" when negb (one_line line) in
  match json_loads line with
  | None => throw HealthRecordError "invalid JSON"
  | Some (JObj r) => let! u := validate_health_record r in Ok r
  | Some _ => throw HealthRecordError "health record must be a JSON object"
  end.
End validation.

(** ** Policy and state *)

Definition half : pynum := NFloat (SpecFloat.S754_finite false 4503599627370496 (-53)).
Definition fifth : pynum := NFloat (SpecFloat.S754_finite false 7205759403792794 (-55)).

Record HealthPolicy := MkHealthPolicy {
  hp_ceiling : pynum;
  hp_starved_gpu : pynum;
  hp_starved_wait : pynum;
}.

Definition maximum_elapsed_seconds : pynum := NInt (26 * 60 * 60).
Definition minimum_disk_runway_seconds : pynum := NInt (2 * 60 * 60).
Definition maximum_remote_checkpoint_age_seconds : pynum := NInt (30 * 60).
Definition minimum_running_ratio : pynum := NInt 1.
Definition minimum_pebs_density_ratio : pynum := half.
Definition low_density_windows_to_abort : Z := 2.
Definition maximum_loader_workers : Z := 8.
Definition maximum_prefetch_factor : Z := 8.
Definition loader_adjustment_interval_seconds : pynum := NInt (15 * 60).
Definition maximum_mask_views : Z := 2.
Definition maximum_spot_restore_seconds : pynum := NInt (30 * 60).

Definition check_policy (p : HealthPolicy) : result unit :=
  let! ok := number_within (fun n => negb (num_le n zero)) (JNum (hp_ceiling p)) in
  raise! ValueError "approved spend ceiling must be a finite positive number" when negb ok in
  let! ok := number_within fraction (JNum (hp_starved_gpu p)) in
  raise! ValueError "starvation thresholds must be in [0, 1]" when negb ok in
  let! ok := number_within fraction (JNum (hp_starved_wait p)) in
  raise! ValueError "starvation thresholds must be in [0, 1]" when negb ok in
  Ok tt.

Record HealthState := MkHealthState {
  hs_subject : string;
  hs_boot : string;
  hs_capture : string;
  hs_lineage : string;
  hs_loader_workers : Z;
  hs_prefetch_factor : Z;
  hs_microbatch_size : Z;
  hs_accumulation : Z;
  hs_learning_rate : pynum;
  hs_mask_views : Z;
  hs_oom_recoveries : Z;
  hs_numerical_recoveries : Z;
  hs_low_density : Z;
  hs_last_adjustment : option pynum;
  hs_checkpoint : option string;
  hs_spot_requested : bool;
}.

Definition check_state (s : HealthState) : result unit :=
  raise! ValueError "subject_sha256 must be a lowercase SHA-256 digest"
    when negb (sha256_text (hs_subject s)) in
  raise! ValueError "boot_sha256 must be a lowercase SHA-256 digest"
    when negb (sha256_text (hs_boot s)) in
  raise! ValueError "capture_sha256 must be a lowercase SHA-256 digest"
    when negb (sha256_text (hs_capture s)) in
  raise! ValueError "lineage_id must not be empty" when String.eqb (hs_lineage s) EmptyString in
  raise! ValueError "state sizes and counts must be positive"
    when Z.min (hs_loader_workers s) (Z.min (hs_prefetch_factor s) (Z.min (hs_microbatch_size s)
           (Z.min (hs_accumulation s) (hs_mask_views s)))) <? 1 in
  raise! ValueError "state exceeds loader, prefetch, or mask-view campaign bounds"
    when (8 <? hs_loader_workers s) || (8 <? hs_prefetch_factor s) || (2 <? hs_mask_views s) in
  raise! ValueError "recovery counters may only represent zero or one recovery"
    when negb (bool_decide (hs_oom_recoveries s ∈ [0; 1])) ||
         negb (bool_decide (hs_numerical_recoveries s ∈ [0; 1])) in
  raise! ValueError "low-density window count must not be negative" when hs_low_density s <? 0 in
  let! ok := match hs_last_adjustment s with
             | None => Ok true
             | Some t => number_within nonnegative (JNum t)
             end in
  raise! ValueError "last loader adjustment time must be finite and nonnegative" when negb ok in
  let! ok := number_within (fun n => negb (num_le n zero)) (JNum (hs_learning_rate s)) in
  raise! ValueError "learning_rate must be finite and positive" when negb ok in
  raise! ValueError "latest verified checkpoint must be a SHA-256 digest"
    when match hs_checkpoint s with Some c => negb (sha256_text c) | None => false end in
  Ok tt.

(** [replace(state, ...)]: the new object checks itself. *)
Definition checked (s : HealthState) : result HealthState := let! u := check_state s in Ok s.

(** The state with new values for what the policy changes. *)
Definition with_density (n : Z) (s : HealthState) : HealthState :=
  MkHealthState (hs_subject s) (hs_boot s) (hs_capture s) (hs_lineage s) (hs_loader_workers s)
    (hs_prefetch_factor s) (hs_microbatch_size s) (hs_accumulation s) (hs_learning_rate s)
    (hs_mask_views s) (hs_oom_recoveries s) (hs_numerical_recoveries s) n (hs_last_adjustment s)
    (hs_checkpoint s) (hs_spot_requested s).
Definition with_checkpoint (c : string) (s : HealthState) : HealthState :=
  MkHealthState (hs_subject s) (hs_boot s) (hs_capture s) (hs_lineage s) (hs_loader_workers s)
    (hs_prefetch_factor s) (hs_microbatch_size s) (hs_accumulation s) (hs_learning_rate s)
    (hs_mask_views s) (hs_oom_recoveries s) (hs_numerical_recoveries s) (hs_low_density s)
    (hs_last_adjustment s) (Some c) (hs_spot_requested s).
Definition with_spot (b : bool) (s : HealthState) : HealthState :=
  MkHealthState (hs_subject s) (hs_boot s) (hs_capture s) (hs_lineage s) (hs_loader_workers s)
    (hs_prefetch_factor s) (hs_microbatch_size s) (hs_accumulation s) (hs_learning_rate s)
    (hs_mask_views s) (hs_oom_recoveries s) (hs_numerical_recoveries s) (hs_low_density s)
    (hs_last_adjustment s) (hs_checkpoint s) b.
Definition with_numerical_recovery (lineage : string) (rate : pynum) (s : HealthState) : HealthState :=
  MkHealthState (hs_subject s) (hs_boot s) (hs_capture s) lineage (hs_loader_workers s)
    (hs_prefetch_factor s) (hs_microbatch_size s) (hs_accumulation s) rate
    (hs_mask_views s) (hs_oom_recoveries s) 1 (hs_low_density s) (hs_last_adjustment s)
    (hs_checkpoint s) (hs_spot_requested s).
Definition with_oom_recovery (lineage : string) (micro accumulation : Z) (s : HealthState) : HealthState :=
  MkHealthState (hs_subject s) (hs_boot s) (hs_capture s) lineage (hs_loader_workers s)
    (hs_prefetch_factor s) micro accumulation (hs_learning_rate s)
    (hs_mask_views s) 1 (hs_numerical_recoveries s) (hs_low_density s) (hs_last_adjustment s)
    (hs_checkpoint s) (hs_spot_requested s).
Definition with_views (n : Z) (s : HealthState) : HealthState :=
  MkHealthState (hs_subject s) (hs_boot s) (hs_capture s) (hs_lineage s) (hs_loader_workers s)
    (hs_prefetch_factor s) (hs_microbatch_size s) (hs_accumulation s) (hs_learning_rate s)
    n (hs_oom_recoveries s) (hs_numerical_recoveries s) (hs_low_density s) (hs_last_adjustment s)
    (hs_checkpoint s) (hs_spot_requested s).
Definition with_loader (workers prefetch : Z) (at_time : pynum) (s : HealthState) : HealthState :=
  MkHealthState (hs_subject s) (hs_boot s) (hs_capture s) (hs_lineage s) workers prefetch
    (hs_microbatch_size s) (hs_accumulation s) (hs_learning_rate s)
    (hs_mask_views s) (hs_oom_recoveries s) (hs_numerical_recoveries s) (hs_low_density s)
    (Some at_time) (hs_checkpoint s) (hs_spot_requested s).

(** ** Decisions *)

Inductive value := VInt (z : Z) | VNum (n : pynum) | VBool (b : bool) | VStr (s : option string).

Record PolicyAction := MkPolicyAction {
  pa_kind : string;
  pa_reason : string;
  pa_prior : string;
  pa_lineage : string;
  pa_parameters : list (string * value);
}.

Record HealthDecision := MkHealthDecision {
  hd_status : string;
  hd_reasons : list string;
  hd_actions : list PolicyAction;
  hd_next : HealthState;
}.

(** The entries of a validated record. *)
Definition text (r : record) (name : string) : string :=
  match field r name with JStr s => s | _ => EmptyString end.
Definition num (r : record) (name : string) : pynum :=
  match field r name with JNum n => n | _ => zero end.
Definition int (r : record) (name : string) : Z :=
  match field r name with JNum (NInt z) => z | _ => 0 end.
Definition flag (r : record) (name : string) : bool :=
  match field r name with JBool b => b | _ => false end.

Definition gate (b : bool) (reason : string) : list string := if b then [reason] else [].

Definition identity_aborts (r : record) (s : HealthState) (cadence : Z) : list string :=
  gate (negb (String.eqb (text r "subject_sha256") (hs_subject s))) "subject_hash_changed" ++
  gate (negb (String.eqb (text r "capture_sha256") (hs_capture s))) "capture_hash_changed" ++
  gate (negb (String.eqb (text r "lineage_id") (hs_lineage s))) "unexpected_lineage" ++
  gate ((cadence =? 60) && negb (String.eqb (text r "boot_sha256") (hs_boot s))) "boot_hash_changed" ++
  gate ((cadence =? 60) && negb (flag r "liveness")) "liveness_failed" ++
  gate ((cadence =? 60) && negb (flag r "shard_hash_ok")) "corrupt_shard_hash" ++
  gate ((cadence =? 900) && negb (flag r "checkpoint_hash_ok")) "corrupt_checkpoint_hash" ++
  gate ((cadence =? 900) && negb (flag r "remote_checkpoint_verified")) "remote_checkpoint_unverified".

Definition limit_aborts (r : record) (p : HealthPolicy) (cadence : Z) (elapsed : pynum) : list string :=
  gate (bool_decide (cadence ∈ [60; 7200]) && num_lt (hp_ceiling p) (num r "spend_forecast_usd"))
    "spend_forecast_exceeds_ceiling" ++
  gate (num_le maximum_elapsed_seconds elapsed) "elapsed_time_reached_26_hours" ++
  gate ((cadence =? 60) && num_lt (num r "disk_runway_seconds") minimum_disk_runway_seconds)
    "disk_runway_below_two_hours" ++
  gate ((cadence =? 900) &&
        num_lt maximum_remote_checkpoint_age_seconds (num r "remote_checkpoint_age_seconds"))
    "remote_checkpoint_older_than_30_minutes".

(** The consecutive windows of low sample density, this one included. *)
Definition density_windows (r : record) (s : HealthState) : Z :=
  if num_lt (num r "pebs_density_ratio") minimum_pebs_density_ratio then hs_low_density s + 1 else 0.

Definition capture_aborts (r : record) (s : HealthState) (cadence : Z) : list string :=
  if cadence =? 300 then
    gate (negb (int r "oracle_failures" =? 0)) "oracle_failure" ++
    gate (negb (int r "cpu_migrations" =? 0)) "cpu_migration" ++
    gate (negb (int r "pt_lost_packets" =? 0)) "pt_loss" ++
    gate (negb (int r "pebs_lost_samples" =? 0)) "pebs_loss" ++
    gate (flag r "aux_bad") "aux_bad" ++
    gate (num_lt (num r "pebs_running_ratio") minimum_running_ratio) "pebs_running_ratio_below_one" ++
    gate (num_lt (num r "pmu_running_ratio") minimum_running_ratio) "pmu_running_ratio_below_one" ++
    gate (low_density_windows_to_abort <=? density_windows r s) "pebs_density_below_half_for_two_windows"
  else [].

Definition training_aborts (r : record) (s : HealthState) (cadence : Z) : list string :=
  if cadence =? 900 then
    gate (maximum_mask_views <? int r "mask_views_used") "mask_view_cap_exceeded" ++
    gate (negb (int r "nonfinite_count" =? 0) && negb (hs_numerical_recoveries s =? 0))
      "second_numerical_recovery" ++
    gate (negb (int r "oom_events" =? 0) && negb (hs_oom_recoveries s =? 0)) "second_oom_recovery" ++
    gate (negb (int r "oom_events" =? 0) && negb (hs_microbatch_size s mod 2 =? 0))
      "oom_recovery_cannot_preserve_effective_batch"
  else [].

Definition drift_aborts (r : record) (cadence : Z) : list string :=
  gate ((cadence =? 1800) && negb (flag r "input_drift_within_bounds"))
    "input_drift_outside_preregistered_bounds".

Definition spot_aborts (r : record) (s : HealthState) (cadence : Z) : list string :=
  if (cadence =? 60) && flag r "spot_interruption_active" then
    gate (num_lt maximum_spot_restore_seconds (num r "spot_restore_age_seconds"))
      "spot_restore_exceeded_30_minutes" ++
    gate (negb (is_some (hs_checkpoint s))) "spot_restore_has_no_verified_checkpoint"
  else [].

Definition abort_reasons (r : record) (s : HealthState) (p : HealthPolicy) (cadence : Z)
    (elapsed : pynum) : list string :=
  identity_aborts r s cadence ++ limit_aborts r p cadence elapsed ++ capture_aborts r s cadence ++
  training_aborts r s cadence ++ drift_aborts r cadence ++ spot_aborts r s cadence.

(** What the record itself changes in the state. *)
Definition observe_state (r : record) (s : HealthState) (cadence : Z) : result HealthState :=
  let! s1 := if cadence =? 300 then checked (with_density (density_windows r s) s) else Ok s in
  let! s2 := if (cadence =? 900) && (flag r "checkpoint_hash_ok" && flag r "remote_checkpoint_verified")
             then checked (with_checkpoint (text r "checkpoint_sha256") s1) else Ok s1 in
  if (cadence =? 60) && negb (flag r "spot_interruption_active") && hs_spot_requested s
  then checked (with_spot false s2) else Ok s2.

(** [_lineage_action] *)
Definition _lineage_action (s : HealthState) (kind reason suffix : string)
    (parameters : list (string * value)) (change : string -> HealthState -> HealthState) :
    result (PolicyAction * HealthState) :=
  let lineage := hs_lineage s +:+ "/" +:+ suffix in
  let! next := checked (change lineage s) in
  Ok (MkPolicyAction kind reason (hs_lineage s) lineage parameters, next).

Definition adjust (a : PolicyAction) (next : HealthState) : HealthDecision :=
  MkHealthDecision "adjust" [pa_reason a] [a] next.

(** An action that keeps the lineage. *)
Definition plain_action (s : HealthState) (kind reason : string) (parameters : list (string * value)) :
    PolicyAction :=
  MkPolicyAction kind reason (hs_lineage s) (hs_lineage s) parameters.

Definition restore_spot (s next : HealthState) : result HealthDecision :=
  let a := plain_action s "restore_spot_trainer" "spot_interruption_active"
             [("checkpoint_sha256", VStr (hs_checkpoint s))] in
  let! next := checked (with_spot true next) in
  Ok (adjust a next).

Definition recover_numerics (r : record) (s next : HealthState) : result HealthDecision :=
  let rate := num_half (hs_learning_rate s) in
  let! (a, next) := _lineage_action next "restore_checkpoint_and_halve_learning_rate"
    "first_nan_or_inf" "numerical-recovery-1"
    [("checkpoint_sha256", VStr (Some (text r "checkpoint_sha256"))); ("learning_rate", VNum rate)]
    (fun lineage => with_numerical_recovery lineage rate) in
  Ok (adjust a next).

Definition recover_memory (s next : HealthState) : result HealthDecision :=
  let micro := hs_microbatch_size s / 2 in
  let accumulation := hs_accumulation s * 2 in
  let! (a, next) := _lineage_action next "reduce_microbatch_preserve_effective_batch"
    "first_out_of_memory" "oom-recovery-1"
    [("microbatch_size", VInt micro); ("gradient_accumulation_steps", VInt accumulation);
     ("effective_batch_unchanged", VBool true)]
    (fun lineage => with_oom_recovery lineage micro accumulation) in
  Ok (adjust a next).

Definition replay (r : record) (s next : HealthState) : result HealthDecision :=
  let observed := Z.max (hs_mask_views s) (int r "mask_views_used") in
  if observed <? maximum_mask_views then
    let a := plain_action s "reuse_training_shards_with_new_masks" "fresh_data_temporarily_unavailable"
               [("mask_views_used", VInt (observed + 1)); ("preserve_sample_order", VBool true)] in
    let! next := checked (with_views (observed + 1) next) in
    Ok (adjust a next)
  else Ok (adjust (plain_action s "hold_for_fresh_data" "two_mask_view_cap_reached" []) next).

Definition starved (r : record) (p : HealthPolicy) : bool :=
  num_lt zero (num r "backlog_bytes") &&
  num_lt (num r "gpu_utilization_fraction") (hp_starved_gpu p) &&
  num_le (hp_starved_wait p) (num r "data_wait_fraction").

Definition cooled_down (s : HealthState) (elapsed : pynum) : bool :=
  match hs_last_adjustment s with
  | None => true
  | Some previous => num_le loader_adjustment_interval_seconds (float_sub elapsed previous)
  end.

Definition tune_loader (r : record) (s next : HealthState) (p : HealthPolicy) (elapsed : pynum) :
    result HealthDecision :=
  let workers := Z.min (hs_loader_workers s + 1) maximum_loader_workers in
  let prefetch := Z.min (hs_prefetch_factor s * 2) maximum_prefetch_factor in
  if starved r p && cooled_down s elapsed &&
     (negb (workers =? hs_loader_workers s) || negb (prefetch =? hs_prefetch_factor s)) then
    let a := plain_action s "increase_loader_capacity" "gpu_starved_with_sealed_backlog"
               [("loader_workers", VInt workers); ("prefetch_factor", VInt prefetch);
                ("preserve_sample_order", VBool true)] in
    let! next := checked (with_loader workers prefetch elapsed next) in
    Ok (adjust a next)
  else Ok (MkHealthDecision "continue" [] [] next).

(** The one action of a record without an abort, in order of precedence. *)
Definition choose_action (r : record) (s next : HealthState) (p : HealthPolicy) (cadence : Z)
    (elapsed : pynum) : result HealthDecision :=
  if (cadence =? 60) && flag r "spot_interruption_active" && negb (hs_spot_requested s) then
    restore_spot s next
  else if (cadence =? 900) && negb (int r "nonfinite_count" =? 0) then recover_numerics r s next
  else if (cadence =? 900) && negb (int r "oom_events" =? 0) then recover_memory s next
  else if (cadence =? 900) && negb (flag r "fresh_data_available") then replay r s next
  else if cadence =? 60 then tune_loader r s next p elapsed
  else Ok (MkHealthDecision "continue" [] [] next).

Definition decide_health (fromisoformat : string -> option (option Z)) (r : record)
    (s : HealthState) (p : HealthPolicy) : result HealthDecision :=
  let! u := validate_health_record fromisoformat r in
  let cadence := int r "cadence_seconds" in
  let elapsed := to_float (num r "elapsed_seconds") in
  let aborts := abort_reasons r s p cadence elapsed in
  let! next := observe_state r s cadence in
  match aborts with
  | [] => choose_action r s next p cadence elapsed
  | _ => Ok (MkHealthDecision "abort" aborts [] next)
  end.
