(* ===== verification/HealthProofs.v ===== *)
(** * The health policy is bounded ([examples/hardware_pretraining_health.py])

    What validation accepts, what one decision may do, and what a whole
    campaign of decisions may do. *)

From stdpp Require Import sorting.
From Stdlib Require SpecFloat.
From S2P Require Import Prelude Floats Health.

(** Membership of a literal in a literal list. *)
Ltac in_list :=
  try match goal with |- list_elem_of ?x ?l => change (x ∈ l) end;
  refine (bool_decide_eq_true_1 _ _); vm_compute; reflexivity.

(** ** Numbers *)

Lemma dyadic_zero n : num_compare n zero = Z.compare (dyadic n).1 0.
Proof.
  unfold num_compare, zero. simpl. destruct (dyadic n) as [m e]. simpl.
  rewrite Z.mul_0_l. destruct (Z.compare_spec m 0) as [->|Hm|Hm].
  - done.
  - apply Z.compare_lt_iff. assert (0 < 2 ^ (e - Z.min e 0)) by (apply Z.pow_pos_nonneg; lia). nia.
  - apply Z.compare_gt_iff. assert (0 < 2 ^ (e - Z.min e 0)) by (apply Z.pow_pos_nonneg; lia). nia.
Qed.

Lemma nonnegative_iff n : nonnegative n = true <-> 0 <= (dyadic n).1.
Proof.
  unfold nonnegative, num_lt. rewrite dyadic_zero.
  destruct (Z.compare_spec (dyadic n).1 0); simpl; split; try done; lia.
Qed.

Lemma positive_iff n : negb (num_le n zero) = true <-> 0 < (dyadic n).1.
Proof.
  unfold num_le. rewrite dyadic_zero.
  destruct (Z.compare_spec (dyadic n).1 0); simpl; split; try done; lia.
Qed.

(** Rounding keeps the sign. *)
Lemma binary_round_nonneg m e : 0 <= (dyadic (NFloat (SpecFloat.binary_round 53 1024 false m e))).1.
Proof.
  unfold SpecFloat.binary_round, SpecFloat.binary_round_aux.
  destruct (SpecFloat.shl_align _ _ _) as [mz ez].
  destruct (SpecFloat.shr_fexp _ _ _ _ _) as [mrs e1].
  destruct (SpecFloat.shr_fexp _ _ _ _ _) as [mrs2 e2].
  destruct (SpecFloat.shr_m mrs2); try done. by destruct (_ <=? _).
Qed.

Lemma to_float_nonneg n : 0 <= (dyadic n).1 -> 0 <= (dyadic (to_float n)).1.
Proof.
  destruct n as [z|f]; [|done]. simpl. intros Hz. unfold float_of_int, SpecFloat.binary_normalize.
  destruct z as [|m|m]; [done|apply binary_round_nonneg|lia].
Qed.

(** A finite number, as [_is_number] accepts it. *)
Definition num_finite (n : pynum) : bool :=
  match n with NInt z => finite (float_of_int z) | NFloat f => finite f end.

Lemma isfinite_iff n : isfinite n = Ok true <-> num_finite n = true.
Proof.
  destruct n as [z|f]; simpl.
  - destruct (finite (float_of_int z)); done.
  - split; [by intros [= ->]|by intros ->].
Qed.

Lemma to_float_finite n : num_finite n = true -> num_finite (to_float n) = true.
Proof. by destruct n. Qed.

Lemma number_within_iff bounds v :
  number_within bounds v = Ok true <-> exists n, v = JNum n /\ num_finite n = true /\ bounds n = true.
Proof.
  unfold number_within. destruct v as [| |n| | |]; simpl; try (split; [done|intros (? & ? & _); done]).
  destruct n as [z|f]; simpl.
  - destruct (finite (float_of_int z)) eqn:Hf; simpl.
    + split; [intros [= Hb]; eauto|]. intros (n & [= <-] & _ & ->). done.
    + split; [done|]. intros (n & [= <-] & Hn & _). simpl in Hn. congruence.
  - split.
    + intros [= [H1 H2]%andb_true_iff]. eauto.
    + intros (n & [= <-] & H1 & ->). simpl in H1. by rewrite H1.
Qed.

(** ** Validation *)

Lemma rconcat_nil cs : rconcat cs = Ok [] <-> Forall (fun c => c = Ok []) cs.
Proof.
  induction cs as [|c cs IH]; cbn [rconcat]; [done|]. rewrite Forall_cons, rbind_Ok, <- IH. split.
  - intros (e & -> & Hk). apply rbind_Ok in Hk as (es & Hes & [= He]).
    apply app_eq_nil in He as [-> ->]. done.
  - intros [-> ->]. exists []. by split.
Qed.

Lemma validate_iff iso r :
  validate_health_record iso r = Ok tt <-> Forall (fun c => c = Ok []) (checks iso r).
Proof.
  unfold validate_health_record. rewrite <- rconcat_nil, rbind_Ok. split.
  - intros ([|e es] & Hc & Hk); [done|done].
  - intros ->. by exists [].
Qed.

Lemma error_unless_nil b msg : error_unless b msg = [] <-> b = true.
Proof. by destruct b. Qed.

Lemma existsb_names n l : existsb (String.eqb n) l = true <-> n ∈ l.
Proof.
  rewrite existsb_exists. setoid_rewrite <- list_elem_of_In. split.
  - intros (x & Hx & He). apply String.eqb_eq in He. by subst.
  - intros Hn. exists n. by rewrite String.eqb_refl.
Qed.

Lemma elem_of_names n fields l : n ∈ names_in fields l <-> n ∈ l /\ n ∈ fields.
Proof.
  unfold names_in, sort_names. rewrite merge_sort_Permutation.
  rewrite list_elem_of_In, filter_In, <- list_elem_of_In, existsb_names. done.
Qed.

Lemma sort_nil l : sort_names l = [] <-> l = [].
Proof.
  unfold sort_names. split; intros Hl.
  - pose proof (merge_sort_Permutation string_le l) as Hp. rewrite Hl in Hp.
    by apply Permutation_nil in Hp.
  - by subst.
Qed.

(** ** The schema, as a predicate *)

Definition cadence_of (r : record) (c : Z) : Prop :=
  field r "cadence_seconds" = JNum (NInt c) /\ c ∈ CADENCES.

Definition fields_of (c : Z) : list string := COMMON_FIELDS ++ CADENCE_FIELDS c.

Definition rate_ok (kv : string * json) : Prop :=
  kv.1 <> EmptyString /\
  exists n, kv.2 = JNum n /\ num_finite n = true /\ fraction n = true.

(** A record of schema version 1. *)
Record record_ok (iso : string -> option (option Z)) (r : record) (c : Z) : Prop := {
  ro_cadence : cadence_of r c;
  ro_present : forall n, n ∈ fields_of c -> is_some (od_get n r) = true;
  ro_version : field r "schema_version" = JNum (NInt 1);
  ro_names : forall n, n ∈ ["run_id"; "lineage_id"] ->
    exists s, field r n = JStr s /\ s <> EmptyString;
  ro_digests : forall n, n ∈ ["subject_sha256"; "capture_sha256"; "boot_sha256"; "checkpoint_sha256"] ->
    n ∈ fields_of c -> exists s, field r n = JStr s /\ sha256_text s = true;
  ro_timestamp : _is_utc_timestamp iso (field r "timestamp_utc") = true;
  ro_status : exists s, field r "status" = JStr s /\ s ∈ _STATUSES;
  ro_reasons : exists ss, field r "reasons" = JArr (JStr <$> ss);
  ro_booleans : forall n, n ∈ fields_of c -> n ∈ _BOOLEAN_FIELDS -> exists b, field r n = JBool b;
  ro_integers : forall n, n ∈ fields_of c -> n ∈ _INTEGER_FIELDS ->
    exists z, field r n = JNum (NInt z);
  ro_numbers : forall n, n ∈ fields_of c -> n ∈ _NONNEGATIVE_NUMBER_FIELDS ->
    exists v, field r n = JNum v /\ num_finite v = true /\ nonnegative v = true;
  ro_fractions : forall n, n ∈ fields_of c -> n ∈ _FRACTION_FIELDS ->
    exists v, field r n = JNum v /\ num_finite v = true /\ fraction v = true;
  ro_rates : c = 1800 -> exists kvs, field r "family_alert_rates" = JObj kvs /\ kvs <> [] /\
    Forall rate_ok kvs;
}.

Lemma cadence_ok_iff r : cadence_ok r = true <-> exists c, cadence_of r c.
Proof.
  unfold cadence_ok, cadence_of. destruct (field r "cadence_seconds") as [| |[z|]| | |]; try (split; [done|by intros (c & ? & _)]).
  rewrite bool_decide_eq_true. split; [by exists z|by intros (c & [= ->] & ?)].
Qed.

Lemma required_of r c : cadence_of r c -> required r = fields_of c.
Proof.
  intros Hc. unfold required. rewrite (proj2 (cadence_ok_iff r)) by eauto. destruct Hc as [-> _]. done.
Qed.

Lemma equals_int_cadence r c n : cadence_of r c -> equals_int (field r "cadence_seconds") n = (c =? n).
Proof.
  intros [-> _]. simpl. unfold num_eq, num_compare. simpl. rewrite Z.min_id, Z.sub_diag, !Z.mul_1_r.
  destruct (Z.compare_spec c n); [subst; by rewrite Z.eqb_refl|symmetry; apply Z.eqb_neq; lia..].
Qed.

Lemma rates_ok_iff kvs : rates_ok kvs = Ok true <-> Forall rate_ok kvs.
Proof.
  induction kvs as [|[n v] kvs IH]; cbn [rates_ok]; [done|]. rewrite Forall_cons, <- IH. unfold rate_ok. simpl.
  destruct (String.eqb_spec n EmptyString) as [->|Hn]; [naive_solver|].
  rewrite rbind_Ok. split.
  - intros (b & Hb & Hk). destruct b; [|done]. apply number_within_iff in Hb. done.
  - intros [[_ Hv] Hk]. exists true. split; [|done]. by apply number_within_iff.
Qed.

Lemma all_ok {A} (f : A -> list string) l :
  Forall (fun c : result (list string) => c = Ok []) (Ok ∘ f <$> l) <-> forall a, a ∈ l -> f a = [].
Proof.
  rewrite Forall_fmap, Forall_forall. unfold compose. split.
  - intros Hl a Ha. specialize (Hl a Ha). by injection Hl.
  - intros Hl a Ha. by rewrite Hl.
Qed.

Lemma all_results {A} (f : A -> result (list string)) l :
  Forall (fun c : result (list string) => c = Ok []) (f <$> l) <-> forall a, a ∈ l -> f a = Ok [].
Proof. rewrite Forall_fmap, Forall_forall. done. Qed.

Lemma check_within_iff bounds v msg :
  (let! ok := number_within bounds v in Ok (error_unless ok msg)) = Ok [] <->
  exists n, v = JNum n /\ num_finite n = true /\ bounds n = true.
Proof.
  rewrite <- number_within_iff, rbind_Ok. split.
  - intros (b & -> & [= Hb]). by destruct b.
  - intros ->. by exists true.
Qed.

Lemma missing_iff r : check_missing r = [] <-> forall n, n ∈ required r -> is_some (od_get n r) = true.
Proof.
  unfold check_missing, missing. transitivity
    (List.filter (fun n => negb (is_some (od_get n r))) (required r) = []).
  { rewrite <- (sort_nil (List.filter _ _)). by destruct (sort_names _). }
  induction (required r) as [|n l IH]; simpl.
  - split; [intros _ n Hn; by apply not_elem_of_nil in Hn|done].
  - destruct (is_some (od_get n r)) eqn:Hn; simpl.
    + rewrite IH. split; [|by intros Hl m Hm; apply Hl; right].
      intros Hl m [->|Hm]%elem_of_cons; [done|by apply Hl].
    + split; [done|]. intros Hl. rewrite Hl in Hn; [done|left].
Qed.

Lemma name_iff r n : check_name r n = [] <-> exists s, field r n = JStr s /\ s <> EmptyString.
Proof.
  unfold check_name. rewrite error_unless_nil.
  destruct (field r n) as [| | |[|ch s]| |]; split; try done; try (intros (? & ? & ?); congruence).
  intros _. by eexists.
Qed.

Lemma sha_iff r n : check_sha r n = [] <-> exists s, field r n = JStr s /\ sha256_text s = true.
Proof.
  unfold check_sha. rewrite error_unless_nil. unfold _is_sha256.
  destruct (field r n); split; try done; try (intros (? & ? & ?); congruence). eauto.
Qed.

Lemma status_iff r : check_status r = Ok [] <-> exists s, field r "status" = JStr s /\ s ∈ _STATUSES.
Proof.
  unfold check_status. destruct (field r "status") as [| | |s| |];
    try (split; [done|by intros (? & ? & ?)]).
  destruct (existsb (String.eqb s) _STATUSES) eqn:He; simpl.
  - apply existsb_names in He. split; [eauto|done].
  - split; [done|]. intros (s' & [= <-] & Hs). apply existsb_names in Hs. congruence.
Qed.

Lemma reasons_iff r : check_reasons r = [] <-> exists ss, field r "reasons" = JArr (JStr <$> ss).
Proof.
  unfold check_reasons. rewrite error_unless_nil. destruct (field r "reasons") as [| | | |l|];
    try (split; [done|by intros (? & ?)]). induction l as [|v l IH].
  - split; [by exists []|done].
  - simpl. rewrite andb_true_iff, IH. split.
    + intros [Hv (ss & [= ->])]. destruct v as [| | |s| |]; try done. by exists (s :: ss).
    + intros ([|s ss] & [= -> ->]). split; [done|by exists ss].
Qed.

Lemma boolean_iff r n : check_boolean r n = [] <-> exists b, field r n = JBool b.
Proof.
  unfold check_boolean. rewrite error_unless_nil.
  destruct (field r n); split; try done; try (intros (? & ?); congruence). eauto.
Qed.

Lemma integer_iff r n : check_integer r n = [] <-> exists z, field r n = JNum (NInt z).
Proof.
  unfold check_integer. rewrite error_unless_nil. unfold _is_integer.
  destruct (field r n) as [| |[z|]| | |]; split; try done; try (intros (? & ?); congruence). eauto.
Qed.

Lemma digest_fields c n : c ∈ CADENCES ->
  n ∈ ["subject_sha256"; "capture_sha256"; "boot_sha256"; "checkpoint_sha256"] -> n ∈ fields_of c ->
  n = "subject_sha256" \/ n = "capture_sha256" \/ (n = "boot_sha256" /\ c = 60) \/
  (n = "checkpoint_sha256" /\ c = 900).
Proof.
  intros Hc Hn Hf.
  assert (Hn' : n = "subject_sha256" \/ n = "capture_sha256" \/ n = "boot_sha256" \/ n = "checkpoint_sha256")
    by set_solver.
  assert (Hc' : c = 60 \/ c = 300 \/ c = 900 \/ c = 1800 \/ c = 7200) by set_solver.
  destruct Hn' as [->|[->|[->| ->]]]; [by left|by right; left|right; right; left|right; right; right];
    split; try done; destruct Hc' as [->|[->|[->|[->| ->]]]]; try done; exfalso;
    refine (bool_decide_eq_false_1 _ _ Hf); vm_compute; reflexivity.
Qed.

Lemma rates_iff r c : cadence_of r c ->
  check_rates r = Ok [] <-> (c = 1800 -> exists kvs, field r "family_alert_rates" = JObj kvs /\
    kvs <> [] /\ Forall rate_ok kvs).
Proof.
  intros Hc. unfold check_rates. rewrite (equals_int_cadence r c 1800 Hc).
  destruct (Z.eqb_spec c 1800) as [->|Hne]; [|naive_solver].
  rewrite rbind_Ok. split.
  - intros (b & Hb & [= He]) _. destruct b; [|done].
    destruct (field r "family_alert_rates") as [| | | | |[|kv kvs]]; try done.
    apply rates_ok_iff in Hb. by exists (kv :: kvs).
  - intros Hk. destruct (Hk eq_refl) as (kvs & -> & Hne & Hf). exists true.
    destruct kvs; [done|]. split; [by apply rates_ok_iff|done].
Qed.

Lemma version_iff r : (exists z, field r "schema_version" = JNum (NInt z)) ->
  equals_int (field r "schema_version") 1 = true <-> field r "schema_version" = JNum (NInt 1).
Proof.
  intros (z & ->). simpl. unfold num_eq, num_compare. simpl. rewrite !Z.mul_1_r.
  destruct (Z.compare_spec z 1) as [->|H|H]; split; try done; intros [= ->]; lia.
Qed.

Lemma common_fields c n : n ∈ COMMON_FIELDS -> n ∈ fields_of c.
Proof. intros. apply elem_of_app. by left. Qed.

(** The checks, one by one, of a record with a known cadence. *)
Lemma checks_iff iso r c : cadence_of r c ->
  Forall (fun x => x = Ok []) (checks iso r) <-> record_ok iso r c.
Proof.
  intros Hc. unfold checks. rewrite (required_of r c Hc), !(equals_int_cadence r c _ Hc).
  rewrite !Forall_app, !Forall_cons, !Forall_nil, !all_ok, !all_results.
  setoid_rewrite elem_of_names.
  assert (Hver : (forall a, a ∈ fields_of c /\ a ∈ _INTEGER_FIELDS -> check_integer r a = []) ->
    exists z, field r "schema_version" = JNum (NInt z)).
  { intros Hi. apply integer_iff, Hi. split; [apply common_fields; in_list|in_list]. }
  split.
  - intros ((H1 & H2 & H3 & H4 & H5 & H6 & H7 & H8 & H9 & H10 & H11 & H12 & _) & Hb & Hi & Hn & Hf & Hr & _).
    injection H2 as H2. injection H3 as H3. injection H4 as H4. injection H5 as H5. injection H6 as H6.
    injection H7 as H7. injection H8 as H8. injection H9 as H9. injection H10 as H10. injection H12 as H12.
    split; [done|..].
    + intros n Hin. apply (proj1 (missing_iff r) H2). by rewrite (required_of r c Hc).
    + apply version_iff; [by apply Hver|]. by apply error_unless_nil in H3.
    + intros n Hin. assert (Hn' : n = "run_id" \/ n = "lineage_id") by (clear -Hin; set_solver).
      destruct Hn' as [->| ->]; by apply name_iff.
    + intros n Hd Hin. destruct (digest_fields c n (proj2 Hc) Hd Hin) as [->|[->|[[-> ->]|[-> ->]]]]; by apply sha_iff.
    + by apply error_unless_nil in H10.
    + by apply status_iff.
    + by apply reasons_iff.
    + intros n Hin Hbn. by apply boolean_iff, Hb.
    + intros n Hin Hbn. by apply integer_iff, Hi.
    + intros n Hin Hbn. by eapply check_within_iff, Hn.
    + intros n Hin Hbn. by eapply check_within_iff, Hf.
    + by apply rates_iff.
  - intros [Hca Hpr Hve Hna Hdi Hti Hst Hre Hbo Hin Hnu Hfr Hra].
    assert (Hsha : forall n, n ∈ ["subject_sha256"; "capture_sha256"; "boot_sha256"; "checkpoint_sha256"] ->
      n ∈ fields_of c -> Ok (E:=exn) (check_sha r n) = Ok []) by (intros n H1 H2; f_equal; by apply sha_iff, Hdi).
    split_and!; try done.
    + f_equal. apply error_unless_nil, cadence_ok_iff. eauto.
    + f_equal. apply missing_iff. by rewrite (required_of r c Hc).
    + f_equal. apply error_unless_nil. apply version_iff; [eauto|done].
    + f_equal. apply name_iff, Hna. in_list.
    + f_equal. apply name_iff, Hna. in_list.
    + apply Hsha; [in_list|apply common_fields; in_list].
    + apply Hsha; [in_list|apply common_fields; in_list].
    + destruct (Z.eqb_spec c 60) as [->|]; [|done]. apply Hsha; in_list.
    + destruct (Z.eqb_spec c 900) as [->|]; [|done]. apply Hsha; in_list.
    + f_equal. by apply error_unless_nil.
    + by apply status_iff.
    + f_equal. by apply reasons_iff.
    + intros n [H1 H2]. by apply boolean_iff, Hbo.
    + intros n [H1 H2]. by apply integer_iff, Hin.
    + intros n [H1 H2]. by apply check_within_iff, Hnu.
    + intros n [H1 H2]. by apply check_within_iff, Hfr.
    + by apply (rates_iff r c).
Qed.

Lemma validate_ok iso r : validate_health_record iso r = Ok tt <-> exists c, record_ok iso r c.
Proof.
  rewrite validate_iff. split.
  - intros Hf. assert (Hc : exists c, cadence_of r c).
    { apply cadence_ok_iff. unfold checks in Hf. apply Forall_app in Hf as [Hf _].
      apply Forall_cons in Hf as [Hf _]. injection Hf as Hf. by apply error_unless_nil in Hf. }
    destruct Hc as [c Hc]. exists c. by apply checks_iff.
  - intros [c Hc]. apply (checks_iff iso r c); [apply Hc|done].
Qed.

(** ** The state *)

Record state_ok (s : HealthState) : Prop := {
  so_subject : sha256_text (hs_subject s) = true;
  so_boot : sha256_text (hs_boot s) = true;
  so_capture : sha256_text (hs_capture s) = true;
  so_lineage : hs_lineage s <> EmptyString;
  so_workers : 1 <= hs_loader_workers s <= 8;
  so_prefetch : 1 <= hs_prefetch_factor s <= 8;
  so_micro : 1 <= hs_microbatch_size s;
  so_accumulation : 1 <= hs_accumulation s;
  so_views : 1 <= hs_mask_views s <= 2;
  so_oom : hs_oom_recoveries s = 0 \/ hs_oom_recoveries s = 1;
  so_numerical : hs_numerical_recoveries s = 0 \/ hs_numerical_recoveries s = 1;
  so_density : 0 <= hs_low_density s;
  so_adjustment : forall t, hs_last_adjustment s = Some t -> num_finite t = true /\ nonnegative t = true;
  so_rate : num_finite (hs_learning_rate s) = true /\ 0 < (dyadic (hs_learning_rate s)).1;
  so_checkpoint : forall c, hs_checkpoint s = Some c -> sha256_text c = true;
}.

Lemma two_values z : bool_decide (z ∈ [0; 1]) = true <-> z = 0 \/ z = 1.
Proof. rewrite bool_decide_eq_true. set_solver. Qed.

Lemma number_ok bounds n : number_within bounds (JNum n) = Ok true <-> num_finite n = true /\ bounds n = true.
Proof.
  rewrite number_within_iff. split; [by intros (? & [= <-] & ? & ?)|]. intros [? ?]. by exists n.
Qed.

Lemma guard_true {A} (x : result bool) (k : result A) msg a :
  (let! ok := x in raise! ValueError msg when negb ok in k) = Ok a <-> x = Ok true /\ k = Ok a.
Proof.
  rewrite rbind_Ok. split.
  - intros (b & -> & Hk). by destruct b.
  - intros [-> ->]. by exists true.
Qed.

Lemma raise_when {A} (b : bool) (k : result A) c msg a :
  (raise! c msg when b in k) = Ok a <-> b = false /\ k = Ok a.
Proof. destruct b; [split; [done|by intros []]|]. tauto. Qed.

Lemma check_state_iff s : check_state s = Ok tt <-> state_ok s.
Proof.
  unfold check_state. rewrite !raise_when, !guard_true, raise_when.
  rewrite !negb_false_iff, !orb_false_iff, !negb_false_iff, !two_values, !Z.ltb_ge, String.eqb_neq.
  rewrite number_ok, positive_iff.
  assert (Hadj : (match hs_last_adjustment s with
      | None => Ok true | Some t => number_within nonnegative (JNum t) end = Ok true) <->
    forall t, hs_last_adjustment s = Some t -> num_finite t = true /\ nonnegative t = true).
  { destruct (hs_last_adjustment s) as [t|]; [|done]. rewrite number_ok. split; [by intros ? ? [= <-]|auto]. }
  assert (Hck : (match hs_checkpoint s with Some c => negb (sha256_text c) | None => false end = false) <->
    forall c, hs_checkpoint s = Some c -> sha256_text c = true).
  { destruct (hs_checkpoint s) as [c|]; [|done]. rewrite negb_false_iff. split; [by intros ? ? [= <-]|auto]. }
  rewrite Hadj, Hck. split.
  - intros (? & ? & ? & ? & ? & ((? & ?) & ?) & (? & ?) & ? & ? & (? & ?) & ? & _). split; try done; lia.
  - intros []. split_and!; try done; try lia; apply so_rate0.
Qed.

Lemma checked_Ok s s' : checked s = Ok s' <-> s' = s /\ state_ok s.
Proof.
  unfold checked. rewrite rbind_Ok, <- check_state_iff. split.
  - intros ([] & Hc & [= <-]). done.
  - intros [-> Hc]. by exists tt.
Qed.

(** ** What a decision keeps *)

Definition effective_batch (s : HealthState) : Z := hs_microbatch_size s * hs_accumulation s.

(** The identity of the campaign, the effective batch and the recoveries done. *)
Record carried (s s' : HealthState) : Prop := {
  ca_subject : hs_subject s' = hs_subject s;
  ca_boot : hs_boot s' = hs_boot s;
  ca_capture : hs_capture s' = hs_capture s;
  ca_batch : effective_batch s' = effective_batch s;
}.

(** The fields that only an action changes. *)
Record untouched (s s' : HealthState) : Prop := {
  un_carried : carried s s';
  un_lineage : hs_lineage s' = hs_lineage s;
  un_workers : hs_loader_workers s' = hs_loader_workers s;
  un_prefetch : hs_prefetch_factor s' = hs_prefetch_factor s;
  un_micro : hs_microbatch_size s' = hs_microbatch_size s;
  un_accumulation : hs_accumulation s' = hs_accumulation s;
  un_rate : hs_learning_rate s' = hs_learning_rate s;
  un_views : hs_mask_views s' = hs_mask_views s;
  un_oom : hs_oom_recoveries s' = hs_oom_recoveries s;
  un_numerical : hs_numerical_recoveries s' = hs_numerical_recoveries s;
}.

Lemma observe_untouched r s cadence s' : observe_state r s cadence = Ok s' ->
  state_ok s -> untouched s s' /\ state_ok s'.
Proof.
  intros Ho Hs. unfold observe_state in Ho.
  apply rbind_Ok in Ho as (s1 & H1 & Ho). apply rbind_Ok in Ho as (s2 & H2 & Ho).
  assert (Hu1 : untouched s s1 /\ state_ok s1).
  { destruct (cadence =? 300); [apply checked_Ok in H1 as [-> ?]|injection H1 as <-]; (by split; [split; [split|..]|]). }
  assert (Hu2 : untouched s s2 /\ state_ok s2).
  { destruct Hu1 as [[[] ? ? ? ? ? ? ? ? ?] ?].
    destruct (_ && _) in H2; [apply checked_Ok in H2 as [-> ?]|injection H2 as <-]; (by split; [split; [split|..]|]). }
  destruct Hu2 as [[[] ? ? ? ? ? ? ? ? ?] ?].
  destruct (_ && _) in Ho; [apply checked_Ok in Ho as [-> ?]|injection Ho as <-]; (by split; [split; [split|..]|]).
Qed.

Definition numerical_kind : string := "restore_checkpoint_and_halve_learning_rate".
Definition oom_kind : string := "reduce_microbatch_preserve_effective_batch".

(** The recoveries after an action, and what it says about lineage. *)
Record acted (s : HealthState) (a : PolicyAction) (s' : HealthState) : Prop := {
  ac_carried : carried s s';
  ac_prior : pa_prior a = hs_lineage s;
  ac_lineage : pa_lineage a = hs_lineage s';
  ac_numerical : if String.eqb (pa_kind a) numerical_kind
    then hs_numerical_recoveries s = 0 /\ hs_numerical_recoveries s' = 1 /\
         hs_learning_rate s' = num_half (hs_learning_rate s)
    else hs_numerical_recoveries s' = hs_numerical_recoveries s;
  ac_oom : if String.eqb (pa_kind a) oom_kind
    then hs_oom_recoveries s = 0 /\ hs_oom_recoveries s' = 1 /\
         hs_microbatch_size s' = hs_microbatch_size s / 2 /\
         hs_accumulation s' = hs_accumulation s * 2
    else hs_oom_recoveries s' = hs_oom_recoveries s;
  ac_new_lineage : hs_lineage s' = hs_lineage s \/
    exists suffix, suffix ∈ ["numerical-recovery-1"; "oom-recovery-1"] /\
      hs_lineage s' = hs_lineage s +:+ "/" +:+ suffix;
}.

Lemma gate_false b m : gate b m = [] -> b = false.
Proof. by destruct b. Qed.

Lemma no_training_aborts r s : training_aborts r s 900 = [] ->
  (int r "nonfinite_count" <> 0 -> hs_numerical_recoveries s = 0) /\
  (int r "oom_events" <> 0 -> hs_oom_recoveries s = 0 /\ hs_microbatch_size s mod 2 = 0).
Proof.
  unfold training_aborts. simpl. intros Ha.
  apply app_eq_nil in Ha as [_ Ha]. apply app_eq_nil in Ha as [H1 Ha].
  apply app_eq_nil in Ha as [H2 H3]. apply gate_false in H1, H2, H3. split.
  - intros Hn. apply Z.eqb_neq in Hn. rewrite Hn in H1. simpl in H1. bool_prop. done.
  - intros Hn. apply Z.eqb_neq in Hn. rewrite Hn in H2, H3. simpl in H2, H3. bool_prop. done.
Qed.

Ltac open_untouched H := destruct H as [[? ? ? ?] ? ? ? ? ? ? ? ? ?].

(** An action that keeps lineage, batch and recoveries. *)
Lemma plain_acted s next next' kind reason ps : untouched s next ->
  String.eqb kind numerical_kind = false -> String.eqb kind oom_kind = false ->
  hs_lineage next' = hs_lineage next -> hs_subject next' = hs_subject next ->
  hs_boot next' = hs_boot next -> hs_capture next' = hs_capture next ->
  effective_batch next' = effective_batch next ->
  hs_numerical_recoveries next' = hs_numerical_recoveries next ->
  hs_oom_recoveries next' = hs_oom_recoveries next ->
  acted s (plain_action s kind reason ps) next'.
Proof.
  intros Hu Hk1 Hk2 ? ? ? ? ? ? ?. open_untouched Hu. split; simpl; rewrite ?Hk1, ?Hk2; try congruence.
  - split; congruence.
  - left. congruence.
Qed.

(** The decision of a record without an abort. *)
Lemma choose_action_cases r s next p cadence elapsed d :
  untouched s next -> state_ok s -> state_ok next -> training_aborts r s cadence = [] ->
  choose_action r s next p cadence elapsed = Ok d ->
  state_ok (hd_next d) /\
  ((exists a, d = adjust a (hd_next d) /\ acted s a (hd_next d)) \/
   d = MkHealthDecision "continue" [] [] next).
Proof.
  intros Hu Hs Hn Ha Hd. unfold choose_action in Hd.
  destruct ((cadence =? 60) && flag r "spot_interruption_active" && negb (hs_spot_requested s)).
  { unfold restore_spot in Hd. apply rbind_Ok in Hd as (n & Hc & [= <-]).
    apply checked_Ok in Hc as [-> Hc]. split; [done|]. left. eexists. split; [reflexivity|].
    by apply (plain_acted s next). }
  destruct ((cadence =? 900) && negb (int r "nonfinite_count" =? 0)) eqn:Hnum.
  { apply andb_true_iff in Hnum as [Hc9 Hnz]. bool_prop. subst cadence.
    destruct (no_training_aborts r s Ha) as [Hz _]. specialize (Hz Hnz).
    unfold recover_numerics, _lineage_action in Hd. rewrite rbind_assoc in Hd.
    apply rbind_Ok in Hd as (n & Hc & [= <-]). apply checked_Ok in Hc as [-> Hc].
    split; [done|]. left. eexists. split; [reflexivity|]. open_untouched Hu.
    split; simpl; try done; try congruence.
    right. exists "numerical-recovery-1". split; [in_list|congruence]. }
  destruct ((cadence =? 900) && negb (int r "oom_events" =? 0)) eqn:Hoom.
  { apply andb_true_iff in Hoom as [Hc9 Hnz]. bool_prop. subst cadence.
    destruct (no_training_aborts r s Ha) as [_ Hz]. destruct (Hz Hnz) as [Hz0 Heven].
    unfold recover_memory, _lineage_action in Hd. rewrite rbind_assoc in Hd.
    apply rbind_Ok in Hd as (n & Hc & [= <-]). apply checked_Ok in Hc as [-> Hc].
    split; [done|]. left. eexists. split; [reflexivity|]. open_untouched Hu.
    split; simpl; try done; try congruence.
    - split; try done. unfold effective_batch. simpl.
      pose proof (Z.div_mod (hs_microbatch_size s) 2). lia.
    - right. exists "oom-recovery-1". split; [in_list|congruence]. }
  destruct ((cadence =? 900) && negb (flag r "fresh_data_available")) eqn:Hfresh.
  { unfold replay in Hd. destruct (_ <? _).
    - apply rbind_Ok in Hd as (n & Hc & [= <-]). apply checked_Ok in Hc as [-> Hc].
      split; [done|]. left. eexists. split; [reflexivity|]. by apply (plain_acted s next).
    - injection Hd as <-. split; [done|]. left. eexists. split; [reflexivity|]. by apply (plain_acted s next). }
  destruct (cadence =? 60).
  - unfold tune_loader in Hd. destruct (_ && _) in Hd.
    + apply rbind_Ok in Hd as (n & Hc & [= <-]). apply checked_Ok in Hc as [-> Hc].
      split; [done|]. left. eexists. split; [reflexivity|]. by apply (plain_acted s next).
    + injection Hd as <-. split; [done|by right].
  - injection Hd as <-. split; [done|by right].
Qed.

(** The shape of a decision: an abort without actions, one action, or neither. *)
Definition decision_spec (r : record) (s : HealthState) (p : HealthPolicy) (d : HealthDecision) : Prop :=
  let cadence := int r "cadence_seconds" in
  let aborts := abort_reasons r s p cadence (to_float (num r "elapsed_seconds")) in
  state_ok (hd_next d) /\ carried s (hd_next d) /\
  (aborts <> [] /\ d = MkHealthDecision "abort" aborts [] (hd_next d) /\ untouched s (hd_next d) \/
   aborts = [] /\ (exists a, d = adjust a (hd_next d) /\ acted s a (hd_next d)) \/
   aborts = [] /\ d = MkHealthDecision "continue" [] [] (hd_next d) /\ untouched s (hd_next d)).

Lemma decide_cases iso r s p d : state_ok s -> decide_health iso r s p = Ok d -> decision_spec r s p d.
Proof.
  intros Hs Hd. unfold decide_health in Hd. apply rbind_Ok in Hd as ([] & _ & Hd).
  apply rbind_Ok in Hd as (next & Hn & Hd). destruct (observe_untouched r s _ next Hn Hs) as [Hu Hns].
  unfold decision_spec.
  destruct (abort_reasons r s p (int r "cadence_seconds") (to_float (num r "elapsed_seconds"))) as [|x l] eqn:Ha.
  - assert (Ht : training_aborts r s (int r "cadence_seconds") = []).
    { unfold abort_reasons in Ha. do 3 apply app_eq_nil in Ha as [_ Ha]. by apply app_eq_nil in Ha as [Ha _]. }
    destruct (choose_action_cases r s next p _ _ d Hu Hs Hns Ht Hd) as [Hok [(a & Hda & Hac)|Hc]].
    + split_and!; [done|apply Hac|]. right. left. split; [done|by exists a].
    + subst d. split_and!; [done|apply Hu|]. right. right. by split_and!.
  - injection Hd as <-. split_and!; [done|apply Hu|]. left. by split_and!.
Qed.

(** ** Totality *)

Lemma field_num r n v : field r n = JNum v -> num r n = v.
Proof. unfold num. by intros ->. Qed.

Lemma record_cadence iso r c : record_ok iso r c -> int r "cadence_seconds" = c.
Proof. intros [[Hc _] _ _ _ _ _ _ _ _ _ _ _ _]. unfold int. by rewrite Hc. Qed.

Lemma record_elapsed iso r c : record_ok iso r c ->
  num_finite (to_float (num r "elapsed_seconds")) = true /\
  nonnegative (to_float (num r "elapsed_seconds")) = true.
Proof.
  intros Hr. destruct (ro_numbers _ _ _ Hr "elapsed_seconds") as (v & Hv & Hf & Hn).
  { apply common_fields. in_list. } { in_list. }
  rewrite (field_num _ _ _ Hv). split; [by apply to_float_finite|].
  apply nonnegative_iff, to_float_nonneg. by apply nonnegative_iff.
Qed.

Lemma record_checkpoint iso r : record_ok iso r 900 -> sha256_text (text r "checkpoint_sha256") = true.
Proof.
  intros Hr. destruct (ro_digests _ _ _ Hr "checkpoint_sha256") as (x & Hx & Hs).
  { in_list. } { in_list. }
  unfold text. by rewrite Hx.
Qed.

Lemma checked_exists s : state_ok s -> checked s = Ok s.
Proof. intros Hs. by apply checked_Ok. Qed.

Lemma lineage_nonempty s suffix : hs_lineage s <> EmptyString -> hs_lineage s +:+ suffix <> EmptyString.
Proof. by destruct (hs_lineage s). Qed.

Lemma observe_total iso r s c : record_ok iso r c -> state_ok s -> exists s', observe_state r s c = Ok s'.
Proof.
  intros Hr Hs. unfold observe_state.
  assert (Hd : 0 <= density_windows r s) by (unfold density_windows; destruct Hs; case_if; lia).
  assert (H1 : exists s1, (if c =? 300 then checked (with_density (density_windows r s) s) else Ok s) = Ok s1 /\
    state_ok s1).
  { destruct (c =? 300); [|by exists s]. exists (with_density (density_windows r s) s).
    assert (state_ok (with_density (density_windows r s) s)) by (destruct Hs; by split).
    by rewrite checked_exists. }
  destruct H1 as (s1 & -> & Hs1). cbn [rbind].
  assert (H2 : exists s2, (if (c =? 900) && (flag r "checkpoint_hash_ok" && flag r "remote_checkpoint_verified")
    then checked (with_checkpoint (text r "checkpoint_sha256") s1) else Ok s1) = Ok s2 /\ state_ok s2).
  { destruct (Z.eqb_spec c 900) as [->|]; [|by exists s1]. destruct (_ && _); [|by exists s1].
    exists (with_checkpoint (text r "checkpoint_sha256") s1).
    assert (state_ok (with_checkpoint (text r "checkpoint_sha256") s1)).
    { destruct Hs1. split; try done. intros x [= <-]. by apply (record_checkpoint iso). }
    by rewrite checked_exists. }
  destruct H2 as (s2 & -> & Hs2). cbn [rbind]. destruct (_ && _); [|by exists s2].
  exists (with_spot false s2). apply checked_exists. destruct Hs2. by split.
Qed.

Lemma choose_total iso r s next p c : record_ok iso r c -> state_ok s -> state_ok next ->
  untouched s next -> training_aborts r s c = [] ->
  num_finite (num_half (hs_learning_rate s)) = true -> 0 < (dyadic (num_half (hs_learning_rate s))).1 ->
  exists d, choose_action r s next p c (to_float (num r "elapsed_seconds")) = Ok d.
Proof.
  intros Hr Hs Hn Hu Ha Hf Hp. unfold choose_action.
  destruct (_ && _ && _).
  { unfold restore_spot. rewrite checked_exists by (destruct Hn; by split). by eexists. }
  destruct (Z.eqb_spec c 900) as [->|]; cbn [andb].
  - destruct (no_training_aborts r s Ha) as [_ Hz]. destruct (negb (int r "nonfinite_count" =? 0)).
    { unfold recover_numerics, _lineage_action. rewrite checked_exists; [by eexists|].
      destruct Hn. split; simpl; try done; [by apply lineage_nonempty|by right]. }
    destruct (Z.eqb_spec (int r "oom_events") 0) as [|Hnz]; cbn [negb].
    2:{ destruct (Hz Hnz) as [_ Heven]. unfold recover_memory, _lineage_action.
        rewrite checked_exists; [by eexists|]. pose proof (so_micro _ Hs). pose proof (so_accumulation _ Hs).
        destruct Hn. split; simpl; try done; [by apply lineage_nonempty| |lia|by right].
        pose proof (Z.div_mod (hs_microbatch_size s) 2). lia. }
    destruct (negb (flag r "fresh_data_available")); cbn [andb]; [|by eexists].
    unfold replay. case_if; [|by eexists]. bool_prop.
    rewrite checked_exists; [by eexists|]. pose proof (so_views _ Hs). unfold maximum_mask_views in *.
    destruct Hn. split; simpl; try done. lia.
  - destruct (c =? 60); [|by eexists]. unfold tune_loader. destruct (_ && _); [|by eexists].
    rewrite checked_exists; [by eexists|]. pose proof (so_workers _ Hs). pose proof (so_prefetch _ Hs).
    unfold maximum_loader_workers, maximum_prefetch_factor.
    destruct Hn. split; simpl; try done; [lia|lia|]. intros t [= <-]. by apply (record_elapsed iso r c).
Qed.

(** ** Campaigns *)

(** The decisions on successive records until an abort or an exception, and the last state. *)
Fixpoint campaign (iso : string -> option (option Z)) (p : HealthPolicy) (s : HealthState)
    (rs : list record) : list HealthDecision * HealthState :=
  match rs with
  | [] => ([], s)
  | r :: rs =>
      match decide_health iso r s p with
      | Ok d =>
          if String.eqb (hd_status d) "abort" then ([d], hd_next d)
          else let '(ds, s') := campaign iso p (hd_next d) rs in (d :: ds, s')
      | Raise _ => ([], s)
      end
  end.

Definition actions_of (kind : string) (ds : list HealthDecision) : Z :=
  zsum (fun d => Z.of_nat (length (List.filter (fun a => String.eqb (pa_kind a) kind) (hd_actions d)))) ds.

Lemma carried_trans s1 s2 s3 : carried s1 s2 -> carried s2 s3 -> carried s1 s3.
Proof. intros [] []. split; congruence. Qed.

(** The recoveries a decision counts. *)
Lemma decision_counts r s p d : decision_spec r s p d ->
  actions_of numerical_kind [d] = hs_numerical_recoveries (hd_next d) - hs_numerical_recoveries s /\
  actions_of oom_kind [d] = hs_oom_recoveries (hd_next d) - hs_oom_recoveries s /\
  (length (hd_actions d) <= 1)%nat.
Proof.
  intros (_ & _ & [(_ & Hd & Hu)|[(_ & a & Hd & Ha)|(_ & Hd & Hu)]]).
  1,3: rewrite Hd at 1 3 5; unfold actions_of, zsum; simpl; open_untouched Hu; split_and!; lia.
  assert (Hac : hd_actions d = [a]) by (by rewrite Hd). destruct Ha.
  unfold actions_of, zsum. simpl. rewrite Hac. simpl.
  destruct (String.eqb (pa_kind a) numerical_kind), (String.eqb (pa_kind a) oom_kind); simpl;
    split_and!; lia.
Qed.

Lemma actions_cons kind d ds : actions_of kind (d :: ds) = actions_of kind [d] + actions_of kind ds.
Proof. unfold actions_of. rewrite !zsum_cons. unfold zsum at 2. simpl. lia. Qed.

Lemma campaign_ok iso p rs s ds s' : state_ok s -> campaign iso p s rs = (ds, s') ->
  state_ok s' /\ carried s s' /\
  actions_of numerical_kind ds = hs_numerical_recoveries s' - hs_numerical_recoveries s /\
  actions_of oom_kind ds = hs_oom_recoveries s' - hs_oom_recoveries s /\
  Forall (fun d => (length (hd_actions d) <= 1)%nat) ds.
Proof.
  revert s ds s'; induction rs as [|r rs IH]; intros s ds s' Hs; cbn [campaign].
  { intros [= <- <-]. split_and!; try done; unfold actions_of, zsum; simpl; lia. }
  destruct (decide_health iso r s p) as [d|e] eqn:Hd.
  2:{ intros [= <- <-]. split_and!; try done; unfold actions_of, zsum; simpl; lia. }
  pose proof (decide_cases iso r s p d Hs Hd) as Hspec.
  destruct (decision_counts r s p d Hspec) as (Hn & Ho & Hl). destruct Hspec as (Hok & Hc & _).
  destruct (String.eqb (hd_status d) "abort").
  { intros [= <- <-]. split_and!; try done. by constructor. }
  destruct (campaign iso p (hd_next d) rs) as [ds' s2] eqn:Hcamp. intros [= <- <-].
  destruct (IH _ _ _ Hok Hcamp) as (Hok2 & Hc2 & Hn2 & Ho2 & Hf2).
  rewrite !(actions_cons _ d ds'). split_and!; [done|by eapply carried_trans|lia|lia|by constructor].
Qed.

(** ** Properties *)

(** Validation accepts exactly the schema. A record passes if and only if its cadence is
    one of the five, every field required for that cadence is present, and each field has the
    type and range its name calls for: the version, the nonempty names, the digests, the UTC
    timestamp, booleans, integers, finite nonnegative numbers, fractions and alert rates. *)
Theorem validate_exact (iso : string -> option (option Z)) (r : record) :
  validate_health_record iso r = Ok tt <-> exists c, record_ok iso r c.
Proof. apply validate_ok. Qed.

(** C39: a decision is one bounded step. For a valid state, a decision is an abort with every
    applicable reason and no action, or exactly one action, or nothing; it never changes the
    campaign's identity or the effective batch, its next state is valid again, an action names
    the lineage it starts from and the one it leads to, and a recovery happens only when none
    of its kind happened before, halving the learning rate or the microbatch exactly. *)
Theorem decision_bounded (iso : string -> option (option Z)) (r : record) (s : HealthState)
  (p : HealthPolicy) (d : HealthDecision)
  (Hs : check_state s = Ok tt) (Hd : decide_health iso r s p = Ok d) :
  check_state (hd_next d) = Ok tt /\ decision_spec r s p d.
Proof.
  apply check_state_iff in Hs. pose proof (decide_cases iso r s p d Hs Hd) as Hspec.
  split; [apply check_state_iff, Hspec|done].
Qed.

(** The policy always answers. For a valid record and a valid state whose learning rate
    can still be halved to a positive number, the policy returns a decision; the state it
    builds never fails its own checks. *)
Theorem decision_total (iso : string -> option (option Z)) (r : record) (s : HealthState)
  (p : HealthPolicy) (Hr : validate_health_record iso r = Ok tt) (Hs : check_state s = Ok tt)
  (Hrate : num_finite (num_half (hs_learning_rate s)) = true /\
           0 < (dyadic (num_half (hs_learning_rate s))).1) :
  exists d, decide_health iso r s p = Ok d.
Proof.
  apply check_state_iff in Hs. unfold decide_health. rewrite Hr. cbn [rbind].
  apply validate_ok in Hr as [c Hr]. rewrite (record_cadence iso r c Hr).
  destruct (observe_total iso r s c Hr Hs) as [next Hn]. rewrite Hn. cbn [rbind].
  destruct (observe_untouched r s c next Hn Hs) as [Hu Hns].
  destruct (abort_reasons r s p c (to_float (num r "elapsed_seconds"))) as [|x l] eqn:Ha; [|by eexists].
  apply (choose_total iso); try done; [|apply Hrate..].
  unfold abort_reasons in Ha. do 3 apply app_eq_nil in Ha as [_ Ha]. by apply app_eq_nil in Ha as [Ha _].
Qed.

(** Recoveries are bounded over a whole campaign. Whatever records arrive, until the
    first abort or rejected record: at most one numerical recovery and at most one
    out-of-memory recovery are ordered, no decision orders two actions, and the campaign's
    identity and effective batch at the end are those of the beginning. *)
Theorem campaign_bounded (iso : string -> option (option Z)) (p : HealthPolicy) (s s' : HealthState)
  (rs : list record) (ds : list HealthDecision)
  (Hs : check_state s = Ok tt) (Hc : campaign iso p s rs = (ds, s')) :
  actions_of numerical_kind ds <= 1 /\ actions_of oom_kind ds <= 1 /\
  Forall (fun d => (length (hd_actions d) <= 1)%nat) ds /\ carried s s' /\ check_state s' = Ok tt.
Proof.
  apply check_state_iff in Hs. destruct (campaign_ok iso p rs s ds s' Hs Hc) as (Hok & Hca & Hn & Ho & Hf).
  pose proof (so_numerical _ Hs). pose proof (so_numerical _ Hok).
  pose proof (so_oom _ Hs). pose proof (so_oom _ Hok).
  split_and!; [lia|lia|done|done|by apply check_state_iff].
Qed.

(** ** Concrete records *)

Definition digest : string := "0123456789abcdef0123456789abcdef0123456789abcdef0123456789abcdef".

Definition common (cadence : Z) (elapsed : pynum) (lineage : string) (status : json) : record :=
  [("schema_version", JNum (NInt 1)); ("run_id", JStr "run"); ("subject_sha256", JStr digest);
   ("capture_sha256", JStr digest); ("lineage_id", JStr lineage);
   ("timestamp_utc", JStr "2026-01-01T00:00:00Z"); ("elapsed_seconds", JNum elapsed);
   ("cadence_seconds", JNum (NInt cadence)); ("status", status); ("reasons", JArr [])].

(** A training record with out-of-memory events. *)
Definition oom_record (lineage : string) (elapsed : pynum) : record :=
  common 900 elapsed lineage (JStr "running") ++
  ((fun n => (n, JNum (NInt 1))) <$>
     ["global_step"; "unique_executions"; "mask_views_used"; "replay_ratio"; "total_loss"; "pt_loss";
      "pebs_loss"; "pmu_loss"; "gradient_norm"; "parameter_norm"; "tokens_per_second";
      "remote_checkpoint_age_seconds"; "oom_events"]) ++
  [("nonfinite_count", JNum (NInt 0)); ("checkpoint_sha256", JStr digest);
   ("checkpoint_hash_ok", JBool true); ("remote_checkpoint_verified", JBool true);
   ("fresh_data_available", JBool true)].

(** Every text is read as a UTC time. *)
Definition any_time (s : string) : option (option Z) := Some (Some 0).

Definition example_state : HealthState :=
  MkHealthState digest digest digest "root" 4 2 8 4 half 1 0 0 0 None None false.
Definition example_policy : HealthPolicy := MkHealthPolicy (NInt 1000) half fifth.

Lemma oom_decision : exists d, decide_health any_time (oom_record "root" (NInt 100)) example_state
    example_policy = Ok d /\ hs_microbatch_size (hd_next d) = 4 /\ hs_accumulation (hd_next d) = 8 /\
  hs_lineage (hd_next d) = "root/oom-recovery-1".
Proof. eexists. split; [vm_compute; reflexivity|]. split_and!; reflexivity. Qed.

Lemma validate_exact_witness :
  exists c, record_ok any_time (oom_record "root" (NInt 100)) c.
Proof.
  apply (validate_exact any_time (oom_record "root" (NInt 100))). vm_compute. reflexivity.
Defined.

Lemma decision_bounded_witness :
  exists d, decide_health any_time (oom_record "root" (NInt 100)) example_state example_policy = Ok d /\
    check_state (hd_next d) = Ok tt /\ effective_batch (hd_next d) = 32.
Proof.
  destruct oom_decision as (d & Hd & Hm & Ha & _). exists d.
  destruct (decision_bounded any_time (oom_record "root" (NInt 100)) example_state example_policy d
    ltac:(vm_compute; reflexivity) Hd) as [Hc _].
  split; [exact Hd|split; [exact Hc|]]. unfold effective_batch. rewrite Hm, Ha. reflexivity.
Defined.

Lemma decision_total_witness :
  exists d, decide_health any_time (oom_record "root" (NInt 100)) example_state example_policy = Ok d.
Proof.
  apply (decision_total any_time (oom_record "root" (NInt 100)) example_state example_policy);
    [vm_compute; reflexivity|vm_compute; reflexivity|split; vm_compute; reflexivity].
Defined.

(** A second out-of-memory event, after the recovery, aborts the campaign. *)
Lemma campaign_bounded_witness :
  exists ds s', campaign any_time example_policy example_state
      [oom_record "root" (NInt 100); oom_record "root/oom-recovery-1" (NInt 1000);
       oom_record "root/oom-recovery-1" (NInt 2000)] = (ds, s') /\
    hd_status <$> ds = ["adjust"; "abort"] /\ actions_of oom_kind ds <= 1.
Proof.
  set (rs := [oom_record "root" (NInt 100); oom_record "root/oom-recovery-1" (NInt 1000);
    oom_record "root/oom-recovery-1" (NInt 2000)]).
  destruct (campaign any_time example_policy example_state rs) as [ds s'] eqn:Hc.
  exists ds, s'. split; [reflexivity|].
  destruct (campaign_bounded any_time example_policy example_state s' rs ds
    ltac:(vm_compute; reflexivity) Hc) as (_ & Ho & _).
  split; [|exact Ho]. apply (f_equal fst) in Hc. change ds with (fst (ds, s')). rewrite <- Hc.
  vm_compute. reflexivity.
Defined.

(** Two records whose failures are not reported as a [HealthRecordError]: an integer too
    large for a float, and a status that is not hashable. *)
Lemma validation_escapes :
  validate_health_record any_time (oom_record "root" (NInt (10 ^ 400))) =
    throw OverflowError "int too large to convert to float" /\
  validate_health_record any_time (common 900 (NInt 100) "root" (JArr [])) =
    throw TypeError "unhashable type".
Proof. split; vm_compute; reflexivity. Qed.
