(* ===== verification/WindowsHardware.v ===== *)
(** * Windows WPR captures ([windows_hardware.py])

    The configuration check, the recorder profile as XML text, and the
    lifecycle of [WprCapture]: a temporary directory holds the profile and the
    exported trace, and [wpr] is run to start, stop or cancel the one recording
    session of the host. What [wpr] answers is a parameter; [Recorder] is the
    documented behaviour the theorems rely on. *)

From Stdlib Require Import Ascii.
From S2P Require Import Prelude Monad Batch HardwareDecode HardwareConfig.

Record WprConfig := MkWprConfig {
  wc_signal : string;
  wc_code_mode : string;
  wc_buffer_kb : Z;
  wc_buffers : Z;
  wc_period : Z;
}.

Definition check_wpr_config (c : WprConfig) : result unit :=
  raise! ValueError "Unknown WPR hardware signal"
    when negb (one_of (wc_signal c) ["cycles"; "instructions"; "processor_trace"]) in
  raise! ValueError "Unknown processor-trace code mode"
    when negb (one_of (wc_code_mode c) ["User"; "Kernel"; "UserKernel"]) in
  raise! ValueError "WPR PMU sampling cannot restrict code mode at capture"
    when negb (String.eqb (wc_signal c) "processor_trace") &&
         negb (String.eqb (wc_code_mode c) "UserKernel") in
  raise! ValueError "WPR buffers and sampling period must be positive"
    when (wc_buffer_kb c <=? 0) || (wc_buffers c <=? 0) || (wc_period c <=? 0) in
  Ok tt.

Record WprBatch := MkWprBatch {
  wb_signal : string;
  wb_etl_bytes : tensor;
  wb_complete : bool;
}.

(** ** The profile *)

(** Literal XML: an apostrophe stands for the double quote of the source text. *)
Fixpoint xml (s : string) : string :=
  match s with
  | EmptyString => EmptyString
  | String c s => String (if Ascii.eqb c "'" then "034"%char else c) (xml s)
  end.

Definition _profile (c : WprConfig) : string :=
  let '(counter, keyword) :=
    if String.eqb (wc_signal c) "processor_trace" then
      (xml "<ProcessorTrace><BufferSize Value='32' />" +:+
       xml "<CodeMode Value='" +:+ wc_code_mode c +:+ xml "' />" +:+
       xml "<Events><Event Value='SampledProfile' /></Events>" +:+
       xml "</ProcessorTrace>", "SampledProfile")
    else
      let name := if String.eqb (wc_signal c) "cycles" then "TotalCycles" else "InstructionRetired" in
      (xml "<SampledCounters><SampledCounter " +:+
       xml "Value='" +:+ name +:+ xml "' Interval='" +:+ pretty (wc_period c) +:+ xml "' />" +:+
       xml "</SampledCounters>", "PmcProfile") in
  xml "<?xml version='1.0' encoding='utf-8'?>
<WindowsPerformanceRecorder Version='1.0' Author='cpu2tensor'>
  <Profiles>
    <SystemCollector Id='Cpu2TensorCollector' Name='NT Kernel Logger'>
      <BufferSize Value='" +:+ pretty (wc_buffer_kb c) +:+ xml "' />
      <Buffers Value='" +:+ pretty (wc_buffers c) +:+ xml "' />
    </SystemCollector>
    <SystemProvider Id='Cpu2TensorSystem'>
      <Keywords>
        <Keyword Value='ProcessThread' />
        <Keyword Value='Loader' />
        <Keyword Value='" +:+ keyword +:+ xml "' />
      </Keywords>
    </SystemProvider>
    <HardwareCounter Id='Cpu2TensorCounter'>" +:+ counter +:+ xml "</HardwareCounter>
    <Profile Id='Cpu2Tensor.Verbose.File' Name='Cpu2Tensor'
             Description='cpu2tensor hardware capture' DetailLevel='Verbose'
             LoggingMode='File'>
      <Collectors><SystemCollectorId Value='Cpu2TensorCollector'>
        <SystemProviderId Value='Cpu2TensorSystem' />
        <HardwareCounterId Value='Cpu2TensorCounter' />
      </SystemCollectorId></Collectors>
    </Profile>
    <Profile Id='Cpu2Tensor.Verbose.Memory' Name='Cpu2Tensor'
             Description='cpu2tensor hardware capture' DetailLevel='Verbose'
             LoggingMode='Memory' Base='Cpu2Tensor.Verbose.File' />
  </Profiles>
</WindowsPerformanceRecorder>
".

(** ** The host *)

Inductive content := Text (s : string) | Bytes (bs : list Z).

(** A file of a temporary directory. *)
Record path := MkPath { p_dir : nat; p_name : string }.

Inductive command := Start (profile : path) | Stop (output : path) | Cancel.

(** What running [wpr] comes to: the [OSError] of a missing program, or an exit code with its
    output, whether a session is recording afterwards, and the bytes exported to the named file. *)
Inductive wpr_reply :=
  | Unavailable
  | Exited (code : Z) (stdout stderr : string) (recording : bool) (etl : option (list Z)).

Record windows := MkWindows {
  wm_windows : bool;
  wm_fails : nat -> option exn;
  wm_wpr : nat -> list string -> bool -> wpr_reply;
  wm_dir_name : nat -> string;
}.

(** [w_runs]: every command run, with the file it named as it was then. *)
Record world := MkWorld {
  w_calls : nat;
  w_next : nat;
  w_dirs : gmap nat (gmap string content);
  w_recording : bool;
  w_runs : list (command * option content);
}.
Definition new_world : world := MkWorld 0 0 ∅ false [].

Record WprCapture := MkWprCapture {
  cp_directory : option nat;
  cp_started : bool;
  cp_stopped : bool;
  cp_world : world;
}.

Section wpr.
Context (m : windows) (c : WprConfig).
Notation M := (sx WprCapture exn).

Definition on_world (w : world) (s : WprCapture) : WprCapture :=
  MkWprCapture (cp_directory s) (cp_started s) (cp_stopped s) w.
Definition set_directory (d : option nat) (s : WprCapture) : WprCapture :=
  MkWprCapture d (cp_started s) (cp_stopped s) (cp_world s).
Definition set_wpr_started (b : bool) (s : WprCapture) : WprCapture :=
  MkWprCapture (cp_directory s) b (cp_stopped s) (cp_world s).
Definition set_wpr_stopped (s : WprCapture) : WprCapture :=
  MkWprCapture (cp_directory s) (cp_started s) true (cp_world s).
Definition in_world {A} (x : sx world exn A) : M A := szoom cp_world on_world x.

(** [WprCapture.__init__] *)
Definition new_wpr : result WprCapture :=
  raise! HardwareCaptureError "WPR capture requires Windows" when negb (wm_windows m) in
  Ok (MkWprCapture None false false new_world).

(** A call that may fail. *)
Definition wcall (f : world -> world) : sx world exn unit := fun w =>
  let tick w := MkWorld (S (w_calls w)) (w_next w) (w_dirs w) (w_recording w) (w_runs w) in
  match wm_fails m (w_calls w) with
  | Some e => (tick w, Raise e)
  | None => (tick (f w), Ok tt)
  end.

Definition set_dirs (d : gmap nat (gmap string content)) (w : world) : world :=
  MkWorld (w_calls w) (w_next w) d (w_recording w) (w_runs w).

(** [TemporaryDirectory(prefix=...)] and its [cleanup()]. *)
Definition TemporaryDirectory : sx world exn nat :=
  do! d := sgets w_next in
  run! wcall (fun w => MkWorld (w_calls w) (S d) (<[d := ∅]> (w_dirs w)) (w_recording w) (w_runs w)) in
  sret d.
Definition cleanup (d : nat) (w : world) : world := set_dirs (delete d (w_dirs w)) w.

Definition put_file (p : path) (x : content) (w : world) : world :=
  set_dirs (alter (fun files => <[p_name p := x]> files) (p_dir p) (w_dirs w)) w.
Definition get_file (p : path) (w : world) : option content :=
  w_dirs w !! p_dir p ≫= fun files => files !! p_name p.

(** [with profile.open("w") as file: file.write(text); file.flush(); os.fsync(...)] *)
Definition write_text (p : path) (text : string) : sx world exn unit :=
  run! wcall (put_file p (Text EmptyString)) in
  run! wcall id in
  run! wcall (put_file p (Text text)) in
  wcall id.

Definition content_bytes (x : content) : list Z :=
  match x with
  | Bytes bs => bs
  | Text s => Z.of_nat ∘ nat_of_ascii <$> String.list_ascii_of_string s
  end.

(** [path.read_bytes()] *)
Definition read_bytes (p : path) : sx world exn (list Z) :=
  run! wcall id in
  do! x := sgets (get_file p) in
  match x with
  | Some x => sret (content_bytes x)
  | None => sraise (Exn OSError "No such file or directory")
  end.

Definition render_path (p : path) : string := wm_dir_name m (p_dir p) +:+ "\" +:+ p_name p.

(** The arguments of each command. *)
Definition arguments (x : command) : list string :=
  match x with
  | Start profile => ["-start"; render_path profile +:+ "!Cpu2Tensor.Verbose"]
  | Stop output => ["-stop"; render_path output]
  | Cancel => ["-cancel"]
  end.

Definition named_file (x : command) (w : world) : option content :=
  match x with Start p | Stop p => get_file p w | Cancel => None end.

Definition _run_wpr (x : command) : sx world exn unit := fun w =>
  let runs := w_runs w ++ [(x, named_file x w)] in
  match wm_wpr m (w_calls w) (arguments x) (w_recording w) with
  | Unavailable =>
      (MkWorld (S (w_calls w)) (w_next w) (w_dirs w) (w_recording w) runs,
       throw HardwareCaptureError "Windows Performance Recorder is unavailable")
  | Exited code stdout stderr recording etl =>
      let w := MkWorld (S (w_calls w)) (w_next w) (w_dirs w) recording runs in
      let w := match x, etl with
               | Stop output, Some bs => put_file output (Bytes bs) w
               | _, _ => w
               end in
      (w, raise! HardwareCaptureError
            ("WPR failed: " +:+ strip (if String.eqb stderr EmptyString then stdout else stderr))
            when negb (code =? 0) in Ok tt)
  end.

Definition cancel_session : M unit :=
  do! started := sgets cp_started in
  if started then run! in_world (_run_wpr Cancel) in smodify (set_wpr_started false) else sret tt.

Definition release_directory (s : WprCapture) : WprCapture :=
  match cp_directory s with
  | Some d => set_directory None (on_world (cleanup d (cp_world s)) s)
  | None => s
  end.

Definition wpr_close : M unit := sfinally cancel_session release_directory.

(** Binding [self._directory] drops the object it held, whose finalizer removes its directory. *)
Definition bind_directory (d : nat) (s : WprCapture) : WprCapture :=
  set_directory (Some d) (release_directory s).

Definition wpr_enter : M unit :=
  do! s := sgets id in
  if cp_started s || cp_stopped s then
    sraise (Exn RuntimeError "Create a new WprCapture for each run")
  else
  do! d := in_world TemporaryDirectory in
  run! smodify (bind_directory d) in
  let profile := MkPath d "hardware.wprp" in
  run! in_world (write_text profile (_profile c)) in
  run! scatch (in_world (_run_wpr (Start profile)))
    (fun e => run! wpr_close in sraise e) in
  smodify (set_wpr_started true).

Definition wpr_stop : M WprBatch :=
  do! s := sgets id in
  match cp_directory s with
  | Some d =>
      if negb (cp_started s) || cp_stopped s then
        sraise (Exn RuntimeError "Capture must be running and stopped only once")
      else
      run! smodify set_wpr_stopped in
      let output := MkPath d "capture.etl" in
      run! in_world (_run_wpr (Stop output)) in
      run! smodify (set_wpr_started false) in
      do! contents := in_world (read_bytes output) in
      match contents with
      | [] => sraise (Exn HardwareCaptureError "WPR produced an empty ETL")
      | _ => do! t := slift (frombuffer contents uint8) in sret (MkWprBatch (wc_signal c) t false)
      end
  | None => sraise (Exn RuntimeError "Capture must be running and stopped only once")
  end.

(** ** The recorder *)

(** A start that fails leaves the recorder as it was; a stop or a cancel that succeeds ends
    the session. *)
Class Recorder : Prop := {
  start_failed n p r code out err r' etl :
    wm_wpr m n (arguments (Start p)) r = Exited code out err r' etl -> code <> 0 -> r' = r;
  stop_ends n p r out err r' etl :
    wm_wpr m n (arguments (Stop p)) r = Exited 0 out err r' etl -> r' = false;
  cancel_ends n r out err r' etl :
    wm_wpr m n (arguments Cancel) r = Exited 0 out err r' etl -> r' = false;
}.

(** Two worlds with the same directories, session and history. *)
Record same_world (w w' : world) : Prop := {
  sw_next : w_next w' = w_next w;
  sw_dirs : dom (w_dirs w') = dom (w_dirs w);
  sw_recording : w_recording w' = w_recording w;
  sw_runs : w_runs w' = w_runs w;
}.

#[local] Instance same_world_preorder : PreOrder same_world.
Proof.
  split; [by intros w; split|]. intros w1 w2 w3 [] []. split; etransitivity; eauto.
Qed.

Lemma put_file_same p x w : same_world w (put_file p x w).
Proof. split; try done. simpl. apply dom_alter_L. Qed.

Lemma wcall_wp f w (Q : world -> Prop) :
  (forall w', same_world (f w) w' -> w_dirs w' = w_dirs (f w) -> Q w') ->
  wp (wcall f) (fun _ => Q) (fun _ w' => same_world w w') w.
Proof. intros HQ. unfold wp, wcall. destruct (wm_fails m (w_calls w)); [by split|]. by apply HQ. Qed.

Lemma get_put_file p x w : p_dir p ∈ dom (w_dirs w) -> get_file p (put_file p x w) = Some x.
Proof.
  intros [files Hf]%elem_of_dom. unfold get_file, put_file. simpl.
  rewrite lookup_alter_eq, Hf. simpl. by rewrite lookup_insert_eq.
Qed.

Lemma write_text_wp p text w : p_dir p ∈ dom (w_dirs w) ->
  wp (write_text p text) (fun _ w' => same_world w w' /\ get_file p w' = Some (Text text))
    (fun _ w' => same_world w w') w.
Proof.
  intros Hd. unfold write_text.
  assert (Hput : forall x w1 w2, same_world w w1 -> same_world (put_file p x w1) w2 -> same_world w w2).
  { intros x w1 w2 H1 H2. etrans; [exact H1|]. etrans; [apply put_file_same|exact H2]. }
  apply wp_bind, wcall_wp. intros w1 H1 _. apply Hput in H1; [|done].
  apply wp_bind. eapply wp_mono; [apply (wcall_wp id w1 (same_world w))| |].
  { intros w2 H2 _. by etrans. }
  2:{ intros e w2 H2. by etrans. }
  intros [] w2 H2. apply wp_bind.
  eapply wp_mono; [apply (wcall_wp _ w2 (fun w3 => same_world w w3 /\ get_file p w3 = Some (Text text)))| |].
  { intros w3 H3 E3. split; [by eapply Hput|]. unfold get_file. rewrite E3. apply get_put_file.
    by rewrite (sw_dirs _ _ H2). }
  2:{ intros e w3 H3. by etrans. }
  intros [] w3 [H3 E3].
  eapply wp_mono; [apply (wcall_wp id w3 (fun w4 => same_world w w4 /\ get_file p w4 = Some (Text text)))|done|].
  { intros w4 H4 E4. split; [by etrans|]. unfold get_file in *. by rewrite E4. }
  intros e w4 H4. by etrans.
Qed.

(** What a run of [wpr] changes besides the session. *)
Record ran (x : command) (w w' : world) : Prop := {
  rn_next : w_next w' = w_next w;
  rn_dirs : dom (w_dirs w') = dom (w_dirs w);
  rn_runs : w_runs w' = w_runs w ++ [(x, named_file x w)];
}.

Definition is_start (x : command) : bool := match x with Start _ => true | _ => false end.

Lemma run_wpr_wp `{!Recorder} x w :
  wp (_run_wpr x)
    (fun _ w' => ran x w w' /\ (is_start x = false -> w_recording w' = false))
    (fun _ w' => ran x w w' /\ (is_start x = true -> w_recording w' = w_recording w)) w.
Proof.
  unfold wp, _run_wpr.
  destruct (wm_wpr m (w_calls w) (arguments x) (w_recording w)) as [|code out err r' etl] eqn:Hw;
    [by split|].
  set (w1 := match x, etl with Stop output, Some bs => _ | _, _ => _ end).
  assert (Hran : ran x w w1 /\ w_recording w1 = r').
  { subst w1. destruct x, etl; split; try done. split; try done. simpl. apply dom_alter_L. }
  destruct Hran as [Hran Hr]. destruct (code =? 0) eqn:Hc; simpl; (split; [done|]); rewrite Hr.
  - apply Z.eqb_eq in Hc as ->. destruct x; simpl; intros; [done|by eapply stop_ends|by eapply cancel_ends].
  - apply Z.eqb_neq in Hc. destruct x; simpl; intros; [|done|done]. by eapply start_failed.
Qed.

(** ** The lifecycle *)

(** When recording was started, its profile was on disk. *)
Definition committed (run : command * option content) : Prop :=
  is_start run.1 = true -> run.2 = Some (Text (_profile c)).

Record wpr_ok (s : WprCapture) : Prop := {
  ok_dirs : dom (w_dirs (cp_world s)) = match cp_directory s with Some d => {[d]} | None => ∅ end;
  ok_next d : cp_directory s = Some d -> (d < w_next (cp_world s))%nat;
  ok_session : w_recording (cp_world s) = true -> cp_started s = true;
  ok_runs : Forall committed (w_runs (cp_world s));
}.

Lemma release_ok s : wpr_ok s -> wpr_ok (release_directory s) /\
  cp_directory (release_directory s) = None /\ cp_started (release_directory s) = cp_started s /\
  cp_stopped (release_directory s) = cp_stopped s /\
  w_recording (cp_world (release_directory s)) = w_recording (cp_world s).
Proof.
  intros Hok. unfold release_directory. destruct (cp_directory s) as [d|] eqn:Hd; [|by split_and!].
  split_and!; try done. destruct Hok. split; try done. simpl. rewrite dom_delete_L, ok_dirs0, Hd. set_solver.
Qed.

Lemma in_world_wp {A} (x : sx world exn A) (Q : A -> world -> Prop) (R : exn -> world -> Prop) s :
  wp x Q R (cp_world s) ->
  wp (in_world x) (fun a s' => Q a (cp_world s') /\ s' = on_world (cp_world s') s)
    (fun e s' => R e (cp_world s') /\ s' = on_world (cp_world s') s) s.
Proof. intros Hw. apply wp_zoom. eapply wp_mono; [exact Hw|..]; intros; by split. Qed.

Lemma same_ok s w : wpr_ok s -> same_world (cp_world s) w -> wpr_ok (on_world w s).
Proof.
  intros [] [En Ed Er El]. split; simpl; rewrite ?En, ?Ed, ?Er, ?El; done.
Qed.

(** A run of [wpr] that started nothing unannounced keeps the invariant. *)
Lemma ran_ok x s w : wpr_ok s -> ran x (cp_world s) w -> committed (x, named_file x (cp_world s)) ->
  (w_recording w = true -> cp_started s = true) -> wpr_ok (on_world w s).
Proof.
  intros [] [En Ed El] Hc Hr. split; simpl; rewrite ?En, ?Ed, ?El; try done.
  apply Forall_app. split; [done|]. by constructor.
Qed.

(** The capture's flags and directory, as [close] leaves them. *)
Definition closed_as (started : bool) (s s' : WprCapture) : Prop :=
  wpr_ok s' /\ cp_directory s' = None /\ cp_started s' = started /\ cp_stopped s' = cp_stopped s.

Lemma wpr_close_wp `{!Recorder} s : wpr_ok s ->
  wp wpr_close (fun _ s' => closed_as false s s') (fun _ s' => closed_as true s s' /\ cp_started s = true) s.
Proof.
  intros Hok. apply wp_finally. unfold cancel_session. apply wp_bind, wp_gets.
  assert (Hrel : forall s', wpr_ok s' -> cp_stopped s' = cp_stopped s ->
    closed_as (cp_started s') s (release_directory s')).
  { intros s' Hs' He. destruct (release_ok s' Hs') as (H1 & H2 & H3 & H4 & _).
    split_and!; [done|done|done|by rewrite H4]. }
  destruct (cp_started s) eqn:Hs; [|apply wp_ret; rewrite <- Hs; by apply Hrel].
  apply wp_bind. eapply wp_mono; [apply in_world_wp, (run_wpr_wp Cancel)|..].
  - intros [] s' [[Hran Hr] ->]. apply wp_modify. specialize (Hr eq_refl). simpl in *.
    apply (Hrel (set_wpr_started false (on_world (cp_world s') s))); [|done].
    destruct Hok, Hran. split; simpl; rewrite ?rn_next0, ?rn_dirs0, ?rn_runs0, ?Hr; try done.
    apply Forall_app. split; [done|]. by constructor.
  - intros e s' [[Hran _] ->]. simpl in *. split; [|done].
    pose proof (Hrel (on_world (cp_world s') s)) as Hr'. simpl in Hr'. rewrite Hs in Hr'. apply Hr'; [|done].
    apply (ran_ok Cancel); [done|done|done|by rewrite Hs].
Qed.

Lemma temporary_directory_ok s : wpr_ok s ->
  wp (in_world TemporaryDirectory)
    (fun d s' => wpr_ok (bind_directory d s') /\ d ∈ dom (w_dirs (cp_world (bind_directory d s'))) /\
       cp_started s' = cp_started s /\ cp_stopped s' = cp_stopped s)
    (fun _ s' => wpr_ok s' /\ cp_started s' = cp_started s /\ cp_stopped s' = cp_stopped s) s.
Proof.
  intros Hok. apply wp_zoom. unfold TemporaryDirectory. apply wp_bind, wp_gets, wp_bind.
  eapply wp_mono; [apply (wcall_wp _ _ (fun w => w_next w = S (w_next (cp_world s)) /\
    dom (w_dirs w) = {[w_next (cp_world s)]} ∪ dom (w_dirs (cp_world s)) /\
    w_recording w = w_recording (cp_world s) /\ w_runs w = w_runs (cp_world s)))|..].
  - intros w [En Ed Er El] _. simpl in *. rewrite En, Ed, Er, El. by rewrite dom_insert_L.
  - intros [] w (En & Ed & Er & El). apply wp_ret. set (d := w_next (cp_world s)) in *.
    pose proof (ok_next s Hok) as Hn. destruct Hok. unfold bind_directory, release_directory. simpl.
    destruct (cp_directory s) as [d0|] eqn:Hd; simpl.
    + specialize (Hn d0 eq_refl). rewrite ok_dirs0 in Ed.
      split_and!; [split; simpl; rewrite ?dom_delete_L, ?En, ?Ed, ?Er, ?El; try done| |done|done].
      * subst d. apply leibniz_equiv. intros x. rewrite elem_of_difference, elem_of_union, !elem_of_singleton.
        lia.
      * intros ? [= <-]. lia.
      * rewrite dom_delete_L, Ed. subst d. set_unfold. lia.
    + rewrite ok_dirs0 in Ed.
      split_and!; [split; simpl; rewrite ?En, ?Ed, ?Er, ?El; try done| |done|done].
      * set_solver.
      * intros ? [= <-]. lia.
      * rewrite Ed. set_solver.
  - intros e w Hw. split_and!; [by apply same_ok|done|done].
Qed.

Lemma wpr_enter_wp `{!Recorder} s : wpr_ok s ->
  wp wpr_enter (fun _ s' => wpr_ok s' /\ cp_started s' = true /\ cp_stopped s' = cp_stopped s)
    (fun _ s' => wpr_ok s' /\ cp_started s' = cp_started s /\ cp_stopped s' = cp_stopped s) s.
Proof.
  intros Hok. unfold wpr_enter. apply wp_bind, wp_gets. unfold id. apply wp_if; intros Hg; [by apply wp_raise|].
  apply orb_false_iff in Hg as [Hst _].
  apply wp_bind. eapply wp_mono; [by apply temporary_directory_ok| |done].
  intros d s1 (Hok1 & Hd & Es & Ep). apply wp_bind, wp_modify. set (s2 := bind_directory d s1) in *.
  assert (E2 : cp_started s2 = false /\ cp_stopped s2 = cp_stopped s).
  { rewrite <- Ep, <- Hst, <- Es. subst s2. unfold bind_directory, release_directory.
    by destruct (cp_directory s1). }
  destruct E2 as [E2 E2']. apply wp_bind.
  eapply wp_mono; [by apply in_world_wp, (write_text_wp (MkPath d "hardware.wprp") (_profile c))|..].
  - intros [] s3 [[Hw Hf] Hs3]. apply wp_bind, wp_catch.
    assert (Hok3 : wpr_ok s3) by (rewrite Hs3; by apply same_ok).
    eapply wp_mono; [apply in_world_wp, (run_wpr_wp (Start (MkPath d "hardware.wprp")))|..].
    + intros [] s4 [[Hran _] Hs4]. apply wp_modify.
      assert (Hok4 : wpr_ok (on_world (cp_world s4) (set_wpr_started true s3))).
      { apply (ran_ok (Start (MkPath d "hardware.wprp"))); [|done|by intros _|done].
        destruct Hok3. by split. }
      split_and!; [by rewrite Hs4 at 1|done|]. rewrite Hs4, Hs3. done.
    + intros e s4 [[Hran Hr] Hs4]. specialize (Hr eq_refl).
      assert (Hok4 : wpr_ok s4).
      { rewrite Hs4. apply (ran_ok (Start (MkPath d "hardware.wprp"))); [done|done|by intros _|].
        rewrite Hr. apply (ok_session _ Hok3). }
      assert (E4 : cp_started s4 = false /\ cp_stopped s4 = cp_stopped s) by (rewrite Hs4, Hs3; done).
      destruct E4 as [E4 E4']. apply wp_bind. eapply wp_mono; [by apply wpr_close_wp|..].
      * intros [] s5 (Hok5 & _ & E5 & E5'). apply wp_raise. split_and!; [done|congruence|congruence].
      * intros e' s5 [_ E5]. congruence.
  - intros e s3 [Hw Hs3]. rewrite Hs3. split_and!; [by apply same_ok|by transitivity (cp_started s2); [|rewrite E2]|done].
Qed.

(** What a stopped capture returns. *)
Definition exported (s s' : WprCapture) (b : WprBatch) : Prop :=
  wb_signal b = wc_signal c /\ wb_complete b = false /\
  exists d x, cp_directory s = Some d /\
    get_file (MkPath d "capture.etl") (cp_world s') = Some x /\
    content_bytes x <> [] /\
    wb_etl_bytes b = Tensor uint8 cpu [length (content_bytes x)] (content_bytes x).

Lemma wpr_stop_wp `{!Recorder} s : wpr_ok s ->
  wp wpr_stop
    (fun b s' => wpr_ok s' /\ cp_started s = true /\ cp_started s' = false /\ cp_stopped s' = true /\
       w_recording (cp_world s') = false /\ exported s s' b)
    (fun _ s' => wpr_ok s' /\ (s' = s \/ cp_stopped s' = true)) s.
Proof.
  intros Hok. unfold wpr_stop. apply wp_bind, wp_gets. unfold id.
  destruct (cp_directory s) as [d|] eqn:Hd; [|apply wp_raise; auto].
  apply wp_if; intros Hg; [apply wp_raise; auto|]. apply orb_false_iff in Hg as [Hst Hsp].
  apply negb_false_iff in Hst. apply wp_bind, wp_modify, wp_bind.
  assert (Hok1 : wpr_ok (set_wpr_stopped s)) by (destruct Hok; by split).
  eapply wp_mono; [apply in_world_wp, (run_wpr_wp (Stop (MkPath d "capture.etl")))|..].
  - intros [] s2 [[Hran Hr] Hs2]. specialize (Hr eq_refl). simpl in Hran.
    apply wp_bind, wp_modify, wp_bind. set (s3 := set_wpr_started false s2).
    assert (Hok3 : wpr_ok s3).
    { subst s3. rewrite Hs2. destruct Hok1, Hran. split; simpl;
        rewrite ?rn_next0, ?rn_dirs0, ?rn_runs0, ?Hr; try done.
      apply Forall_app. split; [done|]. by constructor. }
    assert (Hs3 : cp_stopped s3 = true) by (subst s3; by rewrite Hs2).
    eapply (wp_mono _ (fun bs s4 => wpr_ok s4 /\ s4 = on_world (cp_world s4) s3 /\
        w_recording (cp_world s4) = false /\ exists x,
        get_file (MkPath d "capture.etl") (cp_world s4) = Some x /\ bs = content_bytes x) _
      (fun _ s4 => wpr_ok s4 /\ s4 = on_world (cp_world s4) s3)).
    + apply wp_zoom. unfold read_bytes. apply wp_bind.
      eapply wp_mono; [apply (wcall_wp id _ (same_world (cp_world s3)))|..]; [done| |].
      * intros [] w Hw. apply wp_bind, wp_gets. destruct (get_file _ w) as [x|] eqn:Hx.
        -- apply wp_ret. split_and!; [by apply same_ok|done|simpl; by rewrite (sw_recording _ _ Hw)|].
           by exists x.
        -- apply wp_raise. split; [by apply same_ok|done].
      * intros e w Hw. split; [by apply same_ok|done].
    + intros bs s4 (Hok4 & Hs4 & Hr4 & x & Hx & ->).
      assert (Hs4' : cp_stopped s4 = true) by (by rewrite Hs4).
      destruct (content_bytes x) as [|b0 bs] eqn:Hbs; [apply wp_raise; auto|].
      apply wp_bind, wp_lift; [intros t Ht; apply wp_ret|intros e _; auto].
      change (frombuffer _ _) with (_tensor_b (b0 :: bs)) in Ht. rewrite tensor_b_Ok in Ht.
      injection Ht as <-.
      split_and!; try done; [by rewrite Hs4|]. split_and!; try done.
      exists d, x. by rewrite Hbs.
    + intros e s4 [Hok4 Hs4]. split; [done|]. right. by rewrite Hs4.
  - intros e s2 [[Hran _] Hs2]. rewrite Hs2. split; [|by right].
    apply (ran_ok (Stop (MkPath d "capture.etl"))); [done|done|done|done].
Qed.

(** ** Histories *)

Inductive wpr_op := WprEnter | WprStop | WprClose.

Definition exec_wpr (s : WprCapture) (o : wpr_op) : WprCapture :=
  match o with
  | WprEnter => (wpr_enter s).1
  | WprStop => (wpr_stop s).1
  | WprClose => (wpr_close s).1
  end.
Definition exec_wprs (ops : list wpr_op) (s : WprCapture) : WprCapture := fold_left exec_wpr ops s.

Lemma exec_wpr_ok `{!Recorder} o s : wpr_ok s ->
  wpr_ok (exec_wpr s o) /\ (cp_stopped s = true -> cp_stopped (exec_wpr s o) = true).
Proof.
  intros Hok. destruct o; simpl.
  - pose proof (wpr_enter_wp s Hok) as Hw. unfold wp in Hw.
    destruct (wpr_enter s) as [s' [[]|e]]; destruct Hw as (H1 & _ & H2); simpl; by rewrite H2.
  - pose proof (wpr_stop_wp s Hok) as Hw. unfold wp in Hw. destruct (wpr_stop s) as [s' [b|e]]; simpl.
    + destruct Hw as (H1 & _ & _ & H2 & _). by split.
    + destruct Hw as [H1 [->|H2]]; [by split|by split].
  - pose proof (wpr_close_wp s Hok) as Hw. unfold wp in Hw. destruct (wpr_close s) as [s' [[]|e]]; simpl.
    + destruct Hw as (H1 & _ & _ & H2). by rewrite H2.
    + destruct Hw as [(H1 & _ & _ & H2) _]. by rewrite H2.
Qed.

Lemma exec_wprs_ok `{!Recorder} ops s : wpr_ok s ->
  wpr_ok (exec_wprs ops s) /\ (cp_stopped s = true -> cp_stopped (exec_wprs ops s) = true).
Proof.
  revert s; induction ops as [|o ops IH]; intros s Hok; [done|]. simpl.
  destruct (exec_wpr_ok o s Hok) as [H1 H2]. destruct (IH _ H1) as [H3 H4]. split; [done|]. auto.
Qed.

Lemma new_wpr_ok s : new_wpr = Ok s -> wpr_ok s.
Proof. unfold new_wpr. destruct (negb _); [done|]. intros [= <-]. split; try done. Qed.


(** A stop exports one finished session, once. In any reachable state, if [stop] returns,
    the capture was running and nothing records any more; the batch holds exactly the bytes of
    the exported file, which are not empty, and never claims to be complete; and no later stop
    of the same capture returns. *)
Theorem wpr_stop_exports `{!Recorder} (ops : list wpr_op) (s0 s' : WprCapture) (b : WprBatch)
  (Hnew : new_wpr = Ok s0) (Hstop : wpr_stop (exec_wprs ops s0) = (s', Ok b)) :
  cp_started (exec_wprs ops s0) = true /\ w_recording (cp_world s') = false /\
  exported (exec_wprs ops s0) s' b /\
  forall more, is_ok (wpr_stop (exec_wprs more s')).2 = false.
Proof.
  destruct (exec_wprs_ok ops s0 (new_wpr_ok s0 Hnew)) as [Hok _].
  pose proof (wpr_stop_wp _ Hok) as Hw. unfold wp in Hw. rewrite Hstop in Hw.
  destruct Hw as (Hok' & H1 & H2 & H3 & H4 & H5). split_and!; try done.
  intros more. destruct (exec_wprs_ok more s' Hok') as [_ Hm]. specialize (Hm H3).
  unfold wpr_stop, sbind, sgets, id. rewrite Hm, orb_true_r. by destruct (cp_directory _).
Qed.
End wpr.

(** A recorder that answers every command, and exports three bytes. *)
Definition example_wpr (n : nat) (args : list string) (recording : bool) : wpr_reply :=
  match args with
  | ["-start"; _] => Exited 0 EmptyString EmptyString true None
  | ["-stop"; _] => Exited 0 EmptyString EmptyString false (Some [1; 2; 3])
  | _ => Exited 0 EmptyString EmptyString false None
  end.
Definition example_windows : windows :=
  MkWindows true (fun _ => None) example_wpr (fun _ => "C:\Temp\cpu2tensor-wpr").
Definition example_wpr_config : WprConfig := MkWprConfig "cycles" "UserKernel" 1024 128 100000.

#[export] Instance example_recorder : Recorder example_windows.
Proof.
  split; simpl.
  - by intros n p r code out err r' etl [= <-].
  - by intros n p r out err r' etl [= _ _ <-].
  - by intros n r out err r' etl [= _ _ <-].
Qed.

Definition example_wpr_start : WprCapture := MkWprCapture None false false new_world.


Lemma wpr_stop_exports_witness :
  exists s' b, wpr_stop example_windows example_wpr_config
    (exec_wprs example_windows example_wpr_config [WprEnter] example_wpr_start) = (s', Ok b) /\
  wb_etl_bytes b = Tensor uint8 cpu [3%nat] [1; 2; 3] /\ w_recording (cp_world s') = false.
Proof.
  do 2 eexists. split_and!; [vm_compute; reflexivity|reflexivity|].
  eapply (wpr_stop_exports example_windows example_wpr_config [WprEnter] example_wpr_start); [reflexivity|].
  vm_compute. reflexivity.
Defined.
