(* ===== verification/WprProfile.v ===== *)
(** * The WPR profile is well-formed XML ([windows_hardware.py]: [_profile])

    A scanner for the XML the recorder reads: it keeps the stack of open
    elements and collects every attribute value with the element it belongs to.
    The profile of every accepted configuration is scanned to the end with
    every element closed, and asks for exactly what the configuration says. *)

From Stdlib Require Import Ascii.
From S2P Require Import Prelude HardwareConfig WindowsHardware.

Inductive xmode :=
  | InText | AfterLt | InName (n : string) | InTag (n : string) | InValue (n v : string)
  | AfterSlash | InClose (n : string) | InDecl | AfterQuery.

Record xstate := MkX {
  x_stack : list string;
  x_values : list (string * string);
  x_mode : xmode;
}.

Definition snoc (s : string) (a : ascii) : string := s +:+ String a EmptyString.

Definition xstep (x : xstate) (a : ascii) : option xstate :=
  let '(MkX stack values mode) := x in
  let to m := Some (MkX stack values m) in
  match mode with
  | InText => if Ascii.eqb a "<" then to AfterLt else if Ascii.eqb a ">" then None else to InText
  | AfterLt =>
      if Ascii.eqb a "/" then to (InClose EmptyString)
      else if Ascii.eqb a "?" then to InDecl else to (InName (String a EmptyString))
  | InName n =>
      if Ascii.eqb a " " then to (InTag n)
      else if Ascii.eqb a ">" then Some (MkX (n :: stack) values InText)
      else to (InName (snoc n a))
  | InTag n =>
      if Ascii.eqb a "034" then to (InValue n EmptyString)
      else if Ascii.eqb a ">" then Some (MkX (n :: stack) values InText)
      else if Ascii.eqb a "/" then to AfterSlash
      else if Ascii.eqb a "<" then None else to (InTag n)
  | InValue n v =>
      if Ascii.eqb a "034" then Some (MkX stack (values ++ [(n, v)]) (InTag n))
      else if Ascii.eqb a "<" then None else to (InValue n (snoc v a))
  | AfterSlash => if Ascii.eqb a ">" then to InText else None
  | InClose n =>
      if Ascii.eqb a ">" then
        match stack with
        | top :: stack => if String.eqb top n then Some (MkX stack values InText) else None
        | [] => None
        end
      else to (InClose (snoc n a))
  | InDecl => if Ascii.eqb a "?" then to AfterQuery else to InDecl
  | AfterQuery => if Ascii.eqb a ">" then to InText else None
  end.

Fixpoint xscan (s : string) (x : xstate) : option xstate :=
  match s with
  | EmptyString => Some x
  | String a s => x ← xstep x a; xscan s x
  end.

(** The attribute values of a document whose elements are all closed, in order. *)
Definition xml_values (s : string) : option (list (string * string)) :=
  match xscan s (MkX [] [] InText) with
  | Some (MkX [] values InText) => Some values
  | _ => None
  end.

Definition values_of (element : string) (vs : list (string * string)) : list string :=
  (filter (fun p => p.1 = element) vs).*2.

Lemma xscan_app s1 s2 x : xscan (s1 +:+ s2) x = x ← xscan s1 x; xscan s2 x.
Proof. revert x; induction s1 as [|a s1 IH]; intros x; [done|]. simpl. by destruct (xstep x a); simpl. Qed.

(** Text that ends neither a value nor a document. *)
Fixpoint plain (s : string) : bool :=
  match s with
  | EmptyString => true
  | String a s => negb (Ascii.eqb a "034") && negb (Ascii.eqb a "<") && plain s
  end.

Lemma append_assoc s1 s2 s3 : (s1 +:+ s2) +:+ s3 = s1 +:+ (s2 +:+ s3).
Proof. induction s1 as [|a s1 IH]; [done|]. exact (f_equal (String a) IH). Qed.
Lemma append_nil s : s +:+ EmptyString = s.
Proof. induction s as [|a s IH]; [done|]. exact (f_equal (String a) IH). Qed.

Lemma xscan_plain d stack values n v : plain d = true ->
  xscan d (MkX stack values (InValue n v)) = Some (MkX stack values (InValue n (v +:+ d))).
Proof.
  revert v; induction d as [|a d IH]; intros v; simpl; [by rewrite append_nil|].
  intros Hp. apply andb_true_iff in Hp as [Ha Hp]. apply andb_true_iff in Ha as [H1 H2].
  apply negb_true_iff in H1, H2. rewrite H1, H2. simpl. rewrite (IH (snoc v a) Hp). unfold snoc.
  by rewrite append_assoc.
Qed.

(** A value printed inside an attribute, up to its closing quote. *)
Lemma xscan_value d rest stack values n : plain d = true ->
  xscan (d +:+ String "034" rest) (MkX stack values (InValue n EmptyString)) =
  xscan rest (MkX stack (values ++ [(n, d)]) (InTag n)).
Proof. intros Hd. rewrite xscan_app, (xscan_plain _ _ _ _ _ Hd). done. Qed.

Lemma plain_char n : negb (Ascii.eqb (pretty_N_char n) "034") && negb (Ascii.eqb (pretty_N_char n) "<") = true.
Proof. unfold pretty_N_char. by repeat case_match. Qed.

Lemma plain_go n s : plain s = true -> plain (pretty_N_go n s) = true.
Proof.
  revert s. induction (N.lt_wf_0 n) as [n _ IH]; intros s Hs.
  destruct (decide (0 < n)%N) as [Hn|Hn].
  - rewrite pretty_N_go_step by done. apply IH; [by apply N.div_lt|].
    cbn [plain]. by rewrite plain_char.
  - assert (n = 0%N) as -> by lia. by rewrite pretty_N_go_0.
Qed.

(** A positive number in decimal. *)
Lemma plain_pretty z : 0 < z -> plain (pretty z) = true.
Proof.
  destruct z as [|p|]; [lia| |lia]. intros _.
  change (plain (pretty_N_go (N.pos p) EmptyString) = true). by apply plain_go.
Qed.

(** Scanning a literal part of the profile, and a printed value. *)
Ltac scan_literal :=
  match goal with
  | |- context [xscan (xml ?l +:+ ?rest) ?x] =>
      rewrite (xscan_app (xml l) rest x);
      let r := eval vm_compute in (xscan (xml l) x) in
      replace (xscan (xml l) x) with r by (vm_compute; reflexivity); cbn [mbind option_bind]
  end.
Ltac scan_value H :=
  rewrite xscan_app, (xscan_plain _ _ _ _ _ H); cbn [mbind option_bind]; scan_literal.

(** Which values the profile of a configuration carries. *)
Definition requested (c : WprConfig) (vs : list (string * string)) : Prop :=
  let trace := String.eqb (wc_signal c) "processor_trace" in
  values_of "Buffers" vs = [pretty (wc_buffers c)] /\
  values_of "BufferSize" vs = pretty (wc_buffer_kb c) :: (if trace then ["32"] else []) /\
  values_of "Keyword" vs =
    ["ProcessThread"; "Loader"; if trace then "SampledProfile" else "PmcProfile"] /\
  values_of "CodeMode" vs = (if trace then [wc_code_mode c] else []) /\
  values_of "SampledCounter" vs =
    (if trace then []
     else [if String.eqb (wc_signal c) "cycles" then "TotalCycles" else "InstructionRetired";
           pretty (wc_period c)]).

Lemma profile_scans signal mode kb buffers period :
  In signal ["cycles"; "instructions"; "processor_trace"] -> In mode ["User"; "Kernel"; "UserKernel"] ->
  0 < kb -> 0 < buffers -> 0 < period ->
  exists vs, xml_values (_profile (MkWprConfig signal mode kb buffers period)) = Some vs /\
    requested (MkWprConfig signal mode kb buffers period) vs.
Proof.
  intros Hs Hm H1%plain_pretty H2%plain_pretty H3%plain_pretty. unfold xml_values, _profile, requested. simpl wc_period.
  simpl wc_buffers. simpl wc_buffer_kb. simpl wc_signal. simpl wc_code_mode.
  generalize dependent (pretty kb). generalize dependent (pretty buffers). generalize dependent (pretty period).
  intros d3 H3 d2 H2 d1 H1.
  assert (Hmode : plain mode = true) by (by destruct Hm as [<-|[<-|[<-|[]]]]).
  destruct Hs as [<-|[<-|[<-|[]]]]; cbn [String.eqb Ascii.eqb Bool.eqb]; rewrite ?append_assoc.
  all: repeat first [scan_literal | scan_value H1 | scan_value H2 | scan_value H3 | scan_value Hmode
    | scan_value (eq_refl : plain "PmcProfile" = true)
    | scan_value (eq_refl : plain "SampledProfile" = true)
    | scan_value (eq_refl : plain "TotalCycles" = true)
    | scan_value (eq_refl : plain "InstructionRetired" = true)].
  all: eexists; split; [vm_compute; reflexivity|by split_and!].
Qed.

Lemma one_of_In value values : one_of value values = true -> In value values.
Proof.
  unfold one_of. rewrite existsb_exists. intros (x & Hx & He). apply String.eqb_eq in He. by subst.
Qed.

(** Every accepted WPR configuration has a well-formed profile that asks for what it says:
    all elements of the XML are closed in order, and the buffer count and size, the keywords
    and, as the signal requires, the trace's code mode or the counter and its sampling
    interval are exactly those of the configuration. *)
Theorem profile_well_formed (c : WprConfig) (Hc : check_wpr_config c = Ok tt) :
  exists vs, xml_values (_profile c) = Some vs /\ requested c vs.
Proof.
  destruct c as [signal mode kb buffers period]. unfold check_wpr_config in Hc. simpl in Hc.
  inv_res Hc. bool_prop. apply profile_scans; try lia; by apply one_of_In.
Qed.

Lemma profile_well_formed_witness :
  exists vs, xml_values (_profile (MkWprConfig "processor_trace" "Kernel" 64 8 1)) = Some vs /\
    values_of "CodeMode" vs = ["Kernel"] /\ values_of "BufferSize" vs = ["64"; "32"].
Proof.
  destruct (profile_well_formed (MkWprConfig "processor_trace" "Kernel" 64 8 1)) as (vs & Hvs & Hr);
    [vm_compute; reflexivity|].
  exists vs. destruct Hr as (_ & H2 & _ & H4 & _). split_and!; [exact Hvs|exact H4|exact H2].
Defined.
