(* ===== verification/TraceCounter.v ===== *)
(** * The benchmark's trace counter ([examples/benchmark_capture.py]: [TraceCounter])

    A sink that checks framing, source progress and completion of a trace that
    arrives in chunks, without decoding its rows. The header sizes come from
    the native parser ([Wire]). The fields that [accept] changes are kept apart
    from the buffer of pending bytes, which only [feed] changes. *)

From S2P Require Import Prelude Monad Wire.

Definition MIXED : Z := 14.
Definition MIXED_FEATURE : Z := Z.shiftl 1 18.
Definition RUN_HEADER : list nat := [2; 2; 4]%nat.
Definition EVENT_NAMES : list (Z * string) :=
  [(2, "blocks"); (7, "registers"); (8, "memory"); (12, "address_context")].

Record core := MkCore {
  tc_frames : Z;
  tc_run_headers : Z;
  tc_mixed_allowed : bool;
  tc_events : gmap string Z;
  tc_next : gmap Z Z;
  tc_ended : gset Z;
  tc_started : bool;
  tc_complete : bool;
  tc_layout_required : bool;
  tc_layout_seen : bool;
  tc_data_seen : bool;
}.

Record TraceCounter := MkCounter {
  tc_pending : list Z;
  tc_bytes : Z;
  tc_core : core;
}.

Definition new_core : core := MkCore 0 0 false ∅ ∅ ∅ false false false false false.
Definition new_counter : TraceCounter := MkCounter [] 0 new_core.

#[local] Notation C := (sx core exn).

Definition add_frame (c : core) : core :=
  MkCore (tc_frames c + 1) (tc_run_headers c) (tc_mixed_allowed c) (tc_events c) (tc_next c)
    (tc_ended c) (tc_started c) (tc_complete c) (tc_layout_required c) (tc_layout_seen c)
    (tc_data_seen c).
Definition add_run_header (c : core) : core :=
  MkCore (tc_frames c) (tc_run_headers c + 1) (tc_mixed_allowed c) (tc_events c) (tc_next c)
    (tc_ended c) (tc_started c) (tc_complete c) (tc_layout_required c) (tc_layout_seen c)
    (tc_data_seen c).
Definition start (detail : Z) (c : core) : core :=
  MkCore (tc_frames c) (tc_run_headers c) (has detail MIXED_FEATURE) (tc_events c) (tc_next c)
    (tc_ended c) true (tc_complete c) (has detail (Z.shiftl 1 17)) (tc_layout_seen c)
    (tc_data_seen c).
Definition see_layout (c : core) : core :=
  MkCore (tc_frames c) (tc_run_headers c) (tc_mixed_allowed c) (tc_events c) (tc_next c)
    (tc_ended c) (tc_started c) (tc_complete c) (tc_layout_required c) true (tc_data_seen c).
Definition see_data (c : core) : core :=
  MkCore (tc_frames c) (tc_run_headers c) (tc_mixed_allowed c) (tc_events c) (tc_next c)
    (tc_ended c) (tc_started c) (tc_complete c) (tc_layout_required c) (tc_layout_seen c) true.
Definition set_complete (c : core) : core :=
  MkCore (tc_frames c) (tc_run_headers c) (tc_mixed_allowed c) (tc_events c) (tc_next c)
    (tc_ended c) (tc_started c) true (tc_layout_required c) (tc_layout_seen c) (tc_data_seen c).
Definition set_next (next : gmap Z Z) (c : core) : core :=
  MkCore (tc_frames c) (tc_run_headers c) (tc_mixed_allowed c) (tc_events c) next
    (tc_ended c) (tc_started c) (tc_complete c) (tc_layout_required c) (tc_layout_seen c)
    (tc_data_seen c).
Definition end_of_source (source : Z) (c : core) : core :=
  MkCore (tc_frames c) (tc_run_headers c) (tc_mixed_allowed c) (tc_events c) (tc_next c)
    ({[source]} ∪ tc_ended c) (tc_started c) (tc_complete c) (tc_layout_required c)
    (tc_layout_seen c) (tc_data_seen c).
Definition count_events (name : string) (count : Z) (c : core) : core :=
  MkCore (tc_frames c) (tc_run_headers c) (tc_mixed_allowed c)
    (<[name := default 0 (tc_events c !! name) + count]> (tc_events c)) (tc_next c)
    (tc_ended c) (tc_started c) (tc_complete c) (tc_layout_required c) (tc_layout_seen c)
    (tc_data_seen c).

(** [raise ValueError(msg)] under a condition. *)
Definition reject (b : bool) (msg : string) : C unit :=
  if b then sraise (Exn ValueError msg) else sret tt.

(** The source's own checks: from the test of [kind not in (2, 3, 6, 7, 8, 12)] on. *)
Definition accept_source (kind source count sequence : Z) : C unit :=
  run! reject (negb (existsb (Z.eqb kind) [2; 3; 6; 7; 8; 12]))
    ("Unsupported observation frame kind " +:+ pretty kind) in
  do! ended := sgets tc_ended in
  run! reject (bool_decide (source ∈ ended)) "Trace contains data after source end" in
  do! next := sgets tc_next in
  let expected := default 0 (next !! source) in
  run! smodify (set_next (<[source := expected]> next)) in
  if kind =? 6 then sret tt else
  run! smodify see_data in
  run! reject (negb (sequence =? expected))
    ("Source " +:+ pretty source +:+ " has missing or repeated events") in
  run! reject (2 ^ 64 - 1 <? sequence + count) "Source sequence overflow" in
  run! smodify (set_next (<[source := expected + count]> next)) in
  if kind =? 3 then smodify (end_of_source source)
  else smodify (count_events (default EmptyString (od_get kind EVENT_NAMES)) count).

(** [accept]; [mixed] is what it runs for a mixed frame. *)
Definition accept_with (mixed : C unit) (kind source count sequence detail : Z) : C unit :=
  do! c := sgets id in
  if tc_complete c then sraise (Exn ValueError "Trace contains data after Complete") else
  if negb (tc_started c) then
    run! reject (negb (kind =? 1)) "Trace must start with Hello" in
    run! reject (has detail (Z.lor (Z.shiftl 1 11) (Z.shiftl 1 13)))
      "This benchmark requires observation-only capture" in
    smodify (start detail)
  else
  run! reject (kind =? 1) "Duplicate trace Hello" in
  run! reject (kind =? 5) ("Plugin reported trace failure " +:+ pretty detail) in
  if kind =? 13 then
    run! reject (negb (tc_layout_required c) || tc_layout_seen c || tc_data_seen c)
      "Executable layout must precede source data once" in
    smodify see_layout
  else
  run! reject (tc_layout_required c && negb (tc_layout_seen c) && negb (kind =? 6))
    "Missing executable layout" in
  if kind =? 4 then
    run! reject (negb (detail =? 0)) ("Trace reported exit code " +:+ pretty detail) in
    run! reject (negb (bool_decide (dom (tc_next c) = tc_ended c)))
      "Complete arrived before every source ended" in
    smodify set_complete
  else if kind =? MIXED then mixed
  else accept_source kind source count sequence.

Definition no_payload : C unit :=
  sraise (Exn ValueError "Mixed capture needs its advertised feature and payload").

(** The runs of a mixed frame. Every run consumes its header, so [length payload] steps are
    enough; [events] counts the rows so far. *)
Fixpoint mixed_runs (fuel : nat) (source count sequence detail : Z) (payload : list Z)
    (offset events : Z) : C Z :=
  match fuel with
  | O => sret events
  | S fuel =>
      if negb (offset <? detail) then sret events else
      run! reject (detail - offset <? Z.of_nat (struct_size RUN_HEADER)) "Truncated mixed run header" in
      do! fields := slift (unpack_from RUN_HEADER payload (Z.to_nat offset)) in
      match fields with
      | [kind; rows; size] =>
          let offset := offset + Z.of_nat (struct_size RUN_HEADER) in
          run! reject (negb (is_some (od_get kind EVENT_NAMES)) || (rows =? 0) ||
                       (count - events <? rows) || (detail - offset <? size))
            "Invalid mixed run kind, count or length" in
          run! reject (2 ^ 64 - 1 <? sequence + events) "Mixed sequence overflow" in
          let run_detail := if kind =? 2 then 0 else size in
          do! inner := slift (pack header_format
            [0x31543243; 2; kind; source; rows; sequence + events; run_detail]) in
          do! inner_size := slift (native_payload_size inner) in
          run! reject (negb (Z.of_nat inner_size =? size)) "Mixed run payload does not match its header" in
          run! accept_with no_payload kind source rows (sequence + events) run_detail in
          run! smodify add_run_header in
          mixed_runs fuel source count sequence detail payload (offset + size) (events + rows)
      | _ => sraise (Exn StructError "unpack_from requires a buffer")
      end
  end.

Definition accept_mixed (source count sequence detail : Z) (payload : list Z) : C unit :=
  do! c := sgets id in
  if negb (tc_mixed_allowed c) then no_payload else
  run! reject (negb ((1 <=? count) && (count <=? 256)) || negb ((16 <=? detail) && (detail <=? 4064)) ||
               negb (Z.of_nat (length payload) =? detail)) "Invalid mixed batch size" in
  do! events := mixed_runs (S (length payload)) source count sequence detail payload 0 0 in
  reject (negb (events =? count)) "Mixed event count does not match its runs".

(** [accept(kind, source, count, sequence, detail, payload)] *)
Definition accept (kind source count sequence detail : Z) (payload : option (list Z)) : C unit :=
  accept_with
    (match payload with
     | Some payload => accept_mixed source count sequence detail payload
     | None => no_payload
     end) kind source count sequence detail.

(** What [feed] passes to [accept]: only a mixed frame is given its payload. *)
Definition accept_frame (kind source count sequence detail : Z) (payload : list Z) : C unit :=
  if kind =? MIXED then accept kind source count sequence detail (Some payload)
  else accept kind source count sequence detail None.

(** One round of the [while] of [feed] at [offset]: the offset after the frame, or [None]
    when the loop ends because no whole frame is there. *)
Definition feed_frame (pending : list Z) (offset : nat) : C (option nat) :=
  if (length pending - offset <? header_bytes)%nat then sret None else
  let header := slice offset header_bytes pending in
  do! size := slift (native_payload_size header) in
  let frame_size := (header_bytes + size)%nat in
  if (length pending - offset <? frame_size)%nat then sret None else
  match unpack_fields header_format header with
  | [_; _; kind; source; count; sequence; detail] =>
      run! accept_frame kind source count sequence detail
             (slice (offset + header_bytes) size pending) in
      run! smodify add_frame in
      sret (Some (offset + frame_size)%nat)
  | _ => sraise (Exn StructError "unpack requires a buffer of 32 bytes")
  end.

(** The whole loop, from [offset]; it returns the offset it stopped at. *)
Fixpoint feed_loop (fuel : nat) (pending : list Z) (offset : nat) : C nat :=
  match fuel with
  | O => sret offset
  | S fuel =>
      do! next := feed_frame pending offset in
      match next with
      | Some offset => feed_loop fuel pending offset
      | None => sret offset
      end
  end.

Definition set_core (c : core) (t : TraceCounter) : TraceCounter :=
  MkCounter (tc_pending t) (tc_bytes t) c.
Definition set_pending (p : list Z) (t : TraceCounter) : TraceCounter :=
  MkCounter p (tc_bytes t) (tc_core t).

Definition feed (data : list Z) : sx TraceCounter exn unit :=
  run! smodify (fun t => MkCounter (tc_pending t) (tc_bytes t + Z.of_nat (length data)) (tc_core t)) in
  run! smodify (fun t => set_pending (tc_pending t ++ data) t) in
  do! pending := sgets tc_pending in
  do! offset := szoom tc_core set_core (feed_loop (S (length pending)) pending 0) in
  smodify (set_pending (drop offset pending)).

Definition finish (t : TraceCounter) : result unit :=
  raise! ValueError "Trace ended in a partial frame" when negb (bool_decide (tc_pending t = [])) in
  raise! ValueError "Trace ended without Complete" when negb (tc_complete (tc_core t)) in
  raise! ValueError "Capture completed without any observed events"
    when msum (tc_events (tc_core t)) =? 0 in
  Ok tt.

(** [result()] *)
Record counter_result := MkResult {
  cr_bytes : Z; cr_frames : Z; cr_run_headers : Z; cr_frame_header_bytes : Z;
  cr_run_header_bytes : Z; cr_framing_bytes : Z; cr_events : gmap string Z; cr_sources : nat;
  cr_complete : bool;
}.
Definition counted_result (t : TraceCounter) : counter_result :=
  let c := tc_core t in
  MkResult (tc_bytes t) (tc_frames c) (tc_run_headers c) (tc_frames c * 32) (tc_run_headers c * 8)
    (tc_frames c * 32 + tc_run_headers c * 8) (tc_events c) (size (tc_next c)) (tc_complete c).
