(* ===== verification/TraceChunks.v ===== *)
(** * Chunking does not matter to the trace counter ([examples/benchmark_capture.py])

    However the bytes of a trace are cut into reads, the counter ends in the
    same state, or raises the same exception with the same progress counted. *)

From S2P Require Import Prelude Monad Wire TraceCounter.

(** ** One frame *)

Lemma slice_prefix {A} off len (p b : list A) : (off + len <= length p)%nat ->
  slice off len (p ++ b) = slice off len p.
Proof. intros Hl. rewrite slice_app_l; [done|lia]. Qed.

Lemma slice_drop {A} o off len (p : list A) : slice off len (drop o p) = slice (o + off) len p.
Proof. unfold slice. by rewrite drop_drop. Qed.

Lemma feed_frame_bounds p o c c' o' : feed_frame p o c = (c', Ok (Some o')) ->
  (o + header_bytes <= o' <= length p)%nat.
Proof.
  unfold feed_frame. destruct (_ <? _)%nat eqn:H1; [done|]. apply Nat.ltb_ge in H1.
  unfold sbind at 1, slift. destruct (native_payload_size _) as [size|]; [|done].
  destruct (_ <? _)%nat eqn:H2; [done|]. apply Nat.ltb_ge in H2.
  destruct (unpack_fields _ _) as [|? [|? [|? [|? [|? [|? [|? [|]]]]]]]]; try done.
  unfold sbind. destruct (accept_frame _ _ _ _ _ _ c) as [c1 [[]|]]; [|done].
  unfold header_bytes in *. intros [= _ <-]. lia.
Qed.

Lemma feed_frame_none p o c c' : feed_frame p o c = (c', Ok None) -> c' = c.
Proof.
  unfold feed_frame. destruct (_ <? _)%nat; [by intros [= <-]|].
  unfold sbind at 1, slift. destruct (native_payload_size _) as [size|]; [|done].
  destruct (_ <? _)%nat; [by intros [= <-]|].
  destruct (unpack_fields _ _) as [|? [|? [|? [|? [|? [|? [|? [|]]]]]]]]; try done.
  unfold sbind. by destruct (accept_frame _ _ _ _ _ _ c) as [c1 [[]|]].
Qed.

(** Bytes that arrive later do not change how a frame already there is handled. *)
Lemma feed_frame_app p b o c : feed_frame p o c = feed_frame (p ++ b) o c \/
  feed_frame p o c = (c, Ok None).
Proof.
  unfold feed_frame. rewrite length_app. destruct (_ <? _)%nat eqn:H1; [by right|].
  apply Nat.ltb_ge in H1.
  replace (length p + length b - o <? header_bytes)%nat with false
    by (symmetry; apply Nat.ltb_ge; unfold header_bytes in *; lia).
  rewrite (slice_prefix o header_bytes p b) by (unfold header_bytes in *; lia).
  unfold sbind, slift. destruct (native_payload_size _) as [size|]; [|by left]. cbn beta iota zeta.
  destruct (length p - o <? _)%nat eqn:H2; [by right|]. apply Nat.ltb_ge in H2.
  replace (length p + length b - o <? header_bytes + size)%nat with false
    by (symmetry; apply Nat.ltb_ge; unfold header_bytes in *; lia).
  rewrite (slice_prefix (o + header_bytes) size p b) by (unfold header_bytes in *; lia).
  by left.
Qed.

(** A result shifted by the bytes already dropped. *)
Definition shift (o : nat) {E} (r : core * res E (option nat)) : core * res E (option nat) :=
  match r with
  | (c, Ok (Some k)) => (c, Ok (Some (o + k)%nat))
  | _ => r
  end.

Lemma feed_frame_drop p o k c : feed_frame p (o + k) c = shift o (feed_frame (drop o p) k c).
Proof.
  unfold feed_frame. rewrite length_drop, slice_drop.
  replace (length p - o - k)%nat with (length p - (o + k))%nat by lia.
  destruct (_ <? _)%nat; [done|].
  unfold sbind, slift. destruct (native_payload_size _) as [size|]; [|done].
  destruct (_ <? _)%nat; [done|]. rewrite slice_drop.
  destruct (unpack_fields _ _) as [|? [|? [|? [|? [|? [|? [|? [|]]]]]]]]; try done.
  unfold sbind. rewrite (Nat.add_assoc o k header_bytes).
  destruct (accept_frame _ _ _ _ _ _ c) as [c1 [[]|]]; [|done].
  simpl. by rewrite Nat.add_assoc.
Qed.

(** ** The loop *)

(** The loop with the fuel [feed] gives it. *)
Definition drained (p : list Z) (o : nat) : sx core exn nat := feed_loop (S (length p)) p o.

Lemma feed_loop_fuel n m p o c : (length p - o < n)%nat -> (length p - o < m)%nat ->
  feed_loop n p o c = feed_loop m p o c.
Proof.
  revert m o c; induction n as [|n IH]; intros [|m] o c Hn Hm; try lia. simpl. unfold sbind.
  destruct (feed_frame p o c) as [c' [[o'|]|e]] eqn:Hf; try done.
  pose proof (feed_frame_bounds _ _ _ _ _ Hf). unfold header_bytes in *. apply IH; lia.
Qed.

Lemma drained_step p o c : drained p o c =
  match feed_frame p o c with
  | (c', Ok (Some o')) => drained p o' c'
  | (c', Ok None) => (c', Ok o)
  | (c', Raise e) => (c', Raise e)
  end.
Proof.
  unfold drained at 1. cbn [feed_loop]. unfold sbind.
  destruct (feed_frame p o c) as [c' [[o'|]|e]] eqn:Hf; try done.
  pose proof (feed_frame_bounds _ _ _ _ _ Hf). unfold header_bytes in *.
  apply feed_loop_fuel; lia.
Qed.

(** Draining [p], then going on with more bytes, is draining all of them. *)
Lemma drained_app p b o c : drained (p ++ b) o c =
  match drained p o c with
  | (c', Ok o') => drained (p ++ b) o' c'
  | (c', Raise e) => (c', Raise e)
  end.
Proof.
  remember (length p - o)%nat as k eqn:Hk. revert o c Hk.
  induction k as [k IH] using lt_wf_ind; intros o c ->.
  rewrite (drained_step p o c).
  destruct (feed_frame_app p b o c) as [Hf|Hf].
  - rewrite (drained_step (p ++ b)), <- Hf.
    destruct (feed_frame p o c) as [c' [[o'|]|e]] eqn:He; [|pose proof (feed_frame_none _ _ _ _ He) as ->; by rewrite drained_step, <- Hf|done].
    pose proof (feed_frame_bounds _ _ _ _ _ He). unfold header_bytes in *.
    apply (IH (length p - o')%nat); lia.
  - by rewrite Hf.
Qed.

Lemma drained_drop p o k c : drained p (o + k) c =
  match drained (drop o p) k c with
  | (c', Ok k') => (c', Ok (o + k')%nat)
  | (c', Raise e) => (c', Raise e)
  end.
Proof.
  remember (length p - (o + k))%nat as n eqn:Hn. revert k c Hn.
  induction n as [n IH] using lt_wf_ind; intros k c ->.
  rewrite (drained_step p), (drained_step (drop o p)), feed_frame_drop.
  destruct (feed_frame (drop o p) k c) as [c' [[k'|]|e]] eqn:He; [|done|done]. simpl.
  pose proof (feed_frame_bounds _ _ _ _ _ He) as Hb. rewrite length_drop in Hb.
  unfold header_bytes in *. eapply IH; [|done]. lia.
Qed.

Lemma drained_stops p o c c' o' : (o <= length p)%nat -> drained p o c = (c', Ok o') ->
  (o <= o' <= length p)%nat.
Proof.
  remember (length p - o)%nat as n eqn:Hn. revert o c Hn.
  induction n as [n IH] using lt_wf_ind; intros o c -> Ho.
  rewrite drained_step. destruct (feed_frame p o c) as [c1 [[o1|]|e]] eqn:He; [| |done].
  - pose proof (feed_frame_bounds _ _ _ _ _ He). unfold header_bytes in *. intros Hd.
    destruct (IH (length p - o1)%nat ltac:(lia) o1 c1 eq_refl ltac:(lia) Hd). lia.
  - intros [= _ <-]. lia.
Qed.

(** ** Feeding *)

Lemma feed_eq data t : feed data t =
  match drained (tc_pending t ++ data) 0 (tc_core t) with
  | (c, Ok o) => (MkCounter (drop o (tc_pending t ++ data)) (tc_bytes t + Z.of_nat (length data)) c, Ok tt)
  | (c, Raise e) => (MkCounter (tc_pending t ++ data) (tc_bytes t + Z.of_nat (length data)) c, Raise e)
  end.
Proof.
  unfold feed, drained, sbind, smodify, sgets, szoom, set_pending, set_core.
  cbn [tc_pending tc_bytes tc_core].
  by destruct (feed_loop _ (tc_pending t ++ data) 0 (tc_core t)) as [c [o|e]].
Qed.

(** Two runs of the counter that no observation tells apart. *)
Definition same_run (r1 r2 : TraceCounter * res exn unit) : Prop :=
  match r1, r2 with
  | (t1, Ok _), (t2, Ok _) => t1 = t2
  | (t1, Raise e1), (t2, Raise e2) => e1 = e2 /\ tc_core t1 = tc_core t2
  | _, _ => False
  end.

Lemma same_run_refl r : same_run r r.
Proof. by destruct r as [t [[]|e]]. Qed.

Lemma feed_app a b t : same_run (sbind (feed a) (fun _ => feed b) t) (feed (a ++ b) t).
Proof.
  unfold sbind. rewrite (feed_eq a), (feed_eq (a ++ b)).
  rewrite (app_assoc (tc_pending t) a b), (drained_app (tc_pending t ++ a) b).
  destruct (drained (tc_pending t ++ a) 0 (tc_core t)) as [c [o|e]] eqn:Hd; [|by split].
  rewrite feed_eq. simpl.
  pose proof (drained_stops _ _ _ _ _ (Nat.le_0_l _) Hd) as Ho.
  replace (drop o (tc_pending t ++ a) ++ b) with (drop o ((tc_pending t ++ a) ++ b))
    by (rewrite drop_app_le by lia; done).
  pose proof (drained_drop ((tc_pending t ++ a) ++ b) o 0 c) as Hs. rewrite Nat.add_0_r in Hs. rewrite Hs.
  destruct (drained (drop o ((tc_pending t ++ a) ++ b)) 0 c) as [c' [k|e]]; [|by split].
  simpl. rewrite drop_drop, length_app. f_equal. lia.
Qed.

(** Feeding the reads of a trace one after another. *)
Definition feeds (chunks : list (list Z)) : sx TraceCounter exn unit := seach feed chunks.

Lemma same_run_then (m1 m2 k : sx TraceCounter exn unit) t : same_run (m1 t) (m2 t) ->
  same_run (sbind m1 (fun _ => k) t) (sbind m2 (fun _ => k) t).
Proof.
  unfold sbind. destruct (m1 t) as [t1 [[]|e1]], (m2 t) as [t2 [[]|e2]]; try done.
  intros ->. apply same_run_refl.
Qed.

Lemma same_run_trans r1 r2 r3 : same_run r1 r2 -> same_run r2 r3 -> same_run r1 r3.
Proof.
  destruct r1 as [t1 [[]|e1]], r2 as [t2 [[]|e2]], r3 as [t3 [[]|e3]]; try done; simpl.
  - congruence.
  - intros [-> ->] [-> ->]. done.
Qed.

Lemma feeds_cons chunk chunks t : same_run (feeds (chunk :: chunks) t) (feed (chunk ++ concat chunks) t).
Proof.
  revert chunk t; induction chunks as [|next chunks IH]; intros chunk t.
  - simpl. rewrite app_nil_r. unfold feeds, seach, sbind, sret.
    destruct (feed chunk t) as [t' [[]|e]]; apply same_run_refl.
  - replace (chunk ++ concat (next :: chunks)) with ((chunk ++ next) ++ concat chunks)
      by (simpl; by rewrite app_assoc).
    apply (same_run_trans _ (feeds ((chunk ++ next) :: chunks) t)); [|exact (IH (chunk ++ next) t)].
    apply (same_run_trans _ (sbind (run! feed chunk in feed next) (fun _ => feeds chunks) t)).
    + unfold feeds. cbn [seach]. fold (feeds chunks). unfold sbind.
      destruct (feed chunk t) as [t' [[]|e]]; [|by split].
      destruct (feed next t') as [t'' [[]|e]]; [apply same_run_refl|by split].
    + exact (same_run_then _ _ (feeds chunks) t (feed_app chunk next t)).
Qed.

(** The counter's view of a trace does not depend on how its bytes are cut into reads.
    Feeding any chunks ends like feeding all their bytes at once: in the same state, pending
    bytes included, or with the same exception and the same frames, runs, events and source
    progress counted before it. *)
Theorem chunking_irrelevant (chunks : list (list Z)) :
  same_run (feeds chunks new_counter) (feed (concat chunks) new_counter).
Proof.
  destruct chunks as [|chunk chunks]; [|apply feeds_cons].
  rewrite feed_eq. vm_compute. reflexivity.
Qed.
