(* ===== verification/TraceProgress.v ===== *)
(** * What a counted trace is ([examples/benchmark_capture.py])

    A trace that the counter accepts to the end is a list of whole, well-formed
    frames: it starts with Hello and ends with Complete, the rows of every
    source are numbered without gap or repetition, and the events counted are
    exactly the rows announced. *)

From S2P Require Import Prelude Monad Wire TraceCounter TraceChunks.

(** ** Frames *)

Record frame := MkFrame { f_header : Header; f_payload : list Z }.

Definition encode_frame (f : frame) : list Z := encode_header (f_header f) ++ f_payload f.

(** A frame the native parser accepts. *)
Definition frame_ok (f : frame) : Prop :=
  header_fits (f_header f) /\ check_header (f_header f) = Ok (f_header f) /\
  Z.of_nat (length (f_payload f)) = payload_size (f_header f).

Definition f_kind (f : frame) : Z := h_kind (f_header f).
Definition f_source (f : frame) : Z := h_source (f_header f).
Definition f_count (f : frame) : Z := h_count (f_header f).
Definition f_sequence (f : frame) : Z := h_sequence (f_header f).

(** The kinds whose rows are numbered, and those that name a source at all. *)
Definition counted (f : frame) : bool := existsb (Z.eqb (f_kind f)) [2; 3; 7; 8; 12; 14].
Definition sourced (f : frame) : bool := counted f || (f_kind f =? 6).

Definition rows (f : frame) : Z := if counted f then f_count f else 0.
Definition rows_of (s : Z) (f : frame) : Z := if f_source f =? s then rows f else 0.

(** The rows of source [s] in a list of frames: the next sequence number. *)
Definition progress (fs : list frame) (s : Z) : Z := zsum (rows_of s) fs.

Definition ends (s : Z) (f : frame) : Prop := f_kind f = 3 /\ f_source f = s.

(** A trace as the counter means it. *)
Record well_formed_trace (fs : list frame) : Prop := {
  wt_first : exists f rest, fs = f :: rest /\ f_kind f = 1;
  wt_last : exists rest f, fs = rest ++ [f] /\ f_kind f = 4 /\ h_detail (f_header f) = 0;
  wt_control pre f post : fs = pre ++ f :: post ->
    (f_kind f = 1 -> pre = []) /\ (f_kind f = 4 -> post = []) /\ f_kind f <> 5;
  wt_numbered pre f post : fs = pre ++ f :: post -> counted f = true ->
    f_sequence f = progress pre (f_source f);
  wt_open pre f post : fs = pre ++ f :: post -> sourced f = true ->
    Forall (fun g => ~ ends (f_source f) g) pre;
  wt_closed f : f ∈ fs -> sourced f = true -> exists g, g ∈ fs /\ ends (f_source f) g;
}.

(** ** The effect of one frame *)

(** What accepting a frame does to the source bookkeeping. *)
Record moves (f : frame) (c c' : core) : Prop := {
  mv_open : tc_complete c = false;
  mv_started : tc_started c' = true;
  mv_hello : f_kind f = 1 <-> tc_started c = false;
  mv_error : f_kind f <> 5;
  mv_complete : tc_complete c' = (f_kind f =? 4);
  mv_exit : f_kind f = 4 -> h_detail (f_header f) = 0 /\ dom (tc_next c) = tc_ended c;
  mv_live : sourced f = true -> f_source f ∉ tc_ended c;
  mv_sequence : counted f = true -> f_sequence f = default 0 (tc_next c !! f_source f);
  mv_next : tc_next c' =
    if sourced f then <[f_source f := default 0 (tc_next c !! f_source f) + rows f]> (tc_next c) else tc_next c;
  mv_ended : tc_ended c' = if f_kind f =? 3 then {[f_source f]} ∪ tc_ended c else tc_ended c;
  mv_events : msum (tc_events c') = msum (tc_events c) + rows f;
  mv_frames : tc_frames c' = tc_frames c;
}.

Lemma reject_Ok b msg c c' u : reject b msg c = (c', Ok u) -> b = false /\ c' = c.
Proof. unfold reject. destruct b; [done|]. by intros [= <-]. Qed.

(** Splits a run that returned into its steps. *)
Ltac inv_run H :=
  repeat lazymatch type of H with
  | sbind (reject ?b ?msg) _ ?c = (_, Ok _) =>
      apply sbind_Ok in H; let c1 := fresh "c" in let u := fresh in let Hr := fresh "Hr" in
      let Hk := fresh in destruct H as (c1 & u & Hr & Hk); apply reject_Ok in Hr; destruct Hr as [Hr ->];
      clear u; rename Hk into H
  | sbind (sgets _) _ _ = (_, Ok _) => unfold sbind at 1, sgets at 1 in H; cbn beta iota zeta in H
  | sbind (smodify _) _ _ = (_, Ok _) => unfold sbind at 1, smodify at 1 in H; cbn beta iota zeta in H
  | sraise _ _ = (_, Ok _) => discriminate H
  end.

(** The bookkeeping of a row-carrying kind, or of a schema. *)
Record source_move (kind source count sequence : Z) (c c' : core) : Prop := {
  sm_kind : existsb (Z.eqb kind) [2; 3; 6; 7; 8; 12] = true;
  sm_live : source ∉ tc_ended c;
  sm_sequence : kind <> 6 -> sequence = default 0 (tc_next c !! source);
  sm_next : tc_next c' =
    <[source := default 0 (tc_next c !! source) + (if kind =? 6 then 0 else count)]> (tc_next c);
  sm_ended : tc_ended c' = if kind =? 3 then {[source]} ∪ tc_ended c else tc_ended c;
  sm_events : msum (tc_events c') = msum (tc_events c) +
    (if (kind =? 6) || (kind =? 3) then 0 else count);
  sm_frames : tc_frames c' = tc_frames c;
  sm_complete : tc_complete c' = tc_complete c;
  sm_started : tc_started c' = tc_started c;
}.

Lemma accept_source_moves kind source count sequence c c' :
  accept_source kind source count sequence c = (c', Ok tt) -> source_move kind source count sequence c c'.
Proof.
  unfold accept_source. intros H. inv_run H. bool_prop. destruct (kind =? 6) eqn:H6.
  { injection H as <-. bool_prop. subst kind. split; simpl; rewrite ?Z.add_0_r; done. }
  inv_run H. bool_prop. subst sequence.
  destruct (kind =? 3) eqn:H3; injection H as <-; bool_prop;
    (split; simpl; try done); rewrite ?(proj2 (Z.eqb_neq kind 6) H6), ?msum_insert;
    rewrite ?(proj2 (Z.eqb_eq _ _) H3), ?(proj2 (Z.eqb_neq _ _) H3); simpl; try done; lia.
Qed.

Lemma event_kinds kind name : od_get kind EVENT_NAMES = Some name ->
  kind = 2 \/ kind = 7 \/ kind = 8 \/ kind = 12.
Proof. unfold EVENT_NAMES. simpl. repeat case_decide; naive_solver. Qed.

Lemma accept_run_moves kind source count sequence detail c c' :
  is_some (od_get kind EVENT_NAMES) = true ->
  accept_with no_payload kind source count sequence detail c = (c', Ok tt) ->
  source_move kind source count sequence c c' /\ kind <> 6 /\ kind <> 3.
Proof.
  destruct (od_get kind EVENT_NAMES) as [name|] eqn:Hn; [|done]. intros _.
  apply event_kinds in Hn. unfold accept_with. intros H. inv_run H. unfold id in H.
  destruct (tc_complete c); [done|]. destruct (negb (tc_started c)).
  { inv_run H. bool_prop. lia. }
  inv_run H. bool_prop. destruct (kind =? 13) eqn:?; [bool_prop; lia|].
  inv_run H. destruct (kind =? 4) eqn:?; [bool_prop; lia|].
  destruct (kind =? MIXED) eqn:?; [done|]. split; [by apply accept_source_moves in H|lia].
Qed.

(** What the runs of a mixed frame did, if there was one. *)
Record runs_move (source sequence added : Z) (c c' : core) : Prop := {
  rm_added : 0 < added;
  rm_live : source ∉ tc_ended c;
  rm_sequence : sequence = default 0 (tc_next c !! source);
  rm_next : tc_next c' = <[source := default 0 (tc_next c !! source) + added]> (tc_next c);
  rm_ended : tc_ended c' = tc_ended c;
  rm_events : msum (tc_events c') = msum (tc_events c) + added;
  rm_frames : tc_frames c' = tc_frames c;
  rm_complete : tc_complete c' = tc_complete c;
  rm_started : tc_started c' = tc_started c;
}.

Lemma runs_move_cons source sequence rows added c c1 c2 :
  runs_move source sequence rows c c1 -> runs_move source (sequence + rows) added c1 c2 ->
  runs_move source sequence (rows + added) c c2.
Proof.
  intros [] []. split; try congruence; try lia.
  rewrite rm_next1, rm_next0, lookup_insert_eq, insert_insert_eq. simpl. f_equal. lia.
Qed.

Lemma source_runs_move kind source rows sequence c c' : 0 < rows -> kind <> 6 -> kind <> 3 ->
  source_move kind source rows sequence c c' -> runs_move source sequence rows c (add_run_header c').
Proof.
  intros Hr H6 H3 []. rewrite (proj2 (Z.eqb_neq _ _) H6) in *. rewrite (proj2 (Z.eqb_neq _ _) H3) in *.
  split; try done. by apply sm_sequence0.
Qed.

Lemma run_fields_nonneg payload off kind rows size : Forall is_byte payload ->
  unpack_from RUN_HEADER payload off = Ok [kind; rows; size] -> 0 <= rows /\ 0 <= size.
Proof.
  intros Hb Hf. unfold unpack_from in Hf. inv_res Hf. apply Nat.ltb_ge in Hg.
  assert (Hu : unpack_fields RUN_HEADER (drop off payload) = [kind; rows; size]) by congruence.
  pose proof (unpack_fields_fits RUN_HEADER (drop off payload)
    ltac:(by apply Forall_drop) ltac:(rewrite length_drop; lia)) as Hfit.
  rewrite Hu in Hfit. inversion Hfit as [|? ? ? ? _ Hfit1]; subst.
  inversion Hfit1 as [|? ? ? ? H1 Hfit2]; subst. inversion Hfit2 as [|? ? ? ? H2 _]; subst.
  unfold fits in *. lia.
Qed.

Lemma mixed_runs_moves fuel source count sequence detail payload offset events c c' events' :
  Forall is_byte payload -> (0 <= offset) ->
  mixed_runs fuel source count sequence detail payload offset events c = (c', Ok events') ->
  (c' = c /\ events' = events) \/ runs_move source (sequence + events) (events' - events) c c'.
Proof.
  intros Hb. revert offset events c. induction fuel as [|fuel IH]; intros offset events c Ho H.
  { injection H as <- <-. by left. }
  cbn [mixed_runs] in H. destruct (negb (offset <? detail)); [injection H as <- <-; by left|].
  inv_run H. apply sbind_Ok in H as (c1 & fields & Hf & H).
  unfold slift in Hf. injection Hf as <- Hf.
  destruct fields as [|kind [|rows [|size [|]]]]; try done.
  inv_run H. apply orb_false_iff in Hr0 as [Hr0 Hsize]. apply orb_false_iff in Hr0 as [Hr0 _].
  apply orb_false_iff in Hr0 as [Hname Hrows]. apply negb_false_iff in Hname. apply Z.eqb_neq in Hrows.
  pose proof (run_fields_nonneg _ _ _ _ _ Hb Hf) as Hfit.
  apply sbind_Ok in H as (c2 & inner & Hi & H). injection Hi as <- Hi.
  apply sbind_Ok in H as (c3 & isize & Hs & H). injection Hs as <- Hs. inv_run H.
  apply sbind_Ok in H as (c4 & [] & Ha & H). apply (accept_run_moves _ _ _ _ _ _ _ Hname) in Ha as (Ha & H6 & H3).
  inv_run H. apply source_runs_move in Ha; [|lia|done|done].
  apply IH in H; [|simpl; lia]. right.
  destruct H as [[-> ->]|H].
  - replace (events + rows - events) with rows by lia. done.
  - replace (events' - events) with (rows + (events' - (events + rows))) by lia.
    eapply runs_move_cons; [exact Ha|]. by rewrite <- Z.add_assoc.
Qed.

(** Enough fuel: every run consumes its header. *)
Lemma mixed_runs_fuel n m source count sequence detail payload offset events c :
  Forall is_byte payload -> 0 <= offset -> detail - offset < Z.of_nat n -> detail - offset < Z.of_nat m ->
  mixed_runs n source count sequence detail payload offset events c =
  mixed_runs m source count sequence detail payload offset events c.
Proof.
  intros Hb. revert m offset events c; induction n as [|n IH]; intros [|m] offset events c Ho Hn Hm.
  - done.
  - cbn [mixed_runs]. by replace (offset <? detail) with false by (symmetry; apply Z.ltb_ge; lia).
  - cbn [mixed_runs]. by replace (offset <? detail) with false by (symmetry; apply Z.ltb_ge; lia).
  - cbn [mixed_runs]. destruct (negb (offset <? detail)); [done|].
    unfold sbind. destruct (reject _ _ c) as [c1 [[]|e]]; [|done]. unfold slift.
    destruct (unpack_from _ _ _) as [[|kind [|rows [|size [|]]]]|] eqn:Hf; try done.
    destruct (reject _ _ c1) as [c2 [[]|e]]; [|done]. destruct (reject _ _ c2) as [c3 [[]|e]]; [|done].
    destruct (pack _ _); [|done]. destruct (native_payload_size _); [|done].
    destruct (reject _ _ c3) as [c4 [[]|e]]; [|done].
    destruct (accept_with _ _ _ _ _ _ c4) as [c5 [[]|e]]; [|done].
    destruct (smodify add_run_header c5) as [c6 [[]|e]]; [|done].
    pose proof (run_fields_nonneg _ _ _ _ _ Hb Hf). apply IH; simpl; lia.
Qed.

Lemma source_end_empty h : check_header h = Ok h -> h_kind h = 3 -> h_count h = 0.
Proof.
  intros H Hk. unfold check_header in H. inv_res H. unfold check_kind in Hv. rewrite Hk in Hv. simpl in Hv.
  inv_res Hv. bool_prop. done.
Qed.

Lemma accept_mixed_moves source count sequence detail payload c c' : Forall is_byte payload ->
  accept_mixed source count sequence detail payload c = (c', Ok tt) ->
  runs_move source sequence count c c'.
Proof.
  intros Hb H. unfold accept_mixed in H. inv_run H. unfold id in H.
  destruct (negb (tc_mixed_allowed c)); [done|]. inv_run H.
  apply sbind_Ok in H as (c1 & events & Hm & H). apply reject_Ok in H as [He ->].
  apply negb_false_iff, Z.eqb_eq in He as ->. bool_prop.
  apply mixed_runs_moves in Hm as [[-> Hz]|Hm]; [lia| |done|lia].
  by rewrite Z.add_0_r, Z.sub_0_r in Hm.
Qed.

Lemma accept_frame_moves f c c' : frame_ok f -> Forall is_byte (f_payload f) ->
  accept_frame (f_kind f) (f_source f) (f_count f) (f_sequence f) (h_detail (f_header f)) (f_payload f) c
    = (c', Ok tt) -> moves f c c'.
Proof.
  intros (_ & Hc & _) Hb H. unfold accept_frame in H.
  assert (Hw : accept_with (if f_kind f =? MIXED then accept_mixed (f_source f) (f_count f) (f_sequence f)
      (h_detail (f_header f)) (f_payload f) else no_payload) (f_kind f) (f_source f) (f_count f)
      (f_sequence f) (h_detail (f_header f)) c = (c', Ok tt))
    by (destruct (f_kind f =? MIXED); exact H).
  clear H. rename Hw into H. unfold accept_with in H. inv_run H. unfold id in H.
  destruct (tc_complete c) eqn:Hcomp; [done|].
  destruct (tc_started c) eqn:Hst; cbn [negb] in H.
  2:{ inv_run H. bool_prop. injection H as <-.
      split; unfold sourced, counted, rows, counted; rewrite ?Hr; simpl; try done; lia. }
  inv_run H. bool_prop. destruct (f_kind f =? 13) eqn:H13.
  { inv_run H. injection H as <-. bool_prop.
    split; unfold sourced, counted, rows, counted; rewrite ?H13; simpl; try done; try lia; split; [lia|congruence]. }
  inv_run H. destruct (f_kind f =? 4) eqn:H4.
  { inv_run H. injection H as <-. bool_prop.
    split; unfold sourced, counted, rows, counted; rewrite ?H4; simpl; try done; try lia; split; [lia|congruence]. }
  bool_prop. destruct (f_kind f =? MIXED) eqn:H14.
  - apply accept_mixed_moves in H; [|done]. destruct H. apply Z.eqb_eq in H14. unfold MIXED in H14.
    split; unfold sourced, counted, rows, counted; rewrite ?H14; simpl; try done; try congruence; try lia; split; [lia|congruence].
  - apply accept_source_moves in H. bool_prop. destruct H. unfold MIXED in *.
    assert (Hcnt : counted f = negb (f_kind f =? 6)).
    { unfold counted. apply existsb_exists in sm_kind0 as (k & Hk & E). apply Z.eqb_eq in E as ->.
      destruct Hk as [<-|[<-|[<-|[<-|[<-|[<-|[]]]]]]]; done. }
    assert (Hsrc : sourced f = true) by (unfold sourced; rewrite Hcnt; by destruct (f_kind f =? 6)).
    split; rewrite ?Hsrc, ?Hcnt; try done; try congruence.
    + split; [done|congruence].
    + rewrite sm_complete0, Hcomp. symmetry. by apply Z.eqb_neq.
    + intros Hn. apply sm_sequence0. by apply negb_true_iff, Z.eqb_neq in Hn.
    + rewrite sm_next0. unfold rows. rewrite Hcnt. by destruct (f_kind f =? 6).
    + rewrite sm_events0. unfold rows. rewrite Hcnt. destruct (f_kind f =? 6) eqn:H6; [done|]. simpl.
      destruct (f_kind f =? 3) eqn:H3; [|done]. apply Z.eqb_eq in H3.
      by rewrite (source_end_empty _ Hc H3 : f_count f = 0).
Qed.

(** ** Whole traces *)

Record counted_so_far (fs : list frame) (c : core) : Prop := {
  cf_frames : tc_frames c = Z.of_nat (length fs);
  cf_started : tc_started c = true <-> fs <> [];
  cf_first f rest : fs = f :: rest -> f_kind f = 1;
  cf_control pre f post : fs = pre ++ f :: post ->
    (f_kind f = 1 -> pre = []) /\ (f_kind f = 4 -> post = [] /\ tc_complete c = true) /\ f_kind f <> 5;
  cf_last : tc_complete c = true -> dom (tc_next c) = tc_ended c /\
    exists rest f, fs = rest ++ [f] /\ f_kind f = 4 /\ h_detail (f_header f) = 0;
  cf_next s : default 0 (tc_next c !! s) = progress fs s;
  cf_named f : f ∈ fs -> sourced f = true -> f_source f ∈ dom (tc_next c);
  cf_ended s : s ∈ tc_ended c <-> exists f, f ∈ fs /\ ends s f;
  cf_numbered pre f post : fs = pre ++ f :: post -> counted f = true ->
    f_sequence f = progress pre (f_source f);
  cf_open pre f post : fs = pre ++ f :: post -> sourced f = true ->
    Forall (fun g => ~ ends (f_source f) g) pre;
  cf_events : msum (tc_events c) = zsum rows fs;
}.

Lemma new_core_counted : counted_so_far [] new_core.
Proof.
  split; try done.
  - by intros [|] ? ?.
  - intros f Hf. by apply not_elem_of_nil in Hf.
  - intros s. split; [set_solver|]. intros (f & Hf & _). by apply not_elem_of_nil in Hf.
  - by intros [|] ? ?.
  - by intros [|] ? ?.
Qed.

Lemma snoc_split {A} (fs pre post : list A) f g : fs ++ [f] = pre ++ g :: post ->
  (post = [] /\ g = f /\ pre = fs) \/ exists post', post = post' ++ [f] /\ fs = pre ++ g :: post'.
Proof.
  destruct post as [|x post _] using rev_ind; intros He.
  - apply app_inj_tail in He as [-> ->]. by left.
  - rewrite app_comm_cons, app_assoc in He. apply app_inj_tail in He as [-> ->]. right. by exists post.
Qed.

Lemma progress_snoc fs f s : progress (fs ++ [f]) s = progress fs s + rows_of s f.
Proof. unfold progress. rewrite zsum_app. unfold zsum at 2. simpl. lia. Qed.

Lemma unsourced_rows f : sourced f = false -> rows f = 0.
Proof. unfold sourced, rows. intros [-> _]%orb_false_iff. done. Qed.

Lemma moves_next f c c' s : moves f c c' ->
  default 0 (tc_next c' !! s) = default 0 (tc_next c !! s) + rows_of s f.
Proof.
  intros Hm. rewrite (mv_next _ _ _ Hm). unfold rows_of. destruct (sourced f) eqn:Hs.
  - destruct (Z.eqb_spec (f_source f) s) as [->|Hn].
    + by rewrite lookup_insert_eq.
    + rewrite lookup_insert_ne by done. lia.
  - rewrite (unsourced_rows f Hs). destruct (f_source f =? s); lia.
Qed.

Lemma counted_sourced f : counted f = true -> sourced f = true.
Proof. unfold sourced. by intros ->. Qed.

Lemma counted_step fs f c c' : counted_so_far fs c -> moves f c c' ->
  counted_so_far (fs ++ [f]) (add_frame c').
Proof.
  intros Hc Hm.
  split; simpl.
  - rewrite (mv_frames _ _ _ Hm), (cf_frames _ _ Hc), length_app. simpl. lia.
  - rewrite (mv_started _ _ _ Hm). split; [|done]. intros _ H. by apply app_eq_nil in H as [_ ?].
  - intros g rest Hg. destruct fs as [|g' fs].
    + injection Hg as <- _. apply (mv_hello _ _ _ Hm). destruct (tc_started c) eqn:E; [|done].
      by apply (cf_started _ _ Hc) in E.
    + injection Hg as -> _. by apply (cf_first _ _ Hc g fs).
  - intros pre g post Hsn. apply snoc_split in Hsn as [[-> [-> ->]]|[post' [-> Hfs]]].
    + rewrite (mv_complete _ _ _ Hm). split_and!; [|intros ->; done|apply (mv_error _ _ _ Hm)].
      intros Hk%(mv_hello _ _ _ Hm). destruct fs; [done|].
      by rewrite (proj2 (cf_started _ _ Hc)) in Hk.
    + destruct (cf_control _ _ Hc _ _ _ Hfs) as (H1 & H4 & H5). split_and!; [done| |done].
      intros [_ H]%H4. by rewrite (mv_open _ _ _ Hm) in H.
  - rewrite (mv_complete _ _ _ Hm). intros Hk%Z.eqb_eq.
    destruct (mv_exit _ _ _ Hm Hk) as [Hd He]. rewrite (mv_next _ _ _ Hm), (mv_ended _ _ _ Hm).
    assert (sourced f = false) as -> by (unfold sourced, counted; by rewrite Hk).
    rewrite Hk. split; [done|]. by exists fs, f.
  - intros s. by rewrite (moves_next f c c' s Hm), (cf_next _ _ Hc), progress_snoc.
  - intros g Hg Hs. rewrite (mv_next _ _ _ Hm).
    apply elem_of_app in Hg as [Hg|Hg]; [|apply list_elem_of_singleton in Hg as ->; rewrite Hs; set_solver].
    pose proof (cf_named _ _ Hc g Hg Hs). destruct (sourced f); set_solver.
  - intros s. rewrite (mv_ended _ _ _ Hm). pose proof (cf_ended _ _ Hc s) as He.
    setoid_rewrite elem_of_app. setoid_rewrite list_elem_of_singleton.
    destruct (f_kind f =? 3) eqn:Hk; bool_prop; unfold ends in *; set_solver.
  - intros pre g post Hsn Hg. apply snoc_split in Hsn as [[-> [-> ->]]|[post' [-> Hfs]]].
    + by rewrite (mv_sequence _ _ _ Hm Hg), (cf_next _ _ Hc).
    + by apply (cf_numbered _ _ Hc pre g post').
  - intros pre g post Hsn Hg. apply snoc_split in Hsn as [[-> [-> ->]]|[post' [-> Hfs]]].
    + apply Forall_forall. intros g Hin He. apply (mv_live _ _ _ Hm Hg), (cf_ended _ _ Hc). by exists g.
    + by apply (cf_open _ _ Hc pre g post').
  - rewrite (mv_events _ _ _ Hm), (cf_events _ _ Hc), zsum_app. unfold zsum at 3. simpl. lia.
Qed.

Lemma header_fields h : header_fits h -> unpack_fields header_format (encode_header h) =
  [wire_magic; h_version h; h_kind h; h_source h; h_count h; h_sequence h; h_detail h].
Proof. intros Hf. rewrite <- (app_nil_r (encode_header h)). by apply unpack_pack_fields. Qed.

Lemma payload_size_nonneg h : header_fits h -> check_header h = Ok h -> 0 <= payload_size h.
Proof.
  intros Hf Hc. unfold header_fits, header_format in Hf.
  repeat match goal with H : Forall2 _ (_ :: _) (_ :: _) |- _ => inversion H; clear H; subst end.
  unfold fits in *. destruct (check_kind_payload h) as (? & _); [lia|lia|done|]. done.
Qed.

Lemma slice_slice {A} o n m (p : list A) : slice o n p ++ slice (o + n) m p = slice o (n + m) p.
Proof. unfold slice. rewrite <- drop_drop. apply take_take_drop. Qed.

Lemma rows_nonneg fs : Forall frame_ok fs -> 0 <= zsum rows fs.
Proof.
  induction 1 as [|f fs Hf _ IH]; [done|]. rewrite zsum_cons. destruct Hf as (Hf & _).
  unfold header_fits, header_format in Hf.
  repeat match goal with H : Forall2 _ (_ :: _) (_ :: _) |- _ => inversion H; clear H; subst end.
  unfold fits, rows, f_count in *. destruct (counted f); lia.
Qed.

(** A round of the loop takes one frame off the buffer. *)
Lemma feed_frame_frame p o c c' o' : Forall is_byte p -> feed_frame p o c = (c', Ok (Some o')) ->
  exists f c1, frame_ok f /\ Forall is_byte (f_payload f) /\ slice o (o' - o) p = encode_frame f /\
    accept_frame (f_kind f) (f_source f) (f_count f) (f_sequence f) (h_detail (f_header f)) (f_payload f) c
      = (c1, Ok tt) /\ c' = add_frame c1.
Proof.
  intros Hb. unfold feed_frame. destruct (_ <? _)%nat eqn:H1; [done|]. apply Nat.ltb_ge in H1.
  set (header := slice o header_bytes p). intros H. apply sbind_Ok in H as (c0 & size & Hs & H).
  injection Hs as <- Hs. unfold native_payload_size in Hs. inv_res Hs. injection Hs as <-.
  destruct (_ <? _)%nat eqn:H2; [done|]. apply Nat.ltb_ge in H2.
  apply decode_header_Ok in Hv as (Hh & Hf & Hc); [|by apply Forall_take, Forall_drop].
  rewrite Hh, header_fields in H by done.
  apply sbind_Ok in H as (c1 & [] & Ha & H). injection H as <- <-.
  pose proof (payload_size_nonneg v Hf Hc) as Hp. set (size := Z.to_nat (payload_size v)) in *.
  exists (MkFrame v (slice (o + header_bytes) size p)), c1. split_and!; try done.
  - split_and!; try done. simpl. rewrite length_slice by (unfold header_bytes in *; lia). lia.
  - by apply Forall_take, Forall_drop.
  - unfold encode_frame. cbn [f_header f_payload]. rewrite <- Hh. subst header. rewrite slice_slice.
    f_equal. unfold header_bytes in *. lia.
Qed.

Lemma drained_frames p o c c' o' fs : Forall is_byte p -> (o <= length p)%nat -> counted_so_far fs c ->
  drained p o c = (c', Ok o') ->
  exists gs, slice o (o' - o) p = concat (encode_frame <$> gs) /\ Forall frame_ok gs /\
    counted_so_far (fs ++ gs) c'.
Proof.
  intros Hb. remember (length p - o)%nat as n eqn:Hn. revert o c fs Hn.
  induction n as [n IH] using lt_wf_ind; intros o c fs -> Ho Hc. rewrite drained_step.
  destruct (feed_frame p o c) as [c1 [[o1|]|e]] eqn:He; [| |done].
  - pose proof (feed_frame_bounds _ _ _ _ _ He) as Hbd. unfold header_bytes in Hbd.
    destruct (feed_frame_frame _ _ _ _ _ Hb He) as (f & c2 & Hf & Hfb & Hsl & Ha & ->).
    apply (accept_frame_moves f c c2 Hf Hfb) in Ha. intros Hd.
    pose proof (drained_stops _ _ _ _ _ (proj2 Hbd) Hd) as Hst.
    destruct (IH (length p - o1)%nat ltac:(lia) o1 (add_frame c2) (fs ++ [f]) eq_refl ltac:(lia)
      (counted_step _ _ _ _ Hc Ha) Hd) as (gs & Hgs & Hok & Hcs).
    exists (f :: gs). rewrite <- app_assoc in Hcs. split_and!; [|by constructor|done].
    rewrite fmap_cons. cbn [concat]. rewrite <- Hsl, <- Hgs.
    transitivity (slice o (o1 - o) p ++ slice (o + (o1 - o)) (o' - o1) p).
    + rewrite slice_slice. f_equal. lia.
    + do 2 f_equal. lia.
  - intros [= <- <-]. pose proof (feed_frame_none _ _ _ _ He) as ->. exists [].
    rewrite app_nil_r. replace (o - o)%nat with 0%nat by lia. split_and!; [done|constructor|done].
Qed.

(** A trace that the counter accepts is a whole trace. If feeding the reads of a stream
    returns and so does [finish], the bytes are exactly the encodings of a list of frames the
    native parser accepts, that list is a well-formed trace (Hello first, Complete with exit
    code zero last, every source's rows numbered without gap or repetition and ended exactly
    once), and the result reports its length, its bytes and as many events as it has rows. *)
Theorem finished_trace_sound (chunks : list (list Z)) (t : TraceCounter)
  (Hbytes : Forall (Forall is_byte) chunks) (Hfeed : feeds chunks new_counter = (t, Ok tt))
  (Hfinish : finish t = Ok tt) :
  exists fs, concat chunks = concat (encode_frame <$> fs) /\ Forall frame_ok fs /\
    well_formed_trace fs /\
    cr_frames (counted_result t) = Z.of_nat (length fs) /\
    cr_bytes (counted_result t) = Z.of_nat (length (concat chunks)) /\
    msum (cr_events (counted_result t)) = zsum rows fs /\ 0 < zsum rows fs.
Proof.
  assert (Hall : Forall is_byte (concat chunks)) by (by apply Forall_concat).
  assert (Hone : feed (concat chunks) new_counter = (t, Ok tt)).
  { destruct chunks as [|chunk chunks].
    - injection Hfeed as <-. vm_compute. reflexivity.
    - pose proof (feeds_cons chunk chunks new_counter) as Hs. unfold same_run in Hs. rewrite Hfeed in Hs.
      simpl concat. destruct (feed (chunk ++ concat chunks) new_counter) as [t' [[]|e]]; [by subst|done]. }
  rewrite feed_eq in Hone. simpl tc_pending in Hone. simpl tc_core in Hone. rewrite app_nil_l in Hone.
  destruct (drained (concat chunks) 0 new_core) as [c [o|e]] eqn:Hd; [|done].
  injection Hone as <-. unfold finish in Hfinish. simpl tc_pending in Hfinish. simpl tc_core in Hfinish.
  inv_res Hfinish. bool_prop.
  pose proof (drained_stops _ _ _ _ _ (Nat.le_0_l _) Hd) as Hst.
  assert (o = length (concat chunks)) as -> by (apply (f_equal length) in Hg; rewrite length_drop in Hg; simpl in Hg; lia).
  destruct (drained_frames _ _ _ _ _ [] Hall (Nat.le_0_l _) new_core_counted Hd) as (fs & Hfs & Hok & Hcs).
  simpl app in Hcs. rewrite Nat.sub_0_r in Hfs. unfold slice in Hfs. rewrite drop_0, take_ge in Hfs by lia.
  exists fs.
  destruct (cf_last _ _ Hcs Hg0) as (Hdom & rest & e & He & Hk & Hdet).
  split_and!; [done|done| |apply (cf_frames _ _ Hcs)|done|apply (cf_events _ _ Hcs)|].
  - split; [| | |apply (cf_numbered _ _ Hcs)|apply (cf_open _ _ Hcs)|].
    + destruct fs as [|f fs]; [by destruct rest|]. exists f, fs. split; [done|]. by apply (cf_first _ _ Hcs f fs).
    + by exists rest, e.
    + intros pre f post Hsp. destruct (cf_control _ _ Hcs _ _ _ Hsp) as (H1 & H4 & H5).
      split_and!; [done| |done]. intros Hk4. by apply H4.
    + intros f Hf Hs. pose proof (cf_named _ _ Hcs f Hf Hs) as Hn. rewrite Hdom in Hn.
      by apply (cf_ended _ _ Hcs) in Hn.
  - rewrite (cf_events _ _ Hcs) in Hg1. pose proof (rows_nonneg _ Hok). lia.
Qed.

(** A trace of one source: two block rows, a mixed frame of one more, its end. *)
Definition example_trace : list frame :=
  [MkFrame (MkHeader 1 0 0 0 (Z.lor 1 MIXED_FEATURE) 2) [];
   MkFrame (MkHeader 2 3 2 0 0 2) (replicate 16 7);
   MkFrame (MkHeader 14 3 1 2 16 2) (pack_fields RUN_HEADER [2; 1; 8] ++ replicate 8 9);
   MkFrame (MkHeader 3 3 0 3 0 2) [];
   MkFrame (MkHeader 4 0 0 0 0 2) []].
Definition example_reads : list (list Z) :=
  let bytes := concat (encode_frame <$> example_trace) in [take 45 bytes; slice 45 70 bytes; drop 115 bytes].
Definition example_counter : TraceCounter := (feeds example_reads new_counter).1.

Lemma finished_trace_sound_witness :
  exists fs, concat example_reads = concat (encode_frame <$> fs) /\ well_formed_trace fs /\
    zsum rows fs = 3.
Proof.
  destruct (finished_trace_sound example_reads example_counter) as (fs & H1 & _ & H2 & _ & _ & H3 & _).
  - apply Forall_forall. intros chunk Hc. apply Forall_forall. intros b Hb.
    assert (Hd : forallb (forallb (fun b => bool_decide (is_byte b))) example_reads = true)
      by (vm_compute; reflexivity).
    rewrite forallb_forall in Hd. specialize (Hd chunk (proj1 (list_elem_of_In _ _) Hc)).
    rewrite forallb_forall in Hd. specialize (Hd b (proj1 (list_elem_of_In _ _) Hb)).
    by apply bool_decide_eq_true_1 in Hd.
  - vm_compute. reflexivity.
  - vm_compute. reflexivity.
  - exists fs. split_and!; [exact H1|exact H2|]. rewrite <- H3. vm_compute. reflexivity.
Defined.
