(* ===== verification/FileSearch.v ===== *)
(** * Searching a log without keeping it ([examples/benchmark_capture.py]: [file_contains])

    The search reads the file in chunks and keeps only the end of what it has
    seen. It finds the needle exactly when the whole file contains it. *)

From S2P Require Import Prelude.

(** [needle in data] for byte strings. *)
Fixpoint prefix_of (needle data : list Z) : bool :=
  match needle, data with
  | [], _ => true
  | a :: needle, b :: data => (a =? b) && prefix_of needle data
  | _ :: _, [] => false
  end.
Fixpoint bytes_in (needle data : list Z) : bool :=
  prefix_of needle data ||
  match data with
  | [] => false
  | _ :: data => bytes_in needle data
  end.

(** [combined[-k:]]: all of it when [k] is zero, as Python reads [-0]. *)
Definition last_bytes (k : nat) (l : list Z) : list Z :=
  if (k =? 0)%nat then l else drop (length l - k) l.

(** The [while] over the reads of the stream, each of them not empty. *)
Fixpoint search_reads (needle previous : list Z) (reads : list (list Z)) : bool :=
  match reads with
  | [] => false
  | data :: reads =>
      let combined := previous ++ data in
      if bytes_in needle combined then true
      else search_reads needle
             (if (1 <? length needle)%nat then last_bytes (Nat.max 0 (length needle - 1)) combined else [])
             reads
  end.

Definition file_contains (reads : list (list Z)) (needle : list Z) : bool := search_reads needle [] reads.

(** ** Correctness *)

Definition occurs (needle data : list Z) : Prop := exists pre post, data = pre ++ needle ++ post.

Lemma prefix_of_spec needle data : prefix_of needle data = true <-> exists post, data = needle ++ post.
Proof.
  revert data; induction needle as [|a needle IH]; intros data; simpl.
  { split; [|done]. intros _. by exists data. }
  destruct data as [|b data]; [split; [done|by intros (? & ?)]|].
  rewrite andb_true_iff, IH, Z.eqb_eq. split.
  - intros (-> & post & ->). by exists post.
  - intros (post & [= -> ->]). split; [done|]. by exists post.
Qed.

Lemma bytes_in_spec needle data : bytes_in needle data = true <-> occurs needle data.
Proof.
  induction data as [|b data IH]; cbn [bytes_in]; rewrite orb_true_iff, prefix_of_spec.
  - split.
    + intros [(post & E)|?]; [|done]. by exists [], post.
    + intros (pre & post & E). left. exists post. by destruct pre.
  - rewrite IH. split.
    + intros [(post & E)|(pre & post & ->)]; [by exists [], post|]. by exists (b :: pre), post.
    + intros (pre & post & E). destruct pre as [|x pre]; [left; by exists post|right].
      injection E as -> ->. by exists pre, post.
Qed.

(** An occurrence in [a ++ b] is in [a], or in [b] with the last bytes of [a] before it. *)
Lemma occurs_app needle a b k : (length needle <= S k)%nat -> occurs needle (a ++ b) ->
  occurs needle a \/ occurs needle (drop (length a - k) a ++ b).
Proof.
  intros Hk (pre & post & E). destruct (decide (length pre + length needle <= length a)%nat) as [Hle|Hgt].
  - left. exists pre, (drop (length pre + length needle) a).
    assert (Ha : take (length a) (a ++ b) = a) by (by rewrite take_app_length).
    rewrite <- Ha at 1. rewrite E, app_assoc, take_app_ge by (rewrite length_app; lia).
    rewrite <- app_assoc. do 2 f_equal.
    assert (Hd : drop (length pre + length needle) (a ++ b) = post)
      by (rewrite E, app_assoc, drop_app_length'; [done|by rewrite length_app]).
    rewrite drop_app_le in Hd by lia. rewrite <- Hd, length_app.
    rewrite take_app_le by (rewrite length_drop; lia). rewrite take_ge; [done|rewrite length_drop; lia].
  - right. assert (Hp : (length a - k <= length pre)%nat) by lia.
    exists (drop (length a - k) pre), post.
    rewrite <- (drop_app_le pre (needle ++ post)) by done. rewrite <- E.
    by rewrite drop_app_le by lia.
Qed.

Lemma occurs_r needle a b : occurs needle b -> occurs needle (a ++ b).
Proof. intros (pre & post & ->). exists (a ++ pre), post. by rewrite app_assoc. Qed.
Lemma occurs_l needle a b : occurs needle a -> occurs needle (a ++ b).
Proof. intros (pre & post & ->). exists pre, (post ++ b). by rewrite <- !app_assoc. Qed.

Lemma last_bytes_drop k l : (0 < k)%nat -> last_bytes k l = drop (length l - k) l.
Proof. intros Hk. unfold last_bytes. destruct k; [lia|done]. Qed.

Lemma search_reads_spec needle previous reads : needle <> [] ->
  ~ occurs needle previous ->
  search_reads needle previous reads = true <-> occurs needle (previous ++ concat reads).
Proof.
  intros Hn. revert previous; induction reads as [|data reads IH]; intros previous Hp; simpl.
  { rewrite app_nil_r. by split. }
  destruct (bytes_in needle (previous ++ data)) eqn:Hb.
  { apply bytes_in_spec in Hb. split; [|done]. intros _. rewrite app_assoc. by apply occurs_l. }
  assert (Hno : ~ occurs needle (previous ++ data)) by (intros H; apply bytes_in_spec in H; congruence).
  set (kept := if (1 <? length needle)%nat then _ else []).
  assert (Hkept : kept = drop (length (previous ++ data) - (length needle - 1)) (previous ++ data)).
  { subst kept. destruct (1 <? length needle)%nat eqn:H1; bool_prop.
    - apply last_bytes_drop. lia.
    - rewrite drop_ge; [done|]. lia. }
  clearbody kept. subst kept. set (k := (length needle - 1)%nat). rewrite IH.
  - rewrite app_assoc. split.
    + intros Ho. rewrite <- (take_drop (length (previous ++ data) - k) (previous ++ data)), <- app_assoc.
      by apply occurs_r.
    + intros Ho. destruct (occurs_app needle (previous ++ data) (concat reads) k) as [H|H]; [|done|done|done].
      subst k. destruct needle; [done|simpl; lia].
  - intros Ho. apply Hno. rewrite <- (take_drop (length (previous ++ data) - k) (previous ++ data)).
    by apply occurs_r.
Qed.

(** The streaming search is exact. For a needle that is not empty (the manifest admits no
    other), [file_contains] answers yes exactly when the needle occurs in the whole file,
    however the file is cut into reads, although it keeps fewer bytes than the needle has. *)
Theorem file_contains_exact (reads : list (list Z)) (needle : list Z) (Hneedle : needle <> []) :
  file_contains reads needle = bytes_in needle (concat reads).
Proof.
  apply eq_true_iff_eq. rewrite bytes_in_spec. unfold file_contains.
  rewrite search_reads_spec; [done|done|]. intros (pre & post & E). by destruct pre, needle.
Qed.

Lemma file_contains_exact_witness :
  file_contains [[1; 2]; [3]; [4; 5]] [2; 3; 4] = bytes_in [2; 3; 4] [1; 2; 3; 4; 5].
Proof. apply (file_contains_exact [[1; 2]; [3]; [4; 5]] [2; 3; 4]). discriminate. Defined.
