(* ===== verification/ModelBatch.v ===== *)
(** * The multimodal model's batches and masks ([examples/hardware_multimodal.py])

    The tensors of a model batch are nested lists of binary32 numbers indexed
    by execution, CPU slot and token, so device and dtype are those of the type; the shape and
    value checks of the dataclasses are executable. The masks drawn for
    training, with the random generator as a parameter, and the complementary
    masks used for scoring. The neural network itself is not modelled. *)

From Stdlib Require SpecFloat.
From S2P Require Import Prelude Floats.

(** ** Batches *)

(** A tensor of shape [batch, cpu, token], of elements [A]. *)
Notation grid A := (list (list (list A))).

Definition SEGMENTS : nat := 16.
Definition BYTE_VALUES : nat := 256.
Definition TOKENS : nat := 33.

Record ModelBatch := MkModelBatch {
  mo_pt : grid (list float);
  mo_pebs : grid (list float);
  mo_pmu : grid (list float);
  mo_pt_available : grid bool;
  mo_pebs_available : grid bool;
  mo_pmu_available : grid bool;
  mo_time_bounds : grid (float * float);
  mo_timing_quality : grid float;
}.

(** [tensor.shape[:3] == (batch, cpus, tokens)] *)
Definition shaped {A} (batch cpus tokens : nat) (g : grid A) : bool :=
  (length g =? batch)%nat &&
  forallb (fun row => (length row =? cpus)%nat &&
    forallb (fun cell => length cell =? tokens)%nat row) g.

(** All elements of a tensor, in order; and whether the last axis has [n] entries. *)
Definition flat {A} (g : grid A) : list A := concat (concat g).
Definition widths {A} (n : nat) (g : grid (list A)) : bool :=
  forallb (fun l => length l =? n)%nat (flat g).
Definition no_features {A} (g : grid (list A)) : bool :=
  match flat g with l :: _ => (length l =? 0)%nat | [] => false end.
Definition width {A} (g : grid (list A)) : nat := match flat g with l :: _ => length l | [] => 0%nat end.

Definition batch_size (m : ModelBatch) : nat := length (mo_pt m).
Definition cpu_count (m : ModelBatch) : nat := match mo_pt m with row :: _ => length row | [] => 0%nat end.

(** [torch.cat((a, b, c), dim=2)] *)
Definition cat_tokens {A} (a b c : grid A) : grid A :=
  zip_with (zip_with (fun x y => x ++ y)) (zip_with (zip_with (fun x y => x ++ y)) a b) c.
Definition token_availability (m : ModelBatch) : grid bool :=
  cat_tokens (mo_pt_available m) (mo_pebs_available m) (mo_pmu_available m).

(** [value[mask]] *)
Definition selected {A} (g : grid A) (mask : grid bool) : list A :=
  fst <$> filter (fun p => p.2 = true) (zip (flat g) (flat mask)).

Definition check_model_batch (m : ModelBatch) : result unit :=
  let batch := batch_size m in
  let cpus := cpu_count m in
  raise! ValueError "PT must have shape [batch, cpu, 16, 256]"
    when negb (shaped batch cpus SEGMENTS (mo_pt m) && widths BYTE_VALUES (mo_pt m)) in
  raise! ValueError "PEBS must have shape [batch, cpu, 16, features]"
    when negb (shaped batch cpus SEGMENTS (mo_pebs m) && widths (width (mo_pebs m)) (mo_pebs m)) in
  raise! ValueError "PMU must have shape [batch, cpu, 1, features]"
    when negb (shaped batch cpus 1 (mo_pmu m) && widths (width (mo_pmu m)) (mo_pmu m)) in
  raise! ValueError "PEBS and PMU need at least one feature"
    when no_features (mo_pebs m) || no_features (mo_pmu m) in
  raise! ValueError "availability shapes must match their modality tokens"
    when negb (shaped batch cpus SEGMENTS (mo_pt_available m) &&
               shaped batch cpus SEGMENTS (mo_pebs_available m) &&
               shaped batch cpus 1 (mo_pmu_available m)) in
  raise! ValueError "time bounds must have shape [batch, cpu, 33, 2]"
    when negb (shaped batch cpus TOKENS (mo_time_bounds m)) in
  raise! ValueError "timing quality must have shape [batch, cpu, 33]"
    when negb (shaped batch cpus TOKENS (mo_timing_quality m)) in
  let available := token_availability m in
  let all_finite := forallb (forallb finite) in
  raise! ValueError "available modality features must be finite"
    when negb (all_finite (selected (mo_pt m) (mo_pt_available m)) &&
               all_finite (selected (mo_pebs m) (mo_pebs_available m)) &&
               all_finite (selected (mo_pmu m) (mo_pmu_available m))) in
  let bounds := selected (mo_time_bounds m) available in
  raise! ValueError "available token time bounds must be finite"
    when negb (forallb (fun b => finite b.1 && finite b.2) bounds) in
  raise! ValueError "time bounds must not run backwards"
    when existsb (fun b => SpecFloat.SFltb b.2 b.1) bounds in
  let quality := selected (mo_timing_quality m) available in
  raise! ValueError "available timing quality must be finite and in [0, 1]"
    when negb (forallb finite quality) ||
         existsb (fun q => SpecFloat.SFltb q zero || SpecFloat.SFltb (float32_of_int 1) q) quality in
  raise! ValueError "every CPU slot must contain at least one available token"
    when existsb (existsb (fun cell => negb (existsb id cell))) available in
  Ok tt.

(** The dataclass constructor. *)
Definition model_batch (m : ModelBatch) : result ModelBatch := let! _ := check_model_batch m in Ok m.

(** [tensor.index_select(0, indices)] *)
Definition select_rows {A} (indices : list nat) (g : list A) : result (list A) :=
  rmap (fun i => match g !! i with Some x => Ok x | None => throw IndexError "index out of range" end) indices.

Definition index_select (indices : list nat) (m : ModelBatch) : result ModelBatch :=
  let! pt := select_rows indices (mo_pt m) in
  let! pebs := select_rows indices (mo_pebs m) in
  let! pmu := select_rows indices (mo_pmu m) in
  let! pt_available := select_rows indices (mo_pt_available m) in
  let! pebs_available := select_rows indices (mo_pebs_available m) in
  let! pmu_available := select_rows indices (mo_pmu_available m) in
  let! time_bounds := select_rows indices (mo_time_bounds m) in
  let! timing_quality := select_rows indices (mo_timing_quality m) in
  model_batch (MkModelBatch pt pebs pmu pt_available pebs_available pmu_available time_bounds timing_quality).

(** ** Masks *)

Record MaskedTokens := MkMasked { mk_pt : grid bool; mk_pebs : grid bool; mk_pmu : grid bool }.

Definition dims {A} (g : grid A) : list (list nat) := map (map length) g.

Definition masked_tokens (pt pebs pmu : grid bool) : result MaskedTokens :=
  raise! ValueError "masked-token shapes do not match the fixed modalities"
    when negb (bool_decide (dims pt = dims pebs)) ||
         negb (bool_decide (dims pmu = map (map (fun _ => 1%nat)) pt)) in
  Ok (MkMasked pt pebs pmu).

(** [round(x)] of a finite float: to the nearest integer, ties to even. *)
Definition py_round (f : float) : Z :=
  match f with
  | SpecFloat.S754_finite s m e =>
      let z := if 0 <=? e then Z.pos m * 2 ^ e
               else let d := 2 ^ (- e) in
                    let q := Z.pos m / d in
                    let r := Z.pos m mod d in
                    if (2 * r <? d) || ((2 * r =? d) && Z.even q) then q else q + 1 in
      if s then - z else z
  | _ => 0
  end.

Section masks.
(** A random generator: [torch.rand(())] and [torch.randint(low, high, ())]. *)
Context {G : Type} (rand : G -> float * G) (randint : Z -> Z -> G -> Z * G).

Definition count_true (l : list bool) : Z := Z.of_nat (length (filter (fun b => b = true) l)).

(** [mask[start:stop] |= available[start:stop]] *)
Definition mask_span (start stop : Z) (available mask : list bool) : list bool :=
  imap (fun i b => let i := Z.of_nat i in
    b || ((start <=? i) && (i <? stop) && default false (available !! Z.to_nat i))) mask.

(** The [while] over at most [attempts] random spans. *)
Fixpoint mask_spans (attempts : nat) (target maximum_span : Z) (available mask : list bool) (g : G)
    : list bool * G :=
  match attempts with
  | O => (mask, g)
  | S attempts =>
      if target <=? count_true mask then (mask, g)
      else
        let width := Z.of_nat (length available) in
        let '(span, g) := randint 1 (maximum_span + 1) g in
        let '(start, g) := randint 0 width g in
        let stop := Z.min width (start + span) in
        mask_spans attempts target maximum_span available (mask_span start stop available mask) g
  end.

(** The first available token, masked when the spans missed all of them. *)
Definition mask_first (available mask : list bool) : list bool :=
  match list_find (fun b => b = true) available with
  | Some (first, _) => <[first := true]> mask
  | None => mask
  end.

Definition mask_cell (masked_fraction : float) (maximum_span : Z) (available : list bool) (g : G)
    : list bool * G :=
  let empty := replicate (length available) false in
  let valid_count := count_true available in
  if valid_count =? 0 then (empty, g) else
  let target := Z.max 1 (py_round (fmul (float_of_int valid_count) masked_fraction)) in
  let '(mask, g) := mask_spans 32 target maximum_span available empty g in
  ((if existsb id mask then mask else mask_first available mask), g).

(** The CPU slots of one execution and modality, in order. *)
Fixpoint mask_cpus (masked_fraction : float) (maximum_span : Z) (row : list (list bool)) (g : G)
    : list (list bool) * G :=
  match row with
  | [] => ([], g)
  | cell :: row =>
      let '(mask, g) := mask_cell masked_fraction maximum_span cell g in
      let '(masks, g) := mask_cpus masked_fraction maximum_span row g in
      (mask :: masks, g)
  end.

(** One modality of one execution: all of it when the draw selected it. *)
Definition mask_modality (masked_fraction : float) (maximum_span selected modality : Z)
    (row : list (list bool)) (g : G) : list (list bool) * G :=
  if modality =? selected then (row, g) else mask_cpus masked_fraction maximum_span row g.

Definition mask_row (masked_fraction : float) (maximum_span : Z) (whole_probability : float)
    (pt pebs pmu : list (list bool)) (g : G)
    : list (list bool) * list (list bool) * list (list bool) * G :=
  let '(draw, g) := rand g in
  let '(sel, g) := if SpecFloat.SFltb draw (float32 whole_probability) then randint 0 3 g else (-1, g) in
  let '(pt, g) := mask_modality masked_fraction maximum_span sel 0 pt g in
  let '(pebs, g) := mask_modality masked_fraction maximum_span sel 1 pebs g in
  let '(pmu, g) := mask_modality masked_fraction maximum_span sel 2 pmu g in
  (pt, pebs, pmu, g).

Fixpoint mask_rows (masked_fraction : float) (maximum_span : Z) (whole_probability : float)
    (pt pebs pmu : grid bool) (g : G) : grid bool * grid bool * grid bool * G :=
  match pt, pebs, pmu with
  | a :: pt, b :: pebs, c :: pmu =>
      let '(a, b, c, g) := mask_row masked_fraction maximum_span whole_probability a b c g in
      let '(pt, pebs, pmu, g) := mask_rows masked_fraction maximum_span whole_probability pt pebs pmu g in
      (a :: pt, b :: pebs, c :: pmu, g)
  | _, _, _ => ([], [], [], g)
  end.

Definition make_training_masks (masked_fraction : float) (maximum_span : Z) (whole_probability : float)
    (m : ModelBatch) (g : G) : result (MaskedTokens * G) :=
  raise! ValueError "mask fraction and maximum span must be positive"
    when negb (SpecFloat.SFltb zero masked_fraction && SpecFloat.SFleb masked_fraction (float_of_int 1)) ||
         (maximum_span <=? 0) in
  raise! ValueError "whole-modality probability must be in [0, 1]"
    when negb (SpecFloat.SFleb zero whole_probability && SpecFloat.SFleb whole_probability (float_of_int 1)) in
  let '(pt, pebs, pmu, g) := mask_rows masked_fraction maximum_span whole_probability
    (mo_pt_available m) (mo_pebs_available m) (mo_pmu_available m) g in
  let! masks := masked_tokens pt pebs pmu in
  Ok (masks, g).
End masks.

(** ** Scoring plans *)

(** [torch.zeros_like(available)] *)
Definition zeros_like (g : grid bool) : grid bool := map (map (map (fun _ => false))) g.

(** [available & (positions % 2 == parity)] *)
Definition parity_mask (parity : nat) (g : grid bool) : grid bool :=
  map (map (imap (fun i b => b && (i mod 2 =? parity)%nat))) g.

Inductive modality := PT | PEBS | PMU.
#[global] Instance modality_eq_dec : EqDecision modality.
Proof. solve_decision. Defined.

Definition available_of (k : modality) (m : ModelBatch) : grid bool :=
  match k with PT => mo_pt_available m | PEBS => mo_pebs_available m | PMU => mo_pmu_available m end.
Definition mask_of (k : modality) (t : MaskedTokens) : grid bool :=
  match k with PT => mk_pt t | PEBS => mk_pebs t | PMU => mk_pmu t end.

(** The masks of one plan: [g] for modality [k], nothing for the others. *)
Definition single_mask (k : modality) (g : grid bool) (m : ModelBatch) : result MaskedTokens :=
  let pick j := if decide (j = k) then g else zeros_like (available_of j m) in
  masked_tokens (pick PT) (pick PEBS) (pick PMU).

Definition scoring_plans (m : ModelBatch) : result (list (modality * MaskedTokens)) :=
  let plan k g := let! t := single_mask k g m in Ok (k, t) in
  let three k := let g := available_of k m in [(k, parity_mask 0 g); (k, parity_mask 1 g); (k, g)] in
  rmap (fun p => plan p.1 p.2) (three PT ++ three PEBS ++ [(PMU, mo_pmu_available m)]).
