(* ===== verification/ModelMasks.v ===== *)
(** * Masks hide and score what is there ([examples/hardware_multimodal.py])

    Whatever the random generator draws, training masks hide only available
    tokens and at least one wherever there is one; the scoring plans mask
    exactly the available tokens, one modality at a time. *)

From Stdlib Require SpecFloat.
From S2P Require Import Prelude Floats ModelBatch.

(** ** Training masks *)

(** A mask of one CPU slot: within the available tokens, and not empty unless they are. *)
Definition masks_cell (available mask : list bool) : Prop :=
  Forall2 (fun a b => b = true -> a = true) available mask /\
  (existsb id available = true -> existsb id mask = true).
Definition masks_grid (available mask : grid bool) : Prop := Forall2 (Forall2 masks_cell) available mask.

Definition within (available mask : list bool) : Prop :=
  Forall2 (fun a b => b = true -> a = true) available mask.

Lemma within_empty available : within available (replicate (length available) false).
Proof. induction available; simpl; constructor; done. Qed.

Lemma within_span start stop available mask : within available mask ->
  within available (mask_span start stop available mask).
Proof.
  intros Hw. apply Forall2_same_length_lookup. unfold mask_span. rewrite length_imap.
  split; [by eapply Forall2_length|]. intros i a b Ha Hb.
  rewrite list_lookup_imap in Hb. destruct (mask !! i) as [b0|] eqn:Hi; [|done]. simpl in Hb.
  injection Hb as <-. rewrite Nat2Z.id, Ha. simpl. intros [H|H]%orb_true_iff.
  - by apply (Forall2_lookup_lr _ _ _ _ _ _ Hw Ha Hi).
  - by apply andb_true_iff in H as [_ H].
Qed.

Section training.
Context {G : Type} (rand : G -> float * G) (randint : Z -> Z -> G -> Z * G).

Lemma mask_spans_within n target maximum_span available mask g : within available mask ->
  within available (mask_spans randint n target maximum_span available mask g).1.
Proof.
  revert mask g; induction n as [|n IH]; intros mask g Hw; [done|]. simpl.
  destruct (_ <=? _); [done|]. destruct (randint 1 _ g) as [span g1].
  destruct (randint 0 _ g1) as [start g2]. by apply IH, within_span.
Qed.

Lemma mask_first_within available mask : within available mask -> within available (mask_first available mask).
Proof.
  intros Hw. unfold mask_first. destruct (list_find _ available) as [[i b]|] eqn:Hf; [|done].
  apply list_find_Some in Hf as (Hi & -> & _).
  apply Forall2_same_length_lookup. rewrite length_insert. split; [by eapply Forall2_length|].
  intros j a b Ha Hb. destruct (decide (i = j)) as [<-|Hne]; [congruence|].
  rewrite list_lookup_insert_ne in Hb by done. by apply (Forall2_lookup_lr _ _ _ _ _ _ Hw Ha Hb).
Qed.

Lemma existsb_lookup (l : list bool) i : l !! i = Some true -> existsb id l = true.
Proof.
  intros Hi. apply existsb_exists. exists true. split; [|done]. apply list_elem_of_In.
  by eapply list_elem_of_lookup_2.
Qed.

Lemma mask_first_some available mask : within available mask -> existsb id available = true ->
  existsb id (mask_first available mask) = true.
Proof.
  intros Hw (b & Hin & Hb)%existsb_exists. unfold id in Hb. subst b.
  unfold mask_first. destruct (list_find _ available) as [[i b]|] eqn:Hf.
  - apply list_find_Some in Hf as (Hi & -> & _). apply (existsb_lookup _ i).
    apply list_lookup_insert_eq. rewrite <- (Forall2_length _ _ _ Hw). by eapply lookup_lt_Some.
  - apply list_find_None in Hf. rewrite Forall_forall in Hf.
    by destruct (Hf true (proj2 (list_elem_of_In _ _) Hin)).
Qed.

Lemma count_true_zero l : count_true l = 0 -> existsb id l = false.
Proof.
  unfold count_true. intros Hc. destruct (existsb id l) eqn:He; [|done].
  apply existsb_exists in He as (b & Hin & Hb). unfold id in Hb. subst b.
  assert (Hf : true ∈ filter (fun b => b = true) l) by (apply list_elem_of_filter; by rewrite list_elem_of_In).
  destruct (filter _ l); [by apply not_elem_of_nil in Hf|done].
Qed.

Lemma mask_cell_ok fraction maximum_span available g :
  masks_cell available (mask_cell randint fraction maximum_span available g).1.
Proof.
  unfold mask_cell. destruct (_ =? 0) eqn:Hz.
  { apply Z.eqb_eq, count_true_zero in Hz. split; [apply within_empty|congruence]. }
  destruct (mask_spans _ _ _ _ _ _ _) as [mask g'] eqn:Hm. simpl.
  assert (Hw : within available mask).
  { pose proof (mask_spans_within 32 (Z.max 1 (py_round (fmul (float_of_int (count_true available)) fraction)))
      maximum_span available _ g (within_empty available)) as Hw. by rewrite Hm in Hw. }
  destruct (existsb id mask) eqn:He; [done|].
  split; [by apply mask_first_within|by apply mask_first_some].
Qed.

Lemma mask_cpus_ok fraction maximum_span row g :
  Forall2 masks_cell row (mask_cpus randint fraction maximum_span row g).1.
Proof.
  revert g; induction row as [|cell row IH]; intros g; [constructor|]. simpl.
  pose proof (mask_cell_ok fraction maximum_span cell g) as Hc.
  destruct (mask_cell _ _ _ cell g) as [mask g1]. specialize (IH g1).
  destruct (mask_cpus _ _ _ row g1) as [masks g2]. by constructor.
Qed.

Lemma masks_self row : Forall2 masks_cell row row.
Proof.
  induction row as [|cell row IH]; constructor; [|done]. split; [|done].
  clear. induction cell; by constructor.
Qed.

Lemma mask_modality_ok fraction maximum_span sel k row g :
  Forall2 masks_cell row (mask_modality randint fraction maximum_span sel k row g).1.
Proof. unfold mask_modality. destruct (_ =? _); [apply masks_self|apply mask_cpus_ok]. Qed.

Lemma mask_rows_ok fraction maximum_span whole pt pebs pmu g : length pt = length pebs ->
  length pt = length pmu ->
  let '(pt', pebs', pmu', _) := mask_rows rand randint fraction maximum_span whole pt pebs pmu g in
  masks_grid pt pt' /\ masks_grid pebs pebs' /\ masks_grid pmu pmu'.
Proof.
  revert pebs pmu g; induction pt as [|a pt IH]; intros [|b pebs] [|c pmu] g H1 H2; try done.
  { by split_and!; constructor. }
  simpl. unfold mask_row. destruct (rand g) as [draw g0].
  destruct (if SpecFloat.SFltb draw (float32 whole) then _ else _) as [sel g1].
  pose proof (mask_modality_ok fraction maximum_span sel 0 a g1) as Ha.
  destruct (mask_modality _ _ _ sel 0 a g1) as [a' g2].
  pose proof (mask_modality_ok fraction maximum_span sel 1 b g2) as Hb.
  destruct (mask_modality _ _ _ sel 1 b g2) as [b' g3].
  pose proof (mask_modality_ok fraction maximum_span sel 2 c g3) as Hc.
  destruct (mask_modality _ _ _ sel 2 c g3) as [c' g4].
  specialize (IH pebs pmu g4 ltac:(simpl in *; lia) ltac:(simpl in *; lia)).
  destruct (mask_rows _ _ _ _ _ pt pebs pmu g4) as [[[pt' pebs'] pmu'] g5].
  destruct IH as (I1 & I2 & I3). by split_and!; constructor.
Qed.

Lemma masks_dims available mask : masks_grid available mask -> dims mask = dims available.
Proof.
  intros H. unfold dims. induction H as [|row mrow available mask Hr _ IH]; [done|]. simpl. rewrite IH. f_equal.
  clear IH. induction Hr as [|cell mcell row mrow [Hc _] _ IH]; [done|]. simpl. rewrite IH. f_equal.
  by apply Forall2_length in Hc.
Qed.
End training.

(** What the shape checks of a batch give. *)
Lemma shaped_dims {A} batch cpus tokens (g : grid A) : shaped batch cpus tokens g = true ->
  dims g = replicate batch (replicate cpus tokens).
Proof.
  unfold shaped. intros [<-%Nat.eqb_eq Hf]%andb_true_iff. unfold dims.
  induction g as [|row g IH]; [done|]. simpl in *. apply andb_true_iff in Hf as [Hr Hf].
  rewrite IH by done. f_equal. clear IH Hf. apply andb_true_iff in Hr as [<-%Nat.eqb_eq Hr].
  induction row as [|cell row IH]; [done|]. simpl in *. apply andb_true_iff in Hr as [Hc%Nat.eqb_eq Hr].
  by rewrite IH, Hc.
Qed.

Lemma model_dims m : check_model_batch m = Ok tt ->
  exists batch cpus, dims (mo_pt_available m) = replicate batch (replicate cpus 16%nat) /\
    dims (mo_pebs_available m) = replicate batch (replicate cpus 16%nat) /\
    dims (mo_pmu_available m) = replicate batch (replicate cpus 1%nat).
Proof.
  unfold check_model_batch. intros H. inv_res H. bool_prop.
  exists (batch_size m), (cpu_count m). split_and!; by apply shaped_dims.
Qed.

Lemma masked_tokens_Ok pt pebs pmu batch cpus : dims pt = replicate batch (replicate cpus 16%nat) ->
  dims pebs = replicate batch (replicate cpus 16%nat) -> dims pmu = replicate batch (replicate cpus 1%nat) ->
  masked_tokens pt pebs pmu = Ok (MkMasked pt pebs pmu).
Proof.
  intros H1 H2 H3. unfold masked_tokens.
  assert (E : map (map (fun _ => 1%nat)) pt = replicate batch (replicate cpus 1%nat)).
  { clear H2 H3. revert pt H1. induction batch as [|batch IH]; intros [|row pt] H1; try done.
    simpl in *. injection H1 as Hr H1. rewrite IH by done. f_equal. clear -Hr.
    revert row Hr. induction cpus as [|cpus IH]; intros [|cell row] Hr; try done. simpl in *.
    injection Hr as _ Hr. by rewrite IH. }
  rewrite !bool_decide_eq_true_2; [done|congruence|congruence].
Qed.

Lemma dims_length {A B} (g : grid A) (h : grid B) : dims g = dims h -> length g = length h.
Proof. intros H. apply (f_equal length) in H. unfold dims in H. by rewrite !length_map in H. Qed.

(** Training masks are sound for every random draw. For a valid batch and accepted mask
    parameters, [make_training_masks] returns, and in every execution, modality and CPU slot
    it hides only available tokens, and at least one of them wherever there is one, so that a
    reconstruction target always exists. *)
Theorem training_masks_sound {G} (rand : G -> float * G) (randint : Z -> Z -> G -> Z * G)
  (fraction whole : float) (maximum_span : Z) (m : ModelBatch) (g : G)
  (Hm : check_model_batch m = Ok tt) (Hspan : 0 < maximum_span)
  (Hfraction : SpecFloat.SFltb zero fraction && SpecFloat.SFleb fraction (float_of_int 1) = true)
  (Hwhole : SpecFloat.SFleb zero whole && SpecFloat.SFleb whole (float_of_int 1) = true) :
  exists masks g', make_training_masks rand randint fraction maximum_span whole m g = Ok (masks, g') /\
    masks_grid (mo_pt_available m) (mk_pt masks) /\ masks_grid (mo_pebs_available m) (mk_pebs masks) /\
    masks_grid (mo_pmu_available m) (mk_pmu masks).
Proof.
  destruct (model_dims m Hm) as (batch & cpus & D1 & D2 & D3).
  assert (L1 : length (mo_pt_available m) = length (mo_pebs_available m)) by (apply dims_length; congruence).
  assert (L2 : length (mo_pt_available m) = length (mo_pmu_available m)).
  { apply (f_equal length) in D1, D3. unfold dims in D1, D3. rewrite length_map, length_replicate in D1, D3.
    congruence. }
  unfold make_training_masks. rewrite Hfraction, Hwhole. simpl.
  replace (maximum_span <=? 0) with false by (symmetry; apply Z.leb_gt; lia).
  pose proof (mask_rows_ok rand randint fraction maximum_span whole _ _ _ g L1 L2) as Hok.
  destruct (mask_rows _ _ _ _ _ _ _ _ g) as [[[pt pebs] pmu] g']. destruct Hok as (H1 & H2 & H3).
  rewrite (masked_tokens_Ok pt pebs pmu batch cpus);
    [|by rewrite (masks_dims _ _ H1)|by rewrite (masks_dims _ _ H2)|by rewrite (masks_dims _ _ H3)].
  by exists (MkMasked pt pebs pmu), g'.
Qed.

(** ** Scoring plans *)

(** The token at an index. *)
Definition token (g : grid bool) (r c i : nat) : option bool :=
  match g !! r with
  | Some row => match row !! c with Some cell => cell !! i | None => None end
  | None => None
  end.

Lemma token_map (f : list bool -> list bool) g r c i : token (map (map f) g) r c i =
  match g !! r with
  | Some row => match row !! c with Some cell => f cell !! i | None => None end
  | None => None
  end.
Proof.
  unfold token. assert (H1 : forall A B (h : A -> B) l k, map h l !! k = h <$> l !! k)
    by (intros; apply (list_lookup_fmap h)).
  rewrite H1. destruct (g !! r) as [row|]; simpl; [|done].
  rewrite H1. by destruct (row !! c).
Qed.

Lemma token_parity parity g r c i :
  token (parity_mask parity g) r c i = (fun b => b && (i mod 2 =? parity)%nat) <$> token g r c i.
Proof.
  unfold parity_mask. rewrite token_map. unfold token. destruct (g !! r) as [row|]; simpl; [|done].
  destruct (row !! c) as [cell|]; simpl; [|done]. by rewrite list_lookup_imap.
Qed.

Lemma token_zeros g r c i : token (zeros_like g) r c i <> Some true.
Proof.
  unfold zeros_like. rewrite token_map. destruct (g !! r) as [row|]; [|done].
  destruct (row !! c) as [cell|]; [|done].
  change (map (fun _ => false) cell) with ((fun _ => false) <$> cell).
  rewrite list_lookup_fmap. by destruct (cell !! i).
Qed.

Lemma dims_zeros g : dims (zeros_like g) = dims g.
Proof.
  unfold dims, zeros_like. rewrite map_map. apply map_ext. intros row. rewrite map_map. apply map_ext.
  intros cell. by rewrite length_map.
Qed.
Lemma dims_parity parity g : dims (parity_mask parity g) = dims g.
Proof.
  unfold dims, parity_mask. rewrite map_map. apply map_ext. intros row. rewrite map_map. apply map_ext.
  intros cell. by rewrite length_imap.
Qed.

Lemma single_mask_Ok k g m : check_model_batch m = Ok tt -> dims g = dims (available_of k m) ->
  exists t, single_mask k g m = Ok t /\ mask_of k t = g /\
    forall j, j <> k -> mask_of j t = zeros_like (available_of j m).
Proof.
  intros Hm Hg. destruct (model_dims m Hm) as (batch & cpus & D1 & D2 & D3). unfold single_mask.
  erewrite (masked_tokens_Ok _ _ _ batch cpus); [eexists; split; [done|]| | |];
    destruct k; simpl in *; rewrite ?dims_zeros; try congruence; (split; [done|]); by intros [].
Qed.

(** The plans made for each modality, before the masks of the others are added. *)
Definition planned (m : ModelBatch) : list (modality * grid bool) :=
  let three k := let g := available_of k m in [(k, parity_mask 0 g); (k, parity_mask 1 g); (k, g)] in
  three PT ++ three PEBS ++ [(PMU, mo_pmu_available m)].

Lemma scoring_plans_Forall2 m : check_model_batch m = Ok tt ->
  exists plans, scoring_plans m = Ok plans /\
    Forall2 (fun p q => q.1 = p.1 /\ mask_of p.1 q.2 = p.2 /\
      forall j, j <> p.1 -> mask_of j q.2 = zeros_like (available_of j m)) (planned m) plans.
Proof.
  intros Hm. unfold scoring_plans. fold (planned m).
  assert (Hd : Forall (fun p => dims p.2 = dims (available_of p.1 m)) (planned m)).
  { unfold planned. repeat constructor; simpl; by rewrite ?dims_parity. }
  induction Hd as [|[k g] ps Hk _ (plans & Hp & IH)]; [by exists []|]. simpl in *.
  destruct (single_mask_Ok k g m Hm Hk) as (t & Ht & H1 & H2). rewrite Ht, Hp. simpl.
  exists ((k, t) :: plans). split; [done|]. by constructor.
Qed.

(** Scoring masks exactly the available tokens. For a valid batch the plans are made, each
    plan masks tokens of its own modality only, and a token of a modality is masked by some
    plan of that modality exactly when it is available: no available token goes unscored and
    no absent one is scored. *)
Theorem scoring_plans_cover (m : ModelBatch) (Hm : check_model_batch m = Ok tt) :
  exists plans, scoring_plans m = Ok plans /\
    (forall k t j r c i, (k, t) ∈ plans -> token (mask_of j t) r c i = Some true -> j = k) /\
    forall k r c i, token (available_of k m) r c i = Some true <->
      exists t, (k, t) ∈ plans /\ token (mask_of k t) r c i = Some true.
Proof.
  destruct (scoring_plans_Forall2 m Hm) as (plans & Hp & Hf). exists plans. split_and!; [done| |].
  - intros k t j r c i Hin Ht. destruct (decide (j = k)) as [|Hne]; [done|].
    apply list_elem_of_lookup in Hin as (n & Hn).
    destruct (Forall2_lookup_r _ _ _ _ _ Hf Hn) as ([k0 g] & _ & H1 & _ & H2). simpl in *. subst k0.
    rewrite (H2 j Hne) in Ht. by apply token_zeros in Ht.
  - intros k r c i. split.
    + intros Ht. assert (Hin : exists n, planned m !! n = Some (k, available_of k m)).
      { destruct k; [by exists 2%nat|by exists 5%nat|by exists 6%nat]. }
      destruct Hin as (n & Hn). destruct (Forall2_lookup_l _ _ _ _ _ Hf Hn) as ([k' t] & Hq & H1 & H2 & _).
      simpl in *. subst k'. exists t. rewrite H2. split; [|done]. by eapply list_elem_of_lookup_2.
    + intros (t & Hin & Ht). apply list_elem_of_lookup in Hin as (n & Hn).
      destruct (Forall2_lookup_r _ _ _ _ _ Hf Hn) as ([k0 g] & Hg & H1 & H2 & _). simpl in *. subst k0.
      rewrite H2 in Ht. apply list_elem_of_lookup_2 in Hg. unfold planned in Hg.
      assert (Hpar : forall parity, token (parity_mask parity (available_of k m)) r c i = Some true ->
        token (available_of k m) r c i = Some true).
      { intros parity. rewrite token_parity. destruct (token (available_of k m) r c i) as [b|]; [|done].
        intros [= Hb]. by apply andb_true_iff in Hb as [-> _]. }
      repeat (apply elem_of_cons in Hg as [[= -> ->]|Hg]; [first [exact Ht|by eapply Hpar]|]).
      by apply not_elem_of_nil in Hg.
Qed.

(** One execution on one CPU with two PT tokens and its counters. *)
Definition example_tokens : list bool := true :: true :: replicate 14 false.
Definition example_model : ModelBatch :=
  let one := float32_of_int 1 in
  MkModelBatch [[replicate 16 (replicate 256 zero)]] [[replicate 16 [zero]]] [[[[one]]]]
    [[example_tokens]] [[replicate 16 false]] [[[true]]]
    [[(zero, one) :: (zero, one) :: replicate 30 (nan, nan) ++ [(zero, one)]]]
    [[zero :: zero :: replicate 30 nan ++ [one]]].

Lemma training_masks_sound_witness :
  exists masks g', make_training_masks (fun g => (zero, g + 1)) (fun low high g => (low, g + 1))
    (float_of_int 1) 4 zero example_model 0 = Ok (masks, g') /\
    masks_grid (mo_pt_available example_model) (mk_pt masks).
Proof.
  destruct (training_masks_sound (fun g : Z => (zero, g + 1)) (fun low high g => (low, g + 1))
    (float_of_int 1) zero 4 example_model 0) as (masks & g' & H & Hpt & _);
    [vm_compute; reflexivity|lia|vm_compute; reflexivity|vm_compute; reflexivity|].
  exists masks, g'. split; [exact H|exact Hpt].
Defined.

Lemma scoring_plans_cover_witness :
  exists plans, scoring_plans example_model = Ok plans /\ length plans = 7%nat /\
    exists t, (PT, t) ∈ plans /\ token (mask_of PT t) 0 0 1 = Some true.
Proof.
  destruct (scoring_plans_cover example_model) as (plans & Hp & _ & Hc); [vm_compute; reflexivity|].
  exists plans. split_and!; [exact Hp| |apply Hc; vm_compute; reflexivity].
  assert (Hl : length <$> (match scoring_plans example_model with Ok ps => Some ps | Raise _ => None end) = Some 7%nat)
    by (vm_compute; reflexivity).
  rewrite Hp in Hl. by injection Hl.
Defined.
