(* ===== verification/Features.v ===== *)
(** * From captures to model features ([examples/hardware_multimodal_features.py])

    Every check and every computation of the bridge from a multimodal capture
    to one row of model tensors, on the capture's own records. The C library's
    [log1p] and [pow] and Python's [sum] of floats are parameters; the rest of
    the arithmetic is executable. Class and field-name checks hold by typing;
    the optional dictionary of phase costs, a timing report, is left out. *)

From stdpp Require Import sorting.
From Stdlib Require SpecFloat.
From S2P Require Import Prelude Batch HardwareDecode HardwareConfig HardwareMultimodal Floats ModelBatch.

Definition DATA_SOURCE_BINS : nat := 16.
Definition PEBS_FEATURE_COUNT : nat := 24.
Definition PMU_FEATURE_COUNT : nat := 4.

Record HardwareLaneReport := MkLaneReport {
  lr_tid : Z;
  lr_observed_cpu : option Z;
  lr_migration_verified : bool;
  lr_pebs_samples : nat;
}.

Record HardwareCaptureFeatures := MkFeatures {
  hf_batch : ModelBatch;
  hf_lanes : list HardwareLaneReport;
}.

(** ** Checks *)

Definition _validate_envelope (e : HardwareCaptureEnvelope) : result (Z * Z * Z * Z) :=
  raise! HardwareFeatureError "capture clock must be CLOCK_MONOTONIC_RAW"
    when negb (String.eqb (en_clock e) "CLOCK_MONOTONIC_RAW") in
  let '(p0, p1, p2, p3) :=
    (en_arm_before_ns e, en_arm_after_ns e, en_stop_before_ns e, en_stop_after_ns e) in
  raise! HardwareFeatureError "capture envelope is empty or runs backwards"
    when negb ((p0 <=? p1) && (p1 <? p2) && (p2 <=? p3)) in
  Ok (p0, p1, p2, p3).

(** The payload that is actually there for a signal. *)
Definition actual (b : HardwareMultimodalBatch) (signal : string) : bool :=
  if String.eqb signal "intel_pt" then is_some (mb_pt b)
  else if String.eqb signal "memory_loads" then is_some (mb_pebs b) else is_some (mb_counters b).

Definition validate_source (b : HardwareMultimodalBatch) (expected_signal : string)
    (st : HardwareSourceStatus) : result unit :=
  raise! HardwareFeatureError "capture status order or signal schema changed"
    when negb (String.eqb (st_signal st) expected_signal) in
  raise! HardwareFeatureError ("capture reported lost " +:+ st_signal st +:+ " data") when st_lost st in
  raise! HardwareFeatureError (st_signal st +:+ " status disagrees with its payload")
    when negb (Bool.eqb (st_available st) (actual b (st_signal st))) in
  raise! HardwareFeatureError ("unrequested " +:+ st_signal st +:+ " payload is present")
    when st_available st && negb (st_requested st) in
  raise! HardwareFeatureError ("requested " +:+ st_signal st +:+ " source is unavailable")
    when st_requested st && negb (st_available st) in
  let timed := one_of (st_signal st) ["memory_loads"; "counters"] in
  let! _ :=
    if st_available st && timed then
      match st_time_enabled_ns st, st_time_running_ns st with
      | Some enabled, Some running =>
          raise! HardwareFeatureError (st_signal st +:+ " source is empty or multiplexed")
            when (enabled <=? 0) || negb (running =? enabled) in Ok tt
      | _, _ => throw HardwareFeatureError (st_signal st +:+ " source is empty or multiplexed")
      end
    else
      raise! HardwareFeatureError (st_signal st +:+ " has unexpected scheduling time")
        when is_some (st_time_enabled_ns st) || is_some (st_time_running_ns st) in Ok tt in
  match mb_counters b with
  | Some counters =>
      raise! HardwareFeatureError "counter status timing disagrees with its payload"
        when String.eqb (st_signal st) "counters" &&
             (negb (bool_decide (st_time_enabled_ns st = Some (cb_time_enabled_ns counters))) ||
              negb (bool_decide (st_time_running_ns st = Some (cb_time_running_ns counters)))) in
      Ok tt
  | None => Ok tt
  end.

Definition _validate_status (b : HardwareMultimodalBatch) : result unit :=
  raise! HardwareFeatureError "capture status schema changed"
    when negb (length (mb_status b) =? length _MODALITIES)%nat in
  rfold (fun _ p => validate_source b p.1 p.2) tt (zip _MODALITIES (mb_status b)).

Definition _validate_cpu_tensor (t : tensor) (name : string) (d : dtype) : result unit :=
  raise! HardwareFeatureError (name +:+ " must be a one-dimensional CPU tensor")
    when negb (bool_decide (t_device t = cpu)) || negb (bool_decide (t_dtype t = d)) ||
         negb (length (t_shape t) =? 1)%nat in
  Ok tt.

Definition hb_columns (b : HardwareBatch) : list (string * tensor) :=
  [("ip", hb_ip b); ("pid", hb_pid b); ("tid", hb_tid b); ("time", hb_time b); ("cpu", hb_cpu b);
   ("period", hb_period b); ("address", hb_address b); ("weight", hb_weight b);
   ("data_source", hb_data_source b); ("exact_ip", hb_exact_ip b)].

(** The number of sample rows. *)
Definition _validate_hardware_batch (b : HardwareBatch) (signal : string) (source : Z) : result nat :=
  raise! HardwareFeatureError (signal +:+ " source identity or signal changed")
    when negb (hb_source b =? source) || negb (String.eqb (hb_signal b) signal) in
  let! _ := rfold (fun _ c => _validate_cpu_tensor c.2 (signal +:+ "." +:+ c.1) int64) tt (hb_columns b) in
  let! _ := _validate_cpu_tensor (hb_trace_bytes b) (signal +:+ ".trace_bytes") uint8 in
  let rows := numel (hb_ip b) in
  raise! HardwareFeatureError (signal +:+ " columns have different lengths")
    when existsb (fun c => negb (numel c.2 =? rows)%nat) (hb_columns b) in
  Ok rows.

(** ** PT: byte histograms *)

(** [torch.bincount(values, minlength=n)] of nonnegative integers. *)
Definition count (v : Z) (values : list Z) : Z := Z.of_nat (length (filter (fun x => x = v) values)).
Definition bincount (values : list Z) (minlength : nat) : list Z :=
  let n := Nat.max minlength (Z.to_nat (foldr Z.max (-1) values + 1)) in
  (fun v => count (Z.of_nat v) values) <$> seq 0 n.

Lemma count_app v l1 l2 : count v (l1 ++ l2) = count v l1 + count v l2.
Proof. unfold count. rewrite filter_app, length_app. lia. Qed.

Definition segment_bounds (length segment : nat) : nat * nat :=
  ((length * segment) / SEGMENTS, (length * (segment + 1)) / SEGMENTS)%nat.

(** The bytes of one segment. *)
Definition segment_bytes (trace : list Z) (segment : nat) : list Z :=
  let '(start, stop) := segment_bounds (length trace) segment in slice start (stop - start) trace.

Definition pt_segment (trace : list Z) (segment : nat) : result (list float * bool) :=
  match segment_bytes trace segment with
  | [] => Ok (replicate BYTE_VALUES zero, false)
  | bytes =>
      let histogram := bincount bytes BYTE_VALUES in
      raise! RuntimeError "expanded size must match the existing size"
        when negb (length histogram =? BYTE_VALUES)%nat in
      Ok (float32_of_int <$> histogram, true)
  end.

Definition _pt_features (b : HardwareBatch) : result (list (list float) * list bool) :=
  let! rows := _validate_hardware_batch b "intel_pt" (hb_source b) in
  raise! HardwareFeatureError "undecoded PT must not contain sample rows" when negb (rows =? 0)%nat in
  let! cells := rmap (pt_segment (t_data (hb_trace_bytes b))) (seq 0 SEGMENTS) in
  Ok (cells.*1, cells.*2).

(** ** PEBS: sample statistics *)

Definition _unsigned (v : Z) : Z := Z.land v (2 ^ 64 - 1).

Definition _data_source_bin (v : Z) : nat :=
  let mask := 2 ^ 64 - 1 in
  let mixed := _unsigned v in
  let mixed := Z.land (Z.lxor mixed (Z.shiftr mixed 30) * 0xBF58476D1CE4E5B9) mask in
  let mixed := Z.land (Z.lxor mixed (Z.shiftr mixed 27) * 0x94D049BB133111EB) mask in
  Z.to_nat (Z.lxor mixed (Z.shiftr mixed 31) mod Z.of_nat DATA_SOURCE_BINS).

(** The segment of a timestamp, as an index into the sixteen buckets. *)
Definition time_segment (start stop time : Z) : result Z :=
  raise! ZeroDivisionError "integer division or modulo by zero" when stop - start =? 0 in
  Ok (Z.min (Z.of_nat SEGMENTS - 1) ((time - start) * Z.of_nat SEGMENTS / (stop - start))).

(** [buckets[segment].append(row)], with Python's reading of a negative index. *)
Definition put_row (buckets : list (list nat)) (segment : Z) (row : nat) : result (list (list nat)) :=
  let n := Z.of_nat (length buckets) in
  let i := if segment <? 0 then segment + n else segment in
  raise! IndexError "list index out of range" when (i <? 0) || (n <=? i) in
  Ok (alter (fun b => b ++ [row]) (Z.to_nat i) buckets).

Definition time_buckets (start stop : Z) (times : list Z) : result (list (list nat)) :=
  rfold (fun buckets p => let! segment := time_segment start stop p.2 in put_row buckets segment p.1)
    (replicate SEGMENTS []) (zip (seq 0 (length times)) times).

(** [l[row] for row in selected] *)
Definition pick (l : list Z) (rows : list nat) : list Z := (fun row => default 0 (l !! row)) <$> rows.

Definition zmin (a : Z) (l : list Z) : Z := foldr Z.min a l.
Definition zmax (a : Z) (l : list Z) : Z := foldr Z.max a l.
Definition billion : float := float_of_int 1000000000.

Section numerics.
Context (log1p : float -> float) (pow : float -> Z -> float) (sum : list float -> float).

Definition log1p_int (z : Z) : float := log1p (float_of_int z).

Definition _mean_std (values : list float) : float * float :=
  let n := float_of_int (Z.of_nat (length values)) in
  let mean := fdiv (sum values) n in
  let variance := fdiv (sum ((fun v => pow (fsub v mean) 2) <$> values)) n in
  (mean, fsqrt variance).

Definition sketch (bins : list nat) (n : float) : list float :=
  fold_left (fun s bin => alter (fun x => fadd x (fdiv (float_of_int 1) n)) bin s) bins
    (replicate DATA_SOURCE_BINS zero).

(** The sample columns that a segment's features are computed from. *)
Record samples := MkSamples {
  sa_times : list Z;
  sa_weights : list Z;
  sa_addresses : list Z;
  sa_ips : list Z;
  sa_data_sources : list Z;
  sa_exact_ip : list Z;
}.

Definition anchor (l : list Z) : Z := match l with [] => 0 | a :: l => zmin a l end.

(** One bucket that is not empty: its features and its time bounds in seconds. *)
Definition pebs_segment (s : samples) (start : Z) (rows : list nat) : list float * (float * float) :=
  let times := (fun t => t - start) <$> pick (sa_times s) rows in
  let first := match times with [] => 0 | t :: ts => zmin t ts end in
  let last := match times with [] => 0 | t :: ts => zmax t ts end in
  let n := Z.of_nat (length rows) in
  let latency := log1p_int <$> pick (sa_weights s) rows in
  let offsets l := (fun a => log1p_int (a - anchor l)) <$> pick l rows in
  let '(address_mean, address_std) := _mean_std (offsets (sa_addresses s)) in
  let '(ip_mean, ip_std) := _mean_std (offsets (sa_ips s)) in
  let bins := _data_source_bin <$> pick (sa_data_sources s) rows in
  let exact := foldr Z.add 0 (pick (sa_exact_ip s) rows) in
  (float32 <$> [log1p_int n; fdiv (sum latency) (float_of_int n);
                match latency with [] => zero | a :: l => float_max a l end; int_truediv exact n] ++
               sketch bins (float_of_int n) ++ [address_mean; address_std; ip_mean; ip_std],
   (float32 (fdiv (float_of_int first) billion), float32 (fdiv (float_of_int last) billion))).

Definition pebs_cell (s : samples) (start : Z) (rows : list nat) : list float * bool * (float * float) :=
  match rows with
  | [] => (replicate PEBS_FEATURE_COUNT zero, false, (nan, nan))
  | _ => let '(features, bounds) := pebs_segment s start rows in (features, true, bounds)
  end.

Definition _pebs_features (b : HardwareBatch) (tid start stop : Z)
    : result (list (list float) * list bool * list (float * float) * option Z) :=
  let! rows := _validate_hardware_batch b "memory_loads" tid in
  raise! HardwareFeatureError "PEBS sample batches must not contain AUX bytes"
    when negb (numel (hb_trace_bytes b) =? 0)%nat in
  if (rows =? 0)%nat then
    Ok (replicate SEGMENTS (replicate PEBS_FEATURE_COUNT zero), replicate SEGMENTS false,
        replicate SEGMENTS (nan, nan), None)
  else
  raise! HardwareFeatureError "PEBS sample escaped its thread lane"
    when existsb (fun t => negb (t =? tid)) (t_data (hb_tid b)) in
  let cpus := remove_dups (t_data (hb_cpu b)) in
  raise! HardwareFeatureError "PEBS observed thread migration"
    when existsb (fun n => n <? 0) cpus || negb (length cpus =? 1)%nat in
  raise! HardwareFeatureError "PEBS sample period must be positive"
    when existsb (fun p => p <=? 0) (t_data (hb_period b)) in
  raise! HardwareFeatureError "PEBS exact-IP values must be zero or one"
    when existsb (fun v => negb ((v =? 0) || (v =? 1))) (t_data (hb_exact_ip b)) in
  let times := t_data (hb_time b) in
  raise! HardwareFeatureError "PEBS timestamp escaped the capture envelope"
    when existsb (fun t => (t <? start) || (stop <? t)) times in
  let! buckets := time_buckets start stop times in
  let s := MkSamples times (_unsigned <$> t_data (hb_weight b)) (_unsigned <$> t_data (hb_address b))
             (_unsigned <$> t_data (hb_ip b)) (t_data (hb_data_source b)) (t_data (hb_exact_ip b)) in
  let cells := pebs_cell s start <$> buckets in
  Ok ((fun c => c.1.1) <$> cells, (fun c => c.1.2) <$> cells, (fun c => c.2) <$> cells, head cpus).

(** ** PMU: counter rates *)

Definition _pmu_features (b : HardwareCounterBatch) (tid cpu_number : Z) : result (list float) :=
  raise! HardwareFeatureError "PMU source identity changed"
    when negb (cb_source b =? tid) || negb (cb_tid b =? tid) || negb (cb_cpu b =? cpu_number) in
  raise! HardwareFeatureError "PMU counter schema changed"
    when negb (bool_decide (cb_names b = _COUNTER_SIGNALS)) in
  let! _ := _validate_cpu_tensor (cb_values b) "counters.values" int64 in
  raise! HardwareFeatureError "PMU counters must be three nonnegative deltas"
    when negb (numel (cb_values b) =? length _COUNTER_SIGNALS)%nat ||
         existsb (fun v => v <? 0) (t_data (cb_values b)) in
  raise! HardwareFeatureError "PMU counter payload is unavailable or lost"
    when cb_lost b || negb (cb_available b) in
  raise! HardwareFeatureError "PMU counter group is empty or multiplexed"
    when (cb_time_enabled_ns b <=? 0) || (cb_time_running_ns b <=? 0) ||
         negb (cb_time_enabled_ns b =? cb_time_running_ns b) in
  match t_data (cb_values b) with
  | [instructions; cycles; reference_cycles] =>
      let seconds := fdiv (float_of_int (cb_time_running_ns b)) billion in
      let ipc := if cycles =? 0 then zero else int_truediv instructions cycles in
      let values := [fdiv (float_of_int instructions) seconds; fdiv (float_of_int cycles) seconds;
                     fdiv (float_of_int reference_cycles) seconds; ipc] in
      raise! HardwareFeatureError "PMU features are not finite" when negb (forallb finite values) in
      Ok (float32 <$> values)
  | _ => throw ValueError "not enough values to unpack (expected 3)"
  end.

(** ** Lanes *)

(** The tensors of one thread, with the report kept outside the model. *)
Record lane := MkLane {
  la_tid : Z;
  la_pt : list (list float);
  la_pebs : list (list float);
  la_pmu : list (list float);
  la_pt_available : list bool;
  la_pebs_available : list bool;
  la_pmu_available : list bool;
  la_time_bounds : list (float * float);
  la_timing_quality : list float;
  la_report : HardwareLaneReport;
}.

(** One pass of the loop, once the lane's identity and envelope are accepted. *)
Definition featurize_lane (b : HardwareMultimodalBatch) (points : Z * Z * Z * Z) : result lane :=
  let! _ := _validate_status b in
  let '(outer_start, arm_after, stop_before, outer_stop) := points in
  let! pt := match mb_pt b with
    | Some hb =>
        raise! HardwareFeatureError "PT source escaped its thread lane" when negb (hb_source hb =? mb_tid b) in
        _pt_features hb
    | None => Ok (replicate SEGMENTS (replicate BYTE_VALUES zero), replicate SEGMENTS false)
    end in
  let! pebs := match mb_pebs b with
    | Some hb => _pebs_features hb (mb_tid b) outer_start outer_stop
    | None => Ok (replicate SEGMENTS (replicate PEBS_FEATURE_COUNT zero), replicate SEGMENTS false,
                  replicate SEGMENTS (nan, nan), None)
    end in
  let '(pebs, pebs_available, pebs_bounds, observed_cpu) := pebs in
  let '(pt, pt_available) := pt in
  raise! HardwareFeatureError "PEBS CPU disagrees with its capture lane"
    when (0 <=? mb_cpu b) && match observed_cpu with Some n => negb (mb_cpu b =? n) | None => false end in
  let! pmu := match mb_counters b with
    | Some cb => let! row := _pmu_features cb (mb_tid b) (mb_cpu b) in Ok (row, true)
    | None => Ok (replicate PMU_FEATURE_COUNT zero, false)
    end in
  let '(pmu, pmu_available) := pmu in
  raise! HardwareFeatureError "thread lane contains no model observation"
    when negb (existsb id pt_available || existsb id pebs_available || pmu_available) in
  let outer := (zero, float32 (fdiv (float_of_int (outer_stop - outer_start)) billion)) in
  let any_pt := existsb id pt_available in
  let one32 := float32_of_int 1 in
  Ok (MkLane (mb_tid b) pt pebs [pmu] pt_available pebs_available [pmu_available]
    (replicate SEGMENTS (if any_pt then outer else (nan, nan)) ++
     zip_with (fun (a : bool) x => if a then x else (nan, nan)) pebs_available pebs_bounds ++
     [if pmu_available then outer else (nan, nan)])
    (replicate SEGMENTS (if any_pt then zero else nan) ++
     ((fun a : bool => if a then one32 else nan) <$> pebs_available) ++
     [if pmu_available then float32 (int_truediv (stop_before - arm_after) (outer_stop - outer_start)) else nan])
    (MkLaneReport (mb_tid b) observed_cpu (is_some observed_cpu)
       match mb_pebs b with Some hb => numel (hb_ip hb) | None => 0%nat end)).

(** The loop over the batches: the envelope of the first, the threads seen, the lanes. *)
Definition lane_step (s : option (Z * Z * Z * Z) * list Z * list lane) (b : HardwareMultimodalBatch)
    : result (option (Z * Z * Z * Z) * list Z * list lane) :=
  let '(envelope, seen, lanes) := s in
  raise! HardwareFeatureError "capture thread identity changed"
    when negb (mb_source b =? mb_tid b) || (mb_tid b <=? 0) || negb (mb_cpu b =? -1) in
  raise! HardwareFeatureError "capture repeated a thread lane" when bool_decide (mb_tid b ∈ seen) in
  let! points := _validate_envelope (mb_envelope b) in
  raise! HardwareFeatureError "thread lanes use different capture envelopes"
    when match envelope with Some e => negb (bool_decide (points = e)) | None => false end in
  let! l := featurize_lane b points in
  Ok (Some points, mb_tid b :: seen, lanes ++ [l]).

(** [lanes.sort(key=tid)], then each column stacked under a batch axis of one. *)
Definition by_tid (a b : lane) : Prop := la_tid a <= la_tid b.
#[global] Instance by_tid_dec a b : Decision (by_tid a b).
Proof. unfold by_tid. apply _. Defined.

Definition featurize_hardware_capture (batches : list HardwareMultimodalBatch)
    : result HardwareCaptureFeatures :=
  raise! HardwareFeatureError "a capture must contain at least one thread lane"
    when match batches with [] => true | _ => false end in
  let! s := rfold lane_step (None, [], []) batches in
  let lanes := merge_sort by_tid s.2 in
  let! batch := model_batch (MkModelBatch [la_pt <$> lanes] [la_pebs <$> lanes] [la_pmu <$> lanes]
    [la_pt_available <$> lanes] [la_pebs_available <$> lanes] [la_pmu_available <$> lanes]
    [la_time_bounds <$> lanes] [la_timing_quality <$> lanes]) in
  Ok (MkFeatures batch (la_report <$> lanes)).

(** [torch.cat] of every column along the batch axis. *)
Definition cat_batches (ms : list ModelBatch) : ModelBatch :=
  MkModelBatch (ms ≫= mo_pt) (ms ≫= mo_pebs) (ms ≫= mo_pmu) (ms ≫= mo_pt_available)
    (ms ≫= mo_pebs_available) (ms ≫= mo_pmu_available) (ms ≫= mo_time_bounds) (ms ≫= mo_timing_quality).

Definition featurize_hardware_captures (captures : list (list HardwareMultimodalBatch))
    : result (ModelBatch * list (list HardwareLaneReport)) :=
  raise! HardwareFeatureError "at least one capture is required"
    when match captures with [] => true | _ => false end in
  let! rows := rmap featurize_hardware_capture captures in
  let lane_count := match rows with r :: _ => cpu_count (hf_batch r) | [] => 0%nat end in
  raise! HardwareFeatureError "capture thread-lane count changed between executions"
    when existsb (fun r => negb (cpu_count (hf_batch r) =? lane_count)%nat) rows in
  let! batch := model_batch (cat_batches (hf_batch <$> rows)) in
  Ok (batch, hf_lanes <$> rows).
End numerics.
