(* ===== verification/FeatureLanes.v ===== *)
(** * Features do not depend on the order of the lanes ([hardware_multimodal_features.py])

    The lanes of a capture are checked one by one, against one envelope and for
    distinct threads, and sorted by thread: whatever order the batches arrive
    in, the result is the same. *)

From stdpp Require Import sorting.
From Stdlib Require Import Permutation.
From Stdlib Require SpecFloat.
From S2P Require Import Prelude Batch HardwareDecode HardwareConfig HardwareMultimodal Floats ModelBatch Features.

Section lanes.
Context (log1p : float -> float) (pow : float -> Z -> float) (sum : list float -> float).
Notation featurize := (featurize_hardware_capture log1p pow sum).
Notation step := (lane_step log1p pow sum).

(** A batch that the loop turns into a lane, for the envelope [points]. *)
Record lane_of (points : Z * Z * Z * Z) (b : HardwareMultimodalBatch) (l : lane) : Prop := {
  lo_identity : mb_source b = mb_tid b /\ 0 < mb_tid b /\ mb_cpu b = -1;
  lo_envelope : _validate_envelope (mb_envelope b) = Ok points;
  lo_lane : featurize_lane log1p pow sum b points = Ok l;
}.

Lemma featurize_lane_tid b points l : featurize_lane log1p pow sum b points = Ok l -> la_tid l = mb_tid b.
Proof.
  unfold featurize_lane. intros H. destruct points as [[[p0 p1] p2] p3]. inv_res H.
  destruct v1 as [[[? ?] ?] ?], v0 as [? ?]. inv_res H. destruct v0 as [? ?]. inv_res H. by injection H as <-.
Qed.

(** One step of the loop. *)
Lemma lane_step_Ok envelope seen lanes b s : step (envelope, seen, lanes) b = Ok s <->
  exists points l, lane_of points b l /\ mb_tid b ∉ seen /\ (forall e, envelope = Some e -> points = e) /\
    s = (Some points, mb_tid b :: seen, lanes ++ [l]).
Proof.
  unfold lane_step. split.
  - intros H. inv_res H. bool_prop. injection H as <-. exists v, v0. split_and!; try done.
    intros e He. rewrite He in Hg1. by apply negb_false_iff, bool_decide_eq_true_1 in Hg1.
  - intros (points & l & [(-> & Ht & ->) He Hl] & Hs & Hen & ->).
    rewrite Z.eqb_refl. replace (mb_tid b <=? 0) with false by (symmetry; apply Z.leb_gt; lia). simpl.
    rewrite bool_decide_eq_false_2 by done. rewrite He. simpl.
    destruct envelope as [e|]; simpl; [rewrite (Hen e eq_refl), bool_decide_eq_true_2 by done; simpl; rewrite <- (Hen e eq_refl)|];
      by rewrite Hl.
Qed.

Lemma lanes_spec bs envelope seen acc s : rfold step (envelope, seen, acc) bs = Ok s ->
  exists points ls, Forall2 (lane_of points) bs ls /\ NoDup (mb_tid <$> bs) /\
    (forall b, b ∈ bs -> mb_tid b ∉ seen) /\ (forall e, envelope = Some e -> bs <> [] -> points = e) /\
    s.2 = acc ++ ls.
Proof.
  revert envelope seen acc; induction bs as [|b bs IH]; intros envelope seen acc H.
  { injection H as <-. exists (0, 0, 0, 0), []. split_and!; [by constructor|by apply NoDup_nil| |done|simpl; by rewrite app_nil_r].
    intros b Hb. by apply not_elem_of_nil in Hb. }
  cbn [rfold] in H. apply rbind_Ok in H as (s1 & Hs & H).
  apply lane_step_Ok in Hs as (points & l & Hl & Hseen & Hen & ->).
  destruct (IH _ _ _ H) as (points' & ls & Hf & Hnd & Hd & He & Hs2).
  assert (Hf' : Forall2 (lane_of points) bs ls).
  { destruct bs as [|b' bs]; [by inversion Hf|]. by rewrite <- (He points eq_refl). }
  exists points, (l :: ls). split_and!.
  - by constructor.
  - rewrite fmap_cons. constructor; [|done]. intros (b' & Hb & Hin)%list_elem_of_fmap.
    apply (Hd b' Hin). rewrite <- Hb. left.
  - intros b' [->|Hin]%elem_of_cons; [done|]. specialize (Hd b' Hin). set_solver.
  - intros e Hee _. by apply Hen.
  - by rewrite Hs2, <- app_assoc.
Qed.

Lemma lanes_complete points bs ls envelope seen acc : Forall2 (lane_of points) bs ls ->
  NoDup (mb_tid <$> bs) -> (forall b, b ∈ bs -> mb_tid b ∉ seen) ->
  (envelope = None \/ envelope = Some points) ->
  exists s, rfold step (envelope, seen, acc) bs = Ok s /\ s.2 = acc ++ ls.
Proof.
  intros Hf. revert envelope seen acc; induction Hf as [|b l bs ls Hb Hf IH]; intros envelope seen acc Hnd Hd He.
  { eexists. split; [done|]. by rewrite app_nil_r. }
  apply NoDup_cons in Hnd as [Hn Hnd].
  assert (Hs : step (envelope, seen, acc) b = Ok (Some points, mb_tid b :: seen, acc ++ [l])).
  { apply lane_step_Ok. exists points, l. split_and!; [done|apply Hd; left|naive_solver|done]. }
  cbn [rfold]. rewrite Hs. simpl rbind.
  destruct (IH (Some points) (mb_tid b :: seen) (acc ++ [l])) as (s & H1 & H2); [done| |by right|].
  - intros b' Hb'. apply not_elem_of_cons. split; [|apply Hd; by right].
    intros E. apply Hn. rewrite <- E. by apply list_elem_of_fmap_2.
  - exists s. split; [done|]. by rewrite H2, <- app_assoc.
Qed.

(** Sorting by thread gives one list, when no thread is repeated. *)
Lemma sorted_lanes_unique ls ls' : NoDup (la_tid <$> ls) -> ls ≡ₚ ls' ->
  merge_sort by_tid ls = merge_sort by_tid ls'.
Proof.
  intros Hnd Hp.
  assert (Htr : Transitive by_tid) by (intros a b c; unfold by_tid; lia).
  assert (Hto : Total by_tid) by (intros a b; unfold by_tid; lia).
  apply (StronglySorted_unique_strong by_tid).
  - intros a b Ha Hb H1 H2. rewrite merge_sort_Permutation in Ha, Hb. rewrite <- Hp in Hb.
    assert (la_tid a = la_tid b) as E by (unfold by_tid in *; lia).
    apply list_elem_of_lookup in Ha as (i & Hi), Hb as (j & Hj).
    assert (i = j) as <-; [|congruence].
    eapply (NoDup_lookup (la_tid <$> ls) i j); [done|rewrite list_lookup_fmap, Hi; done|].
    rewrite list_lookup_fmap, Hj. simpl. by rewrite E.
  - by apply StronglySorted_merge_sort.
  - by apply StronglySorted_merge_sort.
  - by rewrite !merge_sort_Permutation.
Qed.

(** Lanes are a set. If featurizing a capture succeeds, it succeeds on the same batches in
    any other order, with the same tensors and the same reports: the features carry no trace
    of the order in which threads were listed. *)
Theorem featurize_order_free (bs bs' : list HardwareMultimodalBatch) (r : HardwareCaptureFeatures)
  (Hr : featurize bs = Ok r) (Hp : bs ≡ₚ bs') : featurize bs' = Ok r.
Proof.
  unfold featurize_hardware_capture in *. inv_res Hr.
  apply lanes_spec in Hv as (points & ls & Hf & Hnd & _ & _ & Hls). simpl in Hls.
  destruct (Permutation_Forall2 Hp Hf) as (ls' & Hpl & Hf').
  destruct (lanes_complete points bs' ls' None [] []) as (s & Hs & Hs2); [done|by rewrite <- Hp|set_solver|by left|].
  assert (Hne : match bs' with [] => true | _ => false end = false).
  { destruct bs'; [|done]. apply Permutation_nil_r in Hp as ->. done. }
  rewrite Hne, Hs. simpl rbind. rewrite Hs2. simpl app.
  assert (Htid : la_tid <$> ls = mb_tid <$> bs).
  { clear -Hf. induction Hf as [|b l bs ls Hb _ IH]; [done|]. rewrite !fmap_cons, IH. f_equal.
    by apply (featurize_lane_tid b points), Hb. }
  rewrite <- (sorted_lanes_unique ls ls') by (try rewrite Htid; done). rewrite <- Hls, Hv0. done.
Qed.
End lanes.

(** A thread with counters only. *)
Definition counter_lane (tid : Z) : HardwareMultimodalBatch :=
  MkMultimodalBatch tid tid (-1) (MkEnvelope "CLOCK_MONOTONIC_RAW" 1 2 5 6)
    [MkStatus "intel_pt" false false false None None; MkStatus "memory_loads" false false false None None;
     MkStatus "counters" true true false (Some 3) (Some 3)] None None
    (Some (MkHardwareCounterBatch tid tid (-1) _COUNTER_SIGNALS (Tensor int64 cpu [3%nat] [30; 20; 10]) 3 3 true false)).

Lemma featurize_order_free_witness :
  exists r, featurize_hardware_capture id (fun x _ => x) (fun _ => zero) [counter_lane 9; counter_lane 7] = Ok r /\
    featurize_hardware_capture id (fun x _ => x) (fun _ => zero) [counter_lane 7; counter_lane 9] = Ok r /\
    lr_tid <$> hf_lanes r = [7; 9].
Proof.
  destruct (featurize_hardware_capture id (fun x _ => x) (fun _ => zero) [counter_lane 9; counter_lane 7])
    as [r|e] eqn:Hr.
  - exists r. split_and!; [reflexivity| |].
    + apply (featurize_order_free id (fun x _ => x) (fun _ => zero) [counter_lane 9; counter_lane 7]
        [counter_lane 7; counter_lane 9] r Hr). apply Permutation_swap.
    + vm_compute in Hr. injection Hr as <-. reflexivity.
  - exfalso. vm_compute in Hr. discriminate.
Defined.
