(* ===== verification/FeatureCells.v ===== *)
(** * Histograms and buckets lose nothing ([hardware_multimodal_features.py])

    The sixteen PT segments partition the trace bytes in order, so that their
    histograms add up to that of the trace. Every PEBS sample falls in exactly
    one of the sixteen time buckets, the one its timestamp selects. *)

From Stdlib Require SpecFloat.
From S2P Require Import Prelude Batch HardwareDecode HardwareConfig HardwareMultimodal Floats ModelBatch Features.

(** ** PT segments *)

Lemma bounds_step n i : (segment_bounds n i).2 = (segment_bounds n (S i)).1.
Proof. unfold segment_bounds. cbn [fst snd]. f_equal. lia. Qed.

Lemma bounds_mono n i : ((segment_bounds n i).1 <= (segment_bounds n i).2)%nat.
Proof. unfold segment_bounds. cbn [fst snd]. apply Nat.Div0.div_le_mono. lia. Qed.

Lemma segments_take trace k :
  concat (segment_bytes trace <$> seq 0 k) = take (segment_bounds (length trace) k).1 trace.
Proof.
  induction k as [|k IH].
  { simpl. replace (length trace * 0)%nat with 0%nat by lia. done. }
  rewrite seq_S, fmap_app, concat_app, IH. cbn [fmap list_fmap concat]. rewrite app_nil_r, Nat.add_0_l.
  rewrite <- bounds_step. pose proof (bounds_mono (length trace) k) as Hm.
  unfold segment_bytes. destruct (segment_bounds (length trace) k) as [a b]. simpl in *.
  unfold slice. rewrite take_take_drop. f_equal. lia.
Qed.

Lemma segments_partition trace : concat (segment_bytes trace <$> seq 0 SEGMENTS) = trace.
Proof.
  rewrite segments_take. unfold segment_bounds. cbn [fst snd]. rewrite Nat.div_mul by done.
  by apply take_ge.
Qed.

Lemma count_concat v ls : count v (concat ls) = zsum (count v) ls.
Proof. induction ls as [|l ls IH]; [done|]. simpl. by rewrite count_app, IH. Qed.

(** The histogram of a byte string. *)
Definition histogram (bytes : list Z) : list Z := (fun v => count (Z.of_nat v) bytes) <$> seq 0 BYTE_VALUES.

Lemma max_byte bytes : Forall is_byte bytes -> foldr Z.max (-1) bytes <= 255.
Proof. induction 1 as [|b bytes Hb _ IH]; simpl; [lia|]. unfold is_byte in Hb. lia. Qed.

Lemma bincount_bytes bytes : Forall is_byte bytes -> bincount bytes BYTE_VALUES = histogram bytes.
Proof.
  intros Hb. unfold bincount, histogram. rewrite Nat.max_l; [done|].
  pose proof (max_byte bytes Hb). unfold BYTE_VALUES. lia.
Qed.

Definition nonempty (l : list Z) : bool := match l with [] => false | _ => true end.

Lemma histogram_nil : float32_of_int <$> histogram [] = replicate BYTE_VALUES zero.
Proof. vm_compute. reflexivity. Qed.

Lemma pt_segment_Ok trace i : Forall is_byte trace ->
  pt_segment trace i = Ok (float32_of_int <$> histogram (segment_bytes trace i), nonempty (segment_bytes trace i)).
Proof.
  intros Hb. assert (Hs : Forall is_byte (segment_bytes trace i)).
  { unfold segment_bytes. destruct (segment_bounds _ _). by apply Forall_take, Forall_drop. }
  unfold pt_segment. destruct (segment_bytes trace i) as [|x l] eqn:E; [by rewrite histogram_nil|].
  rewrite bincount_bytes by done.
  assert (length (histogram (x :: l)) = BYTE_VALUES) as -> by (unfold histogram; by rewrite length_fmap, length_seq).
  done.
Qed.

Lemma rmap_total {A B} (f : A -> result B) (g : A -> B) l : (forall a, a ∈ l -> f a = Ok (g a)) ->
  rmap f l = Ok (g <$> l).
Proof.
  induction l as [|a l IH]; intros Hf; [done|]. simpl. rewrite (Hf a) by set_solver. simpl.
  rewrite IH by set_solver. done.
Qed.

(** PT features conserve the trace. For a PT batch that passes validation without sample
    rows, [_pt_features] returns, and there are sixteen byte strings whose concatenation is
    exactly the captured trace such that segment [i] of the features is the histogram of the
    [i]-th and is marked available exactly when that is not empty; the counts of every byte
    value over all segments add up to its count in the whole trace. *)
Theorem pt_features_conserve (b : HardwareBatch)
  (Hvalid : _validate_hardware_batch b "intel_pt" (hb_source b) = Ok 0%nat)
  (Htrace : Forall is_byte (t_data (hb_trace_bytes b))) :
  exists segments, length segments = SEGMENTS /\ concat segments = t_data (hb_trace_bytes b) /\
    _pt_features b = Ok ((fun s => float32_of_int <$> histogram s) <$> segments, nonempty <$> segments) /\
    forall v, zsum (count v) segments = count v (t_data (hb_trace_bytes b)).
Proof.
  set (trace := t_data (hb_trace_bytes b)) in *.
  exists (segment_bytes trace <$> seq 0 SEGMENTS). split_and!.
  - by rewrite length_fmap, length_seq.
  - apply segments_partition.
  - unfold _pt_features. rewrite Hvalid. fold trace. cbn [rbind Nat.eqb negb].
    erewrite rmap_total by (intros; by apply pt_segment_Ok). cbn [rbind].
    rewrite <- !list_fmap_compose. done.
  - intros v. by rewrite <- count_concat, segments_partition.
Qed.

Definition example_pt : HardwareBatch :=
  let empty := Tensor int64 cpu [0%nat] [] in
  MkHardwareBatch 7 "intel_pt" empty empty empty empty empty empty empty empty empty empty
    (Tensor uint8 cpu [20%nat] (Z.of_nat <$> seq 3 20)).

Lemma pt_features_conserve_witness :
  exists segments, length segments = 16%nat /\ concat segments = Z.of_nat <$> seq 3 20.
Proof.
  destruct (pt_features_conserve example_pt) as (segments & H1 & H2 & _).
  - vm_compute. reflexivity.
  - repeat (apply Forall_cons; split; [vm_compute; split; congruence|]). apply Forall_nil. exact I.
  - exists segments. split; [exact H1|exact H2].
Defined.

(** ** PEBS buckets *)

(** The bucket of a timestamp of the envelope. *)
Definition bucket (start stop time : Z) : nat :=
  Z.to_nat (Z.min 15 ((time - start) * 16 / (stop - start))).

Lemma time_segment_Ok start stop time : start < stop -> start <= time <= stop ->
  time_segment start stop time = Ok (Z.of_nat (bucket start stop time)) /\ (bucket start stop time < 16)%nat.
Proof.
  intros Hs Ht. unfold time_segment, bucket.
  replace (stop - start =? 0) with false by (symmetry; apply Z.eqb_neq; lia).
  change (Z.of_nat SEGMENTS) with 16.
  assert (0 <= (time - start) * 16 / (stop - start)) by (apply Z.div_pos; lia).
  split; [f_equal; lia|lia].
Qed.

Lemma put_row_Ok buckets i row : (i < length buckets)%nat ->
  put_row buckets (Z.of_nat i) row = Ok (alter (fun b => b ++ [row]) i buckets).
Proof.
  intros Hi. unfold put_row. replace (Z.of_nat i <? 0) with false by (symmetry; apply Z.ltb_ge; lia).
  replace (Z.of_nat i <? 0) with false by (symmetry; apply Z.ltb_ge; lia).
  replace (Z.of_nat (length buckets) <=? Z.of_nat i) with false by (symmetry; apply Z.leb_gt; lia).
  simpl. by rewrite Nat2Z.id.
Qed.

(** The rows, among the first [n], of each bucket. *)
Definition rows_in (start stop : Z) (times : list Z) (n i : nat) : list nat :=
  filter (fun row => bucket start stop (default 0 (times !! row)) = i) (seq 0 n).

Definition bucketed (start stop : Z) (times : list Z) (n : nat) : list (list nat) :=
  rows_in start stop times n <$> seq 0 SEGMENTS.

Lemma bucketed_step start stop times n time : times !! n = Some time ->
  (bucket start stop time < 16)%nat ->
  alter (fun b => b ++ [n]) (bucket start stop time) (bucketed start stop times n) =
  bucketed start stop times (S n).
Proof.
  intros Hn Hb. apply list_eq. intros i. unfold bucketed.
  destruct (decide (i = bucket start stop time)) as [->|Hne].
  - rewrite list_lookup_alter_eq, !list_lookup_fmap, lookup_seq_lt by done. simpl. f_equal.
    unfold rows_in. rewrite seq_S, filter_app. simpl. rewrite filter_cons, Hn. simpl.
    by rewrite decide_True.
  - rewrite list_lookup_alter_ne, !list_lookup_fmap by done.
    destruct (seq 0 SEGMENTS !! i) as [j|] eqn:Hj; [|done]. simpl. f_equal.
    apply lookup_seq in Hj as [-> _]. unfold rows_in. rewrite seq_S, filter_app. simpl.
    rewrite filter_cons, Hn. simpl. rewrite decide_False by congruence. by rewrite app_nil_r.
Qed.

Lemma time_buckets_prefix start stop times n : start < stop ->
  Forall (fun t => start <= t <= stop) times -> (n <= length times)%nat ->
  rfold (fun buckets p => let! segment := time_segment start stop p.2 in put_row buckets segment p.1)
    (replicate SEGMENTS []) (zip (seq 0 n) times) = Ok (bucketed start stop times n).
Proof.
  intros Hs Ht. induction n as [|n IH]; intros Hn; [done|].
  destruct (lookup_lt_is_Some_2 times n) as [time Htime]; [lia|].
  assert (Hz : zip (seq 0 (S n)) times = zip (seq 0 n) times ++ [(n, time)]).
  { rewrite seq_S. rewrite <- (take_drop n times) at 1. rewrite zip_with_app.
    - f_equal; [|by rewrite (drop_S _ _ _ Htime)].
      apply zip_with_take_r'. rewrite length_seq. lia.
    - rewrite length_seq, length_take. lia. }
  rewrite Hz, rfold_app, IH by lia. simpl.
  rewrite Forall_forall in Ht.
  destruct (time_segment_Ok start stop time Hs (Ht time ltac:(by eapply list_elem_of_lookup_2))) as [-> Hb].
  simpl. rewrite put_row_Ok by (unfold bucketed; by rewrite length_fmap, length_seq). simpl.
  by rewrite bucketed_step.
Qed.

Lemma concat_alter {A} (bs : list (list A)) i x : (i < length bs)%nat ->
  concat (alter (fun b => b ++ [x]) i bs) ≡ₚ x :: concat bs.
Proof.
  revert i; induction bs as [|b bs IH]; intros i Hi; simpl in Hi; [lia|].
  destruct i as [|i]; simpl.
  - rewrite <- app_assoc. simpl. symmetry. apply Permutation_middle.
  - rewrite (IH i) by lia. symmetry. apply Permutation_middle.
Qed.

Lemma bucketed_Permutation start stop times n : start < stop ->
  Forall (fun t => start <= t <= stop) times -> (n <= length times)%nat ->
  concat (bucketed start stop times n) ≡ₚ seq 0 n.
Proof.
  intros Hs Ht. induction n as [|n IH]; intros Hn; [done|].
  destruct (lookup_lt_is_Some_2 times n) as [time Htime]; [lia|].
  rewrite Forall_forall in Ht.
  destruct (time_segment_Ok start stop time Hs (Ht time ltac:(by eapply list_elem_of_lookup_2))) as [_ Hb].
  rewrite <- (bucketed_step _ _ _ _ time Htime Hb).
  rewrite concat_alter by (unfold bucketed; by rewrite length_fmap, length_seq).
  rewrite IH by lia. rewrite seq_S. apply Permutation_cons_append.
Qed.

Lemma bucket_bounds start stop time i : start < stop -> start <= time <= stop ->
  bucket start stop time = i ->
  Z.of_nat i * (stop - start) <= 16 * (time - start) /\
  (16 * (time - start) < (Z.of_nat i + 1) * (stop - start) \/ i = 15%nat).
Proof.
  intros Hs Ht <-. unfold bucket. set (q := (time - start) * 16 / (stop - start)).
  assert (Hq : 0 <= q) by (apply Z.div_pos; lia).
  assert (Hl : (stop - start) * q <= (time - start) * 16) by (apply Z.mul_div_le; lia).
  assert (Hu : (time - start) * 16 < (stop - start) * (q + 1)) by (rewrite Z.add_1_r; apply Z.mul_succ_div_gt; lia).
  rewrite Z2Nat.id by lia. destruct (Z.min_spec 15 q) as [[? ->]|[? ->]].
  - split; [nia|]. by right.
  - split; [lia|]. left. lia.
Qed.

Definition filled (rows : list nat) : bool := match rows with [] => false | _ => true end.

(** The rows of each bucket, and what its timestamps are. *)
Definition buckets_ok (start stop : Z) (times : list Z) (rows : nat) (buckets : list (list nat)) : Prop :=
  length buckets = SEGMENTS /\ concat buckets ≡ₚ seq 0 rows /\
  forall i b row time, buckets !! i = Some b -> row ∈ b -> times !! row = Some time ->
    Z.of_nat i * (stop - start) <= 16 * (time - start) /\
    (16 * (time - start) < (Z.of_nat i + 1) * (stop - start) \/ i = 15%nat).

Lemma time_buckets_ok start stop times : start < stop -> Forall (fun t => start <= t <= stop) times ->
  exists buckets, time_buckets start stop times = Ok buckets /\
    buckets_ok start stop times (length times) buckets.
Proof.
  intros Hs Ht. exists (bucketed start stop times (length times)).
  split; [by apply time_buckets_prefix|]. split_and!.
  - unfold bucketed. by rewrite length_fmap, length_seq.
  - by apply bucketed_Permutation.
  - intros i b row time Hb Hrow Htime. unfold bucketed in Hb. rewrite list_lookup_fmap in Hb.
    destruct (seq 0 SEGMENTS !! i) as [j|] eqn:Hj; [|done]. apply lookup_seq in Hj as [-> _]. injection Hb as <-.
    apply list_elem_of_filter in Hrow as [Hrow _]. rewrite Htime in Hrow. simpl in Hrow.
    apply bucket_bounds; [done| |done]. rewrite Forall_forall in Ht. apply Ht.
    by eapply list_elem_of_lookup_2.
Qed.

Lemma times_in_envelope start stop times :
  existsb (fun t => (t <? start) || (stop <? t)) times = false -> Forall (fun t => start <= t <= stop) times.
Proof.
  induction times as [|t times IH]; simpl; [constructor|].
  intros [Ht Hr]%orb_false_iff. constructor; [bool_prop; lia|by apply IH].
Qed.

Lemma single_cpu (cpus : list Z) : length (remove_dups cpus) = 1%nat ->
  exists n, head (remove_dups cpus) = Some n /\ Forall (eq n) cpus.
Proof.
  intros Hl. destruct (remove_dups cpus) as [|n [|]] eqn:E; try done. exists n. split; [done|].
  apply Forall_forall. intros x Hx. apply elem_of_remove_dups in Hx. rewrite E in Hx.
  by apply list_elem_of_singleton in Hx.
Qed.

Lemma validate_class b signal source e : _validate_hardware_batch b signal source = Raise e ->
  exn_class e = HardwareFeatureError.
Proof.
  assert (Ht : forall t name d e, _validate_cpu_tensor t name d = Raise e -> exn_class e = HardwareFeatureError).
  { intros t name d e0. unfold _validate_cpu_tensor. case_if; [|done]. by intros [= <-]. }
  unfold _validate_hardware_batch. case_if; [by intros [= <-]|].
  destruct (rfold _ tt (hb_columns b)) as [[]|e0] eqn:Hf; simpl.
  - destruct (_validate_cpu_tensor _ _ _) as [[]|] eqn:Hv; simpl; [|intros [= <-]; by eapply Ht].
    case_if; [by intros [= <-]|done].
  - intros [= <-]. clear -Hf Ht. revert Hf. generalize (hb_columns b) as l.
    induction l as [|c l IH]; simpl; [done|].
    destruct (_validate_cpu_tensor c.2 _ _) as [[]|] eqn:Hv; simpl; [apply IH|]. intros [= <-]. by eapply Ht.
Qed.

Lemma validate_rows b signal source rows : _validate_hardware_batch b signal source = Ok rows ->
  rows = numel (hb_ip b) /\ numel (hb_time b) = rows.
Proof.
  unfold _validate_hardware_batch. intros H. inv_res H. injection H as <-. split; [done|].
  simpl in Hg0. bool_prop. done.
Qed.

Section pebs.
Context (log1p : float -> float) (pow : float -> Z -> float) (sum : list float -> float).

Lemma pebs_cell_filled s start rows : (pebs_cell log1p pow sum s start rows).1.2 = filled rows.
Proof.
  unfold pebs_cell. destruct rows as [|row rows]; [done|].
  by destruct (pebs_segment log1p pow sum s start (row :: rows)).
Qed.

(** PEBS features account for every sample. Over a nonempty envelope [_pebs_features] fails
    only with its own error; when it returns, there are sixteen buckets that hold every sample
    row exactly once, each in the sixteenth of the envelope its timestamp lies in; a segment
    is available exactly when its bucket is not empty; and the CPU reported, if there are
    samples, is the CPU of all of them. *)
Theorem pebs_samples_bucketed (b : HardwareBatch) (tid start stop : Z) (Hs : start < stop)
  (Htime : length (t_data (hb_time b)) = numel (hb_time b)) :
  match _pebs_features log1p pow sum b tid start stop with
  | Raise e => exn_class e = HardwareFeatureError
  | Ok (features, available, bounds, cpu_seen) =>
      (exists buckets, buckets_ok start stop (t_data (hb_time b)) (numel (hb_ip b)) buckets /\
         available = filled <$> buckets) /\
      (cpu_seen = None <-> numel (hb_ip b) = 0%nat) /\
      forall n, cpu_seen = Some n -> Forall (eq n) (t_data (hb_cpu b))
  end.
Proof.
  unfold _pebs_features. destruct (_validate_hardware_batch b "memory_loads" tid) as [rows|e] eqn:Hv; simpl;
    [|by apply validate_class in Hv].
  apply validate_rows in Hv as [-> Hrows]. case_if; [done|]. case_if.
  { bool_prop. split_and!; [|done|done]. exists (replicate SEGMENTS []).
    split; [|done]. rewrite Heqb1. split_and!; [done|done|].
    intros i bk row time Hb Hrow. apply lookup_replicate in Hb as [-> _]. by apply not_elem_of_nil in Hrow. }
  case_if; [done|]. case_if; [done|]. case_if; [done|]. case_if; [done|]. case_if; [done|]. bool_prop.
  destruct (time_buckets_ok start stop (t_data (hb_time b)) Hs) as (buckets & Hb & Hok);
    [by apply times_in_envelope|].
  rewrite Hb. simpl. rewrite Htime, Hrows in Hok. split_and!.
  - exists buckets. split; [done|]. rewrite <- list_fmap_compose. apply list_fmap_ext. intros i rows _.
    apply pebs_cell_filled.
  - destruct (single_cpu (t_data (hb_cpu b))) as (n & -> & _); [done|]. done.
  - destruct (single_cpu (t_data (hb_cpu b))) as (n & Hn & Hf); [done|]. rewrite Hn. by intros ? [= <-].
Qed.
End pebs.

Definition example_pebs : HardwareBatch :=
  let col l := Tensor int64 cpu [2%nat] l in
  MkHardwareBatch 7 "memory_loads" (col [100; 200]) (col [7; 7]) (col [7; 7]) (col [10; 25]) (col [3; 3])
    (col [50; 50]) (col [4096; 8192]) (col [9; 12]) (col [1; 2]) (col [1; 0]) (Tensor uint8 cpu [0%nat] []).

Lemma pebs_samples_bucketed_witness :
  exists buckets, buckets_ok 0 32 [10; 25] 2 buckets /\
    match _pebs_features id (fun x _ => x) (fun _ => zero) example_pebs 7 0 32 with
    | Ok (_, available, _, _) => available = filled <$> buckets
    | Raise _ => False
    end.
Proof.
  pose proof (pebs_samples_bucketed id (fun x _ => x) (fun _ => zero) example_pebs 7 0 32 ltac:(lia) eq_refl) as H.
  destruct (_pebs_features id (fun x _ => x) (fun _ => zero) example_pebs 7 0 32)
    as [[[[features available] bounds] seen]|e] eqn:E.
  - destruct H as [(buckets & Hok & Ha) _]. exists buckets. split; [exact Hok|exact Ha].
  - exfalso. vm_compute in E. discriminate.
Defined.
