(* ===== verification/FeatureCapture.v ===== *)
(** * What a capture returns can be featurized ([hardware.py], [hardware_multimodal_features.py])

    The composition of the two components: the batches of a successful
    [PerfMultimodalCapture.stop] satisfy the featurizer's identity, envelope,
    status and column checks, so that only what the hardware itself put in the
    samples can make it reject a capture. *)

From stdpp Require Import sorting.
From S2P Require Import Prelude Monad Batch HardwareDecode HardwareConfig HardwareHost HardwareCapture HardwareMultimodal Floats ModelBatch Features FeatureCells.

(** ** Columns *)

Lemma rfold_unit {A} (f : A -> result unit) l : (forall a, a ∈ l -> f a = Ok tt) ->
  rfold (fun _ a => f a) tt l = Ok tt.
Proof.
  induction l as [|a l IH]; intros Hf; [done|]. simpl. rewrite (Hf a) by set_solver. simpl.
  apply IH. set_solver.
Qed.

Lemma validate_expected tid signal es trace :
  _validate_hardware_batch (expected_batch tid signal es trace) signal tid =
    Ok (length (HardwareDecode.samples es)).
Proof.
  unfold _validate_hardware_batch. simpl hb_source. simpl hb_signal.
  rewrite Z.eqb_refl, String.eqb_refl. cbn [negb orb].
  rewrite rfold_unit.
  2:{ intros [name t] Ht. unfold hb_columns in Ht. simpl in Ht. repeat (apply elem_of_cons in Ht as [[= -> ->]|Ht]; [done|]).
      by apply elem_of_nil in Ht. }
  cbn [rbind]. assert (Hn : forall c, c ∈ hb_columns (expected_batch tid signal es trace) ->
    numel c.2 = length (HardwareDecode.samples es)).
  { intros [name t] Ht. unfold hb_columns in Ht. simpl in Ht. repeat (apply elem_of_cons in Ht as [[= -> ->]|Ht]; [unfold numel; simpl; lia|]).
    by apply elem_of_nil in Ht. }
  set (cs := hb_columns (expected_batch tid signal es trace)) in *.
  assert (Hip : numel (hb_ip (expected_batch tid signal es trace)) = length (HardwareDecode.samples es))
    by (apply (Hn ("ip", _)); left).
  change (_validate_cpu_tensor (hb_trace_bytes (expected_batch tid signal es trace))
    (signal +:+ ".trace_bytes") uint8) with (Ok tt : result unit). cbn [rbind]. cbv zeta. rewrite Hip.
  destruct (existsb _ cs) eqn:He; [|done].
  apply existsb_exists in He as (c & Hc%list_elem_of_In & He). by rewrite (Hn c Hc), Nat.eqb_refl in He.
Qed.

(** A PT stream has no samples. *)
Lemma pt_no_samples len es : complete "intel_pt" len es -> HardwareDecode.samples es = [].
Proof.
  intros (_ & Ha & _). induction Ha as [|e es (_ & _ & He) _ IH]; [done|]. by destruct e; [|simpl..].
Qed.

Lemma mapped_trace_bytes m c data a records trace : Forall is_byte a ->
  mapped m c data (Some a) records trace -> Forall is_byte trace.
Proof.
  intros Ha (h & t & o & sz & ah & at' & ao & asz & _ & _ & _ & _ & _ & _ & Hr). by eapply ring_bytes_sub.
Qed.

(** ** One thread *)

Section capture.
Context (m : machine) (c : HardwareMultimodalConfig).
Context (Hmem : forall i, Forall is_byte (m_memory m i)).

Lemma validate_source_Ok b st : st_lost st = false -> st_available st = st_requested st ->
  st_available st = has_payload b (st_signal st) -> status_times b st -> st_signal st ∈ _MODALITIES ->
  (forall cb, mb_counters b = Some cb ->
     0 < cb_time_enabled_ns cb /\ cb_time_running_ns cb = cb_time_enabled_ns cb) ->
  validate_source b (st_signal st) st = Ok tt.
Proof.
  intros Hl Har Hap Ht Hs Hcb. unfold validate_source, actual. rewrite String.eqb_refl, Hl, <- Har. cbn [negb].
  unfold has_payload in Hap. rewrite <- Hap, eqb_reflx, andb_negb_r. cbn [negb].
  destruct st as [signal requested available lost enabled running]. simpl in *. subst requested lost.
  unfold status_times in Ht. simpl in Ht.
  apply elem_of_cons in Hs as [->|Hs]; [|apply elem_of_cons in Hs as [->|Hs]; [|apply list_elem_of_singleton in Hs as ->]];
    simpl in *; subst available.
  - destruct Ht as [-> ->]. destruct (mb_pt b), (mb_counters b); done.
  - destruct (mb_pebs b); simpl in *.
    + destruct Ht as (t & Hpos & -> & ->). rewrite (proj2 (Z.leb_gt t 0)), Z.eqb_refl by lia.
      by destruct (mb_counters b).
    + destruct Ht as [-> ->]. by destruct (mb_counters b).
  - destruct Ht as [-> ->]. destruct (mb_counters b) as [cb|]; [|done]. simpl.
    destruct (Hcb cb eq_refl) as [Hpos ->]. rewrite (proj2 (Z.leb_gt _ 0)), Z.eqb_refl by lia. simpl.
    by rewrite !bool_decide_eq_true_2.
Qed.

Lemma reports_status s b : reports m c s b -> _validate_status b = Ok tt.
Proof.
  intros (_ & _ & _ & [Hsig Hav] & Hst & _ & _ & Hco). unfold _validate_status.
  assert (Hlen : length (mb_status b) = 3%nat) by (by rewrite <- (length_fmap st_signal), Hsig).
  rewrite Hlen. cbn [negb Nat.eqb length _MODALITIES]. rewrite <- Hsig.
  apply rfold_unit. intros [sig st] Hin. apply list_elem_of_lookup in Hin as [i Hi].
  apply lookup_zip_with_Some in Hi as (sig' & st' & [= -> ->] & H1 & H2).
  rewrite list_lookup_fmap, H2 in H1. injection H1 as <-. simpl.
  rewrite Forall_lookup in Hav, Hst. destruct (Hav i st' H2) as [A L], (Hst i st' H2) as (_ & P & T).
  apply validate_source_Ok; try done.
  - rewrite <- Hsig. apply list_elem_of_lookup. exists i. by rewrite list_lookup_fmap, H2.
  - intros cb Hcb. rewrite Hcb in Hco. destruct Hco as (H3 & H4 & _). by split.
Qed.

Lemma complete_pt_features d aux tid hb : complete_batch m c "intel_pt" d aux tid hb ->
  hb_source hb = tid /\ exists features, _pt_features hb = Ok features.
Proof.
  intros (records & trace & es & Hm & _ & Hc & ->). split; [done|].
  assert (Hb : Forall is_byte trace).
  { destruct aux as [a|]; [by eapply mapped_trace_bytes; [apply (Hmem a)|]|].
    destruct Hm as (h & t & o & sz & ah & at' & ao & asz & _ & _ & _ & _ & ->). constructor. }
  unfold _pt_features. rewrite validate_expected, (pt_no_samples _ _ Hc). cbn [rbind length Nat.eqb negb].
  erewrite rmap_total by (intros; by apply pt_segment_Ok). simpl. eauto.
Qed.

Lemma complete_loads d tid hb : complete_batch m c "memory_loads" d None tid hb ->
  exists rows, _validate_hardware_batch hb "memory_loads" tid = Ok rows /\
    numel (hb_ip hb) = rows /\ numel (hb_trace_bytes hb) = 0%nat.
Proof.
  intros (records & trace & es & Hm & _ & _ & ->). rewrite validate_expected.
  destruct Hm as (h & t & o & sz & ah & at' & ao & asz & _ & _ & _ & _ & ->).
  eexists. split_and!; [done|unfold numel; simpl; lia|done].
Qed.

(** A batch that passes every check of the featurizer that does not look into the samples. *)
Definition acceptable_lane (b : HardwareMultimodalBatch) : Prop :=
  mb_source b = mb_tid b /\ mb_cpu b = -1 /\ _validate_status b = Ok tt /\
  (forall hb, mb_pt b = Some hb -> hb_source hb = mb_tid b /\ exists features, _pt_features hb = Ok features) /\
  (forall hb, mb_pebs b = Some hb -> exists rows,
     _validate_hardware_batch hb "memory_loads" (mb_tid b) = Ok rows /\
     numel (hb_ip hb) = rows /\ numel (hb_trace_bytes hb) = 0%nat).

Lemma reports_acceptable s b : reports m c s b -> acceptable_lane b.
Proof.
  intros Hr. pose proof (reports_status s b Hr) as Hs.
  destruct Hr as (H1 & H2 & H3 & _ & _ & Hpt & Hpe & _). unfold acceptable_lane. rewrite H1, H2.
  split_and!; [done|done|done|intros hb Hhb..]; [rewrite Hhb in Hpt|rewrite Hhb in Hpe].
  - destruct Hpt as (d & _ & Hc). by eapply complete_pt_features.
  - destruct Hpe as (d & _ & Hc). by eapply complete_loads.
Qed.

Lemma reports_all ss bs : Forall2 (reports m c) ss bs -> Forall acceptable_lane bs.
Proof. induction 1; constructor; [by eapply reports_acceptable|done]. Qed.
End capture.


