(* ===== verification/ModelValid.v ===== *)
(** * Valid model batches, token by token ([examples/hardware_multimodal.py])

    The checks of the batch constructor read a batch as flattened tensors and
    boolean masks. Here they are shown to say, token by token: the shapes agree,
    what is available is finite, its time bounds are in order, its quality lies
    between zero and one, and every CPU slot has something available. *)

From Stdlib Require SpecFloat.
From S2P Require Import Prelude Floats ModelBatch.

(** ** Elements of a tensor *)

Definition at3 {A} (g : grid A) (r c i : nat) : option A :=
  row ← g !! r; cell ← row !! c; cell !! i.

Lemma at3_Some {A} (g : grid A) r c i x : at3 g r c i = Some x <->
  exists row cell, g !! r = Some row /\ row !! c = Some cell /\ cell !! i = Some x.
Proof.
  unfold at3. split.
  - intros Hx. apply bind_Some in Hx as (row & Hr & Hx). apply bind_Some in Hx as (cell & Hc & Hx). eauto.
  - intros (row & cell & Hr & Hc & Hx). rewrite Hr. simpl. rewrite Hc. done.
Qed.

(** The shape as a proposition, and which elements there are. *)
Definition shape (b k t : nat) {A} (g : grid A) : Prop :=
  length g = b /\ Forall (fun row => length row = k /\ Forall (fun cell => length cell = t) row) g.

Lemma shaped_shape {A} b k t (g : grid A) : shaped b k t g = true <-> shape b k t g.
Proof.
  unfold shaped, shape. rewrite andb_true_iff, Nat.eqb_eq. apply and_iff_compat_l.
  rewrite forallb_forall, Forall_forall. setoid_rewrite <- list_elem_of_In.
  split; intros H row Hr; specialize (H row Hr).
  - apply andb_true_iff in H as [Hl Hc]. split; [by apply Nat.eqb_eq|]. apply Forall_forall. intros cell Hcell.
    rewrite forallb_forall in Hc. apply Nat.eqb_eq, Hc. by apply list_elem_of_In.
  - destruct H as [Hl Hc]. apply andb_true_iff. split; [by apply Nat.eqb_eq|]. apply forallb_forall. intros cell Hcell.
    apply Nat.eqb_eq. rewrite Forall_forall in Hc. apply Hc. by apply list_elem_of_In.
Qed.

Lemma shape_at3 {A} b k t (g : grid A) r c i : shape b k t g ->
  is_Some (at3 g r c i) <-> (r < b /\ c < k /\ i < t)%nat.
Proof.
  intros [<- Hs]. rewrite Forall_lookup in Hs. split.
  - intros [x Hx]. apply at3_Some in Hx as (row & cell & Hr & Hc & Hi). destruct (Hs r row Hr) as [Hk Ht].
    rewrite Forall_lookup in Ht. specialize (Ht c cell Hc).
    apply lookup_lt_Some in Hr, Hc, Hi. lia.
  - intros (Hr & Hc & Hi). apply lookup_lt_is_Some in Hr as [row Hr]. destruct (Hs r row Hr) as [Hk Ht].
    rewrite <- Hk in Hc. apply lookup_lt_is_Some in Hc as [cell Hc]. rewrite Forall_lookup in Ht.
    rewrite <- (Ht c cell Hc) in Hi. apply lookup_lt_is_Some in Hi as [x Hi]. exists x. apply at3_Some. eauto.
Qed.

(** ** Flattened tensors and masks *)

Lemma zip_concat {A B} (xs : list (list A)) (ys : list (list B)) :
  Forall2 (fun x y => length x = length y) xs ys -> zip (concat xs) (concat ys) = concat (zip_with zip xs ys).
Proof.
  induction 1 as [|x y xs ys Hl _ IH]; [done|]. simpl. rewrite zip_with_app by done. by rewrite IH.
Qed.

Lemma elem_of_flat {A} (g : grid A) x : x ∈ flat g <-> exists r c i, at3 g r c i = Some x.
Proof.
  unfold flat. rewrite elem_of_concat. setoid_rewrite elem_of_concat.
  setoid_rewrite list_elem_of_lookup. setoid_rewrite at3_Some. naive_solver.
Qed.

Lemma zip_flat {A B} b k t (g : grid A) (h : grid B) : shape b k t g -> shape b k t h ->
  zip (flat g) (flat h) = flat (zip_with (zip_with zip) g h).
Proof.
  intros [Hg Gs] [Hh Hs]. unfold flat.
  assert (Hrows : forall (row : list (list A)) (row' : list (list B)), length row = length row' ->
    Forall (fun cell => length cell = t) row -> Forall (fun cell => length cell = t) row' ->
    Forall2 (fun x y => length x = length y) row row').
  { intros row row' Hl H1 H2. apply Forall2_same_length_lookup. split; [done|]. intros i x y Hx Hy.
    rewrite Forall_lookup in H1. rewrite Forall_lookup in H2. by rewrite (H1 i x), (H2 i y). }
  assert (Hcells : Forall2 (fun x y => length x = length y) (concat g) (concat h)).
  { subst b. clear -Gs Hs Hh Hrows. revert h Hh Hs. induction Gs as [|row g [Hk Ht] _ IH]; intros [|row' h] Hh Hs; try done.
    apply Forall_cons in Hs as [[Hk' Ht'] Hs]. simpl. apply Forall2_app; [|by apply IH; [simpl in Hh; lia|]].
    apply Hrows; [congruence|done|done]. }
  rewrite zip_concat by done. f_equal.
  subst b. clear -Gs Hs Hh. revert h Hh Hs. induction Gs as [|row g [Hk Ht] _ IH]; intros [|row' h] Hh Hs; try done.
  apply Forall_cons in Hs as [[Hk' Ht'] Hs]. simpl. rewrite zip_with_app by congruence.
  by rewrite IH; [|simpl in Hh; lia|].
Qed.

Lemma at3_zip {A B} (g : grid A) (h : grid B) r c i x y :
  at3 (zip_with (zip_with zip) g h) r c i = Some (x, y) <-> at3 g r c i = Some x /\ at3 h r c i = Some y.
Proof.
  rewrite !at3_Some. setoid_rewrite lookup_zip_with_Some. split.
  - intros (row & cell & (row1 & row2 & -> & H1 & H2) & Hc & Hx).
    apply lookup_zip_with_Some in Hc as (c1 & c2 & -> & Hc1 & Hc2).
    apply lookup_zip_with_Some in Hx as (x' & y' & [= <- <-] & Hx & Hy). split; eauto 10.
  - intros [(row1 & c1 & H1 & Hc1 & Hx) (row2 & c2 & H2 & Hc2 & Hy)].
    exists (zip_with zip row1 row2), (zip c1 c2). split_and!; [eauto 10|apply lookup_zip_with_Some; eauto 10|].
    apply lookup_zip_with_Some. eauto 10.
Qed.

Lemma elem_of_selected {A} b k t (g : grid A) (mask : grid bool) x : shape b k t g -> shape b k t mask ->
  x ∈ selected g mask <-> exists r c i, at3 g r c i = Some x /\ at3 mask r c i = Some true.
Proof.
  intros Hg Hm. unfold selected. rewrite (zip_flat b k t) by done. rewrite list_elem_of_fmap.
  setoid_rewrite list_elem_of_filter. setoid_rewrite elem_of_flat. split.
  - intros ([y m] & -> & Ht & r & c & i & Hi). simpl in *. subst m. apply at3_zip in Hi. eauto.
  - intros (r & c & i & Hi). exists (x, true). split; [done|]. split; [done|]. exists r, c, i. by apply at3_zip.
Qed.

(** ** Token availability *)

Lemma at3_cat {A} b k t1 t2 (g h : grid A) r c i : shape b k t1 g -> shape b k t2 h ->
  at3 (zip_with (zip_with (fun x y => x ++ y)) g h) r c i =
  if decide (i < t1)%nat then at3 g r c i else at3 h r c (i - t1).
Proof.
  intros [Hg Gs] [Hh Hs]. unfold at3. rewrite lookup_zip_with.
  destruct (g !! r) as [row|] eqn:Hr; simpl.
  2:{ assert (h !! r = None) as Hhr by (apply lookup_ge_None in Hr; apply lookup_ge_None; lia).
      rewrite Hhr. by case_decide. }
  assert (Hh' : is_Some (h !! r)) by (apply lookup_lt_is_Some; apply lookup_lt_Some in Hr; lia).
  destruct Hh' as [row' Hr']. rewrite Hr'. simpl. rewrite lookup_zip_with.
  rewrite Forall_lookup in Gs. rewrite Forall_lookup in Hs.
  destruct (Gs r row Hr) as [Hk Ht], (Hs r row' Hr') as [Hk' Ht'].
  destruct (row !! c) as [cell|] eqn:Hc; simpl.
  2:{ assert (row' !! c = None) as -> by (apply lookup_ge_None in Hc; apply lookup_ge_None; lia). by case_decide. }
  assert (Hc' : is_Some (row' !! c)) by (apply lookup_lt_is_Some; apply lookup_lt_Some in Hc; lia).
  destruct Hc' as [cell' Hc']. rewrite Hc'. simpl. rewrite Forall_lookup in Ht. specialize (Ht c cell Hc).
  case_decide; [by rewrite lookup_app_l by lia|]. rewrite lookup_app_r by lia. by rewrite Ht.
Qed.

Lemma shape_cat {A} b k t1 t2 (g h : grid A) : shape b k t1 g -> shape b k t2 h ->
  shape b k (t1 + t2) (zip_with (zip_with (fun x y => x ++ y)) g h).
Proof.
  intros [Hg Gs] [Hh Hs]. split; [by rewrite length_zip_with, Hg, Hh, Nat.min_id|].
  rewrite Forall_lookup in Gs. rewrite Forall_lookup in Hs. apply Forall_lookup. intros r row Hr.
  apply lookup_zip_with_Some in Hr as (row1 & row2 & -> & H1 & H2).
  destruct (Gs r row1 H1) as [K1 T1], (Hs r row2 H2) as [K2 T2].
  split; [by rewrite length_zip_with, K1, K2, Nat.min_id|].
  rewrite Forall_lookup in T1. rewrite Forall_lookup in T2. apply Forall_lookup. intros c cell Hc.
  apply lookup_zip_with_Some in Hc as (c1 & c2 & -> & C1 & C2). rewrite length_app. by rewrite (T1 c c1), (T2 c c2).
Qed.

Lemma shape_availability b k m : shape b k 16 (mo_pt_available m) -> shape b k 16 (mo_pebs_available m) ->
  shape b k 1 (mo_pmu_available m) -> shape b k 33 (token_availability m).
Proof. intros H1 H2 H3. by apply (shape_cat b k 32 1); [apply (shape_cat b k 16 16)|]. Qed.

Lemma availability_at b k m r c i : shape b k 16 (mo_pt_available m) -> shape b k 16 (mo_pebs_available m) ->
  shape b k 1 (mo_pmu_available m) ->
  at3 (token_availability m) r c i =
    if decide (i < 16)%nat then at3 (mo_pt_available m) r c i
    else if decide (i < 32)%nat then at3 (mo_pebs_available m) r c (i - 16)
    else at3 (mo_pmu_available m) r c (i - 32).
Proof.
  intros H1 H2 H3. unfold token_availability, cat_tokens.
  rewrite (at3_cat b k 32 1) by (done || by apply (shape_cat b k 16 16)).
  rewrite (at3_cat b k 16 16) by done. repeat case_decide; try done; lia.
Qed.

(** ** Validity *)

Definition wide {A} (n : nat) (g : grid (list A)) : Prop := forall r c i l, at3 g r c i = Some l -> length l = n.

Record valid (b k : nat) (m : ModelBatch) : Prop := {
  v_pt : shape b k SEGMENTS (mo_pt m);
  v_pebs : shape b k SEGMENTS (mo_pebs m);
  v_pmu : shape b k 1 (mo_pmu m);
  v_pt_available : shape b k SEGMENTS (mo_pt_available m);
  v_pebs_available : shape b k SEGMENTS (mo_pebs_available m);
  v_pmu_available : shape b k 1 (mo_pmu_available m);
  v_bounds : shape b k TOKENS (mo_time_bounds m);
  v_quality : shape b k TOKENS (mo_timing_quality m);
  v_pt_wide : wide BYTE_VALUES (mo_pt m);
  v_pebs_wide : exists n, n <> 0%nat /\ wide n (mo_pebs m);
  v_pmu_wide : exists n, n <> 0%nat /\ wide n (mo_pmu m);
  v_pt_finite : forall r c i l, at3 (mo_pt m) r c i = Some l -> at3 (mo_pt_available m) r c i = Some true ->
    forallb finite l = true;
  v_pebs_finite : forall r c i l, at3 (mo_pebs m) r c i = Some l -> at3 (mo_pebs_available m) r c i = Some true ->
    forallb finite l = true;
  v_pmu_finite : forall r c i l, at3 (mo_pmu m) r c i = Some l -> at3 (mo_pmu_available m) r c i = Some true ->
    forallb finite l = true;
  v_times : forall r c i x, at3 (mo_time_bounds m) r c i = Some x -> at3 (token_availability m) r c i = Some true ->
    finite x.1 && finite x.2 = true /\ SpecFloat.SFltb x.2 x.1 = false;
  v_rates : forall r c i q, at3 (mo_timing_quality m) r c i = Some q -> at3 (token_availability m) r c i = Some true ->
    finite q = true /\ SpecFloat.SFltb q zero || SpecFloat.SFltb (float32_of_int 1) q = false;
  v_slot : forall r c, (r < b)%nat -> (c < k)%nat -> exists i, at3 (token_availability m) r c i = Some true;
}.

Lemma forallb_selected {A} b k t (g : grid A) mask f : shape b k t g -> shape b k t mask ->
  forallb f (selected g mask) = true <->
  forall r c i x, at3 g r c i = Some x -> at3 mask r c i = Some true -> f x = true.
Proof.
  intros Hg Hm. rewrite forallb_forall. setoid_rewrite <- list_elem_of_In.
  setoid_rewrite (elem_of_selected b k t _ _ _ Hg Hm). naive_solver.
Qed.

Lemma existsb_selected {A} b k t (g : grid A) mask f : shape b k t g -> shape b k t mask ->
  existsb f (selected g mask) = false <->
  forall r c i x, at3 g r c i = Some x -> at3 mask r c i = Some true -> f x = false.
Proof.
  intros Hg Hm. rewrite <- not_true_iff_false, existsb_exists. setoid_rewrite <- list_elem_of_In.
  setoid_rewrite (elem_of_selected b k t _ _ _ Hg Hm). split.
  - intros Hn r c i x Hx Hi. destruct (f x) eqn:Hf; [|done]. exfalso. apply Hn. eauto 10.
  - intros Hf (x & (r & c & i & Hx & Hi) & Ht). by rewrite (Hf r c i x) in Ht.
Qed.

Lemma widths_wide {A} n (g : grid (list A)) : widths n g = true <-> wide n g.
Proof.
  unfold widths, wide. rewrite forallb_forall. setoid_rewrite <- list_elem_of_In. setoid_rewrite elem_of_flat.
  setoid_rewrite Nat.eqb_eq. naive_solver.
Qed.

(** Rows of one width that is not zero. *)
Lemma width_wide {A} (g : grid (list A)) : (widths (width g) g = true /\ no_features g = false) <->
  exists n, n <> 0%nat /\ wide n g.
Proof.
  rewrite widths_wide. unfold width, no_features. destruct (flat g) as [|l ls] eqn:Hf.
  - assert (Hw : forall n, wide n g).
    { intros n r c i x Hx. assert (x ∈ flat g) as Hin by (apply elem_of_flat; eauto).
      rewrite Hf in Hin. by apply elem_of_nil in Hin. }
    split; [intros _; by exists 1%nat|done].
  - assert (Hl : exists r c i, at3 g r c i = Some l) by (apply elem_of_flat; rewrite Hf; left).
    destruct Hl as (r & c & i & Hl). rewrite Nat.eqb_neq. split.
    + intros [Hw Hn]. eauto.
    + intros (n & Hn & Hw). by rewrite (Hw r c i l Hl).
Qed.

Lemma slots_available b k t (g : grid bool) : shape b k t g ->
  existsb (existsb (fun cell => negb (existsb id cell))) g = false <->
  forall r c, (r < b)%nat -> (c < k)%nat -> exists i, at3 g r c i = Some true.
Proof.
  intros [Hb Hs]. rewrite <- not_true_iff_false, existsb_exists. rewrite Forall_lookup in Hs. split.
  - intros Hn r c Hr Hc. subst b. apply lookup_lt_is_Some in Hr as [row Hr]. destruct (Hs r row Hr) as [Hk _].
    rewrite <- Hk in Hc. apply lookup_lt_is_Some in Hc as [cell Hc].
    destruct (existsb id cell) eqn:He.
    + apply existsb_exists in He as (x & Hx%list_elem_of_In & Ht). simpl in Ht. unfold id in Ht. subst x.
      apply list_elem_of_lookup in Hx as [i Hi]. exists i. apply at3_Some. eauto.
    + exfalso. apply Hn. exists row. split; [by apply list_elem_of_In, (list_elem_of_lookup_2 _ r)|].
      apply existsb_exists. exists cell. split; [by apply list_elem_of_In, (list_elem_of_lookup_2 _ c)|by rewrite He].
  - intros Hall (row & Hr%list_elem_of_In & He). apply list_elem_of_lookup in Hr as [r Hr].
    apply existsb_exists in He as (cell & Hc%list_elem_of_In & He). apply list_elem_of_lookup in Hc as [c Hc].
    destruct (Hs r row Hr) as [Hk _].
    destruct (Hall r c) as [i Hi]; [rewrite <- Hb; by eapply lookup_lt_Some|rewrite <- Hk; by eapply lookup_lt_Some|].
    apply at3_Some in Hi as (row' & cell' & Hr' & Hc' & Hi). rewrite Hr in Hr'. injection Hr' as <-.
    rewrite Hc in Hc'. injection Hc' as <-. apply negb_true_iff in He.
    enough (existsb id cell = true) by congruence. apply existsb_exists. exists true.
    split; [by apply list_elem_of_In, (list_elem_of_lookup_2 _ i)|done].
Qed.

Lemma raise_Ok {A} (b : bool) c msg (k : result A) x :
  (if b then throw c msg else k) = Ok x <-> b = false /\ k = Ok x.
Proof. destruct b; naive_solver. Qed.

Lemma check_valid m : check_model_batch m = Ok tt <-> valid (batch_size m) (cpu_count m) m.
Proof.
  unfold check_model_batch. cbv zeta. set (b := batch_size m). set (k := cpu_count m).
  rewrite !raise_Ok, !orb_false_iff, !negb_false_iff, !andb_true_iff, !shaped_shape.
  rewrite widths_wide. split.
  - intros ([P1 W1] & [P2 W2] & [P3 W3] & [N2 N3] & [[A1 A2] A3] & T & Q & [[F1 F2] F3] & F & B & [R1 R2] & S & _).
    pose proof (shape_availability b k m A1 A2 A3) as Av.
    rewrite (forallb_selected b k SEGMENTS) in F1 by done. rewrite (forallb_selected b k SEGMENTS) in F2 by done.
    rewrite (forallb_selected b k 1) in F3 by done. rewrite (forallb_selected b k TOKENS) in F by done.
    rewrite (existsb_selected b k TOKENS) in B by done. rewrite (forallb_selected b k TOKENS) in R1 by done.
    rewrite (existsb_selected b k TOKENS) in R2 by done. rewrite (slots_available b k TOKENS) in S by done.
    split; try done; try (by apply width_wide); eauto.
  - intros [P1 P2 P3 A1 A2 A3 T Q W1 W2 W3 F1 F2 F3 B R S].
    pose proof (shape_availability b k m A1 A2 A3) as Av.
    apply width_wide in W2 as [W2 N2]. apply width_wide in W3 as [W3 N3].
    rewrite (forallb_selected b k SEGMENTS) by done. rewrite (forallb_selected b k SEGMENTS) by done.
    rewrite (forallb_selected b k 1) by done. rewrite (forallb_selected b k TOKENS) by done.
    rewrite (existsb_selected b k TOKENS) by done. rewrite (forallb_selected b k TOKENS) by done.
    rewrite (existsb_selected b k TOKENS) by done. rewrite (slots_available b k TOKENS) by done.
    split_and!; try done; intros r c i x Hx Hi; [by apply (B r c i)|by apply (B r c i)|by apply (R r c i)|by apply (R r c i)].
Qed.

(** The sizes need not be read off the batch. *)
Lemma shape_empty {A} k k' t (g : grid A) : shape 0 k t g -> shape 0 k' t g.
Proof. intros [Hl _]. by apply nil_length_inv in Hl as ->. Qed.

Lemma valid_check b k m : valid b k m -> check_model_batch m = Ok tt.
Proof.
  intros Hv. apply check_valid. assert (Hb : batch_size m = b) by apply Hv. rewrite Hb.
  destruct b as [|b].
  - destruct Hv. split; try done; try (by eapply shape_empty). intros r c Hr. lia.
  - enough (cpu_count m = k) as -> by done. destruct (v_pt _ _ _ Hv) as [Hl Hs]. unfold cpu_count.
    destruct (mo_pt m) as [|row rows]; [done|]. apply Forall_cons in Hs as [[Hk _] _]. done.
Qed.

(** ** Selecting executions *)

Lemma select_rows_Ok {A} indices (g : list A) : Forall (fun i => i < length g)%nat indices ->
  exists h, select_rows indices g = Ok h /\ length h = length indices /\
    forall r, h !! r = i ← indices !! r; g !! i.
Proof.
  unfold select_rows. induction 1 as [|i indices Hi _ (h & Hh & Hl & IH)]; [by exists []|].
  apply lookup_lt_is_Some in Hi as [x Hx]. exists (x :: h). simpl. rewrite Hx. simpl. rewrite Hh. simpl.
  split_and!; [done|by f_equal|]. intros [|r]; [done|]. apply IH.
Qed.

(** A tensor whose executions are executions of another. *)
Definition gathers {A} (indices : list nat) (g h : grid A) : Prop :=
  length h = length indices /\ forall r, h !! r = i ← indices !! r; g !! i.

Lemma gathers_shape {A} b k t indices (g h : grid A) : gathers indices g h -> shape b k t g ->
  shape (length indices) k t h.
Proof.
  intros [Hl Hg] [_ Hs]. split; [done|]. rewrite Forall_lookup in Hs. apply Forall_lookup. intros r row Hr.
  rewrite Hg in Hr. apply bind_Some in Hr as (i & _ & Hi). by apply (Hs i).
Qed.

Lemma gathers_at {A} indices (g h : grid A) r c i : gathers indices g h ->
  at3 h r c i = j ← indices !! r; at3 g j c i.
Proof. intros [_ Hg]. unfold at3. rewrite Hg. by destruct (indices !! r). Qed.

Lemma gathers_cat {A} indices (g1 g2 h1 h2 : grid A) : gathers indices g1 h1 -> gathers indices g2 h2 ->
  gathers indices (zip_with (zip_with (fun x y => x ++ y)) g1 g2) (zip_with (zip_with (fun x y => x ++ y)) h1 h2).
Proof.
  intros [L1 G1] [L2 G2]. split; [rewrite length_zip_with; lia|]. intros r. rewrite lookup_zip_with, G1, G2.
  destruct (indices !! r) as [i|]; [|done]. simpl. by rewrite lookup_zip_with.
Qed.

Lemma gathers_valid b k indices m m' : valid b k m -> Forall (fun i => i < b)%nat indices ->
  gathers indices (mo_pt m) (mo_pt m') -> gathers indices (mo_pebs m) (mo_pebs m') ->
  gathers indices (mo_pmu m) (mo_pmu m') -> gathers indices (mo_pt_available m) (mo_pt_available m') ->
  gathers indices (mo_pebs_available m) (mo_pebs_available m') ->
  gathers indices (mo_pmu_available m) (mo_pmu_available m') ->
  gathers indices (mo_time_bounds m) (mo_time_bounds m') ->
  gathers indices (mo_timing_quality m) (mo_timing_quality m') -> valid (length indices) k m'.
Proof.
  intros V Hi G1 G2 G3 G4 G5 G6 G7 G8.
  assert (G9 : gathers indices (token_availability m) (token_availability m'))
    by (by apply gathers_cat; [apply gathers_cat|]).
  assert (Hwide : forall A n (g h : grid (list A)), gathers indices g h -> wide n g -> wide n h).
  { intros A n g h Hg Hw r c i l Hl. rewrite (gathers_at _ _ _ _ _ _ Hg) in Hl.
    apply bind_Some in Hl as (j & _ & Hl). by eapply Hw. }
  assert (Hboth : forall A B (g h : grid A) (g' h' : grid B) r c i x y, gathers indices g h -> gathers indices g' h' ->
    at3 h r c i = Some x -> at3 h' r c i = Some y -> exists j, at3 g j c i = Some x /\ at3 g' j c i = Some y).
  { intros A B g h g' h' r c i x y Hg Hg' Hx Hy. rewrite (gathers_at _ _ _ _ _ _ Hg) in Hx.
    rewrite (gathers_at _ _ _ _ _ _ Hg') in Hy. destruct (indices !! r) as [j|]; [|done]. by exists j. }
  destruct V. split; try (by eapply gathers_shape); try (by eapply Hwide).
  - destruct v_pebs_wide0 as (n & Hn & Hw). exists n. split; [done|by eapply Hwide].
  - destruct v_pmu_wide0 as (n & Hn & Hw). exists n. split; [done|by eapply Hwide].
  - intros r c i x Hx Ha. destruct (Hboth _ _ _ _ _ _ _ _ _ _ _ G1 G4 Hx Ha) as (j & Hx' & Ha'). eauto.
  - intros r c i x Hx Ha. destruct (Hboth _ _ _ _ _ _ _ _ _ _ _ G2 G5 Hx Ha) as (j & Hx' & Ha'). eauto.
  - intros r c i x Hx Ha. destruct (Hboth _ _ _ _ _ _ _ _ _ _ _ G3 G6 Hx Ha) as (j & Hx' & Ha'). eauto.
  - intros r c i x Hx Ha. destruct (Hboth _ _ _ _ _ _ _ _ _ _ _ G7 G9 Hx Ha) as (j & Hx' & Ha'). eauto.
  - intros r c i x Hx Ha. destruct (Hboth _ _ _ _ _ _ _ _ _ _ _ G8 G9 Hx Ha) as (j & Hx' & Ha'). eauto.
  - intros r c Hr Hc. apply lookup_lt_is_Some in Hr as [j Hj]. rewrite Forall_lookup in Hi.
    destruct (v_slot0 j c (Hi r j Hj) Hc) as [i Ht]. exists i. rewrite (gathers_at _ _ _ _ _ _ G9), Hj. done.
Qed.

(** Selecting executions of a valid batch always gives a valid batch: a training step can
    draw any executions, in any order and with repetition, and the constructor's checks hold;
    row [r] of every tensor is the row the [r]-th index names. *)
Theorem index_select_valid (m : ModelBatch) (indices : list nat) (Hm : check_model_batch m = Ok tt)
  (Hi : Forall (fun i => i < batch_size m)%nat indices) :
  exists m', index_select indices m = Ok m' /\ check_model_batch m' = Ok tt /\
    gathers indices (mo_pt m) (mo_pt m') /\ gathers indices (mo_pebs m) (mo_pebs m') /\ gathers indices (mo_pmu m) (mo_pmu m') /\
    gathers indices (mo_time_bounds m) (mo_time_bounds m').
Proof.
  pose proof (proj1 (check_valid m) Hm) as V. set (b := batch_size m) in *.
  assert (Hsel : forall A (g : grid A), length g = b -> exists h, select_rows indices g = Ok h /\ gathers indices g h).
  { intros A g Hl. destruct (select_rows_Ok indices g) as (h & Hh & Hg); [by rewrite Hl|]. by exists h. }
  unfold index_select.
  destruct (Hsel _ (mo_pt m)) as (h1 & -> & G1); [apply V|]. cbn [rbind].
  destruct (Hsel _ (mo_pebs m)) as (h2 & -> & G2); [apply V|]. cbn [rbind].
  destruct (Hsel _ (mo_pmu m)) as (h3 & -> & G3); [apply V|]. cbn [rbind].
  destruct (Hsel _ (mo_pt_available m)) as (h4 & -> & G4); [apply V|]. cbn [rbind].
  destruct (Hsel _ (mo_pebs_available m)) as (h5 & -> & G5); [apply V|]. cbn [rbind].
  destruct (Hsel _ (mo_pmu_available m)) as (h6 & -> & G6); [apply V|]. cbn [rbind].
  destruct (Hsel _ (mo_time_bounds m)) as (h7 & -> & G7); [apply V|]. cbn [rbind].
  destruct (Hsel _ (mo_timing_quality m)) as (h8 & -> & G8); [apply V|]. cbn [rbind].
  assert (V' : valid (length indices) (cpu_count m) (MkModelBatch h1 h2 h3 h4 h5 h6 h7 h8))
    by (by eapply gathers_valid).
  apply valid_check in V'. unfold model_batch. rewrite V'. simpl. eauto 12.
Qed.
