(* ===== verification/ExperimentCapture.v ===== *)
(** * Admitting captures to a corpus ([examples/hardware_multimodal_experiment.py])

    [_validate_capture], [_validate_lanes], [_rejection_reason] and
    [capture_execution]: launching the gated target, capturing it, and deciding
    whether the capture may enter the corpus. What the target process does is
    an argument; killing it and collecting its output do not fail. The timing
    of the phases, a report, is left out. *)

From S2P Require Import Prelude Monad Batch HardwareDecode HardwareConfig HardwareHost HardwareMultimodal Floats ModelBatch Features.

(** ** Exceptions *)

(** [CaptureAdmissionError], a [HardwareCaptureError] with a reason, or another exception. *)
Inductive capture_exn := Admission (reason message : string) | Plain (e : exn).

(** [isinstance(error, (HardwareCaptureError, HardwareFeatureError))] *)
Definition rejects (e : capture_exn) : bool :=
  match e with
  | Admission _ _ => true
  | Plain e => isinstance_exc (exn_class e) HardwareCaptureError ||
               isinstance_exc (exn_class e) HardwareFeatureError
  end.

Definition _rejection_reason (e : capture_exn) : string :=
  match e with
  | Admission reason _ => reason
  | Plain e =>
      if isinstance_exc (exn_class e) HardwareTraceLost then "hardware_trace_lost"
      else if isinstance_exc (exn_class e) HardwareCaptureError then "hardware_capture_error"
      else "hardware_feature_error"
  end.

Definition plain {A} (r : result A) : res capture_exn A :=
  match r with Ok a => Ok a | Raise e => Raise (Plain e) end.

(** [if b: raise CaptureAdmissionError(reason, message)], then [k]. *)
Definition refuse {A} (b : bool) (reason message : string) (k : res capture_exn A) : res capture_exn A :=
  if b then Raise (Admission reason message) else k.

(** ** [_validate_capture] *)

Record counts := MkCounts {
  ct_pt_bytes : Z;
  ct_pebs_samples : Z;
  ct_pebs_exact_ip : Z;
  ct_pebs_nonzero_address : Z;
  ct_lost_sources : Z;
  ct_missing_sources : Z;
  ct_multiplexed_sources : Z;
}.
Definition no_counts : counts := MkCounts 0 0 0 0 0 0 0.

Definition flag (b : bool) : Z := if b then 1 else 0.
Definition tally {A} (f : A -> bool) (l : list A) : Z := zsum (fun a => flag (f a)) l.

(** [{status.signal: status for status in batch.status}] *)
Definition status_by_signal (l : list HardwareSourceStatus) : list (string * HardwareSourceStatus) :=
  fold_left (fun d st => od_set (st_signal st) st d) l [].

(** Every frozen source is there, and requested. *)
Definition contract_broken (b : HardwareMultimodalBatch) : bool :=
  let d := status_by_signal (mb_status b) in
  negb (forallb (fun p => one_of p.1 _MODALITIES) d &&
        forallb (fun name => is_some (od_get name d)) _MODALITIES) ||
  existsb (fun name => match od_get name d with Some st => negb (st_requested st) | None => true end) _MODALITIES.

Definition multiplexed (st : HardwareSourceStatus) : bool :=
  match st_time_enabled_ns st with
  | None => true
  | Some enabled => (enabled <=? 0) || negb (bool_decide (st_time_running_ns st = Some enabled))
  end.

(** The loop over the requested statuses: the first multiplexed source is refused. *)
Definition check_times (requested : list HardwareSourceStatus) : res capture_exn unit :=
  match find (fun st => one_of (st_signal st) ["memory_loads"; "counters"] && multiplexed st) requested with
  | Some st => Raise (Admission "source_empty_or_multiplexed" (st_signal st +:+ " source was empty or multiplexed"))
  | None => Ok tt
  end.

Definition add_pt (pt : option HardwareBatch) (c : counts) : counts :=
  match pt with
  | Some hb => MkCounts (ct_pt_bytes c + Z.of_nat (numel (hb_trace_bytes hb))) (ct_pebs_samples c)
      (ct_pebs_exact_ip c) (ct_pebs_nonzero_address c) (ct_lost_sources c) (ct_missing_sources c)
      (ct_multiplexed_sources c)
  | None => c
  end.

Definition nonzero (v : Z) : bool := negb (v =? 0).

(** Samples that are not exact, have no address or are of another CPU. *)
Definition bad_samples (hb : HardwareBatch) (target_cpu : Z) : bool :=
  negb (numel (hb_ip hb) =? 0)%nat &&
  (negb (forallb nonzero (t_data (hb_exact_ip hb))) || negb (forallb nonzero (t_data (hb_address hb))) ||
   negb (bool_decide ((list_to_set (t_data (hb_cpu hb)) : gset Z) = {[target_cpu]}))).

Definition add_pebs (pebs : option HardwareBatch) (target_cpu : Z) (c : counts) : res capture_exn counts :=
  match pebs with
  | Some hb =>
      refuse (bad_samples hb target_cpu) "pebs_sample_quality"
        "PEBS samples must be exact-IP, nonzero-address, and target-CPU attributed"
        (Ok (MkCounts (ct_pt_bytes c) (ct_pebs_samples c + Z.of_nat (numel (hb_ip hb)))
           (ct_pebs_exact_ip c + foldr Z.add 0 (t_data (hb_exact_ip hb)))
           (ct_pebs_nonzero_address c + tally nonzero (t_data (hb_address hb)))
           (ct_lost_sources c) (ct_missing_sources c) (ct_multiplexed_sources c)))
  | None => Ok c
  end.

(** One pass of the loop over the batches. *)
Definition validate_batch (target_cpu : Z) (c : counts) (b : HardwareMultimodalBatch) : res capture_exn counts :=
  refuse (contract_broken b) "requested_source_contract"
    "kernel multimodal admission requires every frozen source"
  (let requested := filter (fun st => st_requested st = true) (mb_status b) in
   let c := MkCounts (ct_pt_bytes c) (ct_pebs_samples c) (ct_pebs_exact_ip c) (ct_pebs_nonzero_address c)
     (ct_lost_sources c + tally st_lost requested)
     (ct_missing_sources c + tally (fun st => negb (st_available st)) requested) (ct_multiplexed_sources c) in
   refuse (existsb st_lost requested) "source_reported_loss" "requested hardware modality reported loss"
   (refuse (existsb (fun st => negb (st_available st)) requested) "requested_source_unavailable"
      "requested hardware modality was unavailable"
   (let! _ := check_times requested in
    let! c := add_pebs (mb_pebs b) target_cpu (add_pt (mb_pt b) c) in
    match mb_counters b with
    | Some cb => refuse (negb (cb_time_enabled_ns cb =? cb_time_running_ns cb)) "counter_group_multiplexed"
        "boundary PMU counter group was multiplexed" (Ok c)
    | None => Ok c
    end))).

Fixpoint validate_batches (target_cpu : Z) (c : counts) (bs : list HardwareMultimodalBatch) : res capture_exn counts :=
  match bs with
  | [] => Ok c
  | b :: bs => let! c := validate_batch target_cpu c b in validate_batches target_cpu c bs
  end.

Definition _validate_capture (bs : list HardwareMultimodalBatch) (target_pid target_cpu : Z) : res capture_exn counts :=
  refuse (match bs with [] => true | _ => false end || existsb (fun b => negb (mb_tid b =? mb_source b)) bs)
    "source_identity" "capture returned an invalid source identity"
  (refuse (negb (existsb (Z.eqb target_pid) (mb_tid <$> bs))) "target_thread_missing"
    "capture omitted the gated target thread"
  (let! c := validate_batches target_cpu no_counts bs in
   refuse (ct_pt_bytes c =? 0) "empty_pt" "raw Intel PT capture was empty" (Ok c))).

(** ** [_validate_lanes] *)

Record lane_counts := MkLaneCounts { lc_sampled : Z; lc_zero_sample : Z }.

Definition validate_lane (target_cpu : Z) (c : lane_counts) (l : HardwareLaneReport) : res capture_exn lane_counts :=
  if (lr_pebs_samples l =? 0)%nat then
    refuse (is_some (lr_observed_cpu l) || lr_migration_verified l) "zero_sample_lane_inconsistent"
      "zero-sample PEBS lanes must not claim observed CPU evidence"
      (Ok (MkLaneCounts (lc_sampled c) (lc_zero_sample c + 1)))
  else
    refuse (negb (lr_migration_verified l) || negb (bool_decide (lr_observed_cpu l = Some target_cpu)))
      "sampled_lane_cpu_mismatch" "sampled PEBS lanes need target-CPU migration evidence"
      (Ok (MkLaneCounts (lc_sampled c + 1) (lc_zero_sample c))).

Fixpoint validate_lanes_loop (target_cpu : Z) (c : lane_counts) (ls : list HardwareLaneReport) :
    res capture_exn lane_counts :=
  match ls with
  | [] => Ok c
  | l :: ls => let! c := validate_lane target_cpu c l in validate_lanes_loop target_cpu c ls
  end.

Definition _validate_lanes (ls : list HardwareLaneReport) (target_cpu : Z) (target_affinity : list Z) :
    res capture_exn lane_counts :=
  refuse (match ls with [] => true | _ => false end) "lane_missing" "featurizer returned no execution lanes"
  (refuse (negb (bool_decide (target_affinity = [target_cpu]))) "target_affinity_mismatch"
    "zero-sample admission requires exact target CPU affinity"
  (validate_lanes_loop target_cpu (MkLaneCounts 0 0) ls)).

(** ** [capture_execution] *)

(** What the target does: whether it starts, its pid, the line it prints first, its affinity
    while it waits, what it prints once released (or why waiting for it fails), its status. *)
Record child := MkChild {
  ch_popen : result unit;
  ch_pid : Z;
  ch_line : list Z;
  ch_affinity : result (list Z);
  ch_communicate : result (list Z * list Z);
  ch_returncode : Z;
  ch_elapsed : Z;
}.

(** The target and the capture around it. *)
Record scene := MkScene {
  sc_spawned : bool;
  sc_released : bool;
  sc_killed : bool;
  sc_reaped : bool;
  sc_capture : multi;
}.
Definition set_capture (p : multi) (s : scene) : scene :=
  MkScene (sc_spawned s) (sc_released s) (sc_killed s) (sc_reaped s) p.
Definition spawned (s : scene) : scene :=
  MkScene true (sc_released s) (sc_killed s) (sc_reaped s) (sc_capture s).
(** [process.communicate(b"x")]: the target is let go, and waited for if this returns. *)
Definition let_go (waited : bool) (s : scene) : scene :=
  MkScene (sc_spawned s) true (sc_killed s) (sc_reaped s || waited) (sc_capture s).
(** [process.kill(); process.communicate()] *)
Definition kill_and_reap (s : scene) : scene :=
  MkScene (sc_spawned s) (sc_released s) true true (sc_capture s).

Record CapturedExecution := MkCaptured {
  cx_batches : list HardwareMultimodalBatch;
  cx_output : list Z;
  cx_elapsed_ns : Z;
  cx_counts : counts;
  cx_target_affinity : list Z;
}.

Definition READY : list Z := [82; 69; 65; 68; 89; 10].

Section execution.
Context (m : machine) (target_cpu data_pages aux_pages : Z).
Notation M := (sx scene capture_exn).

Definition capture_config (pid : Z) : HardwareMultimodalConfig :=
  MkHardwareMultimodalConfig "process_kernel" pid _MODALITIES 10000 data_pages aux_pages.

Definition on_capture {A} (x : sx multi exn A) : M A := szoom sc_capture set_capture (serr Plain x).

(** The body of [with PerfMultimodalCapture(config) as capture]. *)
Definition captured_run (c : HardwareMultimodalConfig) (p : child) :
    M (list Z * Z * list Z * list Z * list HardwareMultimodalBatch) :=
  do! affinity := slift (plain (ch_affinity p)) in
  run! slift (refuse (negb (bool_decide (affinity = [target_cpu]))) "target_affinity_mismatch"
    "target affinity is not exactly the target CPU" (Ok tt)) in
  run! smodify (let_go (is_ok (ch_communicate p))) in
  do! streams := slift (plain (ch_communicate p)) in
  do! batches := on_capture (mstop m c) in
  sret (affinity, ch_elapsed p, streams.1, streams.2, batches).

(** [with]: the constructor, [__enter__], and [close] however the body ends. *)
Definition close_capture (s : scene) : scene := (on_capture (mclose m) s).1.
Definition with_capture {A} (c : HardwareMultimodalConfig) (body : M A) : M A :=
  do! p0 := slift (plain (new_multi m new_host)) in
  run! smodify (set_capture p0) in
  run! on_capture (menter m c) in
  sfinally body close_capture.

Definition capture_execution (p : child) : M CapturedExecution :=
  run! slift (plain (ch_popen p)) in
  run! smodify spawned in
  if negb (bool_decide (ch_line p = READY)) then
    run! smodify kill_and_reap in
    sraise (Plain (Exn RuntimeError "target did not reach READY"))
  else
  let c := capture_config (ch_pid p) in
  run! slift (plain (check_multimodal_config c)) in
  do! (affinity, elapsed, output, error, batches) :=
    scatch (with_capture c (captured_run c p))
           (fun e => run! smodify kill_and_reap in sraise e) in
  if negb (ch_returncode p =? 0) || match error with [] => false | _ => true end then
    sraise (Plain (Exn RuntimeError "target failed"))
  else
  do! total := slift (_validate_capture batches (ch_pid p) target_cpu) in
  sret (MkCaptured batches output elapsed total affinity).
End execution.
