(* ===== verification/ExperimentAdmission.v ===== *)
(** * What the corpus admits ([examples/hardware_multimodal_experiment.py])

    The gated target never outlives its capture and nothing of the capture
    stays open; and of the admission checks only those on the samples and on
    the amount of trace can refuse what a successful [stop] returned. *)

From stdpp Require Import sorting.
From S2P Require Import Prelude Monad Batch HardwareDecode HardwareConfig HardwareHost HardwareCapture HardwareMultimodal Floats ModelBatch Features FeatureCells FeatureCapture ExperimentCapture.

(** ** Admission of complete captures *)

Section admission.
Context (m : machine) (c : HardwareMultimodalConfig).
Context (Hall : mc_modalities c = _MODALITIES).

Lemma requests_all name : name ∈ _MODALITIES -> requests c name = true.
Proof.
  intros Hn. unfold requests. rewrite Hall.
  repeat (apply elem_of_cons in Hn as [->|Hn]; [done|]). by apply elem_of_nil in Hn.
Qed.

(** Everything about the sources of a reported batch is in order. *)
Lemma validate_reported cpu_number ct s b : reports m c s b ->
  validate_batch cpu_number ct b = add_pebs (mb_pebs b) cpu_number (add_pt (mb_pt b) ct).
Proof.
  intros (_ & _ & _ & [Hsig Hav] & Hst & Hpt & Hpe & Hco).
  destruct (mb_status b) as [|s1 [|s2 [|s3 [|]]]] eqn:Hs; try done. injection Hsig as H1 H2 H3.
  rewrite !Forall_cons in Hav, Hst.
  destruct Hav as ([A1 L1] & [A2 L2] & [A3 L3] & _).
  destruct Hst as ((R1 & P1 & T1) & (R2 & P2 & T2) & (R3 & P3 & T3) & _).
  rewrite H1, requests_all in R1 by set_solver. rewrite H2, requests_all in R2 by set_solver.
  rewrite H3, requests_all in R3 by set_solver. rewrite R1 in A1. rewrite R2 in A2. rewrite R3 in A3.
  destruct s1 as [g1 r1 a1 l1 e1 u1], s2 as [g2 r2 a2 l2 e2 u2], s3 as [g3 r3 a3 l3 e3 u3]. simpl in *.
  subst. unfold has_payload, status_times in *. simpl in *.
  destruct (mb_pebs b) as [hb|] eqn:Hpebs; [|done]. destruct (mb_counters b) as [cb|] eqn:Hcb; [|done].
  destruct T2 as (t & Ht & -> & ->), T3 as [-> ->], Hco as (Hpos & Hrun & _).
  unfold validate_batch. rewrite Hs. unfold refuse at 1.
  change (contract_broken b) with (let d := status_by_signal (mb_status b) in
    negb (forallb (fun p => one_of p.1 _MODALITIES) d && forallb (fun name => is_some (od_get name d)) _MODALITIES) ||
    existsb (fun name => match od_get name d with Some st => negb (st_requested st) | None => true end) _MODALITIES).
  rewrite Hs. simpl.
  unfold check_times, multiplexed. simpl. rewrite (proj2 (Z.leb_gt t 0)), bool_decide_eq_true_2 by done. simpl.
  rewrite Hrun, (proj2 (Z.leb_gt (cb_time_enabled_ns cb) 0)), bool_decide_eq_true_2 by done. simpl.
  rewrite Hcb, Hrun, Z.eqb_refl, !Z.add_0_r. destruct ct as [x1 x2 x3 x4 x5 x6 x7]. simpl.
  rewrite Hpebs. unfold add_pebs, refuse. by destruct (bad_samples _ _).
Qed.

(** What the samples and the trace of the batches amount to. *)
Definition of_pt (f : HardwareBatch -> Z) (b : HardwareMultimodalBatch) : Z := from_option f 0 (mb_pt b).
Definition of_pebs (f : HardwareBatch -> Z) (b : HardwareMultimodalBatch) : Z := from_option f 0 (mb_pebs b).
Definition totals (bs : list HardwareMultimodalBatch) : counts :=
  MkCounts (zsum (of_pt (fun hb => Z.of_nat (numel (hb_trace_bytes hb)))) bs)
    (zsum (of_pebs (fun hb => Z.of_nat (numel (hb_ip hb)))) bs)
    (zsum (of_pebs (fun hb => foldr Z.add 0 (t_data (hb_exact_ip hb)))) bs)
    (zsum (of_pebs (fun hb => tally nonzero (t_data (hb_address hb)))) bs) 0 0 0.
Definition bad_batch (cpu_number : Z) (b : HardwareMultimodalBatch) : bool :=
  match mb_pebs b with Some hb => bad_samples hb cpu_number | None => false end.

Definition add_counts (x y : counts) : counts :=
  MkCounts (ct_pt_bytes x + ct_pt_bytes y) (ct_pebs_samples x + ct_pebs_samples y)
    (ct_pebs_exact_ip x + ct_pebs_exact_ip y) (ct_pebs_nonzero_address x + ct_pebs_nonzero_address y)
    (ct_lost_sources x + ct_lost_sources y) (ct_missing_sources x + ct_missing_sources y)
    (ct_multiplexed_sources x + ct_multiplexed_sources y).

Lemma add_one cpu_number ct b : add_pebs (mb_pebs b) cpu_number (add_pt (mb_pt b) ct) =
  refuse (bad_batch cpu_number b) "pebs_sample_quality"
    "PEBS samples must be exact-IP, nonzero-address, and target-CPU attributed"
    (Ok (add_counts ct (totals [b]))).
Proof.
  unfold add_pebs, add_pt, bad_batch, totals, add_counts, of_pt, of_pebs, zsum.
  simpl. destruct ct, (mb_pt b), (mb_pebs b); simpl; unfold refuse; try destruct (bad_samples _ _);
    try done; do 2 f_equal; lia.
Qed.

Lemma add_counts_cons ct b bs :
  add_counts (add_counts ct (totals [b])) (totals bs) = add_counts ct (totals (b :: bs)).
Proof. destruct ct. unfold add_counts, totals, zsum. simpl. f_equal; lia. Qed.

Lemma validate_all cpu_number ct ss bs : Forall2 (reports m c) ss bs ->
  validate_batches cpu_number ct bs =
    refuse (existsb (bad_batch cpu_number) bs) "pebs_sample_quality"
      "PEBS samples must be exact-IP, nonzero-address, and target-CPU attributed"
      (Ok (add_counts ct (totals bs))).
Proof.
  intros Hr. revert ct. induction Hr as [|s b ss bs Hb _ IH]; intros ct; simpl.
  { unfold refuse. f_equal. destruct ct. unfold add_counts, totals. simpl. f_equal; lia. }
  rewrite (validate_reported _ _ s) by done. rewrite add_one. unfold refuse at 1.
  destruct (bad_batch cpu_number b) eqn:Hbad; simpl; [done|]. rewrite IH. by rewrite add_counts_cons.
Qed.
End admission.

(** C19: admission looks at the evidence, not at the plumbing. For a capture of all three
    sources of a process with the target among its threads, what a [stop] that returns gives
    is admitted with exact totals and no lost, missing or multiplexed source, or refused for
    exactly one of two reasons: a thread has a sample that is not exact, has no address or was
    taken on another CPU, or no thread produced any trace. *)
Theorem complete_capture_admitted (m : machine) (c : HardwareMultimodalConfig) (ops : list cap_op)
  (p0 p' : multi) (bs : list HardwareMultimodalBatch) (target_pid target_cpu : Z)
  (Hall : mc_modalities c = _MODALITIES) (Hnew : new_multi m new_host = Ok p0)
  (Hmem : forall i, Forall is_byte (m_memory m i)) (Hread : forall n, Forall is_byte (m_read m n))
  (Hpid : target_pid ∈ m_tasks m) (Hstop : mstop m c (exec_multis m c ops p0) = (p', Ok bs)) :
  match _validate_capture bs target_pid target_cpu with
  | Ok ct => ct = totals bs /\ 0 < ct_pt_bytes ct /\ existsb (bad_batch target_cpu) bs = false
  | Raise e =>
      (_rejection_reason e = "pebs_sample_quality" /\ existsb (bad_batch target_cpu) bs = true) \/
      (_rejection_reason e = "empty_pt" /\ ct_pt_bytes (totals bs) = 0)
  end.
Proof.
  destruct (mstop_reports m c _ _ _ (proj1 (exec_multis_ok m c ops p0 (new_multi_ok m c p0 Hnew)))
    Hmem Hread Hstop) as (Ht & Hr & _).
  assert (Htid : target_pid ∈ mb_tid <$> bs) by (by rewrite Ht, merge_sort_Permutation).
  unfold _validate_capture.
  assert (Hid : existsb (fun b => negb (mb_tid b =? mb_source b)) bs = false).
  { clear -Hr. induction Hr as [|s b ss bs (H1 & H2 & _) _ IH]; [done|]. simpl.
    rewrite H1, H2, Z.eqb_refl. exact IH. }
  rewrite Hid, orb_false_r. destruct bs as [|b bs]; [by apply elem_of_nil in Htid|]. unfold refuse at 1.
  assert (Hex : existsb (Z.eqb target_pid) (mb_tid <$> b :: bs) = true).
  { apply existsb_exists. exists target_pid. split; [by apply list_elem_of_In|apply Z.eqb_refl]. }
  rewrite Hex. cbn [negb]. unfold refuse at 1. rewrite (validate_all m c Hall _ _ _ _ Hr).
  unfold refuse. destruct (existsb (bad_batch target_cpu) (b :: bs)) eqn:Hbad; [by left|]. cbn [rbind].
  assert (Hz : add_counts no_counts (totals (b :: bs)) = totals (b :: bs)) by done. rewrite Hz.
  destruct (ct_pt_bytes (totals (b :: bs)) =? 0) eqn:He.
  - right. split; [done|]. by apply Z.eqb_eq.
  - apply Z.eqb_neq in He. split_and!; [done| |done].
    assert (0 <= ct_pt_bytes (totals (b :: bs))); [|lia].
    apply zsum_nonneg. intros x. unfold of_pt. destruct (mb_pt x); simpl; lia.
Qed.

(** ** The target and its capture *)

(** A computation whose run is known. *)
Lemma wp_known {S E A} (x : sx S E A) (Q : A -> S -> Prop) (R : E -> S -> Prop) s s' r : x s = (s', r) ->
  match r with Ok a => Q a s' | Raise e => R e s' end -> wp x Q R s.
Proof. intros Hx. unfold wp. rewrite Hx. by destruct r. Qed.

Section execution.
Context (m : machine) (target_cpu data_pages aux_pages : Z).
Notation cfg p := (capture_config data_pages aux_pages (ch_pid p)).

Definition new_scene : scene := MkScene false false false false (MkMulti [] false false 0 0 new_host).

(** The flags of the target are those of [s0]; [ok] holds of the capture. *)
Definition around (ok : multi -> Prop) (s0 s : scene) : Prop :=
  ok (sc_capture s) /\ sc_spawned s = sc_spawned s0 /\ sc_killed s = sc_killed s0.

Lemma on_capture_wp {A} (x : sx multi exn A) (Q : A -> multi -> Prop) (R : exn -> multi -> Prop) s :
  wp x Q R (sc_capture s) ->
  wp (on_capture x) (fun a s' => Q a (sc_capture s') /\ s' = set_capture (sc_capture s') s)
    (fun e s' => exists e', e = Plain e' /\ R e' (sc_capture s') /\ s' = set_capture (sc_capture s') s) s.
Proof.
  intros Hw. apply wp_zoom, wp_err. eapply wp_mono; [exact Hw|..]; simpl; eauto.
Qed.

Lemma close_capture_released c s0 s : around (multi_ok m c) s0 s ->
  around mreleased s0 (close_capture m s) /\ sc_reaped (close_capture m s) = sc_reaped s /\
  sc_released (close_capture m s) = sc_released s.
Proof.
  intros (Hok & H1 & H2). unfold close_capture, on_capture, szoom, serr.
  pose proof (mclose_wp m (sc_capture s) (fun _ _ => False) (proj1 Hok)) as Hw. unfold wp in Hw.
  destruct (mclose m (sc_capture s)) as [p' [[]|e]]; [|done]. by destruct Hw as (Hr & _).
Qed.

(** A run that was seen through: exact affinity, both streams, and a stopped capture. *)
Definition seen_through (p : child) (r : list Z * Z * list Z * list Z * list HardwareMultimodalBatch) : Prop :=
  let '(affinity, elapsed, output, error, batches) := r in
  affinity = [target_cpu] /\ ch_communicate p = Ok (output, error) /\
  exists p0 q, new_multi m new_host = Ok p0 /\ is_ok (menter m (cfg p) p0).2 = true /\
    mstop m (cfg p) (exec_multis m (cfg p) [OpEnter] p0) = (q, Ok batches).

Lemma captured_run_wp p p0 s : new_multi m new_host = Ok p0 -> is_ok (menter m (cfg p) p0).2 = true ->
  sc_capture s = exec_multis m (cfg p) [OpEnter] p0 -> multi_ok m (cfg p) (sc_capture s) ->
  wp (captured_run m target_cpu (cfg p) p)
    (fun r s' => around (multi_ok m (cfg p)) s s' /\ sc_reaped s' = true /\ sc_released s' = true /\ seen_through p r)
    (fun _ s' => around (multi_ok m (cfg p)) s s') s.
Proof.
  intros Hnew Hen Hcap Hok. unfold captured_run. wp_step. wp_step; [|done]. wp_step. wp_step; [|done].
  unfold refuse in Ha0. destruct (negb _) eqn:Haff; [done|]. bool_prop. wp_step. wp_step. wp_step. wp_step; [|done].
  destruct (ch_communicate p) as [[output error]|] eqn:Hcm; [|done]. injection Ha1 as <-. wp_step.
  set (s1 := let_go _ s).
  pose proof (mstop_wp m (cfg p) (sc_capture s1) Hok) as Hw.
  destruct (mstop m (cfg p) (sc_capture s1)) as [q r] eqn:Hstop.
  unfold wp in Hw. rewrite Hstop in Hw. unfold on_capture. apply wp_zoom, wp_err.
  apply (wp_known _ _ _ _ _ _ Hstop).
  destruct r as [batches|e]; [|by destruct Hw]. destruct Hw as (Hok' & _). wp_step.
  split_and!; [by split_and!|simpl; apply orb_true_r|done|]. simpl. split_and!; [done|done|].
  exists p0, q. split_and!; [done|done|]. change (mstop m (cfg p) (exec_multis m (cfg p) [OpEnter] p0) = (q, Ok batches)). by rewrite <- Hcap.
Qed.

Lemma with_capture_wp p s : mreleased (sc_capture s) ->
  wp (with_capture m (cfg p) (captured_run m target_cpu (cfg p) p))
    (fun r s' => around mreleased s s' /\ sc_reaped s' = true /\ sc_released s' = true /\ seen_through p r)
    (fun _ s' => around mreleased s s') s.
Proof.
  intros Hrel. unfold with_capture. wp_step. wp_step; [|done].
  destruct (new_multi m new_host) as [p0|] eqn:Hnew; [|done]. injection Ha as <-. wp_step. wp_step. wp_step.
  pose proof (new_multi_ok m (cfg p) p0 Hnew) as Hok. pose proof (menter_wp m (cfg p) p0 Hok) as Hw.
  unfold on_capture. apply wp_zoom, wp_err. simpl. unfold wp in Hw.
  destruct (menter m (cfg p) p0) as [p1 r] eqn:Hen. apply (wp_known _ _ _ _ _ _ Hen).
  destruct r as [[]|e].
  - apply wp_finally. destruct Hw as [Hok1 _].
    eapply wp_mono; [apply (captured_run_wp p p0); [done|by rewrite Hen| |done]|..].
    { simpl. by rewrite Hen. }
    + intros r s' (Har & Hr & Hrl & Hs). destruct (close_capture_released _ _ _ Har) as (H1 & H2 & H3).
      rewrite H2, H3. done.
    + intros e s' Har. by destruct (close_capture_released _ _ _ Har).
  - unfold new_multi in Hnew. destruct (negb _); [done|]. injection Hnew as <-.
    destruct Hw as (_ & Hw & _). split_and!; [by apply Hw|done|done].
Qed.
End execution.


(** ** A concrete execution *)

(** One thread with one exact load sample on CPU 3 and eight bytes of trace. *)
Definition admitted_loads : list Z :=
  encode_entries "memory_loads" [ESample (MkSample 0x4000 0x401000 7 7 100 0x8000 3 0 50 3 4)].
Definition trace_records : list Z := encode_entries "intel_pt" [EAux 0 0 8 0 []].
Definition ring_memory (records : list Z) (aux_head aux_offset aux_size : Z) : list Z :=
  replicate 1024 0 ++
  pack_fields [8; 8; 8; 8; 8; 8; 8; 8]%nat
    [Z.of_nat (length records); 0; 4096; 4096; aux_head; 0; aux_offset; aux_size] ++
  replicate (4096 - 1088) 0 ++ records ++ replicate (4096 - length records) 0.
Definition traced_sysfs (path : string) : result string :=
  match od_get path [("/sys/bus/event_source/devices/intel_pt/type", "10 ");
                     ("/sys/bus/event_source/devices/intel_pt/format/pt", "config:0");
                     ("/sys/bus/event_source/devices/intel_pt/format/branch", "config:13")] with
  | Some text => Ok text
  | None => example_sysfs path
  end.
Definition traced_machine : machine :=
  MkMachine true "x86_64" 4096 (fun _ => None) [7] traced_sysfs
    (fun n => if (n <? 21)%nat then encode_group [(6, 10); (7, 20); (8, 30)] 5 5
              else if (n =? 22)%nat then encode_group [(8, 33); (7, 22); (6, 11)] 9 9
              else pack_fields [8; 8; 8]%nat [1; 9; 9])
    (fun fd => fd + 1)
    (fun i => match i with
              | O => ring_memory trace_records 8 8192 4096
              | 1%nat => (Z.of_nat <$> seq 1 8) ++ replicate 4088 0
              | _ => ring_memory admitted_loads 0 0 0
              end) (fun n => 5 * Z.of_nat n).
Definition gated_target (affinity : list Z) : child :=
  MkChild (Ok tt) 7 READY (Ok affinity) (Ok ([111; 107], [])) 0 42.

Lemma traced_memory_bytes i : Forall is_byte (m_memory traced_machine i).
Proof. destruct i as [|[|i]]; apply bytes_by_evaluation; vm_compute; reflexivity. Qed.
Lemma traced_reads n : Forall is_byte (m_read traced_machine n).
Proof. simpl. repeat case_match; apply bytes_by_evaluation; vm_compute; reflexivity. Qed.

Notation traced_config := (capture_config 1 1 7).
Notation traced_start := (MkMulti [] false false 0 0 new_host).

Lemma complete_capture_admitted_witness :
  exists q bs, mstop traced_machine traced_config
      (exec_multis traced_machine traced_config [OpEnter] traced_start) = (q, Ok bs) /\
    exists ct, _validate_capture bs 7 3 = Ok ct /\ ct = totals bs /\ ct_pt_bytes ct = 8.
Proof.
  destruct (mstop traced_machine traced_config
    (exec_multis traced_machine traced_config [OpEnter] traced_start)) as [q r] eqn:Hs.
  assert (Hr : exists bs, r = Ok bs /\ exists ct, _validate_capture bs 7 3 = Ok ct /\ ct_pt_bytes ct = 8).
  { apply (f_equal snd) in Hs. change r with (snd (q, r)). rewrite <- Hs.
    eexists. split; [vm_compute; reflexivity|eexists; split; vm_compute; reflexivity]. }
  destruct Hr as (bs & Hr & ct & Hct & Hpt). rewrite Hr in Hs. exists q, bs.
  split; [rewrite Hr; reflexivity|]. exists ct. split; [exact Hct|split; [|exact Hpt]].
  pose proof (complete_capture_admitted traced_machine traced_config [OpEnter] traced_start q bs 7 3
    eq_refl eq_refl traced_memory_bytes traced_reads ltac:(left) Hs) as H.
  rewrite Hct in H. apply H.
Defined.


(** The configuration is built after the target is started and outside the [try] that kills
    it: page counts it rejects leave a started target that is never waited for. *)
Lemma rejected_pages_leak_the_target :
  let '(s, r) := capture_execution traced_machine 3 3 1 (gated_target [3]) new_scene in
  sc_spawned s = true /\ sc_killed s = false /\ sc_reaped s = false /\ is_ok r = false.
Proof. vm_compute. done. Qed.
