(* ===== verification/ExperimentPlan.v ===== *)
(** * Planning a corpus ([examples/hardware_multimodal_experiment.py]: [make_plan])

    Which executions are captured, in which order, and in which partition of
    the corpus each one falls. Python's random generator is an interface: a
    shuffle is a permutation and a sample is a part of what it is drawn from. *)

From stdpp Require Import sorting.
From Stdlib Require Import Ascii.
From S2P Require Import Prelude HardwareConfig.

(** ** The random generator *)

(** [random.Random(seed)], [sample] and [shuffle]. *)
Class RandomOps (G : Type) := {
  Random : Z -> G;
  sample : list string -> nat -> G -> list string * G;
  shuffle {A} : list A -> G -> list A * G;
}.
Class RandomLaws (G : Type) `{RandomOps G} := {
  shuffle_perm {A} (l : list A) g : (shuffle l g).1 ≡ₚ l;
  sample_part l n g : (n <= length l)%nat ->
    length (sample l n g).1 = n /\ exists rest, l ≡ₚ (sample l n g).1 ++ rest;
}.

(** ** The plan *)

Definition WORKLOAD_LOOPS : list (string * Z) :=
  [("getpid", 5000); ("fstat", 5000); ("futex", 5000); ("openat", 5000); ("pipe", 5000);
   ("mmap", 5000); ("eventfd", 5000); ("epoll", 5000); ("socketpair", 5000); ("getrandom", 5000);
   ("memfd", 5000); ("ioctl", 5000); ("dup", 5000); ("yield", 5000); ("uname", 5000);
   ("readlink", 5000); ("fork", 100)].

Record PlannedExecution := MkPlanned {
  pe_execution_id : string;
  pe_family : string;
  pe_repetition : nat;
  pe_partition : string;
}.

(** [f"{n:05d}"] *)
Fixpoint zeros (n : nat) : string := match n with O => EmptyString | S n => String "0"%char (zeros n) end.
Definition zero_padded (n : nat) : string :=
  let s := pretty (N.of_nat n) in zeros (5 - String.length s) +:+ s.
Definition execution_id (family : string) (repetition : nat) : string :=
  family +:+ "-" +:+ zero_padded repetition.

Definition partition_of (heldout : list string) (training_rows calibration_rows : Z)
    (family : string) (ordinal : nat) : string :=
  if one_of family heldout then "heldout_family"
  else if Z.of_nat ordinal <? training_rows then "training"
  else if Z.of_nat ordinal <? training_rows + calibration_rows then "calibration"
  else "familiar_validation".

(** Python's order on (ASCII) strings. *)
Definition string_le (a b : string) : Prop := String.leb a b = true.
#[global] Instance string_le_dec a b : Decision (string_le a b).
Proof. unfold string_le. apply _. Defined.

Section plan.
Context {G : Type} `{RandomOps G}.

(** One family: its shuffled repetitions, in that order. *)
Definition plan_family (heldout : list string) (training_rows calibration_rows : Z) (repetitions : nat)
    (family : string) (g : G) : list PlannedExecution * G :=
  let '(order, g) := shuffle (seq 0 repetitions) g in
  (imap (fun ordinal repetition => MkPlanned (execution_id family repetition) family repetition
           (partition_of heldout training_rows calibration_rows family ordinal)) order, g).

Fixpoint plan_families (heldout : list string) (training_rows calibration_rows : Z) (repetitions : nat)
    (families : list string) (g : G) : list PlannedExecution * G :=
  match families with
  | [] => ([], g)
  | family :: families =>
      let '(first, g) := plan_family heldout training_rows calibration_rows repetitions family g in
      let '(rest, g) := plan_families heldout training_rows calibration_rows repetitions families g in
      (first ++ rest, g)
  end.

Definition make_plan (families : list string) (repetitions training_rows calibration_rows
    heldout_family_count seed : Z) : result (list PlannedExecution * list string) :=
  raise! ValueError "families must be nonempty and distinct"
    when match families with [] => true | _ => false end || has_duplicates families in
  raise! ValueError "only gated hardware_kernel_workload families are allowed"
    when existsb (fun family => negb (is_some (od_get family WORKLOAD_LOOPS))) families in
  raise! ValueError "repetitions must leave familiar validation executions"
    when repetitions <=? training_rows + calibration_rows in
  raise! ValueError "training and calibration row counts must be positive"
    when (training_rows <=? 0) || (calibration_rows <=? 0) in
  raise! ValueError "heldout family count must leave familiar families"
    when negb ((0 <? heldout_family_count) && (heldout_family_count <? Z.of_nat (length families))) in
  let '(drawn, g) := sample families (Z.to_nat heldout_family_count) (Random seed) in
  let heldout := merge_sort string_le drawn in
  let '(plan, g) := plan_families heldout training_rows calibration_rows (Z.to_nat repetitions) families g in
  let '(plan, g) := shuffle plan g in
  Ok (plan, heldout).
End plan.

(** ** Execution identifiers name one execution *)

(** The number that decimal digits denote. *)
Fixpoint digits_value (acc : N) (s : string) : N :=
  match s with
  | EmptyString => acc
  | String a s => digits_value (acc * 10 + (N_of_ascii a - 48)) s
  end.

Lemma digits_zeros n s : digits_value 0 (zeros n +:+ s) = digits_value 0 s.
Proof. induction n as [|n IH]; [done|]. exact IH. Qed.

Lemma digit_char n : (n < 10)%N -> (N_of_ascii (pretty_N_char n) - 48 = n)%N.
Proof.
  intros Hn. assert (n ∈ (N.of_nat <$> seq 0 10)) as Hin.
  { apply list_elem_of_fmap. exists (N.to_nat n). rewrite N2Nat.id. split; [done|]. apply elem_of_seq. lia. }
  repeat (apply elem_of_cons in Hin as [->|Hin]; [done|]). by apply elem_of_nil in Hin.
Qed.

Lemma digits_pretty_go n s : digits_value 0 (pretty_N_go n s) = digits_value n s.
Proof.
  revert s. induction (N.lt_wf_0 n) as [n _ IH]. intros s.
  destruct (decide (n = 0)%N) as [->|Hn]; [by rewrite pretty_N_go_0|].
  rewrite pretty_N_go_step by lia. rewrite IH by (apply N.div_lt; lia). simpl.
  rewrite digit_char by (apply N.mod_lt; lia). f_equal. rewrite N.mul_comm. symmetry. apply N.div_mod. lia.
Qed.

Lemma digits_padded n : digits_value 0 (zero_padded n) = N.of_nat n.
Proof.
  unfold zero_padded. rewrite digits_zeros. unfold pretty, pretty_N. destruct (decide _) as [Hz|Hz].
  - by rewrite Hz.
  - by rewrite digits_pretty_go.
Qed.

Fixpoint dashless (s : string) : bool :=
  match s with
  | EmptyString => true
  | String a s => negb (bool_decide (a = "-"%char)) && dashless s
  end.

Lemma split_at_dash s t x y : dashless s = true -> dashless t = true ->
  s +:+ "-" +:+ x = t +:+ "-" +:+ y -> s = t /\ x = y.
Proof.
  revert t. induction s as [|a s IH]; intros [|b t] Hs Ht He; cbn in Hs, Ht, He.
  - by injection He.
  - injection He as <- _. done.
  - injection He as -> _. done.
  - injection He as -> He. bool_prop. destruct (IH t) as [-> ->]; done.
Qed.

Definition workload (family : string) : Prop := is_some (od_get family WORKLOAD_LOOPS) = true.

Lemma workload_dashless family : workload family -> dashless family = true.
Proof.
  unfold workload, WORKLOAD_LOOPS. cbn [od_get]. intros Hf. repeat (case_decide; [by subst|]). done.
Qed.

Lemma execution_id_inj f f' n n' : workload f -> workload f' -> execution_id f n = execution_id f' n' ->
  f = f' /\ n = n'.
Proof.
  intros Hf Hf' He. apply split_at_dash in He as [-> He]; [|by apply workload_dashless..]. split; [done|].
  apply (f_equal (digits_value 0)) in He. rewrite !digits_padded in He. lia.
Qed.

(** ** What a plan holds *)

Section laws.
Context {G : Type} `{RandomLaws G}.
Context (heldout : list string) (training_rows calibration_rows : Z) (repetitions : nat).
Notation part := (partition_of heldout training_rows calibration_rows).

(** The executions of one family: every repetition once, in some order, the partition
    decided by the place in that order. *)
Definition of_family (family : string) (es : list PlannedExecution) : Prop :=
  exists order, order ≡ₚ seq 0 repetitions /\
    es = imap (fun i n => MkPlanned (execution_id family n) family n (part family i)) order.

Lemma plan_families_spec families g :
  exists groups, (plan_families heldout training_rows calibration_rows repetitions families g).1 = concat groups /\
    Forall2 of_family families groups.
Proof.
  revert g. induction families as [|family families IH]; intros g; [by exists []|]. cbn [plan_families].
  unfold plan_family. pose proof (shuffle_perm (seq 0 repetitions) g) as Hp.
  destruct (shuffle (seq 0 repetitions) g) as [order g1]. simpl in Hp.
  destruct (IH g1) as (groups & Hg & Hf).
  destruct (plan_families _ _ _ _ families g1) as [rest g2]. simpl in *. subst rest.
  exists (imap (fun i n => MkPlanned (execution_id family n) family n (part family i)) order :: groups).
  split; [done|]. constructor; [by exists order|done].
Qed.

Lemma family_pairs family es : of_family family es ->
  (fun e => (pe_family e, pe_repetition e)) <$> es ≡ₚ (fun n => (family, n)) <$> seq 0 repetitions.
Proof.
  intros (order & Hp & ->). rewrite <- Hp. apply reflexive_eq. apply list_eq. intros i.
  rewrite !list_lookup_fmap, list_lookup_imap. by destruct (order !! i).
Qed.

Lemma families_pairs families groups : Forall2 of_family families groups ->
  (fun e => (pe_family e, pe_repetition e)) <$> concat groups ≡ₚ
  families ≫= fun family => (fun n => (family, n)) <$> seq 0 repetitions.
Proof.
  induction 1 as [|family es families groups Hf _ IH]; [done|]. simpl. rewrite fmap_app, IH.
  by rewrite (family_pairs family es).
Qed.

Lemma family_partitions family es : of_family family es ->
  pe_partition <$> es = part family <$> seq 0 repetitions.
Proof.
  intros (order & Hp & ->). apply list_eq. intros i. rewrite !list_lookup_fmap, list_lookup_imap.
  assert (Hl : length order = repetitions) by (by rewrite Hp, length_seq).
  destruct (order !! i) as [n|] eqn:Hi.
  - rewrite lookup_seq_lt by (rewrite <- Hl; by eapply lookup_lt_Some). done.
  - rewrite lookup_seq_ge; [done|]. rewrite <- Hl. by apply lookup_ge_None.
Qed.

Lemma family_members family es e : of_family family es -> e ∈ es ->
  pe_family e = family /\ pe_execution_id e = execution_id (pe_family e) (pe_repetition e).
Proof. intros (order & _ & ->) He. apply elem_of_lookup_imap in He as (i & n & -> & _). done. Qed.

Lemma filter_own family es : of_family family es -> filter (fun e => pe_family e = family) es = es.
Proof.
  intros Hf. assert (Hall : Forall (fun e => pe_family e = family) es)
    by (apply Forall_forall; intros e He; by apply (family_members family es)).
  clear Hf. induction Hall as [|e es He _ IH]; [done|]. by rewrite filter_cons_True, IH.
Qed.

Lemma filter_other family f es : of_family f es -> f <> family ->
  filter (fun e => pe_family e = family) es = [].
Proof.
  intros Hf Hne. assert (Hall : Forall (fun e => pe_family e = f) es)
    by (apply Forall_forall; intros e He; by apply (family_members f es)).
  clear Hf. induction Hall as [|e es He _ IH]; [done|]. rewrite filter_cons_False; [done|congruence].
Qed.

Lemma filter_others family families groups : Forall2 of_family families groups -> family ∉ families ->
  filter (fun e => pe_family e = family) (concat groups) = [].
Proof.
  induction 1 as [|f es families groups Hf _ IH]; intros Hin; [done|]. simpl.
  rewrite filter_app, (filter_other family f), IH; [done|set_solver|done|set_solver].
Qed.

Lemma filter_family family families groups : Forall2 of_family families groups -> NoDup families ->
  family ∈ families ->
  exists es, of_family family es /\ filter (fun e => pe_family e = family) (concat groups) = es.
Proof.
  induction 1 as [|f es families groups Hf Hfs IH]; intros Hnd Hin; [by apply elem_of_nil in Hin|].
  apply NoDup_cons in Hnd as [Hnf Hnd]. simpl. rewrite filter_app.
  destruct (decide (f = family)) as [->|Hne].
  - exists es. split; [done|]. by rewrite filter_own, (filter_others family families), app_nil_r.
  - rewrite (filter_other family f), app_nil_l by done. apply IH; [done|]. set_solver.
Qed.

Lemma families_ids families groups : Forall2 of_family families groups ->
  Forall (fun e => pe_execution_id e = execution_id (pe_family e) (pe_repetition e)) (concat groups).
Proof.
  induction 1 as [|f es families groups Hf _ IH]; [constructor|]. simpl. apply Forall_app. split; [|done].
  apply Forall_forall. intros e He. by apply (family_members f es).
Qed.
End laws.

Lemma pairs_NoDup (families : list string) (repetitions : nat) : NoDup families ->
  NoDup (families ≫= fun family => (fun n => (family, n)) <$> seq 0 repetitions).
Proof.
  induction 1 as [|f families Hf Hnd IH]; simpl; [constructor|]. apply NoDup_app. split_and!; [|intros [f' n] Hin Hin'|done].
  - apply NoDup_fmap_2; [by intros x y [=]|apply NoDup_seq].
  - apply list_elem_of_fmap in Hin as (k & [= -> ->] & _).
    apply list_elem_of_bind in Hin' as (f'' & Hin' & Hf''). apply list_elem_of_fmap in Hin' as (k' & [= -> ->] & _).
    done.
Qed.

Lemma plan_ids heldout training_rows calibration_rows repetitions families groups plan :
  Forall2 (of_family heldout training_rows calibration_rows repetitions) families groups ->
  plan ≡ₚ concat groups -> NoDup families -> Forall workload families ->
  (fun e => (pe_family e, pe_repetition e)) <$> plan ≡ₚ
    families ≫= (fun family => (fun n => (family, n)) <$> seq 0 repetitions) ->
  NoDup (pe_execution_id <$> plan).
Proof.
  intros Hf Hp Hnd Hw Hpairs.
  assert (Hids : pe_execution_id <$> plan =
    (fun q => execution_id q.1 q.2) <$> ((fun e => (pe_family e, pe_repetition e)) <$> plan)).
  { rewrite <- list_fmap_compose. apply list_fmap_ext. intros i e Hi. simpl.
    pose proof (families_ids _ _ _ _ _ _ Hf) as Hall. rewrite <- Hp in Hall.
    rewrite Forall_lookup in Hall. by eapply Hall. }
  rewrite Hids, Hpairs. apply NoDup_fmap_2_strong; [|by apply pairs_NoDup].
  intros [f n] [f' n'] H1 H2 He. simpl in He. rewrite Forall_forall in Hw.
  apply list_elem_of_bind in H1 as (x & H1 & Hx). apply list_elem_of_fmap in H1 as (k & [= -> ->] & _).
  apply list_elem_of_bind in H2 as (y & H2 & Hy). apply list_elem_of_fmap in H2 as (k' & [= -> ->] & _).
  apply execution_id_inj in He as [-> ->]; [done|by apply Hw..].
Qed.

(** The partitions of one family, as the arguments ask for them. *)
Definition family_rows (heldout : list string) (repetitions training_rows calibration_rows : Z)
    (family : string) : list string :=
  if one_of family heldout then replicate (Z.to_nat repetitions) "heldout_family"
  else replicate (Z.to_nat training_rows) "training" ++ replicate (Z.to_nat calibration_rows) "calibration" ++
       replicate (Z.to_nat (repetitions - training_rows - calibration_rows)) "familiar_validation".

Lemma fmap_const {A B} (f : A -> B) x l n : length l = n -> (forall a, a ∈ l -> f a = x) -> f <$> l = replicate n x.
Proof.
  intros <-. induction l as [|a l IH]; intros Hf; [done|]. simpl. rewrite (Hf a) by set_solver. f_equal.
  apply IH. set_solver.
Qed.

Lemma partition_rows heldout repetitions training_rows calibration_rows family :
  0 < training_rows -> 0 < calibration_rows -> training_rows + calibration_rows < repetitions ->
  partition_of heldout training_rows calibration_rows family <$> seq 0 (Z.to_nat repetitions) =
  family_rows heldout repetitions training_rows calibration_rows family.
Proof.
  intros Ht Hc Hr. unfold family_rows, partition_of. destruct (one_of family heldout).
  { by apply fmap_const; [rewrite length_seq|]. }
  replace (Z.to_nat repetitions) with (Z.to_nat training_rows + (Z.to_nat calibration_rows +
    Z.to_nat (repetitions - training_rows - calibration_rows)))%nat by lia.
  rewrite !seq_app, !fmap_app. repeat f_equal; apply fmap_const; try (by rewrite length_seq);
    intros i Hi%elem_of_seq; repeat case_match; bool_prop; try done; lia.
Qed.

(** The arguments that a plan can be made from. *)
Definition plannable (families : list string) (repetitions training_rows calibration_rows count : Z) : Prop :=
  families <> [] /\ NoDup families /\ Forall workload families /\
  training_rows + calibration_rows < repetitions /\ 0 < training_rows /\ 0 < calibration_rows /\
  0 < count < Z.of_nat (length families).

Definition plannable_b (families : list string) (repetitions training_rows calibration_rows count : Z) : bool :=
  negb (match families with [] => true | _ => false end || has_duplicates families) &&
  negb (existsb (fun family => negb (is_some (od_get family WORKLOAD_LOOPS))) families) &&
  negb (repetitions <=? training_rows + calibration_rows) &&
  negb ((training_rows <=? 0) || (calibration_rows <=? 0)) &&
  ((0 <? count) && (count <? Z.of_nat (length families))).

Lemma plannable_spec families repetitions training_rows calibration_rows count :
  plannable_b families repetitions training_rows calibration_rows count = true <->
  plannable families repetitions training_rows calibration_rows count.
Proof.
  unfold plannable_b, plannable.
  rewrite !andb_true_iff, !negb_true_iff, !orb_false_iff, !Z.leb_gt, !Z.ltb_lt, has_duplicates_spec.
  assert (Hw : existsb (fun family => negb (is_some (od_get family WORKLOAD_LOOPS))) families = false <->
    Forall workload families).
  { induction families as [|f families IH]; [done|]. simpl. rewrite orb_false_iff, negb_false_iff, IH, Forall_cons. done. }
  rewrite Hw. destruct families; naive_solver.
Qed.

(** The checks decide [plannable]; past them the plan is drawn. *)
Definition drawn_plan {G} `{RandomOps G} (families : list string)
    (repetitions training_rows calibration_rows heldout_family_count seed : Z) : list PlannedExecution * list string :=
  let heldout := merge_sort string_le (sample families (Z.to_nat heldout_family_count) (Random seed)).1 in
  let r := plan_families heldout training_rows calibration_rows (Z.to_nat repetitions) families
             (sample families (Z.to_nat heldout_family_count) (Random seed)).2 in
  ((shuffle r.1 r.2).1, heldout).

Lemma make_plan_cases {G} `{RandomOps G} families repetitions training_rows calibration_rows count seed :
  if plannable_b families repetitions training_rows calibration_rows count
  then make_plan families repetitions training_rows calibration_rows count seed =
    Ok (drawn_plan families repetitions training_rows calibration_rows count seed)
  else exists msg, make_plan families repetitions training_rows calibration_rows count seed = throw ValueError msg.
Proof.
  unfold plannable_b, make_plan, drawn_plan.
  destruct (_ || has_duplicates families); [simpl; eauto|].
  destruct (existsb _ families); [simpl; eauto|].
  destruct (repetitions <=? _); [simpl; eauto|].
  destruct ((training_rows <=? 0) || _); [simpl; eauto|].
  destruct ((0 <? count) && _); [simpl|simpl; eauto].
  destruct (sample families _ _) as [drawn g]. simpl. destruct (plan_families _ _ _ _ _ g) as [plan g'].
  simpl. by destruct (shuffle plan g').
Qed.

(** A plan is a partition of the executions. The planner accepts exactly the arguments
    that leave rows and families for every purpose. A plan then names every repetition of
    every family exactly once, under identifiers that are all different; the held-out families
    are as many distinct families as asked for; all executions of a held-out family, and no
    other, are held out; and every other family has exactly the requested training and
    calibration rows and the rest for validation - whatever the random generator draws. *)
Theorem plan_exact {G} `{RandomLaws G} (families : list string)
  (repetitions training_rows calibration_rows heldout_family_count seed : Z) :
  match make_plan families repetitions training_rows calibration_rows heldout_family_count seed with
  | Raise e => exn_class e = ValueError /\
      ~ plannable families repetitions training_rows calibration_rows heldout_family_count
  | Ok (plan, heldout) =>
      plannable families repetitions training_rows calibration_rows heldout_family_count /\
      NoDup (pe_execution_id <$> plan) /\
      (fun e => (pe_family e, pe_repetition e)) <$> plan ≡ₚ
        families ≫= (fun family => (fun n => (family, n)) <$> seq 0 (Z.to_nat repetitions)) /\
      Z.of_nat (length heldout) = heldout_family_count /\ NoDup heldout /\ heldout ⊆ families /\
      forall family, family ∈ families ->
        pe_partition <$> filter (fun e => pe_family e = family) plan ≡ₚ
          family_rows heldout repetitions training_rows calibration_rows family
  end.
Proof.
  pose proof (make_plan_cases families repetitions training_rows calibration_rows heldout_family_count seed) as Hc.
  pose proof (plannable_spec families repetitions training_rows calibration_rows heldout_family_count) as Hs.
  destruct (plannable_b _ _ _ _ _); [|destruct Hc as [msg ->]; split; [done|by intros Hp%Hs]].
  rewrite Hc. unfold drawn_plan. destruct (proj1 Hs eq_refl) as (Hne & Hnd & Hw & Hr & Ht & Hcal & Hk).
  destruct (sample_part families (Z.to_nat heldout_family_count) (Random seed)) as (Hlen & rest & Hpart); [lia|].
  destruct (sample families _ _) as [drawn g]. simpl in *.
  set (heldout := merge_sort string_le drawn).
  destruct (plan_families_spec heldout training_rows calibration_rows (Z.to_nat repetitions) families g)
    as (groups & Hg & Hf).
  destruct (plan_families _ _ _ _ families g) as [plan g1]. simpl in Hg |- *. subst plan.
  pose proof (shuffle_perm (concat groups) g1) as Hplan. set (plan := (shuffle (concat groups) g1).1) in *.
  assert (Hheld : heldout ≡ₚ drawn) by apply merge_sort_Permutation.
  assert (Hpairs : (fun e => (pe_family e, pe_repetition e)) <$> plan ≡ₚ
    families ≫= (fun family => (fun n => (family, n)) <$> seq 0 (Z.to_nat repetitions))).
  { rewrite Hplan. by eapply families_pairs. }
  split_and!; [by apply Hs| |done|by rewrite Hheld; lia| | |].
  - by eapply plan_ids.
  - rewrite Hheld. rewrite Hpart in Hnd. by apply NoDup_app in Hnd as (Hnd & _).
  - intros f. rewrite Hheld, Hpart. set_solver.
  - intros family Hin. destruct (filter_family _ _ _ _ family families groups Hf Hnd Hin) as (es & Hes & Hfil).
    rewrite Hplan, Hfil, (family_partitions _ _ _ _ family es Hes). by rewrite partition_rows.
Qed.

(** ** A concrete generator *)

(** It reverses what it shuffles and samples from the front. *)
Definition reversing : RandomOps Z :=
  {| Random := fun seed => seed;
     sample := fun l n g => (take n l, g + 1);
     shuffle := fun _ l g => (reverse l, g + 1) |}.
Lemma reversing_laws : @RandomLaws Z reversing.
Proof.
  split; simpl.
  - intros A l g. apply reverse_Permutation.
  - intros l n g Hn. split; [by rewrite length_take; lia|]. exists (drop n l). by rewrite take_drop.
Qed.

Lemma plan_exact_witness :
  exists plan, @make_plan Z reversing ["getpid"; "fork"] 4 2 1 1 7 = Ok (plan, ["getpid"]) /\
    length plan = 8%nat /\ NoDup (pe_execution_id <$> plan) /\
    pe_partition <$> filter (fun e => pe_family e = "fork") plan ≡ₚ
      ["training"; "training"; "calibration"; "familiar_validation"].
Proof.
  pose proof (@plan_exact Z reversing reversing_laws ["getpid"; "fork"] 4 2 1 1 7) as H.
  destruct (@make_plan Z reversing ["getpid"; "fork"] 4 2 1 1 7) as [[plan heldout]|e] eqn:Hm;
    [|vm_compute in Hm; discriminate Hm].
  assert (Hh : heldout = ["getpid"]) by (vm_compute in Hm; congruence).
  assert (Hl : length plan = 8%nat).
  { vm_compute in Hm. injection Hm as Hm _. rewrite <- Hm. reflexivity. }
  exists plan. rewrite Hh in *. destruct H as (_ & Hnd & _ & _ & _ & _ & Hf).
  split; [reflexivity|split; [exact Hl|split; [exact Hnd|]]].
  apply (Hf "fork"). right. left.
Defined.
