(* ===== verification/ExperimentCorruptions.v ===== *)
(** * Corrupted evaluation batches ([examples/hardware_multimodal_experiment.py])

    [modality_swap] gives every execution the tokens of another execution for
    one modality; [timestamp_misalignment] reverses the times of the available
    load tokens within each slot. Both are meant to break the alignment between
    modalities and nothing else: what they make must pass the constructor. *)

From Stdlib Require SpecFloat.
From S2P Require Import Prelude Floats ModelBatch ModelValid.

(** [tensor.roll(1, 0)] *)
Definition roll {A} (l : list A) : list A :=
  drop (length l - 1) l ++ take (length l - 1) l.

(** [target[lo:hi] = source[lo:hi]] for one cell, and for every cell of two tensors. *)
Definition splice {A} (lo hi : nat) (source target : list A) : list A :=
  take lo target ++ take (hi - lo) (drop lo source) ++ drop hi target.
Definition roll_tokens {A} (lo hi : nat) (g : grid A) : grid A :=
  zip_with (zip_with (splice lo hi)) (roll g) g.

Definition modality_of (name : string) : option modality :=
  od_get name [("pt", PT); ("pebs", PEBS); ("pmu", PMU)].

(** The tokens of a modality. *)
Definition token_slice (k : modality) : nat * nat :=
  match k with PT => (0, 16) | PEBS => (16, 32) | PMU => (32, 33) end%nat.

Definition modality_swap (m : ModelBatch) (name : string) : result ModelBatch :=
  raise! ValueError "modality swap needs at least two executions" when (batch_size m <? 2)%nat in
  match modality_of name with
  | None => throw ValueError "unknown modality"
  | Some k =>
      let '(lo, hi) := token_slice k in
      let swap {A} (j : modality) (g : list A) := if decide (j = k) then roll g else g in
      model_batch (MkModelBatch (swap PT (mo_pt m)) (swap PEBS (mo_pebs m)) (swap PMU (mo_pmu m))
        (swap PT (mo_pt_available m)) (swap PEBS (mo_pebs_available m)) (swap PMU (mo_pmu_available m))
        (roll_tokens lo hi (mo_time_bounds m)) (roll_tokens lo hi (mo_timing_quality m)))
  end.

(** [torch.nonzero(available).flatten()] *)
Definition positions (available : list bool) : list nat :=
  fst <$> filter (fun p => p.2 = true) (zip (seq 0 (length available)) available).

(** [cell[tokens] = values] *)
Definition scatter {A} (tokens : list nat) (values : list A) (cell : list A) : list A :=
  fold_left (fun cell p => <[p.1 := p.2]> cell) (zip tokens values) cell.

(** [cell[tokens] = cell[tokens.flip(0)]], unless there are fewer than two. *)
Definition reverse_tokens {A} (tokens : list nat) (cell : list A) : list A :=
  if (length tokens <? 2)%nat then cell
  else scatter tokens (reverse tokens ≫= fun t => option_list (cell !! t)) cell.

Definition misalign {A} (available : grid bool) (g : grid A) : grid A :=
  zip_with (zip_with (fun a cell => reverse_tokens ((fun i => i + 16)%nat <$> positions a) cell)) available g.

Definition timestamp_misalignment (m : ModelBatch) : result ModelBatch :=
  raise! ValueError "timestamp misalignment needs at least two executions" when (batch_size m <? 2)%nat in
  model_batch (MkModelBatch (mo_pt m) (mo_pebs m) (mo_pmu m) (mo_pt_available m) (mo_pebs_available m)
    (mo_pmu_available m) (misalign (mo_pebs_available m) (mo_time_bounds m))
    (misalign (mo_pebs_available m) (mo_timing_quality m))).

(** ** Rolling *)

(** The execution whose tokens execution [r] receives. *)
Definition rolled (b r : nat) : nat := if (r =? 0)%nat then (b - 1)%nat else (r - 1)%nat.

Lemma roll_length {A} (l : list A) : length (roll l) = length l.
Proof. unfold roll. rewrite length_app, length_drop, length_take. lia. Qed.

Lemma roll_lookup {A} (l : list A) r : (r < length l)%nat -> roll l !! r = l !! rolled (length l) r.
Proof.
  intros Hr. unfold roll, rolled. destruct (r =? 0)%nat eqn:E; bool_prop.
  - rewrite lookup_app_l by (rewrite length_drop; lia). rewrite lookup_drop. f_equal. lia.
  - rewrite lookup_app_r by (rewrite length_drop; lia). rewrite length_drop, lookup_take_lt by lia. f_equal. lia.
Qed.

Lemma rolled_lt b r : (r < b)%nat -> (rolled b r < b)%nat.
Proof. unfold rolled. destruct (r =? 0)%nat eqn:E; bool_prop; lia. Qed.

Lemma roll_shape {A} b k t (g : grid A) : shape b k t g -> shape b k t (roll g).
Proof.
  intros [Hl Hs]. split; [by rewrite roll_length|]. rewrite Forall_lookup in Hs. apply Forall_lookup.
  intros r row Hr. pose proof (lookup_lt_Some _ _ _ Hr) as Hlt. rewrite roll_length in Hlt.
  rewrite roll_lookup in Hr by done. by eapply Hs.
Qed.

Lemma roll_at {A} b k t (g : grid A) r c i : shape b k t g -> (r < b)%nat ->
  at3 (roll g) r c i = at3 g (rolled b r) c i.
Proof. intros [Hl _] Hr. unfold at3. rewrite roll_lookup by lia. by rewrite Hl. Qed.

Lemma splice_length {A} lo hi (source target : list A) : (lo <= hi <= length target)%nat ->
  length source = length target -> length (splice lo hi source target) = length target.
Proof. intros H Hl. unfold splice. rewrite !length_app, !length_take, !length_drop. lia. Qed.

Lemma splice_lookup {A} lo hi (source target : list A) i : (lo <= hi <= length target)%nat ->
  length source = length target ->
  splice lo hi source target !! i = if decide (lo <= i < hi)%nat then source !! i else target !! i.
Proof.
  intros H Hl. unfold splice. case_decide as Hi.
  - rewrite lookup_app_r by (rewrite length_take; lia). rewrite length_take.
    rewrite lookup_app_l by (rewrite length_take, length_drop; lia).
    rewrite lookup_take_lt by lia. rewrite lookup_drop. f_equal. lia.
  - destruct (decide (i < lo)%nat).
    + rewrite lookup_app_l by (rewrite length_take; lia). by rewrite lookup_take_lt by lia.
    + rewrite lookup_app_r by (rewrite length_take; lia). rewrite length_take.
      rewrite lookup_app_r by (rewrite length_take, length_drop; lia). rewrite length_take, length_drop.
      rewrite lookup_drop. f_equal. lia.
Qed.

(** Tensors combined cell by cell. *)
Lemma zip_cells_shape {A B C} b k t (f : list A -> list B -> list C) (g : grid A) (h : grid B) t1 t2 :
  shape b k t1 g -> shape b k t2 h ->
  (forall x y, length x = t1 -> length y = t2 -> length (f x y) = t) -> shape b k t (zip_with (zip_with f) g h).
Proof.
  intros [Hg Gs] [Hh Hs] Hf. split; [rewrite length_zip_with; lia|].
  rewrite Forall_lookup in Gs. rewrite Forall_lookup in Hs. apply Forall_lookup. intros r row Hr.
  apply lookup_zip_with_Some in Hr as (row1 & row2 & -> & H1 & H2).
  destruct (Gs r row1 H1) as [K1 T1], (Hs r row2 H2) as [K2 T2]. split; [rewrite length_zip_with; lia|].
  rewrite Forall_lookup in T1. rewrite Forall_lookup in T2. apply Forall_lookup. intros c cell Hc.
  apply lookup_zip_with_Some in Hc as (c1 & c2 & -> & C1 & C2). apply Hf; [by eapply T1|by eapply T2].
Qed.

Lemma zip_cells_at {A B C} (f : list A -> list B -> list C) (g : grid A) (h : grid B) r c i x :
  at3 (zip_with (zip_with f) g h) r c i = Some x <->
  exists row cell row' cell', g !! r = Some row /\ row !! c = Some cell /\
    h !! r = Some row' /\ row' !! c = Some cell' /\ f cell cell' !! i = Some x.
Proof.
  rewrite at3_Some. setoid_rewrite lookup_zip_with_Some. split.
  - intros (row & cell & (r1 & r2 & -> & H1 & H2) & Hc & Hx).
    apply lookup_zip_with_Some in Hc as (c1 & c2 & -> & C1 & C2). eauto 15.
  - intros (r1 & c1 & r2 & c2 & H1 & C1 & H2 & C2 & Hx). exists (zip_with f r1 r2), (f c1 c2).
    split_and!; [eauto|apply lookup_zip_with_Some; eauto|done].
Qed.

Lemma roll_tokens_at {A} b k t lo hi (g : grid A) r c i x : shape b k t g -> (lo <= hi <= t)%nat ->
  at3 (roll_tokens lo hi g) r c i = Some x ->
  (r < b)%nat /\ at3 g (if decide (lo <= i < hi)%nat then rolled b r else r) c i = Some x.
Proof.
  intros Hg Hlo Hx. pose proof (roll_shape b k t g Hg) as [Hrl Hrs]. pose proof Hg as [Hl Hs].
  apply zip_cells_at in Hx as (row & cell & row' & cell' & H1 & C1 & H2 & C2 & Hx).
  assert (Hr : (r < b)%nat) by (rewrite <- Hl; by eapply lookup_lt_Some). split; [done|].
  rewrite Forall_lookup in Hrs, Hs. destruct (Hrs r row H1) as [_ T1], (Hs r row' H2) as [_ T2].
  rewrite Forall_lookup in T1, T2. specialize (T1 c cell C1). specialize (T2 c cell' C2).
  rewrite splice_lookup in Hx by lia. case_decide.
  - rewrite <- (roll_at b k t) by done. apply at3_Some. eauto.
  - apply at3_Some. eauto.
Qed.

(** ** Swapping a modality *)

Section swap.
Context (b k : nat) (m : ModelBatch) (V : valid b k m) (Hpmu : forall r c, (r < b)%nat -> (c < k)%nat ->
  at3 (mo_pmu_available m) r c 0 = Some true).

(** The execution that token [i] of execution [r] comes from when tokens [lo] to [hi] are swapped. *)
Definition origin (lo hi r i : nat) : nat := if decide (lo <= i < hi)%nat then rolled b r else r.

(** A column whose executions come, token by token, from [f]. *)
Definition comes_from {A} (f : nat -> nat -> nat) (g h : grid A) : Prop :=
  forall r c i x, at3 h r c i = Some x -> (r < b)%nat /\ at3 g (f r i) c i = Some x.

Lemma comes_refl {A} t (g : grid A) (f : nat -> nat -> nat) : shape b k t g ->
  (forall r i, (i < t)%nat -> f r i = r) -> comes_from f g g.
Proof.
  intros Hs Hf r c i x Hx. assert (Hin : is_Some (at3 g r c i)) by eauto.
  apply (shape_at3 b k t) in Hin as (Hr & _ & Hi); [|done]. by rewrite Hf.
Qed.

Lemma comes_roll {A} t (g : grid A) (f : nat -> nat -> nat) : shape b k t g ->
  (forall r i, (i < t)%nat -> f r i = rolled b r) -> comes_from f g (roll g).
Proof.
  intros Hs Hf r c i x Hx. assert (Hin : is_Some (at3 (roll g) r c i)) by eauto.
  apply (shape_at3 b k t) in Hin as (Hr & _ & Hi); [|by apply roll_shape]. split; [done|].
  rewrite Hf by done. by rewrite <- (roll_at b k t).
Qed.

Lemma comes_availability (f : nat -> nat -> nat) m' :
  shape b k SEGMENTS (mo_pt_available m') -> shape b k SEGMENTS (mo_pebs_available m') ->
  shape b k 1 (mo_pmu_available m') -> comes_from f (mo_pt_available m) (mo_pt_available m') ->
  comes_from (fun r i => f r (i + 16)%nat) (mo_pebs_available m) (mo_pebs_available m') ->
  comes_from (fun r i => f r (i + 32)%nat) (mo_pmu_available m) (mo_pmu_available m') ->
  comes_from f (token_availability m) (token_availability m').
Proof.
  intros S1 S2 S3 C1 C2 C3 r c i x Hx. rewrite (availability_at b k) in Hx by done.
  rewrite (availability_at b k) by apply V. repeat case_decide; [by apply C1|..].
  - apply C2 in Hx as [Hr Hx]. by replace (i - 16 + 16)%nat with i in Hx by lia.
  - apply C3 in Hx as [Hr Hx]. by replace (i - 32 + 32)%nat with i in Hx by lia.
Qed.

Lemma comes_valid (f : nat -> nat -> nat) m' :
  shape b k SEGMENTS (mo_pt m') -> shape b k SEGMENTS (mo_pebs m') -> shape b k 1 (mo_pmu m') ->
  shape b k SEGMENTS (mo_pt_available m') -> shape b k SEGMENTS (mo_pebs_available m') ->
  shape b k 1 (mo_pmu_available m') -> shape b k TOKENS (mo_time_bounds m') -> shape b k TOKENS (mo_timing_quality m') ->
  comes_from f (mo_pt m) (mo_pt m') -> comes_from f (mo_pt_available m) (mo_pt_available m') ->
  comes_from (fun r i => f r (i + 16)%nat) (mo_pebs m) (mo_pebs m') ->
  comes_from (fun r i => f r (i + 16)%nat) (mo_pebs_available m) (mo_pebs_available m') ->
  comes_from (fun r i => f r (i + 32)%nat) (mo_pmu m) (mo_pmu m') ->
  comes_from (fun r i => f r (i + 32)%nat) (mo_pmu_available m) (mo_pmu_available m') ->
  comes_from f (mo_time_bounds m) (mo_time_bounds m') -> comes_from f (mo_timing_quality m) (mo_timing_quality m') ->
  valid b k m'.
Proof.
  intros S1 S2 S3 S4 S5 S6 S7 S8 P1 P2 P3 P4 P5 P6 T1 T2.
  pose proof (comes_availability f m' S4 S5 S6 P2 P4 P6) as Hav.
  assert (Hwide : forall A n (f : nat -> nat -> nat) (g h : grid (list A)), comes_from f g h -> wide n g -> wide n h).
  { intros A n f' g h Hc Hw r c i l Hl. apply Hc in Hl as [_ Hl]. by eapply Hw. }
  pose proof V as [V1 V2 V3 V4 V5 V6 V7 V8 W1 (n2 & N2 & W2) (n3 & N3 & W3) F1 F2 F3 B R _].
  split; try done; try (by eapply Hwide).
  - exists n2. split; [done|by eapply Hwide].
  - exists n3. split; [done|by eapply Hwide].
  - intros r c i l Hl Ha. apply P1 in Hl as [_ Hl]. apply P2 in Ha as [_ Ha]. by eapply F1.
  - intros r c i l Hl Ha. apply P3 in Hl as [_ Hl]. apply P4 in Ha as [_ Ha]. by eapply F2.
  - intros r c i l Hl Ha. apply P5 in Hl as [_ Hl]. apply P6 in Ha as [_ Ha]. by eapply F3.
  - intros r c i x Hx Ha. apply T1 in Hx as [_ Hx]. apply Hav in Ha as [_ Ha]. by eapply B.
  - intros r c i x Hx Ha. apply T2 in Hx as [_ Hx]. apply Hav in Ha as [_ Ha]. by eapply R.
  - intros r c Hr Hc. destruct (proj2 (shape_at3 b k 1 (mo_pmu_available m') r c 0 S6)) as [x Hx]; [lia|].
    exists 32%nat. rewrite (availability_at b k) by done. simpl. rewrite Hx. f_equal.
    apply P6 in Hx as [_ Hx]. assert (Hin : is_Some (at3 (mo_pmu_available m) (f r 32%nat) c 0)) by eauto.
    apply (shape_at3 b k 1) in Hin as (Hf & _ & _); [|done]. rewrite Hpmu in Hx by done. by injection Hx.
Qed.

Definition swapped_from (j : modality) (r i : nat) : nat :=
  origin (token_slice j).1 (token_slice j).2 r i.

Lemma swap_column {A} (j j' : modality) t o (g : grid A) : shape b k t g -> (t <= 16)%nat ->
  (o, (o + t)%nat) = token_slice j' ->
  let h := if decide (j' = j) then roll g else g in
  shape b k t h /\ comes_from (fun r i => swapped_from j r (i + o)%nat) g h.
Proof.
  intros Hs Ht Ho h. subst h. destruct (decide (j' = j)) as [->|Hne].
  - split; [by apply roll_shape|]. apply (comes_roll t); [done|]. intros r i Hi. unfold swapped_from, origin.
    rewrite <- Ho. simpl. by rewrite decide_True by lia.
  - split; [done|]. apply (comes_refl t); [done|]. intros r i Hi. unfold swapped_from, origin.
    rewrite decide_False; [done|]. destruct j, j'; try done; simpl in *; injection Ho as -> Ho; lia.
Qed.

Lemma swap_tokens {A} (j : modality) (g : grid A) : shape b k TOKENS g ->
  let h := roll_tokens (token_slice j).1 (token_slice j).2 g in
  shape b k TOKENS h /\ comes_from (swapped_from j) g h.
Proof.
  intros Hs h. subst h. assert (Hlo : ((token_slice j).1 <= (token_slice j).2 <= TOKENS)%nat)
    by (destruct j; simpl; unfold TOKENS; lia). split.
  - unfold roll_tokens. apply (zip_cells_shape b k TOKENS _ _ _ TOKENS TOKENS); [by apply roll_shape|done|].
    intros x y Hx Hy. rewrite splice_length; lia.
  - intros r c i x Hx. by apply (roll_tokens_at b k TOKENS) in Hx.
Qed.

(** The batch a swap builds. *)
Definition swapped (j : modality) : ModelBatch :=
  let swap {A} (j' : modality) (g : list A) := if decide (j' = j) then roll g else g in
  let '(lo, hi) := token_slice j in
  MkModelBatch (swap PT (mo_pt m)) (swap PEBS (mo_pebs m)) (swap PMU (mo_pmu m))
    (swap PT (mo_pt_available m)) (swap PEBS (mo_pebs_available m)) (swap PMU (mo_pmu_available m))
    (roll_tokens lo hi (mo_time_bounds m)) (roll_tokens lo hi (mo_timing_quality m)).

Lemma comes_zero {A} j (g h : grid A) : comes_from (fun r i => swapped_from j r (i + 0)%nat) g h ->
  comes_from (swapped_from j) g h.
Proof. intros Hc r c i x Hx. rewrite <- (Nat.add_0_r i) at 1. by apply Hc. Qed.

Lemma swapped_columns j (P : ModelBatch -> Prop) :
  P (MkModelBatch (if decide (PT = j) then roll (mo_pt m) else mo_pt m)
    (if decide (PEBS = j) then roll (mo_pebs m) else mo_pebs m)
    (if decide (PMU = j) then roll (mo_pmu m) else mo_pmu m)
    (if decide (PT = j) then roll (mo_pt_available m) else mo_pt_available m)
    (if decide (PEBS = j) then roll (mo_pebs_available m) else mo_pebs_available m)
    (if decide (PMU = j) then roll (mo_pmu_available m) else mo_pmu_available m)
    (roll_tokens (token_slice j).1 (token_slice j).2 (mo_time_bounds m))
    (roll_tokens (token_slice j).1 (token_slice j).2 (mo_timing_quality m))) -> P (swapped j).
Proof. unfold swapped. by rewrite (surjective_pairing (token_slice j)). Qed.

Ltac swap_column_tac j :=
  first [eapply (swap_column j PT 16 0); [done|lia|done] | eapply (swap_column j PEBS 16 16); [done|lia|done]
    | eapply (swap_column j PMU 1 32); [done|lia|done]
    | apply comes_zero; eapply (swap_column j PT 16 0); [done|lia|done]].

Lemma swap_valid (j : modality) : valid b k (swapped j).
Proof.
  pose proof V as [V1 V2 V3 V4 V5 V6 V7 V8 _ _ _ _ _ _ _ _ _].
  destruct (swap_tokens j _ V7) as [T1 C1], (swap_tokens j _ V8) as [T2 C2].
  apply swapped_columns. apply (comes_valid (swapped_from j)); simpl mo_pt; simpl mo_pebs; simpl mo_pmu;
    simpl mo_pt_available; simpl mo_pebs_available; simpl mo_pmu_available; simpl mo_time_bounds;
    simpl mo_timing_quality; try done.
  all: swap_column_tac j.
Qed.

Lemma swap_availability (j : modality) :
  comes_from (swapped_from j) (token_availability m) (token_availability (swapped j)).
Proof.
  pose proof V as [V1 V2 V3 V4 V5 V6 V7 V8 _ _ _ _ _ _ _ _ _]. apply swapped_columns.
  apply comes_availability; simpl mo_pt_available; simpl mo_pebs_available; simpl mo_pmu_available;
    swap_column_tac j.
Qed.
End swap.

(** ** Reversing times *)

Lemma positions_spec a i : i ∈ positions a <-> a !! i = Some true.
Proof.
  unfold positions. rewrite list_elem_of_fmap. setoid_rewrite list_elem_of_filter.
  setoid_rewrite list_elem_of_lookup. setoid_rewrite lookup_zip_with_Some. split.
  - intros ([j x] & -> & Ht & n & n' & y & [= -> ->] & Hn & Hy). simpl in *. subst y.
    apply lookup_seq in Hn as [-> _]. done.
  - intros Ha. exists (i, true). split_and!; [done|done|]. exists i, i, true. split_and!; [done| |done].
    apply lookup_seq. split; [done|]. by eapply lookup_lt_Some.
Qed.

Lemma positions_NoDup a : NoDup (positions a).
Proof.
  unfold positions. set (n := 0%nat). generalize n. clear n. induction a as [|x a IH]; intros n; [constructor|].
  simpl. rewrite filter_cons. case_decide; [|apply IH]. simpl. constructor; [|apply IH].
  intros Hin. apply list_elem_of_fmap in Hin as ([j y] & Hj & Hin). simpl in Hj. subst j.
  apply list_elem_of_filter in Hin as [_ Hin]. apply list_elem_of_lookup in Hin as [q Hq].
  apply lookup_zip_with_Some in Hq as (p & z & [= -> ->] & Hq & _). apply lookup_seq in Hq. lia.
Qed.

Lemma scatter_lookup {A} tokens (values : list A) cell : NoDup tokens -> length values = length tokens ->
  Forall (fun t => t < length cell)%nat tokens ->
  length (scatter tokens values cell) = length cell /\
  (forall i, i ∉ tokens -> scatter tokens values cell !! i = cell !! i) /\
  (forall n t, tokens !! n = Some t -> scatter tokens values cell !! t = values !! n).
Proof.
  unfold scatter. revert values cell. induction tokens as [|t tokens IH]; intros values cell Hnd Hl Hlt; [done|].
  destruct values as [|v values]; [done|]. apply NoDup_cons in Hnd as [Ht Hnd]. apply Forall_cons in Hlt as [Htl Hlt].
  simpl. destruct (IH values (<[t := v]> cell)) as (L & Hout & Hin); [done|simpl in Hl; lia|by rewrite length_insert|].
  rewrite length_insert in L. split_and!; [done|..].
  - intros i Hi. rewrite Hout by set_solver. rewrite list_lookup_insert_ne by set_solver. done.
  - intros [|n] t' Hn; [|by apply Hin]. injection Hn as <-. rewrite Hout by done.
    by rewrite list_lookup_insert_eq.
Qed.

(** The token whose time token [i] receives. *)
Definition mirror (tokens : list nat) (i : nat) : nat :=
  match list_find (eq i) tokens with Some (n, _) => default i (reverse tokens !! n) | None => i end.

Lemma mirror_in tokens i : i ∈ tokens -> mirror tokens i ∈ tokens.
Proof.
  intros Hi. unfold mirror. destruct (list_find (eq i) tokens) as [[n x]|] eqn:Hf; [|done].
  destruct (reverse tokens !! n) as [t|] eqn:Hn; [|done]. simpl. apply elem_of_reverse.
  by eapply list_elem_of_lookup_2.
Qed.

Lemma mirror_out tokens i : i ∉ tokens -> mirror tokens i = i.
Proof.
  intros Hi. unfold mirror. destruct (list_find (eq i) tokens) as [[n x]|] eqn:Hf; [|done].
  apply list_find_Some in Hf as (Hn & <- & _). by apply list_elem_of_lookup_2 in Hn.
Qed.

Lemma gather_lookup {A} (tokens : list nat) (cell : list A) : Forall (fun t => t < length cell)%nat tokens ->
  length (tokens ≫= fun t => option_list (cell !! t)) = length tokens /\
  forall n, (tokens ≫= fun t => option_list (cell !! t)) !! n = t ← tokens !! n; cell !! t.
Proof.
  induction 1 as [|t tokens Ht _ [IHl IH]]; [done|]. apply lookup_lt_is_Some in Ht as [x Hx]. simpl. rewrite Hx. simpl.
  split; [by f_equal|]. intros [|n]; [done|]. apply IH.
Qed.

Lemma reverse_tokens_lookup {A} tokens (cell : list A) i : NoDup tokens ->
  Forall (fun t => t < length cell)%nat tokens ->
  length (reverse_tokens tokens cell) = length cell /\
  reverse_tokens tokens cell !! i = cell !! mirror tokens i.
Proof.
  intros Hnd Hlt. unfold reverse_tokens. destruct (length tokens <? 2)%nat eqn:Hl; bool_prop.
  { split; [done|]. f_equal. destruct tokens as [|t [|]]; [done| |simpl in *; lia].
    unfold mirror. simpl. by case_decide. }
  assert (Hrev : Forall (fun t => t < length cell)%nat (reverse tokens)) by (by apply Forall_reverse).
  destruct (gather_lookup (reverse tokens) cell Hrev) as [Gl G].
  destruct (scatter_lookup tokens (reverse tokens ≫= fun t => option_list (cell !! t)) cell)
    as (L & Hout & Hin); [done|by rewrite Gl, length_reverse|done|].
  split; [done|]. destruct (decide (i ∈ tokens)) as [Hi|Hi].
  - unfold mirror. destruct (list_find (eq i) tokens) as [[n x]|] eqn:Hf.
    + apply list_find_Some in Hf as (Hn & <- & _). rewrite (Hin n i Hn), G.
      assert (Hr : is_Some (reverse tokens !! n)).
      { apply lookup_lt_is_Some. rewrite length_reverse. by eapply lookup_lt_Some. }
      destruct Hr as [t Hr]. by rewrite Hr.
    + apply list_find_None in Hf. rewrite Forall_forall in Hf. by destruct (Hf i Hi).
  - by rewrite Hout, mirror_out.
Qed.

(** The load tokens of a slot that are available, as positions among all tokens. *)
Definition load_tokens (available : grid bool) (r c : nat) : list nat :=
  match available !! r with
  | Some row => match row !! c with Some a => (fun i => i + 16)%nat <$> positions a | None => [] end
  | None => []
  end.

Lemma load_tokens_spec available r c i :
  i ∈ load_tokens available r c <-> (16 <= i)%nat /\ at3 available r c (i - 16) = Some true.
Proof.
  unfold load_tokens, at3. destruct (available !! r) as [row|]; simpl; [|split; [by intros ?%elem_of_nil|by intros [_ ?]]].
  destruct (row !! c) as [a|]; simpl; [|split; [by intros ?%elem_of_nil|by intros [_ ?]]].
  rewrite list_elem_of_fmap. setoid_rewrite positions_spec. split.
  - intros (j & -> & Hj). split; [lia|]. by replace (j + 16 - 16)%nat with j by lia.
  - intros [Hi Hj]. exists (i - 16)%nat. split; [lia|done].
Qed.

Lemma misalign_at {A} b k (available : grid bool) (g : grid A) r c i : shape b k SEGMENTS available ->
  shape b k TOKENS g -> at3 (misalign available g) r c i = at3 g r c (mirror (load_tokens available r c) i).
Proof.
  intros [Ha As] [Hg Gs]. unfold misalign, load_tokens. unfold at3 at 1. rewrite lookup_zip_with.
  destruct (available !! r) as [row|] eqn:Hr; simpl.
  2:{ unfold at3. assert (g !! r = None) as -> by (apply lookup_ge_None in Hr; apply lookup_ge_None; lia). done. }
  assert (Hg' : is_Some (g !! r)) by (apply lookup_lt_is_Some; apply lookup_lt_Some in Hr; lia).
  destruct Hg' as [row' Hr']. unfold at3. rewrite Hr'. simpl. rewrite lookup_zip_with.
  rewrite Forall_lookup in As. rewrite Forall_lookup in Gs.
  destruct (As r row Hr) as [K1 T1], (Gs r row' Hr') as [K2 T2].
  destruct (row !! c) as [a|] eqn:Hc; simpl.
  2:{ assert (row' !! c = None) as -> by (apply lookup_ge_None in Hc; apply lookup_ge_None; lia). done. }
  assert (Hc' : is_Some (row' !! c)) by (apply lookup_lt_is_Some; apply lookup_lt_Some in Hc; lia).
  destruct Hc' as [cell Hc']. rewrite Hc'. simpl. rewrite Forall_lookup in T1. rewrite Forall_lookup in T2.
  apply reverse_tokens_lookup.
  - apply NoDup_fmap_2; [intros x y ?; lia|apply positions_NoDup].
  - apply Forall_forall. intros t Ht. apply list_elem_of_fmap in Ht as (j & -> & Hj%positions_spec).
    apply lookup_lt_Some in Hj. rewrite (T1 c a Hc) in Hj. rewrite (T2 c cell Hc'). unfold SEGMENTS, TOKENS in *. lia.
Qed.

Lemma misalign_shape {A} b k (available : grid bool) (g : grid A) : shape b k SEGMENTS available ->
  shape b k TOKENS g -> shape b k TOKENS (misalign available g).
Proof.
  intros Ha Hg. unfold misalign. apply (zip_cells_shape b k TOKENS _ _ _ SEGMENTS TOKENS); [done..|].
  intros x y Hx Hy. rewrite <- Hy. apply (reverse_tokens_lookup _ _ 0).
  - apply NoDup_fmap_2; [intros ? ? ?; lia|apply positions_NoDup].
  - apply Forall_forall. intros t Ht. apply list_elem_of_fmap in Ht as (j & -> & Hj%positions_spec).
    apply lookup_lt_Some in Hj. unfold SEGMENTS, TOKENS in *. lia.
Qed.

Lemma mirror_available b k m r c i : valid b k m -> at3 (token_availability m) r c i = Some true ->
  at3 (token_availability m) r c (mirror (load_tokens (mo_pebs_available m) r c) i) = Some true.
Proof.
  intros V Hi. set (ts := load_tokens (mo_pebs_available m) r c).
  destruct (decide (i ∈ ts)) as [Hin|Hin]; [|by rewrite mirror_out].
  apply mirror_in, load_tokens_spec in Hin as [Hge Ht].
  rewrite (availability_at b k) by apply V. rewrite decide_False by lia.
  assert (Hlt : is_Some (at3 (mo_pebs_available m) r c (mirror ts i - 16))) by eauto.
  apply (shape_at3 b k SEGMENTS) in Hlt as (_ & _ & Hlt); [|apply V]. unfold SEGMENTS in Hlt.
  by rewrite decide_True by lia.
Qed.

Lemma misalign_valid b k m : valid b k m ->
  valid b k (MkModelBatch (mo_pt m) (mo_pebs m) (mo_pmu m) (mo_pt_available m) (mo_pebs_available m)
    (mo_pmu_available m) (misalign (mo_pebs_available m) (mo_time_bounds m))
    (misalign (mo_pebs_available m) (mo_timing_quality m))).
Proof.
  intros V. pose proof V as [V1 V2 V3 V4 V5 V6 V7 V8 W1 W2 W3 F1 F2 F3 B R S].
  split; simpl; try done; try (by apply misalign_shape).
  - intros r c i x Hx Ha. rewrite (misalign_at b k) in Hx by done.
    apply (B r c _ x Hx). by apply (mirror_available b k).
  - intros r c i x Hx Ha. rewrite (misalign_at b k) in Hx by done.
    apply (R r c _ x Hx). by apply (mirror_available b k).
Qed.

(** Corruptions break alignment and nothing else. For a valid batch of at least two
    executions whose counters are all available, both corruptions return batches that pass
    every check of the constructor. A swap takes the tokens of its modality, with their
    availability, time bounds and quality, from the previous execution (the last one for the
    first) and every other token from the execution itself; a misalignment moves bounds and
    quality together, and only among the available load tokens of one slot. *)
Theorem corruptions_valid (m : ModelBatch) (Hm : check_model_batch m = Ok tt) (Hsize : (2 <= batch_size m)%nat)
  (Hpmu : forall r c, (r < batch_size m)%nat -> (c < cpu_count m)%nat -> at3 (mo_pmu_available m) r c 0 = Some true) :
  (forall name k, modality_of name = Some k -> exists m', modality_swap m name = Ok m' /\
     check_model_batch m' = Ok tt /\
     comes_from (batch_size m) (swapped_from (batch_size m) k) (token_availability m) (token_availability m') /\
     comes_from (batch_size m) (swapped_from (batch_size m) k) (mo_time_bounds m) (mo_time_bounds m') /\
     comes_from (batch_size m) (swapped_from (batch_size m) k) (mo_timing_quality m) (mo_timing_quality m')) /\
  exists m', timestamp_misalignment m = Ok m' /\ check_model_batch m' = Ok tt /\
    token_availability m' = token_availability m /\
    forall r c i, let j := mirror (load_tokens (mo_pebs_available m) r c) i in
      at3 (mo_time_bounds m') r c i = at3 (mo_time_bounds m) r c j /\
      at3 (mo_timing_quality m') r c i = at3 (mo_timing_quality m) r c j.
Proof.
  pose proof (proj1 (check_valid m) Hm) as V. set (b := batch_size m) in *. set (k := cpu_count m) in *.
  assert (Hb : (b <? 2)%nat = false) by (apply Nat.ltb_ge; lia). split.
  - intros name j Hj. pose proof (swap_valid b k m V Hpmu j) as Vs.
    destruct (swap_tokens b k j _ (v_bounds _ _ _ V)) as [_ C1].
    destruct (swap_tokens b k j _ (v_quality _ _ _ V)) as [_ C2].
    pose proof (swap_availability b k m V j) as C3.
    assert (Hs : modality_swap m name = model_batch (swapped m j)).
    { unfold modality_swap, swapped. fold b. rewrite Hb, Hj. by destruct (token_slice j). }
    exists (swapped m j). rewrite Hs. unfold model_batch. rewrite (valid_check b k _ Vs).
    split_and!; [done|done|exact C3|by apply swapped_columns|by apply swapped_columns].
  - pose proof (misalign_valid b k m V) as Vm. unfold timestamp_misalignment. fold b. rewrite Hb.
    eexists. unfold model_batch. rewrite (valid_check b k _ Vm). simpl. split_and!; [done| |done|].
    + exact (valid_check b k _ Vm).
    + intros r c i. simpl. split; apply (misalign_at b k); apply V.
Qed.

(** ** Concrete batches *)

(** One CPU slot; the load tokens of each execution are as given, and timed by position. *)
Definition corrupted_example (pmu : bool) (loads : list (list bool)) : ModelBatch :=
  let row {A} (x : A) := (fun _ : list bool => [x]) <$> loads in
  MkModelBatch (row (replicate 16 (replicate 256 zero))) (row (replicate 16 [zero])) (row [[zero]])
    (row (replicate 16 false)) ((fun l => [l ++ replicate (16 - length l) false]) <$> loads) (row [pmu])
    (row ((fun n => (zero, float32_of_int (Z.of_nat n))) <$> seq 0 33)) (row (replicate 33 zero)).

Notation two_executions := (corrupted_example true [[true; false; true]; [false; true]]).

Lemma corruptions_valid_witness :
  exists m', timestamp_misalignment two_executions = Ok m' /\ check_model_batch m' = Ok tt /\
    at3 (mo_time_bounds m') 0 0 16 = at3 (mo_time_bounds two_executions) 0 0 18.
Proof.
  destruct (corruptions_valid two_executions ltac:(vm_compute; reflexivity) ltac:(vm_compute; lia))
    as [_ (m' & H1 & H2 & _ & H3)].
  - intros r c Hr Hc. change (batch_size two_executions) with 2%nat in Hr.
    change (cpu_count two_executions) with 1%nat in Hc.
    destruct r as [|[|r]]; [| |lia]; destruct c as [|c]; try lia; vm_compute; reflexivity.
  - exists m'. split; [exact H1|split; [exact H2|]]. exact (proj1 (H3 0 0 16)%nat).
Defined.
