(* ===== verification/ExperimentCollect.v ===== *)
(** * Collecting a corpus ([examples/hardware_multimodal_experiment.py]: [collect])

    The loop over the plan, with its bounded retries and its books: every
    attempt is an admission or a rejection with a reason, every entry is of the
    execution it was planned for. What the target of each attempt does and the
    machine it runs on are arguments, as are the C library's functions; the
    timing of the phases is left out, and [ExperimentCustody] adds the sealing
    of the raw and derived tensors in files. *)

From S2P Require Import Prelude Monad Batch HardwareDecode HardwareConfig HardwareHost HardwareMultimodal Floats ModelBatch Features ExperimentCapture ExperimentPlan ExperimentAdmission.

(** ** One attempt *)

Section collect.
Context (log1p : float -> float) (pow : float -> Z -> float) (sum : list float -> float).
Context (target_cpu data_pages aux_pages loop_scale : Z) (capture_retries : nat).
(** The machine and the target of the [n]-th attempt. *)
Context (attempts : nat -> machine * child).

Record admitted := MkAdmitted {
  ad_captured : CapturedExecution;
  ad_batch : ModelBatch;
  ad_lanes : list HardwareLaneReport;
  ad_lane_counts : lane_counts;
}.

(** The body of the [try]. *)
Definition try_execution (n : nat) : res capture_exn admitted :=
  let '(m, p) := attempts n in
  let! captured := (capture_execution m target_cpu data_pages aux_pages p
    (MkScene false false false false (MkMulti [] false false 0 0 new_host))).2 in
  let! features := plain (featurize_hardware_capture log1p pow sum (cx_batches captured)) in
  let! lane_totals := _validate_lanes (hf_lanes features) target_cpu (cx_target_affinity captured) in
  Ok (MkAdmitted captured (hf_batch features) (hf_lanes features) lane_totals).

(** ** The books *)

(** Tokens of one kind for each modality. *)
Record per_modality := MkPer { per_pt : Z; per_pebs : Z; per_pmu : Z }.

Record collected := MkCollected {
  co_execution : PlannedExecution;
  co_loops : Z;
  co_admitted : admitted;
  co_reason : string;
  co_attempt : nat;
}.

Record books := MkBooks {
  bk_total_attempts : nat;
  bk_rejected : list (string * Z);
  bk_admitted : list (string * Z);
  bk_total_pt_bytes : Z;
  bk_total_pebs_samples : Z;
  bk_missing : per_modality;
  bk_censored : per_modality;
  bk_entries : list collected;
}.
Definition new_books : books := MkBooks 0 [] [] 0 0 (MkPer 0 0 0) (MkPer 0 0 0) [].

(** [counter[key] += 1] *)
Definition increment (key : string) (d : list (string * Z)) : list (string * Z) :=
  od_set key (default 0 (od_get key d) + 1) d.

Definition count_attempt (b : books) : books :=
  MkBooks (S (bk_total_attempts b)) (bk_rejected b) (bk_admitted b) (bk_total_pt_bytes b)
    (bk_total_pebs_samples b) (bk_missing b) (bk_censored b) (bk_entries b).
Definition reject_attempt (e : capture_exn) (b : books) : books :=
  MkBooks (bk_total_attempts b) (increment (_rejection_reason e) (bk_rejected b)) (bk_admitted b)
    (bk_total_pt_bytes b) (bk_total_pebs_samples b) (bk_missing b) (bk_censored b) (bk_entries b).

Definition admission_reason (a : admitted) : string :=
  if ct_pebs_samples (cx_counts (ad_captured a)) =? 0 then "zero_pebs_with_exact_affinity" else "sampled_pebs".

Definition modality_missing (g : grid bool) : Z := flag (negb (existsb id (flat g))).
Definition censored (g : grid bool) : Z := tally negb (flat g).
Definition add_per (f : grid bool -> Z) (m : ModelBatch) (x : per_modality) : per_modality :=
  MkPer (per_pt x + f (mo_pt_available m)) (per_pebs x + f (mo_pebs_available m)) (per_pmu x + f (mo_pmu_available m)).

Definition admit_execution (e : PlannedExecution) (loops : Z) (a : admitted) (attempt : nat) (b : books) : books :=
  let reason := admission_reason a in
  let totals := cx_counts (ad_captured a) in
  MkBooks (bk_total_attempts b) (bk_rejected b) (increment reason (bk_admitted b))
    (bk_total_pt_bytes b + ct_pt_bytes totals) (bk_total_pebs_samples b + ct_pebs_samples totals)
    (add_per modality_missing (ad_batch a) (bk_missing b)) (add_per censored (ad_batch a) (bk_censored b))
    (bk_entries b ++ [MkCollected e loops a reason (attempt + 1)]).

(** ** The loops *)

Notation M := (sx books capture_exn).

(** [for attempt in range(retries + 1)], from [attempt] with [remaining] to go. *)
Fixpoint attempt_loop (remaining attempt : nat) : M (admitted * nat) :=
  match remaining with
  | O => sraise (Plain (Exn RuntimeError "unreachable: the last attempt raises"))
  | S remaining =>
      do! n := sgets bk_total_attempts in
      run! smodify count_attempt in
      match try_execution n with
      | Ok a => sret (a, attempt)
      | Raise e =>
          if rejects e then
            run! smodify (reject_attempt e) in
            if (attempt =? capture_retries)%nat then sraise e else attempt_loop remaining (S attempt)
          else sraise e
      end
  end.

Definition collect_execution (e : PlannedExecution) : M unit :=
  do! per_loop := slift (plain (match od_get (pe_family e) WORKLOAD_LOOPS with
                                | Some n => Ok n
                                | None => throw KeyError "family"
                                end)) in
  do! (a, attempt) := attempt_loop (S capture_retries) 0 in
  smodify (admit_execution e (per_loop * loop_scale) a attempt).

Definition collect_plan (plan : list PlannedExecution) : M unit := seach collect_execution plan.

(** [loss_count] of the manifest. *)
Definition loss_count (b : books) : Z :=
  default 0 (od_get "hardware_trace_lost" (bk_rejected b)) + default 0 (od_get "source_reported_loss" (bk_rejected b)).

(** ** What the books should say *)

(** The attempts in order, and what each of them is worth. *)
Definition attempt_outcomes (n : nat) : list (res capture_exn admitted) := try_execution <$> seq 0 n.
Definition success (r : res capture_exn admitted) : option admitted :=
  match r with Ok a => Some a | Raise _ => None end.
Definition rejection (r : res capture_exn admitted) : option string :=
  match r with Ok _ => None | Raise e => if rejects e then Some (_rejection_reason e) else None end.
Definition tally_up (keys : list string) : list (string * Z) := fold_left (fun d k => increment k d) keys [].

Definition per_total (f : grid bool -> Z) (es : list collected) : per_modality :=
  MkPer (zsum (fun e => f (mo_pt_available (ad_batch (co_admitted e)))) es)
    (zsum (fun e => f (mo_pebs_available (ad_batch (co_admitted e)))) es)
    (zsum (fun e => f (mo_pmu_available (ad_batch (co_admitted e)))) es).

Definition entry_ok (c : collected) : Prop :=
  (1 <= co_attempt c <= S capture_retries)%nat /\ co_reason c = admission_reason (co_admitted c) /\
  exists per_loop, od_get (pe_family (co_execution c)) WORKLOAD_LOOPS = Some per_loop /\
    co_loops c = per_loop * loop_scale.

(** What the entries determine. *)
Definition entries_booked (b : books) : Prop :=
  bk_admitted b = tally_up (co_reason <$> bk_entries b) /\
  bk_total_pt_bytes b = zsum (fun e => ct_pt_bytes (cx_counts (ad_captured (co_admitted e)))) (bk_entries b) /\
  bk_total_pebs_samples b = zsum (fun e => ct_pebs_samples (cx_counts (ad_captured (co_admitted e)))) (bk_entries b) /\
  bk_missing b = per_total modality_missing (bk_entries b) /\ bk_censored b = per_total censored (bk_entries b) /\
  Forall entry_ok (bk_entries b).

(** The books after all the attempts made: [pending] of them are of an execution without an entry. *)
Definition ledger (pending : nat) (b : books) : Prop :=
  bk_total_attempts b = (sum_list (co_attempt <$> bk_entries b) + pending)%nat /\
  bk_rejected b = tally_up (omap rejection (attempt_outcomes (bk_total_attempts b))) /\
  co_admitted <$> bk_entries b = omap success (attempt_outcomes (bk_total_attempts b)) /\
  entries_booked b.

(** ** The books are right *)

Lemma outcomes_S n : attempt_outcomes (S n) = attempt_outcomes n ++ [try_execution n].
Proof. unfold attempt_outcomes. by rewrite seq_S, fmap_app. Qed.
Lemma tally_up_snoc keys k : tally_up (keys ++ [k]) = increment k (tally_up keys).
Proof. unfold tally_up. by rewrite fold_left_app. Qed.
Lemma per_total_snoc f es e loops a reason attempt :
  per_total f (es ++ [MkCollected e loops a reason attempt]) = add_per f (ad_batch a) (per_total f es).
Proof. unfold per_total, add_per. rewrite !zsum_app, !zsum_cons. simpl. f_equal; unfold zsum; simpl; lia. Qed.

(** The books with [n] more attempts, and the rejections of all the attempts so far. *)
Definition booked (n : nat) (b : books) : books :=
  MkBooks (bk_total_attempts b + n) (tally_up (omap rejection (attempt_outcomes (bk_total_attempts b + n))))
    (bk_admitted b) (bk_total_pt_bytes b) (bk_total_pebs_samples b) (bk_missing b) (bk_censored b) (bk_entries b).
Definition rejections_booked (b : books) : Prop :=
  bk_rejected b = tally_up (omap rejection (attempt_outcomes (bk_total_attempts b))).

(** The [d] attempts from the [n]-th are rejected. *)
Definition rejected_run (n d : nat) : Prop :=
  forall i, (i < d)%nat -> exists e, try_execution (n + i) = Raise e /\ rejects e = true.

Lemma count_booked b : rejections_booked b -> rejection (try_execution (bk_total_attempts b)) = None ->
  count_attempt b = booked 1 b.
Proof.
  intros Hb Hn. unfold booked, count_attempt. rewrite Nat.add_1_r, outcomes_S, omap_app. simpl.
  rewrite Hn, app_nil_r. by rewrite <- Hb.
Qed.
Lemma reject_booked b e : rejections_booked b -> try_execution (bk_total_attempts b) = Raise e -> rejects e = true ->
  reject_attempt e (count_attempt b) = booked 1 b.
Proof.
  intros Hb Ht Hr. unfold booked, reject_attempt, count_attempt. rewrite Nat.add_1_r, outcomes_S, omap_app. simpl.
  rewrite Ht. simpl. rewrite Hr, tally_up_snoc. by rewrite <- Hb.
Qed.
Lemma booked_booked n k b : booked k (booked n b) = booked (n + k) b.
Proof. unfold booked. simpl. by rewrite Nat.add_assoc. Qed.

Lemma rejected_run_cons n d e : try_execution n = Raise e -> rejects e = true ->
  rejected_run (S n) d -> rejected_run n (S d).
Proof.
  intros Ht Hr Hd [|i] Hi; [rewrite Nat.add_0_r; eauto|].
  replace (n + S i)%nat with (S n + i)%nat by lia. apply Hd. lia.
Qed.

Lemma attempt_loop_wp remaining attempt b : (attempt + S remaining = S capture_retries)%nat ->
  rejections_booked b ->
  wp (attempt_loop (S remaining) attempt)
    (fun p b' => exists d, rejected_run (bk_total_attempts b) d /\ (d <= remaining)%nat /\
       try_execution (bk_total_attempts b + d) = Ok p.1 /\ p.2 = (attempt + d)%nat /\ b' = booked (S d) b)
    (fun e b' => exists d, rejected_run (bk_total_attempts b) d /\ (d <= remaining)%nat /\
       try_execution (bk_total_attempts b + d) = Raise e /\ (rejects e = true -> d = remaining) /\
       b' = booked (S d) b) b.
Proof.
  revert attempt b. induction remaining as [|remaining IH]; intros attempt b Ha Hb; cbn [attempt_loop];
    apply wp_bind, wp_gets, wp_bind, wp_modify;
    destruct (try_execution (bk_total_attempts b)) as [a|e] eqn:Ht.
  1,3: apply wp_ret; exists 0%nat; rewrite Nat.add_0_r; split_and!; [intros ? ?; lia|lia|done|simpl; lia|];
    apply count_booked; [done|by rewrite Ht].
  all: apply wp_if; intros Hr; [apply wp_bind, wp_modify|].
  2,4: apply wp_raise; exists 0%nat; rewrite Nat.add_0_r; split_and!; [intros ? ?; lia|lia|done|by rewrite Hr|];
    apply count_booked; [done|rewrite Ht; simpl; by rewrite Hr].
  - replace (attempt =? capture_retries)%nat with true by (symmetry; apply Nat.eqb_eq; lia).
    apply wp_raise. exists 0%nat. rewrite Nat.add_0_r. split_and!; [intros ? ?; lia|lia|done|done|].
    by apply reject_booked.
  - replace (attempt =? capture_retries)%nat with false by (symmetry; apply Nat.eqb_neq; lia).
    rewrite (reject_booked b e Hb Ht Hr). pose proof (Nat.add_1_r (bk_total_attempts b)) as H1.
    assert (Hrun : forall d, rejected_run (bk_total_attempts (booked 1 b)) d -> rejected_run (bk_total_attempts b) (S d)).
    { intros d. simpl. rewrite H1. by eapply rejected_run_cons. }
    eapply wp_mono; [apply (IH (S attempt) (booked 1 b)); [lia|done]|..].
    + intros [a k] b' (d & Hd & Hle & Hok & Hk & ->). exists (S d). simpl in *. rewrite H1 in Hok.
      rewrite <- Nat.add_succ_comm. split_and!; [by apply Hrun|lia|done|lia|]. by rewrite booked_booked.
    + intros e' b' (d & Hd & Hle & Hok & Hk & ->). exists (S d). simpl in *. rewrite H1 in Hok.
      rewrite <- Nat.add_succ_comm. split_and!; [by apply Hrun|lia|done| |by rewrite booked_booked].
      intros He. by rewrite (Hk He).
Qed.

(** A run of rejections adds no success. *)
Lemma successes_run n d : rejected_run n d -> omap success (attempt_outcomes (n + d)) = omap success (attempt_outcomes n).
Proof.
  induction d as [|d IH]; intros Hd; [by rewrite Nat.add_0_r|].
  rewrite Nat.add_succ_r, outcomes_S, omap_app. destruct (Hd d) as (e & -> & _); [lia|]. simpl.
  rewrite app_nil_r. apply IH. intros i Hi. apply Hd. lia.
Qed.

(** An execution that raises: all its attempts were rejected, or one failed otherwise. *)
Definition gave_up (e : capture_exn) (b : books) : Prop :=
  exists n pending, bk_total_attempts b = (n + pending)%nat /\ ledger pending b /\ (1 <= pending <= S capture_retries)%nat /\
    try_execution (n + (pending - 1)) = Raise e /\ rejected_run n (pending - 1) /\
    (rejects e = true -> pending = S capture_retries).

Lemma collect_execution_wp e b : workload (pe_family e) -> ledger 0 b ->
  wp (collect_execution e)
    (fun _ b' => ledger 0 b' /\ co_execution <$> bk_entries b' = (co_execution <$> bk_entries b) ++ [e])
    (fun x b' => gave_up x b' /\ bk_entries b' = bk_entries b) b.
Proof.
  unfold workload. intros Hw (Hn & Hj & Hs & Hadm & Hby & Hsm & Hmi & Hce & Hes). unfold collect_execution.
  destruct (od_get (pe_family e) WORKLOAD_LOOPS) as [per_loop|] eqn:Hper; [|done].
  apply wp_bind, wp_lift; [intros ? [= <-]|done]. apply wp_bind.
  eapply wp_mono; [apply attempt_loop_wp; [lia|done]|..].
  - intros [a attempt] b' (d & Hd & Hle & Hok & Hat & ->). simpl in Hok, Hat. apply wp_modify. split.
    2:{ simpl. by rewrite fmap_app. }
    unfold ledger, entries_booked. split_and!; simpl.
    + rewrite fmap_app, sum_list_with_app. simpl. lia.
    + done.
    + rewrite fmap_app, (Nat.add_succ_r _ d), outcomes_S, omap_app, Hok, Hs, successes_run by done. done.
    + rewrite fmap_app, Hadm. simpl. by rewrite tally_up_snoc.
    + rewrite zsum_app, Hby. unfold zsum. simpl. lia.
    + rewrite zsum_app, Hsm. unfold zsum. simpl. lia.
    + by rewrite per_total_snoc, Hmi.
    + by rewrite per_total_snoc, Hce.
    + apply Forall_app; split; [done|]. apply Forall_singleton. split_and!; simpl; [lia..|done|eauto].
  - intros x b' (d & Hd & Hle & Hr & Hlast & ->). split; [|done]. exists (bk_total_attempts b), (S d). simpl.
    rewrite Nat.sub_0_r. split_and!; try done; try lia.
    + split_and!; simpl; try done; [lia|]. rewrite (Nat.add_succ_r _ d), outcomes_S, omap_app, Hr, successes_run by done.
      simpl. by rewrite app_nil_r.
    + intros Hx. by rewrite Hlast.
Qed.

Lemma collect_plan_wp plan : forall b, Forall (fun e => workload (pe_family e)) plan -> ledger 0 b ->
  wp (collect_plan plan)
    (fun _ b' => ledger 0 b' /\ co_execution <$> bk_entries b' = (co_execution <$> bk_entries b) ++ plan)
    (fun x b' => gave_up x b' /\ exists first e rest, plan = first ++ e :: rest /\
       co_execution <$> bk_entries b' = (co_execution <$> bk_entries b) ++ first) b.
Proof.
  induction plan as [|e plan IH]; intros b Hw Hl; cbn [collect_plan seach].
  - apply wp_ret. by rewrite app_nil_r.
  - apply Forall_cons in Hw as [He Hw]. apply wp_bind. eapply wp_mono; [by apply collect_execution_wp|..].
    + intros _ b1 [Hl1 Hen]. eapply wp_mono; [by apply IH|..].
      * intros _ b' [Hl' Hen']. split; [done|]. by rewrite Hen', Hen, <- app_assoc.
      * intros x b' (Hg & first & e' & rest & -> & Hen'). split; [done|]. exists (e :: first), e', rest.
        split; [done|]. by rewrite Hen', Hen, <- app_assoc.
    + intros x b' [Hg Hen]. split; [done|]. exists [], e, plan. split; [done|]. by rewrite Hen, app_nil_r.
Qed.

Lemma new_ledger : ledger 0 new_books.
Proof. by split_and!. Qed.
End collect.


(** Two executions in three attempts: the first target runs on the wrong CPU. *)
Definition example_attempts (n : nat) : machine * child :=
  (traced_machine, gated_target (if (n =? 0)%nat then [2] else [3])).
Definition example_plan : list PlannedExecution :=
  [MkPlanned (execution_id "fork" 1) "fork" 1 "training";
   MkPlanned (execution_id "pipe" 0) "pipe" 0 "calibration"].
Notation example_collection := (collect_plan id (fun x _ => x) (fun l => default zero (head l))
  3 1 1 2 1 example_attempts example_plan new_books).

