(* ===== verification/TraceSketch.v ===== *)
(** * Raw trace sketches ([examples/hardware_triage.py], [native/python/module.cpp])

    A sketch maps a batch of concatenated raw traces to one row of byte
    frequencies per segment, hashed frequencies of adjacent bytes, and a length.
    The Python code has two implementations: batched torch operations, and a
    loop per trace in the native module. Both are here, on 64-bit integers and
    binary32 counters. The C library's [log1p] is an argument in both formats. *)

From Stdlib Require SpecFloat.
From S2P Require Import Prelude Batch Floats Features.

(** ** The configuration *)

Record RawTraceSketchConfig := MkSketch {
  sk_segments : Z;
  sk_pair_bins : Z;
  sk_include_length : bool;
}.

(** [__post_init__]; that [include_length] is a boolean is its type. *)
Definition check_sketch_config (c : RawTraceSketchConfig) : result unit :=
  raise! ValueError "segments must be positive" when sk_segments c <=? 0 in
  raise! ValueError "pair_bins must be zero or a positive power of two"
    when (sk_pair_bins c <? 0) ||
         (negb (sk_pair_bins c =? 0) && negb (Z.land (sk_pair_bins c) (sk_pair_bins c - 1) =? 0)) in
  Ok tt.

Definition feature_dimensions (c : RawTraceSketchConfig) : Z :=
  sk_segments c * 256 + sk_pair_bins c + Z.b2z (sk_include_length c).

(** ** Packing *)

(** [lengths.cumsum(0)], from [acc]. *)
Fixpoint cumsum (acc : Z) (l : list Z) : list Z :=
  match l with
  | [] => []
  | x :: l => (acc + x) :: cumsum (acc + x) l
  end.

Definition pack_raw_traces (rows : list tensor) : result (tensor * tensor) :=
  raise! ValueError "traces must be nonempty one-dimensional uint8 tensors"
    when match rows with [] => true | _ => false end ||
         existsb (fun r => negb (bool_decide (t_dtype r = uint8)) || negb (length (t_shape r) =? 1)%nat) rows in
  raise! ValueError "hardware traces must not be empty" when existsb (fun r => numel r =? 0)%nat rows in
  let d := match rows with r :: _ => t_device r | [] => cpu end in
  raise! ValueError "all traces must be on one device"
    when existsb (fun r => negb (bool_decide (t_device r = d))) rows in
  let offsets := 0 :: cumsum 0 ((fun r => Z.of_nat (numel r)) <$> rows) in
  Ok (Tensor uint8 d [sum_list (numel <$> rows)] (concat (t_data <$> rows)),
      Tensor int64 d [length offsets] offsets).

(** ** Tensor operations *)

(** The value of 64-bit integer arithmetic. *)
Definition int64_value (z : Z) : Z := signed 64 (wrap 64 z).
Definition arange (n : nat) : list Z := Z.of_nat <$> seq 0 n.

(** [torch.repeat_interleave(values, counts)] *)
Definition repeat_interleave {A} (values : list A) (counts : list Z) : list A :=
  concat (zip_with (fun v n => replicate (Z.to_nat n) v) values counts).

Definition torch_bincount (values : list Z) (minlength : nat) : result (list Z) :=
  raise! RuntimeError "bincount only supports non-negative integral inputs" when existsb (fun v => v <? 0) values in
  Ok (bincount values minlength).

(** [values.reshape(rows, columns)] *)
Fixpoint chunk_rows {A} (rows columns : nat) (l : list A) : list (list A) :=
  match rows with
  | O => []
  | S rows => take columns l :: chunk_rows rows columns (drop columns l)
  end.
Definition reshape {A} (rows columns : nat) (l : list A) : result (list (list A)) :=
  raise! RuntimeError "shape is invalid for the input size" when negb (length l =? rows * columns)%nat in
  Ok (chunk_rows rows columns l).

(** [values[mask]] and [torch.nonzero(mask).flatten()], from index [i]. *)
Definition select {A} (mask : list bool) (values : list A) : list A :=
  fmap snd (filter (fun p => p.1 = true) (zip mask values)).
Fixpoint nonzero_from (i : nat) (mask : list bool) : list nat :=
  match mask with
  | [] => []
  | b :: mask => (if b then [i] else []) ++ nonzero_from (S i) mask
  end.
(** [values[indices]] *)
Definition gather {A} (values : list A) (indices : list nat) : result (list A) :=
  rmap (fun i => match values !! i with Some v => Ok v | None => throw IndexError "index out of range" end) indices.

(** binary32 arithmetic *)
Definition fadd32 (a b : float) : float := SpecFloat.SFadd 24 128 a b.
Definition fdiv32 (a b : float) : float := SpecFloat.SFdiv 24 128 a b.

(** ** The torch implementation *)

Definition pair_hash (c : RawTraceSketchConfig) (current next : Z) : Z :=
  let key := Z.lor (Z.shiftl current 8) next in
  Z.land (Z.lxor (Z.lxor key (Z.shiftr key 7)) (Z.shiftr key 3)) (sk_pair_bins c - 1).

Section sketch.
Context (log1p32 log1p : float -> float).

Definition torch_segment (c : RawTraceSketchConfig) (position length : Z) : Z :=
  Z.min (int64_value (position * sk_segments c) / length) (sk_segments c - 1).

Section torch.
Context (c : RawTraceSketchConfig) (bytes offsets : list Z).
Notation D := (feature_dimensions c).
Notation B := (sk_segments c * 256).

Definition sketch_lengths : list Z := zip_with (fun next start => int64_value (next - start)) (tail offsets) (removelast offsets).
Notation batch := (length sketch_lengths).

Definition trace_index : list Z := repeat_interleave (arange batch) sketch_lengths.
Definition trace_positions : list Z :=
  zip_with Z.sub (arange (length bytes)) (repeat_interleave (removelast offsets) sketch_lengths).
Definition repeated_lengths : list Z := repeat_interleave sketch_lengths sketch_lengths.
Definition segment_of : list Z := zip_with (torch_segment c) trace_positions repeated_lengths.

(** [torch.bincount(bins, minlength=batch * columns).reshape(batch, columns)] *)
Definition binned (columns : Z) (bins : list Z) : result (list (list Z)) :=
  let! counts := torch_bincount bins (batch * Z.to_nat columns) in
  reshape batch (Z.to_nat columns) counts.

(** The histogram of one trace as frequencies within each segment of [ns] bytes. *)
Definition normalize_bytes (row ns : list Z) : list float :=
  let features := float32_of_int <$> row in
  let counts := (fun n => float32_of_int (Z.max 1 n)) <$> ns in
  zip_with fdiv32 (take (Z.to_nat B) features) (concat (replicate 256 <$> counts)) ++ drop (Z.to_nat B) features.

Definition byte_features : result (list (list float)) :=
  let! features := binned D
    (zip_with (fun base byte => int64_value (base + byte))
       (zip_with (fun i s => i * D + s * 256) trace_index segment_of) bytes) in
  let! counts := binned (sk_segments c) (zip_with (fun i s => int64_value (i * sk_segments c + s)) trace_index segment_of) in
  Ok (zip_with normalize_bytes features counts).

Definition pair_mask : list bool := zip_with (fun p n => p + 1 <? n) trace_positions repeated_lengths.

(** [features += pairs], and the mean over the pairs of a trace of [n] bytes. *)
Definition add_pair_row (row : list float) (pairs : list Z) : list float :=
  zip_with fadd32 row (float32_of_int <$> pairs).
Definition mean_pair_row (row : list float) (n : Z) : list float :=
  let mean x := fdiv32 x (float32_of_int (Z.max 1 (n - 1))) in
  take (Z.to_nat B) row ++ (mean <$> take (Z.to_nat (sk_pair_bins c)) (drop (Z.to_nat B) row)) ++
  drop (Z.to_nat B + Z.to_nat (sk_pair_bins c)) row.

Definition add_pairs (features : list (list float)) : result (list (list float)) :=
  let! next := gather bytes (S <$> nonzero_from 0 pair_mask) in
  let hashes := zip_with (pair_hash c) (select pair_mask bytes) next in
  let! pairs := binned D
    (zip_with (fun i h => int64_value (i * D + B + h)) (select pair_mask trace_index) hashes) in
  Ok (zip_with mean_pair_row (zip_with add_pair_row features pairs) sketch_lengths).

Definition torch_length (n : Z) : float := fdiv32 (log1p32 (float32_of_int n)) (float32_of_int 16).

Definition torch_sketch : result (list (list float)) :=
  let! features := byte_features in
  let! features := if sk_pair_bins c =? 0 then Ok features else add_pairs features in
  Ok (if sk_include_length c then
        zip_with (fun row n => <[Z.to_nat (B + sk_pair_bins c) := torch_length n]> row) features sketch_lengths
      else features).
End torch.

(** ** The native implementation *)

Definition one32 : float := float32_of_int 1.
Definition bump (j : Z) (features : list float) : list float :=
  alter (fun x => fadd32 x one32) (Z.to_nat j) features.
Definition native_length (n : Z) : float := float32 (fdiv (log1p (float_of_int n)) (float_of_int 16)).

Section native.
(** The dimensions as [unsigned int]s. *)
Context (c : RawTraceSketchConfig).
Notation B := (sk_segments c * 256).

(** The counting loop over the positions of one trace. *)
Definition native_count (trace : list Z) (features : list float) (position : nat) : list float :=
  let n := Z.of_nat (length trace) in
  let byte := default 0 (trace !! position) in
  let features := bump (wrap 64 (Z.of_nat position * sk_segments c) / n * 256 + byte) features in
  if negb (sk_pair_bins c =? 0) && (Z.of_nat position + 1 <? n)
  then bump (B + pair_hash c byte (default 0 (trace !! S position))) features
  else features.

(** One segment: the sum of its counters, and the division by it. *)
Definition native_normalize (features : list float) (segment : nat) : list float :=
  let total := fold_left (fun a v => fadd32 a (default zero (features !! (segment * 256 + v)%nat))) (seq 0 256) zero in
  let total := if SpecFloat.SFeqb total zero then one32 else total in
  fold_left (fun features v => alter (fun x => fdiv32 x total) (segment * 256 + v)%nat features) (seq 0 256) features.

Definition native_row (trace : list Z) : list float :=
  let n := Z.of_nat (length trace) in
  let features := fold_left (native_count trace) (seq 0 (length trace))
    (replicate (Z.to_nat (feature_dimensions c)) zero) in
  let features := fold_left native_normalize (seq 0 (Z.to_nat (sk_segments c))) features in
  let features :=
    if sk_pair_bins c =? 0 then features
    else fold_left (fun features index =>
           alter (fun x => fdiv32 x (float32_of_int (if 1 <? n then n - 1 else 1)))
             (Z.to_nat B + index)%nat features)
         (seq 0 (Z.to_nat (sk_pair_bins c))) features in
  if sk_include_length c
  then <[(Z.to_nat (feature_dimensions c) - 1)%nat := native_length n]> features
  else features.

(** The offsets as [uint64_t]s, checked in order; the rows they cut. *)
Fixpoint native_offsets (size previous : Z) (rest : list Z) : result unit :=
  match rest with
  | [] => raise! ValueError "Raw trace offsets do not cover the byte buffer" when negb (previous =? size) in Ok tt
  | next :: rest =>
      raise! ValueError "Raw trace offsets must be ordered and nonempty" when (next <=? previous) || (size <? next) in
      native_offsets size next rest
  end.
Fixpoint native_rows (bytes : list Z) (offsets : list Z) : list (list float) :=
  match offsets with
  | start :: (next :: _) as rest =>
      native_row (take (Z.to_nat (next - start)) (drop (Z.to_nat start) bytes)) :: native_rows bytes rest
  | _ => []
  end.
End native.

Definition native_sketch (c : RawTraceSketchConfig) (bytes offsets : list Z) : result (list (list float)) :=
  let c := MkSketch (wrap 32 (sk_segments c)) (wrap 32 (sk_pair_bins c)) (sk_include_length c) in
  let offsets := wrap 64 <$> offsets in
  let rows := Z.of_nat (length offsets) - 1 in
  raise! ValueError "Invalid raw trace sketch buffers or dimensions"
    when (sk_segments c =? 0) ||
         (negb (sk_pair_bins c =? 0) && negb (Z.land (sk_pair_bins c) (sk_pair_bins c - 1) =? 0)) ||
         (length offsets <? 2)%nat in
  raise! OverflowError "Raw trace sketch dimensions overflow"
    when (2 ^ 64 - 1 - sk_pair_bins c - 1) / 256 <? sk_segments c in
  raise! OverflowError "Raw trace sketch output is too large"
    when (2 ^ 63 - 1) / feature_dimensions c / 4 <? rows in
  match offsets with
  | [] => Ok []
  | first :: rest =>
      raise! ValueError "Raw trace offsets must start at zero" when negb (first =? 0) in
      let! _ := native_offsets (Z.of_nat (length bytes)) first rest in
      Ok (native_rows c bytes offsets)
  end.

(** ** The entry point *)

(** [use_native]: the module is there and the bytes are contiguous. *)
Definition raw_trace_sketch (use_native : bool) (trace_bytes offsets : tensor) (c : RawTraceSketchConfig) :
    result (list (list float)) :=
  raise! ValueError "trace_bytes must be a one-dimensional uint8 tensor"
    when negb (bool_decide (t_dtype trace_bytes = uint8)) || negb (length (t_shape trace_bytes) =? 1)%nat in
  raise! ValueError "offsets must be a one-dimensional int64 prefix sum"
    when negb (bool_decide (t_dtype offsets = int64)) || negb (length (t_shape offsets) =? 1)%nat ||
         (numel offsets <? 2)%nat in
  raise! ValueError "trace bytes and offsets must be on one device"
    when negb (bool_decide (t_device offsets = t_device trace_bytes)) in
  let o := t_data offsets in
  raise! ValueError "offsets must cover every trace byte exactly"
    when negb (default 0 (head o) =? 0) || negb (default 0 (last o) =? Z.of_nat (numel trace_bytes)) in
  let lengths := sketch_lengths o in
  raise! ValueError "offsets must describe nonempty traces in order"
    when existsb (fun n => n <=? 0) lengths || existsb (fun p => p.1 <? p.2) (zip (tail o) (removelast o)) in
  if use_native && bool_decide (t_device trace_bytes = cpu) then
    let! rows := native_sketch c (t_data trace_bytes) o in
    reshape (length lengths) (Z.to_nat (feature_dimensions c)) (concat rows)
  else torch_sketch c (t_data trace_bytes) o.
End sketch.
