(* ===== verification/FloatExact.v ===== *)
(** * Exact binary32 counters

    Integers up to 2^24 are binary32 numbers and adding two of them is exact
    while the sum is one too: counters kept in floats count. *)

From Stdlib Require Import SpecFloat.
From S2P Require Import Prelude Floats TraceSketch.

Lemma digits_log2 p : Z.pos (digits2_pos p) = Z.log2 (Z.pos p) + 1.
Proof.
  induction p as [p IH|p IH|]; [| |done]; cbn [digits2_pos]; rewrite Pos2Z.inj_succ, IH.
  - rewrite Pos2Z.inj_xI, Z.log2_succ_double by lia. lia.
  - rewrite Pos2Z.inj_xO, Z.log2_double by lia. lia.
Qed.
Lemma Zdigits_log2 m : 0 < m -> Zdigits2 m = Z.log2 m + 1.
Proof. intros Hm. destruct m as [|p|p]; [lia| |lia]. apply digits_log2. Qed.

Lemma iter_xO p d : Z.pos (Pos.iter xO p d) = Z.pos p * 2 ^ Z.pos d.
Proof.
  induction d as [|d IH] using Pos.peano_ind; [simpl; lia|].
  rewrite Pos.iter_succ, Pos2Z.inj_xO, IH, Pos2Z.inj_succ, Z.pow_succ_r by lia. lia.
Qed.

(** Shifting zeros out of a mantissa is exact. *)
Lemma shr_1_even m : 0 < m -> shr_1 (Build_shr_record (2 * m) false false) = Build_shr_record m false false.
Proof. intros Hm. by destruct m. Qed.
Lemma iter_pos_shift {A} (f : A -> A) n x : SpecFloat.iter_pos f n (f x) = f (SpecFloat.iter_pos f n x).
Proof. revert x. induction n as [n IH|n IH|]; intros x; cbn [SpecFloat.iter_pos]; by rewrite ?IH. Qed.
Lemma iter_pos_succ {A} (f : A -> A) n x : SpecFloat.iter_pos f (Pos.succ n) x = SpecFloat.iter_pos f n (f x).
Proof.
  revert x. induction n as [n IH|n IH|]; intros x; cbn [SpecFloat.iter_pos Pos.succ]; [|done|done].
  change (Pos.succ n~1) with ((Pos.succ n)~0)%positive. cbn [SpecFloat.iter_pos]. by rewrite !IH, <- (iter_pos_shift f n (f x)).
Qed.
Lemma shr_zeros p m : 0 < m ->
  SpecFloat.iter_pos shr_1 p (Build_shr_record (m * 2 ^ Z.pos p) false false) = Build_shr_record m false false.
Proof.
  intros Hm. induction p as [|p IH] using Pos.peano_ind.
  - change (2 ^ 1) with 2. rewrite Z.mul_comm. by apply shr_1_even.
  - rewrite iter_pos_succ, Pos2Z.inj_succ, Z.pow_succ_r by lia.
    replace (m * (2 * 2 ^ Z.pos p)) with (2 * (m * 2 ^ Z.pos p)) by lia. by rewrite shr_1_even by lia.
Qed.

(** A 24-bit mantissa followed by zeros is not rounded. *)
Lemma shr_fexp_exact m s e : 2 ^ 23 <= m < 2 ^ 24 -> 0 <= s -> -149 <= e + s ->
  shr_fexp 24 128 (m * 2 ^ s) e loc_Exact = (Build_shr_record m false false, e + s).
Proof.
  intros Hm Hs He. unfold shr_fexp, fexp, emin. rewrite Zdigits_log2 by nia.
  rewrite Z.log2_mul_pow2 by lia. rewrite (Z.log2_unique m 23) by lia.
  replace (Z.max (s + 23 + 1 + e - 24) (3 - 128 - 24) - e) with s by lia.
  destruct s as [|p|p]; [|simpl; f_equal; apply shr_zeros; lia|lia].
  rewrite Z.mul_1_r, Z.add_0_r. done.
Qed.
Lemma round_exact m s e : 2 ^ 23 <= m < 2 ^ 24 -> 0 <= s -> -149 <= e + s <= 104 ->
  binary_round_aux 24 128 false (m * 2 ^ s) e loc_Exact = S754_finite false (Z.to_pos m) (e + s).
Proof.
  intros Hm Hs He. unfold binary_round_aux. rewrite shr_fexp_exact by lia. cbn [shr_m loc_of_shr_record round_nearest_even].
  pose proof (shr_fexp_exact m 0 (e + s)) as H2. rewrite Z.mul_1_r, Z.add_0_r in H2. rewrite H2 by lia. cbn [shr_m].
  destruct m as [|p|p]; [lia| |lia]. by replace (e + s <=? 128 - 24) with true by (symmetry; apply Z.leb_le; lia).
Qed.

(** Both ways to a normal number: padding a short mantissa, dropping zeros. *)
Definition canonical (z : Z) : float := S754_finite false (Z.to_pos (z * 2 ^ (23 - Z.log2 z))) (Z.log2 z - 23).

Lemma canonical_bounds z : 0 < z < 2 ^ 24 -> 2 ^ 23 <= z * 2 ^ (23 - Z.log2 z) < 2 ^ 24 /\ 0 <= Z.log2 z <= 23.
Proof.
  intros Hz. pose proof (Z.log2_spec z) as [H1 H2]; [lia|]. pose proof (Z.log2_nonneg z).
  assert (Z.log2 z < 24) by (apply Z.log2_lt_pow2; lia). split; [|lia].
  assert (0 < 2 ^ (23 - Z.log2 z)) by lia.
  replace (2 ^ 23) with (2 ^ Z.log2 z * 2 ^ (23 - Z.log2 z)) by (rewrite <- Z.pow_add_r by lia; f_equal; lia).
  replace (2 ^ 24) with (2 ^ Z.succ (Z.log2 z) * 2 ^ (23 - Z.log2 z)) by (rewrite <- Z.pow_add_r by lia; f_equal; lia).
  nia.
Qed.

Lemma normalize_short z : 0 < z < 2 ^ 24 -> float32_of_int z = canonical z.
Proof.
  intros Hz. destruct (canonical_bounds z Hz) as [Hm Hl]. unfold float32_of_int, binary_normalize.
  destruct z as [|p|p]; [lia| |lia]. unfold binary_round, fexp, emin, shl_align.
  rewrite digits_log2. replace (Z.max (Z.log2 (Z.pos p) + 1 + 0 - 24) (3 - 128 - 24) - 0) with (Z.log2 (Z.pos p) - 23) by lia.
  destruct (Z.log2 (Z.pos p) - 23) as [|d|d] eqn:Hd; [|lia|].
  - pose proof (round_exact (Z.pos p) 0 0) as H. rewrite Z.mul_1_r in H. unfold canonical.
    replace (23 - Z.log2 (Z.pos p)) with 0 in * by lia. rewrite Z.mul_1_r in *. rewrite Hd. apply H; lia.
  - replace (Z.max _ _) with (Z.neg d) by lia. unfold canonical. rewrite Hd.
    replace (23 - Z.log2 (Z.pos p)) with (Z.pos d) in * by lia. rewrite <- iter_xO in *.
    pose proof (round_exact (Z.pos (Pos.iter xO p d)) 0 (Z.neg d)) as H. rewrite Z.mul_1_r, Z.add_0_r in H.
    apply H; lia.
Qed.

Lemma normalize_long m s e : 2 ^ 23 <= m < 2 ^ 24 -> 0 <= s -> -149 <= e + s <= 104 ->
  binary_normalize 24 128 (m * 2 ^ s) e false = S754_finite false (Z.to_pos m) (e + s).
Proof.
  intros Hm Hs He. assert (0 < m * 2 ^ s) as Hp by nia.
  pose proof (round_exact m s e Hm Hs He) as H.
  assert (Hl : Z.log2 (m * 2 ^ s) = s + 23).
  { rewrite Z.log2_mul_pow2 by lia. f_equal. apply Z.log2_unique; lia. }
  destruct (m * 2 ^ s) as [|p|p] eqn:Hq; [lia| |lia]. simpl. unfold binary_round, shl_align, fexp, emin.
  rewrite digits_log2, Hl.
  replace (Z.max (s + 23 + 1 + e - 24) (3 - 128 - 24) - e) with s by lia. by destruct s.
Qed.

(** The mantissas [SFadd] aligns. *)
Lemma align_canonical z e : 0 < z < 2 ^ 24 -> e <= Z.log2 z - 23 ->
  Z.pos (shl_align (Z.to_pos (z * 2 ^ (23 - Z.log2 z))) (Z.log2 z - 23) e).1 = z * 2 ^ (- e).
Proof.
  intros Hz He. destruct (canonical_bounds z Hz) as [Hm Hl]. unfold shl_align.
  destruct (e - (Z.log2 z - 23)) as [|d|d] eqn:Hd; [|lia|]; simpl.
  - rewrite Z2Pos.id by lia. f_equal. f_equal. lia.
  - rewrite iter_xO, Z2Pos.id, <- Z.mul_assoc, <- Z.pow_add_r by lia. f_equal. f_equal. lia.
Qed.

Lemma fadd32_exact a b : 0 <= a -> 0 <= b -> a + b <= 2 ^ 24 ->
  fadd32 (float32_of_int a) (float32_of_int b) = float32_of_int (a + b).
Proof.
  intros Ha Hb Hab. destruct (decide (a = 0)) as [->|]; [destruct (decide (b = 0)) as [->|]; [done|]|].
  - destruct (decide (b = 2 ^ 24)) as [->|]; [done|]. rewrite Z.add_0_l, (normalize_short b) by lia. done.
  - destruct (decide (b = 0)) as [->|].
    { rewrite Z.add_0_r. destruct (decide (a = 2 ^ 24)) as [->|]; [done|]. rewrite normalize_short by lia. done. }
    rewrite (normalize_short a), (normalize_short b) by lia. unfold fadd32, canonical, SFadd.
    set (e := Z.min _ _). cbn [cond_Zopp].
    rewrite (align_canonical a), (align_canonical b) by lia. rewrite <- Z.mul_add_distr_r.
    destruct (canonical_bounds a) as [_ Hla]; [lia|]. destruct (canonical_bounds b) as [_ Hlb]; [lia|].
    assert (Hmono : Z.log2 a <= Z.log2 (a + b)) by (apply Z.log2_le_mono; lia).
    destruct (decide (a + b = 2 ^ 24)) as [Heq|].
    + rewrite Heq. replace (2 ^ 24 * 2 ^ - e) with (2 ^ 23 * 2 ^ (1 - e)).
      2:{ replace (1 - e) with (Z.succ (- e)) by lia. rewrite Z.pow_succ_r by lia. lia. }
      rewrite normalize_long by lia. replace (e + (1 - e)) with 1 by lia. done.
    + rewrite (normalize_short (a + b)) by lia. destruct (canonical_bounds (a + b)) as [Hm Hl]; [lia|].
      replace ((a + b) * 2 ^ - e) with ((a + b) * 2 ^ (23 - Z.log2 (a + b)) * 2 ^ (Z.log2 (a + b) - 23 - e)).
      2:{ rewrite <- Z.mul_assoc, <- Z.pow_add_r by lia. f_equal. f_equal. lia. }
      rewrite normalize_long by lia. unfold canonical. f_equal. lia.
Qed.

(** The counter that reaches 2^24 stays there. *)
Lemma counter_saturates : fadd32 (float32_of_int (2 ^ 24)) one32 = float32_of_int (2 ^ 24).
Proof. done. Qed.
