(* ===== verification/SketchTorch.v ===== *)
(** * The batched sketch is the sketch of each trace

    What a sketch should be, one trace at a time, and the proof that the torch
    implementation computes it for all the traces of a batch in one pass. *)

From Stdlib Require SpecFloat.
From S2P Require Import Prelude Batch Floats Features TraceSketch.

(** ** The sketch of one trace *)

Section reference.
Context (c : RawTraceSketchConfig).

Definition byte_at (t : list Z) (p : nat) : Z := default 0 (t !! p).
(** The segment of position [p] of [n]: [segments] parts as equal as can be. *)
Definition segment (n p : nat) : Z := Z.of_nat p * sk_segments c / Z.of_nat n.
(** The bytes of one segment, and the hashes of adjacent bytes. *)
Definition segment_values (t : list Z) (s : Z) : list Z :=
  byte_at t <$> filter (fun p => segment (length t) p = s) (seq 0 (length t)).
Definition hashes (t : list Z) : list Z :=
  (fun p => pair_hash c (byte_at t p) (byte_at t (S p))) <$> seq 0 (length t - 1).

Definition frequency (n total : Z) : float := fdiv32 (float32_of_int n) (float32_of_int (Z.max 1 total)).

Definition sketch_bytes (t : list Z) : list float :=
  concat ((fun s => let l := segment_values t s in
    (fun v => frequency (count v l) (Z.of_nat (length l))) <$> arange 256) <$> arange (Z.to_nat (sk_segments c))).
Definition sketch_pairs (t : list Z) : list float :=
  (fun h => frequency (count h (hashes t)) (Z.of_nat (length t) - 1)) <$> arange (Z.to_nat (sk_pair_bins c)).
Definition sketch_row (length_feature : Z -> float) (t : list Z) : list float :=
  sketch_bytes t ++ sketch_pairs t ++
  (if sk_include_length c then [length_feature (Z.of_nat (length t))] else []).
End reference.

(** ** Values spread over the positions of a batch *)

Section spread.
Context {A : Type}.
Implicit Types (size : list Z -> nat) (g : nat -> list Z -> nat -> A).

(** [g k t p] for each position [p] below [size t] of the [k]-th trace [t]. *)
Fixpoint spread size g (k : nat) (ts : list (list Z)) : list A :=
  match ts with
  | [] => []
  | t :: ts => (g k t <$> seq 0 (size t)) ++ spread size g (S k) ts
  end.

Lemma spread_ext size g g' k ts :
  (forall i t p, ts !! i = Some t -> (p < size t)%nat -> g (k + i)%nat t p = g' (k + i)%nat t p) ->
  spread size g k ts = spread size g' k ts.
Proof.
  revert k. induction ts as [|t ts IH]; intros k H; [done|]. simpl. f_equal.
  - apply list_fmap_ext. intros i p [-> Hp]%lookup_seq. specialize (H 0%nat t i eq_refl Hp). by rewrite Nat.add_0_r in H.
  - apply IH. intros i t' p Ht Hp. specialize (H (S i) t' p Ht Hp). by rewrite Nat.add_succ_r in H.
Qed.
Lemma spread_length size g g' k ts : length (spread size g k ts) = length (spread size g' k ts).
Proof. revert k. induction ts as [|t ts IH]; intros k; [done|]. simpl. by rewrite !length_app, !length_fmap, (IH (S k)). Qed.
End spread.

Lemma spread_fmap {A B} size (f : A -> B) g k ts : f <$> spread size g k ts = spread size (fun k t p => f (g k t p)) k ts.
Proof.
  revert k. induction ts as [|t ts IH]; intros k; [done|]. simpl. by rewrite fmap_app, <- list_fmap_compose, IH.
Qed.
Lemma spread_zip {A B C} size (h : A -> B -> C) g g' k ts :
  zip_with h (spread size g k ts) (spread size g' k ts) = spread size (fun k t p => h (g k t p) (g' k t p)) k ts.
Proof.
  revert k. induction ts as [|t ts IH]; intros k; [done|]. simpl. rewrite zip_with_app by (by rewrite !length_fmap).
  by rewrite zip_with_fmap_l, zip_with_fmap_r, zip_with_diag, IH.
Qed.

(** ** The batch as torch sees it *)

Definition lens (ts : list (list Z)) : list Z := (fun t => Z.of_nat (length t)) <$> ts.

Lemma fmap_const_replicate {A B} (x : B) (l : list A) : (fun _ => x) <$> l = replicate (length l) x.
Proof. induction l as [|a l IH]; [done|]. simpl. by rewrite <- IH. Qed.

Lemma repeat_spread {A} (values : nat -> list Z -> A) k ts :
  repeat_interleave (imap (fun i t => values (k + i)%nat t) ts) (lens ts) = spread length (fun k t _ => values k t) k ts.
Proof.
  revert k. induction ts as [|t ts IH]; intros k; [done|]. unfold repeat_interleave in *. simpl.
  rewrite fmap_const_replicate, length_seq, Nat2Z.id, Nat.add_0_r. f_equal. rewrite <- IH. f_equal. f_equal.
  apply imap_ext. intros i x _. simpl. f_equal. lia.
Qed.

Lemma imap_index {A} k (l : list A) : imap (fun i _ => Z.of_nat (k + i)) l = Z.of_nat <$> seq k (length l).
Proof.
  revert k. induction l as [|a l IH]; intros k; [done|]. simpl. f_equal; [lia|]. rewrite <- IH.
  apply imap_ext. intros i x _. simpl. lia.
Qed.

(** The starts of the traces, from [acc]. *)
Fixpoint starts (acc : Z) (l : list Z) : list Z :=
  match l with
  | [] => []
  | x :: l => acc :: starts (acc + x) l
  end.
Lemma removelast_offsets acc l : removelast (acc :: cumsum acc l) = starts acc l.
Proof. revert acc. induction l as [|x l IH]; intros acc; [done|]. cbn [cumsum starts]. rewrite <- IH. done. Qed.

Lemma positions_spread acc k ts :
  zip_with Z.sub (Z.of_nat <$> seq acc (length (concat ts))) (repeat_interleave (starts (Z.of_nat acc) (lens ts)) (lens ts)) =
  spread length (fun _ _ p => Z.of_nat p) k ts.
Proof.
  revert acc k. induction ts as [|t ts IH]; intros acc k; [done|]. unfold repeat_interleave in *. simpl.
  rewrite length_app, seq_app, fmap_app, Nat2Z.id. rewrite zip_with_app by (by rewrite length_fmap, length_seq, length_replicate).
  rewrite <- Nat2Z.inj_add, (IH (acc + length t)%nat (S k)). f_equal.
  rewrite zip_with_replicate_r_eq by (by rewrite length_fmap, length_seq). rewrite <- list_fmap_compose.
  rewrite <- (Nat.add_0_r acc) at 2. rewrite <- fmap_add_seq, <- list_fmap_compose. apply list_fmap_ext. intros i x _. simpl. lia.
Qed.

Lemma bytes_spread k ts : concat ts = spread length (fun _ t p => byte_at t p) k ts.
Proof.
  revert k. induction ts as [|t ts IH]; intros k; [done|]. simpl. rewrite <- IH. f_equal.
  apply list_eq. intros i. rewrite list_lookup_fmap. destruct (decide (i < length t)%nat) as [Hi|Hi].
  - rewrite lookup_seq_lt by done. simpl. unfold byte_at. by destruct (lookup_lt_is_Some_2 t i Hi) as [b ->].
  - rewrite lookup_ge_None_2 by lia. by rewrite lookup_seq_ge by lia.
Qed.

(** ** Counting by row *)

Definition histogram_of (columns : nat) (l : list Z) : list Z := (fun v => count v l) <$> arange columns.

Lemma count_cons v x l : count v (x :: l) = (if decide (x = v) then 1 else 0) + count v l.
Proof. unfold count. rewrite filter_cons. case_decide; simpl; lia. Qed.
Lemma count_zero v l : (forall x, x ∈ l -> x <> v) -> count v l = 0.
Proof.
  induction l as [|x l IH]; intros H; [done|]. rewrite count_cons, IH by (intros; apply H; by right).
  rewrite decide_False; [done|]. apply H. by left.
Qed.
Lemma count_append v l1 l2 : count v (l1 ++ l2) = count v l1 + count v l2.
Proof. unfold count. rewrite filter_app, length_app. lia. Qed.
Lemma count_shift a v l : count (a + v) (Z.add a <$> l) = count v l.
Proof. induction l as [|x l IH]; [done|]. rewrite fmap_cons, !count_cons, IH. repeat case_decide; lia. Qed.

Section rows.
Context (size : list Z -> nat) (columns : nat) (g : list Z -> nat -> Z).
Notation C := (Z.of_nat columns).
Notation bins k ts := (spread size (fun j u p => Z.of_nat j * C + g u p) k ts).
Notation bounded ts := (forall u p, u ∈ ts -> (p < size u)%nat -> 0 <= g u p < C).

Lemma bins_range k ts x : bounded ts -> x ∈ bins k ts -> Z.of_nat k * C <= x < Z.of_nat (k + length ts) * C.
Proof.
  revert k. induction ts as [|t ts IH]; intros k Hb; [by intros ?%elem_of_nil|].
  simpl. intros [Hx|Hx]%elem_of_app.
  - apply list_elem_of_fmap in Hx as (p & -> & Hp%elem_of_seq). specialize (Hb t p ltac:(left) ltac:(lia)). nia.
  - apply IH in Hx; [nia|]. intros t' p Ht. apply Hb. by right.
Qed.

Lemma count_row k ts i t v : bounded ts -> ts !! i = Some t -> 0 <= v < C ->
  count (Z.of_nat (k + i) * C + v) (bins k ts) = count v (g t <$> seq 0 (size t)).
Proof.
  revert k i. induction ts as [|t' ts IH]; intros k i Hb Hi Hv; [done|].
  assert (Hb' : bounded ts) by (intros t0 p Ht; apply Hb; by right).
  simpl. rewrite count_append. destruct i as [|i].
  - injection Hi as ->. rewrite Nat.add_0_r, (count_zero _ (spread _ _ _ _)).
    2:{ intros x Hx%bins_range; [nia|done]. }
    rewrite Z.add_0_r, <- (count_shift (Z.of_nat k * C) v). rewrite <- list_fmap_compose. done.
  - rewrite (count_zero _ (_ <$> _)).
    2:{ intros x (p & -> & Hp%elem_of_seq)%list_elem_of_fmap. specialize (Hb t' p ltac:(left) ltac:(lia)). nia. }
    rewrite Z.add_0_l, <- (IH (S k) i) by done. f_equal. lia.
Qed.

Lemma chunk_rows_seq {A} (f : nat -> A) rows k :
  chunk_rows rows columns (f <$> seq (k * columns) (rows * columns)) =
  (fun i => (fun v => f (i * columns + v)%nat) <$> seq 0 columns) <$> seq k rows.
Proof.
  revert k. induction rows as [|rows IH]; intros k; [done|]. cbn [chunk_rows Nat.mul]. rewrite seq_app, fmap_app.
  rewrite take_app_length' by (by rewrite length_fmap, length_seq).
  rewrite drop_app_length' by (by rewrite length_fmap, length_seq).
  replace (k * columns + columns)%nat with (S k * columns)%nat by lia. rewrite IH. cbn [seq]. rewrite fmap_cons. f_equal.
  rewrite <- (Nat.add_0_r (k * columns)) at 1. by rewrite <- fmap_add_seq, <- list_fmap_compose.
Qed.

Lemma fmap_seq_lookup {A B} (h : nat -> B) (h' : A -> B) l :
  (forall i a, l !! i = Some a -> h i = h' a) -> h <$> seq 0 (length l) = h' <$> l.
Proof.
  intros H. apply list_eq. intros i. rewrite !list_lookup_fmap. destruct (l !! i) as [a|] eqn:Ha.
  - rewrite lookup_seq_lt by (by eapply lookup_lt_Some). simpl. by rewrite (H i a).
  - by rewrite lookup_seq_ge by (by apply lookup_ge_None_1).
Qed.

(** A batched histogram is the histograms of its rows. *)
Lemma binned_rows offsets ts : length (sketch_lengths offsets) = length ts -> bounded ts ->
  binned offsets C (bins 0%nat ts) = Ok ((fun t => histogram_of columns (g t <$> seq 0 (size t))) <$> ts).
Proof.
  intros Hl Hb. unfold binned, torch_bincount. rewrite Nat2Z.id, Hl.
  pose proof (fun x => bins_range 0%nat ts x Hb) as Hr.
  replace (existsb (fun v => v <? 0) _) with false.
  2:{ symmetry. apply not_true_is_false. intros (x & Hx%list_elem_of_In%Hr & Hn)%existsb_exists. bool_prop. lia. }
  cbn [rbind]. unfold bincount. rewrite Nat.max_l.
  2:{ enough (foldr Z.max (-1) (bins 0%nat ts) < Z.of_nat (length ts * columns) \/ foldr Z.max (-1) (bins 0%nat ts) = -1) by lia.
      generalize dependent (bins 0%nat ts). intros l Hr. induction l as [|x l IH]; [by right|]. simpl.
      pose proof (Hr x ltac:(left)). destruct IH as [IH|IH]; [intros y Hy; apply Hr; by right|lia|rewrite IH; lia]. }
  unfold reshape. rewrite length_fmap, length_seq, Nat.eqb_refl. cbn [negb]. f_equal.
  etrans; [apply (chunk_rows_seq _ _ 0%nat)|]. apply fmap_seq_lookup. intros i t Ht.
  unfold histogram_of, arange. rewrite <- list_fmap_compose. apply list_fmap_ext. intros v' v [-> Hv]%lookup_seq. simpl.
  rewrite Nat2Z.inj_add, Nat2Z.inj_mul. apply (count_row 0%nat ts i); [done|done|lia].
Qed.
End rows.

(** ** The steps of the torch implementation *)

Lemma int64_small z : 0 <= z < 2 ^ 63 -> int64_value z = z.
Proof. intros Hz. apply signed_wrap; [done|]. unfold sint. lia. Qed.

Lemma segment_range c n p : 0 < sk_segments c -> (p < n)%nat -> 0 <= segment c n p < sk_segments c.
Proof.
  intros Hs Hp. unfold segment. split; [apply Z.div_pos; nia|]. apply Z.div_lt_upper_bound; nia.
Qed.

Lemma byte_at_range t p : Forall is_byte t -> 0 <= byte_at t p < 256.
Proof.
  intros Ht. unfold byte_at. destruct (t !! p) as [b|] eqn:Hb; simpl; [|lia].
  exact (Forall_lookup_1 _ _ _ _ Ht Hb).
Qed.

(** ** Adjacent bytes *)

(** The positions of a trace with a next one. *)
Definition inner (t : list Z) : nat := (length t - 1)%nat.
Definition has_next (t : list Z) (p : nat) : bool := Z.of_nat p + 1 <? Z.of_nat (length t).

Lemma has_next_mask t : t <> [] -> has_next t <$> seq 0 (length t) = replicate (inner t) true ++ [false].
Proof.
  intros Ht. replace (length t) with (S (inner t)) at 1 by (unfold inner; destruct t; [done|simpl; lia]).
  rewrite seq_S, fmap_app. f_equal.
  - rewrite <- (length_seq (inner t) 0) at 2. rewrite <- fmap_const_replicate. apply list_fmap_ext.
    intros i p [-> Hp]%lookup_seq. apply Z.ltb_lt. unfold inner in Hp. lia.
  - simpl. f_equal. apply Z.ltb_ge. unfold inner. lia.
Qed.

Lemma nonzero_app i m1 m2 : nonzero_from i (m1 ++ m2) = nonzero_from i m1 ++ nonzero_from (i + length m1) m2.
Proof.
  revert i. induction m1 as [|b m1 IH]; intros i; simpl; [by rewrite Nat.add_0_r|].
  rewrite IH, app_assoc. do 2 f_equal. lia.
Qed.
Lemma nonzero_true i n : nonzero_from i (replicate n true) = seq i n.
Proof. revert i. induction n as [|n IH]; intros i; [done|]. simpl. by rewrite IH. Qed.
Lemma nonzero_next i t : t <> [] -> nonzero_from i (has_next t <$> seq 0 (length t)) = seq i (inner t).
Proof. intros Ht. rewrite has_next_mask, nonzero_app, nonzero_true by done. simpl. by rewrite app_nil_r. Qed.

Lemma select_app {A} m1 m2 (l1 l2 : list A) : length m1 = length l1 ->
  select (m1 ++ m2) (l1 ++ l2) = select m1 l1 ++ select m2 l2.
Proof. intros Hl. unfold select. by rewrite zip_with_app, filter_app, fmap_app. Qed.
Lemma select_true {A} (l : list A) : select (replicate (length l) true) l = l.
Proof. unfold select. induction l as [|a l IH]; [done|]. cbn [length replicate zip_with]. rewrite filter_cons_True by done. rewrite fmap_cons, IH. done. Qed.

Lemma select_spread {A} (g : nat -> list Z -> nat -> A) k ts : Forall (fun t => t <> []) ts ->
  select (spread length (fun _ t p => has_next t p) k ts) (spread length g k ts) = spread inner g k ts.
Proof.
  intros Hts. revert k. induction Hts as [|t ts Ht _ IH]; intros k; [done|]. simpl.
  rewrite select_app by (by rewrite !length_fmap). rewrite IH. f_equal. rewrite has_next_mask by done.
  replace (length t) with (S (inner t)) by (unfold inner; destruct t; [done|simpl; lia]).
  rewrite seq_S, fmap_app, select_app by (by rewrite length_replicate, length_fmap, length_seq).
  rewrite <- (length_seq (inner t) 0) at 1. rewrite <- (length_fmap (g k t)), select_true. simpl. apply app_nil_r.
Qed.

Lemma next_bytes pre k ts : Forall (fun t => t <> []) ts ->
  Forall2 (fun i v => (pre ++ concat ts) !! i = Some v)
    (S <$> nonzero_from (length pre) (spread length (fun _ t p => has_next t p) k ts))
    (spread inner (fun _ t p => byte_at t (S p)) k ts).
Proof.
  intros Hts. revert pre k. induction Hts as [|t ts Ht _ IH]; intros pre k; [constructor|]. simpl.
  rewrite nonzero_app, fmap_app, nonzero_next by done. apply Forall2_app.
  - rewrite <- (Nat.add_0_r (length pre)), <- fmap_add_seq, <- list_fmap_compose.
    apply Forall2_fmap, Forall_Forall2_diag, Forall_forall. intros p Hp%elem_of_seq. unfold inner in Hp. simpl.
    replace (S (length pre + p)) with (length pre + S p)%nat by lia. rewrite lookup_app_r, Nat.add_sub' by lia.
    rewrite lookup_app_l by lia. unfold byte_at. by destruct (lookup_lt_is_Some_2 t (S p)) as [b ->]; [lia|].
  - rewrite length_fmap, length_seq, <- length_app, app_assoc. apply IH.
Qed.

Definition pair_bin (c : RawTraceSketchConfig) (t : list Z) (p : nat) : Z := pair_hash c (byte_at t p) (byte_at t (S p)).
Lemma pair_bin_range c t p : 0 < sk_pair_bins c -> 0 <= pair_bin c t p < sk_pair_bins c.
Proof.
  intros HP. unfold pair_bin, pair_hash.
  match goal with |- context [Z.land ?x ?m] => pose proof (land_below x m) end. lia.
Qed.

Section batch.
Context (c : RawTraceSketchConfig) (ts : list (list Z)).
Notation D := (feature_dimensions c).
Notation B := (sk_segments c * 256).
Notation P := (sk_pair_bins c).
Context (Hseg : 0 < sk_segments c) (Hpair : 0 <= P)
  (Hts : Forall (fun t => t <> [] /\ Forall is_byte t) ts)
  (Hbytes : Z.of_nat (length (concat ts)) * sk_segments c < 2 ^ 63)
  (Hcells : Z.of_nat (length ts) * D < 2 ^ 63).

Notation bytes := (concat ts).
Notation offsets := (0 :: cumsum 0 (lens ts)).

Lemma packed_trace_fits t : t ∈ ts -> 0 < Z.of_nat (length t) <= Z.of_nat (length bytes).
Proof.
  intros Ht. split.
  - rewrite Forall_forall in Hts. destruct (Hts t Ht) as [Hn _]. by destruct t; [|simpl; lia].
  - clear -Ht. induction Ht as [t ts|t t' ts Ht IH]; simpl; rewrite length_app; lia.
Qed.

Lemma lengths_packed : sketch_lengths offsets = lens ts.
Proof.
  unfold sketch_lengths. rewrite removelast_offsets. cbn [tail]. generalize 0.
  assert (Hl : Forall (fun n => 0 <= n < 2 ^ 63) (lens ts)).
  { apply Forall_fmap, Forall_forall. intros t Ht. simpl. pose proof (packed_trace_fits t Ht). nia. }
  induction (lens ts) as [|n l IH]; intros acc; [done|]. inversion Hl; subst. simpl. f_equal; [|by apply IH].
  rewrite int64_small; lia.
Qed.

Lemma index_packed : trace_index offsets = spread length (fun k _ _ => Z.of_nat k) 0 ts.
Proof.
  unfold trace_index. rewrite lengths_packed. unfold lens at 1. rewrite length_fmap. unfold arange.
  rewrite <- (imap_index 0%nat ts). apply (repeat_spread (fun k _ => Z.of_nat k)).
Qed.
Lemma repeated_packed : repeated_lengths offsets = spread length (fun _ t _ => Z.of_nat (length t)) 0 ts.
Proof.
  unfold repeated_lengths. rewrite lengths_packed, <- (repeat_spread (fun _ t => Z.of_nat (length t))).
  f_equal. unfold lens. clear. induction ts as [|t l IH]; [done|]. simpl. f_equal. etrans; [exact IH|by apply imap_ext].
Qed.
Lemma positions_packed : trace_positions bytes offsets = spread length (fun _ _ p => Z.of_nat p) 0 ts.
Proof.
  unfold trace_positions. rewrite lengths_packed, removelast_offsets. apply (positions_spread 0%nat).
Qed.
Lemma segment_packed : segment_of c bytes offsets = spread length (fun _ t p => segment c (length t) p) 0 ts.
Proof.
  unfold segment_of. rewrite positions_packed, repeated_packed, spread_zip. apply spread_ext. intros i t p Ht Hp.
  apply list_elem_of_lookup_2, packed_trace_fits in Ht. pose proof (segment_range c _ _ Hseg Hp). unfold torch_segment.
  rewrite int64_small by nia. unfold segment in *. lia.
Qed.
Lemma lengths_rows : length (sketch_lengths offsets) = length ts.
Proof. rewrite lengths_packed. apply length_fmap. Qed.

(** The bin of a byte, and the histograms of each trace. *)
Definition byte_bin (t : list Z) (p : nat) : Z := segment c (length t) p * 256 + byte_at t p.
Definition over (g : list Z -> nat -> Z) (t : list Z) : list Z := g t <$> seq 0 (length t).

Lemma byte_bin_range t p : t ∈ ts -> (p < length t)%nat -> 0 <= byte_bin t p < B.
Proof.
  intros Ht Hp. rewrite Forall_forall in Hts. destruct (Hts t Ht) as [_ Hb].
  pose proof (byte_at_range t p Hb). pose proof (segment_range c _ _ Hseg Hp). unfold byte_bin. lia.
Qed.

Lemma columns_D : D = Z.of_nat (Z.to_nat D).
Proof. unfold feature_dimensions. destruct (sk_include_length c); simpl; lia. Qed.
Lemma D_above : B + P <= D.
Proof. unfold feature_dimensions. destruct (sk_include_length c); simpl; lia. Qed.

Lemma byte_features_packed :
  byte_features c bytes offsets = Ok ((fun t => normalize_bytes c (histogram_of (Z.to_nat D) (over byte_bin t))
    (histogram_of (Z.to_nat (sk_segments c)) (over (fun t p => segment c (length t) p) t))) <$> ts).
Proof.
  unfold byte_features. rewrite index_packed, segment_packed. rewrite (bytes_spread 0 ts). rewrite !spread_zip.
  pose proof D_above as HD.
  rewrite (spread_ext _ _ (fun k t p => Z.of_nat k * Z.of_nat (Z.to_nat D) + byte_bin t p)).
  2:{ intros i t p Ht Hp. simpl. pose proof (byte_bin_range t p (list_elem_of_lookup_2 _ _ _ Ht) Hp) as Hb.
      apply lookup_lt_Some in Ht. rewrite <- columns_D. unfold byte_bin in *. rewrite int64_small; [lia|]. nia. }
  rewrite columns_D at 1. rewrite binned_rows; [|apply lengths_rows|].
  2:{ intros t p Ht Hp. pose proof (byte_bin_range t p Ht Hp). rewrite <- columns_D. lia. }
  cbn [rbind]. rewrite (spread_ext _ _ (fun k t p => Z.of_nat k * Z.of_nat (Z.to_nat (sk_segments c)) + segment c (length t) p)).
  2:{ intros i t p Ht Hp. simpl. pose proof (segment_range c _ _ Hseg Hp). apply lookup_lt_Some in Ht.
      rewrite Z2Nat.id by lia. rewrite int64_small; [lia|]. nia. }
  rewrite <- (Z2Nat.id (sk_segments c)) at 1 by lia. rewrite binned_rows; [|apply lengths_rows|].
  2:{ intros t p Ht Hp. rewrite Z2Nat.id by lia. by apply segment_range. }
  cbn [rbind]. f_equal. by rewrite zip_with_fmap_l, zip_with_fmap_r, zip_with_diag.
Qed.

Lemma nonempty_traces : Forall (fun t => t <> []) ts.
Proof. eapply Forall_impl; [exact Hts|]. by intros t []. Qed.

Lemma add_pairs_packed (f : list Z -> list float) : P <> 0 ->
  add_pairs c bytes offsets (f <$> ts) = Ok ((fun t => mean_pair_row c
    (add_pair_row (f t) (histogram_of (Z.to_nat D) (Z.add B <$> hashes c t))) (Z.of_nat (length t))) <$> ts).
Proof.
  intros HP. assert (HP' : 0 < P) by lia. unfold add_pairs, pair_mask. rewrite positions_packed, repeated_packed, index_packed, spread_zip.
  pose proof nonempty_traces as Hne. pose proof (next_bytes [] 0 ts Hne) as Hnext. simpl in Hnext.
  unfold gather. rewrite (proj2 (rmap_Ok _ _ (spread inner (fun _ t p => byte_at t (S p)) 0 ts))).
  2:{ eapply Forall2_impl; [exact Hnext|]. intros i v Hv. simpl in Hv. by rewrite Hv. }
  cbn [rbind]. rewrite (bytes_spread 0 ts). change (fun (_ : nat) (t : list Z) (p : nat) => Z.of_nat p + 1 <? Z.of_nat (length t))
    with (fun (_ : nat) (t : list Z) (p : nat) => has_next t p).
  rewrite !select_spread by done. rewrite !spread_zip.
  rewrite (spread_ext _ _ (fun k t p => Z.of_nat k * Z.of_nat (Z.to_nat D) + (B + pair_bin c t p))).
  2:{ intros i t p Ht Hp. simpl. pose proof (pair_bin_range c t p HP') as Hb. pose proof D_above.
      apply lookup_lt_Some in Ht. rewrite <- columns_D. unfold pair_bin in *. rewrite int64_small; [lia|]. nia. }
  rewrite columns_D at 1. rewrite (binned_rows inner (Z.to_nat D) (fun t p => B + pair_bin c t p)); [|apply lengths_rows|].
  2:{ intros t p Ht Hp. pose proof (pair_bin_range c t p HP'). pose proof D_above. rewrite <- columns_D. lia. }
  cbn [rbind]. f_equal. rewrite lengths_packed. unfold lens.
  rewrite zip_with_fmap_l, !zip_with_fmap_r, zip_with_diag, zip_with_fmap_l, zip_with_diag.
  apply list_fmap_ext. intros i t _. unfold hashes. by rewrite <- list_fmap_compose.
Qed.
End batch.
