(* ===== verification/SketchExact.v ===== *)
(** * Both sketch implementations compute the sketch of each trace *)

From Stdlib Require SpecFloat.
From S2P Require Import Prelude Batch Floats Features TraceSketch SketchTorch.

(** ** Ranges *)

Lemma arange_length n : length (arange n) = n.
Proof. unfold arange. by rewrite length_fmap, length_seq. Qed.
Lemma arange_app a b : arange (a + b) = arange a ++ (Z.add (Z.of_nat a) <$> arange b).
Proof.
  unfold arange. rewrite seq_app, fmap_app, Nat.add_0_l. f_equal. rewrite <- (Nat.add_0_r a) at 1.
  rewrite <- fmap_add_seq, <- !list_fmap_compose. apply list_fmap_ext. intros i x _. simpl. lia.
Qed.
Lemma arange_mul n k : arange (n * k) = concat ((fun s => Z.add (s * Z.of_nat k) <$> arange k) <$> arange n).
Proof.
  induction n as [|n IH]; [done|]. replace (S n * k)%nat with (n * k + k)%nat by lia.
  replace (S n) with (n + 1)%nat by lia. rewrite !arange_app, fmap_app, concat_app, IH. f_equal.
  simpl. rewrite app_nil_r. do 2 f_equal. lia.
Qed.
Lemma elem_of_arange v n : v ∈ arange n <-> 0 <= v < Z.of_nat n.
Proof.
  unfold arange. rewrite list_elem_of_fmap. split.
  - intros (x & -> & Hx%elem_of_seq). lia.
  - intros Hv. exists (Z.to_nat v). rewrite elem_of_seq. lia.
Qed.

Lemma fmap_ext_in {A B} (f g : A -> B) (l : list A) : (forall a, a ∈ l -> f a = g a) -> f <$> l = g <$> l.
Proof. intros H. apply list_fmap_ext. intros i a Ha. by eapply H, list_elem_of_lookup_2. Qed.
Lemma fmap_const_in {A B} (f : A -> B) x (l : list A) : (forall a, a ∈ l -> f a = x) -> f <$> l = replicate (length l) x.
Proof. intros H. rewrite <- fmap_const_replicate. by apply fmap_ext_in. Qed.

Lemma fmap_concat {A B} (f : A -> B) (ls : list (list A)) : f <$> concat ls = concat ((fun l : list A => f <$> l) <$> ls).
Proof. induction ls as [|l ls IH]; [done|]. simpl. by rewrite fmap_app, IH. Qed.
Lemma zip_with_concat {A B C} (f : A -> B -> C) ls ks : Forall2 (fun l k => length l = length k) ls ks ->
  zip_with f (concat ls) (concat ks) = concat (zip_with (zip_with f) ls ks).
Proof. induction 1 as [|l k ls ks Hl _ IH]; [done|]. simpl. by rewrite zip_with_app, IH. Qed.

(** ** Nonnegative numbers *)

(** Adding a zero changes nothing but a negative zero. *)
Definition unsigned_float (x : float) : Prop :=
  match x with
  | SpecFloat.S754_zero s | SpecFloat.S754_infinity s | SpecFloat.S754_finite s _ _ => s = false
  | SpecFloat.S754_nan => True
  end.
Lemma round_unsigned m e l : unsigned_float (SpecFloat.binary_round_aux 24 128 false m e l).
Proof. unfold SpecFloat.binary_round_aux. repeat case_match; done. Qed.
Lemma of_int_unsigned z : 0 <= z -> unsigned_float (float32_of_int z).
Proof.
  intros Hz. destruct z as [|p|p]; [done| |lia]. unfold float32_of_int, SpecFloat.binary_normalize, SpecFloat.binary_round.
  case_match. apply round_unsigned.
Qed.
Lemma div_unsigned x y : unsigned_float x -> unsigned_float y -> unsigned_float (fdiv32 x y).
Proof.
  destruct x, y; simpl; intros; subst; try done. unfold fdiv32. cbn [SpecFloat.SFdiv].
  case_match. case_match. apply round_unsigned.
Qed.
Lemma add_zero_r x : unsigned_float x -> fadd32 x zero = x.
Proof. destruct x; simpl; intros; by subst. Qed.
Lemma add_zero_l x : unsigned_float x -> fadd32 zero x = x.
Proof. destruct x; simpl; intros; by subst. Qed.

Lemma count_nonneg v l : 0 <= count v l.
Proof. unfold count. lia. Qed.
Lemma frequency_unsigned n total : 0 <= n -> unsigned_float (frequency n total).
Proof. intros Hn. apply div_unsigned; apply of_int_unsigned; lia. Qed.
#[global] Hint Resolve count_nonneg frequency_unsigned of_int_unsigned : py.

(** ** One row *)

Section row.
Context (c : RawTraceSketchConfig) (t : list Z).
Notation D := (feature_dimensions c).
Notation B := (sk_segments c * 256).
Notation P := (sk_pair_bins c).
Notation extra := (if sk_include_length c then 1%nat else 0%nat).
Context (Hseg : 0 < sk_segments c) (Hpair : 0 <= P) (Hne : t <> []) (Ht : Forall is_byte t).

Lemma columns_split : Z.to_nat D = (Z.to_nat B + (Z.to_nat P + extra))%nat.
Proof. unfold feature_dimensions. destruct (sk_include_length c); simpl; lia. Qed.

Lemma count_segment s v ps : 0 <= v < 256 ->
  count (s * 256 + v) (byte_bin c t <$> ps) =
  count v (byte_at t <$> filter (fun p => segment c (length t) p = s) ps).
Proof.
  intros Hv. induction ps as [|p ps IH]; [done|]. rewrite fmap_cons, count_cons, filter_cons, IH.
  pose proof (byte_at_range t p Ht) as Hb. unfold byte_bin. case_decide as Hs.
  - rewrite decide_True by lia. rewrite fmap_cons, count_cons, decide_True by lia. done.
  - case_decide as Hs'; [|done]. rewrite fmap_cons, count_cons, decide_False by lia. done.
Qed.
Lemma count_segment_size s ps :
  count s ((fun p => segment c (length t) p) <$> ps) =
  Z.of_nat (length (byte_at t <$> filter (fun p => segment c (length t) p = s) ps)).
Proof.
  rewrite length_fmap. unfold count. f_equal. induction ps as [|p ps IH]; [done|].
  rewrite fmap_cons, !filter_cons. case_decide; simpl; by rewrite IH.
Qed.

Lemma normalize_bytes_row :
  normalize_bytes c (histogram_of (Z.to_nat D) (over (byte_bin c) t))
    (histogram_of (Z.to_nat (sk_segments c)) (over (fun t p => segment c (length t) p) t)) =
  sketch_bytes c t ++ replicate (Z.to_nat P + extra) zero.
Proof.
  unfold normalize_bytes, histogram_of. rewrite columns_split, arange_app, !fmap_app.
  rewrite take_app_length', drop_app_length' by (by rewrite !length_fmap, arange_length). f_equal.
  - replace (Z.to_nat B) with (Z.to_nat (sk_segments c) * 256)%nat by lia. rewrite arange_mul, !fmap_concat.
    rewrite zip_with_concat.
    + unfold sketch_bytes. f_equal. rewrite <- !list_fmap_compose, zip_with_fmap_l, zip_with_fmap_r, zip_with_diag.
      apply fmap_ext_in. intros s _. unfold compose. cbv beta.
      rewrite zip_with_replicate_r_eq by (by rewrite !length_fmap, arange_length). rewrite <- !list_fmap_compose.
      apply fmap_ext_in. intros v Hv%elem_of_arange. unfold compose, flip, frequency. cbv beta.
      change (Z.of_nat 256) with 256 in *. unfold over. rewrite count_segment, count_segment_size by lia. done.
    + rewrite <- !list_fmap_compose. apply Forall2_fmap, Forall_Forall2_diag, Forall_forall. intros s _.
      unfold compose. by rewrite !length_fmap, arange_length, length_replicate.
  - rewrite <- !list_fmap_compose. rewrite (fmap_const_in _ zero), arange_length; [done|].
    intros v Hv%elem_of_arange. unfold compose. rewrite count_zero; [done|].
    intros x (p & -> & Hp%elem_of_seq)%list_elem_of_fmap.
    pose proof (byte_at_range t p Ht). pose proof (segment_range c (length t) p Hseg ltac:(lia)). unfold byte_bin. lia.
Qed.

Lemma sketch_bytes_length : length (sketch_bytes c t) = Z.to_nat B.
Proof.
  unfold sketch_bytes. replace (Z.to_nat B) with (Z.to_nat (sk_segments c) * 256)%nat by lia.
  rewrite <- (arange_length (Z.to_nat (sk_segments c))) at 2. induction (arange (Z.to_nat (sk_segments c))) as [|s l IH]; [done|].
  rewrite fmap_cons. cbn [concat]. rewrite length_app, length_fmap, arange_length, IH. cbn [length]. lia.
Qed.
Lemma sketch_pairs_length : length (sketch_pairs c t) = Z.to_nat P.
Proof. unfold sketch_pairs. by rewrite length_fmap, arange_length. Qed.

Lemma sketch_bytes_unsigned : Forall unsigned_float (sketch_bytes c t).
Proof.
  apply Forall_concat, Forall_fmap, Forall_forall. intros s _. apply Forall_fmap, Forall_forall. intros v _.
  unfold compose. auto with py.
Qed.

Lemma pair_row : P <> 0 ->
  mean_pair_row c (add_pair_row (sketch_bytes c t ++ replicate (Z.to_nat P + extra) zero)
    (histogram_of (Z.to_nat D) (Z.add B <$> hashes c t))) (Z.of_nat (length t)) =
  sketch_bytes c t ++ sketch_pairs c t ++ replicate extra zero.
Proof.
  intros HP. unfold histogram_of. rewrite columns_split, arange_app, fmap_app. unfold add_pair_row. rewrite fmap_app.
  assert (Hh : forall h, h ∈ hashes c t -> 0 <= h < P).
  { intros h (p & -> & _)%list_elem_of_fmap. apply (pair_bin_range c t p). lia. }
  rewrite (fmap_const_in (fun v => count v _) 0 (arange (Z.to_nat B))).
  2:{ intros v Hv%elem_of_arange. apply count_zero. intros x (h & -> & Hx%Hh)%list_elem_of_fmap. lia. }
  rewrite fmap_replicate, arange_length. change (float32_of_int 0) with zero.
  rewrite zip_with_app by (by rewrite length_replicate, sketch_bytes_length).
  rewrite zip_with_replicate_r_eq by apply sketch_bytes_length.
  replace (flip fadd32 zero <$> sketch_bytes c t) with (sketch_bytes c t).
  2:{ rewrite <- (list_fmap_id (sketch_bytes c t)) at 1. apply fmap_ext_in. intros x Hx. symmetry. apply add_zero_r.
      pose proof sketch_bytes_unsigned as Hu. rewrite Forall_forall in Hu. auto. }
  rewrite zip_with_replicate_l by (rewrite !length_fmap, arange_length; lia).
  rewrite <- !list_fmap_compose, arange_app, fmap_app.
  set (pairs := _ <$> arange (Z.to_nat P)). set (rest := _ <$> (_ <$> arange extra)).
  assert (Hrest : rest = replicate extra zero).
  { unfold rest. rewrite <- list_fmap_compose, (fmap_const_in _ zero), arange_length; [done|].
    intros v Hv%elem_of_arange. unfold compose. rewrite count_zero; [done|].
    intros x (h & -> & Hx%Hh)%list_elem_of_fmap. lia. }
  assert (Hpl : length pairs = Z.to_nat P) by (unfold pairs; by rewrite length_fmap, arange_length).
  unfold mean_pair_row. rewrite take_app_length' by (by rewrite sketch_bytes_length). f_equal.
  rewrite (drop_app_length' (sketch_bytes c t)) by (by rewrite sketch_bytes_length).
  rewrite <- drop_drop, drop_app_length', take_app_length', drop_app_length' by (by rewrite ?sketch_bytes_length).
  rewrite Hrest. f_equal. unfold pairs, sketch_pairs. rewrite <- list_fmap_compose. apply fmap_ext_in.
  intros h Hv%elem_of_arange. unfold compose, frequency. rewrite Z2Nat.id by lia.
  rewrite count_shift, add_zero_l by auto with py. done.
Qed.

(** The last column. *)
Lemma length_row (f : Z -> float) : sk_include_length c = true ->
  <[Z.to_nat (B + P) := f (Z.of_nat (length t))]> (sketch_bytes c t ++ sketch_pairs c t ++ replicate extra zero) =
  sketch_row c f t.
Proof.
  intros Hi. unfold sketch_row. rewrite Hi. cbn [replicate].
  rewrite !app_assoc. replace (Z.to_nat (B + P)) with (length (sketch_bytes c t ++ sketch_pairs c t) + 0)%nat.
  2:{ rewrite length_app, sketch_bytes_length, sketch_pairs_length. lia. }
  by rewrite insert_app_r.
Qed.
End row.

(** ** The torch implementation *)

Lemma torch_sketch_rows log1p32 c ts : 0 < sk_segments c -> 0 <= sk_pair_bins c ->
  Forall (fun t => t <> [] /\ Forall is_byte t) ts ->
  Z.of_nat (length (concat ts)) * sk_segments c < 2 ^ 63 ->
  Z.of_nat (length ts) * feature_dimensions c < 2 ^ 63 ->
  torch_sketch log1p32 c (concat ts) (0 :: cumsum 0 (lens ts)) = Ok (sketch_row c (torch_length log1p32) <$> ts).
Proof.
  intros Hseg Hpair Hts Hbytes Hcells. unfold torch_sketch. rewrite byte_features_packed by done. cbn [rbind].
  set (extra := if sk_include_length c then 1%nat else 0%nat).
  assert (Hb : forall t, t ∈ ts -> t <> [] /\ Forall is_byte t) by (by apply Forall_forall).
  rewrite (fmap_ext_in _ (fun t => sketch_bytes c t ++ replicate (Z.to_nat (sk_pair_bins c) + extra) zero)).
  2:{ intros t Ht%Hb. apply normalize_bytes_row; tauto. }
  assert (Hp : (if sk_pair_bins c =? 0 then Ok ((fun t => sketch_bytes c t ++ replicate (Z.to_nat (sk_pair_bins c) + extra) zero) <$> ts)
      else add_pairs c (concat ts) (0 :: cumsum 0 (lens ts))
             ((fun t => sketch_bytes c t ++ replicate (Z.to_nat (sk_pair_bins c) + extra) zero) <$> ts)) =
    Ok ((fun t => sketch_bytes c t ++ sketch_pairs c t ++ replicate extra zero) <$> ts)).
  { destruct (sk_pair_bins c =? 0) eqn:HP; bool_prop.
    - f_equal. apply fmap_ext_in. intros t _. unfold sketch_pairs. by rewrite HP.
    - rewrite add_pairs_packed by done. f_equal. apply fmap_ext_in. intros t Ht%Hb. by apply pair_row. }
  rewrite Hp. cbn [rbind]. f_equal. rewrite (lengths_packed c ts) by done. unfold lens. unfold extra.
  destruct (sk_include_length c) eqn:Hi.
  - rewrite zip_with_fmap_l, zip_with_fmap_r, zip_with_diag. apply fmap_ext_in. intros t Ht.
    rewrite <- (length_row c t Hseg Hpair (torch_length log1p32)) by done. by rewrite Hi.
  - apply fmap_ext_in. intros t Ht. unfold sketch_row. by rewrite Hi.
Qed.
