(* ===== verification/SketchNative.v ===== *)
(** * The native sketch

    The counting loop of the native module keeps its counters in binary32
    floats; up to 2^24 bytes they are exact, and the sketch of a trace is the
    reference one. *)

From Stdlib Require SpecFloat.
From S2P Require Import Prelude Batch Floats Features TraceSketch FloatExact SketchTorch SketchExact.

(** ** Loops over a slice of an array *)

Lemma fold_fmap {A B S} (f : S -> B -> S) (g : A -> B) l s :
  fold_left f (g <$> l) s = fold_left (fun s a => f s (g a)) l s.
Proof. revert s. induction l as [|a l IH]; intros s; [done|]. apply IH. Qed.

Lemma slice_values {A} (z : A) pre ch post :
  (fun v => default z ((pre ++ ch ++ post) !! (length pre + v)%nat)) <$> seq 0 (length ch) = ch.
Proof.
  etrans; [|apply list_fmap_id]. apply fmap_seq_lookup. intros i a Ha.
  rewrite lookup_app_r, Nat.add_sub' by lia. by rewrite (lookup_app_l_Some _ _ _ _ Ha).
Qed.

Lemma alter_from {A} (g : A -> A) pre ch post :
  fold_left (fun fs v => alter g v fs) (seq (length pre) (length ch)) (pre ++ ch ++ post) = pre ++ (g <$> ch) ++ post.
Proof.
  revert pre. induction ch as [|x ch IH]; intros pre; [done|]. cbn [length seq fold_left].
  replace (alter g (length pre) (pre ++ (x :: ch) ++ post)) with (pre ++ g x :: ch ++ post).
  2:{ clear. induction pre as [|y pre IH]; [done|]. cbn. by f_equal. }
  specialize (IH (pre ++ [g x])). rewrite length_app, Nat.add_1_r, <- !app_assoc in IH. exact IH.
Qed.
Lemma alter_slice {A} (g : A -> A) pre ch post base n : base = length pre -> n = length ch ->
  fold_left (fun fs v => alter g (base + v)%nat fs) (seq 0 n) (pre ++ ch ++ post) = pre ++ (g <$> ch) ++ post.
Proof.
  intros -> ->. rewrite <- (alter_from g pre ch post). 
  replace (seq (length pre) (length ch)) with (Nat.add (length pre) <$> seq 0 (length ch)) by (rewrite fmap_add_seq; f_equal; lia).
  symmetry. apply (fold_fmap (fun fs v => alter g v fs)).
Qed.

Lemma filter_all {A} (Q : A -> Prop) `{forall a, Decision (Q a)} (l : list A) : (forall a, a ∈ l -> Q a) -> filter Q l = l.
Proof.
  induction l as [|a l IH]; intros Hl; [done|].
  rewrite filter_cons_True by (apply Hl; by left). f_equal. apply IH. intros b Hb. apply Hl. by right.
Qed.

(** ** Counters *)

Lemma bump_count D l j : 0 <= j < Z.of_nat D -> count j l < 2 ^ 24 ->
  bump j ((fun v => float32_of_int (count v l)) <$> arange D) =
  (fun v => float32_of_int (count v (l ++ [j]))) <$> arange D.
Proof.
  intros Hj Hc. apply list_eq. intros i. unfold bump, arange. rewrite <- !list_fmap_compose.
  destruct (decide (i < D)%nat) as [Hi|Hi].
  2:{ rewrite !lookup_ge_None_2; [done|rewrite ?length_alter, length_fmap, length_seq; lia..]. }
  rewrite (list_lookup_fmap _ _ i), (lookup_seq_lt _ _ _ Hi). cbn [fmap option_fmap option_map].
  unfold compose. rewrite count_append, count_cons. cbn [Nat.add].
  destruct (decide (Z.to_nat j = i)) as [<-|Hne].
  - rewrite list_lookup_alter_eq, list_lookup_fmap, (lookup_seq_lt _ _ _ Hi). cbn [fmap option_fmap option_map Nat.add].
    rewrite Z2Nat.id, decide_True by lia. change (count j []) with 0.
    unfold one32. rewrite fadd32_exact by (try apply count_nonneg; lia). done.
  - rewrite list_lookup_alter_ne by done. rewrite list_lookup_fmap, (lookup_seq_lt _ _ _ Hi). cbn [fmap option_fmap option_map Nat.add].
    rewrite decide_False by lia. change (count (Z.of_nat i) []) with 0. do 2 f_equal. lia.
Qed.

(** The sum of exact counters. *)
Lemma sum_counters l a : Forall (fun n => 0 <= n) l -> 0 <= a -> a + zsum id l <= 2 ^ 24 ->
  fold_left fadd32 (float32_of_int <$> l) (float32_of_int a) = float32_of_int (a + zsum id l).
Proof.
  intros Hl. revert a. induction Hl as [|n l Hn Hl IH]; intros a Ha Hs.
  - unfold zsum. simpl. by rewrite Z.add_0_r.
  - rewrite zsum_cons in *. unfold id in Hs at 1. rewrite fmap_cons. cbn [fold_left].
    assert (0 <= zsum id l) by (clear -Hl; induction Hl; [done|]; rewrite zsum_cons; unfold id at 1; lia).
    rewrite fadd32_exact by lia. rewrite IH by lia. f_equal. unfold id at 2. lia.
Qed.

Lemma zsum_count n l : Forall (fun x => 0 <= x < Z.of_nat n) l -> zsum id ((fun v => count v l) <$> arange n) = Z.of_nat (length l).
Proof.
  assert (H1 : forall x m, zsum id ((fun v => if decide (x = v) then 1 else 0) <$> arange m) =
    if decide (0 <= x < Z.of_nat m) then 1 else 0).
  { intros x m. induction m as [|m IH]; [rewrite decide_False by lia; done|].
    rewrite <- Nat.add_1_r, arange_app, fmap_app, zsum_app, IH. unfold arange. cbn -[Z.of_nat]. unfold zsum, id. cbn -[Z.of_nat].
    repeat case_decide; lia. }
  induction 1 as [|x l Hx Hl IH].
  - unfold count. simpl. induction (arange n); [done|]. rewrite fmap_cons, zsum_cons. unfold id at 1. lia.
  - rewrite (fmap_ext_in _ (fun v => (if decide (x = v) then 1 else 0) + count v l)) by (intros; apply count_cons).
    assert (Hs : forall vs, zsum id ((fun v => (if decide (x = v) then 1 else 0) + count v l) <$> vs) =
      zsum id ((fun v => if decide (x = v) then 1 else 0) <$> vs) + zsum id ((fun v => count v l) <$> vs)).
    { induction vs as [|v vs IHv]; [done|]. rewrite !fmap_cons, !zsum_cons. unfold id in *. lia. }
    rewrite Hs, IH, H1, decide_True by done. cbn [length]. lia.
Qed.

Lemma counter_nonzero n : 0 <= n <= 2 ^ 24 ->
  (if SpecFloat.SFeqb (float32_of_int n) zero then one32 else float32_of_int n) = float32_of_int (Z.max 1 n).
Proof.
  intros Hn. destruct (decide (n = 0)) as [->|]; [done|]. destruct (decide (n = 2 ^ 24)) as [->|]; [done|].
  rewrite Z.max_r by lia. rewrite normalize_short by lia. done.
Qed.

(** ** One trace *)

Section row.
Context (log1p : float -> float) (c : RawTraceSketchConfig) (t : list Z).
Notation D := (feature_dimensions c).
Notation B := (sk_segments c * 256).
Notation P := (sk_pair_bins c).
Notation extra := (if sk_include_length c then 1%nat else 0%nat).
Context (Hseg : 0 < sk_segments c) (Hpair : 0 <= P) (Hne : t <> []) (Ht : Forall is_byte t)
  (Hsize : Z.of_nat (length t) <= 2 ^ 24) (Hfits : Z.of_nat (length t) * sk_segments c < 2 ^ 63).

(** The counters one position increments. *)
Definition bumped (p : nat) : list Z :=
  byte_bin c t p :: (if negb (P =? 0) && has_next t p then [B + pair_bin c t p] else []).
Definition all_bumped (ps : list nat) : list Z := concat (bumped <$> ps).

Lemma bumped_range p x : (p < length t)%nat -> x ∈ bumped p -> 0 <= x < D.
Proof.
  intros Hp Hx. pose proof (byte_at_range t p Ht). pose proof (segment_range c _ _ Hseg Hp).
  assert (B + P <= D) by (unfold feature_dimensions; destruct (sk_include_length c); simpl; lia).
  unfold bumped in Hx. apply elem_of_cons in Hx as [->|Hx]; [unfold byte_bin; lia|].
  destruct (negb (P =? 0) && has_next t p) eqn:Hb; [|by apply elem_of_nil in Hx].
  apply list_elem_of_singleton in Hx as ->. bool_prop. pose proof (pair_bin_range c t p). lia.
Qed.

(** A position increments a counter at most once. *)
Lemma count_bumped v ps : (forall p, p ∈ ps -> (p < length t)%nat) -> count v (all_bumped ps) <= Z.of_nat (length ps).
Proof.
  induction ps as [|p ps IH]; intros Hps; [done|]. unfold all_bumped in *. rewrite fmap_cons. cbn [concat length].
  rewrite count_append. assert (count v (bumped p) <= 1); [|specialize (IH (fun q Hq => Hps q ltac:(by right))); lia].
  pose proof (byte_at_range t p Ht). pose proof (segment_range c _ _ Hseg (Hps p ltac:(left))).
  unfold bumped, byte_bin. rewrite count_cons. destruct (negb (P =? 0) && has_next t p) eqn:Hb; [|case_decide; done].
  bool_prop. pose proof (pair_bin_range c t p). rewrite count_cons. change (count v []) with 0. repeat case_decide; lia.
Qed.

Lemma native_count_step p l : (p < length t)%nat -> (forall v, count v l <= Z.of_nat p) ->
  native_count c t ((fun v => float32_of_int (count v l)) <$> arange (Z.to_nat D)) p =
  (fun v => float32_of_int (count v (l ++ bumped p))) <$> arange (Z.to_nat D).
Proof.
  intros Hp Hl. pose proof (fun x => bumped_range p x Hp) as Hr. unfold native_count.
  assert (H0 : 0 <= D) by (unfold feature_dimensions; destruct (sk_include_length c); simpl; lia).
  rewrite wrap_small by (unfold uint; nia). fold (byte_at t p). fold (byte_at t (S p)). fold (pair_bin c t p).
  fold (segment c (length t) p). fold (byte_bin c t p).
  rewrite bump_count by (try (rewrite Z2Nat.id by lia; apply Hr; left); specialize (Hl (byte_bin c t p)); lia).
  fold (has_next t p). unfold bumped in *. destruct (negb (P =? 0) && has_next t p) eqn:Hb; [|done].
  rewrite bump_count.
  - by rewrite <- app_assoc.
  - rewrite Z2Nat.id by lia. apply Hr. right. left.
  - rewrite count_append, count_cons. change (count _ []) with 0. specialize (Hl (B + pair_bin c t p)).
    rewrite decide_False; [lia|]. bool_prop. pose proof (byte_at_range t p Ht). pose proof (segment_range c _ _ Hseg Hp).
    pose proof (pair_bin_range c t p). unfold byte_bin. lia.
Qed.

Lemma native_counts k : (k <= length t)%nat ->
  fold_left (native_count c t) (seq 0 k) (replicate (Z.to_nat D) zero) =
  (fun v => float32_of_int (count v (all_bumped (seq 0 k)))) <$> arange (Z.to_nat D).
Proof.
  induction k as [|k IH]; intros Hk.
  - simpl. rewrite (fmap_const_in _ zero) by done. by rewrite arange_length.
  - rewrite seq_S, fold_left_app, IH by lia. cbn [fold_left Nat.add]. rewrite native_count_step.
    + apply fmap_ext_in. intros v _. do 2 f_equal. unfold all_bumped. rewrite fmap_app, concat_app. simpl. by rewrite app_nil_r.
    + lia.
    + intros v. etrans; [apply count_bumped; intros p Hp%elem_of_seq; lia|]. rewrite length_seq. lia.
Qed.

(** The counters of bytes, of pairs, and the rest. *)
Lemma count_split v ps : count v (all_bumped ps) =
  count v (byte_bin c t <$> ps) + (if P =? 0 then 0 else count v ((fun p => B + pair_bin c t p) <$> filter (fun p => has_next t p = true) ps)).
Proof.
  induction ps as [|p ps IH]; [by destruct (P =? 0)|]. unfold all_bumped in *. rewrite !fmap_cons. cbn [concat].
  rewrite count_append, count_cons, IH. unfold bumped. rewrite count_cons.
  destruct (P =? 0); [change (count v (if negb true && _ then _ else [])) with 0; lia|].
  cbn [negb andb]. destruct (has_next t p) eqn:Hn; [rewrite filter_cons_True, fmap_cons, !count_cons by done
    |rewrite filter_cons_False by (by rewrite Hn)]; change (count v []) with 0; lia.
Qed.
Lemma next_positions : filter (fun p => has_next t p = true) (seq 0 (length t)) = seq 0 (inner t).
Proof.
  assert (Hl : length t = S (inner t)) by (unfold inner; destruct t; [done|simpl; lia]). rewrite Hl at 1.
  rewrite seq_S, filter_app, filter_cons_False by (unfold has_next; intros ?%Z.ltb_lt; lia).
  rewrite app_nil_r. apply filter_all. intros p Hp%elem_of_seq. apply Z.ltb_lt. lia.
Qed.
Lemma all_counts v : count v (all_bumped (seq 0 (length t))) =
  count v (over (byte_bin c) t) + (if P =? 0 then 0 else count v (Z.add B <$> hashes c t)).
Proof. rewrite count_split, next_positions. unfold hashes. by rewrite <- list_fmap_compose. Qed.

(** ** Frequencies *)

Definition normalized (ch : list float) : list float :=
  let total := fold_left fadd32 ch zero in
  (fun x => fdiv32 x (if SpecFloat.SFeqb total zero then one32 else total)) <$> ch.

Lemma native_normalize_chunk pre ch post s : length pre = (s * 256)%nat -> length ch = 256%nat ->
  native_normalize (pre ++ ch ++ post) s = pre ++ normalized ch ++ post.
Proof.
  intros Hp Hc. unfold native_normalize, normalized.
  rewrite <- (fold_fmap fadd32 (fun v => default zero ((pre ++ ch ++ post) !! (s * 256 + v)%nat))).
  rewrite <- Hp, <- Hc, slice_values. by apply alter_slice.
Qed.
Lemma native_normalize_chunks pre chs post s : length pre = (s * 256)%nat -> Forall (fun ch => length ch = 256%nat) chs ->
  fold_left native_normalize (seq s (length chs)) (pre ++ concat chs ++ post) = pre ++ concat (normalized <$> chs) ++ post.
Proof.
  intros Hp Hc. revert pre s Hp. induction Hc as [|ch chs Hch _ IH]; intros pre s Hp; [done|].
  cbn [length seq fold_left concat]. rewrite fmap_cons. cbn [concat]. rewrite <- app_assoc, native_normalize_chunk by done.
  rewrite app_assoc, IH.
  - by rewrite <- !app_assoc.
  - rewrite length_app, Hp. unfold normalized. rewrite length_fmap, Hch. lia.
Qed.

(** The counters of one segment become its frequencies. *)
Lemma normalized_segment s :
  normalized ((fun v => float32_of_int (count (s * 256 + v) (over (byte_bin c) t))) <$> arange 256) =
  (fun v => frequency (count v (segment_values c t s)) (Z.of_nat (length (segment_values c t s)))) <$> arange 256.
Proof.
  set (l := segment_values c t s).
  assert (Hl : Forall (fun x => 0 <= x < Z.of_nat 256) l).
  { apply Forall_fmap, Forall_forall. intros p _. by apply byte_at_range. }
  assert (Hlen : Z.of_nat (length l) <= 2 ^ 24).
  { unfold l, segment_values. rewrite length_fmap. pose proof (length_filter (fun p => segment c (length t) p = s) (seq 0 (length t))) as Hf.
    rewrite length_seq in Hf. lia. }
  rewrite (fmap_ext_in _ (fun v => float32_of_int (count v l))).
  2:{ intros v Hv%elem_of_arange. unfold over. by rewrite count_segment. }
  assert (Hsum : fold_left fadd32 ((fun v => float32_of_int (count v l)) <$> arange 256) zero = float32_of_int (Z.of_nat (length l))).
  { rewrite (list_fmap_compose (fun v => count v l) float32_of_int). etrans; [apply (sum_counters _ 0)|].
    - apply Forall_fmap, Forall_forall. intros v _. apply count_nonneg.
    - done.
    - rewrite zsum_count by done. lia.
    - by rewrite zsum_count. }
  unfold normalized. cbv zeta. rewrite Hsum, counter_nonzero by lia. by rewrite <- list_fmap_compose.
Qed.

Lemma hashes_range h : 0 < P -> h ∈ hashes c t -> 0 <= h < P.
Proof. intros HP (p & -> & _)%list_elem_of_fmap. by apply (pair_bin_range c t p). Qed.
Lemma counts_low v : v < B -> count v (all_bumped (seq 0 (length t))) = count v (over (byte_bin c) t).
Proof.
  intros Hv. rewrite all_counts. destruct (P =? 0) eqn:HP; [lia|]. bool_prop. rewrite (count_zero _ (_ <$> _)); [lia|].
  intros x (h & -> & Hh%hashes_range)%list_elem_of_fmap; lia.
Qed.
Lemma counts_high h : 0 <= h ->
  count (B + h) (all_bumped (seq 0 (length t))) = if P =? 0 then 0 else count h (hashes c t).
Proof.
  intros Hh. rewrite all_counts, count_shift, count_zero; [done|].
  intros x (p & -> & Hp%elem_of_seq)%list_elem_of_fmap. pose proof (byte_at_range t p Ht).
  pose proof (segment_range c (length t) p Hseg ltac:(lia)). unfold byte_bin. lia.
Qed.

Lemma counted_row :
  (fun v => float32_of_int (count v (all_bumped (seq 0 (length t))))) <$> arange (Z.to_nat D) =
  concat ((fun s => (fun v => float32_of_int (count (s * 256 + v) (over (byte_bin c) t))) <$> arange 256) <$> arange (Z.to_nat (sk_segments c))) ++
  ((fun h => float32_of_int (count h (hashes c t))) <$> arange (Z.to_nat P)) ++ replicate extra zero.
Proof.
  rewrite columns_split, arange_app, fmap_app by done. f_equal.
  - replace (Z.to_nat B) with (Z.to_nat (sk_segments c) * 256)%nat by lia. rewrite arange_mul, fmap_concat, <- list_fmap_compose.
    f_equal. apply fmap_ext_in. intros s Hs%elem_of_arange. unfold compose. rewrite <- list_fmap_compose.
    apply fmap_ext_in. intros v Hv%elem_of_arange. unfold compose. by rewrite counts_low by lia.
  - rewrite arange_app, !fmap_app, <- !list_fmap_compose. f_equal.
    + apply fmap_ext_in. intros h Hh%elem_of_arange. unfold compose. rewrite Z2Nat.id, counts_high by lia.
      by destruct (P =? 0) eqn:HP; bool_prop; [lia|].
    + rewrite (fmap_const_in _ zero), arange_length; [done|]. intros h Hh%elem_of_arange. unfold compose.
      rewrite Z2Nat.id, counts_high by lia. destruct (P =? 0) eqn:HP; [done|]. bool_prop.
      rewrite count_zero; [done|]. intros x Hx%hashes_range; lia.
Qed.

Lemma native_row_exact : native_row log1p c t = sketch_row c (native_length log1p) t.
Proof.
  unfold native_row. rewrite native_counts, counted_row by done.
  set (chs := _ <$> arange (Z.to_nat (sk_segments c))). set (post := _ ++ replicate extra zero).
  assert (Hnorm : fold_left native_normalize (seq 0 (Z.to_nat (sk_segments c))) (concat chs ++ post) = sketch_bytes c t ++ post).
  { replace (Z.to_nat (sk_segments c)) with (length chs) by (unfold chs; by rewrite length_fmap, arange_length).
    etrans; [apply (native_normalize_chunks [] chs post 0); [done|]|].
    - apply Forall_fmap, Forall_forall. intros s _. unfold compose. by rewrite length_fmap, arange_length.
    - rewrite app_nil_l. f_equal. unfold chs, sketch_bytes. rewrite <- list_fmap_compose. f_equal.
      apply fmap_ext_in. intros s _. apply normalized_segment. }
  rewrite Hnorm. unfold post. clear chs post Hnorm.
  assert (Hpairs : (if P =? 0 then sketch_bytes c t ++ ((fun h => float32_of_int (count h (hashes c t))) <$> arange (Z.to_nat P)) ++ replicate extra zero
    else fold_left (fun features index =>
           alter (fun x => fdiv32 x (float32_of_int (if 1 <? Z.of_nat (length t) then Z.of_nat (length t) - 1 else 1)))
             (Z.to_nat B + index)%nat features) (seq 0 (Z.to_nat P))
         (sketch_bytes c t ++ ((fun h => float32_of_int (count h (hashes c t))) <$> arange (Z.to_nat P)) ++ replicate extra zero)) =
    sketch_bytes c t ++ sketch_pairs c t ++ replicate extra zero).
  { unfold sketch_pairs. destruct (P =? 0) eqn:HP; bool_prop; [by rewrite HP|].
    rewrite alter_slice; [|by rewrite sketch_bytes_length|by rewrite length_fmap, arange_length].
    rewrite <- list_fmap_compose. do 2 f_equal. apply fmap_ext_in. intros h _. unfold compose, frequency. do 2 f_equal.
    destruct (1 <? Z.of_nat (length t)) eqn:H1; bool_prop; lia. }
  rewrite Hpairs. destruct (sk_include_length c) eqn:Hi.
  - rewrite <- (length_row c t Hseg Hpair (native_length log1p) Hi), Hi. f_equal.
    unfold feature_dimensions. rewrite Hi. simpl. lia.
  - unfold sketch_row. by rewrite Hi.
Qed.
End row.
