(* ===== verification/SketchChecks.v ===== *)
(** * What a sketch accepts, and what it returns

    The checks of [raw_trace_sketch] accept exactly the packed batches, and both
    implementations return the sketch of each trace of the batch. *)

From Stdlib Require SpecFloat.
From S2P Require Import Prelude Batch Floats Features TraceSketch SketchTorch SketchExact SketchNative.

(** ** Packed batches *)

(** The traces [ts], concatenated, with their prefix sums. *)
Definition packed (ts : list (list Z)) (tb off : tensor) : Prop :=
  (t_dtype tb = uint8 /\ t_shape tb = [length (concat ts)] /\ t_data tb = concat ts) /\
  (t_dtype off = int64 /\ t_shape off = [S (length ts)] /\ t_data off = 0 :: cumsum 0 (lens ts)) /\
  t_device off = t_device tb /\ ts <> [] /\ Forall (fun t => t <> []) ts.

Lemma cumsum_length acc l : length (cumsum acc l) = length l.
Proof. revert acc. induction l as [|x l IH]; intros acc; [done|]. simpl. by rewrite IH. Qed.

Lemma concat_size (ts : list (list Z)) : length (concat ts) = sum_list (length <$> ts).
Proof. induction ts as [|t ts IH]; [done|]. simpl. by rewrite length_app, IH. Qed.

Lemma pack_packed rows tb off : Forall tensor_ok rows -> pack_raw_traces rows = Ok (tb, off) ->
  packed (t_data <$> rows) tb off.
Proof.
  intros Hok. unfold pack_raw_traces.
  do 3 (match goal with |- (if ?b then _ else _) = _ -> _ => destruct b eqn:? end; [done|]). intros [= <- <-].
  assert (Hrow : forall r, r ∈ rows -> length (t_data r) = numel r /\ (numel r <> 0)%nat).
  { intros r Hr. split; [exact (proj1 (proj1 (Forall_forall _ _) Hok r Hr))|]. intros Hz.
    enough (existsb (fun r => numel r =? 0)%nat rows = true) by congruence.
    apply existsb_exists. exists r. split; [by apply list_elem_of_In|]. by apply Nat.eqb_eq. }
  assert (Hlens : (fun r => Z.of_nat (numel r)) <$> rows = lens (t_data <$> rows)).
  { unfold lens. rewrite <- list_fmap_compose. apply fmap_ext_in. intros r Hr%Hrow. unfold compose. by destruct Hr as [-> _]. }
  split_and!; simpl; try done.
  - do 2 f_equal. rewrite concat_size, <- list_fmap_compose. f_equal. apply fmap_ext_in. intros r Hr%Hrow. by destruct Hr.
  - by rewrite cumsum_length, !length_fmap.
  - by rewrite Hlens.
  - by destruct rows.
  - apply Forall_fmap, Forall_forall. intros r Hr%Hrow. simpl. destruct Hr as [Hl Hn]. by destruct (t_data r).
Qed.

(** ** Offsets that pass the checks *)

Fixpoint increasing (a : Z) (l : list Z) : Prop :=
  match l with
  | [] => True
  | x :: l => a < x < 2 ^ 63 /\ increasing x l
  end.
Notation steps a l := (zip_with (fun next start => int64_value (next - start)) l (removelast (a :: l))).

Lemma checks_increasing a l : 0 <= a -> Forall (sint 64) l ->
  existsb (fun n => n <=? 0) (steps a l) = false ->
  existsb (fun p => p.1 <? p.2) (zip l (removelast (a :: l))) = false -> increasing a l.
Proof.
  intros Ha Hl. revert a Ha. induction Hl as [|x l Hx _ IH]; intros a Ha; [done|]. unfold sint in Hx. change (2 ^ (64 - 1)) with (2 ^ 63) in Hx.
  change (removelast (a :: x :: l)) with (a :: removelast (x :: l)). cbn [zip_with existsb].
  cbn [fst snd]. intros H1 H2. bool_prop. assert (int64_value (x - a) = x - a) by (apply int64_small; lia).
  split; [lia|]. apply IH; [lia|done|done].
Qed.
Lemma increasing_cut a l : 0 <= a -> increasing a l ->
  cumsum a (steps a l) = l /\ Forall (fun n => 0 < n) (steps a l) /\
  default 0 (last (a :: l)) = a + zsum id (steps a l).
Proof.
  revert a. induction l as [|x l IH]; intros a Ha Hi; [unfold zsum; simpl; split_and!; [done|done|lia]|].
  destruct Hi as [Hx Hi]. destruct (IH x ltac:(lia) Hi) as (H1 & H2 & H3).
  change (removelast (a :: x :: l)) with (a :: removelast (x :: l)). cbn [zip_with].
  rewrite int64_small by lia. cbn [cumsum]. replace (a + (x - a)) with x by lia.
  split_and!; [by f_equal|constructor; [lia|done]|].
  rewrite zsum_cons. change (last (a :: x :: l)) with (last (x :: l)). rewrite H3. change (id (x - a)) with (x - a). lia.
Qed.

(** The traces the lengths cut. *)
Fixpoint cut (ns : list Z) (bytes : list Z) : list (list Z) :=
  match ns with
  | [] => []
  | n :: ns => take (Z.to_nat n) bytes :: cut ns (drop (Z.to_nat n) bytes)
  end.
Lemma cut_exact ns bytes : Forall (fun n => 0 < n) ns -> zsum id ns = Z.of_nat (length bytes) ->
  concat (cut ns bytes) = bytes /\ lens (cut ns bytes) = ns /\ Forall (fun t => t <> []) (cut ns bytes).
Proof.
  intros Hns. revert bytes. induction Hns as [|n ns Hn Hns IH]; intros bytes Hs.
  - destruct bytes; [done|]. unfold zsum in Hs. simpl in Hs. lia.
  - rewrite zsum_cons in Hs. unfold id in Hs at 1.
    assert (0 <= zsum id ns) by (clear -Hns; induction Hns; [done|]; rewrite zsum_cons; unfold id at 1; lia).
    destruct (IH (drop (Z.to_nat n) bytes)) as (H1 & H2 & H3); [rewrite length_drop; lia|].
    cbn [cut concat]. split_and!.
    + by rewrite H1, take_drop.
    + unfold lens in *. rewrite fmap_cons, H2. f_equal. rewrite length_take. lia.
    + constructor; [|done]. intros He%(f_equal length). rewrite length_take in He. simpl in He. lia.
Qed.

Section accepted.
Context (log1p32 log1p : float -> float).

Lemma accepted_packed use_native tb off c : tensor_ok tb -> tensor_ok off ->
  (exists e, raw_trace_sketch log1p32 log1p use_native tb off c = Raise e /\ exn_class e = ValueError) \/
  exists ts, packed ts tb off.
Proof.
  intros [Hbl Hb] [Hol Ho]. unfold raw_trace_sketch.
  match goal with |- context [if ?b then _ else _] => destruct b eqn:H1 end; [left; by eexists|].
  match goal with |- context [if ?b then _ else _] => destruct b eqn:H2 end; [left; by eexists|].
  match goal with |- context [if ?b then _ else _] => destruct b eqn:H3 end; [left; by eexists|].
  match goal with |- context [if ?b then _ else _] => destruct b eqn:H4 end; [left; by eexists|].
  match goal with |- context [if ?b then _ else _] => destruct b eqn:H5 end; [left; by eexists|].
  right. apply orb_false_iff in H1 as [H1a H1b], H2 as [[H2a H2b]%orb_false_iff H2c], H4 as [H4a H4b], H5 as [H5a H5b].
  bool_prop. rewrite H2a in Ho.
  assert (Hshape : forall t : tensor, length (t_shape t) = 1%nat -> t_shape t = [numel t]).
  { intros u Hu. unfold numel. destruct (t_shape u) as [|n [|]]; simpl in *; try lia. by rewrite Nat.mul_1_r. }
  destruct (t_data off) as [|a l] eqn:Hd; [simpl in Hol; lia|]. simpl in H4a. subst a.
  apply Forall_cons in Ho as [_ Ho].
  destruct (increasing_cut 0 l) as (Hc & Hpos & Hlast); [done|by apply checks_increasing|].
  destruct (cut_exact (steps 0 l) (t_data tb) Hpos) as (C1 & C2 & C3).
  { rewrite Hbl, <- H4b, Hlast. lia. }
  assert (Hn : length (cut (steps 0 l) (t_data tb)) = length l).
  { rewrite <- (length_fmap (fun t => Z.of_nat (length t))). fold (lens (cut (steps 0 l) (t_data tb))).
    rewrite C2, <- (cumsum_length 0), Hc. done. }
  exists (cut (steps 0 l) (t_data tb)). unfold packed. rewrite C1, C2, Hc, Hn. split_and!; try done.
  - rewrite Hbl. by apply Hshape.
  - rewrite Hshape by done. rewrite <- Hol. done.
  - intros He. rewrite He in Hn. simpl in *. lia.
Qed.

(** ** The result for a packed batch *)

Lemma starts_bound acc ts : 0 <= acc -> Forall (fun n => 0 <= n < acc + Z.of_nat (length (concat ts)) + 1) (cumsum acc (lens ts)).
Proof.
  revert acc. induction ts as [|t ts IH]; intros acc Ha; [constructor|]. cbn [lens fmap list_fmap cumsum concat].
  rewrite length_app. constructor; [lia|]. eapply Forall_impl; [apply IH; lia|]. simpl. lia.
Qed.

Lemma packed_increasing acc ts : 0 <= acc -> Forall (fun t => t <> []) ts -> acc + Z.of_nat (length (concat ts)) < 2 ^ 63 ->
  increasing acc (cumsum acc (lens ts)) /\ default 0 (last (acc :: cumsum acc (lens ts))) = acc + Z.of_nat (length (concat ts)).
Proof.
  intros Ha Hts. revert acc Ha. induction Hts as [|t ts Ht _ IH]; intros acc Ha Hs; [simpl; split; [done|lia]|].
  cbn [lens fmap list_fmap cumsum concat increasing] in *. rewrite length_app in *.
  assert (0 < Z.of_nat (length t)) by (destruct t; [done|simpl; lia]).
  destruct (IH (acc + Z.of_nat (length t))) as [H1 H2]; [lia|lia|]. split; [split; [lia|done]|].
  etrans; [exact H2|lia].
Qed.

Lemma increasing_checks a l : 0 <= a -> increasing a l ->
  existsb (fun n => n <=? 0) (steps a l) = false /\ existsb (fun p => p.1 <? p.2) (zip l (removelast (a :: l))) = false.
Proof.
  revert a. induction l as [|x l IH]; intros a Ha; [done|]. intros [Hx Hi].
  change (removelast (a :: x :: l)) with (a :: removelast (x :: l)). cbn [zip_with existsb fst snd].
  destruct (IH x ltac:(lia) Hi) as [-> ->]. rewrite int64_small by lia. rewrite !orb_false_r.
  split; [apply Z.leb_gt|apply Z.ltb_ge]; lia.
Qed.

(** The checks of a packed batch pass: the result is that of the implementation. *)
Lemma packed_result use_native tb off c ts : packed ts tb off -> Z.of_nat (length (concat ts)) < 2 ^ 63 ->
  raw_trace_sketch log1p32 log1p use_native tb off c =
  if use_native && bool_decide (t_device tb = cpu) then
    let! rows := native_sketch log1p c (concat ts) (0 :: cumsum 0 (lens ts)) in
    reshape (length (sketch_lengths (0 :: cumsum 0 (lens ts)))) (Z.to_nat (feature_dimensions c)) (concat rows)
  else torch_sketch log1p32 c (concat ts) (0 :: cumsum 0 (lens ts)).
Proof.
  intros ((B1 & B2 & B3) & (O1 & O2 & O3) & Hdev & Hne & Hts) Hs. unfold raw_trace_sketch, numel.
  destruct (packed_increasing 0 ts) as [Hi Hlast]; [done|done|lia|].
  destruct (increasing_checks 0 _ ltac:(done) Hi) as [C1 C2].
  rewrite B1, B2, B3, O1, O2, O3, Hdev, !bool_decide_true by done. rewrite Hlast.
  unfold sketch_lengths at 1. cbn [tail] in *. rewrite C1, C2. cbn [length shape_numel foldr head default].
  replace (S (length ts) * 1 <? 2)%nat with false by (symmetry; apply Nat.ltb_ge; destruct ts; [done|simpl; lia]).
  rewrite Nat.mul_1_r, Z.add_0_l, !Z.eqb_refl. done.
Qed.

(** ** The native module on a packed batch *)

Lemma native_offsets_ok size a l : increasing a l -> default 0 (last (a :: l)) = size -> native_offsets size a l = Ok tt.
Proof.
  revert a. induction l as [|x l IH]; intros a Hi Hl; cbn [native_offsets].
  - simpl in Hl. by rewrite Hl, Z.eqb_refl.
  - destruct Hi as [Hx Hi]. change (last (a :: x :: l)) with (last (x :: l)) in Hl.
    assert (x <= size).
    { clear IH Hx a. revert x Hi Hl. induction l as [|y l IH]; intros x Hi Hl; [simpl in Hl; lia|].
      destruct Hi as [Hy Hi]. change (last (x :: y :: l)) with (last (y :: l)) in Hl. specialize (IH y Hi Hl). lia. }
    replace ((x <=? a) || (size <? x)) with false by (symmetry; apply orb_false_iff; split; [apply Z.leb_gt|apply Z.ltb_ge]; lia).
    by apply IH.
Qed.

Lemma native_rows_packed c pre ts :
  native_rows log1p c (pre ++ concat ts) (Z.of_nat (length pre) :: cumsum (Z.of_nat (length pre)) (lens ts)) = native_row log1p c <$> ts.
Proof.
  revert pre. induction ts as [|t ts IH]; intros pre; [done|]. cbn [lens fmap list_fmap cumsum native_rows concat]. f_equal.
  - f_equal. rewrite Nat2Z.id, drop_app_length, Z.add_simpl_l, Nat2Z.id. apply take_app_length.
  - specialize (IH (pre ++ t)). rewrite length_app, Nat2Z.inj_add, <- app_assoc in IH. exact IH.
Qed.

Lemma sketch_row_length c f t : 0 < sk_segments c -> 0 <= sk_pair_bins c ->
  length (sketch_row c f t) = Z.to_nat (feature_dimensions c).
Proof.
  intros Hs Hp. unfold sketch_row. rewrite !length_app, sketch_bytes_length, sketch_pairs_length, columns_split by done.
  by destruct (sk_include_length c).
Qed.

Lemma chunk_rows_concat {A} columns (rows : list (list A)) : Forall (fun r => length r = columns) rows ->
  chunk_rows (length rows) columns (concat rows) = rows.
Proof.
  induction 1 as [|r rows Hr _ IH]; [done|]. cbn [length chunk_rows concat].
  by rewrite take_app_length', drop_app_length', IH.
Qed.
Lemma reshape_concat {A} n columns (rows : list (list A)) : n = length rows -> Forall (fun r => length r = columns) rows ->
  reshape n columns (concat rows) = Ok rows.
Proof.
  intros -> Hr. unfold reshape.
  assert (Hl : length (concat rows) = (length rows * columns)%nat).
  { induction Hr as [|r rows Hr _ IH]; [done|]. cbn [concat length]. rewrite length_app, IH. lia. }
  rewrite Hl, Nat.eqb_refl. cbn [negb]. by rewrite chunk_rows_concat.
Qed.

Lemma check_config_ok c : check_sketch_config c = Ok tt ->
  0 < sk_segments c /\ 0 <= sk_pair_bins c /\
  negb (sk_pair_bins c =? 0) && negb (Z.land (sk_pair_bins c) (sk_pair_bins c - 1) =? 0) = false.
Proof.
  unfold check_sketch_config. destruct (sk_segments c <=? 0) eqn:H1; [done|]. destruct (_ || _) eqn:H2; [done|]. intros _.
  apply orb_false_iff in H2 as [H2 H3]. bool_prop. split_and!; [lia|lia|done].
Qed.

(** Dimensions that fit the arguments and the result of the native function. *)
Definition native_fits (c : RawTraceSketchConfig) (rows : Z) : Prop :=
  sk_segments c < 2 ^ 32 /\ sk_pair_bins c < 2 ^ 32 /\ rows * (feature_dimensions c * 4) < 2 ^ 63.

Lemma native_sketch_rows c ts : check_sketch_config c = Ok tt -> native_fits c (Z.of_nat (length ts)) ->
  ts <> [] -> Forall (fun t => t <> [] /\ Forall is_byte t) ts -> Forall (fun t => Z.of_nat (length t) <= 2 ^ 24) ts ->
  Z.of_nat (length (concat ts)) * sk_segments c < 2 ^ 63 ->
  native_sketch log1p c (concat ts) (0 :: cumsum 0 (lens ts)) = Ok (sketch_row c (native_length log1p) <$> ts).
Proof.
  intros (Hs & Hp & Hpow)%check_config_ok (Hs32 & Hp32 & Hrows) Hne Hts Hsize Hbytes.
  assert (Htotal : 0 + Z.of_nat (length (concat ts)) < 2 ^ 63) by nia.
  assert (Hnil : Forall (fun t => t <> []) ts) by (eapply Forall_impl; [exact Hts|by intros ? []]).
  destruct (packed_increasing 0 ts) as [Hi Hlast]; [done|done|done|].
  assert (HD : 0 < feature_dimensions c) by (unfold feature_dimensions; destruct (sk_include_length c); simpl; lia).
  assert (Hlen : length (0 :: cumsum 0 (lens ts)) = S (length ts)) by (simpl; by rewrite cumsum_length; unfold lens; rewrite length_fmap).
  unfold native_sketch.
  replace (wrap 64 <$> 0 :: cumsum 0 (lens ts)) with (0 :: cumsum 0 (lens ts)).
  2:{ symmetry. etrans; [|apply list_fmap_id]. apply fmap_ext_in. intros x Hx. apply wrap_small.
      apply elem_of_cons in Hx as [->|Hx]; [by unfold uint|]. pose proof (starts_bound 0 ts ltac:(done)) as Hb.
      rewrite Forall_forall in Hb. specialize (Hb x Hx). cbv beta in Hb. unfold uint, id. lia. }
  rewrite !wrap_small by (unfold uint; lia). rewrite Hlen.
  replace (MkSketch (sk_segments c) (sk_pair_bins c) (sk_include_length c)) with c by (by destruct c).
  rewrite Hpow. replace (sk_segments c =? 0) with false by (symmetry; apply Z.eqb_neq; lia).
  replace (S (length ts) <? 2)%nat with false by (symmetry; apply Nat.ltb_ge; destruct ts; [done|simpl; lia]). cbn [orb].
  replace (_ / 256 <? sk_segments c) with false by (symmetry; apply Z.ltb_ge, Z.div_le_lower_bound; lia).
  replace (_ / 4 <? _) with false
    by (symmetry; apply Z.ltb_ge, Z.div_le_lower_bound; [lia|]; apply Z.div_le_lower_bound; lia).
  rewrite Z.eqb_refl. cbn [negb]. rewrite native_offsets_ok by done. cbn [rbind].
  f_equal. etrans; [apply (native_rows_packed c [])|]. apply fmap_ext_in. intros t Ht.
  rewrite Forall_forall in Hts, Hsize. destruct (Hts t Ht) as [Hn Hb].
  assert (Z.of_nat (length t) <= Z.of_nat (length (concat ts))).
  { clear -Ht. induction Ht as [t ts|t t' ts Ht IH]; cbn [concat]; rewrite length_app; lia. }
  apply native_row_exact; try done; [by apply Hsize|nia].
Qed.
End accepted.

(** C35: both sketch implementations compute the same sketch, the one of each trace alone. For a
    valid configuration whose sizes fit 64 bits, whatever the tensors: the batch is accepted
    exactly when its bytes are a nonempty sequence of nonempty traces and its offsets their
    prefix sums, which is what [pack_raw_traces] makes, and refused with a [ValueError]
    otherwise. The result then has one row for each trace, made of the frequencies of the bytes
    of each segment, of the hashed pairs of adjacent bytes, and the length feature. The native
    loop, which counts in binary32 floats, returns the same frequencies to the last bit
    provided no trace has more than 2^24 bytes; only the length feature is rounded differently. *)
Theorem sketch_exact (log1p32 log1p : float -> float) (use_native : bool) (c : RawTraceSketchConfig) (tb off : tensor)
  (Hc : check_sketch_config c = Ok tt) (Htb : tensor_ok tb) (Hoff : tensor_ok off)
  (Hbytes : Z.of_nat (numel tb) * sk_segments c < 2 ^ 63) (Hrows : native_fits c (Z.of_nat (numel off)))
  (Hcounters : use_native = true -> Forall (fun n => n <= 2 ^ 24) (sketch_lengths (t_data off))) :
  let native := use_native && bool_decide (t_device tb = cpu) in
  let length_feature := if native then native_length log1p else torch_length log1p32 in
  match raw_trace_sketch log1p32 log1p use_native tb off c with
  | Ok rows => exists ts, packed ts tb off /\ rows = sketch_row c length_feature <$> ts
  | Raise e => exn_class e = ValueError /\ ~ exists ts, packed ts tb off
  end /\
  forall traces, Forall tensor_ok traces -> pack_raw_traces traces = Ok (tb, off) -> packed (t_data <$> traces) tb off.
Proof.
  split; [|by intros traces; apply pack_packed].
  assert (Hpacked : forall ts, packed ts tb off -> raw_trace_sketch log1p32 log1p use_native tb off c =
    Ok (sketch_row c (if use_native && bool_decide (t_device tb = cpu) then native_length log1p else torch_length log1p32) <$> ts)).
  { intros ts Hp. pose proof (check_config_ok c Hc) as (Hs & Hpb & _).
    destruct Hp as ((B1 & B2 & B3) & (O1 & O2 & O3) & Hdev & Hne & Hnil) eqn:Hq. clear Hq.
    assert (Hn : numel tb = length (concat ts)) by (unfold numel; rewrite B2; simpl; lia).
    assert (Ho : numel off = S (length ts)) by (unfold numel; rewrite O2; simpl; lia).
    rewrite Hn in Hbytes. rewrite Ho in Hrows. destruct Hrows as (R1 & R2 & R3).
    assert (Hts : Forall (fun t => t <> [] /\ Forall is_byte t) ts).
    { apply Forall_and. split; [done|]. apply Forall_concat. rewrite <- B3. destruct Htb as [_ Hb]. rewrite B1 in Hb. exact Hb. }
    assert (HD : 0 < feature_dimensions c) by (unfold feature_dimensions; destruct (sk_include_length c); simpl; lia).
    rewrite (packed_result _ _ _ _ _ _ ts Hp) by nia.
    pose proof (lengths_packed c ts Hs Hts Hbytes) as Hl.
    destruct (use_native && bool_decide (t_device tb = cpu)) eqn:Hnat.
    - apply andb_prop in Hnat as [-> _]. specialize (Hcounters eq_refl). rewrite O3, Hl in Hcounters.
      rewrite native_sketch_rows; [|done|split_and!; lia|done|done|exact (proj1 (Forall_fmap _ _ _) Hcounters)|done].
      cbn [rbind]. rewrite Hl. apply reshape_concat.
      + unfold lens. by rewrite !length_fmap.
      + apply Forall_fmap, Forall_forall. intros t _. by apply sketch_row_length.
    - apply torch_sketch_rows; [done|done|done|done|nia]. }
  destruct (accepted_packed log1p32 log1p use_native tb off c Htb Hoff) as [(e & He & Hv)|[ts Hp]].
  - rewrite He. split; [done|]. intros [ts Hp]. rewrite (Hpacked ts Hp) in He. done.
  - rewrite (Hpacked ts Hp). by exists ts.
Qed.

(** Two traces through both implementations. *)
Definition example_config : RawTraceSketchConfig := MkSketch 2 8 false.
Definition example_traces : list tensor := [Tensor uint8 cpu [4%nat] [1; 2; 1; 2]; Tensor uint8 cpu [3%nat] [2; 1; 5]].
Notation example_bytes := (Tensor uint8 cpu [7%nat] [1; 2; 1; 2; 2; 1; 5]).
Notation example_offsets := (Tensor int64 cpu [3%nat] [0; 4; 7]).

Lemma sketch_exact_witness :
  pack_raw_traces example_traces = Ok (example_bytes, example_offsets) /\
  packed [[1; 2; 1; 2]; [2; 1; 5]] example_bytes example_offsets /\
  exists rows, raw_trace_sketch id id true example_bytes example_offsets example_config = Ok rows /\
    raw_trace_sketch id id false example_bytes example_offsets example_config = Ok rows.
Proof.
  assert (Hok : Forall tensor_ok example_traces /\ tensor_ok example_bytes /\ tensor_ok example_offsets).
  { split_and!; unfold tensor_ok, elem_ok, uint, sint, example_traces; repeat constructor; simpl; lia. }
  assert (Hfits : native_fits example_config 3) by (unfold native_fits; split_and!; vm_compute; reflexivity).
  assert (Hsmall : Forall (fun n => n <= 2 ^ 24) (sketch_lengths (t_data example_offsets))).
  { change (sketch_lengths (t_data example_offsets)) with [4; 3]. repeat constructor; lia. }
  destruct Hok as (H1 & H2 & H3).
  destruct (sketch_exact id id true example_config example_bytes example_offsets eq_refl H2 H3 ltac:(vm_compute; reflexivity)
    Hfits (fun _ => Hsmall)) as [Hnative Hpack].
  assert (Hp : pack_raw_traces example_traces = Ok (example_bytes, example_offsets)) by (vm_compute; reflexivity).
  split; [exact Hp|]. split; [exact (Hpack example_traces H1 Hp)|].
  eexists. split; vm_compute; reflexivity.
Defined.

(** Past 2^24 increments a native counter no longer counts, while torch rounds the exact count. *)
Lemma native_counter_saturates :
  bump 0 [float32_of_int (2 ^ 24)] = [float32_of_int (2 ^ 24)] /\ float32_of_int (2 ^ 24 + 2) <> float32_of_int (2 ^ 24).
Proof. split; [vm_compute; reflexivity|vm_compute; discriminate]. Qed.
