(* ===== verification/PretrainData.v ===== *)
(** * Streaming next-block data ([examples/pretrain_kernel.py])

    [BlockPairs] turns batches of block addresses into pairs of consecutive
    tokens, one stream for each worker and vCPU; [PairBatches] cuts the pairs
    into minibatches of one size, in buffers it hands out; [HeldOutBatches] keeps
    a bounded reservoir of them. Buffers live in a heap, so that handing one out
    and writing to it again can be told apart. *)

From S2P Require Import Prelude Batch.

(** ** [BlockPairs] *)

Notation stream := (Z * option Z)%type.

Record BlockPairs := MkBlockPairs { bp_vocabulary : Z; bp_previous : gmap stream Z }.

Definition new_block_pairs (vocabulary : Z) : result BlockPairs :=
  raise! ValueError "Vocabulary must be a power of two between 16 and 4096"
    when (vocabulary <? 16) || (4096 <? vocabulary) || negb (Z.land vocabulary (vocabulary - 1) =? 0) in
  Ok (MkBlockPairs vocabulary ∅).

(** [((addresses >> 2) ^ (addresses >> 12)) & (bins - 1)] *)
Definition block_token (bins address : Z) : Z :=
  Z.land (Z.lxor (Z.shiftr address 2) (Z.shiftr address 12)) (bins - 1).

(** Consecutive elements. *)
Definition adjacent {A} (l : list A) : list (A * A) := zip (removelast l) (tail l).

Definition add_blocks (w : Z) (b : Batch) (p : BlockPairs) : list (Z * Z) * BlockPairs :=
  match block_token (bp_vocabulary p) <$> t_data (addresses b) with
  | [] => ([], p)
  | tokens =>
      let key := (w, source b) in
      let p' := MkBlockPairs (bp_vocabulary p) (<[key := List.last tokens 0]> (bp_previous p)) in
      (match bp_previous p !! key with
       | None => adjacent tokens
       | Some previous => zip (previous :: removelast tokens) tokens
       end, p')
  end.

Definition end_worker (w : Z) (p : BlockPairs) : BlockPairs :=
  MkBlockPairs (bp_vocabulary p) (filter (fun kv => kv.1.1 <> w) (bp_previous p)).

(** ** [PairBatches] *)

Abbreviation pairs := (list (Z * Z)).
(** The buffers, by location. *)
Abbreviation heap := (list pairs).

Record PairBatches := MkPairBatches { pb_size : nat; pb_data : nat; pb_used : nat }.

Section pair_batches.
(** What [torch.empty] leaves in the cells of its [n]-th buffer. *)
Context (junk : nat -> nat -> Z * Z).

Definition torch_empty (size : nat) (h : heap) : nat * heap := (length h, h ++ [junk (length h) <$> seq 0 size]).

Definition new_pair_batches (size : Z) (h : heap) : result (PairBatches * heap) :=
  raise! ValueError "Minibatch size must be positive" when size <? 1 in
  let '(data, h) := torch_empty (Z.to_nat size) h in
  Ok (MkPairBatches (Z.to_nat size) data 0, h).

(** [buffer[offset:offset + len(values)].copy_(values)] *)
Definition copy_into (loc offset : nat) (values : pairs) (h : heap) : heap :=
  alter (fun buf => take offset buf ++ values ++ drop (offset + length values) buf) loc h.

(** The loop of [add], consumed to its end: the buffers it yields. *)
Fixpoint add_loop (fuel offset : nat) (l : pairs) (b : PairBatches) (h : heap) : list nat * (PairBatches * heap) :=
  match fuel with
  | O => ([], (b, h))
  | S fuel =>
      if (offset <? length l)%nat then
        let count := Nat.min (pb_size b - pb_used b) (length l - offset) in
        let h := copy_into (pb_data b) (pb_used b) (take count (drop offset l)) h in
        let used := (pb_used b + count)%nat in
        if (used =? pb_size b)%nat then
          let '(data, h) := torch_empty (pb_size b) h in
          let '(full, r) := add_loop fuel (offset + count) l (MkPairBatches (pb_size b) data 0) h in
          (pb_data b :: full, r)
        else add_loop fuel (offset + count) l (MkPairBatches (pb_size b) (pb_data b) used) h
      else ([], (b, h))
  end.
Definition pair_batches_add (l : pairs) (b : PairBatches) (h : heap) : list nat * (PairBatches * heap) :=
  add_loop (S (length l)) 0 l b h.

(** [self._data[:self._used].clone()] *)
Definition pair_batches_finish (b : PairBatches) (h : heap) : nat * (PairBatches * heap) :=
  (length h, (MkPairBatches (pb_size b) (pb_data b) 0, h ++ [take (pb_used b) (default [] (h !! pb_data b))])).
End pair_batches.

(** ** [HeldOutBatches] *)

(** A generator of uniform integers below a bound. *)
Class RandintOps (G : Type) := { manual_seed : Z -> G; randint : nat -> G -> nat * G }.
Class RandintLaws (G : Type) `{RandintOps G} := { randint_below n g : (0 < n)%nat -> ((randint n g).1 < n)%nat }.

Record HeldOutBatches (G A : Type) := MkHeldOut { ho_limit : nat; ho_random : G; ho_seen : nat; ho_batches : list A }.
Arguments MkHeldOut {G A}.
Arguments ho_limit {G A}.
Arguments ho_random {G A}.
Arguments ho_seen {G A}.
Arguments ho_batches {G A}.

Section held_out.
Context {G : Type} `{RandintOps G} {A : Type}.

Definition new_held_out (limit seed : Z) : result (HeldOutBatches G A) :=
  raise! ValueError "Keep at least one test minibatch" when limit <? 1 in
  Ok (MkHeldOut (Z.to_nat limit) (manual_seed seed) 0 []).

(** [add], for a minibatch of [rows] rows. *)
Definition hold_out (rows : nat) (batch : A) (t : HeldOutBatches G A) : HeldOutBatches G A :=
  if (rows =? 0)%nat then t
  else
    let seen := S (ho_seen t) in
    if (length (ho_batches t) <? ho_limit t)%nat
    then MkHeldOut (ho_limit t) (ho_random t) seen (ho_batches t ++ [batch])
    else
      let '(selected, g) := randint seen (ho_random t) in
      MkHeldOut (ho_limit t) g seen
        (if (selected <? ho_limit t)%nat then <[selected := batch]> (ho_batches t) else ho_batches t).
End held_out.

(** ** Pairs are those of one stream *)

(** What happens to a [BlockPairs]: batches of workers, and ends of workers. *)
Inductive block_event := BlocksOf (w : Z) (b : Batch) | EndOf (w : Z).

Definition block_step (e : block_event) (p : BlockPairs) : list (stream * list (Z * Z)) * BlockPairs :=
  match e with
  | BlocksOf w b => let '(l, p) := add_blocks w b p in ([((w, source b), l)], p)
  | EndOf w => ([], end_worker w p)
  end.
Fixpoint block_run (es : list block_event) (p : BlockPairs) : list (stream * list (Z * Z)) * BlockPairs :=
  match es with
  | [] => ([], p)
  | e :: es => let '(l, p) := block_step e p in let '(l', p) := block_run es p in (l ++ l', p)
  end.

(** The pairs of one stream. *)
Definition pairs_of (k : stream) (l : list (stream * list (Z * Z))) : list (Z * Z) :=
  concat (snd <$> filter (fun p => p.1 = k) l).

(** The tokens of one stream, in runs that an end of its worker closes. *)
Fixpoint token_runs (vocabulary : Z) (k : stream) (current : list Z) (es : list block_event) : list (list Z) :=
  match es with
  | [] => [current]
  | BlocksOf w b :: es =>
      token_runs vocabulary k
        (if decide ((w, source b) = k) then current ++ (block_token vocabulary <$> t_data (addresses b)) else current) es
  | EndOf w :: es =>
      if decide (w = k.1) then current :: token_runs vocabulary k [] es else token_runs vocabulary k current es
  end.

Lemma adjacent_app {A} (l1 l2 : list A) x : last l1 = Some x -> l2 <> [] ->
  adjacent (l1 ++ l2) = adjacent l1 ++ zip (x :: removelast l2) l2.
Proof.
  revert x. induction l1 as [|a l1 IH]; intros x Hl Hn; [done|]. destruct l1 as [|b l1].
  - injection Hl as ->. destruct l2 as [|c l2]; [done|]. done.
  - change ((a :: b :: l1) ++ l2) with (a :: b :: (l1 ++ l2)). unfold adjacent in *. cbn [removelast tail zip_with].
    specialize (IH x Hl Hn). cbn [tail app] in IH. cbn [removelast app] in *. by rewrite IH.
Qed.

Lemma last_default {A} (l : list A) d : l <> [] -> last l = Some (List.last l d).
Proof.
  induction l as [|a l IH]; [done|]. intros _. destruct l as [|b l]; [done|]. by apply IH.
Qed.

(** What one batch adds to its stream. *)
Lemma add_blocks_spec w b p current :
  bp_previous p !! (w, source b) = last current ->
  let tokens := block_token (bp_vocabulary p) <$> t_data (addresses b) in
  adjacent current ++ (add_blocks w b p).1 = adjacent (current ++ tokens) /\
  bp_previous (add_blocks w b p).2 !! (w, source b) = last (current ++ tokens) /\
  bp_vocabulary (add_blocks w b p).2 = bp_vocabulary p /\
  forall k, k <> (w, source b) -> bp_previous (add_blocks w b p).2 !! k = bp_previous p !! k.
Proof.
  intros Hp. unfold add_blocks. cbv zeta. destruct (block_token _ <$> _) as [|t ts] eqn:Hts.
  { rewrite !app_nil_r. done. }
  rewrite Hp. cbn [fst snd bp_previous bp_vocabulary]. split_and!.
  - destruct (last current) as [x|] eqn:Hl.
    + by rewrite (adjacent_app _ _ x).
    + apply last_None in Hl as ->. done.
  - rewrite lookup_insert_eq, last_app_cons. symmetry. by apply (last_default (t :: ts) 0).
  - done.
  - intros k Hk. by rewrite lookup_insert_ne.
Qed.

Lemma pairs_of_app k l1 l2 : pairs_of k (l1 ++ l2) = pairs_of k l1 ++ pairs_of k l2.
Proof. unfold pairs_of. by rewrite filter_app, fmap_app, concat_app. Qed.

Lemma block_run_runs k es : forall p current, bp_previous p !! k = last current ->
  adjacent current ++ pairs_of k (block_run es p).1 = concat (adjacent <$> token_runs (bp_vocabulary p) k current es).
Proof.
  induction es as [|[w b|w] es IH]; intros p current Hp; cbn [block_run token_runs block_step].
  - simpl. by rewrite !app_nil_r.
  - destruct (add_blocks w b p) as [l p'] eqn:Hadd. destruct (block_run es p') as [l' p''] eqn:Hrun.
    assert (Hl' : l' = (block_run es p').1) by (by rewrite Hrun). cbn [fst]. rewrite (pairs_of_app k [((w, source b), l)]).
    case_decide as Hk.
    + subst k. destruct (add_blocks_spec w b p current Hp) as (H1 & H2 & H3 & _). rewrite Hadd in H1, H2, H3. simpl in *.
      unfold pairs_of at 1. rewrite filter_cons_True by done. simpl. rewrite app_nil_r, app_assoc, H1, Hl'.
      rewrite IH by done. by rewrite H3.
    + unfold pairs_of at 1. rewrite filter_cons_False by done. simpl. rewrite Hl'.
      assert (Hp' : bp_previous p' !! k = bp_previous p !! k /\ bp_vocabulary p' = bp_vocabulary p).
      { unfold add_blocks in Hadd. destruct (block_token _ <$> _); injection Hadd as <- <-; simpl; [done|].
        by rewrite lookup_insert_ne. }
      destruct Hp' as [Hp1 Hp2]. rewrite IH by (by rewrite Hp1). by rewrite Hp2.
  - destruct (block_run es (end_worker w p)) as [l' p''] eqn:Hrun. simpl.
    assert (Hl' : l' = (block_run es (end_worker w p)).1) by (by rewrite Hrun). rewrite Hl'. case_decide as Hw.
    + rewrite fmap_cons. cbn [concat]. f_equal. etrans; [|apply (IH (end_worker w p) [])]; [done|].
      apply map_lookup_filter_None. right. intros x _ Hx. by apply Hx.
    + rewrite (IH (end_worker w p) current); [done|]. simpl. rewrite <- Hp.
      destruct (bp_previous p !! k) as [x|] eqn:Hx.
      * apply map_lookup_filter_Some. split; [done|]. simpl. congruence.
      * apply map_lookup_filter_None. by left.
Qed.

(** Pairs never cross streams. Whatever the order in which the batches of the workers and
    their vCPUs arrive and however each stream is cut into batches, the pairs obtained for one
    stream are exactly the consecutive tokens of that stream, restarting only where its worker
    ended; and every token is within the vocabulary. *)
Theorem block_pairs_exact (vocabulary : Z) (p : BlockPairs) (k : stream) (es : list block_event)
  (Hnew : new_block_pairs vocabulary = Ok p) :
  pairs_of k (block_run es p).1 = concat (adjacent <$> token_runs vocabulary k [] es) /\
  Forall (fun ts => Forall (fun t => 0 <= t < vocabulary) ts) (token_runs vocabulary k [] es).
Proof.
  unfold new_block_pairs in Hnew. destruct (_ || _) eqn:Hv; [done|]. injection Hnew as <-. bool_prop. split.
  - apply (block_run_runs k es (MkBlockPairs vocabulary ∅) []). apply lookup_empty.
  - assert (Hc : Forall (fun t => 0 <= t < vocabulary) []) by constructor. revert Hc.
    generalize (@nil Z) as current. induction es as [|[w b|w] es IH]; intros current Hc; cbn [token_runs].
    + by constructor.
    + apply IH. case_decide; [|done]. apply Forall_app. split; [done|]. apply Forall_fmap, Forall_forall. intros a _.
      unfold compose, block_token. pose proof (land_below (Z.lxor (Z.shiftr a 2) (Z.shiftr a 12)) (vocabulary - 1)). lia.
    + case_decide; [constructor; [done|]|]; apply IH; [constructor|done].
Qed.

(** ** Minibatches own their storage *)

Lemma length_copy_into loc offset values h : length (copy_into loc offset values h) = length h.
Proof. apply length_alter. Qed.
Lemma lookup_copy_into loc offset values h buf : h !! loc = Some buf -> (offset + length values <= length buf)%nat ->
  exists buf', copy_into loc offset values h !! loc = Some buf' /\ length buf' = length buf /\
    take (offset + length values) buf' = take offset buf ++ values.
Proof.
  intros Hl Hle. unfold copy_into. rewrite list_lookup_alter_eq, Hl. eexists. split; [done|]. split.
  - rewrite !length_app, length_take, length_drop. lia.
  - rewrite app_assoc. apply take_app_length'. rewrite length_app, length_take. lia.
Qed.

Section storage.
Context (junk : nat -> nat -> Z * Z).

(** A cutter that holds [held] in its buffer, which is not full. *)
Definition cutter_ok (b : PairBatches) (h : heap) (held : pairs) : Prop :=
  (pb_used b < pb_size b)%nat /\
  exists buf, h !! pb_data b = Some buf /\ length buf = pb_size b /\ take (pb_used b) buf = held.

(** Buffers handed out: each at its own location, with its rows. *)
Definition owned (h : heap) (locs : list nat) (chunks : list pairs) : Prop :=
  Forall2 (fun loc chunk => h !! loc = Some chunk) locs chunks.

(** From [b] to [b'] a cutter touches nothing but its own buffers: the one it had and new ones. *)
Definition touches (b : PairBatches) (h h' : heap) : Prop :=
  (length h <= length h')%nat /\ forall loc, loc <> pb_data b -> (loc < length h)%nat -> h' !! loc = h !! loc.

Definition cut_spec (l : pairs) (b : PairBatches) (h : heap) (held : pairs) (r : list nat * (PairBatches * heap)) : Prop :=
  let '(locs, (b', h')) := r in
  exists chunks held', owned h' locs chunks /\ Forall (fun c => length c = pb_size b) chunks /\
    concat chunks ++ held' = held ++ l /\ cutter_ok b' h' held' /\ pb_size b' = pb_size b /\
    touches b h h' /\ NoDup locs /\ pb_data b' ∉ locs /\
    Forall (fun loc => loc = pb_data b \/ (length h <= loc)%nat) (pb_data b' :: locs).

Lemma add_loop_spec fuel : forall offset l b h held, (length l - offset < fuel)%nat -> cutter_ok b h held ->
  cut_spec (drop offset l) b h held (add_loop junk fuel offset l b h).
Proof.
  induction fuel as [|fuel IH]; intros offset l b h held Hf Hok; [lia|]. cbn [add_loop].
  destruct (offset <? length l)%nat eqn:Ho.
  2:{ bool_prop. rewrite drop_ge by lia. exists [], held. rewrite !app_nil_r.
      split_and!; [constructor|constructor|done|done|done|by split|constructor|by apply not_elem_of_nil|].
      apply Forall_singleton. by left. }
  bool_prop. destruct Hok as (Hu & buf & Hb & Hlen & Hheld).
  set (count := Nat.min (pb_size b - pb_used b) (length l - offset)).
  set (values := take count (drop offset l)).
  assert (Hv : length values = count) by (unfold values; rewrite length_take, length_drop; lia).
  destruct (lookup_copy_into (pb_data b) (pb_used b) values h buf Hb) as (buf' & Hb' & Hl' & Ht'); [lia|].
  rewrite Hv, Hheld in Ht'. set (h1 := copy_into _ _ _ h) in *.
  assert (Hh1 : length h1 = length h) by apply length_copy_into.
  assert (Hdata : (pb_data b < length h)%nat) by (by eapply lookup_lt_Some).
  assert (Hrest : drop offset l = values ++ drop (offset + count) l) by (unfold values; by rewrite <- drop_drop, take_drop).
  assert (Hsame : forall loc, loc <> pb_data b -> h1 !! loc = h !! loc) by (intros loc Hloc; by apply list_lookup_alter_ne).
  destruct (pb_used b + count =? pb_size b)%nat eqn:Hfull; bool_prop.
  - unfold torch_empty. rewrite Hh1. set (b1 := MkPairBatches _ _ _). set (h2 := h1 ++ _).
    assert (Hok2 : cutter_ok b1 h2 []).
    { split; [simpl; lia|]. exists (junk (length h) <$> seq 0 (pb_size b)). simpl. unfold h2.
      rewrite <- Hh1 at 1. rewrite list_lookup_middle by done. by rewrite length_fmap, length_seq. }
    assert (Hl2 : length h2 = S (length h)) by (unfold h2; rewrite length_app, Hh1; simpl; lia).
    specialize (IH (offset + count)%nat l b1 h2 [] ltac:(lia) Hok2).
    destruct (add_loop _ _ _ _ b1 h2) as [locs [b' h']].
    destruct IH as (chunks & held' & Hown & Hsz & Hc & Hok' & Hsize & [Hle Htouch] & Hnd & Hdn & Hfresh).
    assert (Hchunk : h' !! pb_data b = Some (held ++ values)).
    { rewrite Htouch by (simpl; lia). unfold h2. rewrite lookup_app_l by lia. rewrite Hb'. f_equal.
      rewrite <- Ht'. symmetry. apply take_ge. lia. }
    assert (Hnew : forall loc, loc ∈ pb_data b' :: locs -> (length h <= loc)%nat).
    { intros loc Hin. rewrite Forall_forall in Hfresh. destruct (Hfresh loc Hin) as [->|?]; [done|lia]. }
    exists ((held ++ values) :: chunks), held'. split_and!; try done.
    + by constructor.
    + constructor; [|done]. rewrite <- Hheld, length_app, length_take. lia.
    + simpl. rewrite <- app_assoc, Hc, Hrest, app_nil_l, app_assoc. done.
    + split; [lia|]. intros loc H1 H2. rewrite Htouch by (simpl; lia). unfold h2. rewrite lookup_app_l by lia. by apply Hsame.
    + constructor; [|done]. intros Hin. specialize (Hnew (pb_data b) ltac:(by right)). lia.
    + intros [Heq|Hin]%elem_of_cons; [|done]. specialize (Hnew (pb_data b') ltac:(left)). lia.
    + constructor; [right; apply Hnew; left|]. constructor; [by left|].
      apply Forall_forall. intros loc Hin. right. apply Hnew. by right.
  - set (b1 := MkPairBatches _ _ _).
    assert (Hok2 : cutter_ok b1 h1 (held ++ values)) by (split; [simpl; lia|]; exists buf'; split_and!; [done|by rewrite Hl'|done]).
    specialize (IH (offset + count)%nat l b1 h1 _ ltac:(lia) Hok2).
    destruct (add_loop _ _ _ _ b1 h1) as [locs [b' h']].
    destruct IH as (chunks & held' & Hown & Hsz & Hc & Hok' & Hsize & [Hle Htouch] & Hnd & Hdn & Hfresh).
    exists chunks, held'. simpl in *. split_and!; try done; [by rewrite Hrest, Hc, <- app_assoc| |by rewrite <- Hh1].
    split; [lia|]. intros loc H1 H2. rewrite Htouch by (done || lia). by apply Hsame.
Qed.

Lemma pair_batches_add_spec l b h held : cutter_ok b h held -> cut_spec l b h held (pair_batches_add junk l b h).
Proof. intros Hok. apply (add_loop_spec _ 0); [lia|done]. Qed.

Lemma owned_below h locs chunks loc : owned h locs chunks -> loc ∈ locs -> (loc < length h)%nat.
Proof.
  induction 1 as [|l c ls cs Hl _ IH]; [by intros ?%elem_of_nil|].
  intros [->|Hin]%elem_of_cons; [by eapply lookup_lt_Some|by apply IH].
Qed.
Lemma owned_touched b h h' locs chunks : pb_data b ∉ locs -> touches b h h' -> owned h locs chunks -> owned h' locs chunks.
Proof.
  intros Hn [_ Ht] Ho. induction Ho as [|loc chunk locs chunks Hl _ IH]; [constructor|].
  apply not_elem_of_cons in Hn as [Hne Hn]. constructor; [|by apply IH].
  rewrite Ht; [done|congruence|by eapply lookup_lt_Some].
Qed.

Lemma cut_spec_app l1 l2 b h held locs1 b1 h1 locs2 r : cut_spec l1 b h held (locs1, (b1, h1)) ->
  (forall held1, cutter_ok b1 h1 held1 -> cut_spec l2 b1 h1 held1 (locs2, r)) ->
  cut_spec (l1 ++ l2) b h held (locs1 ++ locs2, r).
Proof.
  intros (chunks1 & held1 & Ho1 & Hs1 & Hc1 & Hok1 & Hsz1 & [Hle1 Ht1] & Hnd1 & Hd1 & Hf1) H2.
  specialize (H2 held1 Hok1). destruct r as [b2 h2].
  destruct H2 as (chunks2 & held2 & Ho2 & Hs2 & Hc2 & Hok2 & Hsz2 & [Hle2 Ht2] & Hnd2 & Hd2 & Hf2).
  rewrite Hsz1 in *. apply Forall_cons in Hf1 as [Hfd1 Hf1].
  assert (Hlt : forall loc, loc ∈ locs1 -> (loc < length h1)%nat).
  { intros loc. by eapply owned_below. }
  assert (Hsep : forall loc, loc ∈ pb_data b2 :: locs2 -> loc = pb_data b1 \/ (length h1 <= loc)%nat).
  { rewrite Forall_forall in Hf2. auto. }
  exists (chunks1 ++ chunks2), held2. split_and!; try done.
  - apply Forall2_app; [|done]. by apply (owned_touched b1 h1).
  - by apply Forall_app.
  - rewrite concat_app, <- app_assoc, Hc2, !app_assoc. by rewrite Hc1.
  - split; [lia|]. intros loc Hloc Hin. rewrite Ht2; [by apply Ht1| |lia]. intros ->. destruct Hfd1 as [?|?]; [done|lia].
  - apply NoDup_app. split_and!; [done| |done]. intros loc Hin Hin2.
    destruct (Hsep loc) as [->|Hge]; [by right|done|]. specialize (Hlt loc Hin). lia.
  - intros [Hin|Hin]%elem_of_app; [|done]. destruct (Hsep (pb_data b2)) as [Heq|Hge]; [left|by rewrite Heq in Hin|].
    specialize (Hlt _ Hin). lia.
  - assert (Hmove : forall loc, loc ∈ pb_data b2 :: locs2 -> loc = pb_data b \/ (length h <= loc)%nat).
    { intros loc [->|Hge]%Hsep; [done|lia]. }
    constructor; [apply Hmove; left|]. apply Forall_app. split; [done|].
    apply Forall_forall. intros loc Hin. apply Hmove. by right.
Qed.

(** Several additions, and the buffers they hand out. *)
Fixpoint add_all (ls : list pairs) (b : PairBatches) (h : heap) : list nat * (PairBatches * heap) :=
  match ls with
  | [] => ([], (b, h))
  | l :: ls =>
      let '(locs, (b, h)) := pair_batches_add junk l b h in
      let '(locs', r) := add_all ls b h in (locs ++ locs', r)
  end.

Lemma add_all_spec ls : forall b h held, cutter_ok b h held -> cut_spec (concat ls) b h held (add_all ls b h).
Proof.
  induction ls as [|l ls IH]; intros b h held Hok; cbn [add_all concat].
  - exists [], held. rewrite app_nil_r.
    split_and!; [constructor|constructor|done|done|done|by split|constructor|by apply not_elem_of_nil|].
    apply Forall_singleton. by left.
  - pose proof (pair_batches_add_spec l b h held Hok) as Hl.
    destruct (pair_batches_add junk l b h) as [locs [b1 h1]].
    destruct (add_all ls b1 h1) as [locs' r] eqn:Hr.
    eapply cut_spec_app; [exact Hl|]. intros held1 Hok1. rewrite <- Hr. by apply IH.
Qed.
End storage.

(** Minibatches own their storage and lose nothing. Whatever is added in whatever portions:
    read at the very end, after every later addition, the buffers handed out and the final
    partial one hold exactly the pairs added, in order; each full one has the configured size;
    they lie at different locations, none of which the cutter still writes to, and no buffer of
    anyone else was touched. *)
Theorem minibatches_own_storage (junk : nat -> nat -> Z * Z) (size : Z) (h h0 : heap) (b : PairBatches) (ls : list pairs)
  (Hnew : new_pair_batches junk size h = Ok (b, h0)) :
  let '(locs, (b1, h1)) := add_all junk ls b h0 in
  let '(partial, (b2, h2)) := pair_batches_finish b1 h1 in
  exists chunks rest, owned h2 locs chunks /\ h2 !! partial = Some rest /\
    concat chunks ++ rest = concat ls /\ Forall (fun c => Z.of_nat (length c) = size) chunks /\
    Z.of_nat (length rest) < size /\ NoDup (pb_data b2 :: partial :: locs) /\
    forall loc, (loc < length h)%nat -> h2 !! loc = h !! loc.
Proof.
  unfold new_pair_batches, torch_empty in Hnew. destruct (size <? 1) eqn:Hs; [done|]. bool_prop. injection Hnew as <- <-.
  set (b := MkPairBatches _ _ _). set (h0 := h ++ _).
  assert (Hl0 : length h0 = S (length h)) by (unfold h0; rewrite length_app; simpl; lia).
  assert (Hok : cutter_ok b h0 []).
  { split; [simpl; lia|]. exists (junk (length h) <$> seq 0 (Z.to_nat size)). simpl. unfold h0.
    rewrite list_lookup_middle by done. by rewrite length_fmap, length_seq. }
  pose proof (add_all_spec junk ls b h0 [] Hok) as Hspec. destruct (add_all junk ls b h0) as [locs [b1 h1]].
  destruct Hspec as (chunks & held & Ho & Hsz & Hc & (Hu & buf & Hb & Hlen & Hheld) & Hsize & [Hle Ht] & Hnd & Hd & Hf).
  unfold pair_batches_finish. rewrite Hb. simpl. rewrite Hheld.
  assert (Hlt : forall loc, loc ∈ pb_data b1 :: locs -> (loc < length h1)%nat).
  { intros loc [->|Hin]%elem_of_cons; [by eapply lookup_lt_Some|by eapply owned_below]. }
  exists chunks, held. split_and!.
  - eapply Forall2_impl; [exact Ho|]. intros loc c Hl. by apply lookup_app_l_Some.
  - by rewrite list_lookup_middle.
  - done.
  - eapply Forall_impl; [exact Hsz|]. simpl. intros c Hc'. lia.
  - rewrite <- Hheld, length_take. simpl in *. lia.
  - apply NoDup_cons. split.
    + rewrite not_elem_of_cons. split; [|done]. specialize (Hlt (pb_data b1) ltac:(left)). lia.
    + apply NoDup_cons. split; [|done]. intros Hin. specialize (Hlt (length h1) ltac:(by right)). lia.
  - intros loc Hloc. rewrite lookup_app_l by lia. rewrite Ht by (simpl; lia). unfold h0. by rewrite lookup_app_l.
Qed.

(** ** The reservoir is uniform *)

(** What [hold_out] does with item [n], for a draw. *)
Definition keep (limit draw n : nat) (r : list nat) : list nat :=
  if (length r <? limit)%nat then r ++ [n] else if (draw <? limit)%nat then <[draw := n]> r else r.

(** The reservoirs of [n] items, one for each sequence of draws. *)
Fixpoint reservoirs (limit n : nat) : list (list nat) :=
  match n with
  | O => [[]]
  | S n => reservoirs limit n ≫= fun r =>
      if (length r <? limit)%nat then [keep limit 0 n r] else (fun d => keep limit d n r) <$> seq 0 (S n)
  end.

(** How many of them hold item [i]. *)
Definition holding (i : nat) (rs : list (list nat)) : nat := length (filter (fun r => i ∈ r) rs).

Record reservoir_ok (limit n : nat) (r : list nat) : Prop := {
  res_length : length r = Nat.min limit n;
  res_distinct : NoDup r;
  res_items : Forall (fun i => (i < n)%nat) r;
}.

Lemma keep_ok limit n d r : (0 < limit)%nat -> reservoir_ok limit n r -> reservoir_ok limit (S n) (keep limit d n r).
Proof.
  intros Hl [H1 H2 H3]. unfold keep. rewrite Forall_forall in H3.
  assert (Hn : n ∉ r) by (intros Hin; specialize (H3 n Hin); lia).
  destruct (length r <? limit)%nat eqn:Hr; bool_prop; [|destruct (d <? limit)%nat eqn:Hd; bool_prop].
  - split; [rewrite length_app; simpl; lia| |].
    + apply NoDup_app. split_and!; [done| |apply NoDup_singleton]. intros i Hi ->%list_elem_of_singleton. done.
    + apply Forall_app. split; [apply Forall_forall; intros i Hi; specialize (H3 i Hi); lia|apply Forall_singleton; lia].
  - split; [rewrite length_insert; lia| |].
    + apply NoDup_alt. intros i j x Hi Hj. apply list_lookup_insert_Some in Hi, Hj.
      destruct Hi as [(-> & -> & _)|[Hi1 Hi2]], Hj as [(-> & Hx & _)|[Hj1 Hj2]]; try done.
      * exfalso. apply Hn. by eapply list_elem_of_lookup_2.
      * subst. exfalso. apply Hn. by eapply list_elem_of_lookup_2.
      * by eapply NoDup_lookup.
    + apply Forall_insert; [|lia]. apply Forall_forall. intros i Hi. specialize (H3 i Hi). lia.
  - split; [lia|done|]. apply Forall_forall. intros i Hi. specialize (H3 i Hi). lia.
Qed.

Lemma reservoirs_ok limit n : (0 < limit)%nat -> Forall (reservoir_ok limit n) (reservoirs limit n).
Proof.
  intros Hl. induction n as [|n IH]; cbn [reservoirs].
  - apply Forall_singleton. split; [simpl; lia|constructor|constructor].
  - apply Forall_bind, Forall_forall. rewrite Forall_forall in IH. intros r Hr%IH. unfold compose.
    destruct (length r <? limit)%nat; [apply Forall_singleton; by apply keep_ok|].
    apply Forall_fmap, Forall_forall. intros d _. by apply keep_ok.
Qed.

Lemma sum_list_cons n l : sum_list (n :: l) = (n + sum_list l)%nat.
Proof. done. Qed.
Lemma holding_bind i (f : list nat -> list (list nat)) rs :
  holding i (rs ≫= f) = sum_list ((fun r => holding i (f r)) <$> rs).
Proof.
  unfold holding. induction rs as [|r rs IH]; [done|].
  by rewrite bind_cons, fmap_cons, sum_list_cons, filter_app, length_app, IH.
Qed.
Lemma count_below k m : length (filter (fun d => (d < k)%nat) (seq 0 m)) = Nat.min k m.
Proof.
  induction m as [|m IH]; [simpl; lia|]. rewrite seq_S, filter_app, length_app, IH, filter_cons.
  case_decide; simpl; lia.
Qed.
Lemma count_other j m : (j < m)%nat -> length (filter (fun d => d <> j) (seq 0 m)) = (m - 1)%nat.
Proof.
  assert (Hge : forall m, (m <= j)%nat -> length (filter (fun d => d <> j) (seq 0 m)) = m).
  { intros k Hk. etrans; [apply (length_filter_iff _ (fun d => (d < k)%nat))|rewrite count_below; lia].
    intros a Ha%elem_of_seq. lia. }
  induction m as [|m IH]; intros Hj; [lia|]. rewrite seq_S, filter_app, length_app, filter_cons.
  destruct (decide (j = m)) as [->|Hne]; simpl.
  - rewrite Hge by lia. rewrite decide_False by (intros H; by apply H). simpl. lia.
  - rewrite IH by lia. rewrite decide_True by done. simpl. lia.
Qed.

Lemma holding_draws i n limit r : (limit <= n)%nat -> reservoir_ok limit n r ->
  holding i ((fun d => keep limit d n r) <$> seq 0 (S n)) =
  if decide (i = n) then limit else if decide (i ∈ r) then n else 0%nat.
Proof.
  intros Hn [H1 H2 H3]. rewrite Forall_forall in H3. unfold holding.
  assert (Hk : forall d, keep limit d n r = if (d <? limit)%nat then <[d := n]> r else r).
  { intros d. unfold keep. by rewrite (proj2 (Nat.ltb_ge _ _)) by lia. }
  rewrite length_filter_fmap. destruct (decide (i = n)) as [->|Hi]; [|destruct (decide (i ∈ r)) as [Hin|Hin]].
  - etrans; [apply (length_filter_iff _ (fun d => (d < limit)%nat))|rewrite count_below; lia]. intros d _. rewrite Hk.
    destruct (d <? limit)%nat eqn:Hd; bool_prop.
    + split; [done|]. intros _. apply list_elem_of_lookup. exists d. by apply list_lookup_insert_eq; lia.
    + split; [|lia]. intros Hn'. specialize (H3 n Hn'). lia.
  - apply list_elem_of_lookup in Hin as [j Hj]. pose proof (lookup_lt_Some _ _ _ Hj).
    etrans; [apply (length_filter_iff _ (fun d => d <> j))|rewrite count_other; lia]. intros d _. rewrite Hk.
    destruct (d <? limit)%nat eqn:Hd; bool_prop.
    + split.
      * intros Hin ->. apply list_elem_of_lookup in Hin as [k Hk']. apply list_lookup_insert_Some in Hk' as [(_ & ? & _)|[Hne Hk']]; [done|].
        apply Hne. by eapply NoDup_lookup.
      * intros Hne. apply list_elem_of_lookup. exists j. by rewrite list_lookup_insert_ne.
    + split; [intros _; lia|]. intros _. by eapply list_elem_of_lookup_2.
  - etrans; [apply (length_filter_iff _ (fun d => (d < 0)%nat))|by rewrite count_below].
    intros d _. rewrite Hk. split; [|lia]. destruct (d <? limit)%nat; [|intros ?; by exfalso; apply Hin].
    intros [k Hk']%list_elem_of_lookup. apply list_lookup_insert_Some in Hk' as [(_ & ? & _)|[_ Hk']]; [done|].
    exfalso. apply Hin. by eapply list_elem_of_lookup_2.
Qed.

Lemma sum_const {A} (f : A -> nat) k (l : list A) : (forall a, a ∈ l -> f a = k) -> sum_list (f <$> l) = (k * length l)%nat.
Proof.
  induction l as [|a l IH]; intros H; [simpl; lia|]. rewrite fmap_cons, sum_list_cons.
  rewrite (H a) by left. rewrite IH by (intros b Hb; apply H; by right). cbn [length]. lia.
Qed.
Lemma sum_indicator {A} (Q : A -> Prop) `{forall a, Decision (Q a)} k (l : list A) :
  sum_list ((fun a => if decide (Q a) then k else 0%nat) <$> l) = (k * length (filter Q l))%nat.
Proof.
  induction l as [|a l IH]; [simpl; lia|]. rewrite fmap_cons, filter_cons, sum_list_cons, IH. case_decide; cbn [length]; lia.
Qed.

Lemma reservoirs_few limit n : (n <= limit)%nat -> reservoirs limit n = [seq 0 n].
Proof.
  induction n as [|n IH]; intros Hn; [done|]. cbn [reservoirs]. rewrite IH by lia. rewrite bind_cons. cbn [mbind list_bind].
  unfold keep. rewrite length_seq, (proj2 (Nat.ltb_lt _ _)), app_nil_r by lia. by rewrite seq_S.
Qed.
Lemma length_bind {A B} (f : A -> list B) l : length (l ≫= f) = sum_list ((fun a => length (f a)) <$> l).
Proof. induction l as [|a l IH]; [done|]. by rewrite bind_cons, fmap_cons, sum_list_cons, length_app, IH. Qed.

(** The number of reservoirs of [n] items that hold a given one, as a share of all of them. *)
Lemma reservoirs_uniform limit n i : (0 < limit)%nat -> (i < n)%nat ->
  (holding i (reservoirs limit n) * n = Nat.min limit n * length (reservoirs limit n))%nat.
Proof.
  intros Hl. induction n as [|n IH]; intros Hi; [lia|]. destruct (decide (S n <= limit)%nat) as [Hn|Hn].
  { rewrite reservoirs_few by done. unfold holding. rewrite filter_cons_True by (apply elem_of_seq; lia). cbn. lia. }
  pose proof (reservoirs_ok limit n Hl) as Hok. rewrite Forall_forall in Hok.
  assert (Hfull : forall r, r ∈ reservoirs limit n -> (length r <? limit)%nat = false).
  { intros r [H1 _ _]%Hok. apply Nat.ltb_ge. lia. }
  assert (Htotal : length (reservoirs limit (S n)) = (S n * length (reservoirs limit n))%nat).
  { cbn [reservoirs]. rewrite length_bind. apply sum_const. intros r Hr. rewrite (Hfull r Hr). by rewrite length_fmap, length_seq. }
  assert (Hhold : holding i (reservoirs limit (S n)) =
    if decide (i = n) then (limit * length (reservoirs limit n))%nat else (n * holding i (reservoirs limit n))%nat).
  { cbn [reservoirs]. rewrite holding_bind.
    assert (Hext : (fun r => holding i (if (length r <? limit)%nat then [keep limit 0 n r] else (fun d => keep limit d n r) <$> seq 0 (S n)))
      <$> reservoirs limit n = (fun r => if decide (i = n) then limit else if decide (i ∈ r) then n else 0%nat) <$> reservoirs limit n).
    { apply list_fmap_ext. intros k r Hr%list_elem_of_lookup_2. rewrite (Hfull r Hr). apply holding_draws; [lia|by apply Hok]. }
    rewrite Hext. destruct (decide (i = n)); [by apply sum_const|apply sum_indicator]. }
  rewrite Htotal, Hhold, Nat.min_l by lia. destruct (decide (i = n)); [lia|].
  specialize (IH ltac:(lia)). rewrite Nat.min_l in IH by lia. nia.
Qed.

Section reservoir.
Context {G A : Type} `{RandintLaws G}.

Definition hold_all (items : list (nat * A)) (t : HeldOutBatches G A) : HeldOutBatches G A :=
  fold_left (fun t p => hold_out p.1 p.2 t) items t.
(** The minibatches that have rows. *)
Definition with_rows (items : list (nat * A)) : list A := snd <$> filter (fun p => p.1 <> 0%nat) items.

Definition reservoir_of (limit : nat) (kept : list A) (t : HeldOutBatches G A) : Prop :=
  ho_limit t = limit /\ ho_seen t = length kept /\
  exists r, r ∈ reservoirs limit (length kept) /\ Forall2 (fun i b => kept !! i = Some b) r (ho_batches t).

Lemma reservoirs_step limit n r d : r ∈ reservoirs limit n -> (d < S n)%nat -> keep limit d n r ∈ reservoirs limit (S n).
Proof.
  intros Hr Hd. cbn [reservoirs]. apply list_elem_of_bind. exists r. split; [|done]. unfold keep.
  destruct (length r <? limit)%nat; [left|]. apply list_elem_of_fmap. exists d. split; [done|]. apply elem_of_seq. lia.
Qed.

Lemma hold_out_step limit kept rows b t : (0 < limit)%nat -> rows <> 0%nat -> reservoir_of limit kept t ->
  reservoir_of limit (kept ++ [b]) (hold_out rows b t).
Proof.
  intros Hl Hr (H1 & H2 & r & Hin & Hf). unfold hold_out. rewrite (proj2 (Nat.eqb_neq _ _) Hr).
  assert (Hf' : Forall2 (fun i c => (kept ++ [b]) !! i = Some c) r (ho_batches t)).
  { eapply Forall2_impl; [exact Hf|]. intros i c Hi. by apply lookup_app_l_Some. }
  assert (Hlast : (kept ++ [b]) !! length kept = Some b) by (by apply list_lookup_middle).
  pose proof (Forall2_length _ _ _ Hf) as Hlen. rewrite <- Hlen, H1.
  assert (Hsize : length (kept ++ [b]) = S (length kept)) by (rewrite length_app; simpl; lia).
  destruct (length r <? limit)%nat eqn:Hlt.
  - split_and!; [done|simpl; lia|]. exists (keep limit 0 (length kept) r). rewrite Hsize.
    split; [apply reservoirs_step; [done|lia]|]. unfold keep. rewrite Hlt. apply Forall2_app; [done|]. by repeat constructor.
  - pose proof (randint_below (S (ho_seen t)) (ho_random t) ltac:(lia)) as Hd.
    destruct (randint (S (ho_seen t)) (ho_random t)) as [d g]. simpl in Hd.
    split_and!; [done|simpl; lia|]. exists (keep limit d (length kept) r). rewrite Hsize.
    split; [apply reservoirs_step; [done|lia]|]. unfold keep. rewrite Hlt. simpl.
    destruct (d <? limit)%nat; [|done]. by apply Forall2_insert.
Qed.
End reservoir.

(** The held-out minibatches are a uniform sample. After any sequence of additions, empty
    minibatches aside, the reservoir holds as many minibatches as it may, all at different
    positions of the sequence; it is one of the reservoirs of that many items, one for each
    sequence of draws; and among those every item is held by the same share, the limit over
    the number of items seen. *)
Theorem reservoir_exact {G A : Type} `{RandintLaws G} (limit seed : Z) (t : HeldOutBatches G A) (items : list (nat * A))
  (Hnew : new_held_out limit seed = Ok t) :
  let kept := with_rows items in
  let n := length kept in
  let all := reservoirs (Z.to_nat limit) n in
  ho_seen (hold_all items t) = n /\ length (ho_batches (hold_all items t)) = Nat.min (Z.to_nat limit) n /\
  (exists r, r ∈ all /\ NoDup r /\ Forall2 (fun i b => kept !! i = Some b) r (ho_batches (hold_all items t))) /\
  forall i, (i < n)%nat -> (holding i all * n = Nat.min (Z.to_nat limit) n * length all)%nat.
Proof.
  cbv zeta. unfold new_held_out in Hnew. destruct (limit <? 1) eqn:Hl; [done|]. bool_prop. injection Hnew as <-.
  set (t := MkHeldOut _ _ _ _). assert (Hpos : (0 < Z.to_nat limit)%nat) by lia.
  assert (Hres : reservoir_of (Z.to_nat limit) (with_rows items) (hold_all items t)).
  { unfold hold_all, with_rows. induction items as [|[rows b] items IH] using rev_ind.
    - split_and!; [done|done|]. exists []. split; [left|constructor].
    - rewrite fold_left_app, filter_app, fmap_app. simpl. rewrite filter_cons, filter_nil. simpl.
      destruct (decide (rows <> 0)%nat) as [Hr|Hr]; [by apply hold_out_step|].
      simpl. rewrite app_nil_r. unfold hold_out. by rewrite (proj2 (Nat.eqb_eq _ _)) by lia. }
  destruct Hres as (_ & H2 & r & Hin & Hf). pose proof (reservoirs_ok _ (length (with_rows items)) Hpos) as Hok.
  rewrite Forall_forall in Hok. destruct (Hok r Hin) as [L1 L2 _].
  split_and!; [done|by rewrite <- (Forall2_length _ _ _ Hf)|by exists r|].
  intros i Hi. by apply reservoirs_uniform.
Qed.

(** ** Witnesses *)

Definition block_batch (s : Z) (data : list Z) : Batch :=
  bare_batch (Some s) None (Tensor int64 cpu [length data] data).

Definition example_events : list block_event :=
  [BlocksOf 0 (block_batch 0 [4; 8]); BlocksOf 1 (block_batch 0 [40]); BlocksOf 0 (block_batch 1 [12]);
   BlocksOf 0 (block_batch 0 [16]); EndOf 0; BlocksOf 1 (block_batch 0 [44]); BlocksOf 0 (block_batch 0 [20; 24])].

Lemma block_pairs_exact_witness :
  pairs_of (0, Some 0) (block_run example_events (MkBlockPairs 16 ∅)).1 = [(1, 2); (2, 4); (5, 6)] /\
  pairs_of (1, Some 0) (block_run example_events (MkBlockPairs 16 ∅)).1 = [(10, 11)].
Proof.
  destruct (block_pairs_exact 16 (MkBlockPairs 16 ∅) (0, Some 0) example_events eq_refl) as [H0 _].
  destruct (block_pairs_exact 16 (MkBlockPairs 16 ∅) (1, Some 0) example_events eq_refl) as [H1 _].
  rewrite H0, H1. by vm_compute.
Defined.

Lemma minibatches_own_storage_witness :
  let '(locs, (b1, h1)) := add_all (fun _ _ => (0, 0)) [[(1, 2); (2, 3); (3, 4)]; [(4, 5); (5, 6)]]
    (MkPairBatches 2 1 0) [[(9, 9)]; [(0, 0); (0, 0)]] in
  let '(partial, (b2, h2)) := pair_batches_finish b1 h1 in
  exists chunks rest, owned h2 locs chunks /\ h2 !! partial = Some rest /\
    concat chunks ++ rest = [(1, 2); (2, 3); (3, 4); (4, 5); (5, 6)] /\ Forall (fun c => Z.of_nat (length c) = 2) chunks /\
    Z.of_nat (length rest) < 2 /\ NoDup (pb_data b2 :: partial :: locs) /\
    forall loc, (loc < 1)%nat -> h2 !! loc = [[(9, 9)]] !! loc.
Proof.
  exact (minibatches_own_storage (fun _ _ => (0, 0)) 2 [[(9, 9)]] [[(9, 9)]; [(0, 0); (0, 0)]] (MkPairBatches 2 1 0)
    [[(1, 2); (2, 3); (3, 4)]; [(4, 5); (5, 6)]] eq_refl).
Defined.

(** A generator that always draws the last value. *)
#[global] Instance last_draw : RandintOps unit := { manual_seed _ := tt; randint n _ := (Nat.pred n, tt) }.
#[global] Instance last_draw_laws : RandintLaws unit.
Proof. split. intros n []. simpl. lia. Defined.

Lemma reservoir_exact_witness :
  let items := [(2%nat, 7); (0%nat, 8); (1%nat, 9); (2%nat, 5)] in
  let t := hold_all items (MkHeldOut 2 tt 0 []) in
  ho_seen t = 3%nat /\ length (ho_batches t) = 2%nat /\ (holding 1 (reservoirs 2 3) * 3 = 2 * length (reservoirs 2 3))%nat.
Proof.
  cbv zeta. set (items := [(2%nat, 7); (0%nat, 8); (1%nat, 9); (2%nat, 5)]).
  destruct (@reservoir_exact unit Z last_draw last_draw_laws 2 0 (MkHeldOut 2 tt 0 []) items eq_refl) as (H1 & H2 & _ & H3).
  split_and!; [exact H1|exact H2|]. exact (H3 1%nat ltac:(vm_compute; lia)).
Defined.
