(* ===== verification/PretrainQueue.v ===== *)
(** * Many pools behind one bounded queue ([examples/pretrain_kernel.py]: [worker_batches])

    One reader thread per worker pulls its own [Pool] and publishes into a bounded
    queue; the caller's thread starts the readers, resumes [receive] and leaves the
    context. A step is one atomic action of one thread, chosen by an arbitrary
    scheduler; [put] waits at most a tenth of a second and is retried until the
    stop event is set. What a worker's pool yields and how it ends is its script. *)

From S2P Require Import Prelude Batch Device Wire Terminal Pool MultiPool.

(** ** State *)

(** What a reader publishes: a batch, [None], or the exception that ended it. *)
Inductive published := Data (b : Batch) | Done | Failed (e : trace_error).

(** The rest of a pool's script. *)
Abbreviation rest_of_pool := (list Batch * res trace_error unit)%type.

(** A reader thread: not started; inside [pool.read()]; with a batch, before the test of
    [stopped]; at the test of [publish], then inside [put], with what follows the call; gone. *)
Inductive puller :=
  | Unstarted (pool : rest_of_pool)
  | Reading (pool : rest_of_pool)
  | Got (b : Batch) (pool : rest_of_pool)
  | Checking (i : published) (k : option rest_of_pool)
  | Putting (i : published) (k : option rest_of_pool)
  | Gone.

(** The generator [receive]. *)
Inductive receiver :=
  | Receiving (remaining : nat)
  | Received
  | WorkerFailed (w : nat) (e : trace_error).

(** The thread of the caller: starting threads, in the body of the [with], in the [finally]
    block (setting the event, closing pools, joining threads), out of it. *)
Inductive caller :=
  | CStarting (k : nat)
  | CBody
  | CStopping
  | CClosing (k : nat)
  | CJoining (k : nat)
  | CLeft (r : result unit).

(** [q_taken] is the history of items taken from the queue; [q_out] what the caller received. *)
Record qstate := MkQueue {
  q_pending : list (nat * published);
  q_stopped : bool;
  q_closed : nat;
  q_started : nat;
  q_pullers : list puller;
  q_receiver : receiver;
  q_caller : caller;
  q_taken : list (nat * published);
  q_out : list (nat * option Batch);
}.

Definition set_puller (w : nat) (r : puller) (s : qstate) : qstate :=
  MkQueue (q_pending s) (q_stopped s) (q_closed s) (q_started s) (<[w := r]> (q_pullers s))
    (q_receiver s) (q_caller s) (q_taken s) (q_out s).
Definition put_item (w : nat) (i : published) (s : qstate) : qstate :=
  MkQueue (q_pending s ++ [(w, i)]) (q_stopped s) (q_closed s) (q_started s) (q_pullers s)
    (q_receiver s) (q_caller s) (q_taken s) (q_out s).
Definition set_caller (c : caller) (s : qstate) : qstate :=
  MkQueue (q_pending s) (q_stopped s) (q_closed s) (q_started s) (q_pullers s) (q_receiver s) c
    (q_taken s) (q_out s).

(** The checks, and the state before the first thread starts. *)
Definition check_workers (endpoints : list string) (queue_batches : Z) : result unit :=
  raise! ValueError "Provide distinct worker endpoints"
    when bool_decide (endpoints = []) || negb (bool_decide (NoDup endpoints)) in
  raise! ValueError "Queue capacity must be positive" when queue_batches <? 1 in
  Ok tt.

(** The pools, all made before any thread starts. *)
Definition worker_pools (urlsplit : string -> SplitResult) (mps_ok cuda_ok timeout_positive : bool)
    (endpoints : list string) (queue_batches : Z) : result (list PoolKind) :=
  let! _ := check_workers endpoints queue_batches in
  rmap (fun endpoint => init urlsplit mps_ok cuda_ok (Endpoints [endpoint]) (Ok (Some cpu)) timeout_positive (Some 0)
    NoObserver (fun _ => false)) endpoints.

Definition new_queue (scripts : list script) : qstate :=
  MkQueue [] false 0 0 ((fun sc => Unstarted (sc_batches sc, sc_end sc)) <$> scripts)
    (Receiving (length scripts)) (CStarting 0) [] [].

(** ** Steps *)

Section steps.
Context (capacity : nat).

(** [batch.addresses.numel()] *)
Definition carries_blocks (b : Batch) : bool := negb (numel (addresses b) =? 0)%nat.

(** [publish((index, None))], or the [except] clause. *)
Definition end_item (fin : res trace_error unit) : published :=
  match fin with Ok _ => Done | Raise e => Failed e end.

(** What follows a call of [publish]. *)
Definition resume (k : option rest_of_pool) : puller :=
  match k with Some pool => Reading pool | None => Gone end.

(** One step of reader [w]; [None] when it has not started or is gone. *)
Definition puller_step (w : nat) (s : qstate) : option qstate :=
  match q_pullers s !! w with
  | Some (Reading (b :: rest, fin)) => Some (set_puller w (Got b (rest, fin)) s)
  | Some (Reading ([], fin)) => Some (set_puller w (Checking (end_item fin) None) s)
  | Some (Got b pool) =>
      Some (set_puller w (if q_stopped s then Gone
                          else if carries_blocks b then Checking (Data b) (Some pool) else Reading pool) s)
  | Some (Checking i k) => Some (set_puller w (if q_stopped s then resume k else Putting i k) s)
  | Some (Putting i k) =>
      Some (if (length (q_pending s) <? capacity)%nat then set_puller w (resume k) (put_item w i s)
            else set_puller w (Checking i k) s)
  | Some (Unstarted _) | Some Gone | None => None
  end.

(** Once its pool is closed, [pool.read()] may end in any way. *)
Definition cut_short (w : nat) (fin : res trace_error unit) (s : qstate) : option qstate :=
  match q_pullers s !! w with
  | Some (Reading _) => if (w <? q_closed s)%nat then Some (set_puller w (Checking (end_item fin) None) s) else None
  | _ => None
  end.

(** The consumer resumes [receive]; [None] when [pending.get()] blocks or it has ended. *)
Definition receive_step (s : qstate) : option qstate :=
  match q_receiver s with
  | Receiving O =>
      Some (MkQueue (q_pending s) (q_stopped s) (q_closed s) (q_started s) (q_pullers s) Received
        (q_caller s) (q_taken s) (q_out s))
  | Receiving (S remaining) =>
      match q_pending s with
      | [] => None
      | (w, i) :: pending =>
          Some (MkQueue pending (q_stopped s) (q_closed s) (q_started s) (q_pullers s)
            (match i with Data _ => Receiving (S remaining) | Done => Receiving remaining | Failed e => WorkerFailed w e end)
            (q_caller s) (q_taken s ++ [(w, i)])
            (q_out s ++ match i with Data b => [(w, Some b)] | Done => [(w, None)] | Failed _ => [] end))
      end
  | Received | WorkerFailed _ _ => None
  end.

Definition start_puller (r : puller) : puller := match r with Unstarted pool => Reading pool | _ => r end.
Definition alive (r : puller) : bool := match r with Gone | Unstarted _ => false | _ => true end.

(** The caller's thread; leaving the body and failing to start a thread are labels of their own. *)
Definition caller_step (s : qstate) : option qstate :=
  match q_caller s with
  | CStarting k =>
      if (k <? length (q_pullers s))%nat
      then Some (MkQueue (q_pending s) (q_stopped s) (q_closed s) (S k) (alter start_puller k (q_pullers s))
             (q_receiver s) (CStarting (S k)) (q_taken s) (q_out s))
      else Some (set_caller CBody s)
  | CBody => None
  | CStopping =>
      Some (MkQueue (q_pending s) true (q_closed s) (q_started s) (q_pullers s) (q_receiver s)
        (CClosing 0) (q_taken s) (q_out s))
  | CClosing k =>
      if (k <? length (q_pullers s))%nat
      then Some (MkQueue (q_pending s) (q_stopped s) (S k) (q_started s) (q_pullers s) (q_receiver s)
             (CClosing (S k)) (q_taken s) (q_out s))
      else Some (set_caller (CJoining 0) s)
  | CJoining k =>
      if (k <? q_started s)%nat
      then match q_pullers s !! k with
           | Some r => if alive r then None else Some (set_caller (CJoining (S k)) s)
           | None => None
           end
      else Some (set_caller (CLeft (
             raise! RuntimeError "A worker reader did not stop after cancellation"
               when existsb alive (take (q_started s) (q_pullers s)) in Ok tt)) s)
  | CLeft _ => None
  end.

(** [thread.start()] raises, the caller leaves the body, or a [join] reaches the deadline. *)
Definition leave_step (s : qstate) : option qstate :=
  match q_caller s with
  | CStarting _ | CBody => Some (set_caller CStopping s)
  | CJoining k => if (k <? q_started s)%nat then Some (set_caller (CJoining (S k)) s) else None
  | _ => None
  end.

Inductive qlabel := Pull (w : nat) | CutShort (w : nat) (fin : res trace_error unit) | Receive | Call | Leave.

Definition qexec (l : qlabel) (s : qstate) : option qstate :=
  match l with
  | Pull w => puller_step w s
  | CutShort w fin => cut_short w fin s
  | Receive => receive_step s
  | Call => caller_step s
  | Leave => leave_step s
  end.
Fixpoint qexec_all (ls : list qlabel) (s : qstate) : option qstate :=
  match ls with
  | [] => Some s
  | l :: ls => s' ← qexec l s; qexec_all ls s'
  end.

(** States some schedule reaches. *)
Inductive qreachable (scripts : list script) : qstate -> Prop :=
  | qreach_init : qreachable scripts (new_queue scripts)
  | qreach_step s l s' : qreachable scripts s -> qexec l s = Some s' -> qreachable scripts s'.
End steps.

(** ** The invariant *)

(** The items of one worker. *)
Definition items_of (w : nat) (l : list (nat * published)) : list published := snd <$> filter (fun p => p.1 = w) l.

(** What a pool still leads to: its batches that have rows, then how it ends. *)
Definition todo (pool : rest_of_pool) : list published :=
  (Data <$> filter (fun b => carries_blocks b = true) pool.1) ++ [end_item pool.2].
Definition expected (sc : script) : list published := todo (sc_batches sc, sc_end sc).

Definition unpublished (r : puller) : list published :=
  match r with
  | Unstarted pool | Reading pool => todo pool
  | Got b pool => todo (b :: pool.1, pool.2)
  | Checking i k | Putting i k => i :: from_option todo [] k
  | Gone => []
  end.

(** [sent] is what worker [sc] has put into the queue so far. *)
Definition puller_ok (sc : script) (stopped : bool) (sent : list published) (r : puller) : Prop :=
  if stopped then sent `prefix_of` expected sc /\ forall i k, r = Putting i k -> sent ++ [i] `prefix_of` expected sc
  else sent ++ unpublished r = expected sc.

Section invariant.
Context (capacity : nat) (scripts : list script).

Definition sent (w : nat) (s : qstate) : list published := items_of w (q_taken s ++ q_pending s).

Record queue_ok (s : qstate) : Prop := {
  qk_pullers : length (q_pullers s) = length scripts;
  qk_worker : forall w sc r, scripts !! w = Some sc -> q_pullers s !! w = Some r ->
    puller_ok sc (q_stopped s) (sent w s) r;
  qk_members : Forall (fun p => (p.1 < length scripts)%nat) (q_taken s ++ q_pending s);
  qk_capacity : (length (q_pending s) <= capacity)%nat;
  qk_caller : q_stopped s = match q_caller s with CStarting _ | CBody | CStopping => false | _ => true end;
  qk_closed : q_stopped s = false -> q_closed s = 0%nat;
}.

Lemma items_of_app w l1 l2 : items_of w (l1 ++ l2) = items_of w l1 ++ items_of w l2.
Proof. unfold items_of. by rewrite filter_app, fmap_app. Qed.
Lemma items_of_self w l : items_of w (pair w <$> l) = l.
Proof.
  unfold items_of. induction l as [|i l IH]; [done|]. rewrite fmap_cons, filter_cons_True by done.
  by rewrite fmap_cons, IH.
Qed.
Lemma items_of_other w v l : v <> w -> items_of v (pair w <$> l) = [].
Proof.
  intros Hv. unfold items_of. induction l as [|i l IH]; [done|].
  rewrite fmap_cons, filter_cons_False by (simpl; congruence). done.
Qed.

(** A step of one reader: its counter changes and it may add to the queue. *)
Lemma queue_ok_puller s w r r' add : queue_ok s -> q_pullers s !! w = Some r ->
  (length (q_pending s) + length add <= capacity)%nat ->
  (forall sc, puller_ok sc (q_stopped s) (sent w s) r -> puller_ok sc (q_stopped s) (sent w s ++ add) r') ->
  queue_ok (MkQueue (q_pending s ++ (pair w <$> add)) (q_stopped s) (q_closed s) (q_started s) (<[w := r']> (q_pullers s))
    (q_receiver s) (q_caller s) (q_taken s) (q_out s)).
Proof.
  intros [H1 H2 H3 H4 H5 H6] Hr Hroom Hstep. assert (Hlt : (w < length (q_pullers s))%nat) by by eapply lookup_lt_Some.
  split; simpl; try done.
  - by rewrite length_insert.
  - intros v sc r0 Hsc Hr0. unfold sent. simpl. rewrite app_assoc, items_of_app.
    destruct (decide (v = w)) as [->|Hne].
    + rewrite list_lookup_insert_eq in Hr0 by done. injection Hr0 as <-. rewrite items_of_self. eapply Hstep. by eapply H2.
    + rewrite list_lookup_insert_ne in Hr0 by done. rewrite items_of_other, app_nil_r by done. by eapply H2.
  - rewrite app_assoc. apply Forall_app. split; [done|]. apply Forall_fmap, Forall_forall. intros i _. simpl. lia.
  - rewrite length_app, length_fmap. lia.
Qed.

Lemma queue_ok_set_puller s w r r' : queue_ok s -> q_pullers s !! w = Some r ->
  (forall sc, puller_ok sc (q_stopped s) (sent w s) r -> puller_ok sc (q_stopped s) (sent w s) r') ->
  queue_ok (set_puller w r' s).
Proof.
  intros Hok Hr Hstep. pose proof (queue_ok_puller s w r r' [] Hok Hr) as H. rewrite fmap_nil, !app_nil_r in H.
  apply H; [destruct Hok; simpl; lia|done].
Qed.

(** Once stopped, a reader that is not inside [put] stays harmless. *)
Lemma puller_ok_stopped sc l r r' : (forall i k, r' <> Putting i k) -> puller_ok sc true l r -> puller_ok sc true l r'.
Proof. intros Hn [H1 H2]. split; [done|]. intros i k Hr. by destruct (Hn i k). Qed.

Lemma todo_cons b pool : todo (b :: pool.1, pool.2) = (if carries_blocks b then [Data b] else []) ++ todo pool.
Proof. unfold todo. simpl. rewrite filter_cons. destruct (carries_blocks b); by case_decide. Qed.
Lemma unpublished_resume k : unpublished (resume k) = from_option todo [] k.
Proof. by destruct k. Qed.
Lemma resume_not_putting k i k' : resume k <> Putting i k'.
Proof. by destruct k. Qed.

Lemma puller_step_ok w s s' : queue_ok s -> puller_step capacity w s = Some s' -> queue_ok s'.
Proof.
  intros Hok. unfold puller_step.
  destruct (q_pullers s !! w) as [[pool|[[|b rest] fin]|b pool|i k|i k|]|] eqn:Hr; try done; intros [= <-].
  - eapply queue_ok_set_puller; [done..|]. intros sc. destruct (q_stopped s); [by apply puller_ok_stopped|done].
  - eapply queue_ok_set_puller; [done..|]. intros sc. destruct (q_stopped s); [by apply puller_ok_stopped|done].
  - eapply queue_ok_set_puller; [done..|]. intros sc. destruct (q_stopped s); [by apply puller_ok_stopped|].
    unfold puller_ok. cbn [unpublished]. rewrite todo_cons. by destruct (carries_blocks b).
  - eapply queue_ok_set_puller; [done..|]. intros sc.
    destruct (q_stopped s); [apply puller_ok_stopped, resume_not_putting|done].
  - destruct (_ <? _)%nat eqn:Hroom; bool_prop.
    + apply (queue_ok_puller s w (Putting i k) (resume k) [i] Hok Hr); [simpl; lia|]. intros sc. unfold puller_ok.
      destruct (q_stopped s).
      * intros [H1 H2]. split; [by eapply H2|]. intros i' k' Heq. by apply resume_not_putting in Heq.
      * by rewrite unpublished_resume, <- app_assoc.
    + eapply queue_ok_set_puller; [done..|]. intros sc. destruct (q_stopped s); [by apply puller_ok_stopped|done].
Qed.

Lemma cut_short_ok w fin s s' : queue_ok s -> cut_short w fin s = Some s' -> queue_ok s'.
Proof.
  intros Hok. unfold cut_short. destruct (q_pullers s !! w) as [[]|] eqn:Hr; try done.
  destruct (w <? q_closed s)%nat eqn:Hc; [|done]. bool_prop. intros [= <-]. eapply queue_ok_set_puller; [done..|].
  intros sc. destruct (q_stopped s) eqn:Hs; [by apply puller_ok_stopped|].
  rewrite (qk_closed _ Hok Hs) in Hc. lia.
Qed.

Lemma receive_step_ok s s' : queue_ok s -> receive_step s = Some s' -> queue_ok s'.
Proof.
  intros [H1 H2 H3 H4 H5 H6]. unfold receive_step.
  destruct (q_receiver s) as [[|n]| |w e]; try done; [by intros [= <-]; split|].
  destruct (q_pending s) as [|[w i] pending] eqn:Hp; [done|]. intros [= <-]. simpl in *.
  assert (Hsame : (q_taken s ++ [(w, i)]) ++ pending = q_taken s ++ q_pending s) by (by rewrite Hp, <- app_assoc).
  split; simpl; try done; [|by rewrite Hsame, Hp|lia].
  intros v sc r Hsc Hr. unfold sent in *. simpl. rewrite Hsame. by apply H2.
Qed.

Lemma start_unpublished r : unpublished (start_puller r) = unpublished r.
Proof. by destruct r. Qed.
Lemma puller_ok_stop sc l r : puller_ok sc false l r -> puller_ok sc true l r.
Proof.
  intros Hl. unfold puller_ok in *. split; [rewrite <- Hl; by eexists|]. intros i k ->. rewrite <- Hl. simpl.
  exists (from_option todo [] k). by rewrite <- app_assoc.
Qed.

Lemma caller_step_ok s s' : queue_ok s -> caller_step s = Some s' -> queue_ok s'.
Proof.
  intros [H1 H2 H3 H4 H5 H6]. unfold caller_step. destruct (q_caller s) as [k| | |k|k|r] eqn:Hc; try done.
  - case_if; intros [= <-]; split; simpl; try done; [by rewrite length_alter|].
    intros w sc r Hsc Hr. rewrite H5 in *. destruct (decide (w = k)) as [->|Hne].
    + rewrite list_lookup_alter_eq in Hr. apply fmap_Some in Hr as (r0 & Hr0 & ->).
      unfold puller_ok. rewrite start_unpublished. exact (H2 k sc r0 Hsc Hr0).
    + rewrite list_lookup_alter_ne in Hr by done. by apply H2.
  - intros [= <-]. split; simpl; try done. intros w sc r Hsc Hr. apply puller_ok_stop. rewrite <- H5. by apply H2.
  - case_if; intros [= <-]; split; simpl; try done. congruence.
  - case_if; [destruct (q_pullers s !! k) as [r|]; [destruct (alive r)|]|]; try done; intros [= <-]; by split.
Qed.

Lemma leave_step_ok s s' : queue_ok s -> leave_step s = Some s' -> queue_ok s'.
Proof.
  intros [H1 H2 H3 H4 H5 H6]. unfold leave_step. destruct (q_caller s) eqn:Hc; try done; [| |case_if];
    intros [= <-]; by split.
Qed.

Lemma new_queue_ok : queue_ok (new_queue scripts).
Proof.
  split; simpl; try done; [by rewrite length_fmap| |lia].
  intros w sc r Hsc Hr. rewrite list_lookup_fmap, Hsc in Hr. by injection Hr as <-.
Qed.

(** ** What the caller has received *)

Definition view (p : nat * published) : option (nat * option Batch) :=
  match p.2 with Data b => Some (p.1, Some b) | Done => Some (p.1, None) | Failed _ => None end.
Definition is_done (i : published) : bool := match i with Done => true | _ => false end.
Definition is_failed (i : published) : bool := match i with Failed _ => true | _ => false end.

Definition finished (w : nat) (l : list (nat * published)) : bool := existsb is_done (items_of w l).
Definition unfinished (l : list (nat * published)) : nat :=
  length (filter (fun w => finished w l = false) (seq 0 (length scripts))).
Definition no_failure (l : list (nat * published)) : Prop := Forall (fun p => is_failed p.2 = false) l.

Record receiver_ok (s : qstate) : Prop := {
  rk_out : q_out s = omap view (q_taken s);
  rk_receiver : match q_receiver s with
                | Receiving n => n = unfinished (q_taken s) /\ no_failure (q_taken s)
                | Received => unfinished (q_taken s) = 0%nat /\ no_failure (q_taken s)
                | WorkerFailed w e => exists pre, q_taken s = pre ++ [(w, Failed e)] /\ no_failure pre
                end;
}.

(** The batches of a worker that have rows. *)
Definition rows_of (sc : script) : list Batch := filter (fun b => carries_blocks b = true) (sc_batches sc).

Lemma data_then_end l d rest bs x : (forall b, d <> Data b) ->
  l ++ d :: rest = (Data <$> bs) ++ [x] -> l = Data <$> bs /\ d = x /\ rest = [].
Proof.
  intros Hd. revert l. induction bs as [|b bs IH]; intros [|i l] Heq; simpl in *.
  - by injection Heq as -> ->.
  - injection Heq as _ Heq. by destruct l.
  - injection Heq as Heq _. by destruct (Hd b).
  - injection Heq as -> Heq. apply IH in Heq as (-> & -> & ->). done.
Qed.
Lemma end_in_prefix sc l d rest : (forall b, d <> Data b) -> l ++ d :: rest `prefix_of` expected sc ->
  l = Data <$> rows_of sc /\ d = end_item (sc_end sc) /\ rest = [].
Proof.
  intros Hd [k Hk]. unfold expected, todo in Hk. simpl in Hk. rewrite <- app_assoc in Hk. simpl in Hk.
  symmetry in Hk. apply data_then_end in Hk as (Hl & Hx & Hr); [|done]. apply app_eq_nil in Hr as [-> _]. done.
Qed.

Lemma sent_prefix s w sc : queue_ok s -> scripts !! w = Some sc -> sent w s `prefix_of` expected sc.
Proof.
  intros Hok Hsc. destruct (lookup_lt_is_Some_2 (q_pullers s) w) as [r Hr].
  { rewrite (qk_pullers _ Hok). by eapply lookup_lt_Some. }
  pose proof (qk_worker _ Hok w sc r Hsc Hr) as H. unfold puller_ok in H. destruct (q_stopped s); [by apply H|].
  rewrite <- H. by eexists.
Qed.
Lemma sent_next s w i pending : q_pending s = (w, i) :: pending ->
  sent w s = items_of w (q_taken s) ++ i :: items_of w pending.
Proof. intros Hp. unfold sent. rewrite Hp, items_of_app. unfold items_of at 2. by rewrite filter_cons_True. Qed.

Lemma no_done_data bs : existsb is_done (Data <$> bs) = false.
Proof. induction bs as [|b bs IH]; [done|]. exact IH. Qed.

Lemma filter_one_less (P Q : nat -> Prop) `{forall w, Decision (P w)} `{forall w, Decision (Q w)} w l : NoDup l -> w ∈ l ->
  P w -> ~ Q w -> (forall v, v <> w -> P v <-> Q v) -> length (filter P l) = S (length (filter Q l)).
Proof.
  intros Hnd Hin Hp Hq Hs. induction Hnd as [|v l Hv Hnd IH]; [by apply elem_of_nil in Hin|].
  rewrite !filter_cons. apply elem_of_cons in Hin as [<-|Hin].
  - rewrite decide_True, decide_False by done. simpl. f_equal.
    apply length_filter_iff. intros v' Hv'. apply Hs. congruence.
  - assert (v <> w) as Hne by congruence. specialize (IH Hin). specialize (Hs v Hne).
    repeat case_decide; simpl; try tauto; by rewrite IH.
Qed.

Lemma finished_snoc v w i l : finished v (l ++ [(w, i)]) = finished v l || (bool_decide (v = w) && is_done i).
Proof.
  unfold finished. rewrite items_of_app, existsb_app. f_equal. unfold items_of. rewrite filter_cons. simpl.
  case_bool_decide; case_decide; simplify_eq; simpl; [by rewrite orb_false_r|done].
Qed.

Lemma unfinished_data l w i : is_done i = false -> unfinished (l ++ [(w, i)]) = unfinished l.
Proof.
  intros Hi. unfold unfinished. f_equal. apply list_filter_iff. intros v. by rewrite finished_snoc, Hi, andb_false_r, orb_false_r.
Qed.
Lemma unfinished_done l w : (w < length scripts)%nat -> finished w l = false -> unfinished l = S (unfinished (l ++ [(w, Done)])).
Proof.
  intros Hw Hf. unfold unfinished. apply (filter_one_less _ _ w).
  - apply NoDup_seq.
  - apply elem_of_seq. lia.
  - done.
  - rewrite finished_snoc, bool_decide_eq_true_2 by done. by rewrite orb_true_r.
  - intros v Hv. rewrite finished_snoc, bool_decide_eq_false_2 by done. by rewrite orb_false_r.
Qed.

Lemma receive_step_receiver_ok s s' : queue_ok s -> receiver_ok s -> receive_step s = Some s' -> receiver_ok s'.
Proof.
  intros Hok [H1 H2]. unfold receive_step. destruct (q_receiver s) as [[|n]| |w e] eqn:Hrec; try done.
  - intros [= <-]. split; [done|]. simpl. destruct H2 as [H2 H3]. done.
  - destruct (q_pending s) as [|[w i] pending] eqn:Hp; [done|]. intros [= <-]. destruct H2 as [H2 H3].
    assert (Hw : (w < length scripts)%nat).
    { pose proof (qk_members _ Hok) as Hm. rewrite Hp, Forall_app, Forall_cons in Hm. by destruct Hm as (_ & ? & _). }
    assert (Hone : forall o, omap view [(w, i)] = o -> q_out s ++ o = omap view (q_taken s ++ [(w, i)])).
    { intros o <-. by rewrite omap_app, H1. }
    split; simpl; [by destruct i; apply Hone|]. destruct i as [b| |e].
    + rewrite unfinished_data by done. split; [done|]. apply Forall_app. split; [done|by constructor].
    + split; [|apply Forall_app; split; [done|by constructor]].
      destruct (lookup_lt_is_Some_2 scripts w Hw) as [sc Hsc].
      pose proof (sent_prefix s w sc Hok Hsc) as Hpre. rewrite (sent_next s w Done pending Hp) in Hpre.
      apply end_in_prefix in Hpre as (Hl & _ & _); [|done]. rewrite (unfinished_done _ w) in H2; [congruence|done|].
      unfold finished. rewrite Hl. apply no_done_data.
    + by exists (q_taken s).
Qed.

(** A step of any other thread leaves what was taken and received. *)
Lemma other_steps_receive l s s' : l <> Receive -> qexec capacity l s = Some s' ->
  q_taken s' = q_taken s /\ q_out s' = q_out s /\ q_receiver s' = q_receiver s.
Proof.
  intros Hl. destruct l as [w|w fin| | |]; simpl; [| |done| |].
  - unfold puller_step. destruct (q_pullers s !! w) as [[pool|[[|b rest] fin]|b pool|i k|i k|]|]; try done; intros [= <-]; try done.
    by case_if.
  - unfold cut_short. destruct (q_pullers s !! w) as [[]|]; try done. case_if; [|done]. by intros [= <-].
  - unfold caller_step. destruct (q_caller s) as [k| | |k|k|r]; try done.
    1,3: case_if; by intros [= <-].
    + by intros [= <-].
    + case_if; [destruct (q_pullers s !! k) as [r|]; [destruct (alive r)|]|]; try done; by intros [= <-].
  - unfold leave_step. destruct (q_caller s); try done; [| |case_if]; try done; by intros [= <-].
Qed.

Lemma qreachable_ok s : qreachable capacity scripts s -> queue_ok s /\ receiver_ok s.
Proof.
  induction 1 as [|s l s' _ [IH1 IH2] Hl].
  { split; [apply new_queue_ok|]. split; [done|]. simpl. split; [|constructor].
    unfold unfinished. induction (length scripts) as [|n IH]; [done|].
    rewrite seq_S, filter_app, length_app, <- IH, filter_cons_True by done. simpl. lia. }
  split.
  - destruct l; simpl in Hl; [by eapply puller_step_ok|by eapply cut_short_ok|by eapply receive_step_ok|
      by eapply caller_step_ok|by eapply leave_step_ok].
  - assert (Hl' : l = Receive \/ l <> Receive) by (destruct l; auto).
    destruct Hl' as [->|Hne]; [by eapply receive_step_receiver_ok|].
    destruct (other_steps_receive l s s' Hne Hl) as (H1 & H2 & H3). destruct IH2 as [H4 H5].
    split; [by rewrite H1, H2|]. by rewrite H1, H3.
Qed.
End invariant.

(** What the caller received of one worker. *)
Definition delivered (w : nat) (out : list (nat * option Batch)) : list (option Batch) :=
  snd <$> filter (fun p => p.1 = w) out.
(** All there is to receive: the batches that have rows, and [None] after the last of them when
    the pool ended without an exception. *)
Definition whole_run (sc : script) : list (option Batch) :=
  (Some <$> rows_of sc) ++ match sc_end sc with Ok _ => [None] | Raise _ => [] end.

Definition item_view (i : published) : option (option Batch) :=
  match i with Data b => Some (Some b) | Done => Some None | Failed _ => None end.

Lemma delivered_view w l : delivered w (omap view l) = omap item_view (items_of w l).
Proof.
  unfold delivered, items_of. induction l as [|[v i] l IH]; [done|]. rewrite filter_cons. cbn [fst].
  destruct i; cbn [omap list_omap view fst snd]; rewrite ?filter_cons; cbn [fst]; case_decide;
    rewrite ?fmap_cons; cbn [omap list_omap item_view snd]; by rewrite <- IH.
Qed.
Lemma view_data (bs : list Batch) : omap item_view (Data <$> bs) = Some <$> bs.
Proof. induction bs as [|b bs IH]; [done|]. rewrite !fmap_cons, <- IH. done. Qed.
Lemma view_expected sc : omap item_view (expected sc) = whole_run sc.
Proof. unfold expected, todo, whole_run. rewrite omap_app, view_data. by destruct (sc_end sc). Qed.

Lemma finished_all l n : length (filter (fun w => finished w l = false) (seq 0 n)) = 0%nat ->
  forall w, (w < n)%nat -> finished w l = true.
Proof.
  intros Hn w Hw. apply length_zero_iff_nil in Hn. destruct (finished w l) eqn:Hf; [done|].
  assert (Hin : w ∈ filter (fun w => finished w l = false) (seq 0 n)).
  { apply list_elem_of_filter. split; [done|]. apply elem_of_seq. lia. }
  rewrite Hn in Hin. by apply elem_of_nil in Hin.
Qed.
Lemma finished_split w l : finished w l = true -> exists l1 l2, items_of w l = l1 ++ Done :: l2.
Proof.
  unfold finished. intros (i & Hin & Hi)%existsb_exists. destruct i; try done.
  apply list_elem_of_In, list_elem_of_split in Hin. done.
Qed.
Lemma taken_prefix_of capacity scripts s w sc : queue_ok capacity scripts s -> scripts !! w = Some sc ->
  items_of w (q_taken s) `prefix_of` expected sc.
Proof.
  intros Hok Hsc. etrans; [|by eapply sent_prefix]. unfold sent. rewrite items_of_app. by eexists.
Qed.

(** When the iterator has ended the caller has all of every worker. *)
Lemma received_all capacity scripts s w sc : queue_ok capacity scripts s -> receiver_ok scripts s -> q_receiver s = Received ->
  scripts !! w = Some sc -> sc_end sc = Ok tt /\ delivered w (q_out s) = (Some <$> rows_of sc) ++ [None].
Proof.
  intros Hok [Hout Hrec] Hend Hsc. rewrite Hend in Hrec. destruct Hrec as [Hzero _].
  pose proof (finished_all _ _ Hzero w ltac:(by eapply lookup_lt_Some)) as (l1 & l2 & Hl)%finished_split.
  pose proof (taken_prefix_of _ _ _ w sc Hok Hsc) as Hp. rewrite Hl in Hp. apply end_in_prefix in Hp as (-> & He & ->); [|done].
  destruct (sc_end sc) as [[]|e]; [|done]. split; [done|]. by rewrite Hout, delivered_view, Hl, omap_app, view_data.
Qed.

(** C6: nothing is lost, invented or declared complete early. In every state any schedule of the
    reader threads, the consumer and the caller reaches, with pools cut short by closing in any way:
    the queue is within its capacity; what the caller has received of each worker is, in order, a
    prefix of the batches of that worker's pool that have rows, followed by [None] only if the pool
    itself ended normally; the iterator ends only when the caller has all of every worker; and it
    reports a failure only of a worker whose pool raised that exception, after all its batches. *)
Theorem queue_delivers_exactly (capacity : nat) (scripts : list script) (s : qstate)
  (Hr : qreachable capacity scripts s) :
  (length (q_pending s) <= capacity)%nat /\
  (forall w sc, scripts !! w = Some sc -> delivered w (q_out s) `prefix_of` whole_run sc) /\
  (q_receiver s = Received -> forall w sc, scripts !! w = Some sc ->
    sc_end sc = Ok tt /\ delivered w (q_out s) = (Some <$> rows_of sc) ++ [None]) /\
  (forall w e, q_receiver s = WorkerFailed w e -> exists sc, scripts !! w = Some sc /\
    sc_end sc = Raise e /\ delivered w (q_out s) = Some <$> rows_of sc).
Proof.
  apply qreachable_ok in Hr as [Hok Hrec0]. destruct Hrec0 as [Hout Hrec] eqn:Heq. clear Heq. split; [apply Hok|]. rewrite Hout.
  assert (Hpre : forall w sc, scripts !! w = Some sc -> items_of w (q_taken s) `prefix_of` expected sc).
  { intros w sc Hsc. by eapply taken_prefix_of. }
  split_and!.
  - intros w sc Hsc. rewrite delivered_view, <- view_expected. destruct (Hpre w sc Hsc) as [k ->].
    rewrite omap_app. by eexists.
  - intros Hend w sc Hsc. rewrite <- Hout. by eapply received_all.
  - intros w e Hend. rewrite Hend in Hrec. destruct Hrec as (pre & Ht & _).
    assert (Hw : (w < length scripts)%nat).
    { pose proof (qk_members _ _ _ Hok) as Hm. rewrite Ht, !Forall_app, Forall_cons in Hm. by destruct Hm as ((_ & ? & _) & _). }
    destruct (lookup_lt_is_Some_2 scripts w Hw) as [sc Hsc]. exists sc. split; [done|].
    assert (Hl : items_of w (q_taken s) = items_of w pre ++ [Failed e]).
    { rewrite Ht, items_of_app. f_equal. unfold items_of. by rewrite filter_cons_True. }
    pose proof (Hpre w sc Hsc) as Hp. rewrite Hl in Hp. apply end_in_prefix in Hp as (Hl1 & He & _); [|done].
    destruct (sc_end sc) as [[]|e']; [done|]. injection He as ->. split; [done|].
    rewrite delivered_view, Hl, Hl1, omap_app, view_data. simpl. by rewrite app_nil_r.
Qed.

(** ** Progress *)

(** Steps a reader takes at most once the event is set. *)
Definition steps_left (r : puller) : nat :=
  match r with
  | Unstarted _ | Gone => 0
  | Got _ _ | Checking _ None => 1
  | Reading _ | Putting _ None => 2
  | Checking _ (Some _) => 3
  | Putting _ (Some _) => 4
  end.

(** Reader [w] is no further from its exit than [n]. *)
Definition within (w n : nat) (s : qstate) : Prop := forall r, q_pullers s !! w = Some r -> (steps_left r <= n)%nat.

Lemma steps_left_resume k : (steps_left (resume k) <= 2)%nat.
Proof. destruct k; simpl; lia. Qed.

Lemma within_insert w v n r' s : (w = v -> (steps_left r' <= n)%nat) -> within w n s -> within w n (set_puller v r' s).
Proof.
  intros Hr Hw r. simpl. intros [(<- & <- & _)|[_ Hl]]%list_lookup_insert_Some; [by apply Hr|by apply Hw].
Qed.

(** One step of a reader that has started, once the event is set. *)
Lemma puller_step_stopped capacity w r s : q_stopped s = true -> q_pullers s !! w = Some r -> (0 < steps_left r)%nat ->
  exists s' r', puller_step capacity w s = Some s' /\ q_stopped s' = true /\ q_pullers s' = <[w := r']> (q_pullers s) /\
    (steps_left r' < steps_left r)%nat.
Proof.
  intros Hs Hr Hpos. unfold puller_step. rewrite Hr, Hs.
  destruct r as [pool|[[|b rest] fin]|b pool|i k|i k|]; simpl in Hpos; try lia.
  1-4: eexists _, _; split; [done|]; simpl; split_and!; [done..|]; try (destruct k; simpl; lia); simpl; lia.
  case_if; eexists _, _; (split; [done|]); simpl; (split_and!; [done..|]); destruct k; simpl; lia.
Qed.

(** No step of any thread takes a reader further from its exit. *)
Lemma step_within capacity scripts l s s' w n : queue_ok capacity scripts s -> q_stopped s = true ->
  qexec capacity l s = Some s' -> within w n s -> q_stopped s' = true /\ within w n s'.
Proof.
  intros Hok Hs Hl Hw. pose proof (qk_caller _ _ _ Hok) as Hc. rewrite Hs in Hc.
  destruct l as [v|v fin| | |]; simpl in Hl.
  - destruct (q_pullers s !! v) as [r|] eqn:Hr; [|by unfold puller_step in Hl; rewrite Hr in Hl].
    destruct (decide (0 < steps_left r)%nat) as [Hpos|Hz].
    + destruct (puller_step_stopped capacity v r s Hs Hr Hpos) as (s1 & r' & Hs1 & H1 & H2 & H3).
      rewrite Hl in Hs1. injection Hs1 as <-. split; [done|]. intros r0 Hr0. rewrite H2 in Hr0.
      eapply (within_insert w v n r' s); [|done|exact Hr0]. intros ->. specialize (Hw r Hr). lia.
    + unfold puller_step in Hl. rewrite Hr in Hl. destruct r as [|[[] ?]| |? []|? []|]; simpl in Hz; lia || done.
  - unfold cut_short in Hl. destruct (q_pullers s !! v) as [[]|] eqn:Hr; try done. revert Hl. case_if; [|done].
    intros [= <-]. split; [done|]. apply within_insert; [|done]. intros ->. specialize (Hw _ Hr). simpl in *. lia.
  - unfold receive_step in Hl. destruct (q_receiver s) as [[|m]| |]; try done; [by injection Hl as <-|].
    destruct (q_pending s) as [|[v i] pending]; [done|]. by injection Hl as <-.
  - unfold caller_step in Hl. destruct (q_caller s) as [k| | |k|k|r]; try done; revert Hl.
    + case_if; by intros [= <-].
    + case_if; [destruct (q_pullers s !! k) as [r|]; [destruct (alive r)|]|]; try done; by intros [= <-].
  - unfold leave_step in Hl. destruct (q_caller s); try done. revert Hl. case_if; [|done]. by intros [= <-].
Qed.

(** Left to itself with room in the queue, a reader that has something to publish publishes it. *)
Lemma pull_one capacity w n s s' : puller_step capacity w s = Some s' ->
  (exists s2, qexec_all capacity (replicate n (Pull w)) s' = Some s2 /\ q_pending s2 <> []) ->
  exists s2, qexec_all capacity (replicate (S n) (Pull w)) s = Some s2 /\ q_pending s2 <> [].
Proof. intros H1 (s2 & H2 & H3). exists s2. simpl. by rewrite H1. Qed.

Section publishing.
Context (capacity w : nat) (Hcap : (0 < capacity)%nat).

Definition publishes (s : qstate) : Prop := exists n s', qexec_all capacity (replicate n (Pull w)) s = Some s' /\ q_pending s' <> [].

Lemma publishes_step s s' : puller_step capacity w s = Some s' -> publishes s' -> publishes s.
Proof. intros H1 (n & s2 & H2). exists (S n). apply (pull_one _ _ _ _ s' H1). by exists s2. Qed.

Lemma set_puller_lookup r s : (w < length (q_pullers s))%nat -> q_pullers (set_puller w r s) !! w = Some r.
Proof. intros Hlt. simpl. by apply list_lookup_insert_eq. Qed.

Lemma puller_publishes r : forall s, q_pullers s !! w = Some r -> q_stopped s = false -> q_pending s = [] ->
  unpublished r <> [] -> (forall pool, r <> Unstarted pool) -> publishes s.
Proof.
  assert (Hput : forall i k s, q_pullers s !! w = Some (Putting i k) -> q_pending s = [] -> publishes s).
  { intros i k s Hr Hp. eexists 1%nat, _. simpl. unfold puller_step. rewrite Hr, Hp. simpl.
    rewrite (proj2 (Nat.ltb_lt _ _) Hcap). split; [done|]. simpl. by rewrite Hp. }
  assert (Hcheck : forall i k s, q_pullers s !! w = Some (Checking i k) -> q_stopped s = false -> q_pending s = [] -> publishes s).
  { intros i k s Hr Hs Hp. eapply publishes_step; [unfold puller_step; by rewrite Hr, Hs|].
    eapply Hput; [|done]. apply set_puller_lookup. by eapply lookup_lt_Some. }
  assert (Hread : forall rest fin s, q_pullers s !! w = Some (Reading (rest, fin)) -> q_stopped s = false -> q_pending s = [] -> publishes s).
  { induction rest as [|b rest IH]; intros fin s Hr Hs Hp.
    - eapply publishes_step; [unfold puller_step; by rewrite Hr|].
      eapply Hcheck; [|done..]. apply set_puller_lookup. by eapply lookup_lt_Some.
    - eapply publishes_step; [unfold puller_step; by rewrite Hr|].
      assert (Hr1 : q_pullers (set_puller w (Got b (rest, fin)) s) !! w = Some (Got b (rest, fin))).
      { apply set_puller_lookup. by eapply lookup_lt_Some. }
      eapply publishes_step; [unfold puller_step; by rewrite Hr1|]. simpl. rewrite Hs.
      assert (Hlt : (w < length (q_pullers (set_puller w (Got b (rest, fin)) s)))%nat) by by eapply lookup_lt_Some.
      destruct (carries_blocks b); [eapply Hcheck|eapply IH]; by first [apply set_puller_lookup|idtac]. }
  destruct r as [pool|[rest fin]|b [rest fin]|i k|i k|]; intros s Hr Hs Hp Hun Hst.
  - by destruct (Hst pool).
  - by eapply Hread.
  - eapply publishes_step; [unfold puller_step; by rewrite Hr|]. rewrite Hs.
    assert (Hlt : (w < length (q_pullers s))%nat) by by eapply lookup_lt_Some.
    destruct (carries_blocks b); [eapply Hcheck|eapply Hread]; by first [apply set_puller_lookup|idtac].
  - by eapply Hcheck.
  - by eapply Hput.
  - done.
Qed.
End publishing.

(** Every reader has started once the body of the [with] runs; those joined are gone when it is left. *)
Record caller_ok (s : qstate) : Prop := {
  ca_started : match q_caller s with
               | CStarting k => forall w pool, (w < k)%nat -> q_pullers s !! w <> Some (Unstarted pool)
               | CBody => forall w pool, q_pullers s !! w <> Some (Unstarted pool)
               | _ => True
               end;
  ca_left : q_caller s = CLeft (Ok tt) -> Forall (fun r => alive r = false) (take (q_started s) (q_pullers s));
}.

Lemma reader_moves capacity l w s s' : (l = Pull w \/ exists fin, l = CutShort w fin) -> qexec capacity l s = Some s' ->
  exists r r', q_pullers s !! w = Some r /\ alive r = true /\ (forall pool, r' <> Unstarted pool) /\
    q_pullers s' = <[w := r']> (q_pullers s) /\ q_caller s' = q_caller s /\ q_started s' = q_started s.
Proof.
  intros [->|[fin ->]]; simpl.
  - unfold puller_step. destruct (q_pullers s !! w) as [[pool|[[|b rest] fin]|b pool|i k|i k|]|]; try done; intros [= <-].
    5: case_if.
    all: eexists _, _; split_and!; [done|done| |done|done|done]; intros pool'; unfold resume; by repeat case_match.
  - unfold cut_short. destruct (q_pullers s !! w) as [[]|]; try done. case_if; [|done]. intros [= <-].
    by eexists _, (Checking _ None).
Qed.

Lemma caller_ok_reader capacity l w s s' : (l = Pull w \/ exists fin, l = CutShort w fin) -> caller_ok s ->
  qexec capacity l s = Some s' -> caller_ok s'.
Proof.
  intros Hl [H1 H2] Hs. destruct (reader_moves capacity l w s s' Hl Hs) as (r & r' & Hr & Ha & Hn & Hp & Hc & Hst).
  split; rewrite Hc, Hp.
  - assert (Hkeep : forall v pool, <[w := r']> (q_pullers s) !! v = Some (Unstarted pool) -> q_pullers s !! v = Some (Unstarted pool)).
    { intros v pool [(_ & Heq & _)|[_ Hv]]%list_lookup_insert_Some; [by destruct (Hn pool)|done]. }
    destruct (q_caller s); [intros v pool Hv ?%Hkeep; by eapply H1|intros v pool ?%Hkeep; by eapply H1|done..].
  - intros Hleft. specialize (H2 Hleft). rewrite Hst. destruct (decide (w < q_started s)%nat) as [Hlt|Hge].
    + rewrite Forall_lookup in H2. specialize (H2 w r). rewrite lookup_take_lt in H2 by done. specialize (H2 Hr). congruence.
    + by rewrite take_insert_ge by lia.
Qed.

Lemma caller_ok_call s s' : caller_ok s -> caller_step s = Some s' -> caller_ok s'.
Proof.
  intros [H1 H2]. unfold caller_step. destruct (q_caller s) as [k| | |k|k|r] eqn:Hc; try done.
  - case_if; intros [= <-]; split; simpl; try done.
    + intros w pool Hw Hl. destruct (decide (w = k)) as [->|Hne].
      * rewrite list_lookup_alter_eq in Hl. apply fmap_Some in Hl as (r & _ & Hr). by destruct r.
      * rewrite list_lookup_alter_ne in Hl by done. apply (H1 w pool); [lia|done].
    + bool_prop. intros w pool Hl. apply (H1 w pool); [|done]. apply lookup_lt_Some in Hl. lia.
  - intros [= <-]. by split.
  - case_if; intros [= <-]; by split.
  - case_if; [destruct (q_pullers s !! k) as [r|]; [destruct (alive r)|]; try done; intros [= <-]; by split|].
    intros [= <-]. split; simpl; [done|]. destruct (existsb alive _) eqn:Hal; [done|]. intros _.
    apply Forall_forall. intros r Hr. destruct (alive r) eqn:Hr'; [|done].
    apply not_true_iff_false in Hal. exfalso. apply Hal. apply existsb_exists. exists r. split; [by apply list_elem_of_In|done].
Qed.

Lemma qreachable_caller_ok capacity scripts s : qreachable capacity scripts s -> caller_ok s.
Proof.
  induction 1 as [|s l s' _ IH Hl]; [split; [simpl; lia|done]|]. destruct l as [w|w fin| | |].
  - eapply (caller_ok_reader capacity (Pull w)); eauto.
  - eapply (caller_ok_reader capacity (CutShort w fin)); eauto.
  - destruct IH as [H1 H2]. simpl in Hl. unfold receive_step in Hl.
    destruct (q_receiver s) as [[|m]| |]; try done; [by injection Hl as <-|].
    destruct (q_pending s) as [|[v i] pending]; [done|]. by injection Hl as <-.
  - by eapply caller_ok_call.
  - destruct IH as [H1 H2]. simpl in Hl. unfold leave_step in Hl.
    destruct (q_caller s); try done; revert Hl; [| |case_if; [|done]]; intros [= <-]; by split.
Qed.

(** A consumer that waits is owed an item by some reader. *)
Lemma owed_item capacity scripts s n : queue_ok capacity scripts s -> receiver_ok scripts s -> q_stopped s = false ->
  q_pending s = [] -> q_receiver s = Receiving (S n) ->
  exists w r, q_pullers s !! w = Some r /\ unpublished r <> [].
Proof.
  intros Hok [_ Hrec] Hs Hp Hn. rewrite Hn in Hrec. destruct Hrec as [Hcount Hnf].
  assert (Hex : exists w, w ∈ filter (fun w => finished w (q_taken s) = false) (seq 0 (length scripts))).
  { unfold unfinished in Hcount. destruct (filter _ _) as [|w l]; [done|]. exists w. left. }
  destruct Hex as (w & [Hf [_ Hw]%elem_of_seq]%list_elem_of_filter).
  destruct (lookup_lt_is_Some_2 scripts w) as [sc Hsc]; [lia|].
  destruct (lookup_lt_is_Some_2 (q_pullers s) w) as [r Hr]; [rewrite (qk_pullers _ _ _ Hok); lia|].
  exists w, r. split; [done|]. intros Hnil. pose proof (qk_worker _ _ _ Hok w sc r Hsc Hr) as Hw'.
  unfold puller_ok, sent in Hw'. rewrite Hs, Hnil, Hp, !app_nil_r in Hw'.
  assert (Hin : end_item (sc_end sc) ∈ items_of w (q_taken s)).
  { rewrite Hw'. unfold expected, todo. apply elem_of_app. right. left. }
  destruct (sc_end sc) as [[]|e]; simpl in Hin.
  - apply not_true_iff_false in Hf. apply Hf. unfold finished. apply existsb_exists. exists Done.
    split; [by apply list_elem_of_In|done].
  - unfold items_of in Hin. apply list_elem_of_fmap in Hin as ([v i] & Hi & [_ Hin]%list_elem_of_filter). simpl in Hi. subst i.
    unfold no_failure in Hnf. rewrite Forall_forall in Hnf. by specialize (Hnf _ Hin).
Qed.

(** C7: the readers never deadlock and always stop. In every reachable state: when the consumer waits on
    an empty queue in the body of the [with], some reader, run alone, publishes an item; a reader that
    has started and not exited can always step; once the event is set no step of any thread takes a reader
    further from its exit, each of its own steps takes it strictly closer, and the exit is at most
    four of them away; the caller's [finally] block is never stuck; and when it ends without an
    exception every reader that was started has exited. *)
Theorem queue_progress (capacity : nat) (scripts : list script) (s : qstate) (Hcap : (0 < capacity)%nat)
  (Hr : qreachable capacity scripts s) :
  (forall n, q_caller s = CBody -> q_receiver s = Receiving (S n) -> q_pending s = [] ->
    exists w m s', qexec_all capacity (replicate m (Pull w)) s = Some s' /\ q_pending s' <> []) /\
  (forall w r, q_pullers s !! w = Some r -> alive r = true -> is_some (puller_step capacity w s) = true) /\
  (q_stopped s = true -> forall w r, q_pullers s !! w = Some r -> (steps_left r <= 4)%nat /\
    (forall l s', qexec capacity l s = Some s' -> q_stopped s' = true /\ within w (steps_left r) s') /\
    (forall s', puller_step capacity w s = Some s' -> within w (steps_left r - 1) s')) /\
  ((exists k, q_caller s = CStopping \/ q_caller s = CClosing k \/ q_caller s = CJoining k) ->
    is_some (caller_step s) = true \/ is_some (leave_step s) = true) /\
  (q_caller s = CLeft (Ok tt) -> Forall (fun r => alive r = false) (take (q_started s) (q_pullers s))).
Proof.
  destruct (qreachable_ok _ _ _ Hr) as [Hok Hrec]. pose proof (qreachable_caller_ok _ _ _ Hr) as Hcall. split_and!.
  - intros n Hc Hn Hp. assert (Hs : q_stopped s = false) by (by rewrite (qk_caller _ _ _ Hok), Hc).
    destruct (owed_item _ _ s n Hok Hrec Hs Hp Hn) as (w & r & Hw & Hun). exists w.
    apply (puller_publishes capacity w Hcap r s); try done. intros pool ->.
    destruct Hcall as [H1 _]. rewrite Hc in H1. by apply (H1 w pool).
  - intros w r Hw Ha. unfold puller_step. rewrite Hw. by destruct r as [|[[] ?]| | | |].
  - intros Hs w r Hw. split_and!.
    + destruct r as [| | |? []|? []|]; simpl; lia.
    + intros l s' Hl. eapply step_within; [done..|]. intros r' Hr'. simplify_eq. lia.
    + intros s' Hs'. destruct (decide (0 < steps_left r)%nat) as [Hpos|Hz].
      * destruct (puller_step_stopped capacity w r s Hs Hw Hpos) as (s1 & r' & Hs1 & _ & H2 & H3). simplify_eq.
        intros r0 Hr0. rewrite H2, list_lookup_insert_eq in Hr0 by (by eapply lookup_lt_Some). injection Hr0 as <-. lia.
      * unfold puller_step in Hs'. rewrite Hw in Hs'. destruct r as [|[[] ?]| |? []|? []|]; simpl in Hz; lia || done.
  - intros (k & Hc). unfold caller_step, leave_step. destruct Hc as [-> | [-> | ->] ]; [by left|left; by case_if|].
    destruct (k <? q_started s)%nat; [by right|by left].
  - apply Hcall.
Qed.

(** ** Witnesses *)

Lemma qexec_all_reachable capacity scripts ls s s' : qreachable capacity scripts s ->
  qexec_all capacity ls s = Some s' -> qreachable capacity scripts s'.
Proof.
  revert s; induction ls as [|l ls IH]; intros s Hs; simpl; [by intros [= <-]|].
  destruct (qexec capacity l s) as [s1|] eqn:He; [|done]. simpl. intros H1. eapply IH; [|exact H1]. by eapply qreach_step.
Qed.
Definition qreached (ls : list qlabel) (scripts : list script) : qstate :=
  default (new_queue scripts) (qexec_all 1 ls (new_queue scripts)).
Lemma qreached_reachable ls scripts : is_some (qexec_all 1 ls (new_queue scripts)) = true ->
  qreachable 1 scripts (qreached ls scripts).
Proof.
  intros Hs. unfold qreached. destruct (qexec_all 1 ls (new_queue scripts)) as [s|] eqn:He; [|done].
  eapply qexec_all_reachable; [apply qreach_init|exact He].
Qed.

(** Worker 0 yields a batch, an empty one and completes; worker 1 fails at once; a queue of one item. *)
Definition empty_batch : Batch := bare_batch (Some 0) (Some 0) (Tensor int64 cpu [0%nat] []).
Definition queue_scripts : list script :=
  [MkScript [small_batch 0 10; empty_batch] (Ok tt); MkScript [] (Raise GeneratorExit)].
Definition queue_schedule : list qlabel :=
  [Call; Call; Call; Pull 0; Pull 0; Pull 0; Pull 0; Pull 1; Pull 1; Pull 1; Receive; Pull 0; Pull 0; Pull 0; Pull 0; Pull 0;
   Receive; Pull 1; Pull 1; Receive].

Lemma queue_delivers_exactly_witness :
  delivered 0 (q_out (qreached queue_schedule queue_scripts)) = [Some (small_batch 0 10); None] /\
  q_receiver (qreached queue_schedule queue_scripts) = WorkerFailed 1 GeneratorExit /\
  exists sc, queue_scripts !! 1%nat = Some sc /\ sc_end sc = Raise GeneratorExit.
Proof.
  destruct (queue_delivers_exactly 1 queue_scripts (qreached queue_schedule queue_scripts)) as (_ & _ & _ & H).
  { apply qreached_reachable. vm_compute. reflexivity. }
  split_and!; [vm_compute; reflexivity..|].
  destruct (H 1%nat GeneratorExit) as (sc & H1 & H2 & _); [vm_compute; reflexivity|]. by exists sc.
Defined.

(** The caller leaves while reader 0 is inside [put] on a full queue. *)
Definition leaving_schedule : list qlabel :=
  [Call; Call; Call; Pull 1; Pull 1; Pull 1; Pull 0; Pull 0; Pull 0; Leave; Call].

Lemma queue_progress_witness :
  (exists w m s', qexec_all 1 (replicate m (Pull w)) (qreached [Call; Call; Call] queue_scripts) = Some s' /\ q_pending s' <> []) /\
  q_stopped (qreached leaving_schedule queue_scripts) = true /\
  forall s', puller_step 1 0 (qreached leaving_schedule queue_scripts) = Some s' -> within 0 3 s'.
Proof.
  split; [|split; [vm_compute; reflexivity|]].
  - destruct (queue_progress 1 queue_scripts (qreached [Call; Call; Call] queue_scripts) ltac:(lia)) as [H _];
      [apply qreached_reachable; vm_compute; reflexivity|].
    apply (H 1%nat); vm_compute; reflexivity.
  - destruct (queue_progress 1 queue_scripts (qreached leaving_schedule queue_scripts) ltac:(lia)) as (_ & _ & H & _);
      [apply qreached_reachable; vm_compute; reflexivity|].
    destruct (H ltac:(vm_compute; reflexivity) 0%nat (Putting (Data (small_batch 0 10)) (Some ([empty_batch], Ok tt)))
      ltac:(vm_compute; reflexivity)) as (_ & _ & H3). exact H3.
Defined.
