(* ===== verification/PretrainTrain.v ===== *)
(** * Training from a stream of workers ([examples/pretrain_kernel.py]: [train], [evaluate])

    The loop that turns the stream of [worker_batches] into updates of a model and a
    held-out sample: its budget of updates, its counters, its final partial
    minibatches and its errors. The model, its gradient step, its loss and the float
    arithmetic of the report are arguments. Tensors are locations of the heap of
    [PretrainData.v]; minibatches are consumed while their cutter is suspended. *)

From S2P Require Import Prelude Batch Device Wire Terminal Pool MultiPool PretrainData PretrainQueue.

(** [for part in batches.add(pairs): f(part)]: the body runs at each [yield]. *)
Section interleaved.
Context (junk : nat -> nat -> Z * Z) {St : Type} (f : nat -> heap -> St -> result St).

Fixpoint add_each (fuel offset : nat) (l : pairs) (b : PairBatches) (h : heap) (s : St) :
    result (St * (PairBatches * heap)) :=
  match fuel with
  | O => Ok (s, (b, h))
  | S fuel =>
      if (offset <? length l)%nat then
        let count := Nat.min (pb_size b - pb_used b) (length l - offset) in
        let h := copy_into (pb_data b) (pb_used b) (take count (drop offset l)) h in
        let used := (pb_used b + count)%nat in
        if (used =? pb_size b)%nat then
          let '(data, h) := torch_empty junk (pb_size b) h in
          let! s := f (pb_data b) h s in
          add_each fuel (offset + count) l (MkPairBatches (pb_size b) data 0) h s
        else add_each fuel (offset + count) l (MkPairBatches (pb_size b) (pb_data b) used) h s
      else Ok (s, (b, h))
  end.
Definition for_parts (l : pairs) (b : PairBatches) (h : heap) (s : St) : result (St * (PairBatches * heap)) :=
  add_each (S (length l)) 0 l b h s.
End interleaved.

(** ** The loop *)

Section train.
Context {M F G : Type} `{RandintOps G} (junk : nat -> nat -> Z * Z).
(** The loss of a minibatch; whether it and every gradient are finite; the model after the step. *)
Context (cross_entropy : pairs -> M -> F) (all_finite : pairs -> M -> bool) (optimizer_step : pairs -> M -> M).
(** The sum of losses and the number of right predictions of a minibatch; the float operations. *)
Context (loss_sum : pairs -> M -> F) (hits : pairs -> M -> Z).
Context (fzero : F) (fadd : F -> F -> F) (fdiv : F -> Z -> F) (fquot : Z -> Z -> F) (isfinite : F -> bool).
Context (weights_equal : M -> M -> bool).

(** What [update] changes. *)
Record Fit := MkFit { fit_model : M; fit_losses : list F; fit_trained : nat }.

(** The body of [update]: one gradient step. *)
Definition learn (batch : pairs) (s : Fit) : result Fit :=
  let loss := cross_entropy batch (fit_model s) in
  raise! RuntimeError "Next-block training produced a non-finite loss or gradient"
    when negb (all_finite batch (fit_model s)) in
  Ok (MkFit (optimizer_step batch (fit_model s)) (fit_losses s ++ [loss]) (fit_trained s + length batch)).

Definition update (max_updates : Z) (batch : pairs) (s : Fit) : result Fit :=
  if (length batch =? 0)%nat || (max_updates <=? Z.of_nat (length (fit_losses s))) then Ok s else learn batch s.

Definition tensor_at (h : heap) (loc : nat) : pairs := default [] (h !! loc).

Record Training := MkTraining {
  tr_pairs : BlockPairs;
  tr_training : PairBatches;
  tr_testing : PairBatches;
  tr_heap : heap;
  tr_held : HeldOutBatches G nat;
  tr_fit : Fit;
  tr_observed_train : nat;
  tr_observed_test : nat;
  tr_completed : nat;
}.

(** The body of [for worker, batch in batches], with [n_train] training endpoints. *)
Definition train_item (max_updates : Z) (n_train : nat) (it : nat * option Batch) (t : Training) : result Training :=
  let '(w, batch) := it in
  match batch with
  | None =>
      Ok (MkTraining (end_worker (Z.of_nat w) (tr_pairs t)) (tr_training t) (tr_testing t) (tr_heap t) (tr_held t) (tr_fit t)
        (tr_observed_train t) (tr_observed_test t) (S (tr_completed t)))
  | Some batch =>
      let '(observed, p) := add_blocks (Z.of_nat w) batch (tr_pairs t) in
      if (w <? n_train)%nat then
        let! r := if Z.of_nat (length (fit_losses (tr_fit t))) <? max_updates
                  then for_parts junk (fun loc h => update max_updates (tensor_at h loc)) observed
                         (tr_training t) (tr_heap t) (tr_fit t)
                  else Ok (tr_fit t, (tr_training t, tr_heap t)) in
        let '(fit, (training, h)) := r in
        Ok (MkTraining p training (tr_testing t) h (tr_held t) fit
          (tr_observed_train t + length observed) (tr_observed_test t) (tr_completed t))
      else
        let! r := for_parts junk (fun loc h held => Ok (hold_out (length (tensor_at h loc)) loc held)) observed
                    (tr_testing t) (tr_heap t) (tr_held t) in
        let '(held, (testing, h)) := r in
        Ok (MkTraining p (tr_training t) testing h held (tr_fit t)
          (tr_observed_train t) (tr_observed_test t + length observed) (tr_completed t))
  end.

Definition train_loop (max_updates : Z) (n_train : nat) (stream : list (nat * option Batch)) (t : Training) : result Training :=
  rfold (fun t it => train_item max_updates n_train it t) t stream.

(** [update(training.finish())], then [held_out.add(testing.finish())]. *)
Definition train_finish (max_updates : Z) (t : Training) : result Training :=
  let '(part, (training, h)) := pair_batches_finish (tr_training t) (tr_heap t) in
  let! fit := update max_updates (tensor_at h part) (tr_fit t) in
  let '(part, (testing, h)) := pair_batches_finish (tr_testing t) h in
  Ok (MkTraining (tr_pairs t) training testing h (hold_out (length (tensor_at h part)) part (tr_held t)) fit
    (tr_observed_train t) (tr_observed_test t) (tr_completed t)).

(** ** [evaluate] *)

Record Evaluation := MkEvaluation { ev_loss : F; ev_accuracy : F; ev_pairs : Z }.

Definition evaluate (m : M) (batches : list pairs) : result Evaluation :=
  let '(total, correct, n) := fold_left (fun acc b =>
    let '(total, correct, n) := acc in
    (fadd total (loss_sum b m), correct + hits b m, n + Z.of_nat (length b))) batches (fzero, 0, 0) in
  raise! ValueError "Test runs produced no same-source next-block pairs" when n =? 0 in
  Ok (MkEvaluation (fdiv total n) (fquot correct n) n).

(** ** [train] *)

Record Metrics := MkMetrics {
  me_workers_completed : nat;
  me_updates : nat;
  me_trained_pairs : nat;
  me_observed_train_pairs : nat;
  me_observed_test_pairs : nat;
  me_unused_training_pairs : Z;
  me_test_minibatches_seen : nat;
  me_test_minibatches_retained : nat;
  me_initial_test : Evaluation;
  me_final_test : Evaluation;
  me_all_traces_complete : bool;
}.

(** The device was checked to exist: [selected] says so. *)
Definition start_training (make_model : M) (train_endpoints test_endpoints : list string) (selected : result unit)
    (vocabulary batch_size max_updates test_batches seed : Z) : result Training :=
  raise! ValueError "Provide separate training and test worker runs"
    when bool_decide (train_endpoints = []) || bool_decide (test_endpoints = []) in
  raise! ValueError "Maximum updates must be positive" when max_updates <? 1 in
  let! _ := selected in
  let! pairs := new_block_pairs vocabulary in
  let! r := new_pair_batches junk batch_size [] in
  let '(training, h) := r in
  let! r := new_pair_batches junk batch_size h in
  let '(testing, h) := r in
  let! held_out := new_held_out test_batches (seed + 1) in
  Ok (MkTraining pairs training testing h held_out (MkFit make_model [] 0) 0 0 0).

(** The checks and the report after the loop; [initial] is the model before it. *)
Definition report (initial : M) (n_workers : nat) (t : Training) : result Metrics :=
  raise! ValueError "Training runs produced no same-source next-block pairs"
    when (length (fit_losses (tr_fit t)) =? 0)%nat in
  let kept := tensor_at (tr_heap t) <$> ho_batches (tr_held t) in
  let! before := evaluate initial kept in
  let! after := evaluate (fit_model (tr_fit t)) kept in
  raise! RuntimeError "Next-block training did not produce finite updated weights"
    when weights_equal initial (fit_model (tr_fit t)) || negb (isfinite (ev_loss before) && isfinite (ev_loss after)) in
  Ok (MkMetrics (tr_completed t) (length (fit_losses (tr_fit t))) (fit_trained (tr_fit t))
    (tr_observed_train t) (tr_observed_test t)
    (Z.of_nat (tr_observed_train t) - Z.of_nat (fit_trained (tr_fit t)))
    (ho_seen (tr_held t)) (length (ho_batches (tr_held t))) before after (tr_completed t =? n_workers)%nat).

(** [stream] and [ending]: what the iterator of [worker_batches] yields and how the [with] ends. *)
Definition train (make_model : M) (train_endpoints test_endpoints : list string) (selected : result unit)
    (vocabulary batch_size max_updates test_batches queue_batches seed : Z)
    (stream : list (nat * option Batch)) (ending : result unit) : result Metrics :=
  let! t := start_training make_model train_endpoints test_endpoints selected vocabulary batch_size max_updates test_batches seed in
  let! _ := check_workers (train_endpoints ++ test_endpoints) queue_batches in
  let! t := train_loop max_updates (length train_endpoints) stream t in
  let! _ := ending in
  let! t := train_finish max_updates t in
  report make_model (length (train_endpoints ++ test_endpoints)) t.
End train.

(** ** Minibatches of a list *)

(** Cutting a list into pieces of [size], the last one possibly shorter. *)
Fixpoint cut_list {A} (fuel size : nat) (l : list A) : list (list A) :=
  match fuel, l with
  | S fuel, _ :: _ => take size l :: cut_list fuel size (drop size l)
  | _, _ => []
  end.
Definition minibatches {A} (size : nat) (l : list A) : list (list A) := cut_list (length l) size l.

Definition nonempty {A} (l : list A) : list (list A) := match l with [] => [] | _ => [l] end.

Lemma cut_list_full {A} size (cs : list (list A)) rest : (0 < size)%nat -> Forall (fun c => length c = size) cs ->
  (length rest <= size)%nat -> forall fuel, (length (concat cs ++ rest) <= fuel)%nat ->
  cut_list fuel size (concat cs ++ rest) = cs ++ nonempty rest.
Proof.
  intros Hs Hcs Hr. induction Hcs as [|c cs Hc _ IH]; intros fuel Hf; simpl in *.
  - destruct rest as [|a rest]; [by destruct fuel|]. destruct fuel as [|fuel]; [simpl in Hf; lia|].
    cbn [cut_list]. rewrite take_ge, drop_ge by lia. by destruct fuel.
  - rewrite <- app_assoc in *. rewrite length_app in Hf. destruct c as [|a c]; [simpl in Hc; lia|].
    destruct fuel as [|fuel]; [simpl in Hf; lia|]. cbn [cut_list app].
    change (a :: c ++ concat cs ++ rest) with ((a :: c) ++ concat cs ++ rest).
    rewrite <- Hc, take_app_length, drop_app_length, Hc. f_equal. apply IH. simpl in *. lia.
Qed.
Lemma minibatches_full {A} size (cs : list (list A)) rest : (0 < size)%nat -> Forall (fun c => length c = size) cs ->
  (length rest <= size)%nat -> minibatches size (concat cs ++ rest) = cs ++ nonempty rest.
Proof. intros. by apply cut_list_full. Qed.

(** A list of full pieces at the start of a list are its first minibatches. *)
Lemma minibatches_prefix {A} size (cs : list (list A)) l : (0 < size)%nat -> Forall (fun c => length c = size) cs ->
  concat cs `prefix_of` l -> cs `prefix_of` minibatches size l.
Proof.
  intros Hs Hcs [k ->]. unfold minibatches. set (fuel := length _).
  assert (Hf : (length (concat cs ++ k) <= fuel)%nat) by done. clearbody fuel. revert fuel Hf.
  induction Hcs as [|c cs Hc _ IH]; intros fuel Hf; [apply prefix_nil|]. simpl in *. rewrite <- app_assoc in *.
  rewrite length_app in Hf. destruct c as [|a c]; [simpl in Hc; lia|]. destruct fuel as [|fuel]; [simpl in Hf; lia|].
  cbn [cut_list app]. change (a :: c ++ concat cs ++ k) with ((a :: c) ++ concat cs ++ k).
  rewrite <- Hc, take_app_length, drop_app_length, Hc. apply prefix_cons, IH. simpl in *. lia.
Qed.

(** ** The interleaved loop is the loop, then its bodies *)

Section interleaving.
Context (junk : nat -> nat -> Z * Z).

Lemma add_loop_touches fuel : forall offset l b h, (pb_data b < length h)%nat ->
  touches b h (add_loop junk fuel offset l b h).2.2.
Proof.
  induction fuel as [|fuel IH]; intros offset l b h Hd; cbn [add_loop]; [by split|].
  destruct (offset <? length l)%nat; [|by split]. set (values := take _ _). set (h1 := copy_into _ _ values h).
  assert (Hl : length h1 = length h) by apply length_copy_into.
  assert (Hsame : forall loc, loc <> pb_data b -> h1 !! loc = h !! loc) by (intros loc Hloc; by apply list_lookup_alter_ne).
  destruct (_ =? _)%nat; unfold torch_empty.
  - set (b1 := MkPairBatches _ _ _). set (h2 := h1 ++ _). set (offset' := (_ + _)%nat).
    assert (Hl2 : length h2 = S (length h)) by (unfold h2; rewrite length_app; simpl; lia).
    specialize (IH offset' l b1 h2 ltac:(simpl; lia)). destruct (add_loop _ _ _ _ b1 h2) as [locs [b' h']].
    destruct IH as [Hle Ht]. simpl in *. split; [lia|]. intros loc H1 H2. rewrite Ht by lia. unfold h2.
    rewrite lookup_app_l by lia. by apply Hsame.
  - set (b1 := MkPairBatches _ _ _). set (offset' := (_ + _)%nat). specialize (IH offset' l b1 h1 ltac:(simpl; lia)).
    destruct IH as [Hle Ht]. split; [lia|]. intros loc H1 H2. rewrite Ht by (simpl; done || lia). by apply Hsame.
Qed.

Context {St : Type} (f : nat -> heap -> St -> result St).
Hypothesis f_reads : forall loc h h' s, h !! loc = h' !! loc -> f loc h s = f loc h' s.

Lemma add_each_eq fuel : forall offset l b h s, (pb_data b < length h)%nat ->
  add_each junk f fuel offset l b h s =
  let '(locs, (b', h')) := add_loop junk fuel offset l b h in
  let! s' := rfold (fun s loc => f loc h' s) s locs in Ok (s', (b', h')).
Proof.
  induction fuel as [|fuel IH]; intros offset l b h s Hd; [done|]. cbn [add_each add_loop].
  destruct (offset <? length l)%nat; [|done]. set (h1 := copy_into _ _ _ h).
  assert (Hl : length h1 = length h) by apply length_copy_into.
  destruct (_ =? _)%nat; [|by apply IH; simpl; lia]. unfold torch_empty. set (b1 := MkPairBatches _ _ _). set (h2 := h1 ++ _).
  set (offset' := (_ + _)%nat).
  assert (Hl2 : length h2 = S (length h)) by (unfold h2; rewrite length_app; simpl; lia).
  assert (Hd1 : (pb_data b1 < length h2)%nat) by (simpl; lia).
  pose proof (add_loop_touches fuel offset' l b1 h2 Hd1) as [_ Ht]. specialize (IH offset' l b1 h2).
  destruct (add_loop junk fuel offset' l b1 h2) as [locs [b' h']]. simpl in *.
  rewrite (f_reads _ h2 h') by (symmetry; apply Ht; lia). destruct (f (pb_data b) h' s) as [s1|e]; [|done]. simpl.
  by apply IH.
Qed.
Lemma for_parts_eq l b h s : (pb_data b < length h)%nat ->
  for_parts junk f l b h s =
  let '(locs, (b', h')) := pair_batches_add junk l b h in
  let! s' := rfold (fun s loc => f loc h' s) s locs in Ok (s', (b', h')).
Proof. apply add_each_eq. Qed.
End interleaving.

(** ** The reference: two lists of pairs *)

Section refinement.
Context {M F G : Type} `{RandintOps G} (junk : nat -> nat -> Z * Z).
Context (cross_entropy : pairs -> M -> F) (all_finite : pairs -> M -> bool) (optimizer_step : pairs -> M -> M).
Context (max_updates : Z) (n_train size : nat).

Abbreviation learn := (learn cross_entropy all_finite optimizer_step).
Abbreviation update := (update cross_entropy all_finite optimizer_step).
Abbreviation train_item := (train_item junk cross_entropy all_finite optimizer_step max_updates n_train).
Abbreviation train_loop := (train_loop junk cross_entropy all_finite optimizer_step max_updates n_train).

(** One gradient step for each minibatch. *)
Definition learn_all (cs : list pairs) (s : Fit) : result Fit := rfold (fun s c => learn c s) s cs.

(** The pairs of the training and of the test workers, in the order of the stream. *)
Fixpoint observed_pairs (stream : list (nat * option Batch)) (p : BlockPairs) : pairs * pairs :=
  match stream with
  | [] => ([], [])
  | (w, None) :: stream => observed_pairs stream (end_worker (Z.of_nat w) p)
  | (w, Some b) :: stream =>
      let '(l, p) := add_blocks (Z.of_nat w) b p in
      let '(train, test) := observed_pairs stream p in
      if (w <? n_train)%nat then (l ++ train, test) else (train, l ++ test)
  end.

Definition budget : nat := Z.to_nat max_updates.

Lemma learn_losses c s s' : learn c s = Ok s' -> length (fit_losses s') = S (length (fit_losses s)) /\
  fit_trained s' = (fit_trained s + length c)%nat.
Proof.
  unfold PretrainTrain.learn. destruct (all_finite c (fit_model s)); [|done]. intros [= <-]. simpl.
  rewrite length_app. simpl. lia.
Qed.
Lemma learn_all_app cs1 cs2 s : learn_all (cs1 ++ cs2) s = let! s' := learn_all cs1 s in learn_all cs2 s'.
Proof. apply rfold_app. Qed.
Lemma learn_all_counts cs : forall s s', learn_all cs s = Ok s' ->
  length (fit_losses s') = (length (fit_losses s) + length cs)%nat /\
  fit_trained s' = (fit_trained s + length (concat cs))%nat.
Proof.
  induction cs as [|c cs IH]; intros s s' Hs.
  - injection Hs as <-. simpl. lia.
  - unfold learn_all in Hs. cbn [rfold] in Hs. destruct (learn c s) as [s1|] eqn:Hc; [|done]. simpl in Hs.
    apply IH in Hs as [H1 H2]. apply learn_losses in Hc as [H3 H4]. cbn [concat length]. rewrite length_app. lia.
Qed.

(** [update] learns from the first minibatches only. *)
Lemma update_all cs : forall s, Forall (fun c => c <> []) cs ->
  rfold (fun s c => update max_updates c s) s cs = learn_all (take (budget - length (fit_losses s)) cs) s.
Proof.
  induction cs as [|c cs IH]; intros s Hc; [by rewrite take_nil|]. apply Forall_cons in Hc as [Hc Hcs].
  cbn [rfold]. unfold PretrainTrain.update at 1.
  assert (Hne : (length c =? 0)%nat = false) by (by destruct c). rewrite Hne. simpl.
  destruct (max_updates <=? Z.of_nat (length (fit_losses s))) eqn:Hb; bool_prop.
  - simpl. rewrite IH by done. replace (budget - length (fit_losses s))%nat with 0%nat by (unfold budget; lia). done.
  - destruct (budget - length (fit_losses s))%nat as [|k] eqn:Hk; [unfold budget in Hk; lia|]. rewrite firstn_cons.
    unfold learn_all. cbn [rfold]. destruct (learn c s) as [s1|e] eqn:Hl; [|done]. simpl. rewrite IH by done.
    apply learn_losses in Hl as [Hl _]. by replace (budget - length (fit_losses s1))%nat with k by lia.
Qed.

(** The reservoir of locations holds what the reservoir of minibatches holds. *)
Definition same_held (h : heap) (t : HeldOutBatches G nat) (r : HeldOutBatches G pairs) : Prop :=
  ho_limit t = ho_limit r /\ ho_random t = ho_random r /\ ho_seen t = ho_seen r /\
  owned h (ho_batches t) (ho_batches r).

Lemma hold_out_same h t r loc c : same_held h t r -> h !! loc = Some c ->
  same_held h (hold_out (length c) loc t) (hold_out (length c) c r).
Proof.
  intros (H1 & H2 & H3 & H4) Hl. unfold hold_out. rewrite <- H1, <- H2, <- H3, (Forall2_length _ _ _ H4).
  destruct (length c =? 0)%nat; [done|].
  destruct (_ <? _)%nat; [split_and!; try done; simpl; apply Forall2_app; [done|by repeat constructor]|].
  destruct (randint _ _) as [d g]. split_and!; try done. simpl.
  destruct (d <? _)%nat; [by apply Forall2_insert|done].
Qed.
Lemma hold_out_batches rows loc (t : HeldOutBatches G nat) l : l ∈ ho_batches (hold_out rows loc t) ->
  l = loc \/ l ∈ ho_batches t.
Proof.
  unfold hold_out. destruct (rows =? 0)%nat; [by right|].
  destruct (_ <? _)%nat; simpl; [intros [?|?%list_elem_of_singleton]%elem_of_app; auto|].
  destruct (randint _ _) as [d g]. simpl. destruct (d <? _)%nat; [|by right].
  intros (k & Hk)%list_elem_of_lookup. apply list_lookup_insert_Some in Hk as [(_ & <- & _)|[_ Hk]]; [by left|].
  right. by eapply list_elem_of_lookup_2.
Qed.

(** Each minibatch with its number of rows. *)
Definition sized (cs : list pairs) : list (nat * pairs) := (fun c => (length c, c)) <$> cs.

Lemma hold_all_same h locs cs : forall t r, same_held h t r -> owned h locs cs ->
  exists t', rfold (fun t loc => Ok (hold_out (length (tensor_at h loc)) loc t)) t locs = @Ok exn _ t' /\
    same_held h t' (hold_all (sized cs) r) /\ forall l, l ∈ ho_batches t' -> l ∈ locs \/ l ∈ ho_batches t.
Proof.
  intros t r Hs Ho. revert t r Hs. induction Ho as [|loc c locs cs Hl Ho IH]; intros t r Hs.
  - exists t. split_and!; [done|done|auto].
  - destruct (IH (hold_out (length c) loc t) (hold_out (length c) c r)) as (t' & H1 & H2 & H3); [by apply hold_out_same|].
    exists t'. split_and!; [|done|].
    + cbn [rfold rbind]. replace (tensor_at h loc) with c by (unfold tensor_at; by rewrite Hl). exact H1.
    + intros l [Hin|Hin]%H3; [left; by right|]. apply hold_out_batches in Hin as [->|?]; [left; left|by right].
Qed.

(** ** The invariant of the loop *)

Context (Hmax : 0 < max_updates) (Hsize : (0 < size)%nat).

Record train_ok (fit0 : Fit) (held0 : HeldOutBatches G pairs) (P Q : pairs) (t : Training) : Prop := {
  to_train : exists cs held, cutter_ok (tr_training t) (tr_heap t) held /\ pb_size (tr_training t) = size /\
    Forall (fun c => length c = size) cs /\ learn_all cs fit0 = Ok (tr_fit t) /\ (length cs <= budget)%nat /\
    ((length cs < budget)%nat -> concat cs ++ held = P) /\ concat cs `prefix_of` P;
  to_test : exists qs held, cutter_ok (tr_testing t) (tr_heap t) held /\ pb_size (tr_testing t) = size /\
    Forall (fun c => length c = size) qs /\ concat qs ++ held = Q /\
    same_held (tr_heap t) (tr_held t) (hold_all (sized qs) held0);
  to_apart : pb_data (tr_training t) <> pb_data (tr_testing t) /\
    pb_data (tr_training t) ∉ ho_batches (tr_held t) /\ pb_data (tr_testing t) ∉ ho_batches (tr_held t);
  to_observed : tr_observed_train t = length P /\ tr_observed_test t = length Q;
}.

Lemma cutter_below b h held : cutter_ok b h held -> (pb_data b < length h)%nat.
Proof. intros (_ & buf & Hb & _). by eapply lookup_lt_Some. Qed.
Lemma cutter_touched b b' h h' held : pb_data b' <> pb_data b -> touches b h h' -> cutter_ok b' h held -> cutter_ok b' h' held.
Proof.
  intros Hne [_ Ht] Hok. pose proof (cutter_below _ _ _ Hok) as Hlt. destruct Hok as (Hu & buf & Hb & Hr).
  split; [done|]. exists buf. split; [|done]. by rewrite Ht.
Qed.
Lemma same_held_touched b h h' t r : pb_data b ∉ ho_batches t -> touches b h h' -> same_held h t r -> same_held h' t r.
Proof. intros Hn Ht (H1 & H2 & H3 & H4). split_and!; try done. by eapply owned_touched. Qed.
Lemma held_below h t r loc : same_held h t r -> loc ∈ ho_batches t -> (loc < length h)%nat.
Proof. intros (_ & _ & _ & Ho) Hin. by eapply owned_below. Qed.

(** Learning fails within the first pairs. *)
Definition fails (fit0 : Fit) (P : pairs) (e : exn) : Prop :=
  exists cs, learn_all cs fit0 = Raise e /\ (length cs <= budget)%nat /\ Forall (fun c => length c = size) cs /\
    concat cs `prefix_of` P.

Lemma fails_mono fit0 P Q e : fails fit0 P e -> fails fit0 (P ++ Q) e.
Proof. intros (cs & H1 & H2 & H3 & H4). exists cs. split_and!; try done. by apply prefix_app_r. Qed.
Lemma fails_all fit0 P e : fails fit0 P e -> learn_all (take budget (minibatches size P)) fit0 = Raise e.
Proof.
  intros (cs & H1 & H2 & H3 & H4). destruct (minibatches_prefix size cs P Hsize H3 H4) as [k ->].
  rewrite take_app_ge by done. rewrite learn_all_app, H1. done.
Qed.

(** The minibatches handed out, read when they are handed out. *)
Lemma fold_owned {St} (g : pairs -> St -> result St) h locs cs s : owned h locs cs ->
  rfold (fun s loc => g (tensor_at h loc) s) s locs = rfold (fun s c => g c s) s cs.
Proof.
  intros Ho. revert s. induction Ho as [|loc c locs cs Hl _ IH]; intros s; [done|]. cbn [rfold].
  replace (tensor_at h loc) with c by (unfold tensor_at; by rewrite Hl). destruct (g c s); [apply IH|done].
Qed.
Lemma full_nonempty (cs : list pairs) : Forall (fun c => length c = size) cs -> Forall (fun c => c <> []) cs.
Proof. intros Hc. eapply Forall_impl; [exact Hc|]. intros c H1 ->. simpl in H1. lia. Qed.

(** A portion of training pairs. *)
Lemma train_portion fit0 P l b h held cs fit : fit_losses fit0 = [] -> cutter_ok b h held -> pb_size b = size ->
  Forall (fun c => length c = size) cs -> learn_all cs fit0 = Ok fit -> (length cs <= budget)%nat ->
  concat cs ++ held = P ->
  match for_parts junk (fun loc h => update max_updates (tensor_at h loc)) l b h fit with
  | Raise e => fails fit0 (P ++ l) e
  | Ok (fit', (b', h')) => touches b h h' /\ (pb_data b' = pb_data b \/ (length h <= pb_data b')%nat) /\
      exists cs' held', cutter_ok b' h' held' /\ pb_size b' = size /\ Forall (fun c => length c = size) cs' /\
        learn_all cs' fit0 = Ok fit' /\ (length cs' <= budget)%nat /\
        ((length cs' < budget)%nat -> concat cs' ++ held' = P ++ l) /\ concat cs' `prefix_of` P ++ l
  end.
Proof.
  intros H0 Hok Hsz Hcs Hfit Hlen HP. rewrite for_parts_eq; [|intros loc h1 h2 s Heq; unfold tensor_at; by rewrite Heq|by eapply cutter_below].
  pose proof (pair_batches_add_spec junk l b h held Hok) as Hspec. destruct (pair_batches_add junk l b h) as [locs [b' h']].
  destruct Hspec as (chunks & held' & Ho & Hch & Hc & Hok' & Hsz' & Ht & _ & _ & Hf).
  rewrite (fold_owned _ _ _ _ _ Ho), Hsz in *. rewrite update_all by (by apply full_nonempty).
  destruct (learn_all_counts _ _ _ Hfit) as [Hl _]. rewrite H0 in Hl. simpl in Hl. rewrite Hl.
  set (new := take (budget - length cs) chunks).
  assert (Hnew : Forall (fun c => length c = size) (cs ++ new)) by (apply Forall_app; split; [done|by apply Forall_take]).
  assert (Hall : learn_all (cs ++ new) fit0 = learn_all new fit) by (by rewrite learn_all_app, Hfit).
  assert (Hbud : (length (cs ++ new) <= budget)%nat) by (rewrite length_app; unfold new; rewrite length_take; lia).
  assert (Htotal : concat cs ++ concat chunks ++ held' = P ++ l) by (by rewrite Hc, app_assoc, HP).
  assert (Hpre : concat (cs ++ new) `prefix_of` P ++ l).
  { rewrite <- Htotal, concat_app. apply prefix_app. transitivity (concat chunks); [|by eexists]. rewrite <- (take_drop (budget - length cs) chunks).
    rewrite concat_app. by eexists. }
  apply Forall_cons in Hf as [Hf _].
  destruct (learn_all new fit) as [fit'|e]; simpl.
  - split_and!; [done|done|]. exists (cs ++ new), held'. split_and!; try done. intros Hlt.
    rewrite concat_app, <- app_assoc, <- Htotal. do 2 f_equal. unfold new. rewrite take_ge; [done|].
    rewrite length_app in Hlt. unfold new in Hlt. rewrite length_take in Hlt. lia.
  - exists (cs ++ new). by rewrite Hall.
Qed.

Lemma train_item_ok fit0 held0 P Q w item t : fit_losses fit0 = [] -> train_ok fit0 held0 P Q t ->
  let '(P1, Q1) := observed_pairs [(w, item)] (tr_pairs t) in
  match train_item (w, item) t with
  | Raise e => fails fit0 (P ++ P1) e
  | Ok t' => train_ok fit0 held0 (P ++ P1) (Q ++ Q1) t'
  end.
Proof.
  intros H0 [(cs & held & T1 & T2 & T3 & T4 & T5 & T6 & T7) (qs & heldq & Q1 & Q2 & Q3 & Q4 & Q5) (A1 & A2 & A3) [O1 O2]].
  unfold PretrainTrain.train_item. cbn [observed_pairs]. destruct item as [batch|].
  2:{ rewrite !app_nil_r. split; simpl; [by exists cs, held|by exists qs, heldq|done|done]. }
  destruct (add_blocks (Z.of_nat w) batch (tr_pairs t)) as [l p] eqn:Hadd.
  pose proof (cutter_below _ _ _ T1) as Hbt. pose proof (cutter_below _ _ _ Q1) as Hbq.
  destruct (w <? n_train)%nat; rewrite !app_nil_r.
  - destruct (learn_all_counts _ _ _ T4) as [Hl _]. rewrite H0 in Hl. simpl in Hl. rewrite Hl.
    destruct (Z.of_nat (length cs) <? max_updates) eqn:Hm; bool_prop.
    + pose proof (train_portion fit0 P l (tr_training t) (tr_heap t) held cs (tr_fit t) H0 T1 T2 T3 T4 T5) as Hp.
      specialize (Hp (T6 ltac:(unfold budget; lia))).
      destruct (for_parts _ _ _ _ _ _) as [[fit' [b' h']]|e]; [|exact Hp]. simpl.
      destruct Hp as (Ht & Hd & cs' & held' & Hcs'). split; simpl; [by exists cs', held'| | |].
      * exists qs, heldq. split_and!; try done; [|by apply (same_held_touched (tr_training t) (tr_heap t))].
        by apply (cutter_touched (tr_training t) _ (tr_heap t)).
      * split_and!; [destruct Hd as [->|?]; [done|lia]| |done]. destruct Hd as [->|Hd]; [done|].
        intros Hin. pose proof (held_below _ _ _ _ Q5 Hin). lia.
      * rewrite length_app. lia.
    + split; simpl; [|by exists qs, heldq|done|rewrite length_app; lia].
      exists cs, held. split_and!; try done; [unfold budget; lia|by apply prefix_app_r].
  - rewrite for_parts_eq; [|intros loc h1 h2 s Heq; unfold tensor_at; by rewrite Heq|done].
    pose proof (pair_batches_add_spec junk l (tr_testing t) (tr_heap t) heldq Q1) as Hspec.
    destruct (pair_batches_add junk l (tr_testing t) (tr_heap t)) as [locs [b' h']].
    destruct Hspec as (chunks & held' & Ho & Hch & Hc & Hok' & Hsz' & Ht & _ & Hdn & Hf).
    assert (Hsame : same_held h' (tr_held t) (hold_all (sized qs) held0)) by (by apply (same_held_touched (tr_testing t) (tr_heap t))).
    destruct (hold_all_same h' locs chunks _ _ Hsame Ho) as (held1 & -> & Hs1 & Hin1). simpl.
    rewrite Forall_forall in Hf.
    assert (Hnew : forall loc, loc ∈ pb_data b' :: locs -> loc <> pb_data (tr_training t)).
    { intros loc Hin ->. destruct (Hf _ Hin) as [?|?]; [done|lia]. }
    split; simpl.
    + exists cs, held. split_and!; try done. by apply (cutter_touched (tr_testing t) _ (tr_heap t)).
    + exists (qs ++ chunks), held'. split_and!; [done|lia|apply Forall_app; split; [done|]| |].
      * eapply Forall_impl; [exact Hch|]. simpl. intros c Hc'. lia.
      * rewrite concat_app, <- app_assoc, Hc, app_assoc, Q4. done.
      * unfold sized, hold_all in *. rewrite fmap_app, fold_left_app. done.
    + split_and!.
      * intros Heq. by apply (Hnew (pb_data b') ltac:(left)).
      * intros [Hin|Hin]%Hin1; [|done]. by apply (Hnew _ ltac:(right; exact Hin)).
      * intros [Hin|Hin]%Hin1; [done|]. destruct (Hf (pb_data b') ltac:(left)) as [Heq|Hge]; [by rewrite Heq in Hin|].
        pose proof (held_below _ _ _ _ Q5 Hin). lia.
    + rewrite length_app. lia.
Qed.

Lemma train_item_pairs w item t t' : train_item (w, item) t = Ok t' ->
  tr_pairs t' = match item with Some b => (add_blocks (Z.of_nat w) b (tr_pairs t)).2 | None => end_worker (Z.of_nat w) (tr_pairs t) end /\
  tr_completed t' = (tr_completed t + match item with Some _ => 0 | None => 1 end)%nat.
Proof.
  unfold PretrainTrain.train_item. destruct item as [b|]; [|intros [= <-]; simpl; split; [done|lia]].
  destruct (add_blocks _ _ _) as [l p]. simpl.
  destruct (w <? n_train)%nat; intros (r & _ & Hr)%rbind_Ok; destruct r as [x [y z]]; injection Hr as <-; simpl; split; done || lia.
Qed.

(** Completions in a stream. *)
Definition completions (stream : list (nat * option Batch)) : nat := length (filter (fun it => it.2 = None) stream).

Lemma observed_cons w item stream p : observed_pairs ((w, item) :: stream) p =
  let '(P1, Q1) := observed_pairs [(w, item)] p in
  let '(P2, Q2) := observed_pairs stream (match item with Some b => (add_blocks (Z.of_nat w) b p).2 | None => end_worker (Z.of_nat w) p end) in
  (P1 ++ P2, Q1 ++ Q2).
Proof.
  cbn [observed_pairs]. destruct item as [b|]; [|by destruct (observed_pairs stream _)].
  destruct (add_blocks _ b p) as [l p']. simpl. destruct (observed_pairs stream p') as [P2 Q2].
  destruct (w <? n_train)%nat; by rewrite ?app_nil_r.
Qed.

Lemma train_loop_ok fit0 held0 stream : fit_losses fit0 = [] -> forall t P Q, train_ok fit0 held0 P Q t ->
  let '(P1, Q1) := observed_pairs stream (tr_pairs t) in
  match train_loop stream t with
  | Raise e => fails fit0 (P ++ P1) e
  | Ok t' => train_ok fit0 held0 (P ++ P1) (Q ++ Q1) t' /\ tr_completed t' = (tr_completed t + completions stream)%nat
  end.
Proof.
  intros H0. induction stream as [|[w item] stream IH]; intros t P Q Hok.
  - simpl. rewrite !app_nil_r. split; [done|]. unfold completions. simpl. lia.
  - rewrite observed_cons. unfold PretrainTrain.train_loop. cbn [rfold]. pose proof (train_item_ok fit0 held0 P Q w item t H0 Hok) as Hi.
    destruct (observed_pairs [(w, item)] (tr_pairs t)) as [P1 Q1].
    destruct (train_item (w, item) t) as [t1|e] eqn:Ht; cbn [rbind].
    + apply train_item_pairs in Ht as [Hp Hc]. rewrite <- Hp. specialize (IH t1 _ _ Hi).
      destruct (observed_pairs stream (tr_pairs t1)) as [P2 Q2]. rewrite !app_assoc.
      unfold PretrainTrain.train_loop in IH. destruct (rfold _ t1 stream) as [t2|e]; [|done]. destruct IH as [IH1 IH2].
      split; [done|]. rewrite IH2, Hc. unfold completions. rewrite filter_cons. destruct item; case_decide; simpl in *; lia || done.
    + destruct (observed_pairs stream _) as [P2 Q2]. rewrite app_assoc. by apply fails_mono.
Qed.

(** The final partial minibatches. *)
Lemma update_rest fit0 P (t : Training (G := G)) cs held : fit_losses fit0 = [] -> (pb_used (tr_training t) < pb_size (tr_training t))%nat ->
  pb_size (tr_training t) = size -> length held = pb_used (tr_training t) ->
  Forall (fun c => length c = size) cs -> learn_all cs fit0 = Ok (tr_fit t) -> (length cs <= budget)%nat ->
  ((length cs < budget)%nat -> concat cs ++ held = P) -> concat cs `prefix_of` P ->
  update max_updates held (tr_fit t) = learn_all (take budget (minibatches size P)) fit0.
Proof.
  intros H0 Hu Hsz Hheld Hcs Hfit Hlen Hall Hpre. destruct (learn_all_counts _ _ _ Hfit) as [Hl _]. rewrite H0 in Hl. simpl in Hl.
  destruct (decide (length cs < budget)%nat) as [Hlt|Hge].
  - rewrite <- (Hall Hlt), minibatches_full by (done || lia). rewrite take_ge.
    2:{ rewrite length_app. destruct held; simpl; lia. }
    rewrite learn_all_app, Hfit. simpl. unfold PretrainTrain.update. destruct held as [|x held]; [done|].
    rewrite (proj2 (Z.leb_gt _ _)) by (unfold budget in *; lia). simpl. unfold learn_all. cbn [rfold rbind].
    by destruct (learn _ _).
  - destruct (minibatches_prefix size cs P Hsize Hcs Hpre) as [k ->]. rewrite take_app_length' by lia. rewrite Hfit.
    unfold PretrainTrain.update. rewrite (proj2 (Z.leb_le _ _)) by (unfold budget in *; lia). by rewrite orb_true_r.
Qed.

Lemma train_finish_ok fit0 held0 P Q t : fit_losses fit0 = [] -> train_ok fit0 held0 P Q t ->
  match learn_all (take budget (minibatches size P)) fit0 with
  | Raise e => train_finish cross_entropy all_finite optimizer_step max_updates t = Raise e
  | Ok fit => exists t', train_finish cross_entropy all_finite optimizer_step max_updates t = Ok t' /\
      tr_fit t' = fit /\ tr_observed_train t' = length P /\ tr_observed_test t' = length Q /\
      tr_completed t' = tr_completed t /\
      same_held (tr_heap t') (tr_held t') (hold_all (sized (minibatches size Q)) held0)
  end.
Proof.
  intros H0 [(cs & held & T1 & T2 & T3 & T4 & T5 & T6 & T7) (qs & heldq & Q1 & Q2 & Q3 & Q4 & Q5) _ [O1 O2]].
  destruct T1 as (Hu & buf & Hb & Hbl & Hheld). destruct Q1 as (Huq & bufq & Hbq & Hblq & Hheldq).
  assert (Hlheld : length held = pb_used (tr_training t)) by (rewrite <- Hheld, length_take; lia).
  assert (Hlheldq : length heldq = pb_used (tr_testing t)) by (rewrite <- Hheldq, length_take; lia).
  unfold train_finish, pair_batches_finish. rewrite Hb. cbn [from_option id]. rewrite Hheld.
  set (h1 := tr_heap t ++ [held]).
  assert (Hpart : tensor_at h1 (length (tr_heap t)) = held) by (unfold tensor_at, h1; by rewrite list_lookup_middle).
  rewrite Hpart, (update_rest fit0 P t cs held) by done.
  destruct (learn_all (take budget (minibatches size P)) fit0) as [fit|e]; [|done]. cbn [rbind].
  assert (Hbq1 : h1 !! pb_data (tr_testing t) = Some bufq) by (by apply lookup_app_l_Some). rewrite Hbq1. cbn [from_option id].
  rewrite Hheldq. set (h2 := h1 ++ [heldq]).
  assert (Hpart2 : h2 !! length h1 = Some heldq) by (unfold h2; by rewrite list_lookup_middle).
  eexists. split; [done|]. simpl. split_and!; try done. unfold tensor_at. rewrite Hpart2. simpl.
  rewrite <- Q4, minibatches_full by (done || lia). unfold sized, hold_all in *. rewrite fmap_app, fold_left_app.
  assert (Hs : same_held h2 (tr_held t) (fold_left (fun t p => hold_out p.1 p.2 t) ((fun c => (length c, c)) <$> qs) held0)).
  { destruct Q5 as (S1 & S2 & S3 & S4). split_and!; try done. eapply Forall2_impl; [exact S4|].
    intros loc c Hl. unfold h2, h1. rewrite <- app_assoc. by apply lookup_app_l_Some. }
  destruct heldq as [|x heldq]; [exact Hs|]. exact (hold_out_same _ _ _ _ _ Hs Hpart2).
Qed.
End refinement.

Lemma concat_take_cut {A} size : (0 < size)%nat -> forall n fuel (l : list A), (length l <= fuel)%nat ->
  concat (take n (cut_list fuel size l)) = take (n * size) l.
Proof.
  intros Hs n. induction n as [|n IH]; intros fuel l Hf; [done|].
  destruct l as [|a l]; [by rewrite take_nil; destruct fuel|]. destruct fuel as [|fuel]; [simpl in Hf; lia|].
  cbn [cut_list]. rewrite firstn_cons. cbn [concat]. rewrite IH by (rewrite length_drop; simpl in *; lia).
  rewrite <- (take_drop size (a :: l)) at 3. destruct (decide (size <= length (a :: l))%nat) as [Hle|Hgt].
  - rewrite take_app_ge by (rewrite length_take; lia). f_equal. f_equal. rewrite length_take. lia.
  - rewrite (drop_ge (a :: l)), (take_ge (a :: l)) by lia. rewrite take_nil, !app_nil_r. rewrite take_ge; [done|nia].
Qed.
Lemma concat_minibatches {A} size n (l : list A) : (0 < size)%nat ->
  concat (take n (minibatches size l)) = take (n * size) l.
Proof. intros Hs. by apply concat_take_cut. Qed.

(** The state training starts in. *)
Lemma start_training_ok {M F G : Type} `{RandintOps G} junk cross_entropy all_finite optimizer_step (make_model : M)
  train_endpoints test_endpoints selected vocabulary batch_size max_updates test_batches seed (t0 : Training (F := F)) :
  start_training junk make_model train_endpoints test_endpoints selected vocabulary batch_size max_updates test_batches seed = Ok t0 ->
  0 < max_updates /\ (0 < Z.to_nat batch_size)%nat /\ tr_completed t0 = 0%nat /\ exists held0,
    new_held_out test_batches (seed + 1) = Ok held0 /\
    train_ok cross_entropy all_finite optimizer_step max_updates (Z.to_nat batch_size) (MkFit make_model [] 0) held0 [] [] t0.
Proof.
  unfold start_training. destruct (_ || _); [done|]. destruct (max_updates <? 1) eqn:Hm; [done|]. bool_prop.
  destruct selected as [[]|]; [|done]. cbn [rbind]. destruct (new_block_pairs vocabulary) as [p|]; [|done]. cbn [rbind].
  unfold new_pair_batches. destruct (batch_size <? 1) eqn:Hb; [done|]. bool_prop. cbn [rbind torch_empty].
  unfold new_held_out. destruct (test_batches <? 1); [done|]. intros [= <-].
  split_and!; [lia|lia|done|]. eexists. split; [done|]. split; simpl.
  - exists [], []. split_and!; try done; [split; [simpl; lia|]|simpl; lia].
    eexists. split; [done|]. by rewrite length_fmap, length_seq.
  - exists [], []. split_and!; try done; [split; [simpl; lia|]|by split_and!; try constructor].
    eexists. split; [done|]. by rewrite length_fmap, length_seq.
  - split_and!; [done|apply not_elem_of_nil|apply not_elem_of_nil].
  - done.
Qed.

(** C8: training is a function of two lists of pairs. For every stream of batches and completions: with
    [P] and [Q] the pairs of the training and of the test workers in the order of the stream,
    the loop and its two final partial minibatches leave the model, the losses and the
    counter that one gradient step for each of the first [max_updates] minibatches of [P]
    leaves - together exactly the first [max_updates * batch_size] pairs - or raise what
    the first failing step raises; the held-out tensors, read at the end, are the reservoir
    over all minibatches of [Q]; no test pair reaches the model and no training pair
    the reservoir; and the counters count [P], [Q] and the completions. *)
Theorem train_refines {M F G : Type} `{RandintOps G} (junk : nat -> nat -> Z * Z) (cross_entropy : pairs -> M -> F)
  (all_finite : pairs -> M -> bool) (optimizer_step : pairs -> M -> M) (make_model : M)
  (train_endpoints test_endpoints : list string) (selected : result unit)
  (vocabulary batch_size max_updates test_batches seed : Z) (t0 : Training) (stream : list (nat * option Batch))
  (Hstart : start_training junk make_model train_endpoints test_endpoints selected vocabulary batch_size max_updates test_batches seed = Ok t0) :
  let '(P, Q) := observed_pairs (length train_endpoints) stream (tr_pairs t0) in
  let size := Z.to_nat batch_size in
  let used := take (Z.to_nat max_updates) (minibatches size P) in
  let run := let! t := train_loop junk cross_entropy all_finite optimizer_step max_updates (length train_endpoints) stream t0 in
             train_finish cross_entropy all_finite optimizer_step max_updates t in
  concat used = take (Z.to_nat max_updates * size) P /\
  match learn_all cross_entropy all_finite optimizer_step used (MkFit make_model [] 0) with
  | Raise e => run = Raise e
  | Ok fit => exists t held, run = Ok t /\ tr_fit t = fit /\ length (fit_losses fit) = length used /\
      fit_trained fit = length (concat used) /\ tr_observed_train t = length P /\ tr_observed_test t = length Q /\
      tr_completed t = completions stream /\ new_held_out test_batches (seed + 1) = Ok held /\
      same_held (tr_heap t) (tr_held t) (hold_all (sized (minibatches size Q)) held)
  end.
Proof.
  destruct (start_training_ok junk cross_entropy all_finite optimizer_step _ _ _ _ _ _ _ _ _ _ Hstart)
    as (Hmax & Hsize & Hc0 & held0 & Hheld & Hok).
  pose proof (train_loop_ok junk cross_entropy all_finite optimizer_step max_updates (length train_endpoints) (Z.to_nat batch_size)
    Hmax Hsize (MkFit make_model [] 0) held0 stream eq_refl t0 [] [] Hok) as Hloop.
  destruct (observed_pairs _ stream (tr_pairs t0)) as [P Q]. cbv zeta. split; [by apply concat_minibatches|]. cbn [app] in Hloop.
  destruct (train_loop _ _ _ _ _ _ _ _) as [t|e]; cbn [rbind].
  - destruct Hloop as [Hok' Hc].
    pose proof (train_finish_ok _ _ _ _ _ Hmax Hsize (MkFit make_model [] 0) held0 P Q t eq_refl Hok') as Hfin. unfold budget in Hfin.
    destruct (learn_all _ _ _ _ _) as [fit|e] eqn:Hl; [|done].
    destruct Hfin as (t' & Ht' & Hfit & H1 & H2 & H3 & H4). apply learn_all_counts in Hl as [C1 C2].
    exists t', held0. simpl in *. split_and!; try done. lia.
  - apply fails_all in Hloop; [|done..]. unfold budget in Hloop. by rewrite Hloop.
Qed.

(** ** From the queue to the pairs *)

(** What a stream does to [BlockPairs]. *)
Definition events (stream : list (nat * option Batch)) : list block_event :=
  (fun it => match it.2 with Some b => BlocksOf (Z.of_nat it.1) b | None => EndOf (Z.of_nat it.1) end) <$> stream.

(** The tokens of one vCPU in a list of batches. *)
Definition stream_tokens (vocabulary : Z) (k : option Z) (bs : list Batch) : list Z :=
  concat ((fun b => block_token vocabulary <$> t_data (addresses b)) <$> filter (fun b => source b = k) bs).

(** The runs of a stream of one worker, from what is delivered of that worker. *)
Fixpoint worker_runs (vocabulary : Z) (k : option Z) (current : list Z) (l : list (option Batch)) : list (list Z) :=
  match l with
  | [] => [current]
  | Some b :: l =>
      worker_runs vocabulary k (if decide (source b = k) then current ++ (block_token vocabulary <$> t_data (addresses b)) else current) l
  | None :: l => current :: worker_runs vocabulary k [] l
  end.

Lemma runs_of_worker vocabulary w k stream : forall current,
  token_runs vocabulary (Z.of_nat w, k) current (events stream) = worker_runs vocabulary k current (delivered w stream).
Proof.
  unfold delivered. induction stream as [|[v [b|]] stream IH]; intros current; [done| |].
  - cbn [events fmap list_fmap fst snd token_runs]. rewrite filter_cons. cbn [fst]. case_decide as Hv.
    + injection Hv as Hv Hk. apply Nat2Z.inj in Hv. subst v. rewrite decide_True by done. cbn [fmap list_fmap snd worker_runs].
      rewrite decide_True by done. apply IH.
    + case_decide as Hw; [subst v; cbn [fmap list_fmap snd worker_runs]; rewrite decide_False by congruence|]; apply IH.
  - cbn [events fmap list_fmap fst snd token_runs]. rewrite filter_cons. cbn [fst]. case_decide as Hv.
    + apply Nat2Z.inj in Hv. subst v. rewrite decide_True by done. cbn [fmap list_fmap snd worker_runs]. f_equal. apply IH.
    + rewrite decide_False by congruence. apply IH.
Qed.
Lemma worker_runs_whole vocabulary k bs : forall current,
  worker_runs vocabulary k current ((Some <$> bs) ++ [None]) = [current ++ stream_tokens vocabulary k bs; []].
Proof.
  unfold stream_tokens. induction bs as [|b bs IH]; intros current; [simpl; by rewrite app_nil_r|].
  cbn [fmap list_fmap app worker_runs]. rewrite IH, filter_cons. case_decide; [|done].
  cbn [fmap list_fmap concat]. by rewrite <- app_assoc.
Qed.

(** The two lists of pairs are those of [BlockPairs], split by worker. *)
Definition of_workers (keep : Z -> bool) (l : list (PretrainData.stream * list (Z * Z))) : pairs :=
  concat (snd <$> filter (fun kl => keep kl.1.1 = true) l).
Lemma observed_events n stream : forall p,
  observed_pairs n stream p =
  (of_workers (fun w => w <? Z.of_nat n) (block_run (events stream) p).1,
   of_workers (fun w => negb (w <? Z.of_nat n)) (block_run (events stream) p).1).
Proof.
  induction stream as [|[w [b|]] stream IH]; intros p; [done| |].
  - cbn [observed_pairs events fmap list_fmap fst snd block_run block_step]. destruct (add_blocks (Z.of_nat w) b p) as [l p'].
    specialize (IH p'). unfold events in IH. rewrite IH. destruct (block_run _ p') as [l' p'']. unfold of_workers. cbn [fst app].
    rewrite !filter_cons. cbn [fst]. destruct (w <? n)%nat eqn:Hw; bool_prop.
    + rewrite (proj2 (Z.ltb_lt _ _)) by lia. by rewrite decide_True, decide_False.
    + rewrite (proj2 (Z.ltb_ge _ _)) by lia. by rewrite decide_False, decide_True.
  - cbn [observed_pairs events fmap list_fmap fst snd block_run block_step]. specialize (IH (end_worker (Z.of_nat w) p)).
    unfold events in IH. rewrite IH. by destruct (block_run _ (end_worker (Z.of_nat w) p)).
Qed.

Lemma sum_list_app l1 l2 : sum_list (l1 ++ l2) = (sum_list l1 + sum_list l2)%nat.
Proof. apply sum_list_with_app. Qed.
Lemma count_by_worker {A} n (l : list (nat * A)) : Forall (fun p => (p.1 < n)%nat) l ->
  sum_list ((fun w => length (filter (fun p => p.1 = w) l)) <$> seq 0 n) = length l.
Proof.
  induction 1 as [|[v a] l Hv _ IH]; [by rewrite (sum_const _ 0)|]. simpl in Hv. cbn [length]. rewrite <- IH.
  assert (Hsum : forall m, sum_list ((fun w => length (filter (fun p => p.1 = w) ((v, a) :: l))) <$> seq 0 m) =
    ((if decide (v < m)%nat then 1 else 0) + sum_list ((fun w => length (filter (fun p => p.1 = w) l)) <$> seq 0 m))%nat).
  { induction m as [|m IHm]; [done|]. rewrite !seq_S, !fmap_app, !sum_list_app, IHm. cbn [fmap list_fmap plus].
    rewrite filter_cons. cbn [fst]. rewrite !sum_list_cons. repeat case_decide; simpl; lia. }
  rewrite Hsum. by rewrite decide_True.
Qed.

Lemma filter_nothing {A} (Q : A -> Prop) `{forall a, Decision (Q a)} (l : list A) : (forall a, ~ Q a) -> filter Q l = [].
Proof. intros Hn. induction l as [|a l IH]; [done|]. rewrite filter_cons_False; [done|apply Hn]. Qed.

(** Only workers deliver. *)
Lemma out_members capacity scripts s : queue_ok capacity scripts s -> receiver_ok scripts s ->
  Forall (fun p => (p.1 < length scripts)%nat) (q_out s).
Proof.
  intros Hok [Hout _]. rewrite Hout. clear Hout. pose proof (qk_members _ _ _ Hok) as Hm. apply Forall_app in Hm as [Hm _].
  induction Hm as [|[w i] l Hw _ IH]; [constructor|]. destruct i; cbn; [by constructor..|done].
Qed.

(** C9: what is learned from does not depend on the schedule. Whenever the iterator of
    [worker_batches] ends normally, under any interleaving of the threads: every worker
    has completed exactly once, so that the report says so; and the pairs [train] observes are,
    for each worker and vCPU, exactly the consecutive tokens of all blocks of that vCPU in the
    worker's run, the pairs of the training workers on one side and those of the test
    workers on the other. *)
Theorem training_schedule_free (capacity n_train : nat) (scripts : list script) (s : qstate) (vocabulary : Z) (p : BlockPairs)
  (Hr : qreachable capacity scripts s) (Hend : q_receiver s = Received) (Hnew : new_block_pairs vocabulary = Ok p) :
  let observed := (block_run (events (q_out s)) p).1 in
  completions (q_out s) = length scripts /\
  observed_pairs n_train (q_out s) p =
    (of_workers (fun w => w <? Z.of_nat n_train) observed, of_workers (fun w => negb (w <? Z.of_nat n_train)) observed) /\
  forall w sc k, scripts !! w = Some sc ->
    pairs_of (Z.of_nat w, k) observed = adjacent (stream_tokens vocabulary k (rows_of sc)).
Proof.
  cbv zeta. destruct (qreachable_ok _ _ _ Hr) as [Hok Hrec].
  assert (Hall : forall w sc, scripts !! w = Some sc -> delivered w (q_out s) = (Some <$> rows_of sc) ++ [None]).
  { intros w sc Hsc. by apply (received_all capacity scripts s). }
  split_and!.
  - unfold completions. rewrite <- (count_by_worker (length scripts)).
    2:{ apply Forall_forall. intros x [_ Hx]%list_elem_of_filter. pose proof (out_members _ _ _ Hok Hrec) as Hm.
        rewrite Forall_forall in Hm. by apply Hm. }
    rewrite (sum_const _ 1); [rewrite length_seq; lia|]. intros w [_ Hw]%elem_of_seq.
    destruct (lookup_lt_is_Some_2 scripts w) as [sc Hsc]; [lia|]. specialize (Hall w sc Hsc).
    rewrite list_filter_filter. transitivity (length (filter (fun o => o = None) (delivered w (q_out s)))).
    + unfold delivered. rewrite length_filter_fmap, list_filter_filter. apply length_filter_iff. intros a _. tauto.
    + rewrite Hall, filter_app, length_app, length_filter_fmap.
      by rewrite filter_nothing.
  - apply observed_events.
  - intros w sc k Hsc. unfold new_block_pairs in Hnew. destruct (_ || _); [done|]. injection Hnew as <-.
    pose proof (block_run_runs (Z.of_nat w, k) (events (q_out s)) (MkBlockPairs vocabulary ∅) [] (lookup_empty _)) as Hruns.
    simpl in Hruns. rewrite Hruns, runs_of_worker, (Hall w sc Hsc), worker_runs_whole. simpl. by rewrite app_nil_r.
Qed.

(** ** Witnesses *)

(** A model that remembers its minibatches, one training and one test worker, minibatches of two pairs. *)
Definition remember (c : pairs) (m : list pairs) : list pairs := m ++ [c].
Definition example_training : Training (M := list pairs) (F := nat) (G := unit) :=
  MkTraining (MkBlockPairs 16 ∅) (MkPairBatches 2 0 0) (MkPairBatches 2 1 0) [[(0, 0); (0, 0)]; [(0, 0); (0, 0)]]
    (MkHeldOut 1 tt 0 []) (MkFit [] [] 0) 0 0 0.
Definition example_stream : list (nat * option Batch) :=
  [(0%nat, Some (block_batch 0 [4; 8; 12])); (1%nat, Some (block_batch 0 [16; 20])); (0%nat, Some (block_batch 0 [24]));
   (0%nat, None); (1%nat, None)].

Lemma train_refines_witness :
  exists t, (let! t := train_loop (fun _ _ => (0, 0)) (fun c _ => length c) (fun _ _ => true) remember 5 1 example_stream example_training in
             train_finish (fun c _ => length c) (fun _ _ => true) remember 5 t) = Ok t /\
    fit_model (tr_fit t) = [[(1, 2); (2, 3)]; [(3, 6)]] /\ tr_completed t = 2%nat.
Proof.
  pose proof (train_refines (fun _ _ => (0, 0)) (fun c _ => length c) (fun _ _ => true) remember [] ["a"] ["b"] (Ok tt)
    16 2 5 1 0 example_training example_stream eq_refl) as Href.
  assert (Hobs : observed_pairs (length ["a"]) example_stream (tr_pairs example_training) = ([(1, 2); (2, 3); (3, 6)], [(4, 5)]))
    by (vm_compute; reflexivity).
  rewrite Hobs in Href. cbv zeta in Href. destruct Href as [_ Href].
  set (fit := learn_all _ _ _ _ _) in Href. vm_compute in fit. subst fit. cbv match in Href.
  destruct Href as (t & held & H1 & H2 & _ & _ & _ & _ & H3 & _). exists t. split; [exact H1|]. rewrite H2, H3.
  split; vm_compute; reflexivity.
Defined.

(** One training worker that yields two batches of one vCPU, to the end of the iterator. *)
Definition whole_schedule : list qlabel :=
  [Call; Call; Pull 0; Pull 0; Pull 0; Pull 0; Receive; Pull 0; Pull 0; Pull 0; Pull 0; Receive; Pull 0; Pull 0; Pull 0; Receive; Receive].
Definition whole_scripts : list script := [MkScript [block_batch 0 [4; 8]; block_batch 0 [12]] (Ok tt)].

Lemma training_schedule_free_witness :
  q_receiver (qreached whole_schedule whole_scripts) = Received /\
  pairs_of (0, Some 0) (block_run (events (q_out (qreached whole_schedule whole_scripts))) (MkBlockPairs 16 ∅)).1 = [(1, 2); (2, 3)].
Proof.
  assert (Hend : q_receiver (qreached whole_schedule whole_scripts) = Received) by (vm_compute; reflexivity).
  split; [exact Hend|].
  destruct (training_schedule_free 1 1 whole_scripts (qreached whole_schedule whole_scripts) 16 (MkBlockPairs 16 ∅)) as (_ & _ & H).
  - apply qreached_reachable. vm_compute. reflexivity.
  - exact Hend.
  - reflexivity.
  - etrans; [exact (H 0%nat _ (Some 0) eq_refl)|]. vm_compute. reflexivity.
Defined.
