(* ===== verification/ContextBlocks.v ===== *)
(** * The CR3 of every block ([examples/observe_context.py])

    [cr3_for_blocks] gives each block of a batch the CR3 of the context event before
    it, keeping of earlier batches only the last context; [main] keeps one such state
    for each worker and vCPU. [torch.searchsorted] is an argument, with what its
    documentation promises of a sorted sequence. *)

From Stdlib Require Import Sorted.
From S2P Require Import Prelude Batch Device Batching.

(** The values of [_positions]. *)
Definition _positions (b : Batch) (positions : option tensor) (count : nat) : result (list Z) :=
  match positions with
  | Some t => Ok (t_data t)
  | None =>
      match first_sequence b with
      | None => throw ValueError "CPU observations need event sequences"
      | Some first => let! t := arange first count in Ok (t_data t)
      end
  end.

Class SearchOps := { searchsorted : list Z -> Z -> Z }.
(** The insertion point that keeps a sorted sequence sorted, before equal elements. *)
Class SearchLaws `{SearchOps} := {
  searchsorted_left l v : StronglySorted Z.le l -> searchsorted l v = Z.of_nat (length (filter (fun x => x < v) l))
}.

(** A worker and a vCPU. *)
Notation cpu_key := (Z * Z)%type.

Section cr3.
Context `{SearchOps}.

(** [values[index]] for one index that is not negative. *)
Definition index_value (values : list Z) (index : Z) : result Z :=
  match values !! Z.to_nat index with Some v => Ok v | None => throw IndexError "index is out of bounds" end.

Definition check_previous (b : Batch) (previous : option tensor) : result unit :=
  raise! ValueError "Previous context must be two int64 values on the batch device"
    when match previous with
         | Some p => negb (bool_decide (t_shape p = [2%nat])) || negb (bool_decide (t_dtype p = int64)) ||
                     negb (bool_decide (t_device p = t_device (addresses b)))
         | None => false
         end in
  Ok tt.

(** The context rows of the batch: their positions, their CR3 values and the new state. *)
Definition context_rows (b : Batch) (previous : option tensor) : result (list Z * list Z * option tensor) :=
  match context b with
  | Some c =>
      if (numel (ac_pc c) =? 0)%nat then Ok ([], [], previous)
      else
        raise! ValueError "Address context does not provide a known CR3 value"
          when negb (forallb (fun k => negb (Z.land k 2 =? 0)) (t_data (ac_known c))) in
        let! sequences := _positions b (ac_sequences c) (numel (ac_pc c)) in
        let values := t_data (ac_cr3 c) in
        match last sequences, last values with
        | Some s, Some v => Ok (sequences, values, Some (Tensor int64 (t_device (ac_cr3 c)) [2%nat] [s; v]))
        | _, _ => throw IndexError "index -1 is out of bounds for dimension 0 with size 0"
        end
  | None => Ok ([], [], previous)
  end.

Definition cr3_for_blocks (b : Batch) (previous : option tensor) : result (list Z * option tensor) :=
  let! _ := check_previous b previous in
  let! rows := context_rows b previous in
  let '(sequences, values, latest) := rows in
  if (numel (addresses b) =? 0)%nat then Ok ([], latest)
  else
    let sequences := match previous with Some p => take 1 (t_data p) ++ sequences | None => sequences end in
    let values := match previous with Some p => drop 1 (t_data p) ++ values | None => values end in
    raise! ValueError "Blocks need a preceding CR3 context" when (length sequences =? 0)%nat in
    let! blocks := _positions b (block_sequences b) (numel (addresses b)) in
    let indices := (fun q => searchsorted sequences q - 1) <$> blocks in
    raise! ValueError "Blocks need a preceding CR3 context" when existsb (fun i => i <? 0) indices in
    let! cr3 := rmap (index_value values) indices in
    Ok (cr3, latest).

(** ** [main] *)

Record Observed := MkObserved { oo_states : gmap cpu_key tensor; oo_blocks : Z; oo_contexts : Z }.

(** The body of the loop over the pool; also the values it drops. *)
Definition observe_step (b : Batch) (o : Observed) : result (list (cpu_key * list Z) * Observed) :=
  match source b with
  | None => Ok ([], o)
  | Some s =>
      let key := (worker b, s) in
      let! r := cr3_for_blocks b (oo_states o !! key) in
      let '(cr3, state) := r in
      Ok ([(key, cr3)],
        MkObserved (match state with Some t => <[key := t]> (oo_states o) | None => oo_states o end)
          (oo_blocks o + Z.of_nat (length cr3))
          (oo_contexts o + match context b with None => 0 | Some c => Z.of_nat (numel (ac_pc c)) end))
  end.
Fixpoint observe (bs : list Batch) (o : Observed) : result (list (cpu_key * list Z) * Observed) :=
  match bs with
  | [] => Ok ([], o)
  | b :: bs =>
      let! r := observe_step b o in
      let '(out, o) := r in
      let! r := observe bs o in
      let '(out', o) := r in
      Ok (out ++ out', o)
  end.
End cr3.

(** ** The reference: the last context before a block *)

(** [contexts]: the position and the CR3 of every context event of one vCPU. *)
Definition preceding (contexts : list (Z * Z)) (q : Z) : result Z :=
  match last (filter (fun c => c.1 < q) contexts) with
  | Some c => Ok c.2
  | None => throw ValueError "Blocks need a preceding CR3 context"
  end.

(** The batch [b] holds the contexts [cs] and the blocks at [qs], on device [d]. *)
Record holds (d : device) (b : Batch) (cs : list (Z * Z)) (qs : list Z) : Prop := {
  hd_device : t_device (addresses b) = d;
  hd_context : match context b with
               | None => cs = []
               | Some c => numel (ac_pc c) = length cs /\ _positions b (ac_sequences c) (length cs) = Ok cs.*1 /\
                   t_data (ac_cr3 c) = cs.*2 /\ t_device (ac_cr3 c) = d /\ Forall (fun k => Z.land k 2 <> 0) (t_data (ac_known c))
               end;
  hd_blocks : numel (addresses b) = length qs /\
    (qs <> [] -> _positions b (block_sequences b) (length qs) = Ok qs);
}.

(** The state after the contexts [cs]. *)
Definition state_of (d : device) (cs : list (Z * Z)) : option tensor :=
  (fun c => Tensor int64 d [2%nat] [c.1; c.2]) <$> last cs.

Section step.
Context `{SearchLaws}.

Lemma sorted_count (l : list Z) q : StronglySorted Z.le l ->
  filter (fun x => x < q) l = take (length (filter (fun x => x < q) l)) l.
Proof.
  induction 1 as [|x l Hs IH Hx]; [done|]. rewrite filter_cons. case_decide; [cbn; by f_equal|].
  assert (Hnil : filter (fun y => y < q) l = []); [|by rewrite Hnil].
  clear IH Hs. induction Hx as [|y l Hy _ IH]; [done|]. rewrite filter_cons_False by lia. done.
Qed.
Lemma filter_keys (l : list (Z * Z)) q : filter (fun x => x < q) l.*1 = (filter (fun c => c.1 < q) l).*1.
Proof. induction l as [|c l IH]; [done|]. rewrite fmap_cons, !filter_cons. case_decide; [rewrite fmap_cons; by f_equal|done]. Qed.

Lemma filter_pairs_take (l : list (Z * Z)) q : StronglySorted Z.le l.*1 ->
  filter (fun c => c.1 < q) l = take (length (filter (fun c => c.1 < q) l)) l.
Proof.
  induction l as [|c l IH]; [done|]. rewrite fmap_cons. intros Hs. inversion Hs as [|x y Hl Hx]; subst.
  rewrite filter_cons. case_decide; [cbn; f_equal; by apply IH|].
  assert (Hnil : filter (fun y => y.1 < q) l = []); [|by rewrite Hnil].
  clear IH Hs Hl. induction l as [|y l IH]; [done|]. apply Forall_cons in Hx as [Hy Hx].
  rewrite filter_cons_False by lia. by apply IH.
Qed.

(** What the search finds is the last context before the block. *)
Lemma search_preceding (l : list (Z * Z)) q : StronglySorted Z.le l.*1 ->
  let i := searchsorted l.*1 q - 1 in
  preceding l q = if i <? 0 then throw ValueError "Blocks need a preceding CR3 context" else index_value l.*2 i.
Proof.
  intros Hs. cbv zeta. rewrite searchsorted_left by done. rewrite filter_keys, length_fmap. unfold preceding.
  rewrite (filter_pairs_take l q Hs) at 1. set (n := length (filter _ l)).
  assert (Hn : (n <= length l)%nat) by apply length_filter. destruct n as [|n]; [done|].
  rewrite (proj2 (Z.ltb_ge _ _)) by lia. unfold index_value. replace (Z.to_nat (Z.of_nat (S n) - 1)) with n by lia.
  rewrite list_lookup_fmap. destruct (lookup_lt_is_Some_2 l n) as [c Hc]; [lia|]. rewrite Hc.
  by rewrite (take_S_r _ _ c Hc), last_snoc.
Qed.

(** All of them at once: the two tests of the code raise what the first failing block would. *)
Lemma search_all (l : list (Z * Z)) qs : StronglySorted Z.le l.*1 ->
  rmap (preceding l) qs =
  let indices := (fun q => searchsorted l.*1 q - 1) <$> qs in
  raise! ValueError "Blocks need a preceding CR3 context" when existsb (fun i => i <? 0) indices in
  rmap (index_value l.*2) indices.
Proof.
  intros Hs. cbv zeta. induction qs as [|q qs IH]; [done|]. cbn [rmap fmap list_fmap existsb]. rewrite IH, search_preceding by done.
  cbv zeta. destruct (searchsorted l.*1 q - 1 <? 0) eqn:Hq; [done|]. cbn [orb].
  unfold index_value at 1. bool_prop.
  assert (Hin : is_Some (l.*2 !! Z.to_nat (searchsorted l.*1 q - 1))).
  { apply lookup_lt_is_Some. rewrite searchsorted_left in * by done. rewrite length_fmap.
    pose proof (length_filter (fun x => x < q) l.*1). rewrite length_fmap in *. lia. }
  destruct Hin as [v Hv]. destruct (existsb _ _); simpl; unfold index_value; rewrite Hv; done.
Qed.

(** Only the last earlier context matters, and no later one. *)
Lemma preceding_window C cs D q : (forall c, c ∈ C -> c.1 < q) -> (forall c, c ∈ D -> q <= c.1) ->
  preceding (C ++ cs ++ D) q = preceding (option_list (last C) ++ cs) q.
Proof.
  intros HC HD. unfold preceding. rewrite !filter_app.
  assert (HDn : filter (fun c => c.1 < q) D = []).
  { induction D as [|c D IH]; [done|]. rewrite filter_cons_False.
    - apply IH. intros c' Hc'. apply HD. by right.
    - specialize (HD c ltac:(left)). lia. }
  assert (HCn : filter (fun c => c.1 < q) C = C).
  { induction C as [|c C IH]; [done|]. rewrite filter_cons_True by (apply HC; left). f_equal. apply IH. intros c' Hc'. apply HC. by right. }
  rewrite HDn, HCn, app_nil_r. destruct (filter _ cs) as [|c l] eqn:Hl.
  - rewrite !app_nil_r. destruct C as [|c C] using rev_ind; [done|]. rewrite !last_snoc. simpl.
    rewrite filter_cons_True; [done|]. apply HC. apply elem_of_app. right. left.
  - by rewrite !last_app_cons.
Qed.

Lemma context_rows_ok d b cs qs C : holds d b cs qs ->
  context_rows b (state_of d C) = Ok (cs.*1, cs.*2, state_of d (C ++ cs)).
Proof.
  intros [_ Hc _]. unfold context_rows. destruct (context b) as [c|]; [|rewrite Hc, app_nil_r; done].
  destruct Hc as (Hn & Hp & Hv & Hd & Hk). rewrite Hn. destruct cs as [|x cs] using rev_ind; [by rewrite app_nil_r|]. clear IHcs.
  rewrite length_app, Nat.add_comm. cbn [length plus Nat.eqb].
  assert (Hknown : forallb (fun k => negb (Z.land k 2 =? 0)) (t_data (ac_known c)) = true).
  { apply forallb_forall. intros k Hin%list_elem_of_In. rewrite Forall_forall in Hk. specialize (Hk k Hin).
    apply negb_true_iff. by apply Z.eqb_neq. }
  rewrite Hknown. cbn [negb]. rewrite length_app, Nat.add_comm in Hp. cbn [length plus] in Hp. rewrite Hp, Hv. cbn [rbind].
  rewrite !fmap_app. cbn [fmap list_fmap]. rewrite !last_snoc. unfold state_of. rewrite app_assoc, last_snoc, Hd. done.
Qed.

Lemma sorted_app_inv (l1 l2 : list Z) : StronglySorted Z.le (l1 ++ l2) -> StronglySorted Z.le l1 /\ StronglySorted Z.le l2.
Proof.
  induction l1 as [|x l1 IH]; [intros Hs; split; [constructor|done]|]. simpl. intros Hs. inversion Hs as [|? ? H1 H2]; subst.
  apply IH in H1 as [H3 H4]. apply Forall_app in H2 as [H2 _]. split; [by constructor|done].
Qed.
Lemma window_sorted (C cs D : list (Z * Z)) : StronglySorted Z.le (C ++ cs ++ D).*1 ->
  StronglySorted Z.le (option_list (last C) ++ cs).*1.
Proof.
  rewrite app_assoc, fmap_app. intros [Hs _]%sorted_app_inv. destruct C as [|c C] using rev_ind; [done|].
  rewrite last_snoc. rewrite <- app_assoc, fmap_app in Hs. by apply sorted_app_inv in Hs as [_ Hs].
Qed.

(** One batch, after the contexts [C] and before the contexts [D]. *)
Lemma cr3_step d C D b cs qs : holds d b cs qs -> StronglySorted Z.le (C ++ cs ++ D).*1 ->
  (forall c q, c ∈ C -> q ∈ qs -> c.1 < q) -> (forall c q, c ∈ D -> q ∈ qs -> q <= c.1) ->
  cr3_for_blocks b (state_of d C) = let! vs := rmap (preceding (C ++ cs ++ D)) qs in Ok (vs, state_of d (C ++ cs)).
Proof.
  intros Hh Hs HC HD. rewrite (rmap_ext _ (preceding (option_list (last C) ++ cs))).
  2:{ intros q Hq. apply preceding_window; [intros c Hc; by apply HC|intros c Hc; by apply HD]. }
  apply window_sorted in Hs. unfold cr3_for_blocks.
  assert (Hprev : check_previous b (state_of d C) = Ok tt).
  { unfold check_previous, state_of. destruct (last C); [|done]. simpl. by rewrite (hd_device _ _ _ _ Hh), bool_decide_eq_true_2. }
  rewrite Hprev. cbn [rbind]. rewrite (context_rows_ok d b cs qs C Hh). cbn [rbind].
  destruct (hd_blocks _ _ _ _ Hh) as [Hn Hq]. rewrite Hn. destruct qs as [|q qs]; [done|]. cbn [length Nat.eqb].
  set (l := option_list (last C) ++ cs) in *.
  assert (H1 : match state_of d C with Some p => take 1 (t_data p) ++ cs.*1 | None => cs.*1 end = l.*1).
  { unfold l, state_of. destruct (last C); done. }
  assert (H2 : match state_of d C with Some p => drop 1 (t_data p) ++ cs.*2 | None => cs.*2 end = l.*2).
  { unfold l, state_of. destruct (last C); done. }
  rewrite H1, H2. rewrite length_fmap. destruct (length l =? 0)%nat eqn:Hl.
  { apply Nat.eqb_eq, length_zero_iff_nil in Hl. rewrite Hl. done. }
  specialize (Hq ltac:(done)). cbn [length] in Hq. rewrite Hq. cbn [rbind]. rewrite (search_all l (q :: qs) Hs). cbv zeta.
  destruct (existsb _ _); done.
Qed.
End step.

(** ** Several vCPUs *)

(** What one batch holds: nothing of a vCPU when it is worker metadata. *)
Record batch_view := MkView { bv_batch : Batch; bv_contexts : list (Z * Z); bv_blocks : list Z }.

(** The key of a batch. *)
Definition key_of (b : Batch) : option cpu_key := s ← source b; Some (worker b, s).
Definition of_key (k : cpu_key) (vs : list batch_view) : list batch_view :=
  filter (fun v => key_of (bv_batch v) = Some k) vs.
Definition contexts_of (k : cpu_key) (vs : list batch_view) : list (Z * Z) := concat (bv_contexts <$> of_key k vs).
Definition blocks_of (k : cpu_key) (vs : list batch_view) : list Z := concat (bv_blocks <$> of_key k vs).

(** The events of one vCPU are in order: its contexts are sorted, and of two batches
    everything in the first precedes everything in the second. *)
Definition before (v1 v2 : batch_view) : Prop :=
  (forall c q, c ∈ bv_contexts v1 -> q ∈ bv_blocks v2 -> c.1 < q) /\
  (forall c q, c ∈ bv_contexts v2 -> q ∈ bv_blocks v1 -> q <= c.1).
Definition in_order (k : cpu_key) (vs : list batch_view) : Prop :=
  StronglySorted Z.le (contexts_of k vs).*1 /\ StronglySorted before (of_key k vs).

Lemma of_key_app k vs1 vs2 : of_key k (vs1 ++ vs2) = of_key k vs1 ++ of_key k vs2.
Proof. apply filter_app. Qed.
Lemma contexts_of_app k vs1 vs2 : contexts_of k (vs1 ++ vs2) = contexts_of k vs1 ++ contexts_of k vs2.
Proof. unfold contexts_of. by rewrite of_key_app, fmap_app, concat_app. Qed.
Lemma contexts_of_cons k v vs : key_of (bv_batch v) = Some k -> contexts_of k (v :: vs) = bv_contexts v ++ contexts_of k vs.
Proof. intros Hk. unfold contexts_of, of_key. by rewrite filter_cons_True. Qed.
Lemma blocks_of_app k vs1 vs2 : blocks_of k (vs1 ++ vs2) = blocks_of k vs1 ++ blocks_of k vs2.
Proof. unfold blocks_of. by rewrite of_key_app, fmap_app, concat_app. Qed.

Lemma in_order_middle k seen v rest : key_of (bv_batch v) = Some k -> in_order k (seen ++ v :: rest) ->
  StronglySorted Z.le (contexts_of k seen ++ bv_contexts v ++ contexts_of k rest).*1 /\
  (forall c q, c ∈ contexts_of k seen -> q ∈ bv_blocks v -> c.1 < q) /\
  (forall c q, c ∈ contexts_of k rest -> q ∈ bv_blocks v -> q <= c.1).
Proof.
  intros Hk [H1 H2]. rewrite contexts_of_app in H1. rewrite of_key_app in H2.
  assert (Hv : of_key k (v :: rest) = v :: of_key k rest) by (unfold of_key; by rewrite filter_cons_True).
  unfold contexts_of at 2 in H1. rewrite Hv in *. split; [done|].
  unfold contexts_of. split; intros c q Hc Hq; apply elem_of_concat in Hc as (l & Hl & Hc);
    apply list_elem_of_fmap in Hl as (v' & -> & Hl).
  - clear H1. induction (of_key k seen) as [|a l IH]; [by apply elem_of_nil in Hl|].
    simpl in H2. inversion H2 as [|? ? H3 H4]; subst. apply elem_of_cons in Hl as [->|Hl]; [|by apply IH].
    apply Forall_app in H4 as [_ H4]. apply Forall_cons in H4 as [[Hb _] _]. by apply Hb.
  - assert (H3 : StronglySorted before (v :: of_key k rest)).
    { clear -H2. induction (of_key k seen) as [|a l IH]; [done|]. inversion H2; subst. by apply IH. }
    inversion H3 as [|? ? _ H4]; subst. rewrite Forall_forall in H4. destruct (H4 v' Hl) as [_ Hb]. by apply Hb.
Qed.

(** The outputs of one key. *)
Definition outputs_of (k : cpu_key) (outs : list (cpu_key * list Z)) : list Z := concat (snd <$> filter (fun o => o.1 = k) outs).

Section observing.
Context `{SearchLaws} (d : device).

(** The states after the batches [seen]. *)
Definition states_after (seen : list batch_view) (states : gmap cpu_key tensor) : Prop :=
  forall k, states !! k = state_of d (contexts_of k seen).

(** The reference for one vCPU, over the whole run. *)
Definition reference (k : cpu_key) (vs : list batch_view) : result (list Z) := rmap (preceding (contexts_of k vs)) (blocks_of k vs).

Lemma observe_step_ok seen v rest o : holds d (bv_batch v) (bv_contexts v) (bv_blocks v) ->
  (forall k, in_order k (seen ++ v :: rest)) -> states_after seen (oo_states o) ->
  match key_of (bv_batch v) with
  | None => observe_step (bv_batch v) o = Ok ([], o)
  | Some k => 
      match rmap (preceding (contexts_of k (seen ++ v :: rest))) (bv_blocks v) with
      | Raise e => observe_step (bv_batch v) o = Raise e
      | Ok vs => exists o', observe_step (bv_batch v) o = Ok ([(k, vs)], o') /\ states_after (seen ++ [v]) (oo_states o') /\
          oo_blocks o' = oo_blocks o + Z.of_nat (length vs) /\
          oo_contexts o' = oo_contexts o + Z.of_nat (length (bv_contexts v))
      end
  end.
Proof.
  intros Hh Hord Hst. unfold observe_step, key_of. destruct (source (bv_batch v)) as [s|] eqn:Hs; [|done].
  change (Some s ≫= fun s => Some (worker (bv_batch v), s)) with (Some (worker (bv_batch v), s)).
  set (k := (worker (bv_batch v), s)).
  assert (Hk : key_of (bv_batch v) = Some k) by (unfold key_of; by rewrite Hs).
  destruct (in_order_middle k seen v rest Hk (Hord k)) as (H1 & H2 & H3).
  rewrite (Hst k), (cr3_step d _ (contexts_of k rest) _ _ _ Hh H1 H2 H3).
  replace (contexts_of k (seen ++ v :: rest)) with (contexts_of k seen ++ bv_contexts v ++ contexts_of k rest).
  2:{ by rewrite contexts_of_app, (contexts_of_cons k v rest Hk). }
  destruct (rmap _ (bv_blocks v)) as [vs|e]; [|done]. cbn [rbind]. eexists. split; [done|]. cbn [oo_states oo_blocks oo_contexts].
  split_and!; [|done|].
  - intros k'. rewrite contexts_of_app. destruct (decide (k' = k)) as [->|Hne].
    + rewrite contexts_of_cons by done. rewrite app_nil_r. destruct (state_of d _) as [t|] eqn:Ht.
      * by rewrite lookup_insert_eq.
      * rewrite (Hst k). unfold state_of in *. apply fmap_None, last_None in Ht.
        apply app_eq_nil in Ht as [-> _]. done.
    + assert (Hnil : contexts_of k' [v] = []) by (unfold contexts_of, of_key; rewrite filter_cons_False; [done|congruence]).
      rewrite Hnil, app_nil_r, <- (Hst k'). destruct (state_of d _); [by rewrite lookup_insert_ne|done].
  - f_equal. destruct Hh as [_ Hc _]. destruct (context (bv_batch v)) as [c|]; [|by rewrite Hc].
    destruct Hc as (-> & _). done.
Qed.

Lemma reference_Raise k vs v e seen rest : vs = seen ++ v :: rest -> key_of (bv_batch v) = Some k ->
  rmap (preceding (contexts_of k vs)) (bv_blocks v) = Raise e ->
  (forall e', rmap (preceding (contexts_of k vs)) (blocks_of k seen) <> Raise e') -> reference k vs = Raise e.
Proof.
  intros -> Hk He Hseen. unfold reference. rewrite blocks_of_app, rmap_app.
  destruct (rmap _ (blocks_of k seen)) as [r|e'] eqn:Hr; [|by destruct (Hseen e')]. cbn [rbind].
  assert (Hb : blocks_of k (v :: rest) = bv_blocks v ++ blocks_of k rest) by (unfold blocks_of, of_key; by rewrite filter_cons_True).
  rewrite Hb, rmap_app, He. done.
Qed.

Lemma observe_ok vs : Forall (fun v => holds d (bv_batch v) (bv_contexts v) (bv_blocks v)) vs -> (forall k, in_order k vs) ->
  forall seen rest o outs, vs = seen ++ rest -> states_after seen (oo_states o) ->
  (forall k, rmap (preceding (contexts_of k vs)) (blocks_of k seen) = Ok (outputs_of k outs)) ->
  match observe (bv_batch <$> rest) o with
  | Ok (outs', o') => forall k, reference k vs = Ok (outputs_of k (outs ++ outs'))
  | Raise e => exists k, reference k vs = Raise e
  end.
Proof.
  intros Hh Hord seen rest. revert seen. induction rest as [|v rest IH]; intros seen o outs Hvs Hst Hout.
  - simpl. intros k. rewrite app_nil_r in *. subst vs. apply Hout.
  - cbn [fmap list_fmap observe].
    assert (Hv : holds d (bv_batch v) (bv_contexts v) (bv_blocks v)).
    { rewrite Hvs, Forall_app, Forall_cons in Hh. by destruct Hh as (_ & ? & _). }
    rewrite Hvs in Hord. pose proof (observe_step_ok seen v rest o Hv Hord Hst) as Hstep. rewrite <- Hvs in Hstep, Hord.
    assert (Hvs' : vs = (seen ++ [v]) ++ rest) by (by rewrite <- app_assoc).
    destruct (key_of (bv_batch v)) as [k|] eqn:Hk.
    + destruct (rmap _ (bv_blocks v)) as [r|e] eqn:Hr.
      * destruct Hstep as (o' & -> & Hst' & _). cbn [rbind].
        assert (Hout' : forall k', rmap (preceding (contexts_of k' vs)) (blocks_of k' (seen ++ [v])) = Ok (outputs_of k' (outs ++ [(k, r)]))).
        { intros k'. rewrite blocks_of_app, rmap_app, Hout. cbn [rbind]. unfold outputs_of. rewrite filter_app, fmap_app, concat_app.
          unfold blocks_of, of_key. rewrite !filter_cons, !filter_nil. cbn [fst]. destruct (decide (k' = k)) as [->|Hne].
          - rewrite !decide_True by done. cbn [fmap list_fmap concat snd]. by rewrite !app_nil_r, Hr.
          - rewrite !decide_False by congruence. done. }
        specialize (IH (seen ++ [v]) o' _ Hvs' Hst' Hout').
        destruct (observe (bv_batch <$> rest) o') as [[outs' o'']|e]; [|done]. cbn [rbind]. intros k'.
        rewrite (IH k'). by rewrite <- app_assoc.
      * rewrite Hstep. exists k. eapply reference_Raise; [exact Hvs|done|done|]. intros e'. by rewrite Hout.
    + rewrite Hstep. cbn [rbind].
      assert (Hnone : forall k, of_key k (seen ++ [v]) = of_key k seen).
      { intros k. rewrite of_key_app. unfold of_key at 2. rewrite filter_cons_False by (by rewrite Hk). by rewrite app_nil_r. }
      assert (Hst' : states_after (seen ++ [v]) (oo_states o)).
      { intros k. unfold contexts_of. rewrite Hnone. apply Hst. }
      assert (Hout' : forall k, rmap (preceding (contexts_of k vs)) (blocks_of k (seen ++ [v])) = Ok (outputs_of k outs)).
      { intros k. unfold blocks_of. rewrite Hnone. apply Hout. }
      specialize (IH (seen ++ [v]) o outs Hvs' Hst' Hout').
      destruct (observe (bv_batch <$> rest) o) as [[outs' o'']|e]; done.
Qed.
End observing.

(** The carried state is enough. Over any run of batches of any workers and vCPUs, interleaved and cut
    into batches in any way, with the events of each vCPU in order: [main] gives every block
    the CR3 of the last context event of its own vCPU strictly before it, over the whole run, though
    of earlier batches it keeps one context per vCPU; and it raises exactly when some block has no
    such context. *)
Theorem cr3_of_whole_run `{SearchLaws} (d : device) (vs : list batch_view)
  (Hh : Forall (fun v => holds d (bv_batch v) (bv_contexts v) (bv_blocks v)) vs) (Hord : forall k, in_order k vs) :
  match observe (bv_batch <$> vs) (MkObserved ∅ 0 0) with
  | Ok (outs, o) => forall k, reference k vs = Ok (outputs_of k outs)
  | Raise e => exists k, reference k vs = Raise e
  end.
Proof.
  apply (observe_ok d vs Hh Hord [] vs (MkObserved ∅ 0 0) []); [done| |done].
  intros k. apply lookup_empty.
Qed.

(** ** Witness *)

#[global] Instance count_search : SearchOps := { searchsorted l v := Z.of_nat (length (filter (fun x => x < v) l)) }.
#[global] Instance count_search_laws : SearchLaws.
Proof. by split. Defined.

(** Contexts at 0 and 3 and a block at 2; then, of the same vCPU, blocks at 4 and 5. *)
Definition context_batch : Batch :=
  MkBatch (Some 0) None (Tensor int64 cpu [1%nat] [4096]) None None
    (Some (MkAddressContext (Tensor int64 cpu [2%nat] [1; 2]) (Tensor int64 cpu [2%nat] [0; 0]) (Tensor int64 cpu [2%nat] [70; 90])
      (Tensor int64 cpu [2%nat] [0; 0]) (Tensor int64 cpu [2%nat] [0; 0]) (Tensor int64 cpu [2%nat] [0; 0])
      (Tensor int64 cpu [2%nat] [0; 0]) (Tensor int64 cpu [2%nat] [2; 3]) (Some (Tensor int64 cpu [2%nat] [0; 3]))))
    None 0 (Some (Tensor int64 cpu [1%nat] [2])) None None None None None None.
Definition example_views : list batch_view :=
  [MkView context_batch [(0, 70); (3, 90)] [2];
   MkView (bare_batch (Some 0) (Some 4) (Tensor int64 cpu [2%nat] [8; 12])) [] [4; 5]].

Lemma example_in_order k : in_order k example_views.
Proof.
  assert (Hk : of_key k example_views = if decide (k = (0, 0)) then example_views else []).
  { unfold of_key, example_views. case_decide as Hk; [by subst k|].
    rewrite !filter_cons_False; [done|..]; cbn; congruence. }
  unfold in_order, contexts_of. rewrite Hk. case_decide; [|split; constructor]. split.
  - cbn. repeat constructor; lia.
  - constructor; [repeat constructor|]. constructor; [|constructor]. split; simpl; intros c q Hc Hq.
    + set_unfold in Hc. set_unfold in Hq. naive_solver lia.
    + by apply elem_of_nil in Hc.
Qed.

Lemma cr3_of_whole_run_witness :
  (let! r := observe (bv_batch <$> example_views) (MkObserved ∅ 0 0) in Ok r.1) = Ok [((0, 0), [70]); ((0, 0), [90; 90])] /\
  reference (0, 0) example_views = Ok [70; 90; 90].
Proof.
  assert (Hobs : (let! r := observe (bv_batch <$> example_views) (MkObserved ∅ 0 0) in Ok r.1) = @Ok exn _ [((0, 0), [70]); ((0, 0), [90; 90])])
    by (vm_compute; reflexivity).
  split; [exact Hobs|].
  pose proof (cr3_of_whole_run cpu example_views ltac:(repeat constructor; cbn; lia || done) example_in_order) as H.
  destruct (observe (bv_batch <$> example_views) (MkObserved ∅ 0 0)) as [[outs o]|e]; [|discriminate Hobs].
  injection Hobs as Hobs. cbn in Hobs. specialize (H (0, 0)). rewrite H, Hobs. reflexivity.
Defined.
