(* ===== verification/DigitCounts.v ===== *)
(** * Digit entries of a trace ([examples/learn_trace.py]: symbols and counts)

    The addresses of the ten digit functions and of the sample marker, read from
    [nm] output; the reduction of a trace to counts of those entries, for one
    input ([count_entries]) or for a sequence of inputs that the marker separates
    ([count_samples]), with the tensor operations the code scans each batch with.
    Counts become float32 by an argument: they are small integers. *)

From Stdlib Require Import Ascii.
From S2P Require Import Prelude Batch Floats Features TraceSketch SketchTorch.

Definition CLASSES : nat := 10.
Definition INPUT_DIGITS : Z := 16.
Definition FEATURE_NAMES : list string :=
  (fun d => "digit_" +:+ pretty (Z.of_nat d)) <$> seq 0 CLASSES.

(** ** Text *)

Definition char_in (codes : list nat) (c : ascii) : bool := existsb (Nat.eqb (nat_of_ascii c)) codes.
(** The ASCII characters at which [splitlines] and [split] cut. *)
Definition line_break : ascii -> bool := char_in [10; 11; 12; 13; 28; 29; 30]%nat.
Definition white_space : ascii -> bool := char_in [9; 10; 11; 12; 13; 28; 29; 30; 31; 32]%nat.

(** [text.splitlines()]: a carriage return and a line feed make one break. *)
Fixpoint splitlines_from (line : string) (text : string) : list string :=
  match text with
  | EmptyString => if String.eqb line EmptyString then [] else [line]
  | String c rest =>
      if line_break c then
        match c, rest with
        | "013"%char, String "010"%char rest' => line :: splitlines_from EmptyString rest'
        | _, _ => line :: splitlines_from EmptyString rest
        end
      else splitlines_from (line +:+ String c EmptyString) rest
  end.
Definition splitlines (text : string) : list string := splitlines_from EmptyString text.

(** [line.split()] *)
Fixpoint split_from (field : string) (line : string) : list string :=
  match line with
  | EmptyString => if String.eqb field EmptyString then [] else [field]
  | String c rest =>
      if white_space c then (if String.eqb field EmptyString then [] else [field]) ++ split_from EmptyString rest
      else split_from (field +:+ String c EmptyString) rest
  end.
Definition split_fields (line : string) : list string := split_from EmptyString line.

(** [int(text, 16)]: an optional sign and prefix, digits with single underscores between them. *)
Definition hex_digit (c : ascii) : option Z :=
  let n := Z.of_nat (nat_of_ascii c) in
  if (48 <=? n) && (n <=? 57) then Some (n - 48)
  else if (97 <=? n) && (n <=? 102) then Some (n - 87)
  else if (65 <=? n) && (n <=? 70) then Some (n - 55) else None.
Fixpoint hex_digits (need : bool) (acc : Z) (s : string) : option Z :=
  match s with
  | EmptyString => if need then None else Some acc
  | String c rest =>
      match hex_digit c with
      | Some v => hex_digits false (acc * 16 + v) rest
      | None => if negb need && Ascii.eqb c "_" then hex_digits true acc rest else None
      end
  end.
Definition hex_prefixed (s : string) : option Z :=
  match s with
  | String "0" (String x rest) =>
      if Ascii.eqb x "x" || Ascii.eqb x "X" then
        match rest with String "_" rest => hex_digits true 0 rest | _ => hex_digits true 0 rest end
      else hex_digits true 0 s
  | _ => hex_digits true 0 s
  end.
Definition int16 (s : string) : result Z :=
  let value := match s with
               | String "+" rest => hex_prefixed rest
               | String "-" rest => Z.opp <$> hex_prefixed rest
               | _ => hex_prefixed s
               end in
  match value with Some z => Ok z | None => throw ValueError ("invalid literal for int() with base 16: '" +:+ s +:+ "'") end.

(** [text.lower() == "t"] *)
Definition lower_t (s : string) : bool := String.eqb s "t" || String.eqb s "T".

(** ** [parse_symbols] *)

Abbreviation symbols := (list (string * Z)).

Definition wanted (name : string) : bool := bool_decide (name ∈ FEATURE_NAMES ++ ["sample_end"]).

(** [fields[-1]], [fields[-2]] and [fields[0]] of a line of at least three fields. *)
Definition line_fields (fields : list string) : option (string * string * string) :=
  match fields, rev fields with
  | first :: _, name :: kind :: _ :: _ => Some (first, kind, name)
  | _, _ => None
  end.

Definition parse_line (line : string) (found : symbols) : result symbols :=
  match line_fields (split_fields line) with
  | None => Ok found
  | Some (first, kind, name) =>
      if negb (wanted name) then Ok found
      else
        raise! ValueError ("Expected one code symbol named " +:+ name) when negb (lower_t kind) || is_some (od_get name found) in
        let! address := int16 first in
        Ok (od_set name address found)
  end.

Definition parse_symbols (text : string) : result symbols :=
  let! found := rfold (fun found line => parse_line line found) [] (splitlines text) in
  let missing := filter (fun name => od_get name found = None) FEATURE_NAMES in
  raise! ValueError ("Missing digit code symbols: " +:+ String.concat ", " missing) when negb (bool_decide (missing = [])) in
  raise! ValueError "Digit entries and the sample marker must have distinct addresses"
    when negb (bool_decide (NoDup found.*2)) in
  Ok found.

(** ** Counting *)

Section counting.
Context {F : Type} (float32 : Z -> F).

(** [.to(torch.float32)] *)
Definition float_rows (rows : list (list Z)) : list (list F) := (fun row : list Z => float32 <$> row) <$> rows.

(** [torch.tensor(values, dtype=torch.int64)] *)
Definition int64_tensor (values : list Z) : result (list Z) :=
  raise! RuntimeError "Overflow when unpacking long long"
    when negb (forallb (fun v => (- 2 ^ 63 <=? v) && (v <? 2 ^ 63)) values) in
  Ok values.

(** [source = batch.source] the first time, then the comparison. *)
Definition track_source (source : option Z) (b : Batch) : result (option Z) :=
  let source := match source with None => Batch.source b | Some s => Some s end in
  raise! ValueError "The digit example requires a single-vCPU trace" when negb (bool_decide (Batch.source b = source)) in
  Ok source.

(** [(addresses[:, None] == entries[None, :]).sum(dim=0)] *)
Definition column_matches (addresses entries : list Z) : list Z :=
  (fun e => zsum (fun a => if a =? e then 1 else 0) addresses) <$> entries.

Definition count_entries_step (entries : list Z) (st : option Z * list Z) (b : Batch) : result (option Z * list Z) :=
  let! source := track_source st.1 b in
  Ok (source, if (numel (addresses b) =? 0)%nat then st.2
              else zip_with Z.add st.2 (column_matches (t_data (addresses b)) entries)).

Definition count_entries (batches : list Batch) (entry_addresses : list Z) : result (list F) :=
  raise! ValueError "Provide ten distinct digit function entry addresses"
    when negb (length entry_addresses =? CLASSES)%nat || negb (bool_decide (NoDup entry_addresses)) in
  let! entries := int64_tensor entry_addresses in
  let! st := rfold (count_entries_step entries) (None, replicate CLASSES 0) batches in
  raise! ValueError "Expected exactly sixteen captured digit function entries" when negb (zsum id st.2 =? INPUT_DIGITS) in
  Ok (float32 <$> st.2).

(** [matches.nonzero(as_tuple=True)[1]]: the columns of the matches, row by row. *)
Definition matching_columns (a : Z) (entries : list Z) : list Z :=
  omap (fun p => if a =? p.2 then Some (Z.of_nat p.1) else None) (imap pair entries).
Definition nonzero_columns (addresses entries : list Z) : list Z :=
  concat ((fun a => matching_columns a entries) <$> addresses).

(** [events == CLASSES] *)
Definition is_marker (e : Z) : bool := e =? Z.of_nat CLASSES.

(** The rows of [counts] of one batch, before [pending] is added. *)
Definition marker_counts (events : list Z) : list Z := (fun e => if is_marker e then 1 else 0) <$> events.
Definition groups (events : list Z) : list Z := zip_with Z.sub (cumsum 0 (marker_counts events)) (marker_counts events).
Definition completed (events : list Z) : nat := Z.to_nat (zsum id (marker_counts events)).
Definition event_counts (events : list Z) : list (list Z) :=
  let keys := zip_with (fun g e => g * Z.of_nat CLASSES + e) (groups events) events in
  let kept := (filter (fun p => is_marker p.2 = false) (zip keys events)).*1 in
  let flat := bincount kept ((completed events + 1) * CLASSES) in
  chunk_rows (length flat / CLASSES) CLASSES flat.

(** [counts[0] += pending] *)
Definition add_first (pending : list Z) (rows : list (list Z)) : list (list Z) :=
  match rows with [] => [] | r :: rows => zip_with Z.add r pending :: rows end.

Record Samples := MkSamples { sa_source : option Z; sa_pending : list Z; sa_samples : list (list (list Z)) }.

Definition count_samples_step (entries : list Z) (st : Samples) (b : Batch) : result Samples :=
  let! source := track_source (sa_source st) b in
  if (numel (addresses b) =? 0)%nat then Ok (MkSamples source (sa_pending st) (sa_samples st))
  else
    let events := nonzero_columns (t_data (addresses b)) entries in
    if (length events =? 0)%nat then Ok (MkSamples source (sa_pending st) (sa_samples st))
    else
      let counts := add_first (sa_pending st) (event_counts events) in
      let whole := take (completed events) counts in
      raise! ValueError "Each sample must contain exactly sixteen digit entries"
        when negb (completed events =? 0)%nat && negb (forallb (fun r => zsum id r =? INPUT_DIGITS) whole) in
      Ok (MkSamples source (List.last counts [])
        (if (completed events =? 0)%nat then sa_samples st else sa_samples st ++ [whole])).

Definition count_samples (batches : list Batch) (entry_addresses : list Z) (sample_end_address : Z) : result (list (list F)) :=
  let locations := entry_addresses ++ [sample_end_address] in
  raise! ValueError "Provide ten distinct digit entries and a distinct sample marker"
    when negb (length entry_addresses =? CLASSES)%nat || negb (bool_decide (NoDup locations)) in
  let! entries := int64_tensor locations in
  let! st := rfold (count_samples_step entries) (MkSamples None (replicate CLASSES 0) []) batches in
  raise! ValueError "Trace ended without a sample marker or contained no samples"
    when existsb (fun n => negb (n =? 0)) (sa_pending st) || bool_decide (sa_samples st = []) in
  Ok (float_rows (concat (sa_samples st))).
End counting.

(** ** The reference: the digits between markers *)

(** The digits up to each marker, then those after the last one. *)
Fixpoint marker_segments (es : list Z) : list (list Z) :=
  match es with
  | [] => [[]]
  | e :: es =>
      if is_marker e then [] :: marker_segments es
      else match marker_segments es with s :: ss => (e :: s) :: ss | [] => [[e]] end
  end.
Definition digit_histogram : list Z -> list Z := histogram_of CLASSES.

Definition sample_counts (es : list Z) : result (list (list Z)) :=
  raise! ValueError "Each sample must contain exactly sixteen digit entries"
    when negb (forallb (fun s => Z.of_nat (length s) =? INPUT_DIGITS) (removelast (marker_segments es))) in
  raise! ValueError "Trace ended without a sample marker or contained no samples"
    when negb (bool_decide (List.last (marker_segments es) [] = [])) || bool_decide (removelast (marker_segments es) = []) in
  Ok (digit_histogram <$> removelast (marker_segments es)).

(** ** The scan of one batch *)

Definition digit_or_marker (e : Z) : Prop := 0 <= e <= Z.of_nat CLASSES.
Definition digit (e : Z) : Prop := 0 <= e < Z.of_nat CLASSES.

(** The digits with the number of markers before them. *)
Fixpoint numbered (k : Z) (es : list Z) : list (Z * Z) :=
  match es with
  | [] => []
  | e :: es => if is_marker e then numbered (k + 1) es else (k, e) :: numbered k es
  end.
Definition event_key (p : Z * Z) : Z := p.1 * Z.of_nat CLASSES + p.2.

Lemma kept_numbered es : forall k,
  let groups := zip_with Z.sub (cumsum k (marker_counts es)) (marker_counts es) in
  (filter (fun p => is_marker p.2 = false) (zip (zip_with (fun g e => g * Z.of_nat CLASSES + e) groups es) es)).*1 =
  event_key <$> numbered k es.
Proof.
  induction es as [|e es IH]; intros k; [done|]. cbv zeta in *. unfold marker_counts in *.
  cbn [fmap list_fmap cumsum zip_with numbered]. rewrite filter_cons. cbn [snd]. destruct (is_marker e).
  - rewrite decide_False by done. apply IH.
  - rewrite decide_True by done. cbn [fmap list_fmap fst]. rewrite Z.add_0_r, Z.sub_0_r. unfold event_key at 1. cbn [fst snd].
    f_equal. apply IH.
Qed.

Lemma segments_cons es : exists s ss, marker_segments es = s :: ss.
Proof. destruct es as [|e es]; simpl; [by eexists _, _|]. destruct (is_marker e); [by eexists _, _|]. destruct (marker_segments es); by eexists _, _. Qed.

Lemma numbered_from k es : Forall digit_or_marker es -> forall p, p ∈ numbered k es -> k <= p.1 /\ digit p.2.
Proof.
  intros He. revert k. induction He as [|e es He _ IH]; intros k p; cbn [numbered]; [by intros ?%elem_of_nil|].
  unfold is_marker. destruct (e =? Z.of_nat CLASSES) eqn:Hm; bool_prop.
  - intros [H1 H2]%IH. split; [lia|done].
  - intros [->|[H1 H2]%IH]%elem_of_cons; [|by split]. split; [simpl; lia|]. unfold digit_or_marker, digit in *. simpl. lia.
Qed.

Lemma count_key es : Forall digit_or_marker es -> forall k (g : nat) d, digit d ->
  count ((k + Z.of_nat g) * Z.of_nat CLASSES + d) (event_key <$> numbered k es) = count d (default [] (marker_segments es !! g)).
Proof.
  intros He. induction He as [|e es He Hes IH]; intros k g d Hd; cbn [numbered marker_segments].
  { destruct g as [|[|g]]; done. }
  unfold digit, digit_or_marker in *. unfold is_marker. destruct (e =? Z.of_nat CLASSES) eqn:Hm; bool_prop.
  - destruct g as [|g].
    + cbn [lookup list_lookup from_option id]. apply count_zero. intros x (p & -> & Hp)%list_elem_of_fmap.
      apply numbered_from in Hp as [H1 H2]; [|done]. unfold event_key, digit in *. nia.
    + etrans; [|exact (IH (k + 1) g d Hd)]. f_equal. lia.
  - destruct (segments_cons es) as (s & ss & Hs). rewrite Hs. rewrite fmap_cons, count_cons. unfold event_key at 1. cbn [fst snd].
    specialize (IH k g d Hd). rewrite Hs in IH. rewrite IH. destruct g as [|g].
    + cbn [lookup list_lookup from_option id]. rewrite count_cons. f_equal. repeat case_decide; lia.
    + assert (Hne : k * Z.of_nat CLASSES + e <> (k + Z.of_nat (S g)) * Z.of_nat CLASSES + d).
      { change (Z.of_nat CLASSES) with 10 in *. lia. }
      by rewrite decide_False.
Qed.

Lemma markers_nonneg es : 0 <= zsum id (marker_counts es).
Proof.
  unfold marker_counts. induction es as [|e es IH]; [done|]. cbn [fmap list_fmap]. rewrite zsum_cons. unfold id at 1.
  destruct (is_marker e); lia.
Qed.
Lemma length_segments es : length (marker_segments es) = (completed es + 1)%nat.
Proof.
  unfold completed, marker_counts. induction es as [|e es IH]; [done|]. cbn [marker_segments fmap list_fmap]. rewrite zsum_cons.
  pose proof (markers_nonneg es) as Hpos. unfold marker_counts in Hpos.
  unfold id at 1. destruct (is_marker e); cbn [length].
  - rewrite IH. rewrite Z2Nat.inj_add by lia. lia.
  - destruct (segments_cons es) as (s & ss & Hs). rewrite Hs in *. cbn [length] in *. rewrite IH. done.
Qed.

Lemma numbered_upto es p : p ∈ numbered 0 es -> p.1 <= Z.of_nat (completed es).
Proof.
  assert (Hgen : forall k, p ∈ numbered k es -> p.1 <= k + zsum id (marker_counts es)).
  { unfold marker_counts. induction es as [|e es IH]; intros k; cbn [numbered fmap list_fmap]; [by intros ?%elem_of_nil|].
    rewrite zsum_cons. unfold id at 1. destruct (is_marker e); [intros Hp%IH; lia|].
    intros [->|Hp%IH]%elem_of_cons; [|lia]. simpl. pose proof (markers_nonneg es). unfold marker_counts in *. lia. }
  intros Hp%Hgen. unfold completed. lia.
Qed.

Lemma bincount_below values m : Forall (fun v => v < Z.of_nat m) values ->
  bincount values m = (fun v => count (Z.of_nat v) values) <$> seq 0 m.
Proof.
  intros Hv. unfold bincount. cbv zeta. rewrite Nat.max_l; [done|].
  assert (foldr Z.max (-1) values < Z.of_nat m); [|lia]. induction Hv as [|v l Hv _ IH]; simpl; lia.
Qed.

Lemma histogram_seq l : digit_histogram l = (fun c => count (Z.of_nat c) l) <$> seq 0 CLASSES.
Proof. unfold digit_histogram, histogram_of, arange. by rewrite <- list_fmap_compose. Qed.

(** The tensor code counts the digits between the markers. *)
Lemma event_counts_segments es : Forall digit_or_marker es -> event_counts es = digit_histogram <$> marker_segments es.
Proof.
  intros He. unfold event_counts, groups. rewrite (kept_numbered es 0). cbv zeta.
  set (keys := event_key <$> numbered 0 es). set (m := ((completed es + 1) * CLASSES)%nat).
  assert (Hseg : (completed es + 1)%nat = length (marker_segments es)) by (by rewrite length_segments).
  assert (Hkeys : Forall (fun v => v < Z.of_nat m) keys).
  { apply Forall_fmap, Forall_forall. intros p Hp. destruct (numbered_from 0 es He p Hp) as [H1 H2].
    assert (Hlast : p.1 <= Z.of_nat (completed es)) by (by apply numbered_upto). unfold compose, event_key, digit, m in *. nia. }
  rewrite bincount_below by done. rewrite length_fmap, length_seq. unfold m. rewrite Nat.div_mul by done.
  rewrite (chunk_rows_seq CLASSES _ _ 0), Hseg. apply fmap_seq_lookup. intros g s Hg. rewrite histogram_seq.
  apply list_fmap_ext. intros i c Hc%list_elem_of_lookup_2. apply elem_of_seq in Hc.
  rewrite Nat2Z.inj_add, Nat2Z.inj_mul. unfold keys. rewrite <- (Z.add_0_l (Z.of_nat g)), (count_key es He 0 g); [by rewrite Hg|].
  unfold digit. lia.
Qed.

(** ** The loop over batches *)

Definition join_first (cur : list Z) (segs : list (list Z)) : list (list Z) :=
  match segs with s :: ss => (cur ++ s) :: ss | [] => [cur] end.

Lemma segments_app E es : forall whole cur, marker_segments E = whole ++ [cur] ->
  marker_segments (E ++ es) = whole ++ join_first cur (marker_segments es).
Proof.
  destruct (segments_cons es) as (s & ss & Hs). rewrite Hs. cbn [join_first].
  induction E as [|e E IH]; intros whole cur Hw; cbn [marker_segments app] in *.
  - destruct whole as [|x [|y whole] ]; simplify_eq. simpl in Hw. injection Hw as <-. by rewrite Hs.
  - destruct (segments_cons E) as (t & ts & Ht). destruct (is_marker e).
    + destruct whole as [|x whole]; [simpl in Hw; simplify_eq; congruence|]. injection Hw as <- Hw. by rewrite (IH whole cur Hw).
    + rewrite Ht in Hw. destruct whole as [|x whole].
      * simpl in Hw. injection Hw as <- ->. by rewrite (IH [] t Ht).
      * injection Hw as <- ->. by rewrite (IH (t :: whole) cur Ht).
Qed.
Lemma segments_digits es : Forall digit_or_marker es -> Forall (Forall digit) (marker_segments es).
Proof.
  induction 1 as [|e es He _ IH]; cbn [marker_segments]; [by repeat constructor|]. unfold is_marker.
  destruct (e =? Z.of_nat CLASSES) eqn:Hm; bool_prop; [by constructor|].
  destruct (segments_cons es) as (s & ss & Hs). rewrite Hs in *. apply Forall_cons in IH as [H1 H2].
  constructor; [|done]. constructor; [|done]. unfold digit_or_marker, digit in *. lia.
Qed.

Lemma histogram_app s1 s2 : digit_histogram (s1 ++ s2) = zip_with Z.add (digit_histogram s2) (digit_histogram s1).
Proof.
  unfold digit_histogram, histogram_of. induction (arange CLASSES) as [|v l IH]; [done|].
  rewrite !fmap_cons. cbn [zip_with]. rewrite <- IH, count_append. f_equal. lia.
Qed.
Lemma digit_histogram_nil : digit_histogram [] = replicate CLASSES 0.
Proof. done. Qed.
Lemma histogram_sum s : Forall digit s -> zsum id (digit_histogram s) = Z.of_nat (length s).
Proof.
  induction 1 as [|x s Hx _ IH]; [done|]. change (x :: s) with ([x] ++ s). rewrite histogram_app.
  assert (Hone : zsum id (digit_histogram [x]) = 1).
  { unfold digit in Hx. change (Z.of_nat CLASSES) with 10 in Hx.
    assert (Hc : x = 0 \/ x = 1 \/ x = 2 \/ x = 3 \/ x = 4 \/ x = 5 \/ x = 6 \/ x = 7 \/ x = 8 \/ x = 9) by lia.
    repeat destruct Hc as [->|Hc]; try done. by subst. }
  assert (Hadd : forall l1 l2 : list Z, length l1 = length l2 -> zsum id (zip_with Z.add l1 l2) = zsum id l1 + zsum id l2).
  { induction l1 as [|a l1 IHl]; intros [|b l2] Hl; simpl in Hl; try done. cbn [zip_with]. rewrite !zsum_cons.
    rewrite IHl by lia. unfold id. lia. }
  rewrite Hadd by done. rewrite Hone, IH. cbn [length app]. lia.
Qed.
Lemma histogram_zero s : Forall digit s -> existsb (fun n => negb (n =? 0)) (digit_histogram s) = negb (bool_decide (s = [])).
Proof.
  intros Hs. destruct s as [|x s]; [done|]. rewrite bool_decide_eq_false_2 by done. apply existsb_exists.
  exists (count x (x :: s)). split.
  - unfold digit_histogram, histogram_of, arange. apply in_map_iff. exists x. split; [done|]. apply in_map_iff.
    apply Forall_cons in Hs as [Hx _]. unfold digit in Hx. exists (Z.to_nat x). split; [lia|]. apply in_seq. lia.
  - rewrite count_cons, decide_True by done. unfold count. apply negb_true_iff, Z.eqb_neq. lia.
Qed.

(** The state of the loop after the events [E]. *)
Record scanned (E : list Z) (st : Samples) : Prop := {
  sc_split : exists whole cur, marker_segments E = whole ++ [cur] /\ sa_pending st = digit_histogram cur /\
    concat (sa_samples st) = digit_histogram <$> whole /\ (sa_samples st = [] <-> whole = []) /\
    Forall (fun s => Z.of_nat (length s) = INPUT_DIGITS) whole;
  sc_events : Forall digit_or_marker E;
}.

Definition sample_error : exn := Exn ValueError "Each sample must contain exactly sixteen digit entries".
(** Some sample is not of sixteen digits. *)
Definition bad_sample (E : list Z) : Prop :=
  forallb (fun s => Z.of_nat (length s) =? INPUT_DIGITS) (removelast (marker_segments E)) = false.

Lemma join_split cur segs s ss : segs = s :: ss -> exists whole last, join_first cur segs = whole ++ [last] /\
  length whole = length ss.
Proof.
  intros ->. cbn [join_first]. destruct ss as [|x ss] using rev_ind; [by exists [], (cur ++ s)|].
  exists ((cur ++ s) :: ss), x. split; [done|]. rewrite length_app. simpl. lia.
Qed.
Lemma bad_sample_app E F : bad_sample E -> bad_sample (E ++ F).
Proof.
  unfold bad_sample. destruct (exists_last (l := marker_segments E)) as (whole & cur & Hw).
  { destruct (segments_cons E) as (s & ss & ->). done. }
  rewrite (segments_app E F whole cur Hw), Hw, removelast_last. intros Hbad.
  destruct (segments_cons F) as (s & ss & Hs). destruct (join_split cur _ s ss Hs) as (w & l & Hj & _). rewrite Hj, app_assoc, removelast_last.
  rewrite forallb_app, Hbad. done.
Qed.

Lemma matching_range a entries e : e ∈ matching_columns a entries -> 0 <= e < Z.of_nat (length entries).
Proof.
  unfold matching_columns. intros (p & Hp & He)%list_elem_of_omap.
  apply elem_of_lookup_imap in Hp as (i & x & -> & Hi). simpl in He. apply lookup_lt_Some in Hi.
  destruct (a =? x); [|done]. injection He as <-. lia.
Qed.
Lemma columns_range l entries : length entries = S CLASSES -> Forall digit_or_marker (nonzero_columns l entries).
Proof.
  intros Hl. unfold nonzero_columns. apply Forall_forall. intros e He. apply elem_of_concat in He as (c & Hc & He).
  apply list_elem_of_fmap in Hc as (a & -> & _). apply matching_range in He. unfold digit_or_marker. lia.
Qed.
Lemma columns_app l1 l2 entries : nonzero_columns (l1 ++ l2) entries = nonzero_columns l1 entries ++ nonzero_columns l2 entries.
Proof. unfold nonzero_columns. by rewrite fmap_app, concat_app. Qed.

Lemma add_first_join cur segs : segs <> [] ->
  add_first (digit_histogram cur) (digit_histogram <$> segs) = digit_histogram <$> join_first cur segs.
Proof. destruct segs as [|s ss]; [done|]. intros _. cbn [add_first join_first fmap list_fmap]. by rewrite histogram_app. Qed.
Lemma forallb_histograms segs : Forall (Forall digit) segs ->
  forallb (fun r => zsum id r =? INPUT_DIGITS) (digit_histogram <$> segs) =
  forallb (fun s => Z.of_nat (length s) =? INPUT_DIGITS) segs.
Proof. induction 1 as [|s segs Hs _ IH]; [done|]. cbn [fmap list_fmap forallb]. by rewrite histogram_sum, IH. Qed.

Lemma count_samples_step_ok entries E st b src : length entries = S CLASSES -> length (t_data (addresses b)) = numel (addresses b) ->
  scanned E st -> track_source (sa_source st) b = Ok src ->
  let es := nonzero_columns (t_data (addresses b)) entries in
  match count_samples_step entries st b with
  | Ok st' => scanned (E ++ es) st' /\ sa_source st' = src
  | Raise e => e = sample_error /\ bad_sample (E ++ es)
  end.
Proof.
  intros Hl Hn [(whole & cur & Hseg & Hpend & Hsam & Hiff & Hlen) Hev] Hsrc. cbv zeta. unfold count_samples_step. rewrite Hsrc. cbn [rbind].
  set (es := nonzero_columns _ entries). assert (Hes : Forall digit_or_marker es) by (by apply columns_range).
  assert (Hsame : es = [] -> scanned (E ++ es) (MkSamples src (sa_pending st) (sa_samples st))).
  { intros Hnil. rewrite Hnil, app_nil_r. split; [by exists whole, cur|done]. }
  destruct (numel (addresses b) =? 0)%nat eqn:Hz; bool_prop.
  { split; [|done]. apply Hsame. unfold es. destruct (t_data (addresses b)); [done|]. simpl in Hn. lia. }
  destruct (length es =? 0)%nat eqn:Hz'; bool_prop.
  { split; [|done]. by apply Hsame, length_zero_iff_nil. }
  clear Hsame. destruct (segments_cons es) as (s & ss & Hs). destruct (join_split cur _ s ss Hs) as (w & l & Hj & Hwl).
  rewrite event_counts_segments, Hpend by done. rewrite add_first_join by (by rewrite Hs). rewrite Hj, fmap_app. cbn [fmap list_fmap].
  assert (Hcompl : completed es = length w).
  { pose proof (length_segments es) as Hlen'. rewrite Hs in Hlen'. simpl in Hlen'. lia. }
  assert (Hdig : Forall (Forall digit) (w ++ [l])).
  { rewrite <- Hj. pose proof (segments_digits es Hes) as Hd. rewrite Hs in *. cbn [join_first]. apply Forall_cons in Hd as [Hd1 Hd2].
    constructor; [|done]. apply Forall_app. split; [|done]. pose proof (segments_digits E Hev) as HdE. rewrite Hseg in HdE.
    apply Forall_app in HdE as [_ HdE]. by apply Forall_cons in HdE as [? _]. }
  apply Forall_app in Hdig as [Hdw _]. rewrite Hcompl. rewrite take_app_length' by (by rewrite length_fmap).
  rewrite forallb_histograms by done. rewrite last_last.
  assert (Hall : marker_segments (E ++ es) = (whole ++ w) ++ [l]) by (by rewrite (segments_app E es whole cur Hseg), Hj, app_assoc).
  destruct (forallb (fun s => Z.of_nat (length s) =? INPUT_DIGITS) w) eqn:Hok; cbn [negb].
  - rewrite andb_false_r. split; [|done]. split; [|by apply Forall_app]. exists (whole ++ w), l. cbn [sa_pending sa_samples].
    split_and!; [done|done| | |].
    + rewrite fmap_app. destruct w as [|w0 w]; [by rewrite app_nil_r|]. cbn [length Nat.eqb].
      rewrite concat_app, Hsam. cbn [concat]. by rewrite app_nil_r.
    + destruct w as [|w0 w]; cbn [length Nat.eqb]; [by rewrite app_nil_r|].
      split; intros H; [by destruct (sa_samples st)|by destruct whole].
    + apply Forall_app. split; [done|]. apply Forall_forall. intros x Hx. rewrite forallb_forall in Hok.
      apply Z.eqb_eq, Hok. by apply list_elem_of_In.
  - assert (Hne : (length w =? 0)%nat = false) by (by destruct w). rewrite Hne. cbn [negb andb]. split; [done|].
    unfold bad_sample. rewrite Hall, removelast_last, forallb_app, Hok. apply andb_false_r.
Qed.

Lemma count_samples_loop entries bs : length entries = S CLASSES ->
  Forall (fun b => length (t_data (addresses b)) = numel (addresses b)) bs -> forall E st src,
  scanned E st -> rfold track_source (sa_source st) bs = Ok src ->
  let es := nonzero_columns (concat ((fun b => t_data (addresses b)) <$> bs)) entries in
  match rfold (count_samples_step entries) st bs with
  | Ok st' => scanned (E ++ es) st'
  | Raise e => e = sample_error /\ bad_sample (E ++ es)
  end.
Proof.
  intros Hl Hb. induction Hb as [|b bs Hn _ IH]; intros E st src Hst Hsrc; cbv zeta.
  { simpl. by rewrite app_nil_r. }
  cbn [rfold] in *. destruct (track_source (sa_source st) b) as [s1|] eqn:Hs1; [|done]. cbn [rbind] in Hsrc.
  pose proof (count_samples_step_ok entries E st b s1 Hl Hn Hst Hs1) as Hstep. cbv zeta in Hstep.
  cbn [fmap list_fmap concat]. rewrite columns_app, app_assoc.
  destruct (count_samples_step entries st b) as [st1|e]; cbn [rbind].
  - destruct Hstep as [Hst1 Hsa]. rewrite <- Hsa in Hsrc. exact (IH _ _ _ Hst1 Hsrc).
  - destruct Hstep as [-> Hbad]. split; [done|]. by apply bad_sample_app.
Qed.

Lemma sample_counts_scanned E st : scanned E st ->
  sample_counts E = raise! ValueError "Trace ended without a sample marker or contained no samples"
    when existsb (fun n => negb (n =? 0)) (sa_pending st) || bool_decide (sa_samples st = []) in
  Ok (concat (sa_samples st)).
Proof.
  intros [(whole & cur & Hseg & Hpend & Hsam & Hiff & Hlen) Hev]. unfold sample_counts. rewrite Hseg, removelast_last, last_last.
  assert (Hcur : Forall digit cur).
  { pose proof (segments_digits E Hev) as HdE. rewrite Hseg in HdE. apply Forall_app in HdE as [_ HdE]. by apply Forall_cons in HdE as [? _]. }
  assert (Hok : forallb (fun s => Z.of_nat (length s) =? INPUT_DIGITS) whole = true).
  { apply forallb_forall. intros x Hx%list_elem_of_In. rewrite Forall_forall in Hlen. apply Z.eqb_eq. by apply Hlen. }
  rewrite Hok, Hpend, histogram_zero, Hsam by done. cbn [negb].
  by rewrite (bool_decide_ext (sa_samples st = []) (whole = [])).
Qed.

(** ** One input *)

Lemma count_matching a entries : forall k j e, entries !! j = Some e ->
  count (Z.of_nat (k + j)) (omap (fun p => if a =? p.2 then Some (Z.of_nat p.1) else None) (imap (fun i x => ((k + i)%nat, x)) entries)) =
  if a =? e then 1 else 0.
Proof.
  induction entries as [|x entries IH]; intros k j e Hj; [done|]. rewrite imap_cons. cbn [omap list_omap snd fst].
  assert (Hext : imap ((fun i x => ((k + i)%nat, x)) ∘ S) entries = imap (fun i x => ((S k + i)%nat, x)) entries).
  { apply imap_ext. intros i y _. unfold compose. f_equal. lia. }
  rewrite Hext. destruct j as [|j].
  - injection Hj as ->. rewrite Nat.add_0_r. set (tail := omap _ _).
    assert (Htail : count (Z.of_nat k) tail = 0).
    { apply count_zero. intros y (p & Hp & Hy)%list_elem_of_omap. apply elem_of_lookup_imap in Hp as (i & z & -> & _).
      cbn [fst snd] in Hy. destruct (a =? z); [|done]. injection Hy as <-. lia. }
    destruct (a =? e); [|done]. rewrite count_cons, Htail, decide_True; [done|lia].
  - replace (k + S j)%nat with (S k + j)%nat by lia. specialize (IH (S k) j e Hj).
    destruct (a =? x); [|exact IH]. rewrite count_cons, IH, decide_False; [done|lia].
Qed.

Lemma column_matches_histogram l entries : length entries = CLASSES ->
  column_matches l entries = digit_histogram (nonzero_columns l entries).
Proof.
  intros Hl. rewrite histogram_seq, <- Hl. symmetry. apply fmap_seq_lookup. intros j e Hj.
  induction l as [|a l IH]; [done|]. unfold nonzero_columns in *. cbn [fmap list_fmap concat]. rewrite count_append, IH, zsum_cons. f_equal.
  unfold matching_columns. rewrite <- (count_matching a entries 0 j e Hj). done.
Qed.

Lemma zip_add_comm (l1 l2 : list Z) : zip_with Z.add l1 l2 = zip_with Z.add l2 l1.
Proof. revert l2. induction l1 as [|a l1 IH]; intros [|b l2]; try done. cbn. rewrite IH. f_equal. lia. Qed.

Lemma count_entries_loop entries bs : length entries = CLASSES ->
  Forall (fun b => length (t_data (addresses b)) = numel (addresses b)) bs -> forall E source src,
  rfold track_source source bs = Ok src ->
  rfold (count_entries_step entries) (source, digit_histogram E) bs =
  Ok (src, digit_histogram (E ++ nonzero_columns (concat ((fun b => t_data (addresses b)) <$> bs)) entries)).
Proof.
  intros Hl Hb. induction Hb as [|b bs Hn _ IH]; intros E source src Hsrc.
  { simpl in *. injection Hsrc as <-. by rewrite app_nil_r. }
  cbn [rfold] in *. unfold count_entries_step at 1. cbn [fst snd].
  destruct (track_source source b) as [s1|]; [|done]. cbn [rbind] in *.
  cbn [fmap list_fmap concat]. rewrite columns_app, app_assoc.
  replace (if (numel (addresses b) =? 0)%nat then _ else _) with (digit_histogram (E ++ nonzero_columns (t_data (addresses b)) entries)).
  - by apply IH.
  - destruct (numel (addresses b) =? 0)%nat eqn:Hz; bool_prop.
    + destruct (t_data (addresses b)); [by rewrite app_nil_r|]. simpl in Hn. lia.
    + by rewrite histogram_app, column_matches_histogram, zip_add_comm.
Qed.

(** The block addresses of a run. *)
Definition run_blocks (bs : list Batch) : list Z := concat ((fun b => t_data (addresses b)) <$> bs).

Lemma int64_tensor_ok l : Forall (sint 64) l -> int64_tensor l = Ok l.
Proof.
  intros Hl. unfold int64_tensor. replace (forallb _ l) with true; [done|]. symmetry. apply forallb_forall.
  intros v Hv%list_elem_of_In. rewrite Forall_forall in Hl. specialize (Hl v Hv). unfold sint in Hl. change (64 - 1) with 63 in Hl.
  rewrite (proj2 (Z.leb_le _ _)), (proj2 (Z.ltb_lt _ _)) by lia. done.
Qed.

Lemma count_samples_exact {F : Type} (float32 : Z -> F) bs entries marker src : length entries = CLASSES ->
  NoDup (entries ++ [marker]) -> Forall (sint 64) (entries ++ [marker]) ->
  Forall (fun b => length (t_data (addresses b)) = numel (addresses b)) bs -> rfold track_source None bs = Ok src ->
  count_samples float32 bs entries marker =
    (let! r := sample_counts (nonzero_columns (run_blocks bs) (entries ++ [marker])) in Ok (float_rows float32 r)).
Proof.
  intros Hlen Hdistinct H64 Hbs Hsrc.
  unfold count_samples. cbv zeta. rewrite Hlen, bool_decide_eq_true_2 by done. rewrite Nat.eqb_refl. cbn [negb orb].
  rewrite int64_tensor_ok by done. cbn [rbind]. rewrite <- digit_histogram_nil.
  assert (Hinit : scanned [] (MkSamples None (digit_histogram []) [])).
  { split; [|constructor]. exists [], []. by split_and!. }
  assert (Hl11 : length (entries ++ [marker]) = S CLASSES) by (rewrite length_app, Hlen; done).
  pose proof (count_samples_loop (entries ++ [marker]) bs Hl11 Hbs [] _ src Hinit Hsrc) as Hloop. cbv zeta in Hloop. rewrite app_nil_l in Hloop.
  unfold run_blocks. destruct (rfold (count_samples_step _) _ bs) as [st|e]; cbn [rbind].
  - rewrite (sample_counts_scanned _ st Hloop). by case_if.
  - destruct Hloop as [-> Hbad]. unfold sample_counts, bad_sample in *. by rewrite Hbad.
Qed.

(** The counts are those of the whole trace, however it is cut into batches. For a single-vCPU run
    and distinct locations: [count_samples], whose tensor code numbers the markers of each batch
    and carries the open sample over, returns exactly the digit counts between consecutive
    markers of the whole block sequence when each has sixteen digits, the last marker ends
    the trace and there is one, and raises the documented error otherwise; [count_entries]
    returns the digit counts of the whole sequence exactly when they add up to sixteen. *)
Theorem digit_counts_exact {F : Type} (float32 : Z -> F) (bs : list Batch) (entries : list Z) (marker : Z) (src : option Z)
  (Hlen : length entries = CLASSES) (Hdistinct : NoDup (entries ++ [marker])) (H64 : Forall (sint 64) (entries ++ [marker]))
  (Hbs : Forall (fun b => length (t_data (addresses b)) = numel (addresses b)) bs)
  (Hsrc : rfold track_source None bs = Ok src) :
  count_samples float32 bs entries marker =
    (let! r := sample_counts (nonzero_columns (run_blocks bs) (entries ++ [marker])) in Ok (float_rows float32 r)) /\
  count_entries float32 bs entries =
    (let digits := nonzero_columns (run_blocks bs) entries in
     raise! ValueError "Expected exactly sixteen captured digit function entries"
       when negb (Z.of_nat (length digits) =? INPUT_DIGITS) in
     Ok (float32 <$> digit_histogram digits)).
Proof.
  split; [by apply (count_samples_exact float32 bs entries marker src)|].
  unfold count_entries. rewrite Hlen, Nat.eqb_refl. apply NoDup_app in Hdistinct as [Hnd _]. rewrite bool_decide_eq_true_2 by done.
    cbn [negb orb]. apply Forall_app in H64 as [H64 _]. rewrite int64_tensor_ok by done. cbn [rbind]. rewrite <- digit_histogram_nil.
    rewrite (count_entries_loop entries bs Hlen Hbs [] None src Hsrc). cbn [rbind snd app]. fold (run_blocks bs). cbv zeta.
    rewrite histogram_sum; [done|]. apply Forall_forall. intros e He. unfold nonzero_columns in He.
    apply elem_of_concat in He as (c & Hc & He). apply list_elem_of_fmap in Hc as (a & -> & _). apply matching_range in He.
    unfold digit. by rewrite <- Hlen.
Qed.

(** ** Symbols a target was built with can be counted *)

Lemma parse_lines_keys lines : forall found found', NoDup found.*1 ->
  rfold (fun found line => parse_line line found) found lines = Ok found' -> NoDup found'.*1.
Proof.
  intros found found' Hnd. apply (rfold_inv _ (fun l : symbols => NoDup l.*1)); [|done].
  intros l line l' Hl. unfold parse_line. destruct (line_fields _) as [[[first kind] name]|]; [|by intros [= <-]].
  destruct (negb (wanted name)); [by intros [= <-]|]. case_if; [done|]. intros (a & _ & [= <-])%rbind_Ok. by apply od_set_NoDup.
Qed.

Lemma od_values_distinct (d : symbols) names values : NoDup d.*1 -> NoDup d.*2 -> NoDup names ->
  Forall2 (fun name v => od_get name d = Some v) names values -> NoDup values.
Proof.
  intros Hk Hv Hn Hf. induction Hf as [|name v names values Hg Hf IH]; [constructor|].
  apply NoDup_cons in Hn as [Hname Hn]. constructor; [|by apply IH]. intros Hin. apply Hname.
  apply list_elem_of_lookup in Hin as [i Hi]. destruct (Forall2_lookup_r _ _ _ _ _ Hf Hi) as (name' & Hi' & Hg').
  apply od_get_Some_elem in Hg, Hg'. apply list_elem_of_lookup in Hg as [j Hj], Hg' as [j' Hj'].
  assert (j = j') as ->.
  { eapply NoDup_lookup; [exact Hv|rewrite list_lookup_fmap, Hj; done|rewrite list_lookup_fmap, Hj'; done]. }
  rewrite Hj in Hj'. injection Hj' as ->. by eapply list_elem_of_lookup_2.
Qed.

(** Symbols that [parse_symbols] accepts are ten distinct entries, and with the marker eleven
    distinct locations: the counters never refuse them. *)
Lemma parsed_symbols_distinct text found : parse_symbols text = Ok found ->
  exists entries, Forall2 (fun name v => od_get name found = Some v) FEATURE_NAMES entries /\
    length entries = CLASSES /\ NoDup entries /\
    forall marker, od_get "sample_end" found = Some marker -> NoDup (entries ++ [marker]).
Proof.
  unfold parse_symbols. intros Hp. inv_res Hp. bool_prop. injection Hp as ->.
  apply parse_lines_keys in Hv; [|constructor].
  assert (Hall : exists entries, Forall2 (fun name v => od_get name found = Some v) FEATURE_NAMES entries).
  { match goal with Hm : filter _ FEATURE_NAMES = [] |- _ => revert Hm end. generalize FEATURE_NAMES as names.
    induction names as [|name names IH]; intros Hm; [by exists []|]. rewrite filter_cons in Hm. case_decide; [done|].
    destruct (od_get name found) as [v|] eqn:Hg; [|done]. destruct (IH Hm) as [entries He]. exists (v :: entries). by constructor. }
  destruct Hall as [entries He]. exists entries.
  assert (Hnames : NoDup (FEATURE_NAMES ++ ["sample_end"])) by (apply (bool_decide_unpack _); vm_compute; exact I).
  split_and!; [done|by rewrite <- (Forall2_length _ _ _ He)| |].
  - apply (od_values_distinct found FEATURE_NAMES entries); try done. by apply NoDup_app in Hnames as [? _].
  - intros marker Hm. apply (od_values_distinct found (FEATURE_NAMES ++ ["sample_end"])); try done.
    apply Forall2_app; [done|by repeat constructor].
Qed.

(** ** Witness *)

Definition digit_entries : list Z := (fun d => 4096 + 16 * Z.of_nat d) <$> seq 0 CLASSES.
(** Ten entries of digit 3, then six of digit 5 and the marker, in two batches. *)
Definition digit_batches : list Batch :=
  (fun data => bare_batch (Some 0) None (Tensor int64 cpu [length data] data)) <$>
    [replicate 10 (4096 + 48); [7; 7]; replicate 6 (4096 + 80) ++ [8192]].

Lemma digit_counts_exact_witness :
  count_samples id digit_batches digit_entries 8192 = Ok [[0; 0; 0; 10; 0; 6; 0; 0; 0; 0]] /\
  count_entries id digit_batches digit_entries = Ok [0; 0; 0; 10; 0; 6; 0; 0; 0; 0].
Proof.
  destruct (digit_counts_exact id digit_batches digit_entries 8192 (Some 0)) as [H1 H2].
  - reflexivity.
  - apply (bool_decide_unpack _). vm_compute. exact I.
  - unfold sint, digit_entries. cbn. repeat constructor; lia.
  - repeat constructor.
  - reflexivity.
  - rewrite H1, H2. split; vm_compute; reflexivity.
Defined.
