(* ===== verification/DigitDataset.v ===== *)
(** * The digit dataset ([examples/learn_trace.py]: inputs, validation and split)

    The generator of balanced inputs, the checks a captured dataset has to pass before
    a model is trained on it, and the split into training and test rows. Features
    are float32 values compared by an argument; the histograms the code
    recomputes are small integers, exact as float32. Random draws are an
    interface. *)

From S2P Require Import Prelude Batch Floats Features TraceSketch SketchTorch DigitCounts.

(** ** Tensor operations on a row of counts *)

(** [expected.scatter_add_(1, inputs, ones)], one row. *)
Definition scatter_ones (inputs : list Z) : list Z :=
  fold_left (fun row i => alter (Z.add 1) (Z.to_nat i) row) inputs (replicate CLASSES 0).

(** [row.max()] and the index of its first occurrence. *)
Definition row_max (row : list Z) : Z := foldr Z.max (default 0 (head row)) row.
Fixpoint first_index (v : Z) (row : list Z) : nat :=
  match row with
  | [] => 0
  | x :: row => if x =? v then 0 else S (first_index v row)
  end.
Definition argmax (row : list Z) : nat := first_index (row_max row) row.
(** [row.topk(2).values]: the largest value, then the largest of the others. *)
Definition top2 (row : list Z) : Z * Z := (row_max row, row_max (delete (argmax row) row)).

(** ** [validate_dataset] *)

Record FTensor (F : Type) := MkFTensor { ft_float32 : bool; ft_shape : list nat; ft_data : list F }.
Arguments MkFTensor {F}.
Arguments ft_float32 {F}.
Arguments ft_shape {F}.
Arguments ft_data {F}.

(** What [dataset.get] finds; a value that is not a tensor is [None]. *)
Record Dataset (F : Type) := MkDataset {
  ds_format : option Z;
  ds_feature_names : option (list string);
  ds_features : option (FTensor F);
  ds_labels : option tensor;
  ds_inputs : option tensor;
}.
Arguments MkDataset {F}.
Arguments ds_format {F}.
Arguments ds_feature_names {F}.
Arguments ds_features {F}.
Arguments ds_labels {F}.
Arguments ds_inputs {F}.

(** Float comparison, and the float32 of an integer. *)
Class FloatOps (F : Type) := { feqb : F -> F -> bool; float32 : Z -> F }.
Class FloatLaws (F : Type) `{FloatOps F} := {
  feqb_join x y z : feqb x z = true -> feqb y z = true -> feqb x y = true;
  feqb_float32 m n : 0 <= m <= INPUT_DIGITS -> 0 <= n <= INPUT_DIGITS -> feqb (float32 m) (float32 n) = (m =? n);
}.

Section validation.
Context {F : Type} `{FloatOps F}.

Fixpoint equal_lists (l1 l2 : list F) : bool :=
  match l1, l2 with
  | [], [] => true
  | x :: l1, y :: l2 => feqb x y && equal_lists l1 l2
  | _, _ => false
  end.
(** [torch.unique(rows, dim=0).shape[0] == len(rows)] *)
Fixpoint distinct_rows (rows : list (list F)) : bool :=
  match rows with
  | [] => true
  | r :: rows => negb (existsb (equal_lists r) rows) && distinct_rows rows
  end.

Definition is_digit (v : Z) : bool := (0 <=? v) && (v <? Z.of_nat CLASSES).

(** [class_counts.min() < 5] or classes of different sizes. *)
Definition unbalanced (labels : list Z) : bool :=
  let class_counts := bincount labels CLASSES in
  existsb (fun n => n <? 5) class_counts ||
  negb (forallb (fun n => n =? default 0 (head class_counts)) class_counts).

(** The checks from the shapes on, given the rows. *)
Definition validate_rows (features : list F) (labels : list Z) (inputs : list (list Z)) : result unit :=
  raise! ValueError "Input digits and labels must lie between zero and nine"
    when (length labels =? 0)%nat || negb (forallb (forallb (fun d => d <? Z.of_nat CLASSES)) inputs && forallb is_digit labels) in
  raise! ValueError "Duplicate input would contaminate the held-out split" when negb (bool_decide (NoDup inputs)) in
  let expected := scatter_ones <$> inputs in
  raise! ValueError "Captured entry counts do not match the independent input histogram"
    when negb (equal_lists features (float32 <$> concat expected)) in
  raise! ValueError "Duplicate count vector would contaminate the held-out split"
    when negb (distinct_rows (chunk_rows (length labels) CLASSES features)) in
  raise! ValueError "Labels must identify the strictly most frequent input digit"
    when existsb (fun row => (top2 row).1 =? (top2 row).2) expected ||
         negb (bool_decide ((fun row => Z.of_nat (argmax row)) <$> expected = labels)) in
  raise! ValueError "Use at least five examples per class with balanced labels" when unbalanced labels in
  Ok tt.

Definition validate_dataset (d : Dataset F) : result (list (list F) * list Z * list (list Z)) :=
  raise! ValueError "Unsupported digit dataset format or feature names"
    when negb (bool_decide (ds_format d = Some 1)) || negb (bool_decide (ds_feature_names d = Some FEATURE_NAMES)) in
  match ds_features d, ds_labels d, ds_inputs d with
  | Some features, Some labels, Some inputs =>
      raise! ValueError "Expected float32 features, int64 labels and uint8 input digits"
        when negb (ft_float32 features) || negb (bool_decide (t_dtype labels = int64)) ||
             negb (bool_decide (t_dtype inputs = uint8)) || negb (length (t_shape labels) =? 1)%nat in
      let rows := numel labels in
      raise! ValueError "Dataset tensor shapes do not match"
        when negb (bool_decide (ft_shape features = [rows; CLASSES])) ||
             negb (bool_decide (t_shape inputs = [rows; Z.to_nat INPUT_DIGITS])) in
      let input_rows := chunk_rows rows (Z.to_nat INPUT_DIGITS) (t_data inputs) in
      let! _ := validate_rows (ft_data features) (t_data labels) input_rows in
      Ok (chunk_rows rows CLASSES (ft_data features), t_data labels, input_rows)
  | _, _, _ => throw ValueError "Dataset features, labels and inputs must be tensors"
  end.
End validation.

(** ** [split_indices] *)

Class PermOps (G : Type) := { seeded : Z -> G; randperm : nat -> G -> list nat * G }.
Class PermLaws (G : Type) `{PermOps G} := { randperm_perm n g : (randperm n g).1 ≡ₚ seq 0 n }.

Section splitting.
Context {G : Type} `{PermOps G}.

(** [torch.where(labels == label)[0]] *)
Definition where_equal (labels : list Z) (label : Z) : list nat :=
  filter (fun i => labels !! i = Some label) (seq 0 (length labels)).

Definition split_class (labels : list Z) (label : nat) (g : G) : list nat * list nat * G :=
  let indices := where_equal labels (Z.of_nat label) in
  let '(order, g) := randperm (length indices) g in
  let indices := (fun i => default 0%nat (indices !! i)) <$> order in
  let test_count := Nat.max 1 (length indices / 5) in
  (drop test_count indices, take test_count indices, g).

Fixpoint split_classes (labels : list Z) (classes : list nat) (g : G) : list nat * list nat :=
  match classes with
  | [] => ([], [])
  | label :: classes =>
      let '(train, test, g) := split_class labels label g in
      let '(trains, tests) := split_classes labels classes g in
      (train ++ trains, test ++ tests)
  end.
Definition split_indices (labels : list Z) (seed : Z) : list nat * list nat :=
  split_classes labels (seq 0 CLASSES) (seeded seed).
End splitting.

(** ** [make_inputs] *)

Class DrawOps (G : Type) := {
  Random_ : Z -> G;
  randint_ : Z -> Z -> G -> Z * G;
  choices : list Z -> nat -> G -> list Z * G;
  shuffle_ {A} : list A -> G -> list A * G;
}.
Class DrawLaws (G : Type) `{DrawOps G} := {
  randint_range a b g : a <= b -> a <= (randint_ a b g).1 <= b;
  choices_length l n g : length (choices l n g).1 = n;
  choices_members l n g : l <> [] -> Forall (fun x => x ∈ l) (choices l n g).1;
  shuffle_perm_ {A} (l : list A) g : (shuffle_ l g).1 ≡ₚ l;
}.

Section making.
Context {G : Type} `{DrawOps G}.

(** [[digit for digit in range(CLASSES) if digit != label]] *)
Definition others (label : Z) : list Z := filter (fun d => d <> label) (arange CLASSES).

(** The inputs made so far, with the two sets. *)
Record Made := MkMade { mk_rows : list (list Z); mk_labels : list Z; mk_seen : list (list Z); mk_counts : list (list Z) }.

(** [tuple(digits.count(digit) for digit in range(CLASSES))] *)
Definition counts_of (digits : list Z) : list Z := (fun d => count d digits) <$> arange CLASSES.

(** The draws of one attempt. *)
Definition draw_row (label : Z) (g : G) : Z * list Z * G :=
  let '(count, g) := randint_ 6 10 g in
  let '(rest, g) := choices (others label) (Z.to_nat (INPUT_DIGITS - count)) g in
  let '(digits, g) := shuffle_ (replicate (Z.to_nat count) label ++ rest) g in
  (count, digits, g).

Definition acceptable (label count : Z) (row : list Z) (m : Made) : bool :=
  negb (bool_decide (row ∈ mk_seen m)) && negb (bool_decide (counts_of row ∈ mk_counts m)) &&
  forallb (fun other => default 0 (counts_of row !! Z.to_nat other) <? count) (others label).

(** [while True]; [None] when the attempts are used up. *)
Fixpoint try_rows (attempts : nat) (label : Z) (m : Made) (g : G) : option (Made * G) :=
  match attempts with
  | O => None
  | S attempts =>
      let '(count, row, g) := draw_row label g in
      if acceptable label count row m
      then Some (MkMade (mk_rows m ++ [row]) (mk_labels m ++ [label]) (row :: mk_seen m) (counts_of row :: mk_counts m), g)
      else try_rows attempts label m g
  end.
Fixpoint make_class (attempts : nat) (label : Z) (n : nat) (m : Made) (g : G) : option (Made * G) :=
  match n with
  | O => Some (m, g)
  | S n => '(m, g) ← try_rows attempts label m g; make_class attempts label n m g
  end.
Fixpoint make_classes (attempts n : nat) (classes : list Z) (m : Made) (g : G) : option (Made * G) :=
  match classes with
  | [] => Some (m, g)
  | label :: classes => '(m, g) ← make_class attempts label n m g; make_classes attempts n classes m g
  end.

Definition make_inputs (attempts : nat) (per_class seed : Z) : result (option (list (list Z) * list Z)) :=
  raise! ValueError "Use at least five inputs per class for a held-out split" when per_class <? 5 in
  Ok ('(m, g) ← make_classes attempts (Z.to_nat per_class) (arange CLASSES) (MkMade [] [] [] []) (Random_ seed);
      let order := (shuffle_ (seq 0 (length (mk_rows m))) g).1 in
      Some ((fun i => default [] (mk_rows m !! i)) <$> order, (fun i => default 0 (mk_labels m !! i)) <$> order)).
End making.

(** ** What the row operations compute *)

Lemma histogram_lookup row d : digit d -> digit_histogram row !! Z.to_nat d = Some (count d row).
Proof.
  intros Hd. unfold digit in Hd. rewrite histogram_seq, list_lookup_fmap, lookup_seq_lt by lia. simpl. f_equal. f_equal. lia.
Qed.
Lemma length_histogram row : length (digit_histogram row) = CLASSES.
Proof. rewrite histogram_seq. by rewrite length_fmap, length_seq. Qed.

Lemma alter_count acc i : length acc = CLASSES -> digit i ->
  alter (Z.add 1) (Z.to_nat i) acc = zip_with Z.add (digit_histogram [i]) acc.
Proof.
  intros Hl Hi. unfold digit in Hi. apply list_eq. intros j. destruct (decide (j < CLASSES)%nat) as [Hj|Hj].
  2:{ rewrite !lookup_ge_None_2; [done|rewrite length_zip_with, length_histogram; lia|rewrite length_alter; lia]. }
  destruct (lookup_lt_is_Some_2 acc j) as [x Hx]; [lia|]. rewrite lookup_zip_with, Hx.
  rewrite <- (Nat2Z.id j) at 2. rewrite histogram_lookup by (unfold digit; lia). cbn [mbind option_bind]. rewrite count_cons.
  destruct (decide (j = Z.to_nat i)) as [->|Hne].
  - rewrite list_lookup_alter_eq, Hx. cbn [fmap option_fmap option_map]. rewrite decide_True by lia. done.
  - rewrite list_lookup_alter_ne, Hx by done. rewrite decide_False by lia. done.
Qed.
Lemma scatter_histogram row : Forall digit row -> scatter_ones row = digit_histogram row.
Proof.
  intros Hr. unfold scatter_ones. rewrite <- digit_histogram_nil. rewrite <- (app_nil_l row) at 2.
  revert Hr. generalize (@nil Z) as seen. induction row as [|i row IH]; intros seen Hr; [simpl; by rewrite app_nil_r|].
  apply Forall_cons in Hr as [Hi Hr]. cbn [fold_left]. rewrite alter_count by (done || by rewrite length_histogram).
  rewrite <- histogram_app, IH by done. by rewrite <- app_assoc.
Qed.

Lemma foldr_max d l : (forall x, x ∈ l -> x <= foldr Z.max d l) /\ d <= foldr Z.max d l /\ (foldr Z.max d l = d \/ foldr Z.max d l ∈ l).
Proof.
  induction l as [|x l (H1 & H2 & H3)]; cbn [foldr].
  - split_and!; [by intros y ?%elem_of_nil|lia|by left].
  - split_and!; [|lia|].
    + intros y [->|Hy]%elem_of_cons; [lia|]. specialize (H1 y Hy). lia.
    + destruct (Z.max_spec x (foldr Z.max d l)) as [[_ ->]|[_ ->]]; [|right; left].
      destruct H3 as [->|H3]; [by left|right; by right].
Qed.
Lemma row_max_spec row : row <> [] -> row_max row ∈ row /\ forall x, x ∈ row -> x <= row_max row.
Proof.
  intros Hr. unfold row_max. destruct row as [|x row]; [done|]. cbn [head from_option id default].
  destruct (foldr_max x (x :: row)) as (H1 & _ & [H2|H2]); [|done]. split; [|done]. rewrite H2. left.
Qed.
Lemma first_index_spec v row : v ∈ row -> row !! first_index v row = Some v.
Proof.
  induction row as [|x row IH]; [by intros ?%elem_of_nil|]. cbn [first_index]. destruct (x =? v) eqn:Hx; bool_prop; [by subst|].
  intros [->|Hv]%elem_of_cons; [done|]. by apply IH.
Qed.
Lemma elem_of_delete {A} (l : list A) : forall i x, x ∈ delete i l <-> exists j, j <> i /\ l !! j = Some x.
Proof.
  induction l as [|a l IH]; intros i x.
  - split; [by intros ?%elem_of_nil|]. intros (j & _ & Hj). done.
  - destruct i as [|i].
    + change (delete 0%nat (a :: l)) with l. rewrite list_elem_of_lookup. split.
      * intros [j Hj]. by exists (S j).
      * intros ([|j] & Hne & Hj); [done|]. by exists j.
    + change (delete (S i) (a :: l)) with (a :: delete i l). rewrite elem_of_cons, IH. split.
      * intros [->|(j & Hne & Hj)]; [by exists 0%nat|]. exists (S j). split; [lia|done].
      * intros ([|j] & Hne & Hj); [left; by injection Hj|right]. exists j. split; [lia|done].
Qed.

(** The two tests on a row accept exactly the index of its strict maximum. *)
Lemma strict_maximum row l : (2 <= length row)%nat ->
  (top2 row).1 <> (top2 row).2 /\ argmax row = l <->
  exists m, row !! l = Some m /\ forall j x, j <> l -> row !! j = Some x -> x < m.
Proof.
  intros Hlen. unfold top2, argmax. cbn [fst snd]. destruct (row_max_spec row) as [Hin Hmax]; [intros ->; simpl in Hlen; lia|].
  pose proof (first_index_spec _ _ Hin) as Hi. set (i := first_index (row_max row) row) in *.
  assert (Hdel : delete i row <> []).
  { intros Hnil. apply (f_equal length) in Hnil. rewrite length_delete in Hnil by (rewrite Hi; by eexists). simpl in Hnil. lia. }
  destruct (row_max_spec _ Hdel) as [Hin2 Hmax2]. split.
  - intros [Hne <-]. exists (row_max row). split; [done|]. intros j x Hj Hx.
    assert (x <= row_max (delete i row)) by (apply Hmax2, elem_of_delete; eauto).
    apply elem_of_delete in Hin2 as (k & _ & Hk). apply list_elem_of_lookup_2 in Hk. apply Hmax in Hk. lia.
  - intros (m & Hm & Hlt). assert (Hil : i = l).
    { destruct (decide (i = l)) as [|Hne]; [done|]. specialize (Hlt i _ Hne Hi).
      apply list_elem_of_lookup_2 in Hm. apply Hmax in Hm. lia. }
    subst l. split; [|done]. apply elem_of_delete in Hin2 as (k & Hne & Hk). specialize (Hlt k _ Hne Hk).
    rewrite Hi in Hm. injection Hm as <-. lia.
Qed.

(** The digit [l] is strictly the most frequent one of an input. *)
Definition strictly_most (l : Z) (row : list Z) : Prop :=
  digit l /\ forall d, digit d -> d <> l -> count d row < count l row.

Lemma strictly_most_test row l : 0 <= l ->
  (top2 (digit_histogram row)).1 <> (top2 (digit_histogram row)).2 /\ Z.of_nat (argmax (digit_histogram row)) = l <->
  strictly_most l row.
Proof.
  intros Hl. pose proof (strict_maximum (digit_histogram row) (Z.to_nat l)) as Hs. rewrite length_histogram in Hs.
  assert (H2 : (2 <= CLASSES)%nat) by (unfold CLASSES; lia). specialize (Hs H2).
  transitivity (exists m, digit_histogram row !! Z.to_nat l = Some m /\
    forall j x, j <> Z.to_nat l -> digit_histogram row !! j = Some x -> x < m).
  { rewrite <- Hs. split; intros [Ha Hb]; (split; [done|lia]). }
  clear Hs. split.
  - intros (m & Hm & Hlt). assert (Hd : digit l).
    { apply lookup_lt_Some in Hm. rewrite length_histogram in Hm. unfold digit. lia. }
    split; [done|]. rewrite histogram_lookup in Hm by done. injection Hm as <-. intros d Hd' Hne.
    apply (Hlt (Z.to_nat d)); [unfold digit in *; lia|]. by apply histogram_lookup.
  - intros [Hd Hlt]. exists (count l row). split; [by apply histogram_lookup|]. intros j x Hj Hx.
    assert (Hdj : digit (Z.of_nat j)).
    { apply lookup_lt_Some in Hx. rewrite length_histogram in Hx. unfold digit. lia. }
    rewrite <- (Nat2Z.id j), histogram_lookup in Hx by done. injection Hx as <-. apply Hlt; [done|lia].
Qed.

(** ** The checks, together *)

Section exact.
Context {F : Type} `{FloatLaws F}.

Lemma equal_lists_spec (l1 l2 : list F) : equal_lists l1 l2 = true <-> Forall2 (fun x y => feqb x y = true) l1 l2.
Proof.
  revert l2. induction l1 as [|x l1 IH]; intros [|y l2]; cbn [equal_lists]; try (split; [done|by inversion 1]).
  rewrite andb_true_iff, IH. split; [intros [? ?]; by constructor|by inversion 1].
Qed.

Definition small (n : Z) : Prop := 0 <= n <= INPUT_DIGITS.

(** Two rows of features that stand for histograms are equal exactly when the histograms are. *)
Lemma feature_rows_equal r1 r2 h1 h2 : Forall small h1 -> Forall small h2 -> length h1 = length h2 ->
  equal_lists r1 (float32 <$> h1) = true -> equal_lists r2 (float32 <$> h2) = true -> equal_lists r1 r2 = true <-> h1 = h2.
Proof.
  intros Hs1 Hs2 Hl He1 He2. apply equal_lists_spec in He1, He2. rewrite equal_lists_spec. revert r1 r2 h2 Hs2 Hl He1 He2.
  induction Hs1 as [|n h1 Hn Hs1 IH]; intros r1 r2 h2 Hs2 Hl He1 He2.
  - destruct h2; [|done]. inversion He1; subst. inversion He2; subst. by split.
  - destruct Hs2 as [|m h2 Hm Hs2]; [done|]. inversion He1 as [|x ? r1' ? Hx Hr1]; subst. inversion He2 as [|y ? r2' ? Hy Hr2]; subst.
    specialize (IH r1' r2' h2 Hs2 ltac:(simpl in Hl; lia) Hr1 Hr2).
    assert (Hnn : feqb (float32 n) (float32 n) = true) by (rewrite feqb_float32 by done; apply Z.eqb_refl).
    assert (Hmm : feqb (float32 m) (float32 m) = true) by (rewrite feqb_float32 by done; apply Z.eqb_refl).
    assert (Hxy : feqb x y = true <-> n = m).
    { split; [|intros <-; by eapply feqb_join]. intros Hxy. apply Z.eqb_eq. rewrite <- feqb_float32 by done.
      apply (feqb_join _ _ x); [by apply (feqb_join _ _ (float32 n))|].
      apply (feqb_join _ _ y); [by apply (feqb_join _ _ (float32 m))|done]. }
    split.
    + inversion 1; subst. f_equal; [by apply Hxy|by apply IH].
    + intros [= <- <-]. constructor; [by apply Hxy|by apply IH].
Qed.

Lemma count_small row d : Z.of_nat (length row) = INPUT_DIGITS -> small (count d row).
Proof. intros Hl. unfold small, count. pose proof (length_filter (fun x => x = d) row). lia. Qed.
Lemma histogram_small row : Z.of_nat (length row) = INPUT_DIGITS -> Forall small (digit_histogram row).
Proof. intros Hl. apply Forall_fmap, Forall_forall. intros d _. by apply count_small. Qed.

(** The rows of the features stand for the histograms. *)
Lemma feature_rows features hs : Forall (fun h => length h = CLASSES) hs ->
  equal_lists features (float32 <$> concat hs) = true ->
  Forall2 (fun r h => equal_lists r (float32 <$> h) = true) (chunk_rows (length hs) CLASSES features) hs.
Proof.
  intros Hh. revert features. induction Hh as [|h hs Hh _ IH]; intros features He; [constructor|].
  cbn [concat] in He. rewrite fmap_app in He. apply equal_lists_spec, Forall2_app_inv_r in He as (f1 & f2 & H1 & H2 & ->).
  pose proof (Forall2_length _ _ _ H1) as Hl. rewrite length_fmap in Hl. cbn [length chunk_rows].
  rewrite take_app_length', drop_app_length' by lia. constructor; [by apply equal_lists_spec|]. by apply IH, equal_lists_spec.
Qed.
Lemma distinct_rows_spec rows hs : Forall (fun h => length h = CLASSES /\ Forall small h) hs ->
  Forall2 (fun r h => equal_lists r (float32 <$> h) = true) rows hs -> distinct_rows rows = true <-> NoDup hs.
Proof.
  intros Hh Hf. induction Hf as [|r h rows hs Hr Hf IH]; [split; [constructor|done]|].
  apply Forall_cons in Hh as [[Hl Hs] Hh]. cbn [distinct_rows]. rewrite andb_true_iff, NoDup_cons, IH by done.
  assert (Hin : existsb (equal_lists r) rows = true <-> h ∈ hs).
  { rewrite existsb_exists. split.
    - intros (r' & Hr'%list_elem_of_In & He). apply list_elem_of_lookup in Hr' as [i Hi].
      destruct (Forall2_lookup_l _ _ _ _ _ Hf Hi) as (h' & Hi' & He'). rewrite Forall_forall in Hh.
      destruct (Hh h' ltac:(by eapply list_elem_of_lookup_2)) as [Hl' Hs'].
      apply (feature_rows_equal r r' h h') in He; [subst; by eapply list_elem_of_lookup_2|done..|by rewrite Hl|done|done].
    - intros [i Hi]%list_elem_of_lookup. destruct (Forall2_lookup_r _ _ _ _ _ Hf Hi) as (r' & Hi' & He').
      exists r'. split; [apply list_elem_of_In; by eapply list_elem_of_lookup_2|]. by apply (feature_rows_equal r r' h h). }
  rewrite negb_true_iff, <- not_true_iff_false, Hin. done.
Qed.

Lemma is_digit_spec v : is_digit v = true <-> digit v.
Proof. unfold is_digit, digit. rewrite andb_true_iff, Z.leb_le, Z.ltb_lt. done. Qed.

(** Every digit is the label of the same number of rows, at least five. *)
Definition balanced (labels : list Z) : Prop := exists n, 5 <= n /\ forall d, digit d -> count d labels = n.

Lemma unbalanced_spec labels : Forall digit labels -> unbalanced labels = false <-> balanced labels.
Proof.
  intros Hl. unfold unbalanced. rewrite bincount_below.
  2:{ eapply Forall_impl; [exact Hl|]. unfold digit. lia. }
  set (counts := _ <$> seq 0 CLASSES). cbv zeta.
  assert (Hc : forall d, digit d -> counts !! Z.to_nat d = Some (count d labels)).
  { intros d Hd. unfold counts. rewrite <- histogram_seq. by apply histogram_lookup. }
  assert (Hhead : head counts = Some (count 0 labels)) by done. rewrite Hhead. cbn [from_option id default].
  assert (Hall : forall n, n ∈ counts -> exists d, digit d /\ n = count d labels).
  { intros n (c & -> & Hc'%elem_of_seq)%list_elem_of_fmap. exists (Z.of_nat c). split; [unfold digit; lia|done]. }
  assert (Helem : forall d, digit d -> count d labels ∈ counts) by (intros d Hd; eapply list_elem_of_lookup_2; by apply Hc).
  assert (Hzero : digit 0) by (unfold digit, CLASSES; lia).
  rewrite orb_false_iff, negb_false_iff, forallb_forall. split.
  - intros [Hmin Heq]. exists (count 0 labels).
    assert (Hsame : forall d, digit d -> count d labels = count 0 labels).
    { intros d Hd. apply Z.eqb_eq, Heq, list_elem_of_In. by apply Helem. }
    split; [|done]. apply not_true_iff_false in Hmin. destruct (decide (5 <= count 0 labels)) as [|Hlt]; [done|].
    exfalso. apply Hmin, existsb_exists. exists (count 0 labels). split; [apply list_elem_of_In; by apply Helem|lia].
  - intros (n & Hn & Heq). split.
    + apply not_true_iff_false. intros (m & Hm%list_elem_of_In & Hlt)%existsb_exists.
      destruct (Hall m Hm) as (d & Hd & ->). rewrite Heq in Hlt by done. lia.
    + intros m Hm%list_elem_of_In. destruct (Hall m Hm) as (d & Hd & ->). by rewrite !Heq, Z.eqb_refl.
Qed.

(** What the checks demand of the rows of a dataset. *)
Record good_rows (features : list F) (labels : list Z) (inputs : list (list Z)) : Prop := {
  gr_digits : Forall (Forall digit) inputs;
  gr_inputs : NoDup inputs;
  gr_features : equal_lists features (float32 <$> concat (digit_histogram <$> inputs)) = true;
  gr_counts : NoDup (digit_histogram <$> inputs);
  gr_labels : Forall2 strictly_most labels inputs;
  gr_balanced : balanced labels;
}.

Lemma label_tests labels inputs : length labels = length inputs -> Forall (fun l => 0 <= l) labels ->
  existsb (fun row => (top2 row).1 =? (top2 row).2) (digit_histogram <$> inputs) = false /\
  (fun row => Z.of_nat (argmax row)) <$> (digit_histogram <$> inputs) = labels <-> Forall2 strictly_most labels inputs.
Proof.
  revert inputs. induction labels as [|l labels IH]; intros [|row inputs] Hl Hpos; simpl in Hl; try done.
  apply Forall_cons in Hpos as [Hp Hpos]. rewrite !fmap_cons. cbn [existsb]. rewrite orb_false_iff, Forall2_cons, Z.eqb_neq.
  rewrite <- (IH inputs) by (done || lia). rewrite <- strictly_most_test by done. split.
  - intros [[H1 H2] H3]. injection H3 as H3 H4. done.
  - intros [[H1 H2] [H3 H4]]. split; [done|]. by rewrite H2, H4.
Qed.

Lemma validate_rows_exact features labels inputs : length inputs = length labels ->
  Forall (fun row => Z.of_nat (length row) = INPUT_DIGITS) inputs -> Forall (Forall (fun d => 0 <= d)) inputs ->
  validate_rows features labels inputs = Ok tt <-> good_rows features labels inputs.
Proof.
  intros Hlen Hrow Hpos. unfold validate_rows. cbv zeta.
  assert (Hrows : Forall (fun h => length h = CLASSES /\ Forall small h) (digit_histogram <$> inputs)).
  { apply Forall_fmap. eapply Forall_impl; [exact Hrow|]. intros row Hr. split; [apply length_histogram|by apply histogram_small]. }
  assert (Hdistinct : equal_lists features (float32 <$> concat (digit_histogram <$> inputs)) = true ->
    distinct_rows (chunk_rows (length labels) CLASSES features) = true <-> NoDup (digit_histogram <$> inputs)).
  { intros He. apply distinct_rows_spec; [done|]. rewrite <- Hlen, <- (length_fmap digit_histogram).
    apply feature_rows; [|done]. eapply Forall_impl; [exact Hrows|]. by intros h [? _]. }
  split.
  - intros Hv. inv_res Hv. bool_prop.
    assert (Hdig : Forall (Forall digit) inputs).
    { apply Forall_forall. intros row Hr. apply Forall_forall. intros d Hd. rewrite Forall_forall in Hpos. specialize (Hpos row Hr).
      rewrite Forall_forall in Hpos. specialize (Hpos d Hd).
      match goal with Hf : forallb (forallb _) inputs = true |- _ => rewrite forallb_forall in Hf; specialize (Hf row) as Hf' end.
      apply list_elem_of_In in Hr, Hd. specialize (Hf' Hr). rewrite forallb_forall in Hf'. split; [done|]. by apply Z.ltb_lt, Hf'. }
    assert (Hexp : scatter_ones <$> inputs = digit_histogram <$> inputs).
    { apply list_fmap_ext. intros i row Hi%list_elem_of_lookup_2. rewrite Forall_forall in Hdig. by apply scatter_histogram, Hdig. }
    rewrite Hexp in *.
    assert (Hlab : Forall digit labels).
    { apply Forall_forall. intros l Hl. apply is_digit_spec.
      match goal with Hf : forallb is_digit labels = true |- _ => rewrite forallb_forall in Hf; apply Hf; by apply list_elem_of_In end. }
    split; try done; [by apply Hdistinct| |by apply unbalanced_spec].
    apply label_tests; [done|eapply Forall_impl; [exact Hlab|unfold digit; lia]|by split].
  - intros [H1 H2 H3 H4 H5 H6].
    assert (Hlab : Forall digit labels).
    { clear -H5. induction H5 as [|l row ls rs [Hl _] _ IH]; by constructor. }
    assert (Hexp : scatter_ones <$> inputs = digit_histogram <$> inputs).
    { apply list_fmap_ext. intros i row Hi%list_elem_of_lookup_2. rewrite Forall_forall in H1. by apply scatter_histogram, H1. }
    rewrite Hexp. apply label_tests in H5 as [Ha Hb]; [|done|eapply Forall_impl; [exact Hlab|unfold digit; lia]].
    rewrite Ha, (bool_decide_eq_true_2 _ Hb), (bool_decide_eq_true_2 _ H2), H3.
    rewrite (proj2 (Hdistinct H3) H4), (proj2 (unbalanced_spec labels Hlab) H6).
    assert (Hne : (length labels =? 0)%nat = false).
    { destruct labels; [|done]. destruct H6 as (n & Hn & Hc). specialize (Hc 0 ltac:(unfold digit, CLASSES; lia)). unfold count in Hc. simpl in Hc. lia. }
    assert (Hd1 : forallb (forallb (fun d => d <? Z.of_nat CLASSES)) inputs = true).
    { apply forallb_forall. intros row Hr%list_elem_of_In. rewrite Forall_forall in H1. specialize (H1 row Hr). rewrite Forall_forall in H1.
      apply forallb_forall. intros d Hd%list_elem_of_In. specialize (H1 d Hd). apply Z.ltb_lt, H1. }
    assert (Hd2 : forallb is_digit labels = true).
    { apply forallb_forall. intros l Hl%list_elem_of_In. rewrite Forall_forall in Hlab. by apply is_digit_spec, Hlab. }
    rewrite Hne, Hd1, Hd2. done.
Qed.
End exact.

(** ** A dataset is accepted exactly when it is what it claims to be *)

Lemma chunk_rows_shape {A} (P : A -> Prop) n w (data : list A) : length data = (n * w)%nat -> Forall P data ->
  length (chunk_rows n w data) = n /\ Forall (fun r => length r = w /\ Forall P r) (chunk_rows n w data).
Proof.
  revert data. induction n as [|n IH]; intros data Hl HP; [by split; [|constructor]|]. cbn [chunk_rows length].
  destruct (IH (drop w data)) as [H1 H2]; [rewrite length_drop; simpl in Hl; lia|by apply Forall_drop|].
  split; [by f_equal|]. constructor; [|done]. split; [rewrite length_take; simpl in Hl; lia|by apply Forall_take].
Qed.

(** The format, the types and the shapes. *)
Record well_typed {F} (d : Dataset F) (f : FTensor F) (l i : tensor) : Prop := {
  wt_format : ds_format d = Some 1 /\ ds_feature_names d = Some FEATURE_NAMES;
  wt_types : ft_float32 f = true /\ t_dtype l = int64 /\ t_dtype i = uint8;
  wt_shapes : length (t_shape l) = 1%nat /\ ft_shape f = [numel l; CLASSES] /\ t_shape i = [numel l; Z.to_nat INPUT_DIGITS];
}.

Lemma validate_dataset_exact {F : Type} `{FloatLaws F} (d : Dataset F) (f : FTensor F) (l i : tensor)
  (Hf : ds_features d = Some f) (Hl : ds_labels d = Some l) (Hi : ds_inputs d = Some i)
  (Hlok : tensor_ok l) (Hiok : tensor_ok i) :
  (exists r, validate_dataset d = Ok r) <->
  well_typed d f l i /\
  good_rows (ft_data f) (t_data l) (chunk_rows (numel l) (Z.to_nat INPUT_DIGITS) (t_data i)).
Proof.
  unfold validate_dataset. rewrite Hf, Hl, Hi. cbv zeta. destruct Hlok as [Hll _]. destruct Hiok as [Hil Hie].
  assert (Hexact : well_typed d f l i ->
    validate_rows (ft_data f) (t_data l) (chunk_rows (numel l) (Z.to_nat INPUT_DIGITS) (t_data i)) = Ok tt <->
    good_rows (ft_data f) (t_data l) (chunk_rows (numel l) (Z.to_nat INPUT_DIGITS) (t_data i))).
  { intros [_ (_ & _ & Hu) (_ & _ & Hs)]. destruct (chunk_rows_shape (fun z => 0 <= z) (numel l) (Z.to_nat INPUT_DIGITS) (t_data i)) as [H1 H2].
    - rewrite Hil. unfold numel at 1. rewrite Hs. unfold shape_numel. cbn [foldr]. by rewrite Nat.mul_1_r.
    - eapply Forall_impl; [exact Hie|]. rewrite Hu. unfold elem_ok, uint. lia.
    - apply validate_rows_exact; [by rewrite H1, Hll|..]; (eapply Forall_impl; [exact H2|]); intros r [Hr1 Hr2]; [|done].
      rewrite Hr1. done. }
  split.
  - intros [r Hr]. inv_res Hr. bool_prop. destruct v as [].
    assert (Hwt : well_typed d f l i) by (by repeat split). split; [done|]. by apply Hexact.
  - intros [Hwt Hgood]. rewrite (proj2 (Hexact Hwt) Hgood).
    destruct Hwt as [(W1 & W2) (W3 & W4 & W5) (W6 & W7 & W8)].
    rewrite W3, W6, (bool_decide_eq_true_2 _ W1), (bool_decide_eq_true_2 _ W2), (bool_decide_eq_true_2 _ W4),
      (bool_decide_eq_true_2 _ W5), (bool_decide_eq_true_2 _ W7), (bool_decide_eq_true_2 _ W8). by eexists.
Qed.

(** C31: validation accepts exactly the sound datasets. A dataset of three tensors is accepted if and
    only if its format, types and shapes are the documented ones, the inputs are distinct
    rows of digits, the features of each row are its digit counts, no two rows have the same
    counts, each label is the strictly most frequent digit of its input, and every digit
    labels the same number of rows, at least five. *)
Theorem dataset_accepted_exactly {F : Type} `{FloatLaws F} (d : Dataset F) (f : FTensor F) (l i : tensor)
  (Hf : ds_features d = Some f) (Hl : ds_labels d = Some l) (Hi : ds_inputs d = Some i)
  (Hlok : tensor_ok l) (Hiok : tensor_ok i) :
  (exists r, validate_dataset d = Ok r) <->
  well_typed d f l i /\
  good_rows (ft_data f) (t_data l) (chunk_rows (numel l) (Z.to_nat INPUT_DIGITS) (t_data i)).
Proof. exact (validate_dataset_exact d f l i Hf Hl Hi Hlok Hiok). Qed.

(** ** The split *)

Lemma filter_iff_elem {A} (P Q : A -> Prop) `{forall a, Decision (P a)} `{forall a, Decision (Q a)} (l : list A) :
  (forall a, a ∈ l -> P a <-> Q a) -> filter P l = filter Q l.
Proof.
  induction l as [|a l IH]; intros Hl; [done|]. rewrite !filter_cons. rewrite IH by (intros b Hb; apply Hl; by right).
  pose proof (Hl a ltac:(left)). repeat case_decide; tauto || done.
Qed.
Lemma by_class {A C} `{EqDecision C} (key : A -> C) (classes : list C) : NoDup classes -> forall l, (forall x, x ∈ l -> key x ∈ classes) ->
  concat ((fun c => filter (fun x => key x = c) l) <$> classes) ≡ₚ l.
Proof.
  induction 1 as [|c classes Hc _ IH]; intros l Hl.
  - destruct l as [|x l]; [done|]. specialize (Hl x ltac:(left)). by apply elem_of_nil in Hl.
  - cbn [fmap list_fmap concat]. etrans; [|apply (filter_app_complement (fun x => key x = c))].
    apply Permutation_app_head. rewrite <- (IH (filter (fun x => ~ key x = c) l)).
    + enough (Heq : (fun c => filter (fun x => key x = c) l) <$> classes =
        (fun c0 => filter (fun x => key x = c0) (filter (fun x => ~ key x = c) l)) <$> classes) by (by rewrite Heq).
      apply list_fmap_ext. intros i c' Hc'%list_elem_of_lookup_2. rewrite list_filter_filter.
      apply list_filter_iff. intros x. split; [intros <-; split; [done|congruence]|by intros [? _]].
    + intros x [Hx Hin]%list_elem_of_filter. specialize (Hl x Hin). apply elem_of_cons in Hl as [?|?]; done.
Qed.

Lemma permuted_rows {A} (x : A) (l : list A) order : order ≡ₚ seq 0 (length l) -> (fun i => default x (l !! i)) <$> order ≡ₚ l.
Proof.
  intros Ho. rewrite Ho. enough (Heq : (fun i => default x (l !! i)) <$> seq 0 (length l) = id <$> l) by (by rewrite Heq, list_fmap_id).
  apply fmap_seq_lookup. intros i a Ha. by rewrite Ha.
Qed.

Section splits.
Context {G : Type} `{PermLaws G} (labels : list Z).

Lemma length_where label : Z.of_nat (length (where_equal labels label)) = count label labels.
Proof.
  unfold where_equal, count. f_equal. induction labels as [|x l IH] using rev_ind; [done|].
  rewrite length_app, Nat.add_comm. cbn [length plus]. rewrite seq_S, !filter_app, !length_app. f_equal.
  - rewrite <- IH. apply length_filter_iff. intros i [_ Hi]%elem_of_seq. by rewrite lookup_app_l by lia.
  - rewrite !filter_cons, list_lookup_middle by done. repeat case_decide; simplify_eq; done.
Qed.

Lemma split_class_ok label g : let '(train, test, g') := split_class labels label g in
  test ++ train ≡ₚ where_equal labels (Z.of_nat label) /\
  length test = Nat.min (Nat.max 1 (Z.to_nat (count (Z.of_nat label) labels) / 5)) (Z.to_nat (count (Z.of_nat label) labels)).
Proof.
  unfold split_class. pose proof (randperm_perm (length (where_equal labels (Z.of_nat label))) g) as Hp.
  destruct (randperm _ g) as [order g']. simpl in Hp.
  pose proof (permuted_rows 0%nat (where_equal labels (Z.of_nat label)) order Hp) as Hperm.
  split; [by rewrite take_drop|]. rewrite length_take.
  rewrite (Permutation_length Hperm). by rewrite <- length_where, Nat2Z.id.
Qed.

Lemma split_classes_perm classes : forall g, let '(train, test) := split_classes labels classes g in
  train ++ test ≡ₚ concat ((fun c => where_equal labels (Z.of_nat c)) <$> classes).
Proof.
  induction classes as [|c classes IH]; intros g; [constructor|]. cbn [split_classes fmap list_fmap concat].
  pose proof (split_class_ok c g) as Hc. destruct (split_class labels c g) as [[train test] g'].
  specialize (IH g'). destruct (split_classes labels classes g') as [trains tests]. destruct Hc as [Hc _].
  rewrite <- Hc, <- IH. solve_Permutation.
Qed.

Definition class_of (i : nat) : option Z := labels !! i.
Lemma where_class label i : i ∈ where_equal labels label -> class_of i = Some label.
Proof. intros [Hi _]%list_elem_of_filter. done. Qed.

Lemma filter_class (l : list nat) d : (forall i, i ∈ l -> class_of i = Some d) -> filter (fun i => class_of i = Some d) l = l.
Proof.
  induction l as [|i l IH]; intros Hl; [done|]. rewrite filter_cons_True by (apply Hl; left). f_equal. apply IH. intros j Hj. apply Hl. by right.
Qed.
Lemma filter_no_class (l : list nat) c d : c <> d -> (forall i, i ∈ l -> class_of i = Some c) -> filter (fun i => class_of i = Some d) l = [].
Proof.
  intros Hne. induction l as [|i l IH]; intros Hl; [done|]. rewrite filter_cons_False.
  - apply IH. intros j Hj. apply Hl. by right.
  - rewrite (Hl i) by left. congruence.
Qed.

Lemma split_classes_tests classes d : NoDup classes -> forall g, let '(train, test) := split_classes labels classes g in
  length (filter (fun i => class_of i = Some (Z.of_nat d)) test) =
  if decide (d ∈ classes) then Nat.min (Nat.max 1 (Z.to_nat (count (Z.of_nat d) labels) / 5)) (Z.to_nat (count (Z.of_nat d) labels)) else 0%nat.
Proof.
  induction 1 as [|c classes Hc _ IH]; intros g; [done|]. cbn [split_classes].
  pose proof (split_class_ok c g) as Hs. destruct (split_class labels c g) as [[train test] g'].
  specialize (IH g'). destruct (split_classes labels classes g') as [trains tests]. destruct Hs as [Hperm Hlen].
  assert (Hcls : forall i, i ∈ test -> class_of i = Some (Z.of_nat c)).
  { intros i Hi. apply where_class. rewrite <- Hperm. apply elem_of_app. by left. }
  rewrite filter_app, length_app, IH. destruct (decide (c = d)) as [->|Hne].
  - rewrite filter_class by done. rewrite Hlen, (decide_False (P := d ∈ classes)) by done. rewrite decide_True by left. lia.
  - rewrite (filter_no_class test (Z.of_nat c)) by (done || lia). cbn [length plus].
    repeat case_decide; try done; exfalso; set_solver.
Qed.
End splits.

(** The held-out split is exact and leaks nothing. For the labels of an accepted dataset and every
    permutation the generator draws: each row is in exactly one of the two parts; of every class exactly one
    fifth of the rows, rounded down, is held out; and no row held out shares its input or
    its count vector with a training row. *)
Theorem split_keeps_apart {F G : Type} `{FloatLaws F} `{PermLaws G} (features : list F) (labels : list Z) (inputs : list (list Z)) (seed : Z)
  (Hgood : good_rows features labels inputs) :
  let '(train, test) := split_indices labels seed in
  train ++ test ≡ₚ seq 0 (length labels) /\
  (forall d, digit d -> Z.of_nat (length (filter (fun i => labels !! i = Some d) test)) = count d labels / 5) /\
  (forall i j, i ∈ train -> j ∈ test -> inputs !! i <> inputs !! j /\
    (digit_histogram <$> inputs) !! i <> (digit_histogram <$> inputs) !! j).
Proof.
  destruct Hgood as [_ Hin _ Hcounts Hlab (n & Hn & Hbal)]. pose proof (Forall2_length _ _ _ Hlab) as Hlen.
  unfold split_indices. pose proof (split_classes_perm labels (seq 0 CLASSES) (seeded seed)) as Hperm.
  pose proof (fun d => split_classes_tests labels (seq 0 CLASSES) d (NoDup_seq _ _) (seeded seed)) as Htests.
  destruct (split_classes labels (seq 0 CLASSES) (seeded seed)) as [train test].
  assert (Hall : train ++ test ≡ₚ seq 0 (length labels)).
  { rewrite Hperm. unfold where_equal. etrans; [|apply (by_class (fun i => Z.to_nat (default 0 (labels !! i))) (seq 0 CLASSES)); [apply NoDup_seq|]].
    - enough (Heq : (fun c => filter (fun i => labels !! i = Some (Z.of_nat c)) (seq 0 (length labels))) <$> seq 0 CLASSES =
        (fun c => filter (fun i => Z.to_nat (default 0 (labels !! i)) = c) (seq 0 (length labels))) <$> seq 0 CLASSES) by (by rewrite Heq).
      apply list_fmap_ext. intros k c _. apply filter_iff_elem. intros i [_ Hi]%elem_of_seq.
      destruct (lookup_lt_is_Some_2 labels i) as [l Hl]; [lia|]. rewrite Hl. simpl.
      destruct (Forall2_lookup_l _ _ _ _ _ Hlab Hl) as (row & _ & [Hd _]). unfold digit in Hd. split; [intros [= ->]; lia|intros <-; f_equal; lia].
    - intros i [_ Hi]%elem_of_seq. destruct (lookup_lt_is_Some_2 labels i) as [l Hl]; [lia|]. rewrite Hl. cbn [from_option id].
      destruct (Forall2_lookup_l _ _ _ _ _ Hlab Hl) as (row & _ & [Hd _]). unfold digit in Hd. apply elem_of_seq. lia. }
  assert (Hapart : forall i j, i ∈ train -> j ∈ test -> i <> j /\ (i < length inputs)%nat /\ (j < length inputs)%nat).
  { intros i j Hi Hj. pose proof (NoDup_seq 0 (length labels)) as Hnd. rewrite <- Hall in Hnd. apply NoDup_app in Hnd as (_ & Hd & _).
    split; [intros <-; by apply (Hd i)|]. rewrite <- Hlen.
    assert (Hi' : i ∈ seq 0 (length labels)) by (rewrite <- Hall; apply elem_of_app; by left).
    assert (Hj' : j ∈ seq 0 (length labels)) by (rewrite <- Hall; apply elem_of_app; by right).
    apply elem_of_seq in Hi', Hj'. lia. }
  split_and!; [done| |].
  - intros d Hd. specialize (Htests (Z.to_nat d)). rewrite Z2Nat.id in Htests by (unfold digit in Hd; lia). unfold class_of in Htests.
    rewrite Htests, decide_True by (apply elem_of_seq; unfold digit in Hd; lia). rewrite (Hbal d Hd).
    assert (Hdiv : (Z.to_nat n / 5 = Z.to_nat (n / 5))%nat) by (rewrite Z2Nat.inj_div by lia; done). rewrite Hdiv.
    assert (1 <= n / 5 <= n) by (split; [apply Z.div_le_lower_bound; lia|apply Z.div_le_upper_bound; lia]). lia.
  - intros i j Hi Hj. destruct (Hapart i j Hi Hj) as (Hne & Hli & Hlj). split; intros Heq; apply Hne.
    + destruct (lookup_lt_is_Some_2 inputs i Hli) as [r Hr]. eapply (NoDup_lookup _ _ _ r Hin); congruence.
    + destruct (lookup_lt_is_Some_2 (digit_histogram <$> inputs) i) as [r Hr]; [by rewrite length_fmap|].
      eapply (NoDup_lookup _ _ _ r Hcounts); congruence.
Qed.

(** ** Generated inputs *)

Lemma count_perm v l1 l2 : l1 ≡ₚ l2 -> count v l1 = count v l2.
Proof. intros Hp. unfold count. by rewrite Hp. Qed.
Lemma count_replicate v n : count v (replicate n v) = Z.of_nat n.
Proof. induction n as [|n IH]; [done|]. cbn [replicate]. rewrite count_cons, IH, decide_True by done. lia. Qed.

Section generated.
Context {G : Type} `{DrawLaws G}.

Record made_ok (m : Made) : Prop := {
  mo_seen : mk_seen m ≡ₚ mk_rows m;
  mo_counts : mk_counts m ≡ₚ digit_histogram <$> mk_rows m;
  mo_rows : NoDup (mk_rows m);
  mo_distinct : NoDup (digit_histogram <$> mk_rows m);
  mo_labels : Forall2 strictly_most (mk_labels m) (mk_rows m);
  mo_digits : Forall (fun row => Z.of_nat (length row) = INPUT_DIGITS /\ Forall digit row) (mk_rows m);
}.

Lemma others_spec label d : d ∈ others label <-> digit d /\ d <> label.
Proof.
  unfold others, arange, digit. rewrite list_elem_of_filter, list_elem_of_fmap. split.
  - intros [Hne (i & -> & Hi%elem_of_seq)]. split; [lia|done].
  - intros [Hd Hne]. split; [done|]. exists (Z.to_nat d). split; [lia|]. apply elem_of_seq. lia.
Qed.
Lemma others_nonempty label : others label <> [].
Proof.
  intros Hnil. destruct (decide (label = 0)) as [->|Hne].
  - assert (Hin : 1 ∈ others 0) by (apply others_spec; unfold digit, CLASSES; lia). rewrite Hnil in Hin. by apply elem_of_nil in Hin.
  - assert (Hin : 0 ∈ others label) by (apply others_spec; unfold digit, CLASSES; lia). rewrite Hnil in Hin. by apply elem_of_nil in Hin.
Qed.

Lemma draw_row_ok label g : digit label -> let '(c, row, g') := draw_row label g in
  Z.of_nat (length row) = INPUT_DIGITS /\ Forall digit row /\ count label row = c.
Proof.
  intros Hl. unfold draw_row. pose proof (randint_range 6 10 g ltac:(lia)) as Hc. destruct (randint_ 6 10 g) as [c g1]. simpl in Hc.
  pose proof (choices_length (others label) (Z.to_nat (INPUT_DIGITS - c)) g1) as Hn.
  pose proof (choices_members (others label) (Z.to_nat (INPUT_DIGITS - c)) g1 (others_nonempty label)) as Hm.
  destruct (choices _ _ g1) as [rest g2]. cbn [fst] in Hn, Hm.
  pose proof (shuffle_perm_ (replicate (Z.to_nat c) label ++ rest) g2) as Hp. destruct (shuffle_ _ g2) as [row g3]. cbn [fst] in Hp.
  split_and!.
  - rewrite Hp, length_app, length_replicate, Hn. unfold INPUT_DIGITS. lia.
  - rewrite Hp. apply Forall_app. split; [by apply Forall_replicate|]. eapply Forall_impl; [exact Hm|].
    by intros d [Hd _]%others_spec.
  - rewrite (count_perm _ _ _ Hp), count_append, count_replicate, count_zero; [lia|].
    intros x Hx. rewrite Forall_forall in Hm. specialize (Hm x Hx). apply others_spec in Hm. tauto.
Qed.

Lemma try_rows_ok attempts label m : digit label -> made_ok m -> forall g m' g', try_rows attempts label m g = Some (m', g') ->
  made_ok m' /\ mk_labels m' = mk_labels m ++ [label].
Proof.
  intros Hl [H1 H2 H3 H4 H5 H6]. induction attempts as [|attempts IH]; intros g m' g'; cbn [try_rows]; [done|].
  pose proof (draw_row_ok label g Hl) as Hd. destruct (draw_row label g) as [[c row] g1]. destruct Hd as (D1 & D2 & D3).
  destruct (acceptable label c row m) eqn:Ha; [|apply IH]. intros [= <- <-]. unfold acceptable in Ha. bool_prop.
  change (counts_of row) with (digit_histogram row) in *. rewrite H1, H2 in *.
  split; [|done]. split; cbn [mk_rows mk_labels mk_seen mk_counts].
  - rewrite H1. solve_Permutation.
  - rewrite fmap_app, H2. cbn. solve_Permutation.
  - apply NoDup_app. split_and!; [done| |apply NoDup_singleton]. intros r Hr ->%list_elem_of_singleton. done.
  - rewrite fmap_app. apply NoDup_app. split_and!; [done| |apply NoDup_singleton]. intros r Hr ->%list_elem_of_singleton. done.
  - apply Forall2_app; [done|]. constructor; [|constructor]. split; [done|]. intros d Hd Hne. rewrite D3.
    match goal with Hf : forallb _ (others label) = true |- _ => rewrite forallb_forall in Hf; specialize (Hf d) end.
    rewrite histogram_lookup in * by done. apply Z.ltb_lt. match goal with Hf : In d _ -> _ |- _ => apply Hf end.
    apply list_elem_of_In, others_spec. done.
  - apply Forall_app. split; [done|]. by repeat constructor.
Qed.

Lemma make_class_ok attempts label n : digit label -> forall m g m' g', made_ok m -> make_class attempts label n m g = Some (m', g') ->
  made_ok m' /\ mk_labels m' = mk_labels m ++ replicate n label.
Proof.
  intros Hl. induction n as [|n IH]; intros m g m' g' Hm; cbn [make_class].
  - intros [= <- <-]. by rewrite app_nil_r.
  - destruct (try_rows attempts label m g) as [[m1 g1]|] eqn:Ht; [|done]. cbn [mbind option_bind].
    destruct (try_rows_ok _ _ _ Hl Hm _ _ _ Ht) as [Hm1 Hl1]. intros Hc. destruct (IH _ _ _ _ Hm1 Hc) as [Hm' Hl'].
    split; [done|]. rewrite Hl', Hl1, <- app_assoc. done.
Qed.
Lemma make_classes_ok attempts n classes : Forall digit classes -> forall m g m' g', made_ok m ->
  make_classes attempts n classes m g = Some (m', g') ->
  made_ok m' /\ mk_labels m' = mk_labels m ++ concat (replicate n <$> classes).
Proof.
  induction 1 as [|label classes Hl _ IH]; intros m g m' g' Hm; cbn [make_classes].
  - intros [= <- <-]. by rewrite app_nil_r.
  - destruct (make_class attempts label n m g) as [[m1 g1]|] eqn:Ht; [|done]. cbn [mbind option_bind].
    destruct (make_class_ok _ _ _ Hl _ _ _ _ Hm Ht) as [Hm1 Hl1]. intros Hc. destruct (IH _ _ _ _ Hm1 Hc) as [Hm' Hl'].
    split; [done|]. rewrite Hl', Hl1, <- app_assoc. done.
Qed.

Lemma count_classes d n (classes : list Z) : NoDup classes ->
  count d (concat (replicate n <$> classes)) = if decide (d ∈ classes) then Z.of_nat n else 0.
Proof.
  induction 1 as [|c classes Hc _ IH]; [done|]. cbn [fmap list_fmap concat]. rewrite count_append, IH.
  destruct (decide (c = d)) as [->|Hne].
  - rewrite count_replicate, decide_False by done. rewrite decide_True by left. lia.
  - rewrite count_zero by (intros x [-> _]%elem_of_replicate; done). repeat case_decide; try lia; exfalso; set_solver.
Qed.
End generated.

Lemma Ok_inj {E A} (a b : A) : @Ok E A a = Ok b -> a = b.
Proof. by intros [= ->]. Qed.
Lemma length_classes n (classes : list Z) : length (concat (replicate n <$> classes)) = (length classes * n)%nat.
Proof. induction classes as [|c l IH]; [done|]. cbn [fmap list_fmap concat length]. rewrite length_app, length_replicate, IH. lia. Qed.

(** The generator makes datasets that validation accepts. Whatever is drawn, if [make_inputs] returns then it
    returns [per_class] inputs of sixteen digits for each of the ten labels, and the dataset of
    these inputs with their true digit counts as features satisfies every check: so a
    captured dataset of these inputs can only be refused for wrong counts. *)
Theorem made_inputs_accepted {F G : Type} `{FloatLaws F} `{DrawLaws G} (attempts : nat) (per_class seed : Z)
  (rows : list (list Z)) (labels : list Z) (Hmake : make_inputs attempts per_class seed = Ok (Some (rows, labels))) :
  length labels = (CLASSES * Z.to_nat per_class)%nat /\
  Forall (fun row => Z.of_nat (length row) = INPUT_DIGITS) rows /\
  good_rows (float32 <$> concat (digit_histogram <$> rows)) labels rows.
Proof.
  unfold make_inputs in Hmake. destruct (per_class <? 5) eqn:Hp; [done|]. bool_prop. apply Ok_inj in Hmake.
  destruct (make_classes _ _ _ _ _) as [[m g]|] eqn:Hm; [|done]. cbn [mbind option_bind] in Hmake.
  pose proof (shuffle_perm_ (seq 0 (length (mk_rows m))) g) as Horder. set (order := (shuffle_ _ g).1) in *. injection Hmake as <- <-.
  assert (Hinit : made_ok (MkMade [] [] [] [])) by (split; cbn; try constructor).
  destruct (make_classes_ok attempts (Z.to_nat per_class) (arange CLASSES)) with (3 := Hm) as [[M1 M2 M3 M4 M5 M6] Hlab]; [|done|].
  { apply Forall_fmap, Forall_forall. intros i Hi%elem_of_seq. unfold compose, digit. lia. }
  cbn [mk_labels app] in Hlab. pose proof (Forall2_length _ _ _ M5) as Hlen.
  set (rows := (fun i => default [] (mk_rows m !! i)) <$> order). set (labels := (fun i => default 0 (mk_labels m !! i)) <$> order).
  assert (Hrows : rows ≡ₚ mk_rows m) by (by apply permuted_rows).
  assert (Hlabels : labels ≡ₚ mk_labels m) by (apply permuted_rows; by rewrite Hlen).
  assert (Hhist : digit_histogram <$> rows ≡ₚ digit_histogram <$> mk_rows m) by (by rewrite Hrows).
  assert (Hsmall : Forall (fun row => Z.of_nat (length row) = INPUT_DIGITS) rows).
  { rewrite Hrows. eapply Forall_impl; [exact M6|]. by intros row [? _]. }
  split_and!; [|done|split].
  - rewrite Hlabels, Hlab, length_classes. done.
  - rewrite Hrows. eapply Forall_impl; [exact M6|]. by intros row [_ ?].
  - by rewrite Hrows.
  - apply equal_lists_spec. apply Forall2_fmap, Forall_Forall2_diag, Forall_forall. intros n Hn.
    apply elem_of_concat in Hn as (h & Hh & Hn). apply list_elem_of_fmap in Hh as (row & -> & Hrow).
    rewrite Forall_forall in Hsmall. pose proof (histogram_small row (Hsmall row Hrow)) as Hs. rewrite Forall_forall in Hs.
    rewrite feqb_float32 by (by apply Hs). apply Z.eqb_refl.
  - by rewrite Hhist.
  - apply Forall2_fmap_2, Forall_Forall2_diag, Forall_forall. intros i Hi. rewrite Horder in Hi. apply elem_of_seq in Hi.
    destruct (lookup_lt_is_Some_2 (mk_rows m) i) as [row Hrow]; [lia|]. rewrite Hrow.
    destruct (Forall2_lookup_r _ _ _ _ _ M5 Hrow) as (l & Hl & Hmost). by rewrite Hl.
  - exists per_class. split; [lia|]. intros d Hd. rewrite (count_perm _ _ _ Hlabels), Hlab, count_classes.
    + rewrite decide_True; [lia|]. apply list_elem_of_fmap. exists (Z.to_nat d). unfold digit in Hd. split; [lia|]. apply elem_of_seq. lia.
    + apply NoDup_fmap_2; [|apply NoDup_seq]. intros x y. lia.
Qed.

(** ** Witnesses *)

#[global] Instance exact_floats : FloatOps Z := { feqb := Z.eqb; float32 n := n }.
#[global] Instance exact_floats_laws : FloatLaws Z.
Proof. split; [|done]. intros x y z. simpl. rewrite !Z.eqb_eq. congruence. Defined.

#[global] Instance in_order_perm : PermOps unit := { seeded _ := tt; randperm n _ := (seq 0 n, tt) }.
#[global] Instance in_order_perm_laws : PermLaws unit.
Proof. by split. Defined.

(** Draws that count up: the most dominant digit, and two others in changing proportion. *)
#[global] Instance counting_draws : DrawOps nat := {
  Random_ _ := 0%nat;
  randint_ _ b g := (b, g);
  choices l n g :=
    let k := Nat.min n (g mod 7) in
    let x := default 0 (l !! 0%nat) in
    (replicate k x ++ replicate (n - k) (default x (l !! 1%nat)), S g);
  shuffle_ _ l g := (l, g);
}.
#[global] Instance counting_draws_laws : DrawLaws nat.
Proof.
  split.
  - intros a b g Hab. simpl. lia.
  - intros l n g. cbn [choices counting_draws fst]. rewrite length_app, !length_replicate. lia.
  - intros l n g Hl. cbn [choices counting_draws fst]. destruct l as [|x l]; [done|].
    apply Forall_app. split; apply Forall_replicate; [left|]. destruct l as [|y l]; [left|right; left].
  - done.
Defined.

Definition made : list (list Z) * list Z :=
  match make_inputs 1 5 0 with Ok (Some p) => p | _ => ([], []) end.
Definition made_labels : tensor := Tensor int64 cpu [50%nat] made.2.
Definition made_inputs : tensor := Tensor uint8 cpu [50%nat; 16%nat] (concat made.1).
Definition made_features : FTensor Z := MkFTensor true [50%nat; 10%nat] (concat (digit_histogram <$> made.1)).
Definition made_dataset : Dataset Z :=
  MkDataset (Some 1) (Some FEATURE_NAMES) (Some made_features) (Some made_labels) (Some made_inputs).

Lemma made_inputs_accepted_witness :
  make_inputs 1 5 0 = Ok (Some (made.1, made.2)) /\ length made.2 = 50%nat /\
  good_rows (F := Z) (float32 <$> concat (digit_histogram <$> made.1)) made.2 made.1.
Proof.
  assert (Hmake : make_inputs 1 5 0 = Ok (Some (made.1, made.2))) by (vm_compute; reflexivity).
  split; [exact Hmake|].
  destruct (made_inputs_accepted (F := Z) 1 5 0 made.1 made.2 Hmake) as (H1 & _ & H3).
  split; [exact H1|exact H3].
Defined.

Lemma made_tensors_ok : tensor_ok made_labels /\ tensor_ok made_inputs.
Proof.
  assert (Hl : forallb (fun z => (- 2 ^ 63 <=? z) && (z <? 2 ^ 63)) (t_data made_labels) = true) by (vm_compute; reflexivity).
  assert (Hi : forallb (fun z => (0 <=? z) && (z <? 2 ^ 8)) (t_data made_inputs) = true) by (vm_compute; reflexivity).
  rewrite forallb_forall in Hl, Hi. split; (split; [vm_compute; reflexivity|]); apply Forall_forall; intros z Hz%list_elem_of_In.
  - specialize (Hl z Hz). bool_prop. simpl. unfold sint. change (64 - 1) with 63. lia.
  - specialize (Hi z Hz). bool_prop. simpl. unfold uint. lia.
Qed.

Lemma dataset_accepted_exactly_witness :
  is_ok (validate_dataset made_dataset) = true /\
  good_rows (F := Z) (ft_data made_features) (t_data made_labels)
    (chunk_rows (numel made_labels) (Z.to_nat INPUT_DIGITS) (t_data made_inputs)).
Proof.
  assert (Hok : is_ok (validate_dataset made_dataset) = true) by (vm_compute; reflexivity).
  split; [exact Hok|]. destruct made_tensors_ok as [Hl Hi].
  pose proof (dataset_accepted_exactly made_dataset made_features made_labels made_inputs eq_refl eq_refl eq_refl Hl Hi) as [H _].
  destruct (validate_dataset made_dataset) as [r|e]; [|discriminate Hok].
  destruct (H (ex_intro _ r eq_refl)) as [_ Hgood]. exact Hgood.
Defined.

Lemma split_keeps_apart_witness :
  let '(train, test) := split_indices made.2 0 in
  length train = 40%nat /\ length test = 10%nat /\ forall i j, i ∈ train -> j ∈ test -> made.1 !! i <> made.1 !! j.
Proof.
  assert (Hgood : good_rows (F := Z) (float32 <$> concat (digit_histogram <$> made.1)) made.2 made.1).
  { apply validate_rows_exact; [vm_compute; reflexivity|..|vm_compute; reflexivity].
    - assert (Hl : forallb (fun row => Z.of_nat (length row) =? INPUT_DIGITS) made.1 = true) by (vm_compute; reflexivity).
      rewrite forallb_forall in Hl. apply Forall_forall. intros row Hr%list_elem_of_In. by apply Z.eqb_eq, Hl.
    - assert (Hd : forallb (forallb (fun d => 0 <=? d)) made.1 = true) by (vm_compute; reflexivity).
      rewrite forallb_forall in Hd. apply Forall_forall. intros row Hr%list_elem_of_In. specialize (Hd row Hr).
      rewrite forallb_forall in Hd. apply Forall_forall. intros d Hx%list_elem_of_In. by apply Z.leb_le, Hd. }
  pose proof (split_keeps_apart (G := unit) _ _ _ 0 Hgood) as Hsplit. revert Hsplit.
  assert (Hs : exists train test, split_indices made.2 0 = (train, test) /\ length train = 40%nat /\ length test = 10%nat).
  { eexists _, _. vm_compute. done. }
  destruct Hs as (train & test & -> & H1 & H2). intros (_ & _ & H3). split_and!; [exact H1|exact H2|].
  intros i j Hi Hj. exact (proj1 (H3 i j Hi Hj)).
Defined.
