(* ===== verification/DigitCollect.v ===== *)
(** * Collecting a digit dataset ([examples/learn_trace.py]: [collect], [save_dataset])

    One run of the target over a manifest of inputs, reduced to counts and saved
    only if it validates: the counts between the markers of the trace are then those
    of the manifest's inputs, in order. *)

From Stdlib Require Import Ascii.
From S2P Require Import Prelude Batch Floats Features TraceSketch FloatExact SketchTorch SketchExact SketchNative SketchChecks DigitCounts DigitDataset.

Section collecting.
Context {F : Type} `{FloatOps F}.

(** [int(digit)] of one ASCII character. *)
Definition int_char (c : ascii) : result Z :=
  let n := Z.of_nat (nat_of_ascii c) in
  if (48 <=? n) && (n <=? 57) then Ok (n - 48)
  else throw ValueError ("invalid literal for int() with base 10: '" +:+ String c EmptyString +:+ "'").

(** [torch.tensor(rows, dtype=torch.uint8)]: the rows have one length. *)
Definition uint8_rows (rows : list (list Z)) : result tensor :=
  match rows with
  | [] => Ok (Tensor uint8 cpu [0%nat] [])
  | row :: _ =>
      raise! ValueError "expected sequence of equal lengths" when negb (forallb (fun r => length r =? length row)%nat rows) in
      Ok (Tensor uint8 cpu [length rows; length row] (concat rows))
  end.

Definition save_dataset (features : FTensor F) (labels inputs : tensor) : result (Dataset F) :=
  let dataset := MkDataset (Some 1) (Some FEATURE_NAMES) (Some features) (Some labels) (Some inputs) in
  let! _ := validate_dataset dataset in
  Ok dataset.

(** [symbols[name]] *)
Definition symbol_at (found : symbols) (name : string) : result Z :=
  match od_get name found with Some a => Ok a | None => throw KeyError name end.

(** The manifest holds the inputs and their labels; [batches] is what the pool yields. *)
Definition collect (manifest : list (string * Z)) (found : symbols) (batches : list Batch) : result (Dataset F) :=
  raise! ValueError "The observation target needs a sample_end code symbol" when negb (is_some (od_get "sample_end" found)) in
  let! rows := rmap (fun row => rmap int_char (String.list_ascii_of_string row.1)) manifest in
  let! inputs := uint8_rows rows in
  let! labels := int64_tensor manifest.*2 in
  let! addresses := rmap (symbol_at found) FEATURE_NAMES in
  let! sample_end := symbol_at found "sample_end" in
  let! features := count_samples float32 batches addresses sample_end in
  save_dataset (MkFTensor true [length features; CLASSES] (concat features)) (Tensor int64 cpu [length labels] labels) inputs.
End collecting.

(** ** What was collected *)

Lemma count_samples_source entries bs : forall st st', rfold (count_samples_step entries) st bs = Ok st' ->
  rfold track_source (sa_source st) bs = Ok (sa_source st').
Proof.
  induction bs as [|b bs IH]; intros st st'; cbn [rfold]; [by intros [= <-]|]. unfold count_samples_step at 1.
  destruct (track_source (sa_source st) b) as [src|]; [|done]. cbn [rbind].
  destruct (numel (addresses b) =? 0)%nat; [apply IH|]. cbv zeta. destruct (length _ =? 0)%nat; [apply IH|].
  destruct (negb _ && _); [done|]. apply IH.
Qed.

Lemma int64_tensor_Ok l r : int64_tensor l = Ok r -> r = l /\ Forall (sint 64) l.
Proof.
  unfold int64_tensor. destruct (forallb _ l) eqn:Hl; [|done]. intros [= <-]. split; [done|]. rewrite forallb_forall in Hl.
  apply Forall_forall. intros v Hv%list_elem_of_In. specialize (Hl v Hv). bool_prop. unfold sint. change (64 - 1) with 63. lia.
Qed.

(** A count that was returned is the count of the whole trace. *)
Lemma count_samples_whole {F} (fl : Z -> F) bs entries marker r :
  Forall (fun b => length (t_data (addresses b)) = numel (addresses b)) bs ->
  count_samples fl bs entries marker = Ok r ->
  exists counts, sample_counts (nonzero_columns (run_blocks bs) (entries ++ [marker])) = Ok counts /\ r = float_rows fl counts.
Proof.
  intros Hbs Hc. pose proof Hc as Hc'. unfold count_samples in Hc. cbv zeta in Hc. inv_res Hc. bool_prop.
  match goal with Hv : int64_tensor _ = Ok v |- _ => rename Hv into H64 end. apply int64_tensor_Ok in H64 as [-> H64].
  match goal with Hl : rfold (count_samples_step _) _ bs = Ok _ |- _ => apply count_samples_source in Hl; rename Hl into Hsrc end.
  cbn [sa_source] in Hsrc. rewrite (count_samples_exact fl bs entries marker (sa_source v0)) in Hc' by done.
  inv_res Hc'. injection Hc' as <-. eauto.
Qed.

Lemma concat_width_inj {A} w (l1 l2 : list (list A)) : (0 < w)%nat -> Forall (fun r => length r = w) l1 -> Forall (fun r => length r = w) l2 ->
  concat l1 = concat l2 -> l1 = l2.
Proof.
  intros Hw H1. revert l2. induction H1 as [|r1 l1 Hr1 _ IH]; intros l2 H2 Heq.
  - destruct H2 as [|r2 l2 Hr2 _]; [done|]. destruct r2; [simpl in Hr2; lia|done].
  - destruct H2 as [|r2 l2 Hr2 H2]; [destruct r1; [simpl in Hr1; lia|done]|]. cbn [concat] in Heq.
    apply app_inj_1 in Heq as [-> Heq]; [|lia]. f_equal. by apply IH.
Qed.

Lemma float_rows_concat {F} (fl : Z -> F) counts : concat (float_rows fl counts) = fl <$> concat counts.
Proof. unfold float_rows. induction counts as [|r counts IH]; [done|]. cbn [fmap list_fmap concat]. by rewrite IH, fmap_app. Qed.

Section sound.
Context {F : Type} `{FloatLaws F}.

Lemma equal_floats (l1 l2 : list Z) : Forall small l1 -> Forall small l2 ->
  equal_lists (float32 <$> l1) (float32 <$> l2) = true -> l1 = l2.
Proof.
  intros H1. revert l2. induction H1 as [|m l1 Hm _ IH]; intros l2 H2; destruct H2 as [|n l2 Hn H2]; try done.
  cbn [fmap list_fmap equal_lists]. intros He. bool_prop. f_equal; [|by apply IH].
  apply Z.eqb_eq. by rewrite <- feqb_float32.
Qed.

(** Returned samples are histograms of sixteen digits. *)
Lemma sample_counts_small es counts : sample_counts es = Ok counts ->
  Forall (fun r => length r = CLASSES /\ Forall small r) counts.
Proof.
  unfold sample_counts. intros Hs. inv_res Hs. injection Hs as <-. bool_prop. apply Forall_fmap.
  match goal with Hf : forallb _ _ = true |- _ => rewrite forallb_forall in Hf; rename Hf into Hall end.
  apply Forall_forall. intros s Hin%list_elem_of_In. specialize (Hall s Hin). bool_prop.
  split; [apply length_histogram|by apply histogram_small].
Qed.
End sound.

Lemma int_chars_digits s row : rmap int_char s = Ok row -> Forall digit row.
Proof.
  intros Hr%rmap_Ok. induction Hr as [|c d s row Hc _ IH]; constructor; [|done]. unfold int_char in Hc.
  destruct (_ && _) eqn:Hb; [|done]. injection Hc as <-. bool_prop. unfold digit, CLASSES. lia.
Qed.
Lemma manifest_digits (manifest : list (string * Z)) rows : rmap (fun row => rmap int_char (String.list_ascii_of_string row.1)) manifest = Ok rows ->
  Forall (Forall digit) rows /\ length rows = length manifest.
Proof.
  intros Hr%rmap_Ok. pose proof (Forall2_length _ _ _ Hr) as Hl. split; [|done]. clear Hl.
  induction Hr as [|m row manifest rows Hm _ IH]; constructor; [by eapply int_chars_digits|done].
Qed.

(** The tensor of the inputs, when its shape is the expected one. *)
Lemma uint8_rows_ok rows t : Forall (Forall digit) rows -> uint8_rows rows = Ok t -> tensor_ok t /\
  forall n w, (0 < w)%nat -> t_shape t = [n; w] -> n = length rows /\ Forall (fun r => length r = w) rows /\ t_data t = concat rows.
Proof.
  intros Hd. unfold uint8_rows. destruct rows as [|row rows]; [intros [= <-]; split; [by split|by intros n w _ [=] ]|].
  destruct (forallb _ _) eqn:Hl; [|done]. intros [= <-]. rewrite forallb_forall in Hl.
  assert (Hlen : Forall (fun r => length r = length row) (row :: rows)).
  { apply Forall_forall. intros r Hr%list_elem_of_In. by apply Nat.eqb_eq, Hl. }
  split; [|by intros n w _ [= <- <-]]. split.
  - unfold numel, shape_numel. cbn [t_data t_shape foldr]. rewrite Nat.mul_1_r. clear -Hlen.
    apply Forall_cons in Hlen as [_ Hlen]. rewrite length_app. cbn [Nat.mul]. f_equal.
    induction Hlen as [|r rs Hr _ IH]; [done|]. cbn [concat length]. rewrite length_app, IH, Hr. lia.
  - change (Forall (elem_ok uint8) (concat (row :: rows))). apply Forall_forall. intros z (r & Hr & Hz)%elem_of_concat. rewrite Forall_forall in Hd.
    specialize (Hd r Hr). rewrite Forall_forall in Hd. specialize (Hd z Hz). unfold digit, CLASSES in Hd. unfold elem_ok, uint. lia.
Qed.

(** A collected dataset is the trace of its manifest. When [collect] returns, over any run of the
    pool: the trace holds one sample for each input of the manifest, in order, and the digit
    entries executed between two markers are, digit by digit, as many as the input has; and
    the inputs, the labels and the counts satisfy every condition of a sound dataset. *)
Theorem collected_dataset_sound {F : Type} `{FloatLaws F} (manifest : list (string * Z)) (found : symbols) (batches : list Batch)
  (d : Dataset F) (Hbs : Forall (fun b => length (t_data (addresses b)) = numel (addresses b)) batches)
  (Hc : collect manifest found batches = Ok d) :
  exists rows entries marker counts,
    rmap (fun row => rmap int_char (String.list_ascii_of_string row.1)) manifest = Ok rows /\
    Forall2 (fun name a => od_get name found = Some a) FEATURE_NAMES entries /\ od_get "sample_end" found = Some marker /\
    sample_counts (nonzero_columns (run_blocks batches) (entries ++ [marker])) = Ok counts /\
    counts = digit_histogram <$> rows /\
    good_rows (float32 (F := F) <$> concat counts) manifest.*2 rows.
Proof.
  unfold collect in Hc. destruct (negb _); [done|].
  apply rbind_Ok in Hc as (rows & Hrows & Hc). apply rbind_Ok in Hc as (inputs & Hinputs & Hc).
  apply rbind_Ok in Hc as (labels & [-> Hlab]%int64_tensor_Ok & Hc). apply rbind_Ok in Hc as (entries & Hent & Hc).
  apply rbind_Ok in Hc as (marker & Hmark & Hc). apply rbind_Ok in Hc as (features & Hfeat & Hc).
  apply count_samples_whole in Hfeat as (counts & Hcounts & ->); [|done]. apply rbind_Ok in Hc as (r & Hvalid & _).
  destruct (manifest_digits manifest rows Hrows) as [Hdig Hlen]. destruct (uint8_rows_ok rows inputs Hdig Hinputs) as [Hiok Hshape].
  pose proof (sample_counts_small _ _ Hcounts) as Hsmall.
  set (f := MkFTensor _ _ _) in Hvalid. set (l := Tensor int64 cpu _ _) in Hvalid.
  assert (Hlok : tensor_ok l) by (split; [unfold numel, shape_numel; cbn; lia|done]).
  destruct (proj1 (validate_dataset_exact (MkDataset (Some 1) (Some FEATURE_NAMES) (Some f) (Some l) (Some inputs)) f l inputs
    eq_refl eq_refl eq_refl Hlok Hiok) (ex_intro _ r Hvalid)) as [[_ _ (_ & _ & Hs)] Hgood].
  assert (Hw : (0 < Z.to_nat INPUT_DIGITS)%nat) by (unfold INPUT_DIGITS; lia).
  destruct (Hshape _ _ Hw Hs) as (Hn & Hwidth & Hdata). rewrite Hn, Hdata, chunk_rows_concat in Hgood by done.
  cbn [f l ft_data t_data] in Hgood. rewrite float_rows_concat in Hgood.
  assert (Hsame : concat counts = concat (digit_histogram <$> rows)).
  { apply equal_floats; [| |by apply Hgood].
    - apply Forall_concat. eapply Forall_impl; [exact Hsmall|]. by intros ? [_ ?].
    - apply Forall_concat, Forall_fmap. eapply Forall_impl; [exact Hwidth|]. intros row Hr. apply histogram_small. rewrite Hr. done. }
  exists rows, entries, marker, counts. split_and!; try done.
  - apply rmap_Ok in Hent. eapply Forall2_impl; [exact Hent|]. intros name a. unfold symbol_at. destruct (od_get name found); [by intros [= ->]|done].
  - unfold symbol_at in Hmark. destruct (od_get "sample_end" found); [by injection Hmark as ->|done].
  - apply (concat_width_inj CLASSES); [unfold CLASSES; lia| | |done].
    + eapply Forall_impl; [exact Hsmall|]. by intros ? [? _].
    + apply Forall_fmap, Forall_forall. intros row _. apply length_histogram.
Qed.

(** ** Witness *)

(** The generated inputs as a manifest, and the trace of a target that executes them. *)
Definition digit_text (row : list Z) : string :=
  String.string_of_list_ascii ((fun d => ascii_of_nat (48 + Z.to_nat d)) <$> row).
Definition made_manifest : list (string * Z) := zip (digit_text <$> made.1) made.2.
Definition made_symbols : symbols := zip FEATURE_NAMES digit_entries ++ [("sample_end", 8192)].
Definition made_batches : list Batch :=
  (fun row => let data := ((fun d => default 0 (digit_entries !! Z.to_nat d)) <$> row) ++ [8192] in
    bare_batch (Some 0) None (Tensor int64 cpu [length data] data)) <$> made.1.

Lemma collected_dataset_sound_witness :
  is_ok (collect (F := Z) made_manifest made_symbols made_batches) = true /\
  exists rows counts, counts = digit_histogram <$> rows /\ good_rows (F := Z) (float32 <$> concat counts) made_manifest.*2 rows.
Proof.
  assert (Hok : is_ok (collect (F := Z) made_manifest made_symbols made_batches) = true) by (vm_compute; reflexivity).
  split; [exact Hok|].
  assert (Hbs : Forall (fun b => length (t_data (addresses b)) = numel (addresses b)) made_batches).
  { apply Forall_fmap, Forall_forall. intros row _. unfold compose, numel, shape_numel. cbn [addresses bare_batch t_data t_shape foldr]. lia. }
  destruct (collect (F := Z) made_manifest made_symbols made_batches) as [d|e] eqn:Hc; [|discriminate Hok].
  destruct (collected_dataset_sound made_manifest made_symbols made_batches d Hbs Hc) as (rows & _ & _ & counts & _ & _ & _ & _ & H1 & H2).
  exists rows, counts. split; [exact H1|exact H2].
Defined.
