(* ===== verification/Initramfs.v ===== *)
(** * The guest's initial file system ([examples/build_initramfs.py])

    The archive the example kernel boots from: a sequence of [newc] entries, whose
    numbers are eight hexadecimal digits and whose names and contents are padded to
    four bytes. A reader of that format, as the kernel's documentation describes it,
    gets back the five files the program means to pack. *)

From S2P Require Import Prelude.

(** ** Text as bytes *)

Definition ascii_bytes (s : string) : list Z := (fun c => Z.of_nat (Ascii.nat_of_ascii c)) <$> String.list_ascii_of_string s.

Definition hex_digit (d : Z) : Z := if d <? 10 then 48 + d else 87 + d.

(** The lowercase hexadecimal digits of a nonnegative number, without padding. *)
Fixpoint hex_onto (fuel : nat) (z : Z) (acc : list Z) : list Z :=
  match fuel with
  | O => acc
  | S fuel => if z <? 16 then hex_digit z :: acc else hex_onto fuel (z / 16) (hex_digit (z mod 16) :: acc)
  end.
Definition hex (z : Z) : list Z := hex_onto (S (Z.to_nat (Z.log2 z))) z [].

(** [f"{value:08x}"]: at least eight digits, more when the value needs them. *)
Definition format_08x (z : Z) : list Z := replicate (8 - length (hex z)) 48 ++ hex z.

(** [b"\0" * (-n % 4)] *)
Definition padding (n : nat) : list Z := replicate (Z.to_nat (- Z.of_nat n mod 4)) 0.

(** ** The writer *)

Definition S_IFREG : Z := 32768.
Definition S_IFDIR : Z := 16384.
Definition S_IFCHR : Z := 8192.
Definition S_ISDIR (mode : Z) : bool := Z.land mode 61440 =? S_IFDIR.

Definition MAGIC : list Z := ascii_bytes "070701".

Definition entry_fields (number : Z) (encoded_name : list Z) (mode : Z) (data : list Z) (device_major device_minor : Z) : list Z :=
  [number; mode; 0; 0; if S_ISDIR mode then 2 else 1; 0; Z.of_nat (length data); 0; 0; device_major; device_minor;
   Z.of_nat (length encoded_name); 0].

(** [_entry]: the bytes of the five writes, in order. *)
Definition _entry (number : Z) (name : string) (mode : Z) (data : list Z) (device_major device_minor : Z) : list Z :=
  let encoded_name := ascii_bytes name ++ [0] in
  let header := MAGIC ++ concat (format_08x <$> entry_fields number encoded_name mode data device_major device_minor) in
  header ++ encoded_name ++ padding (length header + length encoded_name) ++ data ++ padding (length data).

Definition archive_of (data : list Z) : list Z :=
  _entry 1 "init" (Z.lor S_IFREG 493) data 0 0 ++
  _entry 2 "dev" (Z.lor S_IFDIR 493) [] 0 0 ++
  _entry 3 "dev/console" (Z.lor S_IFCHR 384) [] 5 1 ++
  _entry 4 "dev/ttyS1" (Z.lor S_IFCHR 384) [] 4 65 ++
  _entry 5 "proc" (Z.lor S_IFDIR 365) [] 0 0 ++
  _entry 6 "TRAILER!!!" 0 [] 0 0.

Definition ELF : list Z := [127; 69; 76; 70].

(** The files by their resolved path; [resolve], the compressor and what creating
    the output can raise belong to the host. *)
Section host.
Context (resolve : string -> string) (gzip : list Z -> list Z) (create : string -> result unit).

Definition build_initramfs (files : gmap string (list Z)) (init output : string) : result (gmap string (list Z)) :=
  match files !! resolve init with
  | None => throw OSError init
  | Some data =>
      raise! ValueError "The guest init must be a statically linked Linux ELF executable" when negb (bool_decide (take 4 data = ELF)) in
      raise! ValueError "The init executable and output archive must be different files" when bool_decide (resolve init = resolve output) in
      let! _ := create output in
      Ok (<[resolve output := gzip (archive_of data)]> files)
  end.
End host.

(** ** A reader of the format

    A header at a multiple of four: the magic, thirteen numbers of eight digits,
    the name with its terminating zero, padding, the contents, padding. *)

Definition unhex_digit (c : Z) : option Z :=
  if (48 <=? c) && (c <=? 57) then Some (c - 48)
  else if (97 <=? c) && (c <=? 102) then Some (c - 87) else None.
Definition unhex (bs : list Z) : option Z :=
  foldl (fun v c => v ← v; d ← unhex_digit c; Some (16 * v + d)) (Some 0) bs.

Record cpio_entry := MkCpio {
  c_ino : Z; c_mode : Z; c_uid : Z; c_gid : Z; c_nlink : Z; c_mtime : Z;
  c_rdev : Z * Z; c_name : list Z; c_data : list Z;
}.

Definition round4 (n : nat) : nat := (n + Z.to_nat (- Z.of_nat n mod 4))%nat.

Definition header_fields (pos : nat) (archive : list Z) : option (list Z) :=
  mapM (fun i => unhex (slice (pos + 6 + 8 * i) 8 archive)) (seq 0 13).

(** The entry at [pos] and the position of the next one. *)
Definition parse_entry (pos : nat) (archive : list Z) : option (cpio_entry * nat) :=
  if bool_decide (slice pos 6 archive = MAGIC) then
    match header_fields pos archive with
    | Some [ino; mode; uid; gid; nlink; mtime; filesize; devmajor; devminor; rmajor; rminor; namesize; check] =>
        let named := (pos + 110)%nat in
        let name := slice named (Z.to_nat namesize) archive in
        let contents := round4 (named + Z.to_nat namesize) in
        let next := round4 (contents + Z.to_nat filesize) in
        if bool_decide (last name = Some 0 /\ (next <= length archive)%nat) then
          Some (MkCpio ino mode uid gid nlink mtime (rmajor, rminor) (take (length name - 1) name)
                  (slice contents (Z.to_nat filesize) archive), next)
        else None
    | _ => None
    end
  else None.

(** The entries before the trailer. *)
Fixpoint read_entries (fuel pos : nat) (archive : list Z) : option (list cpio_entry) :=
  match fuel with
  | O => None
  | S fuel =>
      p ← parse_entry pos archive;
      if bool_decide (c_name p.1 = ascii_bytes "TRAILER!!!") then Some []
      else es ← read_entries fuel p.2 archive; Some (p.1 :: es)
  end.
Definition read_archive (archive : list Z) : option (list cpio_entry) := read_entries (S (length archive)) 0 archive.

(** ** Numbers *)

Lemma unhex_hex_digit d : 0 <= d < 16 -> unhex_digit (hex_digit d) = Some d.
Proof.
  intros Hd. unfold unhex_digit, hex_digit. destruct (Z.ltb_spec d 10).
  - rewrite (proj2 (Z.leb_le _ _)), (proj2 (Z.leb_le _ _)) by lia. simpl. f_equal. lia.
  - rewrite (proj2 (Z.leb_gt (87 + d) 57)) by lia. rewrite andb_false_r.
    rewrite (proj2 (Z.leb_le _ _)), (proj2 (Z.leb_le _ _)) by lia. simpl. f_equal. lia.
Qed.

Lemma unhex_app l1 l2 : unhex (l1 ++ l2) =
  foldl (fun v c => v ← v; d ← unhex_digit c; Some (16 * v + d)) (unhex l1) l2.
Proof. apply foldl_app. Qed.

(** Digits written before [acc] read back as the number. *)
Lemma hex_onto_spec fuel : forall z acc, 0 <= z < 16 ^ Z.of_nat fuel -> (0 < fuel)%nat ->
  exists ds, hex_onto fuel z acc = ds ++ acc /\ unhex ds = Some z /\
    (0 < length ds)%nat /\ forall w, 0 < w -> z < 16 ^ w <-> Z.of_nat (length ds) <= w.
Proof.
  induction fuel as [|fuel IH]; intros z acc Hz Hf; [lia|]. cbn [hex_onto]. destruct (Z.ltb_spec z 16) as [Hs|Hb].
  - exists [hex_digit z]. split_and!; [done| |simpl; lia|].
    + unfold unhex. cbn [foldl]. simpl. rewrite unhex_hex_digit by lia. simpl. f_equal. 
    + intros w Hw. simpl. pose proof (Z.pow_le_mono_r 16 1 w ltac:(lia) ltac:(lia)). lia.
  - replace (Z.of_nat (S fuel)) with (1 + Z.of_nat fuel) in Hz by lia. rewrite Z.pow_add_r in Hz by lia.
    assert (Hq : 0 <= z / 16 < 16 ^ Z.of_nat fuel) by (split; [apply Z.div_pos|apply Z.div_lt_upper_bound]; lia).
    assert (Hf' : (0 < fuel)%nat). { destruct fuel; [simpl in Hq; pose proof (Z.div_le_lower_bound z 16 1); lia|lia]. }
    destruct (IH (z / 16) (hex_digit (z mod 16) :: acc) Hq Hf') as (ds & -> & Hu & Hl & Hw).
    pose proof (Z.mod_pos_bound z 16 ltac:(lia)) as Hm. pose proof (Z.div_mod z 16 ltac:(lia)) as Hdm.
    exists (ds ++ [hex_digit (z mod 16)]). split_and!; [by rewrite <- app_assoc| |rewrite length_app; simpl; lia|].
    + rewrite unhex_app, Hu. simpl. rewrite unhex_hex_digit by done. simpl. f_equal. lia.
    + intros w Hpos. rewrite length_app. simpl. destruct (decide (w = 1)) as [->|Hne]; [split; lia|].
      specialize (Hw (w - 1) ltac:(lia)). replace w with (1 + (w - 1)) at 1 by lia. rewrite Z.pow_add_r by lia.
      assert (z < 16 ^ 1 * 16 ^ (w - 1) <-> z / 16 < 16 ^ (w - 1)) as ->; [|lia].
      split; [intros; apply Z.div_lt_upper_bound; lia|nia].
Qed.

Lemma hex_spec z : 0 <= z -> unhex (hex z) = Some z /\ (0 < length (hex z))%nat /\
  forall w, 0 < w -> z < 16 ^ w <-> Z.of_nat (length (hex z)) <= w.
Proof.
  intros Hz. destruct (hex_onto_spec (S (Z.to_nat (Z.log2 z))) z []) as (ds & Hds & Hu & Hl & Hw); [|lia|].
  - split; [done|]. destruct (decide (z = 0)) as [->|Hne]; [reflexivity|].
    pose proof (Z.log2_nonneg z) as Hn. replace (Z.of_nat _) with (Z.succ (Z.log2 z)) by lia.
    pose proof (proj2 (Z.log2_spec z ltac:(lia))) as Hlt. etrans; [exact Hlt|].
    apply Z.pow_lt_mono_l; lia.
  - unfold hex. rewrite Hds, app_nil_r. auto.
Qed.

Lemma unhex_zeros n l : unhex (replicate n 48 ++ l) = unhex l.
Proof.
  induction n as [|n IH]; [done|]. rewrite <- IH. reflexivity.
Qed.

Lemma format_08x_spec z : 0 <= z < 2 ^ 32 -> length (format_08x z) = 8%nat /\ unhex (format_08x z) = Some z.
Proof.
  intros Hz. unfold format_08x. destruct (hex_spec z) as (Hu & Hl & Hw); [lia|].
  specialize (Hw 8 ltac:(lia)). rewrite length_app, length_replicate, unhex_zeros. split; [|done].
  change (2 ^ 32) with (16 ^ 8) in Hz. lia.
Qed.

(** ** One entry *)

Lemma header_fields_at base post fs : Forall (fun z => 0 <= z < 2 ^ 32) fs -> forall k pre, length pre = (base + 8 * k)%nat ->
  mapM (fun i => unhex (slice (base + 8 * i) 8 (pre ++ concat (format_08x <$> fs) ++ post))) (seq k (length fs)) = Some fs.
Proof.
  induction 1 as [|z fs Hz _ IH]; intros k pre Hpre; [done|].
  destruct (format_08x_spec z Hz) as [Hl Hu]. cbn [length seq fmap list_fmap concat mapM]. rewrite <- (app_assoc (format_08x z)).
  rewrite <- Hpre. replace (slice (length pre) 8 _) with (format_08x z) by (rewrite <- Hl; symmetry; apply slice_exact).
  rewrite Hu. cbn [mbind option_bind]. rewrite (app_assoc pre).
  rewrite (IH (S k) (pre ++ format_08x z)); [done|]. rewrite length_app. lia.
Qed.

Lemma length_formatted fs : Forall (fun z => 0 <= z < 2 ^ 32) fs -> length (concat (format_08x <$> fs)) = (8 * length fs)%nat.
Proof.
  induction 1 as [|z fs Hz _ IH]; [done|]. destruct (format_08x_spec z Hz) as [Hl _].
  cbn [fmap list_fmap concat length]. rewrite length_app. lia.
Qed.

Definition aligned (n : nat) : Prop := Z.of_nat n mod 4 = 0.

Lemma length_padding pre n m : aligned pre -> n = (pre + m)%nat -> round4 n = (n + length (padding m))%nat.
Proof.
  unfold aligned, round4, padding. intros Hp ->. rewrite length_replicate. do 2 f_equal.
  rewrite Nat2Z.inj_add. pose proof (Z.div_mod (Z.of_nat pre) 4 ltac:(lia)) as Hd. rewrite Hp in Hd.
  replace (- (Z.of_nat pre + Z.of_nat m)) with (- Z.of_nat m + (- (Z.of_nat pre / 4)) * 4) by lia. by rewrite Z.mod_add by lia.
Qed.
Lemma aligned_padded m : aligned (m + length (padding m)).
Proof. unfold aligned, padding. rewrite length_replicate. pose proof (Z.mod_pos_bound (- Z.of_nat m) 4 ltac:(lia)). 
  rewrite Nat2Z.inj_add, Z2Nat.id by lia. pose proof (Z.div_mod (- Z.of_nat m) 4 ltac:(lia)) as Hd.
  replace (_ + _) with (- (- Z.of_nat m / 4) * 4) by lia. apply Z.mod_mul. lia. Qed.
Lemma aligned_add n m : aligned n -> aligned m -> aligned (n + m).
Proof. unfold aligned. intros Hn Hm. by rewrite Nat2Z.inj_add, Z.add_mod, Hn, Hm by lia. Qed.

(** What a reader gets from an entry of the writer. *)
Definition entry_of (number : Z) (name : string) (mode : Z) (data : list Z) (device_major device_minor : Z) : cpio_entry :=
  MkCpio number mode 0 0 (if S_ISDIR mode then 2 else 1) 0 (device_major, device_minor) (ascii_bytes name) data.

Section entry.
Context (number : Z) (name : string) (mode : Z) (data : list Z) (major minor : Z).
Hypothesis fields_fit : Forall (fun z => 0 <= z < 2 ^ 32) (entry_fields number (ascii_bytes name ++ [0]) mode data major minor).
Let fields := entry_fields number (ascii_bytes name ++ [0]) mode data major minor.
Let header := MAGIC ++ concat (format_08x <$> fields).
Let encoded := ascii_bytes name ++ [0].

Lemma length_header : length header = 110%nat.
Proof. unfold header. rewrite length_app, length_formatted by exact fields_fit. done. Qed.

Lemma length_entry : length (_entry number name mode data major minor) =
  ((length header + length encoded + length (padding (length header + length encoded))) + (length data + length (padding (length data))))%nat.
Proof. clear fields_fit. subst header encoded fields. unfold _entry. cbv zeta. rewrite !length_app. lia. Qed.

Lemma entry_aligned : aligned (length (_entry number name mode data major minor)).
Proof. rewrite length_entry. apply aligned_add; apply aligned_padded. Qed.

(** At an aligned position the reader finds the entry and the end of it. *)
Lemma parse_entry_at pre post : aligned (length pre) ->
  parse_entry (length pre) (pre ++ _entry number name mode data major minor ++ post) =
  Some (entry_of number name mode data major minor, (length pre + length (_entry number name mode data major minor))%nat).
Proof.
  intros Hal. pose proof length_header as Hh.
  assert (Hf : header_fields (length pre) (pre ++ _entry number name mode data major minor ++ post) = Some fields).
  { unfold header_fields, _entry. cbv zeta. fold encoded fields. rewrite <- !app_assoc, (app_assoc pre MAGIC).
    apply (header_fields_at (length pre + 6) _ fields fields_fit 0). by rewrite length_app. }
  assert (Hc : round4 (length pre + 110 + length encoded) = (length pre + 110 + length encoded + length (padding (length header + length encoded)))%nat).
  { eapply length_padding; [exact Hal|]. lia. }
  assert (Hn : round4 (length pre + 110 + length encoded + length (padding (length header + length encoded)) + length data) =
    (length pre + length (_entry number name mode data major minor))%nat).
  { rewrite length_entry, Hh. rewrite (length_padding (length pre + (110 + length encoded + length (padding (110 + length encoded)))) _ (length data)); [|apply aligned_add; [exact Hal|apply aligned_padded]|]; lia. }
  set (gap := padding (length header + length encoded)) in *.
  assert (Hw : pre ++ _entry number name mode data major minor ++ post = pre ++ header ++ encoded ++ gap ++ data ++ padding (length data) ++ post).
  { unfold _entry. cbv zeta. fold encoded fields. change (MAGIC ++ concat (format_08x <$> fields)) with header. fold gap. by rewrite <- !app_assoc. }
  assert (Hm : slice (length pre) 6 (pre ++ _entry number name mode data major minor ++ post) = MAGIC).
  { rewrite Hw. unfold header. rewrite <- app_assoc. apply (slice_exact pre MAGIC). }
  assert (He : slice (length pre + 110) (length encoded) (pre ++ _entry number name mode data major minor ++ post) = encoded).
  { rewrite Hw, (app_assoc pre header). rewrite <- Hh, <- length_app. apply slice_exact. }
  assert (Hd : slice (length pre + 110 + length encoded + length gap) (length data) (pre ++ _entry number name mode data major minor ++ post) = data).
  { rewrite Hw, (app_assoc pre header), (app_assoc _ encoded), (app_assoc _ gap), <- Hh, <- !length_app. apply slice_exact. }
  unfold parse_entry. rewrite Hf, bool_decide_eq_true_2 by exact Hm. unfold fields, entry_fields. fold encoded.
  rewrite !Nat2Z.id, Hc, Hn, He, Hd. rewrite bool_decide_eq_true_2.
  - unfold encoded at 1 2. rewrite length_app. cbn [length]. by rewrite Nat.add_sub, take_app_length.
  - split; [apply last_snoc|]. rewrite !length_app. lia.
Qed.
End entry.

(** ** The archive *)

Lemma read_entries_cons fuel pre number name mode data major minor post :
  Forall (fun z => 0 <= z < 2 ^ 32) (entry_fields number (ascii_bytes name ++ [0]) mode data major minor) -> aligned (length pre) ->
  ascii_bytes name <> ascii_bytes "TRAILER!!!" ->
  read_entries (S fuel) (length pre) (pre ++ _entry number name mode data major minor ++ post) =
  es ← read_entries fuel (length (pre ++ _entry number name mode data major minor)) ((pre ++ _entry number name mode data major minor) ++ post);
  Some (entry_of number name mode data major minor :: es).
Proof.
  intros Hf Ha Hn. cbn [read_entries]. rewrite parse_entry_at by done. cbn [mbind option_bind fst snd].
  rewrite bool_decide_eq_false_2 by exact Hn. by rewrite <- app_assoc, length_app.
Qed.

(** The files of the guest: the program, its serial devices and [proc]. *)
Definition guest_files (data : list Z) : list cpio_entry :=
  [entry_of 1 "init" (Z.lor S_IFREG 493) data 0 0; entry_of 2 "dev" (Z.lor S_IFDIR 493) [] 0 0;
   entry_of 3 "dev/console" (Z.lor S_IFCHR 384) [] 5 1; entry_of 4 "dev/ttyS1" (Z.lor S_IFCHR 384) [] 4 65;
   entry_of 5 "proc" (Z.lor S_IFDIR 365) [] 0 0].

Lemma init_fields data : Z.of_nat (length data) < 2 ^ 32 ->
  Forall (fun z => 0 <= z < 2 ^ 32) (entry_fields 1 (ascii_bytes "init" ++ [0]) (Z.lor S_IFREG 493) data 0 0).
Proof. intros Hd. unfold entry_fields. repeat constructor; try lia; vm_compute; (done || lia). Qed.

Ltac fields_small := repeat (apply Forall_cons; split; [vm_compute; split; [discriminate|reflexivity]|]); by apply Forall_nil.
Ltac entry_step :=
  rewrite read_entries_cons; [|fields_small|assumption|vm_compute; discriminate];
  match goal with H : aligned (length ?p) |- context [length (?p ++ ?e)] =>
    let Hn := fresh in assert (Hn : aligned (length (p ++ e))) by (rewrite length_app; apply aligned_add; [exact H|vm_compute; reflexivity]);
    clear H; generalize dependent (p ++ e); intros
  end.

Lemma archive_reads fuel data : Z.of_nat (length data) < 2 ^ 32 -> read_entries (6 + fuel) 0 (archive_of data) = Some (guest_files data).
Proof.
  intros Hd. pose proof (init_fields data Hd) as Hi. pose proof (entry_aligned 1 "init" (Z.lor S_IFREG 493) data 0 0) as Ha.
  unfold archive_of. change (read_entries (6 + fuel) 0 ?a) with (read_entries (6 + fuel) (length (@nil Z)) ([] ++ a)).
  cbn [Nat.add]. rewrite read_entries_cons; [|done|done|done]. cbn [app].
  generalize dependent (_entry 1 "init" (Z.lor S_IFREG 493) data 0 0). intros pre Ha.
  do 4 entry_step. cbn [read_entries]. rewrite <- (app_nil_r (_entry 6 _ _ _ _ _)). rewrite parse_entry_at; [|fields_small|assumption].
  reflexivity.
Qed.

Lemma length_archive data : (6 <= length (archive_of data))%nat.
Proof.
  assert (Ht : length (_entry 6 "TRAILER!!!" 0 [] 0 0) = 124%nat) by (vm_compute; reflexivity).
  unfold archive_of. rewrite !length_app, Ht. lia.
Qed.

(** C37: what [build_initramfs] leaves on disk. It raises, and writes nothing, unless
    the program is an ELF file other than the output and the output can be created;
    otherwise the only file it changes is the output, which becomes the compressed
    archive, and a reader of the archive finds exactly the five files of the guest:
    the program with its bytes unchanged and mode 0755, two directories and two
    character devices with their guest numbers. Sizes have eight digits, so the
    program must be smaller than four GiB. *)
Theorem initramfs_holds_guest resolve gzip create (files : gmap string (list Z)) init output data :
  files !! resolve init = Some data -> Z.of_nat (length data) < 2 ^ 32 ->
  (exists archive, read_archive archive = Some (guest_files data) /\
    build_initramfs resolve gzip create files init output =
      (if bool_decide (take 4 data = ELF /\ resolve init <> resolve output) then
        let! _ := create output in Ok (<[resolve output := gzip archive]> files)
      else throw ValueError (if bool_decide (take 4 data = ELF) then "The init executable and output archive must be different files"
                             else "The guest init must be a statically linked Linux ELF executable"))) /\
  (forall files', build_initramfs resolve gzip create files init output = Ok files' -> files' !! resolve init = Some data).
Proof.
  intros Hf Hd. split.
  - exists (archive_of data). split.
    + unfold read_archive. pose proof (length_archive data) as Hl.
      replace (S (length _)) with (6 + (length (archive_of data) - 5))%nat by lia. by apply archive_reads.
    + unfold build_initramfs. rewrite Hf. repeat case_bool_decide; simpl; try tauto; done.
  - intros files'. unfold build_initramfs. rewrite Hf. case_bool_decide; [|done]. case_bool_decide; [done|]. simpl.
    destruct (create output); [|done]. intros [= <-]. by rewrite lookup_insert_ne by congruence.
Qed.
Lemma initramfs_holds_guest_witness :
  exists archive, read_archive archive = Some (guest_files [127; 69; 76; 70; 2]) /\
    build_initramfs (fun p => p) (fun b => b) (fun _ => Ok tt) {["init" := [127; 69; 76; 70; 2]]} "init" "out" =
      Ok (<["out" := archive]> {["init" := [127; 69; 76; 70; 2]]}).
Proof.
  destruct (initramfs_holds_guest (fun p => p) (fun b => b) (fun _ => Ok tt) {["init" := [127; 69; 76; 70; 2]]} "init" "out" [127; 69; 76; 70; 2])
    as [(archive & Ha & Hb) _]; [reflexivity|reflexivity|].
  exists archive. split; [exact Ha|]. rewrite Hb. reflexivity.
Defined.

(** A field of the header keeps its eight digits exactly for 32-bit numbers. *)
Theorem field_width_exact z : 0 <= z -> length (format_08x z) = 8%nat <-> z < 2 ^ 32.
Proof.
  intros Hz. destruct (hex_spec z Hz) as (_ & _ & Hw). specialize (Hw 8 ltac:(lia)). change (2 ^ 32) with (16 ^ 8).
  rewrite Hw. unfold format_08x. rewrite length_app, length_replicate. lia.
Qed.
