(* ===== verification/LayoutData.v ===== *)
(** * Datasets across executable locations ([examples/learn_layout.py]: data)

    Rows of block addresses captured at several locations of one executable, the
    checks of [validate_dataset], and the features a model sees: addresses, relative
    to the start of their text span or not, replaced by their position in the sorted
    vocabulary of the training rows. *)

From stdpp Require Import sorting.
From S2P Require Import Prelude Batch Features TraceSketch DigitCounts ContextBlocks.

(** ** The dataset file and its rows *)

Inductive ldtype := LInt64 | LBool | LOther.
#[global] Instance ldtype_eq_dec : EqDecision ldtype.
Proof. solve_decision. Defined.

(** A loaded tensor; Booleans are stored as zero and one. *)
Record ltensor := MkL { l_dtype : ldtype; l_shape : list nat; l_data : list Z }.

(** What [dataset.get] finds; a value that is not a tensor is [None]. *)
Record LayoutDataset := MkLayoutDataset {
  y_format : option Z;
  y_pc : option ltensor;
  y_mask : option ltensor;
  y_layout : option ltensor;
  y_labels : option ltensor;
  y_train : option ltensor;
}.

(** One row of the five tensors; the layout is its start, end and entry. *)
Record row := MkRow { r_pc : list Z; r_mask : list bool; r_layout : Z * Z * Z; r_label : Z; r_train : bool }.
Definition r_start (r : row) : Z := (r_layout r).1.1.
Definition r_end (r : row) : Z := (r_layout r).1.2.
Definition r_entry (r : row) : Z := (r_layout r).2.

Definition truth (z : Z) : bool := negb (z =? 0).

(** The rows of tensors of shapes [(rows, width)], [(rows, width)], [(rows, 3)], [(rows,)] and [(rows,)]. *)
Definition rows_of (rows width : nat) (pc mask layout labels train : list Z) : list row :=
  (fun i => MkRow (slice (i * width) width pc) (truth <$> slice (i * width) width mask)
    (nth (3 * i) layout 0, nth (3 * i + 1) layout 0, nth (3 * i + 2) layout 0)
    (nth i labels 0) (truth (nth i train 0))) <$> seq 0 rows.

(** [values.unique()] and [values.unique(dim=0)]: the distinct values, sorted. *)
Definition unique (l : list Z) : list Z := merge_sort Z.le (remove_dups l).

Definition layout_le (a b : Z * Z * Z) : Prop :=
  a.1.1 < b.1.1 \/ a.1.1 = b.1.1 /\ (a.1.2 < b.1.2 \/ a.1.2 = b.1.2 /\ a.2 <= b.2).
#[global] Instance layout_le_dec a b : Decision (layout_le a b).
Proof. unfold layout_le. apply _. Defined.
Definition unique_layouts (l : list (Z * Z * Z)) : list (Z * Z * Z) := merge_sort layout_le (remove_dups l).

(** ** [validate_dataset] *)

Definition row_static (r : row) : bool :=
  existsb id (r_mask r) && ((0 <=? r_label r) && (r_label r <? 4)) && (0 <=? r_start r) && (r_start r <? r_end r) &&
  ((r_start r <=? r_entry r) && (r_entry r <? r_end r)).

(** [inside | ~mask], over one row. *)
Definition row_inside (r : row) : bool :=
  forallb (fun p => (r_start r <=? p.1) && (p.1 <? r_end r) || negb p.2) (zip (r_pc r) (r_mask r)).

(** The body of [for start in locations]. *)
Definition check_location (data : list row) (start : Z) : result unit :=
  let selected := filter (fun r => r_start r = start) data in
  raise! ValueError "Training and held-out executable locations must be disjoint"
    when negb (length (remove_dups (r_train <$> selected)) =? 1)%nat in
  raise! ValueError "One executable location must have one consistent layout"
    when negb (length (remove_dups (r_layout <$> selected)) =? 1)%nat in
  let counts := bincount (r_label <$> selected) 4 in
  raise! ValueError "Each executable location must contain all four labels equally"
    when negb (forallb (fun n => n =? default 0 (head counts)) counts) || (default 0 (head counts) =? 0) in
  Ok tt.

(** [spans[spans[:, 0].argsort()]]: the spans of different starts. *)
Definition start_le (a b : Z * Z * Z) : Prop := a.1.1 <= b.1.1.
#[global] Instance start_le_dec a b : Decision (start_le a b).
Proof. unfold start_le. apply _. Defined.
(** [(ordered[:-1, 1] > ordered[1:, 0]).any()] *)
Fixpoint overlapping (ordered : list (Z * Z * Z)) : bool :=
  match ordered with
  | a :: ((b :: _) as rest) => (b.1.1 <? a.1.2) || overlapping rest
  | _ => false
  end.

Definition check_split (data : list row) (train : bool) : result unit :=
  raise! ValueError "Use at least two locations in each split for the metadata control"
    when (length (unique (r_start <$> filter (fun r => r_train r = train) data)) <? 2)%nat in
  Ok tt.

Definition validate_rows (data : list row) : result unit :=
  raise! ValueError "Expected nonempty traces, four labels and a static executable layout" when negb (forallb row_static data) in
  raise! ValueError "Every captured block must lie in its executable text span" when negb (forallb row_inside data) in
  let! _ := rfold (fun _ start => check_location data start) tt (unique (r_start <$> data)) in
  raise! ValueError "Executable text spans at different locations must not overlap"
    when overlapping (merge_sort start_le (unique_layouts (r_layout <$> data))) in
  let! _ := check_split data true in
  check_split data false.

Definition validate_dataset (d : LayoutDataset) : result (list row) :=
  raise! ValueError "Expected layout dataset format 1" when negb (bool_decide (y_format d = Some 1)) in
  match y_pc d, y_mask d, y_layout d, y_labels d, y_train d with
  | Some pc, Some mask, Some layout, Some labels, Some train =>
      raise! ValueError "Addresses and labels need int64; mask and train need bool"
        when negb (bool_decide (l_dtype pc = LInt64)) || negb (bool_decide (l_dtype layout = LInt64)) ||
             negb (bool_decide (l_dtype labels = LInt64)) || negb (bool_decide (l_dtype mask = LBool)) ||
             negb (bool_decide (l_dtype train = LBool)) in
      match l_shape pc with
      | [rows; width] =>
          raise! ValueError "Expected a nonempty padded matrix of block addresses" when (rows =? 0)%nat || (width =? 0)%nat in
          raise! ValueError "Dataset tensor shapes do not match"
            when negb (bool_decide (l_shape mask = l_shape pc)) || negb (bool_decide (l_shape layout = [rows; 3%nat])) ||
                 negb (bool_decide (l_shape labels = [rows])) || negb (bool_decide (l_shape train = [rows])) in
          let data := rows_of rows width (l_data pc) (l_data mask) (l_data layout) (l_data labels) (l_data train) in
          let! _ := validate_rows data in
          Ok data
      | _ => throw ValueError "Expected a nonempty padded matrix of block addresses"
      end
  | _, _, _, _, _ => throw ValueError "Expected pc, mask, layout, labels and train tensors"
  end.

(** ** Features and vocabulary *)

Definition int64_sub (a b : Z) : Z := signed 64 (wrap 64 (a - b)).

(** [pc - layout[:, :1]] or [pc], for a layout supplied per row. *)
Definition address_features (pc : list (list Z)) (layout : list (Z * Z * Z)) (normalized : bool) : list (list Z) :=
  if normalized then zip_with (fun r (l : Z * Z * Z) => (fun p => int64_sub p l.1.1) <$> r) pc layout else pc.

(** [values[train][mask[train]].unique(sorted=True)] *)
Definition fit_vocabulary (values : list (list Z)) (mask : list (list bool)) (train : list bool) : list Z :=
  unique (select (concat (select train mask)) (concat (select train values))).

Section tokens.
Context `{SearchOps}.

(** [encode]: one plus the position of a known value, zero for any other. Indexing an
    empty vocabulary raises unless there is nothing to index with. *)
Definition encode_value (vocabulary : list Z) (v : Z) : Z :=
  let positions := searchsorted vocabulary v in
  let n := Z.of_nat (length vocabulary) in
  let matched := (positions <? n) && (nth (Z.to_nat (Z.min positions (n - 1))) vocabulary 0 =? v) in
  if matched then positions + 1 else 0.
Definition encode (values : list (list Z)) (vocabulary : list Z) : result (list (list Z)) :=
  raise! IndexError "index -1 is out of bounds for dimension 0 with size 0"
    when (length vocabulary =? 0)%nat && negb (length (concat values) =? 0)%nat in
  Ok ((fun r : list Z => encode_value vocabulary <$> r) <$> values).
End tokens.

(** [wrong_layout]: each location is replaced with the next distinct one. *)
Definition position_of (l : Z * Z * Z) (ls : list (Z * Z * Z)) : nat := default 0%nat (fst <$> list_find (fun x => x = l) ls).
Definition wrong_layout (layout : list (Z * Z * Z)) : result (list (Z * Z * Z)) :=
  let locations := unique_layouts layout in
  raise! ValueError "Need two different layouts to supply wrong metadata" when (length locations <? 2)%nat in
  Ok ((fun l => nth ((position_of l locations + 1) mod length locations) locations (0, 0, 0)) <$> layout).

(** ** What [validate_dataset] accepts *)

Lemma elem_of_unique x l : x ∈ unique l <-> x ∈ l.
Proof. unfold unique. by rewrite merge_sort_Permutation, elem_of_remove_dups. Qed.
Lemma NoDup_unique l : NoDup (unique l).
Proof. unfold unique. rewrite merge_sort_Permutation. apply NoDup_remove_dups. Qed.
Lemma unique_sorted l : StronglySorted Z.le (unique l).
Proof. apply StronglySorted_merge_sort; [intros a b c; lia|intros a b; lia]. Qed.

Lemma elem_of_unique_layouts x l : x ∈ unique_layouts l <-> x ∈ l.
Proof. unfold unique_layouts. by rewrite merge_sort_Permutation, elem_of_remove_dups. Qed.
Lemma NoDup_unique_layouts l : NoDup (unique_layouts l).
Proof. unfold unique_layouts. rewrite merge_sort_Permutation. apply NoDup_remove_dups. Qed.

(** [values.unique().numel() != 1] of a selection that is not empty. *)
Lemma one_value {A} `{EqDecision A} (l : list A) : l <> [] -> length (remove_dups l) = 1%nat <-> forall a b, a ∈ l -> b ∈ l -> a = b.
Proof.
  intros Hne. split.
  - intros Hl a b Ha%elem_of_remove_dups Hb%elem_of_remove_dups. destruct (remove_dups l) as [|x [|] ]; try done.
    set_solver.
  - intros Hall. destruct l as [|x l]; [done|]. pose proof (NoDup_remove_dups (x :: l)) as Hnd.
    assert (Hx : x ∈ remove_dups (x :: l)) by (apply elem_of_remove_dups; left).
    destruct (remove_dups (x :: l)) as [|a [|b k] ] eqn:Hr; [set_solver|done|]. exfalso.
    assert (a = b) as ->. { apply Hall; apply elem_of_remove_dups; rewrite Hr; set_solver. }
    apply NoDup_cons in Hnd as [Hn _]. set_solver.
Qed.

Lemma rfold_checks {A} (f : A -> result unit) l : rfold (fun _ a => f a) tt l = Ok tt <-> forall a, a ∈ l -> f a = Ok tt.
Proof.
  induction l as [|a l IH]; cbn [rfold]; [set_solver|]. rewrite rbind_Ok. split.
  - intros ([] & Ha & Hl) b [->|Hb]%elem_of_cons; [done|]. by apply IH.
  - intros Hall. exists tt. split; [apply Hall; left|]. apply IH. intros b Hb. apply Hall. by right.
Qed.

Record row_good (r : row) : Prop := {
  rg_nonempty : true ∈ r_mask r;
  rg_label : 0 <= r_label r < 4;
  rg_span : 0 <= r_start r <= r_entry r /\ r_entry r < r_end r;
  rg_inside : forall p, (p, true) ∈ zip (r_pc r) (r_mask r) -> r_start r <= p < r_end r;
}.

Lemma row_good_checks r : row_static r = true /\ row_inside r = true <-> row_good r.
Proof.
  unfold row_static, row_inside. rewrite !andb_true_iff, existsb_exists, forallb_forall, !Z.leb_le, !Z.ltb_lt.
  setoid_rewrite <- list_elem_of_In. split.
  - intros [ [ [ [ [ (b & Hb & Hid) Hl] H0] Hse] He] Hin]. constructor; [by destruct b|lia|lia|].
    intros p Hp. specialize (Hin _ Hp). simpl in Hin. bool_prop. rewrite orb_false_r in Hin. bool_prop. lia.
  - intros [Hm Hl Hs Hin]. split_and!; try lia; [exists true; done|]. intros [p []] Hp; simpl; [|by rewrite orb_true_r].
    specialize (Hin _ Hp). rewrite (proj2 (Z.leb_le _ _)), (proj2 (Z.ltb_lt _ _)) by lia. done.
Qed.

(** The labels of the rows of one location. *)
Definition labels_at (data : list row) (start : Z) : list Z := r_label <$> filter (fun r => r_start r = start) data.

Record location_good (data : list row) (start : Z) : Prop := {
  lg_train : forall r r', r ∈ data -> r' ∈ data -> r_start r = start -> r_start r' = start -> r_train r = r_train r';
  lg_layout : forall r r', r ∈ data -> r' ∈ data -> r_start r = start -> r_start r' = start -> r_layout r = r_layout r';
  lg_balanced : forall l, 0 <= l < 4 -> count l (labels_at data start) = count 0 (labels_at data start) /\ 0 < count l (labels_at data start);
}.

Lemma check_location_good data start : (forall r, r ∈ data -> row_good r) -> start ∈ r_start <$> data ->
  check_location data start = Ok tt <-> location_good data start.
Proof.
  intros Hrow (r0 & -> & Hr0)%list_elem_of_fmap. set (start := r_start r0).
  set (sel := filter (fun r => r_start r = start) data).
  assert (Hsel : forall r, r ∈ sel <-> r_start r = start /\ r ∈ data) by (intros r; unfold sel; by rewrite list_elem_of_filter).
  assert (Hone : forall {B} `{EqDecision B} (f : row -> B), length (remove_dups (f <$> sel)) = 1%nat <->
    forall r r', r ∈ data -> r' ∈ data -> r_start r = start -> r_start r' = start -> f r = f r').
  { intros B eq f. rewrite one_value.
    - setoid_rewrite list_elem_of_fmap. split.
      + intros Hall r r' Hr Hr' Hs Hs'. apply Hall; eexists; (split; [done|]); by apply Hsel.
      + intros Hall a b (r & -> & Hr%Hsel) (r' & -> & Hr'%Hsel). apply Hall; tauto.
    - intros Hn%fmap_nil_inv. assert (Hin : r0 ∈ sel) by (by apply Hsel). rewrite Hn in Hin. set_solver. }
  assert (Hbin : bincount (r_label <$> sel) 4 = (fun v => count (Z.of_nat v) (labels_at data start)) <$> seq 0 4).
  { apply bincount_below. apply Forall_fmap, Forall_forall. intros r Hr%Hsel. simpl.
    pose proof (rg_label _ (Hrow r (proj2 Hr))). lia. }
  unfold check_location. fold sel. rewrite Hbin. cbn [fmap list_fmap seq forallb head default from_option].
  change (Z.of_nat 0) with 0. change (Z.of_nat 1) with 1. change (Z.of_nat 2) with 2. change (Z.of_nat 3) with 3.
  split.
  - intros Hc. inv_res Hc. bool_prop. split; [by apply (proj1 (Hone _ _ _))|by apply (proj1 (Hone _ _ _))|]. intros l Hl.
    assert (0 <= count 0 (labels_at data start)) by (unfold count; lia).
    assert (l = 0 \/ l = 1 \/ l = 2 \/ l = 3) as [->|[->|[->| ->] ] ] by lia; simpl in *; lia.
  - intros [Ht Hl Hb]. rewrite (proj2 (Hone _ _ _) Ht), (proj2 (Hone _ _ _) Hl). cbn [Nat.eqb negb].
    destruct (Hb 0 ltac:(lia)) as [_ H0], (Hb 1 ltac:(lia)) as [H1 _], (Hb 2 ltac:(lia)) as [H2 _], (Hb 3 ltac:(lia)) as [H3 _].
    rewrite H1, H2, H3, Z.eqb_refl. simpl. rewrite (proj2 (Z.eqb_neq _ _)) by lia. done.
Qed.

(** Adjacent spans sorted by their start do not overlap exactly when no two do. *)
Lemma overlapping_sorted l : StronglySorted start_le l -> NoDup l ->
  (forall a b, a ∈ l -> b ∈ l -> a.1.1 = b.1.1 -> a = b) ->
  overlapping l = false <-> forall a b, a ∈ l -> b ∈ l -> a.1.1 < b.1.1 -> a.1.2 <= b.1.1.
Proof.
  induction 1 as [|a l Hs IH Ha]; intros Hnd Hinj; [split; [set_solver|done]|].
  apply NoDup_cons in Hnd as [Hn Hnd].
  assert (Hinj' : forall x y, x ∈ l -> y ∈ l -> x.1.1 = y.1.1 -> x = y) by (intros; apply Hinj; try done; by right).
  destruct l as [|b l].
  { split; [|done]. intros _ x y Hx%list_elem_of_singleton Hy%list_elem_of_singleton. subst. lia. }
  change (overlapping (a :: b :: l)) with ((b.1.1 <? a.1.2) || overlapping (b :: l)). rewrite orb_false_iff, (IH Hnd Hinj'), Z.ltb_ge.
  rewrite Forall_forall in Ha. inversion Hs as [|? ? _ Hb]; subst. rewrite Forall_forall in Hb. split.
  - intros [Hab Hall] x y [->|Hx]%elem_of_cons [->|Hy]%elem_of_cons Hlt; [lia| |pose proof (Ha x Hx); unfold start_le in *; lia|by apply Hall].
    apply elem_of_cons in Hy as [->|Hy]; [lia|]. pose proof (Hb y Hy). unfold start_le in *. lia.
  - intros Hall. split; [|intros x y Hx Hy; apply Hall; by right].
    apply Hall; [left|right; left|]. pose proof (Ha b ltac:(left)) as Hle. unfold start_le in Hle.
    destruct (decide (a.1.1 = b.1.1)) as [He|]; [|lia]. exfalso. apply Hn. rewrite (Hinj a b); [left|left|right; left|done].
Qed.

Lemma two_distinct (l : list Z) : (2 <= length (unique l))%nat <-> exists a b, a ∈ l /\ b ∈ l /\ a <> b.
Proof.
  pose proof (NoDup_unique l) as Hnd. setoid_rewrite <- (elem_of_unique _ l). destruct (unique l) as [|a [|b k] ]; cbn [length].
  - split; [lia|]. intros (? & ? & ? & _). set_solver.
  - split; [lia|]. intros (x & y & Hx%list_elem_of_singleton & Hy%list_elem_of_singleton & Hne). congruence.
  - split; [|lia]. intros _. exists a, b. apply NoDup_cons in Hnd as [Hn _]. split_and!; set_solver.
Qed.

(** A dataset worth training on: every row is well formed; a location has one layout
    and one side of the split, and as many rows of each of the four labels; spans of
    different locations are disjoint; each side has two locations. *)
Record good (data : list row) : Prop := {
  gd_rows : forall r, r ∈ data -> row_good r;
  gd_locations : forall r, r ∈ data -> location_good data (r_start r);
  gd_disjoint : forall r r', r ∈ data -> r' ∈ data -> r_start r < r_start r' -> r_end r <= r_start r';
  gd_two : forall t, exists r r', r ∈ data /\ r' ∈ data /\ r_train r = t /\ r_train r' = t /\ r_start r <> r_start r';
}.

Lemma check_split_good data t : check_split data t = Ok tt <->
  exists r r', r ∈ data /\ r' ∈ data /\ r_train r = t /\ r_train r' = t /\ r_start r <> r_start r'.
Proof.
  pose proof (two_distinct (r_start <$> filter (fun r => r_train r = t) data)) as H2. unfold check_split.
  destruct (Nat.ltb_spec (length (unique (r_start <$> filter (fun r => r_train r = t) data))) 2) as [Hl|Hl].
  - split; [done|]. intros (r & r' & Hr & Hr' & Ht & Ht' & Hne). exfalso. enough (2 <= length (unique (r_start <$> filter (fun r => r_train r = t) data)))%nat by lia.
    apply H2. exists (r_start r), (r_start r'). split_and!; [| |done]; apply list_elem_of_fmap_2; by apply list_elem_of_filter.
  - split; [intros _|done]. apply H2 in Hl as (a & b & (r & -> & Hr)%list_elem_of_fmap & (r' & -> & Hr')%list_elem_of_fmap & Hne).
    apply list_elem_of_filter in Hr as [Ht Hr], Hr' as [Ht' Hr']. eauto 10.
Qed.

(** Given the other checks, the sorted spans do not overlap exactly when rows agree. *)
Lemma overlapping_rows data : (forall r, r ∈ data -> location_good data (r_start r)) ->
  overlapping (merge_sort start_le (unique_layouts (r_layout <$> data))) = false <->
  forall r r', r ∈ data -> r' ∈ data -> r_start r < r_start r' -> r_end r <= r_start r'.
Proof.
  intros Hloc. set (l := merge_sort start_le (unique_layouts (r_layout <$> data))).
  assert (Hel : forall x, x ∈ l <-> exists r, x = r_layout r /\ r ∈ data).
  { intros x. unfold l. by rewrite merge_sort_Permutation, elem_of_unique_layouts, list_elem_of_fmap. }
  rewrite overlapping_sorted.
  - split.
    + intros Hall r r' Hr Hr' Hlt. apply Hall; [apply Hel; eauto|apply Hel; eauto|done].
    + intros Hall a b (r & -> & Hr)%Hel (r' & -> & Hr')%Hel. by apply Hall.
  - apply StronglySorted_merge_sort; [intros a b c; unfold start_le; lia|intros a b; unfold start_le; lia].
  - unfold l. rewrite merge_sort_Permutation. apply NoDup_unique_layouts.
  - intros a b (r & -> & Hr)%Hel (r' & -> & Hr')%Hel He. by apply (lg_layout _ _ (Hloc r' Hr')).
Qed.

Lemma validate_layout_rows data : validate_rows data = Ok tt <-> good data.
Proof.
  assert (Hrows : (forallb row_static data = true /\ forallb row_inside data = true) <-> forall r, r ∈ data -> row_good r).
  { rewrite !forallb_forall. setoid_rewrite <- list_elem_of_In. setoid_rewrite <- row_good_checks. firstorder. }
  assert (Hlocs : (forall r, r ∈ data -> row_good r) ->
    (rfold (fun _ start => check_location data start) tt (unique (r_start <$> data)) = Ok tt <-> forall r, r ∈ data -> location_good data (r_start r))).
  { intros Hr. rewrite rfold_checks. split.
    - intros Hall r Hin. apply check_location_good; [done|by apply list_elem_of_fmap_2|]. apply Hall, elem_of_unique. by apply list_elem_of_fmap_2.
    - intros Hall s Hs. rewrite elem_of_unique in Hs. apply (check_location_good data s Hr Hs).
      apply list_elem_of_fmap in Hs as (r & -> & Hin). by apply Hall. }
  unfold validate_rows. split.
  - intros Hv. inv_res Hv. bool_prop. destruct v, v0.
    assert (Hr : forall r, r ∈ data -> row_good r) by (by apply Hrows). pose proof (proj1 (Hlocs Hr) Hv0) as Hl.
    split; [done|done|by apply overlapping_rows|]. intros []; by apply check_split_good.
  - intros [Hr Hl Hd H2]. destruct (proj2 Hrows Hr) as [-> ->]. cbn [negb]. rewrite (proj2 (Hlocs Hr) Hl). cbn [rbind].
    rewrite (proj2 (overlapping_rows data Hl) Hd). rewrite (proj2 (check_split_good data true) (H2 true)). cbn [rbind].
    apply check_split_good, H2.
Qed.

(** The dtypes and shapes the five tensors must have. *)
Record shaped (d : LayoutDataset) (pc mask layout labels train : ltensor) (rows width : nat) : Prop := {
  sh_format : y_format d = Some 1;
  sh_tensors : y_pc d = Some pc /\ y_mask d = Some mask /\ y_layout d = Some layout /\ y_labels d = Some labels /\ y_train d = Some train;
  sh_dtypes : l_dtype pc = LInt64 /\ l_dtype layout = LInt64 /\ l_dtype labels = LInt64 /\ l_dtype mask = LBool /\ l_dtype train = LBool;
  sh_shapes : l_shape pc = [rows; width] /\ l_shape mask = [rows; width] /\ l_shape layout = [rows; 3%nat] /\ l_shape labels = [rows] /\ l_shape train = [rows];
  sh_nonempty : (0 < rows)%nat /\ (0 < width)%nat;
}.

Lemma validate_layout_exact d data : validate_dataset d = Ok data <->
  exists pc mask layout labels train rows width, shaped d pc mask layout labels train rows width /\
    data = rows_of rows width (l_data pc) (l_data mask) (l_data layout) (l_data labels) (l_data train) /\ good data.
Proof.
  unfold validate_dataset. split.
  - intros Hv. destruct (bool_decide (y_format d = Some 1)) eqn:Hf; [|done]. cbn [negb] in Hv.
    destruct (y_pc d) as [pc|] eqn:Hpc, (y_mask d) as [mask|] eqn:Hm, (y_layout d) as [layout|] eqn:Hla,
      (y_labels d) as [labels|] eqn:Hlb, (y_train d) as [train|] eqn:Ht; try done.
    inv_res Hv. destruct (l_shape pc) as [|rows [|width [|] ] ] eqn:Hs; try done. inv_res Hv. injection Hv as <-. bool_prop.
    destruct v. exists pc, mask, layout, labels, train, rows, width. split; [|split; [done|by apply validate_layout_rows] ].
    split; [done|done|tauto|split_and!; congruence|lia].
  - intros (pc & mask & layout & labels & train & rows & width & [Hf (-> & -> & -> & -> & ->) (-> & -> & -> & -> & ->) (-> & -> & -> & -> & ->) Hn] & -> & Hg).
    rewrite bool_decide_eq_true_2 by done. rewrite !bool_decide_eq_true_2 by done. cbn [negb orb].
    destruct rows, width; try lia. cbn [Nat.eqb orb]. rewrite (proj2 (validate_layout_rows _) Hg). done.
Qed.

(** [validate_dataset] accepts a layout dataset exactly when its five tensors have
    the expected types and shapes and its rows are good: traces that are not empty
    and stay inside their text span, one layout and one side of the split per
    location, the four labels equally often at each, disjoint spans (sorting the
    spans and comparing neighbours finds every overlap) and two locations on each
    side of the split; it then returns its rows. *)
Theorem layout_dataset_accepted_exactly d data : validate_dataset d = Ok data <->
  exists pc mask layout labels train rows width, shaped d pc mask layout labels train rows width /\
    data = rows_of rows width (l_data pc) (l_data mask) (l_data layout) (l_data labels) (l_data train) /\ good data.
Proof. apply validate_layout_exact. Qed.

(** The rows of tensors whose data fill their shapes are as wide as the shape says. *)
Definition rectangular (width : nat) (data : list row) : Prop :=
  Forall (fun r => length (r_pc r) = width /\ length (r_mask r) = width) data.

Lemma rows_of_rectangular rows width pc mask layout labels train :
  length pc = (rows * width)%nat -> length mask = (rows * width)%nat ->
  rectangular width (rows_of rows width pc mask layout labels train).
Proof.
  intros Hp Hm. apply Forall_fmap, Forall_forall. intros i Hi%elem_of_seq. simpl. rewrite length_fmap.
  assert (i * width + width <= rows * width)%nat by nia. by rewrite !length_slice by lia.
Qed.
