(* ===== verification/LayoutTokens.v ===== *)
(** * Tokens of relocated code ([examples/learn_layout.py]: features and vocabulary)

    What a model is given: a token per block, its position in the vocabulary of the
    training rows. Tokens of normalized addresses do not depend on where the code
    was loaded; no vocabulary is larger than the one of raw addresses, which sizes
    every model of a comparison; wrong metadata is wrong for every row. *)

From stdpp Require Import sorting.
From S2P Require Import Prelude Batch Features TraceSketch DigitCounts ContextBlocks LayoutData.

(** ** Selections *)

Lemma select_rows {A} (f : row -> A) data : select (r_train <$> data) (f <$> data) = f <$> filter (fun r => r_train r = true) data.
Proof.
  unfold select. induction data as [|r data IH]; [done|]. cbn [fmap list_fmap zip_with].
  destruct (r_train r) eqn:Ht; [rewrite !filter_cons_True by done|rewrite !filter_cons_False by (simpl; congruence)]; cbn [fmap list_fmap]; [|done].
  f_equal. apply IH.
Qed.

Lemma select_elem {A} (m : list bool) (l : list A) x : x ∈ select m l <-> (true, x) ∈ zip m l.
Proof.
  unfold select. rewrite list_elem_of_fmap. split.
  - intros ([b y] & -> & [Hb Hin]%list_elem_of_filter). simpl in *. by subst.
  - intros Hin. exists (true, x). split; [done|]. by apply list_elem_of_filter.
Qed.
Lemma zip_flip {A B} (l : list A) (m : list B) a b : (b, a) ∈ zip m l <-> (a, b) ∈ zip l m.
Proof.
  revert m. induction l as [|x l IH]; intros [|y m]; cbn [zip_with]; [set_solver..|]. rewrite !elem_of_cons, IH. naive_solver.
Qed.
Lemma zip_concat_rows {A B} (f : row -> list A) (g : row -> list B) data : (forall r, r ∈ data -> length (f r) = length (g r)) ->
  zip (concat (f <$> data)) (concat (g <$> data)) = concat ((fun r => zip (f r) (g r)) <$> data).
Proof.
  induction data as [|r data IH]; intros Hl; [done|]. cbn [fmap list_fmap concat].
  rewrite zip_with_app by (apply Hl; left). f_equal. apply IH. intros r' Hr'. apply Hl. by right.
Qed.

(** The values of the blocks of one row. *)
Definition row_values (values : row -> list Z) (masked : row -> list bool) (r : row) (x : Z) : Prop := (x, true) ∈ zip (values r) (masked r).

Lemma elem_of_vocabulary values masked data x : (forall r, r ∈ data -> length (values r) = length (masked r)) ->
  x ∈ fit_vocabulary (values <$> data) (masked <$> data) (r_train <$> data) <->
  exists r, r ∈ data /\ r_train r = true /\ row_values values masked r x.
Proof.
  intros Hl. unfold fit_vocabulary, row_values. rewrite elem_of_unique, select_elem, !select_rows, zip_concat_rows.
  2:{ intros r [_ Hr]%list_elem_of_filter. symmetry. by apply Hl. }
  rewrite elem_of_concat. split.
  - intros (l & (r & -> & [Ht Hr]%list_elem_of_filter)%list_elem_of_fmap & Hx). exists r. split_and!; [done|done|by apply zip_flip].
  - intros (r & Hr & Ht & Hx). eexists. split; [|by apply zip_flip].
    apply list_elem_of_fmap. eexists. split; [done|]. by apply list_elem_of_filter.
Qed.

(** ** Tokens *)

Section tokens.
Context `{SearchLaws}.

(** A strictly sorted list has as many elements below the one at [i]. *)
Lemma below_index l : StronglySorted Z.le l -> NoDup l -> forall i v, l !! i = Some v -> length (filter (fun x => x < v) l) = i.
Proof.
  induction 1 as [|a l Hs IH Ha]; intros Hnd i v Hi; [done|]. apply NoDup_cons in Hnd as [Hn Hnd]. rewrite Forall_forall in Ha.
  destruct i as [|i]; simpl in Hi.
  - injection Hi as ->. rewrite filter_cons_False by lia. apply length_zero_iff_nil, elem_of_nil_inv.
    intros x [Hx Hin]%list_elem_of_filter. specialize (Ha x Hin). lia.
  - pose proof (list_elem_of_lookup_2 _ _ _ Hi) as Hin. specialize (Ha v Hin). rewrite filter_cons_True by (destruct (decide (a = v)); [congruence|lia]).
    cbn [length]. f_equal. by apply IH.
Qed.

Lemma encode_known l i v : StronglySorted Z.le l -> NoDup l -> l !! i = Some v -> encode_value l v = Z.of_nat i + 1.
Proof.
  intros Hs Hnd Hi. unfold encode_value. rewrite searchsorted_left by done. rewrite (below_index _ Hs Hnd _ _ Hi).
  pose proof (lookup_lt_Some _ _ _ Hi) as Hlt. rewrite (proj2 (Z.ltb_lt _ _)) by lia.
  replace (Z.to_nat (Z.min _ _)) with i by lia. rewrite (nth_lookup_Some _ _ _ _ Hi), Z.eqb_refl. done.
Qed.
Lemma encode_unknown l v : StronglySorted Z.le l -> v ∉ l -> encode_value l v = 0.
Proof.
  intros Hs Hv. unfold encode_value. rewrite searchsorted_left by done. destruct (Z.ltb_spec (Z.of_nat (length (filter (fun x => x < v) l))) (Z.of_nat (length l))) as [Hlt|]; [|done].
  cbn [andb]. match goal with |- context [nth ?i l 0 =? v] => destruct (Z.eqb_spec (nth i l 0) v) as [He|]; [|done] end.
  exfalso. apply Hv. rewrite <- He. apply list_elem_of_In, nth_In. lia.
Qed.

(** The token of a value: positive exactly for the values of the vocabulary, which it tells apart. *)
Lemma token_spec l v : StronglySorted Z.le l -> NoDup l ->
  0 <= encode_value l v <= Z.of_nat (length l) /\
  (v ∈ l -> l !! Z.to_nat (encode_value l v - 1) = Some v /\ 0 < encode_value l v) /\ (v ∉ l -> encode_value l v = 0).
Proof.
  intros Hs Hnd. destruct (decide (v ∈ l)) as [Hin|Hn]; [|rewrite (encode_unknown l v Hs Hn); split; [lia|tauto] ].
  apply list_elem_of_lookup in Hin as [i Hi]. rewrite (encode_known l i v Hs Hnd Hi). pose proof (lookup_lt_Some _ _ _ Hi).
  split; [lia|]. split; [|intros []; by eapply list_elem_of_lookup_2]. intros _. split; [|lia]. by replace (Z.to_nat _) with i by lia.
Qed.
End tokens.

(** ** The views of a comparison

    What each mode of the comparison feeds the model, per row: addresses, addresses
    relative to the start of the text, or the start alone. *)

Definition pc_of (r : row) : list Z := r_pc r.
Definition offsets_of (r : row) : list Z := (fun p => int64_sub p (r_start r)) <$> r_pc r.
Definition start_of (r : row) : list Z := [r_start r].
Definition one_mask (r : row) : list bool := [true].

Lemma address_features_rows data : address_features (r_pc <$> data) (r_layout <$> data) true = offsets_of <$> data.
Proof. unfold address_features. induction data as [|r data IH]; [done|]. cbn [fmap list_fmap zip_with]. f_equal. apply IH. Qed.

(** Two rows of the same code at two locations: the same blocks, at the same offsets. *)
Record relocated (r r' : row) : Prop := {
  rl_mask : r_mask r' = r_mask r;
  rl_train : r_train r' = r_train r;
  rl_offsets : Forall2 (fun p (q : Z * bool) => q.2 = true -> p.1 - r_start r = q.1 - r_start r') (zip (r_pc r) (r_mask r)) (zip (r_pc r') (r_mask r'));
  rl_width : length (r_pc r) = length (r_mask r) /\ length (r_pc r') = length (r_mask r');
}.

Lemma relocated_values r r' x : relocated r r' -> row_values offsets_of r_mask r x <-> row_values offsets_of r_mask r' x.
Proof.
  intros [Hm _ Hf [Hl Hl'] ]. unfold row_values, offsets_of. revert Hf Hl Hl'. rewrite Hm. generalize (r_start r) (r_start r').
  generalize (r_pc r) (r_pc r') (r_mask r). intros l l' m s s'. revert l' m.
  induction l as [|p l IH]; intros [|p' l'] [|b m]; try done. intros Hf Hl Hl'. cbn [fmap list_fmap zip_with].
  inversion Hf as [|? ? ? ? Hp Hf']; subst. rewrite !elem_of_cons, (IH l' m); [|done|simpl in *; lia..].
  destruct b; [|naive_solver]. simpl in Hp. unfold int64_sub. rewrite Hp by done. done.
Qed.

Lemma unique_ext l l' : (forall x, x ∈ l <-> x ∈ l') -> unique l = unique l'.
Proof.
  intros Hx. apply (StronglySorted_unique Z.le); [apply unique_sorted..|]. apply NoDup_Permutation; [apply NoDup_unique..|].
  intros x. by rewrite !elem_of_unique.
Qed.

Lemma vocabulary_ext values values' masked masked' data data' :
  (forall r, r ∈ data -> length (values r) = length (masked r)) -> (forall r, r ∈ data' -> length (values' r) = length (masked' r)) ->
  Forall2 (fun r r' => r_train r' = r_train r /\ forall x, row_values values masked r x <-> row_values values' masked' r' x) data data' ->
  fit_vocabulary (values <$> data) (masked <$> data) (r_train <$> data) = fit_vocabulary (values' <$> data') (masked' <$> data') (r_train <$> data').
Proof.
  intros Hl Hl' Hf. pose proof (fun x => elem_of_vocabulary values masked data x Hl) as He.
  pose proof (fun x => elem_of_vocabulary values' masked' data' x Hl') as He'. unfold fit_vocabulary in *.
  apply unique_ext. intros x. specialize (He x). specialize (He' x). rewrite elem_of_unique in He, He'. rewrite He, He'. clear -Hf.
  split.
  - intros (r & Hr & Ht & Hx). apply list_elem_of_lookup in Hr as [i Hi].
    destruct (Forall2_lookup_l _ _ _ _ _ Hf Hi) as (r' & Hi' & Htr & Hv). exists r'. split_and!; [by eapply list_elem_of_lookup_2|congruence|by apply Hv].
  - intros (r' & Hr' & Ht & Hx). apply list_elem_of_lookup in Hr' as [i Hi'].
    destruct (Forall2_lookup_r _ _ _ _ _ Hf Hi') as (r & Hi & Htr & Hv). exists r. split_and!; [by eapply list_elem_of_lookup_2|congruence|by apply Hv].
Qed.

Section views.
Context `{SearchLaws}.

(** The tokens a model pools: those under the mask. *)
Definition shown (mask : list bool) (tokens : list Z) : list (option Z) := zip_with (fun (m : bool) t => if m then Some t else None) mask tokens.
Definition shown_tokens (data : list row) : result (list (list (option Z))) :=
  let values := address_features (r_pc <$> data) (r_layout <$> data) true in
  let! tokens := encode values (fit_vocabulary values (r_mask <$> data) (r_train <$> data)) in
  Ok (zip_with shown (r_mask <$> data) tokens).

Lemma relocated_shown (g : Z -> Z) r r' : relocated r r' -> shown (r_mask r) (g <$> offsets_of r) = shown (r_mask r') (g <$> offsets_of r').
Proof.
  intros [Hm _ Hf [Hl Hl'] ]. unfold shown, offsets_of. revert Hf Hl Hl'. rewrite Hm. generalize (r_start r) (r_start r').
  generalize (r_pc r) (r_pc r') (r_mask r). intros l l' m s s'. revert l' m.
  induction l as [|p l IH]; intros [|p' l'] [|b m]; try done. intros Hf Hl Hl'. cbn [fmap list_fmap zip_with].
  inversion Hf as [|? ? ? ? Hp Hf']; subst. f_equal; [|apply IH; [done|simpl in *; lia..] ].
  destruct b; [|done]. simpl in Hp. unfold int64_sub. rewrite Hp by done. done.
Qed.

Lemma relocated_vocabulary data data' : Forall2 relocated data data' ->
  fit_vocabulary (offsets_of <$> data) (r_mask <$> data) (r_train <$> data) =
  fit_vocabulary (offsets_of <$> data') (r_mask <$> data') (r_train <$> data').
Proof.
  intros Hf. apply vocabulary_ext.
  - intros r Hr. apply list_elem_of_lookup in Hr as [i Hi]. destruct (Forall2_lookup_l _ _ _ _ _ Hf Hi) as (r' & _ & Hrr).
    unfold offsets_of. rewrite length_fmap. apply (rl_width _ _ Hrr).
  - intros r' Hr. apply list_elem_of_lookup in Hr as [i Hi]. destruct (Forall2_lookup_r _ _ _ _ _ Hf Hi) as (r & _ & Hrr).
    unfold offsets_of. rewrite length_fmap. apply (rl_width _ _ Hrr).
  - eapply Forall2_impl; [exact Hf|]. intros r r' Hrr. split; [apply (rl_train _ _ Hrr)|]. intros x. by apply relocated_values.
Qed.

(** C28: loading the executable elsewhere changes nothing a model sees. When every row
    of two captures runs the same blocks at the same offsets of its own text span,
    normalized addresses give the same vocabulary and the same token at every
    block of every row, and encoding fails for one exactly when it fails for the other. *)
Theorem relocation_invariant data data' : Forall2 relocated data data' -> shown_tokens data = shown_tokens data'.
Proof.
  intros Hf. unfold shown_tokens. cbv zeta. rewrite !address_features_rows, (relocated_vocabulary _ _ Hf).
  generalize (fit_vocabulary (offsets_of <$> data') (r_mask <$> data') (r_train <$> data')). intros voc. unfold encode.
  assert (Hlen : length (concat (offsets_of <$> data)) = length (concat (offsets_of <$> data'))).
  { clear voc. induction Hf as [|r r' data data' Hr _ IH]; [done|]. cbn [fmap list_fmap concat]. rewrite !length_app, IH. f_equal.
    unfold offsets_of. rewrite !length_fmap. destruct Hr as [Hm _ _ [-> ->] ]. by rewrite Hm. }
  rewrite Hlen. destruct (_ && _); [done|]. cbn [rbind]. f_equal. clear Hlen.
  induction Hf as [|r r' data data' Hr _ IH]; [done|]. cbn [fmap list_fmap zip_with]. f_equal; [by apply relocated_shown|done].
Qed.
End views.

(** ** Capacity *)

(** A list whose values are images of another's has no more distinct ones. *)
Lemma unique_image (f : Z -> Z) l l' : (forall x, x ∈ l -> exists y, y ∈ l' /\ x = f y) -> (length (unique l) <= length (unique l'))%nat.
Proof.
  intros Hf. rewrite <- (length_fmap f (unique l')). apply submseteq_length, NoDup_submseteq; [apply NoDup_unique|].
  intros x Hx. rewrite elem_of_unique in Hx. destruct (Hf x Hx) as (y & Hy & ->). apply list_elem_of_fmap_2. by apply elem_of_unique.
Qed.

(** The start of the text span an address lies in. *)
Definition home (data : list row) (p : Z) : Z :=
  from_option (fun r => r_start r.2) 0 (list_find (fun r => r_start r <= p < r_end r) data).

Lemma home_start data r p : good data -> r ∈ data -> r_start r <= p < r_end r -> home data p = r_start r.
Proof.
  intros Hg Hr Hp. unfold home. destruct (list_find _ data) as [ [i r']|] eqn:Hf; simpl.
  - apply list_find_Some in Hf as (Hi & Hp' & _). apply list_elem_of_lookup_2 in Hi as Hr'.
    pose proof (gd_disjoint _ Hg r r' Hr Hr'). pose proof (gd_disjoint _ Hg r' r Hr' Hr). lia.
  - apply list_find_None in Hf. rewrite Forall_forall in Hf. exfalso. by apply (Hf r Hr).
Qed.

Lemma zip_fmap_l {A B C} (f : A -> B) (l : list A) (m : list C) x b : (x, b) ∈ zip (f <$> l) m <-> exists p, (p, b) ∈ zip l m /\ x = f p.
Proof.
  revert m. induction l as [|a l IH]; intros [|c m]; cbn [fmap list_fmap zip_with]; [set_solver..|]. rewrite elem_of_cons. setoid_rewrite elem_of_cons.
  rewrite IH. naive_solver.
Qed.

Section capacity.
Context (data : list row) (width : nat) (Hg : good data) (Hw : rectangular width data).

Let raw := fit_vocabulary (r_pc <$> data) (r_mask <$> data) (r_train <$> data).

Lemma rectangular_row r : r ∈ data -> length (r_pc r) = length (r_mask r).
Proof. intros Hr. unfold rectangular in Hw. rewrite Forall_forall in Hw. destruct (Hw r Hr). congruence. Qed.

Lemma some_value r : r ∈ data -> exists p, row_values r_pc r_mask r p.
Proof.
  intros Hr. pose proof (rg_nonempty _ (gd_rows _ Hg r Hr)) as Hm. apply list_elem_of_lookup in Hm as [i Hi]. unfold row_values.
  pose proof (rectangular_row r Hr) as Hl. pose proof (lookup_lt_Some _ _ _ Hi). destruct (lookup_lt_is_Some_2 (r_pc r) i) as [p Hp]; [lia|].
  exists p. apply (list_elem_of_lookup_2 _ i). rewrite lookup_zip_with, Hp. simpl. by rewrite Hi.
Qed.

(** A view whose values are a function of raw training addresses needs no more tokens. *)
Lemma view_fits values masked (f : Z -> Z) : (forall r, r ∈ data -> length (values r) = length (masked r)) ->
  (forall r x, r ∈ data -> row_values values masked r x -> exists p, row_values r_pc r_mask r p /\ x = f p) ->
  (length (fit_vocabulary (values <$> data) (masked <$> data) (r_train <$> data)) <= length raw)%nat.
Proof.
  intros Hl Hf. apply (unique_image f). intros x Hx.
  assert (Hv : x ∈ fit_vocabulary (values <$> data) (masked <$> data) (r_train <$> data)) by (by apply elem_of_unique).
  apply elem_of_vocabulary in Hv as (r & Hr & Ht & Hv); [|done]. destruct (Hf r x Hr Hv) as (p & Hp & ->).
  exists p. split; [|done]. apply elem_of_unique.
  apply (elem_of_vocabulary r_pc r_mask); [apply rectangular_row|]. eauto.
Qed.

Lemma offsets_fit : (length (fit_vocabulary (offsets_of <$> data) (r_mask <$> data) (r_train <$> data)) <= length raw)%nat.
Proof.
  apply (view_fits _ _ (fun p => int64_sub p (home data p))); [intros r Hr; unfold offsets_of; rewrite length_fmap; by apply rectangular_row|].
  intros r x Hr (p & Hp & ->)%zip_fmap_l. exists p. split; [done|]. rewrite (home_start data r p); [done|done|done|].
  by apply (rg_inside _ (gd_rows _ Hg r Hr)).
Qed.

Lemma starts_fit : (length (fit_vocabulary (start_of <$> data) (one_mask <$> data) (r_train <$> data)) <= length raw)%nat.
Proof.
  apply (view_fits _ _ (home data)); [done|]. intros r x Hr Hx%list_elem_of_singleton. injection Hx as ->.
  destruct (some_value r Hr) as [p Hp]. exists p. split; [done|]. symmetry. apply home_start; [done|done|].
  by apply (rg_inside _ (gd_rows _ Hg r Hr)).
Qed.

(** Some training row has a block, in every view. *)
Lemma vocabulary_nonempty values masked : (forall r, r ∈ data -> length (values r) = length (masked r)) ->
  (forall r, r ∈ data -> exists x, row_values values masked r x) ->
  fit_vocabulary (values <$> data) (masked <$> data) (r_train <$> data) <> [].
Proof.
  intros Hl Hv Hn. destruct (gd_two _ Hg true) as (r & _ & Hr & _ & Ht & _). destruct (Hv r Hr) as [x Hx].
  assert (Hin : x ∈ fit_vocabulary (values <$> data) (masked <$> data) (r_train <$> data)) by (apply elem_of_vocabulary; eauto).
  rewrite Hn in Hin. set_solver.
Qed.
End capacity.

(** ** Wrong metadata *)

Lemma position_of_lookup l ls : l ∈ ls -> ls !! position_of l ls = Some l.
Proof.
  intros Hin. unfold position_of. destruct (list_find_elem_of (fun x => x = l) ls l Hin eq_refl) as [ [i x] Hf]. rewrite Hf. simpl.
  by apply list_find_Some in Hf as (Hi & -> & _).
Qed.

(** The next location, cyclically. *)
Definition next_location (locations : list (Z * Z * Z)) (l : Z * Z * Z) : Z * Z * Z :=
  nth ((position_of l locations + 1) mod length locations) locations (0, 0, 0).

Lemma next_location_spec locations l : NoDup locations -> (2 <= length locations)%nat -> l ∈ locations ->
  next_location locations l ∈ locations /\ next_location locations l <> l.
Proof.
  intros Hnd Hlen Hl. pose proof (position_of_lookup _ _ Hl) as Hp. pose proof (lookup_lt_Some _ _ _ Hp) as Hlt.
  set (i := position_of l locations) in *. set (n := length locations) in *. unfold next_location. fold n i.
  pose proof (Nat.mod_upper_bound (i + 1) n ltac:(lia)) as Hm.
  assert (Hj : locations !! ((i + 1) mod n)%nat = Some (nth ((i + 1) mod n) locations (0, 0, 0))).
  { destruct (nth_lookup_or_length locations ((i + 1) mod n) (0, 0, 0)); [done|lia]. }
  split; [by eapply list_elem_of_lookup_2|]. intros He. rewrite He in Hj.
  pose proof (NoDup_lookup _ _ _ _ Hnd Hp Hj) as Heq. destruct (decide (i + 1 = n)%nat) as [Hn|Hn].
  - rewrite Hn, Nat.Div0.mod_same in Heq. lia.
  - rewrite Nat.mod_small in Heq by lia. lia.
Qed.

Lemma two_layouts (l : list (Z * Z * Z)) a b : a ∈ l -> b ∈ l -> a <> b -> (2 <= length (unique_layouts l))%nat.
Proof.
  intros Ha Hb Hne. rewrite <- elem_of_unique_layouts in Ha, Hb. destruct (unique_layouts l) as [|x [|] ]; cbn [length]; [set_solver| |lia].
  apply list_elem_of_singleton in Ha, Hb. congruence.
Qed.

(** The held-out rows of a good dataset get the layout of another held-out location. *)
Definition heldout (data : list row) : list row := filter (fun r => r_train r = false) data.

Lemma wrong_layout_good data : good data -> exists wrong, wrong_layout (r_layout <$> heldout data) = Ok wrong /\
  wrong = (fun r => next_location (unique_layouts (r_layout <$> heldout data)) (r_layout r)) <$> heldout data /\
  Forall2 (fun r w => w.1.1 <> r_start r /\ exists r', r' ∈ heldout data /\ r_layout r' = w) (heldout data) wrong.
Proof.
  intros Hg. destruct (gd_two _ Hg false) as (r1 & r2 & Hr1 & Hr2 & Ht1 & Ht2 & Hne).
  assert (Hh : forall r, r ∈ heldout data <-> r_train r = false /\ r ∈ data) by (intros; unfold heldout; by rewrite list_elem_of_filter).
  set (ls := r_layout <$> heldout data).
  assert (H2 : (2 <= length (unique_layouts ls))%nat).
  { apply (two_layouts _ (r_layout r1) (r_layout r2)); [apply list_elem_of_fmap_2, Hh; done..|]. unfold r_start in Hne. congruence. }
  eexists. split_and!; [|reflexivity|].
  - unfold wrong_layout. rewrite (proj2 (Nat.ltb_ge _ _)) by exact H2. f_equal. unfold ls. by rewrite <- list_fmap_compose.
  - apply Forall2_fmap_r, Forall_Forall2_diag, Forall_forall. intros r Hr.
    destruct (next_location_spec (unique_layouts ls) (r_layout r)) as [Hin Hn]; [apply NoDup_unique_layouts|done| |].
    { apply elem_of_unique_layouts. by apply list_elem_of_fmap_2. }
    rewrite elem_of_unique_layouts in Hin. apply list_elem_of_fmap in Hin as (r' & Heq & Hr'). split; [|exists r'; split; [done|by rewrite <- Heq] ].
    intros Hs. apply Hn. rewrite Heq in *. apply Hh in Hr as [_ Hr], Hr' as [_ Hr'].
    by apply (lg_layout _ _ (gd_locations _ Hg r Hr)).
Qed.

(** ** Witnesses *)

(** Four locations, the first two for training; at each, the block of path [k] at
    offset [4 k], one row per path. *)
Definition example_row (start : Z) (train : bool) (label : Z) : row :=
  MkRow [start + 4 * label; 0] [true; false] (start, start + 64, start + 8) label train.
Definition example_rows (base : Z) : list row :=
  ([(base, true); (base + 100, true); (base + 200, false); (base + 300, false)] : list (Z * bool)) ≫= fun p => example_row p.1 p.2 <$> [0; 1; 2; 3].

Lemma relocation_invariant_witness : Forall2 relocated (example_rows 1000) (example_rows 7000) /\
  shown_tokens (example_rows 1000) = shown_tokens (example_rows 7000).
Proof.
  assert (Hr : Forall2 relocated (example_rows 1000) (example_rows 7000)).
  { repeat constructor; simpl; try lia; discriminate. }
  split; [exact Hr|]. apply (relocation_invariant (example_rows 1000) (example_rows 7000) Hr).
Defined.
