(* ===== verification/LayoutTrain.v ===== *)
(** * Learning across locations ([examples/learn_layout.py]: [train_one], [run])

    The comparison of four views of a dataset under one budget: the tokens each view
    gives the model, the epochs, the scores of the held-out rows, the wrong-metadata
    control and the reload of every checkpoint. The network's numbers are arguments:
    the score of one row (the network pools the blocks of a row and never mixes
    rows), the losses and the gradient step. *)

From stdpp Require Import sorting.
From S2P Require Import Prelude Batch Features TraceSketch DigitCounts DigitDataset ContextBlocks LayoutData LayoutTokens.

Definition MODES : list string := ["raw"; "normalized"; "metadata_only"; "shuffled_labels"].

Section train.
Context `{SearchOps} {G : Type} `{PermOps G}.
(** Weights, optimizer and weights, the scores of a row, floats. *)
Context {W M L F : Type} (weights : M -> W) (path_model : Z -> nat -> M) (row_logits : W -> list Z -> list bool -> L).
Context (logits_finite : L -> bool) (isfinite : F -> bool) (cross_entropy : list L -> list Z -> F) (argmax1 : L -> Z).
Context (fraction : Z -> Z -> F) (correct_probability : list L -> list Z -> F).
Context (gradients_finite : M -> list (list Z) -> list (list bool) -> list Z -> bool).
Context (optimizer_step : M -> list (list Z) -> list (list bool) -> list Z -> M).

(** [PathModel.forward]: a token outside the embedding table is an error. *)
Definition forward (capacity : nat) (w : W) (tokens : list (list Z)) (mask : list (list bool)) : result (list L) :=
  raise! IndexError "index out of range in self"
    when existsb (fun t => (t <? 0) || (Z.of_nat capacity <=? t)) (concat tokens) in
  Ok (zip_with (row_logits w) tokens mask).

Definition require_finite (ok : bool) (name : string) : result unit :=
  raise! RuntimeError ("Nonfinite " +:+ name +:+ "; stop before saving learning results") when negb ok in Ok tt.

(** [(prediction == labels).float().mean()] *)
Definition accuracy_of (logits : list L) (labels : list Z) : F :=
  fraction (Z.of_nat (length (filter (fun p => argmax1 p.1 = p.2) (zip logits labels)))) (Z.of_nat (length labels)).

Record Score := MkScore {
  sc_epoch : Z;
  sc_train_loss : F;
  sc_train_accuracy : F;
  sc_heldout_accuracy : F;
  sc_heldout_loss : F;
  sc_heldout_probability : F;
}.

(** What the epochs of one comparison share. *)
Record Task := MkTask {
  tk_capacity : nat;
  tk_tokens : list (list Z);
  tk_mask : list (list bool);
  tk_train : list bool;
  tk_training_labels : list Z;
  tk_heldout_labels : list Z;
}.
Definition others (t : Task) : list bool := negb <$> tk_train t.

(** The scores of an epoch, before its step. *)
Definition evaluate (t : Task) (epoch : Z) (m : M) : result (list L * Score) :=
  let! logits := forward (tk_capacity t) (weights m) (tk_tokens t) (tk_mask t) in
  let! _ := require_finite (forallb logits_finite logits) "logits" in
  let loss := cross_entropy (select (tk_train t) logits) (tk_training_labels t) in
  let heldout := select (others t) logits in
  let heldout_loss := cross_entropy heldout (tk_heldout_labels t) in
  let! _ := require_finite (isfinite loss && isfinite heldout_loss) "loss" in
  Ok (logits, MkScore epoch loss (accuracy_of (select (tk_train t) logits) (tk_training_labels t))
    (accuracy_of heldout (tk_heldout_labels t)) heldout_loss (correct_probability heldout (tk_heldout_labels t))).

(** One gradient step on the training rows. *)
Definition fit_step (t : Task) (m : M) : result M :=
  let tokens := select (tk_train t) (tk_tokens t) in
  let mask := select (tk_train t) (tk_mask t) in
  let! logits := forward (tk_capacity t) (weights m) tokens mask in
  let! _ := require_finite (isfinite (cross_entropy logits (tk_training_labels t))) "training loss" in
  let! _ := require_finite (gradients_finite m tokens mask (tk_training_labels t)) "gradient" in
  Ok (optimizer_step m tokens mask (tk_training_labels t)).

(** [for epoch in range(epochs + 1)], with [remaining] steps left. *)
Fixpoint epochs_loop (t : Task) (remaining : nat) (epoch : Z) (m : M) (history : list Score) : result (M * list L * list Score) :=
  let! r := evaluate t epoch m in
  match remaining with
  | O => Ok (m, r.1, history ++ [r.2])
  | S remaining => let! m := fit_step t m in epochs_loop t remaining (epoch + 1) m (history ++ [r.2])
  end.

Record Outcome := MkOutcome {
  oc_mode : string;
  oc_seed : Z;
  oc_history : list Score;
  oc_vocabulary_size : nat;
  oc_capacity : nat;
  oc_unknown_fraction : F;
  oc_wrong_metadata_accuracy : option F;
}.
Record Checkpoint := MkCheckpoint {
  ck_state : W;
  ck_vocabulary : list Z;
  ck_capacity : nat;
  ck_mode : string;
  ck_seed : Z;
  ck_predictions : list Z;
}.

(** The values and the mask a mode feeds the model. *)
Definition view (mode : string) (pc : list (list Z)) (mask : list (list bool)) (layout : list (Z * Z * Z)) : list (list Z) * list (list bool) :=
  if bool_decide (mode = "metadata_only") then ((fun l => [l.1.1]) <$> layout, (fun _ => [true]) <$> layout)
  else (address_features pc layout (negb (bool_decide (mode = "raw"))), mask).

(** The control of the normalized mode: held-out rows under another location's layout. *)
Definition wrong_metadata (t : Task) (w : W) (vocabulary : list Z) (pc : list (list Z)) (layout : list (Z * Z * Z)) : result F :=
  let! swapped := wrong_layout (select (others t) layout) in
  let wrong := address_features (select (others t) pc) swapped true in
  let! wrong_tokens := encode wrong vocabulary in
  let! wrong_logits := forward (tk_capacity t) w wrong_tokens (select (others t) (tk_mask t)) in
  let! _ := require_finite (forallb logits_finite wrong_logits) "wrong-metadata logits" in
  Ok (accuracy_of wrong_logits (tk_heldout_labels t)).

Definition unknown_fraction (t : Task) : F :=
  let blocks := zip (concat (select (others t) (tk_tokens t))) (concat (select (others t) (tk_mask t))) in
  fraction (Z.of_nat (length (filter (fun p => p.1 = 0 /\ p.2 = true) blocks)))
    (Z.of_nat (length (filter (fun p : Z * bool => p.2 = true) blocks))).

Definition train_one (data : list row) (mode : string) (seed epochs : Z) : result (Outcome * Checkpoint) :=
  raise! ValueError "Choose a supported comparison and at least one epoch" when negb (bool_decide (mode ∈ MODES)) || (epochs <? 1) in
  let pc := r_pc <$> data in
  let layout := r_layout <$> data in
  let labels := r_label <$> data in
  let train := r_train <$> data in
  let raw_vocabulary := fit_vocabulary pc (r_mask <$> data) train in
  let '(values, mask) := view mode pc (r_mask <$> data) layout in
  let vocabulary := fit_vocabulary values mask train in
  let! tokens := encode values vocabulary in
  let capacity := (length raw_vocabulary + 1)%nat in
  raise! ValueError "Comparison vocabulary exceeds the common model capacity" when (capacity <? length vocabulary + 1)%nat in
  let training_labels := select train labels in
  let training_labels := if bool_decide (mode = "shuffled_labels")
    then (fun i => nth i training_labels 0) <$> (randperm (length training_labels) (seeded seed)).1 else training_labels in
  let t := MkTask capacity tokens mask train training_labels (select (negb <$> train) labels) in
  let! r := epochs_loop t (Z.to_nat epochs) 0 (path_model seed capacity) [] in
  let '(m, logits, history) := r in
  let! wrong := if bool_decide (mode = "normalized")
                then let! a := wrong_metadata t (weights m) vocabulary pc layout in Ok (Some a) else Ok None in
  Ok (MkOutcome mode seed history (length vocabulary) capacity (unknown_fraction t) wrong,
      MkCheckpoint (weights m) vocabulary capacity mode seed (argmax1 <$> select (others t) logits)).

(** ** [run] *)

(** What [torch.load] returns for a file [torch.save] wrote; the text of the report. *)
Context (stored : Checkpoint -> Checkpoint).

(** Trains one comparison, saves its checkpoint, loads it and predicts the held-out rows again. *)
Definition run_one (data : list row) (epochs seed : Z) (mode : string) : result Outcome :=
  let! r := train_one data mode seed epochs in
  let restored := stored r.2 in
  let held := filter (fun row => r_train row = false) data in
  let '(values, mask) := view mode (r_pc <$> held) (r_mask <$> held) (r_layout <$> held) in
  let! tokens := encode values (ck_vocabulary restored) in
  let! logits := forward (ck_capacity restored) (ck_state restored) tokens mask in
  raise! RuntimeError "Reloaded checkpoint predictions changed"
    when negb (bool_decide (argmax1 <$> logits = ck_predictions restored)) in
  Ok r.1.

Record Report := MkReport { re_epochs : Z; re_seeds : list Z; re_samples : nat; re_runs : list Outcome }.
Context (dumps : Report -> result string).

Definition run (dataset : LayoutDataset) (epochs : Z) (seeds : list Z) : result Report :=
  let! data := LayoutData.validate_dataset dataset in
  let! results := rmap (fun p : Z * string => run_one data epochs p.1 p.2) (seeds ≫= fun seed => (fun mode => (seed, mode)) <$> MODES) in
  let report := MkReport epochs seeds (length data) results in
  let! _ := dumps report in
  Ok report.

(** ** Held-out labels only score *)

(** Two datasets that differ at most in the labels of held-out rows. *)
Definition relabelled (r r' : row) : Prop :=
  r_pc r' = r_pc r /\ r_mask r' = r_mask r /\ r_layout r' = r_layout r /\ r_train r' = r_train r /\ (r_train r = true -> r_label r' = r_label r).

Lemma relabelled_columns data data' : Forall2 relabelled data data' ->
  r_pc <$> data' = r_pc <$> data /\ r_mask <$> data' = r_mask <$> data /\ r_layout <$> data' = r_layout <$> data /\
  r_train <$> data' = r_train <$> data /\ select (r_train <$> data') (r_label <$> data') = select (r_train <$> data) (r_label <$> data).
Proof.
  rewrite !select_rows. induction 1 as [|r r' data data' (Hp & Hm & Hl & Ht & Hlab) _ (IHp & IHm & IHl & IHt & IHlab)]; [done|].
  cbn [fmap list_fmap]. rewrite Hp, Hm, Hl, Ht. split_and!; [by f_equal..|]. destruct (r_train r) eqn:Htr.
  - rewrite !filter_cons_True by congruence. cbn [fmap list_fmap]. rewrite Hlab by done. by f_equal.
  - rewrite !filter_cons_False by congruence. done.
Qed.

(** The part of a score that is about the training rows. *)
Definition trained (s : Score) : Z * F * F := (sc_epoch s, sc_train_loss s, sc_train_accuracy s).
Definition relabel (t : Task) (labels : list Z) : Task :=
  MkTask (tk_capacity t) (tk_tokens t) (tk_mask t) (tk_train t) (tk_training_labels t) labels.

Lemma evaluate_relabel t labels epoch m r r' : evaluate t epoch m = Ok r -> evaluate (relabel t labels) epoch m = Ok r' ->
  r'.1 = r.1 /\ trained r'.2 = trained r.2.
Proof.
  unfold evaluate. cbn [relabel tk_capacity tk_tokens tk_mask tk_train tk_training_labels tk_heldout_labels]. intros Hr Hr'.
  inv_res Hr. injection Hr as <-. match goal with Hf : forward _ _ _ _ = Ok _ |- _ => rewrite Hf in Hr' end. inv_res Hr'. injection Hr' as <-. by simplify_eq.
Qed.

Lemma epochs_relabel t labels remaining : forall epoch m history history' r r', trained <$> history' = trained <$> history ->
  epochs_loop t remaining epoch m history = Ok r -> epochs_loop (relabel t labels) remaining epoch m history' = Ok r' ->
  r'.1 = r.1 /\ trained <$> r'.2 = trained <$> r.2.
Proof.
  induction remaining as [|remaining IH]; intros epoch m history history' r r' Hh; cbn [epochs_loop]; intros Hr Hr';
    inv_res Hr; inv_res Hr'; match goal with He : evaluate t _ _ = Ok _, He' : evaluate (relabel t labels) _ _ = Ok _ |- _ =>
      destruct (evaluate_relabel _ _ _ _ _ _ He He') as [Hl Ht] end.
  - injection Hr as <-. injection Hr' as <-. simpl. rewrite Hl, !fmap_app, Hh. simpl. by rewrite Ht.
  - match goal with Hs : fit_step t m = Ok ?a, Hs' : fit_step (relabel t labels) m = Ok ?b |- _ =>
      assert (b = a) as -> by (change (fit_step (relabel t labels) m) with (fit_step t m) in Hs'; congruence) end.
    eapply IH; [|exact Hr|exact Hr']. rewrite !fmap_app, Hh. simpl. by rewrite Ht.
Qed.

(** C27: the labels of held-out rows never train: two datasets that differ only in
    those labels give the same checkpoint (weights, vocabulary and predictions), the
    same training losses and accuracies at every epoch, whenever both finish; the
    labels change only the held-out scores. *)
Theorem heldout_labels_only_score data data' mode seed epochs o o' c c' : Forall2 relabelled data data' ->
  train_one data mode seed epochs = Ok (o, c) -> train_one data' mode seed epochs = Ok (o', c') ->
  c' = c /\ trained <$> oc_history o' = trained <$> oc_history o /\ oc_vocabulary_size o' = oc_vocabulary_size o /\
  oc_capacity o' = oc_capacity o /\ oc_unknown_fraction o' = oc_unknown_fraction o.
Proof.
  intros Hd Ho Ho'. unfold train_one in Ho, Ho'. destruct (relabelled_columns _ _ Hd) as (Hp & Hm & Hl & Ht & Hlab). rewrite Hp, Hm, Hl, Ht in Ho'. rewrite Ht in Hlab. rewrite Hlab in Ho'. clear Hp Hm Hl Ht Hlab.
  destruct (_ || _); [done|]. destruct (view mode _ _ _) as [values mask]. inv_res Ho. inv_res Ho'.
  match goal with He : encode _ _ = Ok ?a, He' : encode _ _ = Ok ?b |- _ => assert (b = a) as -> by congruence; clear He' end.
  destruct v0 as [ [m logits] history], v2 as [ [m' logits'] history']. inv_res Ho. inv_res Ho'.
  injection Ho as <- <-. injection Ho' as <- <-. simplify_eq.
  match goal with He : epochs_loop ?t _ _ _ _ = Ok (m, logits, history), He' : epochs_loop ?t' _ _ _ _ = Ok (m', logits', history') |- _ =>
    destruct (epochs_relabel t (tk_heldout_labels t') _ _ _ [] [] _ _ eq_refl He He') as [Heq Hh] end.
  simpl in Heq, Hh. injection Heq as -> ->. done.
Qed.

(** ** Only numbers can stop a comparison *)

Definition nonfinite (e : exn) : Prop := exists name, e = Exn RuntimeError ("Nonfinite " +:+ name +:+ "; stop before saving learning results").
(** A result that satisfies [P], unless numbers stopped being finite. *)
Definition safe {A} (P : A -> Prop) (c : result A) : Prop := match c with Ok a => P a | Raise e => nonfinite e end.

Lemma safe_bind {A B} (P : A -> Prop) (Q : B -> Prop) (c : result A) (k : A -> result B) :
  safe P c -> (forall a, P a -> safe Q (k a)) -> safe Q (let! a := c in k a).
Proof. destruct c; simpl; auto. Qed.
Lemma safe_require {B} (Q : B -> Prop) b name (k : result B) : safe Q k -> safe Q (let! _ := require_finite b name in k).
Proof. intros Hk. unfold require_finite. destruct b; simpl; [done|]. by eexists. Qed.

Definition view_values (mode : string) (r : row) : list Z :=
  if bool_decide (mode = "metadata_only") then start_of r else if bool_decide (mode = "raw") then pc_of r else offsets_of r.
Definition view_masked (mode : string) (r : row) : list bool := if bool_decide (mode = "metadata_only") then one_mask r else r_mask r.

Lemma view_rows mode data : view mode (r_pc <$> data) (r_mask <$> data) (r_layout <$> data) = (view_values mode <$> data, view_masked mode <$> data).
Proof.
  unfold view, view_values, view_masked. case_bool_decide; [by rewrite <- !list_fmap_compose|]. case_bool_decide; [done|].
  cbn [negb]. by rewrite address_features_rows.
Qed.

Lemma select_heldout {A} (f : row -> A) data : select (negb <$> (r_train <$> data)) (f <$> data) = f <$> heldout data.
Proof.
  unfold select, heldout. induction data as [|r data IH]; [done|]. cbn [fmap list_fmap zip_with].
  destruct (r_train r) eqn:Ht; [rewrite !filter_cons_False by (simpl; congruence)|rewrite !filter_cons_True by done]; cbn [fmap list_fmap]; [done|].
  f_equal. apply IH.
Qed.
Lemma zip_rows {A B C} (f : A -> B -> C) (a : row -> A) (b : row -> B) data : zip_with f (a <$> data) (b <$> data) = (fun r => f (a r) (b r)) <$> data.
Proof. induction data as [|r data IH]; [done|]. cbn [fmap list_fmap zip_with]. by f_equal. Qed.

(** The rows the model scores and the scores it gives, per row. *)
Definition row_tokens (vocabulary : list Z) (mode : string) (r : row) : list Z := encode_value vocabulary <$> view_values mode r.

Context {HS : SearchLaws}.

Lemma forward_encoded capacity w (values : row -> list Z) (masked : row -> list bool) data voc :
  StronglySorted Z.le voc -> NoDup voc -> (length voc < capacity)%nat ->
  forward capacity w ((fun r => encode_value voc <$> values r) <$> data) (masked <$> data) =
  Ok ((fun r => row_logits w (encode_value voc <$> values r) (masked r)) <$> data).
Proof.
  intros Hs Hnd Hc. unfold forward. rewrite zip_rows. destruct (existsb _ _) eqn:He; [|done]. exfalso.
  apply existsb_exists in He as (t & Ht%list_elem_of_In & Hb). apply elem_of_concat in Ht as (l & (r & -> & _)%list_elem_of_fmap & Ht).
  apply list_elem_of_fmap in Ht as (v & -> & _).
  destruct (token_spec voc v Hs Hnd) as [Hr _]. apply orb_true_iff in Hb as [Hb|Hb]; bool_prop; lia.
Qed.

Lemma encode_rows (values : row -> list Z) voc data : voc <> [] -> encode (values <$> data) voc = Ok ((fun r => encode_value voc <$> values r) <$> data).
Proof. intros Hv. unfold encode. destruct voc; [done|]. cbn [length Nat.eqb andb]. by rewrite <- list_fmap_compose. Qed.

Lemma seqZ_snoc n : 0 <= n -> seqZ 0 (n + 1) = seqZ 0 n ++ [n].
Proof. intros Hn. rewrite seqZ_app by lia. done. Qed.

Section accepted.
Context (data : list row) (width : nat) (Hg : good data) (Hw : rectangular width data) (mode : string).

Let vocabulary := fit_vocabulary (view_values mode <$> data) (view_masked mode <$> data) (r_train <$> data).
Let capacity := (length (fit_vocabulary (r_pc <$> data) (r_mask <$> data) (r_train <$> data)) + 1)%nat.

Lemma view_width r : r ∈ data -> length (view_values mode r) = length (view_masked mode r).
Proof.
  intros Hr. unfold view_values, view_masked. case_bool_decide; [done|]. case_bool_decide; [|unfold offsets_of; rewrite length_fmap];
    by eapply rectangular_row.
Qed.
Lemma view_block r : r ∈ data -> exists x, row_values (view_values mode) (view_masked mode) r x.
Proof.
  intros Hr. destruct (some_value data width Hg Hw r Hr) as [p Hp]. unfold row_values, view_values, view_masked.
  case_bool_decide; [exists (r_start r); by apply list_elem_of_singleton|]. case_bool_decide; [by exists p|].
  exists (int64_sub p (r_start r)). unfold offsets_of. rewrite zip_fmap_l. by exists p.
Qed.
Lemma vocabulary_known : vocabulary <> [].
Proof. by apply (vocabulary_nonempty data width Hg Hw); [apply view_width|apply view_block]. Qed.
Lemma vocabulary_fits : (length vocabulary + 1 <= capacity)%nat.
Proof.
  unfold vocabulary, capacity, view_values, view_masked. apply Nat.add_le_mono_r.
  case_bool_decide; [exact (starts_fit data width Hg Hw)|]. case_bool_decide; [done|]. exact (offsets_fit data width Hg Hw).
Qed.

Lemma forward_known w (values : row -> list Z) (masked : row -> list bool) rows :
  forward capacity w ((fun r => encode_value vocabulary <$> values r) <$> rows) (masked <$> rows) =
  Ok ((fun r => row_logits w (encode_value vocabulary <$> values r) (masked r)) <$> rows).
Proof. pose proof vocabulary_fits. apply forward_encoded; [apply unique_sorted|apply NoDup_unique|lia]. Qed.

(** The scores of every row under the current weights. *)
Definition scores (m : M) : list L := (fun r => row_logits (weights m) (encode_value vocabulary <$> view_values mode r) (view_masked mode r)) <$> data.

Section task.
Context (training_labels heldout_labels : list Z).
Let task := MkTask capacity ((fun r => encode_value vocabulary <$> view_values mode r) <$> data) (view_masked mode <$> data)
  (r_train <$> data) training_labels heldout_labels.

Lemma evaluate_safe epoch m : safe (fun r => r.1 = scores m /\ sc_epoch r.2 = epoch) (evaluate task epoch m).
Proof.
  unfold evaluate. cbn [task tk_capacity tk_tokens tk_mask]. rewrite forward_known. cbn [rbind].
  apply safe_require. by apply safe_require.
Qed.
Lemma fit_step_safe m : safe (fun _ => True) (fit_step task m).
Proof.
  unfold fit_step. cbn [task tk_capacity tk_tokens tk_mask tk_train]. rewrite !select_rows. rewrite forward_known. cbn [rbind]. apply safe_require. by apply safe_require.
Qed.
Lemma epochs_safe remaining : forall epoch m history, sc_epoch <$> history = seqZ 0 epoch -> 0 <= epoch ->
  safe (fun r => r.1.2 = scores r.1.1 /\ sc_epoch <$> r.2 = seqZ 0 (epoch + Z.of_nat remaining + 1)) (epochs_loop task remaining epoch m history).
Proof.
  induction remaining as [|remaining IH]; intros epoch m history Hh Hp; cbn [epochs_loop].
  - eapply safe_bind; [apply evaluate_safe|]. intros r [Hr He]. simpl. split; [done|]. rewrite fmap_app, Hh. simpl. rewrite He.
    by rewrite Z.add_0_r, seqZ_snoc.
  - eapply safe_bind; [apply evaluate_safe|]. intros r [Hr He]. eapply safe_bind; [apply fit_step_safe|]. intros m' _.
    replace (epoch + Z.of_nat (S remaining) + 1) with (epoch + 1 + Z.of_nat remaining + 1) by lia. apply IH; [|lia].
    rewrite fmap_app, Hh. simpl. by rewrite He, seqZ_snoc.
Qed.

Lemma wrong_metadata_safe w : mode = "normalized" -> safe (fun _ => True) (wrong_metadata task w vocabulary (r_pc <$> data) (r_layout <$> data)).
Proof.
  intros Hm. unfold wrong_metadata, others. cbn [task tk_train tk_capacity tk_mask]. rewrite !select_heldout.
  destruct (wrong_layout_good data Hg) as (wrong & -> & -> & _). cbn [rbind].
  set (moved := fun r => (fun p => int64_sub p (next_location (unique_layouts (r_layout <$> heldout data)) (r_layout r)).1.1) <$> r_pc r).
  assert (Hf : address_features (r_pc <$> heldout data)
    ((fun r => next_location (unique_layouts (r_layout <$> heldout data)) (r_layout r)) <$> heldout data) true = moved <$> heldout data) by apply zip_rows.
  rewrite Hf, encode_rows by apply vocabulary_known. cbn [rbind]. rewrite forward_known. cbn [rbind]. by apply safe_require.
Qed.
End task.

(** What a comparison that ends has produced. *)
Definition finished (seed epochs : Z) (r : Outcome * Checkpoint) : Prop :=
  oc_mode r.1 = mode /\ oc_seed r.1 = seed /\ sc_epoch <$> oc_history r.1 = seqZ 0 (epochs + 1) /\
  oc_vocabulary_size r.1 = length vocabulary /\ (length vocabulary < oc_capacity r.1)%nat /\
  ck_vocabulary r.2 = vocabulary /\ ck_capacity r.2 = capacity /\
  ck_predictions r.2 = (fun row => argmax1 (row_logits (ck_state r.2) (encode_value vocabulary <$> view_values mode row) (view_masked mode row))) <$> heldout data.

Lemma train_one_safe seed epochs : mode ∈ MODES -> 1 <= epochs -> safe (finished seed epochs) (train_one data mode seed epochs).
Proof.
  intros Hm He. unfold train_one. rewrite bool_decide_eq_true_2 by done. rewrite (proj2 (Z.ltb_ge _ _)) by lia.
  cbn [negb orb]. cbv zeta. rewrite view_rows. fold vocabulary. fold capacity. rewrite encode_rows by apply vocabulary_known. cbn [rbind].
  pose proof vocabulary_fits as Hfit. rewrite (proj2 (Nat.ltb_ge _ _)) by exact Hfit.
  match goal with |- context [epochs_loop (MkTask _ _ _ _ ?a ?b)] => pose proof (epochs_safe a b (Z.to_nat epochs) 0 (path_model seed capacity) [] eq_refl ltac:(lia)) as Hloop;
    pose proof (wrong_metadata_safe a b) as Hwrong end.
  eapply safe_bind; [exact Hloop|]. intros [ [m logits] history] [Hl Hh]. simpl in Hl, Hh. clear Hloop.
  eapply (safe_bind (fun _ => True)).
  { destruct (bool_decide (mode = "normalized")) eqn:Hn; [|done]. apply bool_decide_eq_true_1 in Hn. eapply safe_bind; [by apply Hwrong|done]. }
  intros wrong _. simpl. unfold finished. cbn [oc_mode oc_seed oc_history oc_vocabulary_size oc_capacity ck_vocabulary ck_capacity ck_predictions ck_state fst snd].
  split_and!; try done; [by replace (epochs + 1) with (Z.of_nat (Z.to_nat epochs) + 1) by lia|lia|].
  unfold others. cbn [tk_train]. rewrite Hl. unfold scores. rewrite select_heldout. by rewrite <- list_fmap_compose.
Qed.

(** Loading a checkpoint returns what was saved. *)
Hypothesis stored_same : forall c, stored c = c.

Lemma run_one_safe seed epochs : mode ∈ MODES -> 1 <= epochs ->
  safe (fun o => oc_mode o = mode /\ oc_seed o = seed /\ sc_epoch <$> oc_history o = seqZ 0 (epochs + 1)) (run_one data epochs seed mode).
Proof.
  intros Hm He. unfold run_one. eapply safe_bind; [by apply train_one_safe|].
  intros [o c] (Hmo & Hse & Hh & _ & _ & Hv & Hc & Hp). cbn [fst snd] in *. cbv zeta. rewrite stored_same. fold (heldout data). rewrite view_rows, Hv.
  rewrite encode_rows by apply vocabulary_known. cbn [rbind]. rewrite Hc, forward_known. cbn [rbind].
  rewrite Hp, <- list_fmap_compose, bool_decide_eq_true_2 by done. done.
Qed.
End accepted.

(** The comparisons of a run, in order. *)
Definition plan (seeds : list Z) : list (Z * string) := seeds ≫= fun seed => (fun mode => (seed, mode)) <$> MODES.

Lemma rmap_safe {A B} (f : A -> result B) (P : A -> B -> Prop) l : (forall a, a ∈ l -> safe (P a) (f a)) -> safe (Forall2 P l) (rmap f l).
Proof.
  induction l as [|a l IH]; intros Hf; [constructor|]. cbn [rmap]. eapply safe_bind; [apply Hf; left|]. intros b Hb.
  eapply safe_bind; [apply IH; intros x Hx; apply Hf; by right|]. intros bs Hbs. by constructor.
Qed.

(** On a dataset that passes validation (of tensors that fill their shapes), [run]
    trains every mode for every seed, in order, for exactly the given number of
    epochs, and can stop early only because a number was not finite: the vocabulary
    of every mode fits the capacity of the common model, no token falls outside the
    embedding table, held-out rows always have another location for the
    wrong-metadata control, and every checkpoint, loaded as it was saved, predicts
    the held-out rows as before. *)
Theorem layout_run_total dataset pc mask layout labels train rows width data epochs seeds :
  shaped dataset pc mask layout labels train rows width -> LayoutData.validate_dataset dataset = Ok data ->
  length (l_data pc) = (rows * width)%nat -> length (l_data mask) = (rows * width)%nat -> 1 <= epochs ->
  (forall c, stored c = c) ->
  (exists results, run dataset epochs seeds = (let! _ := dumps (MkReport epochs seeds (length data) results) in Ok (MkReport epochs seeds (length data) results)) /\
    Forall2 (fun p o => oc_seed o = p.1 /\ oc_mode o = p.2 /\ sc_epoch <$> oc_history o = seqZ 0 (epochs + 1)) (plan seeds) results) \/
  exists e, run dataset epochs seeds = Raise e /\ nonfinite e.
Proof.
  intros Hsh Hv Hp Hm He Hst. pose proof Hv as Hex. apply validate_layout_exact in Hex as (pc' & mask' & layout' & labels' & train' & rows' & width' & Hsh' & Hd & Hg).
  assert (Hw : rectangular width data).
  { destruct Hsh as [_ (E1 & E2 & _) _ (S1 & S2 & _) _], Hsh' as [_ (E1' & E2' & _) _ (S1' & S2' & _) _]. simplify_eq. rewrite S1 in S1'. simplify_eq.
    by apply rows_of_rectangular. }
  assert (Hall : safe (Forall2 (fun p o => oc_seed o = p.1 /\ oc_mode o = p.2 /\ sc_epoch <$> oc_history o = seqZ 0 (epochs + 1)) (plan seeds))
    (rmap (fun p : Z * string => run_one data epochs p.1 p.2) (plan seeds))).
  { apply rmap_safe. intros [seed mode] Hin. apply list_elem_of_bind in Hin as (x & Hin & _). apply list_elem_of_fmap in Hin as (y & [= -> ->] & Hy). simpl.
    pose proof (run_one_safe data width Hg Hw y Hst x epochs Hy He) as Hs. destruct (run_one _ _ _ _); simpl in *; [|done]. tauto. }
  unfold run. rewrite Hv. cbn [rbind]. fold (plan seeds). destruct (rmap _ _) as [results|e]; cbn [rbind].
  - left. exists results. split; [done|exact Hall].
  - right. exists e. split; [done|exact Hall].
Qed.
End train.

(** ** Witnesses

    A network whose score of a row is its seed plus its tokens, and the example rows
    as the tensors of a dataset file. *)

Definition sum_logits (w : Z) (tokens : list Z) (mask : list bool) : Z := w + zsum id (select mask tokens).
Definition sum_loss (logits labels : list Z) : Z := zsum id logits + zsum id labels.
Definition example_train (data : list row) : result (Outcome (F := Z) * Checkpoint (W := Z)) :=
  train_one (fun m : Z => m) (fun seed _ => seed) sum_logits (fun _ => true) (fun _ => true) sum_loss (fun l : Z => l mod 4) (fun a b => a)
    sum_loss (fun _ _ _ _ => true) (fun m _ _ _ => m + 1) data "shuffled_labels" 7 2.

(** The same rows, with other labels where they are held out. *)
Definition swapped_rows : list row :=
  (fun r => if r_train r then r else MkRow (r_pc r) (r_mask r) (r_layout r) (3 - r_label r) (r_train r)) <$> example_rows 1000.

Lemma heldout_labels_only_score_witness : exists o o' c c', example_train (example_rows 1000) = Ok (o, c) /\
  example_train swapped_rows = Ok (o', c') /\ c' = c /\ trained <$> oc_history o' = trained <$> oc_history o.
Proof.
  destruct (example_train (example_rows 1000)) as [ [o c]|] eqn:Ho; [|vm_compute in Ho; discriminate Ho].
  destruct (example_train swapped_rows) as [ [o' c']|] eqn:Ho'; [|vm_compute in Ho'; discriminate Ho'].
  assert (Hd : Forall2 relabelled (example_rows 1000) swapped_rows) by (repeat constructor; simpl; discriminate).
  exists o, o', c, c'. split; [reflexivity|]. split; [reflexivity|].
  destruct (heldout_labels_only_score (fun m : Z => m) (fun seed _ => seed) sum_logits (fun _ => true) (fun _ => true) sum_loss (fun l : Z => l mod 4)
    (fun a b => a) sum_loss (fun _ _ _ _ => true) (fun m _ _ _ => m + 1) _ _ _ _ _ _ _ _ _ Hd Ho Ho') as (Hc & Hh & _).
  split; [exact Hc|exact Hh].
Defined.

Definition bool_z (b : bool) : Z := if b then 1 else 0.
Definition example_pc : ltensor := MkL LInt64 [16%nat; 2%nat] (concat (r_pc <$> example_rows 1000)).
Definition example_mask : ltensor := MkL LBool [16%nat; 2%nat] (bool_z <$> concat (r_mask <$> example_rows 1000)).
Definition example_layout : ltensor := MkL LInt64 [16%nat; 3%nat] (example_rows 1000 ≫= fun r => [r_start r; r_end r; r_entry r]).
Definition example_labels : ltensor := MkL LInt64 [16%nat] (r_label <$> example_rows 1000).
Definition example_split : ltensor := MkL LBool [16%nat] ((fun r => bool_z (r_train r)) <$> example_rows 1000).
Definition example_dataset : LayoutDataset :=
  MkLayoutDataset (Some 1) (Some example_pc) (Some example_mask) (Some example_layout) (Some example_labels) (Some example_split).
Definition example_run : result (Report (F := Z)) :=
  run (fun m : Z => m) (fun seed _ => seed) sum_logits (fun _ => true) (fun _ => true) sum_loss (fun l : Z => l mod 4) (fun a b => a)
    sum_loss (fun _ _ _ _ => true) (fun m _ _ _ => m + 1) (fun c => c) (fun _ => Ok EmptyString) example_dataset 2 [7; 17].

Lemma layout_run_total_witness : LayoutData.validate_dataset example_dataset = Ok (example_rows 1000) /\
  exists report, example_run = Ok report /\ length (re_runs report) = 8%nat.
Proof.
  assert (Hv : LayoutData.validate_dataset example_dataset = Ok (example_rows 1000)) by (vm_compute; reflexivity).
  split; [exact Hv|]. assert (Hs : shaped example_dataset example_pc example_mask example_layout example_labels example_split 16 2) by (repeat constructor; lia).
  destruct (layout_run_total (fun m : Z => m) (fun seed _ => seed) sum_logits (fun _ => true) (fun _ => true) sum_loss (fun l : Z => l mod 4) (fun a b => a)
    sum_loss (fun _ _ _ _ => true) (fun m _ _ _ => m + 1) (fun c => c) (fun _ => Ok EmptyString) example_dataset _ _ _ _ _ _ _ (example_rows 1000) 2 [7; 17] Hs Hv)
    as [(results & Hr & Hf)|(e & Hr & _)]; [vm_compute; reflexivity|vm_compute; reflexivity|lia|done| |].
  - eexists. split; [exact Hr|]. apply Forall2_length in Hf. simpl. rewrite <- Hf. reflexivity.
  - exfalso. assert (Hok : is_ok example_run = true) by (vm_compute; reflexivity). unfold example_run in Hok. rewrite Hr in Hok. discriminate Hok.
Defined.
