(* ===== verification/LayoutCollect.v ===== *)
(** * Capturing layout datasets ([examples/collect_layout.py])

    From the batches of one worker to the block before each sample marker, from an
    input to labelled runs, and from runs to the padded tensors of a dataset. *)

From stdpp Require Import sorting.
From S2P Require Import Prelude Batch Features TraceSketch SketchTorch DigitCounts ContextBlocks LayoutData.

(** ** [collect_samples] *)

Record Cutting := MkCutting {
  cu_layout : option (Z * Z * Z);
  cu_source : option Z;
  cu_previous : option Z;
  cu_samples : list (list Z);
  cu_count : Z;
}.
Record Captured := MkCaptured { cp_layout : Z * Z * Z; cp_pc : list (list Z); cp_full_block_count : Z; cp_metadata_frames : Z }.

Section cutting.
Context (sample_end_offset : Z).

(** A batch that carries the executable layout. *)
Definition take_layout (st : Cutting) (b : Batch) (t : tensor) : result Cutting :=
  raise! ValueError "Expected exactly one layout before all block data" when is_some (cu_layout st) || negb (cu_count st =? 0) in
  raise! ValueError "Executable layout must be a separate worker-wide batch"
    when is_some (source b) || is_some (first_sequence b) || negb (numel (addresses b) =? 0)%nat || is_some (registers b) ||
         is_some (memory b) || is_some (context b) in
  raise! ValueError "Expected three int64 executable layout fields"
    when negb (bool_decide (t_dtype t = int64)) || negb (bool_decide (t_shape t = [3%nat])) in
  match t_data t with
  | [start; end_; entry] =>
      raise! ValueError "Static executable layout or sample marker lies outside the text span"
        when negb ((0 <=? start) && (start <=? entry) && (entry <? end_) && (start + sample_end_offset <? end_)) in
      Ok (MkCutting (Some (start, end_, entry)) (cu_source st) (cu_previous st) (cu_samples st) (cu_count st))
  | _ => throw ValueError "Expected three int64 executable layout fields"
  end.

(** The body of [for pc in addresses.tolist()]. *)
Definition cut (marker : Z) (st : option Z * list (list Z)) (pc : Z) : result (option Z * list (list Z)) :=
  if pc =? marker then
    match st.1 with
    | None => throw ValueError "A sample marker must have a preceding block"
    | Some previous => Ok (None, st.2 ++ [ [previous] ])
    end
  else Ok (Some pc, st.2).

Definition take_blocks (st : Cutting) (b : Batch) : result Cutting :=
  match cu_layout st with
  | None => throw ValueError "The worker must emit executable layout before block data"
  | Some l =>
      raise! ValueError "Use block-only capture for the layout tutorial" when is_some (registers b) || is_some (memory b) || is_some (context b) in
      match source b, first_sequence b with
      | Some s, Some _ =>
          raise! ValueError "The layout tutorial requires one vCPU"
            when is_some (cu_source st) && negb (bool_decide (source b = cu_source st)) in
          raise! ValueError "Expected one int64 block address column"
            when negb (bool_decide (t_dtype (addresses b) = int64)) || negb (length (t_shape (addresses b)) =? 1)%nat in
          let pcs := t_data (addresses b) in
          raise! ValueError "Every block must lie in the executable text span"
            when negb (forallb (fun pc => (l.1.1 <=? pc) && (pc <? l.1.2)) pcs) in
          let! r := rfold (cut (l.1.1 + sample_end_offset)) (cu_previous st, cu_samples st) pcs in
          Ok (MkCutting (Some l) (Some s) r.1 r.2 (cu_count st + Z.of_nat (numel (addresses b))))
      | _, _ => throw ValueError "Block batches need a CPU source and sequence"
      end
  end.

Definition take_batch (st : Cutting) (b : Batch) : result Cutting :=
  match layout b with
  | Some l => take_layout st b (on_device cpu (el_values l))
  | None => take_blocks st b
  end.

(** [ended] is how iterating over the batches ends. *)
Definition collect_samples (batches : list Batch) (ended : result unit) : result Captured :=
  raise! ValueError "The sample marker offset must be nonnegative" when sample_end_offset <? 0 in
  let! st := rfold take_batch (MkCutting None None None [] 0) batches in
  let! _ := ended in
  match cu_layout st, cu_samples st with
  | Some l, _ :: _ => Ok (MkCaptured l (cu_samples st) (cu_count st) 1)
  | _, _ => throw ValueError "A complete capture needs executable layout and sample markers"
  end.
End cutting.

(** ** [collect] *)

Record Run := MkRun { rn_capture : Captured; rn_labels : list Z; rn_train : bool }.

(** The input is a sequence of bytes. *)
Definition collect (sample_end_offset : Z) (input_bytes : list Z) (train : bool) (batches : list Batch) (ended : result unit) : result Run :=
  let! result := collect_samples sample_end_offset batches ended in
  raise! ValueError "Target input must contain only ASCII digits 0 through 3"
    when (length input_bytes =? 0)%nat || existsb (fun v => (v <? 48) || (51 <? v)) input_bytes in
  let labels := (fun v => v - 48) <$> input_bytes in
  raise! ValueError "The number of complete sample markers must match the supplied input"
    when negb (length (cp_pc result) =? length labels)%nat in
  Ok (MkRun result labels train).

(** ** [dataset_from_runs] *)

(** A value of a JSON list: an exact integer or anything else. *)
Inductive jval := JInt (z : Z) | JOther.
Definition is_int (v : jval) : bool := match v with JInt _ => true | JOther => false end.
Definition int_of (v : jval) : Z := match v with JInt z => z | JOther => 0 end.

Record JsonRun := MkJsonRun { jr_train : option bool; jr_layout : list jval; jr_pc : list (list jval); jr_labels : list jval }.
Record JsonCapture := MkJsonCapture { jc_format : option Z; jc_runs : option (list JsonRun) }.

(** The four lists built by the loop over the runs. *)
Record Columns := MkColumns { cl_pc : list (list jval); cl_layouts : list (list jval); cl_labels : list jval; cl_train : list bool }.

Definition add_run (c : Columns) (run : JsonRun) : result Columns :=
  match jr_train run with
  | None => throw ValueError "Each run needs a Boolean split and one label per sample"
  | Some train =>
      raise! ValueError "Each run needs a Boolean split and one label per sample" when negb (length (jr_pc run) =? length (jr_labels run))%nat in
      raise! ValueError "Captured addresses and labels must be exact integers, with three layout fields"
        when existsb (fun v => negb (is_int v)) (jr_layout run ++ jr_labels run ++ concat (jr_pc run)) || negb (length (jr_layout run) =? 3)%nat in
      let n := length (jr_pc run) in
      Ok (MkColumns (cl_pc c ++ jr_pc run) (cl_layouts c ++ replicate n (jr_layout run)) (cl_labels c ++ jr_labels run) (cl_train c ++ replicate n train))
  end.

(** [addresses[index, :len(row)] = torch.tensor(row)] in a row of zeros, and its mask. *)
Definition padded (width : nat) (row : list Z) : list Z := row ++ replicate (width - length row) 0.
Definition padded_mask (width : nat) (row : list Z) : list Z := replicate (length row) 1 ++ replicate (width - length row) 0.

Definition dataset_from_runs (capture : JsonCapture) : result LayoutDataset :=
  match jc_format capture, jc_runs capture with
  | Some 1, Some runs =>
      let! c := rfold add_run (MkColumns [] [] [] []) runs in
      raise! ValueError "Worker runs must contain nonempty samples"
        when (length (cl_pc c) =? 0)%nat || existsb (fun row => (length row =? 0)%nat) (cl_pc c) in
      let width := max_list (length <$> cl_pc c) in
      let! pc := rmap (fun row => int64_tensor (int_of <$> row)) (cl_pc c) in
      let! layouts := int64_tensor (int_of <$> concat (cl_layouts c)) in
      let! labels := int64_tensor (int_of <$> cl_labels c) in
      let rows := length pc in
      let dataset := MkLayoutDataset (Some 1) (Some (MkL LInt64 [rows; width] (concat (padded width <$> pc))))
        (Some (MkL LBool [rows; width] (concat (padded_mask width <$> pc))))
        (Some (MkL LInt64 [rows; 3%nat] layouts)) (Some (MkL LInt64 [length labels] labels))
        (Some (MkL LBool [length (cl_train c)] ((fun b : bool => if b then 1 else 0) <$> cl_train c))) in
      let! _ := validate_dataset dataset in
      Ok dataset
  | _, _ => throw ValueError "Expected capture format 1 with a list of worker runs"
  end.

(** ** The block before each marker *)

Definition consecutive (l : list Z) : list (Z * Z) := zip l (tail l).
Definition before_markers (marker : Z) (l : list Z) : list (list Z) := (fun p => [p.1]) <$> filter (fun p => p.2 = marker) (consecutive l).
(** No marker comes first or right after another. *)
Definition markers_placed (marker : Z) (l : list Z) : Prop := head l <> Some marker /\ (marker, marker) ∉ consecutive l.

Lemma consecutive_snoc l a x : consecutive ((l ++ [a]) ++ [x]) = consecutive (l ++ [a]) ++ [(a, x)].
Proof.
  unfold consecutive. induction l as [|b l IH]; [done|]. cbn [app tail]. destruct l as [|c l]; [done|].
  cbn [app tail zip_with] in *. by rewrite <- IH.
Qed.

Definition open_block (marker : Z) (l : list Z) : option Z := x ← last l; if x =? marker then None else Some x.

Lemma cut_blocks_exact marker l r : rfold (cut marker) (None, []) l = Ok r <->
  markers_placed marker l /\ r = (open_block marker l, before_markers marker l).
Proof.
  revert r. induction l as [|x l IH] using rev_ind; intros r.
  { unfold markers_placed. cbn [rfold]. split; [intros [= <-]; split; [split; [done|unfold consecutive; simpl; set_solver]|done]|by intros [_ ->] ]. }
  rewrite rfold_app, rbind_Ok. setoid_rewrite IH. cbn [rfold]. unfold markers_placed, open_block. rewrite last_snoc. cbn [mbind option_bind].
  clear IH. destruct l as [|a l' _] using rev_ind.
  { split.
    - intros (s & [_ ->] & Hc). unfold cut in Hc. cbn [fst snd last mbind option_bind] in Hc. destruct (Z.eqb_spec x marker); [done|]. injection Hc as <-.
      split; [split; [by intros [=]|unfold consecutive; simpl; set_solver]|done].
    - intros [ [Hh _] ->]. eexists. split; [split; [|reflexivity]; split; [done|unfold consecutive; simpl; set_solver]|].
      unfold cut. cbn [fst snd last mbind option_bind]. destruct (Z.eqb_spec x marker) as [->|]; [by destruct Hh|done]. }
  unfold before_markers. rewrite consecutive_snoc, filter_app, fmap_app, last_snoc. cbn [mbind option_bind].
  assert (Hhead : head ((l' ++ [a]) ++ [x]) = head (l' ++ [a])) by (by destruct l'). rewrite Hhead.
  rewrite not_elem_of_app, list_elem_of_singleton. split.
  - intros (s & [ [Hh Hm] ->] & Hc). unfold cut in Hc. cbn [fst snd] in Hc. destruct (Z.eqb_spec x marker) as [->|Hx].
    + destruct (Z.eqb_spec a marker) as [->|Ha]; [done|]. injection Hc as <-. split; [split; [done|split; [done|by intros [=] ] ]|]. by rewrite filter_cons_True.
    + injection Hc as <-. split; [split; [done|split; [done|by intros [=] ] ]|]. rewrite filter_cons_False by done. by rewrite app_nil_r.
  - intros [ (Hh & Hm & Hne) ->]. eexists. split; [split; [done|reflexivity]|]. unfold cut. cbn [fst snd]. destruct (Z.eqb_spec x marker) as [->|Hx].
    + destruct (Z.eqb_spec a marker) as [->|Ha]; [done|]. cbn [rbind]. by rewrite filter_cons_True.
    + cbn [rbind]. rewrite filter_cons_False by done. by rewrite app_nil_r.
Qed.

(** ** What [collect_samples] accepts *)

Section accepted.
Context (offset : Z).

(** A worker-wide batch with nothing but a layout whose text span holds the marker. *)
Record layout_frame (b : Batch) (l : Z * Z * Z) : Prop := {
  lf_values : exists el, layout b = Some el /\ t_dtype (el_values el) = int64 /\ t_shape (el_values el) = [3%nat] /\
    t_data (el_values el) = [l.1.1; l.1.2; l.2];
  lf_alone : source b = None /\ first_sequence b = None /\ numel (addresses b) = 0%nat /\ registers b = None /\ memory b = None /\ context b = None;
  lf_span : 0 <= l.1.1 <= l.2 /\ l.2 < l.1.2 /\ l.1.1 + offset < l.1.2;
}.
(** A batch of blocks of one vCPU inside the text span. *)
Record block_frame (l : Z * Z * Z) (src : option Z) (b : Batch) : Prop := {
  bf_only : layout b = None /\ registers b = None /\ memory b = None /\ context b = None;
  bf_source : source b = src /\ is_Some src /\ is_Some (first_sequence b);
  bf_column : t_dtype (addresses b) = int64 /\ length (t_shape (addresses b)) = 1%nat;
  bf_inside : Forall (fun pc => l.1.1 <= pc < l.1.2) (t_data (addresses b));
}.

Lemma inside_checks (l : Z * Z * Z) pcs : forallb (fun pc => (l.1.1 <=? pc) && (pc <? l.1.2)) pcs = true <-> Forall (fun pc => l.1.1 <= pc < l.1.2) pcs.
Proof.
  rewrite forallb_forall, Forall_forall. setoid_rewrite <- list_elem_of_In. setoid_rewrite andb_true_iff.
  setoid_rewrite Z.leb_le. setoid_rewrite Z.ltb_lt. done.
Qed.

Lemma is_some_false {A} (o : option A) : is_some o = false <-> o = None.
Proof. by destruct o. Qed.

(** The guards in front of the loop over the addresses. *)
Lemma take_blocks_exact l src prev smp n b st : take_batch offset (MkCutting (Some l) src prev smp n) b = Ok st <->
  exists s r, block_frame l (Some s) b /\ (src = None \/ src = Some s) /\
    rfold (cut (l.1.1 + offset)) (prev, smp) (t_data (addresses b)) = Ok r /\
    st = MkCutting (Some l) (Some s) r.1 r.2 (n + Z.of_nat (numel (addresses b))).
Proof.
  unfold take_batch. destruct (layout b) as [el|] eqn:Hlay.
  { split; [by unfold take_layout|]. intros (s & r & [ [Hn _] _ _ _] & _). congruence. }
  unfold take_blocks. cbn [cu_layout cu_source cu_previous cu_samples cu_count]. split.
  - intros Ht. inv_res Ht. destruct (source b) as [s|] eqn:Hs; [|done]. destruct (first_sequence b) as [f|] eqn:Hf; [|done].
    inv_res Ht. injection Ht as <-. bool_prop. rewrite !is_some_false in *. exists s, v. split_and!; [|destruct src; [right|by left]|done|done].
    + split; [done|split; [done|split; [done|by rewrite Hf] ]|done|by apply inside_checks].
    + match goal with Hb : is_some _ && _ = false |- _ => simpl in Hb; apply negb_false_iff, bool_decide_eq_true_1 in Hb; done end.
  - intros (s & r & [ (_ & -> & -> & ->) (-> & _ & [f ->]) [-> ->] Hin] & Hsrc & Hr & ->). cbn [is_some orb].
    replace (is_some src && _) with false by (destruct Hsrc as [->| ->]; simpl; [done|by rewrite bool_decide_eq_true_2]).
    rewrite bool_decide_eq_true_2 by done. cbn [negb orb Nat.eqb]. rewrite (proj2 (inside_checks _ _) Hin). cbn [negb]. by rewrite Hr.
Qed.

Definition blocks_of (bs : list Batch) : list Z := concat ((fun b => t_data (addresses b)) <$> bs).
Definition block_count (bs : list Batch) : Z := zsum (fun b => Z.of_nat (numel (addresses b))) bs.

Lemma blocks_loop l bs : forall src prev smp n st, rfold (take_batch offset) (MkCutting (Some l) src prev smp n) bs = Ok st <->
  exists src' r, Forall (block_frame l src') bs /\ (src = None /\ (bs = [] -> src' = None) \/ src' = src) /\
    rfold (cut (l.1.1 + offset)) (prev, smp) (blocks_of bs) = Ok r /\ st = MkCutting (Some l) src' r.1 r.2 (n + block_count bs).
Proof.
  induction bs as [|b bs IH]; intros src prev smp n st.
  - cbn [rfold blocks_of fmap list_fmap concat]. unfold block_count. simpl. rewrite Z.add_0_r. split.
    + intros [= <-]. exists src, (prev, smp). split_and!; [constructor|by right|done|done].
    + intros (src' & r & _ & Hsrc & [= <-] & ->). simpl. destruct Hsrc as [ [-> ->]| ->]; done.
  - cbn [rfold]. rewrite rbind_Ok. setoid_rewrite take_blocks_exact. unfold blocks_of in *. cbn [fmap list_fmap concat]. unfold block_count in *. setoid_rewrite zsum_cons.
    setoid_rewrite rfold_app. split.
    + intros (st1 & (s & r & Hb & Hsrc & Hr & ->) & Hl). apply IH in Hl as (src' & r' & Hbs & Hsrc' & Hr' & ->).
      assert (src' = Some s) as -> by (destruct Hsrc' as [ [? _]|]; [done|done]). exists (Some s), r'. split_and!.
      * by constructor.
      * destruct Hsrc as [->| ->]; [left; done|by right].
      * rewrite Hr. cbn [rbind]. by destruct r.
      * f_equal. lia.
    + intros (src' & r' & [Hb Hbs]%Forall_cons & Hsrc & Hr & ->). pose proof (bf_source _ _ _ Hb) as (_ & [s ->] & _).
      apply rbind_Ok in Hr as (r & Hr & Hr'). eexists. split; [exists s, r; split_and!; [done| |done|reflexivity]|].
      * destruct Hsrc as [ [-> _]|<-]; auto.
      * apply IH. exists (Some s), r'. split_and!; [done|by right|by destruct r|]. f_equal. lia.
Qed.

Lemma take_layout_exact b st : take_batch offset (MkCutting None None None [] 0) b = Ok st <->
  exists l, layout_frame b l /\ st = MkCutting (Some l) None None [] 0.
Proof.
  unfold take_batch. destruct (layout b) as [el|] eqn:Hlay.
  2:{ split; [done|]. intros (l & [ (el & He & _) _ _] & _). congruence. }
  unfold take_layout. cbn [cu_layout cu_count cu_source cu_previous cu_samples is_some negb orb Z.eqb on_device t_dtype t_shape t_data]. split.
  - intros Ht. inv_res Ht. destruct (t_data (el_values el)) as [|a [|b' [|c [|] ] ] ] eqn:Hd; try done. inv_res Ht. injection Ht as <-. bool_prop.
    rewrite !is_some_false in *. exists (a, b', c). split; [|done]. split; [exists el; done|tauto|simpl; lia].
  - intros ([ [s e] y] & [ (el' & Hel & Hdt & Hsh & Hd) (-> & -> & -> & -> & -> & ->) Hsp] & ->). simplify_eq. simpl in *.
    rewrite Hdt, Hsh, Hd. rewrite !bool_decide_eq_true_2 by done. cbn [negb orb]. 
    rewrite !(proj2 (Z.leb_le _ _)), !(proj2 (Z.ltb_lt _ _)) by lia. done.
Qed.

Lemma collect_samples_exact bs ended c : collect_samples offset bs ended = Ok c <->
  0 <= offset /\ ended = Ok tt /\ exists first rest l src, bs = first :: rest /\ layout_frame first l /\ Forall (block_frame l src) rest /\
    markers_placed (l.1.1 + offset) (blocks_of rest) /\ before_markers (l.1.1 + offset) (blocks_of rest) <> [] /\
    c = MkCaptured l (before_markers (l.1.1 + offset) (blocks_of rest)) (block_count rest) 1.
Proof.
  unfold collect_samples. split.
  - intros Hc. inv_res Hc. bool_prop. destruct v0. split; [lia|]. split; [done|].
    match goal with Hr : rfold _ _ bs = Ok _ |- _ => rename Hr into Hloop end. destruct bs as [|first rest]; [injection Hloop as <-; done|].
    cbn [rfold] in Hloop. apply rbind_Ok in Hloop as (st & Hst & Hloop). apply take_layout_exact in Hst as (l & Hl & ->).
    apply blocks_loop in Hloop as (src & r & Hb & _ & Hr & ->). apply cut_blocks_exact in Hr as [Hm ->]. cbn [cu_layout cu_samples cu_count fst snd] in Hc.
    destruct (before_markers _ _) eqn:Hbm; [done|]. injection Hc as <-. exists first, rest, l, src. rewrite Hbm. done.
  - intros (Ho & -> & first & rest & l & src & -> & Hl & Hb & Hm & Hne & ->). rewrite (proj2 (Z.ltb_ge _ _)) by lia. cbn [rfold].
    rewrite (proj2 (take_layout_exact first _) (ex_intro _ l (conj Hl eq_refl))). cbn [rbind].
    assert (Hsrc : exists src', Forall (block_frame l src') rest /\ (rest = [] -> src' = None)).
    { destruct rest; [exists None; split; [constructor|done]|exists src; done]. }
    destruct Hsrc as (src' & Hb' & Hn). rewrite (proj2 (blocks_loop l rest None None [] 0 (MkCutting (Some l) src' (open_block (l.1.1 + offset) (blocks_of rest))
      (before_markers (l.1.1 + offset) (blocks_of rest)) (block_count rest)))).
    + cbn [rbind cu_layout cu_samples cu_count]. destruct (before_markers _ _); done.
    + exists src', (open_block (l.1.1 + offset) (blocks_of rest), before_markers (l.1.1 + offset) (blocks_of rest)).
      split_and!; [done|by left|by apply cut_blocks_exact|done].
Qed.

(** [collect_samples] returns exactly for a worker that announces its layout first
    and once, alone in its batch, and then only batches of blocks of one vCPU inside
    the announced text span, whose stream ends without an error, in which no marker
    comes first or right after another and at least one occurs. The samples are then
    the block before each marker, in order, and the number of all blocks: where the
    worker cuts the stream into batches makes no difference. *)
Theorem layout_samples_exact bs ended c : collect_samples offset bs ended = Ok c <->
  0 <= offset /\ ended = Ok tt /\ exists first rest l src, bs = first :: rest /\ layout_frame first l /\ Forall (block_frame l src) rest /\
    markers_placed (l.1.1 + offset) (blocks_of rest) /\ before_markers (l.1.1 + offset) (blocks_of rest) <> [] /\
    c = MkCaptured l (before_markers (l.1.1 + offset) (blocks_of rest)) (block_count rest) 1.
Proof. apply collect_samples_exact. Qed.
End accepted.

(** ** Datasets of runs *)

(** One sample of a run: its addresses, layout, label and side of the split. *)
Record sample := MkSample { sm_pc : list jval; sm_layout : list jval; sm_label : jval; sm_train : bool }.
Definition run_samples (run : JsonRun) : list sample :=
  zip_with (fun pc label => MkSample pc (jr_layout run) label (default false (jr_train run))) (jr_pc run) (jr_labels run).
Definition sample_ok (s : sample) : Prop := Forall (fun v => is_int v = true) (sm_pc s) /\ Forall (fun v => is_int v = true) (sm_layout s) /\
  is_int (sm_label s) = true /\ length (sm_layout s) = 3%nat.

Definition columns_of (ss : list sample) : Columns := MkColumns (sm_pc <$> ss) (sm_layout <$> ss) (sm_label <$> ss) (sm_train <$> ss).

Lemma run_columns run t : jr_train run = Some t -> length (jr_pc run) = length (jr_labels run) ->
  sm_pc <$> run_samples run = jr_pc run /\ sm_layout <$> run_samples run = replicate (length (jr_pc run)) (jr_layout run) /\
  sm_label <$> run_samples run = jr_labels run /\ sm_train <$> run_samples run = replicate (length (jr_pc run)) t.
Proof.
  intros Ht. unfold run_samples. rewrite Ht. simpl. generalize (jr_labels run). induction (jr_pc run) as [|p ps IH]; intros [|y ys] Hl; try done.
  cbn [zip_with fmap list_fmap length replicate]. injection Hl as Hl. destruct (IH ys Hl) as (H1 & H2 & H3 & H4). split_and!; by f_equal.
Qed.

Lemma add_run_exact ss run c : add_run (columns_of ss) run = Ok c -> c = columns_of (ss ++ run_samples run) /\ Forall sample_ok (run_samples run).
Proof.
  unfold add_run. destruct (jr_train run) as [t|] eqn:Ht; [|done]. intros Ha. inv_res Ha. injection Ha as <-. bool_prop.
  destruct (run_columns run t Ht ltac:(done)) as (H1 & H2 & H3 & H4). split.
  - unfold columns_of. rewrite !fmap_app, H1, H2, H3, H4. done.
  - match goal with He : existsb _ _ = false |- _ => rename He into Hints end.
    assert (Hint : forall v, v ∈ jr_layout run ++ jr_labels run ++ concat (jr_pc run) -> is_int v = true).
    { intros v Hv%list_elem_of_In. apply not_false_iff_true. intros Hf. enough (existsb (fun v => negb (is_int v)) (jr_layout run ++ jr_labels run ++ concat (jr_pc run)) = true) by congruence.
      apply existsb_exists. exists v. by rewrite Hf. }
    apply Forall_forall. intros s Hs. unfold sample_ok. assert (Hlay : sm_layout s = jr_layout run).
    { pose proof (list_elem_of_fmap_2 sm_layout _ _ Hs) as Hin. rewrite H2 in Hin. by apply elem_of_replicate in Hin as [-> _]. }
    pose proof (list_elem_of_fmap_2 sm_pc _ _ Hs) as Hpc. pose proof (list_elem_of_fmap_2 sm_label _ _ Hs) as Hlb. rewrite H1 in Hpc. rewrite H3 in Hlb.
    rewrite Hlay. split_and!; [| | |done].
    + apply Forall_forall. intros v Hv. apply Hint. rewrite !elem_of_app. right. right. apply elem_of_concat. eauto.
    + apply Forall_forall. intros v Hv. apply Hint. rewrite !elem_of_app. by left.
    + apply Hint. rewrite !elem_of_app. by right; left.
Qed.

Lemma add_runs_exact runs : forall ss c, Forall sample_ok ss -> rfold add_run (columns_of ss) runs = Ok c ->
  c = columns_of (ss ++ (runs ≫= run_samples)) /\ Forall sample_ok (ss ++ (runs ≫= run_samples)).
Proof.
  induction runs as [|run runs IH]; intros ss c Hss; cbn [rfold].
  - intros [= <-]. simpl. by rewrite app_nil_r.
  - intros (c1 & H1 & H2)%rbind_Ok. apply add_run_exact in H1 as [-> Hr]. apply IH in H2; [|by apply Forall_app]. simpl. by rewrite app_assoc.
Qed.

Lemma slice_concat {A} w (rows : list (list A)) : Forall (fun r => length r = w) rows -> forall i r, rows !! i = Some r -> slice (i * w) w (concat rows) = r.
Proof.
  induction 1 as [|r rows Hr _ IH]; intros i r' Hi; [done|]. cbn [concat]. destruct i as [|i]; simpl in Hi.
  - injection Hi as <-. unfold slice. cbn [Nat.mul]. by rewrite drop_0, take_app_length'.
  - rewrite slice_app_r by (simpl; lia). replace (S i * w - length r)%nat with (i * w)%nat by (simpl; lia). by apply IH.
Qed.
Lemma nth_concat {A} (d : A) w k (rows : list (list A)) : (k < w)%nat -> Forall (fun r => length r = w) rows ->
  forall i r, rows !! i = Some r -> nth (w * i + k) (concat rows) d = nth k r d.
Proof.
  intros Hk. induction 1 as [|r rows Hr _ IH]; intros i r' Hi; [done|]. cbn [concat]. destruct i as [|i]; simpl in Hi.
  - injection Hi as <-. rewrite Nat.mul_0_r. apply app_nth1. lia.
  - rewrite app_nth2 by lia. rewrite <- (IH i r' Hi). f_equal. lia.
Qed.

Lemma select_padded w (l : list Z) : (length l <= w)%nat -> select (truth <$> padded_mask w l) (padded w l) = l.
Proof.
  intros _. unfold padded_mask, padded. rewrite fmap_app, !fmap_replicate. unfold select. rewrite zip_with_app by (by rewrite length_replicate).
  rewrite filter_app, fmap_app. change (truth 1) with true. change (truth 0) with false.
  generalize (w - length l)%nat. intros n.
  assert (Hz : filter (fun p : bool * Z => p.1 = true) (zip (replicate n false) (replicate n 0)) = []) by (by induction n).
  rewrite Hz. rewrite app_nil_r. induction l as [|x l IH]; [done|]. cbn [length replicate zip_with]. rewrite filter_cons_True by done. cbn [fmap list_fmap]. by f_equal.
Qed.

Lemma int64_tensor_same l r : int64_tensor l = Ok r -> r = l.
Proof. unfold int64_tensor. destruct (forallb _ l); [by intros [= <-]|done]. Qed.

Lemma int64_rows (pcs : list (list jval)) pc : rmap (fun row => int64_tensor (int_of <$> row)) pcs = Ok pc -> pc = (fun row : list jval => int_of <$> row) <$> pcs.
Proof.
  intros Hr%rmap_Ok. induction Hr as [|p q pcs pc Hq _ IH]; [done|]. cbn [fmap list_fmap]. f_equal; [by apply int64_tensor_same|done].
Qed.

(** The row of a padded tensor a sample becomes. *)
Definition row_of (width : nat) (s : sample) : row :=
  let pc := int_of <$> sm_pc s in
  let field k := nth k (int_of <$> sm_layout s) 0 in
  MkRow (padded width pc) (truth <$> padded_mask width pc) (field 0%nat, field 1%nat, field 2%nat) (int_of (sm_label s)) (sm_train s).

Lemma concat_fmap_ints (ls : list (list jval)) : int_of <$> concat ls = concat ((fun l : list jval => int_of <$> l) <$> ls).
Proof. induction ls as [|l ls IH]; [done|]. cbn [concat fmap list_fmap]. by rewrite fmap_app, IH. Qed.

Lemma rows_of_samples ss width : Forall sample_ok ss -> Forall (fun s => (length (sm_pc s) <= width)%nat) ss ->
  let pc := (fun s => int_of <$> sm_pc s) <$> ss in
  rows_of (length ss) width (concat (padded width <$> pc)) (concat (padded_mask width <$> pc)) (int_of <$> concat (sm_layout <$> ss))
    (int_of <$> (sm_label <$> ss)) ((fun b : bool => if b then 1 else 0) <$> (sm_train <$> ss)) = row_of width <$> ss.
Proof.
  intros Hok Hw pc. unfold rows_of. apply fmap_seq_lookup. intros i s Hi. rewrite Forall_forall in Hok, Hw.
  assert (Hpc : pc !! i = Some (int_of <$> sm_pc s)) by (unfold pc; by rewrite list_lookup_fmap, Hi).
  assert (Hlen : Forall (fun l => (length l <= width)%nat) pc).
  { unfold pc. apply Forall_fmap, Forall_forall. intros x Hx. simpl. rewrite length_fmap. by apply Hw. }
  assert (Hp : Forall (fun r => length r = width) (padded width <$> pc) /\ Forall (fun r => length r = width) (padded_mask width <$> pc)).
  { split; apply Forall_fmap; (eapply Forall_impl; [exact Hlen|]); intros l Hl; unfold compose, padded, padded_mask; cbv beta in *; rewrite length_app, !length_replicate; lia. }
  assert (Hl3 : Forall (fun l => length l = 3%nat) ((fun l : list jval => int_of <$> l) <$> (sm_layout <$> ss))).
  { rewrite <- list_fmap_compose. apply Forall_fmap, Forall_forall. intros x Hx. simpl. rewrite length_fmap. apply (Hok x Hx). }
  rewrite (slice_concat width _ (proj1 Hp) i (padded width (int_of <$> sm_pc s))) by (by rewrite list_lookup_fmap, Hpc).
  rewrite (slice_concat width _ (proj2 Hp) i (padded_mask width (int_of <$> sm_pc s))) by (by rewrite list_lookup_fmap, Hpc).
  assert (Hla : ((fun l : list jval => int_of <$> l) <$> (sm_layout <$> ss)) !! i = Some (int_of <$> sm_layout s)) by (by rewrite !list_lookup_fmap, Hi).
  rewrite concat_fmap_ints. pose proof (fun k Hk => nth_concat 0 3 k _ Hk Hl3 i _ Hla) as Hn.
  rewrite (Hn 1%nat), (Hn 2%nat) by lia. rewrite <- (Nat.add_0_r (3 * i)), (Hn 0%nat) by lia. unfold row_of. f_equal.
  - apply nth_lookup_Some. by rewrite !list_lookup_fmap, Hi.
  - rewrite (nth_lookup_Some _ i 0 (if sm_train s then 1 else 0)); [by destruct (sm_train s)|]. by rewrite !list_lookup_fmap, Hi.
Qed.

(** What a row holds under its mask, and what a sample of a run holds. *)
Definition row_content (r : row) : list Z * list Z * Z * bool := (select (r_mask r) (r_pc r), [r_start r; r_end r; r_entry r], r_label r, r_train r).
Definition sample_content (s : sample) : list Z * list Z * Z * bool := (int_of <$> sm_pc s, int_of <$> sm_layout s, int_of (sm_label s), sm_train s).

Lemma row_of_content width s : sample_ok s -> (length (sm_pc s) <= width)%nat -> row_content (row_of width s) = sample_content s.
Proof.
  intros (_ & _ & _ & Hl) Hw. unfold row_content, sample_content, row_of, r_start, r_end, r_entry. simpl.
  rewrite select_padded by (by rewrite length_fmap). do 3 f_equal. destruct (sm_layout s) as [|a [|b [|c [|] ] ] ]; done.
Qed.

Lemma longest ss : Forall (fun s => (length (sm_pc s) <= max_list (length <$> (sm_pc <$> ss)))%nat) ss.
Proof. apply Forall_forall. intros s Hs. apply max_list_elem_of_le. rewrite <- list_fmap_compose. by apply (list_elem_of_fmap_2 (length ∘ sm_pc)). Qed.

(** [dataset_from_runs] loses and invents nothing: a dataset it returns passes
    validation, and under their masks its rows are the samples of the runs, in
    order, each with the layout of its run, its label and its side of the split, all
    exact integers; padding is never seen. *)
Lemma runs_become_rows capture d : dataset_from_runs capture = Ok d ->
  exists runs data, jc_runs capture = Some runs /\ validate_dataset d = Ok data /\
    row_content <$> data = sample_content <$> (runs ≫= run_samples) /\ Forall sample_ok (runs ≫= run_samples).
Proof.
  unfold dataset_from_runs. destruct (jc_format capture) as [ [|[]|]|]; try done. destruct (jc_runs capture) as [runs|]; [|done]. intros Hd.
  apply rbind_Ok in Hd as (c & Hc & Hd). apply (add_runs_exact runs [] c) in Hc as [-> Hok]; [|constructor]. simpl in Hok. cbn [app] in Hd.
  set (ss := runs ≫= run_samples) in *. cbn [columns_of cl_pc cl_layouts cl_labels cl_train] in Hd. inv_res Hd.
  match goal with Hp : rmap _ _ = Ok ?v |- _ => apply int64_rows in Hp as -> end.
  repeat match goal with Hp : int64_tensor _ = Ok ?v |- _ => apply int64_tensor_same in Hp as -> end.
  injection Hd as <-. exists runs. match goal with Hv : validate_dataset _ = Ok ?v |- _ => exists v; split; [done|]; split; [exact Hv|]; apply validate_layout_exact in Hv as
    (pc & mask & lay & labels & train & rows & width & [_ Ht _ Hs _] & -> & _) end.
  destruct Ht as (E1 & E2 & E3 & E4 & E5). simpl in *. simplify_eq. destruct Hs as (Hs & _). simpl in Hs. injection Hs as <- <-. cbn [l_data]. split; [|exact Hok].
  rewrite !length_fmap, <- !list_fmap_compose. pose proof (longest ss) as Hlong. rewrite <- list_fmap_compose in Hlong.
  pose proof (rows_of_samples ss _ Hok Hlong) as Hrows. cbv zeta in Hrows. rewrite <- !list_fmap_compose in Hrows. unfold compose in *. rewrite Hrows.
  rewrite <- list_fmap_compose. apply list_fmap_ext. intros i s Hi. apply list_elem_of_lookup_2 in Hi. rewrite Forall_forall in Hok, Hlong. simpl.
  apply row_of_content; auto.
Qed.

(** ** From workers to rows *)

(** One prescribed run: the input, its side of the split, what the worker sends and how its stream ends. *)
Record Job := MkJob { jb_input : list Z; jb_train : bool; jb_batches : list Batch; jb_ended : result unit }.
Definition collect_job (offset : Z) (j : Job) : result Run := collect offset (jb_input j) (jb_train j) (jb_batches j) (jb_ended j).

(** The object [main] writes as JSON, read back. *)
Definition json_run (r : Run) : JsonRun :=
  let l := cp_layout (rn_capture r) in
  MkJsonRun (Some (rn_train r)) [JInt l.1.1; JInt l.1.2; JInt l.2] ((fun row : list Z => JInt <$> row) <$> cp_pc (rn_capture r)) (JInt <$> rn_labels r).

(** What a job should contribute: for the block before each marker, the digit of the input at that position. *)
Definition job_rows (offset : Z) (j : Job) (l : Z * Z * Z) : list (list Z * list Z * Z * bool) :=
  zip_with (fun block v => (block, [l.1.1; l.1.2; l.2], v - 48, jb_train j))
    (before_markers (l.1.1 + offset) (blocks_of (tail (jb_batches j)))) (jb_input j).

Lemma json_run_samples r : sample_content <$> run_samples (json_run r) =
  zip_with (fun block y => (block, [(cp_layout (rn_capture r)).1.1; (cp_layout (rn_capture r)).1.2; (cp_layout (rn_capture r)).2], y, rn_train r))
    (cp_pc (rn_capture r)) (rn_labels r).
Proof.
  unfold run_samples, json_run. cbn [jr_pc jr_labels jr_layout jr_train default from_option]. generalize (rn_labels r).
  induction (cp_pc (rn_capture r)) as [|p ps IH]; intros [|y ys]; try done. cbn [fmap list_fmap zip_with]. f_equal; [|apply IH].
  unfold sample_content. simpl. do 3 f_equal. rewrite <- list_fmap_compose. apply list_fmap_id.
Qed.

Lemma collect_job_rows offset j r : collect_job offset j = Ok r -> exists l first rest src, jb_batches j = first :: rest /\ layout_frame offset first l /\
  Forall (block_frame l src) rest /\ length (jb_input j) = length (before_markers (l.1.1 + offset) (blocks_of rest)) /\
  Forall (fun v => 48 <= v <= 51) (jb_input j) /\ sample_content <$> run_samples (json_run r) = job_rows offset j l.
Proof.
  unfold collect_job, collect. intros Hc. inv_res Hc. injection Hc as <-.
  match goal with Hs : collect_samples _ _ _ = Ok _ |- _ => apply collect_samples_exact in Hs as (_ & _ & first & rest & l & src & Hbs & Hl & Hb & _ & _ & ->) end.
  cbn [cp_pc] in *. exists l, first, rest, src. bool_prop. rewrite length_fmap in *. split_and!; [done|done|done|done| |].
  - match goal with He : existsb _ _ = false |- _ => rename He into Hdig end. apply Forall_forall. intros v Hv%list_elem_of_In.
    destruct ((v <? 48) || (51 <? v)) eqn:Hbad; [|bool_prop; lia]. exfalso.
    enough (existsb (fun v => (v <? 48) || (51 <? v)) (jb_input j) = true) by congruence. apply existsb_exists. eauto.
  - rewrite json_run_samples. cbn [cp_layout rn_capture cp_pc rn_labels rn_train]. unfold job_rows. rewrite Hbs. cbn [tail]. apply zip_with_fmap_r.
Qed.

(** C26: from workers to training rows. When every job is collected and the collected
    runs make a dataset, then each worker announced one layout before its blocks,
    each input has one digit from 0 to 3 per marker of its run, and the dataset,
    which passes validation, has exactly one row per marker, in order: under its
    mask the block before the marker, the announced layout, the digit of the input
    at that position as its label, and the job's side of the split. *)
Theorem layout_pipeline_faithful offset jobs runs d : Forall2 (fun j r => collect_job offset j = Ok r) jobs runs ->
  dataset_from_runs (MkJsonCapture (Some 1) (Some (json_run <$> runs))) = Ok d ->
  exists data layouts, validate_dataset d = Ok data /\
    Forall2 (fun j l => exists first rest src, jb_batches j = first :: rest /\ layout_frame offset first l /\ Forall (block_frame l src) rest /\
      length (jb_input j) = length (before_markers (l.1.1 + offset) (blocks_of rest)) /\ Forall (fun v => 48 <= v <= 51) (jb_input j)) jobs layouts /\
    row_content <$> data = concat (zip_with (job_rows offset) jobs layouts).
Proof.
  intros Hj Hd. apply runs_become_rows in Hd as (runs' & data & [= <-] & Hv & Hc & _). exists data.
  assert (Hl : exists layouts, Forall2 (fun j l => exists first rest src, jb_batches j = first :: rest /\ layout_frame offset first l /\ Forall (block_frame l src) rest /\
      length (jb_input j) = length (before_markers (l.1.1 + offset) (blocks_of rest)) /\ Forall (fun v => 48 <= v <= 51) (jb_input j)) jobs layouts /\
    sample_content <$> ((json_run <$> runs) ≫= run_samples) = concat (zip_with (job_rows offset) jobs layouts)).
  { clear -Hj. induction Hj as [|j r jobs runs Hjr _ (layouts & IHl & IHc)]; [exists []; split; [constructor|done]|].
    apply collect_job_rows in Hjr as (l & first & rest & src & Hb & Hf & Hbl & Hn & Hdig & Hs). exists (l :: layouts).
    split; [constructor; [by exists first, rest, src|done]|]. cbn [zip_with concat fmap list_fmap]. rewrite <- IHc, <- Hs. cbn [mbind list_bind]. apply fmap_app. }
  destruct Hl as (layouts & Hf & Heq). exists layouts. rewrite Hc, Heq. done.
Qed.

(** ** Witness *)

(** Four runs of four samples each, the marker at offset 32. *)
Definition example_job (start : Z) (train : bool) : Job :=
  MkJob [48; 49; 50; 51] train
    [MkBatch None None (Tensor int64 cpu [0%nat] []) None None None (Some (MkExecutableLayout (Tensor int64 cpu [3%nat] [start; start + 64; start + 8]))) 0
       None None None None None None None;
     bare_batch (Some 0) (Some 0) (Tensor int64 cpu [5%nat] [start; start + 32; start + 8; start + 4; start + 32]);
     bare_batch (Some 0) (Some 5) (Tensor int64 cpu [4%nat] [start + 8; start + 32; start + 12; start + 32])] (Ok tt).
Definition example_jobs : list Job := [example_job 1000 true; example_job 2000 true; example_job 3000 false; example_job 4000 false].

Lemma layout_pipeline_faithful_witness : exists runs d data layouts, Forall2 (fun j r => collect_job 32 j = Ok r) example_jobs runs /\
  dataset_from_runs (MkJsonCapture (Some 1) (Some (json_run <$> runs))) = Ok d /\ validate_dataset d = Ok data /\
  row_content <$> data = concat (zip_with (job_rows 32) example_jobs layouts).
Proof.
  assert (Hr : exists runs, Forall2 (fun j r => collect_job 32 j = Ok r) example_jobs runs /\ runs = omap (fun j => match collect_job 32 j with Ok r => Some r | Raise _ => None end) example_jobs).
  { eexists. split; [|reflexivity]. repeat constructor; vm_compute; reflexivity. }
  destruct Hr as (runs & Hr & Hruns).
  assert (Hd : is_ok (dataset_from_runs (MkJsonCapture (Some 1) (Some (json_run <$> runs)))) = true) by (rewrite Hruns; vm_compute; reflexivity).
  destruct (dataset_from_runs (MkJsonCapture (Some 1) (Some (json_run <$> runs)))) as [d|] eqn:Hok; [|discriminate Hd].
  destruct (layout_pipeline_faithful 32 example_jobs runs d Hr Hok) as (data & layouts & Hv & _ & Hc).
  exists runs, d, data, layouts. split; [exact Hr|]. split; [exact Hok|]. split; [exact Hv|exact Hc].
Defined.
