(* ===== verification/PipelineSummary.v ===== *)
(** * Batch summaries of the pipeline benchmark ([examples/benchmark_pipeline.py]: [summarize])

    The features of one batch: a coarse histogram of the low byte of every value, per
    table, in which register padding and unused memory-value bytes have weight zero.
    Float32 sums, quotients and logarithms are arguments. *)

From S2P Require Import Prelude Batch Features.

Definition HISTOGRAM_BINS : nat := 16.
Definition FEATURE_COUNT : nat := 7 * HISTOGRAM_BINS.

Section summary.
(** The sum of float32 numbers (into a cell, or of a tensor), [/], [clamp_min(1)], and
    [float().log2().clamp(max=15).to(torch.int64)]. *)
Context {F : Type} (fzero fone : F) (fsum : list F -> F) (quotient : F -> F -> F) (clamp_min_1 : F -> F) (log2_bucket : Z -> Z).

Definition bin (v : Z) : Z := Z.shiftr (Z.land v 255) 4.
Definition weight (used : bool) : F := if used then fone else fzero.

(** [scatter_add_] refuses an index longer than its source. *)
Definition histogram (values : list Z) (mask : option (list bool)) : result (list F) :=
  let bins := bin <$> values in
  let weights := weight <$> default (replicate (length bins) true) mask in
  raise! RuntimeError "Expected index to be no larger than src" when (length weights <? length bins)%nat in
  Ok ((fun i => quotient (fsum (snd <$> filter (fun p => p.1 = Z.of_nat i) (zip bins weights))) (clamp_min_1 (fsum weights))) <$> seq 0 HISTOGRAM_BINS).

(** [torch.arange(values.shape[1])[None, :] < limits[:, None]], flattened. *)
Definition below (columns : nat) (limits : list Z) : list bool :=
  concat ((fun limit => (fun j => Z.of_nat j <? limit) <$> seq 0 columns) <$> limits).
Definition column_mask (values limits : tensor) : result (list bool) :=
  match t_shape values !! 1%nat with
  | Some columns => Ok (below columns (t_data limits))
  | None => throw IndexError "tuple index out of range"
  end.

(** [torch.stack] of the context columns. *)
Definition stack_context (c : AddressContext) : result (list Z) :=
  let columns := [ac_pc c; ac_cr0 c; ac_cr3 c; ac_cr4 c; ac_efer c; ac_cs_base c; ac_mode c; ac_known c] in
  raise! RuntimeError "stack expects each tensor to be equal size" when negb (forallb (fun t => bool_decide (t_shape t = t_shape (ac_pc c))) columns) in
  Ok (concat (t_data <$> columns)).

Definition maybe {A B} (f : A -> result B) (o : option A) : result (option B) :=
  match o with None => Ok None | Some a => let! b := f a in Ok (Some b) end.

Definition summarize (b : Batch) : result (list F) :=
  let register_values := r ← registers b; Some (rc_values r, rc_widths r) in
  let memory_values := m ← memory b; v ← ma_values m; Some (v, ma_sizes m) in
  let! register_mask := maybe (fun vs => column_mask vs.1 vs.2) register_values in
  let! memory_mask := maybe (fun vs => column_mask vs.1 vs.2) memory_values in
  let! context := maybe stack_context (context b) in
  let! blocks := histogram (t_data (addresses b)) None in
  let! register_bytes := histogram (from_option (fun vs => t_data vs.1) [] register_values) register_mask in
  let! memory_addresses := histogram (from_option (fun m => t_data (ma_addresses m)) [] (memory b)) None in
  let! memory_sizes := histogram (from_option (fun m => (fun s => Z.shiftl (log2_bucket s) 4) <$> t_data (ma_sizes m)) [] (memory b)) None in
  let! memory_bytes := histogram (from_option (fun vs => t_data vs.1) [] memory_values) memory_mask in
  let! context := histogram (default [] context) None in
  let! layout := histogram (from_option (fun l => t_data (el_values l)) [] (layout b)) None in
  Ok (concat [blocks; register_bytes; memory_addresses; memory_sizes; memory_bytes; context; layout]).

(** ** The reference: a histogram of the bytes in use *)

Context (of_Z : Z -> F).
(** Float32 counts ones exactly up to 2^24 of them. *)
Context (fsum_counts : forall used, Z.of_nat (length used) <= 2 ^ 24 -> fsum (weight <$> used) = of_Z (Z.of_nat (length (filter (fun u => u = true) used)))).

Definition reference (l : list Z) : list F :=
  (fun i => quotient (of_Z (count (Z.of_nat i) (bin <$> l))) (clamp_min_1 (of_Z (Z.of_nat (length l))))) <$> seq 0 HISTOGRAM_BINS.

(** The values whose mask is set. *)
Definition selected {A} (values : list A) (mask : list bool) : list A := (filter (fun p => p.2 = true) (zip values mask)).*1.

Lemma selected_cell (bins : list Z) (mask : list bool) i : length (filter (fun u => u = true) (filter (fun p => p.1 = i) (zip bins mask)).*2) = length (filter (fun v => v = i) (selected bins mask)).
Proof.
  unfold selected. induction (zip bins mask) as [|[v u] l IH]; [done|]. rewrite !(filter_cons _ (v, u)). cbn [fst snd].
  destruct (decide (v = i)), (decide (u = true)); cbn [fmap list_fmap fst snd]; rewrite ?filter_cons, ?decide_True, ?decide_False by done; cbn [length]; by rewrite ?IH.
Qed.
Lemma selected_count {A} (values : list A) (mask : list bool) : length values = length mask -> length (filter (fun u => u = true) mask) = length (selected values mask).
Proof.
  unfold selected. revert mask. induction values as [|v values IH]; intros [|u mask] Hl; try done. injection Hl as Hl. cbn [zip zip_with].
  rewrite !filter_cons. cbn [snd]. case_decide; cbn [fmap list_fmap length]; by rewrite IH.
Qed.
Lemma selected_fmap (values : list Z) (mask : list bool) : selected (bin <$> values) mask = bin <$> selected values mask.
Proof.
  unfold selected. revert mask. induction values as [|v values IH]; intros [|u mask]; try done. cbn [fmap list_fmap zip zip_with]. rewrite !filter_cons. cbn [snd].
  case_decide; cbn [fmap list_fmap fst]; [f_equal|]; apply IH.
Qed.
Lemma cell_weights (bins : list Z) (mask : list bool) i : (filter (fun p => p.1 = i) (zip bins (weight <$> mask))).*2 = weight <$> (filter (fun p => p.1 = i) (zip bins mask)).*2.
Proof.
  revert mask. induction bins as [|v bins IH]; intros [|u mask]; try done. cbn [fmap list_fmap zip zip_with]. rewrite !filter_cons. cbn [fst].
  case_decide; cbn [fmap list_fmap snd]; [f_equal|]; apply IH.
Qed.

Lemma histogram_selected values mask : length values = length mask -> Z.of_nat (length values) <= 2 ^ 24 ->
  histogram values (Some mask) = Ok (reference (selected values mask)).
Proof.
  intros Hl Hb. unfold histogram. cbn [from_option]. unfold id. cbv zeta. rewrite !length_fmap, (proj2 (Nat.ltb_ge (length mask) (length values))) by lia. f_equal. unfold reference. apply list_fmap_ext. intros _ i _. f_equal.
  - rewrite cell_weights, fsum_counts.
    + rewrite selected_cell, selected_fmap. done.
    + rewrite length_fmap. pose proof (length_filter (fun p : Z * bool => p.1 = Z.of_nat i) (zip (bin <$> values) mask)) as Hf.
      rewrite length_zip_with, length_fmap in Hf. lia.
  - rewrite fsum_counts by lia. by rewrite (selected_count values).
Qed.

Lemma selected_all {A} (l : list A) : selected l (replicate (length l) true) = l.
Proof. unfold selected. induction l as [|a l IH]; [done|]. cbn [length replicate zip zip_with]. rewrite filter_cons_True by done. cbn [fmap list_fmap fst]. by f_equal. Qed.

Lemma histogram_plain values : Z.of_nat (length values) <= 2 ^ 24 -> histogram values None = Ok (reference values).
Proof.
  intros Hb. transitivity (histogram values (Some (replicate (length values) true))); [unfold histogram; cbn [from_option]; unfold id; by rewrite (length_fmap bin)|].
  rewrite histogram_selected by (rewrite ?length_replicate; done). by rewrite selected_all.
Qed.

(** ** Padding *)

Lemma selected_app {A} (l1 l2 : list A) m1 m2 : length l1 = length m1 -> selected (l1 ++ l2) (m1 ++ m2) = selected l1 m1 ++ selected l2 m2.
Proof. intros Hl. unfold selected. by rewrite zip_with_app, filter_app, fmap_app by done. Qed.
Lemma selected_row (row : list Z) limit : forall k, selected row ((fun j => Z.of_nat j <? limit) <$> seq k (length row)) = take (Z.to_nat (limit - Z.of_nat k)) row.
Proof.
  unfold selected. induction row as [|v row IH]; intros k; [by rewrite take_nil|]. cbn [length seq fmap list_fmap zip zip_with]. rewrite filter_cons. cbn [snd]. specialize (IH (S k)).
  destruct (Z.ltb_spec (Z.of_nat k) limit) as [Hk|Hk].
  - rewrite decide_True by done. cbn [fmap list_fmap fst]. replace (Z.to_nat (limit - Z.of_nat k)) with (S (Z.to_nat (limit - Z.of_nat (S k)))) by lia. cbn [take]. f_equal. exact IH.
  - rewrite decide_False by done. replace (Z.to_nat (limit - Z.of_nat (S k))) with 0%nat in IH by lia. rewrite take_0 in IH.
    replace (Z.to_nat (limit - Z.of_nat k)) with 0%nat by lia. rewrite take_0. exact IH.
Qed.

(** A table of rows of bytes and the bytes of each row that are in use. *)
Definition used_bytes (values limits : tensor) (used : list Z) : Prop :=
  exists rows columns, t_shape values = [length rows; columns] /\ Forall (fun row => length row = columns) rows /\
    t_data values = concat rows /\ length (t_data limits) = length rows /\
    used = concat (zip_with (fun limit (row : list Z) => take (Z.to_nat limit) row) (t_data limits) rows).

Lemma selected_used columns rows : forall limits, Forall (fun row : list Z => length row = columns) rows -> length limits = length rows ->
  length (concat rows) = length (below columns limits) /\
  selected (concat rows) (below columns limits) = concat (zip_with (fun limit (row : list Z) => take (Z.to_nat limit) row) limits rows).
Proof.
  unfold below. induction rows as [|row rows IH]; intros [|limit limits] Hf Hl; try done. apply Forall_cons in Hf as [Hrow Hf]. injection Hl as Hl.
  destruct (IH limits Hf Hl) as [IHl IHs]. cbn [fmap list_fmap concat zip_with]. split; [rewrite !length_app, length_fmap, length_seq; lia|].
  rewrite selected_app by (by rewrite length_fmap, length_seq). rewrite IHs. f_equal. rewrite <- Hrow, selected_row. by rewrite Z.sub_0_r.
Qed.

Lemma histogram_used values limits used : used_bytes values limits used -> Z.of_nat (length (t_data values)) <= 2 ^ 24 ->
  exists mask, column_mask values limits = Ok mask /\ histogram (t_data values) (Some mask) = Ok (reference used).
Proof.
  intros (rows & columns & Hs & Hf & Hd & Hl & ->) Hb. unfold column_mask. rewrite Hs. eexists. split; [reflexivity|].
  destruct (selected_used columns rows (t_data limits) Hf Hl) as [Hlen Hsel]. rewrite histogram_selected by (rewrite ?Hd in *; done). by rewrite Hd, Hsel.
Qed.

(** No more values than float32 counts. *)
Definition small (l : list Z) : Prop := Z.of_nat (length l) <= 2 ^ 24.

Lemma histogram_table o used : match o with None => used = [] | Some vs => used_bytes vs.1 vs.2 used /\ small (t_data vs.1) end ->
  exists mask, maybe (fun vs => column_mask vs.1 vs.2) o = Ok mask /\ histogram (from_option (fun vs => t_data vs.1) [] o) mask = Ok (reference used).
Proof.
  destruct o as [vs|]; cbn [maybe from_option].
  - intros [Hu Hs]. destruct (histogram_used _ _ _ Hu Hs) as (mask & -> & Hh). exists (Some mask). done.
  - intros ->. exists None. split; [done|]. by apply histogram_plain.
Qed.

(** The tables of a batch as the pool makes them, with their bytes in use. *)
Record summarizable (b : Batch) (register_bytes memory_bytes : list Z) : Prop := {
  su_blocks : small (t_data (addresses b));
  su_registers : match registers b with None => register_bytes = [] | Some r => used_bytes (rc_values r) (rc_widths r) register_bytes /\ small (t_data (rc_values r)) end;
  su_memory : match memory b with None => memory_bytes = [] | Some m => small (t_data (ma_addresses m)) /\ small (t_data (ma_sizes m)) /\
    match ma_values m with None => memory_bytes = [] | Some v => used_bytes v (ma_sizes m) memory_bytes /\ small (t_data v) end end;
  su_context : match context b with None => True | Some c => exists l, stack_context c = Ok l /\ small l end;
  su_layout : match layout b with None => True | Some l => small (t_data (el_values l)) end;
}.

Definition context_values (b : Batch) : list Z := match context b with None => [] | Some c => match stack_context c with Ok l => l | Raise _ => [] end end.

(** The summary of a batch is seven histograms of sixteen bins, of exactly the
    values in use: every block address, the register bytes below each register's
    width, memory addresses, size buckets and the value bytes below each access's
    size, every context column and the layout. Padding bytes, whatever they hold,
    change no feature, and an absent table gives the histogram of no values. *)
Theorem summary_exact_bytes b register_bytes memory_bytes : summarizable b register_bytes memory_bytes ->
  exists features, summarize b = Ok features /\ length features = FEATURE_COUNT /\
    features = concat (reference <$> [t_data (addresses b); register_bytes; from_option (fun m => t_data (ma_addresses m)) [] (memory b);
      from_option (fun m => (fun s => Z.shiftl (log2_bucket s) 4) <$> t_data (ma_sizes m)) [] (memory b); memory_bytes; context_values b;
      from_option (fun l => t_data (el_values l)) [] (layout b)]).
Proof.
  intros [Hb Hr Hm Hc Hl]. eexists. split; [|split; [|reflexivity]].
  2:{ unfold reference. cbn [fmap list_fmap concat]. rewrite !length_app, !length_fmap, !length_seq. done. }
  unfold summarize. cbv zeta.
  destruct (histogram_table (r ← registers b; Some (rc_values r, rc_widths r)) register_bytes) as (rm & -> & Hreg); [by destruct (registers b)|].
  destruct (histogram_table (m ← memory b; v ← ma_values m; Some (v, ma_sizes m)) memory_bytes) as (mm & -> & Hmem).
  { destruct (memory b) as [m|]; [|done]. cbn [mbind option_bind]. destruct Hm as (_ & _ & Hm). by destruct (ma_values m). }
  assert (Hctx : exists c, maybe stack_context (context b) = Ok c /\ default [] c = context_values b /\ small (context_values b)).
  { unfold context_values. destruct (context b) as [c|]; [|by exists None]. destruct Hc as (l & Hst & Hs). exists (Some l). cbn [maybe]. by rewrite Hst. }
  destruct Hctx as (c & -> & Hcv & Hcs). cbn [rbind]. rewrite Hreg, Hmem, Hcv. destruct (memory b) as [m|], (layout b) as [l|]; cbn [from_option] in *;
    rewrite !histogram_plain by (unfold small in *; rewrite ?length_fmap; first [tauto|done]); cbn [rbind fmap list_fmap]; done.
Qed.
End summary.

(** ** Witness *)

Module SummaryWitness.
Definition row16 (used : list Z) (padding : Z) : list Z := used ++ replicate (16 - length used) padding.
(** Two registers of one and three bytes, padded with [padding]. *)
Definition example_batch (padding : Z) : Batch :=
  MkBatch (Some 0) (Some 0) (Tensor int64 cpu [1%nat] [4096])
    (Some (MkRegisterChanges (Tensor int64 cpu [2%nat] [1; 2]) (Tensor int64 cpu [2%nat] [0; 1]) (Tensor int64 cpu [2%nat] [1; 3])
      (Tensor int64 cpu [2%nat] [0; 0]) (Tensor uint8 cpu [2%nat; 16%nat] (row16 [7] padding ++ row16 [16; 17; 255] padding)) None None))
    None None None 0 None None None None None None None.

Definition sum_of (l : list Z) : Z := foldr Z.add 0 l.
Lemma sum_of_counts used : Z.of_nat (length used) <= 2 ^ 24 -> sum_of (weight 0 1 <$> used) = Z.of_nat (length (filter (fun u => u = true) used)).
Proof. intros _. induction used as [|[] used IH]; cbn [fmap list_fmap]; [done|..]; unfold sum_of in *; cbn [foldr weight]; rewrite IH, filter_cons; simpl; lia. Qed.

Lemma example_summarizable padding : summarizable (example_batch padding) [7; 16; 17; 255] [].
Proof.
  split; cbn; try done. split; [|done]. exists [row16 [7] padding; row16 [16; 17; 255] padding], 16%nat. split_and!; try done. by repeat constructor.
Qed.

(** With sums and quotients of integers: the features do not depend on the padding. *)
Lemma summary_exact_bytes_witness : exists features, length features = FEATURE_COUNT /\
  forall padding, summarize 0 1 sum_of Z.mul (Z.max 1) Z.log2 (example_batch padding) = Ok features.
Proof.
  exists (concat (reference Z.mul (Z.max 1) id <$> [ [4096]; [7; 16; 17; 255]; []; []; []; []; [] ])). split; [reflexivity|]. intros padding.
  destruct (summary_exact_bytes 0 1 sum_of Z.mul (Z.max 1) Z.log2 id sum_of_counts (example_batch padding) [7; 16; 17; 255] [] (example_summarizable padding)) as (f & Hs & _ & ->).
  exact Hs.
Defined.
End SummaryWitness.
