(* ===== verification/PipelineBench.v ===== *)
(** * The pipeline benchmark ([examples/benchmark_pipeline.py]: [benchmark])

    A measured run: every batch of a pool is counted, by table and by source, and in
    training mode summarized and reconstructed by a small network in groups. The
    report must account for every batch, and a failed run must leave a failure
    record and no report. The accounts hold for every summary function (the code's is
    [summarize] of PipelineSummary); the network's numbers and the clock are arguments;
    times and memory samples are left out. *)

From stdpp Require Import sorting.
From S2P Require Import Prelude Monad Batch Batching.

(** ** Counting *)

Record Rows := MkRows { ro_blocks : Z; ro_registers : Z; ro_memory : Z; ro_context : Z; ro_layout : Z }.
#[global] Instance Rows_eq_dec : EqDecision Rows.
Proof. solve_decision. Defined.
Definition no_rows : Rows := MkRows 0 0 0 0 0.
Definition add_rows (a b : Rows) : Rows :=
  MkRows (ro_blocks a + ro_blocks b) (ro_registers a + ro_registers b) (ro_memory a + ro_memory b) (ro_context a + ro_context b) (ro_layout a + ro_layout b).

Definition row_counts (b : Batch) : Rows :=
  MkRows (Z.of_nat (numel (addresses b)))
    (from_option (fun r => Z.of_nat (numel (rc_pc r))) 0 (registers b))
    (from_option (fun m => Z.of_nat (numel (ma_pc m))) 0 (memory b))
    (from_option (fun c => Z.of_nat (numel (ac_pc c))) 0 (context b))
    (if is_some (layout b) then 1 else 0).

(** [tensor_bytes]: the tensor fields of the batch, then those of its four tables. *)
Definition logical_bytes (b : Batch) : Z :=
  fields_bytes (batch_fields b) + (owner_bytes (registers b) + owner_bytes (memory b) + owner_bytes (context b) + owner_bytes (layout b)).

(** The transition and observation tables of a batch are not counted. *)
Lemma uncounted_tables b t w ot oc :
  logical_bytes (MkBatch (source b) (first_sequence b) (addresses b) (registers b) (memory b) (context b) (layout b) (worker b)
    (block_sequences b) t w ot oc (observation_summary b) (context_filter b)) = logical_bytes b.
Proof. by destruct b. Qed.

Notation source_key := (Z * option Z)%type.
Definition key_of (b : Batch) : source_key := (worker b, source b).
(** The key of [sorted]. *)
Definition key_le (a b : source_key * Rows) : Prop :=
  a.1.1 < b.1.1 \/ a.1.1 = b.1.1 /\ default (-1) a.1.2 <= default (-1) b.1.2.
#[global] Instance key_le_dec a b : Decision (key_le a b).
Proof. unfold key_le. apply _. Defined.

Section bench.
(** Models, summaries, floats. *)
Context {M S F : Type} (summarize : Batch -> result S).
Context (mse_loss : list S -> M -> F) (gradients_finite : list S -> M -> bool) (optimizer_step : list S -> M -> M).
Context (weights_finite : M -> bool) (same_weights : M -> M -> bool) (reloads : M -> S -> bool).
Context (fzero : F) (accumulate : F -> F -> nat -> F).

(** The variables of [benchmark] that the loop changes: the counts, and what
    [update] keeps. *)
Record Accounts := MkAccounts { ac_rows : Rows; ac_sources : list (source_key * Rows); ac_batches : nat; ac_max_bytes : Z }.
Record Fit := MkFit {
  fi_probe : option S;
  fi_model : M;
  fi_updates : nat;
  fi_trained : nat;
  fi_loss_sum : F;
  fi_first_loss : option F;
  fi_last_loss : option F;
}.
Record Progress := MkProgress { pg_accounts : Accounts; pg_pending : list S; pg_fit : Fit }.
Definition no_accounts : Accounts := MkAccounts no_rows [] 0 0.
Definition new_fit (m : M) : Fit := MkFit None m 0 0 fzero None None.

(** The body of [update], on a group of summaries. *)
Definition learn (f : Fit) (data : list S) : result Fit :=
  let probe := match fi_probe f with None => head data | Some s => Some s end in
  let value := mse_loss data (fi_model f) in
  raise! RuntimeError "Reconstruction produced a non-finite loss or gradient" when negb (gradients_finite data (fi_model f)) in
  let model := optimizer_step data (fi_model f) in
  raise! RuntimeError "Reconstruction produced non-finite weights" when negb (weights_finite model) in
  Ok (MkFit probe model (fi_updates f + 1) (fi_trained f + length data) (accumulate (fi_loss_sum f) value (length data))
    (match fi_first_loss f with None => Some value | Some v => Some v end) (Some value)).

(** The accounting of one batch. *)
Definition account (b : Batch) (a : Accounts) : Accounts :=
  let counted := row_counts b in
  let seen := default no_rows (od_get (key_of b) (ac_sources a)) in
  MkAccounts (add_rows (ac_rows a) counted) (od_set (key_of b) (add_rows seen counted) (ac_sources a)) (ac_batches a + 1)
    (Z.max (ac_max_bytes a) (logical_bytes b)).

Notation B := (sx Progress exn).

(** [update()]: nothing without pending summaries, which it clears. *)
Definition update : B unit := fun p =>
  match pg_pending p with
  | [] => (p, Ok tt)
  | data =>
      match learn (pg_fit p) data with
      | Ok f => (MkProgress (pg_accounts p) [] f, Ok tt)
      | Raise e => (MkProgress (pg_accounts p) [] (pg_fit p), Raise e)
      end
  end.

Definition account_batch (b : Batch) (p : Progress) : Progress := MkProgress (account b (pg_accounts p)) (pg_pending p) (pg_fit p).
Definition append_summary (s : S) (p : Progress) : Progress := MkProgress (pg_accounts p) (pg_pending p ++ [s]) (pg_fit p).

(** The body of the loop for a batch; [train] when there is a model. *)
Definition consume (train : bool) (group_size : nat) (b : Batch) : B unit :=
  run! smodify (account_batch b) in
  if train then
    do! s := slift (summarize b) in
    run! smodify (append_summary s) in
    do! full := sgets (fun p => length (pg_pending p) =? group_size)%nat in
    if full : bool then update else sret tt
  else sret tt.

(** [while True]: the deadline is tested before each [next]; [late n] says whether it has
    passed when [n] batches are left. *)
Fixpoint consume_all (train : bool) (group_size : nat) (late : nat -> bool) (batches : list Batch) (ended : result unit) : B unit :=
  if late (length batches) then sraise (Exn TimeoutError "Measurement exceeded its total consumption budget") else
  match batches with
  | [] => slift ended
  | b :: batches => run! consume train group_size b in consume_all train group_size late batches ended
  end.

(** ** The run and its files *)

Record BenchReport := MkBench {
  bn_rows : Rows;
  bn_events : Z;
  bn_per_source : list (source_key * Rows);
  bn_batches : nat;
  bn_workers_completed : nat;
  bn_max_bytes : Z;
  bn_fit : Fit;
}.
Record Failure := MkFailure { fa_error : exn; fa_accounts : Accounts; fa_updates : nat }.

(** The output directory: [metrics.json] and [failure.json]. *)
Record Directory := MkDirectory { di_metrics : option BenchReport; di_failure : option Failure }.
(** [_write_failure]: every key of an earlier record is written again. *)
Definition _write_failure (failure : Failure) (d : Directory) : Directory := MkDirectory None (Some failure).

Definition check_model (initial : M) (f : Fit) : result unit :=
  raise! ValueError "Training needs at least one observation batch" when (fi_updates f =? 0)%nat in
  raise! RuntimeError "Reconstruction did not change the model weights" when same_weights initial (fi_model f) in
  raise! AssertionError "Tensor-likes are not equal!" when negb (from_option (reloads (fi_model f)) true (fi_probe f)) in
  Ok tt.

Definition report_of (endpoints : list string) (p : Progress) : BenchReport :=
  let a := pg_accounts p in
  let r := ac_rows a in
  MkBench r (ro_blocks r + ro_registers r + ro_memory r + ro_context r) (merge_sort key_le (ac_sources a)) (ac_batches a) (length endpoints)
    (ac_max_bytes a) (pg_fit p).

(** The checks of the arguments. *)
Definition check_arguments (mode : string) (group_size : Z) (capture_hosts endpoints : list string) (max_seconds : option Z) : result unit :=
  raise! ValueError "Mode must be drain or train" when negb (bool_decide (mode ∈ ["drain"; "train"])) in
  raise! ValueError "Summary group size must be between 1 and 4096" when negb ((1 <=? group_size) && (group_size <=? 4096)) in
  raise! ValueError "Provide one capture host label per endpoint"
    when negb (length capture_hosts =? 0)%nat && negb (length capture_hosts =? length endpoints)%nat in
  raise! ValueError "Measurement budget must be positive" when from_option (fun s => s <=? 0) false max_seconds in
  Ok tt.

(** What is inside [try], from the variables. *)
Definition measure (mode : string) (group_size : Z) (endpoints : list string) (late : nat -> bool) (serializable : BenchReport -> bool)
    (batches : list Batch) (ended : result unit) (initial : M) (write_metrics : bool) : B BenchReport :=
  let train := bool_decide (mode = "train") in
  run! consume_all train (Z.to_nat group_size) late batches ended in
  run! update in
  do! f := sgets pg_fit in
  run! slift (if train then check_model initial f else Ok tt) in
  do! r := sgets (report_of endpoints) in
  run! slift (if write_metrics && negb (serializable r) then throw ValueError "Out of range float values are not JSON compliant" else Ok tt) in
  sret r.

(** [pool] is what constructing the pool gives; [batches] and [ended] what reading it gives. *)
Definition benchmark (mode : string) (group_size : Z) (capture_hosts endpoints : list string) (max_seconds : option Z) (late : nat -> bool)
    (serializable : BenchReport -> bool) (pool : result unit) (batches : list Batch) (ended : result unit) (initial : M)
    (write_metrics : bool) (directory : option Directory) : option Directory * result BenchReport :=
  match (let! _ := check_arguments mode group_size capture_hosts endpoints max_seconds in pool), directory with
  | Raise e, _ => (directory, Raise e)
  | Ok _, Some _ => (directory, throw OSError "File exists")
  | Ok _, None =>
      let late := if is_some max_seconds then late else fun _ => false in
      match measure mode group_size endpoints late serializable batches ended initial write_metrics (MkProgress no_accounts [] (new_fit initial)) with
      | (_, Ok r) => (Some (MkDirectory (if write_metrics then Some r else None) None), Ok r)
      | (p, Raise e) => (Some (_write_failure (MkFailure e (pg_accounts p) (fi_updates (pg_fit p))) (MkDirectory None None)), Raise e)
      end
  end.

(** ** Accounts *)

Definition sum_rows (bs : list Batch) : Rows := foldr (fun b r => add_rows (row_counts b) r) no_rows bs.

(** Accounts that hold exactly the batches [bs]. *)
Record counted (bs : list Batch) (a : Accounts) : Prop := {
  ct_rows : ac_rows a = sum_rows bs;
  ct_batches : ac_batches a = length bs;
  ct_bytes : ac_max_bytes a = foldr Z.max 0 (logical_bytes <$> bs);
  ct_keys : NoDup (ac_sources a).*1;
  ct_total : foldr add_rows no_rows (ac_sources a).*2 = ac_rows a;
  ct_sources : forall k, od_get k (ac_sources a) =
    if decide (k ∈ key_of <$> bs) then Some (sum_rows (filter (fun b => key_of b = k) bs)) else None;
}.

Lemma add_rows_assoc a b c : add_rows (add_rows a b) c = add_rows a (add_rows b c).
Proof. destruct a, b, c. unfold add_rows. simpl. f_equal; lia. Qed.
Lemma add_rows_0_r a : add_rows a no_rows = a.
Proof. destruct a. unfold add_rows. simpl. f_equal; lia. Qed.
Lemma add_rows_0_l a : add_rows no_rows a = a.
Proof. by destruct a. Qed.
Lemma sum_rows_app l1 l2 : sum_rows (l1 ++ l2) = add_rows (sum_rows l1) (sum_rows l2).
Proof. induction l1 as [|b l1 IH]; simpl; [by rewrite add_rows_0_l|]. by rewrite IH, add_rows_assoc. Qed.

Lemma max_snoc l z : foldr Z.max 0 (l ++ [z]) = Z.max (foldr Z.max 0 l) z \/ z < 0.
Proof. induction l as [|x l IH]; simpl; lia. Qed.
Lemma logical_bytes_nonneg b : 0 <= logical_bytes b.
Proof. pose proof (tensor_bytes_nonneg b) as H. unfold tensor_bytes in H. unfold logical_bytes. lia. Qed.

Lemma add_rows_comm a b : add_rows a b = add_rows b a.
Proof. destruct a, b. unfold add_rows. simpl. f_equal; lia. Qed.
Lemma total_set k c (l : list (source_key * Rows)) : foldr add_rows no_rows (od_set k (add_rows (default no_rows (od_get k l)) c) l).*2 =
  add_rows (foldr add_rows no_rows l.*2) c.
Proof.
  induction l as [|[k' r] l IH]; cbn [od_get od_set]; [simpl; by rewrite add_rows_0_r|]. case_decide; cbn [fmap list_fmap foldr snd].
  - simpl. by rewrite !add_rows_assoc, (add_rows_comm c).
  - by rewrite IH, add_rows_assoc.
Qed.

Lemma account_counted bs a b : counted bs a -> counted (bs ++ [b]) (account b a).
Proof.
  intros [Hr Hb Hy Hk Ht Hs]. split.
  - cbn [account ac_rows]. rewrite Hr, sum_rows_app. simpl. by rewrite add_rows_0_r.
  - cbn [account ac_batches]. rewrite Hb, length_app. done.
  - cbn [account ac_max_bytes]. rewrite Hy, fmap_app. cbn [fmap list_fmap].
    destruct (max_snoc (logical_bytes <$> bs) (logical_bytes b)) as [->|Hn]; [done|]. pose proof (logical_bytes_nonneg b). lia.
  - cbn [account ac_sources]. by apply od_set_NoDup.
  - cbn [account ac_sources ac_rows]. by rewrite total_set, Ht.
  - intros k. cbn [account ac_sources]. rewrite fmap_app, filter_app, sum_rows_app. destruct (decide (k = key_of b)) as [->|Hne].
    + rewrite od_get_set_eq, decide_True by (apply elem_of_app; right; by left). rewrite filter_cons_True by done. rewrite Hs.
      f_equal. f_equal; [|simpl; by rewrite add_rows_0_r]. case_decide as Hin; [done|]. simpl.
      replace (filter (fun b0 => key_of b0 = key_of b) bs) with (@nil Batch); [done|]. symmetry. apply elem_of_nil_inv.
      intros x [Hx Hin']%list_elem_of_filter. apply Hin. rewrite <- Hx. by apply list_elem_of_fmap_2.
    + rewrite od_get_set_ne by done. rewrite Hs, filter_cons_False by congruence. rewrite filter_nil. simpl. rewrite add_rows_0_r.
      assert (Hiff : k ∈ (key_of <$> bs) ++ [key_of b] <-> k ∈ key_of <$> bs) by (rewrite elem_of_app; set_solver).
      destruct (decide (k ∈ key_of <$> bs)), (decide (k ∈ (key_of <$> bs) ++ [key_of b])); tauto.
Qed.

(** ** Groups *)

(** A list cut into groups of [g], the last one shorter. *)
Fixpoint groups (fuel g : nat) (l : list S) : list (list S) :=
  match fuel, l with
  | Datatypes.S fuel, _ :: _ => take g l :: groups fuel g (drop g l)
  | _, _ => []
  end.
Definition groups_of (g : nat) (l : list S) : list (list S) := groups (length l) g l.

Lemma groups_split g full rest : forall fuel, (0 < g)%nat -> Forall (fun d => length d = g) full -> (length rest < g)%nat ->
  (length (concat full ++ rest) <= fuel)%nat -> groups fuel g (concat full ++ rest) = full ++ match rest with [] => [] | _ => [rest] end.
Proof.
  intros fuel Hg Hf Hr. revert fuel. induction Hf as [|d full Hd _ IH]; intros fuel Hfuel; cbn [concat app] in *.
  - destruct rest as [|x rest]; [by destruct fuel|]. destruct fuel; [simpl in *; lia|]. cbn [groups]. rewrite take_ge, drop_ge by lia. by destruct fuel.
  - rewrite <- app_assoc in *. destruct d as [|x d]; [simpl in Hd; lia|]. destruct fuel as [|fuel]; [simpl in *; lia|].
    cbn [groups app]. rewrite app_comm_cons, take_app_length', drop_app_length' by done. f_equal. apply IH. rewrite length_app in Hfuel. cbn [length] in *. lia.
Qed.

(** The summaries so far, learned in full groups but for the pending ones. *)
Definition fitted (m : M) (g : nat) (ss : list S) (p : Progress) : Prop :=
  exists full, ss = concat full ++ pg_pending p /\ Forall (fun d => length d = g) full /\ (length (pg_pending p) < g)%nat /\
    rfold learn (new_fit m) full = Ok (pg_fit p).

Lemma learn_counts gs : forall f f', rfold learn f gs = Ok f' ->
  fi_updates f' = (fi_updates f + length gs)%nat /\ fi_trained f' = (fi_trained f + length (concat gs))%nat.
Proof.
  induction gs as [|d gs IH]; intros f f'; cbn [rfold]; [intros [= <-]; simpl; lia|]. intros (f1 & H1 & H2)%rbind_Ok.
  apply IH in H2 as [-> ->]. unfold learn in H1. inv_res H1. injection H1 as <-. cbn [fi_updates fi_trained concat length]. rewrite length_app. lia.
Qed.

Section loop.
Context (m : M) (train : bool) (g : nat) (Hg : (0 < g)%nat).

Definition trained_on (bs : list Batch) (p : Progress) : Prop :=
  if train then exists ss, rmap summarize bs = Ok ss /\ fitted m g ss p else pg_pending p = [] /\ pg_fit p = new_fit m.

Lemma update_accounts p : pg_accounts (update p).1 = pg_accounts p.
Proof. unfold update. destruct (pg_pending p); [done|]. by destruct (learn _ _). Qed.

Lemma consume_spec bs b p : counted bs (pg_accounts p) -> trained_on bs p ->
  let '(p', r) := consume train g b p in counted (bs ++ [b]) (pg_accounts p') /\ (r = Ok tt -> trained_on (bs ++ [b]) p').
Proof.
  intros Hc Ht. apply (account_counted _ _ b) in Hc. unfold consume, trained_on in *. destruct train; cbn [sbind smodify sret slift sgets].
  2:{ split; [exact Hc|]. intros _. exact Ht. }
  destruct Ht as (ss & Hss & full & -> & Hf & Hp & Hl). unfold sbind, smodify, slift, sgets, sret.
  destruct (summarize b) as [x|e] eqn:Hx; [|by split]. cbn [account_batch append_summary pg_accounts pg_pending].
  assert (Hss' : rmap summarize (bs ++ [b]) = Ok (concat full ++ pg_pending p ++ [x])).
  { rewrite rmap_app, Hss. cbn [rbind rmap]. rewrite Hx. cbn [rbind]. by rewrite <- app_assoc. }
  destruct (Nat.eqb_spec (length (pg_pending p ++ [x])) g) as [He|He].
  - unfold update. cbn [pg_pending pg_fit pg_accounts append_summary account_batch]. destruct (pg_pending p ++ [x]) as [|y data] eqn:Hd; [by destruct (pg_pending p)|].
    destruct (learn (pg_fit p) (y :: data)) as [f|e] eqn:Hlearn; [|by split]. split; [exact Hc|]. intros _. exists (concat full ++ y :: data). split; [done|].
    exists (full ++ [y :: data]). cbn [pg_pending pg_fit]. split_and!.
    + rewrite concat_app. simpl. by rewrite !app_nil_r.
    + apply Forall_app. split; [done|]. by constructor.
    + simpl. lia.
    + rewrite rfold_app, Hl. cbn [rbind rfold]. by rewrite Hlearn.
  - split; [exact Hc|]. intros _. eexists. split; [exact Hss'|]. exists full. cbn [pg_pending pg_fit append_summary account_batch]. split_and!; try done.
    rewrite length_app in *. simpl in *. lia.
Qed.

Lemma consume_all_spec late ended batches : forall pre p, counted pre (pg_accounts p) -> trained_on pre p ->
  let '(p', r) := consume_all train g late batches ended p in
  match r with
  | Ok _ => ended = Ok tt /\ counted (pre ++ batches) (pg_accounts p') /\ trained_on (pre ++ batches) p'
  | Raise _ => exists k, counted (pre ++ take k batches) (pg_accounts p')
  end.
Proof.
  induction batches as [|b batches IH]; intros pre p Hc Ht; cbn [consume_all].
  - destruct (late _); [exists 0%nat; by rewrite app_nil_r|]. unfold slift. rewrite app_nil_r. destruct ended as [ []|e]; [done|]. exists 0%nat. by rewrite app_nil_r.
  - destruct (late _); [exists 0%nat; by rewrite take_0, app_nil_r|]. unfold sbind.
    pose proof (consume_spec pre b p Hc Ht) as Hs. destruct (consume train g b p) as [p' [ []|e] ]; destruct Hs as [Hc' Ht'].
    + specialize (IH (pre ++ [b]) p' Hc' (Ht' eq_refl)). rewrite <- app_assoc in IH. destruct (consume_all _ _ _ _ _ _) as [p2 [ []|e] ].
      * done.
      * destruct IH as [k Hk]. exists (Datatypes.S k). by rewrite <- app_assoc in Hk.
    + exists 1%nat. done.
Qed.

(** The last call of [update] learns the last group. *)
Lemma update_last bs p p' : trained_on bs p -> update p = (p', Ok tt) ->
  pg_fit p' = pg_fit p /\ train = false /\ pg_fit p = new_fit m \/
  train = true /\ exists ss, rmap summarize bs = Ok ss /\ rfold learn (new_fit m) (groups_of g ss) = Ok (pg_fit p').
Proof.
  unfold trained_on. destruct train.
  - intros (ss & Hss & full & -> & Hf & Hp & Hl) Hu. right. split; [done|]. eexists. split; [exact Hss|]. unfold groups_of.
    rewrite (groups_split g full (pg_pending p)) by (try done; lia). rewrite rfold_app, Hl. cbn [rbind]. unfold update in Hu.
    destruct (pg_pending p) as [|x data]; [by injection Hu as <-|]. destruct (learn (pg_fit p) (x :: data)) as [f|] eqn:Hlearn; [|done].
    injection Hu as <-. cbn [rfold pg_fit]. by rewrite Hlearn.
  - intros [Hp Hf] Hu. left. unfold update in Hu. rewrite Hp in Hu. injection Hu as <-. done.
Qed.
End loop.

Lemma counted_empty : counted [] no_accounts.
Proof. split; [done..|constructor|done|]. intros k. rewrite decide_False by set_solver. done. Qed.

Lemma total_permutation (l l' : list Rows) : l ≡ₚ l' -> foldr add_rows no_rows l = foldr add_rows no_rows l'.
Proof. induction 1; simpl; [done|by f_equal|by rewrite <- !add_rows_assoc, (add_rows_comm y)|by etrans]. Qed.

(** What [measure] leaves in the variables. *)
Lemma measure_spec mode group_size endpoints late serializable batches ended initial write_metrics :
  1 <= group_size -> let train := bool_decide (mode = "train") in
  let '(p, r) := measure mode group_size endpoints late serializable batches ended initial write_metrics (MkProgress no_accounts [] (new_fit initial)) in
  match r with
  | Ok rep => ended = Ok tt /\ rep = report_of endpoints p /\ counted batches (pg_accounts p) /\
      (train = false /\ pg_fit p = new_fit initial \/
       train = true /\ fi_updates (pg_fit p) <> 0%nat /\ exists ss, rmap summarize batches = Ok ss /\ rfold learn (new_fit initial) (groups_of (Z.to_nat group_size) ss) = Ok (pg_fit p))
  | Raise _ => exists k, counted (take k batches) (pg_accounts p)
  end.
Proof.
  intros Hgs. cbv zeta. unfold measure. set (train := bool_decide (mode = "train")). set (p0 := MkProgress no_accounts [] (new_fit initial)).
  assert (Ht0 : trained_on initial train (Z.to_nat group_size) [] p0).
  { unfold trained_on. destruct train; [|done]. exists []. split; [done|]. exists []. split_and!; [done|constructor|simpl; lia|done]. }
  pose proof (consume_all_spec initial train (Z.to_nat group_size) ltac:(lia) late ended batches [] p0 counted_empty Ht0) as Hall.
  unfold sbind. destruct (consume_all _ _ _ _ _ _) as [p1 [ []|e] ]; [|exact Hall]. destruct Hall as (He & Hc & Ht). cbn [app] in *.
  pose proof (update_accounts p1) as Hua. destruct (update p1) as [p2 [ []|e] ] eqn:Hu; cbn [fst] in Hua.
  2:{ exists (length batches). by rewrite take_ge, Hua by lia. }
  assert (Hk : exists k, counted (take k batches) (pg_accounts p2)) by (exists (length batches); by rewrite take_ge, Hua by lia).
  apply (update_last initial train (Z.to_nat group_size) ltac:(lia) _ _ _ Ht) in Hu. cbn [sgets slift sret].
  assert (Hupd : train = true -> check_model initial (pg_fit p2) = Ok tt -> fi_updates (pg_fit p2) <> 0%nat).
  { intros _ Hm. unfold check_model in Hm. destruct (Nat.eqb_spec (fi_updates (pg_fit p2)) 0); [done|done]. }
  unfold slift. destruct (if train then check_model initial (pg_fit p2) else Ok tt) as [ []|e] eqn:Hm; [|exact Hk].
  destruct (write_metrics && _); [exact Hk|]. split; [done|]. split; [done|]. rewrite Hua. split; [done|].
  destruct Hu as [(Hf & Htr & Hn)|(Htr & Hss)]; [left|right]; rewrite Htr in *; [by rewrite Hf|]. auto.
Qed.

(** The rows of each source, exactly once. *)
Definition per_source_exact (bs : list Batch) (l : list (source_key * Rows)) : Prop :=
  NoDup l.*1 /\ forall k r, (k, r) ∈ l <-> k ∈ key_of <$> bs /\ r = sum_rows (filter (fun b => key_of b = k) bs).

Lemma counted_per_source bs a : counted bs a -> per_source_exact bs (merge_sort key_le (ac_sources a)).
Proof.
  intros Hc. split; [rewrite merge_sort_Permutation; apply Hc|]. intros k r. rewrite merge_sort_Permutation.
  pose proof (ct_sources _ _ Hc k) as Hs. split.
  - intros Hin. apply od_elem_get in Hin; [|apply Hc]. rewrite Hs in Hin. case_decide; [|done]. by injection Hin as <-.
  - intros [Hk ->]. rewrite decide_True in Hs by done. by apply od_get_Some_elem in Hs.
Qed.

End bench.
