(* ===== verification/KernelPolicy.v ===== *)
(** * A policy over guest commands ([examples/learn_kernel.py])

    The client of a kernel worker: the commands, the check of every guest result
    against independently computed values, block features per vCPU with their
    coverage reward, and the run that calibrates the adapter, updates a policy and
    quits. The guest behind the Gymnasium wrapper is an interface with any
    behaviour; the network, its distribution and float arithmetic are arguments. *)

From Stdlib Require Import Ascii.
From S2P Require Import Prelude Batch Features DigitCounts.

(** ** Commands and their results *)

Definition newline : string := String (ascii_of_nat 10) EmptyString.
Definition COMMANDS : list string :=
  ["getpid" +:+ newline; "memory 17 256" +:+ newline; "pipe 17 64" +:+ newline; "parallel 17 256" +:+ newline; "quit" +:+ newline].

(** A value of a guest's JSON object. *)
Inductive value := VInt (z : Z) | VStr (s : string) | VBool (b : bool) | VOther.
#[global] Instance value_eq_dec : EqDecision value.
Proof. solve_decision. Defined.
Definition object := list (string * value).

(** The guest's byte sum: a 32-bit linear congruential generator. *)
Fixpoint checksum (seed : Z) (size : nat) : Z :=
  match size with
  | O => 0
  | S size => let seed := Z.land (1664525 * seed + 1013904223) 4294967295 in Z.shiftr seed 24 + checksum seed size
  end.

(** [int(field)] of decimal digits. *)
Definition int10 (s : string) : Z := foldl (fun v c => 10 * v + (Z.of_nat (nat_of_ascii c) - 48)) 0 (String.list_ascii_of_string s).

(** [type(result.get(key)) is not type(value) or result[key] != value] *)
Definition differs (reply : object) (kv : string * value) : bool := negb (bool_decide (od_get kv.1 reply = Some kv.2)).

Definition positive_cpu (v : option value) : bool := match v with Some (VInt z) => 0 <=? z | _ => false end.

Definition expected_of (action : Z) (fields : list string) : object :=
  ("action", VStr (nth 0 fields EmptyString)) ::
  if action =? 0 then [("value", VInt 1)]
  else
    let seed := int10 (nth 1 fields EmptyString) in
    let size := int10 (nth 2 fields EmptyString) in
    [("seed", VInt seed); ("bytes", VInt size)] ++
    if action =? 3 then [("checksum0", VInt (checksum seed (Z.to_nat size))); ("checksum1", VInt (checksum (seed + 1) (Z.to_nat size)))]
    else [("checksum", VInt (checksum seed (Z.to_nat size)))].

Definition verify_result (action : Z) (reported : option object) : result unit :=
  raise! ValueError "Expected a workload action" when negb ((0 <=? action) && (action <? Z.of_nat (length COMMANDS) - 1)) in
  match reported with
  | None => throw ValueError "The guest did not return a workload result"
  | Some reply =>
      raise! ValueError "The guest did not return a workload result" when differs reply ("event", VStr "result") in
      let fields := split_fields (nth (Z.to_nat action) COMMANDS EmptyString) in
      let cpus := (od_get "cpu0" reply, od_get "cpu1" reply) in
      raise! ValueError "Parallel work did not report two distinct guest CPUs"
        when (action =? 3) && (negb (positive_cpu cpus.1) || negb (positive_cpu cpus.2) || bool_decide (cpus.1 = cpus.2)) in
      raise! ValueError ("Incorrect guest result for " +:+ nth 0 fields EmptyString) when existsb (differs reply) (expected_of action fields) in
      Ok tt
  end.

(** ** Block features per vCPU *)

Record SourceBlockFeatures := MkSourceBlocks { sb_sources : Z; sb_bins : Z; sb_counts : list (list Z); sb_seen : list (list bool) }.

Definition new_features (sources bins : Z) : result SourceBlockFeatures :=
  raise! ValueError "Use positive sources and a power-of-two bin count"
    when (sources <? 1) || (bins <? 2) || negb (Z.land bins (bins - 1) =? 0) in
  Ok (MkSourceBlocks sources bins (replicate (Z.to_nat sources) (replicate (Z.to_nat bins) 0))
    (replicate (Z.to_nat sources) (replicate (Z.to_nat bins) false))).

Definition token (bins a : Z) : Z := Z.land (Z.lxor (Z.shiftr a 2) (Z.shiftr a 12)) (bins - 1).

(** The body of [for batch in batches]; [bincount] has as many rows as [counts] columns. *)
Definition count_batch (f : SourceBlockFeatures) (counts : list (list Z)) (b : Batch) : result (list (list Z)) :=
  match source b with
  | None => throw TypeError "'<=' not supported between instances of 'int' and 'NoneType'"
  | Some s =>
      raise! ValueError "Trace CPU exceeds --sources; configure every guest vCPU" when negb ((0 <=? s) && (s <? sb_sources f)) in
      raise! ValueError "Reduce CPU trace batches before moving features to the model"
        when negb (bool_decide (t_device (addresses b) = cpu)) in
      if (numel (addresses b) =? 0)%nat then Ok counts
      else Ok (alter (fun row => zip_with Z.add row (bincount (token (sb_bins f) <$> t_data (addresses b)) (Z.to_nat (sb_bins f)))) (Z.to_nat s) counts)
  end.

(** [__call__], up to the floats of the returned features. *)
Definition observe_blocks (batches : list Batch) (f : SourceBlockFeatures) : result SourceBlockFeatures :=
  let! counts := rfold (count_batch f) ((fun row : list Z => replicate (length row) 0) <$> sb_counts f) batches in
  Ok (MkSourceBlocks (sb_sources f) (sb_bins f) counts (sb_seen f)).

(** [coverage_reward]: the newly seen cells and the number of counted blocks, of which the reward is made. *)
Definition present (f : SourceBlockFeatures) : list (list bool) := (fun row : list Z => (fun n => 0 <? n) <$> row) <$> sb_counts f.
Definition cells (grid : list (list bool)) : Z := zsum (fun row => Z.of_nat (length (filter (fun b => b = true) row))) grid.
Definition coverage (f : SourceBlockFeatures) : (Z * Z) * SourceBlockFeatures :=
  let fresh := zip_with (zip_with (fun p s => p && negb s)) (present f) (sb_seen f) in
  let seen := zip_with (zip_with orb) (sb_seen f) (present f) in
  ((cells fresh, zsum (zsum id) (sb_counts f)), MkSourceBlocks (sb_sources f) (sb_bins f) (sb_counts f) seen).

(** ** Counts *)

Definition shape {A} (r c : nat) (grid : list (list A)) : Prop := length grid = r /\ Forall (fun row => length row = c) grid.
Record features_ok (f : SourceBlockFeatures) : Prop := {
  fo_sizes : 1 <= sb_sources f /\ 2 <= sb_bins f;
  fo_counts : shape (Z.to_nat (sb_sources f)) (Z.to_nat (sb_bins f)) (sb_counts f);
  fo_seen : shape (Z.to_nat (sb_sources f)) (Z.to_nat (sb_bins f)) (sb_seen f);
}.

Lemma shape_replicate {A} r c (x : A) : shape r c (replicate r (replicate c x)).
Proof. split; [apply length_replicate|]. apply Forall_replicate, length_replicate. Qed.

Lemma new_features_ok sources bins f : new_features sources bins = Ok f -> features_ok f /\ sb_sources f = sources /\ sb_bins f = bins.
Proof.
  unfold new_features. intros Hn. inv_res Hn. injection Hn as <-. bool_prop. split; [|done]. split; cbn; [lia|apply shape_replicate..].
Qed.

(** The tokens of the blocks of one source, over all batches. *)
Definition tokens_of (bins s : Z) (bs : list Batch) : list Z :=
  token bins <$> concat ((fun b => t_data (addresses b)) <$> filter (fun b => source b = Some s) bs).
Definition exact_counts (f : SourceBlockFeatures) (bs : list Batch) : list (list Z) :=
  (fun s => (fun t => count (Z.of_nat t) (tokens_of (sb_bins f) (Z.of_nat s) bs)) <$> seq 0 (Z.to_nat (sb_bins f))) <$> seq 0 (Z.to_nat (sb_sources f)).

(** A batch the features accept. *)
Definition countable (f : SourceBlockFeatures) (b : Batch) : Prop :=
  (exists s, source b = Some s /\ 0 <= s < sb_sources f) /\ t_device (addresses b) = cpu /\ length (t_data (addresses b)) = numel (addresses b).

Lemma token_range bins a : 2 <= bins -> 0 <= token bins a < bins.
Proof. intros Hb. unfold token. pose proof (land_below (Z.lxor (Z.shiftr a 2) (Z.shiftr a 12)) (bins - 1) ltac:(lia)). lia. Qed.

Lemma bincount_tokens bins l : 2 <= bins -> bincount (token bins <$> l) (Z.to_nat bins) = (fun v => count (Z.of_nat v) (token bins <$> l)) <$> seq 0 (Z.to_nat bins).
Proof.
  intros Hb. apply bincount_below. apply Forall_fmap, Forall_forall. intros a _. simpl. pose proof (token_range bins a Hb). lia.
Qed.

Lemma zip_add_seq (f g : nat -> Z) k n : zip_with Z.add (f <$> seq k n) (g <$> seq k n) = (fun i => f i + g i) <$> seq k n.
Proof. revert k. induction n as [|n IH]; intros k; [done|]. cbn [seq fmap list_fmap zip_with]. by rewrite IH. Qed.

Lemma alter_fmap_seq (h : list Z -> list Z) (f : nat -> list Z) s n : alter h s (f <$> seq 0 n) = (fun i => if decide (i = s) then h (f i) else f i) <$> seq 0 n.
Proof.
  apply list_eq. intros i. rewrite list_lookup_alter, !list_lookup_fmap. destruct (decide (s = i)) as [->|Hne].
  - destruct (seq 0 n !! i) as [k|] eqn:Hk; [|done]. apply lookup_seq in Hk as [-> _]. simpl. by rewrite decide_True.
  - destruct (seq 0 n !! i) as [k|] eqn:Hk; [|done]. apply lookup_seq in Hk as [-> _]. simpl. by rewrite decide_False.
Qed.

(** One batch adds its tokens to the row of its source. *)
Lemma count_batch_exact f bs b : features_ok f -> countable f b ->
  count_batch f (exact_counts f bs) b = Ok (exact_counts f (bs ++ [b])).
Proof.
  intros [ [Hs Hb] _ _] ( (s & Hsrc & Hr) & Hd & Hl). unfold count_batch. rewrite Hsrc. rewrite (proj2 (Z.leb_le _ _)), (proj2 (Z.ltb_lt _ _)) by lia.
  rewrite bool_decide_eq_true_2 by done. cbn [andb negb].
  assert (Htok : forall i, tokens_of (sb_bins f) i (bs ++ [b]) = tokens_of (sb_bins f) i bs ++ (if decide (i = s) then token (sb_bins f) <$> t_data (addresses b) else [])).
  { intros i. unfold tokens_of. rewrite filter_app, fmap_app, concat_app, fmap_app. f_equal. case_decide as He.
    - subst. rewrite filter_cons_True by done. simpl. by rewrite app_nil_r.
    - rewrite filter_cons_False by congruence. done. }
  assert (Hrow : forall i, (fun t => count (Z.of_nat t) (tokens_of (sb_bins f) i (bs ++ [b]))) <$> seq 0 (Z.to_nat (sb_bins f)) =
    if decide (i = s) then zip_with Z.add ((fun t => count (Z.of_nat t) (tokens_of (sb_bins f) i bs)) <$> seq 0 (Z.to_nat (sb_bins f)))
      (bincount (token (sb_bins f) <$> t_data (addresses b)) (Z.to_nat (sb_bins f)))
    else (fun t => count (Z.of_nat t) (tokens_of (sb_bins f) i bs)) <$> seq 0 (Z.to_nat (sb_bins f))).
  { intros i. case_decide as He.
    - rewrite bincount_tokens, zip_add_seq by done. apply list_fmap_ext. intros _ t _. rewrite Htok, decide_True, count_app by done. done.
    - apply list_fmap_ext. intros _ t _. by rewrite Htok, decide_False, app_nil_r by done. }
  destruct (Nat.eqb_spec (numel (addresses b)) 0) as [Hz|Hz].
  - f_equal. unfold exact_counts. apply list_fmap_ext. intros _ i _. apply list_fmap_ext. intros _ t _. rewrite Htok.
    assert (t_data (addresses b) = []) as -> by (apply length_zero_iff_nil; lia). case_decide; simpl; by rewrite app_nil_r.
  - f_equal. unfold exact_counts at 1. rewrite alter_fmap_seq. apply list_fmap_ext. intros _ i _. rewrite Hrow.
    destruct (decide (i = Z.to_nat s)) as [->|Hne]; [by rewrite decide_True by lia|by rewrite decide_False by lia].
Qed.

Lemma fmap_const_seq {A} (x : A) k n : (fun _ : nat => x) <$> seq k n = replicate n x.
Proof. revert k. induction n as [|n IH]; intros k; [done|]. cbn [seq fmap list_fmap replicate]. by rewrite IH. Qed.

Lemma exact_counts_nil f : features_ok f -> (fun row : list Z => replicate (length row) 0) <$> sb_counts f = exact_counts f [].
Proof.
  intros [_ [Hl Hr] _]. unfold exact_counts, tokens_of. cbn. rewrite fmap_const_seq.
  assert (Hz : (fun t => count (Z.of_nat t) []) <$> seq 0 (Z.to_nat (sb_bins f)) = replicate (Z.to_nat (sb_bins f)) 0) by exact (fmap_const_seq 0 0 _).
  rewrite Hz, <- Hl. clear Hz Hl.
  induction Hr as [|row rows Hrow _ IH]; [done|]. cbn [fmap list_fmap length replicate]. rewrite IH, Hrow. done.
Qed.

Lemma exact_counts_shape f bs : shape (Z.to_nat (sb_sources f)) (Z.to_nat (sb_bins f)) (exact_counts f bs).
Proof.
  split; [unfold exact_counts; by rewrite length_fmap, length_seq|]. apply Forall_fmap, Forall_forall. intros s _. simpl. by rewrite length_fmap, length_seq.
Qed.

Lemma count_batches_exact f bs : features_ok f -> Forall (countable f) bs -> forall pre,
  rfold (count_batch f) (exact_counts f pre) bs = Ok (exact_counts f (pre ++ bs)).
Proof.
  intros Hf. induction 1 as [|b bs Hb _ IH]; intros pre; cbn [rfold]; [by rewrite app_nil_r|].
  rewrite count_batch_exact by done. cbn [rbind]. rewrite IH. by rewrite <- app_assoc.
Qed.

(** Only acceptable batches are counted. *)
Lemma count_batches_ok f bs : forall counts counts', Forall (fun b => length (t_data (addresses b)) = numel (addresses b)) bs ->
  rfold (count_batch f) counts bs = Ok counts' -> Forall (countable f) bs.
Proof.
  induction bs as [|b bs IH]; intros counts counts' Hw; cbn [rfold]; [constructor|]. apply Forall_cons in Hw as [Hb Hw].
  intros (c & Hc & Hr)%rbind_Ok. constructor; [|by eapply IH]. unfold count_batch in Hc. destruct (source b) as [s|] eqn:Hs; [|done].
  inv_res Hc. bool_prop. split; [exists s; split; [done|lia]|done].
Qed.

Definition with_counts (f : SourceBlockFeatures) (counts : list (list Z)) : SourceBlockFeatures := MkSourceBlocks (sb_sources f) (sb_bins f) counts (sb_seen f).

Lemma observe_blocks_exact f bs f' : features_ok f -> Forall (fun b => length (t_data (addresses b)) = numel (addresses b)) bs ->
  observe_blocks bs f = Ok f' <-> Forall (countable f) bs /\ f' = with_counts f (exact_counts f bs).
Proof.
  intros Hf Hw. unfold observe_blocks. rewrite exact_counts_nil by done. split.
  - intros (c & Hc & Hr)%rbind_Ok. pose proof (count_batches_ok _ _ _ _ Hw Hc) as Hall. split; [done|].
    rewrite (count_batches_exact f bs Hf Hall []) in Hc. injection Hc as <-. by injection Hr as <-.
  - intros [Hall ->]. by rewrite (count_batches_exact f bs Hf Hall []).
Qed.

(** The features of a step are exact: the counts are, for every vCPU and every
    cell, the number of its blocks that hash there, whatever the batches the stream
    was cut into, and reducing raises exactly when a batch is not of a configured
    vCPU or not in host memory. *)
Theorem block_features_exact f bs f' : features_ok f -> Forall (fun b => length (t_data (addresses b)) = numel (addresses b)) bs ->
  observe_blocks bs f = Ok f' <-> Forall (countable f) bs /\ f' = with_counts f (exact_counts f bs).
Proof. apply observe_blocks_exact. Qed.

Lemma observe_blocks_ok f bs f' : features_ok f -> observe_blocks bs f = Ok f' -> features_ok f' /\ sb_seen f' = sb_seen f /\
  sb_sources f' = sb_sources f /\ sb_bins f' = sb_bins f.
Proof.
  intros Hf Ho. unfold observe_blocks in Ho. apply rbind_Ok in Ho as (c & Hc & Ho). injection Ho as <-. split; [|done].
  destruct Hf as [Hs Hcn Hse]. split; [done| |done]. cbn [sb_counts sb_sources sb_bins].
  assert (Hstep : forall counts b counts', shape (Z.to_nat (sb_sources f)) (Z.to_nat (sb_bins f)) counts -> count_batch f counts b = Ok counts' ->
    shape (Z.to_nat (sb_sources f)) (Z.to_nat (sb_bins f)) counts').
  { intros counts b counts' [Hl Hr] Hcb. unfold count_batch in Hcb. destruct (source b) as [s|]; [|done]. inv_res Hcb. destruct (_ =? 0)%nat; [by injection Hcb as <-|].
    injection Hcb as <-. split; [by rewrite length_alter|]. apply Forall_alter; [done|]. intros row _ Hrow.
    rewrite length_zip_with, bincount_tokens by lia. rewrite length_fmap, length_seq. lia. }
  eapply rfold_inv; [intros counts b counts' Hi Hcb; by eapply Hstep| |exact Hc].
  split; [rewrite length_fmap; apply Hcn|]. apply Forall_fmap. eapply Forall_impl; [apply Hcn|]. intros row Hrow. simpl. by rewrite length_replicate.
Qed.

(** ** Coverage *)

Lemma cells_bound r c grid : shape r c grid -> 0 <= cells grid <= Z.of_nat (r * c).
Proof.
  intros [<- Hf]. induction Hf as [|row grid Hrow _ IH]; [done|]. unfold cells in *. rewrite zsum_cons. cbn [length Nat.mul].
  pose proof (length_filter (fun b => b = true) row). rewrite Hrow in *. lia.
Qed.

Lemma cells_row p s : length p = length s ->
  length (filter (fun b => b = true) (zip_with orb s p)) = (length (filter (fun b => b = true) s) + length (filter (fun b => b = true) (zip_with (fun p s => p && negb s) p s)))%nat.
Proof.
  revert s. induction p as [|x p IH]; intros [|y s] Hl; try done. injection Hl as Hl. specialize (IH s Hl). cbn [zip_with].
  rewrite !filter_cons. destruct x, y; cbn [orb andb negb]; repeat case_decide; try done; cbn [length]; lia.
Qed.

Lemma shape_zip {A B C} (h : A -> B -> C) r c (a : list (list A)) (b : list (list B)) : shape r c a -> shape r c b -> shape r c (zip_with (zip_with h) a b).
Proof.
  intros [Hla Ha] [Hlb Hb]. split; [rewrite length_zip_with; lia|]. clear Hla Hlb. revert b Hb.
  induction Ha as [|x a Hx _ IH]; intros [|y b] Hb; cbn [zip_with]; [constructor..|]. apply Forall_cons in Hb as [Hy Hb].
  constructor; [rewrite length_zip_with; lia|by apply IH].
Qed.
Lemma present_shape f : features_ok f -> shape (Z.to_nat (sb_sources f)) (Z.to_nat (sb_bins f)) (present f).
Proof.
  intros [_ [Hl Hr] _]. unfold present. split; [by rewrite length_fmap|]. apply Forall_fmap. eapply Forall_impl; [exact Hr|].
  intros row Hrow. simpl. by rewrite length_fmap.
Qed.

Lemma cells_union r c (p s : list (list bool)) : shape r c p -> shape r c s ->
  cells (zip_with (zip_with orb) s p) = cells s + cells (zip_with (zip_with (fun p s => p && negb s)) p s).
Proof.
  intros [Hlp Hp] [Hls Hs]. assert (Hl : length p = length s) by lia. clear Hlp Hls. revert s Hl Hs.
  induction Hp as [|x p Hx _ IH]; intros [|y s] Hl Hs; try done. apply Forall_cons in Hs as [Hy Hs]. injection Hl as Hl. specialize (IH s Hl Hs).
  unfold cells in *. cbn [zip_with]. rewrite !zsum_cons, IH. rewrite cells_row by lia. lia.
Qed.

Lemma coverage_spec f : features_ok f -> let '((fresh, blocks), f') := coverage f in
  features_ok f' /\ 0 <= fresh /\ cells (sb_seen f') = cells (sb_seen f) + fresh /\ sb_sources f' = sb_sources f /\ sb_bins f' = sb_bins f.
Proof.
  intros Hf. pose proof (present_shape f Hf) as Hp. destruct Hf as [Hs Hc Hse]. unfold coverage. cbn [sb_sources sb_bins sb_counts sb_seen]. split_and!; [|eapply cells_bound|by eapply cells_union|done|done].
  - split; [done|done|]. cbn [sb_sources sb_bins sb_seen]. by apply shape_zip.
  - by apply shape_zip.
Qed.

(** ** The client and the wrapper *)

(** The environment under the wrapper: what a reset or an action yields, and its attributes. *)
Class GuestOps (E : Type) := {
  guest_reset : E -> E * result (list Batch);
  guest_step : string -> E -> E * result (list Batch);
  guest_event : E -> option object;
  guest_result : E -> option object;
  guest_exit : E -> option Z;
  guest_needs_input : E -> bool;
}.

Section policy.
Context {E M O F G : Type} `{GuestOps E}.
(** The observation of the counts; the reward of new cells among all, of blocks under the budget; a sample
    from the model's distribution; whether the loss and the gradients are finite; the model after the step. *)
Context (features_of : list (list Z) -> O) (reward_of : Z -> Z -> Z -> Z -> F) (fzero : F).
Context (sample : M -> O -> G -> nat * G) (loss_of : M -> O -> nat -> F -> F) (isfinite : F -> bool).
Context (gradient_finite : M -> O -> nat -> F -> bool) (optimizer_step : M -> O -> nat -> F -> M).
Context (weights_finite : M -> bool) (weights_equal : M -> M -> bool).

(** The wrapper and the client: the environment, the features, the last action, [_ended], and what was sent. *)
Record Wrapper := MkWrapper { wr_env : E; wr_features : SourceBlockFeatures; wr_action : nat; wr_ended : bool; wr_sent : list string }.

(** [CommandClient.reward], with the budget of the client. *)
Definition client_reward (block_budget : Z) (w : Wrapper) : result (F * SourceBlockFeatures) :=
  let e := wr_env w in
  if (wr_action w =? length COMMANDS - 1)%nat then
    raise! ValueError "The guest did not report successful completion"
      when negb (bool_decide (guest_exit e = Some 0)) ||
           match guest_event e with
           | None => true
           | Some event => differs event ("event", VStr "complete") || differs event ("ok", VBool true)
           end in
    Ok (fzero, wr_features w)
  else
    let! _ := verify_result (Z.of_nat (wr_action w)) (guest_result e) in
    raise! ValueError "The guest did not return to its command boundary" when negb (guest_needs_input e) || is_some (guest_exit e) in
    let '((fresh, blocks), f) := coverage (wr_features w) in
    Ok (reward_of fresh (sb_sources f * sb_bins f) blocks block_budget, f).

Record Step := MkStep { st_observation : O; st_reward : F; st_terminated : bool; st_truncated : bool; st_result : option object }.

(** [wrapper.step]: the action is encoded and sent, every batch reduced, the reward taken; the episode ends with the guest. *)
Definition wrapper_step (block_budget : Z) (action : nat) (w : Wrapper) : result (Step * Wrapper) :=
  raise! RuntimeError "The episode has ended; call reset before step" when wr_ended w in
  match COMMANDS !! action with
  | None => throw ValueError "Action is outside the client action space"
  | Some command =>
      match guest_step command (wr_env w) with
      | (_, Raise e) => Raise e
      | (e, Ok batches) =>
          let! f := observe_blocks batches (wr_features w) in
          let w := MkWrapper e f action (wr_ended w) (wr_sent w ++ [command]) in
          let! r := client_reward block_budget w in
          let ended := is_some (guest_exit e) in
          Ok (MkStep (features_of (sb_counts f)) r.1 ended false (guest_result e), MkWrapper e r.2 action ended (wr_sent w))
      end
  end.

Definition wrapper_reset (e : E) (f : SourceBlockFeatures) : result (O * Wrapper) :=
  match guest_reset e with
  | (_, Raise x) => Raise x
  | (e, Ok batches) =>
      let! f := observe_blocks batches f in
      Ok (features_of (sb_counts f), MkWrapper e f 0 (is_some (guest_exit e)) [])
  end.

(** ** [policy_update] and [run] *)

Record Update := MkUpdate { up_action : nat; up_reward : F; up_loss : F }.
Record Policy := MkPolicy { po_model : M; po_random : G; po_observation : O; po_wrapper : Wrapper; po_updates : list Update }.

Definition policy_update (block_budget : Z) (p : Policy) : result Policy :=
  let '(action, g) := sample (po_model p) (po_observation p) (po_random p) in
  let! r := wrapper_step block_budget action (po_wrapper p) in
  let '(s, w) := r in
  raise! ValueError "The guest ended before the explicit quit action" when st_terminated s || st_truncated s in
  let loss := loss_of (po_model p) (po_observation p) action (st_reward s) in
  raise! ValueError "The policy loss is not finite" when negb (isfinite loss) in
  raise! ValueError "The policy gradient is not finite" when negb (gradient_finite (po_model p) (po_observation p) action (st_reward s)) in
  Ok (MkPolicy (optimizer_step (po_model p) (po_observation p) action (st_reward s)) g (st_observation s) w
    (po_updates p ++ [MkUpdate action (st_reward s) loss])).

(** [for action in range(len(COMMANDS) - 1)]: the results that were checked. *)
Definition calibrate (block_budget : Z) (st : O * Wrapper * list object) (action : nat) : result (O * Wrapper * list object) :=
  let '(_, w, checked) := st in
  let! r := wrapper_step block_budget action w in
  let '(s, w) := r in
  match st_result s with
  | None => throw TypeError "'NoneType' object is not iterable"
  | Some o => Ok (st_observation s, w, checked ++ [o])
  end.

Record KernelMetrics := MkKernelMetrics { km_checked : list object; km_updates : list Update; km_changed : bool; km_sent : list string; km_model : M }.

(** [features.seen.zero_()] *)
Definition forget_seen (f : SourceBlockFeatures) : SourceBlockFeatures :=
  MkSourceBlocks (sb_sources f) (sb_bins f) (sb_counts f) ((fun row : list bool => replicate (length row) false) <$> sb_seen f).
Definition map_features (g : SourceBlockFeatures -> SourceBlockFeatures) (w : Wrapper) : Wrapper :=
  MkWrapper (wr_env w) (g (wr_features w)) (wr_action w) (wr_ended w) (wr_sent w).

Definition run (e : E) (sources bins policy_steps : Z) (initial : M) (g : G) : result KernelMetrics :=
  raise! ValueError "Choose from 0 through 1000 policy steps" when negb ((0 <=? policy_steps) && (policy_steps <=? 1000)) in
  let! features := new_features sources bins in
  let! start := wrapper_reset e features in
  let! calibrated := rfold (calibrate 100000) (start.1, start.2, []) (seq 0 (length COMMANDS - 1)) in
  let '(observation, w, checked) := calibrated in
  let! p := rfold (fun p _ => policy_update 100000 p) (MkPolicy initial g observation (map_features forget_seen w) []) (seq 0 (Z.to_nat policy_steps)) in
  let! last := wrapper_step 100000 (length COMMANDS - 1) (po_wrapper p) in
  raise! ValueError "Explicit quit did not complete the episode" when negb (st_terminated last.1) || st_truncated last.1 in
  raise! ValueError "The updated model is not finite" when negb (weights_finite (po_model p)) in
  let changed := negb (weights_equal initial (po_model p)) in
  raise! ValueError "The policy parameters did not change" when negb (policy_steps =? 0) && negb changed in
  Ok (MkKernelMetrics checked (po_updates p) changed (wr_sent last.2) (po_model p)).

(** ** What a run that returns has done *)

(** The result of a workload command, checked field by field. *)
Definition checked_result (action : Z) (reply : object) : Prop :=
  0 <= action < 4 /\ od_get "event" reply = Some (VStr "result") /\
  (forall k v, (k, v) ∈ expected_of action (split_fields (nth (Z.to_nat action) COMMANDS EmptyString)) -> od_get k reply = Some v) /\
  (action = 3 -> exists x y, od_get "cpu0" reply = Some (VInt x) /\ od_get "cpu1" reply = Some (VInt y) /\ 0 <= x /\ 0 <= y /\ x <> y).

Lemma differs_false reply kv : differs reply kv = false <-> od_get kv.1 reply = Some kv.2.
Proof. unfold differs. rewrite negb_false_iff, bool_decide_eq_true. done. Qed.

Lemma verify_result_checked action reported : verify_result action reported = Ok tt -> exists reply, reported = Some reply /\ checked_result action reply.
Proof.
  unfold verify_result. intros Hv. inv_res Hv. destruct reported as [reply|]; [|done]. exists reply. split; [done|]. inv_res Hv. bool_prop.
  match goal with Hd : differs reply _ = false |- _ => apply differs_false in Hd; rename Hd into Hevent end.
  match goal with Hl : action < _ |- _ => change (Z.of_nat (length COMMANDS) - 1) with 4 in Hl end. split; [lia|]. split; [exact Hevent|]. split.
  - intros k v Hin. match goal with He : existsb _ _ = false |- _ => rename He into Hex end.
    destruct (differs reply (k, v)) eqn:Hd; [|by apply differs_false in Hd]. exfalso.
    assert (Ht : existsb (differs reply) (expected_of action (split_fields (nth (Z.to_nat action) COMMANDS EmptyString))) = true); [|congruence].
    apply existsb_exists. exists (k, v). split; [by apply list_elem_of_In|done].
  - intros ->. match goal with Hc : (3 =? 3) && _ = false |- _ => clear -Hc; cbn [Z.eqb Pos.eqb andb fst snd] in Hc end. bool_prop.
    destruct (od_get "cpu0" reply) as [ [x| | |]|]; try done. destruct (od_get "cpu1" reply) as [ [y| | |]|]; try done. exists x, y. unfold positive_cpu in *. bool_prop.
    split_and!; [done|done|lia|lia|]. intros ->. done.
Qed.

(** A step that returns. *)
Lemma wrapper_step_ok budget action w s w' : features_ok (wr_features w) -> wrapper_step budget action w = Ok (s, w') ->
  exists command, COMMANDS !! action = Some command /\ wr_sent w' = wr_sent w ++ [command] /\ features_ok (wr_features w') /\
    sb_sources (wr_features w') = sb_sources (wr_features w) /\ sb_bins (wr_features w') = sb_bins (wr_features w) /\ st_truncated s = false /\
    if (action =? 4)%nat then st_terminated s = true
    else (exists reply, st_result s = Some reply /\ checked_result (Z.of_nat action) reply) /\ st_terminated s = false /\
      exists fresh blocks, st_reward s = reward_of fresh (sb_sources (wr_features w) * sb_bins (wr_features w)) blocks budget /\ 0 <= fresh /\
        cells (sb_seen (wr_features w')) = cells (sb_seen (wr_features w)) + fresh.
Proof.
  intros Hf Hw. unfold wrapper_step in Hw. inv_res Hw. destruct (COMMANDS !! action) as [command|] eqn:Hc; [|done]. exists command. split; [done|].
  destruct (guest_step command (wr_env w)) as [e [batches|]]; [|done]. inv_res Hw. injection Hw as <- <-.
  match goal with Ho : observe_blocks _ _ = Ok ?v |- _ => destruct (observe_blocks_ok _ _ _ Hf Ho) as (Hok & Hseen & Hsrc & Hbin); rename v into f1 end.
  match goal with Hr : client_reward _ _ = Ok ?v |- _ => rename Hr into Hrew; destruct v as [r f2] end. unfold client_reward in Hrew. cbn [wr_env wr_action wr_features wr_sent] in *.
  change (length COMMANDS - 1)%nat with 4%nat in Hrew. cbn [st_truncated st_terminated st_result st_reward]. split; [done|]. destruct (Nat.eqb_spec action 4) as [->|Hne].
  - inv_res Hrew. injection Hrew as <- <-. bool_prop. split_and!; [done|done|done|done|]. match goal with Hx : guest_exit e = Some 0 |- _ => rewrite Hx end. done.
  - inv_res Hrew. bool_prop. pose proof (coverage_spec f1 Hok) as Hcov. destruct (coverage f1) as [ [fresh blocks] f3]. injection Hrew as <- <-.
    destruct Hcov as (Hok3 & Hfr & Hcells & Hs3 & Hb3). cbn [wr_features fst snd]. do 4 (split; [done || congruence|]).
    match goal with Hvr : verify_result _ _ = Ok ?u |- _ => destruct u; apply verify_result_checked in Hvr as (reply & Hrep & Hchk) end.
    split; [by exists reply|]. split; [done|]. exists fresh, blocks. rewrite Hs3, Hb3, Hsrc, Hbin, Hcells, Hseen. done.
Qed.

Definition command_of (action : nat) : string := nth action COMMANDS EmptyString.
(** Features that keep the configuration of [f]. *)
Definition configured (f f' : SourceBlockFeatures) : Prop := features_ok f' /\ sb_sources f' = sb_sources f /\ sb_bins f' = sb_bins f.

Lemma calibrate_all budget n : forall k st st', (k + n <= 4)%nat -> features_ok (wr_features st.1.2) ->
  rfold (calibrate budget) st (seq k n) = Ok st' ->
  exists replies, st'.2 = st.2 ++ replies /\ Forall2 (fun a reply => checked_result (Z.of_nat a) reply) (seq k n) replies /\
    wr_sent st'.1.2 = wr_sent st.1.2 ++ (command_of <$> seq k n) /\ configured (wr_features st.1.2) (wr_features st'.1.2).
Proof.
  induction n as [|n IH]; intros k [ [o w] checked] st' Hk Hf; cbn [seq rfold fst snd] in *.
  - intros [= <-]. exists []. cbn. rewrite !app_nil_r. split_and!; [done|constructor|done|done..].
  - intros (st1 & H1 & H2)%rbind_Ok. unfold calibrate in H1. inv_res H1. destruct v as [s w1].
    match goal with Hs : wrapper_step _ _ _ = Ok _ |- _ => destruct (wrapper_step_ok _ _ _ _ _ Hf Hs) as (command & Hc & Hsent & Hok & Hsrc & Hbin & _ & Hr) end.
    rewrite (proj2 (Nat.eqb_neq k 4)) in Hr by lia. destruct Hr as ((reply & Hrep & Hchk) & _). rewrite Hrep in H1. injection H1 as <-.
    apply IH in H2 as (replies & Hre & Hall & Hse & Hcf); [|lia|exact Hok]. cbn [fst snd] in *. exists (reply :: replies).
    assert (Hcmd : command_of k = command) by (by apply nth_lookup_Some). split_and!.
    + rewrite Hre. by rewrite <- app_assoc.
    + by constructor.
    + rewrite Hse, Hsent. cbn [fmap list_fmap]. by rewrite Hcmd, <- app_assoc.
    + destruct Hcf as (Hok' & Hs' & Hb'). split; [done|]. split; congruence.
Qed.

(** What the updates of a policy did: one workload command each, with the reward of newly seen cells. *)
Record updated (budget : Z) (p p' : Policy) (n : nat) : Prop := {
  ud_updates : exists us fs, po_updates p' = po_updates p ++ us /\ length us = n /\ Forall (fun u => (up_action u < 4)%nat) us /\
    wr_sent (po_wrapper p') = wr_sent (po_wrapper p) ++ ((fun u => command_of (up_action u)) <$> us) /\
    Forall2 (fun u f => up_reward u = reward_of f.1 (sb_sources (wr_features (po_wrapper p)) * sb_bins (wr_features (po_wrapper p))) f.2 budget /\ 0 <= f.1) us fs /\
    cells (sb_seen (wr_features (po_wrapper p'))) = cells (sb_seen (wr_features (po_wrapper p))) + zsum fst fs;
  ud_features : configured (wr_features (po_wrapper p)) (wr_features (po_wrapper p'));
}.

Lemma policy_update_ok budget p p' : features_ok (wr_features (po_wrapper p)) -> policy_update budget p = Ok p' -> updated budget p p' 1.
Proof.
  intros Hf. unfold policy_update. destruct (sample _ _ _) as [action g]. intros Hp. inv_res Hp. destruct v as [s w]. inv_res Hp. injection Hp as <-. bool_prop.
  match goal with Hs : wrapper_step _ _ _ = Ok _ |- _ => destruct (wrapper_step_ok _ _ _ _ _ Hf Hs) as (command & Hc & Hsent & Hok & Hsrc & Hbin & _ & Hr) end.
  destruct (Nat.eqb_spec action 4) as [->|Hne]; [congruence|]. destruct Hr as (_ & _ & fresh & blocks & Hrew & Hfr & Hcells).
  pose proof (lookup_lt_Some _ _ _ Hc) as Hlt. change (length COMMANDS) with 5%nat in Hlt.
  assert (Hcmd : command_of action = command) by (by apply nth_lookup_Some). split; cbn [po_updates po_wrapper]; [|done].
  exists [MkUpdate action (st_reward s) (loss_of (po_model p) (po_observation p) action (st_reward s))], [(fresh, blocks)].
  cbn [fmap list_fmap up_action]. rewrite Hcmd. split_and!; [done|done|constructor; [simpl; lia|constructor]|done|by constructor|].
  rewrite Hcells. cbn. lia.
Qed.

Lemma policy_updates_ok budget n : forall k p p', features_ok (wr_features (po_wrapper p)) ->
  rfold (fun p _ => policy_update budget p) p (seq k n) = Ok p' -> updated budget p p' n.
Proof.
  induction n as [|n IH]; intros k p p' Hf; cbn [seq rfold].
  - intros [= <-]. split; [|done]. exists [], []. cbn. rewrite !app_nil_r. split_and!; [done|done|constructor|done|constructor|lia].
  - intros (p1 & H1 & H2)%rbind_Ok. apply (policy_update_ok budget _ _ Hf) in H1 as [(us & fs & Hu & Hn & Ha & Hs & Hr & Hc) (Hok & Hsrc & Hbin)].
    apply IH in H2 as [(us2 & fs2 & Hu2 & Hn2 & Ha2 & Hs2 & Hr2 & Hc2) (Hok2 & Hsrc2 & Hbin2)]; [|done]. rewrite Hsrc, Hbin in Hr2. split; [|split_and!; [done|congruence..] ].
    exists (us ++ us2), (fs ++ fs2). rewrite Hu2, Hu, Hs2, Hs, Hc2, Hc, length_app, fmap_app, zsum_app, !app_assoc.
    split_and!; [done|lia|by apply Forall_app|done|by apply Forall2_app|lia].
Qed.

Lemma forget_seen_ok f : features_ok f -> configured f (forget_seen f) /\ cells (sb_seen (forget_seen f)) = 0.
Proof.
  intros [Hs Hc [Hl Hr] ]. split; [split; [|done]; split; [done|done|]|]; cbn [forget_seen sb_seen sb_sources sb_bins].
  - split; [by rewrite length_fmap|]. apply Forall_fmap. eapply Forall_impl; [exact Hr|]. intros row Hrow. cbn. by rewrite length_replicate.
  - clear. induction (sb_seen f) as [|row seen IH]; [done|]. unfold cells in *. cbn [fmap list_fmap]. rewrite zsum_cons, IH.
    induction row as [|b row IHr]; [done|]. cbn [length replicate]. rewrite filter_cons_False by done. done.
Qed.

End policy.

(** ** Witness *)

(** A guest that answers every command correctly; its state is the last command's number. *)
Definition answer (action : nat) : object :=
  [("event", VStr "result"); ("cpu0", VInt 0); ("cpu1", VInt 1)] ++ expected_of (Z.of_nat action) (split_fields (command_of action)).
Definition number_of (command : string) : nat := default 9%nat (fst <$> list_find (fun c => c = command) COMMANDS).
#[global] Instance example_guest : GuestOps nat := {
  guest_reset e := (9%nat, Ok []);
  guest_step command e := (number_of command, Ok [bare_batch (Some 1) (Some 0) (Tensor int64 cpu [2%nat] [4096; 4100])]);
  guest_event e := Some [("event", VStr "complete"); ("ok", VBool true)];
  guest_result e := if (e <? 4)%nat then Some (answer e) else None;
  guest_exit e := if (e =? 4)%nat then Some 0 else None;
  guest_needs_input e := (e <? 4)%nat;
}.

