(* ===== verification/GuestActions.v ===== *)
(** * Client-defined guest actions and digit responses
      ([examples/custom_kernel_actions.py], [examples/learn_stdio.py])

    Two clients of interactive workers. One sends two matched system-call sequences
    to a kernel guest and demands a complete transition window for each; the other
    reads a digit cue from a paused program's trace, answers it and is rewarded by
    the exit code. The environments are interfaces with any behaviour; networks and
    float arithmetic are arguments. *)

From Stdlib Require Import Ascii.
From S2P Require Import Prelude Batch Features DigitCounts KernelPolicy.

(** ** [custom_kernel_actions.py] *)

Module Actions.

Definition LINUX_O_CLOEXEC : Z := 524288.

Definition open_action (variant : string) (repetitions : Z) : result string :=
  raise! ValueError "variant must be plain or cloexec" when negb (bool_decide (variant ∈ ["plain"; "cloexec"])) in
  raise! ValueError "repetitions must be from 1 through 64" when negb ((1 <=? repetitions) && (repetitions <=? 64)) in
  Ok ("open " +:+ variant +:+ " " +:+ pretty repetitions +:+ newline).

Definition expected_reply (variant : string) (repetitions : Z) : object :=
  [("event", VStr "result"); ("action", VStr "open_sequence"); ("variant", VStr variant); ("repetitions", VInt repetitions);
   ("syscalls", VInt (repetitions * 3)); ("open_flags", VInt (if bool_decide (variant = "plain") then 0 else LINUX_O_CLOEXEC))].

(** Python's [==] makes [True] the integer one. *)
Definition loosely_equal (v w : value) : bool :=
  match v, w with
  | VInt a, VBool b | VBool b, VInt a => a =? (if b then 1 else 0)
  | _, _ => bool_decide (v = w)
  end.
(** [result.get(key) != value] *)
Definition unequal (reply : object) (kv : string * value) : bool := negb (from_option (fun v => loosely_equal v kv.2) false (od_get kv.1 reply)).

Definition verify_reply (variant : string) (repetitions : Z) (reported : option object) : result unit :=
  raise! ValueError "guest result does not match"
    when match reported with None => true | Some reply => existsb (unequal reply) (expected_reply variant repetitions) end in
  Ok tt.

(** [env.event == {...}]: the same keys with equal values. *)
Definition same_object (o : option object) (expected : object) : bool :=
  match o with
  | None => false
  | Some o => (length o =? length expected)%nat && negb (existsb (unequal o) expected)
  end.

Record Summary := MkSummary { su_variant : string; su_repetitions : Z; su_blocks : nat; su_transitions : Z }.

Section run.
Context {E : Type} `{GuestOps E}.

(** One action: its blocks and windows, its checks. *)
Definition act (repetitions : Z) (st : E * list string * list Summary) (step : nat * string) : result (E * list string * list Summary) :=
  let '(e, sent, summaries) := st in
  let '(n, variant) := step in
  let! action := open_action variant repetitions in
  match guest_step action e with
  | (_, Raise x) => Raise x
  | (e, Ok batches) =>
      let blocks := sum_list ((fun b => numel (addresses b)) <$> batches) in
      let windows := omap transition_window batches in
      let! _ := verify_reply variant repetitions (guest_result e) in
      raise! RuntimeError "guest did not publish ready after action"
        when negb (same_object (guest_event e) [("event", VStr "ready"); ("step", VInt (Z.of_nat n + 1))]) in
      match windows with
      | [window] =>
          raise! RuntimeError "action has no complete trace window" when negb (window_complete window) in
          Ok (e, sent ++ [action], summaries ++ [MkSummary variant repetitions blocks (tw_observed window)])
      | _ => throw RuntimeError "action has no complete trace window"
      end
  end.

Definition run_actions (e : E) (repetitions : Z) : result (list string * list Summary) :=
  match guest_reset e with
  | (_, Raise x) => Raise x
  | (e, Ok _) =>
      raise! RuntimeError "guest did not publish its initial ready event"
        when negb (same_object (guest_event e) [("event", VStr "ready"); ("step", VInt 0)]) in
      let! st := rfold (act repetitions) (e, [], []) [(0%nat, "plain"); (1%nat, "cloexec")] in
      let '(e, sent, summaries) := st in
      match guest_step ("quit" +:+ newline) e with
      | (_, Raise x) => Raise x
      | (e, Ok _) =>
          raise! RuntimeError "guest did not complete successfully"
            when negb (bool_decide (guest_exit e = Some 0)) ||
                 negb (same_object (guest_event e) [("event", VStr "complete"); ("steps", VInt 2); ("ok", VBool true)]) in
          Ok (sent ++ ["quit" +:+ newline], summaries)
      end
  end.

(** A summary backed by the guest: the batches of its action, the guest's matching answer and the one complete window. *)
Definition backed (repetitions : Z) (n : nat) (variant : string) (s : Summary) : Prop :=
  exists action e e' batches window, open_action variant repetitions = Ok action /\ guest_step action e = (e', Ok batches) /\
    verify_reply variant repetitions (guest_result e') = Ok tt /\
    same_object (guest_event e') [("event", VStr "ready"); ("step", VInt (Z.of_nat n + 1))] = true /\
    omap transition_window batches = [window] /\ window_complete window = true /\
    s = MkSummary variant repetitions (sum_list ((fun b => numel (addresses b)) <$> batches)) (tw_observed window).

Lemma act_ok repetitions st n variant st' : act repetitions st (n, variant) = Ok st' ->
  exists action s, open_action variant repetitions = Ok action /\ backed repetitions n variant s /\ st'.1.2 = st.1.2 ++ [action] /\ st'.2 = st.2 ++ [s].
Proof.
  destruct st as [ [e sent] summaries]. cbn [act]. intros Ha. apply rbind_Ok in Ha as (action & Hact & Ha).
  destruct (guest_step action e) as [e' [batches|]] eqn:Hs; [|done]. inv_res Ha. destruct (omap transition_window batches) as [|window [|] ] eqn:Hw; try done.
  inv_res Ha. injection Ha as <-. bool_prop. destruct v. exists action. eexists. split; [done|]. split; [|done]. by exists action, e, e', batches, window.
Qed.

(** A run that returns sent the two sequences and quit, nothing else, and each summary is backed by the guest. *)
Theorem actions_run_checked e repetitions sent summaries : run_actions e repetitions = Ok (sent, summaries) ->
  1 <= repetitions <= 64 /\
  sent = ["open plain " +:+ pretty repetitions +:+ newline; "open cloexec " +:+ pretty repetitions +:+ newline; "quit" +:+ newline] /\
  exists s1 s2, summaries = [s1; s2] /\ backed repetitions 0 "plain" s1 /\ backed repetitions 1 "cloexec" s2.
Proof.
  unfold run_actions. destruct (guest_reset e) as [e0 [b0|]]; [|done]. intros Hr. inv_res Hr. match goal with Hl : rfold _ _ _ = Ok v |- _ => rename Hl into Hloop end.
  cbn [rfold] in Hloop. apply rbind_Ok in Hloop as (st1 & H1 & (st2 & H2 & [= <-])%rbind_Ok).
  apply act_ok in H1 as (a1 & s1 & Ha1 & Hb1 & Hs1 & Hm1). apply act_ok in H2 as (a2 & s2 & Ha2 & Hb2 & Hs2 & Hm2).
  destruct st2 as [ [e2 sent2] sum2]. cbn [fst snd] in *. destruct (guest_step _ e2) as [e3 [b3|]]; [|done]. inv_res Hr. injection Hr as <- <-.
  rewrite Hs1 in Hs2. rewrite Hm1 in Hm2. subst. unfold open_action in Ha1, Ha2. inv_res Ha1. inv_res Ha2. injection Ha1 as <-. injection Ha2 as <-. bool_prop.
  split; [lia|]. split; [done|]. exists s1, s2. done.
Qed.
End run.
End Actions.

(** ** [learn_stdio.py] *)

Module Digits.

(** [(batch.addresses[:, None] == entries[None, :]).sum(dim=0)] *)
Definition entry_matches (entries addresses : list Z) : list Z := (fun e => count e addresses) <$> entries.

Definition observe_cue (entries : list Z) (batches : list Batch) : result (list Z) :=
  let counts := fold_left (fun c b => zip_with Z.add c (entry_matches entries (t_data (addresses b)))) batches (replicate 10 0) in
  raise! RuntimeError "Expected exactly one digit cue before the stdin request" when negb (zsum id counts =? 1) in
  Ok counts.

(** [observation.argmax()]: the position of the first largest count. *)
Definition argmax_cue (l : list Z) : nat := default 0%nat (fst <$> list_find (fun x => x = foldr Z.max 0 l) l).

(** A cue of digit [d]. *)
Definition one_hot (d : nat) : list Z := (fun i => if (i =? d)%nat then 1 else 0) <$> seq 0 10.

(** The counts of all batches, as of one trace. *)
Lemma observe_counts entries bs : forall pre, length entries = 10%nat ->
  fold_left (fun c b => zip_with Z.add c (entry_matches entries (t_data (addresses b)))) bs (entry_matches entries pre) =
  entry_matches entries (pre ++ concat ((fun b => t_data (addresses b)) <$> bs)).
Proof.
  induction bs as [|b bs IH]; intros pre Hl; cbn [fold_left fmap list_fmap concat]; [by rewrite app_nil_r|].
  replace (zip_with Z.add _ _) with (entry_matches entries (pre ++ t_data (addresses b))); [rewrite IH by done; by rewrite <- app_assoc|].
  unfold entry_matches. clear. induction entries as [|e entries IHe]; [done|]. cbn [fmap list_fmap zip_with]. by rewrite count_app, IHe.
Qed.

Lemma unit_vector (l : list Z) : Forall (fun z => 0 <= z) l -> zsum id l = 1 ->
  exists d, (d < length l)%nat /\ l = (fun i => if (i =? d)%nat then 1 else 0) <$> seq 0 (length l).
Proof.
  assert (Hzero : forall l k d, Forall (fun z => 0 <= z) l -> zsum id l = 0 -> (d < k)%nat -> l = (fun i => if (i =? d)%nat then 1 else 0) <$> seq k (length l)).
  { clear l. induction l as [|z l IH]; intros k d Hf Hs Hd; [done|]. apply Forall_cons in Hf as [Hz Hf]. rewrite zsum_cons in Hs. unfold id in Hs at 1.
    assert (0 <= zsum id l) by (clear -Hf; induction Hf; [done|]; rewrite zsum_cons; unfold id at 1; lia). cbn [length seq fmap list_fmap].
    rewrite (proj2 (Nat.eqb_neq k d)) by lia. f_equal; [lia|]. apply IH; [done|lia|lia]. }
  enough (Hgen : forall l k, Forall (fun z => 0 <= z) l -> zsum id l = 1 ->
    exists d, (k <= d < k + length l)%nat /\ l = (fun i => if (i =? d)%nat then 1 else 0) <$> seq k (length l)).
  { intros Hf Hs. destruct (Hgen l 0%nat Hf Hs) as (d & Hd & Hl). exists d. split; [lia|done]. }
  clear l. induction l as [|z l IH]; intros k Hf Hs; [done|]. apply Forall_cons in Hf as [Hz Hf]. rewrite zsum_cons in Hs. unfold id in Hs at 1.
  assert (Hnn : 0 <= zsum id l) by (clear -Hf; induction Hf; [done|]; rewrite zsum_cons; unfold id at 1; lia). cbn [length seq fmap list_fmap].
  destruct (decide (z = 0)) as [->|Hne].
  - destruct (IH (S k) Hf ltac:(lia)) as (d & Hd & Hl). exists d. split; [lia|]. rewrite (proj2 (Nat.eqb_neq k d)) by lia. by f_equal.
  - exists k. rewrite Nat.eqb_refl. split; [lia|]. f_equal; [lia|]. apply Hzero; [done|lia|lia].
Qed.

Lemma argmax_one_hot d : (d < 10)%nat -> argmax_cue (one_hot d) = d.
Proof. intros Hd. do 10 (destruct d as [|d]; [reflexivity|]). lia. Qed.

(** An observation is the cue of one digit: exactly one of the ten entries was executed, once. *)
Lemma observe_exact entries bs o : length entries = 10%nat -> observe_cue entries bs = Ok o ->
  exists d, (d < 10)%nat /\ o = one_hot d /\ argmax_cue o = d /\
    entry_matches entries (concat ((fun b => t_data (addresses b)) <$> bs)) = one_hot d.
Proof.
  intros Hl Ho. unfold observe_cue in Ho.
  assert (Hz : replicate 10 0 = entry_matches entries []) by (unfold entry_matches; clear -Hl; do 11 (destruct entries as [|? entries]; try done)).
  rewrite Hz, (observe_counts entries bs [] Hl) in Ho. cbn [app] in Ho. inv_res Ho. apply (f_equal (fun r => match r with Ok v => v | Raise _ => [] end)) in Ho. cbv beta iota in Ho. subst o. bool_prop.
  set (l := entry_matches entries (concat ((fun b => t_data (addresses b)) <$> bs))) in *.
  assert (Hll : length l = 10%nat) by (unfold l, entry_matches; by rewrite length_fmap).
  destruct (unit_vector l) as (d & Hd & Hu); [apply Forall_fmap, Forall_forall; intros e _; unfold compose, count; lia|done|]. rewrite Hll in Hd, Hu.
  exists d. change ((fun i => if (i =? d)%nat then 1 else 0) <$> seq 0 10) with (one_hot d) in Hu. rewrite Hu. split_and!; [done|done|by apply argmax_one_hot|done].
Qed.

Section learn.
Context {E M F G : Type} `{GuestOps E}.

(** What one episode showed: its cue, the answer that was sent and the exit code. *)
Record Episode := MkEpisode { ep_cue : nat; ep_answer : nat; ep_exit : Z }.
Notation St := (E * list Episode)%type.

(** [observe(env.reset(), entries)] *)
Definition cue (entries : list Z) (st : St) : result (list Z * E) :=
  match guest_reset st.1 with
  | (_, Raise x) => Raise x
  | (e, Ok batches) => let! o := observe_cue entries batches in Ok (o, e)
  end.

(** [finish]: the reward is one exactly for exit code zero. *)
Definition finish_episode (action : nat) (e : E) : result (bool * Z * E) :=
  match guest_step (pretty action +:+ newline) e with
  | (_, Raise x) => Raise x
  | (e, Ok _) =>
      match guest_exit e with
      | Some code =>
          raise! RuntimeError "Expected one stdin decision followed by target exit 0 or 1" when negb ((code =? 0) || (code =? 1)) in
          Ok (code =? 0, code, e)
      | None => throw RuntimeError "Expected one stdin decision followed by target exit 0 or 1"
      end
  end.

(** One episode answered by [decide_]. *)
Definition play_episode (entries : list Z) (decide_ : list Z -> nat) (st : St) : result (list Z * bool * St) :=
  let! c := cue entries st in
  let '(o, e) := c in
  let action := decide_ o in
  let! f := finish_episode action e in
  let '(reward, code, e) := f in
  Ok (o, reward, (e, st.2 ++ [MkEpisode (argmax_cue o) action code])).

(** The loop of [imitation]: examples by label, in a dict. *)
Fixpoint gather (entries : list Z) (limit : nat) (examples : list (nat * list Z)) (episodes : nat) (st : St) :
    result (list (nat * list Z) * nat * St) :=
  if (length examples =? 10)%nat then Ok (examples, episodes, st) else
  match limit with
  | O => Ok (examples, episodes, st)
  | S limit =>
      let! r := play_episode entries argmax_cue st in
      let '(o, _, st) := r in
      gather entries limit (od_set (argmax_cue o) o examples) (S episodes) st
  end.

(** The gradient step on a batch of observations and labels, its loss, the comparison of losses. *)
Context (fit_step : list (list Z) -> list nat -> M -> M) (loss_of : list (list Z) -> list nat -> M -> F) (fell : F -> F -> bool).

Fixpoint fit_policy (n : nat) (features : list (list Z)) (labels : list nat) (m : M) (losses : list F) : M * list F :=
  match n with
  | O => (m, losses)
  | S n => fit_policy n features labels (fit_step features labels m) (losses ++ [loss_of features labels m])
  end.

Record Imitation := MkImitation { im_episodes : nat; im_first : F; im_last : F }.

Definition imitation (entries : list Z) (limit : nat) (m : M) (st : St) : result (Imitation * M * St) :=
  let! r := gather entries limit [] 0 st in
  let '(examples, episodes, st) := r in
  raise! RuntimeError "Not all ten random cues appeared; increase --episodes" when negb (length examples =? 10)%nat in
  let! features := rmap (fun label => match od_get label examples with Some o => Ok o | None => throw KeyError (pretty label) end) (seq 0 10) in
  let '(m, losses) := fit_policy 80 features (seq 0 10) m [] in
  match head losses, last losses with
  | Some first, Some final =>
      raise! RuntimeError "The supervised loss did not fall as expected" when negb (fell final first) in
      Ok (MkImitation episodes first final, m, st)
  | _, _ => throw IndexError "list index out of range"
  end.

(** One episode of [reinforce]: a sampled action and a step on its reward; the model holds the baseline too. *)
Context (sample : M -> list Z -> G -> nat * G) (reward_step : M -> list Z -> nat -> bool -> M) (predict : M -> list Z -> nat).

Fixpoint reinforce (entries : list Z) (limit : nat) (m : M) (g : G) (rewards : list bool) (st : St) : result (list bool * M * St) :=
  match limit with
  | O => raise! ZeroDivisionError "division by zero" when (length rewards =? 0)%nat in Ok (rewards, m, st)
  | S limit =>
      let! c := cue entries st in
      let '(o, e) := c in
      let '(action, g) := sample m o g in
      let! f := finish_episode action e in
      let '(reward, code, e) := f in
      reinforce entries limit (reward_step m o action reward) g (rewards ++ [reward]) (e, st.2 ++ [MkEpisode (argmax_cue o) action code])
  end.

(** The evaluation loop of [run]. *)
Fixpoint evaluate_policy (entries : list Z) (n : nat) (m : M) (cues : list nat) (successes : nat) (st : St) : result (list nat * nat * St) :=
  match n with
  | O => Ok (cues, successes, st)
  | S n =>
      let! r := play_episode entries (predict m) st in
      let '(o, reward, st) := r in
      evaluate_policy entries n m (alter S (argmax_cue o) cues) (successes + if reward then 1 else 0) st
  end.

Record DigitOutcome := MkOutcome { oc_training : nat; oc_successes : nat; oc_cues : list nat; oc_episodes : list Episode }.

(** [enough] compares the success rate with the demanded one. *)
Definition run_digits (imitate : bool) (entries : list Z) (episodes evaluated : nat) (enough : nat -> nat -> bool) (m : M) (g : G) (e : E) : result DigitOutcome :=
  raise! ValueError "Digit symbols must have distinct entry addresses" when negb (length (remove_dups entries) =? 10)%nat in
  let! trained := if imitate
                  then let! r := imitation entries episodes m (e, []) in let '(i, m, st) := r in Ok (im_episodes i, m, st)
                  else let! r := reinforce entries episodes m g [] (e, []) in let '(rewards, m, st) := r in Ok (episodes, m, st) in
  let '(n, m, st) := trained in
  let! r := evaluate_policy entries evaluated m (replicate 10 0%nat) 0 st in
  let '(cues, successes, st) := r in
  raise! ZeroDivisionError "float division by zero" when (evaluated =? 0)%nat in
  raise! RuntimeError "Evaluation success is below the demanded one" when negb (enough successes evaluated) in
  Ok (MkOutcome n successes cues st.2).

(** ** What a run that returns has done *)

Section returned.
Context (entries : list Z) (Hentries : length entries = 10%nat).

Definition episode_good (x : Episode) : Prop := (ep_cue x < 10)%nat /\ (ep_exit x = 0 \/ ep_exit x = 1).

Lemma cue_ok st o e : cue entries st = Ok (o, e) -> (argmax_cue o < 10)%nat /\ o = one_hot (argmax_cue o).
Proof.
  unfold cue. destruct (guest_reset st.1) as [e' [batches|]]; [|done]. intros Hc. inv_res Hc. injection Hc as <- <-.
  match goal with Ho : observe_cue _ _ = Ok _ |- _ => destruct (observe_exact _ _ _ Hentries Ho) as (d & Hd & -> & Ha & _) end. by rewrite Ha.
Qed.
Lemma finish_ok action e reward code e' : finish_episode action e = Ok (reward, code, e') -> reward = (code =? 0) /\ (code = 0 \/ code = 1).
Proof.
  unfold finish_episode. destruct (guest_step _ e) as [e1 [batches|]]; [|done]. destruct (guest_exit e1) as [c|]; [|done]. intros Hf. inv_res Hf. injection Hf as <- <- <-.
  apply negb_false_iff, orb_true_iff in Hg. split; [done|]. destruct Hg; bool_prop; auto.
Qed.
Lemma episode_ok dec st o reward st' : play_episode entries dec st = Ok (o, reward, st') ->
  exists x, st'.2 = st.2 ++ [x] /\ episode_good x /\ o = one_hot (ep_cue x) /\ argmax_cue o = ep_cue x /\ ep_answer x = dec o /\ reward = (ep_exit x =? 0).
Proof.
  unfold play_episode. intros He. inv_res He. destruct v as [o1 e1]. inv_res He. destruct v as [ [r code] e2]. injection He as <- <- <-.
  match goal with Hc : cue _ _ = Ok _ |- _ => destruct (cue_ok _ _ _ Hc) as [Hlt Ho] end.
  match goal with Hf : finish_episode _ _ = Ok _ |- _ => destruct (finish_ok _ _ _ _ _ Hf) as [Hr Hcode] end.
  eexists. split; [reflexivity|]. cbn [ep_cue ep_answer ep_exit]. done.
Qed.

(** Examples by label: the cue of the label, for exactly the labels cued so far. *)
Definition examples_of (eps : list Episode) (examples : list (nat * list Z)) : Prop :=
  NoDup examples.*1 /\ (forall d, d ∈ examples.*1 <-> d ∈ ep_cue <$> eps) /\ forall d o, od_get d examples = Some o -> o = one_hot d.

Lemma gather_ok limit : forall examples n st examples' n' st' past, examples_of past examples ->
  gather entries limit examples n st = Ok (examples', n', st') ->
  exists eps, st'.2 = st.2 ++ eps /\ n' = (n + length eps)%nat /\ (length eps <= limit)%nat /\ Forall (fun x => episode_good x /\ ep_answer x = ep_cue x) eps /\
    examples_of (past ++ eps) examples'.
Proof.
  induction limit as [|limit IH]; intros examples n st examples' n' st' past Hex; cbn [gather].
  - destruct (_ =? 10)%nat; intros [= <- <- <-]; exists []; rewrite !app_nil_r; (split_and!; [done|simpl; lia|simpl; lia|constructor|done]).
  - destruct (_ =? 10)%nat; [intros [= <- <- <-]; exists []; rewrite !app_nil_r; (split_and!; [done|simpl; lia|simpl; lia|constructor|done])|].
    intros Hg. apply rbind_Ok in Hg as ([ [o r] st1] & He & Hg). destruct (episode_ok _ _ _ _ _ He) as (x & Hst & Hgood & Ho & Ha & Hans & _).
    assert (Hex' : examples_of (past ++ [x]) (od_set (argmax_cue o) o examples)).
    { destruct Hex as (Hnd & Hk & Hv). rewrite Ha in *. split_and!; [by apply od_set_NoDup| |].
      - intros d. rewrite od_set_keys, fmap_app, elem_of_app. case_decide as Hin; [rewrite Hk in *; split; [by left|]; intros [?|Hd%list_elem_of_singleton]; [done|by subst]|].
        rewrite elem_of_app, Hk. done.
      - intros d v. destruct (decide (d = ep_cue x)) as [->|Hne]; [rewrite od_get_set_eq; by intros [= <-]|rewrite od_get_set_ne by done; apply Hv]. }
    destruct (IH _ _ _ _ _ _ _ Hex' Hg) as (eps & Hs & Hn & Hl & Hall & Hfin). exists (x :: eps). rewrite Hst in Hs. rewrite <- app_assoc in Hs, Hfin.
    split_and!; [done|simpl; lia|simpl; lia| |done]. constructor; [|done]. split; [done|]. by rewrite Hans.
Qed.

Lemma all_digits (l : list nat) : NoDup l -> Forall (fun d => (d < 10)%nat) l -> length l = 10%nat -> forall d, (d < 10)%nat -> d ∈ l.
Proof.
  intros Hnd Hf Hl d Hd. assert (Hp : l ≡ₚ seq 0 10).
  { apply submseteq_length_Permutation; [|rewrite Hl; done]. apply NoDup_submseteq; [done|]. intros x Hx. rewrite Forall_forall in Hf. apply elem_of_seq. specialize (Hf x Hx). lia. }
  rewrite Hp. apply elem_of_seq. lia.
Qed.

Lemma rmap_one_hot examples labels features : (forall d o, od_get d examples = Some o -> o = one_hot d) ->
  rmap (fun label => match od_get label examples with Some o => Ok o | None => throw KeyError (pretty label) end) labels = Ok features -> features = one_hot <$> labels.
Proof.
  intros Hv Hr%rmap_Ok. induction Hr as [|d o labels features Ho _ IH]; [done|]. cbn [fmap list_fmap]. destruct (od_get d examples) as [o'|] eqn:Hd; [|done].
  injection Ho as ->. f_equal; [by apply Hv|done].
Qed.

(** Imitation trains on the ten cues, one of each, whatever the episodes were. *)
Lemma imitation_ok limit m st i m' st' : imitation entries limit m st = Ok (i, m', st') ->
  m' = (fit_policy 80 (one_hot <$> seq 0 10) (seq 0 10) m []).1 /\
  exists eps, st'.2 = st.2 ++ eps /\ im_episodes i = length eps /\ (length eps <= limit)%nat /\
    Forall (fun x => episode_good x /\ ep_answer x = ep_cue x) eps /\ forall d, (d < 10)%nat -> d ∈ ep_cue <$> eps.
Proof.
  unfold imitation. intros Hi. apply rbind_Ok in Hi as ([ [examples n] st1] & Hgat & Hi).
  destruct (gather_ok limit [] 0 st examples n st1 []) as (eps & Hs & Hn & Hl & Hall & Hnd & Hk & Hv); [|done|].
  { split_and!; [constructor|set_solver|done]. }
  inv_res Hi. bool_prop. match goal with Hr : rmap _ _ = Ok _ |- _ => apply (rmap_one_hot _ _ _ Hv) in Hr as -> end.
  destruct (fit_policy 80 _ _ _ _) as [mf losses]. destruct (head losses); [|done]. destruct (last losses); [|done]. inv_res Hi. injection Hi as <- <- <-. split; [done|].
  exists eps. split_and!; [done|done|done|done|]. intros d Hd. rewrite <- (Hk d). apply all_digits; [done| |by rewrite length_fmap|done].
  apply Forall_forall. intros x Hx. apply Hk in Hx. apply list_elem_of_fmap in Hx as (y & -> & Hy). rewrite Forall_forall in Hall. apply (Hall y Hy).
Qed.

Lemma reinforce_ok limit : forall m g rewards st rewards' m' st', reinforce entries limit m g rewards st = Ok (rewards', m', st') ->
  exists eps, st'.2 = st.2 ++ eps /\ length eps = limit /\ Forall episode_good eps /\ rewards' = rewards ++ ((fun x => ep_exit x =? 0) <$> eps).
Proof.
  induction limit as [|limit IH]; intros m g rewards st rewards' m' st'; cbn [reinforce].
  - intros Hr. inv_res Hr. injection Hr as <- <- <-. exists []. rewrite !app_nil_r. done.
  - intros Hr. apply rbind_Ok in Hr as ([o e] & Hc & Hr). destruct (sample m o g) as [action g']. apply rbind_Ok in Hr as ([ [reward code] e'] & Hf & Hr).
    destruct (cue_ok _ _ _ Hc) as [Hlt _]. destruct (finish_ok _ _ _ _ _ Hf) as [-> Hcode]. apply IH in Hr as (eps & Hs & Hl & Hall & Hrw). cbn [snd] in Hs.
    exists (MkEpisode (argmax_cue o) action code :: eps). rewrite <- app_assoc in Hs. rewrite <- app_assoc in Hrw. split_and!; [done|simpl; lia|by constructor|done].
Qed.

Lemma evaluate_ok n m : forall cues successes st cues' successes' st', evaluate_policy entries n m cues successes st = Ok (cues', successes', st') ->
  exists eps, st'.2 = st.2 ++ eps /\ length eps = n /\ Forall episode_good eps /\ successes' = (successes + length (filter (fun x => ep_exit x = 0%Z) eps))%nat /\
    Forall (fun x => ep_answer x = predict m (one_hot (ep_cue x))) eps /\
    forall d c, cues !! d = Some c -> cues' !! d = Some (c + length (filter (fun x => ep_cue x = d) eps))%nat.
Proof.
  induction n as [|n IH]; intros cues successes st cues' successes' st'; cbn [evaluate_policy].
  - intros [= <- <- <-]. exists []. rewrite app_nil_r. split_and!; [done|done|constructor|simpl; lia|constructor|]. intros d c ->. f_equal. simpl. lia.
  - intros He. apply rbind_Ok in He as ([ [o reward] st1] & Hep & He). destruct (episode_ok _ _ _ _ _ Hep) as (x & Hst & Hgood & Ho & Ha & Hans & ->).
    apply IH in He as (eps & Hs & Hl & Hall & Hsu & Hpr & Hcu). exists (x :: eps). rewrite Hst in Hs. rewrite <- app_assoc in Hs. rewrite Ha in Hcu.
    split_and!; [done|simpl; lia|by constructor| |constructor; [by rewrite Hans, Ho|done]|].
    + rewrite filter_cons. destruct (Z.eqb_spec (ep_exit x) 0); [rewrite decide_True by done|rewrite decide_False by done]; cbn [length]; lia.
    + intros d c Hd. rewrite filter_cons. destruct (decide (ep_cue x = d)) as [He|Hne].
      * subst d. rewrite (Hcu (ep_cue x) (S c)) by (by rewrite list_lookup_alter_eq, Hd). cbn [length]. f_equal. lia.
      * apply Hcu. by rewrite list_lookup_alter_ne.
Qed.

(** A run of the digit learner that returns is honest. Its ten entries are
    distinct; its episodes are the training ones, then exactly the demanded number of
    evaluation ones (at least one), each with one cue and an exit code of zero or one; the reported
    successes are the evaluation episodes that exited with zero, the reported cue
    counts those of the evaluation, whose answers are the trained policy's.
    REINFORCE trains for exactly the given number of episodes; imitation for at most
    that many, answering every cue with itself, until all ten have been seen. *)
Theorem digit_run_honest imitate episodes evaluated enough m g e o : run_digits imitate entries episodes evaluated enough m g e = Ok o ->
  NoDup entries /\ exists training evaluation policy, oc_episodes o = training ++ evaluation /\ length training = oc_training o /\ length evaluation = evaluated /\ (0 < evaluated)%nat /\
    Forall episode_good (training ++ evaluation) /\ Forall (fun x => ep_answer x = predict policy (one_hot (ep_cue x))) evaluation /\
    oc_successes o = length (filter (fun x => ep_exit x = 0%Z) evaluation) /\
    (forall d, (d < 10)%nat -> oc_cues o !! d = Some (length (filter (fun x => ep_cue x = d) evaluation))) /\
    (if imitate then (oc_training o <= episodes)%nat /\ Forall (fun x => ep_answer x = ep_cue x) training /\
       (forall d, (d < 10)%nat -> d ∈ ep_cue <$> training) /\ policy = (fit_policy 80 (one_hot <$> seq 0 10) (seq 0 10) m []).1
     else oc_training o = episodes).
Proof.
  unfold run_digits. intros Hr. inv_res Hr. bool_prop. destruct v as [ [n mt] st]. apply rbind_Ok in Hr as ([ [cues successes] st2] & He & Hr). inv_res Hr. injection Hr as <-.
  assert (Hnd : NoDup entries).
  { apply NoDup_ListNoDup. apply NoDup_incl_NoDup with (l := remove_dups entries); [apply NoDup_ListNoDup, NoDup_remove_dups|lia|].
    intros x Hx%list_elem_of_In. rewrite elem_of_remove_dups in Hx. by apply list_elem_of_In. }
  assert (0 < evaluated)%nat by (apply Nat.eqb_neq in Hg0; lia).
  split; [done|]. apply evaluate_ok in He as (eps & Hs & Hl & Hall & Hsu & Hpr & Hcu).
  assert (Hcues : forall d, (d < 10)%nat -> cues !! d = Some (length (filter (fun x => ep_cue x = d) eps))) by (intros d Hd; apply (Hcu d 0%nat); by apply lookup_replicate_2).
  match goal with Ht : (if imitate then _ else _) = Ok _ |- _ => rename Ht into Htr end. cbn [oc_episodes oc_training oc_successes oc_cues]. destruct imitate.
  - inv_res Htr. destruct v as [ [i mi] sti]. injection Htr as <- <- <-.
    match goal with Hi : imitation _ _ _ _ = Ok _ |- _ => apply imitation_ok in Hi as (Hm & tr & Hst & Hn & Hle & Htg & Hd) end. cbn [snd app] in Hst.
    exists tr, eps, mi. rewrite Hst in Hs. split_and!; try done; try lia.
    + apply Forall_app. split; [|done]. eapply Forall_impl; [exact Htg|tauto].
    + eapply Forall_impl; [exact Htg|tauto].
  - inv_res Htr. destruct v as [ [rewards mi] sti]. injection Htr as <- <- <-.
    match goal with Hi : reinforce _ _ _ _ _ _ = Ok _ |- _ => apply reinforce_ok in Hi as (tr & Hst & Hn & Htg & _) end. cbn [snd app] in Hst.
    exists tr, eps, mi. rewrite Hst in Hs. split_and!; try done. by apply Forall_app.
Qed.
End returned.
End learn.
End Digits.

(** ** Witness *)

Module DigitWitness.
Import Digits.
Definition example_entries : list Z := (fun i => 4096 + 16 * Z.of_nat i) <$> seq 0 10.
(** A program whose cue is the number of its episode and that exits with zero for every answer. *)
#[local] Instance cue_guest : GuestOps nat := {
  guest_reset e := (S e, Ok [bare_batch (Some 0) (Some 0) (Tensor int64 cpu [2%nat] [64; nth (e mod 10) example_entries 0])]);
  guest_step _ e := (e, Ok []);
  guest_event _ := None;
  guest_result _ := None;
  guest_exit _ := Some 0;
  guest_needs_input _ := false;
}.
Definition example_digits : result DigitOutcome :=
  run_digits (fun _ _ (m : nat) => S m) (fun _ _ m => m) (fun _ _ => true) (fun _ _ (g : unit) => (0%nat, g)) (fun m _ _ _ => m) (fun _ o => argmax_cue o)
    true example_entries 20 4 (fun _ _ => true) 0%nat tt 0%nat.

Lemma digit_run_honest_witness : exists o, example_digits = Ok o /\ oc_successes o = 4%nat /\ NoDup example_entries.
Proof.
  destruct example_digits as [o|] eqn:Hr; [|vm_compute in Hr; discriminate Hr]. exists o. split; [reflexivity|].
  split; [vm_compute in Hr; injection Hr as <-; reflexivity|].
  apply (digit_run_honest (fun _ _ (m : nat) => S m) (fun _ _ m => m) (fun _ _ => true) (fun _ _ (g : unit) => (0%nat, g)) (fun m _ _ _ => m) (fun _ o => argmax_cue o)
    example_entries eq_refl true 20 4 (fun _ _ => true) 0%nat tt 0%nat o Hr).
Defined.
End DigitWitness.
