(* ===== verification/CaptureRun.v ===== *)
(** * Measured captures ([examples/benchmark_capture.py]: [run_case], [summarize], [benchmark])

    One run of a case starts a process group, drains its trace pipe into a
    [TraceCounter] until both the pipe and the process have ended, and reports
    success only for a clean exit and a sealed trace. The process, the selector's
    reports and the clock are arguments of a run ([World]): every behaviour of them
    is covered. Resource usage and times are left out but for the elapsed seconds. *)

From S2P Require Import Prelude Monad Wire TraceCounter TraceChunks TraceProgress FileSearch.

(** ** One run *)

Inductive descriptor := TraceRead | TraceWrite | DoneRead | DoneWrite.
#[global] Instance descriptor_eq_dec : EqDecision descriptor.
Proof. solve_decision. Defined.
(** The data of a selector key. *)
Inductive watched := TraceKey | ExitKey.
#[global] Instance watched_eq_dec : EqDecision watched.
Proof. solve_decision. Defined.

(** What [select] reports of one key, with the data a read of the trace pipe returns. *)
Inductive ready := ExitReady | TraceReady (data : list Z).

Record Case := MkCaseSpec { ca_name : string; ca_argv : list string; ca_success_stdout : option (list Z) }.

(** What a run meets: opening its logs; opening its input and starting the process; the
    code of the process, by itself or when killed; the reports of [select] until the
    deadline; what reading the standard output log gives; the time. *)
Record World (F : Type) := MkWorld {
  wo_logs : result unit;
  wo_launch : result unit;
  wo_exit_code : Z;
  wo_killed_code : Z;
  wo_rounds : list (list ready);
  wo_stdout : list (list Z);
  wo_elapsed : F;
}.
Arguments MkWorld {F}.
Arguments wo_logs {F}.
Arguments wo_launch {F}.
Arguments wo_exit_code {F}.
Arguments wo_killed_code {F}.
Arguments wo_rounds {F}.
Arguments wo_stdout {F}.
Arguments wo_elapsed {F}.

(** The variables of [run_case]: the descriptors that are not -1, those closed so far, the
    trace counter and what was fed to it, the selector's map, the child, [child_result]. *)
Record Running := MkRunning {
  ru_fds : list descriptor;
  ru_closed : list descriptor;
  ru_trace : option TraceCounter;
  ru_reads : list (list Z);
  ru_map : list watched;
  ru_child : bool;
  ru_exit : option Z;
  ru_killed : bool;
}.

(** [any("{trace_fd}" in part for part in case["argv"])] *)
Definition traced (c : Case) : bool := existsb (fun part => is_some (String.index 0 "{trace_fd}" part)) (ca_argv c).

Definition pipes (c : Case) : list descriptor := (if traced c then [TraceRead; TraceWrite] else []) ++ [DoneRead; DoneWrite].
Definition start_run (c : Case) : Running :=
  MkRunning (pipes c) [] (if traced c then Some new_counter else None) [] [] false None false.

Definition start_child (s : Running) : Running :=
  MkRunning (ru_fds s) (ru_closed s) (ru_trace s) (ru_reads s) (ru_map s) true (ru_exit s) (ru_killed s).
(** [os.close(trace_write); trace_write = -1; selector.register(trace_read, ...)] *)
Definition watch_trace (s : Running) : Running :=
  MkRunning (filter (fun d => d <> TraceWrite) (ru_fds s)) (ru_closed s ++ [TraceWrite]) (ru_trace s) (ru_reads s)
    (ru_map s ++ [TraceKey]) (ru_child s) (ru_exit s) (ru_killed s).
Definition watch_exit (s : Running) : Running :=
  MkRunning (ru_fds s) (ru_closed s) (ru_trace s) (ru_reads s) (ru_map s ++ [ExitKey]) (ru_child s) (ru_exit s) (ru_killed s).
Definition unregister (k : watched) (s : Running) : Running :=
  MkRunning (ru_fds s) (ru_closed s) (ru_trace s) (ru_reads s) (filter (fun k' => k' <> k) (ru_map s)) (ru_child s) (ru_exit s) (ru_killed s).
Definition set_exit (code : Z) (s : Running) : Running :=
  MkRunning (ru_fds s) (ru_closed s) (ru_trace s) (ru_reads s) (ru_map s) (ru_child s) (Some code) (ru_killed s).
Definition set_trace (t : TraceCounter) (data : list Z) (s : Running) : Running :=
  MkRunning (ru_fds s) (ru_closed s) (Some t) (ru_reads s ++ [data]) (ru_map s) (ru_child s) (ru_exit s) (ru_killed s).

Section run.
Context {F : Type}.
Notation R := (sx Running exn).

Definition feed_trace (data : list Z) : R unit := fun s =>
  match ru_trace s with
  | None => (s, Raise (Exn AttributeError "'NoneType' object has no attribute 'feed'"))
  | Some t => let '(t, r) := feed data t in (set_trace t data s, r)
  end.

(** The body of [for key, _ in selector.select(remaining)]; only registered keys are reported. The
    waiter has stored the code before it reports. *)
Definition handle (w : World F) (event : ready) : R unit :=
  do! map := sgets ru_map in
  match event with
  | ExitReady =>
      if bool_decide (ExitKey ∈ map) then smodify (fun s => unregister ExitKey (set_exit (wo_exit_code w) s)) else sret tt
  | TraceReady data =>
      if bool_decide (TraceKey ∈ map) then
        match data with
        | [] => smodify (unregister TraceKey)
        | _ => feed_trace data
        end
      else sret tt
  end.

(** [while selector.get_map()]: after the reports that come in time, the deadline has passed. *)
Fixpoint drain (w : World F) (rounds : list (list ready)) : R unit :=
  do! map := sgets ru_map in
  match map with
  | [] => sret tt
  | _ =>
      match rounds with
      | [] => sraise (Exn TimeoutError "Command or trace drain exceeded its seconds")
      | events :: rounds => run! seach (handle w) events in drain w rounds
      end
  end.

(** The checks after the drain. *)
Definition judge (w : World F) (c : Case) : R unit :=
  do! s := sgets id in
  match ru_exit s with
  | None => sraise (Exn KeyError "exit_code")
  | Some code =>
      run! (if code =? 0 then sret tt else sraise (Exn ValueError ("Command exited with status " +:+ pretty code))) in
      run! slift (match ru_trace s with None => Ok tt | Some t => finish t end) in
      match ca_success_stdout c with
      | Some (b :: needle) =>
          if file_contains (wo_stdout w) (b :: needle) then sret tt
          else sraise (Exn ValueError "Expected workload success text was absent from stdout")
      | _ => sret tt
      end
  end.

(** The body of [try]. *)
Definition attempt (w : World F) (c : Case) : R unit :=
  run! slift (wo_logs w) in
  run! slift (wo_launch w) in
  run! smodify start_child in
  run! (if traced c then smodify watch_trace else sret tt) in
  run! smodify watch_exit in
  run! drain w (wo_rounds w) in
  judge w c.

(** The [finally] clause: the group is killed unless the run is good, the waiter joined, every descriptor closed. *)
Definition cleanup (w : World F) (ok : bool) (s : Running) : Running :=
  let killed := ru_child s && negb ok in
  let exit := if ru_child s then match ru_exit s with None => Some (wo_killed_code w) | Some code => Some code end else None in
  MkRunning [] (ru_closed s ++ ru_fds s) (ru_trace s) (ru_reads s) (ru_map s) (ru_child s) exit killed.

Record CaseRun := MkCaseRun { cr_case : string; cr_status : string; cr_error : option string; cr_exit_code : option Z; cr_elapsed : F; cr_trace : option counter_result }.

(** The result; [stat] of a log that was not made raises. *)
Definition case_run (w : World F) (c : Case) (status : string) (error : option string) (s : Running) : result CaseRun :=
  raise! OSError "No such file or directory" when negb (is_ok (wo_logs w)) in
  Ok (MkCaseRun (ca_name c) status error (ru_exit s) (wo_elapsed w) (counted_result <$> ru_trace s)).

Definition caught (e : exn) : bool := isinstance_exc (exn_class e) OSError || isinstance_exc (exn_class e) ValueError || isinstance_exc (exn_class e) TimeoutError.

Definition run_case (w : World F) (c : Case) : Running * result CaseRun :=
  match attempt w c (start_run c) with
  | (s, Ok _) => let s := cleanup w true s in (s, case_run w c "ok" None s)
  | (s, Raise e) =>
      let s := cleanup w false s in
      (s, if caught e then case_run w c (if isinstance_exc (exn_class e) TimeoutError then "timeout" else "failed") (Some (exn_msg e)) s else Raise e)
  end.

(** ** What a run leaves *)

Section sound.
Context (w : World F) (c : Case).

Definition event_bytes (e : ready) : Prop := match e with ExitReady => True | TraceReady data => Forall is_byte data end.

(** At every point: each descriptor is open or closed, once; only the child's own code is known. *)
Record tidy (s : Running) : Prop := {
  ti_fds : ru_closed s ++ ru_fds s ≡ₚ pipes c;
  ti_exit : ru_exit s = None \/ ru_exit s = Some (wo_exit_code w);
  ti_child : ru_child s = false -> ru_exit s = None /\ ru_map s = [];
}.
(** Until something is raised: the counter has accepted what was read. *)
Record sound (s : Running) : Prop := {
  so_tidy : tidy s;
  so_traced : is_some (ru_trace s) = traced c;
  so_key : TraceKey ∈ ru_map s -> traced c = true;
  so_fed : forall t, ru_trace s = Some t -> feeds (ru_reads s) new_counter = (t, Ok tt);
  so_bytes : Forall (Forall is_byte) (ru_reads s);
}.

Lemma feeds_snoc chunks data t u : feeds chunks t = (u, Ok tt) -> feeds (chunks ++ [data]) t = feed data u.
Proof.
  unfold feeds. revert t. induction chunks as [|chunk chunks IH]; intros t; cbn [seach app].
  - intros [= ->]. unfold sbind. by destruct (feed data u) as [? [ []|] ].
  - unfold sbind. destruct (feed chunk t) as [t1 [ []|] ]; [|done]. apply IH.
Qed.

(** What may be raised: what is caught, or what the counter or starting the process raises. *)
Definition explained (e : exn) : Prop :=
  caught e = true \/ (exists data t t', feed data t = (t', Raise e)) \/ wo_launch w = Raise e \/ wo_logs w = Raise e.
Definition failed (e : exn) (s : Running) : Prop := tidy s /\ explained e.

(** The exit is watched or known. *)
Definition awaited (s : Running) : Prop := ru_child s = true /\ (ExitKey ∈ ru_map s \/ is_some (ru_exit s) = true).

Lemma handle_sound e s : event_bytes e -> sound s -> awaited s -> wp (handle w e) (fun _ s => sound s /\ awaited s) failed s.
Proof.
  intros He Hs Ha. pose proof Hs as [ [Hf Hx Hc] Ht Hk Hfed Hb]. pose proof Ha as [Hch Hex]. unfold handle. wp_step. wp_step. destruct e as [|data].
  - wp_step; wp_step; [|done]. split; [|split; [done|by right] ]. split; [split|..]; cbn; try done; [by right|by rewrite Hch|].
    intros [_ Hin]%list_elem_of_filter. by apply Hk.
  - wp_step; [|by wp_step]. destruct data as [|b data].
    + wp_step. split; [split; [split|..]; cbn; try done; [by rewrite Hch|intros [_ Hin]%list_elem_of_filter; by apply Hk]|]. split; [done|]. cbn. destruct Hex as [Hin|?]; [left|by right].
      by apply list_elem_of_filter.
    + unfold wp, feed_trace. apply bool_decide_eq_true_1, Hk in Hb0. destruct (ru_trace s) as [t|] eqn:Hrt; [|by rewrite Hb0 in Ht].
      destruct (feed (b :: data) t) as [t' [ []|x] ] eqn:Hfd; [|split; [by split|right; left; by exists (b :: data), t, t'] ].
      split; [|done]. split; cbn; try done; [intros u [= <-]; by rewrite (feeds_snoc _ _ _ _ (Hfed _ eq_refl))|].
      apply Forall_app. split; [done|]. by constructor.
Qed.

Lemma drain_sound rounds : forall s, Forall (Forall event_bytes) rounds -> sound s -> awaited s ->
  wp (drain w rounds) (fun _ s => sound s /\ awaited s /\ ru_map s = []) failed s.
Proof.
  induction rounds as [|events rounds IH]; intros s Hb Hs Ha; cbn [drain]; wp_step; wp_step; destruct (ru_map s) eqn:Hm.
  - by wp_step.
  - wp_step. split; [apply Hs|by left].
  - by wp_step.
  - apply Forall_cons in Hb as [He Hb]. wp_step. eapply wp_mono; [apply (wp_each _ _ (fun s => sound s /\ awaited s))|intros [] s' [Hs' Ha']; by apply IH|done].
    + intros e s' Hin [Hs' Ha']. apply handle_sound; [|done|done]. rewrite Forall_forall in He. by apply He.
    + done.
Qed.

(** What a good run has seen. *)
Record sealed (s : Running) : Prop := {
  se_logs : wo_logs w = Ok tt;
  se_launch : wo_launch w = Ok tt;
  se_exit : ru_exit s = Some 0;
  se_drained : ru_map s = [];
  se_trace : match ru_trace s with
             | None => traced c = false
             | Some t => traced c = true /\ feeds (ru_reads s) new_counter = (t, Ok tt) /\ finish t = Ok tt
             end;
  se_stdout : forall needle, ca_success_stdout c = Some needle -> needle <> [] -> file_contains (wo_stdout w) needle = true;
}.

Lemma start_sound : sound (start_run c) /\ ru_child (start_run c) = false.
Proof. unfold start_run. destruct (traced c) eqn:Ht; (split; [split; [split|..]; cbn; try done; [by left|..]|done]); set_solver || (intros t [= <-]; done). Qed.

Definition launched : Running := watch_exit (if traced c then watch_trace (start_child (start_run c)) else start_child (start_run c)).
Lemma launched_sound : sound launched /\ awaited launched.
Proof.
  unfold launched, start_run, awaited, pipes. destruct (traced c) eqn:Ht; cbn; (split; [split; [split|..]; cbn; try done|split; [done|left; set_solver] ]).
  - unfold pipes. rewrite Ht. repeat (rewrite filter_cons; case_decide; try done). cbn. by constructor.
  - by left.
  - intros t [= <-]. done.
  - unfold pipes. by rewrite Ht.
  - by left.
  - set_solver.
Qed.

Lemma finish_explained t e : finish t = Raise e -> explained e.
Proof. unfold finish. intros Hf. left. repeat (case_match; [by injection Hf as <-|]). done. Qed.

Lemma judge_sound s : sound s -> awaited s -> ru_map s = [] -> wo_logs w = Ok tt -> wo_launch w = Ok tt ->
  wp (judge w c) (fun _ s => sound s /\ sealed s /\ ru_child s = true) failed s.
Proof.
  intros Hs [Hc Hx] Hm Hlog Hl. unfold judge. wp_step. wp_step. unfold id.
  destruct (ru_exit s) as [code|] eqn:He; [|destruct Hx as [Hin|?]; [rewrite Hm in Hin; set_solver|done] ]. wp_step. wp_step; [|wp_step; split; [apply Hs|by left] ].
  bool_prop. subst. wp_step. wp_step. wp_step; [destruct a|split; [apply Hs|destruct (ru_trace s); [by eapply finish_explained|done] ] ].
  assert (Hseal : (forall needle, ca_success_stdout c = Some needle -> needle <> [] -> file_contains (wo_stdout w) needle = true) -> sound s /\ sealed s /\ ru_child s = true).
  { intros Hn. split; [done|]. split; [|done]. split; try done. destruct Hs as [_ Ht _ Hf _]. destruct (ru_trace s) as [t|]; [|done]. split_and!; [done|by apply Hf|done]. }
  destruct (ca_success_stdout c) as [ [|b needle]|]; [wp_step; apply Hseal; by intros ? [= <-]| |by wp_step; apply Hseal].
  wp_step; wp_step; [|split; [apply Hs|by left] ]. apply Hseal. by intros ? [= <-].
Qed.

Lemma attempt_sound : Forall (Forall event_bytes) (wo_rounds w) ->
  wp (attempt w c) (fun _ s => sound s /\ sealed s /\ ru_child s = true) failed (start_run c).
Proof.
  intros Hb. destruct start_sound as [H0 _]. destruct launched_sound as [H1 H2]. unfold attempt. wp_step. wp_step; [destruct a|split; [apply H0|by right; right; right] ].
  wp_step. wp_step; [destruct a|split; [apply H0|by right; right; left] ]. wp_step. wp_step.
  assert (Hrest : wp (run! smodify watch_exit in run! drain w (wo_rounds w) in judge w c) (fun _ s => sound s /\ sealed s /\ ru_child s = true) failed
    (if traced c then watch_trace (start_child (start_run c)) else start_child (start_run c))).
  { wp_step. wp_step. wp_step. eapply wp_mono; [by apply drain_sound| |done]. intros _ s (Hs & Haw & Hm). by apply judge_sound. }
  wp_step. destruct (traced c); wp_step; exact Hrest.
Qed.

Lemma cleanup_tidy ok s : tidy s -> let s' := cleanup w ok s in
  ru_fds s' = [] /\ ru_closed s' ≡ₚ pipes c /\ NoDup (ru_closed s') /\ (ru_child s' = true -> is_some (ru_exit s') = true).
Proof.
  intros [Hf Hx Hc]. cbn. split_and!; [done|done| |].
  - rewrite Hf. unfold pipes. destruct (traced c); by repeat constructor; set_solver.
  - intros ->. by destruct (ru_exit s).
Qed.

(** The trace of a good run is a well-formed one, counted exactly. *)
Definition sealed_trace (reads : list (list Z)) (r : counter_result) : Prop :=
  exists fs, concat reads = concat (encode_frame <$> fs) /\ Forall frame_ok fs /\ well_formed_trace fs /\
    cr_frames r = Z.of_nat (length fs) /\ cr_bytes r = Z.of_nat (length (concat reads)) /\ msum (cr_events r) = zsum rows fs /\ 0 < zsum rows fs.

End sound.
End run.

(** ** Witness *)

(** A traced command that exits while its trace is still being read. *)
Definition example_case : Case := MkCaseSpec "blocks" ["qemu"; "fd={trace_fd}"] (Some [111; 107]).
Definition example_world : World Z :=
  MkWorld (Ok tt) (Ok tt) 0 (-9) (((fun chunk => [TraceReady chunk]) <$> example_reads) ++ [ [ExitReady; TraceReady [] ] ]) [ [108; 111]; [107; 10] ] 5.

