(* ===== verification/CaptureReport.v ===== *)
(** * The report of a capture benchmark ([examples/benchmark_capture.py]: [summarize], [benchmark])

    The runs of all cases, in rotated rounds, and their summary, rewritten after
    every run. Medians and quotients of floats are arguments. *)

From S2P Require Import Prelude Monad TraceCounter CaptureRun.

Section report.
(** [statistics.median]; an integer over a float and over an integer, which may raise; truth and [/] of floats. *)
Context {F : Type} (median : list F -> F) (rate : Z -> F -> result F) (fraction : Z -> Z -> result F) (truthy : F -> bool) (quotient : F -> F -> F).
Notation CaseRun := (CaseRun (F := F)).

(** ** [summarize] *)

Definition add_run (groups : list (string * list CaseRun)) (r : CaseRun) : list (string * list CaseRun) :=
  od_set (cr_case r) (default [] (od_get (cr_case r) groups) ++ [r]) groups.
Definition group_runs (runs : list CaseRun) : list (string * list CaseRun) := fold_left add_run runs [].

(** The medians over the traces: events and bytes per second, the fraction of framing. *)
Record TraceMedians := MkMedians { me_events : F; me_bytes : F; me_framing : F }.
Record CaseSummary := MkSummary { sm_runs : nat; sm_successful : nat; sm_seconds : option F; sm_trace : option TraceMedians; sm_slowdown : option F }.

Definition run_ok (r : CaseRun) : bool := String.eqb (cr_status r) "ok".

Definition trace_medians (rows : list CaseRun) : result (option TraceMedians) :=
  match mapM cr_trace rows with
  | None => Ok None
  | Some traces =>
      let! events := rmap (fun rt => rate (msum (cr_events rt.2)) (cr_elapsed rt.1)) (zip rows traces) in
      let! bytes := rmap (fun rt => rate (cr_bytes rt.2) (cr_elapsed rt.1)) (zip rows traces) in
      let! framing := rmap (fun t => fraction (cr_frames t * 32 + cr_run_header_bytes t) (cr_bytes t)) traces in
      Ok (Some (MkMedians (median events) (median bytes) (median framing)))
  end.

Definition summary_of (rows : list CaseRun) : result CaseSummary :=
  let successful := length (filter (fun r => run_ok r = true) rows) in
  if forallb run_ok rows then
    let seconds := median (cr_elapsed <$> rows) in
    let! traces := trace_medians rows in
    Ok (MkSummary (length rows) successful (Some seconds) traces None)
  else Ok (MkSummary (length rows) successful None None None).

Definition set_slowdown (baseline_time : F) (s : CaseSummary) : CaseSummary :=
  MkSummary (sm_runs s) (sm_successful s) (sm_seconds s) (sm_trace s) ((fun t => quotient t baseline_time) <$> sm_seconds s).

Definition summarize_runs (runs : list CaseRun) (baseline : string) : result (list (string * CaseSummary)) :=
  let! summaries := rmap (fun g => let! s := summary_of g.2 in Ok (g.1, s)) (group_runs runs) in
  match (s ← od_get baseline summaries; sm_seconds s) with
  | Some t => Ok (if truthy t then prod_map id (set_slowdown t) <$> summaries else summaries)
  | None => Ok summaries
  end.

(** ** [benchmark], from a valid manifest *)

Record Benchmark := MkBenchmark { be_runs : list (nat * CaseRun); be_results : option (list (nat * CaseRun) * list (string * CaseSummary)) }.
Notation B := (sx Benchmark exn).

Definition append_run (repeat : nat) (r : CaseRun) (s : Benchmark) : Benchmark := MkBenchmark (be_runs s ++ [(repeat, r)]) (be_results s).
Definition write_results (summary : list (string * CaseSummary)) (s : Benchmark) : Benchmark := MkBenchmark (be_runs s) (Some (be_runs s, summary)).

(** [worlds n] is what run number [n] meets. *)
Definition measure_case (cases : list Case) (worlds : nat -> World F) (baseline : string) (at_ : nat * nat) : B unit :=
  let '(repeat, offset) := at_ in
  match cases !! ((offset + repeat) mod length cases)%nat with
  | None => sraise (Exn IndexError "list index out of range")
  | Some case =>
      do! n := sgets (fun s => length (be_runs s)) in
      do! run := slift (run_case (worlds n) case).2 in
      run! smodify (append_run repeat run) in
      do! runs := sgets be_runs in
      do! summary := slift (summarize_runs (snd <$> runs) baseline) in
      smodify (write_results summary)
  end.

Definition schedule (repeats cases : nat) : list (nat * nat) := concat ((fun r => (fun o => (r, o)) <$> seq 0 cases) <$> seq 0 repeats).
Definition run_benchmark (cases : list Case) (repeats : nat) (baseline : string) (worlds : nat -> World F) : Benchmark * result unit :=
  seach (measure_case cases worlds baseline) (schedule repeats (length cases)) (MkBenchmark [] None).

(** ** Groups and summaries *)

Lemma group_runs_spec runs : NoDup (group_runs runs).*1 /\ forall name, od_get name (group_runs runs) =
  if decide (name ∈ cr_case <$> runs) then Some (filter (fun r => cr_case r = name) runs) else None.
Proof.
  unfold group_runs. induction runs as [|r runs [IHn IHg] ] using rev_ind; [split; [constructor|done]|]. rewrite fold_left_app. cbn [fold_left]. split; [by apply od_set_NoDup|].
  intros name. unfold add_run. rewrite fmap_app, filter_app. destruct (decide (name = cr_case r)) as [->|Hne].
  - rewrite od_get_set_eq, decide_True by (apply elem_of_app; right; by left). rewrite filter_cons_True by done. rewrite IHg. f_equal. f_equal.
    case_decide as Hin; [done|]. cbn. symmetry. apply elem_of_nil_inv. intros x [Hx Hi]%list_elem_of_filter. apply Hin. rewrite <- Hx. by apply list_elem_of_fmap_2.
  - rewrite od_get_set_ne by done. rewrite IHg, filter_cons_False by congruence. rewrite filter_nil, app_nil_r.
    assert (Hiff : name ∈ (cr_case <$> runs) ++ (cr_case <$> [r]) <-> name ∈ cr_case <$> runs) by (rewrite elem_of_app; set_solver).
    destruct (decide (name ∈ cr_case <$> runs)) as [Hin|Hin]; [rewrite (decide_True (P := name ∈ _ ++ _))|rewrite (decide_False (P := name ∈ _ ++ _))]; try done; by rewrite Hiff.
Qed.

(** What a summary says of the runs of a case; nothing of a case with a failed run but the two counts. *)
Definition summarizes (runs : list CaseRun) (name : string) (s : CaseSummary) : Prop :=
  let rows := filter (fun r => cr_case r = name) runs in
  sm_runs s = length rows /\ sm_successful s = length (filter (fun r => run_ok r = true) rows) /\
  sm_seconds s = (if forallb run_ok rows then Some (median (cr_elapsed <$> rows)) else None) /\
  (forallb run_ok rows = false -> sm_trace s = None /\ sm_slowdown s = None).

Lemma summarize_runs_spec runs baseline summaries : summarize_runs runs baseline = Ok summaries ->
  summaries.*1 = (group_runs runs).*1 /\ forall name s, (name, s) ∈ summaries -> summarizes runs name s.
Proof.
  unfold summarize_runs. intros Hs. apply rbind_Ok in Hs as (plain & Hp & Hs). apply rmap_Ok in Hp.
  assert (Hplain : plain.*1 = (group_runs runs).*1 /\ forall name s, (name, s) ∈ plain -> summarizes runs name s /\ sm_slowdown s = None).
  { destruct (group_runs_spec runs) as [Hnd Hg]. split.
    - clear -Hp. induction Hp as [|g x groups plain Hx _ IH]; [done|]. cbn [fmap list_fmap]. inv_res Hx. injection Hx as <-. by f_equal.
    - intros name s Hin. apply list_elem_of_lookup in Hin as [i Hi]. destruct (Forall2_lookup_r _ _ _ _ _ Hp Hi) as (g & Hgi & Hx).
      inv_res Hx. injection Hx as <- <-. assert (Hrows : g.2 = filter (fun r => cr_case r = g.1) runs).
      { specialize (Hg g.1). rewrite (od_elem_get g.1 g.2) in Hg; [case_decide; [by injection Hg|done]|done|]. destruct g. by eapply list_elem_of_lookup_2. }
      unfold summarizes. rewrite <- Hrows. unfold summary_of in Hv. destruct (forallb run_ok g.2); [inv_res Hv|]; injection Hv as <-; done. }
  destruct Hplain as [Hk Hall]. destruct (s ← od_get baseline plain; sm_seconds s) as [t|]; [destruct (truthy t)|]; injection Hs as <-;
    try (split; [done|]; intros name s Hin; by apply Hall).
  split.
  - rewrite <- list_fmap_compose. rewrite <- Hk. by apply list_fmap_ext.
  - intros name s Hin. apply list_elem_of_fmap in Hin as ([name' s'] & [= -> ->] & Hin). destruct (Hall _ _ Hin) as [(H1 & H2 & H3 & H4) H5].
    unfold set_slowdown, id. cbn [snd]. split_and!; try done. cbn [sm_trace sm_slowdown]. intros Hf. rewrite H3, Hf. split; [by apply H4|done].
Qed.

(** ** Rounds *)

(** Round [r] starts with case [r], modulo the number of cases. *)
Definition planned (names : list string) (repeats : nat) : list (nat * string) := concat ((fun r => pair r <$> rotate r names) <$> seq 0 repeats).

Lemma rotate_Permutation {A} n (l : list A) : rotate n l ≡ₚ l.
Proof. unfold rotate. rewrite Permutation_app_comm. by rewrite take_drop. Qed.

Lemma round_rotates (names : list string) r :
  (fun o => (r, names !! ((o + r) mod length names)%nat)) <$> seq 0 (length names) = (fun n => (r, Some n)) <$> rotate r names.
Proof.
  apply list_eq. intros i. rewrite !list_lookup_fmap. destruct (decide (i < length names)%nat) as [Hi|Hi].
  - rewrite lookup_seq_lt by done. rewrite lookup_rotate_r by done. cbn [fmap option_fmap option_map].
    replace ((0 + i + r) mod length names)%nat with (rotate_nat_add r i (length names)).
    + assert (Hlt : (rotate_nat_add r i (length names) < length names)%nat) by (apply rotate_nat_add_lt; lia). apply lookup_lt_is_Some in Hlt as [x ->]. done.
    + unfold rotate_nat_add. rewrite <- Nat2Z.inj_add, <- Nat2Z.inj_mod, Nat2Z.id. f_equal. lia.
  - rewrite (lookup_seq_ge 0 (length names)) by lia. rewrite (lookup_ge_None_2 (rotate r names)) by (rewrite length_rotate; lia). done.
Qed.

Lemma schedule_planned (names : list string) repeats :
  (fun at_ => (at_.1, names !! ((at_.2 + at_.1) mod length names)%nat)) <$> schedule repeats (length names) = prod_map id Some <$> planned names repeats.
Proof.
  unfold schedule, planned. induction (seq 0 repeats) as [|r l IH]; [done|]. cbn [fmap list_fmap concat]. rewrite !fmap_app. f_equal; [|exact IH].
  rewrite <- !list_fmap_compose. exact (round_rotates names r).
Qed.

(** Every case runs once in every round. *)
Lemma planned_counts names repeats name : NoDup names -> name ∈ names -> length (filter (fun x => x.2 = name) (planned names repeats)) = repeats.
Proof.
  intros Hnd Hin. unfold planned. assert (Hr : forall r, length (filter (fun x => x.2 = name) (pair r <$> rotate r names)) = 1%nat).
  { intros r. transitivity (length (filter (fun n => n = name) (rotate r names))).
    - induction (rotate r names) as [|n l IH]; [done|]. cbn [fmap list_fmap]. rewrite !filter_cons. cbn [snd]. case_decide; cbn [length]; by rewrite IH.
    - rewrite rotate_Permutation. clear -Hnd Hin. induction Hnd as [|n l Hn _ IH]; [set_solver|]. rewrite filter_cons. case_decide as He.
      + subst. cbn [length]. f_equal. replace (filter (fun n => n = name) l) with (@nil string); [done|]. symmetry. apply elem_of_nil_inv. intros x [-> Hx]%list_elem_of_filter. done.
      + apply IH. set_solver. }
  transitivity (length (seq 0 repeats)); [|apply length_seq]. induction (seq 0 repeats) as [|r l IH]; [done|]. cbn [fmap list_fmap concat length]. by rewrite filter_app, length_app, Hr, IH.
Qed.

(** ** The run of a benchmark *)

Section benchmark.
Context (cases : list Case) (baseline : string) (worlds : nat -> World F).

Lemma run_case_name (w : World F) c s r : run_case w c = (s, Ok r) -> cr_case r = ca_name c.
Proof.
  unfold run_case, case_run. destruct (attempt w c _) as [s' [ []|e] ]; cbn zeta; intros [= _ Hr]; [|destruct (caught e); [|done] ]; inv_res Hr; by injection Hr as <-.
Qed.

(** The runs of the steps done so far, and the last results written. *)
Definition place (at_ : nat * nat) : nat * option string := (at_.1, (ca_name <$> cases) !! ((at_.2 + at_.1) mod length cases)%nat).
Record recorded (steps : list (nat * nat)) (s : Benchmark) : Prop := {
  rd_runs : (fun x : nat * CaseRun => (x.1, Some (cr_case x.2))) <$> be_runs s = place <$> steps;
  rd_results : match be_results s with
               | None => be_runs s = []
               | Some (runs, summary) => runs = be_runs s /\ summarize_runs (snd <$> runs) baseline = Ok summary
               end;
}.
(** After an exception: the results are those of the runs before the last one at least. *)
Definition interrupted (s : Benchmark) : Prop :=
  exists before after, be_runs s = before ++ after /\ (length after <= 1)%nat /\
    match be_results s with
    | None => before = []
    | Some (runs, summary) => runs = before /\ summarize_runs (snd <$> runs) baseline = Ok summary
    end.

Lemma recorded_interrupted steps s : recorded steps s -> interrupted s.
Proof. intros [_ Hr]. exists (be_runs s), []. rewrite app_nil_r. split_and!; [done|simpl; lia|]. destruct (be_results s) as [ [runs summary]|]; done. Qed.

Lemma measure_case_recorded steps at_ s : recorded steps s ->
  wp (measure_case cases worlds baseline at_) (fun _ => recorded (steps ++ [at_])) (fun _ => interrupted) s.
Proof.
  intros Hs. pose proof (recorded_interrupted _ _ Hs) as Hi. pose proof Hs as [Hr Hw]. unfold measure_case. destruct at_ as [repeat offset].
  destruct (cases !! _) as [case|] eqn:Hc; [|by wp_step]. wp_step. wp_step. wp_step. wp_step; [|done]. destruct (run_case _ case) as [s' r] eqn:Hrun. cbn [snd] in Ha. subst r.
  apply run_case_name in Hrun. wp_step. wp_step. wp_step. wp_step. wp_step. wp_step.
  - wp_step. split; cbn; [|done]. rewrite !fmap_app, Hr. f_equal. cbn [fmap list_fmap]. unfold place. cbn [fst snd]. by rewrite list_lookup_fmap, Hc, Hrun.
  - exists (be_runs s), [(repeat, a)]. split; [done|]. split; [simpl; lia|]. cbn. destruct (be_results s) as [ [runs summary]|]; done.
Qed.

Lemma measure_cases_recorded todo : forall steps s, recorded steps s ->
  wp (seach (measure_case cases worlds baseline) todo) (fun _ => recorded (steps ++ todo)) (fun _ => interrupted) s.
Proof.
  induction todo as [|at_ todo IH]; intros steps s Hs; cbn [seach]; [wp_step; by rewrite app_nil_r|].
  wp_step. eapply wp_mono; [by apply measure_case_recorded| |done]. intros [] s' Hs'. specialize (IH _ _ Hs'). by rewrite <- app_assoc in IH.
Qed.

Lemma recorded_planned repeats s : (fun x : nat * CaseRun => (x.1, Some (cr_case x.2))) <$> be_runs s = place <$> schedule repeats (length cases) ->
  (fun x => (x.1, cr_case x.2)) <$> be_runs s = planned (ca_name <$> cases) repeats.
Proof.
  intros Hr. pose proof (schedule_planned (ca_name <$> cases) repeats) as Hp. rewrite length_fmap in Hp. unfold place in Hr. rewrite Hp in Hr.
  apply (inj (fmap (prod_map id Some))). rewrite <- Hr, <- list_fmap_compose. done.
Qed.
Lemma recorded_counts repeats s : NoDup (ca_name <$> cases) -> (fun x : nat * CaseRun => (x.1, cr_case x.2)) <$> be_runs s = planned (ca_name <$> cases) repeats ->
  forall name, name ∈ ca_name <$> cases -> length (filter (fun x => cr_case x.2 = name) (be_runs s)) = repeats.
Proof.
  intros Hnd Hp name Hin. etransitivity; [|exact (planned_counts (ca_name <$> cases) repeats name Hnd Hin)]. rewrite <- Hp. symmetry. exact (length_filter_fmap (fun x => x.2 = name) _ _).
Qed.
Lemma grouped_names repeats s : (0 < repeats)%nat -> NoDup (ca_name <$> cases) -> (fun x : nat * CaseRun => (x.1, cr_case x.2)) <$> be_runs s = planned (ca_name <$> cases) repeats ->
  (group_runs (snd <$> be_runs s)).*1 ≡ₚ ca_name <$> cases.
Proof.
  intros Hpos Hnd Hp. destruct (group_runs_spec (snd <$> be_runs s)) as [Hk Hg]. apply NoDup_Permutation; [done|done|]. intros name.
  assert (Hin : name ∈ (group_runs (snd <$> be_runs s)).*1 <-> name ∈ cr_case <$> (snd <$> be_runs s)).
  { pose proof (od_get_None name (group_runs (snd <$> be_runs s))) as Hno. rewrite Hg in Hno. case_decide as Hd.
    - split; [done|]. intros _. destruct (decide (name ∈ (group_runs (snd <$> be_runs s)).*1)) as [|Hn]; [done|]. by apply Hno in Hn.
    - split; [|done]. intros Hn. exfalso. by apply (proj1 Hno eq_refl). }
  rewrite Hin, <- list_fmap_compose. assert (Hpn : (cr_case ∘ snd) <$> be_runs s = (planned (ca_name <$> cases) repeats).*2) by (rewrite <- Hp, <- list_fmap_compose; done).
  rewrite Hpn. split.
  - intros ([r n] & -> & Hpl)%list_elem_of_fmap. unfold planned in Hpl. apply elem_of_concat in Hpl as (l & (r' & -> & _)%list_elem_of_fmap & Hl).
    apply list_elem_of_fmap in Hl as (n' & [= -> ->] & Hr). by apply elem_of_rotate in Hr.
  - intros Hn. pose proof (planned_counts _ repeats _ Hnd Hn) as Hc. destruct (filter _ _) as [|x l] eqn:Hf; [simpl in Hc; lia|].
    assert (Hx : x ∈ filter (fun x => x.2 = name) (planned (ca_name <$> cases) repeats)) by (rewrite Hf; by left).
    apply list_elem_of_filter in Hx as [<- Hx]. by apply list_elem_of_fmap_2.
Qed.

(** A capture benchmark runs every case the same number of times and discards
    nothing. When it returns, round [r] holds one run of every case, starting from
    case [r] and rotating, so that every case has [repeats] runs; the written
    results hold all runs with a summary of every case, each exactly once, whose
    number of runs is [repeats] and whose median is over all of them, and is present
    only if every one succeeded. If it raises, the results on disk are the summary
    of the runs before, the last run at most missing. *)
Theorem benchmark_rounds_complete repeats : cases <> [] -> NoDup (ca_name <$> cases) ->
  let '(s, r) := run_benchmark cases repeats baseline worlds in
  match r with
  | Ok _ => (fun x => (x.1, cr_case x.2)) <$> be_runs s = planned (ca_name <$> cases) repeats /\
      (forall name, name ∈ ca_name <$> cases -> length (filter (fun x => cr_case x.2 = name) (be_runs s)) = repeats) /\
      ((0 < repeats)%nat -> exists summary, be_results s = Some (be_runs s, summary) /\ summary.*1 ≡ₚ ca_name <$> cases /\
         forall name x, (name, x) ∈ summary -> summarizes (snd <$> be_runs s) name x /\ sm_runs x = repeats)
  | Raise _ => interrupted s
  end.
Proof.
  intros Hne Hnd. unfold run_benchmark. pose proof (measure_cases_recorded (schedule repeats (length cases)) [] (MkBenchmark [] None)) as Hall.
  unfold wp in Hall. destruct (seach _ _ _) as [s [ []|e] ]; (specialize (Hall ltac:(by split))); [|exact Hall]. destruct Hall as [Hruns Hres]. cbn [app] in Hruns.
  pose proof (recorded_planned repeats s Hruns) as Hplan. pose proof (recorded_counts repeats s Hnd Hplan) as Hcount. split; [done|]. split; [done|]. intros Hpos.
  destruct (be_results s) as [ [runs summary]|].
  - destruct Hres as [-> Hsum]. exists summary. split; [done|]. destruct (summarize_runs_spec _ _ _ Hsum) as [Hkeys Hspec].
    assert (Hperm : summary.*1 ≡ₚ ca_name <$> cases) by (rewrite Hkeys; by apply (grouped_names repeats)). split; [done|].
    intros name x Hx. pose proof (Hspec _ _ Hx) as Hs. split; [done|]. destruct Hs as [-> _]. rewrite length_filter_fmap. apply Hcount. rewrite <- Hperm. by apply (list_elem_of_fmap_2 fst _ _ Hx).
  - exfalso. destruct cases as [|c cs]; [done|]. specialize (Hcount (ca_name c) ltac:(set_solver)). rewrite Hres in Hcount. simpl in Hcount. lia.
Qed.
End benchmark.
End report.

(** ** Witness *)

Definition plain_case (name : string) : Case := MkCaseSpec name ["true"] None.
Definition plain_world (n : nat) : World Z := MkWorld (Ok tt) (Ok tt) (if (n =? 3)%nat then 1 else 0) (-9) [ [ExitReady] ] [] (Z.of_nat n).

(** Two cases, twice; the last run fails. *)
Lemma benchmark_rounds_complete_witness :
  let '(s, r) := run_benchmark (fun l => foldr Z.max 0 l) (fun a b => Ok (a / b)) (fun a b => Ok (a / b)) (fun z => negb (z =? 0)) Z.div
    (plain_case <$> ["a"; "b"]) 2 "a" plain_world in
  r = Ok tt /\ (fun x => (x.1, cr_case x.2)) <$> be_runs s = [(0, "a"); (0, "b"); (1, "b"); (1, "a")]%nat.
Proof.
  assert (Hne : plain_case <$> ["a"; "b"] <> []) by (intros H; discriminate H).
  assert (Hnd : NoDup (ca_name <$> (plain_case <$> ["a"; "b"]))) by (apply (bool_decide_eq_true_1 _); vm_compute; reflexivity).
  pose proof (benchmark_rounds_complete (fun l => foldr Z.max 0 l) (fun a b => Ok (a / b)) (fun a b => Ok (a / b)) (fun z => negb (z =? 0)) Z.div
    (plain_case <$> ["a"; "b"]) "a" plain_world 2 Hne Hnd) as Hrun.
  assert (Hok : is_ok (run_benchmark (fun l => foldr Z.max 0 l) (fun a b => Ok (a / b)) (fun a b => Ok (a / b)) (fun z => negb (z =? 0)) Z.div
    (plain_case <$> ["a"; "b"]) 2 "a" plain_world).2 = true) by (vm_compute; reflexivity).
  destruct (run_benchmark _ _ _ _ _ _ _ _ _) as [s [ []|e] ]; [|done]. split; [reflexivity|]. destruct Hrun as [-> _]. reflexivity.
Defined.
