(* ===== verification/CaptureManifest.v ===== *)
(** * The manifest of a capture benchmark ([examples/benchmark_capture.py]: [validate_manifest], [benchmark])

    A manifest is any JSON value. Validation accepts exactly the manifests the
    benchmark can run: what it accepts gives cases that meet the conditions of the
    rounds. Strings are their UTF-8 bytes. *)

From Stdlib Require Import Ascii.
From S2P Require Import Prelude Monad TraceCounter Health HardwareConfig CaptureRun CaptureReport.

Definition nonempty (s : string) : bool := negb (String.eqb s EmptyString).
Definition is_text (v : json) : bool := match v with JStr s => nonempty s | _ => false end.

(** [isinstance(value, bool)] is tested first: in Python a bool is an int. *)
Definition positive_number (v : json) (label : string) : result unit :=
  let message := label +:+ " must be a positive finite number" in
  match v with
  | JNum n => let! f := isfinite n in raise! ValueError message when negb f || num_le n zero in Ok tt
  | _ => throw ValueError message
  end.

Definition named_text (manifest : record) (name : string) : result unit :=
  match od_get name manifest with
  | Some (JStr s) => raise! ValueError ("Manifest needs a nonempty " +:+ name) when negb (nonempty (strip s)) in Ok tt
  | _ => throw ValueError ("Manifest needs a nonempty " +:+ name)
  end.

(** The body of [for case in cases]; it returns the names so far. *)
Definition validate_case (names : list string) (v : json) : result (list string) :=
  match v with
  | JObj case =>
      match od_get "name" case with
      | Some (JStr name) =>
          raise! ValueError "Each case needs a name" when negb (nonempty name) in
          raise! ValueError "Case names must be unique" when bool_decide (name ∈ names) in
          raise! ValueError "Each argv must be a nonempty array of nonempty strings"
            when match od_get "argv" case with Some (JArr (a :: argv)) => negb (forallb is_text (a :: argv)) | _ => true end in
          raise! ValueError "Each case needs a signals description" when negb (from_option is_text false (od_get "signals" case)) in
          raise! ValueError "success_stdout must contain 1 to 4096 bytes"
            when match od_get "success_stdout" case with
                 | None => false
                 | Some (JStr s) => negb ((0 <? Z.of_nat (String.length s)) && (Z.of_nat (String.length s) <=? 4096))
                 | Some _ => true
                 end in
          Ok (names ++ [name])
      | _ => throw ValueError "Each case needs a name"
      end
  | _ => throw ValueError "Each case needs a name"
  end.

(** A case of a validated manifest. *)
Definition text_of (v : json) : string := match v with JStr s => s | _ => EmptyString end.
Definition encoded (s : string) : list Z := (fun c => Z.of_nat (nat_of_ascii c)) <$> String.list_ascii_of_string s.
Definition case_of (v : json) : Case :=
  match v with
  | JObj case => MkCaseSpec (text_of (field case "name")) (match field case "argv" with JArr l => text_of <$> l | _ => [] end)
                   ((fun v => encoded (text_of v)) <$> od_get "success_stdout" case)
  | _ => MkCaseSpec EmptyString [] None
  end.

Definition optional_text (manifest : record) (name : string) : result unit :=
  match od_get name manifest with
  | None | Some (JStr _) => Ok tt
  | Some _ => throw ValueError (name +:+ " must be a path string")
  end.

(** [machine] is [platform.machine()]. *)
Definition validate_manifest (machine : string) (v : json) : result unit :=
  match v with
  | JObj manifest =>
      let! _ := rmap (named_text manifest) ["host_name"; "host_isa"; "guest_isa"; "workload"; "baseline"] in
      raise! ValueError "Manifest host_isa does not match this host; do not compare cross-ISA runs" when negb (String.eqb (text_of (field manifest "host_isa")) machine) in
      raise! ValueError "repeats must be a positive integer"
        when match od_get "repeats" manifest with None => false | Some (JNum (NInt z)) => z <? 1 | Some _ => true end in
      let! _ := positive_number (default (JNum (NInt 60)) (od_get "timeout_seconds" manifest)) "timeout_seconds" in
      match od_get "cases" manifest with
      | Some (JArr (case :: cases)) =>
          let! names := rfold validate_case [] (case :: cases) in
          let baseline := text_of (field manifest "baseline") in
          raise! ValueError "baseline must name one case" when negb (bool_decide (baseline ∈ names)) in
          match list_find (fun c => ca_name c = baseline) (case_of <$> case :: cases) with
          | None => throw Exception_ "StopIteration"
          | Some (_, c) =>
              raise! ValueError "The baseline must not produce a cpu2tensor trace" when traced c in
              let! _ := rmap (optional_text manifest) ["cwd"; "stdin"] in
              raise! ValueError "files must be an array of provenance paths"
                when match od_get "files" manifest with None => false | Some (JArr l) => negb (forallb (fun v => match v with JStr _ => true | _ => false end) l) | Some _ => true end in
              Ok tt
          end
      | _ => throw ValueError "Manifest needs a nonempty cases array"
      end
  | _ => throw ValueError "Manifest must be a JSON object"
  end.

(** [manifest["cases"]], [manifest.get("repeats", 3)] and [manifest["baseline"]] *)
Definition manifest_cases (v : json) : list Case :=
  match v with JObj m => match field m "cases" with JArr l => case_of <$> l | _ => [] end | _ => [] end.
Definition manifest_repeats (v : json) : nat :=
  match v with JObj m => match od_get "repeats" m with Some (JNum (NInt z)) => Z.to_nat z | _ => 3%nat end | _ => 3%nat end.
Definition manifest_baseline (v : json) : string := match v with JObj m => text_of (field m "baseline") | _ => EmptyString end.

(** ** What validation accepts *)

Definition case_good (c : Case) : Prop :=
  ca_name c <> EmptyString /\ ca_argv c <> [] /\ EmptyString ∉ ca_argv c /\ forall text, ca_success_stdout c = Some text -> (1 <= length text <= 4096)%nat.

Lemma nonempty_spec s : nonempty s = true <-> s <> EmptyString.
Proof. unfold nonempty. by destruct (String.eqb_spec s EmptyString). Qed.
Lemma length_encoded s : length (encoded s) = String.length s.
Proof. unfold encoded. rewrite length_fmap. induction s; simpl; by f_equal. Qed.

Lemma validate_case_ok names v names' : validate_case names v = Ok names' ->
  names' = names ++ [ca_name (case_of v)] /\ ca_name (case_of v) ∉ names /\ case_good (case_of v).
Proof.
  unfold validate_case. destruct v as [| | | | |case]; try done. destruct (od_get "name" case) as [ [| | |name| |]|] eqn:Hn; try done. intros Hv. inv_res Hv.
  injection Hv as <-. bool_prop. unfold case_good, case_of, field. cbn [ca_name ca_argv ca_success_stdout]. rewrite Hn. cbn [default from_option id text_of].
  destruct (od_get "argv" case) as [ [| | | |[|a argv]|]|]; try done. cbn [default from_option id] in *. split; [done|]. split; [done|]. split_and!.
  - by apply nonempty_spec.
  - done.
  - match goal with Hf : negb (forallb is_text _) = false |- _ => apply negb_false_iff in Hf; rewrite forallb_forall in Hf; rename Hf into Hall end. intros (x & Hx & Hin)%list_elem_of_fmap.
    apply list_elem_of_In, Hall in Hin. destruct x; try done. simpl in Hx. by subst.
  - destruct (od_get "success_stdout" case) as [ [| | |text| |]|]; try done. intros t [= <-]. rewrite length_encoded. cbn [text_of]. bool_prop. lia.
Qed.

Lemma validate_cases_ok l : forall names names', NoDup names -> rfold validate_case names l = Ok names' ->
  names' = names ++ (ca_name <$> (case_of <$> l)) /\ NoDup names' /\ Forall case_good (case_of <$> l).
Proof.
  induction l as [|v l IH]; intros names names' Hnd; cbn [rfold fmap list_fmap].
  - intros [= <-]. rewrite app_nil_r. split_and!; [done|done|constructor].
  - intros (n1 & H1 & H2)%rbind_Ok. apply validate_case_ok in H1 as (-> & Hni & Hg). apply IH in H2 as (-> & Hnd' & Hall).
    + rewrite <- app_assoc. rewrite <- app_assoc in Hnd'. split_and!; [done|done|by constructor].
    + apply NoDup_app. split_and!; [done| |apply NoDup_singleton]. intros x Hx ->%list_elem_of_singleton. done.
Qed.

(** What the rounds need of a manifest. *)
Record runnable (cases : list Case) (repeats : nat) (baseline : string) : Prop := {
  rn_cases : cases <> [];
  rn_names : NoDup (ca_name <$> cases);
  rn_good : Forall case_good cases;
  rn_repeats : (0 < repeats)%nat;
  rn_baseline : exists c, c ∈ cases /\ ca_name c = baseline /\ traced c = false;
}.

Lemma validated_runnable machine v : validate_manifest machine v = Ok tt -> runnable (manifest_cases v) (manifest_repeats v) (manifest_baseline v).
Proof.
  unfold validate_manifest. destruct v as [| | | | |m]; try done. intros Hv. inv_res Hv. cbn [manifest_cases manifest_repeats manifest_baseline]. unfold field at 1.
  destruct (od_get "cases" m) as [ [| | | |[|case cases]|]|]; try done. cbn [default from_option id]. apply rbind_Ok in Hv as (names & Hnames & Hv).
  apply validate_cases_ok in Hnames as (-> & Hnd & Hall); [|constructor]. cbn [app] in *. inv_res Hv.
  destruct (list_find _ _) as [ [i c]|] eqn:Hf; [|done]. inv_res Hv. apply list_find_Some in Hf as (Hi & Hc & _). split; [done|done|done| |].
  - destruct (od_get "repeats" m) as [ [| |[z|]| | |]|]; try done; try lia; try (cbn; lia).
  - exists c. split; [by eapply list_elem_of_lookup_2|done].
Qed.

Section benchmark.
Context {F : Type} (median : list F -> F) (rate : Z -> F -> result F) (fraction : Z -> Z -> result F) (truthy : F -> bool) (quotient : F -> F -> F).

(** [prepared]: identifying the files and making the output directory. *)
Definition benchmark_manifest (machine : string) (manifest : json) (prepared : result unit) (worlds : nat -> World F) : result (Benchmark (F := F) * result unit) :=
  let! _ := validate_manifest machine manifest in
  let! _ := prepared in
  Ok (run_benchmark median rate fraction truthy quotient (manifest_cases manifest) (manifest_repeats manifest) (manifest_baseline manifest) worlds).

End benchmark.

(** ** Witness *)

Definition example_manifest : json :=
  let case name := JObj [("name", JStr name); ("argv", JArr [JStr "true"]); ("signals", JStr "none")] in
  JObj [("host_name", JStr "host"); ("host_isa", JStr "x86_64"); ("guest_isa", JStr "x86_64"); ("workload", JStr "loop"); ("baseline", JStr "a");
        ("repeats", JNum (NInt 2)); ("cases", JArr [case "a"; case "b"])].
Definition example_benchmark : result (Benchmark (F := Z) * result unit) :=
  benchmark_manifest (fun l => foldr Z.max 0 l) (fun a b => Ok (a / b)) (fun a b => Ok (a / b)) (fun z => negb (z =? 0)) Z.div "x86_64" example_manifest (Ok tt) plain_world.


(** An integer beyond the range of floats is not reported as a ValueError. *)
Lemma huge_timeout_escapes : positive_number (JNum (NInt (2 ^ 1024))) "timeout_seconds" = throw OverflowError "int too large to convert to float".
Proof. vm_compute. reflexivity. Qed.
