(* ===== verification/TriagePca.v ===== *)
(** * A frozen linear autoencoder over sketches ([examples/hardware_triage.py]: [FrozenRawTracePCA])

    The checks around fitting, scoring and loading. Means, deviations, singular
    vectors, scores and float conversions are arguments; a matrix is
    two-dimensional by its type. *)

From S2P Require Import Prelude Batch Floats TraceSketch.

Inductive fdtype := float32_dtype | other_dtype.
#[global] Instance fdtype_eq_dec : EqDecision fdtype.
Proof. solve_decision. Defined.
#[global] Instance RawTraceSketchConfig_eq_dec : EqDecision RawTraceSketchConfig.
Proof. solve_decision. Defined.

Record Matrix := MkMatrix { mx_dtype : fdtype; mx_device : device; mx_columns : nat; mx_rows : list (list float) }.
(** A vector with its dtype. *)
Record Vector := MkVector { vc_dtype : fdtype; vc_data : list float }.

Record FrozenRawTracePCA := MkPca { pc_device : device; pc_mean : Vector; pc_scale : Vector; pc_components : Matrix; pc_config : RawTraceSketchConfig }.

Section pca.
(** The column means, the clamped deviations, the first right singular vectors of the standardized rows, the score of every row. *)
Context (mean_of : list (list float) -> list float) (scale_of : list (list float) -> list float).
Context (right_vectors : list (list float) -> nat -> list (list float)) (scores_of : FrozenRawTracePCA -> list (list float) -> list float).

(** The checks of [_standardize], which every score makes. *)
Definition check_features (p : FrozenRawTracePCA) (features : Matrix) (config : RawTraceSketchConfig) : result unit :=
  raise! ValueError "features must be a two-dimensional float32 tensor" when negb (bool_decide (mx_dtype features = float32_dtype)) in
  raise! ValueError "features use a different raw trace sketch configuration" when negb (bool_decide (config = pc_config p)) in
  raise! ValueError "features differ from the fitted device or dimensions"
    when negb (mx_columns features =? length (vc_data (pc_mean p)))%nat || negb (bool_decide (mx_device features = pc_device p)) in
  Ok tt.

Definition anomaly_score (p : FrozenRawTracePCA) (features : Matrix) (config : RawTraceSketchConfig) : result (list float) :=
  let! _ := check_features p features config in
  Ok (scores_of p (mx_rows features)).

(** [minimum_scale] has its default, which is positive. *)
Definition fit_raw_trace_pca (features : Matrix) (config : RawTraceSketchConfig) (latent_dimensions : Z) : result FrozenRawTracePCA :=
  raise! ValueError "features must contain at least two float32 rows"
    when negb (bool_decide (mx_dtype features = float32_dtype)) || (length (mx_rows features) <? 2)%nat in
  raise! ValueError "features do not match the raw trace sketch contract" when negb (Z.of_nat (mx_columns features) =? feature_dimensions config) in
  raise! ValueError "latent dimensions and minimum scale must fit the dataset"
    when negb ((0 <? latent_dimensions) && (latent_dimensions <? Z.of_nat (Nat.min (length (mx_rows features)) (mx_columns features)))) in
  let rows := mx_rows features in
  let n := Z.to_nat latent_dimensions in
  Ok (MkPca (mx_device features) (MkVector float32_dtype (mean_of rows)) (MkVector float32_dtype (scale_of rows))
    (MkMatrix float32_dtype (mx_device features) n (right_vectors rows n)) config).

(** A checkpoint: the values [torch.load] gives, or what is missing. *)
Record PcaCheckpoint := MkCheckpoint { ck_segments : Z; ck_pair_bins : Z; ck_include_length : bool; ck_mean : Vector; ck_scale : Vector; ck_components : Matrix; ck_threshold : float }.

Definition load_frozen_raw_trace_pca (d : device) (checkpoint : result PcaCheckpoint) : result (FrozenRawTracePCA * float) :=
  let invalid := Exn ValueError "Invalid raw trace triage checkpoint" in
  match checkpoint with
  | Raise e => if existsb (isinstance_exc (exn_class e)) [KeyError; TypeError; ValueError] then Raise invalid else Raise e
  | Ok k =>
      let config := MkSketch (ck_segments k) (ck_pair_bins k) (ck_include_length k) in
      match check_sketch_config config with
      | Raise _ => Raise invalid
      | Ok _ =>
          raise! ValueError "Invalid raw trace triage checkpoint tensors"
            when negb (bool_decide (vc_dtype (ck_mean k) = float32_dtype)) || negb (bool_decide (vc_dtype (ck_scale k) = float32_dtype)) ||
                 negb (bool_decide (mx_dtype (ck_components k) = float32_dtype)) || negb (length (vc_data (ck_scale k)) =? length (vc_data (ck_mean k)))%nat ||
                 negb (length (mx_rows (ck_components k)) =? length (vc_data (ck_mean k)))%nat || negb (Z.of_nat (length (vc_data (ck_mean k))) =? feature_dimensions config) in
          Ok (MkPca d (ck_mean k) (ck_scale k) (ck_components k) config, ck_threshold k)
      end
  end.

(** What [run] saves of a model. *)
Definition checkpoint_of (p : FrozenRawTracePCA) (threshold : float) : PcaCheckpoint :=
  MkCheckpoint (sk_segments (pc_config p)) (sk_pair_bins (pc_config p)) (sk_include_length (pc_config p)) (pc_mean p) (pc_scale p) (pc_components p) threshold.

(** The shapes of the numerical results. *)
Context (mean_length : forall rows n, Forall (fun r => length r = n) rows -> rows <> [] -> length (mean_of rows) = n)
  (scale_length : forall rows n, Forall (fun r => length r = n) rows -> rows <> [] -> length (scale_of rows) = n)
  (vectors_length : forall rows k n, Forall (fun r => length r = n) rows -> (k < Nat.min (length rows) n)%nat -> length (right_vectors rows k) = n).

Definition matrix_ok (m : Matrix) : Prop := Forall (fun r => length r = mx_columns m) (mx_rows m).

(** A fitted model survives its checkpoint: what is saved loads as the same model and threshold. *)
Theorem pca_checkpoint_roundtrip features config latent p threshold : matrix_ok features -> check_sketch_config config = Ok tt ->
  fit_raw_trace_pca features config latent = Ok p -> load_frozen_raw_trace_pca (pc_device p) (Ok (checkpoint_of p threshold)) = Ok (p, threshold).
Proof.
  intros Hm Hc Hf. unfold fit_raw_trace_pca in Hf. inv_res Hf. injection Hf as <-. bool_prop.
  assert (Hne : mx_rows features <> []) by (intros He; rewrite He in *; simpl in *; lia).
  unfold load_frozen_raw_trace_pca, checkpoint_of. cbn [ck_segments ck_pair_bins ck_include_length ck_mean ck_scale ck_components ck_threshold pc_config pc_mean pc_scale pc_components pc_device vc_dtype vc_data mx_dtype mx_rows].
  replace (MkSketch (sk_segments config) (sk_pair_bins config) (sk_include_length config)) with config by (by destruct config). rewrite Hc.
  rewrite !(mean_length _ _ Hm Hne), (scale_length _ _ Hm Hne), (vectors_length _ _ _ Hm) by lia. rewrite !bool_decide_eq_true_2 by done. rewrite !Nat.eqb_refl. cbn [negb orb].
  rewrite (proj2 (Z.eqb_eq _ _)) by done. done.
Qed.
End pca.
