(* ===== verification/TriageBench.v ===== *)
(** * The triage benchmark ([examples/hardware_triage_benchmark.py])

    Raw traces of benign workloads are captured in shuffled order, sketched, split
    per family into training, calibration and validation rows, and used to fit and
    calibrate a frozen model whose false alarms are measured on families it has not
    seen. Target processes and captures are arguments, as are float statistics. *)

From S2P Require Import Prelude Batch Floats HardwareDecode ExperimentPlan ExperimentCapture TraceSketch TriagePca.

Definition TRIAGE_LOOPS : list (string * Z) :=
  [("getpid", 250); ("fstat", 250); ("futex", 250); ("openat", 100); ("pipe", 100); ("mmap", 100); ("eventfd", 100); ("epoll", 100); ("socketpair", 100);
   ("getrandom", 250); ("memfd", 100); ("ioctl", 100); ("dup", 250); ("yield", 250); ("uname", 250); ("readlink", 100); ("fork", 20)].
Definition HOLDOUT_FAMILIES : list string := ["epoll"; "memfd"; "fork"].
Definition SKETCH_CONFIG : RawTraceSketchConfig := MkSketch 4 0 false.

(** ** One capture *)

(** A target: starting it, its first line, what running it under a capture gives, its code and standard error. *)
Record Target := MkTarget { tg_popen : result unit; tg_line : list Z; tg_run : result (list HardwareBatch); tg_returncode : Z; tg_error : list Z }.

(** [_capture]: the trace, and whether the process was killed and reaped by hand. *)
Definition capture_trace (family : string) (t : Target) : bool * result tensor :=
  match tg_popen t with
  | Raise e => (false, Raise e)
  | Ok _ =>
      if negb (bool_decide (tg_line t = READY)) then (true, throw RuntimeError (family +:+ " did not reach its capture gate")) else
      match tg_run t with
      | Raise e => (true, Raise e)
      | Ok batches =>
          (false,
           raise! RuntimeError (family +:+ " failed")
             when negb (tg_returncode t =? 0) || match tg_error t with [] => false | _ => true end || negb (length batches =? 1)%nat in
           match batches with
           | b :: _ => raise! RuntimeError (family +:+ " produced an empty Intel PT trace") when (numel (hb_trace_bytes b) =? 0)%nat in Ok (hb_trace_bytes b)
           | [] => throw IndexError "list index out of range"
           end)
      end
  end.

(** ** Rows of tensors *)

(** [values[start:stop]] *)
Definition clip (n : nat) (i : Z) : nat := Z.to_nat (if i <? 0 then Z.max 0 (i + Z.of_nat n) else Z.min i (Z.of_nat n)).
Definition slice_rows (start stop : option Z) (m : Matrix) : Matrix :=
  let n := length (mx_rows m) in
  let a := from_option (clip n) 0%nat start in
  let b := from_option (clip n) n stop in
  MkMatrix (mx_dtype m) (mx_device m) (mx_columns m) (take (b - a) (drop a (mx_rows m))).

Definition cat (ms : list Matrix) : result Matrix :=
  match ms with
  | [] => throw RuntimeError "torch.cat(): expected a non-empty list of Tensors"
  | m :: _ =>
      raise! RuntimeError "Sizes of tensors must match except in dimension 0" when existsb (fun m' => negb (mx_columns m' =? mx_columns m)%nat) ms in
      Ok (MkMatrix (mx_dtype m) (mx_device m) (mx_columns m) (concat (mx_rows <$> ms)))
  end.
(** [torch.stack] of one-dimensional rows *)
Definition stack (rows : list (list float)) : result Matrix :=
  match rows with
  | [] => throw RuntimeError "stack expects a non-empty TensorList"
  | r :: _ =>
      raise! RuntimeError "stack expects each tensor to be equal size" when existsb (fun r' => negb (length r' =? length r)%nat) rows in
      Ok (MkMatrix float32_dtype cpu (length r) rows)
  end.

Section bench.
Context (log1p32 log1p : float -> float) (use_native : bool).
Context (mean_of : list (list float) -> list float) (scale_of : list (list float) -> list float).
Context (right_vectors : list (list float) -> nat -> list (list float)) (scores_of : FrozenRawTracePCA -> list (list float) -> list float).
(** [torch.quantile] at the review quantile, [>], the rate of a count, [median], [max], and comparisons of floats. *)
Context (quantile_of : list float -> float) (above : float -> float -> bool) (per_million : nat -> nat -> float).
Context (median_of max_of : list float -> float) (same_float : float -> float -> bool).
Notation fit := (fit_raw_trace_pca mean_of scale_of right_vectors).
Notation score p m := (anomaly_score scores_of p m SKETCH_CONFIG).

(** ** Collection *)

Record Collected := MkCollected { cl_features : list (string * list (list float)); cl_traces : list (string * list tensor) }.
Definition no_captures : Collected := MkCollected ((fun fl => (fl.1, [])) <$> TRIAGE_LOOPS) ((fun fl => (fl.1, [])) <$> TRIAGE_LOOPS).

Definition append_at {A} (family : string) (a : A) (d : list (string * list A)) : result (list (string * list A)) :=
  match od_get family d with None => throw KeyError family | Some l => Ok (od_set family (l ++ [a]) d) end.

(** The row of one trace. *)
Definition sketch_of (trace : tensor) : result (list float) :=
  let! packed := pack_raw_traces [trace] in
  let! rows := raw_trace_sketch log1p32 log1p use_native packed.1 packed.2 SKETCH_CONFIG in
  match rows with row :: _ => Ok row | [] => throw IndexError "index 0 is out of bounds for dimension 0 with size 0" end.

(** [targets n] is what capture number [n] meets. *)
Definition collect_one (targets : nat -> Target) (st : Collected) (at_ : nat * string) : result Collected :=
  let! trace := (capture_trace at_.2 (targets at_.1)).2 in
  let! row := sketch_of trace in
  let! features := append_at at_.2 row (cl_features st) in
  let! traces := append_at at_.2 trace (cl_traces st) in
  Ok (MkCollected features traces).

(** The warm-up captures, then the shuffled order. *)
Definition collect_all (targets : nat -> Target) (order : list string) : result Collected :=
  let! _ := rmap (fun at_ => (capture_trace at_.2 (targets at_.1)).2) (zip (seq 0 (length TRIAGE_LOOPS)) TRIAGE_LOOPS.*1) in
  rfold (collect_one targets) no_captures (zip (seq (length TRIAGE_LOOPS) (length order)) order).

(** ** Evaluation *)

Section evaluate.
Context (training_rows calibration_rows latent : Z).

Definition training_part (m : Matrix) : Matrix := slice_rows None (Some training_rows) m.
Definition calibration_part (m : Matrix) : Matrix := slice_rows (Some training_rows) (Some (training_rows + calibration_rows)) m.
Definition validation_part (m : Matrix) : Matrix := slice_rows (Some (training_rows + calibration_rows)) None m.

Definition familiar (rows : list (string * Matrix)) : list Matrix := (filter (fun fm => fm.1 ∉ HOLDOUT_FAMILIES) rows).*2.
Definition _split_rows (rows : list (string * Matrix)) : result (Matrix * Matrix * Matrix) :=
  let! train := cat (training_part <$> familiar rows) in
  let! calibration := cat (calibration_part <$> familiar rows) in
  let! validation := cat (validation_part <$> familiar rows) in
  Ok (train, calibration, validation).

Definition _scores_per_million (scores : list float) (threshold : float) : result float :=
  raise! ZeroDivisionError "float division by zero" when (length scores =? 0)%nat in
  Ok (per_million (length (filter (fun s => above s threshold = true) scores)) (length scores)).

Definition quantile (scores : list float) : result float :=
  raise! RuntimeError "quantile() input tensor must be non-empty" when (length scores =? 0)%nat in
  Ok (quantile_of scores).

Record FamilyHoldout := MkHoldout { fh_model : FrozenRawTracePCA; fh_threshold : float; fh_validation : float; fh_holdout : float; fh_median : float; fh_max : float }.

Definition leave_out (rows : list (string * Matrix)) (heldout : string * Matrix) : result (string * FamilyHoldout) :=
  let known := (filter (fun fm => fm.1 <> heldout.1) rows).*2 in
  let! train := cat (training_part <$> known) in
  let! calibration := cat (calibration_part <$> known) in
  let! validation := cat (validation_part <$> known) in
  let! model := fit train SKETCH_CONFIG latent in
  let! calibration_scores := score model calibration in
  let! validation_scores := score model validation in
  let! holdout_scores := score model heldout.2 in
  let! threshold := quantile calibration_scores in
  let! v := _scores_per_million validation_scores threshold in
  let! h := _scores_per_million holdout_scores threshold in
  Ok (heldout.1, MkHoldout model threshold v h (median_of holdout_scores) (max_of holdout_scores)).

Definition leave_one_family_out (rows : list (string * Matrix)) : result (list (string * FamilyHoldout)) := rmap (leave_out rows) rows.

Record TriageReport := MkReport {
  tr_model : FrozenRawTracePCA;
  tr_threshold : float;
  tr_decision : string;
  tr_holdouts : list (string * FamilyHoldout);
  tr_validation : float;
  tr_heldout : float;
  tr_families : list (string * float);
}.

Definition family_rate (model : FrozenRawTracePCA) (threshold : float) (fm : string * Matrix) : result (string * float) :=
  let! scores := score model fm.2 in
  let! r := _scores_per_million scores threshold in
  Ok (fm.1, r).

(** [stored] is what saving and loading the checkpoint gives; [within] compares with the limit. *)
Definition evaluate_rows (stored : PcaCheckpoint -> result PcaCheckpoint) (within : float -> bool) (rows : list (string * Matrix)) : result TriageReport :=
  let! split := _split_rows rows in
  let '(train, calibration, validation) := split in
  let! model := fit train SKETCH_CONFIG latent in
  let! calibration_scores := score model calibration in
  let! validation_scores := score model validation in
  let! heldouts := rmap (fun f => match od_get f rows with Some m => Ok m | None => throw KeyError f end) HOLDOUT_FAMILIES in
  let! holdout := cat heldouts in
  let! holdout_scores := score model holdout in
  let! threshold := quantile calibration_scores in
  let! holdouts := leave_one_family_out rows in
  let worst := max_of (fh_holdout <$> holdouts.*2) in
  let! families := rmap (family_rate model threshold) rows in
  let! restored := load_frozen_raw_trace_pca cpu (stored (checkpoint_of model threshold)) in
  let! restored_scores := score restored.1 validation in
  raise! RuntimeError "Reloaded frozen triage checkpoint changed inference"
    when negb (same_float restored.2 threshold) || negb (forallb (fun p => same_float p.1 p.2) (zip restored_scores validation_scores) && (length restored_scores =? length validation_scores)%nat) in
  let! v := _scores_per_million validation_scores threshold in
  let! h := _scores_per_million holdout_scores threshold in
  Ok (MkReport model threshold (if within worst then "GO" else "NO-GO") holdouts v h families).
End evaluate.

(** ** [run] *)

Record Corpus := MkCorpus { cp_packed : tensor * tensor; cp_families : list string; cp_features : Matrix }.

(** [linux], [binary] and [reviews]: the checks of the host, the file and the review budget. *)
Definition run_triage {G} `{RandomOps G} (linux binary reviews : bool) (seed repetitions training_rows calibration_rows latent : Z) (targets : nat -> Target)
    (stored : PcaCheckpoint -> result PcaCheckpoint) (within : float -> bool) : result (Corpus * TriageReport) :=
  raise! RuntimeError "The raw-PT benchmark requires Linux" when negb linux in
  raise! ValueError "Missing workload executable" when negb binary in
  raise! ValueError "repetitions must leave independent validation rows" when repetitions <=? training_rows + calibration_rows in
  raise! ValueError "reviews-per-million must be between zero and one million" when negb reviews in
  let order := (shuffle (concat ((fun fl => replicate (Z.to_nat repetitions) fl.1) <$> TRIAGE_LOOPS)) (Random seed)).1 in
  let! collected := collect_all targets order in
  let! rows := rmap (fun fv => let! m := stack fv.2 in Ok (fv.1, m)) (cl_features collected) in
  let! report := evaluate_rows training_rows calibration_rows latent stored within rows in
  let! packed := pack_raw_traces (concat (cl_traces collected).*2) in
  let! features := cat rows.*2 in
  Ok (MkCorpus packed (concat ((fun ft => replicate (length ft.2) ft.1) <$> cl_traces collected)) features, report).

(** ** What was collected *)

(** A capture that counts: the target was released at its gate and ended cleanly. *)
Definition clean (family : string) (t : Target) (trace : tensor) : Prop :=
  tg_line t = READY /\ tg_returncode t = 0 /\ tg_error t = [] /\ (0 < numel trace)%nat /\ exists b, tg_run t = Ok [b] /\ trace = hb_trace_bytes b.

Lemma capture_clean family t trace : (capture_trace family t).2 = Ok trace -> clean family t trace.
Proof.
  unfold capture_trace. destruct (tg_popen t); [|done]. destruct (bool_decide_reflect (tg_line t = READY)) as [Hl|]; [|done]. cbn [negb].
  destruct (tg_run t) as [batches|] eqn:Hrun; [|done]. cbn [snd]. intros Hc. inv_res Hc. destruct batches as [|b [|] ]; cbn in *; try done; [|by rewrite orb_true_r in Hg]. inv_res Hc. injection Hc as <-.
  bool_prop. destruct (tg_error t) eqn:Herr; [|done]. unfold clean. split_and!; [done|done|done|lia|]. by exists b.
Qed.

(** The rows of a family are the sketches of its traces, each of a clean capture of that family. *)
Record collected_ok (targets : nat -> Target) (done_ : list string) (st : Collected) : Prop := {
  co_keys : (cl_features st).*1 = TRIAGE_LOOPS.*1 /\ (cl_traces st).*1 = TRIAGE_LOOPS.*1;
  co_rows : forall family, family ∈ TRIAGE_LOOPS.*1 -> exists rows traces, od_get family (cl_features st) = Some rows /\ od_get family (cl_traces st) = Some traces /\
    Forall2 (fun trace row => sketch_of trace = Ok row) traces rows /\ Forall (fun trace => exists n, clean family (targets n) trace) traces /\
    length rows = length (filter (fun f => f = family) done_);
}.

Lemma append_at_ok {A} family (a : A) d d' : append_at family a d = Ok d' -> exists l, od_get family d = Some l /\ d' = od_set family (l ++ [a]) d /\ d'.*1 = d.*1.
Proof.
  unfold append_at. destruct (od_get family d) as [l|] eqn:Hl; [|done]. intros [= <-]. exists l. split; [done|]. split; [done|]. rewrite od_set_keys.
  destruct (decide (family ∈ d.*1)) as [|Hn]; [done|]. apply od_get_None in Hn. congruence.
Qed.

Lemma no_captures_ok targets : collected_ok targets [] no_captures.
Proof.
  split; [done|]. intros family Hin. exists [], []. unfold no_captures. cbn [cl_features cl_traces].
  assert (Hg : forall A, od_get family ((fun fl => (fl.1, @nil A)) <$> TRIAGE_LOOPS) = Some []).
  { intros A. destruct (od_get family _) as [l|] eqn:Hl.
    - apply od_get_Some_elem, list_elem_of_fmap in Hl as (fl & [= _ ->] & _). done.
    - apply od_get_None in Hl. exfalso. apply Hl. rewrite <- list_fmap_compose. exact Hin. }
  rewrite !Hg. split_and!; [done|done|constructor|constructor|done].
Qed.

Lemma collect_one_ok targets done_ st at_ st' : collected_ok targets done_ st -> collect_one targets st at_ = Ok st' -> collected_ok targets (done_ ++ [at_.2]) st'.
Proof.
  intros [ [Hkf Hkt] Hr] Hc. unfold collect_one in Hc. inv_res Hc. injection Hc as <-.
  match goal with Ht : (capture_trace _ _).2 = Ok _ |- _ => apply capture_clean in Ht as Hclean end.
  match goal with Hf : append_at _ _ (cl_features st) = Ok _ |- _ => apply append_at_ok in Hf as (lf & Hlf & -> & Hf) end.
  match goal with Ht : append_at _ _ (cl_traces st) = Ok _ |- _ => apply append_at_ok in Ht as (lt & Hlt & -> & Htk) end.
  split; [cbn [cl_features cl_traces]; split; congruence|]. intros family Hin. destruct (Hr family Hin) as (rows & traces & Hgr & Hgt & Hsk & Hcl & Hlen). cbn [cl_features cl_traces].
  destruct (decide (at_.2 = family)) as [He|Hne].
  - rewrite He in *. rewrite !od_get_set_eq. assert (lf = rows) as -> by congruence. assert (lt = traces) as -> by congruence. eexists _, _. split; [done|]. split; [done|].
    rewrite filter_app, filter_cons_True by done. rewrite filter_nil, !length_app, Hlen. split_and!; [|apply Forall_app; split; [done|]; constructor; [by eexists|constructor]|done].
    apply Forall2_app; [done|]. by constructor.
  - rewrite !od_get_set_ne by done. exists rows, traces. rewrite filter_app, filter_cons_False by done. rewrite filter_nil, app_nil_r. done.
Qed.

Lemma collect_fold_ok targets l : forall done_ st st', collected_ok targets done_ st -> rfold (collect_one targets) st l = Ok st' -> collected_ok targets (done_ ++ l.*2) st'.
Proof.
  induction l as [|at_ l IH]; intros done_ st st' Hs; cbn [rfold fmap list_fmap]; [intros [= <-]; by rewrite app_nil_r|].
  intros (s1 & H1 & H2)%rbind_Ok. pose proof (IH _ _ _ (collect_one_ok _ _ _ _ _ Hs H1) H2) as Hd. by rewrite <- app_assoc in Hd.
Qed.
Lemma collect_all_ok targets order st : collect_all targets order = Ok st -> collected_ok targets order st.
Proof.
  unfold collect_all. intros (? & _ & Hc)%rbind_Ok. apply (collect_fold_ok _ _ _ _ _ (no_captures_ok targets)) in Hc. cbn [app] in Hc.
  by rewrite snd_zip in Hc by (rewrite length_seq; lia).
Qed.

(** The shuffled order holds every family [n] times. *)
Lemma order_counts n family : family ∈ TRIAGE_LOOPS.*1 -> length (filter (fun f => f = family) (concat ((fun fl => replicate n fl.1) <$> TRIAGE_LOOPS))) = n.
Proof.
  assert (Hrep : forall f, length (filter (fun g => g = family) (replicate n f)) = if decide (f = family) then n else 0%nat).
  { intros f. induction n as [|k IH]; cbn [replicate]; [by case_decide|]. rewrite filter_cons. case_decide; cbn [length]; by rewrite IH. }
  intros Hin. assert (Hgen : forall l : list (string * Z), NoDup l.*1 ->
    length (filter (fun f => f = family) (concat ((fun fl => replicate n fl.1) <$> l))) = if decide (family ∈ l.*1) then n else 0%nat).
  { induction l as [|fl l IH]; intros Hnd; [done|]. cbn [fmap list_fmap concat] in *. apply NoDup_cons in Hnd as [Hni Hnd]. rewrite filter_app, length_app, Hrep, IH by done.
    destruct (decide (fl.1 = family)) as [<-|Hne]; [rewrite decide_False, decide_True by set_solver; lia|].
    destruct (decide (family ∈ l.*1)); [rewrite decide_True by set_solver|rewrite decide_False by set_solver]; lia. }
  rewrite Hgen, decide_True by (done || (apply (bool_decide_eq_true_1 _); vm_compute; reflexivity)). done.
Qed.

(** ** The parts of a family *)

Section parts.
Context (training_rows calibration_rows : Z) (Ht : 0 <= training_rows) (Hc : 0 <= calibration_rows).

Lemma clip_nonneg n i : 0 <= i -> clip n i = Nat.min (Z.to_nat i) n.
Proof. intros Hi. unfold clip. rewrite (proj2 (Z.ltb_ge i 0)) by done. lia. Qed.

(** The three parts of a family are its rows, in order. *)
Lemma parts_partition m : mx_rows (training_part training_rows m) ++ mx_rows (calibration_part training_rows calibration_rows m) ++ mx_rows (validation_part training_rows calibration_rows m) = mx_rows m /\
  mx_rows (training_part training_rows m) = take (Z.to_nat training_rows) (mx_rows m).
Proof.
  unfold training_part, calibration_part, validation_part, slice_rows. cbn [mx_rows from_option]. rewrite !clip_nonneg by lia. set (l := mx_rows m).
  set (a := Nat.min (Z.to_nat training_rows) (length l)). set (b := Nat.min (Z.to_nat (training_rows + calibration_rows)) (length l)). assert (Hab : (a <= b <= length l)%nat) by lia. rewrite Nat.sub_0_r, drop_0. split.
  - rewrite (take_ge (drop b l)) by (rewrite length_drop; lia). rewrite <- (take_drop a l) at 4. f_equal. rewrite <- (take_drop (b - a) (drop a l)) at 2. f_equal. rewrite drop_drop. f_equal. lia.
  - unfold a. destruct (decide (Z.to_nat training_rows <= length l)%nat); [f_equal; lia|]. rewrite !take_ge by lia. done.
Qed.
End parts.

(** ** Blindness *)

Section blind.
Context (training_rows calibration_rows latent : Z).
Notation evaluate := (evaluate_rows training_rows calibration_rows latent).
Notation leave := (leave_out training_rows calibration_rows latent).

(** Two matrices with the same training and calibration rows. *)
Definition same_head (m m' : Matrix) : Prop :=
  training_part training_rows m = training_part training_rows m' /\ calibration_part training_rows calibration_rows m = calibration_part training_rows calibration_rows m'.
(** Dictionaries that agree on these rows of the families that satisfy [P]. *)
Definition agree (P : string -> Prop) (rows rows' : list (string * Matrix)) : Prop := Forall2 (fun a b => a.1 = b.1 /\ (P a.1 -> same_head a.2 b.2)) rows rows'.

Lemma agree_parts (P : string -> Prop) `{forall f, Decision (P f)} rows rows' : agree P rows rows' ->
  training_part training_rows <$> (filter (fun fm => P fm.1) rows).*2 = training_part training_rows <$> (filter (fun fm => P fm.1) rows').*2 /\
  calibration_part training_rows calibration_rows <$> (filter (fun fm => P fm.1) rows).*2 = calibration_part training_rows calibration_rows <$> (filter (fun fm => P fm.1) rows').*2.
Proof.
  induction 1 as [|a b rows rows' [Hk Hs] _ [IH1 IH2] ]; [done|]. rewrite !filter_cons, <- Hk. case_decide as HP; [|done]. destruct (Hs HP) as [H1 H2].
  cbn [fmap list_fmap]. rewrite H1, H2. by split; f_equal.
Qed.

(** The model and the threshold of a report. *)
Lemma evaluate_model stored within rows r : evaluate stored within rows = Ok r ->
  exists train calibration scores, cat (training_part training_rows <$> familiar rows) = Ok train /\ cat (calibration_part training_rows calibration_rows <$> familiar rows) = Ok calibration /\
    fit train SKETCH_CONFIG latent = Ok (tr_model r) /\ score (tr_model r) calibration = Ok scores /\ quantile scores = Ok (tr_threshold r) /\
    leave_one_family_out training_rows calibration_rows latent rows = Ok (tr_holdouts r) /\
    tr_decision r = (if within (max_of (fh_holdout <$> (tr_holdouts r).*2)) then "GO" else "NO-GO").
Proof.
  unfold evaluate_rows, _split_rows. intros He. inv_res He. destruct v as [ [train calibration] validation]. inv_res He. injection He as <-.
  match goal with Hs : (let! _ := _ in _) = Ok (train, _, _) |- _ => inv_res Hs; injection Hs as <- <- <- end. cbn [tr_model tr_threshold tr_holdouts tr_decision]. eexists _, _, _. done.
Qed.

(** The model and the threshold do not depend on validation rows or held-out families,
    nor, when a family is left out, on any of its rows. *)
Theorem triage_blind stored within stored' within' rows rows' r r' : agree (fun f => f ∉ HOLDOUT_FAMILIES) rows rows' ->
  evaluate stored within rows = Ok r -> evaluate stored' within' rows' = Ok r' -> tr_model r = tr_model r' /\ tr_threshold r = tr_threshold r'.
Proof.
  intros Ha (t1 & c1 & s1 & Ht1 & Hc1 & Hm1 & Hs1 & Hq1 & _)%evaluate_model (t2 & c2 & s2 & Ht2 & Hc2 & Hm2 & Hs2 & Hq2 & _)%evaluate_model.
  destruct (agree_parts _ _ _ Ha) as [Hp1 Hp2]. unfold familiar in *. assert (Htr : t1 = t2) by congruence. subst t2. assert (Hca : c1 = c2) by congruence. subst c2.
  assert (Hm : tr_model r = tr_model r') by congruence. split; [done|]. rewrite Hm in Hs1. congruence.
Qed.
Theorem left_out_blind heldout m m' rows rows' x x' : agree (fun f => f <> heldout) rows rows' ->
  leave rows (heldout, m) = Ok x -> leave rows' (heldout, m') = Ok x' -> fh_model x.2 = fh_model x'.2 /\ fh_threshold x.2 = fh_threshold x'.2.
Proof.
  intros Ha H1 H2. destruct (agree_parts _ _ _ Ha) as [Hp1 Hp2]. unfold leave_out in *. cbn [fst snd] in *. rewrite Hp1, Hp2 in H1. inv_res H1. inv_res H2. injection H1 as <-. injection H2 as <-.
  cbn [snd fh_model fh_threshold]. split; congruence.
Qed.
End blind.

(** ** A run *)

Lemma stacked_rows (l : list (string * list (list float))) rows family m :
  Forall2 (fun a b => (let! m := stack a.2 in Ok (a.1, m)) = Ok b) l rows -> (family, m) ∈ rows -> exists vs, (family, vs) ∈ l /\ mx_rows m = vs.
Proof.
  intros Hf [i Hi]%list_elem_of_lookup. destruct (Forall2_lookup_r _ _ _ _ _ Hf Hi) as ([f vs] & Hl & Hm). inv_res Hm. injection Hm as <- <-. exists vs. split; [by eapply list_elem_of_lookup_2|].
  unfold stack in Hv. cbn [snd] in Hv. destruct vs as [|r vs]; [done|]. inv_res Hv. by injection Hv as <-.
Qed.
Lemma sketched_rows family (targets : nat -> Target) traces rows : Forall2 (fun trace row => sketch_of trace = Ok row) traces rows -> Forall (fun trace => exists n, clean family (targets n) trace) traces ->
  Forall (fun row => exists trace n, clean family (targets n) trace /\ sketch_of trace = Ok row) rows.
Proof. induction 1 as [|trace row traces rows Hs _ IH]; [constructor|]. intros [ [n Hn] Hall]%Forall_cons. constructor; [by exists trace, n|by apply IH]. Qed.

(** A triage report rests on what was captured, and its model has seen nothing of
    what it is judged on. Every family has exactly [repetitions] rows, each the sketch
    of a nonempty trace of a target that was released at its gate and ended cleanly;
    the training, calibration and validation rows of a family are its rows in order;
    the model is fitted to the training rows of the familiar families and the
    threshold is the quantile of its scores on their calibration rows; every family
    is left out once, by a model fitted without it; and the decision is GO exactly
    if the worst of these rates is within the limit. *)
Theorem triage_run_sound {G} `{RandomLaws G} linux binary reviews seed repetitions training_rows calibration_rows latent targets stored within corpus report :
  0 <= training_rows -> 0 <= calibration_rows ->
  run_triage linux binary reviews seed repetitions training_rows calibration_rows latent targets stored within = Ok (corpus, report) ->
  exists rows, rows.*1 = TRIAGE_LOOPS.*1 /\
    (forall family m, (family, m) ∈ rows -> Z.of_nat (length (mx_rows m)) = repetitions /\
       Forall (fun row => exists trace n, clean family (targets n) trace /\ sketch_of trace = Ok row) (mx_rows m) /\
       mx_rows (training_part training_rows m) ++ mx_rows (calibration_part training_rows calibration_rows m) ++ mx_rows (validation_part training_rows calibration_rows m) = mx_rows m) /\
    (exists train calibration scores, cat (training_part training_rows <$> familiar rows) = Ok train /\ cat (calibration_part training_rows calibration_rows <$> familiar rows) = Ok calibration /\
       fit train SKETCH_CONFIG latent = Ok (tr_model report) /\ score (tr_model report) calibration = Ok scores /\ quantile scores = Ok (tr_threshold report)) /\
    Forall2 (fun fm x => leave_out training_rows calibration_rows latent rows fm = Ok x) rows (tr_holdouts report) /\
    tr_decision report = (if within (max_of (fh_holdout <$> (tr_holdouts report).*2)) then "GO" else "NO-GO").
Proof.
  intros Ht Hc Hr. unfold run_triage in Hr. inv_res Hr. injection Hr as <- <-. bool_prop.
  match goal with Hx : collect_all _ _ = Ok ?st |- _ => apply collect_all_ok in Hx as [ [Hkf _] Hrows]; rename st into st end.
  match goal with Hx : rmap _ (cl_features _) = Ok ?l |- _ => apply rmap_Ok in Hx as Hst; rename l into rows; exists rows end.
  match goal with Hx : evaluate_rows _ _ _ _ _ _ = Ok _ |- _ => apply evaluate_model in Hx as (train & calibration & scores & H1 & H2 & H3 & H4 & H5 & H6 & H7) end.
  split_and!; [| |by eauto 10|by apply rmap_Ok in H6|done].
  - rewrite <- Hkf. clear -Hst. induction Hst as [|fv m l rows Hm _ IH]; [done|]. inv_res Hm. injection Hm as <-. cbn [fmap list_fmap]. by f_equal.
  - intros family m Hin. destruct (stacked_rows _ _ _ _ Hst Hin) as (vs & Hvs & Hm). rewrite Hm.
    assert (Hfam : family ∈ TRIAGE_LOOPS.*1) by (rewrite <- Hkf; by apply (list_elem_of_fmap_2 fst _ _ Hvs)).
    destruct (Hrows family Hfam) as (rs & traces & Hgr & _ & Hsk & Hcl & Hlen). rewrite (od_elem_get family vs) in Hgr; [|rewrite Hkf; apply (bool_decide_eq_true_1 _); vm_compute; reflexivity|done].
    injection Hgr as <-. split; [|split; [by eapply sketched_rows|rewrite <- Hm; by apply parts_partition] ]. rewrite Hlen, (shuffle_perm _ _), order_counts by done. lia.
Qed.
End bench.
