(* ===== verification/CaptureQualify.v ===== *)
(** * Qualifying a multimodal capture ([examples/hardware_multimodal_capture.py])

    A gated target runs in shuffled order without instrumentation and under three
    combinations of perf sources; the host qualifies only if the target's output
    never changes and every requested source kept its contract. What a target and
    its capture give are arguments. *)

From stdpp Require Import sorting.
From Stdlib Require Import Ascii.
From S2P Require Import Prelude Batch HardwareDecode HardwareConfig HardwareMultimodal ExperimentPlan ExperimentCapture.

Definition ARMS : list (string * option (list string)) :=
  [("baseline", None); ("pmu", Some ["counters"]); ("pt_pmu", Some ["intel_pt"; "counters"]); ("pt_pebs_pmu", Some ["intel_pt"; "memory_loads"; "counters"])].

(** A target: starting it, its first line and process; its elapsed time, output and standard
    error, and the batches [stop] returns; its code. *)
Record QTarget := MkQTarget {
  qt_popen : result unit;
  qt_line : list Z;
  qt_pid : Z;
  qt_run : result (Z * list Z * list Z * list HardwareMultimodalBatch);
  qt_returncode : Z;
}.

Record QRow := MkQRow {
  qr_arm : string;
  qr_elapsed : Z;
  qr_output : string;
  qr_tid : Z;
  qr_cpu : Z;
  qr_pt_bytes : nat;
  qr_pebs_samples : nat;
  qr_pebs_time : option (Z * Z);
  qr_pebs_cpus : list Z;
  qr_pebs_tids : list Z;
  qr_pebs_exact : bool;
  qr_pebs_nonzero : nat;
  qr_pebs_times : Z * Z;
  qr_pmu : list (string * Z);
  qr_pmu_times : Z * Z;
  qr_arm_skew : Z;
  qr_stop_skew : Z;
  qr_status : list HardwareSourceStatus;
  qr_envelope : option HardwareCaptureEnvelope;
}.
(** The row before a batch is looked at. *)
Definition plain_row (arm : string) (elapsed : Z) (text : string) (pid cpu : Z) : QRow :=
  MkQRow arm elapsed text pid cpu 0 0 None [] [] false 0 (0, 0) [] (0, 0) 0 0 [] None.

(** [sorted(set(values))], [min] and [max] *)
Definition sorted_set (l : list Z) : list Z := merge_sort Z.le (remove_dups l).
Definition least (l : list Z) : Z := match l with [] => 0 | z :: l => foldr Z.min z l end.
Definition greatest (l : list Z) : Z := match l with [] => 0 | z :: l => foldr Z.max z l end.

Definition batch_row (r : QRow) (b : HardwareMultimodalBatch) : result QRow :=
  raise! RuntimeError "perf returned an unexpected task-following source identity" when negb (mb_tid b =? qr_tid r) || negb (mb_cpu b =? -1) in
  let samples := from_option (fun p => numel (hb_ip p)) 0%nat (mb_pebs b) in
  let pebs := match mb_pebs b with Some p => if (numel (hb_ip p) =? 0)%nat then None else Some p | None => None end in
  match list_find (fun s => st_signal s = "memory_loads") (mb_status b) with
  | None => throw Exception_ "StopIteration"
  | Some (_, s) =>
      Ok (MkQRow (qr_arm r) (qr_elapsed r) (qr_output r) (qr_tid r) (qr_cpu r)
        (from_option (fun p => numel (hb_trace_bytes p)) 0%nat (mb_pt b)) samples
        ((fun p => (least (t_data (hb_time p)), greatest (t_data (hb_time p)))) <$> pebs)
        (from_option (fun p => sorted_set (t_data (hb_cpu p))) [] pebs) (from_option (fun p => sorted_set (t_data (hb_tid p))) [] pebs)
        (from_option (fun p => forallb (fun z => negb (z =? 0)) (t_data (hb_exact_ip p))) false pebs)
        (from_option (fun p => length (filter (fun z => z <> 0) (t_data (hb_address p)))) 0%nat pebs)
        (default 0 (st_time_enabled_ns s), default 0 (st_time_running_ns s))
        (from_option (fun k => zip (cb_names k) (t_data (cb_values k))) [] (mb_counters b))
        (from_option (fun k => (cb_time_enabled_ns k, cb_time_running_ns k)) (0, 0) (mb_counters b))
        (en_arm_after_ns (mb_envelope b) - en_arm_before_ns (mb_envelope b)) (en_stop_after_ns (mb_envelope b) - en_stop_before_ns (mb_envelope b))
        (mb_status b) (Some (mb_envelope b)))
  end.

(** [output.decode("ascii").strip()] *)
Definition decoded (bytes : list Z) : result string :=
  raise! ValueError "'ascii' codec can't decode byte" when existsb (fun b => 128 <=? b) bytes in
  Ok (strip (String.string_of_list_ascii ((fun b => ascii_of_nat (Z.to_nat b)) <$> bytes))).

(** [_run_target]: the row, and whether the process was killed and reaped by hand. *)
Definition run_target (cpu : Z) (t : QTarget) (arm : string) : bool * result QRow :=
  match qt_popen t with
  | Raise e => (false, Raise e)
  | Ok _ =>
      if negb (bool_decide (qt_line t = READY)) then (true, throw RuntimeError "target did not reach READY") else
      match od_get arm ARMS, qt_run t with
      | None, _ => (false, throw KeyError arm)
      | Some _, Raise e => (true, Raise e)
      | Some modalities, Ok (elapsed, output, error, captured) =>
          let batches := if is_some modalities then captured else [] in
          (false,
           raise! RuntimeError "target failed" when negb (qt_returncode t =? 0) || match error with [] => false | _ => true end || (1 <? length batches)%nat in
           let! text := decoded output in
           let row := plain_row arm elapsed text (qt_pid t) cpu in
           match batches with b :: _ => batch_row row b | [] => Ok row end)
      end
  end.

(** ** The checks of [run] *)

Definition escaped (cpu : Z) (r : QRow) : bool :=
  negb (bool_decide (qr_pebs_cpus r = [cpu])) || negb (bool_decide (qr_pebs_tids r = [qr_tid r])) ||
  match qr_pebs_time r, qr_envelope r with
  | Some (lo, hi), Some e => (lo <? en_arm_before_ns e) || (en_stop_after_ns e <? hi)
  | _, _ => false
  end.

Definition check_sources (r : QRow) : result unit :=
  if bool_decide (qr_arm r = "baseline") then Ok tt else
  let statuses := filter (fun s => st_requested s = true) (qr_status r) in
  raise! RuntimeError "a requested hardware source was unavailable or lost"
    when match statuses with [] => true | _ => false end || existsb (fun s => negb (st_available s) || st_lost s) statuses in
  raise! RuntimeError "PEBS precision, address, or scheduling contract failed"
    when negb (qr_pebs_samples r =? 0)%nat &&
         (negb (qr_pebs_exact r) || negb (qr_pebs_nonzero r =? qr_pebs_samples r)%nat || negb ((qr_pebs_times r).1 =? (qr_pebs_times r).2) || ((qr_pebs_times r).2 =? 0)) in
  raise! RuntimeError "PMU group was multiplexed"
    when negb (length (qr_pmu r) =? 0)%nat && negb ((qr_pmu_times r).1 =? (qr_pmu_times r).2) in
  Ok tt.

Record Qualification := MkQualification { qu_schedule : list string; qu_rows : list QRow; qu_output : string; qu_elapsed : list (string * list Z); qu_arm_skew : Z; qu_stop_skew : Z }.

(** [available] is [os.cpu_count()]; [targets n] what run number [n] meets. *)
Definition run_qualify {G} `{RandomOps G} (binary : bool) (available : option Z) (cpu seed runs : Z) (targets : nat -> QTarget) : result Qualification :=
  raise! RuntimeError "target is not a file" when negb binary in
  raise! RuntimeError "CPU is not an online logical CPU" when match available with None => true | Some n => (cpu <? 0) || (n <=? cpu) end in
  let schedule := (shuffle (concat (replicate (Z.to_nat runs) ARMS.*1)) (Random seed)).1 in
  let! rows := rmap (fun at_ => (run_target cpu (targets at_.1) at_.2).2) (zip (seq 0 (length schedule)) schedule) in
  match remove_dups (qr_output <$> rows) with
  | [output] =>
      let tri_modal := filter (fun r => qr_arm r = "pt_pebs_pmu") rows in
      raise! RuntimeError "a tri-modal arm did not produce both PT bytes and PEBS samples"
        when existsb (fun r => (qr_pt_bytes r =? 0)%nat || (qr_pebs_samples r =? 0)%nat) tri_modal in
      raise! RuntimeError "PEBS samples escaped their declared CPU, task, or time envelope" when existsb (escaped cpu) tri_modal in
      let! _ := rmap check_sources rows in
      Ok (MkQualification schedule rows output ((fun a => (a, qr_elapsed <$> filter (fun r => qr_arm r = a) rows)) <$> ARMS.*1)
        (greatest (qr_arm_skew <$> rows)) (greatest (qr_stop_skew <$> rows)))
  | _ => throw RuntimeError "instrumentation changed the target's exact output"
  end.

(** ** What a qualification means *)

Lemma sorted_set_single l c : sorted_set l = [c] -> Forall (fun z => z = c) l.
Proof.
  intros Hs. apply Forall_forall. intros z Hz. assert (Hin : z ∈ sorted_set l) by (unfold sorted_set; rewrite merge_sort_Permutation; by apply elem_of_remove_dups).
  rewrite Hs in Hin. by apply list_elem_of_singleton in Hin.
Qed.
Lemma least_greatest l : Forall (fun z => least l <= z <= greatest l) l.
Proof.
  destruct l as [|z l]; [constructor|]. cbn [least greatest].
  assert (Hl : foldr Z.min z l <= z /\ z <= foldr Z.max z l /\ Forall (fun x => foldr Z.min z l <= x <= foldr Z.max z l) l).
  { induction l as [|x l (IH1 & IH2 & IH3)]; [split_and!; [simpl; lia|simpl; lia|constructor]|]. cbn [foldr]. split_and!; [lia|lia|]. constructor; [lia|].
    eapply Forall_impl; [exact IH3|]. simpl. lia. }
  destruct Hl as (H1 & H2 & H3). constructor; [lia|done].
Qed.

Lemma existsb_none {A} (f : A -> bool) l a : existsb f l = false -> a ∈ l -> f a = false.
Proof. intros He Hin. destruct (f a) eqn:Hf; [|done]. exfalso. apply not_true_iff_false in He. apply He, existsb_exists. exists a. split; [by apply list_elem_of_In|done]. Qed.

(** The batch of a qualified instrumented run. *)
Record batch_good (cpu : Z) (t : QTarget) (arm : string) (b : HardwareMultimodalBatch) : Prop := {
  bg_task : mb_tid b = qt_pid t /\ mb_cpu b = -1;
  bg_requested : exists s, s ∈ mb_status b /\ st_requested s = true;
  bg_sources : forall s, s ∈ mb_status b -> st_requested s = true -> st_available s = true /\ st_lost s = false;
  bg_exact : forall p, mb_pebs b = Some p -> (0 < numel (hb_ip p))%nat ->
    Forall (fun z => z <> 0) (t_data (hb_exact_ip p)) /\ length (filter (fun z => z <> 0) (t_data (hb_address p))) = numel (hb_ip p);
  bg_counters : forall k, mb_counters b = Some k -> zip (cb_names k) (t_data (cb_values k)) <> [] -> cb_time_enabled_ns k = cb_time_running_ns k;
  bg_tri_modal : arm = "pt_pebs_pmu" -> exists pt p, mb_pt b = Some pt /\ (0 < numel (hb_trace_bytes pt))%nat /\ mb_pebs b = Some p /\ (0 < numel (hb_ip p))%nat /\
    Forall (fun z => z = cpu) (t_data (hb_cpu p)) /\ Forall (fun z => z = qt_pid t) (t_data (hb_tid p)) /\
    Forall (fun z => en_arm_before_ns (mb_envelope b) <= z <= en_stop_after_ns (mb_envelope b)) (t_data (hb_time p));
}.
(** The origin of a row: a target that was released at its gate and ended cleanly. *)
Definition row_from (cpu : Z) (t : QTarget) (arm : string) (r : QRow) : Prop :=
  qr_arm r = arm /\ qt_line t = READY /\ qt_returncode t = 0 /\ exists elapsed output captured, qt_run t = Ok (elapsed, output, [], captured) /\ decoded output = Ok (qr_output r) /\
    (od_get arm ARMS = Some None /\ r = plain_row arm elapsed (qr_output r) (qt_pid t) cpu \/
     (exists m, od_get arm ARMS = Some (Some m)) /\ (captured = [] /\ r = plain_row arm elapsed (qr_output r) (qt_pid t) cpu \/
       exists b, captured = [b] /\ batch_row (plain_row arm elapsed (qr_output r) (qt_pid t) cpu) b = Ok r)).

Lemma run_target_ok cpu t arm r : (run_target cpu t arm).2 = Ok r -> row_from cpu t arm r.
Proof.
  unfold run_target, row_from. destruct (qt_popen t); [|done]. destruct (bool_decide_reflect (qt_line t = READY)) as [Hl|]; [|done]. cbn [negb].
  destruct (od_get arm ARMS) as [m|] eqn:Harm; [|by destruct (qt_run t)]. destruct (qt_run t) as [ [ [ [elapsed output] error] captured]|e] eqn:Hrun; [|done]. cbn [snd]. intros Hr. inv_res Hr. rename v into text. bool_prop.
  destruct error; [|done]. destruct m as [m|]; cbn [is_some] in *.
  - destruct captured as [|b [|b' captured] ]; [| |exfalso; cbn [length] in *; lia].
    + injection Hr as <-. split_and!; try done. exists elapsed, output, []. split_and!; try done. right. split; [by exists m|]. by left.
    + assert (Harm' : qr_arm r = arm /\ qr_output r = text) by (unfold batch_row in Hr; inv_res Hr; destruct (list_find _ _) as [ [? ?]|]; [by injection Hr as <-|done]).
      destruct Harm' as [Ha Ho]. split_and!; try done. exists elapsed, output, [b]. rewrite Ho. split_and!; try done. right. split; [by exists m|]. right. by exists b.
  - injection Hr as <-. split_and!; try done. exists elapsed, output, captured. split_and!; try done. by left.
Qed.

(** The checks of one row, together. *)
Definition row_checked (cpu : Z) (r : QRow) : Prop :=
  check_sources r = Ok tt /\ (qr_arm r = "pt_pebs_pmu" -> qr_pt_bytes r <> 0%nat /\ qr_pebs_samples r <> 0%nat /\ escaped cpu r = false).

Lemma sources_ok cpu t arm r b elapsed text : arm <> "baseline" -> batch_row (plain_row arm elapsed text (qt_pid t) cpu) b = Ok r ->
  row_checked cpu r -> batch_good cpu t arm b.
Proof.
  intros Hnb Hb [Hs Ht]. unfold batch_row in Hb. inv_res Hb. destruct (list_find _ _) as [ [? s]|]; [|done]. injection Hb as <-. unfold check_sources in Hs.
  cbn [qr_arm qr_tid qr_cpu qr_pt_bytes qr_pebs_samples qr_pebs_time qr_pebs_cpus qr_pebs_tids qr_pebs_exact qr_pebs_nonzero qr_pebs_times qr_pmu qr_pmu_times qr_status qr_envelope plain_row] in *.
  rewrite bool_decide_eq_false_2 in Hs by done. inv_res Hs. bool_prop. unfold escaped in Ht.
  cbn [qr_tid qr_pebs_time qr_pebs_cpus qr_pebs_tids qr_envelope] in Ht. split.
  - done.
  - destruct (filter _ (mb_status b)) as [|x l] eqn:Hf; [done|]. exists x.
    assert (Hx : x ∈ filter (fun s => st_requested s = true) (mb_status b)) by (rewrite Hf; by left). apply list_elem_of_filter in Hx as [? ?]. done.
  - intros x Hin Hreq. match goal with He : existsb _ _ = false |- _ => rename He into Hex end.
    apply (existsb_none _ _ x) in Hex; [apply orb_false_iff in Hex as [?%negb_false_iff ?]; done|]. by apply list_elem_of_filter.
  - intros p Hp Hn. rewrite Hp in *. cbn [from_option] in *. rewrite (proj2 (Nat.eqb_neq (numel (hb_ip p)) 0)) in * by lia. cbn [negb andb from_option] in *. bool_prop. split; [|done].
    match goal with Hfa : forallb _ _ = true |- _ => rewrite forallb_forall in Hfa; rename Hfa into Hall end. apply Forall_forall. intros z Hz. apply list_elem_of_In, Hall in Hz. bool_prop. done.
  - intros k Hk Hz. rewrite Hk in *. cbn [from_option fst snd] in *. destruct (zip (cb_names k) (t_data (cb_values k))); [done|]. cbn [length Nat.eqb negb andb] in *. by bool_prop.
  - intros ->. destruct (Ht eq_refl) as (Hpt & Hsam & He). destruct (mb_pt b) as [pt|]; [|done]. destruct (mb_pebs b) as [p|]; [|done]. cbn [from_option] in *.
    rewrite (proj2 (Nat.eqb_neq (numel (hb_ip p)) 0)) in * by done. cbn [from_option fmap option_fmap option_map] in He. bool_prop. exists pt, p.
    split_and!; [done|lia|done|lia|by apply sorted_set_single|by apply sorted_set_single|]. eapply Forall_impl; [apply least_greatest|]. simpl. lia.
Qed.

Lemma arm_not_baseline arm m : od_get arm ARMS = Some (Some m) -> arm <> "baseline".
Proof. by intros Hm ->. Qed.
Lemma plain_unchecked cpu arm elapsed text pid : arm <> "baseline" -> check_sources (plain_row arm elapsed text pid cpu) <> Ok tt.
Proof. intros Hn. unfold check_sources. cbn [qr_arm plain_row]. by rewrite bool_decide_eq_false_2. Qed.

(** A row of a qualification: clean, and instrumented as its arm demands. *)
Definition row_qualified (cpu : Z) (t : QTarget) (arm output : string) (r : QRow) : Prop :=
  qr_arm r = arm /\ qt_line t = READY /\ qt_returncode t = 0 /\ exists elapsed bytes captured, qt_run t = Ok (elapsed, bytes, [], captured) /\ decoded bytes = Ok output /\
    (arm <> "baseline" -> exists b, captured = [b] /\ batch_good cpu t arm b).

Lemma row_from_qualified cpu t arm r : row_from cpu t arm r -> row_checked cpu r -> row_qualified cpu t arm (qr_output r) r.
Proof.
  intros (Ha & Hl & Hc & elapsed & bytes & captured & Hr & Hd & Hcase) Hk. split_and!; try done. exists elapsed, bytes, captured. split_and!; try done. intros Hnb.
  destruct Hcase as [ [Hm _]|[_ [ [_ Hp]|(b & -> & Hb)] ] ].
  - exfalso. apply Hnb. unfold ARMS in Hm. cbn in Hm. repeat case_decide; congruence.
  - exfalso. destruct Hk as [Hk _]. rewrite Hp in Hk. by apply plain_unchecked in Hk.
  - exists b. split; [done|]. by eapply sources_ok.
Qed.

Lemma arms_count n arm : arm ∈ ARMS.*1 -> length (filter (fun a => a = arm) (concat (replicate n ARMS.*1))) = n.
Proof.
  intros Hin. induction n as [|n IH]; [done|]. cbn [replicate concat]. rewrite filter_app, length_app, IH.
  enough (length (filter (fun a => a = arm) ARMS.*1) = 1%nat) by lia. clear IH. cbn in Hin. repeat (apply elem_of_cons in Hin as [->|Hin]; [vm_compute; reflexivity|]). by apply elem_of_nil in Hin.
Qed.

(** The arms of the rows are those of the schedule. *)
Lemma rows_arms cpu targets (l : list (nat * string)) rows :
  Forall2 (fun at_ r => row_from cpu (targets at_.1) at_.2 r) l rows -> qr_arm <$> rows = l.*2.
Proof. induction 1 as [|at_ r l rows [Ha _] _ IH]; [done|]. cbn [fmap list_fmap]. by f_equal. Qed.

(** A host that qualifies has shown what the report claims. Every arm ran exactly
    [runs] times, in an order that is a permutation of all of them; every target was
    released at its gate, ended with code zero, wrote nothing to standard error and
    printed the one reported output, instrumented or not; every instrumented run gave
    one batch, of the target's own task, in which each requested source was available
    and nothing was lost, loads are exact and have addresses, and counters were never
    multiplexed; and every run of all three sources has trace bytes and samples, all
    of the declared CPU, task and time. *)
Theorem qualification_honest {G} `{RandomLaws G} binary available cpu seed runs targets q : run_qualify binary available cpu seed runs targets = Ok q ->
  qu_schedule q ≡ₚ concat (replicate (Z.to_nat runs) ARMS.*1) /\
  (forall arm, arm ∈ ARMS.*1 -> length (filter (fun r => qr_arm r = arm) (qu_rows q)) = Z.to_nat runs) /\
  Forall2 (fun at_ r => row_qualified cpu (targets at_.1) at_.2 (qu_output q) r) (zip (seq 0 (length (qu_schedule q))) (qu_schedule q)) (qu_rows q).
Proof.
  unfold run_qualify. intros Hq. inv_res Hq. rename v into rows. set (schedule := (shuffle _ _).1) in *. match goal with Hx : rmap _ _ = Ok rows |- _ => apply rmap_Ok in Hx; rename Hx into Hrows end.
  destruct (remove_dups (qr_output <$> rows)) as [|output [|] ] eqn:Hout; try done. inv_res Hq. injection Hq as <-. cbn [qu_schedule qu_rows qu_output].
  assert (Hfrom : Forall2 (fun at_ r => row_from cpu (targets at_.1) at_.2 r) (zip (seq 0 (length schedule)) schedule) rows) by (eapply Forall2_impl; [exact Hrows|]; intros at_ r; apply run_target_ok).
  assert (Harms : qr_arm <$> rows = schedule) by (rewrite (rows_arms _ _ _ _ Hfrom); apply snd_zip; rewrite length_seq; lia).
  split; [apply shuffle_perm|]. split.
  - intros arm Harm. etransitivity; [|exact (arms_count (Z.to_nat runs) arm Harm)]. rewrite <- (shuffle_perm (concat (replicate (Z.to_nat runs) ARMS.*1)) (Random seed)). fold schedule. rewrite <- Harms.
    clear. induction rows as [|r rows IH]; [done|]. cbn [fmap list_fmap]. rewrite !filter_cons. case_decide; cbn [length]; by rewrite IH.
  - match goal with Hc : rmap check_sources rows = Ok _ |- _ => apply rmap_Ok in Hc; rename Hc into Hchk end.
    apply Forall2_same_length_lookup_2; [by eapply Forall2_length|]. intros i at_ r Hi Hr. pose proof (Forall2_lookup_lr _ _ _ _ _ _ Hfrom Hi Hr) as Hf.
    assert (Ho : qr_output r = output).
    { assert (Hin : qr_output r ∈ remove_dups (qr_output <$> rows)) by (apply elem_of_remove_dups, list_elem_of_fmap_2; by eapply list_elem_of_lookup_2). rewrite Hout in Hin. by apply list_elem_of_singleton in Hin. }
    rewrite <- Ho. apply row_from_qualified; [done|]. split.
    + destruct (Forall2_lookup_l _ _ _ _ _ Hchk Hr) as ([] & _ & Hc). done.
    + intros Htri. assert (Hin : r ∈ filter (fun r => qr_arm r = "pt_pebs_pmu") rows) by (apply list_elem_of_filter; split; [done|by eapply list_elem_of_lookup_2]).
      repeat match goal with He : existsb ?f _ = false |- _ => pose proof (existsb_none _ _ _ He Hin); clear He end. cbv beta in *. bool_prop. by split_and!.
Qed.

(** ** Witness *)

Module QualifyWitness.
Definition one64 (z : Z) : tensor := Tensor int64 cpu [1%nat] [z].
Definition example_hardware (signal : string) : HardwareBatch :=
  MkHardwareBatch 0 signal (one64 4096) (one64 7) (one64 7) (one64 50) (one64 2) (one64 1) (one64 32768) (one64 1) (one64 1) (one64 1) (Tensor uint8 cpu [2%nat] [1; 2]).
Definition example_multimodal : HardwareMultimodalBatch :=
  MkMultimodalBatch 0 7 (-1) (MkEnvelope "monotonic_raw" 10 20 90 100)
    ((fun s => MkStatus s true true false (Some 5) (Some 5)) <$> ["intel_pt"; "memory_loads"; "counters"])
    (Some (example_hardware "intel_pt")) (Some (example_hardware "memory_loads")) (Some (MkHardwareCounterBatch 0 7 (-1) ["cycles"] (one64 9) 5 5 true false)).
Definition example_qtarget (n : nat) : QTarget := MkQTarget (Ok tt) READY 7 (Ok (1000, [111; 107; 10], [], [example_multimodal])) 0.
#[local] Existing Instance reversing.
#[local] Existing Instance reversing_laws.
Definition example_qualification : result Qualification := run_qualify (G := Z) true (Some 4) 2 0 2 example_qtarget.

Lemma qualification_honest_witness : exists q, example_qualification = Ok q /\ qu_output q = "ok" /\ length (filter (fun r => qr_arm r = "pt_pebs_pmu") (qu_rows q)) = 2%nat.
Proof.
  destruct example_qualification as [q|e] eqn:Hq; [|vm_compute in Hq; discriminate Hq]. exists q. split; [reflexivity|].
  split; [vm_compute in Hq; injection Hq as <-; reflexivity|].
  destruct (qualification_honest (G := Z) true (Some 4) 2 0 2 example_qtarget q Hq) as (_ & Hc & _). apply (Hc "pt_pebs_pmu"). cbn. set_solver.
Defined.
End QualifyWitness.
