(* ===== verification/ExperimentCustody.v ===== *)
(** * Custody of a corpus ([examples/hardware_multimodal_experiment.py]: [collect], [load_dataset], [_partition])

    Every admitted execution is sealed as a raw and a derived file, each written
    beside its place and moved there whole, before the next one is captured; the
    manifest, with the hash of every file and of its own content, comes last. Loading
    refuses what the manifest does not vouch for. Hashing and [torch.save] are
    arguments; times and the summaries the manifest repeats are left out. *)

From S2P Require Import Prelude Monad Batch HardwareDecode HardwareConfig HardwareHost HardwareMultimodal Floats ModelBatch Features ExperimentCapture ExperimentPlan ExperimentAdmission ExperimentCollect.

Definition SCHEMA : string := "cpu2tensor-kernel-multimodal-experiment-v1".
Definition RAW_SCHEMA : string := "cpu2tensor-kernel-multimodal-raw-v1".
Definition DERIVED_SCHEMA : string := "cpu2tensor-kernel-multimodal-derived-v1".

#[global] Instance PlannedExecution_eq_dec : EqDecision PlannedExecution.
Proof. solve_decision. Defined.

(** The paths of an artifact's files: [raw/<id>.pt] and [derived/<id>.pt]. *)
Inductive sealed_path := RawPath (id : string) | DerivedPath (id : string).
#[global] Instance sealed_path_eq_dec : EqDecision sealed_path.
Proof. solve_decision. Defined.

Record Event := MkEvent { ev_scope : string; ev_period : Z; ev_modalities : list string; ev_representation : string }.
Definition frozen_event : Event := MkEvent "process_kernel" 10000 ["intel_pt"; "memory_loads"; "counters"] "raw_aux_bytes_no_decode".
#[global] Instance Event_eq_dec : EqDecision Event.
Proof. solve_decision. Defined.

Record RawPayload := MkRaw { rp_schema : string; rp_execution : PlannedExecution; rp_loops : Z; rp_stdout : list Z; rp_elapsed : Z; rp_batches : list HardwareMultimodalBatch }.

Section custody.
(** What a file holds, and what is left of it when writing fails after so many bytes. *)
Context {Bytes : Type} (torn : nat -> Bytes -> Bytes).
(** Digests; [_sha256] of a file. *)
Context {D : Type} `{EqDecision D} (sha256 : Bytes -> D).
Record DerivedPayload := MkDerived { dp_schema : string; dp_execution : PlannedExecution; dp_raw_sha256 : D; dp_batch : ModelBatch; dp_lanes : list HardwareLaneReport }.
Record Entry := MkEntry {
  et_execution : PlannedExecution;
  et_loops : Z;
  et_raw_path : sealed_path;
  et_raw_sha256 : D;
  et_derived_path : sealed_path;
  et_derived_sha256 : D;
  et_stdout : list Z;
  et_elapsed : Z;
}.
Record Manifest := MkManifest { mn_schema : string; mn_event : Event; mn_families : list string; mn_heldout : list string; mn_entries : list Entry; mn_content_sha256 : option D }.

(** What [torch.save] writes, what [torch.load] reads, and the hash of a manifest's canonical JSON. *)
Context (save_raw : RawPayload -> Bytes) (save_derived : DerivedPayload -> Bytes) (torch_load : Bytes -> result DerivedPayload) (json_hash : Manifest -> D).
Context (torch_roundtrip : forall p, torch_load (save_derived p) = Ok p).

(** The files; a path with [true] is the [.partial] file beside it. *)
Record Artifact := MkArtifact { af_files : list ((sealed_path * bool) * Bytes); af_manifest : option Manifest }.
Notation A := (sx Artifact exn).

Definition put_files (f : list ((sealed_path * bool) * Bytes)) (a : Artifact) : Artifact := MkArtifact f (af_manifest a).

(** [_atomic_torch_save]; [crash] is how many bytes are written before a failure, if there is one. *)
Definition _atomic_torch_save (crash : option nat) (path : sealed_path) (content : Bytes) : A D := fun a =>
  match crash with
  | Some k => (put_files (od_set (path, true) (torn k content) (af_files a)) a, throw OSError "No space left on device")
  | None => (put_files (od_set (path, false) content (od_del (path, true) (od_set (path, true) content (af_files a)))) a, Ok (sha256 content))
  end.

Definition raw_capture_payload (c : collected) : RawPayload :=
  let x := ad_captured (co_admitted c) in
  MkRaw RAW_SCHEMA (co_execution c) (co_loops c) (cx_output x) (cx_elapsed_ns x) (cx_batches x).
Definition _model_payload (m : ModelBatch) : result ModelBatch :=
  raise! ValueError "one derived shard must contain exactly one execution" when negb (batch_size m =? 1)%nat in Ok m.

(** [crashes n] is the failure of the artifact's write number [n]. *)
Definition seal_entry (crashes : nat -> option nat) (n : nat) (c : collected) : A Entry :=
  let id := pe_execution_id (co_execution c) in
  let x := co_admitted c in
  do! raw_hash := _atomic_torch_save (crashes (2 * n)%nat) (RawPath id) (save_raw (raw_capture_payload c)) in
  do! batch := slift (_model_payload (ad_batch x)) in
  do! derived_hash := _atomic_torch_save (crashes (2 * n + 1)%nat) (DerivedPath id)
                        (save_derived (MkDerived DERIVED_SCHEMA (co_execution c) raw_hash batch (ad_lanes x))) in
  sret (MkEntry (co_execution c) (co_loops c) (RawPath id) raw_hash (DerivedPath id) derived_hash (cx_output (ad_captured x)) (cx_elapsed_ns (ad_captured x))).

(** ** [collect] *)

Record campaign := MkCampaign { cg_books : books; cg_artifact : Artifact }.
Notation C := (sx campaign capture_exn).
Definition on_books {X} (m : sx books capture_exn X) : C X := szoom cg_books (fun b s => MkCampaign b (cg_artifact s)) m.
Definition on_artifact {X} (m : A X) : C X := szoom cg_artifact (fun a s => MkCampaign (cg_books s) a) (serr Plain m).
Definition set_manifest (m : Manifest) (a : Artifact) : Artifact := MkArtifact (af_files a) (Some m).

Section collect.
Context (log1p : float -> float) (pow : float -> Z -> float) (sum : list float -> float).
Context (target_cpu data_pages aux_pages loop_scale : Z) (capture_retries : nat).
Context (attempts : nat -> machine * child).
(** [crashes n] is the failure of the artifact's write number [n], if it fails. *)
Context (crashes : nat -> option nat).
Notation attempt_loop := (attempt_loop log1p pow sum target_cpu data_pages aux_pages capture_retries attempts).

(** One execution of the plan: capture, seal, book. *)
Definition collect_sealed (e : PlannedExecution) : C Entry :=
  do! per_loop := slift (plain (match od_get (pe_family e) WORKLOAD_LOOPS with
                                | Some n => Ok n
                                | None => throw KeyError "family"
                                end)) in
  let loops := per_loop * loop_scale in
  do! (a, attempt) := on_books (attempt_loop (S capture_retries) 0) in
  do! n := sgets (fun s => length (bk_entries (cg_books s))) in
  do! entry := on_artifact (seal_entry crashes n (MkCollected e loops a (admission_reason a) (attempt + 1))) in
  run! on_books (smodify (admit_execution e loops a attempt)) in
  sret entry.

Fixpoint collect_entries (plan : list PlannedExecution) : C (list Entry) :=
  match plan with
  | [] => sret []
  | e :: plan =>
      do! entry := collect_sealed e in
      do! entries := collect_entries plan in
      sret (entry :: entries)
  end.

(** [collect] of [args]; [identity] is [subject_manifest] of the host, which may raise. *)
Record collect_args := MkArgs {
  ar_platform : string; ar_is_file : bool; ar_allowed_cpus : list Z; ar_controller_cpu : Z;
  ar_families : list string; ar_repetitions : Z; ar_training_rows : Z; ar_calibration_rows : Z; ar_heldout_family_count : Z; ar_seed : Z;
  ar_identity : result unit;
}.

Definition collect_checks (x : collect_args) : result unit :=
  raise! RuntimeError "kernel-only perf collection requires Linux" when negb (String.eqb (ar_platform x) "Linux") in
  raise! ValueError "missing workload executable" when negb (ar_is_file x) in
  raise! ValueError "target and controller CPUs must be distinct" when target_cpu =? ar_controller_cpu x in
  raise! ValueError "target and controller CPUs must be in the allowed affinity set"
    when negb (bool_decide (target_cpu ∈ ar_allowed_cpus x)) || negb (bool_decide (ar_controller_cpu x ∈ ar_allowed_cpus x)) in
  Ok tt.

Context {G : Type} `{RandomOps G}.

Definition collect (x : collect_args) : C Manifest :=
  run! slift (plain (collect_checks x)) in
  do! (plan, heldout) := slift (plain (make_plan (ar_families x) (ar_repetitions x) (ar_training_rows x) (ar_calibration_rows x)
                                         (ar_heldout_family_count x) (ar_seed x))) in
  run! slift (plain (ar_identity x)) in
  do! old := sgets (fun s => af_manifest (cg_artifact s)) in
  run! slift (plain (if is_some old then throw ValueError "artifact already contains a sealed capture manifest" else Ok tt)) in
  run! on_books (smodify (fun _ => new_books)) in
  do! entries := collect_entries plan in
  let manifest := MkManifest SCHEMA frozen_event (ar_families x) heldout entries None in
  let manifest := MkManifest SCHEMA frozen_event (ar_families x) heldout entries (Some (json_hash manifest)) in
  match crashes (2 * length entries)%nat with
  | Some _ => sraise (Plain (Exn OSError "No space left on device"))
  | None => run! on_artifact (smodify (set_manifest manifest)) in sret manifest
  end.
End collect.

(** ** [load_dataset] *)

Definition read_file (path : sealed_path) (a : Artifact) : result Bytes :=
  match od_get (path, false) (af_files a) with Some bytes => Ok bytes | None => throw OSError "No such file or directory" end.

Definition load_entry (a : Artifact) (rows : list (string * ModelBatch)) (e : Entry) : result (list (string * ModelBatch)) :=
  let! raw := read_file (et_raw_path e) a in
  raise! ValueError "raw custody hash mismatch" when negb (bool_decide (sha256 raw = et_raw_sha256 e)) in
  let! derived := read_file (et_derived_path e) a in
  raise! ValueError "derived tensor hash mismatch" when negb (bool_decide (sha256 derived = et_derived_sha256 e)) in
  let! payload := torch_load derived in
  raise! ValueError "derived tensor identity mismatch"
    when negb (String.eqb (dp_schema payload) DERIVED_SCHEMA) || negb (bool_decide (dp_raw_sha256 payload = et_raw_sha256 e)) ||
         negb (bool_decide (dp_execution payload = et_execution e)) in
  let! batch := model_batch (dp_batch payload) in
  Ok (od_set (pe_execution_id (et_execution e)) batch rows).

Definition without_hash (m : Manifest) : Manifest := MkManifest (mn_schema m) (mn_event m) (mn_families m) (mn_heldout m) (mn_entries m) None.

Definition load_dataset (a : Artifact) : result (Manifest * list (string * ModelBatch)) :=
  match af_manifest a with
  | None => throw OSError "No such file or directory"
  | Some manifest =>
      raise! ValueError "unsupported kernel multimodal manifest" when negb (String.eqb (mn_schema manifest) SCHEMA) in
      raise! ValueError "dataset is not the frozen kernel-only event contract" when negb (bool_decide (mn_event manifest = frozen_event)) in
      raise! ValueError "capture manifest content hash does not match"
        when negb (bool_decide (mn_content_sha256 manifest = Some (json_hash (without_hash manifest)))) in
      let! rows := rfold (load_entry a) [] (mn_entries manifest) in
      Ok (manifest, rows)
  end.

(** ** Partitions *)

Definition _concatenate (batches : list ModelBatch) : result ModelBatch :=
  match batches with
  | [] => throw ValueError "a dataset partition must not be empty"
  | first :: _ =>
      raise! ValueError "all executions must have the same lane count"
        when existsb (fun batch => negb (cpu_count batch =? cpu_count first)%nat) batches in
      model_batch (cat_batches batches)
  end.

(** [rows[entry["execution_id"]]] of the entries of a partition. *)
Definition row_named (rows : list (string * ModelBatch)) (e : Entry) : result ModelBatch :=
  match od_get (pe_execution_id (et_execution e)) rows with Some batch => Ok batch | None => throw KeyError "execution_id" end.
Definition _partition (manifest : Manifest) (rows : list (string * ModelBatch)) (name : string) : result ModelBatch :=
  let! batches := rmap (row_named rows) (filter (fun e => pe_partition (et_execution e) = name) (mn_entries manifest)) in
  _concatenate batches.

(** ** Sealing *)

Definition id_of (c : collected) : string := pe_execution_id (co_execution c).
Definition raw_of (c : collected) : Bytes := save_raw (raw_capture_payload c).
Definition derived_of (c : collected) : Bytes :=
  save_derived (MkDerived DERIVED_SCHEMA (co_execution c) (sha256 (raw_of c)) (ad_batch (co_admitted c)) (ad_lanes (co_admitted c))).
Definition entry_of (c : collected) : Entry :=
  MkEntry (co_execution c) (co_loops c) (RawPath (id_of c)) (sha256 (raw_of c)) (DerivedPath (id_of c)) (sha256 (derived_of c))
    (cx_output (ad_captured (co_admitted c))) (cx_elapsed_ns (ad_captured (co_admitted c))).

Definition path_id (p : sealed_path) : string := match p with RawPath id | DerivedPath id => id end.
(** The files of an execution are in place. *)
Definition sealed_in (a : Artifact) (c : collected) : Prop :=
  od_get (RawPath (id_of c), false) (af_files a) = Some (raw_of c) /\ od_get (DerivedPath (id_of c), false) (af_files a) = Some (derived_of c).
(** Only the files of [ids] may differ. *)
Definition keeps_others (ids : list string) (a a' : Artifact) : Prop :=
  af_manifest a' = af_manifest a /\ forall p, path_id p ∉ ids -> od_get (p, false) (af_files a') = od_get (p, false) (af_files a).

Lemma save_spec crash path content a :
  wp (_atomic_torch_save crash path content)
    (fun h a' => crash = None /\ h = sha256 content /\ od_get (path, false) (af_files a') = Some content /\ af_manifest a' = af_manifest a /\
       forall p, p <> path -> od_get (p, false) (af_files a') = od_get (p, false) (af_files a))
    (fun _ a' => crash <> None /\ af_manifest a' = af_manifest a /\ forall p, od_get (p, false) (af_files a') = od_get (p, false) (af_files a)) a.
Proof.
  unfold wp, _atomic_torch_save. destruct crash as [k|]; cbn [af_files put_files af_manifest].
  - split_and!; [done|done|]. intros p. by rewrite od_get_set_ne.
  - split_and!; [done|done|by rewrite od_get_set_eq|done|]. intros p Hp. rewrite od_get_set_ne by congruence. rewrite od_del_get_ne by congruence. by rewrite od_get_set_ne.
Qed.

Lemma seal_entry_spec crashes n c a :
  wp (seal_entry crashes n c) (fun e a' => e = entry_of c /\ sealed_in a' c /\ keeps_others [id_of c] a a')
    (fun _ a' => af_manifest a' = af_manifest a /\ (crashes (2 * n)%nat = None -> crashes (2 * n + 1)%nat = None -> batch_size (ad_batch (co_admitted c)) <> 1%nat)) a.
Proof.
  unfold seal_entry. wp_step. eapply wp_mono; [apply save_spec| |intros e a' (Hc & Hm & _); by split]. intros h a1 (Hc1 & -> & Hr1 & Hm1 & Ho1). cbn beta. wp_step. unfold _model_payload.
  destruct (Nat.eqb_spec (batch_size (ad_batch (co_admitted c))) 1) as [Hb|Hb]; cbn [negb]; (wp_step; [|by injection He as <- || by split]); [|done]. injection Ha as <-. wp_step.
  eapply wp_mono; [apply save_spec| |intros e a' (Hc & Hm & _); split; [congruence|by intros] ]. intros h a2 (Hc2 & -> & Hr2 & Hm2 & Ho2). wp_step.
  split; [done|]. split; [split; [by rewrite Ho2|done]|]. split; [congruence|]. intros p Hp. rewrite Ho2, Ho1; [done|..]; intros ->; set_solver.
Qed.

(** ** Loading *)

Definition sealable (c : collected) : Prop := batch_size (ad_batch (co_admitted c)) = 1%nat /\ check_model_batch (ad_batch (co_admitted c)) = Ok tt.

Lemma load_entry_sealed a rows c : sealed_in a c -> sealable c -> id_of c ∉ rows.*1 -> load_entry a rows (entry_of c) = Ok (rows ++ [(id_of c, ad_batch (co_admitted c))]).
Proof.
  intros [Hr Hd] [_ Hm] Hni. unfold load_entry, read_file. cbn [entry_of et_raw_path et_raw_sha256 et_derived_path et_derived_sha256 et_execution]. rewrite Hr, Hd. cbn [rbind].
  rewrite !bool_decide_eq_true_2 by done. cbn [negb]. unfold derived_of at 1. rewrite torch_roundtrip. cbn [rbind dp_schema dp_raw_sha256 dp_execution dp_batch].
  rewrite !bool_decide_eq_true_2 by done. cbn [negb orb String.eqb]. unfold model_batch. rewrite Hm. cbn [rbind]. f_equal. apply od_set_fresh. by apply od_get_None.
Qed.

Definition row_of (c : collected) : string * ModelBatch := (id_of c, ad_batch (co_admitted c)).
Lemma load_entries_sealed a cs : forall rows, Forall (sealed_in a) cs -> Forall sealable cs -> NoDup (rows.*1 ++ (id_of <$> cs)) ->
  rfold (load_entry a) rows (entry_of <$> cs) = Ok (rows ++ (row_of <$> cs)).
Proof.
  induction cs as [|c cs IH]; intros rows Hs Hb Hnd; cbn [fmap list_fmap rfold]; [by rewrite app_nil_r|]. apply Forall_cons in Hs as [Hs1 Hs]. apply Forall_cons in Hb as [Hb1 Hb].
  cbn [fmap list_fmap] in Hnd. apply NoDup_app in Hnd as Hnd'. rewrite load_entry_sealed by (done || set_solver). cbn [rbind]. rewrite IH; [by rewrite <- app_assoc|done|done|].
  rewrite fmap_app, <- app_assoc. exact Hnd.
Qed.

(** No other content has the digest of the execution's derived file. *)
Definition unforged (c : collected) : Prop := forall y, sha256 y = sha256 (derived_of c) -> y = derived_of c.

(** Whatever the files have become, an entry that still loads is the sealed one. *)
Lemma load_entry_guarded a rows c r : unforged c -> load_entry a rows (entry_of c) = Ok r -> r = od_set (id_of c) (ad_batch (co_admitted c)) rows.
Proof.
  intros Hu Hr. unfold load_entry in Hr. inv_res Hr. bool_prop. injection Hr as <-.
  repeat match goal with H : bool_decide _ = true |- _ => apply bool_decide_eq_true_1 in H end. cbn [entry_of et_derived_sha256] in *.
  match goal with H : sha256 ?y = sha256 (derived_of c) |- _ => apply Hu in H; subst y end.
  unfold derived_of in *. match goal with H : torch_load _ = Ok _ |- _ => rewrite torch_roundtrip in H; injection H as <- end.
  match goal with H : model_batch _ = Ok _ |- _ => unfold model_batch in H; apply rbind_Ok in H as (? & _ & [= <-]) end. done.
Qed.
Lemma load_entries_guarded a cs : forall rows r, Forall unforged cs -> NoDup (rows.*1 ++ (id_of <$> cs)) ->
  rfold (load_entry a) rows (entry_of <$> cs) = Ok r -> r = rows ++ (row_of <$> cs).
Proof.
  induction cs as [|c cs IH]; intros rows r Hu Hnd; cbn [fmap list_fmap rfold]; [intros [= <-]; by rewrite app_nil_r|]. intros Hr. inv_res Hr. apply Forall_cons in Hu as [Hc Hu].
  match goal with H : load_entry _ _ _ = Ok _ |- _ => apply load_entry_guarded in H as ->; [|done] end. cbn [fmap list_fmap] in Hnd. apply NoDup_app in Hnd as Hnd'.
  rewrite od_set_fresh in Hr by (apply od_get_None; set_solver). apply IH in Hr; [by rewrite Hr, <- app_assoc|done|]. rewrite fmap_app, <- app_assoc. exact Hnd.
Qed.

(** A partition of loaded rows is the concatenation of its executions' batches. *)
Lemma row_named_found cs c : NoDup (id_of <$> cs) -> c ∈ cs -> row_named (row_of <$> cs) (entry_of c) = Ok (ad_batch (co_admitted c)).
Proof.
  intros Hnd Hin. unfold row_named. cbn [entry_of et_execution]. induction cs as [|c' cs IH]; [by apply not_elem_of_nil in Hin|]. cbn [fmap list_fmap] in Hnd |- *. apply NoDup_cons in Hnd as [Hni Hnd].
  cbn [od_get row_of]. apply elem_of_cons in Hin as [<-|Hin].
  - rewrite decide_True by done. done.
  - rewrite decide_False; [by apply IH|]. intros Heq. apply Hni. change (id_of c = id_of c') in Heq. rewrite <- Heq. by apply (list_elem_of_fmap_2 id_of).
Qed.
Definition in_partition (name : string) (c : collected) : Prop := pe_partition (co_execution c) = name.
#[global] Instance in_partition_dec name c : Decision (in_partition name c).
Proof. unfold in_partition. apply _. Defined.
Lemma rmap_rows cs es : (forall c, c ∈ es -> c ∈ cs) -> NoDup (id_of <$> cs) ->
  rmap (row_named (row_of <$> cs)) (entry_of <$> es) = Ok ((fun c => ad_batch (co_admitted c)) <$> es).
Proof.
  intros Hin Hnd. induction es as [|c es IH]; [done|]. cbn [fmap list_fmap rmap]. rewrite row_named_found by (done || set_solver). cbn [rbind]. rewrite IH by set_solver. done.
Qed.
Lemma filter_entries (P : PlannedExecution -> Prop) `{forall e, Decision (P e)} (cs : list collected) :
  filter (fun e => P (et_execution e)) (entry_of <$> cs) = entry_of <$> filter (fun c => P (co_execution c)) cs.
Proof.
  induction cs as [|c cs IH]; [done|]. rewrite fmap_cons, !filter_cons. cbn [entry_of et_execution]. destruct (decide (P (co_execution c))); [by rewrite fmap_cons, <- IH|exact IH].
Qed.
Lemma partition_rows_exact m cs name : mn_entries m = entry_of <$> cs -> NoDup (id_of <$> cs) ->
  _partition m (row_of <$> cs) name = _concatenate ((fun c => ad_batch (co_admitted c)) <$> filter (in_partition name) cs).
Proof.
  intros Hm Hnd. unfold _partition. pose proof (filter_entries (fun e => pe_partition e = name) cs) as Hf. cbn beta in Hf. rewrite Hm, Hf, rmap_rows; [done| |done]. intros c Hc. by apply list_elem_of_filter in Hc as [_ Hc].
Qed.

(** ** A campaign *)

Section campaign.
Context (log1p : float -> float) (pow : float -> Z -> float) (sum : list float -> float).
Context (target_cpu data_pages aux_pages loop_scale : Z) (capture_retries : nat).
Context (attempts : nat -> machine * child) (crashes : nat -> option nat).
Notation ledger := (ledger log1p pow sum target_cpu data_pages aux_pages loop_scale capture_retries attempts).
Notation gave_up := (gave_up log1p pow sum target_cpu data_pages aux_pages loop_scale capture_retries attempts).
Notation try_execution := (try_execution log1p pow sum target_cpu data_pages aux_pages attempts).
Notation collect_execution := (collect_execution log1p pow sum target_cpu data_pages aux_pages loop_scale capture_retries attempts).
Notation collect_sealed := (collect_sealed log1p pow sum target_cpu data_pages aux_pages loop_scale capture_retries attempts crashes).
Notation collect_entries := (collect_entries log1p pow sum target_cpu data_pages aux_pages loop_scale capture_retries attempts crashes).

(** What the featurizer returns is one valid row. *)
Lemma admitted_sealable n a : try_execution n = Ok a -> batch_size (ad_batch a) = 1%nat /\ check_model_batch (ad_batch a) = Ok tt.
Proof.
  unfold try_execution. destruct (attempts n) as [m p]. intros Hr. inv_res Hr. injection Hr as <-. cbn [ad_batch].
  destruct (featurize_hardware_capture _ _ _ _) as [r|] eqn:Hf; [|done]. injection Hv0 as <-. rename Hf into Hv0. unfold featurize_hardware_capture, model_batch in Hv0. inv_res Hv0. injection Hv0 as <-. cbn [hf_batch]. match goal with H : rbind (check_model_batch _) _ = Ok _ |- _ => apply rbind_Ok in H as ([] & Hm & [= <-]) end. by split.
Qed.

Lemma ledger_sealable k b : ledger k b -> Forall sealable (bk_entries b).
Proof.
  intros (_ & _ & Hs & _). apply Forall_forall. intros c Hc.
  assert (Hin : co_admitted c ∈ omap success (attempt_outcomes log1p pow sum target_cpu data_pages aux_pages attempts (bk_total_attempts b))).
  { rewrite <- Hs. by apply list_elem_of_fmap_2. }
  apply list_elem_of_omap in Hin as (r & Hr & Ha). unfold attempt_outcomes in Hr. apply list_elem_of_fmap in Hr as (n & -> & _).
  destruct (try_execution n) as [a|] eqn:Ht; [|done]. injection Ha as Ha. unfold sealable. rewrite <- Ha. by eapply admitted_sealable.
Qed.

(** Attempts do not touch the entries. *)
Lemma attempt_loop_entries l remaining : forall attempt, keeps (fun b => bk_entries b = l) (attempt_loop log1p pow sum target_cpu data_pages aux_pages capture_retries attempts remaining attempt).
Proof.
  induction remaining as [|remaining IH]; intros attempt b Hb; cbn [attempt_loop]; [by apply wp_raise|]. repeat wp_step.
  destruct (try_execution _) as [a|x]; [by apply wp_ret|]. wp_step; [|by apply wp_raise]. do 2 wp_step. wp_step; [by apply wp_raise|]. by apply IH.
Qed.

(** Failures of a campaign: a write failed, or an execution was given up. *)
Definition campaign_failed (a : Artifact) (x : capture_exn) (s : campaign) : Prop :=
  af_manifest (cg_artifact s) = af_manifest a /\ (gave_up x (cg_books s) \/ exists k, crashes k <> None).

Lemma collect_sealed_spec e s : workload (pe_family e) -> ledger 0 (cg_books s) ->
  wp (collect_sealed e)
    (fun en s' => ledger 0 (cg_books s') /\ exists c, bk_entries (cg_books s') = bk_entries (cg_books s) ++ [c] /\ co_execution c = e /\
       en = entry_of c /\ sealed_in (cg_artifact s') c /\ keeps_others [pe_execution_id e] (cg_artifact s) (cg_artifact s'))
    (campaign_failed (cg_artifact s)) s.
Proof.
  intros Hw Hl. pose proof (collect_execution_wp log1p pow sum target_cpu data_pages aux_pages loop_scale capture_retries attempts e _ Hw Hl) as Hc.
  pose proof (attempt_loop_entries _ (S capture_retries) 0 (cg_books s) eq_refl) as He.
  unfold workload in Hw. unfold collect_sealed. unfold collect_execution in Hc. destruct (od_get (pe_family e) WORKLOAD_LOOPS) as [per_loop|]; [|done]. cbn [plain] in Hc |- *.
  wp_step. wp_step; [|done]. injection Ha as <-. wp_step. unfold on_books at 1. wp_step. unfold wp, sbind, slift in Hc. unfold wp in He. unfold wp at 1.
  destruct (attempt_loop _ _ _ _ _ _ _ _ _ _ (cg_books s)) as [b [ [a attempt]|x] ]; [|by split; [|left; apply Hc]]. cbn [smodify] in Hc. destruct Hc as [Hl' _].
  wp_step. wp_step. wp_step. unfold on_artifact. wp_step. wp_step. set (c := MkCollected _ _ _ _ _). eapply wp_mono; [apply seal_entry_spec| |].
  - intros en a' (-> & Hin & Hk). cbn [cg_books cg_artifact]. unfold on_books. repeat wp_step. cbn [cg_books cg_artifact]. split; [done|]. exists c. cbn [admit_execution bk_entries]. by rewrite He.
  - intros x a' [Hm Hn]. split; [done|]. right. cbn [cg_books cg_artifact] in *. apply ledger_sealable in Hl'. cbn [admit_execution bk_entries] in Hl'. apply Forall_app in Hl' as [_ [ [Hb _] _]%Forall_cons].
    destruct (crashes (2 * length (bk_entries b))%nat) eqn:H1; [by eexists; erewrite H1|]. destruct (crashes (2 * length (bk_entries b) + 1)%nat) eqn:H2; [by eexists; erewrite H2|]. by destruct (Hn eq_refl eq_refl).
Qed.

Lemma collect_entries_spec plan : forall s, Forall (fun e => workload (pe_family e)) plan -> NoDup (pe_execution_id <$> plan) -> ledger 0 (cg_books s) ->
  wp (collect_entries plan)
    (fun es s' => ledger 0 (cg_books s') /\ exists cs, bk_entries (cg_books s') = bk_entries (cg_books s) ++ cs /\ co_execution <$> cs = plan /\
       es = entry_of <$> cs /\ Forall (sealed_in (cg_artifact s')) cs /\ keeps_others (pe_execution_id <$> plan) (cg_artifact s) (cg_artifact s'))
    (campaign_failed (cg_artifact s)) s.
Proof.
  induction plan as [|e plan IH]; intros s Hw Hnd Hl; cbn [collect_entries].
  - wp_step. split; [done|]. exists []. by rewrite app_nil_r.
  - apply Forall_cons in Hw as [He Hw]. cbn [fmap list_fmap] in Hnd. apply NoDup_cons in Hnd as [Hni Hnd]. wp_step.
    eapply wp_mono; [by apply collect_sealed_spec| |done]. intros en s1 (Hl1 & c & Hb1 & Hc & -> & [Hr Hd] & Hm1 & Hk1). wp_step.
    eapply wp_mono; [by apply IH| |]; [|intros x s' [Hm Hx]; split; [congruence|done]]. intros es s2 (Hl2 & cs & Hb2 & Hcs & -> & Hin & Hm2 & Hk2). wp_step.
    split; [done|]. exists (c :: cs). rewrite Hb2, Hb1, <- app_assoc. assert (id_of c ∉ pe_execution_id <$> plan) by (unfold id_of; by rewrite Hc). split_and!; try done.
    + cbn [fmap list_fmap]. by rewrite Hc, Hcs.
    + constructor; [|done]. split; rewrite Hk2; done.
    + split; [congruence|]. cbn [fmap list_fmap]. intros p Hp. rewrite Hk2, Hk1; [done|set_solver..].
Qed.

Context {G : Type} `{RandomLaws G}.
Notation collect := (collect log1p pow sum target_cpu data_pages aux_pages loop_scale capture_retries attempts crashes).
Notation plan_of x := (make_plan (ar_families x) (ar_repetitions x) (ar_training_rows x) (ar_calibration_rows x) (ar_heldout_family_count x) (ar_seed x)).

(** Plans name known workloads under different identifiers. *)
Lemma planned x plan heldout : plan_of x = Ok (plan, heldout) -> Forall (fun e => workload (pe_family e)) plan /\ NoDup (pe_execution_id <$> plan).
Proof.
  intros Hp. pose proof (plan_exact (ar_families x) (ar_repetitions x) (ar_training_rows x) (ar_calibration_rows x) (ar_heldout_family_count x) (ar_seed x)) as Hx. rewrite Hp in Hx.
  destruct Hx as ((_ & _ & Hw & _) & Hnd & Hpairs & _). split; [|done]. apply Forall_forall. intros e He.
  assert (Hin : (pe_family e, pe_repetition e) ∈ (fun e => (pe_family e, pe_repetition e)) <$> plan) by by apply (list_elem_of_fmap_2 (fun e => (pe_family e, pe_repetition e))).
  rewrite Hpairs in Hin. apply list_elem_of_bind in Hin as (f & Hf & Hfam). apply list_elem_of_fmap in Hf as (k & [= -> _] & _). rewrite Forall_forall in Hw. by apply Hw.
Qed.

Lemma collect_spec x s : af_manifest (cg_artifact s) = None ->
  wp (collect x)
    (fun m s' => let cs := bk_entries (cg_books s') in plan_of x = Ok (co_execution <$> cs, mn_heldout m) /\ ledger 0 (cg_books s') /\
       af_manifest (cg_artifact s') = Some m /\ Forall (sealed_in (cg_artifact s')) cs /\ NoDup (id_of <$> cs) /\
       m = (let m := MkManifest SCHEMA frozen_event (ar_families x) (mn_heldout m) (entry_of <$> cs) in m (Some (json_hash (m None)))))
    (fun e s' => af_manifest (cg_artifact s') = None /\
       (collect_checks target_cpu x = Ok tt -> is_ok (plan_of x) = true -> ar_identity x = Ok tt -> gave_up e (cg_books s') \/ exists k, crashes k <> None)) s.
Proof.
  intros Hm. unfold collect. wp_step. wp_step.
  2:{ split; [done|]. intros Hc. by rewrite Hc in He. }
  wp_step. wp_step.
  2:{ split; [done|]. intros _ Hp. by destruct (plan_of x). }
  destruct a0 as [plan heldout]. wp_step. wp_step.
  2:{ split; [done|]. intros _ _ Hi. by rewrite Hi in He. }
  wp_step. wp_step. wp_step. rewrite Hm. cbn [is_some plain]. wp_step; [|done]. wp_step. unfold on_books. wp_step. wp_step. wp_step.
  destruct (plan_of x) as [p|] eqn:Hp; [|done]. injection Ha0 as ->. destruct (planned x plan heldout Hp) as [Hw Hnd].
  eapply wp_mono; [apply collect_entries_spec; [done|done|apply new_ledger]|cbn [cg_books cg_artifact]|intros e s' [Hm' Hf]; split; [by rewrite Hm'|done] ].
  intros es s' (Hl & cs & Hb & Hcs & -> & Hin & Hma & _). cbn [new_books bk_entries app] in Hb.
  destruct (crashes (2 * length (entry_of <$> cs))%nat) eqn:Hcr.
  - wp_step. cbn [cg_artifact] in Hma. split; [congruence|]. intros _ _ _. right. eexists. by erewrite Hcr.
  - wp_step. unfold on_artifact. repeat wp_step. cbn [cg_books cg_artifact mn_heldout]. rewrite Hb. split_and!; try done.
    + by rewrite Hcs.
    + rewrite <- Hcs, <- list_fmap_compose in Hnd. exact Hnd.
Qed.

(** What was sealed, loaded. *)
Lemma collected_loads s m cs : af_manifest (cg_artifact s) = Some m -> Forall (sealed_in (cg_artifact s)) cs -> Forall sealable cs -> NoDup (id_of <$> cs) ->
  (exists families heldout, m = (let m := MkManifest SCHEMA frozen_event families heldout (entry_of <$> cs) in m (Some (json_hash (m None))))) ->
  load_dataset (cg_artifact s) = Ok (m, row_of <$> cs).
Proof.
  intros Ha Hin Hs Hnd (families & heldout & Hm). unfold load_dataset. rewrite Ha, Hm. cbn [mn_schema mn_event mn_content_sha256 mn_entries without_hash mn_families mn_heldout String.eqb negb].
  rewrite !bool_decide_eq_true_2 by done. cbn [negb]. by rewrite load_entries_sealed.
Qed.


(** A sealed corpus is not collected again: [collect] refuses and leaves it as it is. *)
Theorem sealed_corpus_kept (x : collect_args) (s : campaign) (m : Manifest) : af_manifest (cg_artifact s) = Some m ->
  (collect x s).1 = s /\ is_ok (collect x s).2 = false.
Proof.
  intros Hm. unfold collect, sbind, slift. destruct (plain (collect_checks target_cpu x)) as [ []|]; [|done]. destruct (plain (plan_of x)) as [ [plan heldout]|]; [|done].
  destruct (plain (ar_identity x)) as [ []|]; [|done]. unfold sgets. by rewrite Hm.
Qed.
End campaign.
End custody.

(** ** A small campaign *)

(** Files are their payloads, with digests that tell executions and kinds apart. *)
Definition example_bytes : Type := RawPayload + DerivedPayload (D := string).
Definition example_sha256 (y : example_bytes) : string :=
  match y with inl r => "raw-" +:+ pe_execution_id (rp_execution r) | inr d => "derived-" +:+ pe_execution_id (dp_execution d) end.
Definition example_load (y : example_bytes) : result DerivedPayload :=
  match y with inl _ => throw RuntimeError "not a derived payload" | inr d => Ok d end.
Definition example_args : collect_args :=
  MkArgs "Linux" true [2; 3] 2 ["getpid"; "fork"] 3 1 1 1 7 (Ok tt).
Notation example_campaign crashes :=
  (@collect example_bytes (fun _ y => y) string example_sha256 inl inr (fun _ => "json") id (fun x _ => x) (fun l => default zero (head l))
    3 1 1 2 1 example_attempts crashes Z reversing example_args (MkCampaign new_books (MkArtifact [] None))).

Lemma example_campaign_ok :
  match (example_campaign (fun _ => None)).2 with Ok m => mn_heldout m | Raise _ => [] end = ["getpid"] /\
  length (bk_entries (cg_books (example_campaign (fun _ => None)).1)) = 6%nat.
Proof. vm_compute. split; reflexivity. Qed.


(** The sixth write fails after nine bytes: nothing loads. *)
Example torn_campaign :
  let '(s, r) := example_campaign (fun n => if (n =? 5)%nat then Some 9%nat else None) in
  is_ok r = false /\ length (bk_entries (cg_books s)) = 2%nat /\ length (af_files (cg_artifact s)) = 6%nat /\ af_manifest (cg_artifact s) = None.
Proof. vm_compute. repeat split. Qed.
