(* ===== verification/MaskedModel.v ===== *)
(** * The masked model ([examples/hardware_multimodal.py]: configuration, training, scoring, checkpoints)

    What surrounds the network: its configuration and the checks of what it is given,
    the training loop over random executions and masks, freezing, scoring with
    complementary masks, calibration and checkpoints. The network is an argument:
    the error it makes at each token, and one gradient step; sums, means, sorting and
    quantiles of floats are arguments too. One device. *)

From Stdlib Require SpecFloat.
From S2P Require Import Prelude Floats ModelBatch ModelMasks ModelValid DigitDataset.

Record MultimodalConfig := MkConfig {
  mc_pebs_features : Z; mc_pmu_features : Z; mc_segments : Z; mc_model_dimensions : Z;
  mc_attention_heads : Z; mc_feedforward_dimensions : Z; mc_local_layers : Z; mc_cross_cpu_layers : Z;
}.
Definition check_config (c : MultimodalConfig) : result unit :=
  raise! ValueError "all multimodal dimensions must be positive"
    when existsb (fun value => value <=? 0) [mc_pebs_features c; mc_pmu_features c; mc_segments c; mc_model_dimensions c;
           mc_attention_heads c; mc_feedforward_dimensions c; mc_local_layers c; mc_cross_cpu_layers c] in
  raise! ValueError "the first multimodal contract has exactly 16 segments" when negb (mc_segments c =? 16) in
  raise! ValueError "model dimensions must divide evenly across attention heads"
    when negb (mc_model_dimensions c mod mc_attention_heads c =? 0) in
  Ok tt.
(** The dataclass constructor. *)
Definition multimodal_config (c : MultimodalConfig) : result MultimodalConfig := let! _ := check_config c in Ok c.

Definition minus_infinity : float := SpecFloat.S754_infinity true.
Definition div32 (a b : float) : float := SpecFloat.SFdiv 24 128 a b.
Definition any_masked (g : grid bool) : bool := existsb id (flat g).
Definition modalities : list modality := [PT; PEBS; PMU].

Section model.
(** Weights and buffers; those of a new model, those with fitted scaling, and the mean error of every token of a modality that the network makes under a mask. *)
Context {W : Type} (fresh : MultimodalConfig -> W) (fit_buffers : ModelBatch -> W -> W).
Context (token_error : W -> ModelBatch -> MaskedTokens -> modality -> grid float).
(** The state of AdamW, and one backward pass and step. *)
Context {O : Type} (adamw : float -> float -> W -> O) (descend : W -> O -> ModelBatch -> MaskedTokens -> W * O).
Context (mean sum : list float -> float) (sort_descending : list float -> list float) (maximum : float -> float -> float).
(** [torch.quantile(scores, q, interpolation="higher")] *)
Context (quantile_higher : list float -> float -> result float).
Context {G : Type} `{PermOps G} (rand : G -> float * G) (randint : Z -> Z -> G -> Z * G).

Record Model := MkModel { md_config : MultimodalConfig; md_weights : W; md_fitted : bool; md_training : bool; md_grad : bool }.
Definition MaskedHardwareModel (c : MultimodalConfig) : Model := MkModel c (fresh c) false true true.
Definition set_weights (w : W) (d : Model) : Model := MkModel (md_config d) w (md_fitted d) (md_training d) (md_grad d).

Definition _check_batch (d : Model) (b : ModelBatch) : result unit :=
  raise! ValueError "PEBS feature width differs from the model" when negb (Z.of_nat (width (mo_pebs b)) =? mc_pebs_features (md_config d)) in
  raise! ValueError "PMU feature width differs from the model" when negb (Z.of_nat (width (mo_pmu b)) =? mc_pmu_features (md_config d)) in
  raise! ValueError "PT segments differ from the model" when negb (mc_segments (md_config d) =? Z.of_nat SEGMENTS) in
  Ok tt.

Definition fit_normalization (b : ModelBatch) (d : Model) : result Model :=
  let! _ := _check_batch d b in
  Ok (MkModel (md_config d) (fit_buffers b (md_weights d)) true (md_training d) (md_grad d)).

Definition standardized_targets (d : Model) (b : ModelBatch) : result unit :=
  let! _ := _check_batch d b in
  raise! RuntimeError "fit normalization on the training partition first" when negb (md_fitted d) in
  Ok tt.

(** [(masked & ~available).any()] *)
Definition masks_unavailable (masked available : grid bool) : bool := existsb (fun p => p.1 && negb p.2) (zip (flat masked) (flat available)).

(** [forward]: the errors of its predictions. *)
Definition forward (d : Model) (b : ModelBatch) (t : MaskedTokens) : result (modality -> grid float) :=
  let! _ := _check_batch d b in
  raise! ValueError "PT masks differ from the batch" when negb (bool_decide (dims (mk_pt t) = dims (mo_pt_available b))) in
  raise! ValueError "PEBS masks differ from the batch" when negb (bool_decide (dims (mk_pebs t) = dims (mo_pebs_available b))) in
  raise! ValueError "PMU masks differ from the batch" when negb (bool_decide (dims (mk_pmu t) = dims (mo_pmu_available b))) in
  raise! ValueError "unavailable tokens cannot be reconstruction targets"
    when masks_unavailable (mk_pt t) (mo_pt_available b) || masks_unavailable (mk_pebs t) (mo_pebs_available b) ||
         masks_unavailable (mk_pmu t) (mo_pmu_available b) in
  let! _ := standardized_targets d b in
  Ok (token_error (md_weights d) b t).

Definition masked_reconstruction_loss (d : Model) (b : ModelBatch) (t : MaskedTokens) : result float :=
  let! error := forward d b t in
  let! _ := standardized_targets d b in
  let losses := (fun k => mean (selected (error k) (mask_of k t))) <$> filter (fun k => any_masked (mask_of k t) = true) modalities in
  raise! ValueError "at least one available token must be masked" when match losses with [] => true | _ => false end in
  Ok (mean losses).

(** ** [train_masked_model] *)

Record training_args := MkTraining {
  ta_steps : Z; ta_batch_size : Z; ta_learning_rate : float; ta_weight_decay : float;
  ta_masked_fraction : float; ta_maximum_span : Z; ta_whole_modality_probability : float; ta_seed : Z;
}.
Definition train_step (x : training_args) (training : ModelBatch) (s : Model * O * G * list float) : result (Model * O * G * list float) :=
  let '(d, o, g, losses) := s in
  let count := Z.min (ta_batch_size x) (Z.of_nat (batch_size training)) in
  let '(order, g) := randperm (batch_size training) g in
  let! batch := index_select (take (Z.to_nat count) order) training in
  let! (masked, g) := make_training_masks rand randint (ta_masked_fraction x) (ta_maximum_span x) (ta_whole_modality_probability x) batch g in
  let! loss := masked_reconstruction_loss d batch masked in
  let '(w, o) := descend (md_weights d) o batch masked in
  Ok (set_weights w d, o, g, losses ++ [loss]).

Definition train_masked_model (x : training_args) (d : Model) (training : ModelBatch) : result (Model * list float) :=
  raise! ValueError "training arguments must be positive"
    when (ta_steps x <=? 0) || (ta_batch_size x <=? 0) || SpecFloat.SFleb (ta_learning_rate x) zero || SpecFloat.SFltb (ta_weight_decay x) zero in
  let! d := if md_fitted d then Ok d else fit_normalization training d in
  let d := MkModel (md_config d) (md_weights d) (md_fitted d) true true in
  let o := adamw (ta_learning_rate x) (ta_weight_decay x) (md_weights d) in
  let! s := rfold (fun s _ => train_step x training s) (d, o, seeded (ta_seed x), []) (seq 0 (Z.to_nat (ta_steps x))) in
  Ok (s.1.1.1, s.2).

Definition freeze_multimodal_model (d : Model) : Model := MkModel (md_config d) (md_weights d) (md_fitted d) false false.

(** ** Scoring *)

Definition thawed (d : Model) : bool := md_training d || md_grad d.

(** [errors[selected] = torch.maximum(errors[selected], per_token[selected])] *)
Definition raise_errors (masked : grid bool) (per_token errors : grid float) : grid float :=
  zip_with (zip_with (zip_with (fun (p : bool * float) e => if p.1 then maximum e p.2 else e))) (zip_with (zip_with zip) masked per_token) errors.

Definition zero_errors (b : ModelBatch) (k : modality) : grid float := map (map (map (fun _ => zero))) (available_of k b).
Definition score_plan (d : Model) (b : ModelBatch) (errors : modality -> grid float) (plan : modality * MaskedTokens) : result (modality -> grid float) :=
  let '(k, t) := plan in
  let masked := mask_of k t in
  if any_masked masked then
    let! error := forward d b t in
    Ok (fun j => if decide (j = k) then raise_errors masked (error k) (errors k) else errors j)
  else Ok errors.

(** [_top_token_error] for one execution: its score and whether it has tokens at all. *)
Definition _top_token_error (error : list (list float)) (available : list (list bool)) : float * bool :=
  let ordered := sort_descending (zip_with (fun (a : bool) e => if a then e else minus_infinity) (concat available) (concat error)) in
  let counts := length (filter (fun a => a = true) (concat available)) in
  let take_count := Nat.min counts 2 in
  (div32 (sum (imap (fun i e => if (i <? take_count)%nat then e else zero) ordered)) (float32_of_int (Z.of_nat (Nat.max take_count 1))), (0 <? counts)%nat).

Definition row_score (b : ModelBatch) (errors : modality -> grid float) (r : nat) : float :=
  let top k := _top_token_error (default [] (errors k !! r)) (default [] (available_of k b !! r)) in
  let present := filter (fun k => (top k).2 = true) modalities in
  div32 (sum ((fun k => if (top k).2 then (top k).1 else zero) <$> modalities)) (float32_of_int (Z.of_nat (length present))).

Definition multimodal_anomaly_score (d : Model) (b : ModelBatch) : result (list float) :=
  raise! RuntimeError "freeze the model before anomaly scoring" when thawed d in
  let! _ := standardized_targets d b in
  let! plans := scoring_plans b in
  let! errors := rfold (score_plan d b) (zero_errors b) plans in
  let result := row_score b errors <$> seq 0 (batch_size b) in
  raise! RuntimeError "multimodal scoring produced a non-finite value" when negb (forallb finite result) in
  Ok result.

Definition million : float := float_of_int 1000000.
Definition calibrate_multimodal_threshold (reviews_per_million : float) (d : Model) (calibration : ModelBatch) : result float :=
  raise! ValueError "reviews per million must be between zero and one million"
    when negb (SpecFloat.SFltb zero reviews_per_million && SpecFloat.SFltb reviews_per_million million) in
  let! scores := multimodal_anomaly_score d calibration in
  quantile_higher scores (fsub (float_of_int 1) (fdiv reviews_per_million million)).

(** ** Checkpoints *)

(** The state dictionary holds the weights and whether scaling was fitted. *)
Record Checkpoint := MkMaskedCheckpoint { cp_config : MultimodalConfig; cp_weights : W; cp_fitted : bool; cp_threshold : float }.
Definition save_frozen_multimodal_model (d : Model) (threshold : float) : result Checkpoint :=
  raise! RuntimeError "only a frozen model can be saved for inference" when thawed d in
  raise! ValueError "threshold must be finite" when negb (finite (Floats.float32 threshold)) in
  Ok (MkMaskedCheckpoint (md_config d) (md_weights d) (md_fitted d) threshold).

(** [load_state_dict] of the saved weights into those of a new model. *)
Context (load_weights : W -> W -> result W).
(** [checkpoint] is what [torch.load] gives, or what looking up its entries raises. *)
Definition load_frozen_multimodal_model (checkpoint : result Checkpoint) : result (Model * float) :=
  let loaded :=
    let! k := checkpoint in
    let! config := multimodal_config (cp_config k) in
    let d := MaskedHardwareModel config in
    let! w := load_weights (md_weights d) (cp_weights k) in
    Ok (MkModel config w (cp_fitted k) (md_training d) (md_grad d), cp_threshold k) in
  match loaded with
  | Raise e => if existsb (isinstance_exc (exn_class e)) [KeyError; TypeError; ValueError; RuntimeError]
               then throw ValueError "invalid frozen multimodal checkpoint" else Raise e
  | Ok (d, threshold) =>
      raise! ValueError "invalid frozen multimodal checkpoint state" when negb (md_fitted d) || negb (finite (Floats.float32 threshold)) in
      Ok (freeze_multimodal_model d, threshold)
  end.

(** ** Training returns *)

Lemma masks_cells available mask : masks_grid available mask -> Forall2 masks_cell (concat available) (concat mask).
Proof. induction 1 as [|row mrow available mask Hr _ IH]; [constructor|]. by apply Forall2_app. Qed.
Lemma within_flat available mask : Forall2 within available mask -> Forall2 (fun a b => b = true -> a = true) (concat available) (concat mask).
Proof. induction 1 as [|c m available mask Hc _ IH]; [constructor|]. by apply Forall2_app. Qed.
Lemma nothing_unavailable available mask : Forall2 within (concat available) (concat mask) -> masks_unavailable mask available = false.
Proof.
  intros Hw%within_flat. unfold masks_unavailable, flat. induction Hw as [|a b av mk Hab _ IH]; [done|]. cbn [zip zip_with existsb fst snd].
  rewrite IH, orb_false_r. destruct b; [by rewrite (Hab eq_refl)|done].
Qed.
Lemma masks_available available mask : masks_grid available mask -> masks_unavailable mask available = false.
Proof. intros Hm%masks_cells. apply nothing_unavailable. eapply Forall2_impl; [exact Hm|]. by intros a b [Hw _]. Qed.
Lemma masks_any available mask : masks_grid available mask -> any_masked available = true -> any_masked mask = true.
Proof.
  intros Hm%masks_cells. unfold any_masked, flat. induction Hm as [|a b av mk [_ Hab] _ IH]; [done|]. cbn [concat]. rewrite !existsb_app, !orb_true_iff. naive_solver.
Qed.

Lemma any_masked_at g : any_masked g = true <-> exists r c i, at3 g r c i = Some true.
Proof.
  unfold any_masked. rewrite existsb_exists. setoid_rewrite <- list_elem_of_In. setoid_rewrite elem_of_flat. unfold id. naive_solver.
Qed.
(** Something is available in a batch with executions and CPUs. *)
Lemma something_available b k m : valid b k m -> (0 < b)%nat -> (0 < k)%nat -> exists j, any_masked (available_of j m) = true.
Proof.
  intros V Hb Hk. destruct (v_slot _ _ _ V 0%nat 0%nat Hb Hk) as [i Hi]. rewrite (availability_at b k) in Hi by apply V.
  repeat case_decide; [exists PT|exists PEBS|exists PMU]; apply any_masked_at; eauto.
Qed.

Lemma width_at {A} b k t n (g : grid (list A)) : shape b k t g -> wide n g -> (0 < b)%nat -> (0 < k)%nat -> (0 < t)%nat -> width g = n.
Proof.
  intros Hs Hw Hb Hk Ht. destruct (proj2 (shape_at3 b k t g 0 0 0 Hs) (conj Hb (conj Hk Ht))) as [l Hl]. unfold width.
  destruct (flat g) as [|l' ls] eqn:Hf.
  - assert (Hin : l ∈ flat g) by (apply elem_of_flat; eauto). rewrite Hf in Hin. by apply elem_of_nil in Hin.
  - assert (Hin : l' ∈ flat g) by (rewrite Hf; left). apply elem_of_flat in Hin as (r & c & i & Hi). by eapply Hw.
Qed.

Definition accepts (b : ModelBatch) (t : MaskedTokens) : Prop :=
  forall k, dims (mask_of k t) = dims (available_of k b) /\ masks_unavailable (mask_of k t) (available_of k b) = false.
Lemma forward_ok d b t : _check_batch d b = Ok tt -> md_fitted d = true -> accepts b t -> forward d b t = Ok (token_error (md_weights d) b t).
Proof.
  intros Hc Hf Ha. unfold forward, standardized_targets. rewrite Hc, Hf. destruct (Ha PT) as [D1 U1], (Ha PEBS) as [D2 U2], (Ha PMU) as [D3 U3]. cbn [mask_of available_of] in *.
  cbn [rbind negb]. rewrite !bool_decide_eq_true_2 by done. by rewrite U1, U2, U3.
Qed.

Lemma loss_ok d b t : check_model_batch b = Ok tt -> (0 < batch_size b)%nat -> (0 < cpu_count b)%nat -> _check_batch d b = Ok tt -> md_fitted d = true ->
  masks_grid (mo_pt_available b) (mk_pt t) -> masks_grid (mo_pebs_available b) (mk_pebs t) -> masks_grid (mo_pmu_available b) (mk_pmu t) ->
  exists loss, masked_reconstruction_loss d b t = Ok loss.
Proof.
  intros V%check_valid Hb Hk Hc Hf H1 H2 H3. unfold masked_reconstruction_loss. rewrite forward_ok; [|done|done|intros []; (split; [by apply masks_dims|by apply masks_available])]. unfold standardized_targets. rewrite Hc, Hf. cbn [rbind negb].
  destruct (something_available _ _ _ V Hb Hk) as [j Hj]. assert (Hm : any_masked (mask_of j t) = true) by (destruct j; by eapply masks_any).
  assert (Hin : j ∈ filter (fun k => any_masked (mask_of k t) = true) modalities) by (apply list_elem_of_filter; split; [done|]; destruct j; set_solver).
  destruct (filter _ modalities) as [|k ks]; [by apply not_elem_of_nil in Hin|]. cbn [fmap list_fmap]. eauto.
Qed.

(** A drawn minibatch looks to the model as the training executions do. *)
Lemma minibatch_ok d m indices : check_model_batch m = Ok tt -> (0 < batch_size m)%nat -> (0 < cpu_count m)%nat -> Forall (fun i => i < batch_size m)%nat indices -> indices <> [] ->
  exists b, index_select indices m = Ok b /\ check_model_batch b = Ok tt /\ (0 < batch_size b)%nat /\ (0 < cpu_count b)%nat /\ _check_batch d b = _check_batch d m.
Proof.
  intros Hm Hb Hk Hi Hne. destruct (index_select_valid m indices Hm Hi) as (b & Hs & Hv & G1 & G2 & G3 & _). exists b. split; [done|]. split; [done|].
  assert (Hlen : (0 < length indices)%nat) by (destruct indices; [done|simpl; lia]). pose proof (proj1 (check_valid m) Hm) as Vm.
  pose proof (gathers_shape _ _ _ _ _ _ G1 (v_pt _ _ _ Vm)) as S1. assert (Hbs : batch_size b = length indices) by apply G1.
  assert (Hcc : cpu_count b = cpu_count m).
  { destruct S1 as [Hl S1]. unfold cpu_count at 1. destruct (mo_pt b) as [|row rows]; [simpl in Hl; lia|]. by apply Forall_cons in S1 as [ [? _] _]. }
  rewrite Hbs, Hcc. split; [done|]. split; [done|]. apply check_valid in Hv. rewrite Hbs, Hcc in Hv.
  assert (Hw : forall g h : grid (list float), forall t, gathers indices g h -> shape (batch_size m) (cpu_count m) t g -> (0 < t)%nat -> (exists n, n <> 0%nat /\ wide n g) -> width h = width g).
  { intros g h t Hg Hsh Ht (n & _ & Hn). rewrite (width_at _ _ _ n g Hsh Hn Hb Hk Ht). apply (width_at (length indices) (cpu_count m) t n); [by eapply gathers_shape| |done..].
    intros r c i l Hl. rewrite (gathers_at _ _ _ _ _ _ Hg) in Hl. apply bind_Some in Hl as (j & _ & Hl). by eapply Hn. }
  unfold _check_batch. rewrite (Hw _ _ 16%nat G2 (v_pebs _ _ _ Vm)), (Hw _ _ 1%nat G3 (v_pmu _ _ _ Vm)); [done|lia|apply Vm|lia|apply Vm].
Qed.

Definition training_accepted (x : training_args) : Prop :=
  0 < ta_steps x /\ 0 < ta_batch_size x /\ SpecFloat.SFleb (ta_learning_rate x) zero = false /\ SpecFloat.SFltb (ta_weight_decay x) zero = false /\
  SpecFloat.SFltb zero (ta_masked_fraction x) && SpecFloat.SFleb (ta_masked_fraction x) (float_of_int 1) = true /\ 0 < ta_maximum_span x /\
  SpecFloat.SFleb zero (ta_whole_modality_probability x) && SpecFloat.SFleb (ta_whole_modality_probability x) (float_of_int 1) = true.

Context `{!PermLaws G}.
Definition trainable (d : Model) (m : ModelBatch) : Prop := check_model_batch m = Ok tt /\ (0 < batch_size m)%nat /\ (0 < cpu_count m)%nat /\ _check_batch d m = Ok tt.

Lemma train_step_ok x m d o g losses : training_accepted x -> trainable d m -> md_fitted d = true ->
  exists d' o' g' loss, train_step x m (d, o, g, losses) = Ok (d', o', g', losses ++ [loss]) /\ md_config d' = md_config d /\ md_fitted d' = true.
Proof.
  intros (_ & Hbs & _ & _ & Hfr & Hsp & Hwh) (Hm & Hb & Hk & Hc) Hf. unfold train_step.
  pose proof (randperm_perm (batch_size m) g) as Hp. destruct (randperm (batch_size m) g) as [order g1]. cbn [fst] in Hp. set (count := Z.to_nat _).
  assert (Hlen : length order = batch_size m) by (rewrite Hp; apply length_seq).
  destruct (minibatch_ok d m (take count order)) as (b & Hsel & Hv & Hb' & Hk' & Hc'); try done.
  { apply Forall_take. apply Forall_forall. intros i Hi. rewrite Hp in Hi. apply elem_of_seq in Hi. lia. }
  { intros Hn. apply (f_equal length) in Hn. rewrite length_take, Hlen in Hn. unfold count in Hn. simpl in Hn. lia. }
  rewrite Hsel. cbn [rbind]. destruct (training_masks_sound rand randint _ _ _ b g1 Hv Hsp Hfr Hwh) as (t & g2 & Ht & M1 & M2 & M3). rewrite Ht. cbn [rbind].
  destruct (loss_ok d b t) as [loss Hl]; try done; [by rewrite Hc'|]. rewrite Hl. cbn [rbind]. destruct (descend _ o b t) as [w o']. by exists (set_weights w d), o', g2, loss.
Qed.

Lemma train_steps_ok x m l : forall d o g losses, training_accepted x -> trainable d m -> md_fitted d = true ->
  exists d' o' g' more, rfold (fun s (_ : nat) => train_step x m s) (d, o, g, losses) l = Ok (d', o', g', losses ++ more) /\ length more = length l /\
    md_config d' = md_config d /\ md_fitted d' = true.
Proof.
  induction l as [|n l IH]; intros d o g losses Hx Ht Hf; cbn [rfold]; [exists d, o, g, []; by rewrite app_nil_r|].
  destruct (train_step_ok x m d o g losses Hx Ht Hf) as (d1 & o1 & g1 & loss & Hs & Hc & Hf1). rewrite Hs. cbn [rbind].
  assert (Ht1 : trainable d1 m) by (destruct Ht as (A1 & A2 & A3 & A4); split_and!; [done..|]; unfold _check_batch in *; by rewrite Hc).
  destruct (IH d1 o1 g1 (losses ++ [loss]) Hx Ht1 Hf1) as (d' & o' & g' & more & Hr & Hl & Hc' & Hf'). exists d', o', g', (loss :: more).
  rewrite Hr, <- app_assoc. split_and!; [done|by simpl; rewrite Hl|congruence|done].
Qed.

(** Training a model always returns: for accepted arguments and valid executions of the
    widths the model was made for, whatever minibatches and masks are drawn, every step
    has something to reconstruct; there is one loss for each step and the model has its
    scaling fitted. *)
Theorem training_returns x d m : training_accepted x -> trainable d m ->
  exists d' losses, train_masked_model x d m = Ok (d', losses) /\ Z.of_nat (length losses) = ta_steps x /\ md_config d' = md_config d /\ md_fitted d' = true.
Proof.
  intros Hx Ht. pose proof Hx as (Hst & Hbs & Hlr & Hwd & _). unfold train_masked_model. rewrite Hlr, Hwd. rewrite (proj2 (Z.leb_gt _ _) Hst), (proj2 (Z.leb_gt _ _) Hbs). cbn [orb].
  assert (Hfit : exists d1, (if md_fitted d then Ok d else fit_normalization m d) = Ok d1 /\ md_config d1 = md_config d /\ md_fitted d1 = true).
  { destruct (md_fitted d) eqn:Hf; [by exists d|]. unfold fit_normalization. destruct Ht as (_ & _ & _ & ->). by eexists. }
  destruct Hfit as (d1 & -> & Hc1 & Hf1). cbn [rbind]. set (d2 := MkModel _ _ _ _ _).
  assert (Ht2 : trainable d2 m) by (destruct Ht as (A1 & A2 & A3 & A4); split_and!; [done..|]; unfold _check_batch in *; cbn [d2 md_config]; by rewrite Hc1).
  destruct (train_steps_ok x m (seq 0 (Z.to_nat (ta_steps x))) d2 (adamw (ta_learning_rate x) (ta_weight_decay x) (md_weights d2)) (seeded (ta_seed x)) [] Hx Ht2 Hf1) as (d' & o' & g' & more & Hr & Hl & Hc & Hf).
  cbv zeta. rewrite Hr. cbn [rbind fst snd app]. exists d', more. rewrite length_seq in Hl. split_and!; [done|lia|by rewrite Hc|done].
Qed.

(** ** Scores *)

Lemma at3_zip_cells {A B C} (f : A -> B -> C) g h r c i :
  at3 (zip_with (zip_with (zip_with f)) g h) r c i = x ← at3 g r c i; y ← at3 h r c i; Some (f x y).
Proof.
  unfold at3. rewrite lookup_zip_with. destruct (g !! r) as [gr|], (h !! r) as [hr|]; cbn [mbind option_bind]; try done.
  - rewrite lookup_zip_with. destruct (gr !! c) as [gc|], (hr !! c) as [hc|]; cbn [mbind option_bind]; try done; [|by destruct (gc !! i)].
    rewrite lookup_zip_with. by destruct (gc !! i), (hc !! i).
  - destruct (gr !! c) as [gc|]; cbn [mbind option_bind]; [|done]. by destruct (gc !! i).
Qed.
Lemma at3_map {A B} (f : A -> B) (g : grid A) r c i : at3 (map (map (map f)) g) r c i = f <$> at3 g r c i.
Proof.
  unfold at3. rewrite (list_lookup_fmap (map (map f)) g). destruct (g !! r) as [row|]; [|done]. cbn [fmap option_fmap option_map mbind option_bind].
  rewrite (list_lookup_fmap (map f) row). destruct (row !! c) as [cell|]; [|done]. cbn [fmap option_fmap option_map mbind option_bind]. apply (list_lookup_fmap f cell).
Qed.

Lemma token_at3 g r c i : token g r c i = at3 g r c i.
Proof. unfold token, at3. destruct (g !! r) as [row|]; [|done]. cbn. by destruct (row !! c). Qed.

Lemma at3_dims {A} (g : grid A) r c i : is_Some (at3 g r c i) <-> exists row n, dims g !! r = Some row /\ row !! c = Some n /\ (i < n)%nat.
Proof.
  unfold at3, dims. rewrite (list_lookup_fmap (map length) g). destruct (g !! r) as [row|]; cbn [fmap option_fmap option_map mbind option_bind]; [|split; [by intros [? ?]|naive_solver] ].
  destruct (row !! c) as [cell|] eqn:Hc; cbn [mbind option_bind].
  - rewrite lookup_lt_is_Some. split; [intros Hi; exists (map length row), (length cell); split_and!; [done| |done]; rewrite (list_lookup_fmap length row), Hc; done|].
    intros (row' & n & [= <-] & Hn & Hi). rewrite (list_lookup_fmap length row), Hc in Hn. by injection Hn as <-.
  - split; [by intros [? ?]|]. intros (row' & n & [= <-] & Hn & Hi). by rewrite (list_lookup_fmap length row), Hc in Hn.
Qed.

(** The masks of the plans: a mask made cell by cell within the available tokens. *)
Lemma cells_unavailable (f : list bool -> list bool) g : (forall cell, within cell (f cell)) -> masks_unavailable (map (map f) g) g = false.
Proof.
  intros Hf. apply nothing_unavailable. induction g as [|row g IH]; [constructor|]. cbn [map concat]. apply Forall2_app; [|done]. clear IH. induction row as [|cell row IH]; by constructor.
Qed.
Lemma within_self cell : within cell cell.
Proof. apply Forall2_same_length_lookup. split; [done|]. congruence. Qed.
Lemma within_parity parity cell : within cell (imap (fun i b => b && (i mod 2 =? parity)%nat) cell).
Proof.
  apply Forall2_same_length_lookup. rewrite length_imap. split; [done|]. intros i a b Ha Hb. rewrite list_lookup_imap, Ha in Hb. injection Hb as <-. by destruct a.
Qed.
Lemma within_zeros cell : within cell (map (fun _ => false) cell).
Proof. induction cell; by constructor. Qed.

Lemma plans_accepted b : check_model_batch b = Ok tt -> exists plans, scoring_plans b = Ok plans /\ Forall (fun p => accepts b p.2) plans.
Proof.
  intros Hb. destruct (scoring_plans_Forall2 b Hb) as (plans & Hp & Hf). exists plans. split; [done|]. apply Forall_lookup. intros n [k t] Hn.
  destruct (Forall2_lookup_r _ _ _ _ _ Hf Hn) as ([k' g] & Hg & Hk & Hm & Hz). cbn [fst snd] in *. subst k'.
  assert (Hown : dims g = dims (available_of k b) /\ masks_unavailable g (available_of k b) = false).
  { assert (Hwhole : forall j, masks_unavailable (available_of j b) (available_of j b) = false).
    { intros j. apply nothing_unavailable. apply Forall2_same_length_lookup. split; [done|]. intros i x y Hx Hy. rewrite Hx in Hy. injection Hy as <-. apply within_self. }
    apply list_elem_of_lookup_2 in Hg. unfold planned in Hg. repeat (apply elem_of_cons in Hg as [ [= -> ->]|Hg]; [split; [by rewrite ?dims_parity|first [exact (Hwhole PT)|exact (Hwhole PEBS)|exact (Hwhole PMU)|by apply cells_unavailable; intros; apply within_parity] ]|]).
    by apply not_elem_of_nil in Hg. }
  intros j. destruct (decide (j = k)) as [->|Hne]; [by rewrite Hm|]. rewrite (Hz j Hne). split; [apply dims_zeros|]. by apply cells_unavailable; intros; apply within_zeros.
Qed.

(** The network predicts for every token of a batch. *)
Context (token_error_shape : forall w b t k r c i, is_Some (at3 (token_error w b t k) r c i) <-> is_Some (at3 (available_of k b) r c i)).

(** The worst error of a token, over the plans that mask it. *)
Definition worst_error (w : W) (b : ModelBatch) (plans : list (modality * MaskedTokens)) (k : modality) (r c i : nat) (e : float) : float :=
  fold_left (fun e p => if decide (p.1 = k /\ at3 (mask_of k p.2) r c i = Some true)
                        then maximum e (default zero (at3 (token_error w b p.2 k) r c i)) else e) plans e.

Lemma score_plan_ok d b errors k t : _check_batch d b = Ok tt -> md_fitted d = true -> accepts b t ->
  (forall j r c i, is_Some (at3 (errors j) r c i) <-> is_Some (at3 (available_of j b) r c i)) ->
  exists errors', score_plan d b errors (k, t) = Ok errors' /\
    forall j r c i, at3 (errors' j) r c i = (fun e => worst_error (md_weights d) b [(k, t)] j r c i e) <$> at3 (errors j) r c i.
Proof.
  intros Hc Hf Ha He. unfold score_plan, worst_error. cbn [fold_left fst snd]. destruct (any_masked (mask_of k t)) eqn:Hm.
  - rewrite forward_ok by done. cbn [rbind]. eexists. split; [done|]. intros j r c i. cbn beta. destruct (decide (j = k)) as [->|Hne].
    2:{ destruct (at3 (errors j) r c i); [|done]. cbn [fmap option_fmap option_map]. by rewrite decide_False by (intros [? _]; congruence). }
    unfold raise_errors. rewrite !at3_zip_cells. pose proof (He k r c i) as Hk. pose proof (token_error_shape (md_weights d) b t k r c i) as Ht.
    assert (Hd : is_Some (at3 (mask_of k t) r c i) <-> is_Some (at3 (available_of k b) r c i)) by (rewrite !at3_dims; by rewrite (proj1 (Ha k))).
    destruct (at3 (errors k) r c i) as [e|], (at3 (mask_of k t) r c i) as [a|], (at3 (token_error (md_weights d) b t k) r c i) as [x|]; cbn; try done;
      first [destruct a; [by rewrite decide_True|rewrite decide_False by (by intros [_ ?]); done]|exfalso; clear -Hk Ht Hd; rewrite !is_Some_alt in *; naive_solver].
  - exists errors. split; [done|]. intros j r c i. destruct (at3 (errors j) r c i); [|done]. cbn [fmap option_fmap option_map]. rewrite decide_False; [done|]. intros [-> Ht].
    apply not_true_iff_false in Hm. apply Hm, any_masked_at. eauto.
Qed.

Lemma score_plans_ok d b plans : _check_batch d b = Ok tt -> md_fitted d = true -> Forall (fun p => accepts b p.2) plans -> forall errors,
  (forall j r c i, is_Some (at3 (errors j) r c i) <-> is_Some (at3 (available_of j b) r c i)) ->
  exists errors', rfold (score_plan d b) errors plans = Ok errors' /\
    forall j r c i, at3 (errors' j) r c i = worst_error (md_weights d) b plans j r c i <$> at3 (errors j) r c i.
Proof.
  intros Hc Hf. induction 1 as [|[k t] plans Ht _ IH]; intros errors He; cbn [rfold].
  - exists errors. split; [done|]. intros j r c i. by destruct (at3 (errors j) r c i).
  - destruct (score_plan_ok d b errors k t Hc Hf Ht He) as (e1 & H1 & A1). rewrite H1. cbn [rbind].
    destruct (IH e1) as (e2 & H2 & A2); [intros j r c i; by rewrite A1, fmap_is_Some|]. exists e2. split; [done|]. intros j r c i. rewrite A2, A1. by destruct (at3 (errors j) r c i).
Qed.


(** ** Checkpoints *)

(** A model's own weights fit a new model of its configuration. *)
Context (load_own : forall d : Model, load_weights (fresh (md_config d)) (md_weights d) = Ok (md_weights d)).

(** A frozen model survives its checkpoint: one with an accepted configuration that was
    saved loads as the same model with the same threshold, and what cannot be saved is
    refused; no checkpoint loads as a model that could still be trained or was never
    fitted. *)
Theorem checkpoint_roundtrip d threshold : check_config (md_config d) = Ok tt -> md_fitted d = true -> finite (Floats.float32 threshold) = true ->
  match save_frozen_multimodal_model d threshold with
  | Ok k => load_frozen_multimodal_model (Ok k) = Ok (d, threshold)
  | Raise _ => thawed d = true
  end.
Proof.
  intros Hc Hf Ht. unfold save_frozen_multimodal_model. destruct (thawed d) eqn:Hth; [done|]. rewrite Ht. cbn [negb]. unfold load_frozen_multimodal_model, multimodal_config. cbn [rbind cp_config]. rewrite Hc. cbn [rbind cp_weights MaskedHardwareModel md_weights].
  rewrite load_own. cbn [rbind cp_fitted cp_threshold md_fitted md_training md_grad]. rewrite Hf, Ht. cbn [negb orb]. unfold freeze_multimodal_model. cbn [md_config md_weights md_fitted].
  unfold thawed in Hth. destruct d as [c w f tr gr]. cbn [md_config md_weights md_fitted md_training md_grad] in *. by destruct tr, gr, f.
Qed.
Lemma loaded_frozen k d threshold : load_frozen_multimodal_model k = Ok (d, threshold) -> thawed d = false /\ md_fitted d = true /\ check_config (md_config d) = Ok tt /\ finite (Floats.float32 threshold) = true.
Proof.
  unfold load_frozen_multimodal_model. intros Hl. destruct k as [k|e]; cbn [rbind] in Hl; [|by destruct (existsb _ _)]. unfold multimodal_config in Hl. destruct (check_config (cp_config k)) as [ []|e] eqn:Hc; cbn [rbind] in Hl; [|by destruct (existsb _ _)].
  destruct (load_weights _ _) as [w|e]; cbn [rbind] in Hl; [|by destruct (existsb _ _)]. cbn [md_fitted] in Hl. inv_res Hl. bool_prop. injection Hl as <- <-. done.
Qed.
End model.


(** ** A network without errors *)

Definition no_error (w : unit) (b : ModelBatch) (t : MaskedTokens) (k : modality) : grid float := zero_errors b k.
Definition no_value (l : list float) : float := zero.
Lemma no_error_shape w b t k r c i : is_Some (at3 (no_error w b t k) r c i) <-> is_Some (at3 (available_of k b) r c i).
Proof. unfold no_error, zero_errors. by rewrite at3_map, fmap_is_Some. Qed.

