(* ===== verification/ExperimentEvaluate.v ===== *)
(** * Training and evaluating on a corpus ([examples/hardware_multimodal_experiment.py]: [train_and_evaluate])

    Two baselines and two masked models are fitted on the training partition, get
    their thresholds from the calibration partition, are saved and loaded again, and are
    judged on the executions of familiar and held-out families and on corrupted
    copies of them. The numerics of the baselines and of the network are
    arguments, as are mean, median, maximum and quantile; times, digests and
    device transfers are left out. *)

From Stdlib Require SpecFloat.
From S2P Require Import Prelude Monad Batch HardwareDecode HardwareConfig HardwareHost HardwareMultimodal Floats ModelBatch ModelMasks ModelValid DigitDataset Features ExperimentCapture ExperimentPlan ExperimentAdmission ExperimentCollect ExperimentCorruptions ExperimentCustody MaskedModel.

(** ** Scores *)

Definition count_alerts (threshold : float) (scores : list float) : nat := length (filter (fun s => SpecFloat.SFltb threshold s = true) scores).
Definition _alerts_per_thousand (scores : list float) (threshold : float) : result float :=
  raise! ZeroDivisionError "float division by zero" when (length scores =? 0)%nat in
  Ok (fdiv (fmul (float_of_int (Z.of_nat (count_alerts threshold scores))) (float_of_int 1000)) (float_of_int (Z.of_nat (length scores)))).

Record Summary := MkSummary { su_executions : nat; su_alerts : nat; su_per_thousand : float; su_per_hour : float; su_mean : float; su_median : float; su_max : float }.
Record FamilyResult := MkFamily { fr_partition : string; fr_summary : Summary }.
Record Sensitivity := MkSensitivity { se_mean : float; se_clean_mean : float; se_delta : float; se_ratio : float; se_per_thousand : float }.

(** [max(results, key=...)]: the first family with the highest rate. *)
Definition rate (x : string * FamilyResult) : float := su_per_thousand (fr_summary x.2).
Definition worst_of (results : list (string * FamilyResult)) : result (string * FamilyResult) :=
  match results with
  | [] => throw ValueError "max() iterable argument is empty"
  | x :: l => Ok (fold_left (fun best y => if SpecFloat.SFltb (rate best) (rate y) then y else best) l x)
  end.
Definition of_partition (name : string) (results : list (string * FamilyResult)) : list (string * FamilyResult) := filter (fun x => fr_partition x.2 = name) results.

(** [torch.equal] and [==] of floats. *)
Fixpoint scores_equal (a b : list float) : bool :=
  match a, b with
  | [], [] => true
  | x :: a, y :: b => SpecFloat.SFeqb x y && scores_equal a b
  | _, _ => false
  end.

(** ** Counting the executions of a plan *)

Lemma sum_split {A} (f g : A -> nat) l : sum_list ((fun x => f x + g x)%nat <$> l) = (sum_list (f <$> l) + sum_list (g <$> l))%nat.
Proof. induction l as [|x l IH]; [done|]. cbn [fmap list_fmap sum_list sum_list_with] in *. simpl in IH. rewrite IH. unfold id. lia. Qed.
Lemma sum_family_indicator (a : string) (q : nat) l : NoDup l -> a ∈ l -> sum_list ((fun f => if decide (a = f) then q else 0%nat) <$> l) = q.
Proof.
  assert (Hz : forall l', a ∉ l' -> sum_list ((fun f => if decide (a = f) then q else 0%nat) <$> l') = 0%nat).
  { induction l' as [|f l' IH]; [done|]. intros Hn. cbn [fmap list_fmap]. rewrite decide_False by set_solver. simpl. apply IH. set_solver. }
  induction 1 as [|f l Hf _ IH]; [by intros ?%not_elem_of_nil|]. intros Hin. cbn [fmap list_fmap]. destruct (decide (a = f)) as [<-|Hne]; simpl.
  - rewrite (Hz l Hf). unfold id. lia.
  - unfold id. apply elem_of_cons in Hin as [|Hin]; [done|]. by apply IH.
Qed.
Lemma length_by_family (Q : PlannedExecution -> Prop) `{forall e, Decision (Q e)} families plan : NoDup families -> Forall (fun e => pe_family e ∈ families) plan ->
  length (filter Q plan) = sum_list ((fun f => length (filter Q (filter (fun e => pe_family e = f) plan))) <$> families).
Proof.
  intros Hnd. induction 1 as [|e plan He _ IH]; [clear Hnd; by induction families|]. rewrite filter_cons.
  transitivity (sum_list ((fun f => (if decide (pe_family e = f) then (if decide (Q e) then 1 else 0) else 0) + length (filter Q (filter (fun e => pe_family e = f) plan)))%nat <$> families)).
  - rewrite sum_split, sum_family_indicator by done. rewrite <- IH. by destruct (decide (Q e)).
  - f_equal. apply list_fmap_ext. intros _ f _. rewrite filter_cons. destruct (decide (pe_family e = f)); [|done]. rewrite filter_cons. by destruct (decide (Q e)).
Qed.
Lemma filter_either (a b : string) l : a <> b -> length (filter (fun p => p ∈ [a; b]) l) = (length (filter (fun p => p = a) l) + length (filter (fun p => p = b) l))%nat.
Proof.
  intros Hab. induction l as [|p l IH]; [done|]. rewrite !filter_cons. destruct (decide (p = a)) as [->|Ha]; [rewrite decide_True, decide_False by (done || set_solver); simpl; lia|].
  destruct (decide (p = b)) as [->|Hb]; [rewrite decide_True by set_solver; simpl; lia|]. rewrite decide_False by set_solver. done.
Qed.

Lemma filter_replicate (a : string) n : length (filter (fun p => p = a) (replicate n a)) = n.
Proof. induction n as [|n IH]; [done|]. cbn [replicate]. rewrite filter_cons, decide_True by done. simpl. by rewrite IH. Qed.

Definition EVALUATED : list string := ["familiar_validation"; "heldout_family"].

(** The executions a plan gives a family in a partition, and the partition a family is judged in. *)
Definition rows_in (heldout : list string) (repetitions training_rows calibration_rows : Z) (name family : string) : nat :=
  length (filter (fun p => p = name) (family_rows heldout repetitions training_rows calibration_rows family)).
Definition judged_in (heldout : list string) (family : string) : string := if one_of family heldout then "heldout_family" else "familiar_validation".

Section counts.
Context (families heldout : list string) (repetitions training_rows calibration_rows : Z) (plan : list PlannedExecution).
Context (Hrows : training_rows + calibration_rows < repetitions) (Ht : 0 < training_rows) (Hc : 0 < calibration_rows) (Hnd : NoDup families)
  (Hfam : Forall (fun e => pe_family e ∈ families) plan)
  (Hpart : forall family, family ∈ families ->
    pe_partition <$> filter (fun e => pe_family e = family) plan ≡ₚ family_rows heldout repetitions training_rows calibration_rows family).
Notation rows := (rows_in heldout repetitions training_rows calibration_rows).
Notation of_family_rows family := (family_rows heldout repetitions training_rows calibration_rows family).

Lemma partition_count name : length (filter (fun e => pe_partition e = name) plan) = sum_list (rows name <$> families).
Proof.
  rewrite (length_by_family _ families) by done. f_equal. apply list_fmap_ext. intros i f Hf%list_elem_of_lookup_2. unfold rows_in. rewrite <- (Hpart f Hf). by rewrite length_filter_fmap.
Qed.
Definition family_judged (family : string) (e : PlannedExecution) : Prop := pe_family e = family /\ pe_partition e ∈ EVALUATED.
#[global] Instance family_judged_dec family e : Decision (family_judged family e).
Proof. unfold family_judged. apply _. Defined.
Lemma family_count family : family ∈ families ->
  length (filter (family_judged family) plan) = (rows "familiar_validation" family + rows "heldout_family" family)%nat.
Proof.
  intros Hf. unfold rows_in. rewrite <- filter_either by done. rewrite <- (Hpart family Hf), length_filter_fmap, list_filter_filter. f_equal. apply list_filter_iff. intros e. unfold family_judged, EVALUATED. tauto.
Qed.
Lemma family_count_pos family : (0 < rows "familiar_validation" family + rows "heldout_family" family)%nat.
Proof.
  unfold rows_in, family_rows. destruct (one_of family heldout).
  - rewrite (filter_replicate "heldout_family"). lia.
  - rewrite !filter_app, !length_app, (filter_replicate "familiar_validation"). lia.
Qed.
Lemma family_partition family e : family ∈ families -> e ∈ filter (family_judged family) plan -> pe_partition e = judged_in heldout family.
Proof.
  intros Hf [ [He Hev] Hin]%list_elem_of_filter.
  assert (Hp : pe_partition e ∈ of_family_rows family) by (rewrite <- (Hpart family Hf); apply list_elem_of_fmap_2, list_elem_of_filter; done).
  unfold judged_in, family_rows in *. destruct (one_of family heldout); [by apply elem_of_replicate in Hp as [-> _]|].
  rewrite !elem_of_app, !elem_of_replicate in Hp. unfold EVALUATED in Hev. destruct Hp as [ [Hp _]|[ [Hp _]|[Hp _] ] ]; rewrite Hp in *; [set_solver..|done].
Qed.
End counts.

Section evaluate.
Context {D : Type}.
Context (mean median largest : list float -> float).
(** [torch.quantile(..., interpolation="higher")], which refuses no scores and fractions outside the unit interval. *)
Context (quantile_higher : list float -> float -> result float).
Notation Manifest := (@Manifest D).
Notation rows_of := (list (string * ModelBatch)).

Definition _score_summary (scores : list float) (threshold : float) (elapsed_ns : list Z) : result Summary :=
  let alerts := count_alerts threshold scores in
  let hours := int_truediv (foldr Z.add 0 elapsed_ns) 3600000000000 in
  let! per_thousand := _alerts_per_thousand scores threshold in
  let per_hour := if SpecFloat.SFeqb hours zero then zero else fdiv (float_of_int (Z.of_nat alerts)) hours in
  Ok (MkSummary (length scores) alerts per_thousand per_hour (mean scores) (median scores) (largest scores)).

Definition sensitivity_of (score : ModelBatch -> result (list float)) (clean_scores : list float) (threshold : float) (x : string * ModelBatch) : result (string * Sensitivity) :=
  let tiny := int_truediv 1 1000000000000 in
  let! scores := score x.2 in
  let clean_mean := mean clean_scores in
  let floor := if SpecFloat.SFltb clean_mean tiny then tiny else clean_mean in
  let! per_thousand := _alerts_per_thousand scores threshold in
  Ok (x.1, MkSensitivity (mean scores) clean_mean (fsub (mean scores) clean_mean) (fdiv (mean scores) floor) per_thousand).
Definition _score_sensitivity (score : ModelBatch -> result (list float)) (clean : ModelBatch) (threshold : float) : result (float * float * list (string * Sensitivity)) :=
  let! clean_scores := score clean in
  let! per_thousand := _alerts_per_thousand clean_scores threshold in
  let! swaps := rmap (fun name => let! m := modality_swap clean name in Ok (name +:+ "_swap", m)) ["pt"; "pebs"; "pmu"] in
  let! misaligned := timestamp_misalignment clean in
  let! results := rmap (sensitivity_of score clean_scores threshold) (swaps ++ [("timestamp_misalignment", misaligned)]) in
  Ok (mean clean_scores, per_thousand, results).

Definition missing_executions (g : grid bool) : nat := length (filter (fun row => existsb id (concat row) = false) g).
(** For each modality: executions without tokens, unavailable tokens, available tokens. *)
Definition _availability (b : ModelBatch) : list (string * (nat * Z * Z)) :=
  (fun x => (x.1, (missing_executions (available_of x.2 b), censored (available_of x.2 b), tally id (flat (available_of x.2 b))))) <$> [("pt", PT); ("pebs", PEBS); ("pmu", PMU)].

Definition _entries_for (manifest : Manifest) (partition : string) : list Entry := filter (fun e => pe_partition (et_execution e) = partition) (mn_entries manifest).

(** ** Families *)

Definition family_entries (manifest : Manifest) (family : string) : list Entry :=
  filter (fun e => family_judged family (et_execution e)) (mn_entries manifest).

Definition family_result (score : ModelBatch -> result (list float)) (threshold : float) (manifest : Manifest) (rows : rows_of)
    (results : list (string * FamilyResult)) (family : string) : result (list (string * FamilyResult)) :=
  match family_entries manifest family with
  | [] => Ok results
  | e :: es =>
      let! batches := rmap (row_named rows) (e :: es) in
      let! batch := _concatenate batches in
      let! scores := score batch in
      let! summary := _score_summary scores threshold (et_elapsed <$> e :: es) in
      Ok (od_set family (MkFamily (pe_partition (et_execution e)) summary) results)
  end.
Definition family_results (score : ModelBatch -> result (list float)) (threshold : float) (manifest : Manifest) (rows : rows_of) : result (list (string * FamilyResult)) :=
  rfold (family_result score threshold manifest rows) [] (mn_families manifest).

Record Families := MkFamilies { fa_results : list (string * FamilyResult); fa_worst : string * FamilyResult; fa_worst_familiar : string * FamilyResult; fa_worst_heldout : string * FamilyResult }.
Definition _family_results (score : ModelBatch -> result (list float)) (threshold : float) (manifest : Manifest) (rows : rows_of) : result Families :=
  let! results := family_results score threshold manifest rows in
  let! familiar := worst_of (of_partition "familiar_validation" results) in
  let! heldout := worst_of (of_partition "heldout_family" results) in
  let! overall := worst_of results in
  Ok (MkFamilies results overall familiar heldout).

(** What is reported of one model or baseline. *)
Record Evaluation := MkEvaluation { ev_threshold : float; ev_familiar : Summary; ev_heldout : Summary; ev_families : Families; ev_sensitivity : float * float * list (string * Sensitivity) }.

(** ** Baselines *)

(** A fitted baseline, its scores, and what loading its checkpoint gives. *)
Context {B : Type} (fit_marginal : ModelBatch -> B) (fit_right_vectors : ModelBatch -> nat -> B) (baseline_score : B -> ModelBatch -> list float).
Context (reload : string -> B -> float -> result (B * float)).

Definition PtPcaBaseline_fit (training : ModelBatch) (latent_dimensions : Z) : result B :=
  raise! ValueError "PT PCA latent dimensions must be positive" when latent_dimensions <=? 0 in
  Ok (fit_right_vectors training (Z.to_nat latent_dimensions)).

Definition _baseline_report (name : string) (baseline : B) (calibration familiar heldout : ModelBatch) (manifest : Manifest) (rows : rows_of) (reviews_per_million : float) : result Evaluation :=
  let score b := Ok (baseline_score baseline b) in
  let! calibration_scores := score calibration in
  let! threshold := quantile_higher calibration_scores (fsub (float_of_int 1) (fdiv reviews_per_million million)) in
  let! (reloaded, restored) := reload name baseline threshold in
  raise! RuntimeError "checkpoint reload changed frozen inference"
    when negb (SpecFloat.SFeqb restored threshold && scores_equal (baseline_score reloaded calibration) calibration_scores) in
  let! familiar_scores := score familiar in
  let! heldout_scores := score heldout in
  let! families := _family_results score threshold manifest rows in
  let! evaluation := _concatenate [familiar; heldout] in
  let! familiar := _score_summary familiar_scores threshold (et_elapsed <$> _entries_for manifest "familiar_validation") in
  let! heldout := _score_summary heldout_scores threshold (et_elapsed <$> _entries_for manifest "heldout_family") in
  let! sensitivity := _score_sensitivity score evaluation threshold in
  Ok (MkEvaluation threshold familiar heldout families sensitivity).

(** ** Masked models *)

Context {W : Type} (fresh : MultimodalConfig -> W) (fit_buffers : ModelBatch -> W -> W) (token_error : W -> ModelBatch -> MaskedTokens -> modality -> grid float).
Context {O : Type} (adamw : float -> float -> W -> O) (descend : W -> O -> ModelBatch -> MaskedTokens -> W * O).
Context (sum : list float -> float) (sort_descending : list float -> list float) (maximum : float -> float -> float).
Context {G : Type} `{PermOps G} (rand : G -> float * G) (randint : Z -> Z -> G -> Z * G) (load_weights : W -> W -> result W).
Notation score_with := (multimodal_anomaly_score token_error sum sort_descending maximum).

Record evaluate_args := MkEvaluate {
  ea_model_dimensions : Z; ea_attention_heads : Z; ea_feedforward_dimensions : Z; ea_local_layers : Z; ea_cross_cpu_layers : Z;
  ea_steps : Z; ea_batch_size : Z; ea_learning_rate : float; ea_weight_decay : float; ea_model_seed : Z;
  ea_whole_modality_probability : float; ea_reviews_per_million : float; ea_pt_pca_dimensions : Z;
}.
(** The mask fraction and span are the defaults of [train_masked_model]. *)
Definition training_args_of (x : evaluate_args) (whole_modality_probability : float) : training_args :=
  MkTraining (ea_steps x) (ea_batch_size x) (ea_learning_rate x) (ea_weight_decay x) (int_truediv 3 10) 4 whole_modality_probability (ea_model_seed x).
Definition config_of (x : evaluate_args) (training : ModelBatch) : MultimodalConfig :=
  MkConfig (Z.of_nat (width (mo_pebs training))) (Z.of_nat (width (mo_pmu training))) 16 (ea_model_dimensions x) (ea_attention_heads x)
    (ea_feedforward_dimensions x) (ea_local_layers x) (ea_cross_cpu_layers x).

Record Trained := MkTrained { tr_model : Model (W := W); tr_threshold : float; tr_losses : list float }.
Definition _train_one (x : evaluate_args) (training calibration : ModelBatch) (whole_modality_probability : float) : result Trained :=
  let! config := multimodal_config (config_of x training) in
  let! (model, losses) := train_masked_model fit_buffers token_error adamw descend mean rand randint (training_args_of x whole_modality_probability) (MaskedHardwareModel fresh config) training in
  let model := freeze_multimodal_model model in
  let! threshold := calibrate_multimodal_threshold token_error sum sort_descending maximum quantile_higher (ea_reviews_per_million x) model calibration in
  let! checkpoint := save_frozen_multimodal_model model threshold in
  let! (restored, restored_threshold) := load_frozen_multimodal_model fresh load_weights (Ok checkpoint) in
  let! expected := score_with model calibration in
  let! observed := score_with restored calibration in
  raise! RuntimeError "checkpoint reload changed frozen inference" when negb (SpecFloat.SFeqb restored_threshold threshold && scores_equal expected observed) in
  Ok (MkTrained model threshold losses).

(** The rest of the loop over the models. *)
Definition evaluate_model (t : Trained) (familiar heldout evaluation : ModelBatch) (manifest : Manifest) (rows : rows_of) : result Evaluation :=
  let score := score_with (tr_model t) in
  let threshold := tr_threshold t in
  let! familiar_scores := score familiar in
  let! heldout_scores := score heldout in
  let! familiar := _score_summary familiar_scores threshold (et_elapsed <$> _entries_for manifest "familiar_validation") in
  let! heldout := _score_summary heldout_scores threshold (et_elapsed <$> _entries_for manifest "heldout_family") in
  let! results := family_results score threshold manifest rows in
  let! worst := worst_of results in
  let! worst_familiar := worst_of (of_partition "familiar_validation" results) in
  let! worst_heldout := worst_of (of_partition "heldout_family" results) in
  let! sensitivity := _score_sensitivity score evaluation threshold in
  Ok (MkEvaluation threshold familiar heldout (MkFamilies results worst worst_familiar worst_heldout) sensitivity).

Record Report := MkReport {
  re_partitions : list (string * nat);
  re_availability : list (string * (nat * Z * Z));
  re_baselines : list (string * Evaluation);
  re_models : list (string * (Trained * Evaluation));
}.
Definition PARTITIONS : list string := ["training"; "calibration"; "familiar_validation"; "heldout_family"].

(** From the loaded corpus on. *)
Definition evaluate_corpus (x : evaluate_args) (manifest : Manifest) (rows : rows_of) : result Report :=
  let! training := _partition manifest rows "training" in
  let! calibration := _partition manifest rows "calibration" in
  let! familiar := _partition manifest rows "familiar_validation" in
  let! heldout := _partition manifest rows "heldout_family" in
  let! evaluation := _concatenate [familiar; heldout] in
  let marginal := fit_marginal training in
  let! pt_pca := PtPcaBaseline_fit training (ea_pt_pca_dimensions x) in
  let report name b := _baseline_report name b calibration familiar heldout manifest rows (ea_reviews_per_million x) in
  let! marginal_report := report "marginal-baseline" marginal in
  let! pt_pca_report := report "pt-only-pca-baseline" pt_pca in
  let! models := rmap (fun p => let! t := _train_one x training calibration p.2 in
                                let! ev := evaluate_model t familiar heldout evaluation manifest rows in
                                Ok (p.1, (t, ev))) [("fused", ea_whole_modality_probability x); ("span-only", zero)] in
  Ok (MkReport (zip PARTITIONS (batch_size <$> [training; calibration; familiar; heldout])) (_availability evaluation)
    [("marginal", marginal_report); ("pt_only_pca", pt_pca_report)] models).

(** ** Sizes *)

(** A score for each execution. *)
Definition scores_each (score : ModelBatch -> result (list float)) : Prop := forall b l, score b = Ok l -> length l = batch_size b.
Context (baseline_each : forall b m, length (baseline_score b m) = batch_size m).

Lemma model_scores_each d : scores_each (score_with d).
Proof. intros b l Hl. unfold multimodal_anomaly_score in Hl. inv_res Hl. injection Hl as <-. by rewrite length_fmap, length_seq. Qed.
Lemma summary_executions scores threshold elapsed u : _score_summary scores threshold elapsed = Ok u -> su_executions u = length scores.
Proof. unfold _score_summary. intros Hu. inv_res Hu. by injection Hu as <-. Qed.
Lemma concatenate_size bs b : _concatenate bs = Ok b -> batch_size b = sum_list (batch_size <$> bs).
Proof.
  unfold _concatenate, model_batch. destruct bs as [|x bs]; [done|]. intros Hb. inv_res Hb. injection Hb as <-. unfold batch_size, cat_batches. cbn [mo_pt].
  generalize (x :: bs). induction l as [|y l IH]; [done|]. cbn [mbind list_bind fmap list_fmap sum_list sum_list_with]. rewrite length_app. simpl in IH. rewrite IH. done.
Qed.

(** Every single execution counts one. *)
Definition single (b : ModelBatch) : Prop := batch_size b = 1%nat.
Lemma single_sum bs : Forall single bs -> sum_list (batch_size <$> bs) = length bs.
Proof. induction 1 as [|b bs Hb _ IH]; [done|]. cbn [fmap list_fmap sum_list sum_list_with length]. by rewrite Hb, <- IH. Qed.

(** The entries of the result of a family. *)
Lemma family_result_spec score threshold m rows results family results' :
  scores_each score -> Forall (fun x => single x.2) rows -> family_result score threshold m rows results family = Ok results' ->
  match family_entries m family with
  | [] => results' = results
  | e :: es => exists u, su_executions u = length (e :: es) /\ results' = od_set family (MkFamily (pe_partition (et_execution e)) u) results
  end.
Proof.
  intros Hs Hr. unfold family_result. destruct (family_entries m family) as [|e es]; [by intros [= <-]|]. intros Hf. inv_res Hf. injection Hf as <-.
  exists v2. split; [|done]. rewrite (summary_executions _ _ _ _ Hv2), (Hs _ _ Hv1), (concatenate_size _ _ Hv0), single_sum; [by eapply rmap_length|].
  apply rmap_Ok in Hv. apply Forall_lookup. intros i b Hb. destruct (Forall2_lookup_r _ _ _ _ _ Hv Hb) as (en & _ & Hen). unfold row_named in Hen.
  destruct (od_get _ rows) as [b'|] eqn:Hg; [|done]. injection Hen as <-. apply od_get_Some_elem in Hg. rewrite Forall_forall in Hr. by apply (Hr _ Hg).
Qed.

Definition digest (x : string * FamilyResult) : string * string * nat := (x.1, fr_partition x.2, su_executions (fr_summary x.2)).
Definition expected (m : Manifest) (family : string) : string * string * nat :=
  (family, match family_entries m family with e :: _ => pe_partition (et_execution e) | [] => EmptyString end, length (family_entries m family)).
Lemma family_results_spec score threshold m rows families : scores_each score -> Forall (fun x => single x.2) rows -> Forall (fun f => family_entries m f <> []) families ->
  forall acc results, NoDup (acc.*1 ++ families) -> rfold (family_result score threshold m rows) acc families = Ok results -> digest <$> results = (digest <$> acc) ++ (expected m <$> families).
Proof.
  intros Hs Hr. induction 1 as [|f families Hf _ IH]; intros acc results Hnd Hres; cbn [rfold] in Hres; [injection Hres as <-; by rewrite app_nil_r|].
  inv_res Hres. apply family_result_spec in Hv; [|done|done]. unfold expected at 1. cbn [fmap list_fmap]. destruct (family_entries m f) as [|e es] eqn:He; [done|].
  destruct Hv as (u & Hu & ->). apply NoDup_app in Hnd as Hnd'. rewrite od_set_fresh in Hres by (apply od_get_None; set_solver).
  apply IH in Hres; [|rewrite fmap_app, <- app_assoc; exact Hnd]. rewrite Hres, fmap_app, <- app_assoc. cbn [fmap list_fmap app]. unfold digest at 2. cbn [fst snd fr_partition fr_summary]. by rewrite Hu.
Qed.

(** What an evaluation says of the executions it is made from. *)
Definition judged (m : Manifest) (familiar heldout : ModelBatch) (e : Evaluation) : Prop :=
  su_executions (ev_familiar e) = batch_size familiar /\ su_executions (ev_heldout e) = batch_size heldout /\ digest <$> fa_results (ev_families e) = expected m <$> mn_families m.
Definition evaluable (m : Manifest) (rows : rows_of) : Prop := Forall (fun x => single x.2) rows /\ Forall (fun f => family_entries m f <> []) (mn_families m) /\ NoDup (mn_families m).

Lemma families_judged score threshold m rows results : evaluable m rows -> scores_each score -> family_results score threshold m rows = Ok results ->
  digest <$> results = expected m <$> mn_families m.
Proof. intros (Hr & Hf & Hnd) Hs Hres. by apply family_results_spec in Hres. Qed.

Definition threshold_of (x : evaluate_args) (scores : list float) : result float := quantile_higher scores (fsub (float_of_int 1) (fdiv (ea_reviews_per_million x) million)).
Lemma baseline_report_spec name b calibration familiar heldout m rows x e : evaluable m rows ->
  _baseline_report name b calibration familiar heldout m rows (ea_reviews_per_million x) = Ok e -> judged m familiar heldout e /\ threshold_of x (baseline_score b calibration) = Ok (ev_threshold e).
Proof.
  intros Hev He. unfold _baseline_report in He. cbn [rbind] in He. apply rbind_Ok in He as (threshold & Ht & He). apply rbind_Ok in He as ([reloaded restored] & _ & He). inv_res He. injection He as <-.
  unfold judged. cbn [ev_familiar ev_heldout ev_families ev_threshold]. split; [|done].
  repeat match goal with H : _score_summary _ _ _ = Ok _ |- _ => apply summary_executions in H; rewrite H end. rewrite !baseline_each. split_and!; [done|done|].
  match goal with H : _family_results _ _ _ _ = Ok _ |- _ => unfold _family_results in H; apply rbind_Ok in H as (results & Hres & H); inv_res H; injection H as <- end. cbn [fa_results].
  eapply families_judged; [done| |exact Hres]. intros b' l [= <-]. apply baseline_each.
Qed.
Lemma evaluate_model_spec t familiar heldout evaluation m rows e : evaluable m rows ->
  evaluate_model t familiar heldout evaluation m rows = Ok e -> judged m familiar heldout e /\ ev_threshold e = tr_threshold t.
Proof.
  intros Hev He. unfold evaluate_model in He. inv_res He. injection He as <-. unfold judged. cbn [ev_familiar ev_heldout ev_families ev_threshold fa_results]. split; [|done].
  repeat match goal with H : _score_summary _ _ _ = Ok _ |- _ => apply summary_executions in H; rewrite H; clear H end.
  repeat match goal with H : score_with _ _ = Ok _ |- _ => apply model_scores_each in H; rewrite H; clear H end. split_and!; [done|done|].
  eapply families_judged; [done| |done]. apply model_scores_each.
Qed.

(** What a report is made from: the partitions, models and thresholds that use only two of them, and evaluations. *)
Record reported (x : evaluate_args) (m : Manifest) (rows : rows_of) (r : Report) (training calibration familiar heldout : ModelBatch) : Prop := MkReported {
  rd_training : _partition m rows "training" = Ok training;
  rd_calibration : _partition m rows "calibration" = Ok calibration;
  rd_familiar : _partition m rows "familiar_validation" = Ok familiar;
  rd_heldout : _partition m rows "heldout_family" = Ok heldout;
  rd_sizes : re_partitions r = zip PARTITIONS (batch_size <$> [training; calibration; familiar; heldout]);
  rd_baselines : exists marginal pca, re_baselines r = [("marginal", marginal); ("pt_only_pca", pca)] /\
    threshold_of x (baseline_score (fit_marginal training) calibration) = Ok (ev_threshold marginal) /\
    threshold_of x (baseline_score (fit_right_vectors training (Z.to_nat (ea_pt_pca_dimensions x))) calibration) = Ok (ev_threshold pca) /\
    judged m familiar heldout marginal /\ judged m familiar heldout pca;
  rd_models : exists fused span, re_models r = [("fused", fused); ("span-only", span)] /\
    _train_one x training calibration (ea_whole_modality_probability x) = Ok fused.1 /\ _train_one x training calibration zero = Ok span.1 /\
    ev_threshold fused.2 = tr_threshold fused.1 /\ ev_threshold span.2 = tr_threshold span.1 /\
    judged m familiar heldout fused.2 /\ judged m familiar heldout span.2;
}.

Lemma evaluate_corpus_spec x m rows r : evaluable m rows -> evaluate_corpus x m rows = Ok r -> exists training calibration familiar heldout, reported x m rows r training calibration familiar heldout.
Proof.
  intros Hev Hr. unfold evaluate_corpus in Hr. apply rbind_Ok in Hr as (training & H1 & Hr). apply rbind_Ok in Hr as (calibration & H2 & Hr). apply rbind_Ok in Hr as (familiar & H3 & Hr).
  apply rbind_Ok in Hr as (heldout & H4 & Hr). apply rbind_Ok in Hr as (evaluation & H5 & Hr). apply rbind_Ok in Hr as (pca & H6 & Hr). apply rbind_Ok in Hr as (e1 & H7 & Hr). apply rbind_Ok in Hr as (e2 & H8 & Hr).
  apply rbind_Ok in Hr as (models & H9 & [= <-]). exists training, calibration, familiar, heldout. apply baseline_report_spec in H7 as [J1 T1]; [|done]. apply baseline_report_spec in H8 as [J2 T2]; [|done].
  unfold PtPcaBaseline_fit in H6. destruct (_ <=? 0); [done|]. injection H6 as <-. split; try done; [by exists e1, e2|]. cbn [re_models rmap fst snd] in *.
  apply rbind_Ok in H9 as (p1 & M1 & H9). apply rbind_Ok in M1 as (t1 & Ht1 & M1). apply rbind_Ok in M1 as (v1 & E1 & [= <-]). apply rbind_Ok in H9 as (l & H9 & [= <-]).
  apply rbind_Ok in H9 as (p2 & M2 & [= <-]). apply rbind_Ok in M2 as (t2 & Ht2 & M2). apply rbind_Ok in M2 as (v2 & E2 & [= <-]).
  apply evaluate_model_spec in E1 as [K1 R1]; [|done]. apply evaluate_model_spec in E2 as [K2 R2]; [|done]. by exists (t1, v1), (t2, v2).
Qed.

(** ** Judging without a look *)

(** What is fitted and calibrated does not depend on what it is judged on: two corpora
    with the same training and calibration executions give the same models, losses and
    thresholds, whatever executions they hold for validation. *)
Theorem evaluation_blind x m rows r m' rows' r' : evaluable m rows -> evaluable m' rows' ->
  _partition m rows "training" = _partition m' rows' "training" -> _partition m rows "calibration" = _partition m' rows' "calibration" ->
  evaluate_corpus x m rows = Ok r -> evaluate_corpus x m' rows' = Ok r' ->
  (fun p => (p.1, ev_threshold p.2)) <$> re_baselines r = (fun p => (p.1, ev_threshold p.2)) <$> re_baselines r' /\
  (fun p => (p.1, p.2.1, ev_threshold p.2.2)) <$> re_models r = (fun p => (p.1, p.2.1, ev_threshold p.2.2)) <$> re_models r'.
Proof.
  intros He He' Ht Hc Hr Hr'. apply evaluate_corpus_spec in Hr as (t & c & f & h & [P1 P2 _ _ _ (b1 & b2 & -> & T1 & T2 & _) (f1 & s1 & -> & M1 & M2 & R1 & R2 & _)]); [|done].
  apply evaluate_corpus_spec in Hr' as (t' & c' & f' & h' & [Q1 Q2 _ _ _ (b1' & b2' & -> & T1' & T2' & _) (f1' & s1' & -> & M1' & M2' & R1' & R2' & _)]); [|done].
  assert (t = t') as <- by congruence. assert (c = c') as <- by congruence. split; cbn [fmap list_fmap fst snd]; [congruence|]. rewrite R1, R2, R1', R2'. assert (f1.1 = f1'.1) as -> by congruence. assert (s1.1 = s1'.1) as -> by congruence. done.
Qed.

(** ** From the plan to the report *)

Context {Bytes : Type} (torn : nat -> Bytes -> Bytes) `{EqDecision D} (sha256 : Bytes -> D).
Context (save_raw : RawPayload -> Bytes) (save_derived : @DerivedPayload D -> Bytes) (torch_load : Bytes -> result (@DerivedPayload D)) (json_hash : Manifest -> D).
Context (torch_roundtrip : forall p, torch_load (save_derived p) = Ok p).
Context (log1p : float -> float) (pow : float -> Z -> float) (fsum : list float -> float) (target_cpu data_pages aux_pages loop_scale : Z) (capture_retries : nat).
Context (attempts : nat -> machine * child) (crashes : nat -> option nat) {R : Type} `{RandomLaws R}.
Notation collect := (collect torn sha256 save_raw save_derived json_hash log1p pow fsum target_cpu data_pages aux_pages loop_scale capture_retries attempts crashes).

Definition train_and_evaluate (x : evaluate_args) (artifact : Artifact) : result Report :=
  let! (manifest, rows) := load_dataset sha256 torch_load json_hash artifact in
  evaluate_corpus x manifest rows.

(** [run] after its arguments are checked: collecting, training, or one after the other. *)
Record run_args := MkRun { ra_collect_only : bool; ra_train_only : bool; ra_timeout_positive : bool; ra_collect : collect_args; ra_evaluate : evaluate_args }.
Definition run (x : run_args) : sx campaign capture_exn (option Manifest * option Report) :=
  run! slift (plain (raise! ValueError "collect-only and train-only are mutually exclusive" when ra_collect_only x && ra_train_only x in Ok tt)) in
  run! slift (plain (raise! ValueError "loop scale, repetitions, and timeout must be positive"
                       when (loop_scale <=? 0) || (ar_repetitions (ra_collect x) <=? 0) || negb (ra_timeout_positive x) in Ok tt)) in
  let training := fun s => (s, plain (train_and_evaluate (ra_evaluate x) (cg_artifact s))) in
  if ra_collect_only x then do! m := collect (ra_collect x) in sret (Some m, None)
  else if ra_train_only x then do! r := training in sret (None, Some r)
  else do! m := collect (ra_collect x) in do! r := training in sret (Some m, Some r).

Definition evaluations (r : Report) : list Evaluation := (snd <$> re_baselines r) ++ ((fun p => p.2.2) <$> re_models r).

Notation rows_for a m := (rows_in (mn_heldout m) (ar_repetitions a) (ar_training_rows a) (ar_calibration_rows a)).
Notation artifact_entry := (entry_of sha256 save_raw save_derived).

(** The entries of a collected corpus, counted. *)
Lemma collected_counts a s0 s m : af_manifest (cg_artifact s0) = None -> collect a s0 = (s, Ok m) ->
  exists cs, load_dataset sha256 torch_load json_hash (cg_artifact s) = Ok (m, row_of <$> cs) /\ mn_entries m = artifact_entry <$> cs /\ mn_families m = ar_families a /\ NoDup (ar_families a) /\
    NoDup (id_of <$> cs) /\ Forall sealable cs /\
    (forall name, length (filter (in_partition name) cs) = sum_list (rows_for a m name <$> ar_families a)) /\
    forall f, f ∈ ar_families a -> length (family_entries m f) = (rows_for a m "familiar_validation" f + rows_for a m "heldout_family" f)%nat /\ family_entries m f <> [] /\
      expected m f = (f, judged_in (mn_heldout m) f, (rows_for a m "familiar_validation" f + rows_for a m "heldout_family" f)%nat).
Proof.
  intros Hm Hc. pose proof (collect_spec torn sha256 save_raw save_derived torch_load json_hash torch_roundtrip log1p pow fsum target_cpu data_pages aux_pages loop_scale capture_retries attempts crashes a s0 Hm) as Hs.
  unfold wp in Hs. rewrite Hc in Hs. destruct Hs as (Hp & Hl & Ha & Hin & Hnd & Heq). set (cs := bk_entries (cg_books s)) in *. exists cs.
  pose proof (plan_exact (ar_families a) (ar_repetitions a) (ar_training_rows a) (ar_calibration_rows a) (ar_heldout_family_count a) (ar_seed a)) as Hx. rewrite Hp in Hx.
  destruct Hx as ((_ & Hfam & _ & Hrows & Ht & Hcal & _) & _ & Hpairs & _ & _ & _ & Hpart).
  assert (Hs : Forall sealable cs) by (by eapply ledger_sealable).
  assert (Hfams : Forall (fun e => pe_family e ∈ ar_families a) (co_execution <$> cs)).
  { apply Forall_forall. intros e He. assert (Hi : (pe_family e, pe_repetition e) ∈ (fun e => (pe_family e, pe_repetition e)) <$> (co_execution <$> cs)) by (by apply (list_elem_of_fmap_2 (fun e => (pe_family e, pe_repetition e)))).
    rewrite Hpairs in Hi. apply list_elem_of_bind in Hi as (f & Hf & Hi). by apply list_elem_of_fmap in Hf as (k & [= -> _] & _). }
  assert (Hes : mn_entries m = artifact_entry <$> cs) by (by rewrite Heq).
  assert (Hfe : forall f, family_entries m f = artifact_entry <$> filter (fun c => family_judged f (co_execution c)) cs).
  { intros f. unfold family_entries. rewrite Hes. apply (filter_entries sha256 save_raw save_derived (family_judged f)). }
  split_and!; [|done|by rewrite Heq|done|done|done| |].
  - eapply collected_loads; [done|done|done|done|done|by eexists _, _].
  - intros name. rewrite <- (partition_count (ar_families a) _ _ _ _ (co_execution <$> cs)) by done. by rewrite length_filter_fmap.
  - intros f Hf. assert (Hlen : length (family_entries m f) = (rows_for a m "familiar_validation" f + rows_for a m "heldout_family" f)%nat).
    { rewrite Hfe, length_fmap, <- (family_count (ar_families a) _ _ _ _ (co_execution <$> cs)) by done. by rewrite length_filter_fmap. }
    pose proof (family_count_pos (mn_heldout m) (ar_repetitions a) (ar_training_rows a) (ar_calibration_rows a) Hrows Ht Hcal f) as Hpos.
    split; [done|]. split; [intros Hn; rewrite Hn in Hlen; simpl in Hlen; lia|]. unfold expected. rewrite Hlen. do 2 f_equal.
    rewrite Hfe in *. destruct (filter _ cs) as [|c l] eqn:Hcs; [simpl in Hlen; lia|]. cbn [fmap list_fmap entry_of et_execution].
    apply (family_partition (ar_families a) _ (ar_repetitions a) (ar_training_rows a) (ar_calibration_rows a) (co_execution <$> cs)); try done.
    assert (Hc1 : c ∈ filter (fun c => family_judged f (co_execution c)) cs) by (rewrite Hcs; left). apply list_elem_of_filter in Hc1 as [Hj Hc1]. apply list_elem_of_filter. split; [done|]. by apply list_elem_of_fmap_2.
Qed.

Lemma partition_size m cs name batch : mn_entries m = artifact_entry <$> cs -> NoDup (id_of <$> cs) -> Forall sealable cs ->
  _partition m (row_of <$> cs) name = Ok batch -> batch_size batch = length (filter (in_partition name) cs).
Proof.
  intros Hm Hnd Hs Hp. rewrite (partition_rows_exact sha256 save_raw save_derived torch_load torch_roundtrip m cs name Hm Hnd) in Hp. rewrite (concatenate_size _ _ Hp), single_sum, length_fmap; [done|].
  apply Forall_fmap, Forall_forall. intros c [_ Hc]%list_elem_of_filter. rewrite Forall_forall in Hs. by destruct (Hs c Hc).
Qed.

(** A run that collects and trains. *)
Lemma run_both x s0 s m r : run x s0 = (s, Ok (Some m, Some r)) -> exists s1, collect (ra_collect x) s0 = (s1, Ok m) /\ train_and_evaluate (ra_evaluate x) (cg_artifact s1) = Ok r.
Proof.
  unfold run. intros Hr. apply sbind_Ok in Hr as (s1 & [] & K1 & Hr). apply sbind_Ok in Hr as (s2 & [] & K2 & Hr). injection K1 as -> _. injection K2 as -> _.
  destruct (ra_collect_only x); [by apply sbind_Ok in Hr as (s3 & m' & _ & [=])|]. destruct (ra_train_only x); [by apply sbind_Ok in Hr as (s3 & m' & _ & [=])|].
  apply sbind_Ok in Hr as (s3 & m' & Hc & Hr). apply sbind_Ok in Hr as (s4 & r' & Ht & [= <- <- <-]). exists s3. split; [done|]. injection Ht as _ Ht. by destruct (train_and_evaluate _ _); [injection Ht as <-|].
Qed.

End evaluate.

(** ** A small run *)

(** Scores of zero, from a network without errors; permutations in order. *)
Definition example_evaluate : evaluate_args := MkEvaluate 4 2 4 1 1 2 8 (float_of_int 1) zero 5 zero (float_of_int 10000) 2.
Definition example_run_args : run_args := MkRun false false true example_args example_evaluate.
Definition flat_score (b : unit) (m : ModelBatch) : list float := replicate (batch_size m) zero.
Lemma flat_score_each b m : length (flat_score b m) = batch_size m.
Proof. apply length_replicate. Qed.
Notation example_run :=
  (@run string no_value no_value no_value (fun _ _ => Ok zero) unit (fun _ => tt) (fun _ _ => tt) flat_score (fun _ b t => Ok (b, t))
    unit (fun _ => tt) (fun _ w => w) no_error unit (fun _ _ _ => tt) (fun w o _ _ => (w, o)) no_value id (fun a _ => a) unit in_order_perm
    (fun g => (zero, g)) (fun low _ g => (low, g)) (fun _ w => Ok w) example_bytes (fun _ y => y) _ example_sha256 inl inr example_load (fun _ => "json")
    id (fun x _ => x) (fun l => default zero (head l)) 3 1 1 2 1 example_attempts (fun _ => None) Z reversing example_run_args (MkCampaign new_books (MkArtifact [] None))).

Lemma example_run_ok : match example_run.2 with Ok (Some m, Some r) => Some (mn_heldout m) | _ => None end = Some ["getpid"].
Proof. vm_compute. reflexivity. Qed.

