(* ===== verification/DigitTrain.v ===== *)
(** * Learning digits from counts ([examples/learn_trace.py]: [fit], [accuracy] and [train])

    The classifier is trained on the training rows, checked on the test rows and
    against shuffled labels and shuffled traces, and saved with its metrics whether it
    passes or not. The linear layer is an argument: its initial parameters, loss,
    gradient step and predictions. *)

From Stdlib Require SpecFloat.
From S2P Require Import Prelude Monad Batch Floats Features TraceSketch SketchTorch DigitCounts DigitDataset.

Section train.
Context {F : Type} `{FloatOps F} {G : Type} `{PermOps G}.
(** [x / INPUT_DIGITS] *)
Context (scaled : F -> F).
(** Parameters with the state of Adam; those of a seed, the loss, whether all gradients are finite, a step, and the class with the highest score. *)
Context {M : Type} (seeded_model : Z -> M) (loss : M -> list (list F) -> list Z -> float) (finite_gradients : M -> list (list F) -> list Z -> bool)
  (adam : M -> list (list F) -> list Z -> M) (predict : M -> list F -> Z).
(** What the environment has: MPS, CUDA. *)
Context (mps_available cuda_available : bool).

(** ** [fit] and [accuracy] *)

Definition fit_epoch (features : list (list F)) (labels : list Z) (s : M * list float) : result (M * list float) :=
  let '(model, losses) := s in
  raise! RuntimeError "Training produced a non-finite gradient" when negb (finite_gradients model features labels) in
  Ok (adam model features labels, losses ++ [loss model features labels]).
Definition fit (features : list (list F)) (labels : list Z) (epochs seed : Z) : result (M * list float) :=
  rfold (fun s _ => fit_epoch features labels s) (seeded_model seed, []) (seq 0 (Z.to_nat epochs)).

(** [(predictions == labels).to(torch.float32).mean()] *)
Definition fraction (hits total : nat) : float := SpecFloat.SFdiv 24 128 (float32_of_int (Z.of_nat hits)) (float32_of_int (Z.of_nat total)).
Definition equal_labels (predictions labels : list Z) : nat := length (filter (fun p => p.1 = p.2) (zip predictions labels)).
Definition accuracy (model : M) (features : list (list F)) (labels : list Z) : float := fraction (equal_labels (predict model <$> features) labels) (length labels).

(** ** [train] *)

Record Metrics := MkMetrics {
  mt_device : string; mt_seed : Z; mt_epochs : Z; mt_train_examples : nat; mt_test_examples : nat; mt_first_loss : float; mt_last_loss : float;
  mt_train_accuracy : float; mt_test_accuracy : float; mt_majority_accuracy : float; mt_shuffled_label_accuracy : float; mt_shuffled_trace_accuracy : float;
  mt_passed : bool;
}.
(** What the output directory holds: the model with its rows and metrics, and the losses. *)
Record Saved := MkSaved { sv_model : M; sv_train_rows : list nat; sv_test_rows : list nat; sv_metrics : Metrics; sv_losses : list float }.

(** [rows[indices]] *)
Definition pick {A} (indices : list nat) (rows : list A) : list A := omap (fun i => rows !! i) indices.

Definition check_device (device : string) : result unit :=
  raise! ValueError "Choose CPU, MPS or CUDA" when negb (existsb (String.eqb device) ["cpu"; "mps"; "cuda"]) in
  raise! RuntimeError "MPS is unavailable in this Python environment" when String.eqb device "mps" && negb mps_available in
  raise! RuntimeError "CUDA is unavailable in this Python environment" when String.eqb device "cuda" && negb cuda_available in
  Ok tt.

(** The four conditions of [passed]. *)
Definition passes (test first last shuffled_label shuffled_trace : float) : bool :=
  SpecFloat.SFleb (int_truediv 9 10) test && SpecFloat.SFltb last (fmul first (int_truediv 1 5)) &&
  SpecFloat.SFltb shuffled_label (int_truediv 3 10) && SpecFloat.SFltb shuffled_trace (int_truediv 3 10).

(** Everything up to writing the output. *)
Definition train_model (dataset : Dataset F) (device : string) (epochs seed : Z) : result Saved :=
  raise! ValueError "Epochs must be positive" when epochs <? 1 in
  let! _ := check_device device in
  let! (features, labels, _) := validate_dataset dataset in
  let '(train_rows, test_rows) := split_indices labels seed in
  let features := map (map scaled) features in
  let training := pick train_rows features in
  let testing := pick test_rows features in
  let train_labels := pick train_rows labels in
  let test_labels := pick test_rows labels in
  let! (model, losses) := fit training train_labels epochs seed in
  let '(order, g) := randperm (length train_labels) (seeded (seed + 1)) in
  let! (shuffled_model, _) := fit training (pick order train_labels) epochs seed in
  let '(order, g) := randperm (length test_rows) g in
  let majority_label := Z.of_nat (argmax (bincount train_labels CLASSES)) in
  match losses, last losses with
  | first :: _, Some last =>
      let test := accuracy model testing test_labels in
      let shuffled_label := accuracy shuffled_model testing test_labels in
      let shuffled_trace := accuracy model (pick order testing) test_labels in
      Ok (MkSaved model train_rows test_rows
        (MkMetrics device seed epochs (length train_rows) (length test_rows) first last (accuracy model training train_labels) test
           (fraction (length (filter (fun l => l = majority_label) test_labels)) (length test_labels)) shuffled_label shuffled_trace
           (passes test first last shuffled_label shuffled_trace)) losses)
  | _, _ => throw IndexError "list index out of range"
  end.

(** [train]: the state is what the output directory holds. *)
Definition train (dataset : Dataset F) (device : string) (epochs seed : Z) : sx (option Saved) exn Metrics :=
  do! saved := slift (train_model dataset device epochs seed) in
  run! smodify (fun _ => Some saved) in
  if mt_passed (sv_metrics saved) then sret (sv_metrics saved) else sraise (Exn RuntimeError "Learning validation failed").

(** ** What is saved *)

Lemma fit_losses features labels epochs seed model losses : 0 <= epochs -> fit features labels epochs seed = Ok (model, losses) -> Z.of_nat (length losses) = epochs.
Proof.
  intros He. unfold fit. intros Hf. assert (Hgen : forall l m ls m' ls', rfold (fun s (_ : nat) => fit_epoch features labels s) (m, ls) l = Ok (m', ls') -> length ls' = (length ls + length l)%nat).
  { induction l as [|n l IH]; intros m ls m' ls' Hl; cbn [rfold] in Hl; [injection Hl as _ <-; simpl; lia|]. apply rbind_Ok in Hl as ([m1 l1] & H1 & Hl). unfold fit_epoch in H1. inv_res H1. injection H1 as _ <-.
    apply IH in Hl. rewrite Hl, length_app. simpl. lia. }
  apply Hgen in Hf. rewrite Hf, length_seq. simpl. lia.
Qed.

(** What was trained on what: the saved model is the fit of its training rows alone. *)
Definition trained_on (features : list (list F)) (labels : list Z) (epochs seed : Z) (s : Saved) : Prop :=
  fit (pick (sv_train_rows s) (map (map scaled) features)) (pick (sv_train_rows s) labels) epochs seed = Ok (sv_model s, sv_losses s) /\
  mt_test_accuracy (sv_metrics s) = accuracy (sv_model s) (pick (sv_test_rows s) (map (map scaled) features)) (pick (sv_test_rows s) labels) /\
  mt_passed (sv_metrics s) = passes (mt_test_accuracy (sv_metrics s)) (mt_first_loss (sv_metrics s)) (mt_last_loss (sv_metrics s)) (mt_shuffled_label_accuracy (sv_metrics s)) (mt_shuffled_trace_accuracy (sv_metrics s)).

Lemma train_model_spec d device epochs seed s : train_model d device epochs seed = Ok s ->
  1 <= epochs /\ exists features labels inputs, validate_dataset d = Ok (features, labels, inputs) /\ (sv_train_rows s, sv_test_rows s) = split_indices labels seed /\ trained_on features labels epochs seed s.
Proof.
  unfold train_model. intros Hs. inv_res Hs. bool_prop. split; [done|]. destruct v0 as [ [features labels] inputs]. exists features, labels, inputs. split; [done|].
  destruct (split_indices labels seed) as [train_rows test_rows]. apply rbind_Ok in Hs as ([model losses] & Hfit & Hs). destruct (randperm _ (seeded (seed + 1))) as [order g].
  apply rbind_Ok in Hs as ([shuffled x] & _ & Hs). destruct (randperm (length test_rows) g) as [order' g']. destruct losses as [|first losses]; [done|]. destruct (last (first :: losses)) as [z|]; [|done].
  injection Hs as <-. split; [done|]. by split_and!.
Qed.
End train.

(** C40: what [train] saves is honest and leaks nothing. Whatever the network does: without
    output there is an error; with it, the dataset was accepted, every row is in exactly one
    of the two saved lists of rows and no test row shares its input with a training row;
    the saved model and its losses, one for each epoch, are the fit of the training rows
    and labels alone; the test accuracy is that model's on the test rows; and [train]
    returns its metrics exactly if they pass, and raises otherwise. *)
Theorem digit_training_honest {F G : Type} `{FloatLaws F} `{PermLaws G} (scaled : F -> F) {M : Type} (seeded_model : Z -> M)
  (loss : M -> list (list F) -> list Z -> float) (finite_gradients : M -> list (list F) -> list Z -> bool) (adam : M -> list (list F) -> list Z -> M) (predict : M -> list F -> Z)
  (mps cuda : bool) (d : Dataset F) (f : FTensor F) (l i : tensor) (device : string) (epochs seed : Z)
  (Hf : ds_features d = Some f) (Hl : ds_labels d = Some l) (Hi : ds_inputs d = Some i) (Hlok : tensor_ok l) (Hiok : tensor_ok i) :
  let '(saved, r) := train scaled seeded_model loss finite_gradients adam predict mps cuda d device epochs seed None in
  match saved with
  | None => is_ok r = false
  | Some s => exists features labels inputs, validate_dataset d = Ok (features, labels, inputs) /\
      sv_train_rows s ++ sv_test_rows s ≡ₚ seq 0 (length labels) /\ (forall a b, a ∈ sv_train_rows s -> b ∈ sv_test_rows s -> inputs !! a <> inputs !! b) /\
      trained_on scaled seeded_model loss finite_gradients adam predict features labels epochs seed s /\ Z.of_nat (length (sv_losses s)) = epochs /\
      r = if mt_passed (sv_metrics s) then Ok (sv_metrics s) else throw RuntimeError "Learning validation failed"
  end.
Proof.
  unfold train, sbind, slift, smodify. destruct (train_model _ _ _ _ _ _ _ _ _ _ _ _) as [s|e] eqn:Ht; [|done]. apply train_model_spec in Ht as (He & features & labels & inputs & Hv & Hsplit & Htr).
  assert (Hgood : good_rows (ft_data f) labels inputs).
  { destruct (proj1 (validate_dataset_exact d f l i Hf Hl Hi Hlok Hiok) (ex_intro _ _ Hv)) as [_ Hg]. unfold validate_dataset in Hv. rewrite Hf, Hl, Hi in Hv. inv_res Hv. by injection Hv as _ <- <-. }
  pose proof (split_keeps_apart (ft_data f) labels inputs seed Hgood) as Hs. rewrite <- Hsplit in Hs. destruct Hs as (Hperm & _ & Hapart).
  destruct (mt_passed (sv_metrics s)) eqn:Hp; cbn [sret sraise]; exists features, labels, inputs; (split; [done|]; split; [done|]; split; [intros a b Ha Hb; by apply Hapart|]; split; [done|]; split; [|by rewrite Hp]; destruct Htr as [Hfit _]; eapply fit_losses; [|exact Hfit]; lia).
Qed.

(** Fifty generated rows and a predictor that is always right: it passes if shuffling breaks it, and here it does not. *)
Lemma digit_training_honest_witness :
  let '(saved, r) := train (F := Z) (G := unit) id (fun _ => 0) (fun m _ _ => float_of_int (10 - m)) (fun _ _ _ => true) (fun m _ _ => m + 9) (fun _ row => Z.of_nat (argmax row)) false false
    made_dataset "cpu" 2 0 None in
  exists s, saved = Some s /\ length (sv_losses s) = 2%nat /\ r = throw RuntimeError "Learning validation failed".
Proof.
  pose proof (digit_training_honest (F := Z) (G := unit) id (fun _ => 0) (fun m _ _ => float_of_int (10 - m)) (fun _ _ _ => true) (fun m _ _ => m + 9) (fun _ row => Z.of_nat (argmax row)) false false
    made_dataset made_features made_labels made_inputs "cpu" 2 0 eq_refl eq_refl eq_refl (proj1 made_tensors_ok) (proj2 made_tensors_ok)) as H.
  destruct (train _ _ _ _ _ _ _ _ made_dataset "cpu" 2 0 None) as [saved r] eqn:Ht.
  assert (Hs : match saved with Some s => mt_passed (sv_metrics s) = false | None => False end).
  { apply (f_equal fst) in Ht. cbn [fst] in Ht. rewrite <- Ht. vm_compute. reflexivity. }
  destruct saved as [s|]; [|destruct Hs]. destruct H as (features & labels & inputs & _ & _ & _ & _ & Hlen & Hr). exists s. split; [reflexivity|]. split; [lia|]. by rewrite Hr, Hs.
Defined.
